(* ===== verification/_CoqProject ===== *)
-Q . S2P
Prelude.v
Qemu.v
Libc.v
LibcSpec.v
Ipc.v
Cks.v
Fifo.v
Tlsf.v
TlsfMem.v
TlsfMapping.v
TlsfLists.v
TlsfPhys.v
TlsfInv.v
TlsfSteps.v
TlsfMalloc.v
TlsfFree.v
TlsfRealloc.v
TlsfSpec.v
TlsfRefine.v
TlsfReach.v
Timeouts.v
TimeoutsSpec.v
TimeoutsFire.v
TimeoutsBooked.v
Uart.v
Clic.v
ClicSpec.v
Clint.v
Dma.v
DmaSpec.v
DmaSched.v
DmaPort.v
Timer.v
TimerSpec.v
SecHash.v
SecEng.v
SecHashSpec.v
SecAesSpec.v
SecEngSpec.v
SecEngRun.v
SfCtrl.v
SfCtrlSpec.v
SfCtrlRun.v
SfFlash.v
Dma2d.v
Dma2dSpec.v
Boot.v
BootSpec.v
BootRun.v
Spi.v
SpiSpec.v
SpiHal.v
I2c.v
I2cSpec.v
I2cHal.v
Pwm.v
PwmSpec.v
Glb.v
GlbSpec.v
Sleep.v
SleepSpec.v
HbnSpec.v
SleepGlb.v
