(* ===== verification/Prelude.v ===== *)
(** * The BL808 machine and its kernel: verification library

    The repository holds a hardware abstraction layer and a kernel for the
    BL808 (a system-on-chip with three RISC-V cores), written in Nim over a C
    runtime, and a model of the chip for the QEMU emulator, written in C, on
    which that software runs.  This library models C code of both halves and
    proves it correct:

    - the runtime of the kernel, under [src/src/bl808/kernel]: the heap, the C
      library of the bare-metal build, and the timers of the network stack;
    - the device models of the emulator, under [src/qemu-machine/hw]: the two
      interrupt controllers, the UART, the SPI and I2C controllers, the DMA
      controller, the timers and the watchdog, the PWM, the mailbox, the checksum
      engine, the security engine, the serial flash controller, the 2D DMA engine
      and the global control block, and the parts of the machine itself that boot it
      from flash, control its pads, and put it to sleep and wake it up: power-down
      and hibernation.

    Four drivers of the HAL that run on these models are followed to the
    registers they write: those of the flash, the 2D DMA engine, SPI and I2C.

    ** How the parts interact

    Software reaches a device by reads and writes of its registers (the
    [_read] and [_write] handlers); a device answers with interrupt lines, with
    timers of the emulator, and with accesses to physical memory.  The lines of
    the devices are inputs of the interrupt controllers, which choose the
    interrupt a core takes.  The DMA controller moves items between memory and
    the request lines of peripherals, the UART among them; the two are composed
    in [DmaPort].  The 2D DMA engine reaches the same memory.  The flash
    controller owns the flash chip: software reaches the chip by commands
    ([SfFlash] composes the HAL driver with the controller) and reads it through
    two windows, the boot ROM reads its boot headers and partition tables, and
    [BootRun] shows that the code the boot ROM jumps to is what the window
    shows there.  The SPI and I2C controllers exchange frames and bytes with the
    devices of a bus, which is an interface ([SSIBus], [I2CBus]).  The SPI
    controller works in bottom halves, so its driver is a program of register
    accesses between which the main loop of the emulator has turns ([SpiHal]).  The
    global control block gates the clocks and resets of other devices through
    callbacks on a world that holds them ([BL808GLBHook]), and its calls on
    the lines of the pins are logged for those who listen to them.  These are the
    two sleep controllers: PDS (power-down) receives the levels of the ordinary
    pins and the interrupt of the block, HBN (hibernation) the levels of the pins of
    its always-on domain, and the interrupts of HBN are a wake-up source of PDS.  In
    turn HBN settles the pads of its domain.  What the sleep controllers ask of
    the rest of the machine, the parts of the reset of the machine that concern other
    devices among it, is an interface ([SleepEnv]); [SleepGlb] is the instance with the
    pads.  The kernel's heap, C library and network timers run on the cores
    and share only memory.

    ** The files

    Shared:
    - [Prelude]: machine integers, bit and byte lemmas, arrays, record update,
      lists, tactics and hints.
    - [Qemu]: what the device models rely on of the emulator, as interfaces:
      device reset, 64-bit multiply-divide, accesses to physical memory
      ([PhysMem], with the laws [Ram] of a range of memory).
    - [Fifo]: ring buffers of the devices as queues.

    The heap, [kernel/tlsf.c]:
    - [Tlsf]: the definitions, over a byte memory, for both word sizes.
    - [TlsfMapping] (size classes), [TlsfMem] (header fields), [TlsfLists]
      (segregated lists), [TlsfPhys] (the tiling of the pool): the layers of the
      invariant.
    - [TlsfInv], [TlsfSteps]: the heap invariant [heap_inv] and its preservation
      by block operations; [TlsfMalloc], [TlsfFree], [TlsfRealloc]: by the
      public operations; [TlsfSpec]: [tlsf_init] and the walks.
    - [TlsfRefine]: the abstract heap, a finite map from pointers to contents,
      and the refinement; [TlsfReach]: what holds of every reachable heap.

    The C library, [kernel/baremetal_libc.c]: [Libc], [LibcSpec].

    The network timers, [kernel/lwip_wifi_smoke/timeouts.c]: [Timeouts]
    (definitions, over 32-bit or unbounded time), [TimeoutsSpec] (the two agree),
    [TimeoutsFire] (a check over unbounded time), [TimeoutsBooked] (the periodic
    timers).

    The devices, each with its state as a record named as in the C code, one
    definition per function, named as the function:
    - [Ipc] for [misc/bl808_ipc.c], [Cks] for [misc/bl808_cks.c], [Uart] for
      [char/bl808_uart.c], [Clint] for [intc/thead_clint.c];
    - [Clic], [ClicSpec] for [intc/xt_clic.c];
    - [Dma], [DmaSpec] (memory to memory), [DmaSched] (scheduling and lines),
      [DmaPort] (peripherals, and the UART as one) for [dma/bl808_dma.c];
    - [Timer], [TimerSpec] for [timer/bl808_timer.c];
    - [SfCtrl] for [misc/bl808_sf_ctrl.c]; [SfCtrlSpec] (the chip, the write
      enable, locks and lengths), [SfCtrlRun] (windows and drive), [SfFlash]
      (the HAL driver [src/bl808/flash.nim] on the controller);
    - [Dma2d] for [dma/bl808_dma2d.c]; [Dma2dSpec] (what a transfer writes, the
      HAL driver [src/bl808/dma2d.nim] on the engine);
    - [Boot] for the boot part of [riscv/bl808.c]: boot headers, partition tables,
      the choice of a slot, the boot ROM, the reset that boots; [BootSpec]
      (what is accepted, the fall back), [BootRun] (boot and window);
    - [Spi] for [ssi/bl808_spi.c]; [SpiSpec] (scheduling of the transfers, lines),
      [SpiHal] (the HAL driver [src/bl808/spi.nim] on the controller);
    - [I2c] for [i2c/bl808_i2c.c]; [I2cSpec] (the protocol on the bus), [I2cHal]
      (the HAL driver [src/bl808/i2c.nim] on the controller);
    - [Pwm] for [timer/bl808_pwm.c]; [PwmSpec] (the periods);
    - [Glb] for [misc/bl808_glb.c] and what [riscv/bl808.c] does with the pads;
      [GlbSpec] (the pads, the clients of the clock gates);
    - [Sleep] for the blocks PDS and HBN and the infrared receiver of
      [riscv/bl808.c]: wake-up sources and pins, sleep and wake-up timer, real-time
      clock and alarm, delayed wake-up pins, sensors, comparators, converter, infrared
      frames, the resets of the blocks and of the machine; [SleepSpec] (steps of the
      machine, sleep and wake-up), [HbnSpec] (delays, alarm, retained
      registers), [SleepGlb] (the pads of [Glb] as the interface, runs on them);
    - [SecHash] (arithmetic of SHA-512 and CRC), [SecEng] (the device),
      [SecHashSpec], [SecAesSpec] (CTR and XTS), [SecEngSpec] (registers and
      lines), [SecEngRun] (runs through the registers) for
      [misc/bl808_sec_eng.c].

    ** What the theorems show

    - Heap.  For programs that keep to their rights the allocator is a map from
      pointers to contents, which the memory of the held allocations shows after
      every step ([tlsf_refines_heap], [shows]): stores, [tlsf_realloc] and
      [tlsf_calloc] change the contents they should and no others.  Allocations
      are disjoint and aligned, freeing everything restores one block, a request
      is served when its internal size (with canary and alignment), rounded up to
      its size class, fits in the largest free block, overruns and double frees
      are detected, and the statistics are the sums they claim to be.  The scans of its bitmaps
      agree with the routines the C library links for them.
    - Network timers.  For handlers with delays within the bounds of the code, and
      positive, the 32-bit code behaves as if the clock never wrapped and every check
      terminates; a check fires only what is due, in order, and leaves nothing due;
      everything that was due is fired if no handler cancels timeouts; and no
      periodic timer is lost or booked twice.
    - C library.  [memmove], [strcmp], 64-bit division, and the other string and
      integer routines against their specifications.
    - Interrupt controllers.  The active lists of the CLIC hold the enabled
      interrupts in order of priority and no assertion fails; the highest one is
      delivered; the time base of the CLINT and its timer lines.
    - Devices.  The interrupt lines of UART, mailbox, DMA controller, timers and
      security engine follow their registers on every run (with the exceptions
      stated); the FIFOs of the UART lose no byte; DMA chains copy what their
      descriptors say, throttled channels conserve items and none stalls; the
      compare events and the watchdog fire at the first nanosecond their
      counter allows, behind the two-key lock; the checksum, CRC and SHA units
      compute the functions of their standards; the AES unit computes the CTR
      and XTS modes and decrypts what it encrypted.
    - Flash.  Under the driver's sequences the chip is an array of bytes: what is
      programmed after an erase is read back, a program only clears bits, nothing
      changes without the write enable or under a lock, and the windows and the
      drive show the same bytes.
    - 2D DMA.  A transfer is the rectangle copy its registers describe, with the
      colour key, in any number of bottom halves, and it never stalls.
    - SPI and I2C.  A transfer of the SPI driver sends the frames given and returns
      those that the bus answers, within its timeouts, and a controller with
      work to do always has a bottom half that will do it; the I2C controller
      drives its bus by the protocol (nothing outside a transfer, one transfer at a
      time, every start ended), and the driver's reads return the bytes of the
      device.
    - PWM.  Each period ends the configured number of nanoseconds after the handler
      of the end before it ran, so punctual handlers make exact periods and late
      ones make them drift ([pwm_periods_drift]); the repeat counter counts the ends.
    - Pads.  The level of every pin, its output, its register and the interrupt
      lines agree on every run; a client of a clock gate, reset or clock
      setting was last told what the registers say.
    - Sleep.  On every run the busy bit and the lines of PDS, HBN and the infrared
      receiver follow the registers; while the machine sleeps, no enabled source
      that has a level (the hibernation block, the two groups of pins) is active, and
      every event of the other sources (timer, wireless, infrared frame) ends the
      sleep if its source is enabled; the wake-up timer comes at the first nanosecond
      at which the slow clock has made the ticks asked for, and the alarm at a time
      at which the count of that clock, all 64 bits of it, is the alarm or one more;
      a delayed wake-up by a level needs the level to be held for the whole delay;
      after a reset of the machine by the alarm HBN has its retained words and pads,
      the clock selection of the reset, and zeroes.
    - Boot.  The newest valid partition table decides; a torn write of one table
      leaves the other in force; a corrupt boot header is never started; falling
      back to the other slot is recorded in flash and sticks (until the 32-bit age of
      the table wraps); the choice depends on the flash alone, unless an entry names a
      header in the last 352 bytes of the 32-bit address space; and the core starts at the bytes the window shows.
    - Lemmas without a claim show where the code does something else than it
      means to, on concrete inputs ([..._stale_irq], [..._wraps],
      [dma_p2p_drains_source], [sec_summary_forged], [dma2d_hal_never_starts],
      [boot_header_out_of_bounds], [boot_age_wraps], [spi_dma_enable_sticks],
      [i2c_hal_write_lost], [i2c_transfer_unmasks], [pwm_reset_not_armed],
      [pds_enable_misses], [pds_resumes_stopped_core], [ir_status_slept_over],
      [hbn_alarm_wraps], [pwm_periods_drift], [zero_delay_spins] and others).

    ** Integers, fuel and bounds

    A C integer is a [Z] kept at its width by [wrap] where the code's type
    wraps it.  A loop that is not structural has fuel, and for each a lemma shows
    that the fuel given is enough: the walks over the pool ([walk_fuel], the
    number of smallest blocks that fit in it), string loops (any
    fuel above the length of the string), 64-bit division (65 steps for 64
    bits), the check of the timers ([check_fuel], twice the pending timeouts),
    the growth of a buffer (56 doublings exceed any size below 2^64), the units of
    an XTS run (one per block), bottom halves of a DMA chain (64 per descriptor,
    from the slice and the largest transfer size), a bottom half of the SPI
    controller (the frames of its transmit FIFO), the FIFO loops of the I2C
    controller (the places of the FIFO), the polls of the drivers (the timeouts of
    the code), the ends of PWM periods (a list of their latenesses).

    ** Assumptions

    They are hypotheses or interfaces, each with an instance that satisfies it:
    - a handler of a device reads the virtual clock at one instant;
    - the memory that devices access through [PhysMem] does not include the
      registers of the same device;
    - the handlers of network timeouts are lists of calls into the timer
      interface ([Apps]), as are the operations of programs; their delays, and
      [TCP_TMR_INTERVAL], are positive and at most [LWIP_UINT32_MAX / 4] ms, which [sys_timeout] asserts but for zero,
      and none passes [lwip_cyclic_timer] itself ([FairApps], [legal]); they return
      in bounded time ([swift]) and cancel no timeouts ([AddingApps]) only where a
      statement says so; no timeout is handled more than 2^30 ms late ([lag],
      [punctual]);
    - a handler of the PWM runs at its deadline or any time later;
    - ciphers, digests and MACs are those of QEMU and GnuTLS ([QCrypto],
      [GnuTLS]); the laws used are that decryption of a block undoes its
      encryption ([EcbLaws]) and the lengths of digests ([HashLaws]);
    - a healthy drive behind the flash stores what is written and is at least as
      large as the flash ([DriveLaws]); the flash invariants leave out the
      software reset command and the 32-bit addresses, as their statements say;
    - the boot theorems about two partition tables take them apart from each other
      and from the boot headers ([tables_apart], [headers_off]), and the fall back
      takes an age below 2^32 - 1;
    - the main loop of the emulator has a turn often enough for a polling driver
      ([turns_in_time]);
    - the callbacks of the clients of the global control block do not write to it;
    - the sleep controllers handle the calls on the lines of the pads after the operation
      on the pads that makes them, and the guest writes their two status registers only
      through the clear bits and enables no wake-up source during a sleep (what
      happens otherwise is in [hbn_status_stale_irq] and [pds_enable_misses]); the
      alarm theorem has the virtual clock below 2^63 nanoseconds;
    - programs on the heap keep to their rights: they free what they hold and
      store into what they hold, except in the theorems about misuse.

    ** Not modelled

    - The rest of the machine [hw/riscv/bl808.c]: construction and wiring of
      devices, the clock tree, the hold and release of the cores, and the closed
      firmware interfaces it imitates; register files with little behaviour
      ([psram_ctrl], [emi], [mcu_misc], [mm_misc], [cci]); devices whose logic is in
      the backends of the emulator (USB, Ethernet, audio).
    - The glue of the wireless libraries ([wifi_vendor_support.c],
      [bleblob_support.c]): its contract is that of binaries not in the
      repository; the FAT file system and the flashing tools: third-party code
      and host input and output.
    - Floating-point routines of the C library; the properties, tracing and
      migration descriptions of the devices.
    - The Nim code of the HAL, the kernel and the applications, except the four
      drivers named above.
*)

From stdpp Require Import prelude.
From Stdlib Require Import ZArith Lia Zbitwise.

#[global] Set Default Goal Selector "!".
#[global] Arguments Z.testbit _ _ : simpl never.
#[global] Arguments Z.land _ _ : simpl never.
#[global] Arguments Z.lor _ _ : simpl never.
#[global] Arguments Z.shiftl _ _ : simpl never.
#[global] Arguments Z.shiftr _ _ : simpl never.
Local Open Scope Z_scope.

(** ** Machine integers *)

(** A C value of an unsigned type of [w] bits is a [Z] in [[0, 2^w)]; a
    conversion to that type is reduction modulo [2^w]. *)
Definition wrap (w x : Z) : Z := x mod 2 ^ w.
Abbreviation u8 := (wrap 8).
Abbreviation u16 := (wrap 16).
Abbreviation u32 := (wrap 32).
Abbreviation u64 := (wrap 64).

(** Conversion to [int]. *)
Definition i32 (x : Z) : Z := (x + 2 ^ 31) mod 2 ^ 32 - 2 ^ 31.

Definition uint (w x : Z) : Prop := 0 ≤ x < 2 ^ w.

#[export] Instance uint_dec w x : Decision (uint w x).
Proof. unfold uint. apply _. Defined.

(** [BIT(n)] and the truth value of [x & m] in a condition. *)
Definition BIT (n : Z) : Z := Z.shiftl 1 n.
Definition tst (x m : Z) : bool := negb (Z.land x m =? 0).
(** [x & ~m]. *)
Definition clr (x m : Z) : Z := Z.land x (Z.lnot m).
(** [~x] at 32 bits. *)
Definition not32 (x : Z) : Z := u32 (Z.lnot x).

(** ** Arrays *)

(** A C array is the list of its elements; [a !% i] reads and [aset a i v]
    updates in range. *)
Definition aget {A} `{Inhabited A} (a : list A) (i : Z) : A := a !!! Z.to_nat i.
Definition aset {A} (a : list A) (i : Z) (v : A) : list A := <[Z.to_nat i := v]> a.
Notation "a !% i" := (aget a i) (at level 20, i at level 19, format "a  !%  i").

Lemma aget_aset_eq {A} `{Inhabited A} (a : list A) i v : 0 ≤ i < Z.of_nat (length a) → aset a i v !% i = v.
Proof. intros. apply list_lookup_total_insert_eq. lia. Qed.

Lemma aget_aset_ne {A} `{Inhabited A} (a : list A) i j v : 0 ≤ i → 0 ≤ j → i ≠ j → aset a i v !% j = a !% j.
Proof. intros. apply list_lookup_total_insert_ne. lia. Qed.

Lemma aset_length {A} (a : list A) i v : length (aset a i v) = length a.
Proof. apply length_insert. Qed.

(** ** Record update *)

Class Eta (R : Type) := eta : R → R.
Class Setter {R T : Type} (proj : R → T) := set_field : T → R → R.

Ltac build_setter :=
  lazymatch goal with
  | |- @Setter ?R ?T ?proj =>
      assert_fails (has_evar proj);
      let inst := constr:(_ : Eta R) in
      let e := eval hnf in inst in
      exact (fun (v : T) (r : R) =>
               ltac:(let body := eval cbv beta in (e r) in
                     let p := eval cbv beta in (proj r) in
                     let pat := eval pattern p in body in
                     lazymatch pat with ?g _ => let b := eval cbv beta in (g v) in
                       assert_fails (constr_eq b body); exact b end))
  end.
#[export] Hint Extern 0 (Setter _) => build_setter : typeclass_instances.

Declare Scope record_scope.
Delimit Scope record_scope with rec.
Notation "r <| f := v |>" := (set_field (proj := f) v r)
  (at level 1, left associativity, format "r  <| f  :=  v |>") : record_scope.
Open Scope record_scope.

(** ** Lemmas on machine integers *)

Lemma wrap_land w x : 0 ≤ w → wrap w x = Z.land x (Z.ones w).
Proof. intros. unfold wrap. by rewrite Z.land_ones. Qed.

Lemma uint_wrap w x : 0 ≤ w → uint w (wrap w x).
Proof. intros. unfold uint, wrap. apply Z.mod_pos_bound. lia. Qed.

Lemma wrap_small w x : uint w x → wrap w x = x.
Proof. intros. by apply Z.mod_small. Qed.

Lemma uint_land_ones w x : 0 ≤ w → uint w x ↔ Z.land x (Z.ones w) = x.
Proof.
  intros Hw. rewrite <- wrap_land by done. split; [apply wrap_small|].
  intros <-. by apply uint_wrap.
Qed.

Lemma uint_nonneg w x : uint w x → 0 ≤ x.
Proof. by intros [? _]. Qed.

Lemma uint_weaken w w' x : uint w x → 0 ≤ w ≤ w' → uint w' x.
Proof.
  intros [??] ?. split; [done|]. eapply Z.lt_le_trans; [done|].
  apply Z.pow_le_mono_r; lia.
Qed.

Lemma uint_lor w x y : 0 ≤ w → uint w x → uint w y → uint w (Z.lor x y).
Proof.
  intros Hw. rewrite !uint_land_ones by done. intros Hx Hy.
  by rewrite Z.land_lor_distr_l, Hx, Hy.
Qed.

Lemma uint_land_l w x y : 0 ≤ w → uint w x → uint w (Z.land x y).
Proof.
  intros Hw. rewrite !uint_land_ones by done. intros Hx.
  by rewrite (Z.land_comm x y), <- Z.land_assoc, Hx.
Qed.

Lemma uint_land_r w x y : 0 ≤ w → uint w y → uint w (Z.land x y).
Proof. rewrite Z.land_comm. apply uint_land_l. Qed.

Lemma uint_lxor w x y : 0 ≤ w → uint w x → uint w y → uint w (Z.lxor x y).
Proof.
  intros Hw. rewrite !uint_land_ones by done. intros Hx Hy. apply Z.bits_inj'. intros i Hi.
  rewrite Z.land_spec, Z.lxor_spec. apply (f_equal (λ z, Z.testbit z i)) in Hx, Hy.
  rewrite Z.land_spec in Hx, Hy. destruct (Z.testbit x i), (Z.testbit y i), (Z.testbit (Z.ones w) i); done.
Qed.

Lemma uint_clr w x m : 0 ≤ w → uint w x → uint w (clr x m).
Proof. apply uint_land_l. Qed.

Lemma uint_shiftr w x n : 0 ≤ w → 0 ≤ n → uint w x → uint w (Z.shiftr x n).
Proof.
  intros Hw Hn [Hx Hx']. rewrite Z.shiftr_div_pow2 by done. split.
  - apply Z.div_pos; lia.
  - apply Z.le_lt_trans with x; [|done]. apply Z.div_le_upper_bound; [lia|].
    assert (1 ≤ 2 ^ n) by (apply (Z.pow_le_mono_r 2 0); lia). nia.
Qed.

Lemma uint_if w (b : bool) x y : uint w x → uint w y → uint w (if b then x else y).
Proof. by destruct b. Qed.

Lemma i32_small x : - 2 ^ 31 ≤ x < 2 ^ 31 → i32 x = x.
Proof. intros. unfold i32. rewrite Z.mod_small; lia. Qed.

(** A mask truncated to the width of the other operand. *)
Lemma land_wrap_r w x y : 0 ≤ w → uint w x → Z.land x (wrap w y) = Z.land x y.
Proof.
  intros Hw Hx. rewrite wrap_land, Z.land_assoc by done.
  rewrite (Z.land_comm x y), <- Z.land_assoc.
  by rewrite (proj1 (uint_land_ones w x Hw) Hx).
Qed.

(** ** Single bits *)

Lemma BIT_spec n i : 0 ≤ n → Z.testbit (BIT n) i = (n =? i).
Proof.
  intros. unfold BIT. destruct (decide (i < 0)).
  - rewrite Z.testbit_neg_r by done. symmetry. apply Z.eqb_neq. lia.
  - rewrite Z.shiftl_1_l. destruct (Z.eqb_spec n i) as [->|].
    + apply Z.pow2_bits_true; lia.
    + apply Z.pow2_bits_false; lia.
Qed.

Lemma tst_BIT x n : 0 ≤ n → tst x (BIT n) = Z.testbit x n.
Proof.
  intros Hn. unfold tst. destruct (Z.eqb_spec (Z.land x (BIT n)) 0) as [H|H]; simpl.
  - symmetry. apply (f_equal (λ z, Z.testbit z n)) in H.
    by rewrite Z.land_spec, BIT_spec, Z.eqb_refl, andb_true_r, Z.bits_0 in H by done.
  - symmetry. apply not_false_is_true. intros Hx. apply H. apply Z.bits_inj'. intros i _.
    rewrite Z.land_spec, BIT_spec, Z.bits_0 by done.
    destruct (Z.eqb_spec n i) as [->|]; [by rewrite Hx|by rewrite andb_false_r].
Qed.

Lemma tst_false x m : tst x m = false ↔ Z.land x m = 0.
Proof. unfold tst. destruct (Z.eqb_spec (Z.land x m) 0); simpl; naive_solver. Qed.

Lemma nonzero_bit x : 0 ≤ x → x ≠ 0 ↔ ∃ i, 0 ≤ i ∧ Z.testbit x i = true.
Proof.
  intros Hx. split.
  - intros Hne. exists (Z.log2 x). split; [apply Z.log2_nonneg|]. apply Z.bit_log2. lia.
  - intros (i & _ & Hi) ->. by rewrite Z.bits_0 in Hi.
Qed.

Lemma clr_spec x m i : 0 ≤ i → Z.testbit (clr x m) i = Z.testbit x i && negb (Z.testbit m i).
Proof. intros. unfold clr. by rewrite Z.land_spec, Z.lnot_spec. Qed.

Lemma wrap_testbit w x i :
  0 ≤ w → 0 ≤ i → Z.testbit (wrap w x) i = Z.testbit x i && (i <? w).
Proof.
  intros. rewrite wrap_land, Z.land_spec by done. f_equal.
  destruct (Z.ltb_spec i w).
  - apply Z.ones_spec_low. lia.
  - apply Z.ones_spec_high. lia.
Qed.

Lemma uint_testbit_high w x i : 0 ≤ w → uint w x → w ≤ i → Z.testbit x i = false.
Proof.
  intros Hw Hx Hi. rewrite <- (wrap_small w x Hx), wrap_testbit by lia.
  destruct (Z.ltb_spec i w); [lia|]. apply andb_false_r.
Qed.

(** Disjoint fields: [(hi << n) | lo] with [lo] below [n] bits is a sum. *)
Lemma lor_shiftl_add n hi lo :
  0 ≤ n → uint n lo → Z.lor (Z.shiftl hi n) lo = hi * 2 ^ n + lo.
Proof.
  intros Hn Hlo. assert (Z.land (Z.shiftl hi n) lo = 0) as Hd.
  { apply Z.bits_inj'. intros i Hi. rewrite Z.land_spec, Z.bits_0.
    destruct (decide (i < n)).
    - by rewrite Z.shiftl_spec_low by lia.
    - rewrite (uint_testbit_high n lo) by (done || lia). apply andb_false_r. }
  pose proof (Z.add_lor_land (Z.shiftl hi n) lo) as H. rewrite Hd in H.
  rewrite Z.shiftl_mul_pow2 in * by done. lia.
Qed.

(** Induction on a list, two elements at a time. *)
Lemma list_pair_ind {A} (P : list A → Prop) :
  P [] → (∀ x, P [x]) → (∀ x y l, P l → P (x :: y :: l)) → ∀ l, P l.
Proof.
  intros H0 H1 H2 l. assert (P l ∧ ∀ x, P (x :: l)) as [? _]; [|done].
  induction l as [|y l [IH IH']]; [by split|]. split; [by apply IH'|]. intros x. by apply H2.
Qed.

Create HintDb uint.
#[export] Hint Resolve uint_wrap uint_lor uint_land_l uint_clr uint_shiftr uint_if : uint.
#[export] Hint Extern 1 (_ ≤ _) => lia : uint.
#[export] Hint Extern 3 (uint _ (Z.land _ _)) => apply uint_land_r : uint.
(** Closed constants are decided by computation. *)
Ltac closed_term x := tryif (match x with context [?v] => is_var v end) then fail else idtac.
#[export] Hint Extern 2 (uint ?w ?x) => (closed_term x; vm_compute; split; congruence) : uint.

Create Rewrite HintDb bits.
#[export] Hint Rewrite Z.lor_spec Z.land_spec Z.bits_0 : bits.
#[export] Hint Rewrite clr_spec BIT_spec wrap_testbit tst_BIT using lia : bits.

Ltac solve_uint := eauto 8 with uint.
(** Case analysis on the conditionals of the goal, outermost first, keeping
    each condition whole. *)
Ltac split_ifs :=
  repeat match goal with |- context [if ?b then _ else _] => destruct b eqn:? end.
(** Case analysis on the first integer test of the goal. *)
Ltac eqb_case :=
  match goal with |- context [?x =? ?y] => destruct (Z.eqb_spec x y) as [?Heq|?Hne] end.
