(* ===== verification/Qemu.v ===== *)
(** * Services of the emulator that the device models call

    The device models under [qemu-machine/hw] are written against the API of
    the QEMU emulator, which is not part of the repository.  What a model
    relies on of it is stated here as interfaces; a device theorem is proved
    against the interface.

    A call that only sends something out of the device ([qemu_set_irq],
    [qemu_chr_fe_write_all], [timer_mod]) is recorded: the state holds the
    value last passed to it, or the list of values passed to it.  Accesses to the
    physical memory are the class [PhysMem] on a world [E]; [Ram] states that a
    range of addresses behaves as memory. *)

From S2P Require Import Prelude.
From stdpp Require Import prelude list.
From Stdlib Require Import ZArith Lia.
Local Open Scope Z_scope.

(** [device_cold_reset(DEVICE(s))] runs the handler that the class of the
    device registered with [device_class_set_legacy_reset]. *)
Class ColdReset {S : Type} (legacy_reset : S → S) := {
  device_cold_reset : S → S;
  device_cold_reset_runs s : device_cold_reset s = legacy_reset s;
}.

(** The interface can be implemented. *)
Definition direct_reset {S : Type} (f : S → S) : ColdReset f :=
  {| device_cold_reset := f; device_cold_reset_runs := λ s, eq_refl |}.

(** [muldiv64(a, b, c)]: the 64-bit product-quotient [a * b / c], computed
    without intermediate overflow and truncated to 64 bits. *)
Class MulDiv := {
  muldiv64 : Z → Z → Z → Z;
  muldiv64_spec a b c : uint 64 a → uint 32 b → uint 32 c → 0 < c → muldiv64 a b c = u64 (a * b / c);
}.

Definition wide_muldiv : MulDiv :=
  {| muldiv64 := λ a b c, u64 (a * b / c); muldiv64_spec := λ _ _ _ _ _ _ _, eq_refl |}.

Definition NANOSECONDS_PER_SECOND := 1000000000.

(** [extract32(value, start, length)]: the field of [length] bits from bit [start]. *)
Definition extract32 (value start length : Z) : Z := Z.land (Z.shiftr value start) (Z.ones length).

Lemma extract32_bit value start : extract32 value start 1 = Z.b2z (Z.testbit value start).
Proof.
  unfold extract32. rewrite Z.land_ones by lia. rewrite <- (Z.add_0_l start) at 2.
  rewrite <- Z.shiftr_spec by lia. symmetry. apply Z.bit0_mod.
Qed.

(** ** Physical memory *)

(** Bytes of a buffer and the integer they hold, least significant first:
    [le16_to_cpu] and its relatives on the bytes of a value. *)
Fixpoint le_to_cpu (bs : list Z) : Z :=
  match bs with [] => 0 | b :: bs => b + 2 ^ 8 * le_to_cpu bs end.

Fixpoint cpu_to_le (n : nat) (v : Z) : list Z :=
  match n with O => [] | S n => u8 v :: cpu_to_le n (Z.shiftr v 8) end.

(** Accesses of the emulator to the physical address space. *)
Class PhysMem (E : Type) := {
  cpu_physical_memory_read : Z → nat → E → list Z * E;
  cpu_physical_memory_write : Z → list Z → E → E;
}.

Lemma cpu_to_le_length n v : length (cpu_to_le n v) = n.
Proof. revert v. induction n as [|n IH]; intros v; [done|]. simpl. by rewrite IH. Qed.

Lemma cpu_to_le_lookup n v i :
  (i < n)%nat → cpu_to_le n v !! i = Some (u8 (Z.shiftr v (8 * Z.of_nat i))).
Proof.
  revert v i. induction n as [|n IH]; intros v i Hi; [lia|]. destruct i as [|i]; [done|].
  cbn [cpu_to_le lookup list_lookup]. rewrite IH by lia. rewrite Z.shiftr_shiftr by lia.
  do 3 f_equal. lia.
Qed.

Lemma le_to_cpu_byte bs i :
  Forall (uint 8) bs → u8 (Z.shiftr (le_to_cpu bs) (8 * Z.of_nat i)) = default 0 (bs !! i).
Proof.
  revert i. induction bs as [|b bs IH]; intros i Hf.
  { simpl. by rewrite Z.shiftr_0_l. }
  apply Forall_cons in Hf as [Hb Hf]. unfold uint in Hb. cbn [le_to_cpu].
  destruct i as [|i].
  - rewrite Z.shiftr_0_r. change (default 0 ((b :: bs) !! 0%nat)) with b. unfold wrap. rewrite (Z.mul_comm (2 ^ 8)), Z.mod_add, Z.mod_small by lia. done.
  - change ((b :: bs) !! S i) with (bs !! i). rewrite <- (IH i Hf). f_equal.
    replace (8 * Z.of_nat (S i)) with (8 + 8 * Z.of_nat i) by lia.
    rewrite <- Z.shiftr_shiftr by lia. f_equal. rewrite Z.shiftr_div_pow2 by lia.
    rewrite Z.mul_comm, Z.div_add, Z.div_small by lia. lia.
Qed.

Lemma cpu_to_le_bytes n v : Forall (uint 8) (cpu_to_le n v).
Proof. revert v. induction n; intros; simpl; constructor; [by apply uint_wrap|done]. Qed.

Lemma cpu_to_le_to_cpu bs : Forall (uint 8) bs → cpu_to_le (length bs) (le_to_cpu bs) = bs.
Proof.
  induction 1 as [|b bs Hb Hbs IH]; [done|]. cbn [length cpu_to_le le_to_cpu]. unfold uint in Hb.
  rewrite Z.shiftr_div_pow2 by lia. unfold wrap.
  rewrite (Z.mul_comm (2 ^ 8)), Z.mod_add, Z.mod_small, Z.div_add, Z.div_small, Z.add_0_l, IH by lia. done.
Qed.

Lemma le_to_cpu_bound bs : Forall (uint 8) bs → uint (8 * Z.of_nat (length bs)) (le_to_cpu bs).
Proof.
  induction 1 as [|b bs Hb Hbs IH]; [done|]. cbn [length le_to_cpu]. unfold uint in *.
  replace (8 * Z.of_nat (S (length bs))) with (8 + 8 * Z.of_nat (length bs)) by lia.
  rewrite Z.pow_add_r by lia. lia.
Qed.

Lemma le_to_cpu_to_le n v : le_to_cpu (cpu_to_le n v) = wrap (8 * Z.of_nat n) v.
Proof.
  revert v. induction n as [|n IH]; intros v.
  { simpl. unfold wrap. rewrite Z.mul_0_r. by rewrite Z.mod_1_r. }
  cbn [cpu_to_le le_to_cpu]. rewrite IH.
  assert (u8 v + 2 ^ 8 * wrap (8 * Z.of_nat n) (Z.shiftr v 8) =
          Z.lor (Z.shiftl (wrap (8 * Z.of_nat n) (Z.shiftr v 8)) 8) (u8 v)) as Hx.
  { rewrite lor_shiftl_add by (lia || (apply uint_wrap; lia)). lia. }
  replace (8 * Z.of_nat (S n)) with (8 + 8 * Z.of_nat n) by lia. apply Z.bits_inj'. intros i Hi.
  rewrite Hx, Z.lor_spec, !wrap_testbit by lia. destruct (decide (i < 8)).
  - rewrite Z.shiftl_spec_low by lia. destruct (Z.ltb_spec i 8), (Z.ltb_spec i (8 + 8 * Z.of_nat n)); try lia. done.
  - rewrite Z.shiftl_spec, wrap_testbit, Z.shiftr_spec by lia. replace (i - 8 + 8) with i by lia.
    destruct (Z.ltb_spec i 8); [lia|]. rewrite andb_false_r, orb_false_r. f_equal.
    destruct (Z.ltb_spec (i - 8) (8 * Z.of_nat n)), (Z.ltb_spec i (8 + 8 * Z.of_nat n)); lia || done.
Qed.

(** Contents of memory, compared byte by byte. *)
Definition mem := Z → Z.
#[export] Instance mem_equiv : Equiv mem := λ m m', ∀ a, m a = m' a.
#[export] Instance mem_equivalence : Equivalence (≡@{mem}).
Proof.
  split; [by intros m a|by intros m m' H a|].
  intros m1 m2 m3 H1 H2 a. by rewrite (H1 a).
Qed.

(** The part of the physical address space where an access is an access to
    memory: a read returns the bytes and changes nothing, a write replaces them. *)
Class Ram {E : Type} `{!PhysMem E} := {
  ram : E → mem;
  is_ram : Z → Prop;
  ram_byte e a : uint 8 (ram e a);
  ram_read a n e : (∀ i, a ≤ i < a + Z.of_nat n → is_ram i) →
    cpu_physical_memory_read a n e = (ram e <$> seqZ a (Z.of_nat n), e);
  ram_write a bs e : (∀ i, a ≤ i < a + Z.of_nat (length bs) → is_ram i) → Forall (uint 8) bs →
    ∀ x, ram (cpu_physical_memory_write a bs e) x =
         if decide (a ≤ x < a + Z.of_nat (length bs)) then bs !!! Z.to_nat (x - a) else ram e x;
}.

Definition ram_range {E : Type} `{!PhysMem E} `{!Ram (E := E)} (a n : Z) : Prop := ∀ i, a ≤ i < a + n → is_ram i.
