(* ===== verification/Libc.v ===== *)
(** * The freestanding C library ([src/bl808/kernel/baremetal_libc.c]), definitions

    Memory is a flat store of bytes.  Pointers are addresses; an object does not
    cross the end of the address space.  A loop that walks a string stops at its
    terminator: it is given fuel, and [None] is a string with no terminator in
    reach.  A [char] is unsigned, as on every RISC-V target. *)

From S2P Require Import Prelude.
From stdpp Require Import prelude gmap.
From Stdlib Require Import ZArith Lia.
Local Open Scope Z_scope.

(** ** Byte store *)

Definition ld_byte (m : gmap Z Z) (a : Z) : Z := u8 (default 0 (m !! a)).
Definition st_byte (m : gmap Z Z) (a v : Z) : gmap Z Z := <[a := u8 v]> m.

(** ** Memory blocks *)

Fixpoint memset (m : gmap Z Z) (dst c : Z) (n : nat) : gmap Z Z :=
  match n with
  | O => m
  | S n => memset (st_byte m dst c) (dst + 1) c n
  end.

Fixpoint memcpy (m : gmap Z Z) (dst src : Z) (n : nat) : gmap Z Z :=
  match n with
  | O => m
  | S n => memcpy (st_byte m dst (ld_byte m src)) (dst + 1) (src + 1) n
  end.

(** [while (n--) *--d = *--s], from [d + n] and [s + n]. *)
Fixpoint copy_down (m : gmap Z Z) (d s : Z) (n : nat) : gmap Z Z :=
  match n with
  | O => m
  | S n => copy_down (st_byte m (d + Z.of_nat n) (ld_byte m (s + Z.of_nat n))) d s n
  end.

Definition memmove (m : gmap Z Z) (dst src : Z) (n : nat) : gmap Z Z :=
  if dst <? src then memcpy m dst src n else copy_down m dst src n.

Fixpoint memcmp (m : gmap Z Z) (a b : Z) (n : nat) : Z :=
  match n with
  | O => 0
  | S n => if negb (ld_byte m a =? ld_byte m b) then ld_byte m a - ld_byte m b
           else memcmp m (a + 1) (b + 1) n
  end.

(** A null result is [0]. *)
Fixpoint memchr (m : gmap Z Z) (p c : Z) (n : nat) : Z :=
  match n with
  | O => 0
  | S n => if ld_byte m p =? u8 c then p else memchr m (p + 1) c n
  end.

(** ** Strings *)

(** [p] moves to the terminator. *)
Fixpoint str_end (fuel : nat) (m : gmap Z Z) (p : Z) : option Z :=
  match fuel with
  | O => None
  | S fuel => if ld_byte m p =? 0 then Some p else str_end fuel m (p + 1)
  end.

Definition strlen (fuel : nat) (m : gmap Z Z) (s : Z) : option Z :=
  p ← str_end fuel m s; Some (p - s).

Fixpoint strcpy (fuel : nat) (m : gmap Z Z) (d src : Z) : option (gmap Z Z) :=
  match fuel with
  | O => None
  | S fuel =>
      let c := ld_byte m src in
      let m := st_byte m d c in
      if c =? 0 then Some m else strcpy fuel m (d + 1) (src + 1)
  end.

(** [n] is what is left of the bound; the two loops of [strncpy]. *)
Fixpoint strncpy (m : gmap Z Z) (dest src : Z) (n : nat) : gmap Z Z :=
  match n with
  | O => m
  | S n' => if ld_byte m src =? 0 then memset m dest 0 n
            else strncpy (st_byte m dest (ld_byte m src)) (dest + 1) (src + 1) n'
  end.

Fixpoint strchr (fuel : nat) (m : gmap Z Z) (s c : Z) : option Z :=
  match fuel with
  | O => None
  | S fuel =>
      if ld_byte m s =? 0 then Some (if c =? 0 then s else 0)
      else if ld_byte m s =? u8 c then Some s
      else strchr fuel m (s + 1) c
  end.

Fixpoint strcmp (fuel : nat) (m : gmap Z Z) (s1 s2 : Z) : option Z :=
  match fuel with
  | O => None
  | S fuel =>
      if negb (ld_byte m s1 =? 0) && (ld_byte m s1 =? ld_byte m s2)
      then strcmp fuel m (s1 + 1) (s2 + 1)
      else Some (ld_byte m s1 - ld_byte m s2)
  end.

(** The inner loop of [strspn] and [strcspn]: is the byte in the set string? *)
Fixpoint in_set (fuel : nat) (m : gmap Z Z) (c a : Z) : option bool :=
  match fuel with
  | O => None
  | S fuel => if ld_byte m a =? 0 then Some false
              else if c =? ld_byte m a then Some true
              else in_set fuel m c (a + 1)
  end.

Fixpoint span_loop (fuel : nat) (m : gmap Z Z) (p set : Z) (keep : bool) : option Z :=
  match fuel with
  | O => None
  | S fuel' =>
      if ld_byte m p =? 0 then Some p
      else
        found ← in_set fuel m (ld_byte m p) set;
        if Bool.eqb found keep then span_loop fuel' m (p + 1) set keep else Some p
  end.

Definition strspn (fuel : nat) (m : gmap Z Z) (s accept : Z) : option Z :=
  p ← span_loop fuel m s accept true; Some (p - s).

Definition strcspn (fuel : nat) (m : gmap Z Z) (s reject : Z) : option Z :=
  p ← span_loop fuel m s reject false; Some (p - s).

(** ** Integer support routines *)

Definition clz_step (nx : Z * Z) (bound k : Z) : Z * Z :=
  if nx.2 <=? bound then (nx.1 + k, u32 (Z.shiftl nx.2 k)) else nx.

Definition __clzsi2 (x : Z) : Z :=
  if x =? 0 then 32 else
  let nx := clz_step (0, x) 0x0000FFFF 16 in
  let nx := clz_step nx 0x00FFFFFF 8 in
  let nx := clz_step nx 0x0FFFFFFF 4 in
  let nx := clz_step nx 0x3FFFFFFF 2 in
  if nx.2 <=? 0x7FFFFFFF then nx.1 + 1 else nx.1.

Definition ctz_step (nx : Z * Z) (mask k : Z) : Z * Z :=
  if Z.land nx.2 mask =? 0 then (nx.1 + k, Z.shiftr nx.2 k) else nx.

Definition __ctzsi2 (x : Z) : Z :=
  if x =? 0 then 32 else
  let nx := ctz_step (0, x) 0x0000FFFF 16 in
  let nx := ctz_step nx 0x000000FF 8 in
  let nx := ctz_step nx 0x0000000F 4 in
  let nx := ctz_step nx 0x00000003 2 in
  if Z.land nx.2 0x00000001 =? 0 then nx.1 + 1 else nx.1.

(** The first loop of [__udivdi3]: align the divisor with the dividend. *)
Fixpoint udiv_up (fuel : nat) (n d bit : Z) : option (Z * Z) :=
  match fuel with
  | O => None
  | S fuel => if (Z.land d (Z.shiftl 1 63) =? 0) && (d <? n)
              then udiv_up fuel n (u64 (Z.shiftl d 1)) (u64 (Z.shiftl bit 1))
              else Some (d, bit)
  end.

(** The second: subtract and shift back. *)
Fixpoint udiv_down (fuel : nat) (n d bit q : Z) : option Z :=
  match fuel with
  | O => None
  | S fuel =>
      if bit =? 0 then Some q
      else
        let '(n, q) := if d <=? n then (n - d, Z.lor q bit) else (n, q) in
        udiv_down fuel n (Z.shiftr d 1) (Z.shiftr bit 1) q
  end.

Definition udiv_fuel : nat := 65.

Definition __udivdi3 (n d : Z) : option Z :=
  if d =? 0 then Some (2 ^ 64 - 1) else
  '(d, bit) ← udiv_up udiv_fuel n d 1;
  udiv_down udiv_fuel n d bit 0.

Definition __umoddi3 (n d : Z) : option Z :=
  if d =? 0 then Some 0 else
  q ← __udivdi3 n d; Some (u64 (n - u64 (q * d))).

Fixpoint popcount_loop (fuel : nat) (x n : Z) : option Z :=
  match fuel with
  | O => None
  | S fuel => if x =? 0 then Some n else popcount_loop fuel (Z.shiftr x 1) (n + Z.land x 1)
  end.

Definition __popcountsi2 (x : Z) : option Z := popcount_loop 33 x 0.

Definition __ashldi3 (value shift : Z) : Z :=
  if shift <=? 0 then value else if 64 <=? shift then 0 else u64 (Z.shiftl value shift).
Definition __lshrdi3 (value shift : Z) : Z :=
  if shift <=? 0 then value else if 64 <=? shift then 0 else Z.shiftr value shift.
Definition __ashrdi3 (value shift : Z) : Z :=
  if shift <=? 0 then value else if 64 <=? shift then (if value <? 0 then -1 else 0)
  else Z.shiftr value shift.

(** ** Byte order *)

Definition htons (x : Z) : Z := u16 (Z.lor (Z.shiftr x 8) (Z.shiftl x 8)).
Definition ntohs (x : Z) : Z := htons x.
Definition htonl (x : Z) : Z :=
  Z.lor (Z.lor (Z.lor (u32 (Z.shiftl (Z.land x 0xFF) 24)) (Z.shiftl (Z.land x 0xFF00) 8))
    (Z.shiftr (Z.land x 0xFF0000) 8)) (Z.shiftr (Z.land x 0xFF000000) 24).
Definition ntohl (x : Z) : Z := htonl x.

(** [INT_MIN] has no absolute value: the negation wraps on the target. *)
Definition abs (value : Z) : Z := if value <? 0 then i32 (- value) else value.

(** The bit patterns of [fabs], [fabsf], [copysign] and [copysignf]. *)
Definition fabs (u : Z) : Z := Z.land u 0x7fffffffffffffff.
Definition fabsf (u : Z) : Z := Z.land u 0x7fffffff.
Definition copysign (x y : Z) : Z := Z.lor (Z.land x 0x7fffffffffffffff) (Z.land y 0x8000000000000000).
Definition copysignf (x y : Z) : Z := Z.lor (Z.land x 0x7fffffff) (Z.land y 0x80000000).

(** ** Character classes *)

Definition _U := 1.
Definition _L := 2.
Definition _N := 4.
Definition _S := 8.
Definition _P := 16.
Definition _C := 32.
Definition _X := 64.
Definition _B := 128.

Definition _ctype_ : list Z :=
  [0] ++ replicate 9 _C ++ replicate 5 (Z.lor _C _S) ++ replicate 18 _C ++
  [Z.lor _S _B] ++ replicate 15 _P ++ replicate 10 _N ++ replicate 7 _P ++
  replicate 6 (Z.lor _U _X) ++ replicate 20 _U ++ replicate 6 _P ++
  replicate 6 (Z.lor _L _X) ++ replicate 20 _L ++ replicate 4 _P ++ [_C] ++
  replicate 128 0.
