(* ===== verification/LibcSpec.v ===== *)
(** * The freestanding C library: correctness

    Memory blocks are described byte by byte, strings by the list of their
    bytes ([cstr]); the integer routines are proved equal to the arithmetic they
    stand for. *)

From S2P Require Import Prelude Libc.
From stdpp Require Import prelude gmap list.
From Stdlib Require Import ZArith Lia.
Local Open Scope Z_scope.

(** ** Byte store *)

Lemma ld_byte_range m a : uint 8 (ld_byte m a).
Proof. apply uint_wrap. lia. Qed.

Lemma ld_byte_st_byte m a b v :
  ld_byte (st_byte m a v) b = if decide (a = b) then u8 v else ld_byte m b.
Proof.
  unfold ld_byte, st_byte. rewrite lookup_insert. case_decide; [|done]. simpl.
  apply wrap_small, uint_wrap. lia.
Qed.

(** The byte at [x] after [n] bytes were copied from [src] to [dst]. *)
Definition moved (m : gmap Z Z) (dst src : Z) (n : nat) (x : Z) : Z :=
  if decide (dst ≤ x < dst + Z.of_nat n) then ld_byte m (src + (x - dst)) else ld_byte m x.

Lemma memset_spec m dst c n x :
  ld_byte (memset m dst c n) x =
    if decide (dst ≤ x < dst + Z.of_nat n) then u8 c else ld_byte m x.
Proof.
  revert m dst. induction n as [|n IH]; intros m dst; simpl.
  { rewrite decide_False by lia. done. }
  rewrite IH, ld_byte_st_byte. repeat destruct (decide _); try done; lia.
Qed.

(** Copying upwards is right unless the destination starts inside the source. *)
Lemma memcpy_spec m dst src n x :
  dst ≤ src ∨ src + Z.of_nat n ≤ dst → ld_byte (memcpy m dst src n) x = moved m dst src n x.
Proof.
  unfold moved. revert m dst src. induction n as [|n IH]; intros m dst src Hd; simpl.
  { rewrite decide_False by lia. done. }
  rewrite IH by lia. rewrite !ld_byte_st_byte.
  destruct (decide (dst = x)) as [->|Hne].
  - rewrite decide_False, (decide_True (P := _ ≤ _ < _)) by lia. rewrite Z.sub_diag, Z.add_0_r.
    apply wrap_small, ld_byte_range.
  - destruct (decide (dst + 1 ≤ x < dst + 1 + Z.of_nat n)).
    + rewrite decide_False, decide_True by lia. f_equal. lia.
    + by rewrite decide_False by lia.
Qed.

(** Copying downwards is right when the source starts first. *)
Lemma copy_down_spec m dst src n x :
  src ≤ dst → ld_byte (copy_down m dst src n) x = moved m dst src n x.
Proof.
  intros Hd. unfold moved. revert m. induction n as [|n IH]; intros m; simpl.
  { rewrite decide_False by lia. done. }
  rewrite IH, !ld_byte_st_byte. destruct (decide (dst + Z.of_nat n = x)) as [<-|Hne].
  - rewrite decide_False, (decide_True (P := _ ≤ _ < _)) by lia.
    rewrite wrap_small by apply ld_byte_range. f_equal. lia.
  - destruct (decide (dst ≤ x < dst + Z.of_nat n)).
    + rewrite decide_False, decide_True by lia. done.
    + by rewrite decide_False by lia.
Qed.

(** ** Strings *)

(** The string at [p] is the bytes [l], none of them zero, and a terminator. *)
Fixpoint cstr (m : gmap Z Z) (p : Z) (l : list Z) : Prop :=
  match l with
  | [] => ld_byte m p = 0
  | c :: l => ld_byte m p = c ∧ c ≠ 0 ∧ cstr m (p + 1) l
  end.

Lemma cstr_ext m m' p l :
  cstr m p l → (∀ x, p ≤ x ≤ p + Z.of_nat (length l) → ld_byte m' x = ld_byte m x) → cstr m' p l.
Proof.
  revert p. induction l as [|c l IH]; intros p; simpl.
  - intros <- Hx. apply Hx. lia.
  - intros (<- & ? & Hc) Hx. rewrite Hx by lia. split_and!; [done..|]. apply IH; [done|].
    intros x ?. apply Hx. lia.
Qed.

(** The first byte decides the loops. *)
Lemma cstr_head m p l :
  cstr m p l → match l with [] => (ld_byte m p =? 0) = true | c :: _ => (ld_byte m p =? 0) = false ∧ ld_byte m p = c end.
Proof. destruct l; simpl; [by intros ->|]. intros (<- & ? & _). by rewrite (proj2 (Z.eqb_neq _ _)). Qed.

Lemma str_end_spec m p l fuel :
  cstr m p l → (length l < fuel)%nat → str_end fuel m p = Some (p + Z.of_nat (length l)).
Proof.
  revert p fuel. induction l as [|c l IH]; intros p [|fuel] Hc Hf; simpl in Hf; try lia; simpl;
    pose proof (cstr_head _ _ _ Hc) as Hh.
  - rewrite Hh. f_equal. lia.
  - destruct Hh as [-> _], Hc as (_ & _ & Hc). rewrite (IH (p + 1) fuel Hc) by lia. f_equal. lia.
Qed.

Lemma strlen_spec m s l fuel :
  cstr m s l → (length l < fuel)%nat → strlen fuel m s = Some (Z.of_nat (length l)).
Proof. intros Hc Hf. unfold strlen. rewrite (str_end_spec m s l fuel Hc Hf). simpl. f_equal. lia. Qed.

(** The order of strings: by the first byte that differs, a prefix first. *)
Fixpoint precedes (a b : list Z) : Prop :=
  match a, b with
  | _, [] => False
  | [], _ => True
  | x :: a, y :: b => x < y ∨ (x = y ∧ precedes a b)
  end.

(** The sign of a comparison. *)
Definition compares (r : Z) (a b : list Z) : Prop :=
  (r < 0 ↔ precedes a b) ∧ (r = 0 ↔ a = b) ∧ (0 < r ↔ precedes b a).

Lemma compares_cons r c a b : compares r a b → compares r (c :: a) (c :: b).
Proof.
  intros (H1 & H2 & H3). unfold compares. simpl. split_and!; [rewrite H1|rewrite H2|rewrite H3];
    (split; [intros; subst; naive_solver|]); [intros [?|[_ ?]]; [lia|done]|congruence|intros [?|[_ ?]]; [lia|done]].
Qed.

Lemma compares_diff x y a b : x ≠ y → compares (x - y) (x :: a) (y :: b).
Proof. intros Hne. unfold compares. simpl. split_and!; split; intros; try congruence; try lia; naive_solver lia. Qed.

Lemma cstr_nonneg m p c l : cstr m p (c :: l) → 0 < c.
Proof. intros (<- & ? & _). pose proof (ld_byte_range m p) as [? _]. lia. Qed.

Lemma strcmp_spec m s1 s2 l1 l2 fuel :
  cstr m s1 l1 → cstr m s2 l2 → (length l1 < fuel)%nat →
  ∃ r, strcmp fuel m s1 s2 = Some r ∧ compares r l1 l2.
Proof.
  revert s1 s2 l2 fuel. induction l1 as [|c l1 IH]; intros s1 s2 l2 [|fuel] H1 H2 Hf; simpl in Hf; try lia; simpl;
    pose proof (cstr_head _ _ _ H1) as Hh.
  - rewrite Hh. simpl. simpl in H1. rewrite H1. eexists. split; [done|]. destruct l2 as [|d l2].
    + simpl in H2. rewrite H2. split_and!; simpl; [lia|done|lia].
    + pose proof (cstr_nonneg _ _ _ _ H2). destruct H2 as (-> & _). unfold compares. simpl.
      split_and!; split; intros; try done; lia.
  - destruct Hh as [-> He]. cbn [negb andb]. rewrite He. destruct l2 as [|d l2].
    + simpl in H2. rewrite H2. pose proof (cstr_nonneg _ _ _ _ H1). rewrite (proj2 (Z.eqb_neq _ _)) by lia.
      eexists. split; [done|]. unfold compares. simpl. split_and!; split; intros; try done; lia.
    + destruct H2 as (Hd & Hnz & H2), H1 as (_ & _ & H1). rewrite Hd. destruct (Z.eqb_spec c d) as [<-|Hne].
      * destruct (IH _ _ _ fuel H1 H2 ltac:(lia)) as (r & Hr & Hc). exists r. split; [done|]. by apply compares_cons.
      * eexists. split; [done|]. by apply compares_diff.
Qed.

(** ** Spans *)

Lemma in_set_spec m c a l fuel :
  cstr m a l → (length l < fuel)%nat → in_set fuel m c a = Some (bool_decide (c ∈ l)).
Proof.
  revert a fuel. induction l as [|d l IH]; intros a [|fuel] Hc Hf; simpl in Hf; try lia; simpl;
    pose proof (cstr_head _ _ _ Hc) as Hh.
  - rewrite Hh. done.
  - destruct Hh as [-> ->], Hc as (_ & _ & Hc). destruct (Z.eqb_spec c d) as [->|Hne].
    + rewrite bool_decide_true by set_solver. done.
    + rewrite (IH _ fuel Hc) by lia. f_equal. apply bool_decide_ext. set_solver.
Qed.

(** The longest prefix of [l] whose bytes are in ([keep]) or not in the set. *)
Fixpoint span (set l : list Z) (keep : bool) : nat :=
  match l with
  | [] => 0
  | c :: l => if Bool.eqb (bool_decide (c ∈ set)) keep then S (span set l keep) else 0
  end.

Lemma span_loop_spec m p q l set keep fuel :
  cstr m p l → cstr m q set → (length l + length set < fuel)%nat →
  span_loop fuel m p q keep = Some (p + Z.of_nat (span set l keep)).
Proof.
  revert p fuel. induction l as [|c l IH]; intros p [|fuel] Hc Hs Hf; simpl in Hf; try lia; cbn [span_loop span];
    pose proof (cstr_head _ _ _ Hc) as Hh.
  - rewrite Hh. f_equal. lia.
  - destruct Hh as [-> ->], Hc as (_ & _ & Hc). rewrite (in_set_spec m c q set) by (done || lia). simpl.
    destruct (Bool.eqb _ _); [|f_equal; lia]. rewrite (IH _ fuel Hc Hs) by lia. f_equal. lia.
Qed.

(** ** Copies of strings *)

Lemma strcpy_spec m d s l fuel :
  cstr m s l → d + Z.of_nat (length l) < s ∨ s + Z.of_nat (length l) < d → (length l < fuel)%nat →
  ∃ m', strcpy fuel m d s = Some m' ∧ cstr m' d l ∧
    ∀ x, ¬ d ≤ x ≤ d + Z.of_nat (length l) → ld_byte m' x = ld_byte m x.
Proof.
  revert m d s fuel. induction l as [|c l IH]; intros m d s [|fuel] Hc Hd Hf; simpl in Hf, Hd; try lia; simpl;
    pose proof (cstr_head _ _ _ Hc) as Hh.
  - rewrite Hh. eexists. split; [done|]. simpl in Hc. rewrite Hc. split.
    + simpl. by rewrite ld_byte_st_byte, decide_True.
    + intros x Hx. rewrite ld_byte_st_byte, decide_False by lia. done.
  - destruct Hh as [-> He]. rewrite He. destruct Hc as (Hb & Hnz & Hc).
    destruct (IH (st_byte m d c) (d + 1) (s + 1) fuel) as (m' & -> & Hc' & Hx); [|lia|lia|].
    { eapply cstr_ext; [exact Hc|]. intros x Hx. rewrite ld_byte_st_byte, decide_False by lia. done. }
    exists m'. split; [done|]. split.
    + simpl. rewrite Hx, ld_byte_st_byte, decide_True by lia. split_and!; [|done..].
      apply wrap_small. rewrite <- Hb. apply ld_byte_range.
    + intros x Hn. rewrite Hx, ld_byte_st_byte, decide_False by lia. done.
Qed.

Lemma strncpy_spec m d s l n x :
  cstr m s l → d + Z.of_nat n ≤ s ∨ s + Z.of_nat (length l) < d →
  ld_byte (strncpy m d s n) x =
    if decide (d ≤ x < d + Z.of_nat n) then default 0 (l !! Z.to_nat (x - d)) else ld_byte m x.
Proof.
  revert m d s l. induction n as [|n IH]; intros m d s l Hc Hd; cbn [strncpy].
  { rewrite decide_False by lia. done. }
  pose proof (cstr_head _ _ _ Hc) as Hh. destruct l as [|c l].
  - rewrite Hh, memset_spec. destruct (decide _); [|done]. by rewrite lookup_nil.
  - destruct Hh as [-> He]. rewrite He. destruct Hc as (Hb & Hnz & Hc). simpl in Hd.
    rewrite (IH _ (d + 1) (s + 1) l); [| |lia].
    2: { eapply cstr_ext; [exact Hc|]. intros y Hy. rewrite ld_byte_st_byte, decide_False by lia. done. }
    rewrite ld_byte_st_byte. destruct (decide (d = x)) as [->|Hne].
    + rewrite decide_False, decide_True by lia. rewrite Z.sub_diag. simpl. rewrite <- Hb.
      apply wrap_small, ld_byte_range.
    + destruct (decide (d + 1 ≤ x < d + 1 + Z.of_nat n)).
      * rewrite decide_True by lia. replace (Z.to_nat (x - d)) with (S (Z.to_nat (x - (d + 1)))) by lia. done.
      * by rewrite decide_False by lia.
Qed.

(** ** Leading and trailing zeros *)

(** One step of the binary search for the top bit. *)
Lemma clz_step_spec x n y j k :
  0 < k ≤ 32 → 0 ≤ j ≤ 32 - k → 0 < x → 0 ≤ n ∧ y = x * 2 ^ n ∧ 2 ^ j ≤ y < 2 ^ 32 →
  let r := clz_step (n, y) (2 ^ (32 - k) - 1) k in
  0 ≤ r.1 ∧ r.2 = x * 2 ^ r.1 ∧ 2 ^ Z.min (j + k) (32 - k) ≤ r.2 < 2 ^ 32.
Proof.
  intros Hk Hj Hx (Hn & Hy & Hl & Hu) r. unfold r, clz_step. simpl.
  assert (2 ^ 32 = 2 ^ (32 - k) * 2 ^ k) as H32 by (rewrite <- Z.pow_add_r by lia; f_equal; lia).
  assert (0 < 2 ^ k) by (apply Z.pow_pos_nonneg; lia).
  destruct (Z.leb_spec y (2 ^ (32 - k) - 1)) as [Hle|Hgt]; simpl.
  - rewrite Z.shiftl_mul_pow2 by lia. rewrite wrap_small by (unfold uint; nia).
    assert (2 ^ Z.min (j + k) (32 - k) ≤ 2 ^ (j + k)) by (apply Z.pow_le_mono_r; lia).
    rewrite Z.pow_add_r in * by lia. split_and!; [lia|nia|nia|nia].
  - assert (2 ^ Z.min (j + k) (32 - k) ≤ 2 ^ (32 - k)) by (apply Z.pow_le_mono_r; lia). split_and!; [done|done|lia|lia].
Qed.

Lemma clz_log2 x : 0 < x < 2 ^ 32 → __clzsi2 x = 31 - Z.log2 x.
Proof.
  intros Hx. unfold __clzsi2. rewrite (proj2 (Z.eqb_neq _ _)) by lia.
  destruct (clz_step_spec x 0 x 0 16) as (N1 & E1 & B1); [lia..|change (2 ^ 0) with 1; lia|].
  change (2 ^ (32 - 16) - 1) with 0x0000FFFF in *. set (r1 := clz_step _ _ 16) in *. clearbody r1. destruct r1 as [n1 y1].
  destruct (clz_step_spec x n1 y1 16 8) as (N2 & E2 & B2); [lia..|done|].
  change (2 ^ (32 - 8) - 1) with 0x00FFFFFF in *. set (r2 := clz_step _ _ 8) in *. clearbody r2. destruct r2 as [n2 y2].
  destruct (clz_step_spec x n2 y2 24 4) as (N3 & E3 & B3); [lia..|done|].
  change (2 ^ (32 - 4) - 1) with 0x0FFFFFFF in *. set (r3 := clz_step _ _ 4) in *. clearbody r3. destruct r3 as [n3 y3].
  destruct (clz_step_spec x n3 y3 28 2) as (N4 & E4 & B4); [lia..|done|].
  change (2 ^ (32 - 2) - 1) with 0x3FFFFFFF in *. set (r4 := clz_step _ _ 2) in *. clearbody r4. destruct r4 as [n4 y4].
  simpl in *. change ((28 + 2) `min` (32 - 2)) with 30 in B4. assert (Z.log2 y4 = Z.log2 x + n4) as Hl by (rewrite E4, Z.log2_mul_pow2; lia).
  destruct (Z.leb_spec y4 0x7FFFFFFF).
  - assert (Z.log2 y4 = 30) by (apply Z.log2_unique; lia). lia.
  - assert (Z.log2 y4 = 31) by (apply Z.log2_unique; lia). lia.
Qed.

(** One step of the search for the lowest bit. *)
Lemma ctz_step_spec x n y k :
  0 ≤ n → 0 < k → x = y * 2 ^ n → y mod 2 ^ (2 * k) ≠ 0 →
  let r := ctz_step (n, y) (2 ^ k - 1) k in
  0 ≤ r.1 ∧ x = r.2 * 2 ^ r.1 ∧ r.2 mod 2 ^ k ≠ 0.
Proof.
  intros Hn Hk Hx Hy r. unfold r, ctz_step. simpl.
  replace (2 ^ k - 1) with (Z.ones k) by (rewrite Z.ones_equiv; lia). rewrite Z.land_ones by lia.
  assert (0 < 2 ^ k) by (apply Z.pow_pos_nonneg; lia).
  destruct (Z.eqb_spec (y mod 2 ^ k) 0) as [Hz|Hnz]; [|done]. simpl. rewrite Z.shiftr_div_pow2 by lia.
  pose proof (Z.div_mod y (2 ^ k) ltac:(lia)) as Hd. split_and!; [lia| |].
  - rewrite Z.pow_add_r by lia. nia.
  - intros He. apply Hy. replace (2 * k) with (k + k) by lia. rewrite Z.pow_add_r by lia.
    rewrite Z.rem_mul_r by lia. rewrite Hz, He. lia.
Qed.

Lemma ctz_divides x :
  0 < x < 2 ^ 32 → ∃ y, 0 ≤ __ctzsi2 x ∧ x = (2 * y + 1) * 2 ^ __ctzsi2 x.
Proof.
  intros Hx. unfold __ctzsi2. rewrite (proj2 (Z.eqb_neq _ _)) by lia.
  destruct (ctz_step_spec x 0 x 16) as (N1 & E1 & B1); [lia..|rewrite Z.mod_small; lia|].
  change (2 ^ 16 - 1) with 0x0000FFFF in *. set (r1 := ctz_step _ _ 16) in *. clearbody r1. destruct r1 as [n1 y1].
  destruct (ctz_step_spec x n1 y1 8) as (N2 & E2 & B2); [done..|].
  change (2 ^ 8 - 1) with 0x000000FF in *. set (r2 := ctz_step _ _ 8) in *. clearbody r2. destruct r2 as [n2 y2].
  destruct (ctz_step_spec x n2 y2 4) as (N3 & E3 & B3); [done..|].
  change (2 ^ 4 - 1) with 0x0000000F in *. set (r3 := ctz_step _ _ 4) in *. clearbody r3. destruct r3 as [n3 y3].
  destruct (ctz_step_spec x n3 y3 2) as (N4 & E4 & B4); [done..|].
  change (2 ^ 2 - 1) with 0x00000003 in *. set (r4 := ctz_step _ _ 2) in *. clearbody r4. destruct r4 as [n4 y4].
  cbn [fst snd] in *. assert (Z.land y4 1 = y4 mod 2) as -> by exact (Z.land_ones y4 1 ltac:(lia)). change (2 ^ 2) with (2 * 2) in B4.
  pose proof (Z.div_mod y4 2 ltac:(lia)). pose proof (Z.mod_pos_bound y4 2 ltac:(lia)).
  destruct (Z.eqb_spec (y4 mod 2) 0) as [Hz|Hnz].
  - exists (y4 / 2 / 2). split; [lia|]. rewrite Z.pow_add_r by lia. rewrite Z.rem_mul_r in B4 by lia.
    pose proof (Z.div_mod (y4 / 2) 2 ltac:(lia)). pose proof (Z.mod_pos_bound (y4 / 2) 2 ltac:(lia)).
    rewrite E4. nia.
  - exists (y4 / 2). split; [done|]. rewrite E4 at 1. f_equal. lia.
Qed.

(** ** Division *)

(** The aligned divisor: the first power of two times [d] that is at least half
    of what the dividend can be. *)
Lemma udiv_up_spec n d k fuel :
  0 < d → uint 64 n → 0 ≤ k → d * 2 ^ k < 2 ^ 64 → (64 - k < Z.of_nat fuel) →
  ∃ k', 0 ≤ k' ∧ udiv_up fuel n (d * 2 ^ k) (2 ^ k) = Some (d * 2 ^ k', 2 ^ k') ∧
    d * 2 ^ k' < 2 ^ 64 ∧ n < 2 * (d * 2 ^ k').
Proof.
  intros Hd [Hn0 Hn] Hk Hlt Hf. revert k Hk Hlt Hf. induction fuel as [|fuel IH]; intros k Hk Hlt Hf.
  { assert (2 ^ 64 ≤ 2 ^ k) by (apply Z.pow_le_mono_r; lia). nia. }
  cbn [udiv_up]. assert (0 < 2 ^ k) by (apply Z.pow_pos_nonneg; lia). change (Z.shiftl 1 63) with (2 ^ 63).
  assert (Z.land (d * 2 ^ k) (2 ^ 63) = 0 ↔ d * 2 ^ k < 2 ^ 63) as Htop.
  { split; intros Hz.
    - destruct (Z.lt_ge_cases (d * 2 ^ k) (2 ^ 63)) as [|Hge]; [done|exfalso].
      assert (Z.testbit (d * 2 ^ k) 63 = true) as Hb.
      { rewrite <- (Z.log2_unique (d * 2 ^ k) 63) by lia. apply Z.bit_log2. nia. }
      apply (f_equal (λ z, Z.testbit z 63)) in Hz. rewrite Z.land_spec, Hb in Hz. by vm_compute in Hz.
    - apply Z.bits_inj'. intros i Hi. rewrite Z.land_spec, Z.bits_0, Z.pow2_bits_eqb by lia.
      destruct (Z.eqb_spec 63 i) as [<-|]; [|by rewrite andb_false_r].
      rewrite Z.bits_above_log2; [done|nia|]. destruct (decide (d * 2 ^ k = 0)) as [->|]; [done|].
      apply Z.log2_lt_pow2; nia. }
  destruct (Z.eqb_spec (Z.land (d * 2 ^ k) (2 ^ 63)) 0) as [Hz|Hz]; cbn [andb].
  - apply Htop in Hz. destruct (Z.ltb_spec (d * 2 ^ k) n).
    + rewrite !Z.shiftl_mul_pow2 by lia. change (2 ^ 1) with 2.
      rewrite !wrap_small by (unfold uint; nia).
      replace (d * 2 ^ k * 2) with (d * 2 ^ (k + 1)) by (rewrite Z.pow_add_r; lia).
      replace (2 ^ k * 2) with (2 ^ (k + 1)) by (rewrite Z.pow_add_r; lia).
      apply IH; [lia| |lia]. rewrite Z.pow_add_r by lia. lia.
    + exists k. split_and!; [done|done|done|nia].
  - exists k. split_and!; [done..|]. assert (2 ^ 63 ≤ d * 2 ^ k) by lia. lia.
Qed.

(** [q] has no bit at or below [k]: or-ing [2^k] in adds it. *)
Lemma lor_pow2 j k : 0 ≤ k → Z.lor (j * 2 ^ (k + 1)) (2 ^ k) = j * 2 ^ (k + 1) + 2 ^ k.
Proof.
  intros Hk. rewrite <- (lor_shiftl_add (k + 1) j (2 ^ k)), Z.shiftl_mul_pow2; [done|lia|lia|].
  unfold uint. rewrite Z.pow_add_r by lia. assert (0 < 2 ^ k) by (apply Z.pow_pos_nonneg; lia). lia.
Qed.

Lemma udiv_down_spec d k n j fuel :
  0 < d → 0 ≤ n < 2 * (d * 2 ^ Z.of_nat k) → (k + 1 < fuel)%nat →
  udiv_down fuel n (d * 2 ^ Z.of_nat k) (2 ^ Z.of_nat k) (j * 2 ^ (Z.of_nat k + 1)) =
    Some (j * 2 ^ (Z.of_nat k + 1) + n / d).
Proof.
  intros Hd. revert n j fuel. induction k as [|k IH]; intros n j [|fuel] Hn Hf; try lia; cbn [udiv_down].
  - change (2 ^ Z.of_nat 0) with 1 in *. rewrite Z.mul_1_r in *. change (1 =? 0) with false. cbv iota.
    destruct fuel as [|fuel]; [lia|]. pose proof (lor_pow2 j 0 ltac:(lia)) as Hl. change (2 ^ 0) with 1 in Hl.
    change (Z.of_nat 0) with 0 in *.
    destruct (Z.leb_spec d n) as [Hle|Hgt]; cbn [udiv_down]; rewrite !Z.shiftr_div_pow2 by lia;
      change (1 / 2 ^ 1 =? 0) with true; cbv iota; f_equal.
    + rewrite Hl. replace (n / d) with 1; [done|]. apply (Z.div_unique_pos _ _ _ (n - d)); lia.
    + rewrite Z.div_small by lia. lia.
  - rewrite Nat2Z.inj_succ in *. set (kz := Z.of_nat k) in *. assert (0 < 2 ^ kz) by (apply Z.pow_pos_nonneg; lia).
    rewrite (proj2 (Z.eqb_neq (2 ^ Z.succ kz) 0)) by (rewrite Z.pow_succ_r; lia).
    rewrite !Z.shiftr_div_pow2 by lia. change (2 ^ 1) with 2.
    replace (d * 2 ^ Z.succ kz) with (d * 2 ^ kz * 2) in * by (rewrite Z.pow_succ_r; lia).
    replace (2 ^ Z.succ kz / 2) with (2 ^ kz) by (rewrite Z.pow_succ_r, Z.mul_comm, Z.div_mul; lia).
    rewrite Z.div_mul by lia. replace (Z.succ kz + 1) with (kz + 1 + 1) in * by lia.
    replace (Z.succ kz) with (kz + 1) by lia. rewrite lor_pow2 by lia.
    assert (j * 2 ^ (kz + 1 + 1) = (2 * j) * 2 ^ (kz + 1)) as Hj by (rewrite (Z.pow_add_r 2 (kz + 1)); lia).
    destruct (Z.leb_spec (d * 2 ^ kz * 2) n).
    + replace (j * 2 ^ (kz + 1 + 1) + 2 ^ (kz + 1)) with ((2 * j + 1) * 2 ^ (kz + 1)) by lia.
      rewrite IH by lia. f_equal. replace (n / d) with ((n - d * 2 ^ kz * 2 + 2 ^ (kz + 1) * d) / d).
      { rewrite Z.div_add by lia. lia. }
      f_equal. rewrite Z.pow_add_r by lia. lia.
    + rewrite Hj, IH by lia. done.
Qed.

(** ** Counting bits *)

Fixpoint ones_in (k : nat) (x : Z) : Z :=
  match k with O => 0 | S k => Z.b2z (Z.testbit x 0) + ones_in k (Z.shiftr x 1) end.

Lemma ones_in_bits k x j :
  ones_in k (Z.shiftr x (Z.of_nat j)) =
    foldr (λ i n, Z.b2z (Z.testbit x (Z.of_nat i)) + n) 0 (seq j k).
Proof.
  revert j. induction k as [|k IH]; intros j; [done|]. cbn [ones_in seq foldr].
  rewrite Z.shiftr_spec, Z.add_0_l, Z.shiftr_shiftr by lia. f_equal.
  rewrite <- IH. do 2 f_equal. lia.
Qed.

Lemma popcount_loop_spec k x n fuel :
  0 ≤ x < 2 ^ Z.of_nat k → (k < fuel)%nat → popcount_loop fuel x n = Some (n + ones_in k x).
Proof.
  revert x n fuel. induction k as [|k IH]; intros x n [|fuel] Hx Hf; try lia; cbn [popcount_loop].
  - change (2 ^ Z.of_nat 0) with 1 in Hx. assert (x = 0) as -> by lia. simpl. f_equal. lia.
  - rewrite Nat2Z.inj_succ, Z.pow_succ_r in Hx by lia. destruct (Z.eqb_spec x 0) as [->|Hnz].
    + f_equal. assert (∀ k, ones_in k 0 = 0) as -> by (clear; induction k as [|k IH]; simpl; [done|]; by rewrite Z.shiftr_0_l, IH).
      lia.
    + rewrite IH by (rewrite ?Z.shiftr_div_pow2 by lia; change (2 ^ 1) with 2;
        pose proof (Z.div_mod x 2 ltac:(lia)); pose proof (Z.mod_pos_bound x 2 ltac:(lia)); lia).
      cbn [ones_in]. f_equal. assert (Z.land x 1 = Z.b2z (Z.testbit x 0)) as ->; [|lia].
      rewrite Z.bit0_mod. exact (Z.land_ones x 1 ltac:(lia)).
Qed.

(** ** Byte order *)

(** Byte [i] of a value, from the least significant. *)
Definition byte_of (x i : Z) : Z := Z.land (Z.shiftr x (8 * i)) 0xFF.

Lemma land_ff x i : 0 ≤ i → Z.testbit (Z.land x 0xFF) i = Z.testbit x i && (i <? 8).
Proof. intros. change 0xFF with (Z.ones 8). rewrite Z.land_spec, Z.testbit_ones by lia. f_equal. lia. Qed.

(** The mask of one byte, at a bit. *)
Lemma byte_mask k i : 0 ≤ k → 0 ≤ i → Z.testbit (Z.shiftl 0xFF (8 * k)) i = (8 * k <=? i) && (i <? 8 * k + 8).
Proof.
  intros Hk Hi. rewrite Z.shiftl_spec by lia. destruct (Z.leb_spec (8 * k) i); cbn [andb].
  - change 0xFF with (Z.ones 8). rewrite Z.testbit_ones by lia. lia.
  - apply Z.testbit_neg_r. lia.
Qed.

(** Every bit of [htonl]: the same place in the byte at the other end. *)
Lemma htonl_bit x i : 0 ≤ i < 32 → Z.testbit (htonl x) i = Z.testbit x (8 * (3 - i / 8) + i mod 8).
Proof.
  intros Hi. unfold htonl. change 0xFF00 with (Z.shiftl 0xFF (8 * 1)). change 0xFF0000 with (Z.shiftl 0xFF (8 * 2)).
  change 0xFF000000 with (Z.shiftl 0xFF (8 * 3)).
  rewrite !Z.lor_spec, wrap_testbit, !Z.shiftr_spec, !Z.shiftl_spec by lia.
  assert (∀ k j, 0 ≤ k → Z.testbit (Z.land x (Z.shiftl 0xFF (8 * k))) j =
    Z.testbit x j && ((0 <=? j) && (8 * k <=? j) && (j <? 8 * k + 8))) as Hb.
  { intros k j Hk. destruct (Z.leb_spec 0 j); cbn [andb].
    - by rewrite Z.land_spec, byte_mask.
    - by rewrite Z.testbit_neg_r, andb_false_r by lia. }
  change (Z.land x 0xFF) with (Z.land x (Z.shiftl 0xFF (8 * 0))). rewrite !Hb by lia.
  assert (∃ n : nat, (n < 32)%nat ∧ i = Z.of_nat n) as (n & Hn & ->) by (exists (Z.to_nat i); lia).
  do 32 (destruct n as [|n]; [cbn; by rewrite ?andb_false_r, ?andb_true_r, ?orb_false_r|]). lia.
Qed.

Lemma htonl_uint x : uint 32 (htonl x).
Proof.
  assert (∀ m, uint 32 m → uint 32 (Z.land x m)) as Hl by (intros; by apply uint_land_r).
  unfold htonl. repeat (apply uint_lor; [lia| |]).
  - apply uint_wrap. lia.
  - rewrite Z.shiftl_mul_pow2 by lia. assert (uint 16 (Z.land x 0xFF00)) as [? ?] by (by apply uint_land_r).
    unfold uint. lia.
  - apply uint_shiftr; [lia..|]. by apply Hl.
  - apply uint_shiftr; [lia..|]. by apply Hl.
Qed.

(** ** Properties *)

(** [memmove] copies correctly however its two ranges overlap: each byte of
    the destination is what the source held before the call, and no other byte
    changes; [memcpy] does the same unless the destination starts strictly
    inside the source. *)
Theorem libc_memmove m dst src n x :
  ld_byte (memmove m dst src n) x = moved m dst src n x ∧
  (¬ src < dst < src + Z.of_nat n → ld_byte (memcpy m dst src n) x = moved m dst src n x).
Proof.
  split; [|intros; apply memcpy_spec; lia]. unfold memmove.
  destruct (Z.ltb_spec dst src); [apply memcpy_spec; lia|by apply copy_down_spec].
Qed.

(** [strcmp] of two strings returns, and its sign is their order as strings
    of unsigned bytes, a prefix first: negative when the first precedes, zero
    exactly when they are equal, positive when the second precedes. *)
Theorem libc_strcmp m s1 s2 l1 l2 fuel :
  cstr m s1 l1 → cstr m s2 l2 → (length l1 < fuel)%nat →
  ∃ r, strcmp fuel m s1 s2 = Some r ∧ compares r l1 l2.
Proof. apply strcmp_spec. Qed.

(** The string scans return: [strlen] the length; [strspn] and [strcspn] the
    length of the longest prefix of bytes that are, respectively are not, in
    the set; [strcpy] leaves a copy of the string at a destination that does
    not overlap it, touching nothing else. *)
Theorem libc_strings m s q l set fuel :
  cstr m s l → cstr m q set → (length l + length set < fuel)%nat →
  strlen fuel m s = Some (Z.of_nat (length l)) ∧
  strspn fuel m s q = Some (Z.of_nat (span set l true)) ∧
  strcspn fuel m s q = Some (Z.of_nat (span set l false)) ∧
  ∀ d, d + Z.of_nat (length l) < s ∨ s + Z.of_nat (length l) < d →
    ∃ m', strcpy fuel m d s = Some m' ∧ cstr m' d l ∧
      ∀ x, ¬ d ≤ x ≤ d + Z.of_nat (length l) → ld_byte m' x = ld_byte m x.
Proof.
  intros Hl Hs Hf. split_and!.
  - apply strlen_spec; [done|lia].
  - unfold strspn. rewrite (span_loop_spec m s q l set true fuel) by done. simpl. f_equal. lia.
  - unfold strcspn. rewrite (span_loop_spec m s q l set false fuel) by done. simpl. f_equal. lia.
  - intros d Hd. apply strcpy_spec; [done..|lia].
Qed.

(** The 64-bit division routines, which the cores without a divider link,
    terminate and are the quotient and the remainder, for every nonzero
    divisor. *)
Theorem libc_udivmod n d :
  uint 64 n → uint 64 d → d ≠ 0 → __udivdi3 n d = Some (n / d) ∧ __umoddi3 n d = Some (n mod d).
Proof.
  intros Hn Hd Hnz. assert (0 < d) as Hpos by (destruct Hd; lia).
  assert (__udivdi3 n d = Some (n / d)) as Hq.
  { unfold __udivdi3. rewrite (proj2 (Z.eqb_neq _ _)) by done.
    destruct (udiv_up_spec n d 0 udiv_fuel Hpos Hn) as (k & Hk & He & Hlt & Hb);
      [lia|destruct Hd; lia|unfold udiv_fuel; lia|].
    change (2 ^ 0) with 1 in He. rewrite Z.mul_1_r in He. rewrite He. cbn [mbind option_bind].
    assert (k < 64) by (destruct (Z.lt_ge_cases k 64); [done|];
      assert (2 ^ 64 ≤ 2 ^ k) by (apply Z.pow_le_mono_r; lia); nia).
    pose proof (udiv_down_spec d (Z.to_nat k) n 0 udiv_fuel Hpos) as Hs. rewrite Z2Nat.id in Hs by done.
    apply Hs; [destruct Hn; lia|unfold udiv_fuel; lia]. }
  split; [done|]. unfold __umoddi3. rewrite (proj2 (Z.eqb_neq _ _)), Hq by done. cbn [mbind option_bind].
  pose proof (Z.div_mod n d Hnz) as Hdm. pose proof (Z.mod_pos_bound n d Hpos).
  destruct Hn, Hd. assert (0 ≤ n / d) by (apply Z.div_pos; lia).
  rewrite (wrap_small 64 (n / d * d)) by (unfold uint; nia).
  rewrite wrap_small by (unfold uint; nia). f_equal. lia.
Qed.

(** The bit counts of a nonzero word: [__clzsi2] zeros above the top bit,
    [__ctzsi2] zeros below the lowest, [__popcountsi2] set bits. *)
Theorem libc_bit_counts x :
  0 < x < 2 ^ 32 →
  __clzsi2 x = 31 - Z.log2 x ∧
  (∃ y, 0 ≤ __ctzsi2 x ∧ x = (2 * y + 1) * 2 ^ __ctzsi2 x) ∧
  __popcountsi2 x = Some (foldr (λ i n, Z.b2z (Z.testbit x (Z.of_nat i)) + n) 0 (seq 0 32)).
Proof.
  intros Hx. split_and!; [by apply clz_log2|by apply ctz_divides|].
  unfold __popcountsi2. rewrite (popcount_loop_spec 32) by (change (Z.of_nat 32) with 32; lia).
  rewrite <- ones_in_bits. by rewrite Z.shiftr_0_r.
Qed.

(** [htonl] reverses the four bytes of a word, and [ntohl] undoes it. *)
Theorem libc_htonl_roundtrip x :
  uint 32 x → (∀ i, 0 ≤ i < 4 → byte_of (htonl x) i = byte_of x (3 - i)) ∧ ntohl (htonl x) = x.
Proof.
  intros Hx. assert (∀ j, 0 ≤ j < 32 → 0 ≤ 8 * (3 - j / 8) + j mod 8 < 32) as Hr.
  { intros j Hj. pose proof (Z.div_mod j 8 ltac:(lia)). pose proof (Z.mod_pos_bound j 8 ltac:(lia)). lia. }
  split.
  - intros i Hi. unfold byte_of. apply Z.bits_inj'. intros j Hj. rewrite !land_ff, !Z.shiftr_spec by lia.
    destruct (Z.ltb_spec j 8); [|by rewrite !andb_false_r]. rewrite !andb_true_r, htonl_bit by lia. f_equal.
    replace ((j + 8 * i) / 8) with i by (apply (Z.div_unique_pos _ _ _ j); lia).
    replace ((j + 8 * i) mod 8) with j by (apply (Z.mod_unique_pos _ _ i); lia). lia.
  - unfold ntohl. apply Z.bits_inj'. intros j Hj. destruct (Z.lt_ge_cases j 32) as [Hlt|Hge].
    + rewrite !htonl_bit by (try apply Hr; lia). f_equal.
      set (k := 8 * (3 - j / 8) + j mod 8). pose proof (Z.div_mod j 8 ltac:(lia)). pose proof (Z.mod_pos_bound j 8 ltac:(lia)).
      replace (k / 8) with (3 - j / 8) by (apply (Z.div_unique_pos _ _ _ (j mod 8)); lia).
      replace (k mod 8) with (j mod 8) by (apply (Z.mod_unique_pos _ _ (3 - j / 8)); lia). lia.
    + rewrite !(uint_testbit_high 32); [done|lia|done|lia|lia|apply htonl_uint|lia].
Qed.

(** The classification table is ASCII: digits, upper and lower case letters,
    hexadecimal letters, white space and control characters, and nothing above
    127 is classified. *)
Theorem libc_ctype c :
  0 ≤ c < 256 →
  let f := _ctype_ !!! Z.to_nat (c + 1) in
  tst f _N = (48 <=? c) && (c <=? 57) ∧ tst f _U = (65 <=? c) && (c <=? 90) ∧
  tst f _L = (97 <=? c) && (c <=? 122) ∧
  tst f _X = ((65 <=? c) && (c <=? 70)) || ((97 <=? c) && (c <=? 102)) ∧
  tst f _S = ((9 <=? c) && (c <=? 13)) || (c =? 32) ∧
  tst f _C = (c <? 32) || (c =? 127) ∧
  tst f _P = (33 <=? c) && (c <=? 126) && negb (tst f (Z.lor (Z.lor _N _U) _L)).
Proof.
  intros Hc. assert (∃ n : nat, (n < 256)%nat ∧ c = Z.of_nat n) as (n & Hn & ->) by (exists (Z.to_nat c); lia).
  do 256 (destruct n as [|n]; [by vm_compute|]). lia.
Qed.

(** ** Concrete strings *)

(** Bytes laid out from an address. *)
Fixpoint lay (m : gmap Z Z) (p : Z) (l : list Z) : gmap Z Z :=
  match l with [] => m | c :: l => st_byte (lay m (p + 1) l) p c end.

(** "ab" at 16, "ac" at 32. *)
Definition mem_ab : gmap Z Z := lay (lay ∅ 16 [97; 98; 0]) 32 [97; 99; 0].

Lemma libc_strcmp_witness : ∃ r, strcmp 8 mem_ab 16 32 = Some r ∧ compares r [97; 98] [97; 99].
Proof. apply (libc_strcmp mem_ab 16 32 [97; 98] [97; 99] 8); [by vm_compute|by vm_compute|simpl; lia]. Defined.

Lemma libc_strings_witness :
  strlen 8 mem_ab 16 = Some (Z.of_nat 2) ∧ strspn 8 mem_ab 16 32 = Some (Z.of_nat (span [97; 99] [97; 98] true)).
Proof.
  pose proof (libc_strings mem_ab 16 32 [97; 98] [97; 99] 8 ltac:(by vm_compute) ltac:(by vm_compute)
    ltac:(simpl; lia)) as (H1 & H2 & _).
  split; [exact H1|exact H2].
Defined.

Lemma libc_udivmod_witness :
  __udivdi3 1000000007 13 = Some (1000000007 / 13) ∧ __umoddi3 1000000007 13 = Some (1000000007 mod 13).
Proof. apply (libc_udivmod 1000000007 13); [by vm_compute|by vm_compute|lia]. Defined.

Lemma libc_bit_counts_witness :
  __clzsi2 0x00100000 = 31 - Z.log2 0x00100000 ∧
  __popcountsi2 0x00100000 = Some (foldr (λ i n, Z.b2z (Z.testbit 0x00100000 (Z.of_nat i)) + n) 0 (seq 0 32)).
Proof. destruct (libc_bit_counts 0x00100000 ltac:(lia)) as (H1 & _ & H3). split; [exact H1|exact H3]. Defined.

Lemma libc_htonl_roundtrip_witness : ntohl (htonl 0x12345678) = 0x12345678.
Proof. apply (libc_htonl_roundtrip 0x12345678). by vm_compute. Defined.

Lemma libc_ctype_witness : tst (_ctype_ !!! Z.to_nat (55 + 1)) _N = (48 <=? 55) && (55 <=? 57).
Proof. apply (libc_ctype 55). lia. Defined.

Lemma libc_memmove_witness :
  ld_byte (memmove mem_ab 17 16 2) 18 = moved mem_ab 17 16 2 18 ∧
  ld_byte (memcpy mem_ab 16 17 2) 16 = moved mem_ab 16 17 2 16.
Proof. split; [apply (libc_memmove mem_ab 17 16 2 18)|apply (libc_memmove mem_ab 16 17 2 16); lia]. Defined.
