(* ===== verification/Ipc.v ===== *)
(** * The inter-processor mailbox ([qemu-machine/hw/misc/bl808_ipc.c])

    One module [BL808IPC] with the state record, the register handlers, the
    reset and clock hooks, and the refinement of the mailbox to a pair of
    channel sets. *)

From S2P Require Import Prelude Qemu.
From stdpp Require Import prelude gmap.
From Stdlib Require Import ZArith Lia.
Local Open Scope Z_scope.

Module BL808IPC.

(** ** State *)

Record BL808IPCState := mk_ipc {
  irq : bool;               (* level last passed to qemu_set_irq *)
  pending : Z;              (* uint32_t *)
  enabled : Z;              (* uint32_t *)
  clock_enabled : bool;
  reset_asserted : bool;
}.

#[export] Instance eta_ipc : Eta BL808IPCState := λ r,
  mk_ipc (irq r) (pending r) (enabled r) (clock_enabled r) (reset_asserted r).

Definition IPC_CPU1_ISWR := 0x00.
Definition IPC_CPU1_IRSRR := 0x04.
Definition IPC_CPU1_ICR := 0x08.
Definition IPC_CPU1_IUSR := 0x0C.
Definition IPC_CPU1_IUCR := 0x10.
Definition IPC_CPU1_ISTS := 0x14.
Definition IPC_CPU1_ILSHR := 0x18.
Definition IPC_CPU1_ISR := 0x1C.
Definition IPC_CPU0_ISWR := 0x20.
Definition IPC_CPU0_IRSRR := 0x24.
Definition IPC_CPU0_ICR := 0x28.
Definition IPC_CPU0_IUSR := 0x2C.
Definition IPC_CPU0_IUCR := 0x30.
Definition IPC_CPU0_ILSLR := 0x34.
Definition IPC_CPU0_ILSHR := 0x38.
Definition IPC_CPU0_ISR := 0x3C.
Definition IPC_SIZE := 0x40.

(** ** Operations *)

Definition bl808_ipc_active (s : BL808IPCState) : bool :=
  clock_enabled s && negb (reset_asserted s).

Definition bl808_ipc_update_irq (s : BL808IPCState) : BL808IPCState :=
  let asserted := negb (Z.land (pending s) (enabled s) =? 0) in
  s <| irq := bl808_ipc_active s && asserted |>.

Definition bl808_ipc_read (s : BL808IPCState) (offset size : Z) : Z :=
  if negb (size =? 4) || (IPC_SIZE <=? offset) then 0
  else if (offset =? IPC_CPU1_ISWR) || (offset =? IPC_CPU0_ISWR) then 0
  else if (offset =? IPC_CPU1_IRSRR) || (offset =? IPC_CPU0_IRSRR) then pending s
  else if (offset =? IPC_CPU1_ICR) || (offset =? IPC_CPU0_ICR) then 0
  else if (offset =? IPC_CPU1_IUSR) || (offset =? IPC_CPU0_IUSR) then enabled s
  else if (offset =? IPC_CPU1_IUCR) || (offset =? IPC_CPU0_IUCR) then not32 (enabled s)
  else if (offset =? IPC_CPU1_ISTS) || (offset =? IPC_CPU1_ISR) || (offset =? IPC_CPU0_ISR)
  then Z.land (pending s) (enabled s)
  else if (offset =? IPC_CPU1_ILSHR) || (offset =? IPC_CPU0_ILSLR) || (offset =? IPC_CPU0_ILSHR)
  then 0xFFFFFFFF
  else 0.

Definition bl808_ipc_write (s : BL808IPCState) (offset value size : Z) : BL808IPCState :=
  let masked := u32 value in
  if negb (size =? 4) || (IPC_SIZE <=? offset) then s
  else if reset_asserted s then s
  else if (offset =? IPC_CPU1_ISWR) || (offset =? IPC_CPU0_ISWR) then
    bl808_ipc_update_irq (s <| pending := Z.lor (pending s) masked |>)
  else if (offset =? IPC_CPU1_IRSRR) || (offset =? IPC_CPU0_IRSRR) then s
  else if (offset =? IPC_CPU1_ICR) || (offset =? IPC_CPU0_ICR) then
    bl808_ipc_update_irq (s <| pending := Z.land (pending s) (not32 masked) |>)
  else if (offset =? IPC_CPU1_IUSR) || (offset =? IPC_CPU0_IUSR) then
    bl808_ipc_update_irq (s <| enabled := Z.lor (enabled s) masked |>)
  else if (offset =? IPC_CPU1_IUCR) || (offset =? IPC_CPU0_IUCR) then
    bl808_ipc_update_irq (s <| enabled := Z.land (enabled s) (not32 masked) |>)
  else s.

(** [bl808_ipc_init]: the object is allocated zeroed, the hook sets the two
    flags. *)
Definition bl808_ipc_init (s : BL808IPCState) : BL808IPCState :=
  s <| clock_enabled := false |> <| reset_asserted := false |>.

Definition bl808_ipc_reset (s : BL808IPCState) : BL808IPCState :=
  bl808_ipc_update_irq (s <| pending := 0 |> <| enabled := 0 |>).

Definition bl808_ipc_set_clock_enabled (s : BL808IPCState) (enabled : bool) : BL808IPCState :=
  bl808_ipc_update_irq (s <| clock_enabled := enabled |>).

Definition bl808_ipc_set_reset_asserted `{!ColdReset bl808_ipc_reset}
    (s : BL808IPCState) (asserted : bool) : BL808IPCState :=
  let s := s <| reset_asserted := asserted |> in
  if asserted then device_cold_reset s else bl808_ipc_update_irq s.

(** ** Runs of the device *)

Inductive ipc_op :=
  | IpcWrite (offset value size : Z)
  | IpcReset
  | IpcClock (enabled : bool)
  | IpcResetLine (asserted : bool).

Definition ipc_step `{!ColdReset bl808_ipc_reset} (s : BL808IPCState) (op : ipc_op) :
    BL808IPCState :=
  match op with
  | IpcWrite offset value size => bl808_ipc_write s offset value size
  | IpcReset => bl808_ipc_reset s
  | IpcClock b => bl808_ipc_set_clock_enabled s b
  | IpcResetLine b => bl808_ipc_set_reset_asserted s b
  end.

(** ** Abstract mailbox: two sets of channels *)

Record mailbox := mk_mailbox {
  raised : gset Z;
  unmasked : gset Z;
  clocked : bool;
  held : bool;
}.

#[export] Instance eta_mailbox : Eta mailbox := λ r,
  mk_mailbox (raised r) (unmasked r) (clocked r) (held r).

(** The channels named by a register value. *)
Definition chans (x : Z) : gset Z := list_to_set (filter (λ i, Z.testbit x i) (seqZ 0 32)).

(** The level of the interrupt line that the mailbox promises. *)
Definition mailbox_line (m : mailbox) : bool :=
  clocked m && negb (held m) && bool_decide (raised m ∩ unmasked m ≠ ∅).

Inductive mailbox_reg := Signal | Clear | Unmask | Mask | Other.

Definition mailbox_reg_of (offset : Z) : mailbox_reg :=
  let o := offset mod 0x20 in
  if o =? 0x00 then Signal else if o =? 0x08 then Clear
  else if o =? 0x0C then Unmask else if o =? 0x10 then Mask else Other.

Definition mailbox_step (m : mailbox) (op : ipc_op) : mailbox :=
  match op with
  | IpcWrite offset value size =>
      if held m || negb (size =? 4) || negb ((0 <=? offset) && (offset <? 0x40)) then m else
      match mailbox_reg_of offset with
      | Signal => m <| raised := raised m ∪ chans value |>
      | Clear => m <| raised := raised m ∖ chans value |>
      | Unmask => m <| unmasked := unmasked m ∪ chans value |>
      | Mask => m <| unmasked := unmasked m ∖ chans value |>
      | Other => m
      end
  | IpcReset => m <| raised := ∅ |> <| unmasked := ∅ |>
  | IpcClock b => m <| clocked := b |>
  | IpcResetLine true => m <| held := true |> <| raised := ∅ |> <| unmasked := ∅ |>
  | IpcResetLine false => m <| held := false |>
  end.

Definition ipc_abs (s : BL808IPCState) : mailbox :=
  mk_mailbox (chans (pending s)) (chans (enabled s)) (clock_enabled s) (reset_asserted s).

(** The registers are 32-bit values and the line is the one the registers and
    the two gates call for. *)
Definition ipc_wf (s : BL808IPCState) : Prop :=
  uint 32 (pending s) ∧ uint 32 (enabled s) ∧
  irq s = bl808_ipc_active s && negb (Z.land (pending s) (enabled s) =? 0).

(** ** Channel sets *)

Lemma elem_of_chans x i : i ∈ chans x ↔ (0 ≤ i < 32) ∧ Z.testbit x i = true.
Proof.
  unfold chans. rewrite elem_of_list_to_set, list_elem_of_filter, elem_of_seqZ.
  rewrite Is_true_true. naive_solver lia.
Qed.

Ltac by_channel :=
  apply set_eq; intros i;
  rewrite ?elem_of_union, ?elem_of_difference, ?elem_of_chans;
  destruct (decide (0 ≤ i < 32)); [|naive_solver];
  autorewrite with bits; unfold not32; autorewrite with bits;
  rewrite ?Z.lnot_spec by lia; autorewrite with bits;
  replace (i <? 32) with true by (symmetry; apply Z.ltb_lt; lia);
  destruct (Z.testbit _ i) eqn:?; simpl; rewrite ?andb_true_r.

Lemma chans_lor x y : chans (Z.lor x (u32 y)) = chans x ∪ chans y.
Proof. by_channel; naive_solver. Qed.

Lemma chans_clear x y : chans (Z.land x (not32 (u32 y))) = chans x ∖ chans y.
Proof. by_channel; destruct (Z.testbit y i); naive_solver. Qed.

Lemma chans_0 : chans 0 = ∅.
Proof. reflexivity. Qed.

Lemma chans_line x y :
  uint 32 x → negb (Z.land x y =? 0) = bool_decide (chans x ∩ chans y ≠ ∅).
Proof.
  intros Hx. destruct (Z.eqb_spec (Z.land x y) 0) as [H|H]; simpl; symmetry.
  - apply bool_decide_eq_false. intros Hne. apply set_choose_L in Hne as [i Hi].
    rewrite elem_of_intersection, !elem_of_chans in Hi. destruct Hi as [[? Hi] [_ Hj]].
    apply (f_equal (λ z, Z.testbit z i)) in H.
    by rewrite Z.land_spec, Z.bits_0, Hi, Hj in H.
  - apply bool_decide_eq_true. intros He. apply H. apply Z.bits_inj'. intros i Hi.
    rewrite Z.land_spec, Z.bits_0. destruct (decide (i < 32)) as [Hlt|Hge].
    + apply not_true_is_false. intros [H1 H2]%andb_true_iff.
      assert (i ∈ chans x ∩ chans y) as Hin
        by (rewrite elem_of_intersection, !elem_of_chans; naive_solver lia).
      rewrite He in Hin. set_solver.
    + by rewrite (uint_testbit_high 32 x i) by (done || lia).
Qed.

(** ** Preservation and refinement *)

#[local] Opaque chans.

Lemma update_irq_wf s :
  uint 32 (pending s) → uint 32 (enabled s) → ipc_wf (bl808_ipc_update_irq s).
Proof. done. Qed.

Lemma ipc_abs_update_irq s : ipc_abs (bl808_ipc_update_irq s) = ipc_abs s.
Proof. done. Qed.

Lemma reset_line_eq `{!ColdReset bl808_ipc_reset} s b :
  bl808_ipc_set_reset_asserted s b =
  if b then bl808_ipc_reset (s <| reset_asserted := true |>)
  else bl808_ipc_update_irq (s <| reset_asserted := false |>).
Proof. destruct b; [apply device_cold_reset_runs|done]. Qed.

Lemma ipc_line s : ipc_wf s → irq s = mailbox_line (ipc_abs s).
Proof. intros (Hp & He & ->). unfold mailbox_line; simpl. by rewrite <- chans_line. Qed.

Ltac unfold_offsets :=
  unfold IPC_CPU1_ISWR, IPC_CPU1_IRSRR, IPC_CPU1_ICR, IPC_CPU1_IUSR, IPC_CPU1_IUCR,
    IPC_CPU0_ISWR, IPC_CPU0_IRSRR, IPC_CPU0_ICR, IPC_CPU0_IUSR, IPC_CPU0_IUCR in *.

Section runs.
Context `{!ColdReset bl808_ipc_reset}.

Lemma ipc_step_wf s op : ipc_wf s → ipc_wf (ipc_step s op).
Proof.
  intros Hwf. destruct Hwf as (Hp & He & Hi). destruct op; simpl.
  - unfold bl808_ipc_write. split_ifs; first [exact (conj Hp (conj He Hi)) |
      apply update_irq_wf; simpl; solve_uint].
  - by apply update_irq_wf.
  - by apply update_irq_wf.
  - rewrite reset_line_eq. case_match; by apply update_irq_wf.
Qed.

(** The register a write reaches, bank by bank. *)
Lemma ipc_write_abs s offset value size :
  ipc_abs (bl808_ipc_write s offset value size) =
  mailbox_step (ipc_abs s) (IpcWrite offset value size).
Proof.
  unfold bl808_ipc_write, mailbox_step. simpl (held _).
  destruct (negb (size =? 4)) eqn:Hs; [by rewrite orb_true_r|]. rewrite orb_false_r. cbn [orb].
  unfold IPC_SIZE. destruct (Z.leb_spec 0x40 offset) as [Hge|Hlt].
  { replace (offset <? 0x40) with false by (symmetry; apply Z.ltb_ge; lia).
    by rewrite andb_false_r, orb_true_r. }
  replace (offset <? 0x40) with true by (symmetry; apply Z.ltb_lt; lia).
  rewrite andb_true_r. destruct (reset_asserted s) eqn:Hr; [done|]. cbn [orb].
  destruct (Z.leb_spec 0 offset) as [Hnn|Hneg]; cbn [orb negb].
  2: { unfold_offsets. repeat (eqb_case; [lia|]; cbn [orb]). done. }
  repeat (eqb_case;
          [subst offset; unfold ipc_abs; simpl; by rewrite ?chans_lor, ?chans_clear|]; cbn [orb]).
  assert (mailbox_reg_of offset = Other) as ->; [|done].
  unfold mailbox_reg_of. pose proof (Z.div_mod offset 0x20 ltac:(lia)).
  pose proof (Z.mod_pos_bound offset 0x20 ltac:(lia)).
  assert (offset / 0x20 = 0 ∨ offset / 0x20 = 1) by lia.
  unfold_offsets.
  repeat (eqb_case; [lia|]). done.
Qed.

Lemma ipc_step_abs s op : ipc_abs (ipc_step s op) = mailbox_step (ipc_abs s) op.
Proof.
  destruct op as [| | |[]]; cbn [ipc_step]; rewrite ?reset_line_eq;
    [apply ipc_write_abs|unfold ipc_abs; simpl; by rewrite ?chans_0..].
Qed.

Lemma ipc_run_sim ops s :
  ipc_wf s →
  ipc_wf (foldl ipc_step s ops) ∧
  ipc_abs (foldl ipc_step s ops) = foldl mailbox_step (ipc_abs s) ops.
Proof.
  revert s. induction ops as [|op ops IH]; intros s Hwf; simpl; [done|].
  rewrite <- ipc_step_abs. apply IH. by apply ipc_step_wf.
Qed.
End runs.

(** ** Properties *)

(** C19: the mailbox device refines a pair of channel sets.  From any
    well-formed state, whatever sequence of register writes, resets, clock
    and reset-line changes follows, the registers are the sets that the
    abstract mailbox computes and the interrupt line is high exactly when the
    device is clocked, out of reset and a raised channel is unmasked. *)
Theorem ipc_refines_mailbox (Q : ColdReset bl808_ipc_reset) s ops :
  ipc_wf s →
  let s' := foldl ipc_step s ops in
  let m' := foldl mailbox_step (ipc_abs s) ops in
  ipc_abs s' = m' ∧ irq s' = mailbox_line m' ∧ ipc_wf s'.
Proof.
  intros Hwf s' m'. destruct (ipc_run_sim ops s Hwf) as [Hwf' Habs].
  split_and!; [done| |done]. unfold m'. rewrite <- Habs. by apply ipc_line.
Qed.

(** A freshly created and reset mailbox, its clock then switched on. *)
Definition ipc_boot : BL808IPCState :=
  bl808_ipc_set_clock_enabled
    (bl808_ipc_reset (bl808_ipc_init (mk_ipc false 0 0 false false))) true.

Lemma ipc_refines_mailbox_witness :
  ipc_wf ipc_boot ∧
  let Q := direct_reset bl808_ipc_reset in
  let s' := foldl ipc_step ipc_boot [IpcWrite 0x2C 0x80 4; IpcWrite 0x00 0x81 4] in
  irq s' = true ∧ ipc_abs s' = foldl mailbox_step (ipc_abs ipc_boot)
    [IpcWrite 0x2C 0x80 4; IpcWrite 0x00 0x81 4].
Proof.
  assert (ipc_wf ipc_boot) as Hwf by (vm_compute; split_and!; congruence).
  split; [exact Hwf|]. split; [vm_compute; reflexivity|].
  exact (proj1 (ipc_refines_mailbox (direct_reset bl808_ipc_reset) ipc_boot _ Hwf)).
Defined.

End BL808IPC.
