(* ===== verification/Cks.v ===== *)
(** * The checksum engine ([qemu-machine/hw/misc/bl808_cks.c])

    State, register handlers and reset of the engine, and the closed form of
    the number it computes: the one's complement sum of the 16-bit words of
    the byte stream, with its representative in [1 .. 0xffff]. *)

From S2P Require Import Prelude Qemu.
From stdpp Require Import prelude.
From Stdlib Require Import ZArith Lia.
Local Open Scope Z_scope.

Module BL808CKS.

(** ** State and operations *)

Record BL808CKSState := mk_cks {
  config : Z;               (* uint32_t *)
  checksum : Z;             (* uint16_t *)
  pending_byte : Z;         (* uint8_t *)
  pending_valid : bool;
  clock_enabled : bool;
  reset_asserted : bool;
}.

#[export] Instance eta_cks : Eta BL808CKSState := λ r,
  mk_cks (config r) (checksum r) (pending_byte r) (pending_valid r)
    (clock_enabled r) (reset_asserted r).

Definition CKS_CONFIG := 0x00.
Definition CKS_DATA_IN := 0x04.
Definition CKS_OUT := 0x08.
Definition CKS_CR_CKS_CLR := BIT 0.
Definition CKS_CR_CKS_BYTE_SWAP := BIT 1.

Definition bl808_cks_add_word (acc word : Z) : Z :=
  let sum := u32 (acc + word) in
  let sum := u32 (Z.land sum 0xffff + Z.shiftr sum 16) in
  let sum := u32 (Z.land sum 0xffff + Z.shiftr sum 16) in
  u16 sum.

Definition bl808_cks_current_output (s : BL808CKSState) : Z :=
  let acc := checksum s in
  if pending_valid s then
    let word := if tst (config s) CKS_CR_CKS_BYTE_SWAP
                then u16 (Z.shiftl (pending_byte s) 8) else pending_byte s in
    bl808_cks_add_word acc word
  else acc.

Definition bl808_cks_reset_state (s : BL808CKSState) : BL808CKSState :=
  s <| config := 0 |> <| checksum := 0xffff |> <| pending_byte := 0 |> <| pending_valid := false |>.

Definition bl808_cks_reset (s : BL808CKSState) : BL808CKSState := bl808_cks_reset_state s.

Definition bl808_cks_set_clock_enabled (s : BL808CKSState) (enabled : bool) : BL808CKSState :=
  s <| clock_enabled := enabled |>.

Definition bl808_cks_set_reset_asserted `{!ColdReset bl808_cks_reset}
    (s : BL808CKSState) (asserted : bool) : BL808CKSState :=
  let s := s <| reset_asserted := asserted |> in
  if asserted then device_cold_reset s else s.

Definition bl808_cks_read (s : BL808CKSState) (offset size : Z) : Z :=
  if offset =? CKS_CONFIG then config s
  else if offset =? CKS_DATA_IN then 0
  else if offset =? CKS_OUT then bl808_cks_current_output s
  else 0.

Definition bl808_cks_write (s : BL808CKSState) (offset value size : Z) : BL808CKSState :=
  let val := u32 value in
  if offset =? CKS_CONFIG then
    let s := s <| config := Z.land val CKS_CR_CKS_BYTE_SWAP |> in
    if tst val CKS_CR_CKS_CLR then
      s <| checksum := 0xffff |> <| pending_valid := false |> <| pending_byte := 0 |>
    else s
  else if offset =? CKS_DATA_IN then
    let byte := u8 (Z.land val 0xff) in
    if negb (pending_valid s) then
      s <| pending_byte := byte |> <| pending_valid := true |>
    else
      let s :=
        if tst (config s) CKS_CR_CKS_BYTE_SWAP then
          s <| checksum := bl808_cks_add_word (checksum s)
                             (u16 (Z.lor (Z.shiftl (pending_byte s) 8) byte)) |>
        else
          s <| checksum := bl808_cks_add_word (checksum s)
                             (u16 (Z.lor (Z.shiftl byte 8) (pending_byte s))) |> in
      s <| pending_valid := false |> <| pending_byte := 0 |>
  else s.

(** A guest feeding a buffer to the engine. *)
Definition cks_feed (s : BL808CKSState) (bs : list Z) : BL808CKSState :=
  foldl (λ s b, bl808_cks_write s CKS_DATA_IN b 4) s bs.

(** ** Reference definition *)

(** The 16-bit word of two consecutive bytes of the stream. *)
Definition cks_word (swap : bool) (b0 b1 : Z) : Z :=
  if swap then b0 * 256 + b1 else b1 * 256 + b0.

Fixpoint word_sum (swap : bool) (bs : list Z) : Z :=
  match bs with
  | b0 :: b1 :: bs => cks_word swap b0 b1 + word_sum swap bs
  | [b0] => cks_word swap b0 0
  | [] => 0
  end.

(** The representative of [x] modulo 65535 in [1 .. 65535]. *)
Definition ones_canon (x : Z) : Z := (x - 1) mod 65535 + 1.

Definition swap16 (x : Z) : Z := x mod 256 * 256 + x / 256.

(** ** Arithmetic of the adder *)

Lemma ones_canon_range x : 1 ≤ ones_canon x ≤ 65535.
Proof. unfold ones_canon. pose proof (Z.mod_pos_bound (x - 1) 65535). lia. Qed.

Lemma ones_canon_id x : 1 ≤ x ≤ 65535 → ones_canon x = x.
Proof. intros. unfold ones_canon. rewrite Z.mod_small; lia. Qed.

Lemma ones_canon_eq x y k : x = y + k * 65535 → ones_canon x = ones_canon y.
Proof.
  intros ->. unfold ones_canon. f_equal.
  replace (y + k * 65535 - 1) with (y - 1 + k * 65535) by lia. apply Z_mod_plus_full.
Qed.

Lemma ones_canon_add x y : ones_canon (ones_canon x + y) = ones_canon (x + y).
Proof.
  apply (ones_canon_eq _ _ (- ((x - 1) / 65535))). unfold ones_canon.
  pose proof (Z.div_mod (x - 1) 65535). lia.
Qed.

Lemma add_word_canon acc word :
  1 ≤ acc ≤ 0xffff → 0 ≤ word ≤ 0xffff →
  bl808_cks_add_word acc word = ones_canon (acc + word).
Proof.
  intros Ha Hw. unfold bl808_cks_add_word, wrap.
  rewrite (Z.mod_small (acc + word)) by lia.
  change 0xffff with (Z.ones 16). rewrite !Z.land_ones, !Z.shiftr_div_pow2 by lia.
  change (2 ^ 16) with 65536. set (t := acc + word).
  assert (t / 65536 = 0 ∨ t / 65536 = 1) as Hq
    by (pose proof (Z.div_mod t 65536); pose proof (Z.mod_pos_bound t 65536); lia).
  pose proof (Z.div_mod t 65536 ltac:(lia)). pose proof (Z.mod_pos_bound t 65536 ltac:(lia)).
  assert (0 ≤ t mod 65536 + t / 65536 < 65536) by lia.
  rewrite (Z.mod_small (t mod 65536 + t / 65536) (2 ^ 32)) by lia.
  rewrite (Z.mod_small (t mod 65536 + t / 65536) 65536) by lia.
  rewrite (Z.div_small (t mod 65536 + t / 65536)) by lia.
  rewrite Z.add_0_r, (Z.mod_small _ (2 ^ 32)), Z.mod_small by lia.
  destruct Hq as [Hq|Hq].
  - rewrite ones_canon_id; lia.
  - rewrite (ones_canon_eq t (t - 65535) 1) by lia. rewrite ones_canon_id; lia.
Qed.

(** ** The stream *)

Section feed.
Variable swap : bool.

(** A state between two words, with the byte order [swap]. *)
Definition cks_even (s : BL808CKSState) : Prop :=
  tst (config s) CKS_CR_CKS_BYTE_SWAP = swap ∧ pending_valid s = false ∧
  1 ≤ checksum s ≤ 0xffff.

Lemma cks_word_range b0 b1 : uint 8 b0 → uint 8 b1 → 0 ≤ cks_word swap b0 b1 ≤ 0xffff.
Proof. unfold uint, cks_word. destruct swap; lia. Qed.

Lemma byte_of_u32 b : uint 8 b → u8 (Z.land (u32 b) 0xff) = b.
Proof.
  intros Hb. rewrite (wrap_small 32 b) by (eapply uint_weaken; [done|lia]).
  change 0xff with (Z.ones 8). rewrite <- wrap_land by lia.
  rewrite (wrap_small 8 b) by done. by apply wrap_small.
Qed.

Lemma feed_first s b :
  uint 8 b → cks_even s →
  bl808_cks_write s CKS_DATA_IN b 4 = s <| pending_byte := b |> <| pending_valid := true |>.
Proof.
  intros Hb (_ & Hv & _). unfold bl808_cks_write. simpl (_ =? _). rewrite Hv, byte_of_u32; done.
Qed.

Lemma feed_second s b0 b1 :
  uint 8 b0 → uint 8 b1 → cks_even s →
  bl808_cks_write (s <| pending_byte := b0 |> <| pending_valid := true |>) CKS_DATA_IN b1 4 =
  s <| checksum := ones_canon (checksum s + cks_word swap b0 b1) |>
    <| pending_valid := false |> <| pending_byte := 0 |>.
Proof.
  intros H0 H1 (Hs & Hv & Hc). unfold bl808_cks_write. simpl (_ =? _).
  rewrite byte_of_u32 by done. cbn [negb pending_valid config checksum pending_byte].
  simpl. rewrite Hs. pose proof (cks_word_range b0 b1 H0 H1) as Hr.
  unfold cks_word in *. destruct swap; simpl;
    rewrite lor_shiftl_add by (done || lia); change (2 ^ 8) with 256;
    rewrite (wrap_small 16), add_word_canon by (unfold uint; lia); done.
Qed.

Lemma output_first s b :
  uint 8 b → cks_even s →
  bl808_cks_current_output (s <| pending_byte := b |> <| pending_valid := true |>) =
  ones_canon (checksum s + cks_word swap b 0).
Proof.
  intros Hb (Hs & Hv & Hc). unfold bl808_cks_current_output. simpl. rewrite Hs.
  pose proof (cks_word_range b 0 Hb ltac:(done)) as Hr. unfold cks_word in *.
  destruct swap.
  - rewrite Z.shiftl_mul_pow2, wrap_small by (unfold uint in *; lia).
    rewrite add_word_canon by lia. f_equal; lia.
  - rewrite add_word_canon by (unfold uint in *; lia). f_equal; lia.
Qed.

Lemma feed_output bs s :
  Forall (uint 8) bs → cks_even s →
  bl808_cks_current_output (cks_feed s bs) = ones_canon (checksum s + word_sum swap bs).
Proof.
  revert s. induction bs as [|b|b0 b1 bs IH] using list_pair_ind; intros s Hbs He.
  - destruct He as (_ & Hv & Hc). unfold cks_feed, bl808_cks_current_output. simpl.
    rewrite Hv, Z.add_0_r. by rewrite ones_canon_id.
  - apply Forall_cons in Hbs as [Hb _]. unfold cks_feed. simpl foldl.
    rewrite feed_first by done. by apply output_first.
  - rewrite !Forall_cons in Hbs. destruct Hbs as (H0 & H1 & Hbs).
    unfold cks_feed. simpl foldl. rewrite (feed_first s b0), (feed_second s b0 b1) by done.
    fold (cks_feed (s <| checksum := ones_canon (checksum s + cks_word swap b0 b1) |>
      <| pending_valid := false |> <| pending_byte := 0 |>) bs).
    rewrite IH; [|done|].
    + simpl. rewrite ones_canon_add. f_equal. lia.
    + destruct He as (Hs & _ & _). split_and!; try done; simpl; apply ones_canon_range.
Qed.
End feed.

Lemma cks_cleared s v :
  tst (u32 v) CKS_CR_CKS_CLR = true →
  cks_even (Z.testbit (u32 v) 1) (bl808_cks_write s CKS_CONFIG v 4) ∧
  checksum (bl808_cks_write s CKS_CONFIG v 4) = 0xffff.
Proof.
  intros Hc. unfold bl808_cks_write. simpl (_ =? _). cbn [Z.eqb]. rewrite Hc.
  split; [|done]. split; [|done]. simpl.
  unfold CKS_CR_CKS_BYTE_SWAP. autorewrite with bits. by rewrite !andb_true_r.
Qed.

(** ** Properties *)

(** The checksum the guest reads.  After a write of CONFIG with the clear
    bit set, feeding any byte string to DATA_IN makes OUT read as the one's
    complement sum of its 16-bit words (an odd last byte padded with zero), in
    the byte order selected by CONFIG, with representative in 1..0xffff. *)
Theorem cks_out_is_ones_sum s v bs :
  tst (u32 v) CKS_CR_CKS_CLR = true → Forall (uint 8) bs →
  bl808_cks_read (cks_feed (bl808_cks_write s CKS_CONFIG v 4) bs) CKS_OUT 4 =
  ones_canon (word_sum (Z.testbit (u32 v) 1) bs).
Proof.
  intros Hc Hbs. destruct (cks_cleared s v Hc) as [He Hsum].
  change (bl808_cks_read ?s CKS_OUT 4) with (bl808_cks_current_output s).
  rewrite (feed_output _ bs _ Hbs He), Hsum. apply (ones_canon_eq _ _ 1). lia.
Qed.

Definition cks_any : BL808CKSState := mk_cks 2 17 5 true true false.

(** The example of RFC 1071, section 3. *)
Lemma cks_out_is_ones_sum_witness :
  bl808_cks_read (cks_feed (bl808_cks_write cks_any CKS_CONFIG 3 4)
    [0x00; 0x01; 0xf2; 0x03; 0xf4; 0xf5; 0xf6; 0xf7]) CKS_OUT 4 = 0xddf2.
Proof.
  rewrite (cks_out_is_ones_sum cks_any 3 [0x00; 0x01; 0xf2; 0x03; 0xf4; 0xf5; 0xf6; 0xf7]).
  - reflexivity.
  - reflexivity.
  - repeat constructor; vm_compute; congruence.
Defined.

Lemma swap16_canon x : 1 ≤ x ≤ 65535 → swap16 x = ones_canon (x * 256).
Proof.
  intros Hx. unfold swap16.
  pose proof (Z.div_mod x 256 ltac:(lia)). pose proof (Z.mod_pos_bound x 256 ltac:(lia)).
  assert (0 ≤ x / 256 < 256) by (split; [apply Z.div_pos|apply Z.div_lt_upper_bound]; lia).
  rewrite (ones_canon_eq (x * 256) (x mod 256 * 256 + x / 256) (x / 256)) by lia.
  rewrite ones_canon_id; [done|]. nia.
Qed.

Lemma word_sum_swap bs : ∃ k, word_sum true bs = word_sum false bs * 256 + k * 65535.
Proof.
  induction bs as [|b|b0 b1 bs [k IH]] using list_pair_ind; simpl; unfold cks_word.
  - by exists 0.
  - exists 0. lia.
  - exists (k - b1). lia.
Qed.

(** Byte order independence.  The sum computed with the byte-swap option
    is the byte-swapped sum computed without it. *)
Theorem cks_byte_swap s s' v v' bs :
  tst (u32 v) CKS_CR_CKS_CLR = true → Z.testbit (u32 v) 1 = true →
  tst (u32 v') CKS_CR_CKS_CLR = true → Z.testbit (u32 v') 1 = false →
  Forall (uint 8) bs →
  bl808_cks_current_output (cks_feed (bl808_cks_write s CKS_CONFIG v 4) bs) =
  swap16 (bl808_cks_current_output (cks_feed (bl808_cks_write s' CKS_CONFIG v' 4) bs)).
Proof.
  intros Hc Hs Hc' Hs' Hbs.
  destruct (cks_cleared s v Hc) as [He Hsum]. destruct (cks_cleared s' v' Hc') as [He' Hsum'].
  rewrite (feed_output _ bs _ Hbs He), (feed_output _ bs _ Hbs He'), Hsum, Hsum', Hs, Hs'.
  rewrite swap16_canon by apply ones_canon_range.
  destruct (word_sum_swap bs) as [k Hk].
  set (a := word_sum false bs) in *.
  replace (ones_canon (65535 + a) * 256) with
    ((a * 256 + k * 65535 + 65535) +
     (256 - k - 1 - 256 * ((65535 + a - 1) / 65535)) * 65535).
  - rewrite (ones_canon_eq (_ + (_ * 65535)) (a * 256 + k * 65535 + 65535) _ eq_refl).
    rewrite Hk. f_equal. lia.
  - unfold ones_canon. pose proof (Z.div_mod (65535 + a - 1) 65535 ltac:(lia)). lia.
Qed.

Lemma cks_byte_swap_witness :
  bl808_cks_current_output (cks_feed (bl808_cks_write cks_any CKS_CONFIG 3 4) [0x12; 0x34; 0x56]) =
  swap16 (bl808_cks_current_output
    (cks_feed (bl808_cks_write cks_any CKS_CONFIG 1 4) [0x12; 0x34; 0x56])).
Proof.
  apply (cks_byte_swap cks_any cks_any 3 1 [0x12; 0x34; 0x56]);
    [reflexivity..|repeat constructor; vm_compute; congruence].
Defined.

End BL808CKS.
