(* ===== verification/Fifo.v ===== *)
(** * Ring buffers

    The device models keep their FIFOs in arrays with a head, a tail and a
    count.  [ring d buf head tail count q] says that such a buffer of depth [d]
    holds the queue [q], oldest first; the lemmas are the effect of the push and
    pop idioms of the source on it. *)

From S2P Require Import Prelude.
From stdpp Require Import prelude list.
From Stdlib Require Import ZArith Lia.
Local Open Scope Z_scope.

Record ring (d : Z) (buf : list Z) (head tail count : Z) (q : list Z) : Prop := {
  rg_depth : Z.of_nat (length buf) = d;
  rg_pos : 0 < d;
  rg_head : 0 ≤ head < d;
  rg_tail : tail = (head + count) mod d;
  rg_count : count = Z.of_nat (length q);
  rg_bound : count ≤ d;
  rg_data i : (i < length q)%nat → buf !! Z.to_nat ((head + Z.of_nat i) mod d) = q !! i;
}.

Lemma ring_empty d buf : Z.of_nat (length buf) = d → 0 < d → ring d buf 0 0 0 [].
Proof. intros. split; simpl; try done; lia || (intros; lia). Qed.

(** Offsets below the depth reach different slots. *)
Lemma slot_inj h i j d : 0 < d → 0 ≤ i < d → 0 ≤ j < d → (h + i) mod d = (h + j) mod d → i = j.
Proof.
  intros Hd Hi Hj He. pose proof (Z.div_mod (h + i) d ltac:(lia)) as H1.
  pose proof (Z.div_mod (h + j) d ltac:(lia)) as H2. rewrite He in H1.
  assert (i - j = d * ((h + i) / d - (h + j) / d)) as H3 by lia.
  destruct (Z.lt_trichotomy ((h + i) / d) ((h + j) / d)) as [?|[?|?]]; nia.
Qed.

Lemma ring_push d buf head tail count q v :
  ring d buf head tail count q → count < d →
  ring d (<[Z.to_nat tail := v]> buf) head ((tail + 1) mod d) (count + 1) (q ++ [v]).
Proof.
  intros [Hd Hp Hh Ht Hc Hb Hdata] Hlt. assert (0 ≤ tail < d) as Htr by (subst tail; by apply Z.mod_pos_bound).
  split; try done; rewrite ?length_insert, ?length_app; try (simpl; lia).
  - subst tail. rewrite Zplus_mod_idemp_l. f_equal. lia.
  - intros i Hi. simpl in Hi. destruct (decide (i < length q)%nat) as [Hi'|].
    + rewrite lookup_app_l by done. rewrite list_lookup_insert_ne; [by apply Hdata|].
      intros He. assert (tail = (head + Z.of_nat i) mod d) as He2.
      { pose proof (Z.mod_pos_bound (head + Z.of_nat i) d Hp). lia. }
      subst tail. apply slot_inj in He2; lia.
    + assert (i = length q) as -> by lia. rewrite lookup_app_r, Nat.sub_diag by lia. simpl.
      rewrite <- Hc, <- Ht. apply list_lookup_insert_eq. lia.
Qed.

Lemma ring_pop d buf head tail count x q :
  ring d buf head tail count (x :: q) →
  buf !!! Z.to_nat head = x ∧ ring d buf ((head + 1) mod d) tail (count - 1) q.
Proof.
  intros [Hd Hp Hh Ht Hc Hb Hdata]. simpl in Hc. split.
  - specialize (Hdata 0%nat ltac:(simpl; lia)). rewrite Z.add_0_r, Z.mod_small in Hdata by done.
    by apply list_lookup_total_correct.
  - split; try done; try lia.
    + by apply Z.mod_pos_bound.
    + subst tail. rewrite Zplus_mod_idemp_l. f_equal. lia.
    + intros i Hi. rewrite Zplus_mod_idemp_l. specialize (Hdata (S i) ltac:(simpl; lia)). simpl in Hdata.
      rewrite <- Hdata. do 2 f_equal. f_equal. lia.
Qed.

Lemma ring_length d buf head tail count q :
  ring d buf head tail count q → count = Z.of_nat (length q) ∧ (length q ≤ Z.to_nat d)%nat ∧ 0 ≤ count ≤ d.
Proof. intros []. lia. Qed.

Lemma ring_nil d buf head tail count q : ring d buf head tail count q → count = 0 ↔ q = [].
Proof. intros []. subst count. split; [|by intros ->]. intros H. apply nil_length_inv. lia. Qed.
