(* ===== verification/Tlsf.v ===== *)
(** * The kernel heap: TLSF allocator ([src/bl808/kernel/tlsf.c]), definitions

    Memory is a flat store of bytes; block headers live in it at their
    addresses, field by field, and the control structure [tlsf_pool] is a
    record.  The word size is a parameter of the model ([Arch]): the file is
    compiled for the RV32 cores (4-byte [size_t] and pointers) and for the RV64
    core (8-byte). *)

From S2P Require Import Prelude Libc.
From stdpp Require Import prelude gmap.
From Stdlib Require Import ZArith Lia.
Local Open Scope Z_scope.

Class Arch := { W : Z; W_cases : W = 4 ∨ W = 8 }.

Definition rv32 : Arch := {| W := 4; W_cases := or_introl eq_refl |}.
Definition rv64 : Arch := {| W := 8; W_cases := or_intror eq_refl |}.

(** ** Words in memory *)

(** Little-endian load and store of [n] bytes. *)
Fixpoint ld (m : gmap Z Z) (a : Z) (n : nat) : Z :=
  match n with
  | O => 0
  | S n => ld_byte m a + 256 * ld m (a + 1) n
  end.

Fixpoint st (m : gmap Z Z) (a : Z) (n : nat) (v : Z) : gmap Z Z :=
  match n with
  | O => m
  | S n => st (st_byte m a v) (a + 1) n (v / 256)
  end.

Module TLSF.

Definition FL_INDEX_MAX := 20.
Definition SL_INDEX_LOG2 := 4.
Definition SL_INDEX_COUNT := 16.
Definition BLOCK_SIZE_MIN := 32.
Definition BLOCK_ALIGN := 8.
Definition BLOCK_MAGIC_USED := 0xC0FFEE01.
Definition BLOCK_MAGIC_FREE := 0xFEEEFEED.
Definition BLOCK_TAIL_CANARY := 0xBAADF00D.
Definition BLOCK_CANARY_SIZE := 4.
Definition BLOCK_FREE_BIT := 1.
Definition BLOCK_PREV_FREE_BIT := 2.
Definition BLOCK_FLAG_BITS := 3.

(** The [__builtin_clz] and [__builtin_ctz] of a nonzero 32-bit value. *)
Definition builtin_clz (x : Z) : Z := 31 - Z.log2 x.

Fixpoint pos_ctz (p : positive) : Z :=
  match p with xO p => 1 + pos_ctz p | _ => 0 end.
Definition builtin_ctz (x : Z) : Z := match x with Zpos p => pos_ctz p | _ => 0 end.

Definition tlsf_fls (x : Z) : Z := if x =? 0 then -1 else 31 - builtin_clz x.
Definition tlsf_ffs (x : Z) : Z := if x =? 0 then -1 else builtin_ctz x.

(** The control structure, with the memory it manages. *)
Record tlsf_t := mk_tlsf {
  fl_bitmap : Z;                 (* uint32_t *)
  sl_bitmap : list Z;            (* uint32_t[FL_INDEX_MAX] *)
  blocks : list (list Z);        (* block_header_t *[FL_INDEX_MAX][SL_INDEX_COUNT] *)
  pool_start : Z;
  pool_end : Z;
  used_bytes : Z;
  total_bytes : Z;
  alloc_count : Z;
  free_count : Z;
  high_water_bytes : Z;
  min_free_bytes : Z;
  alloc_fail_count : Z;
  invalid_free_count : Z;
  canary_fail_count : Z;
  mem : gmap Z Z;                (* the bytes of the machine *)
}.

#[export] Instance eta_tlsf : Eta tlsf_t := λ r,
  mk_tlsf (fl_bitmap r) (sl_bitmap r) (blocks r) (pool_start r) (pool_end r) (used_bytes r)
    (total_bytes r) (alloc_count r) (free_count r) (high_water_bytes r) (min_free_bytes r)
    (alloc_fail_count r) (invalid_free_count r) (canary_fail_count r) (mem r).

(** [sl_bitmap[fl]] and [blocks[fl][sl]]. *)
Definition sl_map (s : tlsf_t) (fl : Z) : Z := sl_bitmap s !!! Z.to_nat fl.
Definition set_sl_map (s : tlsf_t) (fl v : Z) : tlsf_t :=
  s <| sl_bitmap := <[Z.to_nat fl := v]> (sl_bitmap s) |>.
Definition head_of (s : tlsf_t) (fl sl : Z) : Z :=
  (blocks s !!! Z.to_nat fl) !!! Z.to_nat sl.
Definition set_head (s : tlsf_t) (fl sl v : Z) : tlsf_t :=
  s <| blocks := <[Z.to_nat fl := <[Z.to_nat sl := v]> (blocks s !!! Z.to_nat fl)]> (blocks s) |>.

Section arch.
Context {ar : Arch}.

(** [size_t], [uintptr_t] and pointer arithmetic. *)
Abbreviation uW := (wrap (8 * W)).
Definition SIZE_MAX := 2 ^ (8 * W) - 1.

Definition ALIGN_UP (x a : Z) : Z := Z.land (uW (x + (a - 1))) (uW (Z.lnot (a - 1))).

(** [struct block_header]: five words and a 32-bit magic, padded to a word. *)
Definition sizeof_block_header := 6 * W.
Definition BLOCK_OVERHEAD := ALIGN_UP sizeof_block_header BLOCK_ALIGN.

(** The fields of [struct block_header], with their offset and width. *)
Inductive field := f_size | f_prev_phys | f_next_free | f_prev_free | f_requested | f_magic.

Definition field_offset (f : field) : Z :=
  match f with
  | f_size => 0 | f_prev_phys => W | f_next_free => 2 * W | f_prev_free => 3 * W
  | f_requested => 4 * W | f_magic => 5 * W
  end.
Definition field_width (f : field) : Z := match f with f_magic => 4 | _ => W end.

(** [b->f] and [b->f = v]. *)
Definition rd (s : tlsf_t) (b : Z) (f : field) : Z :=
  ld (mem s) (b + field_offset f) (Z.to_nat (field_width f)).
Definition wr (s : tlsf_t) (b : Z) (f : field) (v : Z) : tlsf_t :=
  s <| mem := st (mem s) (b + field_offset f) (Z.to_nat (field_width f)) v |>.

(** ** Header accessors *)

Definition block_size (s : tlsf_t) (b : Z) : Z := Z.land (rd s b f_size) (uW (Z.lnot BLOCK_FLAG_BITS)).
Definition block_is_free (s : tlsf_t) (b : Z) : bool := tst (rd s b f_size) BLOCK_FREE_BIT.
Definition block_prev_is_free (s : tlsf_t) (b : Z) : bool := tst (rd s b f_size) BLOCK_PREV_FREE_BIT.

Definition block_set_size (s : tlsf_t) (b sz : Z) : tlsf_t :=
  wr s b f_size (Z.lor sz (Z.land (rd s b f_size) BLOCK_FLAG_BITS)).
Definition block_set_free (s : tlsf_t) (b : Z) : tlsf_t :=
  wr s b f_size (Z.lor (rd s b f_size) BLOCK_FREE_BIT).
Definition block_set_used (s : tlsf_t) (b : Z) : tlsf_t :=
  wr s b f_size (Z.land (rd s b f_size) (uW (Z.lnot BLOCK_FREE_BIT))).
Definition block_set_prev_free (s : tlsf_t) (b : Z) : tlsf_t :=
  wr s b f_size (Z.lor (rd s b f_size) BLOCK_PREV_FREE_BIT).
Definition block_set_prev_used (s : tlsf_t) (b : Z) : tlsf_t :=
  wr s b f_size (Z.land (rd s b f_size) (uW (Z.lnot BLOCK_PREV_FREE_BIT))).

Definition block_next (s : tlsf_t) (b : Z) : Z := uW (b + BLOCK_OVERHEAD + block_size s b).
Definition block_to_ptr (b : Z) : Z := uW (b + BLOCK_OVERHEAD).
Definition ptr_to_block (p : Z) : Z := uW (p - BLOCK_OVERHEAD).

Definition ptr_in_pool (s : tlsf_t) (p : Z) : bool := (pool_start s <=? p) && (p <? pool_end s).
Definition accounted_block_size (s : tlsf_t) (b : Z) : Z := uW (block_size s b + BLOCK_OVERHEAD).

Definition update_watermarks (s : tlsf_t) : tlsf_t :=
  let s := if high_water_bytes s <? used_bytes s
           then s <| high_water_bytes := used_bytes s |> else s in
  let free_bytes := if used_bytes s <=? total_bytes s
                    then uW (total_bytes s - used_bytes s) else 0 in
  if free_bytes <? min_free_bytes s then s <| min_free_bytes := free_bytes |> else s.

(** [None] is the return value 0, [Some internal] the return value 1 with
    [*out = internal]. *)
Definition size_with_canary (requested : Z) : option Z :=
  if SIZE_MAX - BLOCK_CANARY_SIZE <? requested then None else
  let internal := uW (requested + BLOCK_CANARY_SIZE) in
  let internal := ALIGN_UP internal BLOCK_ALIGN in
  Some (if internal <? BLOCK_SIZE_MIN then BLOCK_SIZE_MIN else internal).

Definition write_tail_canary (s : tlsf_t) (b : Z) : tlsf_t :=
  if block_size s b <? uW (rd s b f_requested + BLOCK_CANARY_SIZE) then s else
  let p := uW (block_to_ptr b + rd s b f_requested) in
  let v := BLOCK_TAIL_CANARY in
  let m := st_byte (mem s) p (Z.land v 0xff) in
  let m := st_byte m (uW (p + 1)) (Z.land (Z.shiftr v 8) 0xff) in
  let m := st_byte m (uW (p + 2)) (Z.land (Z.shiftr v 16) 0xff) in
  let m := st_byte m (uW (p + 3)) (Z.land (Z.shiftr v 24) 0xff) in
  s <| mem := m |>.

Definition tail_canary_ok (s : tlsf_t) (b : Z) : bool :=
  if block_size s b <? uW (rd s b f_requested + BLOCK_CANARY_SIZE) then false else
  let p := uW (block_to_ptr b + rd s b f_requested) in
  let v := Z.lor (Z.lor (Z.lor (ld_byte (mem s) p)
                 (Z.shiftl (ld_byte (mem s) (uW (p + 1))) 8))
                 (Z.shiftl (ld_byte (mem s) (uW (p + 2))) 16))
                 (u32 (Z.shiftl (ld_byte (mem s) (uW (p + 3))) 24)) in
  v =? BLOCK_TAIL_CANARY.

Definition block_header_valid (s : tlsf_t) (b : Z) : bool :=
  if negb (ptr_in_pool s b) then false else
  if negb (Z.land b (BLOCK_ALIGN - 1) =? 0) then false else
  let size := block_size s b in
  if size <? BLOCK_SIZE_MIN then false else
  if pool_end s <? uW (b + BLOCK_OVERHEAD + size) then false else
  if negb (rd s b f_magic =? BLOCK_MAGIC_USED) && negb (rd s b f_magic =? BLOCK_MAGIC_FREE)
  then false else true.

(** ** Size classes *)

Definition mapping_insert (size : Z) : Z * Z :=
  if size <? BLOCK_SIZE_MIN then (0, i32 (size / (BLOCK_SIZE_MIN / SL_INDEX_COUNT)))
  else
    let fl := tlsf_fls (u32 size) in
    (fl, i32 (Z.lxor (Z.shiftr size (fl - SL_INDEX_LOG2)) SL_INDEX_COUNT)).

Definition mapping_search (size : Z) : Z * Z :=
  let size :=
    if BLOCK_SIZE_MIN <=? size then
      let round := Z.shiftl 1 (tlsf_fls (u32 size) - SL_INDEX_LOG2) - 1 in
      uW (size + round)
    else size in
  mapping_insert size.

(** The clamping of [insert_free_block] and [remove_free_block]. *)
Definition clamp_index (i : Z * Z) : Z * Z :=
  (if FL_INDEX_MAX <=? i.1 then FL_INDEX_MAX - 1 else i.1,
   if SL_INDEX_COUNT <=? i.2 then SL_INDEX_COUNT - 1 else i.2).

(** ** Free lists *)

Definition insert_free_block (s : tlsf_t) (block : Z) : tlsf_t :=
  let '(fl, sl) := clamp_index (mapping_insert (block_size s block)) in
  let head := head_of s fl sl in
  let s := wr s block f_next_free head in
  let s := wr s block f_prev_free 0 in
  let s := if negb (head =? 0) then wr s head f_prev_free block else s in
  let s := set_head s fl sl block in
  let s := s <| fl_bitmap := Z.lor (fl_bitmap s) (u32 (Z.shiftl 1 fl)) |> in
  set_sl_map s fl (Z.lor (sl_map s fl) (u32 (Z.shiftl 1 sl))).

Definition remove_free_block (s : tlsf_t) (block : Z) : tlsf_t :=
  let '(fl, sl) := clamp_index (mapping_insert (block_size s block)) in
  let s := if negb (rd s block f_prev_free =? 0)
           then wr s (rd s block f_prev_free) f_next_free (rd s block f_next_free)
           else set_head s fl sl (rd s block f_next_free) in
  let s := if negb (rd s block f_next_free =? 0)
           then wr s (rd s block f_next_free) f_prev_free (rd s block f_prev_free) else s in
  if head_of s fl sl =? 0 then
    let s := set_sl_map s fl (Z.land (sl_map s fl) (not32 (u32 (Z.shiftl 1 sl)))) in
    if sl_map s fl =? 0
    then s <| fl_bitmap := Z.land (fl_bitmap s) (not32 (u32 (Z.shiftl 1 fl))) |> else s
  else s.

(** ** Splitting and merging *)

Definition split_block (s : tlsf_t) (block size : Z) : option Z * tlsf_t :=
  let current := block_size s block in
  if current <? uW (size + BLOCK_OVERHEAD + BLOCK_SIZE_MIN) then (None, s) else
  let remain := uW (current - size - BLOCK_OVERHEAD) in
  if remain <? BLOCK_SIZE_MIN then (None, s) else
  let rest := uW (block + BLOCK_OVERHEAD + size) in
  let s := wr s rest f_size 0 in
  let s := block_set_size s rest remain in
  let s := block_set_free s rest in
  let s := block_set_prev_used s rest in
  let s := wr s rest f_prev_phys block in
  let s := wr s rest f_requested 0 in
  let s := wr s rest f_magic BLOCK_MAGIC_FREE in
  let s := block_set_size s block size in
  let next := block_next s rest in
  let s := if next <? pool_end s
           then block_set_prev_free (wr s next f_prev_phys rest) next else s in
  (Some rest, s).

Definition merge_prev (s : tlsf_t) (block : Z) : Z * tlsf_t :=
  if block_prev_is_free s block then
    let prev := rd s block f_prev_phys in
    let s := remove_free_block s prev in
    let new_size := uW (block_size s prev + BLOCK_OVERHEAD + block_size s block) in
    let s := block_set_size s prev new_size in
    let next := block_next s prev in
    let s := if next <? pool_end s then wr s next f_prev_phys prev else s in
    (prev, s)
  else (block, s).

Definition merge_next (s : tlsf_t) (block : Z) : Z * tlsf_t :=
  let next := block_next s block in
  if (next <? pool_end s) && block_is_free s next then
    let s := remove_free_block s next in
    let new_size := uW (block_size s block + BLOCK_OVERHEAD + block_size s next) in
    let s := block_set_size s block new_size in
    let nn := block_next s block in
    let s := if nn <? pool_end s then wr s nn f_prev_phys block else s in
    (block, s)
  else (block, s).

Definition find_suitable_block (s : tlsf_t) (size : Z) : Z :=
  let '(fl, sl) := mapping_search size in
  if FL_INDEX_MAX <=? fl then 0 else
  let slm := Z.land (sl_map s fl) (u32 (Z.shiftl 0xFFFFFFFF sl)) in
  if slm =? 0 then
    let flm := Z.land (fl_bitmap s) (u32 (Z.shiftl 0xFFFFFFFF (fl + 1))) in
    if flm =? 0 then 0 else
    let fl := tlsf_ffs flm in
    let slm := sl_map s fl in
    head_of s fl (tlsf_ffs slm)
  else head_of s fl (tlsf_ffs slm).

(** ** Public API *)

Definition zero_pool (m : gmap Z Z) : tlsf_t :=
  mk_tlsf 0 (replicate 20 0) (replicate 20 (replicate 16 0)) 0 0 0 0 0 0 0 0 0 0 0 m.

Definition tlsf_init (s : tlsf_t) (heap_start heap_end : Z) : tlsf_t :=
  let start := Z.land (uW (heap_start + BLOCK_ALIGN - 1)) (uW (Z.lnot (BLOCK_ALIGN - 1))) in
  let end_ := Z.land heap_end (uW (Z.lnot (BLOCK_ALIGN - 1))) in
  let pool_size := uW (end_ - start) in
  let s := zero_pool (mem s) in
  let s := s <| pool_start := start |> <| pool_end := end_ |> <| total_bytes := pool_size |>
             <| min_free_bytes := pool_size |> in
  if pool_size <? BLOCK_SIZE_MIN + BLOCK_OVERHEAD * 2 then s else
  let block := start in
  let block_data_size := uW (pool_size - BLOCK_OVERHEAD) in
  let block_data_size := Z.land block_data_size (uW (Z.lnot (BLOCK_ALIGN - 1))) in
  let s := wr s block f_size 0 in
  let s := block_set_size s block block_data_size in
  let s := block_set_free s block in
  let s := block_set_prev_used s block in
  let s := wr s block f_prev_phys 0 in
  let s := wr s block f_requested 0 in
  let s := wr s block f_magic BLOCK_MAGIC_FREE in
  insert_free_block s block.

Definition count_alloc_fail (s : tlsf_t) : tlsf_t :=
  s <| alloc_fail_count := uW (alloc_fail_count s + 1) |>.

Definition tlsf_malloc (s : tlsf_t) (size : Z) : Z * tlsf_t :=
  if size =? 0 then (0, s) else
  let requested := size in
  match size_with_canary requested with
  | None => (0, count_alloc_fail s)
  | Some size =>
      let block := find_suitable_block s size in
      if block =? 0 then (0, count_alloc_fail s) else
      let s := remove_free_block s block in
      let '(remain, s) := split_block s block size in
      let s := match remain with Some r => insert_free_block s r | None => s end in
      let s := block_set_used s block in
      let s := wr s block f_requested requested in
      let s := wr s block f_magic BLOCK_MAGIC_USED in
      let s := write_tail_canary s block in
      let next := block_next s block in
      let s := if next <? pool_end s then block_set_prev_used s next else s in
      let s := s <| used_bytes := uW (used_bytes s + accounted_block_size s block) |> in
      let s := s <| alloc_count := uW (alloc_count s + 1) |> in
      let s := update_watermarks s in
      (block_to_ptr block, s)
  end.

(** The guard of [tlsf_free] and [tlsf_realloc] on the block of a pointer. *)
Definition live_block (s : tlsf_t) (block : Z) : bool :=
  block_header_valid s block && (rd s block f_magic =? BLOCK_MAGIC_USED) &&
  negb (block_is_free s block).

Definition tlsf_free (s : tlsf_t) (ptr : Z) : tlsf_t :=
  if ptr =? 0 then s else
  let block := ptr_to_block ptr in
  if negb (live_block s block) then
    s <| invalid_free_count := uW (invalid_free_count s + 1) |>
  else
  let s := if negb (tail_canary_ok s block)
           then s <| canary_fail_count := uW (canary_fail_count s + 1) |> else s in
  let s := s <| used_bytes := uW (used_bytes s - accounted_block_size s block) |> in
  let s := s <| free_count := uW (free_count s + 1) |> in
  let s := block_set_free s block in
  let s := wr s block f_requested 0 in
  let s := wr s block f_magic BLOCK_MAGIC_FREE in
  let '(block, s) := merge_prev s block in
  let '(block, s) := merge_next s block in
  let s := insert_free_block s block in
  let next := block_next s block in
  if next <? pool_end s
  then block_set_prev_free (wr s next f_prev_phys block) next else s.

(** The in-place branches of [tlsf_realloc]: shrinking, and growing into the
    next block. *)
Definition realloc_shrink (s : tlsf_t) (block requested new_size old_accounted : Z) : tlsf_t :=
  let '(remain, s) := split_block s block new_size in
  let s :=
    match remain with
    | Some r =>
        let s := block_set_free s r in
        let '(r, s) := merge_next s r in
        let s := insert_free_block s r in
        let nn := block_next s r in
        if nn <? pool_end s then block_set_prev_free (wr s nn f_prev_phys r) nn else s
    | None => s
    end in
  let s := wr s block f_requested requested in
  let s := wr s block f_magic BLOCK_MAGIC_USED in
  let s := write_tail_canary s block in
  let new_accounted := accounted_block_size s block in
  if new_accounted <=? old_accounted
  then s <| used_bytes := uW (used_bytes s - uW (old_accounted - new_accounted)) |> else s.

Definition realloc_grow (s : tlsf_t) (block next combined requested new_size old_accounted : Z) :
    tlsf_t :=
  let s := remove_free_block s next in
  let s := block_set_size s block combined in
  let '(remain, s) := split_block s block new_size in
  let s := match remain with Some r => insert_free_block s r | None => s end in
  let nn := block_next s block in
  let s := if nn <? pool_end s
           then block_set_prev_used (wr s nn f_prev_phys block) nn else s in
  let s := wr s block f_requested requested in
  let s := wr s block f_magic BLOCK_MAGIC_USED in
  let s := write_tail_canary s block in
  let new_accounted := accounted_block_size s block in
  let s := s <| used_bytes := uW (used_bytes s + uW (new_accounted - old_accounted)) |> in
  update_watermarks s.

Definition tlsf_realloc (s : tlsf_t) (ptr new_size : Z) : Z * tlsf_t :=
  if ptr =? 0 then tlsf_malloc s new_size else
  if new_size =? 0 then (0, tlsf_free s ptr) else
  let requested := new_size in
  match size_with_canary requested with
  | None => (0, count_alloc_fail s)
  | Some new_size =>
      let block := ptr_to_block ptr in
      if negb (live_block s block) then
        (0, s <| invalid_free_count := uW (invalid_free_count s + 1) |>)
      else if negb (tail_canary_ok s block) then
        (0, s <| canary_fail_count := uW (canary_fail_count s + 1) |>)
      else
      let cur_size := block_size s block in
      let old_accounted := accounted_block_size s block in
      let old_requested := rd s block f_requested in
      if new_size <=? cur_size then
        (ptr, realloc_shrink s block requested new_size old_accounted)
      else
      let next := block_next s block in
      let combined := uW (cur_size + BLOCK_OVERHEAD + block_size s next) in
      if (next <? pool_end s) && block_is_free s next && (new_size <=? combined) then
        (ptr, realloc_grow s block next combined requested new_size old_accounted)
      else
      let '(new_ptr, s) := tlsf_malloc s requested in
      if new_ptr =? 0 then (0, s) else
      let n := if old_requested <? requested then old_requested else requested in
      let s := s <| mem := memcpy (mem s) new_ptr ptr (Z.to_nat n) |> in
      (new_ptr, tlsf_free s ptr)
  end.

Definition tlsf_calloc (s : tlsf_t) (count size : Z) : Z * tlsf_t :=
  if negb (size =? 0) && (SIZE_MAX / size <? count) then (0, count_alloc_fail s) else
  let total := uW (count * size) in
  let '(ptr, s) := tlsf_malloc s total in
  if negb (ptr =? 0) then (ptr, s <| mem := memset (mem s) ptr 0 (Z.to_nat total) |>)
  else (ptr, s).

(** The walks over the pool: [None] when the fuel runs out. *)
Fixpoint largest_free_loop (fuel : nat) (s : tlsf_t) (p largest : Z) : option Z :=
  match fuel with
  | O => None
  | S fuel =>
      if uW (p + BLOCK_OVERHEAD) <=? pool_end s then
        if negb (block_header_valid s p) then Some largest else
        let largest := if block_is_free s p && (largest <? block_size s p)
                       then block_size s p else largest in
        largest_free_loop fuel s (uW (p + (BLOCK_OVERHEAD + block_size s p))) largest
      else Some largest
  end.

Fixpoint check_heap_loop (fuel : nat) (s : tlsf_t) (p accounted_used : Z) : option bool :=
  match fuel with
  | O => None
  | S fuel =>
      if p <? pool_end s then
        if pool_end s <? uW (p + BLOCK_OVERHEAD) then Some false else
        if negb (block_header_valid s p) then Some false else
        let step acc := check_heap_loop fuel s (uW (p + (BLOCK_OVERHEAD + block_size s p))) acc in
        if rd s p f_magic =? BLOCK_MAGIC_USED then
          if block_is_free s p || negb (tail_canary_ok s p) then Some false
          else step (uW (accounted_used + accounted_block_size s p))
        else if rd s p f_magic =? BLOCK_MAGIC_FREE then
          if negb (block_is_free s p) then Some false else step accounted_used
        else step accounted_used
      else if negb (p =? pool_end s) then Some false
      else Some (accounted_used =? used_bytes s)
  end.

(** Enough iterations for any well-formed pool: a step advances by at least
    the header and the smallest block. *)
Definition walk_fuel (s : tlsf_t) : nat := S (S (Z.to_nat ((pool_end s - pool_start s) / 8))).

Definition tlsf_get_largest_free (s : tlsf_t) : option Z :=
  largest_free_loop (walk_fuel s) s (pool_start s) 0.

Definition tlsf_check_heap (s : tlsf_t) : option bool :=
  if (pool_start s =? 0) || (pool_end s =? 0) then Some false
  else check_heap_loop (walk_fuel s) s (pool_start s) 0.

(** The statistics getters. *)
Definition tlsf_get_used (s : tlsf_t) : Z := used_bytes s.
Definition tlsf_get_total (s : tlsf_t) : Z := total_bytes s.
Definition tlsf_get_alloc_count (s : tlsf_t) : Z := alloc_count s.
Definition tlsf_get_free_count (s : tlsf_t) : Z := free_count s.
Definition tlsf_get_high_water (s : tlsf_t) : Z := high_water_bytes s.
Definition tlsf_get_min_free (s : tlsf_t) : Z := min_free_bytes s.
Definition tlsf_get_alloc_fail_count (s : tlsf_t) : Z := alloc_fail_count s.
Definition tlsf_get_invalid_free_count (s : tlsf_t) : Z := invalid_free_count s.
Definition tlsf_get_canary_fail_count (s : tlsf_t) : Z := canary_fail_count s.

(** The C library hooks. *)
Definition malloc (s : tlsf_t) (size : Z) : Z * tlsf_t := tlsf_malloc s size.
Definition free (s : tlsf_t) (ptr : Z) : tlsf_t := tlsf_free s ptr.
Definition realloc (s : tlsf_t) (ptr size : Z) : Z * tlsf_t := tlsf_realloc s ptr size.
Definition calloc (s : tlsf_t) (count size : Z) : Z * tlsf_t := tlsf_calloc s count size.
Definition _sbrk (incr : Z) : Z := SIZE_MAX.
End arch.
End TLSF.
