(* ===== verification/TlsfMem.v ===== *)
(** * Kernel heap: the byte store, header fields and the size word

    Load/store laws of the flat memory, the read-over-write laws of header
    fields (same header, or disjoint headers), and the algebra of the size
    word with its two flag bits. *)

From S2P Require Import Prelude Libc LibcSpec Tlsf.
From stdpp Require Import prelude gmap.
From Stdlib Require Import ZArith Lia.
Local Open Scope Z_scope.
Import TLSF.

(** ** Byte store *)

Lemma ld_byte_st_other m a n v b :
  b < a ∨ a + Z.of_nat n ≤ b → ld_byte (st m a n v) b = ld_byte m b.
Proof.
  revert m a v. induction n as [|n IH]; intros m a v H; simpl; [done|].
  rewrite IH by lia. rewrite ld_byte_st_byte. case_decide; [lia|done].
Qed.

Lemma ld_ext m m' a n :
  (∀ x, a ≤ x < a + Z.of_nat n → ld_byte m' x = ld_byte m x) → ld m' a n = ld m a n.
Proof.
  revert a. induction n as [|n IH]; intros a H; simpl; [done|].
  rewrite (H a) by lia. rewrite IH; [done|]. intros x ?. apply H. lia.
Qed.

Lemma ld_st_other m a n v b k :
  b + Z.of_nat k ≤ a ∨ a + Z.of_nat n ≤ b → ld (st m a n v) b k = ld m b k.
Proof. intros H. apply ld_ext. intros x ?. apply ld_byte_st_other. lia. Qed.

Lemma ld_st_mod m a n v : ld (st m a n v) a n = v mod 256 ^ Z.of_nat n.
Proof.
  revert m a v. induction n as [|n IH]; intros m a v; simpl ld; simpl st.
  - by rewrite Z.mod_1_r.
  - rewrite ld_byte_st_other, IH by lia. rewrite ld_byte_st_byte, decide_True by done.
    rewrite Nat2Z.inj_succ, Z.pow_succ_r by lia. unfold wrap. change (2 ^ 8) with 256.
    rewrite Z.rem_mul_r; lia.
Qed.

Lemma ld_range m a n : uint (8 * Z.of_nat n) (ld m a n).
Proof.
  revert a. induction n as [|n IH]; intros a; simpl ld.
  - split; simpl; lia.
  - pose proof (ld_byte_range m a) as [? Hb]. destruct (IH (a + 1)) as [? Hr].
    change (2 ^ 8) with 256 in Hb. unfold uint. rewrite Nat2Z.inj_succ.
    replace (8 * Z.succ (Z.of_nat n)) with (8 + 8 * Z.of_nat n) by lia.
    rewrite Z.pow_add_r by lia. change (2 ^ 8) with 256. nia.
Qed.

(** ** Header fields *)

#[export] Instance field_eq_dec : EqDecision field.
Proof. solve_decision. Defined.

Section arch.
Context {ar : Arch}.

Lemma W_pos : W = 4 ∨ W = 8.
Proof. apply W_cases. Qed.

Lemma OVERHEAD_eq : BLOCK_OVERHEAD = 6 * W.
Proof.
  unfold BLOCK_OVERHEAD, ALIGN_UP, sizeof_block_header. destruct W_pos as [-> | ->]; reflexivity.
Qed.

(** Two headers that do not overlap. *)
Definition sep (b c : Z) : Prop := b + 6 * W ≤ c ∨ c + 6 * W ≤ b.

Lemma sep_sym b c : sep b c → sep c b.
Proof. unfold sep. lia. Qed.

Lemma rd_wr_eq s b f v : uint (8 * field_width f) v → rd (wr s b f v) b f = v.
Proof.
  intros Hv. unfold rd, wr. simpl. rewrite ld_st_mod.
  assert (0 ≤ field_width f) by (destruct f; simpl; destruct W_pos; lia).
  rewrite Z2Nat.id by done. change 256 with (2 ^ 8). rewrite <- Z.pow_mul_r by lia.
  by apply Z.mod_small.
Qed.

(** A write of a header field leaves every other field of that header, and
    every field of a disjoint header, as it was. *)
Lemma rd_wr_ne s b f v c g : (c = b ∧ f ≠ g) ∨ sep b c → rd (wr s b f v) c g = rd s c g.
Proof.
  intros H. unfold rd, wr. simpl. apply ld_st_other. unfold sep in H.
  destruct W_pos; destruct f, g; simpl; naive_solver lia.
Qed.

Lemma rd_range s b f : uint (8 * field_width f) (rd s b f).
Proof.
  unfold rd. assert (0 ≤ field_width f) by (destruct f; simpl; destruct W_pos; lia).
  rewrite <- (Z2Nat.id (field_width f)) at 1 by done. apply ld_range.
Qed.

(** ** The size word: a multiple of eight with two flags *)

Definition size_word (sz : Z) (fr pf : bool) : Z :=
  sz + (if fr then 1 else 0) + (if pf then 2 else 0).

Lemma flags_bits_cases k fr pf :
  0 ≤ k →
  let v := size_word (8 * k) fr pf in
  Z.land v (Z.lnot 3) = 8 * k ∧ Z.land v 1 = (if fr then 1 else 0) ∧
  Z.land v 2 = (if pf then 2 else 0) ∧ Z.land v 3 = size_word 0 fr pf ∧
  Z.lor v 1 = size_word (8 * k) true pf ∧ Z.land v (Z.lnot 1) = size_word (8 * k) false pf ∧
  Z.lor v 2 = size_word (8 * k) fr true ∧ Z.land v (Z.lnot 2) = size_word (8 * k) fr false ∧
  Z.lor (8 * k) (size_word 0 fr pf) = v.
Proof.
  intros Hk. destruct k as [|p|p]; [| |lia]; destruct fr, pf; repeat split; reflexivity.
Qed.

(** A size the pool can hold: a multiple of eight, below the address space
    with room for the flags. *)
Definition size_ok (sz : Z) : Prop := 0 ≤ sz < 2 ^ (8 * W) ∧ (8 | sz).

Lemma size_ok_cases sz : size_ok sz → ∃ k, sz = 8 * k ∧ 0 ≤ k.
Proof. intros [? [k ->]]. exists k. lia. Qed.

Lemma pow_W_8 : (8 | 2 ^ (8 * W)) ∧ 2 ^ 32 ≤ 2 ^ (8 * W) ∧ 0 ≤ 8 * W.
Proof.
  destruct W_pos as [-> | ->]; (split; [|split; vm_compute; congruence]);
    [exists (2 ^ 29)|exists (2 ^ 61)]; reflexivity.
Qed.

Lemma size_word_range sz fr pf : size_ok sz → uint (8 * W) (size_word sz fr pf).
Proof.
  intros [Hr [k ->]]. destruct pow_W_8 as [[j Hj] _]. unfold uint, size_word. rewrite Hj in *.
  destruct fr, pf; lia.
Qed.

Section word.
Variables (s : tlsf_t) (b sz : Z) (fr pf : bool).
Hypothesis Hsz : size_ok sz.
Hypothesis Hw : rd s b f_size = size_word sz fr pf.

#[local] Ltac word_tac :=
  let k := fresh "k" in let Hk := fresh in
  pose proof (size_word_range sz fr pf Hsz) as Hr;
  destruct (size_ok_cases sz Hsz) as (k & -> & Hk);
  destruct (flags_bits_cases k fr pf Hk) as (Ksz & Kf & Kp & K3 & Ksf & Ksu & Kspf & Kspu & Kor);
  unfold block_size, block_is_free, block_prev_is_free, block_set_free, block_set_used,
    block_set_prev_free, block_set_prev_used, tst, BLOCK_FLAG_BITS, BLOCK_FREE_BIT,
    BLOCK_PREV_FREE_BIT; rewrite ?Hw; destruct pow_W_8 as (_ & _ & ?);
  rewrite ?land_wrap_r by done.

Lemma block_size_word : block_size s b = sz.
Proof. word_tac. done. Qed.

Lemma block_is_free_word : block_is_free s b = fr.
Proof. word_tac. destruct fr; by rewrite Kf. Qed.

Lemma block_prev_is_free_word : block_prev_is_free s b = pf.
Proof. word_tac. destruct pf; by rewrite Kp. Qed.

Lemma set_free_word : block_set_free s b = wr s b f_size (size_word sz true pf).
Proof. word_tac. by rewrite Ksf. Qed.

Lemma set_used_word : block_set_used s b = wr s b f_size (size_word sz false pf).
Proof. word_tac. by rewrite Ksu. Qed.

Lemma set_prev_free_word : block_set_prev_free s b = wr s b f_size (size_word sz fr true).
Proof. word_tac. by rewrite Kspf. Qed.

Lemma set_prev_used_word : block_set_prev_used s b = wr s b f_size (size_word sz fr false).
Proof. word_tac. by rewrite Kspu. Qed.

Lemma set_size_word sz' :
  size_ok sz' → block_set_size s b sz' = wr s b f_size (size_word sz' fr pf).
Proof.
  intros Hsz'. word_tac. unfold block_set_size, BLOCK_FLAG_BITS. rewrite Hw, K3.
  destruct (size_ok_cases sz' Hsz') as (k' & -> & Hk').
  by destruct (flags_bits_cases k' fr pf Hk') as (_&_&_&_&_&_&_&_&->).
Qed.
End word.

Lemma put_zero_word s b : rd (wr s b f_size 0) b f_size = size_word 0 false false.
Proof.
  rewrite rd_wr_eq; [done|]. destruct pow_W_8 as (_ & ? & _). unfold uint. cbn [field_width]. lia.
Qed.

Lemma size_ok_0 : size_ok 0.
Proof. destruct pow_W_8 as (_&?&_). split; [lia|]. by exists 0. Qed.

End arch.

Create HintDb tlsf.
#[export] Hint Resolve size_ok_0 : tlsf.
