(* ===== verification/TlsfMapping.v ===== *)
(** * Kernel heap: size classes

    The arithmetic behind [mapping_insert], [mapping_search], [tlsf_fls] and
    [tlsf_ffs]: every size of the pool has a class, the class found by a search
    only holds blocks that are large enough, and a request is rounded up to at
    most the next class. *)

From S2P Require Import Prelude Libc LibcSpec Tlsf TlsfMem.
From stdpp Require Import prelude list_numbers.
From Stdlib Require Import ZArith Lia.
Local Open Scope Z_scope.
Import TLSF.

(** ** Bit scans *)

Lemma tlsf_fls_log2 x : 0 < x → tlsf_fls x = Z.log2 x.
Proof.
  intros. unfold tlsf_fls, builtin_clz. destruct (Z.eqb_spec x 0); lia.
Qed.

Lemma pos_ctz_spec p :
  0 ≤ pos_ctz p ∧ Z.testbit (Zpos p) (pos_ctz p) = true ∧
  ∀ i, 0 ≤ i < pos_ctz p → Z.testbit (Zpos p) i = false.
Proof.
  induction p as [p IH|p (Hn & Hb & Hlow)|]; simpl pos_ctz.
  - split_and!; [done|done|]. intros; lia.
  - split_and!.
    + lia.
    + change (Zpos p~0) with (2 * Zpos p).
      replace (1 + pos_ctz p) with (Z.succ (pos_ctz p)) by lia.
      by rewrite Z.testbit_even_succ.
    + intros i Hi. change (Zpos p~0) with (2 * Zpos p). destruct (decide (i = 0)) as [->|].
      * apply Z.testbit_even_0.
      * replace i with (Z.succ (i - 1)) by lia. rewrite Z.testbit_even_succ by lia.
        apply Hlow. lia.
  - split_and!; [done|done|]. intros; lia.
Qed.

Lemma tlsf_ffs_spec x :
  0 < x →
  0 ≤ tlsf_ffs x ∧ Z.testbit x (tlsf_ffs x) = true ∧
  ∀ i, 0 ≤ i < tlsf_ffs x → Z.testbit x i = false.
Proof.
  intros Hx. unfold tlsf_ffs, builtin_ctz. destruct (Z.eqb_spec x 0); [lia|].
  destruct x as [|p|p]; [lia| |lia]. apply pos_ctz_spec.
Qed.

(** [~0U << n]: the bits from [n] up. *)
Lemma high_mask_testbit n i :
  0 ≤ n → 0 ≤ i → Z.testbit (u32 (Z.shiftl 0xFFFFFFFF n)) i = (n <=? i) && (i <? 32).
Proof.
  intros Hn Hi. rewrite wrap_testbit, Z.shiftl_spec by lia.
  change 0xFFFFFFFF with (Z.ones 32).
  destruct (Z.leb_spec n i).
  - destruct (Z.ltb_spec i 32); [|by rewrite andb_false_r].
    rewrite Z.ones_spec_low by lia. done.
  - rewrite Z.testbit_neg_r by lia. done.
Qed.

(** ** Classes *)

(** The smallest size of class [(fl, sl)]. *)
Definition class_low (fl sl : Z) : Z := 2 ^ fl + sl * 2 ^ (fl - 4).

(** The list a block of size [size] is kept in. *)
Definition class_of (size : Z) : Z * Z := clamp_index (mapping_insert size).

Definition class_ok (c : Z * Z) : Prop := 5 ≤ c.1 < FL_INDEX_MAX ∧ 0 ≤ c.2 < SL_INDEX_COUNT.

Lemma lxor_16 q : 16 ≤ q < 32 → Z.lxor q 16 = q - 16.
Proof.
  intros Hq. assert (Forall (λ r, Z.lxor (16 + r) 16 = r) (seqZ 0 16)) as HF
    by (vm_compute; repeat constructor).
  rewrite Forall_forall in HF. specialize (HF (q - 16)).
  rewrite elem_of_seqZ in HF. replace (16 + (q - 16)) with q in HF by lia. apply HF. lia.
Qed.

Lemma log2_range size : 32 ≤ size < 2 ^ 32 → 5 ≤ Z.log2 size < 32.
Proof.
  intros. split.
  - change 5 with (Z.log2 32). apply Z.log2_le_mono. lia.
  - apply Z.log2_lt_pow2; lia.
Qed.

(** The quotient that selects the second level. *)
Lemma sl_quot size :
  32 ≤ size < 2 ^ 32 →
  let d := 2 ^ (Z.log2 size - 4) in
  0 < d ∧ 2 ^ Z.log2 size = 16 * d ∧ 16 ≤ size / d < 32.
Proof.
  intros Hs d. pose proof (log2_range size Hs) as Hl.
  assert (0 < d) as Hd by (apply Z.pow_pos_nonneg; lia).
  assert (2 ^ Z.log2 size = 16 * d) as He.
  { unfold d. change 16 with (2 ^ 4). rewrite <- Z.pow_add_r by lia. f_equal. lia. }
  pose proof (Z.log2_spec size ltac:(lia)) as [Hlo Hhi].
  rewrite Z.pow_succ_r in Hhi by lia. split_and!; [done|done| |].
  - apply Z.div_le_lower_bound; lia.
  - apply Z.div_lt_upper_bound; lia.
Qed.

Lemma mapping_insert_eq size :
  32 ≤ size < 2 ^ 32 →
  mapping_insert size = (Z.log2 size, size / 2 ^ (Z.log2 size - 4) - 16).
Proof.
  intros Hs. pose proof (log2_range size Hs). destruct (sl_quot size Hs) as (Hd & He & Hq).
  unfold mapping_insert, BLOCK_SIZE_MIN, SL_INDEX_LOG2, SL_INDEX_COUNT.
  destruct (Z.ltb_spec size 32); [lia|].
  rewrite wrap_small by (unfold uint; lia). rewrite tlsf_fls_log2 by lia.
  rewrite Z.shiftr_div_pow2 by lia. rewrite lxor_16 by done. rewrite i32_small; [done|]. lia.
Qed.

Lemma class_of_ok size : 32 ≤ size < 2 ^ 32 → class_ok (class_of size).
Proof.
  intros Hs. pose proof (log2_range size Hs). destruct (sl_quot size Hs) as (Hd & He & Hq).
  unfold class_of, clamp_index, class_ok, FL_INDEX_MAX, SL_INDEX_COUNT.
  rewrite mapping_insert_eq by done. cbn [fst snd].
  destruct (Z.leb_spec 20 (Z.log2 size)), (Z.leb_spec 16 (size / 2 ^ (Z.log2 size - 4) - 16)); lia.
Qed.

(** Every block is at least as large as its class says. *)
Lemma class_of_low size :
  32 ≤ size < 2 ^ 32 → class_low (class_of size).1 (class_of size).2 ≤ size.
Proof.
  intros Hs. pose proof (log2_range size Hs). destruct (sl_quot size Hs) as (Hd & He & Hq).
  pose proof (class_of_ok size Hs) as [_ Hsl]. unfold SL_INDEX_COUNT in Hsl.
  pose proof (Z.log2_spec size ltac:(lia)) as [Hlo _].
  unfold class_of, clamp_index, FL_INDEX_MAX, SL_INDEX_COUNT in *.
  rewrite mapping_insert_eq in * by done. cbn [fst snd] in *.
  destruct (Z.leb_spec 16 (size / 2 ^ (Z.log2 size - 4) - 16)); [lia|].
  unfold class_low. destruct (Z.leb_spec 20 (Z.log2 size)).
  - assert (2 ^ 20 ≤ 2 ^ Z.log2 size) by (apply Z.pow_le_mono_r; lia).
    change (20 - 1) with 19. change (2 ^ 19) with 524288. change (2 ^ (19 - 4)) with 32768.
    change (2 ^ 20) with 1048576 in *. lia.
  - pose proof (Z.mul_div_le size (2 ^ (Z.log2 size - 4)) Hd). lia.
Qed.

Lemma class_of_small size :
  32 ≤ size < 2 ^ 20 → class_of size = (Z.log2 size, size / 2 ^ (Z.log2 size - 4) - 16).
Proof.
  intros Hs. assert (32 ≤ size < 2 ^ 32) as Hs' by lia.
  destruct (sl_quot size Hs') as (Hd & He & Hq).
  unfold class_of, clamp_index, FL_INDEX_MAX, SL_INDEX_COUNT.
  rewrite mapping_insert_eq by done. cbn [fst snd].
  assert (Z.log2 size < 20) by (apply Z.log2_lt_pow2; lia).
  destruct (Z.leb_spec 20 (Z.log2 size)); [lia|].
  destruct (Z.leb_spec 16 (size / 2 ^ (Z.log2 size - 4) - 16)); [lia|done].
Qed.

Lemma class_low_mono fl sl fl' sl' :
  5 ≤ fl → 0 ≤ sl < 16 → 0 ≤ sl' → fl < fl' ∨ (fl = fl' ∧ sl ≤ sl') →
  class_low fl sl ≤ class_low fl' sl'.
Proof.
  intros Hfl Hsl Hsl' [Hlt|[-> Hle]]; unfold class_low.
  - assert (2 ^ fl = 16 * 2 ^ (fl - 4)) as He.
    { change 16 with (2 ^ 4). rewrite <- Z.pow_add_r by lia. f_equal. lia. }
    assert (2 ^ Z.succ fl ≤ 2 ^ fl') as Hp by (apply Z.pow_le_mono_r; lia).
    rewrite Z.pow_succ_r in Hp by lia.
    assert (0 < 2 ^ (fl - 4)) by (apply Z.pow_pos_nonneg; lia).
    assert (0 < 2 ^ (fl' - 4)) by (apply Z.pow_pos_nonneg; lia). nia.
  - assert (0 < 2 ^ (fl' - 4)) by (apply Z.pow_pos_nonneg; lia). nia.
Qed.

Section arch.
Context {ar : Arch}.

(** The rounding added by [mapping_search]. *)
Definition search_size (size : Z) : Z := size + 2 ^ (Z.log2 size - 4) - 1.

Lemma search_size_bounds size :
  32 ≤ size < 2 ^ 31 → size ≤ search_size size < size + size / 16 + 1 ∧ search_size size < 2 ^ 32.
Proof.
  intros Hs. destruct (sl_quot size ltac:(lia)) as (Hd & He & Hq).
  pose proof (Z.log2_spec size ltac:(lia)) as [Hlo _]. unfold search_size.
  assert (2 ^ (Z.log2 size - 4) ≤ size / 16) by (apply Z.div_le_lower_bound; lia).
  assert (size / 16 ≤ size) by (apply Z.div_le_upper_bound; lia). lia.
Qed.

Lemma mapping_search_eq size :
  32 ≤ size < 2 ^ 31 → mapping_search size = mapping_insert (search_size size).
Proof.
  intros Hs. destruct (search_size_bounds size Hs) as [[? ?] ?].
  pose proof (log2_range size ltac:(lia)). destruct pow_W_8 as (_ & ? & _).
  unfold mapping_search, BLOCK_SIZE_MIN, SL_INDEX_LOG2. destruct (Z.leb_spec 32 size); [|lia].
  rewrite (wrap_small 32) by (unfold uint; lia). rewrite tlsf_fls_log2 by lia.
  rewrite Z.shiftl_1_l. rewrite wrap_small; [unfold search_size; f_equal; lia|].
  unfold uint, search_size in *. lia.
Qed.

(** The class the search starts from only holds blocks that fit. *)
Lemma mapping_search_low size :
  32 ≤ size < 2 ^ 31 →
  let c := mapping_search size in
  5 ≤ c.1 ∧ 0 ≤ c.2 < 16 ∧ size ≤ class_low c.1 c.2.
Proof.
  intros Hs c. destruct (search_size_bounds size Hs) as [[Hge _] Hlt].
  unfold c. rewrite mapping_search_eq, mapping_insert_eq by lia. cbn [fst snd].
  set (z := search_size size) in *. assert (32 ≤ z < 2 ^ 32) as Hz by lia.
  destruct (sl_quot z Hz) as (Hd & He & Hq). pose proof (log2_range z Hz).
  split; [lia|]. split; [lia|]. unfold class_low.
  assert (Z.log2 size ≤ Z.log2 z) as Hl by (apply Z.log2_le_mono; lia).
  pose proof (Z.log2_spec size ltac:(lia)) as [_ Hhi].
  destruct (decide (Z.log2 z = Z.log2 size)) as [Heq|Hne].
  - pose proof (Z.mul_succ_div_gt z (2 ^ (Z.log2 z - 4)) Hd).
    assert (z = size + 2 ^ (Z.log2 z - 4) - 1) as Hzd by (by rewrite Heq).
    clearbody z. rewrite He. set (d := 2 ^ (Z.log2 z - 4)) in *. clearbody d. nia.
  - assert (2 ^ Z.succ (Z.log2 size) ≤ 2 ^ Z.log2 z) by (apply Z.pow_le_mono_r; lia). nia.
Qed.

End arch.

(** ** The bit scans as linked *)

(** On a core without count-zeros instructions GCC's builtins are calls of
    the library's routines; [tlsf_fls] and [tlsf_ffs] computed with those are the
    scans the allocator is verified with, for every nonzero bitmap or size. *)
Theorem tlsf_scans_linked x :
  0 < x < 2 ^ 32 → tlsf_fls x = 31 - __clzsi2 x ∧ tlsf_ffs x = __ctzsi2 x.
Proof.
  intros Hx. split; [rewrite tlsf_fls_log2, clz_log2 by lia; lia|].
  destruct (ctz_divides x Hx) as (y & Hk & Hy). set (k := __ctzsi2 x) in *. clearbody k.
  destruct (tlsf_ffs_spec x ltac:(lia)) as (Hn & Hb & Hlow). set (n := tlsf_ffs x) in *. clearbody n.
  assert (∀ i, 0 ≤ i → Z.testbit x i = (k <=? i) && Z.testbit (2 * y + 1) (i - k)) as Hbit.
  { intros i Hi. rewrite Hy, <- Z.shiftl_mul_pow2, Z.shiftl_spec by lia. destruct (Z.leb_spec k i); [done|].
    by rewrite Z.testbit_neg_r by lia. }
  destruct (Z.lt_trichotomy n k) as [Hlt|[He|Hgt]]; [exfalso|done|exfalso].
  - rewrite Hbit, (proj2 (Z.leb_gt _ _)) in Hb by lia. done.
  - specialize (Hlow k ltac:(lia)). rewrite Hbit, Z.leb_refl, Z.sub_diag, Z.testbit_odd_0 in Hlow by lia. done.
Qed.

Lemma tlsf_scans_linked_witness : tlsf_fls 0x00A00000 = 31 - __clzsi2 0x00A00000 ∧ tlsf_ffs 0x00A00000 = __ctzsi2 0x00A00000.
Proof. apply (tlsf_scans_linked 0x00A00000). lia. Defined.
