(* ===== verification/TlsfLists.v ===== *)
(** * Kernel heap: the segregated free lists

    The invariant of the two-level bitmap and of the doubly linked lists, and
    the specifications of [insert_free_block], [remove_free_block] and
    [find_suitable_block] against it. *)

From S2P Require Import Prelude Libc LibcSpec Tlsf TlsfMem TlsfMapping.
From stdpp Require Import prelude gmap list.
From Stdlib Require Import ZArith Lia.
Local Open Scope Z_scope.
Import TLSF.

(** ** What an operation may touch *)

(** The part of the control structure the free lists do not use. *)
Definition ctl (s : tlsf_t) : list Z :=
  [pool_start s; pool_end s; used_bytes s; total_bytes s; alloc_count s; free_count s;
   high_water_bytes s; min_free_bytes s; alloc_fail_count s; invalid_free_count s;
   canary_fail_count s].

Section arch.
Context {ar : Arch}.

(** [touches H F s s']: from [s] to [s'] only bytes of headers at addresses of
    [H] changed, of these headers only fields of [F], and no statistics. *)
Record touches (H : Z → Prop) (F : field → Prop) (s s' : tlsf_t) : Prop := {
  t_ctl : ctl s' = ctl s;
  t_bytes x : (∀ a, H a → ¬ a ≤ x < a + 6 * W) → ld_byte (mem s') x = ld_byte (mem s) x;
  t_fields a f : H a → ¬ F f → rd s' a f = rd s a f;
}.

Definition separated (H : Z → Prop) : Prop := ∀ a b, H a → H b → a = b ∨ sep a b.

Definition link (f : field) : Prop := f = f_next_free ∨ f = f_prev_free.

Lemma touches_refl H F s : touches H F s s.
Proof. done. Qed.

Lemma touches_trans H F s1 s2 s3 : touches H F s1 s2 → touches H F s2 s3 → touches H F s1 s3.
Proof.
  intros [C1 B1 R1] [C2 B2 R2]. split.
  - by rewrite C2.
  - intros. by rewrite B2, B1.
  - intros. by rewrite R2, R1.
Qed.

Lemma touches_weaken H F H' F' s s' :
  touches H F s s' → (∀ a, H a → H' a) → (∀ f, F f → F' f) →
  (∀ a, H' a → H a ∨ ∀ f, rd s' a f = rd s a f) → touches H' F' s s'.
Proof.
  intros [C B R] HH HF HR. split; [done| |].
  - intros x Hx. apply B. intros a Ha. apply Hx. auto.
  - intros a f Ha Hf. destruct (HR a Ha) as [|Heq]; [apply R; auto|apply Heq].
Qed.

Lemma touches_wr H F s b f v :
  separated H → H b → F f → touches H F s (wr s b f v).
Proof.
  intros Hsep Hb Hf. split; [done| |].
  - intros x Hx. unfold wr. simpl. apply ld_byte_st_other. specialize (Hx b Hb).
    destruct W_pos; destruct f; simpl in *; lia.
  - intros a g Ha Hg. apply rd_wr_ne. destruct (Hsep b a Hb Ha) as [->|?]; [left|by right].
    split; [done|]. by intros ->.
Qed.

(** Changing the bitmaps and list heads touches no memory. *)
Lemma touches_lists H F s fb sb bl :
  touches H F s (s <| fl_bitmap := fb |> <| sl_bitmap := sb |> <| blocks := bl |>).
Proof. done. Qed.

(** ** Doubly linked lists *)

Definition first (d : Z) (l : list Z) : Z := match l with [] => d | a :: _ => a end.
Definition final (d : Z) (l : list Z) : Z := foldl (λ _ a, a) d l.

Fixpoint dseg (s : tlsf_t) (prev : Z) (l : list Z) (next : Z) : Prop :=
  match l with
  | [] => True
  | a :: l => rd s a f_prev_free = prev ∧ rd s a f_next_free = first next l ∧ dseg s a l next
  end.

Lemma first_app d l1 l2 : first d (l1 ++ l2) = first (first d l2) l1.
Proof. by destruct l1. Qed.

Lemma final_snoc d l x : final d (l ++ [x]) = x.
Proof. unfold final. by rewrite foldl_app. Qed.

Lemma dseg_app s p l1 l2 n :
  dseg s p (l1 ++ l2) n ↔ dseg s p l1 (first n l2) ∧ dseg s (final p l1) l2 n.
Proof.
  revert p. induction l1 as [|a l1 IH]; intros p; simpl; [naive_solver|].
  rewrite first_app, IH. unfold final. simpl. naive_solver.
Qed.

Lemma dseg_frame s s' p l n :
  (∀ a f, a ∈ l → link f → rd s' a f = rd s a f) → dseg s p l n → dseg s' p l n.
Proof.
  revert p. induction l as [|a l IH]; intros p Hf; simpl; [done|].
  intros (Hp & Hn & Hd). rewrite !Hf by (set_solver || (unfold link; auto)).
  split_and!; [done..|]. apply IH; [|done]. intros. apply Hf; [set_solver|done].
Qed.

(** Redirecting the first link of a segment. *)
Lemma dseg_first s s' p p' l n :
  dseg s p l n → NoDup l →
  (∀ a f, a ∈ l → link f → (a = first 0 l ∧ f = f_prev_free) ∨ rd s' a f = rd s a f) →
  (l ≠ [] → rd s' (first 0 l) f_prev_free = p') → dseg s' p' l n.
Proof.
  destruct l as [|a l]; [done|]. simpl. intros (Hp & Hn & Hd) [Hni Hnd]%NoDup_cons Hf Hnew.
  split_and!; [by apply Hnew| |].
  - destruct (Hf a f_next_free) as [[_ ?]| ->]; [set_solver|unfold link; auto|done|done].
  - eapply dseg_frame; [|done]. intros b f Hb Hl.
    destruct (Hf b f) as [[-> _]|?]; [set_solver|done|done|done].
Qed.

(** Redirecting the last link of a segment. *)
Lemma dseg_final s s' p l n n' :
  dseg s p l n → NoDup l →
  (∀ a f, a ∈ l → link f → (a = final 0 l ∧ f = f_next_free) ∨ rd s' a f = rd s a f) →
  (l ≠ [] → rd s' (final 0 l) f_next_free = n') → dseg s' p l n'.
Proof.
  destruct l as [|x l' _] using rev_ind; [done|].
  rewrite final_snoc, NoDup_app. intros Hd (Hnd & Hdis & _) Hf Hnew.
  rewrite dseg_app in *. destruct Hd as [Hd1 Hd2]. split.
  - eapply dseg_frame; [|done]. intros a f Ha Hl.
    destruct (Hf a f) as [[-> _]|?]; [set_solver|done| |done].
    exfalso. apply (Hdis x Ha). set_solver.
  - simpl in *. destruct Hd2 as (Hp & Hn & _). split_and!; [| |done].
    + destruct (Hf x f_prev_free) as [[_ ?]| ->]; [set_solver|unfold link; auto|done|done].
    + apply Hnew. by destruct l'.
Qed.

(** ** Bitmaps and list heads as arrays *)

Definition idx_ok (c : Z * Z) : Prop := 0 ≤ c.1 < FL_INDEX_MAX ∧ 0 ≤ c.2 < SL_INDEX_COUNT.

Definition shape_ok (s : tlsf_t) : Prop :=
  length (sl_bitmap s) = 20%nat ∧ length (blocks s) = 20%nat ∧
  ∀ i, (i < 20)%nat → length (blocks s !!! i) = 16%nat.

Lemma sl_map_set s fl fl' v :
  shape_ok s → 0 ≤ fl < 20 → 0 ≤ fl' < 20 →
  sl_map (set_sl_map s fl v) fl' = if decide (fl = fl') then v else sl_map s fl'.
Proof.
  intros (Hl & _) ? ?. unfold sl_map, set_sl_map. simpl. case_decide as Hd.
  - subst. apply list_lookup_total_insert_eq. lia.
  - apply list_lookup_total_insert_ne. lia.
Qed.

Lemma head_of_set s c c' v :
  shape_ok s → idx_ok c → idx_ok c' →
  head_of (set_head s c.1 c.2 v) c'.1 c'.2 = if decide (c = c') then v else head_of s c'.1 c'.2.
Proof.
  intros (_ & Hl & Hr) [Hc1 Hc2] [Hc1' Hc2']. unfold FL_INDEX_MAX, SL_INDEX_COUNT in *.
  unfold head_of, set_head. simpl. destruct c as [f g], c' as [f' g']. simpl in *.
  destruct (decide (f = f')) as [->|].
  - rewrite list_lookup_total_insert_eq by lia. destruct (decide (g = g')) as [->|].
    + rewrite list_lookup_total_insert_eq; [by rewrite decide_True|]. rewrite Hr by lia. lia.
    + rewrite list_lookup_total_insert_ne by lia. rewrite decide_False; [done|congruence].
  - rewrite list_lookup_total_insert_ne by lia. rewrite decide_False; [done|congruence].
Qed.

Lemma shape_set_sl s fl v : shape_ok s → shape_ok (set_sl_map s fl v).
Proof. intros (? & ?). split; [|done]. simpl. by rewrite length_insert. Qed.

Lemma shape_set_head s c v : shape_ok s → idx_ok c → shape_ok (set_head s c.1 c.2 v).
Proof.
  intros (? & Hl & Hr) [Hc1 Hc2]. unfold FL_INDEX_MAX in *.
  split; [done|]. simpl. rewrite length_insert. split; [done|].
  intros i Hi. destruct (decide (Z.to_nat c.1 = i)) as [<-|].
  - rewrite list_lookup_total_insert_eq by lia. rewrite length_insert. by apply Hr.
  - rewrite list_lookup_total_insert_ne by done. by apply Hr.
Qed.

Lemma bit1_spec n i : 0 ≤ n < 32 → Z.testbit (u32 (Z.shiftl 1 n)) i = (n =? i).
Proof.
  intros. rewrite wrap_small; [by apply (BIT_spec n i); lia|].
  rewrite Z.shiftl_1_l. split; [lia|]. apply Z.pow_lt_mono_r; lia.
Qed.

Lemma set_bit_spec x n i :
  0 ≤ n < 32 → Z.testbit (Z.lor x (u32 (Z.shiftl 1 n))) i = Z.testbit x i || (n =? i).
Proof. intros. by rewrite Z.lor_spec, bit1_spec. Qed.

Lemma clear_bit_spec x n i :
  0 ≤ n < 32 → 0 ≤ i → uint 32 x →
  Z.testbit (Z.land x (not32 (u32 (Z.shiftl 1 n)))) i = Z.testbit x i && negb (n =? i).
Proof.
  intros Hn Hi Hx. unfold not32. rewrite land_wrap_r by (done || lia).
  by rewrite Z.land_spec, Z.lnot_spec, bit1_spec.
Qed.

(** ** The free-list invariant *)

(** [L] gives the contents of each list. *)
Record lists_ok (s : tlsf_t) (L : Z * Z → list Z) : Prop := {
  lo_shape : shape_ok s;
  lo_fl32 : uint 32 (fl_bitmap s);
  lo_sl32 fl : 0 ≤ fl < 20 → uint 32 (sl_map s fl);
  lo_head c : idx_ok c → head_of s c.1 c.2 = first 0 (L c);
  lo_dseg c : idx_ok c → dseg s 0 (L c) 0;
  lo_nodup c : idx_ok c → NoDup (L c);
  lo_mem c a : idx_ok c → a ∈ L c →
    0 < a ∧ 32 ≤ block_size s a < 2 ^ 32 ∧ class_of (block_size s a) = c;
  lo_sl c : 0 ≤ c.1 < 20 → 0 ≤ c.2 →
    Z.testbit (sl_map s c.1) c.2 = bool_decide (c.2 < 16 ∧ L c ≠ []);
  lo_fl fl : 0 ≤ fl →
    Z.testbit (fl_bitmap s) fl = bool_decide (fl < 20 ∧ sl_map s fl ≠ 0);
}.

Definition member (L : Z * Z → list Z) (a : Z) : Prop := ∃ c, idx_ok c ∧ a ∈ L c.

Definition upd (L : Z * Z → list Z) (c : Z * Z) (l : list Z) : Z * Z → list Z :=
  λ c', if decide (c = c') then l else L c'.

Lemma upd_eq L c l : upd L c l c = l.
Proof. unfold upd. by rewrite decide_True. Qed.
Lemma upd_ne L c c' l : c ≠ c' → upd L c l c' = L c'.
Proof. intros. unfold upd. by rewrite decide_False. Qed.

Lemma class_idx c : class_ok c → idx_ok c.
Proof. intros [? ?]. split; lia. Qed.

Lemma class_of_idx size : 32 ≤ size < 2 ^ 32 → idx_ok (class_of size).
Proof. intros. by apply class_idx, class_of_ok. Qed.

(** The invariant only looks at the links and sizes of the members. *)
Lemma lists_ok_frame s s' L :
  lists_ok s L →
  fl_bitmap s' = fl_bitmap s → sl_bitmap s' = sl_bitmap s → blocks s' = blocks s →
  (∀ a f, member L a → link f → rd s' a f = rd s a f) →
  (∀ a, member L a → block_size s' a = block_size s a) →
  lists_ok s' L.
Proof.
  intros [] Hf Hs Hb Hl Hz.
  assert (∀ fl, sl_map s' fl = sl_map s fl) as Hsl by (intros; unfold sl_map; by rewrite Hs).
  split; intros; rewrite ?Hsl, ?Hf; try by eauto.
  - unfold shape_ok. by rewrite Hs, Hb.
  - unfold head_of. rewrite Hb. by apply lo_head0.
  - eapply dseg_frame; [|by apply lo_dseg0]. intros. apply Hl; [by eexists|done].
  - rewrite Hz by (by eexists). by apply lo_mem0.
Qed.

Lemma member_ne_class s L c c' a b :
  lists_ok s L → idx_ok c → idx_ok c' → a ∈ L c → b ∈ L c' → c ≠ c' → a ≠ b.
Proof.
  intros HL Hc Hc' Ha Hb Hne ->. apply Hne.
  destruct (lo_mem s L HL c b Hc Ha) as (_ & _ & <-).
  by destruct (lo_mem s L HL c' b Hc' Hb) as (_ & _ & <-).
Qed.

(** The header addresses in play: separated, nonzero, in the address space. *)
Record headers_ok (H : Z → Prop) : Prop := {
  ho_sep : separated H;
  ho_range a : H a → 0 < a < 2 ^ (8 * W);
}.

Section ops.
Variables (H : Z → Prop) (s : tlsf_t) (L : Z * Z → list Z).
Hypothesis HH : headers_ok H.
Hypothesis HL : lists_ok s L.
Hypothesis Hmem : ∀ a, member L a → H a.

Lemma member_in c a : idx_ok c → a ∈ L c → H a.
Proof. intros. apply Hmem. by exists c. Qed.

Lemma first_in c : idx_ok c → first 0 (L c) = 0 ∨ (first 0 (L c) ∈ L c ∧ H (first 0 (L c))).
Proof.
  intros Hc. destruct (L c) as [|a l] eqn:He; [by left|right]. simpl.
  assert (a ∈ L c) by (rewrite He; set_solver). split; [set_solver|by eapply member_in].
Qed.

Lemma rd_wr_H s' a b f g v : H a → H b → a ≠ b → rd (wr s' b f v) a g = rd s' a g.
Proof.
  intros Ha Hb Hne. apply rd_wr_ne. right. destruct (ho_sep H HH b a Hb Ha); [congruence|done].
Qed.

Lemma rd_wr_link s' a f v : link f → H v ∨ v = 0 → rd (wr s' a f v) a f = v.
Proof.
  intros Hf Hv. apply rd_wr_eq. unfold uint. destruct pow_W_8 as (_ & ? & _).
  assert (field_width f = W) as -> by (destruct Hf; by subst).
  destruct Hv as [Hv| ->]; [|lia]. pose proof (ho_range H HH v Hv). lia.
Qed.

(** *** Insertion *)

(** The memory writes of [insert_free_block]. *)
Definition link_front (s : tlsf_t) (block head : Z) : tlsf_t :=
  let s := wr s block f_next_free head in
  let s := wr s block f_prev_free 0 in
  if negb (head =? 0) then wr s head f_prev_free block else s.

(** Its update of the heads and bitmaps. *)
Definition index_insert (s : tlsf_t) (c : Z * Z) (block : Z) : tlsf_t :=
  let s := set_head s c.1 c.2 block in
  let s := s <| fl_bitmap := Z.lor (fl_bitmap s) (u32 (Z.shiftl 1 c.1)) |> in
  set_sl_map s c.1 (Z.lor (sl_map s c.1) (u32 (Z.shiftl 1 c.2))).

Lemma insert_eq block :
  let c := class_of (block_size s block) in
  insert_free_block s block = index_insert (link_front s block (head_of s c.1 c.2)) c block.
Proof. reflexivity. Qed.

Section insert.
Variables (block : Z).
Let c := class_of (block_size s block).
Hypothesis Hb : H block.
Hypothesis Hnew : ¬ member L block.
Hypothesis Hsize : 32 ≤ block_size s block < 2 ^ 32.

Lemma link_front_touches : touches H link s (link_front s block (first 0 (L c))).
Proof.
  unfold link_front. assert (idx_ok c) as Hc by by apply class_of_idx.
  eapply touches_trans; [|eapply touches_trans].
  - apply touches_wr; [apply HH|done|by left].
  - apply touches_wr; [apply HH|done|by right].
  - destruct (Z.eqb_spec (first 0 (L c)) 0); simpl; [apply touches_refl|].
    destruct (first_in c Hc) as [?|[_ ?]]; [done|].
    apply touches_wr; [apply HH|done|by right].
Qed.

Lemma link_front_others a f :
  H a → a ≠ block → (a ≠ first 0 (L c) ∨ f ≠ f_prev_free) →
  rd (link_front s block (first 0 (L c))) a f = rd s a f.
Proof.
  intros Ha Hne Hcase. assert (idx_ok c) as Hc by by apply class_of_idx. unfold link_front.
  destruct (Z.eqb_spec (first 0 (L c)) 0) as [|Hnz]; simpl.
  - by rewrite !rd_wr_H.
  - destruct (first_in c Hc) as [?|[_ Hf]]; [done|].
    destruct (decide (a = first 0 (L c))) as [->|].
    + destruct Hcase as [|Hcase]; [done|]. rewrite rd_wr_ne by (left; split; [done|congruence]).
      by rewrite !rd_wr_H.
    + by rewrite !rd_wr_H.
Qed.

Lemma not_member_ne c' a : idx_ok c' → a ∈ L c' → a ≠ block.
Proof. intros Hc' Ha ->. apply Hnew. by exists c'. Qed.

Lemma link_front_self :
  rd (link_front s block (first 0 (L c))) block f_prev_free = 0 ∧
  rd (link_front s block (first 0 (L c))) block f_next_free = first 0 (L c).
Proof.
  assert (idx_ok c) as Hc by by apply class_of_idx.
  assert (∀ f, rd (link_front s block (first 0 (L c))) block f =
    rd (wr (wr s block f_next_free (first 0 (L c))) block f_prev_free 0) block f) as Heq.
  { intros f. unfold link_front. destruct (Z.eqb_spec (first 0 (L c)) 0); [done|]. simpl.
    destruct (first_in c Hc) as [?|[Hin Hf]]; [done|].
    apply rd_wr_H; [done|done|]. by apply not_eq_sym, (not_member_ne c). }
  rewrite !Heq. split.
  - apply rd_wr_link; [by right|by right].
  - rewrite rd_wr_ne by (left; split; [done|congruence]).
    apply rd_wr_link; [by left|]. destruct (first_in c Hc) as [?|[_ ?]]; auto.
Qed.

Lemma link_front_dseg c' :
  idx_ok c' → dseg (link_front s block (first 0 (L c))) 0 (upd L c (block :: L c) c') 0.
Proof.
  intros Hc'. assert (idx_ok c) as Hc by by apply class_of_idx.
  destruct (decide (c = c')) as [<-|Hne].
  - rewrite upd_eq. simpl. destruct link_front_self as [-> ->]. split_and!; [done..|].
    eapply dseg_first; [by apply lo_dseg|by eapply lo_nodup| |].
    + intros a f Ha Hl. destruct (decide (a = first 0 (L c) ∧ f = f_prev_free)); [by left|right].
      apply link_front_others; [by eapply member_in|by apply (not_member_ne c)|].
      destruct (decide (a = first 0 (L c))); [right|by left]. naive_solver.
    + intros Hnil. assert (first 0 (L c) ∈ L c) as Hin by (destruct (L c); [done|set_solver]).
      destruct (lo_mem s L HL c _ Hc Hin) as [Hpos _].
      unfold link_front. destruct (Z.eqb_spec (first 0 (L c)) 0) as [?|_]; [lia|].
      apply rd_wr_link; [by right|by left].
  - rewrite upd_ne by done. eapply dseg_frame; [|by apply lo_dseg].
    intros a f Ha Hl. apply link_front_others; [by apply (member_in c')| |left].
    + by apply (not_member_ne c').
    + destruct (first_in c Hc) as [->|[Hin _]].
      * destruct (lo_mem s L HL c' a Hc' Ha). lia.
      * apply not_eq_sym. by eapply (member_ne_class s L c c').
Qed.

Lemma link_front_index h :
  fl_bitmap (link_front s block h) = fl_bitmap s ∧ sl_bitmap (link_front s block h) = sl_bitmap s ∧
  blocks (link_front s block h) = blocks s.
Proof. unfold link_front. by destruct (negb _). Qed.

Lemma touches_block_size s' a : touches H link s s' → H a → block_size s' a = block_size s a.
Proof.
  intros Ht Ha. unfold block_size. rewrite (t_fields H link s s' Ht); [done|done|].
  by intros [?|?].
Qed.

Lemma insert_touches : touches H link s (insert_free_block s block).
Proof.
  rewrite insert_eq. fold c. rewrite (lo_head s L HL c) by by apply class_of_idx.
  eapply touches_trans; [apply link_front_touches|]. apply touches_lists.
Qed.

Lemma insert_lists_ok : lists_ok (insert_free_block s block) (upd L c (block :: L c)).
Proof.
  assert (idx_ok c) as Hc by by apply class_of_idx. pose proof insert_touches as Ht.
  pose proof (lo_shape s L HL) as Hsh. rewrite insert_eq in Ht |- *. fold c in Ht |- *.
  rewrite (lo_head s L HL c) in Ht |- * by done.
  destruct (link_front_index (first 0 (L c))) as (Hfb & Hsb & Hbl).
  set (s1 := link_front s block (first 0 (L c))) in *.
  assert (shape_ok s1) as Hsh1 by (unfold shape_ok; by rewrite Hsb, Hbl).
  assert (∀ fl, sl_map s1 fl = sl_map s fl) as Hslm by (intros; unfold sl_map; by rewrite Hsb).
  pose proof Hc as [Hc1 Hc2]. unfold FL_INDEX_MAX, SL_INDEX_COUNT in Hc1, Hc2.
  set (s2 := (set_head s1 c.1 c.2 block) <| fl_bitmap := Z.lor (fl_bitmap s1) (u32 (Z.shiftl 1 c.1)) |>).
  assert (shape_ok s2) as Hsh2 by by apply (shape_set_head s1).
  assert (∀ fl, 0 ≤ fl < 20 → sl_map (index_insert s1 c block) fl =
    if decide (c.1 = fl) then Z.lor (sl_map s fl) (u32 (Z.shiftl 1 c.2)) else sl_map s fl) as Hsl'.
  { intros fl Hfl. change (index_insert s1 c block) with
      (set_sl_map s2 c.1 (Z.lor (sl_map s2 c.1) (u32 (Z.shiftl 1 c.2)))).
    rewrite sl_map_set by done. change (sl_map s2) with (sl_map s1). rewrite !Hslm.
    case_decide; by subst. }
  assert (∀ c', 0 ≤ c'.1 < 20 → 0 ≤ c'.2 →
    Z.testbit (sl_map (index_insert s1 c block) c'.1) c'.2 =
    bool_decide (c'.2 < 16 ∧ upd L c (block :: L c) c' ≠ [])) as Hbits.
  { intros [fl sl] Hfl Hs. pose proof (lo_sl s L HL (fl, sl) Hfl Hs) as Hold.
    cbn [fst snd] in Hold, Hfl, Hs |- *.
    rewrite Hsl' by done. destruct (decide (c.1 = fl)) as [Hd|Hd].
    - rewrite set_bit_spec, Hold by lia. destruct (Z.eqb_spec c.2 sl).
      + replace (fl, sl) with c by (destruct c; simpl in *; congruence).
        rewrite upd_eq, orb_true_r, bool_decide_true; [done|split; [lia|done]].
      + rewrite upd_ne by (intros ->; done). by rewrite orb_false_r.
    - by rewrite upd_ne by (intros ->; done). }
  split.
  - by apply (shape_set_sl s2).
  - simpl. rewrite Hfb. apply uint_lor; [lia|by apply (lo_fl32 s L HL)|apply uint_wrap; lia].
  - intros fl Hfl. rewrite Hsl' by done. pose proof (lo_sl32 s L HL fl Hfl).
    case_decide; [|done]. apply uint_lor; [lia|done|apply uint_wrap; lia].
  - intros c' Hc'. change (head_of (index_insert s1 c block) c'.1 c'.2) with
      (head_of (set_head s1 c.1 c.2 block) c'.1 c'.2). rewrite head_of_set by done.
    case_decide as Hd; [subst; by rewrite upd_eq|]. rewrite upd_ne by done.
    unfold head_of. rewrite Hbl. by apply (lo_head s L HL).
  - intros c' Hc'. apply (dseg_frame s1); [done|]. by apply link_front_dseg.
  - intros c' Hc'. destruct (decide (c = c')) as [<-|].
    + rewrite upd_eq. apply NoDup_cons. split; [|by apply (lo_nodup s L HL)].
      intros Hin. apply Hnew. by exists c.
    + rewrite upd_ne by done. by apply (lo_nodup s L HL).
  - intros c' a Hc' Ha. destruct (decide (c = c')) as [<-|].
    + rewrite upd_eq, elem_of_cons in Ha. destruct Ha as [->|Ha].
      * rewrite (touches_block_size _ block Ht Hb). pose proof (ho_range H HH block Hb).
        split_and!; try lia. done.
      * rewrite (touches_block_size _ a Ht) by by apply (member_in c). by apply (lo_mem s L HL c).
    + rewrite upd_ne in Ha by done.
      rewrite (touches_block_size _ a Ht) by by apply (member_in c'). by apply (lo_mem s L HL c').
  - exact Hbits.
  - intros fl Hfl. change (fl_bitmap (index_insert s1 c block)) with
      (Z.lor (fl_bitmap s1) (u32 (Z.shiftl 1 c.1))). rewrite Hfb, set_bit_spec, (lo_fl s L HL) by lia.
    destruct (Z.eqb_spec c.1 fl) as [<-|Hne].
    + rewrite orb_true_r, bool_decide_true; [done|]. split; [lia|]. intros H0.
      specialize (Hbits c ltac:(lia) ltac:(lia)). rewrite H0, Z.bits_0, upd_eq in Hbits.
      symmetry in Hbits. apply bool_decide_eq_false in Hbits. apply Hbits. split; [lia|done].
    + rewrite orb_false_r. apply bool_decide_ext. split; intros [? Hz]; (split; [done|]);
        revert Hz; rewrite Hsl' by lia; by rewrite decide_False.
Qed.
End insert.

(** *** Removal *)

(** The unlinking of [remove_free_block], and its update of the bitmaps. *)
Definition unlink (s : tlsf_t) (c : Z * Z) (block : Z) : tlsf_t :=
  let s := if negb (rd s block f_prev_free =? 0)
           then wr s (rd s block f_prev_free) f_next_free (rd s block f_next_free)
           else set_head s c.1 c.2 (rd s block f_next_free) in
  if negb (rd s block f_next_free =? 0)
  then wr s (rd s block f_next_free) f_prev_free (rd s block f_prev_free) else s.

Definition index_remove (s : tlsf_t) (c : Z * Z) : tlsf_t :=
  if head_of s c.1 c.2 =? 0 then
    let s := set_sl_map s c.1 (Z.land (sl_map s c.1) (not32 (u32 (Z.shiftl 1 c.2)))) in
    if sl_map s c.1 =? 0
    then s <| fl_bitmap := Z.land (fl_bitmap s) (not32 (u32 (Z.shiftl 1 c.1))) |> else s
  else s.

Lemma remove_eq block :
  let c := class_of (block_size s block) in
  remove_free_block s block = index_remove (unlink s c block) c.
Proof. reflexivity. Qed.

Section remove.
Variables (block : Z) (l1 l2 : list Z).
Let c := class_of (block_size s block).
Hypothesis Hc : idx_ok c.
Hypothesis Hsplit : L c = l1 ++ block :: l2.

Let p := final 0 l1.
Let n := first 0 l2.

Lemma removed_in a : a ∈ l1 ∨ a = block ∨ a ∈ l2 → a ∈ L c.
Proof. rewrite Hsplit. set_solver. Qed.

Lemma removed_H : H block.
Proof. apply (member_in c); [done|]. apply removed_in. auto. Qed.

Lemma removed_nodup : NoDup l1 ∧ NoDup l2 ∧ block ∉ l1 ∧ block ∉ l2 ∧ ∀ a, a ∈ l1 → a ∉ l2.
Proof.
  pose proof (lo_nodup s L HL c Hc) as Hnd. rewrite Hsplit in Hnd.
  apply NoDup_app in Hnd as (? & Hd & [? ?]%NoDup_cons). split_and!; [done..| |done|].
  - intros Hin. apply (Hd _ Hin). set_solver.
  - intros a Ha ?. apply (Hd _ Ha). set_solver.
Qed.

Lemma removed_links : rd s block f_prev_free = p ∧ rd s block f_next_free = n.
Proof.
  pose proof (lo_dseg s L HL c Hc) as Hd. rewrite Hsplit, dseg_app in Hd.
  destruct Hd as (_ & Hp & Hn & _). done.
Qed.

Lemma final_in l : final 0 l = 0 ∧ l = [] ∨ final 0 l ∈ l ∧ l ≠ [].
Proof.
  destruct l as [|x l _] using rev_ind; [by left|right]. rewrite final_snoc.
  split; [set_solver|by destruct l].
Qed.

Lemma list_first_in l : first 0 l = 0 ∧ l = [] ∨ first 0 l ∈ l ∧ l ≠ [].
Proof. destruct l; [by left|right]. split; [set_solver|done]. Qed.

Lemma removed_pos a : a ∈ L c → 0 < a ∧ H a.
Proof.
  intros Ha. split; [by destruct (lo_mem s L HL c a Hc Ha)|by apply (member_in c)].
Qed.

(** The neighbours: absent and null, or members of the list. *)
Lemma neighbour_p : (p = 0 ∧ l1 = []) ∨ (p ∈ l1 ∧ l1 ≠ [] ∧ p ≠ 0 ∧ H p ∧ p ≠ block ∧ p ≠ n).
Proof.
  destruct removed_nodup as (_ & _ & Hb1 & Hb2 & Hdis).
  destruct (final_in l1) as [|[Hin Hne]]; [by left|right].
  destruct (removed_pos p) as [? ?]; [apply removed_in; auto|].
  split_and!; [done..|lia|done| |].
  - intros He. apply Hb1. by rewrite <- He.
  - intros He. destruct (list_first_in l2) as [[Hz _]|[Hin2 _]].
    + unfold n in He. lia.
    + apply (Hdis p Hin). rewrite He. exact Hin2.
Qed.

Lemma neighbour_n : (n = 0 ∧ l2 = []) ∨ (n ∈ l2 ∧ l2 ≠ [] ∧ n ≠ 0 ∧ H n ∧ n ≠ block).
Proof.
  destruct removed_nodup as (_ & _ & Hb1 & Hb2 & Hdis).
  destruct (list_first_in l2) as [|[Hin Hne]]; [by left|right].
  destruct (removed_pos n) as [? ?]; [apply removed_in; auto|].
  split_and!; [done..|lia|done|]. intros He. apply Hb2. by rewrite <- He.
Qed.

(** The state after unlinking, written with the neighbours. *)
Definition unlinked : tlsf_t :=
  let s1 := if decide (p = 0) then set_head s c.1 c.2 n else wr s p f_next_free n in
  if decide (n = 0) then s1 else wr s1 n f_prev_free p.

Lemma unlink_eq : unlink s c block = unlinked.
Proof.
  destruct removed_links as [Hp Hn]. unfold unlink, unlinked. rewrite Hp, Hn.
  pose proof removed_H as HB.
  destruct neighbour_p as [[Hp0 _]|(_ & _ & Hp0 & Hph & Hpb & _)].
  - rewrite Hp0, Z.eqb_refl, (decide_True (P := 0 = 0)) by done. cbn [negb].
    change (rd (set_head s c.1 c.2 n) block f_next_free) with (rd s block f_next_free).
    change (rd (set_head s c.1 c.2 n) block f_prev_free) with (rd s block f_prev_free).
    rewrite Hn, Hp, Hp0.
    destruct (Z.eqb_spec n 0), (decide (n = 0)); done.
  - rewrite (proj2 (Z.eqb_neq _ _) Hp0), (decide_False (P := p = 0)) by done. cbn [negb].
    rewrite !(rd_wr_H s block p) by done. rewrite Hn, Hp.
    destruct (Z.eqb_spec n 0), (decide (n = 0)); done.
Qed.

Lemma unlinked_rd a f :
  H a →
  rd unlinked a f = if decide (n ≠ 0 ∧ a = n ∧ f = f_prev_free) then p
                    else if decide (p ≠ 0 ∧ a = p ∧ f = f_next_free) then n else rd s a f.
Proof.
  intros Ha. unfold unlinked.
  assert (rd (if decide (p = 0) then set_head s c.1 c.2 n else wr s p f_next_free n) a f =
          if decide (p ≠ 0 ∧ a = p ∧ f = f_next_free) then n else rd s a f) as H1.
  { destruct (decide (p = 0)) as [|Hp0]; [by rewrite decide_False by naive_solver|].
    destruct neighbour_p as [[? _]|(_ & _ & _ & Hph & _)]; [done|].
    destruct (decide (p ≠ 0 ∧ a = p ∧ f = f_next_free)) as [(_ & -> & ->)|Hno].
    - apply rd_wr_link; [by left|]. destruct neighbour_n as [[? _]|(_ & _ & _ & ? & _)]; auto.
    - destruct (decide (a = p)) as [->|]; [|by rewrite rd_wr_H].
      apply rd_wr_ne. left. split; [done|]. naive_solver. }
  destruct (decide (n = 0)) as [|Hn0].
  - rewrite H1. by rewrite (decide_False (P := n ≠ 0 ∧ _)) by naive_solver.
  - destruct neighbour_n as [[? _]|(_ & _ & _ & Hnh & _)]; [done|].
    destruct (decide (n ≠ 0 ∧ a = n ∧ f = f_prev_free)) as [(_ & -> & ->)|Hno].
    + apply rd_wr_link; [by right|]. destruct neighbour_p as [[? _]|(_ & _ & _ & ? & _)]; auto.
    + rewrite <- H1. destruct (decide (a = n)) as [->|]; [|by rewrite rd_wr_H].
      apply rd_wr_ne. left. split; [done|]. naive_solver.
Qed.

Lemma unlinked_touches : touches H link s unlinked.
Proof.
  unfold unlinked. eapply touches_trans.
  2: { destruct (decide (n = 0)); [apply touches_refl|].
       destruct neighbour_n as [[? _]|(_ & _ & _ & Hnh & _)]; [done|].
       apply touches_wr; [apply HH|done|by right]. }
  destruct (decide (p = 0)); [done|].
  destruct neighbour_p as [[? _]|(_ & _ & _ & Hph & _)]; [done|].
  apply touches_wr; [apply HH|done|by left].
Qed.

Lemma unlinked_dseg c' : idx_ok c' → dseg unlinked 0 (upd L c (l1 ++ l2) c') 0.
Proof.
  intros Hc'. pose proof (lo_dseg s L HL c' Hc') as Hd.
  destruct removed_nodup as (Hn1 & Hn2 & Hb1 & Hb2 & Hdis).
  destruct (decide (c = c')) as [<-|Hne].
  - rewrite upd_eq, dseg_app. rewrite Hsplit, dseg_app in Hd. destruct Hd as (Hd1 & _ & _ & Hd2).
    split.
    + eapply dseg_final; [exact Hd1|done| |].
      * intros a f Ha Hl. destruct (decide (a = final 0 l1 ∧ f = f_next_free)); [by left|right].
        rewrite unlinked_rd by (apply (member_in c); [done|]; apply removed_in; auto).
        rewrite !decide_False; [done|naive_solver|]. intros (? & -> & _).
        destruct neighbour_n as [[? _]|(? & _)]; [done|]. by apply (Hdis n).
      * intros Hl1. fold p. destruct neighbour_p as [[_ ?]|(_ & _ & Hp0 & Hph & _ & Hpn)]; [done|].
        rewrite unlinked_rd by done. by rewrite decide_False, decide_True by naive_solver.
    + eapply dseg_first; [exact Hd2|done| |].
      * intros a f Ha Hl. destruct (decide (a = first 0 l2 ∧ f = f_prev_free)); [by left|right].
        rewrite unlinked_rd by (apply (member_in c); [done|]; apply removed_in; auto).
        rewrite !decide_False; [done| |naive_solver]. intros (? & -> & _).
        destruct neighbour_p as [[? _]|(? & _)]; [done|]. by apply (Hdis p).
      * intros Hl2. fold n. destruct neighbour_n as [[_ ?]|(_ & _ & Hn0 & Hnh & _)]; [done|].
        rewrite unlinked_rd by done. by rewrite decide_True by naive_solver.
  - rewrite upd_ne by done. eapply dseg_frame; [|exact Hd]. intros a f Ha Hl.
    rewrite unlinked_rd by (by apply (member_in c')).
    rewrite !decide_False; [done| |]; intros (Hz & -> & _).
    + destruct neighbour_p as [[? _]|(Hin & _)]; [done|].
      eapply (member_ne_class s L c c' p p); eauto. apply removed_in; auto.
    + destruct neighbour_n as [[? _]|(Hin & _)]; [done|].
      eapply (member_ne_class s L c c' n n); eauto. apply removed_in; auto.
Qed.

Lemma unlinked_index : fl_bitmap unlinked = fl_bitmap s ∧ sl_bitmap unlinked = sl_bitmap s ∧
  shape_ok unlinked.
Proof.
  pose proof (lo_shape s L HL) as Hsh. unfold unlinked.
  destruct (decide (p = 0)), (decide (n = 0)); (split_and!; [done..|]);
    first [exact Hsh | by apply (shape_set_head s)].
Qed.

Lemma unlinked_head c' :
  idx_ok c' → head_of unlinked c'.1 c'.2 = first 0 (upd L c (l1 ++ l2) c').
Proof.
  intros Hc'. pose proof (lo_shape s L HL) as Hsh.
  assert (head_of unlinked c'.1 c'.2 =
    head_of (if decide (p = 0) then set_head s c.1 c.2 n else s) c'.1 c'.2) as ->
    by (unfold unlinked; by destruct (decide (p = 0)), (decide (n = 0))).
  destruct neighbour_p as [[Hp ->]|(_ & Hne & Hp & _)].
  - rewrite decide_True by done. rewrite head_of_set by done. destruct (decide (c = c')) as [<-|].
    + by rewrite upd_eq.
    + rewrite upd_ne by done. by apply (lo_head s L HL).
  - rewrite decide_False by done. rewrite (lo_head s L HL) by done.
    destruct (decide (c = c')) as [<-|]; [|by rewrite upd_ne].
    rewrite upd_eq, Hsplit. by destruct l1.
Qed.

Lemma rest_empty : head_of unlinked c.1 c.2 = 0 ↔ l1 ++ l2 = [].
Proof.
  rewrite unlinked_head, upd_eq by done. destruct (list_first_in (l1 ++ l2)) as [[-> ->]|[Hin Hne]];
    [done|]. split; [|done]. intros H0. destruct (removed_pos (first 0 (l1 ++ l2))) as [? _]; [|lia].
  apply removed_in. apply elem_of_app in Hin. naive_solver.
Qed.

Lemma index_remove_sl fl :
  0 ≤ fl < 20 →
  sl_map (index_remove unlinked c) fl =
  if decide (c.1 = fl ∧ l1 ++ l2 = [])
  then Z.land (sl_map s fl) (not32 (u32 (Z.shiftl 1 c.2))) else sl_map s fl.
Proof.
  intros Hfl. destruct unlinked_index as (_ & Hsb & Hsh). destruct Hc as [Hc1 _].
  assert (∀ fl, sl_map unlinked fl = sl_map s fl) as Hslm by (intros; unfold sl_map; by rewrite Hsb).
  unfold index_remove. destruct (Z.eqb_spec (head_of unlinked c.1 c.2) 0) as [He%rest_empty|He].
  - set (s2 := set_sl_map unlinked c.1 _).
    transitivity (sl_map s2 fl); [by destruct (sl_map s2 c.1 =? 0)|].
    unfold s2. rewrite sl_map_set, !Hslm by done.
    destruct (decide (c.1 = fl)) as [->|].
    + by rewrite decide_True.
    + by rewrite decide_False by naive_solver.
  - rewrite rest_empty in He. by rewrite decide_False, Hslm by naive_solver.
Qed.

Lemma index_remove_bits c' :
  0 ≤ c'.1 < 20 → 0 ≤ c'.2 →
  Z.testbit (sl_map (index_remove unlinked c) c'.1) c'.2 =
  bool_decide (c'.2 < 16 ∧ upd L c (l1 ++ l2) c' ≠ []).
Proof.
  intros H1 H2. pose proof (lo_sl s L HL c' H1 H2) as Hold. rewrite index_remove_sl by done.
  pose proof Hc as [Hc1 Hc2]. unfold SL_INDEX_COUNT in Hc2.
  destruct (decide (c = c')) as [<-|Hne].
  - rewrite upd_eq. destruct (decide (c.1 = c.1 ∧ l1 ++ l2 = [])) as [[_ He]|He].
    + rewrite clear_bit_spec, Z.eqb_refl by (try apply (lo_sl32 s L HL); lia).
      rewrite andb_false_r. symmetry. apply bool_decide_eq_false. naive_solver.
    + rewrite Hold, Hsplit. rewrite !bool_decide_true; [done|naive_solver|].
      split; [lia|]. by destruct l1.
  - rewrite upd_ne by done. destruct (decide (c.1 = c'.1 ∧ _)) as [[He _]|_]; [|done].
    rewrite clear_bit_spec, Hold by (try apply (lo_sl32 s L HL); lia).
    destruct (Z.eqb_spec c.2 c'.2) as [He2|]; [|by rewrite andb_true_r].
    exfalso. apply Hne. destruct c, c'; simpl in *; congruence.
Qed.

Lemma index_remove_fl fl :
  0 ≤ fl →
  Z.testbit (fl_bitmap (index_remove unlinked c)) fl =
  bool_decide (fl < 20 ∧ sl_map (index_remove unlinked c) fl ≠ 0).
Proof.
  intros Hfl. pose proof (lo_fl s L HL fl Hfl) as Hold. pose proof Hc as [Hc1 _].
  unfold FL_INDEX_MAX in Hc1. destruct unlinked_index as (Hfb & _ & _).
  pose proof (index_remove_sl) as Hsl. unfold index_remove in Hsl |- *.
  destruct (Z.eqb_spec (head_of unlinked c.1 c.2) 0) as [He%rest_empty|He].
  - set (s2 := set_sl_map unlinked c.1 _) in *. change (fl_bitmap s2) with (fl_bitmap unlinked).
    destruct (Z.eqb_spec (sl_map s2 c.1) 0) as [Hz|Hz].
    + change (Z.testbit (Z.land (fl_bitmap unlinked) (not32 (u32 (Z.shiftl 1 c.1)))) fl =
        bool_decide (fl < 20 ∧ sl_map s2 fl ≠ 0)).
      rewrite Hfb, clear_bit_spec, Hold by (try apply (lo_fl32 s L HL); lia).
      destruct (Z.eqb_spec c.1 fl) as [<-|Hne].
      * rewrite andb_false_r. symmetry. apply bool_decide_eq_false. naive_solver.
      * rewrite andb_true_r. apply bool_decide_ext. split; intros [? Hx]; (split; [done|]);
          specialize (Hsl fl ltac:(lia)); rewrite decide_False in Hsl by naive_solver;
          change (sl_map s2 fl = sl_map s fl) in Hsl; congruence.
    + change (fl_bitmap s2) with (fl_bitmap unlinked). rewrite Hfb, Hold.
      apply bool_decide_ext. split; intros [Hlt Hx]; (split; [done|]); specialize (Hsl fl ltac:(lia)).
      * destruct (decide (c.1 = fl)) as [<-|]; [done|].
        rewrite decide_False in Hsl by naive_solver. congruence.
      * destruct (decide (c.1 = fl)) as [<-|].
        -- rewrite decide_True in Hsl by done. intros H0. rewrite H0, Z.land_0_l in Hsl. congruence.
        -- rewrite decide_False in Hsl by naive_solver. congruence.
  - rewrite rest_empty in He. rewrite Hfb, Hold. apply bool_decide_ext.
    split; intros [? Hx]; (split; [done|]); specialize (Hsl fl ltac:(lia));
      rewrite decide_False in Hsl by naive_solver; congruence.
Qed.

Lemma remove_touches : touches H link s (remove_free_block s block).
Proof.
  rewrite remove_eq. fold c. rewrite unlink_eq. eapply touches_trans; [apply unlinked_touches|].
  unfold index_remove. destruct (_ =? 0); [|apply touches_refl]. cbv zeta.
  by destruct (_ =? 0).
Qed.

Lemma index_remove_mem : mem (index_remove unlinked c) = mem unlinked ∧
  blocks (index_remove unlinked c) = blocks unlinked.
Proof. unfold index_remove. destruct (_ =? 0); [|done]. cbv zeta. by destruct (_ =? 0). Qed.

Lemma remove_lists_ok : lists_ok (remove_free_block s block) (upd L c (l1 ++ l2)).
Proof.
  pose proof remove_touches as Ht. rewrite remove_eq in Ht |- *. fold c in Ht |- *.
  rewrite unlink_eq in Ht |- *. destruct index_remove_mem as [Hm Hbl].
  destruct unlinked_index as (Hfb & Hsb & Hsh).
  assert (∀ a, a ∈ l1 ++ l2 → a ∈ L c) as Hin
    by (intros a Ha; apply removed_in; apply elem_of_app in Ha; naive_solver).
  split.
  - unfold index_remove. destruct (_ =? 0); [|done]. cbv zeta.
    destruct (_ =? 0); by apply (shape_set_sl unlinked).
  - unfold index_remove. pose proof (lo_fl32 s L HL).
    destruct (_ =? 0); [cbv zeta; destruct (_ =? 0)|]; simpl; rewrite Hfb; solve_uint.
  - intros fl Hfl. rewrite index_remove_sl by done. pose proof (lo_sl32 s L HL fl Hfl).
    destruct (decide _); solve_uint.
  - intros c' Hc'. unfold head_of. rewrite Hbl. by apply unlinked_head.
  - intros c' Hc'. apply (dseg_frame unlinked).
    + intros a f _ _. unfold rd. by rewrite Hm.
    + by apply unlinked_dseg.
  - intros c' Hc'. destruct (decide (c = c')) as [<-|]; [|rewrite upd_ne by done; by apply (lo_nodup s L HL)].
    rewrite upd_eq. destruct removed_nodup as (? & ? & _ & _ & Hdis).
    apply NoDup_app. split_and!; [done| |done]. exact Hdis.
  - intros c' a Hc' Ha. assert (a ∈ L c') as Ha'.
    { destruct (decide (c = c')) as [<-|].
      - rewrite upd_eq in Ha. by apply Hin.
      - by rewrite upd_ne in Ha. }
    rewrite (touches_block_size _ a Ht) by by apply (member_in c'). by apply (lo_mem s L HL c').
  - apply index_remove_bits.
  - apply index_remove_fl.
Qed.
End remove.
End ops.

(** *** Search *)

Section find.
Variables (s : tlsf_t) (L : Z * Z → list Z).
Hypothesis HL : lists_ok s L.

(** A set bit of the second-level map leads to a member of its class. *)
Lemma head_member fl sl :
  0 ≤ fl < 20 → 0 ≤ sl → Z.testbit (sl_map s fl) sl = true →
  idx_ok (fl, sl) ∧ head_of s fl sl ∈ L (fl, sl).
Proof.
  intros Hfl Hsl Hbit. pose proof (lo_sl s L HL (fl, sl) Hfl Hsl) as Hb. cbn [fst snd] in Hb.
  rewrite Hbit in Hb. symmetry in Hb. apply bool_decide_eq_true in Hb as [Hlt Hne].
  assert (idx_ok (fl, sl)) as Hc by (split; cbn [fst snd]; unfold FL_INDEX_MAX, SL_INDEX_COUNT; lia).
  split; [done|]. pose proof (lo_head s L HL (fl, sl) Hc) as Hh. cbn [fst snd] in Hh.
  rewrite Hh. destruct (L (fl, sl)); [done|]. set_solver.
Qed.

Lemma ffs_masked x n :
  0 ≤ n → uint 32 x → let y := Z.land x (u32 (Z.shiftl 0xFFFFFFFF n)) in
  y ≠ 0 → n ≤ tlsf_ffs y ∧ Z.testbit x (tlsf_ffs y) = true.
Proof.
  intros Hn Hx y Hy. assert (0 < y) as Hpos.
  { assert (0 ≤ y) by (apply Z.land_nonneg; left; apply Hx). lia. }
  destruct (tlsf_ffs_spec y Hpos) as (H0 & Hbit & _). unfold y in Hbit.
  rewrite Z.land_spec, high_mask_testbit in Hbit by done. fold y in Hbit.
  apply andb_true_iff in Hbit as [Hb [Hle%Z.leb_le _]%andb_true_iff]. done.
Qed.

Lemma ffs_any x : uint 32 x → x ≠ 0 → 0 ≤ tlsf_ffs x ∧ Z.testbit x (tlsf_ffs x) = true.
Proof. intros [Hx _] ?. destruct (tlsf_ffs_spec x ltac:(lia)) as (? & ? & _). done. Qed.

(** The class where the search ends, when it ends in one. *)
Lemma find_class size :
  32 ≤ size < 2 ^ 31 →
  let c := mapping_search size in let b := find_suitable_block s size in
  b = 0 ∨ ∃ fl sl, idx_ok (fl, sl) ∧ b ∈ L (fl, sl) ∧ (c.1 < fl ∨ (c.1 = fl ∧ c.2 ≤ sl)).
Proof.
  intros Hs c b. destruct (mapping_search_low size Hs) as (Hfl & Hsl & _).
  unfold b, find_suitable_block. fold c in Hfl, Hsl. fold c. destruct c as [fl sl] eqn:Hc.
  cbn [fst snd] in *. unfold FL_INDEX_MAX. destruct (Z.leb_spec 20 fl) as [|Hlt]; [by left|].
  destruct (Z.eqb_spec (Z.land (sl_map s fl) (u32 (Z.shiftl 0xFFFFFFFF sl))) 0) as [_|Hnz].
  - destruct (Z.eqb_spec (Z.land (fl_bitmap s) (u32 (Z.shiftl 0xFFFFFFFF (fl + 1)))) 0)
      as [_|Hnz]; [by left|right].
    destruct (ffs_masked (fl_bitmap s) (fl + 1) ltac:(lia) (lo_fl32 s L HL) Hnz) as [Hge Hbit].
    set (fl' := tlsf_ffs _) in *.
    rewrite (lo_fl s L HL) in Hbit by lia. apply bool_decide_eq_true in Hbit as [Hlt' Hne].
    destruct (ffs_any (sl_map s fl')) as [H0 Hb]; [apply (lo_sl32 s L HL); lia|done|].
    destruct (head_member fl' (tlsf_ffs (sl_map s fl'))) as [Hi Hin]; [lia|done|done|].
    exists fl', (tlsf_ffs (sl_map s fl')). split_and!; [done|done|left; lia].
  - right. destruct (ffs_masked (sl_map s fl) sl ltac:(lia)) as [Hge Hbit];
      [apply (lo_sl32 s L HL); lia|done|].
    set (sl' := tlsf_ffs _) in *. destruct (head_member fl sl') as [Hi Hin]; [lia|lia|done|].
    exists fl, sl'. split_and!; [done|done|right; lia].
Qed.

(** The block found is free and large enough. *)
Lemma find_sound size :
  32 ≤ size < 2 ^ 31 → find_suitable_block s size ≠ 0 →
  let b := find_suitable_block s size in
  b ∈ L (class_of (block_size s b)) ∧ idx_ok (class_of (block_size s b)) ∧ size ≤ block_size s b.
Proof.
  intros Hs Hnz b. destruct (find_class size Hs) as [|(fl & sl & Hi & Hin & Hge)]; [done|].
  destruct (mapping_search_low size Hs) as (Hfl & Hsl & Hlow).
  destruct (lo_mem s L HL _ _ Hi Hin) as (Hpos & Hsz & Hcl). fold b in Hsz, Hcl, Hin.
  rewrite Hcl. split_and!; [done|apply Hi|].
  pose proof (class_of_low (block_size s b) Hsz) as Hcb. rewrite Hcl in Hcb. cbn [fst snd] in Hcb.
  destruct Hi as [_ Hi2]. cbn [fst snd] in Hi2.
  pose proof (class_low_mono _ _ fl sl Hfl Hsl ltac:(lia) Hge). lia.
Qed.

Lemma find_nonzero size :
  32 ≤ size < 2 ^ 31 → let c := mapping_search size in c.1 < 20 →
  (Z.land (sl_map s c.1) (u32 (Z.shiftl 0xFFFFFFFF c.2)) ≠ 0 ∨
   Z.land (fl_bitmap s) (u32 (Z.shiftl 0xFFFFFFFF (c.1 + 1))) ≠ 0) →
  find_suitable_block s size ≠ 0.
Proof.
  intros Hs c Hlt Hor. destruct (mapping_search_low size Hs) as (Hfl & Hsl & _).
  fold c in Hfl, Hsl. assert (∀ fl sl, 0 ≤ fl < 20 → 0 ≤ sl → Z.testbit (sl_map s fl) sl = true →
    head_of s fl sl ≠ 0) as Hhead.
  { intros fl sl H1 H2 Hb. destruct (head_member fl sl H1 H2 Hb) as [Hi Hin].
    destruct (lo_mem s L HL _ _ Hi Hin). lia. }
  unfold find_suitable_block. fold c. destruct c as [fl sl]. cbn [fst snd] in *.
  unfold FL_INDEX_MAX. destruct (Z.leb_spec 20 fl); [lia|].
  destruct (Z.eqb_spec (Z.land (sl_map s fl) (u32 (Z.shiftl 0xFFFFFFFF sl))) 0) as [Hz|Hnz].
  - destruct (Z.eqb_spec (Z.land (fl_bitmap s) (u32 (Z.shiftl 0xFFFFFFFF (fl + 1)))) 0)
      as [Hz'|Hnz]; [naive_solver|].
    destruct (ffs_masked (fl_bitmap s) (fl + 1) ltac:(lia) (lo_fl32 s L HL) Hnz) as [Hge Hbit].
    rewrite (lo_fl s L HL) in Hbit by lia. apply bool_decide_eq_true in Hbit as [Hlt' Hne].
    destruct (ffs_any _ (lo_sl32 s L HL _ ltac:(split; [|exact Hlt']; lia)) Hne) as [H0 Hb].
    apply Hhead; [lia|done|done].
  - destruct (ffs_masked (sl_map s fl) sl ltac:(lia)) as [Hge Hbit];
      [apply (lo_sl32 s L HL); lia|done|]. apply Hhead; [lia|lia|done].
Qed.

(** The search succeeds when some list holds a block of at least the rounded
    request, below the largest class. *)
Lemma find_complete size a :
  32 ≤ size < 2 ^ 31 → member L a → search_size size ≤ block_size s a < 2 ^ 20 →
  find_suitable_block s size ≠ 0.
Proof.
  intros Hs (ca & Hia & Hin) Hsz. destruct (lo_mem s L HL ca a Hia Hin) as (_ & H32 & Hcl).
  destruct (search_size_bounds size Hs) as [[Hge _] Hlt].
  set (z := search_size size) in *. set (q := block_size s a) in *.
  pose proof (mapping_search_eq size Hs) as Hm. fold z in Hm.
  rewrite mapping_insert_eq in Hm by lia. rewrite class_of_small in Hcl by lia. subst ca.
  assert (Z.log2 z ≤ Z.log2 q) as Hl by (apply Z.log2_le_mono; lia).
  assert (Z.log2 q < 20) as Hq by (apply Z.log2_lt_pow2; lia).
  pose proof (log2_range z ltac:(lia)). destruct (sl_quot z ltac:(lia)) as (Hd & _ & Hqz).
  destruct (sl_quot q ltac:(lia)) as (Hdq & _ & Hqq).
  assert (Z.testbit (sl_map s (Z.log2 q)) (q / 2 ^ (Z.log2 q - 4) - 16) = true) as Hbit.
  { pose proof (lo_sl s L HL (Z.log2 q, q / 2 ^ (Z.log2 q - 4) - 16)) as Hb.
    cbn [fst snd] in Hb. rewrite Hb by lia. apply bool_decide_true. split; [lia|].
    intros He. rewrite He in Hin. set_solver. }
  apply find_nonzero; [done|rewrite Hm; cbn [fst snd]; lia|]. rewrite Hm. cbn [fst snd].
  destruct (decide (Z.log2 z = Z.log2 q)) as [He|Hne]; [left|right]; intros H0.
  - apply (f_equal (λ x, Z.testbit x (q / 2 ^ (Z.log2 q - 4) - 16))) in H0.
    rewrite Z.land_spec, high_mask_testbit, Z.bits_0, He, Hbit in H0 by lia. rewrite <- He in H0.
    assert (z / 2 ^ (Z.log2 z - 4) ≤ q / 2 ^ (Z.log2 z - 4)) by (apply Z.div_le_mono; lia).
    rewrite He in *. rewrite (proj2 (Z.leb_le _ _)), (proj2 (Z.ltb_lt _ _)) in H0 by lia. done.
  - apply (f_equal (λ x, Z.testbit x (Z.log2 q))) in H0.
    rewrite Z.land_spec, high_mask_testbit, Z.bits_0, (lo_fl s L HL) in H0 by lia.
    rewrite bool_decide_true in H0; [|split; [done|intros Hz; by rewrite Hz, Z.bits_0 in Hbit]].
    rewrite (proj2 (Z.leb_le _ _)), (proj2 (Z.ltb_lt _ _)) in H0 by lia. done.
Qed.
End find.
End arch.
