(* ===== verification/TlsfPhys.v ===== *)
(** * Kernel heap: the physical layout of the pool

    The pool as a tiling by blocks, the header each block must have, and how
    header writes act on them. *)

From S2P Require Import Prelude Libc LibcSpec Tlsf TlsfMem TlsfMapping TlsfLists.
From stdpp Require Import prelude gmap list.
From Stdlib Require Import ZArith Lia.
Local Open Scope Z_scope.
Import TLSF.

(** ** Tilings *)

Record blk := mk_blk {
  b_addr : Z;
  b_size : Z;
  b_free : bool;
  b_req : Z;
}.

#[export] Instance eta_blk : Eta blk := λ r, mk_blk (b_addr r) (b_size r) (b_free r) (b_req r).

Section arch.
Context {ar : Arch}.

Definition b_end (b : blk) : Z := b_addr b + 6 * W + b_size b.

(** Blocks laid end to end from [p] to [e], aligned and of legal size. *)
Fixpoint tiles (p : Z) (bs : list blk) (e : Z) : Prop :=
  match bs with
  | [] => p = e
  | b :: bs => b_addr b = p ∧ 32 ≤ b_size b ∧ (8 | b_size b) ∧ tiles (b_end b) bs e
  end.

Definition in_hdr (bs : list blk) (a : Z) : Prop := ∃ b, b ∈ bs ∧ b_addr b = a.

Lemma in_hdr_app l1 l2 a : in_hdr (l1 ++ l2) a ↔ in_hdr l1 a ∨ in_hdr l2 a.
Proof. unfold in_hdr. setoid_rewrite elem_of_app. naive_solver. Qed.

Lemma in_hdr_cons b l a : in_hdr (b :: l) a ↔ b_addr b = a ∨ in_hdr l a.
Proof. unfold in_hdr. setoid_rewrite elem_of_cons. naive_solver. Qed.

Lemma in_hdr_nil a : ¬ in_hdr [] a.
Proof. intros (b & Hb & _). set_solver. Qed.

Lemma tiles_app p l1 l2 e : tiles p (l1 ++ l2) e ↔ ∃ q, tiles p l1 q ∧ tiles q l2 e.
Proof.
  revert p. induction l1 as [|b l1 IH]; intros p; simpl.
  - split; [|by intros (q & -> & ?)]. intros. by exists p.
  - rewrite IH. naive_solver.
Qed.

Lemma tiles_le p bs e : tiles p bs e → p ≤ e.
Proof.
  revert p. induction bs as [|b bs IH]; intros p; simpl; [lia|].
  intros (? & ? & _ & ?%IH). unfold b_end in *. pose proof W_pos. lia.
Qed.

Lemma tiles_bounds p bs e b : tiles p bs e → b ∈ bs → p ≤ b_addr b ∧ b_end b ≤ e ∧ 32 ≤ b_size b ∧ (8 | b_size b).
Proof.
  revert p. induction bs as [|c bs IH]; intros p; simpl; [set_solver|].
  intros (? & ? & ? & Ht) [->|Hb]%elem_of_cons.
  - pose proof (tiles_le _ _ _ Ht). split_and!; try done; lia.
  - destruct (IH _ Ht Hb) as (? & ? & ? & ?). unfold b_end in *. pose proof W_pos. split_and!; try done; lia.
Qed.

Lemma tiles_hdr_bounds p bs e a : tiles p bs e → in_hdr bs a → p ≤ a ∧ a + 6 * W + 32 ≤ e.
Proof.
  intros Ht (b & Hb & <-). destruct (tiles_bounds _ _ _ _ Ht Hb) as (? & ? & ? & _).
  unfold b_end in *. lia.
Qed.

Lemma tiles_separated p bs e : tiles p bs e → separated (in_hdr bs).
Proof.
  revert p. induction bs as [|b bs IH]; intros p; simpl.
  - intros _ a c Ha. by apply in_hdr_nil in Ha.
  - intros (Hp & Hs & _ & Ht) a c. rewrite !in_hdr_cons.
    assert (∀ x, in_hdr bs x → sep (b_addr b) x) as Hb.
    { intros x Hx. destruct (tiles_hdr_bounds _ _ _ _ Ht Hx). unfold b_end, sep in *. lia. }
    intros [<-|Ha] [<-|Hc]; [by left|right; auto|right; apply sep_sym; auto|by apply (IH _ Ht)].
Qed.

Lemma tiles_aligned p bs e b : (8 | p) → tiles p bs e → b ∈ bs → (8 | b_addr b).
Proof.
  revert p. induction bs as [|c bs IH]; intros p Hp; simpl; [set_solver|].
  intros (<- & _ & Hs & Ht) [->|Hb]%elem_of_cons; [done|]. eapply IH; [|exact Ht|done].
  unfold b_end. apply Z.divide_add_r; [apply Z.divide_add_r|]; [done| |done].
  destruct W_pos as [-> | ->]; [by exists 3|by exists 6].
Qed.

(** The block of a list at a header address is unique. *)
Lemma tiles_unique p bs e b c : tiles p bs e → b ∈ bs → c ∈ bs → b_addr b = b_addr c → b = c.
Proof.
  revert p. induction bs as [|d bs IH]; intros p; simpl; [set_solver|].
  intros (Hd & Hs & _ & Ht) [->|Hb]%elem_of_cons [->|Hc]%elem_of_cons He; [done| | |by eapply IH].
  - destruct (tiles_bounds _ _ _ _ Ht Hc). unfold b_end in *. pose proof W_pos. lia.
  - destruct (tiles_bounds _ _ _ _ Ht Hb). unfold b_end in *. pose proof W_pos. lia.
Qed.

Lemma tiles_payload p bs e b c x :
  tiles p bs e → b ∈ bs → c ∈ bs → b_addr b ≤ x < b_end b → b_addr c ≤ x < b_end c → b = c.
Proof.
  revert p. induction bs as [|d bs IH]; intros p; [set_solver|].
  intros (Hd & Hs & _ & Ht) [->|Hb]%elem_of_cons [->|Hc]%elem_of_cons Hxb Hxc; [done| | |by eapply IH].
  - destruct (tiles_bounds _ _ _ _ Ht Hc). lia.
  - destruct (tiles_bounds _ _ _ _ Ht Hb). lia.
Qed.

Lemma tiles_order p bs e b c :
  tiles p bs e → b ∈ bs → c ∈ bs → b = c ∨ b_end b ≤ b_addr c ∨ b_end c ≤ b_addr b.
Proof.
  revert p. induction bs as [|d bs IH]; intros p; [set_solver|].
  intros (Hd & Hs & _ & Ht) [->|Hb]%elem_of_cons [->|Hc]%elem_of_cons; [by left| | |by eapply IH].
  - destruct (tiles_bounds _ _ _ _ Ht Hc). auto.
  - destruct (tiles_bounds _ _ _ _ Ht Hb). auto.
Qed.

(** ** Headers *)

(** What the header of [b] holds; [prev] is the address of the block before it
    when that one is free. *)
Record hdr_ok (s : tlsf_t) (prev : option Z) (b : blk) : Prop := {
  h_size : rd s (b_addr b) f_size =
           size_word (b_size b) (b_free b) (match prev with Some _ => true | None => false end);
  h_prev q : prev = Some q → rd s (b_addr b) f_prev_phys = q;
  h_magic : rd s (b_addr b) f_magic = (if b_free b then BLOCK_MAGIC_FREE else BLOCK_MAGIC_USED);
  h_req : rd s (b_addr b) f_requested = b_req b;
}.

(** The free predecessor that a block passes to the next. *)
Definition as_prev (b : blk) : option Z := if b_free b then Some (b_addr b) else None.
Definition out (prev : option Z) (bs : list blk) : option Z := foldl (λ _ b, as_prev b) prev bs.

Fixpoint hdrs (s : tlsf_t) (prev : option Z) (bs : list blk) : Prop :=
  match bs with
  | [] => True
  | b :: bs => hdr_ok s prev b ∧ hdrs s (as_prev b) bs
  end.

Lemma hdrs_app s prev l1 l2 : hdrs s prev (l1 ++ l2) ↔ hdrs s prev l1 ∧ hdrs s (out prev l1) l2.
Proof.
  revert prev. induction l1 as [|b l1 IH]; intros prev; simpl; [naive_solver|].
  rewrite IH. unfold out. simpl. naive_solver.
Qed.

Lemma out_snoc prev l b : out prev (l ++ [b]) = as_prev b.
Proof. unfold out. by rewrite foldl_app. Qed.

Lemma hdr_ok_ext s s' prev b :
  (∀ f, ¬ link f → rd s' (b_addr b) f = rd s (b_addr b) f) → hdr_ok s prev b → hdr_ok s' prev b.
Proof.
  intros He []. split; intros; rewrite ?He by (by intros [?|?]); auto.
Qed.

Lemma hdrs_ext s s' prev bs :
  (∀ a f, in_hdr bs a → ¬ link f → rd s' a f = rd s a f) → hdrs s prev bs → hdrs s' prev bs.
Proof.
  revert prev. induction bs as [|b bs IH]; intros prev He; simpl; [done|]. intros [Hb Hbs]. split.
  - eapply hdr_ok_ext; [|done]. intros f Hf. apply He; [|done]. apply in_hdr_cons. by left.
  - apply IH; [|done]. intros a f Ha. apply He. apply in_hdr_cons. by right.
Qed.

Lemma hdrs_touches H s s' prev bs :
  touches H link s s' → (∀ a, in_hdr bs a → H a) → hdrs s prev bs → hdrs s' prev bs.
Proof. intros Ht HH. apply hdrs_ext. intros a f Ha Hf. apply (t_fields H link s s' Ht); auto. Qed.

Lemma hdrs_elem s prev bs b : hdrs s prev bs → b ∈ bs → ∃ q, hdr_ok s q b.
Proof.
  revert prev. induction bs as [|c bs IH]; intros prev; simpl; [set_solver|].
  intros [Hc Hbs] [->|Hb]%elem_of_cons; [by exists prev|by eapply IH].
Qed.

(** The size of a block of the pool, as read from its header. *)
Section one.
Variables (s : tlsf_t) (prev : option Z) (b : blk).
Hypothesis Hb : hdr_ok s prev b.
Hypothesis Hsz : size_ok (b_size b).

Lemma hdr_block_size : block_size s (b_addr b) = b_size b.
Proof. eapply block_size_word; [done|apply Hb]. Qed.

Lemma hdr_is_free : block_is_free s (b_addr b) = b_free b.
Proof. eapply block_is_free_word; [done|apply Hb]. Qed.

Lemma hdr_prev_free :
  block_prev_is_free s (b_addr b) = match prev with Some _ => true | None => false end.
Proof. eapply block_prev_is_free_word; [done|apply Hb]. Qed.

Lemma hdr_next : b_end b < 2 ^ (8 * W) → 0 ≤ b_addr b → block_next s (b_addr b) = b_end b.
Proof.
  intros He Ha. unfold block_next. rewrite hdr_block_size, OVERHEAD_eq. apply wrap_small.
  destruct Hsz. unfold uint, b_end in *. pose proof W_pos. lia.
Qed.
End one.
End arch.
