(* ===== verification/TlsfInv.v ===== *)
(** * Kernel heap: the heap invariant and the block operations

    The invariant that ties tiling, headers, free lists and accounting
    together, and the effect of splitting, merging and flag updates on it. *)

From S2P Require Import Prelude Libc LibcSpec Tlsf TlsfMem TlsfMapping TlsfLists TlsfPhys.
From stdpp Require Import prelude gmap list.
From Stdlib Require Import ZArith Lia.
Local Open Scope Z_scope.
Import TLSF.

Section arch.
Context {ar : Arch}.

(** ** Frames *)

Definition same_index (s s' : tlsf_t) : Prop :=
  fl_bitmap s' = fl_bitmap s ∧ sl_bitmap s' = sl_bitmap s ∧ blocks s' = blocks s.

Definition nonlink (f : field) : Prop := ¬ link f.

(** A header operation: writes fields other than links, in headers of [H]. *)
Definition hop (H : Z → Prop) (s s' : tlsf_t) : Prop := touches H nonlink s s' ∧ same_index s s'.

Lemma hop_refl H s : hop H s s.
Proof. split; [apply touches_refl|done]. Qed.

Lemma hop_trans H s1 s2 s3 : hop H s1 s2 → hop H s2 s3 → hop H s1 s3.
Proof.
  intros [T1 (?&?&?)] [T2 (?&?&?)]. split; [by eapply touches_trans|].
  split_and!; congruence.
Qed.

Lemma hop_wr H s b f v : separated H → H b → nonlink f → hop H s (wr s b f v).
Proof. intros. split; [by apply touches_wr|done]. Qed.

Lemma hop_ctl H s s' : hop H s s' → ctl s' = ctl s.
Proof. intros [[] _]. done. Qed.

Lemma ctl_pool s s' : ctl s' = ctl s → pool_start s' = pool_start s ∧ pool_end s' = pool_end s.
Proof.
  intros H. split.
  - exact (f_equal (λ l, nth 0 l 0) H).
  - exact (f_equal (λ l, nth 1 l 0) H).
Qed.

Lemma hop_pool H s s' : hop H s s' → pool_start s' = pool_start s ∧ pool_end s' = pool_end s.
Proof. intros Hh. apply ctl_pool. by eapply hop_ctl. Qed.

(** A header disjoint from the touched ones is unchanged. *)
Lemma touches_rd_sep H F s s' a f :
  touches H F s s' → (∀ x, H x → sep x a) → rd s' a f = rd s a f.
Proof.
  intros Ht Hs. unfold rd. apply ld_ext. intros x Hx. apply (t_bytes H F s s' Ht).
  intros c Hc Hin. specialize (Hs c Hc). unfold sep in Hs. pose proof W_pos.
  destruct f; simpl in Hx; lia.
Qed.

Lemma hop_weaken (H H' : Z → Prop) s s' :
  hop H s s' → separated H' → (∀ a, H a → H' a) → (∀ a, Decision (H a)) → hop H' s s'.
Proof.
  intros [Ht Hi] Hsep Hsub Hdec. split; [|done]. eapply touches_weaken; [done|done|done|].
  intros a Ha. destruct (decide (H a)) as [|Hno]; [by left|right]. intros f.
  eapply touches_rd_sep; [done|]. intros x Hx.
  destruct (Hsep x a) as [->|?]; [auto|done|done|done].
Qed.

Lemma hop_hdrs H s s' prev l :
  hop H s s' → (∀ x a, H x → in_hdr l a → sep x a) → hdrs s prev l → hdrs s' prev l.
Proof.
  intros [Ht _] Hs. apply hdrs_ext. intros a f Ha _. eapply touches_rd_sep; [done|].
  intros x Hx. by apply Hs.
Qed.

Lemma hop_link H s s' a f : hop H s s' → H a → link f → rd s' a f = rd s a f.
Proof. intros [Ht _] Ha Hf. apply (t_fields _ _ _ _ Ht); [done|]. by intros ?. Qed.

(** ** Separation inside a tiling *)

Lemma tiles_app_sep p l1 l2 e a c :
  tiles p (l1 ++ l2) e → in_hdr l1 a → in_hdr l2 c → sep a c.
Proof.
  intros (q & H1 & H2)%tiles_app Ha Hc.
  destruct (tiles_hdr_bounds _ _ _ _ H1 Ha), (tiles_hdr_bounds _ _ _ _ H2 Hc). unfold sep. lia.
Qed.

Record pool_ok (s : tlsf_t) (bs : list blk) : Prop := {
  po_start : 0 < pool_start s;
  po_align : (8 | pool_start s);
  po_end : pool_end s < 2 ^ (8 * W);
  po_small : pool_end s - pool_start s < 2 ^ 32;
  po_tiles : tiles (pool_start s) bs (pool_end s);
}.

Lemma pool_headers s bs : pool_ok s bs → headers_ok (in_hdr bs).
Proof.
  intros []. split; [by eapply tiles_separated|]. intros a Ha.
  destruct (tiles_hdr_bounds _ _ _ _ po_tiles0 Ha). pose proof W_pos. lia.
Qed.

Lemma pool_block s bs b :
  pool_ok s bs → b ∈ bs →
  size_ok (b_size b) ∧ 32 ≤ b_size b < 2 ^ 32 ∧ 0 < b_addr b ∧ b_end b ≤ pool_end s ∧
  pool_start s ≤ b_addr b ∧ b_end b < 2 ^ (8 * W).
Proof.
  intros [] Hb. destruct (tiles_bounds _ _ _ _ po_tiles0 Hb) as (? & ? & ? & ?).
  unfold size_ok, b_end in *. pose proof W_pos. split_and!; try done; lia.
Qed.

Lemma pool_ctl s s' bs : ctl s' = ctl s → pool_ok s bs → pool_ok s' bs.
Proof.
  intros [Hs He]%ctl_pool []. split; by rewrite ?Hs, ?He.
Qed.

(** ** Flag of the following block *)

(** The first block of a tiling suffix, seen by the code as [next < pool_end]. *)
Lemma next_test p l2 e : tiles p l2 e → (p <? e) = match l2 with [] => false | _ => true end.
Proof.
  destruct l2 as [|c l2]; simpl.
  - intros ->. apply Z.ltb_irrefl.
  - intros (<- & ? & _ & Ht). apply Z.ltb_lt. pose proof (tiles_le _ _ _ Ht).
    unfold b_end in *. pose proof W_pos. lia.
Qed.

Definition first_hdr (l : list blk) (a : Z) : Prop := match l with [] => False | c :: _ => a = b_addr c end.

#[local] Instance first_hdr_dec l a : Decision (first_hdr l a).
Proof. destruct l; simpl; apply _. Defined.

(** [next->prev_phys = B; block_set_prev_free(next)] when [next] is in the pool. *)
Definition fix_prev_free (s : tlsf_t) (next B : Z) : tlsf_t :=
  if next <? pool_end s then block_set_prev_free (wr s next f_prev_phys B) next else s.

Lemma first_separated l : separated (first_hdr l).
Proof. intros a b Ha Hb. destruct l; [done|]. simpl in *. left. congruence. Qed.

Lemma cons_sep p c l e a : tiles p (c :: l) e → in_hdr l a → sep (b_addr c) a.
Proof.
  intros Ht Ha. eapply (tiles_app_sep p [c] l); [exact Ht| |done]. apply in_hdr_cons. by left.
Qed.

Lemma first_sep p c l e x a : tiles p (c :: l) e → first_hdr (c :: l) x → in_hdr l a → sep x a.
Proof. intros ? -> ?. by eapply cons_sep. Qed.

Lemma cons_size_ok p c l e : 0 < p → e < 2 ^ (8 * W) → tiles p (c :: l) e → size_ok (b_size c).
Proof.
  intros ? ? (Hc & ? & ? & Ht%tiles_le). unfold size_ok, b_end in *. pose proof W_pos.
  split; [|done]. lia.
Qed.

Section next.
Variables (s : tlsf_t) (p : Z) (l2 : list blk) (prev : option Z).
Hypothesis Htiles : tiles p l2 (pool_end s).
Hypothesis Hhdrs : hdrs s prev l2.
Hypothesis Hpool : 0 < p ∧ pool_end s < 2 ^ (8 * W).

Lemma fix_prev_free_spec B :
  0 ≤ B < 2 ^ (8 * W) →
  hop (first_hdr l2) s (fix_prev_free s p B) ∧ hdrs (fix_prev_free s p B) (Some B) l2.
Proof.
  intros HB. unfold fix_prev_free. rewrite (next_test p l2) by done.
  destruct l2 as [|c l]; [split; [apply hop_refl|done]|].
  destruct Hpool as [Hp0 Hend]. pose proof (cons_size_ok _ _ _ _ Hp0 Hend Htiles) as Hsz.
  pose proof Htiles as (Hp & _). destruct Hhdrs as [Hc Hl]. rewrite <- Hp.
  assert (hop (first_hdr (c :: l)) s (wr s (b_addr c) f_prev_phys B)) as Ht1
    by (apply hop_wr; [apply first_separated|done|by intros [?|?]]).
  erewrite set_prev_free_word; [|exact Hsz|].
  2: { rewrite rd_wr_ne by (left; done). apply (h_size _ _ _ Hc). }
  set (w := size_word _ _ true). set (s1 := wr s _ _ B) in *.
  assert (hop (first_hdr (c :: l)) s (wr s1 (b_addr c) f_size w)) as Ht.
  { eapply hop_trans; [exact Ht1|].
    apply hop_wr; [apply first_separated|done|by intros [?|?]]. }
  split; [exact Ht|]. split.
  - unfold s1. split.
    + rewrite rd_wr_eq; [done|]. by apply size_word_range.
    + intros q [= <-]. rewrite rd_wr_ne by (left; done). by apply rd_wr_eq.
    + rewrite !rd_wr_ne by (left; done). apply Hc.
    + rewrite !rd_wr_ne by (left; done). apply Hc.
  - eapply hop_hdrs; [exact Ht| |exact Hl]. intros x a Hx Ha. by eapply first_sep.
Qed.

(** [block_set_prev_used(next)] when [next] is in the pool. *)
Lemma fix_prev_used_spec :
  let s' := if p <? pool_end s then block_set_prev_used s p else s in
  hop (first_hdr l2) s s' ∧ hdrs s' None l2.
Proof.
  cbv zeta. rewrite (next_test p l2) by done.
  destruct l2 as [|c l]; [split; [apply hop_refl|done]|].
  destruct Hpool as [Hp0 Hend]. pose proof (cons_size_ok _ _ _ _ Hp0 Hend Htiles) as Hsz.
  pose proof Htiles as (Hp & _). destruct Hhdrs as [Hc Hl]. rewrite <- Hp.
  erewrite set_prev_used_word; [|exact Hsz|apply (h_size _ _ _ Hc)].
  set (w := size_word _ _ false).
  assert (hop (first_hdr (c :: l)) s (wr s (b_addr c) f_size w)) as Ht
    by (apply hop_wr; [apply first_separated|done|by intros [?|?]]).
  split; [exact Ht|]. split.
  - split.
    + rewrite rd_wr_eq; [done|]. by apply size_word_range.
    + done.
    + rewrite !rd_wr_ne by (left; done). apply Hc.
    + rewrite !rd_wr_ne by (left; done). apply Hc.
  - eapply hop_hdrs; [exact Ht| |exact Hl]. intros x a Hx Ha. by eapply first_sep.
Qed.
End next.

(** ** A fresh free header *)

(** The header initialisation shared by [split_block] and [tlsf_init]. *)
Definition fresh_free (s : tlsf_t) (a sz P : Z) : tlsf_t :=
  let s := wr s a f_size 0 in
  let s := block_set_size s a sz in
  let s := block_set_free s a in
  let s := block_set_prev_used s a in
  let s := wr s a f_prev_phys P in
  let s := wr s a f_requested 0 in
  wr s a f_magic BLOCK_MAGIC_FREE.

Lemma fresh_free_spec s a sz P :
  size_ok sz →
  hop (eq a) s (fresh_free s a sz P) ∧ hdr_ok (fresh_free s a sz P) None (mk_blk a sz true 0).
Proof.
  intros Hsz. assert (separated (eq a)) as Hsep by (intros x y <- <-; by left).
  unfold fresh_free.
  erewrite set_size_word; [|apply size_ok_0|apply put_zero_word|exact Hsz].
  erewrite set_free_word; [|exact Hsz|apply rd_wr_eq; by apply size_word_range].
  erewrite set_prev_used_word; [|exact Hsz|apply rd_wr_eq; by apply size_word_range].
  split.
  - repeat (eapply hop_trans; [|apply hop_wr; [done|done|by intros [?|?]]]). apply hop_refl.
  - split; cbn [b_addr b_size b_free b_req].
    + rewrite !rd_wr_ne by (left; done). apply rd_wr_eq. by apply size_word_range.
    + done.
    + apply rd_wr_eq. done.
    + rewrite rd_wr_ne by (left; done). apply rd_wr_eq. unfold uint. cbn [field_width].
      destruct pow_W_8 as (_ & ? & _). lia.
Qed.

(** Only the size word of a header is rewritten. *)
Lemma header_resize_spec s prev b sz :
  hdr_ok s prev b → size_ok (b_size b) → size_ok sz →
  hop (eq (b_addr b)) s (block_set_size s (b_addr b) sz) ∧
  hdr_ok (block_set_size s (b_addr b) sz) prev (b <| b_size := sz |>).
Proof.
  intros Hb Hs Hs'. erewrite set_size_word; [|exact Hs|apply (h_size _ _ _ Hb)|exact Hs'].
  split; [apply hop_wr; [intros x y <- <-; by left|done|by intros [?|?]]|].
  split; cbn [b_addr b_size b_free b_req set_field].
  - apply rd_wr_eq. by apply size_word_range.
  - intros q Hq. rewrite rd_wr_ne by (left; done). by apply (h_prev _ _ _ Hb).
  - rewrite rd_wr_ne by (left; done). apply Hb.
  - rewrite rd_wr_ne by (left; done). apply Hb.
Qed.

Lemma hop_hdr_ok H s s' prev b :
  hop H s s' → (∀ x, H x → sep x (b_addr b)) → hdr_ok s prev b → hdr_ok s' prev b.
Proof.
  intros [Ht _] Hs. apply hdr_ok_ext. intros f _. eapply touches_rd_sep; [done|]. apply Hs.
Qed.

Lemma hop_eq_weaken a (H : Z → Prop) s s' : hop (eq a) s s' → separated H → H a → hop H s s'.
Proof. intros Ht Hs Ha. eapply hop_weaken; [exact Ht|done|by intros ? <-|apply _]. Qed.

(** ** Splitting *)

Section split.
Variables (s : tlsf_t) (prev pv : option Z) (b : blk) (l2 : list blk) (size : Z).
Hypothesis Htiles : tiles (b_addr b) (b :: l2) (pool_end s).
Hypothesis Hpool : 0 < b_addr b ∧ pool_end s < 2 ^ (8 * W).
Hypothesis Hb : hdr_ok s prev b.
Hypothesis Hl2 : hdrs s pv l2.
Hypothesis Hsize : 32 ≤ size ∧ (8 | size).

Definition split_rest : blk := mk_blk (b_addr b + 6 * W + size) (b_size b - size - 6 * W) true 0.
Definition split_first : blk := b <| b_size := size |>.

Lemma split_none :
  size + 6 * W + 32 < 2 ^ (8 * W) → b_size b < size + 6 * W + 32 →
  split_block s (b_addr b) size = (None, s).
Proof.
  intros Hlt Hs. destruct Hpool as [Hp He]. pose proof (cons_size_ok _ _ _ _ Hp He Htiles) as Hsz.
  unfold split_block. rewrite (hdr_block_size s prev b Hb Hsz), OVERHEAD_eq. unfold BLOCK_SIZE_MIN.
  rewrite wrap_small by (unfold uint; pose proof W_pos; lia).
  by rewrite (proj2 (Z.ltb_lt _ _)) by lia.
Qed.

Section fits.
Hypothesis Hfit : size + 6 * W + 32 ≤ b_size b.

Lemma split_tiles : tiles (b_addr b) (split_first :: split_rest :: l2) (pool_end s).
Proof.
  destruct Htiles as (_ & _ & [k Hk] & Ht). destruct Hsize as [? [j Hj]].
  assert (tiles (b_end split_rest) l2 (pool_end s)) as Ht2
    by (replace (b_end split_rest) with (b_end b) by (unfold b_end; simpl; lia); done).
  simpl. split_and!; try done; try lia.
  - by exists j.
  - destruct W_pos as [HW|HW]; rewrite HW; [exists (k - j - 3)|exists (k - j - 6)]; lia.
Qed.

Definition split_H (a : Z) : Prop := a = b_addr b ∨ a = b_addr split_rest ∨ first_hdr l2 a.

#[export] Instance split_H_dec a : Decision (split_H a).
Proof. unfold split_H. apply _. Defined.

Lemma split_H_in a : split_H a → in_hdr (split_first :: split_rest :: l2) a.
Proof.
  clear - b l2 size. intros [->|[->|Hf]]; rewrite !in_hdr_cons; [by left|by right; left|].
  right; right. destruct l2; [done|]. apply in_hdr_cons. by left.
Qed.

Lemma split_separated : separated split_H.
Proof.
  intros a c Ha Hc. apply (tiles_separated _ _ _ split_tiles); by apply split_H_in.
Qed.

Lemma split_some :
  ∃ s', split_block s (b_addr b) size = (Some (b_addr split_rest), s') ∧
    hop split_H s s' ∧ hdr_ok s' prev split_first ∧
    hdrs s' None [split_rest] ∧ hdrs s' (as_prev split_rest) l2.
Proof.
  destruct Hpool as [Hp He]. pose proof (cons_size_ok _ _ _ _ Hp He Htiles) as Hsz.
  pose proof split_tiles as Ht. pose proof W_pos as HW. pose proof (proj1 Hsz) as Hszr.
  assert (b_end b ≤ pool_end s) as Hbe by (destruct Htiles as (_&_&_&?%tiles_le); done).
  assert (sep (b_addr b) (b_addr split_rest)) as Hsr by (unfold sep; simpl; lia).
  pose proof Ht as (_ & _ & Hd1 & _ & _ & Hd2 & Ht2).
  assert (size_ok size) as Hs1 by (split; [lia|apply Hsize]).
  assert (size_ok (b_size split_rest)) as Hs2 by (split; [simpl; lia|done]).
  unfold split_block. rewrite (hdr_block_size s prev b Hb Hsz), OVERHEAD_eq. unfold BLOCK_SIZE_MIN.
  unfold b_end in Hbe.
  rewrite (wrap_small _ (size + 6 * W + 32)) by (unfold uint; lia).
  rewrite (proj2 (Z.ltb_ge _ _)) by lia.
  rewrite (wrap_small _ (b_size b - size - 6 * W)) by (unfold uint; lia).
  rewrite (proj2 (Z.ltb_ge _ _)) by lia.
  rewrite (wrap_small _ (b_addr b + 6 * W + size)) by (unfold uint; lia). cbv zeta.
  fold (fresh_free s (b_addr b + 6 * W + size) (b_size b - size - 6 * W) (b_addr b)).
  change (b_addr b + 6 * W + size) with (b_addr split_rest).
  change (b_size b - size - 6 * W) with (b_size split_rest).
  destruct (fresh_free_spec s (b_addr split_rest) (b_size split_rest) (b_addr b) Hs2) as [Hf Hr].
  set (s1 := fresh_free _ _ _ _) in *.
  assert (hdr_ok s1 prev b) as Hb1 by (eapply hop_hdr_ok; [exact Hf|intros ? <-; by apply sep_sym|done]).
  destruct (header_resize_spec s1 prev b size Hb1 Hsz Hs1) as [Hf2 Hb2].
  set (s2 := block_set_size s1 _ _) in *.
  assert (hdr_ok s2 None split_rest) as Hr2 by (eapply hop_hdr_ok; [exact Hf2|by intros ? <-|exact Hr]).
  assert (hop split_H s s2) as Hh2.
  { eapply hop_trans; (eapply hop_eq_weaken; [eassumption|apply split_separated|]);
      unfold split_H; auto. }
  assert (hdrs s2 pv l2) as Hl2'.
  { eapply hop_hdrs; [exact Hf2| |eapply hop_hdrs; [exact Hf| |exact Hl2]].
    - intros ? a <- Ha. by eapply (cons_sep _ b).
    - intros ? a <- Ha. eapply (cons_sep _ split_rest); [exact (proj2 (proj2 (proj2 Ht)))|done]. }
  destruct (hop_pool _ _ _ Hh2) as [_ Hpe].
  rewrite (hdr_next s2 None split_rest Hr2 Hs2); [|unfold b_end; simpl; lia|simpl; lia].
  fold (fix_prev_free s2 (b_end split_rest) (b_addr split_rest)).
  destruct (fix_prev_free_spec s2 (b_end split_rest) l2 pv) with (B := b_addr split_rest)
    as [Hf3 Hl3]; [by rewrite Hpe|done|rewrite Hpe; unfold b_end; simpl; lia|simpl; lia|].
  set (s3 := fix_prev_free _ _ _) in *. exists s3.
  assert (∀ x, first_hdr l2 x → in_hdr l2 x) as Hfi
    by (intros x Hx; destruct l2; [done|]; apply in_hdr_cons; by left).
  split; [done|]. split_and!.
  - eapply hop_trans; [exact Hh2|]. eapply hop_weaken; [exact Hf3|apply split_separated| |apply _].
    unfold split_H; auto.
  - eapply hop_hdr_ok; [exact Hf3| |exact Hb2]. intros x Hx. apply sep_sym.
    eapply (cons_sep _ split_first); [exact Ht|]. apply in_hdr_cons; auto.
  - split; [|done]. eapply hop_hdr_ok; [exact Hf3| |exact Hr2]. intros x Hx. apply sep_sym.
    eapply (cons_sep _ split_rest); [exact (proj2 (proj2 (proj2 Ht)))|auto].
  - exact Hl3.
Qed.
End fits.
End split.
End arch.
