(* ===== verification/TlsfSteps.v ===== *)
(** * Kernel heap: the invariant and its steps

    [heap_inv] is the invariant of the allocator.  Its operations take the heap
    apart around one block ([mid]), transform the pieces step by step, and close
    it again. *)

From S2P Require Import Prelude Libc LibcSpec Tlsf TlsfMem TlsfMapping TlsfLists TlsfPhys TlsfInv.
From stdpp Require Import prelude gmap list.
From Stdlib Require Import ZArith Lia.
Local Open Scope Z_scope.
Import TLSF.

Section arch.
Context {ar : Arch}.
#[local] Abbreviation uW := (wrap (8 * W)).

(** ** The invariant *)

(** No two adjacent free blocks. *)
Fixpoint coal (prev : option Z) (bs : list blk) : Prop :=
  match bs with
  | [] => True
  | b :: bs => ¬ (is_Some prev ∧ b_free b = true) ∧ coal (as_prev b) bs
  end.

Lemma coal_app prev l1 l2 : coal prev (l1 ++ l2) ↔ coal prev l1 ∧ coal (out prev l1) l2.
Proof.
  revert prev. induction l1 as [|b l1 IH]; intros prev; simpl; [naive_solver|].
  rewrite IH. unfold out. simpl. naive_solver.
Qed.

Lemma coal_None prev l : coal prev l → coal None l.
Proof.
  destruct l as [|b l]; [done|]. intros [_ ?]. split; [|done]. intros [[? [=]] _].
Qed.

Lemma coal_some a a' l : coal (Some a) l → coal (Some a') l.
Proof. destruct l as [|b l]; [done|]. intros [Hb ?]. split; [|done]. intros [_ ?]. apply Hb. by split. Qed.

(** Bytes charged to the used blocks. *)
Definition charge (b : blk) : Z := if b_free b then 0 else b_size b + 6 * W.
Definition used_sum (bs : list blk) : Z := foldr (λ b n, charge b + n) 0 bs.

Lemma used_sum_app l1 l2 : used_sum (l1 ++ l2) = used_sum l1 + used_sum l2.
Proof. induction l1 as [|b l1 IH]; simpl; [done|]. rewrite IH. lia. Qed.

Lemma used_sum_cons b l : used_sum (b :: l) = charge b + used_sum l.
Proof. done. Qed.

Lemma used_sum_bounds p bs e : tiles p bs e → 0 ≤ used_sum bs ≤ e - p.
Proof.
  revert p. induction bs as [|b bs IH]; intros p; simpl; [lia|].
  intros (? & ? & _ & H%IH). unfold charge, b_end in *. pose proof W_pos. destruct (b_free b); lia.
Qed.

Definition watermarks_ok (s : tlsf_t) : Prop :=
  total_bytes s = pool_end s - pool_start s ∧
  used_bytes s ≤ high_water_bytes s ≤ total_bytes s ∧
  min_free_bytes s = total_bytes s - high_water_bytes s.

(** A used block has room for its request and the canary. *)
Definition req_ok (b : blk) : Prop := b_free b = false → 0 < b_req b ∧ b_req b + 4 ≤ b_size b.

(** The block [b] is on a free list. *)
Definition free_at (bs : list blk) (a : Z) : Prop := ∃ b, b ∈ bs ∧ b_free b = true ∧ b_addr b = a.

Lemma free_at_app l1 l2 a : free_at (l1 ++ l2) a ↔ free_at l1 a ∨ free_at l2 a.
Proof. unfold free_at. setoid_rewrite elem_of_app. naive_solver. Qed.

Lemma free_at_cons b l a : free_at (b :: l) a ↔ (b_free b = true ∧ b_addr b = a) ∨ free_at l a.
Proof. unfold free_at. setoid_rewrite elem_of_cons. naive_solver. Qed.

Lemma free_at_hdr l a : free_at l a → in_hdr l a.
Proof. intros (b & ? & _ & ?). by exists b. Qed.

Lemma free_at_nil a : ¬ free_at [] a.
Proof. intros (b & Hb & _). set_solver. Qed.

(** ** Membership under list updates *)

Lemma member_insert L c x a : idx_ok c → member (upd L c (x :: L c)) a ↔ a = x ∨ member L a.
Proof.
  intros Hc. split.
  - intros (c' & Hc' & Ha). destruct (decide (c = c')) as [<-|].
    + rewrite upd_eq, elem_of_cons in Ha. destruct Ha; [by left|right; by exists c].
    + rewrite upd_ne in Ha by done. right. by exists c'.
  - intros [->|(c' & Hc' & Ha)].
    + exists c. split; [done|]. rewrite upd_eq. set_solver.
    + exists c'. split; [done|]. destruct (decide (c = c')) as [<-|].
      * rewrite upd_eq. set_solver.
      * by rewrite upd_ne.
Qed.

Lemma member_remove s L c l1 l2 x a :
  lists_ok s L → idx_ok c → L c = l1 ++ x :: l2 →
  member (upd L c (l1 ++ l2)) a ↔ member L a ∧ a ≠ x.
Proof.
  intros HL Hc Hs. pose proof (lo_nodup s L HL c Hc) as Hnd. rewrite Hs in Hnd.
  apply NoDup_app in Hnd as (_ & Hd & [Hx _]%NoDup_cons). split.
  - intros (c' & Hc' & Ha). destruct (decide (c = c')) as [<-|Hne].
    + rewrite upd_eq in Ha. split.
      * exists c. split; [done|]. rewrite Hs. set_solver.
      * intros ->. apply elem_of_app in Ha as [Ha|Ha]; [|done]. apply (Hd _ Ha). set_solver.
    + rewrite upd_ne in Ha by done. split; [by exists c'|]. intros ->.
      eapply (member_ne_class s L c c' x x); [done..| |done|done|done]. rewrite Hs. set_solver.
  - intros [(c' & Hc' & Ha) Hne]. exists c'. split; [done|].
    destruct (decide (c = c')) as [<-|]; [|by rewrite upd_ne].
    rewrite upd_eq. rewrite Hs in Ha. set_solver.
Qed.

(** [M] is the set of blocks on the free lists. *)
Definition listed (s : tlsf_t) (M : Z → Prop) : Prop :=
  ∃ L, lists_ok s L ∧ ∀ a, member L a ↔ M a.

Lemma listed_iff s M M' : (∀ a, M a ↔ M' a) → listed s M → listed s M'.
Proof. intros He (L & HL & Hm). exists L. split; [done|]. intros a. by rewrite Hm. Qed.

Record heap_shape (s : tlsf_t) (bs : list blk) : Prop := {
  hs_pool : pool_ok s bs;
  hs_hdrs : hdrs s None bs;
  hs_listed : listed s (free_at bs);
}.

Record heap_inv (s : tlsf_t) (bs : list blk) : Prop := {
  hi_shape : heap_shape s bs;
  hi_coal : coal None bs;
  hi_used : used_bytes s = used_sum bs;
  hi_req : Forall req_ok bs;
  hi_wm : watermarks_ok s;
}.

(** ** Free-list steps *)

Section listed.
Variables (H : Z → Prop) (s : tlsf_t) (M : Z → Prop).
Hypothesis HH : headers_ok H.
Hypothesis HM : listed s M.
Hypothesis Hin : ∀ a, M a → H a.

Lemma listed_remove x :
  M x →
  listed (remove_free_block s x) (λ a, M a ∧ a ≠ x) ∧ touches H link s (remove_free_block s x).
Proof.
  destruct HM as (L & HL & Hm). intros Hx. assert (∀ a, member L a → H a) by (intros; by apply Hin, Hm).
  apply Hm in Hx as (c & Hc & Hx). destruct (lo_mem s L HL c x Hc Hx) as (_ & _ & <-).
  apply list_elem_of_split in Hx as (l1 & l2 & Hs). split.
  - eexists. split; [by eapply (remove_lists_ok H)|]. intros a.
    rewrite member_remove by done. by rewrite Hm.
  - by eapply remove_touches.
Qed.

Lemma listed_insert x :
  H x → ¬ M x → 32 ≤ block_size s x < 2 ^ 32 →
  listed (insert_free_block s x) (λ a, a = x ∨ M a) ∧ touches H link s (insert_free_block s x).
Proof.
  destruct HM as (L & HL & Hm). intros Hx Hn Hs.
  assert (∀ a, member L a → H a) by (intros; by apply Hin, Hm).
  rewrite <- Hm in Hn. split.
  - eexists. split; [by eapply (insert_lists_ok H)|]. intros a.
    rewrite member_insert by by apply class_of_idx. by rewrite Hm.
  - by eapply insert_touches.
Qed.
End listed.

(** The free lists survive header operations that keep the members' sizes. *)
Lemma listed_hop (H : Z → Prop) s s' M :
  listed s M → hop H s s' → (∀ a, M a → H a ∧ block_size s' a = block_size s a) → listed s' M.
Proof.
  intros (L & HL & Hm) Hh Hs. exists L. split; [|done]. pose proof Hh as [_ (? & ? & ?)].
  eapply lists_ok_frame; [exact HL|done..| |].
  - intros a f Ha%Hm Hf. destruct (Hs a Ha). by eapply hop_link.
  - intros a Ha%Hm. by destruct (Hs a Ha).
Qed.

(** ** The heap around one block *)

Lemma tiles_same p e B B' l1 l2 :
  b_addr B' = b_addr B → b_size B' = b_size B → tiles p (l1 ++ B :: l2) e → tiles p (l1 ++ B' :: l2) e.
Proof.
  intros Ha Hs (q & ? & Ht)%tiles_app. apply tiles_app. exists q. split; [done|].
  revert Ht. simpl. unfold b_end. by rewrite Ha, Hs.
Qed.

Lemma phys_spec s p l2 pv P :
  tiles p l2 (pool_end s) → hdrs s pv l2 → 0 ≤ P < 2 ^ (8 * W) →
  let s' := if p <? pool_end s then wr s p f_prev_phys P else s in
  hop (first_hdr l2) s s' ∧ hdrs s' (const P <$> pv) l2.
Proof.
  intros Ht Hh HP. cbv zeta. rewrite (next_test p l2) by done.
  destruct l2 as [|c l]; [split; [apply hop_refl|done]|].
  pose proof Ht as (<- & _). destruct Hh as [Hc Hl].
  assert (hop (first_hdr (c :: l)) s (wr s (b_addr c) f_prev_phys P)) as Hh1
    by (apply hop_wr; [apply first_separated|done|by intros [?|?]]).
  split; [exact Hh1|]. split.
  - split; rewrite ?rd_wr_ne by (left; done); try apply Hc.
    + rewrite (h_size _ _ _ Hc). by destruct pv.
    + intros q Hq. destruct pv; [|done]. injection Hq as <-. by apply rd_wr_eq.
  - eapply hop_hdrs; [exact Hh1| |exact Hl]. intros x a Hx Ha. by eapply first_sep.
Qed.


(** The block [B] is in hand: the headers before it, its own and those after it
    are right, the ones after it for the predecessor [pv]; [M] is on the free
    lists. *)
Record mid (s : tlsf_t) (l1 : list blk) (B : blk) (pv : option Z) (l2 : list blk)
    (M : Z → Prop) : Prop := {
  m_pool : pool_ok s (l1 ++ B :: l2);
  m_l1 : hdrs s None l1;
  m_b : hdr_ok s (out None l1) B;
  m_l2 : hdrs s pv l2;
  m_listed : listed s M;
  m_sub a : M a → in_hdr (l1 ++ B :: l2) a;
}.

Lemma shape_mid s l1 b l2 :
  heap_shape s (l1 ++ b :: l2) → mid s l1 b (as_prev b) l2 (free_at (l1 ++ b :: l2)).
Proof.
  intros [Hp (? & ? & ?)%hdrs_app Hl]. split; try done. apply free_at_hdr.
Qed.

Lemma mid_shape s l1 B l2 M :
  mid s l1 B (as_prev B) l2 M → (∀ a, M a ↔ free_at (l1 ++ B :: l2) a) →
  heap_shape s (l1 ++ B :: l2).
Proof.
  intros [] Hm. split; [done| |by eapply listed_iff]. by apply hdrs_app.
Qed.

(** Only headers of [bs] changed, and no statistics. *)
Definition hdr_byte (bs : list blk) (x : Z) : Prop := ∃ a, in_hdr bs a ∧ a ≤ x < a + 6 * W.

Record quiet (bs : list blk) (s s' : tlsf_t) : Prop := {
  q_ctl : ctl s' = ctl s;
  q_bytes x : ¬ hdr_byte bs x → ld_byte (mem s') x = ld_byte (mem s) x;
}.

Lemma quiet_refl bs s : quiet bs s s.
Proof. done. Qed.

Lemma quiet_trans bs s1 s2 s3 : quiet bs s1 s2 → quiet bs s2 s3 → quiet bs s1 s3.
Proof. intros [C1 B1] [C2 B2]. split; [congruence|]. intros. by rewrite B2, B1. Qed.

Lemma quiet_mono bs bs' s s' : (∀ a, in_hdr bs a → in_hdr bs' a) → quiet bs s s' → quiet bs' s s'.
Proof.
  intros Hs [C B]. split; [done|]. intros x Hx. apply B. intros (a & Ha & ?). apply Hx.
  exists a. auto.
Qed.

Lemma touches_quiet (H : Z → Prop) F bs s s' :
  touches H F s s' → (∀ a, H a → in_hdr bs a) → quiet bs s s'.
Proof.
  intros [C B _] Hs. split; [done|]. intros x Hx. apply B. intros a Ha Hr. apply Hx.
  exists a. auto.
Qed.

Lemma mid_B (l1 l2 : list blk) B : B ∈ l1 ++ B :: l2.
Proof. set_solver. Qed.

Section mid.
Variables (s : tlsf_t) (l1 : list blk) (B : blk) (pv : option Z) (l2 : list blk) (M : Z → Prop).
Hypothesis Hmid : mid s l1 B pv l2 M.
#[local] Abbreviation bs := (l1 ++ B :: l2).

Lemma mid_headers : headers_ok (in_hdr bs).
Proof. eapply pool_headers, Hmid. Qed.

Lemma mid_elem b : b ∈ bs → ∃ q, hdr_ok s q b.
Proof.
  destruct Hmid. intros [Hb|[->|Hb]%elem_of_cons]%elem_of_app; [|by eexists|];
    eauto using hdrs_elem.
Qed.

Lemma mid_block b :
  b ∈ bs → size_ok (b_size b) ∧ 32 ≤ b_size b < 2 ^ 32 ∧ 0 < b_addr b ∧ b_end b ≤ pool_end s ∧
  pool_start s ≤ b_addr b ∧ b_end b < 2 ^ (8 * W).
Proof. apply pool_block, Hmid. Qed.

Lemma mid_size b : b ∈ bs → block_size s (b_addr b) = b_size b.
Proof.
  intros Hb. destruct (mid_elem b Hb) as [q Hq]. eapply hdr_block_size; [done|]. by apply mid_block.
Qed.

(** A step that only changes free-list links. *)
Lemma mid_links s' M' :
  touches (in_hdr bs) link s s' → listed s' M' → (∀ a, M' a → in_hdr bs a) →
  mid s' l1 B pv l2 M'.
Proof.
  intros Ht Hl Hs. pose proof Hmid as []. split; try done.
  - eapply pool_ctl; [by apply (t_ctl _ _ _ _ Ht)|done].
  - eapply hdrs_touches; [done| |done]. intros a Ha. apply in_hdr_app. by left.
  - eapply hdr_ok_ext; [|done]. intros f Hf. eapply (t_fields _ _ _ _ Ht); [|done].
    apply in_hdr_app. right. apply in_hdr_cons. by left.
  - eapply hdrs_touches; [done| |done]. intros a Ha. apply in_hdr_app. right.
    apply in_hdr_cons. by right.
Qed.

Lemma mid_remove x :
  M x → mid (remove_free_block s x) l1 B pv l2 (λ a, M a ∧ a ≠ x) ∧
        quiet bs s (remove_free_block s x).
Proof.
  intros Hx. pose proof Hmid as [].
  destruct (listed_remove (in_hdr bs) s M mid_headers m_listed0 m_sub0 x Hx) as [Hl Ht].
  split; [apply mid_links; [done|done|naive_solver]|by eapply touches_quiet].
Qed.

Lemma mid_insert x :
  x ∈ bs → ¬ M (b_addr x) →
  mid (insert_free_block s (b_addr x)) l1 B pv l2 (λ a, a = b_addr x ∨ M a) ∧
  quiet bs s (insert_free_block s (b_addr x)).
Proof.
  intros Hx Hn. pose proof Hmid as []. assert (in_hdr bs (b_addr x)) as Hix by (by exists x).
  destruct (listed_insert (in_hdr bs) s M mid_headers m_listed0 m_sub0 (b_addr x)) as [Hl Ht];
    [done|done|rewrite mid_size by done; by apply mid_block|].
  split; [apply mid_links; [done|done|naive_solver]|by eapply touches_quiet].
Qed.
(** A step on the headers, that leaves every block its size. *)
Lemma mid_hop s' B' pv' :
  hop (in_hdr bs) s s' → hdrs s' None l1 → hdr_ok s' (out None l1) B' → hdrs s' pv' l2 →
  b_addr B' = b_addr B → b_size B' = b_size B → mid s' l1 B' pv' l2 M ∧ quiet bs s s'.
Proof.
  intros Hh H1 HB H2 Ha Hs. pose proof Hmid as [[] _ _ _ Hl Hsub]. pose proof mid_block as Hblk.
  destruct (hop_pool _ _ _ Hh) as [Hps Hpe]. pose proof (proj1 Hh) as Ht.
  assert (tiles (pool_start s) (l1 ++ B' :: l2) (pool_end s)) as Htl
    by by apply (tiles_same _ _ B).
  assert (∀ a, in_hdr (l1 ++ B' :: l2) a ↔ in_hdr bs a) as Hsame
    by (intros a; rewrite !in_hdr_app, !in_hdr_cons; by rewrite Ha).
  split; [|by eapply touches_quiet]. split; try done.
  - split; by rewrite ?Hps, ?Hpe.
  - eapply listed_hop; [exact Hl|exact Hh|]. intros a Ham. split; [by apply Hsub|].
    destruct (Hsub a Ham) as (b & Hb & <-). rewrite (mid_size b Hb).
    destruct (Hblk b Hb) as (Hsz & _).
    apply elem_of_app in Hb as [Hb|[->|Hb]%elem_of_cons].
    + destruct (hdrs_elem _ _ _ _ H1 Hb) as [q Hq]. by eapply hdr_block_size.
    + rewrite <- Ha, <- Hs. eapply hdr_block_size; [done|by rewrite Hs].
    + destruct (hdrs_elem _ _ _ _ H2 Hb) as [q Hq]. by eapply hdr_block_size.
  - intros a Ham. apply Hsame. auto.
Qed.

Lemma mid_sep_l1 a : in_hdr l1 a → sep (b_addr B) a.
Proof.
  intros Ha. apply sep_sym. eapply tiles_app_sep; [apply Hmid|done|]. apply in_hdr_cons. by left.
Qed.

Lemma mid_tiles2 : tiles (b_addr B) (B :: l2) (pool_end s) ∧ tiles (b_end B) l2 (pool_end s).
Proof.
  pose proof Hmid as [[_ _ _ _ (p & _ & Ht)%tiles_app] _ _ _ _ _].
  pose proof Ht as (-> & _ & _ & Ht2). done.
Qed.

Lemma mid_sep_l2 a : in_hdr l2 a → sep (b_addr B) a.
Proof. intros Ha. destruct mid_tiles2. by eapply cons_sep. Qed.

Lemma mid_first x : first_hdr l2 x → in_hdr l2 x.
Proof. destruct l2; [done|]. intros ->. apply in_hdr_cons. by left. Qed.

Lemma mid_first_sep x a : first_hdr l2 x → in_hdr l1 a → sep x a.
Proof.
  intros Hx%mid_first Ha. apply sep_sym. eapply tiles_app_sep; [apply Hmid|done|].
  apply in_hdr_cons. by right.
Qed.

(** The header of the block in hand is rewritten. *)
Lemma mid_header s' B' :
  hop (eq (b_addr B)) s s' → hdr_ok s' (out None l1) B' →
  b_addr B' = b_addr B → b_size B' = b_size B → mid s' l1 B' pv l2 M ∧ quiet bs s s'.
Proof.
  intros Hh HB Ha Hs. pose proof Hmid as []. apply mid_hop; try done.
  - eapply hop_eq_weaken; [done|apply mid_headers|]. apply in_hdr_app. right. apply in_hdr_cons. by left.
  - eapply hop_hdrs; [done| |done]. intros ? a <-. apply mid_sep_l1.
  - eapply hop_hdrs; [done| |done]. intros ? a <-. apply mid_sep_l2.
Qed.

(** The header after the block in hand is rewritten. *)
Lemma mid_next_hdr s' pv' :
  hop (first_hdr l2) s s' → hdrs s' pv' l2 → mid s' l1 B pv' l2 M ∧ quiet bs s s'.
Proof.
  intros Hh H2. pose proof Hmid as []. apply mid_hop; try done.
  - eapply hop_weaken; [done|apply mid_headers| |intros a; destruct l2; simpl; apply _].
    intros a Ha%mid_first. apply in_hdr_app. right. apply in_hdr_cons. by right.
  - eapply hop_hdrs; [done| |done]. intros x a. apply mid_first_sep.
  - eapply hop_hdr_ok; [done| |done]. intros x Hx%mid_first. by apply sep_sym, mid_sep_l2.
Qed.

Lemma mid_next : block_next s (b_addr B) = b_end B.
Proof.
  destruct (mid_block B (mid_B _ _ _)) as (? & ? & ? & ? & ? & ?).
  eapply hdr_next; [apply Hmid|done|done|lia].
Qed.

Lemma mid_range : 0 < b_end B ∧ pool_end s < 2 ^ (8 * W) ∧ 0 ≤ b_addr B < 2 ^ (8 * W).
Proof.
  pose proof Hmid as [[] _ _ _ _ _]. destruct (mid_block B (mid_B _ _ _)) as (? & ? & ? & ? & ? & ?).
  unfold b_end in *. pose proof W_pos. lia.
Qed.

Lemma mid_fix_free :
  mid (fix_prev_free s (b_end B) (b_addr B)) l1 B (Some (b_addr B)) l2 M ∧
  quiet bs s (fix_prev_free s (b_end B) (b_addr B)).
Proof.
  destruct mid_tiles2. destruct mid_range as (? & ? & ?).
  destruct (fix_prev_free_spec s (b_end B) l2 pv) with (B := b_addr B) as [Hh Hd];
    [done|apply Hmid|done|done|]. by apply mid_next_hdr.
Qed.

Lemma mid_fix_used :
  let s' := if b_end B <? pool_end s then block_set_prev_used s (b_end B) else s in
  mid s' l1 B None l2 M ∧ quiet bs s s'.
Proof.
  destruct mid_tiles2. destruct mid_range as (? & ? & ?). cbv zeta.
  destruct (fix_prev_used_spec s (b_end B) l2 pv) as [Hh Hd];
    [done|apply Hmid|done|]. by apply mid_next_hdr.
Qed.

(** [next->prev_phys = P] when [next] is in the pool. *)
Lemma mid_phys P :
  0 ≤ P < 2 ^ (8 * W) →
  let s' := if b_end B <? pool_end s then wr s (b_end B) f_prev_phys P else s in
  mid s' l1 B (const P <$> pv) l2 M ∧ quiet bs s s'.
Proof.
  intros HP. destruct mid_tiles2 as [_ Ht]. cbv zeta. pose proof Hmid as [_ _ _ H2 _ _].
  destruct (phys_spec s (b_end B) l2 pv P) as [Hh Hd]; [done..|]. by apply mid_next_hdr.
Qed.
End mid.

(** The block in hand moves to the right, or to the left. *)
Lemma mid_right s l1 B c l2 M :
  mid s l1 B (as_prev B) (c :: l2) M → mid s (l1 ++ [B]) c (as_prev c) l2 M.
Proof.
  intros [? ? ? [] ? ?]. split; rewrite <- ?(assoc_L (++)); try done.
  - by apply hdrs_app.
  - by rewrite out_snoc.
Qed.

Lemma mid_left s l1 p B l2 M :
  mid s (l1 ++ [p]) B (as_prev B) l2 M → mid s l1 p (as_prev p) (B :: l2) M.
Proof.
  intros [? H1 Hb ? ? ?]. rewrite <- (assoc_L (++)) in *. apply hdrs_app in H1 as [? [? _]].
  rewrite out_snoc in Hb. by split.
Qed.

Lemma mid_iff s l1 B pv l2 M M' :
  (∀ a, M a ↔ M' a) → mid s l1 B pv l2 M → mid s l1 B pv l2 M'.
Proof. intros He []. split; try done; [by eapply listed_iff|]. intros a. rewrite <- He. auto. Qed.

(** The joined block of two neighbours. *)
Definition joined (b c : blk) : blk := b <| b_size := b_size b + 6 * W + b_size c |>.

Lemma join_tiles p l1 b c l2 e :
  tiles p (l1 ++ b :: c :: l2) e → tiles p (l1 ++ joined b c :: l2) e.
Proof.
  intros (q & H1 & Ht)%tiles_app. apply tiles_app. exists q. split; [done|].
  destruct Ht as (Hq & ? & [j ?] & Hc & ? & [k ?] & Ht). unfold b_end in *.
  split; [done|]. split; [simpl; pose proof W_pos; lia|]. split.
  - simpl. destruct W_pos as [-> | ->]; [exists (j + k + 3)|exists (j + k + 6)]; lia.
  - unfold b_end. simpl in *. by replace (b_addr b + 6 * W + (b_size b + 6 * W + b_size c))
      with (b_addr c + 6 * W + b_size c) by lia.
Qed.

Lemma join_in l1 b c l2 a :
  in_hdr (l1 ++ joined b c :: l2) a → in_hdr (l1 ++ b :: c :: l2) a.
Proof. rewrite !in_hdr_app, !in_hdr_cons. simpl. tauto. Qed.

(** Two neighbours off the lists are joined by setting the size of the first. *)
Section join.
Variables (s : tlsf_t) (l1 : list blk) (b c : blk) (pv : option Z) (l2 : list blk) (M : Z → Prop).
Hypothesis Hpool : pool_ok s (l1 ++ b :: c :: l2).
Hypothesis Hl1 : hdrs s None l1.
Hypothesis Hb : hdr_ok s (out None l1) b.
Hypothesis Hl2 : hdrs s pv l2.
Hypothesis Hl : listed s M.
Hypothesis Hsub : ∀ a, M a → in_hdr (l1 ++ b :: c :: l2) a.
Hypothesis Hnb : ¬ M (b_addr b).
Hypothesis Hnc : ¬ M (b_addr c).

Lemma join_raw :
  let s' := block_set_size s (b_addr b) (wrap (8 * W) (b_size b + BLOCK_OVERHEAD + b_size c)) in
  mid s' l1 (joined b c) pv l2 M ∧ quiet (l1 ++ b :: c :: l2) s s'.
Proof.
  pose proof Hpool as []. pose proof (join_tiles _ _ _ _ _ _ po_tiles) as Ht.
  destruct (pool_block s (l1 ++ joined b c :: l2) (joined b c)) as (Hsz & Hr & _); [by split|set_solver|].
  destruct (pool_block s _ b Hpool ltac:(set_solver)) as (Hszb & _).
  rewrite OVERHEAD_eq, wrap_small by apply Hsz. cbv zeta.
  destruct (header_resize_spec s _ b _ Hb Hszb Hsz) as [Hh Hb']. set (s' := block_set_size _ _ _) in *.
  assert (∀ a, in_hdr l1 a → sep (b_addr b) a) as Hs1.
  { intros. apply sep_sym. eapply tiles_app_sep; [exact po_tiles|done|]. apply in_hdr_cons. by left. }
  assert (∀ a, in_hdr (c :: l2) a → sep (b_addr b) a) as Hs2.
  { apply tiles_app in po_tiles as (q & _ & Hq). intros. by eapply cons_sep. }
  assert (in_hdr (l1 ++ b :: c :: l2) (b_addr b)) as Hin by (exists b; split; [apply mid_B|done]).
  split; [|eapply touches_quiet; [apply Hh|by intros ? <-]]. split; try done.
  - eapply hop_hdrs; [exact Hh|intros ? a <-; apply Hs1|done].
  - eapply hop_hdrs; [exact Hh| |exact Hl2]. intros ? a <- Ha. apply Hs2. apply in_hdr_cons. by right.
  - eapply (listed_hop (in_hdr (l1 ++ b :: c :: l2))); [done| |].
    + eapply hop_eq_weaken; [exact Hh|by eapply pool_headers|done].
    + intros a Ha. split; [by apply Hsub|]. unfold block_size. f_equal.
      eapply touches_rd_sep; [apply Hh|]. intros ? <-. apply Hsub in Ha as Hia.
      apply in_hdr_app in Hia as [|[<-|]%in_hdr_cons]; [auto|done|auto].
  - intros a Ha. specialize (Hsub a Ha). revert Hsub. rewrite !in_hdr_app, !in_hdr_cons. simpl.
    intros [|[<-|[<-|]]]; tauto.
Qed.
End join.

Lemma mid_join s l1 b c pv l2 M :
  mid s l1 b pv (c :: l2) M → ¬ M (b_addr b) → ¬ M (b_addr c) →
  let s' := block_set_size s (b_addr b) (wrap (8 * W) (b_size b + BLOCK_OVERHEAD + b_size c)) in
  mid s' l1 (joined b c) (as_prev c) l2 M ∧ quiet (l1 ++ b :: c :: l2) s s'.
Proof. intros [? ? ? [? ?] ? ?] ? ?. by apply join_raw. Qed.

Lemma mid_join_prev s l1 p B pv l2 M :
  mid s (l1 ++ [p]) B pv l2 M → ¬ M (b_addr p) → ¬ M (b_addr B) →
  let s' := block_set_size s (b_addr p) (wrap (8 * W) (b_size p + BLOCK_OVERHEAD + b_size B)) in
  mid s' l1 (joined p B) pv l2 M ∧ quiet (l1 ++ p :: B :: l2) s s'.
Proof.
  intros [? [? [? _]]%hdrs_app ? ? ? ?] ? ?. rewrite <- (assoc_L (++)) in *. by apply join_raw.
Qed.

(** ** Which blocks are free *)

Lemma sep_irrefl a : ¬ sep a a.
Proof. unfold sep. pose proof W_pos. lia. Qed.

Lemma tiles_fresh p l1 b l2 e : tiles p (l1 ++ b :: l2) e → ¬ in_hdr (l1 ++ l2) (b_addr b).
Proof.
  intros Ht [Ha|Ha]%in_hdr_app.
  - eapply sep_irrefl, tiles_app_sep; [exact Ht|exact Ha|]. apply in_hdr_cons. by left.
  - apply tiles_app in Ht as (q & _ & Ht). eapply sep_irrefl, cons_sep; [exact Ht|done].
Qed.

Lemma free_at_but l1 b l2 a :
  ¬ in_hdr (l1 ++ l2) (b_addr b) →
  free_at (l1 ++ b :: l2) a ∧ a ≠ b_addr b ↔ free_at (l1 ++ l2) a.
Proof.
  intros Ht. rewrite !free_at_app, free_at_cons. split; [naive_solver|].
  intros Hf. split; [tauto|]. intros ->. apply Ht, free_at_hdr, free_at_app. done.
Qed.

Lemma free_at_used l1 b l2 a :
  b_free b = false → free_at (l1 ++ b :: l2) a ↔ free_at (l1 ++ l2) a.
Proof. intros Hb. rewrite !free_at_app, free_at_cons, Hb. naive_solver. Qed.

Lemma free_at_free l1 b l2 a :
  b_free b = true → free_at (l1 ++ b :: l2) a ↔ a = b_addr b ∨ free_at (l1 ++ l2) a.
Proof. intros Hb. rewrite !free_at_app, free_at_cons, Hb. naive_solver. Qed.

(** Taking a free block off its list. *)
Lemma mid_take s l1 b l2 :
  heap_shape s (l1 ++ b :: l2) → b_free b = true →
  let s' := remove_free_block s (b_addr b) in
  mid s' l1 b (as_prev b) l2 (free_at (l1 ++ l2)) ∧ quiet (l1 ++ b :: l2) s s'.
Proof.
  intros Hs Hb. pose proof (hs_pool _ _ Hs) as []. apply shape_mid in Hs.
  destruct (mid_remove _ _ _ _ _ _ Hs (b_addr b)) as [Hm Hq]; [apply free_at_free; auto|].
  split; [|done]. eapply mid_iff; [|exact Hm]. intros a. eapply free_at_but. by eapply tiles_fresh.
Qed.

(** ** Splitting *)

Lemma mid_split s l1 B pv l2 M size :
  mid s l1 B pv l2 M → ¬ M (b_addr B) → 32 ≤ size ∧ (8 | size) →
  size + 6 * W + 32 ≤ b_size B →
  ∃ s', split_block s (b_addr B) size = (Some (b_addr (split_rest B size)), s') ∧
    mid s' l1 (split_first B size) None (split_rest B size :: l2) M ∧
    quiet (l1 ++ split_first B size :: split_rest B size :: l2) s s'.
Proof.
  intros Hm Hn Hsize Hfit. pose proof Hm as [[] Hl1 Hb Hl2 Hl Hsub].
  destruct (mid_tiles2 _ _ _ _ _ _ Hm) as [Ht _].
  destruct (mid_block _ _ _ _ _ _ Hm B ltac:(set_solver)) as (Hszb & _ & Hpos & _).
  destruct (split_some s (out None l1) pv B l2 size Ht (conj Hpos po_end) Hb Hl2 Hsize Hfit)
    as (s' & Heq & Hh & Hf & [Hr _] & Hl2').
  pose proof (split_tiles s B l2 size Ht Hsize Hfit) as Ht'.
  set (B1 := split_first B size) in *. set (R := split_rest B size) in *.
  assert (tiles (pool_start s) (l1 ++ B1 :: R :: l2) (pool_end s)) as Hta.
  { apply tiles_app in po_tiles as (q & ? & Hq). apply tiles_app. exists q. split; [done|].
    pose proof Hq as (<- & _). exact Ht'. }
  assert (∀ a, split_H B l2 size a → in_hdr (l1 ++ B1 :: R :: l2) a) as HHin
    by (intros a Ha; apply in_hdr_app; right; by apply split_H_in).
  destruct (hop_pool _ _ _ Hh) as [Hps Hpe].
  assert (∀ x a, split_H B l2 size x → in_hdr l1 a → sep x a) as Hs1.
  { intros x a Hx Ha. apply sep_sym. eapply tiles_app_sep; [exact Hta|done|]. by apply split_H_in. }
  exists s'. split; [done|]. split; [|eapply touches_quiet; [apply Hh|exact HHin]]. split; try done.
  - split; by rewrite ?Hps, ?Hpe.
  - eapply hop_hdrs; [exact Hh|exact Hs1|done].
  - eapply (listed_hop (in_hdr (l1 ++ B1 :: R :: l2))); [done| |].
    + eapply hop_weaken; [exact Hh|by eapply tiles_separated|done|apply _].
    + intros a Ha. specialize (Hsub a Ha) as (b & Hb' & <-).
      destruct (mid_block _ _ _ _ _ _ Hm b Hb') as (Hsz & _). rewrite (mid_size _ _ _ _ _ _ Hm b Hb').
      apply elem_of_app in Hb' as [Hb'|[->|Hb']%elem_of_cons]; [|done|].
      * split; [apply in_hdr_app; left; by exists b|].
        destruct (hdrs_elem s None l1 b Hl1 Hb') as [q Hq]. eapply (hdr_block_size _ q); [|done].
        eapply hop_hdr_ok; [exact Hh| |done]. intros x Hx. apply Hs1; [done|by exists b].
      * split; [apply in_hdr_app; right; rewrite !in_hdr_cons; right; right; by exists b|].
        destruct (hdrs_elem _ _ _ _ Hl2' Hb') as [q Hq]. by eapply hdr_block_size.
  - intros a Ha. specialize (Hsub a Ha). revert Hsub. rewrite !in_hdr_app, !in_hdr_cons.
    change (b_addr B1) with (b_addr B). tauto.
Qed.

Lemma mid_nosplit s l1 B pv l2 M size :
  mid s l1 B pv l2 M → 32 ≤ size ∧ (8 | size) → size + 6 * W + 32 < 2 ^ (8 * W) →
  b_size B < size + 6 * W + 32 → split_block s (b_addr B) size = (None, s).
Proof.
  intros Hm Hs Hlt Hf. pose proof Hm as [[] _ Hb Hl2 _ _].
  destruct (mid_block _ _ _ _ _ _ Hm B ltac:(set_solver)) as (_ & _ & Hpos & _).
  eapply split_none; [by eapply mid_tiles2|done|exact Hb|done|done|done].
Qed.

(** ** Steps outside the headers *)

(** Writes outside the headers, and updates of the statistics. *)
Record keeps (bs : list blk) (s s' : tlsf_t) : Prop := {
  k_start : pool_start s' = pool_start s;
  k_end : pool_end s' = pool_end s;
  k_index : same_index s s';
  k_bytes x : hdr_byte bs x → ld_byte (mem s') x = ld_byte (mem s) x;
}.

Lemma keeps_refl bs s : keeps bs s s.
Proof. done. Qed.

Lemma keeps_trans bs s1 s2 s3 : keeps bs s1 s2 → keeps bs s2 s3 → keeps bs s1 s3.
Proof.
  intros [? ? (?&?&?) B1] [? ? (?&?&?) B2]. split; [congruence|congruence|split_and!; congruence|].
  intros x Hx. by rewrite B2, B1.
Qed.

Lemma keeps_rd bs s s' a f : keeps bs s s' → in_hdr bs a → rd s' a f = rd s a f.
Proof.
  intros [_ _ _ Hb] Ha. apply ld_ext. intros x Hx. apply Hb. exists a. split; [done|].
  pose proof W_pos. destruct f; simpl in Hx; lia.
Qed.

Lemma keeps_listed bs s s' M :
  keeps bs s s' → (∀ a, M a → in_hdr bs a) → listed s M → listed s' M.
Proof.
  intros Hk Hs (L & HL & Hm). exists L. split; [|done]. pose proof Hk as [_ _ (?&?&?) _].
  eapply lists_ok_frame; [exact HL|done..| |].
  - intros a f Ha%Hm _. eapply keeps_rd; eauto.
  - intros a Ha%Hm. unfold block_size. f_equal. eapply keeps_rd; eauto.
Qed.

Lemma keeps_hdrs bs s s' prev l :
  keeps bs s s' → (∀ a, in_hdr l a → in_hdr bs a) → hdrs s prev l → hdrs s' prev l.
Proof. intros Hk Hs. apply hdrs_ext. intros a f Ha _. eapply keeps_rd; eauto. Qed.

Lemma keeps_pool bs s s' : keeps bs s s' → pool_ok s bs → pool_ok s' bs.
Proof. intros [Hs He _ _] []. split; by rewrite ?Hs, ?He. Qed.

Lemma keeps_shape bs s s' : keeps bs s s' → heap_shape s bs → heap_shape s' bs.
Proof.
  intros Hk []. split; [by eapply keeps_pool|by eapply keeps_hdrs|].
  eapply keeps_listed; [done|apply free_at_hdr|done].
Qed.

Lemma keeps_mid s s' l1 B pv l2 M :
  keeps (l1 ++ B :: l2) s s' → mid s l1 B pv l2 M → mid s' l1 B pv l2 M.
Proof.
  intros Hk []. split; try done.
  - by eapply keeps_pool.
  - eapply keeps_hdrs; [done| |done]. intros a Ha. apply in_hdr_app. by left.
  - eapply hdr_ok_ext; [|done]. intros f _. eapply keeps_rd; [done|]. apply in_hdr_app. right.
    apply in_hdr_cons. by left.
  - eapply keeps_hdrs; [done| |done]. intros a Ha. apply in_hdr_app. right. apply in_hdr_cons. by right.
  - by eapply keeps_listed.
Qed.

(** A byte in the payload of a block is not in a header. *)
Lemma payload_not_hdr p bs e b x :
  tiles p bs e → b ∈ bs → b_addr b + 6 * W ≤ x < b_end b → ¬ hdr_byte bs x.
Proof.
  revert p. induction bs as [|c bs IH]; intros p; [set_solver|].
  intros (Hc & ? & _ & Ht) Hb Hx (a & [Ha|Ha]%in_hdr_cons & Hax).
  - subst a. apply elem_of_cons in Hb as [->|Hb]; [lia|].
    destruct (tiles_bounds _ _ _ _ Ht Hb) as (? & _). unfold b_end in *. pose proof W_pos. lia.
  - apply elem_of_cons in Hb as [->|Hb].
    + destruct (tiles_hdr_bounds _ _ _ _ Ht Ha). lia.
    + eapply IH; [exact Ht|done|done|]. by exists a.
Qed.

(** ** The canary *)

Lemma canary_bytes m p :
  let v := BLOCK_TAIL_CANARY in
  let m' := st_byte (st_byte (st_byte (st_byte m p (Z.land v 0xff))
              (p + 1) (Z.land (Z.shiftr v 8) 0xff)) (p + 2) (Z.land (Z.shiftr v 16) 0xff))
              (p + 3) (Z.land (Z.shiftr v 24) 0xff) in
  ld_byte m' p = 0x0D ∧ ld_byte m' (p + 1) = 0xF0 ∧ ld_byte m' (p + 2) = 0xAD ∧
  ld_byte m' (p + 3) = 0xBA ∧ ∀ x, x < p ∨ p + 4 ≤ x → ld_byte m' x = ld_byte m x.
Proof.
  cbv zeta. split_and!; intros; rewrite !ld_byte_st_byte;
    repeat (destruct (decide _); [try lia; try reflexivity|]); try lia; done.
Qed.

(** The canary of a used block is intact. *)
Definition canary_at (s : tlsf_t) (b : blk) : Prop :=
  let p := b_addr b + 6 * W + b_req b in
  ld_byte (mem s) p = 0x0D ∧ ld_byte (mem s) (p + 1) = 0xF0 ∧
  ld_byte (mem s) (p + 2) = 0xAD ∧ ld_byte (mem s) (p + 3) = 0xBA.

Section canary.
Variables (s : tlsf_t) (q : option Z) (b : blk).
Hypothesis Hb : hdr_ok s q b.
Hypothesis Hsz : size_ok (b_size b).
Hypothesis Hend : b_end b < 2 ^ (8 * W).
Hypothesis Hpos : 0 < b_addr b.
Hypothesis Hreq : 0 < b_req b ∧ b_req b + 4 ≤ b_size b.

Lemma canary_ptr k :
  0 ≤ k ≤ 3 → uW (uW (block_to_ptr (b_addr b) + b_req b) + k) = b_addr b + 6 * W + b_req b + k.
Proof.
  intros Hk. unfold block_to_ptr. rewrite OVERHEAD_eq. unfold b_end in Hend. pose proof W_pos.
  rewrite !wrap_small; unfold uint; try lia; rewrite ?wrap_small; unfold uint; try lia;
    rewrite ?wrap_small; unfold uint; lia.
Qed.

Lemma canary_ptr0 : uW (block_to_ptr (b_addr b) + b_req b) = b_addr b + 6 * W + b_req b.
Proof.
  unfold block_to_ptr. rewrite OVERHEAD_eq. unfold b_end in Hend. pose proof W_pos.
  rewrite !wrap_small; unfold uint; try lia; rewrite ?wrap_small; unfold uint; lia.
Qed.

Lemma canary_guard : (block_size s (b_addr b) <? uW (rd s (b_addr b) f_requested + BLOCK_CANARY_SIZE)) = false.
Proof.
  rewrite (hdr_block_size s q b Hb Hsz), (h_req _ _ _ Hb). unfold BLOCK_CANARY_SIZE.
  destruct Hsz. rewrite wrap_small by (unfold uint; lia). apply Z.ltb_ge. lia.
Qed.

Lemma tail_canary_ok_iff : tail_canary_ok s (b_addr b) = true ↔ canary_at s b.
Proof.
  unfold tail_canary_ok. rewrite canary_guard, (h_req _ _ _ Hb), !canary_ptr by lia.
  rewrite canary_ptr0.
  unfold canary_at. set (p := b_addr b + 6 * W + b_req b).
  pose proof (ld_byte_range (mem s) p) as R0. pose proof (ld_byte_range (mem s) (p + 1)) as R1.
  pose proof (ld_byte_range (mem s) (p + 2)) as R2. pose proof (ld_byte_range (mem s) (p + 3)) as R3.
  generalize dependent (ld_byte (mem s) p). generalize dependent (ld_byte (mem s) (p + 1)).
  generalize dependent (ld_byte (mem s) (p + 2)). generalize dependent (ld_byte (mem s) (p + 3)).
  intros d Hd c Hc e He a Ha. rewrite Z.eqb_eq.
  assert (Z.lor (Z.lor (Z.lor a (Z.shiftl e 8)) (Z.shiftl c 16)) (u32 (Z.shiftl d 24)) =
          ((d * 256 + c) * 256 + e) * 256 + a) as ->.
  { rewrite (wrap_small 32) by (unfold uint in *; rewrite Z.shiftl_mul_pow2; lia).
    rewrite (Z.lor_comm a), (lor_shiftl_add 8) by (done || lia).
    rewrite (Z.lor_comm _ (Z.shiftl c 16)), (lor_shiftl_add 16) by (unfold uint in *; lia).
    rewrite (Z.lor_comm _ (Z.shiftl d 24)), (lor_shiftl_add 24) by (unfold uint in *; lia). lia. }
  unfold BLOCK_TAIL_CANARY, uint in *. lia.
Qed.

Lemma write_canary_spec :
  let s' := write_tail_canary s (b_addr b) in
  canary_at s' b ∧ ctl s' = ctl s ∧ same_index s s' ∧
  ∀ x, x < b_addr b + 6 * W + b_req b ∨ b_addr b + 6 * W + b_req b + 4 ≤ x →
       ld_byte (mem s') x = ld_byte (mem s) x.
Proof.
  unfold write_tail_canary. rewrite canary_guard, (h_req _ _ _ Hb). cbv zeta.
  rewrite !canary_ptr by lia.
  rewrite canary_ptr0.
  set (p := b_addr b + 6 * W + b_req b).
  destruct (canary_bytes (mem s) p) as (? & ? & ? & ? & ?). split_and!; done.
Qed.
End canary.

(** Marking the block in hand used: [block_set_used], [requested], [magic] and
    the canary. *)
Definition mark_used (s : tlsf_t) (a n : Z) : tlsf_t :=
  let s := wr s a f_requested n in
  let s := wr s a f_magic BLOCK_MAGIC_USED in
  write_tail_canary s a.

Definition used_as (b : blk) (n : Z) : blk := mk_blk (b_addr b) (b_size b) false n.

Lemma mid_mark_used s s0 l1 B pv l2 M n :
  mid s l1 B pv l2 M → 0 < n → n + 4 ≤ b_size B → hop (eq (b_addr B)) s s0 →
  rd s0 (b_addr B) f_size =
    size_word (b_size B) false (match out None l1 with Some _ => true | None => false end) →
  rd s0 (b_addr B) f_prev_phys = rd s (b_addr B) f_prev_phys →
  let s' := mark_used s0 (b_addr B) n in
  mid s' l1 (used_as B n) pv l2 M ∧ canary_at s' (used_as B n) ∧
  ctl s' = ctl s ∧
  ∀ x, ¬ hdr_byte (l1 ++ B :: l2) x →
       ¬ b_addr B + 6 * W + n ≤ x < b_addr B + 6 * W + n + 4 → ld_byte (mem s') x = ld_byte (mem s) x.
Proof.
  intros Hm Hn Hfit H0 Hw Hpp. cbv zeta. unfold mark_used. set (s1 := wr (wr _ _ _ _) _ _ _).
  destruct (mid_block _ _ _ _ _ _ Hm B ltac:(set_solver)) as (Hsz & ? & Hpos & ? & ? & ?).
  assert (hop (eq (b_addr B)) s s1) as Hh.
  { assert (separated (eq (b_addr B))) by (intros ? ? <- <-; by left).
    repeat (eapply hop_trans; [|apply hop_wr; [done|done|by intros [?|?]]]). exact H0. }
  assert (hdr_ok s1 (out None l1) (used_as B n)) as Hb.
  { pose proof (m_b _ _ _ _ _ _ Hm) as HB. unfold s1. split; cbn [b_addr b_size b_free b_req used_as].
    - by rewrite !rd_wr_ne by (left; done).
    - intros q Hq. rewrite !rd_wr_ne, Hpp by (left; done). by apply HB.
    - by apply rd_wr_eq.
    - rewrite rd_wr_ne by (left; done). apply rd_wr_eq. unfold uint. cbn [field_width].
      destruct Hsz. lia. }
  destruct (mid_header _ _ _ _ _ _ Hm s1 (used_as B n) Hh Hb) as [Hm1 [Hc1 Hq1]]; [done..|].
  destruct (write_canary_spec s1 (out None l1) (used_as B n) Hb Hsz) as (Hcan & Hctl & Hix & Hby);
    [done|done|done|]. change (b_addr (used_as B n)) with (b_addr B) in *.
  change (b_req (used_as B n)) with n in *. set (s2 := write_tail_canary s1 (b_addr B)) in *.
  split_and!; [|done|congruence|].
  - eapply keeps_mid; [|exact Hm1]. destruct (ctl_pool _ _ Hctl). split; [done..|].
    intros x Hx. apply Hby. destruct (decide (x < b_addr B + 6 * W + n)); [by left|right].
    destruct (decide (b_addr B + 6 * W + n + 4 ≤ x)); [done|]. exfalso.
    eapply payload_not_hdr; [apply Hm1| | |exact Hx]; [by apply mid_B|].
    unfold b_end. simpl. lia.
  - intros x Hx Hnc. rewrite Hby by lia. by apply Hq1.
Qed.

(** ** The allocations *)

(** The live allocations: their pointers and requested sizes. *)
Definition alloc_of (b : blk) : option (Z * Z) :=
  if b_free b then None else Some (b_addr b + 6 * W, b_req b).
Definition allocs (bs : list blk) : list (Z * Z) := omap alloc_of bs.

Lemma allocs_app l1 l2 : allocs (l1 ++ l2) = allocs l1 ++ allocs l2.
Proof. apply omap_app. Qed.

Lemma allocs_free b l : b_free b = true → allocs (b :: l) = allocs l.
Proof. intros Hb. unfold allocs, alloc_of. simpl. by rewrite Hb. Qed.

Lemma allocs_used b l : b_free b = false → allocs (b :: l) = (b_addr b + 6 * W, b_req b) :: allocs l.
Proof. intros Hb. unfold allocs, alloc_of. simpl. by rewrite Hb. Qed.

Lemma allocs_elem p n bs :
  (p, n) ∈ allocs bs ↔ ∃ b, b ∈ bs ∧ b_free b = false ∧ b_addr b = p - 6 * W ∧ b_req b = n.
Proof.
  unfold allocs. rewrite list_elem_of_omap. apply exist_proper. intros b. unfold alloc_of.
  destruct (b_free b); [naive_solver|]. split.
  - intros [? [= <- <-]]. split_and!; [done..|lia|done].
  - intros (? & _ & Ha & <-). split; [done|]. f_equal. f_equal. lia.
Qed.

(** The contents of the used blocks are kept. *)
Definition kept (bs : list blk) (s s' : tlsf_t) : Prop :=
  ∀ b x, b ∈ bs → b_free b = false → b_addr b + 6 * W ≤ x < b_end b →
    ld_byte (mem s') x = ld_byte (mem s) x.

(** Every canary is intact. *)
Definition canaries (s : tlsf_t) (bs : list blk) : Prop :=
  ∀ b, b ∈ bs → b_free b = false → canary_at s b.

Lemma kept_canary s s' bs b :
  kept bs s s' → b ∈ bs → b_free b = false → req_ok b → canary_at s b → canary_at s' b.
Proof.
  intros Hk Hb Hf Hr Hc. destruct (Hr Hf) as [? ?]. unfold canary_at in *.
  assert (∀ k, 0 ≤ k < 4 → ld_byte (mem s') (b_addr b + 6 * W + b_req b + k) =
    ld_byte (mem s) (b_addr b + 6 * W + b_req b + k)) as He
    by (intros k Hk'; eapply Hk; [done|done|unfold b_end; lia]).
  pose proof (He 0 ltac:(lia)) as He0. rewrite Z.add_0_r in He0.
  by rewrite He0, !He by lia.
Qed.

Lemma kept_trans bs s1 s2 s3 : kept bs s1 s2 → kept bs s2 s3 → kept bs s1 s3.
Proof. intros H1 H2 b x ? ? ?. by rewrite (H2 b x), (H1 b x). Qed.

(** The used blocks. *)
Definition live (bs : list blk) : list blk := filter (λ b, b_free b = false) bs.

Lemma live_app l1 l2 : live (l1 ++ l2) = live l1 ++ live l2.
Proof. apply filter_app. Qed.

Lemma live_free b l : b_free b = true → live (b :: l) = live l.
Proof. intros Hb. unfold live. rewrite filter_cons_False; [done|]. congruence. Qed.

Lemma live_used b l : b_free b = false → live (b :: l) = b :: live l.
Proof. intros Hb. unfold live. by rewrite filter_cons_True. Qed.

Lemma live_elem b bs : b ∈ live bs ↔ b_free b = false ∧ b ∈ bs.
Proof. unfold live. by rewrite list_elem_of_filter. Qed.

Lemma used_sum_live bs : used_sum (live bs) = used_sum bs.
Proof.
  induction bs as [|b bs IH]; [done|]. destruct (b_free b) eqn:Hb.
  - rewrite live_free, IH by done. rewrite used_sum_cons. unfold charge. by rewrite Hb.
  - rewrite live_used by done. rewrite !used_sum_cons. lia.
Qed.

Lemma allocs_live bs : allocs (live bs) = allocs bs.
Proof.
  induction bs as [|b bs IH]; [done|]. destruct (b_free b) eqn:Hb.
  - by rewrite live_free, IH, allocs_free.
  - by rewrite live_used, !allocs_used, IH.
Qed.

Lemma req_live bs bs' :
  Forall req_ok bs → (∀ b, b ∈ live bs' → b ∈ bs) → Forall req_ok bs'.
Proof.
  rewrite !Forall_forall. intros Hr Hs b Hb Hf. apply Hr; [|done]. apply Hs. by apply live_elem.
Qed.

(** ** Statistics *)

Lemma update_watermarks_keeps bs s : keeps bs s (update_watermarks s).
Proof. unfold update_watermarks. split; repeat (case_match; try done). Qed.

Lemma update_watermarks_mem s :
  mem (update_watermarks s) = mem s ∧ used_bytes (update_watermarks s) = used_bytes s.
Proof. unfold update_watermarks. repeat (case_match; try done). Qed.

Lemma update_watermarks_ok s :
  total_bytes s = pool_end s - pool_start s → uint (8 * W) (total_bytes s) →
  0 ≤ used_bytes s ≤ total_bytes s → high_water_bytes s ≤ total_bytes s →
  min_free_bytes s = total_bytes s - high_water_bytes s →
  watermarks_ok (update_watermarks s).
Proof.
  intros Ht Hw Hu Hh Hm. unfold update_watermarks, watermarks_ok, uint in *.
  destruct (Z.ltb_spec (high_water_bytes s) (used_bytes s)) as [Hlt|Hge]; cbn;
    rewrite (proj2 (Z.leb_le _ _)) by lia; rewrite wrap_small by (unfold uint; lia).
  - destruct (Z.ltb_spec (total_bytes s - used_bytes s) (min_free_bytes s)); cbn; split_and!; lia.
  - destruct (Z.ltb_spec (total_bytes s - used_bytes s) (min_free_bytes s)); cbn; split_and!; lia.
Qed.
End arch.
