(* ===== verification/TlsfMalloc.v ===== *)
(** * Kernel heap: [tlsf_malloc]

    [tlsf_malloc] preserves the heap invariant, and what it returns. *)

From S2P Require Import Prelude Libc LibcSpec Tlsf TlsfMem TlsfMapping TlsfLists TlsfPhys TlsfInv TlsfSteps.
From stdpp Require Import prelude gmap list.
From Stdlib Require Import ZArith Lia.
Local Open Scope Z_scope.
Import TLSF.

Section arch.
Context {ar : Arch}.
#[local] Abbreviation uW := (wrap (8 * W)).

(** ** The internal size *)

Lemma align_8 x : 0 ≤ x → x + 7 < 2 ^ (8 * W) → ALIGN_UP x 8 = 8 * ((x + 7) / 8).
Proof.
  intros Hx Hlt. unfold ALIGN_UP. rewrite (wrap_small _ (x + (8 - 1))) by (unfold uint; lia).
  replace (x + (8 - 1)) with (x + 7) by lia. rewrite land_wrap_r by (unfold uint; pose proof W_pos; lia).
  change (Z.lnot (8 - 1)) with (Z.lnot (Z.ones 3)). rewrite <- Z.ldiff_land.
  rewrite Z.ldiff_ones_r, Z.shiftr_div_pow2, Z.shiftl_mul_pow2 by lia. change (2 ^ 3) with 8. lia.
Qed.

(** The internal size of a request. *)
Definition internal (n : Z) : Z := Z.max 32 (8 * ((n + 11) / 8)).

Lemma internal_bounds n :
  0 < n → n + 4 ≤ internal n ∧ internal n < Z.max 33 (n + 12) ∧ 32 ≤ internal n ∧ (8 | internal n).
Proof.
  intros Hn. unfold internal. pose proof (Z.div_mod (n + 11) 8 ltac:(lia)).
  pose proof (Z.mod_pos_bound (n + 11) 8 ltac:(lia)). split_and!; try lia.
  destruct (Z.max_spec 32 (8 * ((n + 11) / 8))) as [[_ ->]|[_ ->]]; [|by exists 4].
  exists ((n + 11) / 8). lia.
Qed.

Lemma size_with_canary_ok n :
  0 < n → n + 11 < 2 ^ (8 * W) → size_with_canary n = Some (internal n).
Proof.
  intros Hn Hlt. unfold size_with_canary, SIZE_MAX, BLOCK_CANARY_SIZE, BLOCK_ALIGN, BLOCK_SIZE_MIN.
  rewrite (proj2 (Z.ltb_ge _ _)) by lia. rewrite wrap_small by (unfold uint; lia).
  rewrite align_8 by lia. replace (n + 4 + 7) with (n + 11) by lia. f_equal.
  unfold internal. destruct (Z.ltb_spec (8 * ((n + 11) / 8)) 32); lia.
Qed.

(** ** Cutting a block down to size *)

(** Split the block in hand, the rest going to the free lists. *)
Definition carve (s : tlsf_t) (block size : Z) : tlsf_t :=
  let '(remain, s) := split_block s block size in
  match remain with Some r => insert_free_block s r | None => s end.

Definition cut (B : blk) (l2 : list blk) (size : Z) : blk * list blk :=
  if size + 6 * W + 32 <=? b_size B then (split_first B size, split_rest B size :: l2) else (B, l2).

Lemma cut_addr B l2 size : b_addr (cut B l2 size).1 = b_addr B.
Proof. unfold cut. by destruct (_ <=? _). Qed.

Lemma cut_size B l2 size :
  size ≤ b_size B → size ≤ b_size (cut B l2 size).1 ≤ b_size B.
Proof. intros. unfold cut. destruct (Z.leb_spec (size + 6 * W + 32) (b_size B)); simpl; pose proof W_pos; lia. Qed.

Lemma cut_in l1 B l2 size a :
  in_hdr (l1 ++ B :: l2) a → in_hdr (l1 ++ (cut B l2 size).1 :: (cut B l2 size).2) a.
Proof.
  unfold cut. destruct (_ <=? _); [|done]. cbn [fst snd]. rewrite !in_hdr_app, !in_hdr_cons. simpl. tauto.
Qed.

Lemma mid_carve s l1 B pv l2 size :
  mid s l1 B pv l2 (free_at (l1 ++ l2)) → 32 ≤ size ∧ (8 | size) → size < 2 ^ 31 → size ≤ b_size B →
  let B' := (cut B l2 size).1 in let l2' := (cut B l2 size).2 in
  let s' := carve s (b_addr B) size in
  ∃ pv', mid s' l1 B' pv' l2' (free_at (l1 ++ l2')) ∧ quiet (l1 ++ B' :: l2') s s'.
Proof.
  intros Hm Hs Hlt Hle. pose proof (m_pool _ _ _ _ _ _ Hm) as []. pose proof W_pos.
  destruct pow_W_8 as (_ & Hp & _).
  assert (¬ free_at (l1 ++ l2) (b_addr B)) as Hn.
  { intros Hf%free_at_hdr. eapply tiles_fresh; [exact po_tiles|done]. }
  unfold carve, cut. destruct (Z.leb_spec (size + 6 * W + 32) (b_size B)) as [Hfit|Hno]; cbn [fst snd].
  - destruct (mid_split _ _ _ _ _ _ _ Hm Hn Hs Hfit) as (s1 & -> & Hm1 & Hq1). exists None.
    set (R := split_rest B size) in *. set (B1 := split_first B size) in *.
    pose proof (m_pool _ _ _ _ _ _ Hm1) as [_ _ _ _ Ht].
    destruct (mid_insert _ _ _ _ _ _ Hm1 R) as [Hm2 Hq2]; [set_solver| |].
    { intros Hf%free_at_hdr. revert Hf. rewrite in_hdr_app. pose proof (tiles_fresh (pool_start s1) (l1 ++ [B1]) R l2 (pool_end s1)) as Hfr.
      rewrite <- !(assoc_L (++)) in Hfr. specialize (Hfr Ht). rewrite !in_hdr_app in Hfr. tauto. }
    split; [|by eapply quiet_trans]. eapply mid_iff; [|exact Hm2]. intros a. by rewrite free_at_free.
  - rewrite (mid_nosplit _ _ _ _ _ _ _ Hm Hs) by lia. by exists pv.
Qed.

(** ** Placing a request in a free block *)

Definition place (s : tlsf_t) (block size n : Z) : tlsf_t :=
  let s := carve (remove_free_block s block) block size in
  let s := mark_used (block_set_used s block) block n in
  let next := block_next s block in
  if next <? pool_end s then block_set_prev_used s next else s.

(** Adding the block to the statistics. *)
Definition account (s : tlsf_t) (block : Z) : tlsf_t :=
  let s := s <| used_bytes := uW (used_bytes s + accounted_block_size s block) |> in
  let s := s <| alloc_count := uW (alloc_count s + 1) |> in
  update_watermarks s.

Lemma malloc_eq s n :
  0 < n → n + 11 < 2 ^ (8 * W) →
  let block := find_suitable_block s (internal n) in
  tlsf_malloc s n =
    if block =? 0 then (0, count_alloc_fail s)
    else (block_to_ptr block, account (place s block (internal n) n) block).
Proof.
  intros Hn Hlt block. unfold tlsf_malloc. rewrite (proj2 (Z.eqb_neq _ _)) by lia.
  rewrite size_with_canary_ok by done. fold block. destruct (block =? 0); [done|].
  unfold place, carve. destruct (split_block _ _ _) as [r s1]. cbv beta iota.
  generalize (match r with Some r0 => insert_free_block s1 r0 | None => s1 end). intros s2.
  unfold mark_used, account. reflexivity.
Qed.

Lemma hdr_byte_mono bs bs' x : (∀ a, in_hdr bs a → in_hdr bs' a) → hdr_byte bs x → hdr_byte bs' x.
Proof. intros Hs (a & ? & ?). exists a. auto. Qed.

Lemma used_as_in l1 B n l2 a : in_hdr (l1 ++ used_as B n :: l2) a ↔ in_hdr (l1 ++ B :: l2) a.
Proof. by rewrite !in_hdr_app, !in_hdr_cons. Qed.

Lemma used_as_byte l1 B n l2 x : hdr_byte (l1 ++ used_as B n :: l2) x ↔ hdr_byte (l1 ++ B :: l2) x.
Proof. unfold hdr_byte. by setoid_rewrite used_as_in. Qed.

Section place.
Variables (s : tlsf_t) (l1 l2 : list blk) (b : blk) (size n : Z).
Hypothesis Hshape : heap_shape s (l1 ++ b :: l2).
Hypothesis Hfree : b_free b = true.
Hypothesis Hsize : 32 ≤ size ∧ (8 | size).
Hypothesis Hlt : size < 2 ^ 31.
Hypothesis Hle : size ≤ b_size b.
Hypothesis Hn : 0 < n ∧ n + 4 ≤ size.

Let B := used_as (cut b l2 size).1 n.
Let l2' := (cut b l2 size).2.
Let s' := place s (b_addr b) size n.

Lemma place_spec :
  heap_shape s' (l1 ++ B :: l2') ∧ canary_at s' B ∧ ctl s' = ctl s ∧
  ∀ x, ¬ hdr_byte (l1 ++ B :: l2') x →
       ¬ b_addr B + 6 * W + n ≤ x < b_addr B + 6 * W + n + 4 → ld_byte (mem s') x = ld_byte (mem s) x.
Proof.
  destruct (mid_take s l1 b l2 Hshape Hfree) as [Hm1 Hq1].
  destruct (mid_carve _ _ _ _ _ size Hm1 Hsize Hlt Hle) as (pv & Hm2 & Hq2).
  unfold s', place. set (s2 := carve _ _ _) in *. set (C := (cut b l2 size).1) in *.
  assert (b_addr C = b_addr b) as Ha by apply cut_addr.
  pose proof (cut_size b l2 size Hle) as Hsz. fold C in Hsz.
  destruct (mid_block _ _ _ _ _ _ Hm2 C ltac:(set_solver)) as (Hszok & _).
  pose proof (m_b _ _ _ _ _ _ Hm2) as HC. rewrite <- Ha.
  erewrite set_used_word; [|exact Hszok|exact (h_size _ _ _ HC)].
  destruct (mid_mark_used s2 (wr s2 (b_addr C) f_size (size_word (b_size C) false
    (match out None l1 with Some _ => true | None => false end))) _ _ _ _ _ n Hm2)
    as (Hm3 & Hcan & Hctl & Hby); [lia|lia| | |by rewrite rd_wr_ne by (left; done)|].
  { apply hop_wr; [intros ? ? <- <-; by left|done|by intros [?|?]]. }
  { apply rd_wr_eq. by apply size_word_range. }
  fold B in Hm3, Hcan. set (s3 := mark_used _ _ _) in *. fold l2' in Hm2, Hq2, Hm3.
  pose proof (mid_next _ _ _ _ _ _ Hm3) as Hnext. change (b_addr B) with (b_addr C) in Hnext.
  rewrite Hnext. destruct (mid_fix_used _ _ _ _ _ _ Hm3) as [Hm4 [Hc4 Hb4]].
  set (s4 := if b_end B <? pool_end s3 then block_set_prev_used s3 (b_end B) else s3) in *. destruct Hq1 as [Hc1 Hb1], Hq2 as [Hc2 Hb2].
  split_and!.
  - eapply mid_shape; [exact Hm4|]. intros a. by rewrite free_at_used.
  - assert (∀ x, b_addr B + 6 * W ≤ x < b_end B → ld_byte (mem s4) x = ld_byte (mem s3) x) as Hp.
    { intros x Hx. apply Hb4. eapply payload_not_hdr; [apply Hm4| |exact Hx]. set_solver. }
    unfold canary_at in *. unfold b_end in Hp. change (b_req B) with n in *.
    change (b_size B) with (b_size C) in Hp. rewrite !Hp by lia. exact Hcan.
  - congruence.
  - intros x Hx Hnc. rewrite Hb4 by done. unfold B in Hx. rewrite used_as_byte in Hx.
    rewrite Hby, Hb2 by done. apply Hb1. intros Hh. apply Hx.
    eapply hdr_byte_mono; [|exact Hh]. intros a Hin. by apply cut_in.
Qed.
End place.

(** ** The invariant across [tlsf_malloc] *)

Lemma cut_used_sum b l2 size : used_sum (cut b l2 size).2 = used_sum l2.
Proof. unfold cut. by destruct (_ <=? _). Qed.

Lemma cut_allocs b l2 size : allocs (cut b l2 size).2 = allocs l2.
Proof. unfold cut. by destruct (_ <=? _). Qed.

Lemma cut_req b l2 size : Forall req_ok l2 → Forall req_ok (cut b l2 size).2.
Proof. unfold cut. destruct (_ <=? _); [|done]. intros ?. by constructor. Qed.

Lemma cut_coal b l2 size : coal (Some (b_addr b)) l2 → coal None (cut b l2 size).2.
Proof.
  intros Hc. unfold cut. destruct (_ <=? _); simpl; [|by eapply coal_None].
  split; [intros [[? [=]] _]|]. destruct l2 as [|c l2]; [done|]. destruct Hc as [Hc ?]. split; [|done].
  intros [_ Hf]. apply Hc. by split.
Qed.

Lemma cut_elem b l2 size c : c ∈ l2 → c ∈ (cut b l2 size).2.
Proof. unfold cut. destruct (_ <=? _); set_solver. Qed.

Lemma ctl_stats s s' :
  ctl s' = ctl s → used_bytes s' = used_bytes s ∧ total_bytes s' = total_bytes s ∧
  high_water_bytes s' = high_water_bytes s ∧ min_free_bytes s' = min_free_bytes s.
Proof. intros H. by injection H. Qed.

Lemma watermarks_ctl s s' : ctl s' = ctl s → watermarks_ok s → watermarks_ok s'.
Proof.
  intros Hc. destruct (ctl_pool _ _ Hc) as [-> ->] || idtac. unfold watermarks_ok.
  destruct (ctl_stats _ _ Hc) as (-> & -> & -> & ->). by destruct (ctl_pool _ _ Hc) as [-> ->].
Qed.

(** Growing the used bytes of a heap whose statistics were right. *)
Lemma grow_stats s bs k :
  pool_ok s bs → watermarks_ok s → used_bytes s + k = used_sum bs → 0 ≤ k →
  let s' := s <| used_bytes := uW (used_bytes s + k) |> in
  used_bytes s' = used_sum bs ∧ ∀ n, watermarks_ok (update_watermarks (s' <| alloc_count := n |>)) ∧
  watermarks_ok (update_watermarks s').
Proof.
  intros [] (Ht & Hh & Hm) Hu Hk. pose proof (used_sum_bounds _ _ _ po_tiles) as Hb.
  destruct pow_W_8 as (_ & ? & _). cbn. rewrite Hu, wrap_small by (unfold uint; lia).
  split; [done|]. intros n. split; apply update_watermarks_ok; unfold uint; cbn; lia.
Qed.

Section malloc.
Variables (s : tlsf_t) (l1 l2 : list blk) (b : blk) (n : Z).
Hypothesis Hinv : heap_inv s (l1 ++ b :: l2).
Hypothesis Hfree : b_free b = true.
Hypothesis Hn : 0 < n < 2 ^ 31 - 64.
Hypothesis Hle : internal n ≤ b_size b.

Let size := internal n.
Let B := used_as (cut b l2 size).1 n.
Let l2' := (cut b l2 size).2.
Let s1 := place s (b_addr b) size n.
Let s' := account s1 (b_addr b).

Lemma malloc_placed :
  heap_shape s1 (l1 ++ B :: l2') ∧ canary_at s1 B ∧ ctl s1 = ctl s ∧
  ∀ x, ¬ hdr_byte (l1 ++ B :: l2') x →
       ¬ b_addr B + 6 * W + n ≤ x < b_addr B + 6 * W + n + 4 → ld_byte (mem s1) x = ld_byte (mem s) x.
Proof.
  destruct (internal_bounds n ltac:(lia)) as (? & ? & ? & ?).
  apply place_spec; [apply Hinv|done|done|unfold size; lia|done|unfold size; lia].
Qed.

Lemma malloc_heap : heap_inv s' (l1 ++ B :: l2').
Proof.
  destruct malloc_placed as (Hs & _ & Hctl & _). pose proof Hinv as [_ Hcoal Hused Hreq Hwm].
  destruct (internal_bounds n ltac:(lia)) as (Hi & _). pose proof (cut_size b l2 size Hle) as Hsz.
  pose proof (hs_pool _ _ Hs) as Hp. destruct (ctl_stats _ _ Hctl) as (Hub & _).
  apply shape_mid in Hs as Hm. pose proof (mid_size _ _ _ _ _ _ Hm B (mid_B _ _ _)) as HB.
  destruct (mid_block _ _ _ _ _ _ Hm B (mid_B _ _ _)) as (_ & ? & ? & ? & ? & ?).
  change (b_addr B) with (b_addr (cut b l2 size).1) in HB. rewrite cut_addr in HB.
  assert (accounted_block_size s1 (b_addr b) = b_size B + 6 * W) as Hacc.
  { unfold accounted_block_size. rewrite HB, OVERHEAD_eq. apply wrap_small. unfold b_end, uint in *.
    pose proof W_pos. lia. }
  assert (used_bytes s1 + (b_size B + 6 * W) = used_sum (l1 ++ B :: l2')) as Hsum.
  { rewrite Hub, Hused, !used_sum_app, !used_sum_cons. unfold l2'. rewrite cut_used_sum.
    unfold charge. rewrite Hfree. simpl. lia. }
  destruct (grow_stats s1 _ (b_size B + 6 * W) Hp (watermarks_ctl _ _ Hctl Hwm) Hsum) as [Hu Hw];
    [pose proof W_pos; lia|].
  unfold s', account. rewrite Hacc. split.
  - eapply keeps_shape; [|exact Hs].
    eapply keeps_trans; [|apply update_watermarks_keeps]. done.
  - apply coal_app in Hcoal as [Hc1 [Hc2 Hc3]]. apply coal_app. split; [done|]. split; [by intros [_ [=]]|].
    unfold as_prev in *. rewrite Hfree in Hc3. by apply cut_coal.
  - rewrite (proj2 (update_watermarks_mem _)). exact Hu.
  - apply Forall_app in Hreq as [? [? ?]%Forall_cons]. apply Forall_app. split; [done|].
    constructor; [|by apply cut_req]. intros _. unfold B. simpl. lia.
  - apply (Hw (uW (alloc_count s1 + 1))).
Qed.

Lemma malloc_mem : mem s' = mem s1.
Proof. unfold s', account. by rewrite (proj1 (update_watermarks_mem _)). Qed.

Lemma malloc_kept c x :
  c ∈ l1 ++ l2 → b_addr c + 6 * W ≤ x < b_end c → ld_byte (mem s') x = ld_byte (mem s) x.
Proof.
  intros Hc Hx. destruct malloc_placed as (Hs & _ & _ & Hby). rewrite malloc_mem.
  assert (c ∈ l1 ++ B :: l2') as Hc'.
  { apply elem_of_app in Hc as [|]; [set_solver|]. unfold l2'. pose proof (cut_elem b l2 size c). set_solver. }
  pose proof (hs_pool _ _ Hs) as []. apply Hby; [by eapply payload_not_hdr|].
  destruct (internal_bounds n ltac:(lia)) as (Hi & _). pose proof (cut_size b l2 size Hle) as Hsz.
  intros Hin. assert (b_addr B + 6 * W ≤ x < b_end B) as HxB.
  { unfold b_end, B. simpl in *. fold size in Hi. lia. }
  assert (c = B) as ->.
  { eapply (tiles_payload _ _ _ _ _ x); [exact po_tiles|done|apply mid_B| |]; pose proof W_pos; lia. }
  eapply tiles_fresh; [exact po_tiles|]. exists B. split; [|done].
  apply elem_of_app in Hc as [?|?]; [set_solver|]. apply elem_of_app. right. by apply cut_elem.
Qed.

Lemma malloc_canary : canary_at s' B.
Proof. destruct malloc_placed as (_ & Hc & _). unfold canary_at. rewrite malloc_mem. exact Hc. Qed.

Lemma malloc_allocs : allocs (l1 ++ B :: l2') ≡ₚ (b_addr b + 6 * W, n) :: allocs (l1 ++ b :: l2).
Proof.
  rewrite !allocs_app, (allocs_free b), (allocs_used B) by done. unfold l2'. rewrite cut_allocs.
  change (b_addr B) with (b_addr (cut b l2 size).1). rewrite cut_addr. simpl.
  by rewrite Permutation_middle.
Qed.
End malloc.

(** ** Summary *)

(** [tlsf_malloc] takes a free block that is large enough. *)
Lemma find_free s bs size :
  heap_inv s bs → 32 ≤ size < 2 ^ 31 → find_suitable_block s size ≠ 0 →
  ∃ l1 b l2, bs = l1 ++ b :: l2 ∧ b_addr b = find_suitable_block s size ∧ b_free b = true ∧
             size ≤ b_size b.
Proof.
  intros [[Hp Hh (L & HL & Hm)] _ _ _ _] Hs Hnz.
  destruct (find_sound s L HL size Hs Hnz) as (Hin & Hi & Hle).
  assert (free_at bs (find_suitable_block s size)) as (b & Hb & Hf & Ha) by (apply Hm; by eexists).
  destruct (hdrs_elem _ _ _ _ Hh Hb) as [q Hq]. destruct (pool_block s bs b Hp Hb) as (Hsz & _).
  rewrite <- Ha, (hdr_block_size s q b Hq Hsz) in Hle.
  apply list_elem_of_split in Hb as (l1 & l2 & ->). by exists l1, b, l2.
Qed.

Lemma used_elem (l1 l2 : list blk) b c :
  c ∈ l1 ++ b :: l2 → b_free b = true → b_free c = false → c ∈ l1 ++ l2.
Proof. intros [|[->|]%elem_of_cons]%elem_of_app ? ?; [set_solver|congruence|set_solver]. Qed.

Lemma malloc_cases s bs n :
  heap_inv s bs → 0 < n < 2 ^ 31 - 64 →
  (find_suitable_block s (internal n) = 0 ∧ tlsf_malloc s n = (0, count_alloc_fail s)) ∨
  ∃ bs' p s', tlsf_malloc s n = (p, s') ∧ p ≠ 0 ∧ heap_inv s' bs' ∧
    allocs bs' ≡ₚ (p, n) :: allocs bs ∧ kept bs s s' ∧ (canaries s bs → canaries s' bs').
Proof.
  intros Hinv Hn. destruct pow_W_8 as (_ & ? & _).
  destruct (internal_bounds n ltac:(lia)) as (? & ? & ? & ?).
  rewrite malloc_eq by lia. destruct (Z.eqb_spec (find_suitable_block s (internal n)) 0) as [Hz|Hnz];
    [by left|right].
  destruct (find_free s bs (internal n) Hinv ltac:(lia) Hnz) as (l1 & b & l2 & -> & <- & Hf & Hle).
  pose proof (hs_pool _ _ (hi_shape _ _ Hinv)) as Hp.
  destruct (pool_block _ _ b Hp (mid_B _ _ _)) as (_ & ? & ? & ? & ? & ?).
  assert (block_to_ptr (b_addr b) = b_addr b + 6 * W) as Hptr.
  { unfold block_to_ptr. rewrite OVERHEAD_eq. apply wrap_small. unfold b_end, uint in *.
    pose proof W_pos. lia. }
  rewrite Hptr. do 3 eexists. split; [done|]. split; [pose proof W_pos; lia|].
  split; [by apply (malloc_heap s l1 l2 b n)|]. split; [by apply malloc_allocs|].
  assert (kept (l1 ++ b :: l2) s (account (place s (b_addr b) (internal n) n) (b_addr b))) as Hk.
  { intros c x Hc Hcf Hx. eapply (malloc_kept s l1 l2 b n); [done..| |done]. by eapply used_elem. }
  split; [done|]. intros Hc c Hin Hcf.
  apply elem_of_app in Hin as [Hin|[->|Hin]%elem_of_cons]; [|by eapply (malloc_canary s l1 l2 b n)|].
  - eapply kept_canary; [exact Hk|set_solver|done| |apply Hc; [set_solver|done]].
    pose proof (hi_req _ _ Hinv) as Hr. rewrite Forall_forall in Hr. apply Hr. set_solver.
  - assert (c ∈ l2) by (revert Hin; unfold cut; destruct (_ <=? _); [|done];
      intros [->|]%elem_of_cons; [done|done]).
    eapply kept_canary; [exact Hk|set_solver|done| |apply Hc; [set_solver|done]].
    pose proof (hi_req _ _ Hinv) as Hr. rewrite Forall_forall in Hr. apply Hr. set_solver.
Qed.

Lemma malloc_finds s bs n b :
  heap_inv s bs → 0 < n < 2 ^ 31 - 64 → b ∈ bs → b_free b = true →
  search_size (internal n) ≤ b_size b < 2 ^ 20 → find_suitable_block s (internal n) ≠ 0.
Proof.
  intros [[Hp Hh (L & HL & Hm)] _ _ _ _] Hn Hb Hf Hs.
  destruct (internal_bounds n ltac:(lia)) as (? & ? & ? & ?).
  destruct (hdrs_elem _ _ _ _ Hh Hb) as [q Hq]. destruct (pool_block s bs b Hp Hb) as (Hsz & _).
  eapply (find_complete s L HL _ (b_addr b)); [lia|apply Hm; by exists b|].
  by rewrite (hdr_block_size s q b Hq Hsz).
Qed.
End arch.
