(* ===== verification/TlsfFree.v ===== *)
(** * Kernel heap: [tlsf_free]

    Merging with the neighbours, and [tlsf_free] on the blocks of the heap. *)

From S2P Require Import Prelude Libc LibcSpec Tlsf TlsfMem TlsfMapping TlsfLists TlsfPhys TlsfInv TlsfSteps.
From S2P Require Import TlsfMalloc.
From stdpp Require Import prelude gmap list.
From Stdlib Require Import ZArith Lia.
Local Open Scope Z_scope.
Import TLSF.

Section arch.
Context {ar : Arch}.
#[local] Abbreviation uW := (wrap (8 * W)).

(** ** Merging *)

Lemma out_cases l : (out None l = None) ∨ ∃ l' p, l = l' ++ [p] ∧ b_free p = true ∧ out None l = Some (b_addr p).
Proof.
  destruct l as [|p l' _] using rev_ind; [by left|]. rewrite out_snoc. unfold as_prev.
  destruct (b_free p) eqn:Hp; [right|by left]. by exists l', p.
Qed.

Definition prev_merged (l1 : list blk) (B : blk) (l1' : list blk) (B' : blk) : Prop :=
  (out None l1 = None ∧ l1' = l1 ∧ B' = B) ∨
  (∃ p, l1 = l1' ++ [p] ∧ b_free p = true ∧ B' = joined p B).

Definition next_merged (B : blk) (l2 : list blk) (B' : blk) (l2' : list blk) : Prop :=
  (match l2 with c :: _ => b_free c = false | [] => True end ∧ l2' = l2 ∧ B' = B) ∨
  (∃ c, l2 = c :: l2' ∧ b_free c = true ∧ B' = joined B c).

Lemma quiet_left l1 p B l2 s s' : quiet (l1 ++ p :: B :: l2) s s' → quiet ((l1 ++ [p]) ++ B :: l2) s s'.
Proof. by rewrite <- (assoc_L (++)). Qed.

Lemma merge_prev_spec s l1 B pv l2 :
  mid s l1 B pv l2 (free_at (l1 ++ l2)) →
  ∃ l1' B' pv' s', merge_prev s (b_addr B) = (b_addr B', s') ∧ prev_merged l1 B l1' B' ∧
    mid s' l1' B' pv' l2 (free_at (l1' ++ l2)) ∧ quiet (l1 ++ B :: l2) s s'.
Proof.
  intros Hm. destruct (mid_block _ _ _ _ _ _ Hm B (mid_B _ _ _)) as (Hsz & _).
  unfold merge_prev. rewrite (hdr_prev_free s (out None l1) B (m_b _ _ _ _ _ _ Hm) Hsz).
  destruct (out_cases l1) as [Ho|(l1' & p & -> & Hf & Ho)].
  { rewrite Ho. exists l1, B, pv, s. split_and!; try done. by left. }
  rewrite Ho, (h_prev _ _ _ (m_b _ _ _ _ _ _ Hm) _ Ho).
  pose proof (m_pool _ _ _ _ _ _ Hm) as [_ _ _ _ Ht].
  assert (free_at ((l1' ++ [p]) ++ l2) (b_addr p)) as Hfp.
  { rewrite !free_at_app, free_at_cons. auto. }
  destruct (mid_remove _ _ _ _ _ _ Hm _ Hfp) as [Hm1 Hq1]. set (s1 := remove_free_block _ _) in *.
  rewrite (mid_size _ _ _ _ _ _ Hm1 p), (mid_size _ _ _ _ _ _ Hm1 B) by set_solver.
  destruct (mid_join_prev _ _ _ _ _ _ _ Hm1) as [Hm2 Hq2]; [naive_solver| |].
  { intros [Hx%free_at_hdr _]. by eapply tiles_fresh. }
  set (s2 := block_set_size _ _ _) in *. pose proof (mid_next _ _ _ _ _ _ Hm2) as Hnx.
  change (b_addr (joined p B)) with (b_addr p) in Hnx. rewrite Hnx.
  destruct (mid_phys _ _ _ _ _ _ Hm2 (b_addr p)) as [Hm3 Hq3].
  { destruct (mid_range _ _ _ _ _ _ Hm2) as (_ & _ & ?). done. }
  exists l1', (joined p B). do 2 eexists. split; [done|]. split; [right; by exists p|]. split.
  - eapply mid_iff; [|exact Hm3]. intros a. rewrite <- (assoc_L (++)) in *. simpl in *.
    apply free_at_but. apply tiles_fresh in Ht. intros Hx. apply Ht.
    apply in_hdr_app in Hx as [?|?]; apply in_hdr_app; [by left|right]. apply in_hdr_cons. by right.
  - eapply quiet_trans; [exact Hq1|]. apply quiet_left. eapply quiet_trans; [exact Hq2|].
    eapply quiet_mono; [|exact Hq3]. apply join_in.
Qed.

Lemma merge_next_spec s l1 B pv l2 :
  mid s l1 B pv l2 (free_at (l1 ++ l2)) →
  ∃ B' pv' l2' s', merge_next s (b_addr B) = (b_addr B, s') ∧ next_merged B l2 B' l2' ∧
    mid s' l1 B' pv' l2' (free_at (l1 ++ l2')) ∧ quiet (l1 ++ B :: l2) s s'.
Proof.
  intros Hm. unfold merge_next. rewrite (mid_next _ _ _ _ _ _ Hm).
  destruct (mid_tiles2 _ _ _ _ _ _ Hm) as [_ Ht2]. rewrite (next_test _ _ _ Ht2).
  destruct l2 as [|c l2].
  { exists B, pv, [], s. split_and!; try done. by left. }
  pose proof Ht2 as (Hc & _). rewrite <- Hc. pose proof (m_l2 _ _ _ _ _ _ Hm) as [Hhc _].
  assert (c ∈ l1 ++ B :: c :: l2) as Hin by set_solver.
  destruct (mid_block _ _ _ _ _ _ Hm c Hin) as (Hszc & _).
  rewrite (hdr_is_free s pv c Hhc Hszc). destruct (b_free c) eqn:Hf; cbn [andb].
  2: { exists B, pv, (c :: l2), s. split_and!; try done. by left. }
  pose proof (m_pool _ _ _ _ _ _ Hm) as [_ _ _ _ Ht].
  assert (free_at (l1 ++ c :: l2) (b_addr c)) as Hfc.
  { rewrite !free_at_app, free_at_cons. auto. }
  destruct (mid_remove _ _ _ _ _ _ Hm _ Hfc) as [Hm1 Hq1]. set (s1 := remove_free_block _ _) in *.
  rewrite (mid_size _ _ _ _ _ _ Hm1 B), (mid_size _ _ _ _ _ _ Hm1 c) by set_solver.
  destruct (mid_join _ _ _ _ _ _ _ Hm1) as [Hm2 Hq2]; [|naive_solver|].
  { intros [Hx%free_at_hdr _]. exact (tiles_fresh _ _ _ _ _ Ht Hx). }
  set (s2 := block_set_size _ _ _) in *. pose proof (mid_next _ _ _ _ _ _ Hm2) as Hnx.
  change (b_addr (joined B c)) with (b_addr B) in Hnx. rewrite Hnx.
  destruct (mid_phys _ _ _ _ _ _ Hm2 (b_addr B)) as [Hm3 Hq3].
  { destruct (mid_range _ _ _ _ _ _ Hm2) as (_ & _ & ?). done. }
  exists (joined B c). do 3 eexists. split; [done|]. split; [right; by exists c|]. split.
  - eapply mid_iff; [|exact Hm3]. intros a. apply free_at_but.
    pose proof (tiles_fresh (pool_start s) (l1 ++ [B]) c l2 (pool_end s)) as Hfr.
    rewrite <- !(assoc_L (++)) in Hfr. specialize (Hfr Ht). intros Hx. apply Hfr.
    apply in_hdr_app in Hx as [?|?]; apply in_hdr_app; [by left|right]. apply in_hdr_cons. by right.
  - eapply quiet_trans; [exact Hq1|]. eapply quiet_trans; [exact Hq2|].
    eapply quiet_mono; [|exact Hq3]. apply join_in.
Qed.

(** The magic of a block merged into the one before it is left as it was. *)
Lemma merge_prev_magic s1 l p B pv l2 :
  mid s1 (l ++ [p]) B pv l2 (free_at ((l ++ [p]) ++ l2)) → b_free p = true →
  rd (merge_prev s1 (b_addr B)).2 (b_addr B) f_magic = rd s1 (b_addr B) f_magic.
Proof.
  intros Hm Hf. destruct (mid_block _ _ _ _ _ _ Hm B (mid_B _ _ _)) as (Hsz & ? & ? & ? & _).
  assert (p ∈ (l ++ [p]) ++ B :: l2) as Hpin by set_solver.
  destruct (mid_block _ _ _ _ _ _ Hm p Hpin) as (_ & ? & ? & _). pose proof W_pos.
  assert (out None (l ++ [p]) = Some (b_addr p)) as Ho by (rewrite out_snoc; unfold as_prev; by rewrite Hf).
  pose proof (m_pool _ _ _ _ _ _ Hm) as [_ _ _ _ Ht]. pose proof Ht as Ht2.
  rewrite <- (assoc_L (++)) in Ht2. apply tiles_app in Ht2 as (q & _ & Hp & _ & _ & HB & _ & _ & Hl2).
  assert (sep (b_addr p) (b_addr B)) as Hsep by (unfold sep, b_end in *; lia).
  unfold merge_prev. rewrite (hdr_prev_free s1 _ B (m_b _ _ _ _ _ _ Hm) Hsz), Ho.
  rewrite (h_prev _ _ _ (m_b _ _ _ _ _ _ Hm) _ Ho). cbv zeta. cbn [snd].
  assert (free_at ((l ++ [p]) ++ l2) (b_addr p)) as Hfp by (rewrite !free_at_app, free_at_cons; auto).
  pose proof Hm as []. destruct (listed_remove _ _ _ (mid_headers _ _ _ _ _ _ Hm) m_listed m_sub _ Hfp) as [_ Htc].
  pose proof (t_fields _ _ _ _ Htc (b_addr B) f_magic) as Hmg.
  rewrite <- Hmg; [|apply in_hdr_app; right; apply in_hdr_cons; by left|by intros [?|?]]. clear Hmg Htc.
  destruct (mid_remove _ _ _ _ _ _ Hm _ Hfp) as [Hm1 _]. set (s2 := remove_free_block s1 (b_addr p)) in *.
  rewrite (mid_size _ _ _ _ _ _ Hm1 p), (mid_size _ _ _ _ _ _ Hm1 B) by set_solver.
  destruct (mid_join_prev _ _ _ _ _ _ _ Hm1) as [Hm2 _]; [naive_solver| |].
  { intros [Hx%free_at_hdr _]. by eapply tiles_fresh. }
  pose proof (mid_next _ _ _ _ _ _ Hm2) as Hnx. change (b_addr (joined p B)) with (b_addr p) in Hnx. rewrite Hnx.
  assert (∀ v, rd (block_set_size s2 (b_addr p) v) (b_addr B) f_magic = rd s2 (b_addr B) f_magic) as Hs.
  { intros v. unfold block_set_size. cbv zeta. apply rd_wr_ne. by right. }
  destruct (_ <? _); [|apply Hs]. rewrite rd_wr_ne; [apply Hs|right].
  unfold sep, b_end, joined in *. simpl. lia.
Qed.

(** ** Returning a block to the free lists *)

(** The end of [tlsf_free] and of the shrinking branch of [tlsf_realloc]. *)
Definition put_back (s : tlsf_t) (block : Z) : tlsf_t :=
  let '(block, s) := merge_next s block in
  let s := insert_free_block s block in
  let next := block_next s block in
  if next <? pool_end s then block_set_prev_free (wr s next f_prev_phys block) next else s.

Lemma put_back_spec s l1 B pv l2 :
  mid s l1 B pv l2 (free_at (l1 ++ l2)) → b_free B = true →
  ∃ B' l2', next_merged B l2 B' l2' ∧ heap_shape (put_back s (b_addr B)) (l1 ++ B' :: l2') ∧
    quiet (l1 ++ B :: l2) s (put_back s (b_addr B)).
Proof.
  intros Hm Hf. destruct (merge_next_spec _ _ _ _ _ Hm) as (B' & pv' & l2' & s1 & He & Hn & Hm1 & Hq1).
  exists B', l2'. split; [done|]. unfold put_back. rewrite He.
  assert (b_addr B' = b_addr B ∧ b_free B' = true) as [Ha Hf']
    by (destruct Hn as [(_ & _ & ->)|(c & _ & _ & ->)]; done).
  rewrite <- Ha. pose proof (m_pool _ _ _ _ _ _ Hm1) as [_ _ _ _ Ht].
  destruct (mid_insert _ _ _ _ _ _ Hm1 B' (mid_B _ _ _)) as [Hm2 Hq2].
  { intros Hx%free_at_hdr. exact (tiles_fresh _ _ _ _ _ Ht Hx). }
  rewrite (mid_next _ _ _ _ _ _ Hm2).
  match goal with |- context [if b_end B' <? ?e then ?x else ?y] =>
    change (if b_end B' <? e then x else y) with (fix_prev_free y (b_end B') (b_addr B')) end.
  destruct (mid_fix_free _ _ _ _ _ _ Hm2) as [Hm3 Hq3]. split.
  - eapply mid_shape; [unfold as_prev; rewrite Hf'; exact Hm3|]. intros a. by rewrite free_at_free.
  - assert (∀ a, in_hdr (l1 ++ B' :: l2') a → in_hdr (l1 ++ B :: l2) a) as Hsub.
    { destruct Hn as [(_ & -> & ->)|(c & -> & _ & ->)]; [done|]. apply join_in. }
    eapply quiet_trans; [exact Hq1|]. eapply quiet_mono; [exact Hsub|]. by eapply quiet_trans.
Qed.

(** Free neighbours stay apart. *)
Lemma next_merged_coal B l R l' :
  b_free B = true → coal None l → next_merged B l R l' → b_free R = true ∧ coal None (R :: l').
Proof.
  intros Hf Hc Hn. assert (b_free R = true) as HR by (destruct Hn as [(_ & _ & ->)|(c & _ & _ & ->)]; done).
  split; [done|]. split; [intros [[? [=]] _]|]. unfold as_prev. rewrite HR.
  destruct Hn as [(Hh & -> & ->)|(c & -> & Hcf & ->)].
  - destruct l as [|c l]; [done|]. destruct Hc as [_ ?]. split; [|done]. intros [_ ?]. congruence.
  - destruct Hc as [_ Hc]. unfold as_prev in Hc. rewrite Hcf in Hc.
    destruct l' as [|d l']; [done|]. destruct Hc as [Hd ?]. split; [|done]. intros [_ ?]. apply Hd. by split.
Qed.

Lemma next_merged_live B l R l' :
  b_free B = true → next_merged B l R l' → live (R :: l') = live l.
Proof.
  intros Hf [(_ & -> & ->)|(c & -> & Hc & ->)]; [by apply live_free|].
  rewrite (live_free c) by done. by apply live_free.
Qed.

Lemma merged_coal l1 B l2 l1' B' B'' l2' :
  coal None (l1 ++ B :: l2) → b_free B = false →
  prev_merged l1 (B <| b_free := true |> <| b_req := 0 |>) l1' B' →
  next_merged B' l2 B'' l2' → b_free B' = true ∧ coal None (l1' ++ B'' :: l2').
Proof.
  intros [H1 [_ H2]]%coal_app Hb Hp Hn. unfold as_prev in H2. rewrite Hb in H2.
  assert (b_free B' = true ∧ coal None l1' ∧ out None l1' = None) as (Hf & Hc & Ho).
  { destruct Hp as [(Ho & -> & ->)|(p & -> & Hf & ->)]; [done|]. split; [done|].
    apply coal_app in H1 as [? [Hno _]]. split; [done|]. destruct (out None l1') eqn:E; [|done].
    exfalso. apply Hno. by split. }
  split; [done|]. apply coal_app. rewrite Ho. split; [done|]. by apply (next_merged_coal B' l2).
Qed.

(** ** The guards *)

Section block.
Variables (s : tlsf_t) (bs : list blk) (b : blk).
Hypothesis Hshape : heap_shape s bs.
Hypothesis Hin : b ∈ bs.

Lemma shape_hdr : ∃ q, hdr_ok s q b.
Proof. eapply hdrs_elem; [apply Hshape|done]. Qed.

Lemma shape_block :
  size_ok (b_size b) ∧ 32 ≤ b_size b < 2 ^ 32 ∧ 0 < b_addr b ∧ b_end b ≤ pool_end s ∧
  pool_start s ≤ b_addr b ∧ b_end b < 2 ^ (8 * W).
Proof. eapply pool_block; [apply Hshape|done]. Qed.

Lemma shape_size : block_size s (b_addr b) = b_size b.
Proof. destruct shape_hdr as [q Hq]. eapply hdr_block_size; [done|apply shape_block]. Qed.

Lemma shape_ptr : ptr_to_block (b_addr b + 6 * W) = b_addr b.
Proof.
  unfold ptr_to_block. rewrite OVERHEAD_eq, Z.add_simpl_r. apply wrap_small.
  destruct shape_block as (? & ? & ? & ? & ? & ?). unfold uint, b_end in *. pose proof W_pos. lia.
Qed.

Lemma shape_valid : block_header_valid s (b_addr b) = true.
Proof.
  destruct shape_block as (? & ? & ? & ? & ? & ?). destruct shape_hdr as [q Hq].
  unfold block_header_valid, ptr_in_pool. rewrite shape_size, OVERHEAD_eq. unfold b_end in *.
  pose proof W_pos. rewrite (proj2 (Z.leb_le _ _)), (proj2 (Z.ltb_lt _ _)) by lia.
  assert (Z.land (b_addr b) (BLOCK_ALIGN - 1) = 0) as ->.
  { change (BLOCK_ALIGN - 1) with (Z.ones 3). rewrite Z.land_ones by lia. change (2 ^ 3) with 8.
    apply Z.mod_divide; [lia|]. destruct (hs_pool _ _ Hshape). by eapply tiles_aligned. }
  unfold BLOCK_SIZE_MIN. rewrite (proj2 (Z.ltb_ge (b_size b) 32)) by lia.
  rewrite wrap_small by (unfold uint; lia). rewrite (proj2 (Z.ltb_ge _ _)) by lia.
  rewrite (h_magic _ _ _ Hq). by destruct (b_free b).
Qed.

Lemma shape_live : live_block s (b_addr b) = negb (b_free b).
Proof.
  unfold live_block. rewrite shape_valid. destruct shape_hdr as [q Hq].
  destruct shape_block as (Hsz & _). rewrite (hdr_is_free s q b Hq Hsz), (h_magic _ _ _ Hq).
  by destruct (b_free b).
Qed.

Lemma shape_accounted : accounted_block_size s (b_addr b) = b_size b + 6 * W.
Proof.
  unfold accounted_block_size. rewrite shape_size, OVERHEAD_eq. apply wrap_small.
  destruct shape_block as (? & ? & ? & ? & ? & ?). unfold uint, b_end in *. pose proof W_pos. lia.
Qed.

Lemma shape_canary : req_ok b → b_free b = false → tail_canary_ok s (b_addr b) = true ↔ canary_at s b.
Proof.
  intros Hr Hf. destruct shape_hdr as [q Hq]. destruct shape_block as (? & ? & ? & ? & ? & ?).
  by eapply tail_canary_ok_iff; eauto.
Qed.
End block.

(** ** The invariant across [tlsf_free] *)

Definition mark_free (s : tlsf_t) (a : Z) : tlsf_t :=
  let s := block_set_free s a in
  let s := wr s a f_requested 0 in
  wr s a f_magic BLOCK_MAGIC_FREE.

Definition release (s : tlsf_t) (block : Z) : tlsf_t :=
  let '(block, s) := merge_prev s block in put_back s block.

(** The statistics of [tlsf_free]. *)
Definition uncharge (s : tlsf_t) (block : Z) : tlsf_t :=
  let s := if negb (tail_canary_ok s block)
           then s <| canary_fail_count := uW (canary_fail_count s + 1) |> else s in
  let s := s <| used_bytes := uW (used_bytes s - accounted_block_size s block) |> in
  s <| free_count := uW (free_count s + 1) |>.

Lemma free_eq s p :
  p ≠ 0 → live_block s (ptr_to_block p) = true →
  let block := ptr_to_block p in tlsf_free s p = release (mark_free (uncharge s block) block) block.
Proof.
  intros Hp Hl block. unfold tlsf_free. rewrite (proj2 (Z.eqb_neq _ _)), Hl by done. fold block.
  cbn [negb]. unfold uncharge. unfold release, put_back, mark_free.
  match goal with |- context [merge_prev ?x ?y] => generalize (merge_prev x y) end.
  intros [b1 s1]. by destruct (merge_next s1 b1).
Qed.

Lemma uncharge_keeps bs s a : keeps bs s (uncharge s a).
Proof. unfold uncharge. by destruct (tail_canary_ok s a). Qed.

Lemma uncharge_stats s a :
  mem (uncharge s a) = mem s ∧
  used_bytes (uncharge s a) = uW (used_bytes s - accounted_block_size s a) ∧
  total_bytes (uncharge s a) = total_bytes s ∧ high_water_bytes (uncharge s a) = high_water_bytes s ∧
  min_free_bytes (uncharge s a) = min_free_bytes s.
Proof. unfold uncharge. by destruct (tail_canary_ok s a). Qed.

Section free.
Variables (s : tlsf_t) (l1 l2 : list blk) (b : blk).
Hypothesis Hinv : heap_inv s (l1 ++ b :: l2).
Hypothesis Hused : b_free b = false.

Let s0 := uncharge s (b_addr b).
Let s' := release (mark_free s0 (b_addr b)) (b_addr b).
Let fb := b <| b_free := true |> <| b_req := 0 |>.

Lemma free_stats : used_bytes s0 = used_sum (l1 ++ l2) ∧ watermarks_ok s0.
Proof.
  pose proof Hinv as [Hs _ Hu _ (Ht & Hh & Hm)].
  destruct (uncharge_stats s (b_addr b)) as (_ & Hub & Htb & Hhw & Hmf). fold s0 in Hub, Htb, Hhw, Hmf.
  destruct (uncharge_keeps (l1 ++ b :: l2) s (b_addr b)) as [Hps Hpe _ _]. fold s0 in Hps, Hpe.
  pose proof (hs_pool _ _ Hs) as []. pose proof (used_sum_bounds _ _ _ po_tiles) as Hb.
  assert (used_sum (l1 ++ b :: l2) = b_size b + 6 * W + used_sum (l1 ++ l2)) as Hsum.
  { rewrite !used_sum_app, used_sum_cons. unfold charge. rewrite Hused. lia. }
  assert (0 ≤ used_sum (l1 ++ l2)) by (rewrite used_sum_app; apply tiles_app in po_tiles as (q & H1 & H2);
    destruct H2 as (_ & _ & _ & H2); pose proof (used_sum_bounds _ _ _ H1);
    pose proof (used_sum_bounds _ _ _ H2); lia).
  destruct (shape_block s _ b Hs (mid_B _ _ _)) as (_ & ? & _).
  destruct pow_W_8 as (_ & ? & _). pose proof W_pos.
  rewrite (shape_accounted s _ b Hs (mid_B _ _ _)), wrap_small in Hub by (unfold uint; lia).
  split; [lia|]. unfold watermarks_ok. rewrite Hub, Htb, Hhw, Hmf, Hps, Hpe. lia.
Qed.

Lemma free_marked :
  ∃ pv, mid (mark_free s0 (b_addr b)) l1 fb pv l2 (free_at (l1 ++ l2)) ∧
        quiet (l1 ++ b :: l2) s0 (mark_free s0 (b_addr b)).
Proof.
  pose proof (keeps_shape _ _ _ (uncharge_keeps _ s (b_addr b)) (hi_shape _ _ Hinv)) as Hs. fold s0 in Hs.
  destruct (shape_block s0 _ b Hs (mid_B _ _ _)) as (Hsz & _). apply shape_mid in Hs as Hm.
  pose proof (m_b _ _ _ _ _ _ Hm) as Hb. unfold mark_free.
  erewrite set_free_word; [|exact Hsz|exact (h_size _ _ _ Hb)].
  set (s1 := wr (wr (wr _ _ _ _) _ _ _) _ _ _).
  assert (hop (eq (b_addr b)) s0 s1) as Hh.
  { assert (separated (eq (b_addr b))) by (intros ? ? <- <-; by left).
    repeat (eapply hop_trans; [|apply hop_wr; [done|done|by intros [?|?]]]). apply hop_refl. }
  destruct (mid_header _ _ _ _ _ _ Hm s1 fb Hh) as [Hm1 Hq]; [|done|done|].
  { unfold s1. split; cbn.
    - rewrite !rd_wr_ne by (left; done). apply rd_wr_eq. by apply size_word_range.
    - intros q Hq. rewrite !rd_wr_ne by (left; done). by apply Hb.
    - by apply rd_wr_eq.
    - rewrite rd_wr_ne by (left; done). apply rd_wr_eq. unfold uint. cbn [field_width].
      destruct pow_W_8 as (_ & ? & _). lia. }
  eexists. split; [|exact Hq]. eapply mid_iff; [|exact Hm1]. intros a. by apply free_at_used.
Qed.

Lemma free_released :
  ∃ l1' B' B'' l2', prev_merged l1 fb l1' B' ∧ next_merged B' l2 B'' l2' ∧
    heap_shape s' (l1' ++ B'' :: l2') ∧ quiet (l1 ++ b :: l2) s0 s'.
Proof.
  destruct free_marked as (pv & Hm & Hq0). unfold s'. set (s1 := mark_free _ _) in *.
  destruct (merge_prev_spec _ _ _ _ _ Hm) as (l1' & B' & pv' & s2 & He & Hp & Hm2 & Hq2).
  change (b_addr fb) with (b_addr b) in He. unfold release. rewrite He.
  assert (b_free B' = true) as Hf by (destruct Hp as [(_ & _ & ->)|(p & _ & Hpf & ->)]; done).
  destruct (put_back_spec _ _ _ _ _ Hm2 Hf) as (B'' & l2' & Hn & Hs & Hq3).
  exists l1', B', B'', l2'. split_and!; [done..|].
  eapply quiet_trans; [exact Hq0|]. eapply (quiet_mono (l1 ++ fb :: l2)).
  { intros a. by rewrite !in_hdr_app, !in_hdr_cons. }
  eapply quiet_trans; [exact Hq2|]. eapply quiet_mono; [|exact Hq3]. intros a.
  destruct Hp as [(_ & -> & ->)|(p & -> & _ & ->)]; rewrite !in_hdr_app, !in_hdr_cons; simpl; [done|].
  pose proof (in_hdr_nil a). tauto.
Qed.

(** A freed block is no longer live, so a second [tlsf_free] is refused. *)
Lemma freed_dead : live_block s' (b_addr b) = false.
Proof.
  destruct free_marked as (pv & Hm & Hq0). unfold s'. set (s1 := mark_free _ _) in *. unfold release.
  destruct (merge_prev_spec _ _ _ _ _ Hm) as (l1' & B' & pv' & s2 & He & Hp & Hm2 & Hq2).
  change (b_addr fb) with (b_addr b) in He. pose proof (f_equal snd He) as He2. simpl in He2. rewrite He.
  assert (b_free B' = true) as Hf by (destruct Hp as [(_ & _ & ->)|(p & _ & Hpf & ->)]; done).
  destruct (put_back_spec _ _ _ _ _ Hm2 Hf) as (B'' & l2' & Hn & Hs & Hq3).
  destruct Hp as [(_ & -> & ->)|(p & -> & Hpf & ->)].
  - assert (b_addr B'' = b_addr b ∧ b_free B'' = true) as [<- HfB].
    { destruct Hn as [(_ & _ & ->)|(c & _ & _ & ->)]; done. }
    rewrite (shape_live _ _ B'' Hs (mid_B _ _ _)). by rewrite HfB.
  - pose proof (merge_prev_magic _ _ _ _ _ _ Hm Hpf) as Hmg. change (b_addr fb) with (b_addr b) in Hmg.
    rewrite He2, (h_magic _ _ _ (m_b _ _ _ _ _ _ Hm) : rd _ (b_addr b) _ = _) in Hmg.
    unfold live_block. replace (rd _ (b_addr b) f_magic) with BLOCK_MAGIC_FREE; [by rewrite andb_false_r|].
    rewrite <- Hmg. symmetry. unfold rd. apply ld_ext. intros i Hi. destruct Hq3 as [_ Hby]. apply Hby.
    pose proof (m_pool _ _ _ _ _ _ Hm2) as [_ _ _ _ Ht2].
    eapply (payload_not_hdr _ _ _ _ _ Ht2 (mid_B _ _ _)).
    pose proof (m_pool _ _ _ _ _ _ Hm) as [_ _ _ _ Ht].
    rewrite <- (assoc_L (++)) in Ht. apply tiles_app in Ht as (q & _ & Hp1 & Hp2 & _ & HB & _).
    unfold joined, b_end in *. cbn [b_addr b_size fb set_field] in *.
    destruct (mid_block _ _ _ _ _ _ Hm fb (mid_B _ _ _)) as (_ & ? & _). cbn [fb b_size set_field] in *.
    pose proof W_pos. cbn [field_offset field_width] in *. lia.
Qed.

Lemma merged_live l1' B' B'' l2' :
  prev_merged l1 fb l1' B' → next_merged B' l2 B'' l2' → live (l1' ++ B'' :: l2') = live (l1 ++ l2).
Proof.
  intros Hp Hn. assert (b_free B' = true) as Hf by (destruct Hp as [(_ & _ & ->)|(p & _ & Hpf & ->)]; done).
  pose proof (next_merged_live _ _ _ _ Hf Hn) as He.
  rewrite !live_app, He. f_equal. destruct Hp as [(_ & -> & _)|(p & -> & Hpf & _)]; [done|].
  rewrite live_app, (live_free p) by done. symmetry. apply app_nil_r.
Qed.

Lemma free_heap :
  ∃ bs', heap_inv s' bs' ∧ live bs' = live (l1 ++ l2) ∧
    (∀ c x, c ∈ l1 ++ b :: l2 → b_addr c + 6 * W ≤ x < b_end c → ld_byte (mem s') x = ld_byte (mem s) x).
Proof.
  destruct free_released as (l1' & B' & B'' & l2' & Hp & Hn & Hs & [Hctl Hby]).
  exists (l1' ++ B'' :: l2'). pose proof (merged_live _ _ _ _ Hp Hn) as Hlive.
  destruct free_stats as [Hu Hw]. pose proof Hinv as [Hsh Hcoal _ Hreq _]. split_and!; [|done|].
  - split; [done| | | |].
    + by apply (merged_coal _ _ _ _ _ _ _ Hcoal Hused Hp Hn).
    + destruct (ctl_stats _ _ Hctl) as (-> & _). rewrite Hu, <- used_sum_live, <- Hlive.
      by rewrite used_sum_live.
    + eapply req_live; [exact Hreq|]. intros c. rewrite Hlive, live_elem. set_solver.
    + by eapply watermarks_ctl.
  - intros c x Hc Hx. rewrite Hby; [exact (f_equal (λ m, ld_byte m x) (proj1 (uncharge_stats s (b_addr b))))|].
    destruct (hs_pool _ _ Hsh). by eapply payload_not_hdr.
Qed.
End free.

Lemma live_allocs bs bs' : live bs = live bs' → allocs bs = allocs bs'.
Proof. intros He. by rewrite <- allocs_live, He, allocs_live. Qed.

(** [tlsf_free] of a live allocation. *)
Lemma free_cases s bs p n :
  heap_inv s bs → (p, n) ∈ allocs bs →
  ∃ bs', heap_inv (tlsf_free s p) bs' ∧ allocs bs ≡ₚ (p, n) :: allocs bs' ∧
    (∀ c, c ∈ live bs' → c ∈ live bs) ∧
    (∀ c x, c ∈ bs → b_addr c + 6 * W ≤ x < b_end c →
      ld_byte (mem (tlsf_free s p)) x = ld_byte (mem s) x) ∧
    (canaries s bs → canaries (tlsf_free s p) bs').
Proof.
  intros Hinv (b & Hin & Hf & Ha & <-)%allocs_elem.
  pose proof (shape_block _ _ b (hi_shape _ _ Hinv) Hin) as (_ & _ & ? & _). pose proof W_pos.
  replace p with (b_addr b + 6 * W) by lia.
  rewrite free_eq; [|lia|]; rewrite (shape_ptr _ _ b (hi_shape _ _ Hinv) Hin).
  2: { by rewrite (shape_live _ _ b (hi_shape _ _ Hinv) Hin), Hf. }
  apply list_elem_of_split in Hin as (l1 & l2 & ->).
  destruct (free_heap s l1 l2 b Hinv Hf) as (bs' & Hi & Hl & Hby).
  assert (∀ c, c ∈ live bs' → c ∈ live (l1 ++ b :: l2)) as Hsub.
  { intros c. rewrite Hl, !live_elem. set_solver. }
  exists bs'. split_and!; [done| |done|done|].
  - rewrite (live_allocs _ _ Hl), !allocs_app, allocs_used by done. by rewrite Permutation_middle.
  - intros Hc c Hcin Hcf. assert (c ∈ live (l1 ++ b :: l2)) as [_ Hin]%live_elem by (apply Hsub, live_elem; done).
    pose proof (hi_req _ _ Hinv) as Hr. rewrite Forall_forall in Hr.
    eapply (kept_canary s _ (l1 ++ b :: l2)); [|done|done|by apply Hr|by apply Hc].
    intros d x Hd _ Hx. by apply (Hby d).
Qed.
End arch.
