(* ===== verification/TlsfRealloc.v ===== *)
(** * Kernel heap: [tlsf_realloc]

    The in-place branches of [tlsf_realloc], and the move to a new block. *)

From S2P Require Import Prelude Libc LibcSpec Tlsf TlsfMem TlsfMapping TlsfLists TlsfPhys TlsfInv TlsfSteps.
From S2P Require Import TlsfMalloc TlsfFree.
From stdpp Require Import prelude gmap list.
From Stdlib Require Import ZArith Lia.
Local Open Scope Z_scope.
Import TLSF.

Section arch.
Context {ar : Arch}.
#[local] Abbreviation uW := (wrap (8 * W)).

(** ** Shrinking *)

(** Splitting off the end of a used block, which goes back to the free lists. *)
Definition trim (s : tlsf_t) (block size : Z) : tlsf_t :=
  let '(remain, s) := split_block s block size in
  match remain with Some r => put_back (block_set_free s r) r | None => s end.

Lemma shrink_eq s block n size old :
  realloc_shrink s block n size old =
    let s := mark_used (trim s block size) block n in
    let new := accounted_block_size s block in
    if new <=? old then s <| used_bytes := uW (used_bytes s - uW (old - new)) |> else s.
Proof.
  unfold realloc_shrink, trim. destruct (split_block s block size) as [[r|] s1]; [|reflexivity].
  unfold put_back. destruct (merge_next (block_set_free s1 r) r) as [r' s2]. reflexivity.
Qed.

(** The blocks after trimming. *)
Definition trimmed (b : blk) (l2 : list blk) (size : Z) (b' : blk) (l2' : list blk) : Prop :=
  (b' = b ∧ l2' = l2) ∨
  (size + 6 * W + 32 ≤ b_size b ∧ b' = split_first b size ∧
   ∃ R l, next_merged (split_rest b size) l2 R l ∧ l2' = R :: l).

Lemma trim_spec s l1 b l2 size :
  heap_shape s (l1 ++ b :: l2) → b_free b = false → 32 ≤ size ∧ (8 | size) → size < 2 ^ 31 →
  let s' := trim s (b_addr b) size in
  ∃ b' l2', trimmed b l2 size b' l2' ∧ heap_shape s' (l1 ++ b' :: l2') ∧
    ctl s' = ctl s ∧
    ∀ x, ¬ hdr_byte (l1 ++ b :: l2) x → ¬ b_addr b + 6 * W + size ≤ x < b_end b →
         ld_byte (mem s') x = ld_byte (mem s) x.
Proof.
  intros Hs Hu Hsize Hlt. cbv zeta. apply shape_mid in Hs as Hm.
  assert (¬ free_at (l1 ++ b :: l2) (b_addr b)) as Hn.
  { rewrite free_at_used by done. intros Hx%free_at_hdr. destruct (hs_pool _ _ Hs).
    by eapply tiles_fresh. }
  destruct pow_W_8 as (_ & ? & _). pose proof W_pos. unfold trim.
  destruct (decide (size + 6 * W + 32 ≤ b_size b)) as [Hfit|Hno].
  2: { rewrite (mid_nosplit _ _ _ _ _ _ _ Hm Hsize) by lia. exists b, l2.
       split_and!; try done. by left. }
  destruct (mid_split _ _ _ _ _ _ _ Hm Hn Hsize Hfit) as (s1 & -> & Hm1 & Hq1).
  set (B1 := split_first b size) in *. set (R := split_rest b size) in *.
  assert (as_prev B1 = None) as HB1 by (unfold as_prev; simpl; by rewrite Hu).
  rewrite <- HB1 in Hm1. apply mid_right in Hm1.
  destruct (mid_block _ _ _ _ _ _ Hm1 R (mid_B _ _ _)) as (HszR & _).
  pose proof (m_b _ _ _ _ _ _ Hm1) as HR. erewrite set_free_word; [|exact HszR|exact (h_size _ _ _ HR)].
  destruct (mid_header _ _ _ _ _ _ Hm1 (wr s1 (b_addr R) f_size (size_word (b_size R) true
    match out None (l1 ++ [B1]) with Some _ => true | None => false end)) R) as [Hm2 Hq2]; [| |done|done|].
  { apply hop_wr; [intros ? ? <- <-; by left|done|by intros [?|?]]. }
  { split; rewrite ?rd_wr_ne by (left; done); try apply HR. apply rd_wr_eq. by apply size_word_range. }
  set (s2 := wr s1 _ _ _) in *.
  assert (mid s2 (l1 ++ [B1]) R (as_prev R) l2 (free_at ((l1 ++ [B1]) ++ l2))) as Hm3.
  { eapply mid_iff; [|exact Hm2]. intros a. rewrite <- (assoc_L (++)). cbn [app].
    by rewrite !free_at_used by done. }
  destruct (put_back_spec _ _ _ _ _ Hm3) as (R' & l2' & Hmg & Hs3 & Hq3); [done|].
  rewrite <- (assoc_L (++)) in Hs3, Hq2, Hq3. cbn [app] in Hs3, Hq2, Hq3.
  exists B1, (R' :: l2'). split_and!; [|done| |].
  - right. split_and!; [done..|]. by exists R', l2'.
  - destruct Hq1, Hq2, Hq3. congruence.
  - intros x Hx Hx2. destruct Hq1 as [_ Hb1], Hq2 as [_ Hb2], Hq3 as [_ Hb3].
    assert (¬ hdr_byte (l1 ++ B1 :: R :: l2) x) as Hnh.
    { intros (a & Ha & Hr). revert Ha. rewrite in_hdr_app, !in_hdr_cons. intros [?|[<-|[<-|?]]].
      - apply Hx. exists a. rewrite in_hdr_app. auto.
      - apply Hx. exists (b_addr b). rewrite in_hdr_app, in_hdr_cons. auto.
      - apply Hx2. unfold b_end, R in *. simpl in *. lia.
      - apply Hx. exists a. rewrite in_hdr_app, in_hdr_cons. auto. }
    by rewrite Hb3, Hb2, Hb1.
Qed.

(** Recording a new request in a used block. *)
Lemma remark_spec s l1 b l2 n :
  heap_shape s (l1 ++ b :: l2) → b_free b = false → 0 < n → n + 4 ≤ b_size b →
  let s' := mark_used s (b_addr b) n in
  heap_shape s' (l1 ++ used_as b n :: l2) ∧ canary_at s' (used_as b n) ∧ ctl s' = ctl s ∧
  ∀ x, ¬ hdr_byte (l1 ++ b :: l2) x →
       ¬ b_addr b + 6 * W + n ≤ x < b_addr b + 6 * W + n + 4 → ld_byte (mem s') x = ld_byte (mem s) x.
Proof.
  intros Hs Hu Hn Hfit. apply shape_mid in Hs as Hm.
  destruct (mid_mark_used s s _ _ _ _ _ n Hm Hn Hfit) as (Hm' & Hc & Hctl & Hby); [apply hop_refl| |done|].
  { pose proof (m_b _ _ _ _ _ _ Hm) as Hb. by rewrite (h_size _ _ _ Hb), Hu. }
  split_and!; [|done..].
  apply (mid_shape _ _ _ _ (free_at (l1 ++ b :: l2))).
  - unfold as_prev in *. by rewrite Hu in Hm'.
  - intros a. by rewrite !free_at_used.
Qed.

(** Lowering the used bytes of a heap whose statistics were right. *)
Lemma lower_stats s bs k :
  pool_ok s bs → watermarks_ok s → used_bytes s - k = used_sum bs → 0 ≤ k →
  let s' := s <| used_bytes := uW (used_bytes s - k) |> in
  used_bytes s' = used_sum bs ∧ watermarks_ok s'.
Proof.
  intros [] (Ht & Hh & Hm) Hu Hk. pose proof (used_sum_bounds _ _ _ po_tiles) as Hb.
  destruct pow_W_8 as (_ & ? & _). unfold watermarks_ok. cbn.
  rewrite Hu, wrap_small by (unfold uint; lia). split_and!; lia.
Qed.

Section trimmed.
Variables (b : blk) (l2 : list blk) (size : Z) (b' : blk) (l2' : list blk).
Hypothesis Ht : trimmed b l2 size b' l2'.
Hypothesis Hu : b_free b = false.
Hypothesis Hle : size ≤ b_size b.

Lemma trimmed_block : b_addr b' = b_addr b ∧ b_free b' = false ∧ size ≤ b_size b' ≤ b_size b.
Proof.
  destruct Ht as [[-> ->]|(? & -> & _)]; simpl; pose proof W_pos; split_and!; done || lia.
Qed.

Lemma trimmed_live : live l2' = live l2.
Proof.
  destruct Ht as [[_ ->]|(_ & _ & R & l & Hn & ->)]; [done|]. by apply (next_merged_live (split_rest b size)).
Qed.

Lemma trimmed_coal : coal None l2 → coal None l2'.
Proof.
  intros Hc. destruct Ht as [[_ ->]|(_ & _ & R & l & Hn & ->)]; [done|]. by apply (next_merged_coal (split_rest b size) l2).
Qed.
End trimmed.

(** The block [b] now holds a request of [n] bytes, in place. *)
Definition resized (s : tlsf_t) (l1 : list blk) (b : blk) (l2 : list blk) (n : Z) (s' : tlsf_t) : Prop :=
  ∃ bs' b', heap_inv s' bs' ∧ live bs' = live l1 ++ b' :: live l2 ∧
    b_free b' = false ∧ b_addr b' = b_addr b ∧ b_req b' = n ∧ canary_at s' b' ∧
    (∀ c x, c ∈ l1 ++ l2 → b_free c = false → b_addr c + 6 * W ≤ x < b_end c →
       ld_byte (mem s') x = ld_byte (mem s) x) ∧
    (∀ i, 0 ≤ i < n → i < b_size b → ld_byte (mem s') (b_addr b + 6 * W + i) = ld_byte (mem s) (b_addr b + 6 * W + i)).

(** A byte of a block is in no other block. *)
Lemma other_block p l1 b l2 e c x :
  tiles p (l1 ++ b :: l2) e → c ∈ l1 ++ l2 → b_addr c ≤ x < b_end c → ¬ b_addr b ≤ x < b_end b.
Proof.
  intros Ht Hc Hx Hb. assert (c = b) as ->.
  { eapply (tiles_payload _ _ _ _ _ x); [exact Ht|set_solver|apply mid_B|done|done]. }
  eapply tiles_fresh; [exact Ht|]. by exists b.
Qed.

(** What both in-place branches establish. *)
Section resized.
Variables (s s2 s' : tlsf_t) (l1 l2 l2' : list blk) (b b1 : blk) (n : Z).
Hypothesis Hinv : heap_inv s (l1 ++ b :: l2).
Hypothesis Hu : b_free b = false.
Hypothesis Hn : 0 < n ∧ n + 4 ≤ b_size b1.
Hypothesis Ha : b_addr b1 = b_addr b.
Hypothesis Hs2 : heap_shape s2 (l1 ++ used_as b1 n :: l2').
Hypothesis Hcan : canary_at s2 (used_as b1 n).
Hypothesis Hlive : live l2' = live l2.
Hypothesis Hcoal : coal None l2'.
Hypothesis Hkeep : keeps (l1 ++ used_as b1 n :: l2') s2 s'.
Hypothesis Hmem : mem s' = mem s2.
Hypothesis Hstats : used_bytes s' = used_sum (l1 ++ used_as b1 n :: l2') ∧ watermarks_ok s'.
Hypothesis Hby : ∀ x, ¬ hdr_byte (l1 ++ b :: l2) x → ¬ hdr_byte (l1 ++ used_as b1 n :: l2') x →
  ¬ (b_addr b + 6 * W + n ≤ x ∧ (x < b_end b ∨ x < b_end b1)) → ld_byte (mem s2) x = ld_byte (mem s) x.

Lemma resized_live : live (l1 ++ used_as b1 n :: l2') = live l1 ++ used_as b1 n :: live l2.
Proof. by rewrite live_app, live_used, Hlive. Qed.

Lemma resized_inv : heap_inv s' (l1 ++ used_as b1 n :: l2').
Proof.
  pose proof Hinv as [_ Hc _ Hreq _]. destruct Hstats.
  split; [by eapply keeps_shape| |done| |done].
  - apply coal_app in Hc as [? _]. apply coal_app. split; [done|]. split; [by intros [_ [=]]|done].
  - eapply (req_live (l1 ++ used_as b1 n :: l2)).
    + apply Forall_app in Hreq as [? [_ ?]%Forall_cons]. apply Forall_app. split; [done|].
      constructor; [|done]. intros _. simpl. lia.
    + intros c. rewrite resized_live, elem_of_app, elem_of_cons, !live_elem. set_solver.
Qed.

Lemma resized_intro : resized s l1 b l2 n s'.
Proof.
  destruct (hs_pool _ _ (hi_shape _ _ Hinv)) as [_ _ _ _ Ht]. destruct (hs_pool _ _ Hs2) as [_ _ _ _ Ht2].
  pose proof W_pos. exists (l1 ++ used_as b1 n :: l2'), (used_as b1 n).
  split_and!; [apply resized_inv|apply resized_live|done|done|done| | |].
  - unfold canary_at. rewrite Hmem. exact Hcan.
  - intros c x Hc Hcf Hx. assert (c ∈ l1 ++ l2') as Hc'.
    { assert (c ∈ live (l1 ++ l2')) as [_ ?]%live_elem; [|done].
      rewrite live_app, Hlive, <- live_app. by apply live_elem. }
    rewrite Hmem. apply Hby.
    + eapply payload_not_hdr; [exact Ht| |done]. set_solver.
    + eapply payload_not_hdr; [exact Ht2| |done]. set_solver.
    + pose proof (other_block _ _ _ _ _ _ x Ht Hc ltac:(lia)).
      pose proof (other_block _ _ _ _ _ _ x Ht2 Hc' ltac:(lia)) as Ho. unfold b_end in *. simpl in *. lia.
  - intros i Hi Hib. rewrite Hmem. apply Hby; [| |lia].
    + eapply payload_not_hdr; [exact Ht|apply mid_B|unfold b_end; lia].
    + eapply payload_not_hdr; [exact Ht2|apply mid_B|]. unfold b_end. simpl. lia.
Qed.
End resized.

Lemma shrink_resized s l1 b l2 n :
  heap_inv s (l1 ++ b :: l2) → b_free b = false → 0 < n < 2 ^ 31 - 64 → internal n ≤ b_size b →
  resized s l1 b l2 n (realloc_shrink s (b_addr b) n (internal n) (accounted_block_size s (b_addr b))).
Proof.
  intros Hinv Hu Hn Hle. pose proof Hinv as [Hs Hcoal Hused Hreq Hwm].
  destruct (internal_bounds n ltac:(lia)) as (? & ? & ? & ?). pose proof W_pos.
  destruct (trim_spec s l1 b l2 (internal n) Hs Hu) as (b1 & l2' & Ht & Hs1 & Hctl1 & Hb1); [done|lia|].
  destruct (trimmed_block _ _ _ _ _ Ht Hu Hle) as (Ha & Hu1 & Hsz). rewrite shrink_eq. cbv zeta.
  set (s1 := trim _ _ _) in *. rewrite <- Ha.
  destruct (remark_spec s1 l1 b1 l2' n Hs1 Hu1) as (Hs2 & Hcan & Hctl2 & Hb2); [lia|lia|].
  set (s2 := mark_used _ _ _) in *. rewrite Ha.
  assert (used_sum (l1 ++ b :: l2) - (b_size b - b_size b1) = used_sum (l1 ++ used_as b1 n :: l2')) as Hsum.
  { rewrite !used_sum_app, !used_sum_cons. unfold charge. rewrite Hu. simpl.
    rewrite <- (used_sum_live l2), <- (trimmed_live _ _ _ _ _ Ht), used_sum_live. lia. }
  assert (ctl s2 = ctl s) as Hctl by congruence. destruct (ctl_stats _ _ Hctl) as (Hub & _).
  rewrite (shape_accounted s _ b Hs (mid_B _ _ _)).
  pose proof (shape_accounted s2 _ (used_as b1 n) Hs2 (mid_B _ _ _)) as Hacc.
  cbn [b_addr b_size used_as] in Hacc. rewrite Ha in Hacc. rewrite Hacc.
  rewrite (proj2 (Z.leb_le _ _)) by lia.
  destruct (shape_block s _ b Hs (mid_B _ _ _)) as (_ & ? & _). destruct pow_W_8 as (_ & ? & _).
  rewrite (wrap_small _ (b_size b + 6 * W - _)) by (unfold uint; lia).
  replace (b_size b + 6 * W - (b_size b1 + 6 * W)) with (b_size b - b_size b1) by lia.
  eapply (resized_intro s s2 _ l1 l2 l2' b b1 n); try done; [lia| | | |].
  - by eapply trimmed_live.
  - eapply trimmed_coal; [exact Ht|]. apply coal_app in Hcoal as [? [_ Hc2]].
    unfold as_prev in Hc2. by rewrite Hu in Hc2.
  - apply lower_stats; [apply Hs2|by eapply watermarks_ctl|lia|lia].
  - intros x Hx1 Hx2 Hx3. rewrite used_as_byte in Hx2. unfold b_end in *.
    rewrite Hb2, Hb1; [done|done|unfold b_end; lia|done|lia].
Qed.

(** ** Growing *)

Definition expand (s : tlsf_t) (block next combined size : Z) : tlsf_t :=
  let s := carve (block_set_size (remove_free_block s next) block combined) block size in
  let nn := block_next s block in
  if nn <? pool_end s then block_set_prev_used (wr s nn f_prev_phys block) nn else s.

Lemma grow_eq s block next combined n size old :
  realloc_grow s block next combined n size old =
    let s := mark_used (expand s block next combined size) block n in
    let new := accounted_block_size s block in
    update_watermarks (s <| used_bytes := uW (used_bytes s + uW (new - old)) |>).
Proof. unfold realloc_grow, expand, carve. by destruct (split_block _ _ _) as [[r|] s1]. Qed.

(** [next->prev_phys = block; block_set_prev_used(next)]. *)
Lemma mid_fix_both s l1 B pv l2 M :
  mid s l1 B pv l2 M →
  let s' := if b_end B <? pool_end s
            then block_set_prev_used (wr s (b_end B) f_prev_phys (b_addr B)) (b_end B) else s in
  mid s' l1 B None l2 M ∧ quiet (l1 ++ B :: l2) s s'.
Proof.
  intros Hm. destruct (mid_range _ _ _ _ _ _ Hm) as (_ & _ & Hr).
  destruct (mid_phys _ _ _ _ _ _ Hm _ Hr) as [Hm1 Hq1].
  destruct (mid_fix_used _ _ _ _ _ _ Hm1) as [Hm2 Hq2].
  destruct (b_end B <? pool_end s) eqn:E; cbv zeta in *.
  - cbn [pool_end wr set_field] in Hm2, Hq2. rewrite E in Hm2, Hq2. split; [done|by eapply quiet_trans].
  - by rewrite E in Hm2, Hq2.
Qed.

Lemma expand_spec s l1 b c l2 size :
  heap_shape s (l1 ++ b :: c :: l2) → b_free b = false → b_free c = true →
  32 ≤ size ∧ (8 | size) → size < 2 ^ 31 → size ≤ b_size b + 6 * W + b_size c →
  let J := joined b c in
  let B := (cut J l2 size).1 in let l2' := (cut J l2 size).2 in
  let s' := expand s (b_addr b) (b_addr c) (uW (b_size b + BLOCK_OVERHEAD + b_size c)) size in
  heap_shape s' (l1 ++ B :: l2') ∧ ctl s' = ctl s ∧
  ∀ x, ¬ hdr_byte (l1 ++ b :: c :: l2) x → ¬ hdr_byte (l1 ++ B :: l2') x →
       ld_byte (mem s') x = ld_byte (mem s) x.
Proof.
  intros Hs Hu Hf Hsize Hlt Hle. cbv zeta. apply shape_mid in Hs as Hm.
  destruct (hs_pool _ _ Hs) as [_ _ _ _ Ht].
  assert (free_at (l1 ++ b :: c :: l2) (b_addr c)) as Hfc.
  { rewrite free_at_app, !free_at_cons. auto. }
  destruct (mid_remove _ _ _ _ _ _ Hm _ Hfc) as [Hm1 Hq1]. unfold expand.
  set (s1 := remove_free_block _ _) in *.
  destruct (mid_join _ _ _ _ _ _ _ Hm1) as [Hm2 Hq2]; [|naive_solver|].
  { rewrite free_at_used by done. intros [Hx%free_at_hdr _]. exact (tiles_fresh _ _ _ _ _ Ht Hx). }
  set (s2 := block_set_size _ _ _) in *. set (J := joined b c) in *.
  assert (mid s2 l1 J (as_prev c) l2 (free_at (l1 ++ l2))) as Hm3.
  { eapply mid_iff; [|exact Hm2]. intros a. cbv beta. rewrite free_at_used by done. apply free_at_but.
    pose proof (tiles_fresh (pool_start s) (l1 ++ [b]) c l2 (pool_end s)) as Hfr.
    rewrite <- !(assoc_L (++)) in Hfr. specialize (Hfr Ht). intros Hx. apply Hfr.
    apply in_hdr_app in Hx as [?|?]; apply in_hdr_app; [by left|right]. apply in_hdr_cons. by right. }
  destruct (mid_carve _ _ _ _ _ size Hm3 Hsize Hlt) as (pv & Hm4 & Hq4); [done|].
  change (b_addr J) with (b_addr b) in Hm4, Hq4. set (s3 := carve _ _ _) in *.
  assert (b_addr (cut J l2 size).1 = b_addr b) as Ha by exact (cut_addr J l2 size).
  set (B := (cut J l2 size).1) in *. set (l2' := (cut J l2 size).2) in *.
  pose proof (mid_next _ _ _ _ _ _ Hm4) as Hnx. rewrite Ha in Hnx. rewrite Hnx.
  destruct (mid_fix_both _ _ _ _ _ _ Hm4) as [Hm5 Hq5]. rewrite Ha in Hm5, Hq5.
  assert (b_free B = false) as HuB by (unfold B, cut; by destruct (_ <=? _)).
  split_and!.
  - eapply mid_shape; [unfold as_prev; rewrite HuB; exact Hm5|].
    intros a. by rewrite free_at_used.
  - destruct Hq1, Hq2, Hq4, Hq5. congruence.
  - intros x Hx1 Hx2. destruct Hq1 as [_ B1], Hq2 as [_ B2], Hq4 as [_ B4], Hq5 as [_ B5].
    by rewrite B5, B4, B2, B1.
Qed.

Lemma grow_resized s l1 b c l2 n :
  heap_inv s (l1 ++ b :: c :: l2) → b_free b = false → b_free c = true → 0 < n < 2 ^ 31 - 64 →
  b_size b < internal n ≤ b_size b + 6 * W + b_size c →
  resized s l1 b (c :: l2) n
    (realloc_grow s (b_addr b) (b_addr c) (uW (b_size b + BLOCK_OVERHEAD + b_size c)) n (internal n)
       (accounted_block_size s (b_addr b))).
Proof.
  intros Hinv Hu Hf Hn Hle. pose proof Hinv as [Hs Hcoal Hused Hreq Hwm].
  destruct (internal_bounds n ltac:(lia)) as (? & ? & ? & ?). pose proof W_pos.
  destruct (expand_spec s l1 b c l2 (internal n) Hs Hu Hf) as (Hs1 & Hctl1 & Hb1); [done|lia|lia|].
  rewrite grow_eq. cbv zeta. set (s1 := expand _ _ _ _ _) in *.
  pose proof (cut_size (joined b c) l2 (internal n) (proj2 Hle)) as Hsz.
  pose proof (cut_used_sum (joined b c) l2 (internal n)) as Hcs.
  pose proof (cut_addr (joined b c) l2 (internal n)) as Ha.
  assert (live (cut (joined b c) l2 (internal n)).2 = live (c :: l2)) as Hlive.
  { rewrite live_free by done. unfold cut. destruct (_ <=? _); [by apply live_free|done]. }
  assert (coal None (cut (joined b c) l2 (internal n)).2) as Hc2.
  { apply coal_app in Hcoal as [_ [_ [_ Hc]]]. unfold as_prev in Hc. rewrite Hf in Hc.
    eapply (cut_coal (joined b c)). by eapply coal_some. }
  assert (b_free (cut (joined b c) l2 (internal n)).1 = false) as Hu1
    by (unfold cut; by destruct (_ <=? _)).
  set (b1 := (cut (joined b c) l2 (internal n)).1) in *. set (l2' := (cut (joined b c) l2 (internal n)).2) in *.
  change (b_addr (joined b c)) with (b_addr b) in Ha.
  change (b_size (joined b c)) with (b_size b + 6 * W + b_size c) in Hsz. rewrite <- Ha.
  destruct (remark_spec s1 l1 b1 l2' n Hs1 Hu1) as (Hs2 & Hcan & Hctl2 & Hb2); [lia|lia|].
  set (s2 := mark_used _ _ _) in *. rewrite Ha.
  assert (ctl s2 = ctl s) as Hctl by congruence. destruct (ctl_stats _ _ Hctl) as (Hub & _).
  rewrite (shape_accounted s _ b Hs (mid_B _ _ _)).
  pose proof (shape_accounted s2 _ (used_as b1 n) Hs2 (mid_B _ _ _)) as Hacc.
  cbn [b_addr b_size used_as] in Hacc. rewrite Ha in Hacc. rewrite Hacc.
  destruct (shape_block s2 _ (used_as b1 n) Hs2 (mid_B _ _ _)) as (_ & ? & _).
  cbn [b_size used_as] in *. destruct pow_W_8 as (_ & ? & _).
  destruct (shape_block s _ b Hs (mid_B _ _ _)) as (_ & ? & _).
  rewrite (wrap_small _ (b_size b1 + 6 * W - _)) by (unfold uint; lia).
  replace (b_size b1 + 6 * W - (b_size b + 6 * W)) with (b_size b1 - b_size b) by lia.
  destruct (grow_stats s2 (l1 ++ used_as b1 n :: l2') (b_size b1 - b_size b)) as [Hu' Hw'];
    [apply Hs2|by eapply watermarks_ctl| |lia|].
  { rewrite Hub, Hused, !used_sum_app, !used_sum_cons, Hcs. unfold charge. rewrite Hu, Hf. simpl. lia. }
  eapply (resized_intro s s2 _ l1 (c :: l2) l2' b b1 n); try done; [lia| | | |].
  - eapply keeps_trans; [|apply update_watermarks_keeps]. done.
  - by rewrite (proj1 (update_watermarks_mem _)).
  - rewrite (proj2 (update_watermarks_mem _)). split; [exact Hu'|]. exact (proj2 (Hw' 0)).
  - intros x Hx1 Hx2 Hx3. rewrite used_as_byte in Hx2. unfold b_end in Hx3.
    rewrite Hb2, Hb1; [done|done|done|done|lia].
Qed.

(** ** Moving *)

(** Writes into the payload of a block keep the invariant. *)
Lemma payload_write_inv s bs b m :
  heap_inv s bs → b ∈ bs →
  (∀ x, ¬ b_addr b + 6 * W ≤ x < b_end b → ld_byte m x = ld_byte (mem s) x) →
  heap_inv (s <| mem := m |>) bs.
Proof.
  intros [Hs Hc Hu Hr Hw] Hb Hm. split; [|done..]. eapply keeps_shape; [|exact Hs]. split; [done..|].
  intros x Hx. apply Hm. intros Hin. destruct (hs_pool _ _ Hs). by eapply payload_not_hdr.
Qed.

(** The data of an allocation is the same in both states. *)
Definition same_data (s s' : tlsf_t) (p q n : Z) : Prop :=
  ∀ i, 0 ≤ i < n → ld_byte (mem s') (q + i) = ld_byte (mem s) (p + i).

Lemma alloc_req bs p n : Forall req_ok bs → (p, n) ∈ allocs bs →
  ∃ b, b ∈ bs ∧ b_free b = false ∧ p = b_addr b + 6 * W ∧ b_req b = n ∧ 0 < n ∧ n + 4 ≤ b_size b.
Proof.
  rewrite Forall_forall. intros Hr (b & Hb & Hf & Ha & Hn)%allocs_elem. exists b.
  destruct (Hr b Hb Hf). split_and!; [done..|lia|done|lia|lia].
Qed.

Lemma kept_data s s' bs p n :
  heap_inv s bs → kept bs s s' → (p, n) ∈ allocs bs → same_data s s' p p n.
Proof.
  intros Hi Hk Hp i Hin. destruct (alloc_req bs p n (hi_req _ _ Hi) Hp) as (b & Hb & Hf & -> & _ & _ & ?).
  eapply Hk; [done|done|unfold b_end; lia].
Qed.

Definition move (s : tlsf_t) (ptr old n : Z) : Z * tlsf_t :=
  let '(new_ptr, s) := tlsf_malloc s n in
  if new_ptr =? 0 then (0, s) else
  let k := if old <? n then old else n in
  let s := s <| mem := memcpy (mem s) new_ptr ptr (Z.to_nat k) |> in
  (new_ptr, tlsf_free s ptr).

Lemma allocs_apart s bs p n q m :
  heap_inv s bs → (p, n) ∈ allocs bs → (q, m) ∈ allocs bs → p ≠ q → p + n + 4 + 6 * W ≤ q ∨ q + m + 4 + 6 * W ≤ p.
Proof.
  intros Hi Hp Hq Hne. destruct (alloc_req bs p n (hi_req _ _ Hi) Hp) as (b & Hb & _ & -> & _ & _ & ?).
  destruct (alloc_req bs q m (hi_req _ _ Hi) Hq) as (c & Hc & _ & -> & _ & _ & ?).
  destruct (hs_pool _ _ (hi_shape _ _ Hi)) as [_ _ _ _ Ht].
  destruct (tiles_order _ _ _ _ _ Ht Hb Hc) as [->|[?|?]]; [done| |]; unfold b_end in *; lia.
Qed.

Lemma alloc_nodup s bs : heap_inv s bs → NoDup (allocs bs).*1.
Proof.
  intros Hi. destruct (hs_pool _ _ (hi_shape _ _ Hi)) as [_ _ _ _ Ht]. revert Ht.
  generalize (pool_start s), (pool_end s). clear Hi. induction bs as [|b bs IH]; intros p e; simpl; [constructor|].
  intros (Hp & ? & _ & Ht). unfold allocs. simpl. unfold alloc_of at 1.
  destruct (b_free b); [by eapply IH|]. simpl. constructor; [|by eapply IH].
  intros ([q m] & Hq & (c & Hc & _ & Ha & _)%allocs_elem)%list_elem_of_fmap. simpl in Hq.
  destruct (tiles_bounds _ _ _ _ Ht Hc). unfold b_end in *. pose proof W_pos. lia.
Qed.

(** Outcome of a successful reallocation of [(p, m)] to [(q, n)]. *)
Definition reallocated (s : tlsf_t) (bs : list blk) (p m q n : Z) (s' : tlsf_t) : Prop :=
  ∃ bs' rest, heap_inv s' bs' ∧ allocs bs ≡ₚ (p, m) :: rest ∧ allocs bs' ≡ₚ (q, n) :: rest ∧
    same_data s s' p q (Z.min m n) ∧ (∀ r k, (r, k) ∈ rest → same_data s s' r r k) ∧
    canaries s' bs'.

(** Writing the data of an allocation. *)
Lemma data_write s bs q n m :
  heap_inv s bs → (q, n) ∈ allocs bs →
  (∀ x, ¬ q ≤ x < q + n → ld_byte m x = ld_byte (mem s) x) →
  let s' := s <| mem := m |> in
  heap_inv s' bs ∧ (canaries s bs → canaries s' bs) ∧
  ∀ r k, (r, k) ∈ allocs bs → r ≠ q → same_data s s' r r k.
Proof.
  intros Hi Hq Hm. destruct (alloc_req bs q n (hi_req _ _ Hi) Hq) as (b & Hb & Hf & -> & <- & ? & ?).
  cbv zeta. split_and!.
  - eapply payload_write_inv; [done|exact Hb|]. intros x Hx. apply Hm. unfold b_end in Hx. lia.
  - intros Hc c Hin Hcf. assert (canary_at s c) as Hcc by auto. unfold canary_at in *.
    assert (∀ j, 0 ≤ j < 4 → ¬ b_addr b + 6 * W ≤ b_addr c + 6 * W + b_req c + j < b_addr b + 6 * W + b_req b) as Hout.
    { intros j Hj. destruct (decide (b_addr b + 6 * W = b_addr c + 6 * W)) as [He|Hne].
      - assert (b = c) as -> by (destruct (hs_pool _ _ (hi_shape _ _ Hi)); eapply tiles_unique; [done..|lia]). lia.
      - pose proof (hi_req _ _ Hi) as Hr. rewrite Forall_forall in Hr. destruct (Hr c Hin Hcf).
        assert ((b_addr c + 6 * W, b_req c) ∈ allocs bs) as Hca
          by (apply allocs_elem; exists c; split_and!; [done..|lia|done]).
        destruct (allocs_apart s bs _ _ _ _ Hi Hq Hca Hne); pose proof W_pos; lia. }
    cbn [mem set_field]. pose proof (Hout 0 ltac:(lia)) as Hout0. rewrite Z.add_0_r in Hout0.
    by rewrite !Hm by (done || apply Hout; lia).
  - intros r k Hr Hne i Hik. cbn [mem set_field]. apply Hm.
    destruct (allocs_apart s bs _ _ _ _ Hi Hr Hq Hne); pose proof W_pos; lia.
Qed.

Lemma fresh_ptr (q n p m : Z) l : NoDup (((q, n) :: l).*1) → (p, m) ∈ l → p ≠ q.
Proof.
  simpl. intros [Hq _]%NoDup_cons Hp ->. apply Hq. apply list_elem_of_fmap. by exists (q, m).
Qed.

Lemma move_cases s bs p m n :
  heap_inv s bs → (p, m) ∈ allocs bs → canaries s bs → 0 < n < 2 ^ 31 - 64 →
  move s p m n = (0, count_alloc_fail s) ∨
  ∃ q s', move s p m n = (q, s') ∧ q ≠ 0 ∧ reallocated s bs p m q n s'.
Proof.
  intros Hi Hp Hc Hn. unfold move.
  destruct (malloc_cases s bs n Hi Hn) as [[_ ->]|(bs1 & q & s1 & -> & Hq0 & Hi1 & Ha1 & Hk1 & Hc1)]; [by left|right].
  rewrite (proj2 (Z.eqb_neq _ _)) by done. set (k := if m <? n then m else n).
  assert (k = Z.min m n) as Hkmin by (unfold k; destruct (Z.ltb_spec m n); lia).
  destruct (alloc_req bs p m (hi_req _ _ Hi) Hp) as (_ & _ & _ & _ & _ & Hm0 & _).
  assert (NoDup ((q, n) :: allocs bs).*1) as Hnd by (rewrite <- Ha1; by eapply alloc_nodup).
  pose proof (fresh_ptr _ _ _ _ _ Hnd Hp) as Hpq.
  assert ((q, n) ∈ allocs bs1) as Hq1 by (rewrite Ha1; set_solver).
  assert ((p, m) ∈ allocs bs1) as Hp1 by (rewrite Ha1; set_solver).
  pose proof (allocs_apart _ _ _ _ _ _ Hi1 Hq1 Hp1 (not_eq_sym Hpq)) as Hap. pose proof W_pos.
  assert (∀ x, ld_byte (memcpy (mem s1) q p (Z.to_nat k)) x =
    if decide (q ≤ x < q + k) then ld_byte (mem s1) (p + (x - q)) else ld_byte (mem s1) x) as Hcp.
  { intros x. rewrite memcpy_spec by lia. unfold moved. by rewrite Z2Nat.id by lia. }
  destruct (data_write s1 bs1 q n (memcpy (mem s1) q p (Z.to_nat k)) Hi1 Hq1) as (Hi2 & Hc2 & Hd2).
  { intros x Hx. rewrite Hcp, decide_False by lia. done. }
  set (s2 := s1 <| mem := _ |>) in *.
  destruct (free_cases s2 bs1 p m Hi2 Hp1) as (bs3 & Hi3 & Ha3 & _ & Hby & Hc3).
  exists q, (tlsf_free s2 p). split_and!; [done|done|].
  apply elem_of_Permutation in Hp as [rest Hrest]. exists bs3, rest.
  assert (∀ r j, (r, j) ∈ allocs bs1 → same_data s2 (tlsf_free s2 p) r r j) as Hd3.
  { intros r j Hr i Hij. destruct (alloc_req bs1 r j (hi_req _ _ Hi1) Hr) as (b & Hb & _ & -> & _ & _ & ?).
    eapply Hby; [exact Hb|unfold b_end; lia]. }
  split_and!; [done|done| | | |auto].
  - rewrite Ha1, Hrest in Ha3. rewrite Permutation_swap in Ha3. by apply Permutation_cons_inv in Ha3.
  - intros i Hik. rewrite (Hd3 q n) by (done || lia). cbn [mem s2 set_field]. rewrite Hcp, decide_True by lia.
    replace (p + (q + i - q)) with (p + i) by lia.
    apply (kept_data s s1 bs p m); [done|done|rewrite Hrest; set_solver|lia].
  - intros r j Hr i Hij. assert ((r, j) ∈ allocs bs) as Hrb by (rewrite Hrest; set_solver).
    rewrite (Hd3 r j) by (done || rewrite Ha1; set_solver).
    rewrite (Hd2 r j); [|rewrite Ha1; set_solver|by eapply fresh_ptr|done].
    by apply (kept_data s s1 bs r j).
Qed.

Lemma resized_reallocated s l1 b l2 n s' :
  heap_inv s (l1 ++ b :: l2) → b_free b = false → canaries s (l1 ++ b :: l2) →
  resized s l1 b l2 n s' → 
  reallocated s (l1 ++ b :: l2) (b_addr b + 6 * W) (b_req b) (b_addr b + 6 * W) n s'.
Proof.
  intros Hi Hf Hc (bs' & b' & Hi' & Hl & Hf' & Ha & Hr & Hcan & Hoth & Hown).
  exists bs', (allocs (l1 ++ l2)). pose proof (hi_req _ _ Hi) as Hreq. rewrite Forall_forall in Hreq.
  destruct (Hreq b (mid_B _ _ _) Hf) as [? ?]. split_and!.
  - done.
  - by rewrite !allocs_app, allocs_used, Permutation_middle.
  - rewrite <- (allocs_live bs'), Hl, allocs_app, allocs_used, !allocs_live, Ha, Hr, allocs_app by done.
    by rewrite Permutation_middle.
  - intros i Hin. apply Hown; lia.
  - intros r k (c & Hin & Hcf & Hca & Hcr)%allocs_elem i Hik.
    assert (c ∈ l1 ++ b :: l2) as Hc' by set_solver. destruct (Hreq c Hc' Hcf).
    apply (Hoth c); [done|done|unfold b_end; lia].
  - intros c Hin Hcf. assert (c ∈ live bs') as Hcl by (by apply live_elem). rewrite Hl in Hcl.
    assert (c = b' ∨ c ∈ l1 ++ l2) as [->|Hcl'].
    { revert Hcl. rewrite elem_of_app, elem_of_cons, !live_elem, elem_of_app. tauto. }
    { done. }
    assert (c ∈ l1 ++ b :: l2) as Hc' by set_solver.
    eapply (kept_canary s s' (l1 ++ l2)); [|done|done|by apply Hreq|by apply Hc].
    intros d x Hd Hdf Hx. by apply (Hoth d).
Qed.

Lemma realloc_eq s bs b n :
  heap_inv s bs → b ∈ bs → b_free b = false → canary_at s b → 0 < n < 2 ^ 31 - 64 →
  let block := b_addr b in let p := b_addr b + 6 * W in
  let next := block_next s block in
  let combined := uW (b_size b + BLOCK_OVERHEAD + block_size s next) in
  tlsf_realloc s p n =
    if internal n <=? b_size b then
      (p, realloc_shrink s block n (internal n) (accounted_block_size s block))
    else if (next <? pool_end s) && block_is_free s next && (internal n <=? combined) then
      (p, realloc_grow s block next combined n (internal n) (accounted_block_size s block))
    else move s p (b_req b) n.
Proof.
  intros Hi Hb Hf Hc Hn. cbv zeta. pose proof (hi_shape _ _ Hi) as Hs.
  destruct (shape_block _ _ b Hs Hb) as (_ & _ & ? & _). pose proof W_pos. destruct pow_W_8 as (_ & ? & _).
  unfold tlsf_realloc. rewrite !(proj2 (Z.eqb_neq _ _)) by lia.
  rewrite size_with_canary_ok, (shape_ptr _ _ b Hs Hb), (shape_live _ _ b Hs Hb), Hf by lia. cbn [negb].
  pose proof (hi_req _ _ Hi) as Hreq. rewrite Forall_forall in Hreq.
  rewrite (proj2 (shape_canary _ _ b Hs Hb (Hreq b Hb) Hf) Hc). cbn [negb].
  destruct (shape_hdr _ _ b Hs Hb) as [q Hq]. rewrite (shape_size _ _ b Hs Hb), (h_req _ _ _ Hq).
  reflexivity.
Qed.

(** [tlsf_realloc] of a live allocation. *)
Lemma realloc_cases s bs p m n :
  heap_inv s bs → (p, m) ∈ allocs bs → canaries s bs → 0 < n < 2 ^ 31 - 64 →
  tlsf_realloc s p n = (0, count_alloc_fail s) ∨
  ∃ q s', tlsf_realloc s p n = (q, s') ∧ q ≠ 0 ∧ reallocated s bs p m q n s'.
Proof.
  intros Hi Hp Hc Hn. pose proof Hp as (b & Hb & Hf & Ha & <-)%allocs_elem.
  assert (p = b_addr b + 6 * W) as -> by lia. rewrite (realloc_eq s bs b n) by auto.
  pose proof (hi_shape _ _ Hi) as Hs. destruct (shape_block _ _ b Hs Hb) as (_ & _ & ? & _). pose proof W_pos.
  apply list_elem_of_split in Hb as (l1 & l2 & ->).
  destruct (Z.leb_spec (internal n) (b_size b)) as [Hle|Hgt].
  { right. do 2 eexists. split_and!; [done|lia|]. apply resized_reallocated; [done..|]. by apply shrink_resized. }
  apply shape_mid in Hs as Hm. rewrite (mid_next _ _ _ _ _ _ Hm).
  destruct (mid_tiles2 _ _ _ _ _ _ Hm) as [_ Ht2]. rewrite (next_test _ _ _ Ht2).
  destruct l2 as [|c l2]; [by apply (move_cases s _ _ _ n Hi Hp)|]. cbn [andb].
  pose proof Ht2 as (<- & _). assert (c ∈ l1 ++ b :: c :: l2) as Hin by set_solver.
  destruct (shape_hdr _ _ c Hs Hin) as [q Hq]. destruct (shape_block _ _ c Hs Hin) as (Hsz & Hr & _).
  rewrite (hdr_is_free s q c Hq Hsz), (shape_size _ _ c Hs Hin).
  destruct (b_free c) eqn:Hcf; [cbn [andb]|by apply (move_cases s _ _ _ n Hi Hp)].
  destruct (Z.leb_spec (internal n) (uW (b_size b + BLOCK_OVERHEAD + b_size c))) as [Hle|];
    [|by apply (move_cases s _ _ _ n Hi Hp)].
  right. do 2 eexists. split_and!; [done|lia|]. apply resized_reallocated; [done..|].
  apply grow_resized; [done..|]. split; [done|]. etransitivity; [exact Hle|].
  rewrite OVERHEAD_eq. apply Z.mod_le; destruct pow_W_8 as (_ & ? & _);
    destruct (shape_block _ _ b Hs (mid_B _ _ _)) as (_ & ? & _); lia.
Qed.
End arch.
