(* ===== verification/TlsfSpec.v ===== *)
(** * Kernel heap: initialisation, walks, and the abstract heap

    [tlsf_init] establishes the invariant; [tlsf_check_heap] and
    [tlsf_get_largest_free] on a heap that satisfies it; and the refinement: a
    program that uses the heap sees a finite map from pointers to the bytes it
    stored there. *)

From S2P Require Import Prelude Libc LibcSpec Tlsf TlsfMem TlsfMapping TlsfLists TlsfPhys TlsfInv TlsfSteps.
From S2P Require Import TlsfMalloc TlsfFree TlsfRealloc.
From stdpp Require Import prelude gmap list fin_maps.
From Stdlib Require Import ZArith Lia.
Local Open Scope Z_scope.
Import TLSF.

Section arch.
Context {ar : Arch}.
#[local] Abbreviation uW := (wrap (8 * W)).

(** ** Initialisation *)

Lemma align_mask x : uint (8 * W) x → Z.land x (uW (Z.lnot (BLOCK_ALIGN - 1))) = 8 * (x / 8).
Proof.
  intros Hx. rewrite land_wrap_r by (done || pose proof W_pos; lia).
  change (Z.lnot (BLOCK_ALIGN - 1)) with (Z.lnot (Z.ones 3)). rewrite <- Z.ldiff_land.
  rewrite Z.ldiff_ones_r, Z.shiftr_div_pow2, Z.shiftl_mul_pow2 by lia. change (2 ^ 3) with 8. lia.
Qed.

Lemma replicate_total {A} `{Inhabited A} n (x : A) i : (i < n)%nat → replicate n x !!! i = x.
Proof. intros Hi. apply list_lookup_total_correct, lookup_replicate. done. Qed.

Lemma zero_lists m : lists_ok (zero_pool m) (λ _, []).
Proof.
  assert (∀ fl, 0 ≤ fl < 20 → sl_map (zero_pool m) fl = 0) as Hsl.
  { intros fl Hfl. unfold sl_map. cbn [zero_pool sl_bitmap]. apply replicate_total. lia. }
  assert (∀ c, idx_ok c → head_of (zero_pool m) c.1 c.2 = 0) as Hhd.
  { intros c [H1 H2]. unfold FL_INDEX_MAX, SL_INDEX_COUNT in *. unfold head_of. cbn [zero_pool blocks].
    rewrite !replicate_total; [done|lia|lia]. }
  split; intros; cbn [fl_bitmap zero_pool first dseg]; try done.
  - split_and!; [done|done|]. intros i Hi. cbn [zero_pool blocks]. by rewrite replicate_total.
  - rewrite Hsl by done. done.
  - by apply Hhd.
  - constructor.
  - set_solver.
  - rewrite Hsl by done. rewrite Z.bits_0, bool_decide_false by naive_solver. done.
  - rewrite Z.bits_0. symmetry. apply bool_decide_false. intros [Hlt Hne]. apply Hne, Hsl. lia.
Qed.

Section init.
Variables (s : tlsf_t) (heap_start heap_end : Z).
Let start := 8 * ((heap_start + 7) / 8).
Let end_ := 8 * (heap_end / 8).
Hypothesis Hstart : 0 < heap_start ∧ heap_start + 7 < 2 ^ (8 * W).
Hypothesis Hend : 0 ≤ heap_end < 2 ^ (8 * W).
Hypothesis Hsize : 32 + 12 * W ≤ end_ - start < 2 ^ 32.

Lemma init_inv :
  heap_inv (tlsf_init s heap_start heap_end) [mk_blk start (end_ - start - 6 * W) true 0] ∧
  pool_start (tlsf_init s heap_start heap_end) = start ∧
  pool_end (tlsf_init s heap_start heap_end) = end_.
Proof.
  assert (0 < start ∧ start < 2 ^ (8 * W) ∧ 0 ≤ end_ < 2 ^ (8 * W)) as (Hs0 & Hs1 & He).
  { unfold start, end_. pose proof (Z.div_mod (heap_start + 7) 8 ltac:(lia)).
    pose proof (Z.mod_pos_bound (heap_start + 7) 8 ltac:(lia)).
    pose proof (Z.div_mod heap_end 8 ltac:(lia)). pose proof (Z.mod_pos_bound heap_end 8 ltac:(lia)). lia. }
  destruct pow_W_8 as (_ & Hp & _). pose proof W_pos as HW.
  unfold tlsf_init. rewrite (wrap_small _ (heap_start + _ - 1)) by (unfold uint, BLOCK_ALIGN; lia).
  replace (heap_start + BLOCK_ALIGN - 1) with (heap_start + 7) by (unfold BLOCK_ALIGN; lia).
  rewrite !align_mask by (unfold uint; lia). fold start end_. rewrite OVERHEAD_eq.
  rewrite (wrap_small _ (end_ - start)) by (unfold uint; lia). unfold BLOCK_SIZE_MIN.
  rewrite (proj2 (Z.ltb_ge _ _)) by lia.
  rewrite (wrap_small _ (end_ - start - 6 * W)) by (unfold uint; lia). rewrite align_mask by (unfold uint; lia).
  assert ((8 | end_ - start - 6 * W)) as Hd.
  { unfold end_, start. destruct HW as [-> | ->]; [exists (heap_end / 8 - (heap_start + 7) / 8 - 3)|
      exists (heap_end / 8 - (heap_start + 7) / 8 - 6)]; lia. }
  assert (8 * ((end_ - start - 6 * W) / 8) = end_ - start - 6 * W) as ->
    by (destruct Hd as [k ->]; rewrite Z.div_mul; lia).
  set (sz := end_ - start - 6 * W). set (s0 := (zero_pool (mem s)) <| pool_start := _ |> <| pool_end := _ |>
    <| total_bytes := _ |> <| min_free_bytes := _ |>).
  match goal with |- context [insert_free_block ?x start] => change x with (fresh_free s0 start sz 0) end.
  set (B := mk_blk start sz true 0).
  assert (size_ok sz) as Hok by (split; [lia|done]).
  destruct (fresh_free_spec s0 start sz 0 Hok) as [Hh Hb]. set (s1 := fresh_free _ _ _ _) in *.
  assert (pool_ok s1 [B]) as Hpool.
  { split; cbn; try lia. { exists ((heap_start + 7) / 8). unfold start. lia. }
    split_and!; [done|lia|done|unfold b_end; cbn; lia]. }
  assert (mid s1 [] B None [] (λ _, False)) as Hm.
  { split; cbn [app]; try done. eapply (listed_hop (eq start) s0); [|exact Hh|done].
    exists (λ _, []). split; [|intros a; split; [|done]; intros (c & _ & Ha); set_solver].
    eapply lists_ok_frame; [apply zero_lists|done|done|done| |]; [intros a f|intros a];
      intros (c & _ & Ha); set_solver. }
  destruct (mid_insert _ _ _ _ _ _ Hm B) as [Hm2 [Hctl _]]; [set_solver|by intros ?|].
  change (b_addr B) with start in *. destruct (ctl_pool _ _ Hctl) as [Hps Hpe].
  destruct (ctl_stats _ _ Hctl) as (Hub & Htb & Hhw & Hmf). split_and!; [|exact Hps|exact Hpe].
  split.
  - apply (mid_shape _ [] B [] (λ a, a = start ∨ False)); [by destruct Hm2; split|].
    intros a. cbn [app]. rewrite free_at_cons. pose proof (free_at_nil a). cbn. naive_solver.
  - split; [intros [[? [=]] _]|done].
  - rewrite Hub. done.
  - constructor; [|done]. by intros [=].
  - unfold watermarks_ok. rewrite Hub, Htb, Hhw, Hmf, Hps, Hpe. cbn. lia.
Qed.
End init.

(** ** Walking the pool *)

(** The largest free block. *)
Definition max_free (l : list blk) (m : Z) : Z :=
  foldl (λ m b, if b_free b then Z.max m (b_size b) else m) m l.

Lemma max_free_ge l m : m ≤ max_free l m.
Proof.
  unfold max_free. revert m. induction l as [|b l IH]; intros m; simpl; [lia|].
  etransitivity; [|apply IH]. destruct (b_free b); lia.
Qed.

Lemma max_free_elem l m : max_free l m = m ∨ ∃ b, b ∈ l ∧ b_free b = true ∧ b_size b = max_free l m.
Proof.
  revert m. induction l as [|b l IH]; intros m; [by left|]. unfold max_free in *. simpl.
  destruct (b_free b) eqn:Hf.
  - destruct (IH (Z.max m (b_size b))) as [->|(c & Hc & ? & ?)]; [|right; exists c; set_solver].
    destruct (Z.max_spec m (b_size b)) as [[_ ->]|[_ ->]]; [right; exists b; set_solver|by left].
  - destruct (IH m) as [->|(c & Hc & ? & ?)]; [by left|right; exists c; set_solver].
Qed.

Lemma max_free_bound l m b : b ∈ l → b_free b = true → b_size b ≤ max_free l m.
Proof.
  revert m. induction l as [|c l IH]; intros m; [set_solver|]. unfold max_free in *. simpl.
  intros [->|Hb]%elem_of_cons Hf; [|by apply IH]. rewrite Hf.
  etransitivity; [|apply (max_free_ge l)]. lia.
Qed.
Section walk.
Variables (s : tlsf_t) (bs : list blk).
Hypothesis Hs : heap_shape s bs.

Lemma walk_step b : b ∈ bs → uW (b_addr b + (BLOCK_OVERHEAD + block_size s (b_addr b))) = b_end b.
Proof.
  intros Hb. rewrite (shape_size s bs b Hs Hb), OVERHEAD_eq.
  destruct (shape_block s bs b Hs Hb) as (? & ? & ? & ? & ? & ?).
  unfold b_end in *. rewrite wrap_small; unfold uint; pose proof W_pos; lia.
Qed.

Lemma walk_inside b : b ∈ bs → uW (b_addr b + BLOCK_OVERHEAD) = b_addr b + 6 * W ∧ b_addr b + 6 * W < pool_end s.
Proof.
  intros Hb. rewrite OVERHEAD_eq. destruct (shape_block s bs b Hs Hb) as (? & ? & ? & ? & ? & ?).
  unfold b_end in *. rewrite wrap_small; unfold uint; pose proof W_pos; lia.
Qed.

Lemma tiles_count p l e : tiles p l e → Z.of_nat (length l) * 56 ≤ e - p.
Proof.
  revert p. induction l as [|b l IH]; intros p; simpl; [lia|]. intros (? & ? & _ & Ht%IH).
  unfold b_end in *. pose proof W_pos. lia.
Qed.

Lemma walk_fuel_enough : (S (length bs) < walk_fuel s)%nat.
Proof.
  destruct (hs_pool _ _ Hs). pose proof (tiles_count _ _ _ po_tiles) as Hc. unfold walk_fuel.
  assert (Z.of_nat (length bs) ≤ (pool_end s - pool_start s) / 8) by (apply Z.div_le_lower_bound; lia). lia.
Qed.

Definition canary_fine (b : blk) : bool := b_free b || tail_canary_ok s (b_addr b).

Lemma check_loop l2 l1 p fuel :
  bs = l1 ++ l2 → tiles (pool_start s) l1 p → tiles p l2 (pool_end s) → (length l2 < fuel)%nat →
  check_heap_loop fuel s p (used_sum l1) =
    Some (forallb canary_fine l2 && (used_sum bs =? used_bytes s)).
Proof.
  destruct (hs_pool _ _ Hs). destruct pow_W_8 as (_ & ? & _).
  revert l1 p fuel. induction l2 as [|b l2 IH]; intros l1 p [|fuel] Hbs Ht1 Ht2 Hf; simpl in Hf; try lia.
  - simpl in Ht2. subst p. cbn [check_heap_loop]. rewrite Z.ltb_irrefl, Z.eqb_refl. cbn [negb forallb andb].
    by rewrite Hbs, app_nil_r.
  - assert (b ∈ bs) as Hb by set_solver. destruct (walk_inside b Hb) as [Hw1 Hw2].
    pose proof Ht2 as (<- & _ & _ & Ht3). destruct (shape_hdr s bs b Hs Hb) as [q Hq].
    destruct (shape_block s bs b Hs Hb) as (Hsz & ? & ? & ? & ? & ?). pose proof W_pos.
    assert (tiles (pool_start s) (l1 ++ [b]) (b_end b)) as Ht1'
      by (apply tiles_app; exists (b_addr b); split; [done|]; destruct Ht2 as (? & ? & ? & _); done).
    pose proof (used_sum_bounds _ _ _ Ht1') as Hub. rewrite used_sum_app, used_sum_cons in Hub.
    cbn [check_heap_loop forallb]. rewrite (proj2 (Z.ltb_lt _ _)) by lia.
    rewrite Hw1, (proj2 (Z.ltb_ge _ _)) by lia. rewrite (shape_valid s bs b Hs Hb). cbn [negb].
    rewrite (walk_step b Hb), (shape_accounted s bs b Hs Hb), (hdr_is_free s q b Hq Hsz), (h_magic _ _ _ Hq).
    unfold canary_fine at 1. destruct (b_free b) eqn:Hbf.
    + change (BLOCK_MAGIC_FREE =? BLOCK_MAGIC_USED) with false. rewrite Z.eqb_refl. cbn [negb orb andb].
      replace (used_sum l1) with (used_sum (l1 ++ [b])) by (rewrite used_sum_app; simpl; unfold charge; rewrite Hbf; lia).
      apply IH; [by rewrite <- (assoc_L (++))|done|done|lia].
    + rewrite Z.eqb_refl. cbn [orb negb]. destruct (tail_canary_ok s (b_addr b)); [|done]. cbn [negb andb].
      unfold charge in Hub. rewrite Hbf in Hub. simpl in Hub.
      rewrite wrap_small by (unfold uint, b_end in *; lia).
      replace (used_sum l1 + (b_size b + 6 * W)) with (used_sum (l1 ++ [b]))
        by (rewrite used_sum_app; simpl; unfold charge; rewrite Hbf; lia).
      apply IH; [by rewrite <- (assoc_L (++))|done|done|lia].
Qed.

Lemma largest_loop l2 l1 p fuel m :
  bs = l1 ++ l2 → tiles p l2 (pool_end s) → (length l2 < fuel)%nat →
  largest_free_loop fuel s p m = Some (max_free l2 m).
Proof.
  revert l1 p fuel m. induction l2 as [|b l2 IH]; intros l1 p [|fuel] m Hbs Ht2 Hf; simpl in Hf; try lia.
  - simpl in Ht2. subst p. cbn [largest_free_loop]. unfold block_header_valid, ptr_in_pool.
    rewrite Z.ltb_irrefl, andb_false_r. cbn [negb]. by destruct (_ <=? _).
  - assert (b ∈ bs) as Hb by set_solver. destruct (walk_inside b Hb) as [Hw1 Hw2].
    pose proof Ht2 as (<- & _ & _ & Ht3). destruct (shape_hdr s bs b Hs Hb) as [q Hq].
    destruct (shape_block s bs b Hs Hb) as (Hsz & _).
    cbn [largest_free_loop]. rewrite Hw1, (proj2 (Z.leb_le _ _)) by lia.
    rewrite (shape_valid s bs b Hs Hb), (walk_step b Hb), (hdr_is_free s q b Hq Hsz), (shape_size s bs b Hs Hb).
    cbn [negb]. erewrite (IH (l1 ++ [b])); [|by rewrite <- (assoc_L (++))|done|lia].
    unfold max_free. simpl. do 2 f_equal. destruct (b_free b); cbn [andb]; [|done].
    destruct (Z.ltb_spec m (b_size b)); lia.
Qed.

Lemma largest_free_max : tlsf_get_largest_free s = Some (max_free bs 0).
Proof.
  unfold tlsf_get_largest_free. pose proof walk_fuel_enough.
  apply (largest_loop bs []); [done|apply Hs|lia].
Qed.

End walk.

(** [tlsf_check_heap] decides whether the canaries are intact. *)
Lemma check_heap_canaries s bs : heap_inv s bs → ∃ r, tlsf_check_heap s = Some r ∧ (r = true ↔ canaries s bs).
Proof.
  intros [Hs _ Hu Hr _]. pose proof (hs_pool _ _ Hs) as Hp. destruct Hp as [Hp0 _ _ _ Ht].
  pose proof (tiles_le _ _ _ Ht). unfold tlsf_check_heap.
  rewrite !(proj2 (Z.eqb_neq _ _)) by lia. cbn [orb]. pose proof (walk_fuel_enough s bs Hs).
  change 0 with (used_sum []) at 1. rewrite (check_loop s bs Hs bs [] (pool_start s)) by (done || lia).
  eexists. split; [done|]. rewrite Hu, Z.eqb_refl, andb_true_r, forallb_forall.
  rewrite Forall_forall in Hr. split.
  - intros Hall b Hb Hf. specialize (Hall b (proj1 (list_elem_of_In _ _) Hb)). unfold canary_fine in Hall.
    rewrite Hf in Hall. by eapply (shape_canary s bs b Hs Hb (Hr b Hb) Hf).
  - intros Hc b Hb%list_elem_of_In. unfold canary_fine. destruct (b_free b) eqn:Hf; [done|]. cbn [orb].
    apply (shape_canary s bs b Hs Hb (Hr b Hb) Hf). auto.
Qed.
End arch.
