(* ===== verification/TlsfRefine.v ===== *)
(** * Kernel heap: refinement of an abstract heap

    The abstract heap is a finite map from pointers to the bytes stored there.
    [represents] relates it to the allocator's state; every operation of the
    allocator, and every store of a program into its own allocations, is a step
    of the abstract heap. *)

From S2P Require Import Prelude Libc LibcSpec Tlsf TlsfMem TlsfMapping TlsfLists TlsfPhys TlsfInv TlsfSteps.
From S2P Require Import TlsfMalloc TlsfFree TlsfRealloc TlsfSpec.
From stdpp Require Import prelude gmap list fin_maps.
From Stdlib Require Import ZArith Lia.
Local Open Scope Z_scope.
Import TLSF.

(** ** The abstract heap *)

Abbreviation aheap := (gmap Z (list Z)).

Inductive op :=
  | OMalloc (n : Z)
  | OFree (p : Z)
  | ORealloc (p n : Z)
  | OCalloc (count size : Z)
  | OStore (p i v : Z).

(** The operations that may return null for want of memory. *)
Definition may_fail (o : op) : bool :=
  match o with OMalloc _ | OCalloc _ _ => true | ORealloc _ n => negb (n =? 0) | _ => false end.

Inductive astep (A : aheap) : op → Z → aheap → Prop :=
  | a_fail o : may_fail o = true → astep A o 0 A
  | a_malloc n p vs :
      p ≠ 0 → A !! p = None → Z.of_nat (length vs) = n →
      astep A (OMalloc n) p (<[p := vs]> A)
  | a_calloc c k p :
      p ≠ 0 → A !! p = None → astep A (OCalloc c k) p (<[p := replicate (Z.to_nat (c * k)) 0]> A)
  | a_free_null : astep A (OFree 0) 0 A
  | a_free p : is_Some (A !! p) → astep A (OFree p) 0 (delete p A)
  | a_realloc_null n q A' : astep A (OMalloc n) q A' → astep A (ORealloc 0 n) q A'
  | a_realloc_zero p : is_Some (A !! p) → astep A (ORealloc p 0) 0 (delete p A)
  | a_realloc p vs n q ws :
      A !! p = Some vs → q ≠ 0 → delete p A !! q = None → Z.of_nat (length ws) = n →
      take (min (length vs) (length ws)) ws = take (min (length vs) (length ws)) vs →
      astep A (ORealloc p n) q (<[q := ws]> (delete p A))
  | a_store p vs i v :
      A !! p = Some vs → astep A (OStore p i v) 0 (<[p := <[Z.to_nat i := u8 v]> vs]> A).

(** What a correct program may ask for: sizes below 2 GiB, its own pointers. *)
Definition allowed (A : aheap) (o : op) : Prop :=
  match o with
  | OMalloc n => 0 ≤ n < 2 ^ 31 - 64
  | OFree p => p = 0 ∨ is_Some (A !! p)
  | ORealloc p n => 0 ≤ n < 2 ^ 31 - 64 ∧ (p = 0 ∨ is_Some (A !! p))
  | OCalloc c k => 0 ≤ c ∧ 0 ≤ k ∧ c * k < 2 ^ 31 - 64
  | OStore p i _ => ∃ vs, A !! p = Some vs ∧ 0 ≤ i < Z.of_nat (length vs)
  end.

Section arch.
Context {ar : Arch}.
#[local] Abbreviation uW := (wrap (8 * W)).

Definition run (s : tlsf_t) (o : op) : Z * tlsf_t :=
  match o with
  | OMalloc n => tlsf_malloc s n
  | OFree p => (0, tlsf_free s p)
  | ORealloc p n => tlsf_realloc s p n
  | OCalloc c k => tlsf_calloc s c k
  | OStore p i v => (0, s <| mem := st_byte (mem s) (p + i) v |>)
  end.

(** ** The contents of the allocations *)

Definition bytes (s : tlsf_t) (p n : Z) : list Z :=
  (λ i, ld_byte (mem s) (p + Z.of_nat i)) <$> seq 0 (Z.to_nat n).

Definition contents (s : tlsf_t) (l : list (Z * Z)) : aheap :=
  list_to_map ((λ pn, (pn.1, bytes s pn.1 pn.2)) <$> l).

Definition represents (s : tlsf_t) (A : aheap) : Prop :=
  ∃ bs, heap_inv s bs ∧ canaries s bs ∧ A = contents s (allocs bs).

Lemma bytes_length s p n : 0 ≤ n → Z.of_nat (length (bytes s p n)) = n.
Proof. intros. unfold bytes. rewrite length_fmap, length_seq. lia. Qed.

Lemma bytes_lookup s p n i : (i < Z.to_nat n)%nat → bytes s p n !! i = Some (ld_byte (mem s) (p + Z.of_nat i)).
Proof. intros Hi. unfold bytes. rewrite list_lookup_fmap, lookup_seq_lt by done. done. Qed.

Lemma bytes_same s s' p n : same_data s s' p p n → bytes s' p n = bytes s p n.
Proof.
  intros Hs. apply list_fmap_ext. intros i x [-> Hi]%lookup_seq. apply Hs. lia.
Qed.

Lemma contents_keys s l : ((λ pn, (pn.1, bytes s pn.1 pn.2)) <$> l).*1 = l.*1.
Proof. rewrite <- list_fmap_compose. done. Qed.

Lemma contents_perm s l l' : NoDup l.*1 → l ≡ₚ l' → contents s l = contents s l'.
Proof. intros Hn Hp. apply list_to_map_proper; [by rewrite contents_keys|by rewrite Hp]. Qed.

Lemma contents_cons s p n l : contents s ((p, n) :: l) = <[p := bytes s p n]> (contents s l).
Proof. done. Qed.

Lemma contents_none s l p : p ∉ l.*1 → contents s l !! p = None.
Proof. intros Hp. apply not_elem_of_list_to_map_1. by rewrite contents_keys. Qed.

Lemma contents_some s l p vs :
  NoDup l.*1 → contents s l !! p = Some vs ↔ ∃ n, (p, n) ∈ l ∧ vs = bytes s p n.
Proof.
  intros Hn. unfold contents. rewrite <- (elem_of_list_to_map (M := gmap Z)) by by rewrite contents_keys.
  rewrite list_elem_of_fmap. split.
  - intros ([q n] & [= -> ->] & Hin). by exists n.
  - intros (n & Hin & ->). by exists (p, n).
Qed.

Lemma contents_same s s' l :
  (∀ p n, (p, n) ∈ l → same_data s s' p p n) → contents s' l = contents s l.
Proof.
  intros Hs. unfold contents. f_equal. apply list_fmap_ext. intros i [p n] Hi. simpl. f_equal.
  apply bytes_same, Hs. by eapply list_elem_of_lookup_2.
Qed.

Lemma contents_delete s p n l : p ∉ l.*1 → delete p (contents s ((p, n) :: l)) = contents s l.
Proof. intros Hp. rewrite contents_cons, delete_insert_id; [done|]. by apply contents_none. Qed.

(** ** Simulation *)

Definition simulated (A : aheap) (o : op) (r : Z * tlsf_t) : Prop :=
  ∃ A', astep A o r.1 A' ∧ represents r.2 A'.

Lemma represents_fail s A : represents s A → represents (count_alloc_fail s) A.
Proof.
  intros (bs & [Hs Hc Hu Hr Hw] & Hcan & ->). exists bs. split_and!; [|done|done].
  split; [|done..]. eapply keeps_shape; [|exact Hs]; done.
Qed.

Section sim.
Variables (s : tlsf_t) (bs : list blk).
Hypothesis Hi : heap_inv s bs.
Hypothesis Hc : canaries s bs.
#[local] Abbreviation A := (contents s (allocs bs)).

Lemma rep : represents s A.
Proof. by exists bs. Qed.

Lemma fail_sim o : may_fail o = true → simulated A o (0, count_alloc_fail s).
Proof. intros Ho. exists A. split; [by apply a_fail|]. apply represents_fail, rep. Qed.

Lemma nodup : NoDup (allocs bs).*1.
Proof. by eapply alloc_nodup. Qed.

Lemma perm_fresh p n l : allocs bs ≡ₚ (p, n) :: l → p ∉ l.*1.
Proof. intros Hp. pose proof nodup as Hn. rewrite Hp in Hn. by apply NoDup_cons in Hn as [? _]. Qed.

Lemma own_alloc p : is_Some (A !! p) → ∃ n, (p, n) ∈ allocs bs.
Proof. intros [vs (n & Hin & _)%contents_some]; [by exists n|apply nodup]. Qed.

(** The contents after one allocation [(p, n)] is added. *)
Lemma added s' bs' p n :
  heap_inv s' bs' → allocs bs' ≡ₚ (p, n) :: allocs bs →
  (∀ r k, (r, k) ∈ allocs bs → same_data s s' r r k) →
  A !! p = None ∧ contents s' (allocs bs') = <[p := bytes s' p n]> A.
Proof.
  intros Hi' Hp Hd. pose proof (alloc_nodup s' bs' Hi') as Hn.
  pose proof Hn as Hn2. rewrite Hp in Hn2. apply NoDup_cons in Hn2 as [Hnew _]. split.
  - by apply contents_none.
  - rewrite (contents_perm _ _ _ Hn Hp), contents_cons. f_equal. by apply contents_same.
Qed.

Lemma malloc_sim n : 0 ≤ n < 2 ^ 31 - 64 → simulated A (OMalloc n) (tlsf_malloc s n).
Proof.
  intros Hn. destruct (decide (n = 0)) as [->|Hnz].
  { exists A. split; [by apply a_fail|apply rep]. }
  destruct (malloc_cases s bs n Hi ltac:(lia)) as [[_ ->]|(bs' & p & s' & -> & Hp0 & Hi' & Ha & Hk & Hc')].
  { by apply fail_sim. }
  destruct (added s' bs' p n Hi' Ha) as [Hnew He]; [intros r k; by apply kept_data|].
  exists (<[p := bytes s' p n]> A). split; [apply a_malloc; [done|done|apply bytes_length; lia]|].
  exists bs'. by split_and!; auto.
Qed.

Lemma free_sim p : p = 0 ∨ is_Some (A !! p) → simulated A (OFree p) (0, tlsf_free s p).
Proof.
  destruct (decide (p = 0)) as [->|Hnz].
  { intros _. exists A. split; [apply a_free_null|apply rep]. }
  intros [?|Hp]; [done|]. destruct (own_alloc p Hp) as [n Hin].
  destruct (free_cases s bs p n Hi Hin) as (bs' & Hi' & Ha & Hsub & Hby & Hc').
  exists (delete p A). split; [by apply a_free|]. exists bs'. split_and!; [done|auto|].
  rewrite (contents_perm _ _ _ nodup Ha), contents_delete by by eapply perm_fresh.
  symmetry. apply contents_same. intros r k Hr i Hik.
  assert ((r, k) ∈ allocs bs) as Hrb by (rewrite Ha; set_solver).
  destruct (alloc_req bs r k (hi_req _ _ Hi) Hrb) as (b & Hb & _ & -> & _ & _ & ?).
  apply (Hby b); [done|unfold b_end; lia].
Qed.

Lemma same_take s' p q m n k :
  same_data s s' p q (Z.of_nat k) → (k ≤ Z.to_nat m)%nat → (k ≤ Z.to_nat n)%nat →
  take k (bytes s' q n) = take k (bytes s p m).
Proof.
  intros Hd Hm Hn. apply list_eq. intros i. destruct (decide (i < k)%nat) as [Hi'|].
  - rewrite !lookup_take_lt, !bytes_lookup by lia. f_equal. apply Hd. lia.
  - by rewrite !lookup_take_ge by lia.
Qed.

Lemma realloc_sim p n :
  0 ≤ n < 2 ^ 31 - 64 → p = 0 ∨ is_Some (A !! p) → simulated A (ORealloc p n) (tlsf_realloc s p n).
Proof.
  intros Hn Hp. destruct (decide (p = 0)) as [->|Hnz].
  { destruct (malloc_sim n Hn) as (A' & Hs & Hr). exists A'. split; [by apply a_realloc_null|done]. }
  destruct Hp as [?|Hp]; [done|]. destruct (decide (n = 0)) as [->|Hn0].
  { assert (tlsf_realloc s p 0 = (0, tlsf_free s p)) as ->
      by (unfold tlsf_realloc; by rewrite (proj2 (Z.eqb_neq _ _)) by done).
    destruct (free_sim p (or_intror Hp)) as (A' & Hs & Hr). inversion Hs; subst; [done| |]; [done|].
    exists (delete p A). split; [by apply a_realloc_zero|done]. }
  destruct (own_alloc p Hp) as [m Hin].
  destruct (realloc_cases s bs p m n Hi Hin Hc ltac:(lia)) as [->|(q & s' & -> & Hq & Hre)].
  { apply fail_sim. simpl. by rewrite (proj2 (Z.eqb_neq _ _)). }
  destruct Hre as (bs' & rest & Hi' & Ha & Ha' & Hd & Hdr & Hc').
  destruct (alloc_req bs p m (hi_req _ _ Hi) Hin) as (_ & _ & _ & _ & _ & ? & _).
  pose proof (alloc_nodup s' bs' Hi') as Hnd'. pose proof Hnd' as Hq2. rewrite Ha' in Hq2.
  apply NoDup_cons in Hq2 as [Hq2 _].
  assert (delete p A = contents s rest) as Hdel.
  { rewrite (contents_perm _ _ _ nodup Ha). apply contents_delete. by eapply perm_fresh. }
  exists (<[q := bytes s' q n]> (delete p A)). split.
  - eapply (a_realloc _ p (bytes s p m)); [|done| |apply bytes_length; lia|].
    + apply contents_some; [apply nodup|by exists m].
    + rewrite Hdel. by apply contents_none.
    + unfold bytes at 1 2 4 5. rewrite !length_fmap, !length_seq. apply same_take; [|lia|lia].
      intros i Hik. apply Hd. lia.
  - exists bs'. split_and!; [done|done|]. rewrite (contents_perm _ _ _ Hnd' Ha'), contents_cons, Hdel.
    f_equal. symmetry. by apply contents_same.
Qed.

(** Writing an allocation's own bytes. *)
Lemma write_contents p n m :
  (p, n) ∈ allocs bs → (∀ x, ¬ p ≤ x < p + n → ld_byte m x = ld_byte (mem s) x) →
  let s' := s <| mem := m |> in
  heap_inv s' bs ∧ canaries s' bs ∧ contents s' (allocs bs) = <[p := bytes s' p n]> A.
Proof.
  intros Hp Hm. destruct (data_write s bs p n m Hi Hp Hm) as (Hi' & Hc' & Hd). cbv zeta in *.
  split_and!; [done|auto|]. apply elem_of_Permutation in Hp as [rest Hr].
  rewrite !(contents_perm _ _ _ nodup Hr), !contents_cons, insert_insert_eq. f_equal.
  apply contents_same. intros r k Hin. apply Hd; [rewrite Hr; set_solver|].
  intros ->. apply (perm_fresh p n rest Hr). apply list_elem_of_fmap. by exists (p, k).
Qed.

Lemma store_sim p i v :
  (∃ vs, A !! p = Some vs ∧ 0 ≤ i < Z.of_nat (length vs)) →
  simulated A (OStore p i v) (run s (OStore p i v)).
Proof.
  intros (vs & Hvs & Hlen). pose proof Hvs as (n & Hin & ->)%contents_some; [|apply nodup].
  destruct (alloc_req bs p n (hi_req _ _ Hi) Hin) as (_ & _ & _ & _ & _ & ? & _).
  rewrite bytes_length in Hlen by lia.
  destruct (write_contents p n (st_byte (mem s) (p + i) v) Hin) as (Hi' & Hc' & He).
  { intros x Hx. rewrite ld_byte_st_byte. rewrite decide_False by lia. done. }
  exists (<[p := <[Z.to_nat i := u8 v]> (bytes s p n)]> A). split; [by apply a_store|].
  exists bs. split_and!; [done|done|]. simpl. rewrite He. f_equal. apply list_eq. intros j.
  destruct (decide (j < Z.to_nat n)%nat) as [Hj|].
  - rewrite bytes_lookup by done. cbn [mem set_field]. rewrite ld_byte_st_byte.
    destruct (decide (j = Z.to_nat i)) as [->|Hne].
    + rewrite list_lookup_insert_eq by (unfold bytes; rewrite length_fmap, length_seq; lia).
      rewrite decide_True by lia. done.
    + rewrite list_lookup_insert_ne, bytes_lookup by done. rewrite decide_False by lia. done.
  - rewrite !lookup_ge_None_2; [done| |];
      rewrite ?length_insert; unfold bytes; rewrite length_fmap, length_seq; lia.
Qed.

Lemma calloc_total c k :
  0 ≤ c → 0 ≤ k → c * k < 2 ^ 31 - 64 →
  tlsf_calloc s c k =
    let '(p, s') := tlsf_malloc s (c * k) in
    if negb (p =? 0) then (p, s' <| mem := memset (mem s') p 0 (Z.to_nat (c * k)) |>) else (p, s').
Proof.
  intros Hc0 Hk Hlt. destruct pow_W_8 as (_ & ? & _). unfold tlsf_calloc, SIZE_MAX.
  assert (negb (k =? 0) && ((2 ^ (8 * W) - 1) / k <? c) = false) as ->.
  { destruct (Z.eqb_spec k 0) as [|Hk0]; [done|]. cbn [negb andb]. apply Z.ltb_ge.
    apply Z.div_le_lower_bound; lia. }
  rewrite wrap_small by (unfold uint; lia). by destruct (tlsf_malloc s (c * k)).
Qed.

Lemma calloc_sim c k :
  0 ≤ c ∧ 0 ≤ k ∧ c * k < 2 ^ 31 - 64 → simulated A (OCalloc c k) (tlsf_calloc s c k).
Proof.
  intros (Hc0 & Hk & Hlt). rewrite calloc_total by done. destruct (decide (c * k = 0)) as [Hz|Hnz].
  { rewrite Hz. exists A. split; [by apply a_fail|apply rep]. }
  destruct (malloc_cases s bs (c * k) Hi ltac:(lia)) as [[_ ->]|(bs' & p & s' & -> & Hp0 & Hi' & Ha & Hkp & Hc')].
  { by apply fail_sim. }
  rewrite (proj2 (Z.eqb_neq _ _)) by done. cbn [negb].
  assert ((p, c * k) ∈ allocs bs') as Hp by (rewrite Ha; set_solver).
  destruct (data_write s' bs' p (c * k) (memset (mem s') p 0 (Z.to_nat (c * k))) Hi' Hp) as (Hi2 & Hc2 & Hd2).
  { intros x Hx. rewrite memset_spec, decide_False by lia. done. }
  set (s2 := s' <| mem := _ |>) in *.
  assert (∀ r j, (r, j) ∈ allocs bs → same_data s s2 r r j) as Hd.
  { intros r j Hr i Hij. rewrite (Hd2 r j); [|rewrite Ha; set_solver| |done].
    - by apply (kept_data s s' bs r j).
    - assert (NoDup ((p, c * k) :: allocs bs).*1) by (rewrite <- Ha; by eapply alloc_nodup).
      by eapply fresh_ptr. }
  destruct (added s2 bs' p (c * k) Hi2 Ha Hd) as [Hnew He].
  exists (<[p := replicate (Z.to_nat (c * k)) 0]> A). split; [by apply a_calloc|].
  exists bs'. split_and!; [done|auto|]. simpl. rewrite He. f_equal. apply replicate_as_elem_of.
  split; [unfold bytes; by rewrite length_fmap, length_seq|].
  intros x (i & -> & Hi1%elem_of_seq)%list_elem_of_fmap. cbn [mem s2 set_field].
  rewrite memset_spec, decide_True by lia. done.
Qed.

Lemma run_sim o : allowed A o → simulated A o (run s o).
Proof.
  destruct o as [n|p|p n|c k|p i v]; simpl; [apply malloc_sim|apply free_sim|..].
  - intros [? ?]. by apply realloc_sim.
  - apply calloc_sim.
  - apply store_sim.
Qed.
End sim.

(** ** Heaps with no live allocation *)

Lemma all_free bs : allocs bs = [] → ∀ b, b ∈ bs → b_free b = true.
Proof.
  intros Ha b Hb. destruct (b_free b) eqn:Hf; [done|]. exfalso.
  assert ((b_addr b + 6 * W, b_req b) ∈ allocs bs) as Hin
    by (apply allocs_elem; exists b; split_and!; [done..|lia|done]).
  rewrite Ha in Hin. set_solver.
Qed.

(** Free blocks do not touch, so there is at most one. *)
Lemma coal_single p bs :
  coal p bs → (∀ b, b ∈ bs → b_free b = true) → bs = [] ∨ ∃ b, bs = [b].
Proof.
  destruct bs as [|b [|c bs]]; [by left|right; by exists b|]. intros (_ & Hc & _) Hall. exfalso.
  apply Hc. unfold as_prev. rewrite (Hall b) by set_solver. split; [done|]. apply Hall. set_solver.
Qed.

Lemma empty_heap s bs :
  heap_inv s bs → allocs bs = [] → pool_start s < pool_end s →
  used_bytes s = 0 ∧ tlsf_get_largest_free s = Some (pool_end s - pool_start s - 6 * W).
Proof.
  intros [Hs Hc Hu _ _] Ha Hlt. pose proof (all_free bs Ha) as Hf. destruct (hs_pool _ _ Hs) as [_ _ _ _ Ht].
  rewrite (largest_free_max s bs Hs), Hu.
  destruct (coal_single _ _ Hc Hf) as [->|[b ->]]; [simpl in Ht; lia|].
  destruct Ht as (Hp & ? & _ & He). simpl in He. unfold used_sum, charge, max_free. simpl.
  rewrite (Hf b) by set_solver. unfold b_end in He. split; [done|]. f_equal. lia.
Qed.

Lemma contents_empty s bs : contents s (allocs bs) = ∅ → allocs bs = [].
Proof. destruct (allocs bs) as [|[p n] l]; [done|]. rewrite contents_cons. intros []%insert_non_empty. Qed.

Lemma init_represents s hs he :
  let start := 8 * ((hs + 7) / 8) in let end_ := 8 * (he / 8) in
  0 < hs ∧ hs + 7 < 2 ^ (8 * W) → 0 ≤ he < 2 ^ (8 * W) → 32 + 12 * W ≤ end_ - start < 2 ^ 32 →
  represents (tlsf_init s hs he) ∅.
Proof.
  intros start end_ H1 H2 H3. destruct (init_inv s hs he H1 H2 H3) as [Hi _].
  eexists. split_and!; [exact Hi| |done]. intros b Hb%list_elem_of_singleton Hf. by subst b.
Qed.

(** The memory shows the bytes of the abstract heap: a load at offset [i] of a
    held pointer reads the [i]-th byte of its contents. *)
Definition shows (s : tlsf_t) (A : aheap) : Prop :=
  ∀ p vs, A !! p = Some vs → ∀ i v, vs !! i = Some v → ld_byte (mem s) (p + Z.of_nat i) = v.

(** Running a program against the heap: whatever it does within its rights is a
    step of the abstract heap, and the memory it then reads from its
    allocations is what the abstract heap holds. *)
Fixpoint refines_trace (s : tlsf_t) (A : aheap) (os : list op) : Prop :=
  match os with
  | [] => True
  | o :: os =>
      allowed A o → ∃ A', astep A o (run s o).1 A' ∧ shows (run s o).2 A' ∧
                          tlsf_check_heap (run s o).2 = Some true ∧
                          refines_trace (run s o).2 A' os
  end.

Lemma represents_checked s A : represents s A → tlsf_check_heap s = Some true.
Proof.
  intros (bs & Hi & Hc & _). destruct (check_heap_canaries s bs Hi) as ([] & -> & Hr); [done|].
  by apply Hr in Hc.
Qed.

Lemma represents_shows s A : represents s A → shows s A.
Proof.
  intros (bs & Hi & _ & ->) p vs (n & _ & ->)%contents_some i v Hv; [|by eapply alloc_nodup].
  unfold bytes in Hv. apply list_lookup_fmap_Some in Hv as (j & -> & [-> _]%lookup_seq). done.
Qed.

Lemma represents_trace s A os : represents s A → refines_trace s A os.
Proof.
  revert s A. induction os as [|o os IH]; intros s A (bs & Hi & Hc & ->); [done|]. intros Hok.
  destruct (run_sim s bs Hi Hc o Hok) as (A' & Hs & Hr). exists A'.
  split_and!; [done|by apply represents_shows|by eapply represents_checked|by apply IH].
Qed.

(** ** Properties *)

(** C1: after [tlsf_init] on a region of at least the smallest pool and below
    4 GiB, any sequence of [tlsf_malloc], [tlsf_free], [tlsf_realloc],
    [tlsf_calloc] and byte stores, each within the rights of the program (its
    own pointers, stores inside its allocations, requests below 2 GiB - 64),
    behaves as the abstract heap, a map from pointers to the bytes held there:
    after every step the memory of every held allocation shows exactly those
    bytes, a new pointer is none of those held, every step leaves the bytes of
    the allocations it does not name as they were, a store changes one byte,
    [tlsf_realloc] keeps the common prefix, [tlsf_calloc] gives zeroes; and
    [tlsf_check_heap] accepts the heap after every step. *)
Theorem tlsf_refines_heap s hs he os :
  0 < hs ∧ hs + 7 < 2 ^ (8 * W) → 0 ≤ he < 2 ^ (8 * W) →
  32 + 12 * W ≤ 8 * (he / 8) - 8 * ((hs + 7) / 8) < 2 ^ 32 →
  refines_trace (tlsf_init s hs he) ∅ os.
Proof. intros. apply represents_trace. by apply init_represents. Qed.

(** The allocations of a well-formed heap are 8-aligned, lie in the pool
    with their header before them and their canary after them, and no two of
    them overlap, headers and canaries included. *)
Lemma heap_separate s bs p n q m :
  heap_inv s bs → (p, n) ∈ allocs bs → (q, m) ∈ allocs bs →
  (8 | p) ∧ pool_start s + BLOCK_OVERHEAD ≤ p ∧ 0 < n ∧ p + n + BLOCK_CANARY_SIZE ≤ pool_end s ∧
  (p = q ∨ p + n + BLOCK_CANARY_SIZE + BLOCK_OVERHEAD ≤ q ∨ q + m + BLOCK_CANARY_SIZE + BLOCK_OVERHEAD ≤ p).
Proof.
  intros Hi Hp Hq. rewrite OVERHEAD_eq. unfold BLOCK_CANARY_SIZE.
  destruct (alloc_req bs p n (hi_req _ _ Hi) Hp) as (b & Hb & _ & He & _ & ? & ?).
  pose proof (hi_shape _ _ Hi) as Hs. destruct (shape_block s bs b Hs Hb) as (_ & _ & _ & Hend & ? & _).
  destruct (hs_pool _ _ Hs) as [_ Hal _ _ Ht]. pose proof (tiles_aligned _ _ _ _ Hal Ht Hb) as [k Hk].
  unfold b_end in Hend. split_and!; [|lia|lia|lia|].
  - subst p. rewrite Hk. destruct W_pos as [-> | ->]; [exists (k + 3)|exists (k + 6)]; lia.
  - destruct (decide (p = q)) as [|Hne]; [by left|right]. by apply (allocs_apart s bs).
Qed.

(** A request whose internal size (canary and alignment included), rounded up
    to the next size class, is at most the largest free block is served, when
    that block is below 1 MiB. *)
Lemma heap_malloc_succeeds s bs n k :
  heap_inv s bs → 0 < n < 2 ^ 31 - 64 → tlsf_get_largest_free s = Some k →
  search_size (internal n) ≤ k < 2 ^ 20 → (tlsf_malloc s n).1 ≠ 0.
Proof.
  intros Hi Hn Hk Hr. rewrite (largest_free_max s bs (hi_shape _ _ Hi)) in Hk. injection Hk as <-.
  destruct (internal_bounds n ltac:(lia)) as (? & ? & ? & ?).
  destruct (search_size_bounds (internal n) ltac:(lia)) as [[? _] _].
  destruct (max_free_elem bs 0) as [He|(b & Hb & Hf & He)]; [lia|].
  destruct (malloc_cases s bs n Hi Hn) as [[Hz _]|(? & p & ? & -> & ? & _)]; [|done].
  exfalso. eapply (malloc_finds s bs n b); [done..| |done]. lia.
Qed.

End arch.
