(* ===== verification/TlsfReach.v ===== *)
(** * Kernel heap: what every reachable heap guarantees

    [reached hs he s L]: the state [s] is reached from [tlsf_init] on the region
    [hs, he) by allocator calls and byte stores of a program that keeps to its
    rights, and [L] maps the pointers the program then holds to the sizes it
    asked for.  The theorems are stated on reached heaps in terms of [L] and of
    the public queries only. *)

From S2P Require Import Prelude Libc LibcSpec Tlsf TlsfMem TlsfMapping TlsfLists TlsfPhys TlsfInv TlsfSteps.
From S2P Require Import TlsfMalloc TlsfFree TlsfRealloc TlsfSpec TlsfRefine.
From stdpp Require Import prelude gmap list fin_maps.
From Stdlib Require Import ZArith Lia.
Local Open Scope Z_scope.
Import TLSF.

(** The allocations a program holds: pointer to requested size. *)
Abbreviation ledger := (gmap Z Z).

Definition rights (L : ledger) (o : op) : Prop :=
  match o with
  | OMalloc n => 0 ≤ n < 2 ^ 31 - 64
  | OFree p => p = 0 ∨ is_Some (L !! p)
  | ORealloc p n => 0 ≤ n < 2 ^ 31 - 64 ∧ (p = 0 ∨ is_Some (L !! p))
  | OCalloc c k => 0 ≤ c ∧ 0 ≤ k ∧ c * k < 2 ^ 31 - 64
  | OStore p i _ => ∃ n, L !! p = Some n ∧ 0 ≤ i < n
  end.

(** The ledger after an operation that returned [r]. *)
Definition next (L : ledger) (o : op) (r : Z) : ledger :=
  match o with
  | OMalloc n => if r =? 0 then L else <[r := n]> L
  | OFree p => delete p L
  | ORealloc p n =>
      if r =? 0 then (if n =? 0 then delete p L else L) else <[r := n]> (delete p L)
  | OCalloc c k => if r =? 0 then L else <[r := c * k]> L
  | OStore _ _ _ => L
  end.

Section arch.
Context {ar : Arch}.
#[local] Abbreviation uW := (wrap (8 * W)).

(** A region [tlsf_init] makes a heap of: at least the smallest pool, below
    4 GiB, in the address space. *)
Definition region (hs he : Z) : Prop :=
  (0 < hs ∧ hs + 7 < 2 ^ (8 * W)) ∧ 0 ≤ he < 2 ^ (8 * W) ∧
  32 + 12 * W ≤ 8 * (he / 8) - 8 * ((hs + 7) / 8) < 2 ^ 32.

Inductive reached (hs he : Z) : tlsf_t → ledger → Prop :=
  | reached_init s : region hs he → reached hs he (tlsf_init s hs he) ∅
  | reached_step s L o :
      reached hs he s L → rights L o → reached hs he (run s o).2 (next L o (run s o).1).

(** ** The bounds of the pool never change *)

Definition pool (s : tlsf_t) : Z * Z := (pool_start s, pool_end s).

Lemma pool_insert s b : pool (insert_free_block s b) = pool s.
Proof. unfold insert_free_block. destruct (clamp_index _) as [fl sl]. by destruct (head_of s fl sl =? 0). Qed.

Lemma pool_remove s b : pool (remove_free_block s b) = pool s.
Proof. unfold remove_free_block. destruct (clamp_index _). cbv zeta. repeat case_match; done. Qed.

Lemma pool_split s b n : pool (split_block s b n).2 = pool s.
Proof. unfold split_block. cbv zeta. repeat case_match; done. Qed.

Lemma pool_merge_prev s b : pool (merge_prev s b).2 = pool s.
Proof. unfold merge_prev. cbv zeta. repeat case_match; try done; exact (pool_remove _ _). Qed.

Lemma pool_merge_next s b : pool (merge_next s b).2 = pool s.
Proof. unfold merge_next. cbv zeta. repeat case_match; try done; exact (pool_remove _ _). Qed.

Lemma pool_canary s b : pool (write_tail_canary s b) = pool s.
Proof. unfold write_tail_canary. cbv zeta. repeat case_match; done. Qed.

Lemma pool_watermarks s : pool (update_watermarks s) = pool s.
Proof. unfold update_watermarks. cbv zeta. repeat case_match; done. Qed.

Lemma pool_carve s b n :
  pool (let '(r, s) := split_block s b n in match r with Some r => insert_free_block s r | None => s end) = pool s.
Proof.
  rewrite <- (pool_split s b n). destruct (split_block s b n) as [[r|] s']; [apply pool_insert|done].
Qed.

Lemma pool_malloc s n : pool (tlsf_malloc s n).2 = pool s.
Proof.
  unfold tlsf_malloc. case_match; [done|]. case_match; [|done]. cbv zeta. case_match; [done|].
  rewrite <- (pool_remove s (find_suitable_block s z)).
  rewrite <- (pool_carve (remove_free_block s (find_suitable_block s z)) (find_suitable_block s z) z).
  destruct (split_block _ _ _) as [r s']. simpl. rewrite pool_watermarks.
  generalize (match r with Some r => insert_free_block s' r | None => s' end). intros t.
  case_match; exact (pool_canary _ _).
Qed.

(** Putting a freed or trimmed block back. *)
Lemma pool_put_back s b :
  pool (let '(b, s) := merge_next s b in let s := insert_free_block s b in
        let n := block_next s b in
        if n <? pool_end s then block_set_prev_free (wr s n f_prev_phys b) n else s) = pool s.
Proof.
  rewrite <- (pool_merge_next s b). destruct (merge_next s b) as [b' s']. cbv zeta. simpl.
  rewrite <- (pool_insert s' b'). by case_match.
Qed.

Lemma pool_free s p : pool (tlsf_free s p) = pool s.
Proof.
  unfold tlsf_free. case_match; [done|]. case_match; [done|]. cbv zeta.
  match goal with |- context [merge_prev ?x ?y] =>
    transitivity (pool x); [|by case_match]; rewrite <- (pool_merge_prev x y); destruct (merge_prev x y) as [b' s'] end.
  apply (pool_put_back s' b').
Qed.

Lemma pool_shrink s b r n o : pool (realloc_shrink s b r n o) = pool s.
Proof.
  unfold realloc_shrink. rewrite <- (pool_split s b n). destruct (split_block s b n) as [[k|] s']; cbv zeta; simpl.
  - rewrite <- (pool_put_back (block_set_free s' k) k : _ = pool s'). cbv zeta.
    destruct (merge_next _ k) as [k' s2]. generalize (insert_free_block s2 k'). intros t.
    repeat case_match; exact (pool_canary _ _).
  - repeat case_match; exact (pool_canary _ _).
Qed.

Lemma pool_grow s b nx c r n o : pool (realloc_grow s b nx c r n o) = pool s.
Proof.
  unfold realloc_grow. cbv zeta. rewrite <- (pool_remove s nx).
  rewrite <- (pool_carve (block_set_size (remove_free_block s nx) b c) b n : _ = pool (remove_free_block s nx)).
  destruct (split_block _ b n) as [k s']. rewrite pool_watermarks.
  generalize (match k with Some r => insert_free_block s' r | None => s' end). intros t.
  case_match; exact (pool_canary _ _).
Qed.

Lemma pool_run s o : pool (run s o).2 = pool s.
Proof.
  assert (∀ p, pool (tlsf_free s p) = pool s) as Hf by apply pool_free.
  destruct o as [n|p|p n|c k|p i v]; cbn [run snd]; [apply pool_malloc|apply Hf| | |done].
  - unfold tlsf_realloc. case_match; [apply pool_malloc|]. case_match; [apply Hf|]. case_match; [|done]. cbv zeta.
    case_match; [done|]. case_match; [done|]. case_match; [apply pool_shrink|]. case_match; [apply pool_grow|].
    rewrite <- (pool_malloc s n). destruct (tlsf_malloc s n) as [q s']. case_match; [done|]. cbn [snd].
    by rewrite pool_free.
  - unfold tlsf_calloc. case_match; [done|]. cbv zeta. rewrite <- (pool_malloc s (uW (c * k))).
    destruct (tlsf_malloc _ _) as [q s']. by case_match.
Qed.

(** ** Reached heaps represent abstract heaps *)

Definition sizes (A : aheap) : ledger := (λ vs, Z.of_nat (length vs)) <$> A.

Lemma sizes_some A p : is_Some (sizes A !! p) → is_Some (A !! p).
Proof. unfold sizes. rewrite lookup_fmap. by destruct (A !! p); [done|intros []]. Qed.

Lemma rights_allowed A o : rights (sizes A) o → allowed A o.
Proof.
  destruct o; simpl; [done| | |done|].
  - intros [?|?%sizes_some]; auto.
  - intros [? [?|?%sizes_some]]; auto.
  - intros (n & Hn & ?). unfold sizes in Hn. rewrite lookup_fmap in Hn.
    destruct (A !! p) as [vs|] eqn:E; simplify_eq/=. by exists vs.
Qed.

Lemma malloc_next A n r A' : astep A (OMalloc n) r A' → sizes A' = next (sizes A) (OMalloc n) r.
Proof.
  inversion 1 as [|? p vs Hp| | | | | | |]; simplify_eq/=; [done|].
  rewrite (proj2 (Z.eqb_neq _ _)) by done. unfold sizes. by rewrite fmap_insert.
Qed.

Lemma step_next A o r A' :
  A !! 0 = None → rights (sizes A) o → astep A o r A' → sizes A' = next (sizes A) o r.
Proof.
  intros H0 Hr Hs. assert (sizes A !! 0 = None) as H0' by (unfold sizes; by rewrite lookup_fmap, H0).
  inversion Hs as [o' Hm| |c k p Hp| | |n q A2 Hm|p Hp|p vs n q ws Hp Hq|p vs i v Hp]; subst.
  - destruct o; simplify_eq/=; [done| |done]. apply negb_true_iff in Hm. by rewrite Hm.
  - by apply malloc_next.
  - simpl in *. rewrite (proj2 (Z.eqb_neq _ _)) by done. unfold sizes. rewrite fmap_insert, length_replicate.
    do 2 f_equal. destruct Hr as (? & ? & _). rewrite Z2Nat.id; nia.
  - simpl. by rewrite delete_id.
  - simpl. unfold sizes. by rewrite fmap_delete.
  - rewrite (malloc_next _ _ _ _ Hm). simpl. rewrite delete_id by done. by destruct (r =? 0), (n =? 0).
  - simpl. unfold sizes. by rewrite fmap_delete.
  - simpl. rewrite (proj2 (Z.eqb_neq r 0)) by done. unfold sizes. by rewrite fmap_insert, fmap_delete.
  - simpl. unfold sizes. rewrite fmap_insert, length_insert, insert_id; [done|]. by rewrite lookup_fmap, Hp.
Qed.

Lemma represents_null s A : represents s A → A !! 0 = None.
Proof.
  intros (bs & Hi & _ & ->). apply contents_none. intros ([p n] & Hz & Hin)%list_elem_of_fmap.
  simpl in Hz. destruct (alloc_req bs p n (hi_req _ _ Hi) Hin) as (b & Hb & _ & He & _).
  destruct (shape_block s bs b (hi_shape _ _ Hi) Hb) as (_ & _ & ? & _). pose proof W_pos. lia.
Qed.

Section reached.
Context {hs he : Z}.
#[local] Abbreviation first_byte := (8 * ((hs + 7) / 8)).
#[local] Abbreviation last_byte := (8 * (he / 8)).

Lemma reached_region s L : reached hs he s L → region hs he.
Proof. by induction 1. Qed.

Lemma reached_represents s L :
  reached hs he s L → (∃ A, represents s A ∧ L = sizes A) ∧ pool s = (first_byte, last_byte).
Proof.
  induction 1 as [s (H1 & H2 & H3)|s L o _ [(A & (bs & Hi & Hc & ->) & ->) Hp] Hr].
  - split; [exists ∅; split; [by apply init_represents|done]|].
    destruct (init_inv s hs he H1 H2 H3) as (_ & Hs & He). unfold pool. by rewrite Hs, He.
  - rewrite pool_run. split; [|done].
    destruct (run_sim s bs Hi Hc o (rights_allowed _ _ Hr)) as (A' & Hs & Hrep). exists A'.
    split; [done|]. symmetry. apply step_next; [|done..]. eapply represents_null. by exists bs.
Qed.

(** Two of the steps, spelled out. *)
Lemma malloc_reached s L n :
  reached hs he s L → 0 ≤ n < 2 ^ 31 - 64 →
  reached hs he (tlsf_malloc s n).2 (if (tlsf_malloc s n).1 =? 0 then L else <[(tlsf_malloc s n).1 := n]> L).
Proof. intros Hr Hn. exact (reached_step hs he s L (OMalloc n) Hr Hn). Qed.

Lemma free_reached s L p :
  reached hs he s L → is_Some (L !! p) → reached hs he (tlsf_free s p) (delete p L).
Proof. intros Hr Hp. exact (reached_step hs he s L (OFree p) Hr (or_intror Hp)). Qed.

(** The ledger is the allocations of the block structure. *)
Lemma reached_inv s L :
  reached hs he s L →
  ∃ bs, heap_inv s bs ∧ canaries s bs ∧ pool s = (first_byte, last_byte) ∧ L = list_to_map (allocs bs) ∧
    ∀ p n, L !! p = Some n ↔ (p, n) ∈ allocs bs.
Proof.
  intros ([A [(bs & Hi & Hc & ->) ->]] & Hp)%reached_represents. exists bs.
  assert (∀ l, Forall (λ pn, 0 ≤ pn.2) l → sizes (contents s l) = list_to_map l) as Hl.
  { induction 1 as [|[p n] l ? _ IH]; [done|]. rewrite contents_cons. unfold sizes in *.
    rewrite fmap_insert, IH, bytes_length by done. done. }
  assert (sizes (contents s (allocs bs)) = list_to_map (allocs bs)) as He.
  { apply Hl, Forall_forall. intros [p n] Hin.
    destruct (alloc_req bs p n (hi_req _ _ Hi) Hin) as (_ & _ & _ & _ & _ & ? & _). simpl. lia. }
  split_and!; [done..|]. intros p n. rewrite He. symmetry. apply elem_of_list_to_map. by eapply alloc_nodup.
Qed.

(** ** Properties *)

(** C2: whatever a program did with the heap within its rights, the allocations
    it holds are 8-aligned, lie in the region given to [tlsf_init] with their
    header before them and their canary after them, and no two of them overlap,
    headers and canaries included. *)
Theorem tlsf_allocations_separate s L p n q m :
  reached hs he s L → L !! p = Some n → L !! q = Some m →
  (8 | p) ∧ hs + BLOCK_OVERHEAD ≤ p ∧ 0 < n ∧ p + n + BLOCK_CANARY_SIZE ≤ he ∧
  (p = q ∨ p + n + BLOCK_CANARY_SIZE + BLOCK_OVERHEAD ≤ q ∨ q + m + BLOCK_CANARY_SIZE + BLOCK_OVERHEAD ≤ p).
Proof.
  intros (bs & Hi & _ & [= Hs He] & _ & Hl)%reached_inv Hp%Hl Hq%Hl.
  destruct (heap_separate s bs p n q m Hi Hp Hq) as (? & ? & ? & ? & ?).
  pose proof (Z.div_mod (hs + 7) 8 ltac:(lia)). pose proof (Z.mod_pos_bound (hs + 7) 8 ltac:(lia)).
  pose proof (Z.div_mod he 8 ltac:(lia)). pose proof (Z.mod_pos_bound he 8 ltac:(lia)).
  split_and!; [done|lia|done|lia|done].
Qed.

(** C3: [tlsf_malloc] serves what fits, on every reached heap.  Let [size] be the
    internal size of a request of [n] bytes, as [size_with_canary] computes it:
    [n] plus the 4-byte canary, rounded up to a multiple of 8, and at least 32.
    When [size], plus what the search adds to reach the next size class (less
    than a sixteenth of it, [2 ^ (log2 size - 4) - 1] bytes), is at most the
    largest free block, and that block is below 1 MiB, the request is served. *)
Theorem tlsf_malloc_succeeds s L n size k :
  reached hs he s L → 0 < n < 2 ^ 31 - 64 → size_with_canary n = Some size →
  tlsf_get_largest_free s = Some k → size + 2 ^ (Z.log2 size - 4) - 1 ≤ k < 2 ^ 20 →
  (tlsf_malloc s n).1 ≠ 0.
Proof.
  intros (bs & Hi & _)%reached_inv Hn Hs. destruct pow_W_8 as (_ & ? & _).
  rewrite size_with_canary_ok in Hs by lia. injection Hs as <-. by eapply heap_malloc_succeeds.
Qed.

(** C7: when a program has freed everything it allocated, in whatever order, the
    pool is again one free block: nothing is charged, and the largest free block
    is the whole pool but for one header. *)
Theorem tlsf_no_fragmentation s :
  reached hs he s ∅ →
  tlsf_get_used s = 0 ∧
  tlsf_get_largest_free s = Some (last_byte - first_byte - BLOCK_OVERHEAD).
Proof.
  intros Hre. destruct (reached_region s ∅ Hre) as (_ & _ & Hsz).
  apply reached_inv in Hre as (bs & Hi & _ & [= Hs He] & Hm & Hl). rewrite OVERHEAD_eq.
  pose proof W_pos. rewrite <- Hs, <- He. apply empty_heap with bs; [done| |lia].
  destruct (allocs bs) as [|[p n] l]; [done|]. by destruct (insert_non_empty (M := gmap Z) _ _ _ (eq_sym Hm)).
Qed.

(** The bytes charged for the held allocations: their blocks with the headers. *)
Definition charged (s : tlsf_t) (L : ledger) : Z :=
  map_fold (λ p _ a, accounted_block_size s (ptr_to_block p) + a) 0 L.

Lemma used_sum_allocs s bs l :
  heap_shape s bs → l ⊆ bs →
  used_sum l = foldr (λ pn a, accounted_block_size s (ptr_to_block pn.1) + a) 0 (allocs l).
Proof.
  intros Hs. induction l as [|b l IH]; intros Hl; [done|]. assert (b ∈ bs) as Hb by set_solver.
  unfold allocs. simpl. unfold charge. rewrite IH by set_solver. unfold alloc_of. destruct (b_free b); [done|]. simpl.
  by rewrite (shape_ptr s bs b Hs Hb), (shape_accounted s bs b Hs Hb).
Qed.

Lemma charged_sum s bs L :
  heap_inv s bs → L = list_to_map (allocs bs) → charged s L = used_sum bs.
Proof.
  intros Hi ->. unfold charged. rewrite (used_sum_allocs s bs bs (hi_shape _ _ Hi)) by done.
  rewrite map_fold_foldr. rewrite (foldr_permutation (=) (uncurry _) _ _ (allocs bs)).
  - induction (allocs bs) as [|[p n] l IH]; [done|]. simpl. by rewrite IH.
  - intros ? [??] ? [??] ? _ _ _. simpl. lia.
  - apply map_to_list_to_map. by eapply alloc_nodup.
Qed.

(** The statistics of every reached heap: [tlsf_get_used] is the sum over
    the held allocations of their blocks with the headers, at most
    [tlsf_get_high_water], which is at most [tlsf_get_total], the size of the
    aligned region; [tlsf_get_min_free] is the complement of the high-water
    mark. *)
Theorem tlsf_statistics s L :
  reached hs he s L →
  tlsf_get_used s = charged s L ∧ tlsf_get_used s ≤ tlsf_get_high_water s ≤ tlsf_get_total s ∧
  tlsf_get_min_free s = tlsf_get_total s - tlsf_get_high_water s ∧
  tlsf_get_total s = last_byte - first_byte.
Proof.
  intros (bs & Hi & _ & [= Hs He] & Hm & _)%reached_inv. rewrite (charged_sum s bs L Hi Hm), <- Hs, <- He.
  destruct Hi as [_ _ ? _ (? & [? ?] & ?)]. by split_and!.
Qed.

(** A store into the canary of an allocation. *)
Lemma overrun_canary s b i v :
  canary_at s b → 0 ≤ i < 4 → u8 v ≠ ld_byte (mem s) (b_addr b + 6 * W + b_req b + i) →
  ¬ canary_at (s <| mem := st_byte (mem s) (b_addr b + 6 * W + b_req b + i) v |>) b.
Proof.
  intros Hc Hi Hv Hc'. apply Hv. clear Hv. set (p := b_addr b + 6 * W + b_req b) in *.
  unfold canary_at in Hc, Hc'. fold p in Hc, Hc'. cbn [mem set_field] in Hc'.
  destruct Hc as (C0 & C1 & C2 & C3), Hc' as (D0 & D1 & D2 & D3). rewrite !ld_byte_st_byte in *.
  assert (i = 0 ∨ i = 1 ∨ i = 2 ∨ i = 3) as [-> |[-> |[-> | ->]]] by lia;
    rewrite ?Z.add_0_r, ?decide_True in * by lia; congruence.
Qed.

(** Freeing an allocation a second time is refused: the second
    [tlsf_free] changes nothing but the count of invalid frees, whether or not
    the block was merged into its neighbours by the first. *)
Theorem tlsf_double_free_refused s L p n :
  reached hs he s L → L !! p = Some n →
  let s' := tlsf_free s p in
  tlsf_free s' p = s' <| invalid_free_count := uW (tlsf_get_invalid_free_count s' + 1) |>.
Proof.
  intros (bs & Hi & _ & _ & _ & Hl)%reached_inv Hp%Hl s'.
  destruct (alloc_req bs p n (hi_req _ _ Hi) Hp) as (b & Hb & Hf & -> & _).
  pose proof (hi_shape _ _ Hi) as Hs. destruct (shape_block s bs b Hs Hb) as (_ & _ & ? & _). pose proof W_pos.
  pose proof (shape_ptr s bs b Hs Hb) as Hptr.
  assert (live_block s' (b_addr b) = false) as Hd.
  { unfold s'. rewrite free_eq by (rewrite ?Hptr, ?(shape_live s bs b Hs Hb), ?Hf; lia || done).
    rewrite Hptr. apply list_elem_of_split in Hb as (l1 & l2 & ->). by eapply freed_dead. }
  unfold tlsf_free at 1. rewrite (proj2 (Z.eqb_neq _ _)), Hptr, Hd by lia. done.
Qed.

(** Freeing an allocation of a well-formed heap whose canary is damaged. *)
Lemma free_counts_canary s bs p n :
  heap_inv s bs → (p, n) ∈ allocs bs → tail_canary_ok s (ptr_to_block p) = false →
  canary_fail_count (tlsf_free s p) = uW (canary_fail_count s + 1).
Proof.
  intros Hi Hp Hc. destruct (alloc_req bs p n (hi_req _ _ Hi) Hp) as (b & Hb & Hf & -> & _).
  pose proof (hi_shape _ _ Hi) as Hs. destruct (shape_block s bs b Hs Hb) as (_ & _ & ? & _). pose proof W_pos.
  rewrite (shape_ptr s bs b Hs Hb) in Hc.
  rewrite free_eq by (rewrite ?(shape_ptr s bs b Hs Hb), ?(shape_live s bs b Hs Hb), ?Hf; lia || done).
  rewrite (shape_ptr s bs b Hs Hb). apply list_elem_of_split in Hb as (l1 & l2 & ->).
  destruct (free_released s l1 l2 b Hi Hf) as (_ & _ & _ & _ & _ & _ & _ & [Hctl _]).
  apply (f_equal (λ l, nth 10 l 0)) in Hctl. simpl in Hctl. rewrite Hctl. unfold uncharge. by rewrite Hc.
Qed.

(** C8: a store that changes any of the four bytes after an allocation of a
    reached heap is found: [tlsf_check_heap] returns false, and freeing the
    allocation counts a canary failure. *)
Theorem tlsf_overrun_detected s L p n i v :
  reached hs he s L → L !! p = Some n → n ≤ i < n + BLOCK_CANARY_SIZE → u8 v ≠ ld_byte (mem s) (p + i) →
  let s' := s <| mem := st_byte (mem s) (p + i) v |> in
  tlsf_check_heap s' = Some false ∧
  tlsf_get_canary_fail_count (tlsf_free s' p) = uW (tlsf_get_canary_fail_count s + 1).
Proof.
  intros (bs & Hi & Hc & _ & _ & Hl)%reached_inv Hp%Hl Hn Hv s'. unfold BLOCK_CANARY_SIZE in Hn.
  destruct (alloc_req bs p n (hi_req _ _ Hi) Hp) as (b & Hb & Hf & -> & <- & ? & ?).
  assert (heap_inv s' bs) as Hi'.
  { eapply payload_write_inv; [done|exact Hb|]. intros x Hx. rewrite ld_byte_st_byte, decide_False; [done|].
    unfold b_end in Hx. lia. }
  assert (¬ canary_at s' b) as Hn'.
  { unfold s'. replace (b_addr b + 6 * W + i) with (b_addr b + 6 * W + b_req b + (i - b_req b)) in * by lia.
    apply overrun_canary; [by apply Hc|lia|done]. }
  pose proof (hi_shape _ _ Hi') as Hs'. split.
  - destruct (check_heap_canaries s' bs Hi') as ([] & -> & Hr); [|done]. destruct Hn'. by apply Hr.
  - apply (free_counts_canary s' bs _ (b_req b)); [done..|]. rewrite (shape_ptr s' bs b Hs' Hb).
    apply not_true_is_false. rewrite (shape_canary s' bs b Hs' Hb); [done| |done].
    pose proof (hi_req _ _ Hi') as Hr. rewrite Forall_forall in Hr. by apply Hr.
Qed.
End reached.

(** Requests within [BLOCK_ALIGN - 1] bytes of the limit that
    [size_with_canary] checks pass the check and wrap in the alignment: the
    internal size is the smallest block, not an error. *)
Theorem size_with_canary_wraps n :
  SIZE_MAX - 10 ≤ n ≤ SIZE_MAX - BLOCK_CANARY_SIZE → size_with_canary n = Some BLOCK_SIZE_MIN.
Proof.
  unfold SIZE_MAX, BLOCK_CANARY_SIZE. intros Hn. destruct pow_W_8 as (_ & ? & _).
  unfold size_with_canary, SIZE_MAX, BLOCK_CANARY_SIZE, BLOCK_ALIGN, BLOCK_SIZE_MIN.
  rewrite (proj2 (Z.ltb_ge _ _)) by lia. rewrite (wrap_small _ (n + 4)) by (unfold uint; lia).
  unfold ALIGN_UP. assert (uW (n + 4 + (8 - 1)) = n + 11 - 2 ^ (8 * W)) as ->.
  { unfold wrap. symmetry. apply (Z.mod_unique_pos _ _ 1); lia. }
  rewrite land_wrap_r by (unfold uint; pose proof W_pos; lia).
  change (Z.lnot (8 - 1)) with (Z.lnot (Z.ones 3)). rewrite <- Z.ldiff_land.
  rewrite Z.ldiff_ones_r, Z.shiftr_div_pow2, Z.shiftl_mul_pow2 by lia.
  rewrite Z.div_small by lia. done.
Qed.
End arch.


(** ** Concrete heaps *)

(** A 4 KiB pool on the 32-bit core, and the same after one allocation. *)
Definition pool4k : tlsf_t := @tlsf_init rv32 (zero_pool ∅) 0x1000 0x2000.
Definition pool4k_100 : tlsf_t := (@tlsf_malloc rv32 pool4k 100).2.

(** A pool of 1.06 MiB. *)
Definition pool1m : tlsf_t := @tlsf_init rv32 (zero_pool ∅) 0x1000 0x111000.

Lemma pool4k_reached : @reached rv32 0x1000 0x2000 pool4k ∅.
Proof. apply reached_init. unfold region. repeat split; vm_compute; congruence. Qed.

Lemma pool4k_ptr : (@tlsf_malloc rv32 pool4k 100).1 = 4120.
Proof. by vm_compute. Qed.

Lemma pool4k_100_reached : @reached rv32 0x1000 0x2000 pool4k_100 {[4120 := 100]}.
Proof.
  pose proof (malloc_reached (ar := rv32) _ _ 100 pool4k_reached ltac:(lia)) as H.
  rewrite pool4k_ptr in H. exact H.
Qed.

Lemma tlsf_refines_heap_witness :
  refines_trace (ar := rv32) pool4k ∅
    [OMalloc 100; OStore 4120 99 7; ORealloc 4120 200; OCalloc 3 5; OFree 4120; OMalloc 8].
Proof. apply (tlsf_refines_heap (ar := rv32)); repeat split; vm_compute; congruence. Defined.

Lemma tlsf_allocations_separate_witness :
  (8 | 4120) ∧ 0x1000 + @BLOCK_OVERHEAD rv32 ≤ 4120.
Proof.
  pose proof (tlsf_allocations_separate (ar := rv32) pool4k_100 {[4120 := 100]} 4120 100 4120 100
    pool4k_100_reached (lookup_singleton_eq _ _) (lookup_singleton_eq _ _)) as (H1 & H2 & _).
  split; [exact H1|exact H2].
Defined.

Lemma tlsf_malloc_succeeds_witness : (@tlsf_malloc rv32 pool4k 1000).1 ≠ 0.
Proof.
  apply (tlsf_malloc_succeeds (ar := rv32) pool4k ∅ 1000 1008 4072 pool4k_reached);
    [lia|vm_compute; done|vm_compute; done|].
  vm_compute. by split.
Defined.

(** Freed again: the pool is whole. *)
Definition pool4k_freed : tlsf_t := @tlsf_free rv32 pool4k_100 4120.

Lemma tlsf_no_fragmentation_witness :
  tlsf_get_used pool4k_freed = 0 ∧
  @tlsf_get_largest_free rv32 pool4k_freed = Some (8 * (0x2000 / 8) - 8 * ((0x1000 + 7) / 8) - @BLOCK_OVERHEAD rv32).
Proof.
  apply (tlsf_no_fragmentation (ar := rv32) pool4k_freed).
  rewrite <- (delete_singleton_eq 4120 100 : delete 4120 {[4120 := 100]} = ∅).
  apply (free_reached (ar := rv32)); [apply pool4k_100_reached|]. rewrite lookup_singleton_eq. by eexists.
Defined.

Lemma tlsf_overrun_detected_witness :
  let s' := pool4k_100 <| mem := st_byte (mem pool4k_100) (4120 + 100) 0 |> in
  @tlsf_check_heap rv32 s' = Some false ∧ tlsf_get_canary_fail_count (@tlsf_free rv32 s' 4120) =
    wrap (8 * @W rv32) (tlsf_get_canary_fail_count pool4k_100 + 1).
Proof.
  apply (tlsf_overrun_detected (ar := rv32) pool4k_100 {[4120 := 100]} 4120 100 100 0 pool4k_100_reached);
    [apply lookup_singleton_eq|unfold BLOCK_CANARY_SIZE; lia|]. by vm_compute.
Defined.

Lemma tlsf_double_free_refused_witness :
  let s' := @tlsf_free rv32 pool4k_100 4120 in
  @tlsf_free rv32 s' 4120 =
    s' <| invalid_free_count := wrap (8 * @W rv32) (tlsf_get_invalid_free_count s' + 1) |>.
Proof.
  apply (tlsf_double_free_refused (ar := rv32) pool4k_100 {[4120 := 100]} 4120 100 pool4k_100_reached).
  apply lookup_singleton_eq.
Defined.

Lemma tlsf_statistics_witness : tlsf_get_used pool4k_100 = @charged rv32 pool4k_100 {[4120 := 100]}.
Proof. apply (tlsf_statistics (ar := rv32) pool4k_100 {[4120 := 100]} pool4k_100_reached). Defined.

Lemma size_with_canary_wraps_witness : @size_with_canary rv32 0xFFFFFFFB = Some 32.
Proof. apply (size_with_canary_wraps (ar := rv32)). repeat split; vm_compute; congruence. Defined.

(** On the 32-bit core a request of 4 GiB - 5 bytes gets a 32-byte block, and
    one of 3.875 GiB, whose rounding in [mapping_search] wraps, gets a block of
    the 4 KiB pool: [tlsf_malloc] returns a pointer to less memory than asked. *)
Theorem malloc_huge_returns_small :
  (let r := @tlsf_malloc rv32 pool4k 0xFFFFFFFB in
   r.1 = 4120 ∧ @block_size rv32 r.2 (@ptr_to_block rv32 r.1) = 32) ∧
  (let r := @tlsf_malloc rv32 pool4k 0xF8000000 in
   r.1 = 4120 ∧ @block_size rv32 r.2 (@ptr_to_block rv32 r.1) = 4072).
Proof. by vm_compute. Qed.

(** In a pool whose single free block exceeds 1 MiB, which the free lists file
    under the last first-level class, a request of 700000 bytes fails, because
    the search starts in a class above it; one of 500000 bytes is served. *)
Theorem malloc_above_half_mib_fails :
  @tlsf_get_largest_free rv32 pool1m = Some 1114088 ∧
  (@tlsf_malloc rv32 pool1m 700000).1 = 0 ∧ (@tlsf_malloc rv32 pool1m 500000).1 = 4120.
Proof. by vm_compute. Qed.
