(* ===== verification/Timeouts.v ===== *)
(** * The network stack's timers ([src/bl808/kernel/lwip_wifi_smoke/timeouts.c]), definitions

    The pending timeouts are a singly linked list in firing order; here the list
    of its elements.  Times are 32-bit milliseconds that wrap every 49.7 days:
    the conversions to [u32_t] and the wrapping comparison are the class [Time],
    so that the same code can also be read over unbounded time.  The code is the
    instance [u32_time].

    A handler is code outside this file.  Its run is the list of calls it makes
    to the timer interface, each after some milliseconds ([Apps]).  The pool of
    timeout records ([memp]) is the number of records left. *)

From S2P Require Import Prelude.
From stdpp Require Import prelude list.
From Stdlib Require Import ZArith Lia.
Local Open Scope Z_scope.

Definition LWIP_MAX_TIMEOUT := 0x7fffffff.

Definition TIME_LESS_THAN (t compare_to : Z) : bool := LWIP_MAX_TIMEOUT <? u32 (t - compare_to).

Class Time := { norm : Z → Z; less : Z → Z → bool }.
Definition u32_time : Time := {| norm := u32; less := TIME_LESS_THAN |}.
(** Time that never wraps. *)
Definition true_time : Time := {| norm := λ t, t; less := Z.ltb |}.

Inductive sys_timeout_handler := H_NULL | H_CYCLIC | H_USER (id : Z).

#[export] Instance handler_eq_dec : EqDecision sys_timeout_handler.
Proof. solve_decision. Defined.

Record sys_timeo := mk_timeo { time : Z; h : sys_timeout_handler; arg : Z }.
#[export] Instance eta_timeo : Eta sys_timeo := λ r, mk_timeo (time r) (h r) (arg r).

Inductive timer_status := LWIP_TIMER_STATUS_IDLE | LWIP_TIMER_STATUS_RUNNING | LWIP_TIMER_STATUS_STOPPING.

#[export] Instance status_eq_dec : EqDecision timer_status.
Proof. solve_decision. Defined.

Record lwip_cyclic := mk_cyclic { status : timer_status; interval_ms : Z; handler : Z }.
#[export] Instance eta_cyclic : Eta lwip_cyclic := λ r, mk_cyclic (status r) (interval_ms r) (handler r).
#[export] Instance cyclic_inhabited : Inhabited lwip_cyclic := populate (mk_cyclic LWIP_TIMER_STATUS_IDLE 1 0).

Record timers := mk_timers {
  next_timeout : list sys_timeo;
  current_timeout_due_time : Z;
  lwip_cyclic_timers : list lwip_cyclic;
  tcp_timer_pending : bool;
  slots : nat;                    (* records left in MEMP_SYS_TIMEOUT *)
  clock : Z;                      (* kernel_read_tick_ms *)
}.
#[export] Instance eta_timers : Eta timers := λ r,
  mk_timers (next_timeout r) (current_timeout_due_time r) (lwip_cyclic_timers r) (tcp_timer_pending r)
    (slots r) (clock r).

(** What a handler may call. *)
Inductive call :=
  | CTimeout (msecs : Z) (h : sys_timeout_handler) (arg : Z)
  | CUntimeout (h : sys_timeout_handler) (arg : Z)
  | CEnable (enable : bool) (handler : Z)
  | CTcpNeeded.

(** The build option and constants of lwIP, and the handlers of the stack and of the application: the
    calls they make, each preceded by the milliseconds that pass before it. *)
Class Apps := {
  LWIP_TCP : bool;
  TCP_TMR_INTERVAL : Z;
  SYS_TIMEOUTS_SLEEPTIME_INFINITE : Z;
  user_handler : Z → Z → Z → list (Z * call);
  cyclic_handler : Z → Z → list (Z * call);
}.

Section timeouts.
Context {tm : Time} {apps : Apps}.

Definition sys_now (s : timers) : Z := norm (clock s).

(** The place of a new timeout behind the element [t] whose successors these are. *)
Fixpoint insert_after (x : sys_timeo) (l : list sys_timeo) : list sys_timeo :=
  match l with
  | [] => [x]
  | n :: l => if less (time x) (time n) then x :: n :: l else n :: insert_after x l
  end.

Definition sys_timeout_abs (s : timers) (abs_time : Z) (hd : sys_timeout_handler) (a : Z) : timers :=
  match slots s with
  | O => s
  | S k =>
      let s := s <| slots := k |> in
      let timeout := mk_timeo abs_time hd a in
      match next_timeout s with
      | [] => s <| next_timeout := [timeout] |>
      | t :: l =>
          if less abs_time (time t) then s <| next_timeout := timeout :: t :: l |>
          else s <| next_timeout := t :: insert_after timeout l |>
      end
  end.

Definition sys_timeout (s : timers) (msecs : Z) (hd : sys_timeout_handler) (a : Z) : timers :=
  sys_timeout_abs s (norm (sys_now s + msecs)) hd a.

Fixpoint remove_first (hd : sys_timeout_handler) (a : Z) (l : list sys_timeo) : option (list sys_timeo) :=
  match l with
  | [] => None
  | t :: l => if bool_decide (h t = hd) && (arg t =? a) then Some l
              else l' ← remove_first hd a l; Some (t :: l')
  end.

Definition sys_untimeout (s : timers) (hd : sys_timeout_handler) (a : Z) : timers :=
  match remove_first hd a (next_timeout s) with
  | Some l => s <| next_timeout := l |> <| slots := S (slots s) |>
  | None => s
  end.

(** The index of the first timer the enable loop looks at. *)
Definition first_cyclic : Z := if LWIP_TCP then 1 else 0.

Fixpoint find_cyclic (hd i : Z) (l : list lwip_cyclic) : option Z :=
  match l with
  | [] => None
  | c :: l => if (first_cyclic <=? i) && (handler c =? hd) then Some i else find_cyclic hd (i + 1) l
  end.

Definition set_status (s : timers) (i : Z) (st : timer_status) : timers :=
  s <| lwip_cyclic_timers :=
         aset (lwip_cyclic_timers s) i ((lwip_cyclic_timers s !% i) <| status := st |>) |>.

Definition sys_timeouts_set_timer_enable (s : timers) (enable : bool) (hd : Z) : timers :=
  match find_cyclic hd 0 (lwip_cyclic_timers s) with
  | None => s
  | Some i =>
      let c := lwip_cyclic_timers s !% i in
      if enable then
        let s := if bool_decide (status c = LWIP_TIMER_STATUS_IDLE)
                 then sys_timeout s (interval_ms c) H_CYCLIC i else s in
        set_status s i LWIP_TIMER_STATUS_RUNNING
      else if bool_decide (status c = LWIP_TIMER_STATUS_RUNNING)
      then set_status s i LWIP_TIMER_STATUS_STOPPING else s
  end.

Definition tcp_timer_needed (s : timers) : timers :=
  if negb LWIP_TCP then s
  else if negb (tcp_timer_pending s)
  then sys_timeout (s <| tcp_timer_pending := true |>) TCP_TMR_INTERVAL H_CYCLIC 0 else s.

Definition do_call (s : timers) (c : call) : timers :=
  match c with
  | CTimeout ms hd a => sys_timeout s ms hd a
  | CUntimeout hd a => sys_untimeout s hd a
  | CEnable b hd => sys_timeouts_set_timer_enable s b hd
  | CTcpNeeded => tcp_timer_needed s
  end.

Fixpoint run_calls (s : timers) (l : list (Z * call)) : timers :=
  match l with
  | [] => s
  | (dt, c) :: l => run_calls (do_call (s <| clock := clock s + dt |>) c) l
  end.

Definition lwip_cyclic_timer (s : timers) (i : Z) : timers :=
  let cyclic := lwip_cyclic_timers s !% i in
  if bool_decide (status cyclic = LWIP_TIMER_STATUS_STOPPING) then set_status s i LWIP_TIMER_STATUS_IDLE
  else if bool_decide (status cyclic ≠ LWIP_TIMER_STATUS_RUNNING) then s
  else
    let s := run_calls s (cyclic_handler (handler cyclic) (clock s)) in
    let now := sys_now s in
    let next_timeout_time := norm (current_timeout_due_time s + interval_ms cyclic) in
    let next_timeout_time :=
      if less next_timeout_time now then norm (now + interval_ms cyclic) else next_timeout_time in
    sys_timeout_abs s next_timeout_time H_CYCLIC i.

(** [handler(arg)] in [sys_check_timeouts], unless the handler is null. *)
Definition run_handler (s : timers) (t : sys_timeo) : timers :=
  match h t with
  | H_NULL => s
  | H_CYCLIC => lwip_cyclic_timer s (arg t)
  | H_USER id => run_calls s (user_handler id (arg t) (clock s))
  end.

(** The first timeout is unlinked and its record freed. *)
Definition unlink_first (s : timers) (t : sys_timeo) (l : list sys_timeo) : timers :=
  s <| next_timeout := l |> <| current_timeout_due_time := time t |> <| slots := S (slots s) |>.

(** The loop of [sys_check_timeouts], with the timeouts it fired. *)
Fixpoint check_loop (fuel : nat) (s : timers) (now : Z) : option (timers * list sys_timeo) :=
  match fuel with
  | O => None
  | S fuel =>
      match next_timeout s with
      | [] => Some (s, [])
      | t :: l =>
          if less now (time t) then Some (s, [])
          else
            let s := run_handler (unlink_first s t l) t in
            '(s, fired) ← check_loop fuel s now; Some (s, t :: fired)
      end
  end.

Definition sys_check_timeouts (fuel : nat) (s : timers) : option (timers * list sys_timeo) :=
  check_loop fuel s (sys_now s).

(** The loop of [sys_timeouts_init] from index [i]. *)
Fixpoint init_loop (s : timers) (i : Z) (l : list lwip_cyclic) : timers :=
  match l with
  | [] => s
  | c :: l =>
      let s := if (first_cyclic <=? i) && bool_decide (status c = LWIP_TIMER_STATUS_RUNNING)
               then sys_timeout s (interval_ms c) H_CYCLIC i else s in
      init_loop s (i + 1) l
  end.

Definition sys_timeouts_init (s : timers) : timers := init_loop s 0 (lwip_cyclic_timers s).

Definition sys_restart_timeouts (s : timers) : timers :=
  match next_timeout s with
  | [] => s
  | t0 :: _ =>
      let now := sys_now s in
      let base := time t0 in
      s <| next_timeout := (λ t, t <| time := norm (norm (time t - base) + now) |>) <$> next_timeout s |>
  end.

Definition sys_timeouts_sleeptime (s : timers) : Z :=
  match next_timeout s with
  | [] => SYS_TIMEOUTS_SLEEPTIME_INFINITE
  | t :: _ =>
      let now := sys_now s in
      if less (time t) now then 0 else norm (time t - now)
  end.
End timeouts.
