(* ===== verification/TimeoutsSpec.v ===== *)
(** * The network stack's timers: correctness across the wrap of the clock

    The code at 32 bits is related to the same code over time that never wraps
    ([trunc] forgets the high bits): as long as the list is checked often enough
    the two do the same.  Over unbounded time the list is a sorted queue and
    [sys_check_timeouts] fires what is due, in order. *)

From S2P Require Import Prelude Timeouts.
From stdpp Require Import prelude list sorting.
From Stdlib Require Import ZArith Lia.
Local Open Scope Z_scope.

(** ** The wrapping comparison *)

Lemma u32_sub a b : u32 (u32 a - u32 b) = u32 (a - b).
Proof. unfold wrap. by rewrite <- Zminus_mod. Qed.

Lemma u32_add_l a b : u32 (u32 a + b) = u32 (a + b).
Proof. unfold wrap. by rewrite Zplus_mod_idemp_l. Qed.

Lemma u32_add_r a b : u32 (a + u32 b) = u32 (a + b).
Proof. unfold wrap. by rewrite Zplus_mod_idemp_r. Qed.

Lemma less_u32 t c : - 2 ^ 31 ≤ t - c < 2 ^ 31 → TIME_LESS_THAN (u32 t) (u32 c) = (t <? c).
Proof.
  intros Hd. unfold TIME_LESS_THAN, LWIP_MAX_TIMEOUT. rewrite u32_sub. unfold wrap.
  destruct (Z.ltb_spec t c) as [Hlt|Hge].
  - rewrite <- (Z_mod_plus_full _ 1), Z.mod_small by lia. apply Z.ltb_lt. lia.
  - rewrite Z.mod_small by lia. apply Z.ltb_ge. lia.
Qed.

(** ** The queue *)

Section queue.
Context {tm : Time}.

Lemma insert_perm x l : insert_after x l ≡ₚ x :: l.
Proof.
  induction l as [|t l IH]; [done|]. cbn [insert_after]. destruct (less _ _); [done|]. rewrite IH. constructor.
Qed.

Lemma abs_full s a hd g : slots s = O → sys_timeout_abs s a hd g = s.
Proof. intros Hs. unfold sys_timeout_abs. by rewrite Hs. Qed.

Lemma abs_insert s a hd g k :
  slots s = S k →
  sys_timeout_abs s a hd g = s <| next_timeout := insert_after (mk_timeo a hd g) (next_timeout s) |> <| slots := k |>.
Proof.
  intros Hs. unfold sys_timeout_abs. rewrite Hs. cbv zeta. cbn [next_timeout set_field].
  destruct (next_timeout s) as [|t l]; [done|]. cbn [insert_after time]. by destruct (less _ _).
Qed.

(** What an insertion may do: at most add the record. *)
Lemma abs_cases s a hd g :
  let s' := sys_timeout_abs s a hd g in
  (s' = s ∨ next_timeout s' ≡ₚ mk_timeo a hd g :: next_timeout s) ∧
  clock s' = clock s ∧ lwip_cyclic_timers s' = lwip_cyclic_timers s ∧
  current_timeout_due_time s' = current_timeout_due_time s.
Proof.
  destruct (slots s) as [|k] eqn:Hs; cbv zeta; [rewrite abs_full by done; by split_and!; [left|..]|].
  rewrite (abs_insert _ _ _ _ k) by done. split_and!; [right; apply insert_perm|done..].
Qed.

Lemma abs_elem s a hd g t :
  t ∈ next_timeout (sys_timeout_abs s a hd g) → t = mk_timeo a hd g ∨ t ∈ next_timeout s.
Proof.
  destruct (abs_cases s a hd g) as [[->|Hp] _]; [by right|]. rewrite Hp. by intros ?%elem_of_cons.
Qed.

Lemma remove_sublist hd g l l' : remove_first hd g l = Some l' → l' `sublist_of` l.
Proof.
  revert l'. induction l as [|t l IH]; intros l'; [done|]. cbn [remove_first].
  destruct (_ && _); [intros [= <-]; by constructor|].
  destruct (remove_first hd g l) as [k|]; [|done]. intros [= <-]. constructor. by apply IH.
Qed.

Lemma untimeout_sublist s hd g : next_timeout (sys_untimeout s hd g) `sublist_of` next_timeout s.
Proof.
  unfold sys_untimeout. destruct (remove_first hd g (next_timeout s)) as [l|] eqn:E; [|done].
  cbn [next_timeout set_field]. by eapply remove_sublist.
Qed.
End queue.

(** The order of the queue. *)
Definition due_order (a b : sys_timeo) : Prop := time a ≤ time b.
Abbreviation in_order l := (StronglySorted due_order l).

Lemma insert_order x l : in_order l → in_order (insert_after (tm := true_time) x l).
Proof.
  induction 1 as [|t l Hs IH Ha]; [by repeat constructor|]. cbn [insert_after less true_time].
  destruct (Z.ltb_spec (time x) (time t)).
  - constructor; [by constructor|]. constructor; [unfold due_order; lia|].
    eapply Forall_impl; [exact Ha|]. unfold due_order. simpl. lia.
  - constructor; [done|]. rewrite insert_perm. constructor; [done|done].
Qed.

Lemma sublist_order l l' : l' `sublist_of` l → in_order l → in_order l'.
Proof.
  induction 1 as [|x l' l Hs IH|x l' l Hs IH]; intros Ho; [done| |]; inversion Ho as [|? ? Ho' Ha]; subst; [|by apply IH].
  constructor; [by apply IH|]. rewrite Forall_forall in *. intros y Hy. apply Ha. by eapply elem_of_sublist.
Qed.

(** ** From unbounded time to 32 bits *)

Definition trunc_t (t : sys_timeo) : sys_timeo := t <| time := u32 (time t) |>.
Definition trunc (s : timers) : timers :=
  s <| next_timeout := trunc_t <$> next_timeout s |>
    <| current_timeout_due_time := u32 (current_timeout_due_time s) |>.

Section refine.
Context {apps : Apps}.

(** Within the horizon [E]: the clock is at most [2^30] ms before [E], every
    pending timeout is at most that late at [E], and none is [2^30] ms or more
    ahead. *)
Record win (E : Z) (s : timers) : Prop := {
  w_clock : E - 2 ^ 30 ≤ clock s ≤ E;
  w_late t : t ∈ next_timeout s → E - 2 ^ 30 ≤ time t;
  w_ahead t : t ∈ next_timeout s → time t < clock s + 2 ^ 30;
  w_interval c : c ∈ lwip_cyclic_timers s → 0 < interval_ms c < 2 ^ 30;
}.

(** The periodic timeouts point into the table. *)
Definition indexed (s : timers) : Prop :=
  first_cyclic ≤ Z.of_nat (length (lwip_cyclic_timers s)) ∧
  ∀ t, t ∈ next_timeout s → h t = H_CYCLIC → 0 ≤ arg t < Z.of_nat (length (lwip_cyclic_timers s)).

(** What a handler may ask for: delays within the assertion of [sys_timeout],
    for handlers of its own. *)
Definition fair_call (c : call) : Prop :=
  match c with CTimeout ms hd _ => 0 < ms < 2 ^ 30 ∧ hd ≠ H_CYCLIC | _ => True end.
Definition fair (l : list (Z * call)) : Prop := Forall (λ dc, 0 ≤ dc.1 ∧ fair_call dc.2) l.
Definition duration (l : list (Z * call)) : Z := foldr (λ dc n, dc.1 + n) 0 l.

Class FairApps : Prop := {
  user_fair id a now : fair (user_handler id a now);
  cyclic_fair hd now : fair (cyclic_handler hd now);
  tcp_fair : 0 < TCP_TMR_INTERVAL < 2 ^ 30;
}.
Context {Hfair : FairApps}.

#[local] Abbreviation C := u32_time.
#[local] Abbreviation T := true_time.

Lemma insert_trunc x l lo :
  lo ≤ time x < lo + 2 ^ 31 → Forall (λ t, lo ≤ time t < lo + 2 ^ 31) l →
  insert_after (tm := C) (trunc_t x) (trunc_t <$> l) = trunc_t <$> insert_after (tm := T) x l.
Proof.
  intros Hx Hl. induction Hl as [|t l Ht _ IH]; [done|]. cbn [fmap list_fmap insert_after].
  cbn [less C T u32_time true_time]. cbn [time trunc_t set_field]. rewrite less_u32 by lia.
  destruct (_ <? _); [done|]. cbn [fmap list_fmap]. f_equal. exact IH.
Qed.

Lemma win_range E s : win E s → Forall (λ t, E - 2 ^ 30 ≤ time t < E - 2 ^ 30 + 2 ^ 31) (next_timeout s).
Proof. intros [Hc Hl Ha _]. apply Forall_forall. intros t Ht. specialize (Hl t Ht). specialize (Ha t Ht). lia. Qed.

Lemma timeout_abs_trunc E s a hd g :
  win E s → E - 2 ^ 30 ≤ a < E + 2 ^ 30 →
  sys_timeout_abs (tm := C) (trunc s) (u32 a) hd g = trunc (sys_timeout_abs (tm := T) s a hd g).
Proof.
  intros Hw Ha. pose proof (win_range E s Hw) as Hr. unfold sys_timeout_abs. cbn [slots trunc set_field].
  destruct (slots s) as [|k]; [done|]. cbn [next_timeout trunc set_field].
  destruct (next_timeout s) as [|t l]; [done|]. cbn [fmap list_fmap].
  apply Forall_cons in Hr as [Ht Hl]. cbn [less C T u32_time true_time]. cbn [time trunc_t set_field].
  rewrite less_u32 by lia. destruct (_ <? _); [done|].
  change (mk_timeo (u32 a) hd g) with (trunc_t (mk_timeo a hd g)).
  rewrite (insert_trunc (mk_timeo a hd g) l (E - 2 ^ 30)); [done|simpl; lia|done].
Qed.

Lemma timeout_trunc E s ms hd g :
  win E s → 0 < ms < 2 ^ 30 →
  sys_timeout (tm := C) (trunc s) ms hd g = trunc (sys_timeout (tm := T) s ms hd g).
Proof.
  intros Hw Hms. unfold sys_timeout, sys_now. cbn [norm C T u32_time true_time].
  change (clock (trunc s)) with (clock s). rewrite u32_add_l. destruct (w_clock E s Hw).
  apply (timeout_abs_trunc E); [done|lia].
Qed.

Lemma remove_trunc hd g l : remove_first hd g (trunc_t <$> l) = fmap (M := list) trunc_t <$> remove_first hd g l.
Proof.
  induction l as [|t l IH]; [done|]. cbn [fmap list_fmap remove_first]. cbn [h arg trunc_t set_field].
  destruct (_ && _); [done|]. change (fmap trunc_t l) with (trunc_t <$> l). rewrite IH.
  by destruct (remove_first hd g l).
Qed.

Lemma untimeout_trunc s hd g : sys_untimeout (trunc s) hd g = trunc (sys_untimeout s hd g).
Proof.
  unfold sys_untimeout. cbn [next_timeout trunc set_field]. rewrite remove_trunc.
  by destruct (remove_first hd g (next_timeout s)).
Qed.

Lemma find_cyclic_bound hd i l j :
  find_cyclic hd i l = Some j → i ≤ j < i + Z.of_nat (length l) ∧ first_cyclic ≤ j.
Proof.
  revert i. induction l as [|c l IH]; intros i; [done|]. cbn [find_cyclic length].
  destruct ((first_cyclic <=? i) && (handler c =? hd)) eqn:E.
  - intros [= <-]. apply andb_true_iff in E as [E%Z.leb_le _]. lia.
  - intros Hj%IH. lia.
Qed.

Lemma cyclic_in s i :
  0 ≤ i < Z.of_nat (length (lwip_cyclic_timers s)) → lwip_cyclic_timers s !% i ∈ lwip_cyclic_timers s.
Proof. intros Hi. apply list_elem_of_lookup_total_2. lia. Qed.

Lemma enable_trunc E s b hd :
  win E s → sys_timeouts_set_timer_enable (tm := C) (trunc s) b hd =
            trunc (sys_timeouts_set_timer_enable (tm := T) s b hd).
Proof.
  intros Hw. unfold sys_timeouts_set_timer_enable. change (lwip_cyclic_timers (trunc s)) with (lwip_cyclic_timers s).
  destruct (find_cyclic hd 0 _) as [i|] eqn:Hi; [|done]. apply find_cyclic_bound in Hi as [Hi _].
  destruct b; [|by case_bool_decide]. case_bool_decide; [|done].
  rewrite (timeout_trunc E); [done|done|]. eapply w_interval; [done|]. apply cyclic_in. lia.
Qed.

Lemma tcp_trunc E s :
  win E s → tcp_timer_needed (tm := C) (trunc s) = trunc (tcp_timer_needed (tm := T) s).
Proof.
  intros Hw. unfold tcp_timer_needed. change (tcp_timer_pending (trunc s)) with (tcp_timer_pending s).
  destruct LWIP_TCP; [|done]. cbn [negb]. destruct (tcp_timer_pending s); [done|]. cbn [negb].
  rewrite <- (timeout_trunc E); [done| |apply tcp_fair]. by destruct Hw.
Qed.

Lemma call_trunc E s c : win E s → fair_call c → do_call (tm := C) (trunc s) c = trunc (do_call (tm := T) s c).
Proof.
  intros Hw Hc. destruct c; cbn [do_call]; [destruct Hc; by apply (timeout_trunc E)|apply untimeout_trunc|
    by apply (enable_trunc E)|by apply (tcp_trunc E)].
Qed.

(** ** Over unbounded time *)

(** What the calls of a handler do to the queue: keep the order, and add only
    timeouts that lie ahead. *)
Record grows (s s' : timers) : Prop := {
  g_clock : clock s ≤ clock s';
  g_intervals : interval_ms <$> lwip_cyclic_timers s' = interval_ms <$> lwip_cyclic_timers s;
  g_due : current_timeout_due_time s' = current_timeout_due_time s;
  g_new t : t ∈ next_timeout s' → t ∈ next_timeout s ∨ clock s < time t < clock s' + 2 ^ 30;
  g_order : in_order (next_timeout s) → in_order (next_timeout s');
  g_index : indexed s → indexed s';
}.

Lemma grows_refl s : grows s s.
Proof. split; auto; lia. Qed.

Lemma indexed_frame s s' :
  length (lwip_cyclic_timers s') = length (lwip_cyclic_timers s) →
  (∀ t, t ∈ next_timeout s' → t ∈ next_timeout s) → indexed s → indexed s'.
Proof. intros Hl Ht [Hf Hi]. unfold indexed. rewrite Hl. auto. Qed.

Lemma grows_trans s1 s2 s3 : grows s1 s2 → grows s2 s3 → grows s1 s3.
Proof.
  intros [C1 I1 D1 N1 O1 X1] [C2 I2 D2 N2 O2 X2]. split; [lia|congruence|congruence| |auto|auto].
  intros t [Ht|?]%N2; [|right; lia]. destruct (N1 t Ht); [by left|right; lia].
Qed.

Lemma grows_clock s dt : 0 ≤ dt → grows s (s <| clock := clock s + dt |>).
Proof. intros. split; cbn; auto; lia. Qed.

(** Fields the queue does not depend on. *)
Lemma grows_frame s s' :
  clock s' = clock s → next_timeout s' = next_timeout s →
  interval_ms <$> lwip_cyclic_timers s' = interval_ms <$> lwip_cyclic_timers s →
  current_timeout_due_time s' = current_timeout_due_time s → grows s s'.
Proof.
  intros Hc Hn Hi Hd. split; [lia|done|done|rewrite Hn; auto|by rewrite Hn|].
  apply indexed_frame; [|by rewrite Hn]. by apply (f_equal length) in Hi; rewrite !length_fmap in Hi.
Qed.

Lemma abs_index s a hd g :
  (hd = H_CYCLIC → indexed s → 0 ≤ g < Z.of_nat (length (lwip_cyclic_timers s))) →
  indexed s → indexed (sys_timeout_abs (tm := T) s a hd g).
Proof.
  intros Hg Hi. destruct (abs_cases (tm := T) s a hd g) as (_ & _ & Hl & _). unfold indexed. rewrite Hl.
  split; [apply Hi|]. intros t [->|?]%abs_elem; [intros; by apply Hg|by apply Hi].
Qed.

Lemma grows_abs s a hd g :
  clock s < a < clock s + 2 ^ 30 →
  (hd = H_CYCLIC → indexed s → 0 ≤ g < Z.of_nat (length (lwip_cyclic_timers s))) →
  grows s (sys_timeout_abs (tm := T) s a hd g).
Proof.
  intros Ha Hx. destruct (abs_cases (tm := T) s a hd g) as (Hp & Hc & Hl & Hd).
  split; [lia|by rewrite Hl|done| | |by apply abs_index].
  - intros t [->|?]%abs_elem; [right; simpl; lia|by left].
  - destruct (slots s) as [|k] eqn:Hs; [by rewrite abs_full|]. rewrite (abs_insert _ _ _ _ k) by done.
    apply insert_order.
Qed.

Lemma grows_timeout s ms hd g :
  0 < ms < 2 ^ 30 → (hd = H_CYCLIC → indexed s → 0 ≤ g < Z.of_nat (length (lwip_cyclic_timers s))) →
  grows s (sys_timeout (tm := T) s ms hd g).
Proof. intros. apply grows_abs; [|done]. cbn [norm T true_time sys_now]. unfold sys_now. cbn. lia. Qed.

Lemma set_status_intervals s i st :
  interval_ms <$> lwip_cyclic_timers (set_status s i st) = interval_ms <$> lwip_cyclic_timers s.
Proof.
  unfold set_status. cbn [lwip_cyclic_timers set_field]. unfold aset, aget. rewrite list_fmap_insert.
  cbn [interval_ms set_field]. destruct (decide (Z.to_nat i < length (lwip_cyclic_timers s))%nat) as [Hlt|].
  - apply list_insert_id. rewrite list_lookup_fmap, list_lookup_lookup_total_lt by done. done.
  - apply list_insert_ge. rewrite length_fmap. lia.
Qed.

Lemma grows_status s i st : grows s (set_status s i st).
Proof. apply grows_frame; [done|done|apply set_status_intervals|done]. Qed.

Lemma interval_in s i :
  (∀ c, c ∈ lwip_cyclic_timers s → 0 < interval_ms c < 2 ^ 30) →
  0 ≤ i < Z.of_nat (length (lwip_cyclic_timers s)) → 0 < interval_ms (lwip_cyclic_timers s !% i) < 2 ^ 30.
Proof. intros Hc Hi. by apply Hc, cyclic_in. Qed.

Lemma grows_call s c :
  (∀ c, c ∈ lwip_cyclic_timers s → 0 < interval_ms c < 2 ^ 30) → fair_call c → grows s (do_call (tm := T) s c).
Proof.
  intros Hi Hc. destruct c as [ms hd g|hd g|b hd|]; cbn [do_call].
  - destruct Hc. by apply grows_timeout.
  - pose proof (untimeout_sublist s hd g) as Hs. unfold sys_untimeout in *.
    destruct (remove_first hd g (next_timeout s)); [|apply grows_refl].
    split; cbn in *; auto; [lia| | |].
    + intros t Ht. left. by eapply elem_of_sublist.
    + by apply sublist_order.
    + apply indexed_frame; [done|]. intros t Ht. by eapply elem_of_sublist.
  - unfold sys_timeouts_set_timer_enable. destruct (find_cyclic hd 0 _) as [i|] eqn:E; [|apply grows_refl].
    apply find_cyclic_bound in E as [E _]. destruct b; case_bool_decide; try apply grows_status; [|apply grows_refl].
    eapply grows_trans; [apply grows_timeout|apply grows_status]; [apply interval_in; [done|lia]|lia].
  - unfold tcp_timer_needed. destruct LWIP_TCP eqn:E; [|apply grows_refl]. cbn [negb].
    destruct (tcp_timer_pending s); [apply grows_refl|]. cbn [negb].
    eapply grows_trans; [by apply (grows_frame s (s <| tcp_timer_pending := true |>))|].
    apply grows_timeout; [apply tcp_fair|]. intros _ [Hf _]. unfold first_cyclic in Hf. rewrite E in Hf. simpl in *. lia.
Qed.

(** Intervals are what they were. *)
Lemma grows_interval s s' :
  grows s s' → (∀ c, c ∈ lwip_cyclic_timers s → 0 < interval_ms c < 2 ^ 30) →
  ∀ c, c ∈ lwip_cyclic_timers s' → 0 < interval_ms c < 2 ^ 30.
Proof.
  intros Hg Hi c Hc. pose proof (g_intervals _ _ Hg) as He.
  assert (interval_ms c ∈ interval_ms <$> lwip_cyclic_timers s) as (d & -> & Hd)%list_elem_of_fmap.
  { rewrite <- He. by apply list_elem_of_fmap_2. }
  by apply Hi.
Qed.

Lemma grows_calls l s :
  (∀ c, c ∈ lwip_cyclic_timers s → 0 < interval_ms c < 2 ^ 30) → fair l → grows s (run_calls (tm := T) s l).
Proof.
  intros Hi Hl. revert s Hi. induction Hl as [|[dt c] l [Hd Hc] _ IH]; intros s Hi; [apply grows_refl|].
  cbn [run_calls]. assert (grows s (do_call (tm := T) (s <| clock := clock s + dt |>) c)) as Hg.
  { eapply grows_trans; [by apply grows_clock|]. by apply grows_call. }
  eapply grows_trans; [exact Hg|]. apply IH. by eapply grows_interval.
Qed.

(** A window with room for what is still to come. *)
Lemma grows_win E s s' : win E s → grows s s' → clock s' ≤ E → win E s'.
Proof.
  intros [Hc Hl Ha Hi] Hg He. pose proof (g_clock _ _ Hg). split; [lia| | |by eapply grows_interval].
  - intros t [Ht|?]%(g_new _ _ Hg); [by apply Hl|lia].
  - intros t [Ht|?]%(g_new _ _ Hg); [specialize (Ha t Ht); lia|lia].
Qed.

Lemma calls_trunc E l s :
  win E s → fair l → clock (run_calls (tm := T) s l) ≤ E →
  run_calls (tm := C) (trunc s) l = trunc (run_calls (tm := T) s l).
Proof.
  intros Hw Hl. revert s Hw. induction Hl as [|[dt c] l [Hd Hc] Hl IH]; intros s Hw He; [done|].
  cbn [run_calls] in *. set (s1 := s <| clock := clock s + dt |>) in *.
  assert (grows s s1) as Hg1 by (by apply grows_clock). simpl in Hd, Hc.
  assert (grows s1 (do_call (tm := T) s1 c)) as Hg2 by (apply grows_call; [by eapply grows_interval, w_interval|done]).
  assert (grows (do_call (tm := T) s1 c) (run_calls (tm := T) (do_call (tm := T) s1 c) l)) as Hg3.
  { apply grows_calls; [|done]. eapply grows_interval; [exact Hg2|]. by eapply grows_interval, w_interval. }
  pose proof (g_clock _ _ Hg2). pose proof (g_clock _ _ Hg3).
  assert (win E s1) as Hw1 by (eapply grows_win; [done..|lia]).
  change ((trunc s) <| clock := clock (trunc s) + dt |>) with (trunc s1). rewrite (call_trunc E) by done.
  apply IH; [|done]. eapply grows_win; [done..|lia].
Qed.

(** ** One timeout fired *)

(** Firing a timeout that was due at [b], in a check that began at [now]: new
    timeouts are not due before [now], nor at [now] again if this one was. *)
Definition later (now b : Z) (t : sys_timeo) : Prop := now ≤ time t ∧ (b = now → now < time t).

Record fired (now b : Z) (s s' : timers) : Prop := {
  f_clock : clock s ≤ clock s';
  f_intervals : interval_ms <$> lwip_cyclic_timers s' = interval_ms <$> lwip_cyclic_timers s;
  f_new t : t ∈ next_timeout s' → t ∈ next_timeout s ∨ (later now b t ∧ time t < clock s' + 2 ^ 30);
  f_order : in_order (next_timeout s) → in_order (next_timeout s');
  f_index : indexed s → indexed s';
}.

Lemma grows_fired now b s s' : now ≤ clock s → grows s s' → fired now b s s'.
Proof.
  intros Hn [Hc Hi Hd Ht Ho Hx]. split; [done|done| |done|done]. intros t [?|[? ?]]%Ht; [by left|right].
  unfold later. split; [split; lia|lia].
Qed.

(** The next time of a periodic timer: one interval after it was due, or after
    now when that is past. *)
Definition rearm_time (due interval now : Z) : Z := if due + interval <? now then now + interval else due + interval.

Lemma cyclic_true s i :
  let c := lwip_cyclic_timers s !% i in
  let s1 := run_calls (tm := T) s (cyclic_handler (handler c) (clock s)) in
  lwip_cyclic_timer (tm := T) s i =
    match status c with
    | LWIP_TIMER_STATUS_STOPPING => set_status s i LWIP_TIMER_STATUS_IDLE
    | LWIP_TIMER_STATUS_IDLE => s
    | LWIP_TIMER_STATUS_RUNNING =>
        sys_timeout_abs (tm := T) s1
          (rearm_time (current_timeout_due_time s1) (interval_ms c) (clock s1)) H_CYCLIC i
    end.
Proof. cbv zeta. unfold lwip_cyclic_timer, rearm_time. by destruct (status _). Qed.

Section fire.
Variables (s : timers) (i now : Z).
Hypothesis Hint : ∀ c, c ∈ lwip_cyclic_timers s → 0 < interval_ms c < 2 ^ 30.
Hypothesis Hidx : 0 ≤ i < Z.of_nat (length (lwip_cyclic_timers s)).
Hypothesis Hnow : now ≤ clock s.
Hypothesis Hdue : current_timeout_due_time s ≤ now.

Let c := lwip_cyclic_timers s !% i.
Let s1 := run_calls (tm := T) s (cyclic_handler (handler c) (clock s)).

Lemma rearm_range :
  grows s s1 ∧
  let a := rearm_time (current_timeout_due_time s1) (interval_ms c) (clock s1) in
  clock s1 ≤ a < clock s1 + 2 ^ 30 ∧ current_timeout_due_time s < a.
Proof.
  assert (grows s s1) as Hg by (apply grows_calls; [done|apply cyclic_fair]). split; [done|].
  pose proof (interval_in s i Hint Hidx). fold c in H. pose proof (g_clock _ _ Hg). cbv zeta.
  rewrite (g_due _ _ Hg). unfold rearm_time. destruct (Z.ltb_spec (current_timeout_due_time s + interval_ms c) (clock s1)); lia.
Qed.

Lemma cyclic_fired : fired now (current_timeout_due_time s) s (lwip_cyclic_timer (tm := T) s i).
Proof.
  rewrite cyclic_true. cbv zeta. fold c s1. destruct (status c).
  - apply grows_fired; [done|apply grows_refl].
  - destruct rearm_range as [Hg [Ha Hb]]. set (a := rearm_time _ _ _) in *. clearbody a.
    destruct (abs_cases (tm := T) s1 a H_CYCLIC i) as (_ & Hcl & Hl & _). pose proof (g_clock _ _ Hg).
    split; [lia|by rewrite Hl; apply Hg| | |].
    + intros t [->|[?|?]%(g_new _ _ Hg)]%abs_elem; [right|by left|right]; rewrite ?Hcl; unfold later; simpl; lia.
    + intros Ho%(g_order _ _ Hg). destruct (slots s1) as [|k] eqn:Hs; [by rewrite abs_full|].
      rewrite (abs_insert _ _ _ _ k) by done. by apply insert_order.
    + intros Hx%(g_index _ _ Hg). apply abs_index; [|done]. intros _ _.
      pose proof (f_equal length (g_intervals _ _ Hg)) as Hlen. rewrite !length_fmap in Hlen. lia.
  - apply grows_fired; [done|apply grows_status].
Qed.

Lemma cyclic_trunc E :
  win E s → E - 2 ^ 30 ≤ current_timeout_due_time s → clock (lwip_cyclic_timer (tm := T) s i) ≤ E →
  lwip_cyclic_timer (tm := C) (trunc s) i = trunc (lwip_cyclic_timer (tm := T) s i).
Proof.
  intros Hw Hd He. unfold lwip_cyclic_timer. change (lwip_cyclic_timers (trunc s)) with (lwip_cyclic_timers s).
  fold c. case_bool_decide as Hst; [done|]. case_bool_decide as Hst2; [done|].
  change (clock (trunc s)) with (clock s). cbv zeta.
  assert (clock s1 ≤ E) as He1.
  { rewrite cyclic_true in He. cbv zeta in He. fold c s1 in He. destruct (status c); [done| |done].
    destruct (abs_cases (tm := T) s1 (rearm_time (current_timeout_due_time s1) (interval_ms c) (clock s1)) H_CYCLIC i) as (_ & Hc & _).
    lia. }
  rewrite (calls_trunc E) by (done || apply cyclic_fair). fold s1.
  destruct rearm_range as [Hg _]. pose proof (g_clock _ _ Hg). pose proof (interval_in s i Hint Hidx) as Hiv. fold c in Hiv.
  assert (win E s1) as Hw1 by (by eapply grows_win). destruct (w_clock _ _ Hw1).
  unfold sys_now. cbn [norm less C T u32_time true_time]. change (clock (trunc s1)) with (clock s1).
  change (current_timeout_due_time (trunc s1)) with (u32 (current_timeout_due_time s1)).
  rewrite (g_due _ _ Hg), !u32_add_l, less_u32 by lia.
  destruct (Z.ltb_spec (current_timeout_due_time s + interval_ms c) (clock s1)); apply (timeout_abs_trunc E); (done || lia).
Qed.
End fire.

(** ** The loop *)

(** The intervals of the table, as a condition on the state. *)
Definition intervals_ok (s : timers) : Prop := ∀ c, c ∈ lwip_cyclic_timers s → 0 < interval_ms c < 2 ^ 30.

Lemma fired_interval now b s s' : fired now b s s' → intervals_ok s → intervals_ok s'.
Proof.
  intros Hg Hi c Hc. pose proof (f_intervals _ _ _ _ Hg) as He.
  assert (interval_ms c ∈ interval_ms <$> lwip_cyclic_timers s) as (d & -> & Hd)%list_elem_of_fmap.
  { rewrite <- He. by apply list_elem_of_fmap_2. }
  by apply Hi.
Qed.

Section head.
Variables (s : timers) (t : sys_timeo) (l : list sys_timeo) (now : Z).
Hypothesis Hq : next_timeout s = t :: l.
Hypothesis Hix : indexed s.
Hypothesis Hiv : intervals_ok s.
Hypothesis Hnow : now ≤ clock s.
Hypothesis Hdue : time t ≤ now.

Let s0 := unlink_first s t l.
Let s1 := run_handler (tm := T) s0 t.

Lemma unlink_index : indexed s0.
Proof. eapply indexed_frame; [| |exact Hix]; [done|]. intros x Hx. rewrite Hq. by right. Qed.

Lemma head_index : h t = H_CYCLIC → 0 ≤ arg t < Z.of_nat (length (lwip_cyclic_timers s0)).
Proof. intros Hh. apply Hix; [rewrite Hq; by left|done]. Qed.

Lemma fire_head : fired now (time t) s0 s1.
Proof.
  unfold s1, run_handler. destruct (h t) eqn:Hh.
  - apply grows_fired; [done|apply grows_refl].
  - apply (cyclic_fired s0 (arg t) now); [done|by apply head_index|done|done].
  - apply grows_fired; [done|]. apply grows_calls; [done|apply user_fair].
Qed.

Lemma fire_trunc E :
  win E s → E - 2 ^ 30 ≤ now → clock s1 ≤ E →
  run_handler (tm := C) (unlink_first (trunc s) (trunc_t t) (trunc_t <$> l)) (trunc_t t) = trunc s1 ∧ win E s1.
Proof.
  intros Hw HE He. change (unlink_first (trunc s) (trunc_t t) (trunc_t <$> l)) with (trunc s0).
  assert (E - 2 ^ 30 ≤ time t) as Hl by (apply (w_late _ _ Hw); rewrite Hq; by left).
  assert (win E s0) as Hw0.
  { destruct Hw as [Hc Hl' Ha Hi]. split; [exact Hc| | |exact Hi]; intros x Hx; [apply Hl'|apply Ha]; rewrite Hq; by right. }
  pose proof fire_head as Hf. pose proof (f_clock _ _ _ _ Hf) as Hc0. split.
  - unfold s1, run_handler in He |- *. change (h (trunc_t t)) with (h t). change (arg (trunc_t t)) with (arg t).
    change (clock (trunc s0)) with (clock s0). destruct (h t) eqn:Hh.
    + done.
    + apply (cyclic_trunc s0 (arg t) now Hiv (head_index Hh) Hnow Hdue E); [done|exact Hl|exact He].
    + apply (calls_trunc E); [done|apply user_fair|done].
  - pose proof (w_clock _ _ Hw0). split; [lia| | |by eapply fired_interval].
    + intros x [Hx|[[? _] _]]%(f_new _ _ _ _ Hf); [by apply (w_late _ _ Hw0)|lia].
    + intros x [Hx|[_ ?]]%(f_new _ _ _ _ Hf); [specialize (w_ahead _ _ Hw0 x Hx); lia|lia].
Qed.
End head.

(** No timeout is [2^30] ms or more ahead. *)
Definition ahead (s : timers) : Prop := ∀ t, t ∈ next_timeout s → time t < clock s + 2 ^ 30.

Lemma fired_ahead now b s s' : fired now b s s' → ahead s → ahead s'.
Proof.
  intros Hf Ha t [Ht|[_ ?]]%(f_new _ _ _ _ Hf); [|done]. specialize (Ha t Ht). pose proof (f_clock _ _ _ _ Hf). lia.
Qed.

Lemma grows_ahead s s' : grows s s' → ahead s → ahead s'.
Proof.
  intros Hf Ha t [Ht|?]%(g_new _ _ Hf); [|lia]. specialize (Ha t Ht). pose proof (g_clock _ _ Hf). lia.
Qed.

Lemma loop_inv fuel s now s' log :
  indexed s → intervals_ok s → now ≤ clock s → check_loop (tm := T) fuel s now = Some (s', log) →
  indexed s' ∧ intervals_ok s' ∧ clock s ≤ clock s' ∧ (ahead s → ahead s').
Proof.
  revert s log. induction fuel as [|fuel IH]; intros s log Hx Hi Hn; [done|]. cbn [check_loop].
  destruct (next_timeout s) as [|t l] eqn:Hq; [intros [= <- <-]; by split_and!|].
  cbn [less T true_time]. destruct (Z.ltb_spec now (time t)); [intros [= <- <-]; by split_and!|].
  pose proof (fire_head s t l now Hq Hx Hi Hn ltac:(lia)) as Hf. pose proof (f_clock _ _ _ _ Hf) as Hc.
  set (s1 := run_handler _ t) in *. clearbody s1. change (clock (unlink_first s t l)) with (clock s) in Hc.
  destruct (check_loop fuel s1 now) as [[s2 log2]|] eqn:E; [|done]. intros [= <- <-].
  destruct (IH s1 log2) as (? & ? & ? & Ha); [|by eapply fired_interval|lia|done|].
  { apply (f_index _ _ _ _ Hf). by apply unlink_index. }
  split_and!; [done|done|lia|]. intros Ha0. apply Ha. eapply fired_ahead; [exact Hf|].
  intros x Hx'. apply Ha0. rewrite Hq. by right.
Qed.

Lemma loop_trunc E fuel s now s' log :
  win E s → indexed s → E - 2 ^ 30 ≤ now ≤ clock s →
  check_loop (tm := T) fuel s now = Some (s', log) → clock s' ≤ E →
  check_loop (tm := C) fuel (trunc s) (u32 now) = Some (trunc s', trunc_t <$> log).
Proof.
  revert s log. induction fuel as [|fuel IH]; intros s log Hw Hx Hn; [done|]. cbn [check_loop].
  cbn [next_timeout trunc set_field]. pose proof (win_range E s Hw) as Hr. pose proof (w_clock _ _ Hw).
  destruct (next_timeout s) as [|t l] eqn:Hq; [intros [= <- <-] _; done|]. cbn [fmap list_fmap].
  cbn [less T C true_time u32_time]. change (time (trunc_t t)) with (u32 (time t)).
  apply Forall_cons in Hr as [Ht _]. rewrite less_u32 by lia.
  destruct (Z.ltb_spec now (time t)); [intros [= <- <-] _; done|].
  pose proof (fire_head s t l now Hq Hx (w_interval _ _ Hw) ltac:(lia) ltac:(lia)) as Hf. pose proof (f_clock _ _ _ _ Hf) as Hc.
  pose proof (fire_trunc s t l now Hq Hx (w_interval _ _ Hw) ltac:(lia) ltac:(lia) E Hw ltac:(lia)) as Hft.
  set (s1 := run_handler (unlink_first s t l) t) in *. change (clock (unlink_first s t l)) with (clock s) in Hc.
  assert (indexed s1) as Hx1 by (apply (f_index _ _ _ _ Hf); by apply unlink_index).
  assert (intervals_ok s1) as Hi1 by (eapply fired_interval; [exact Hf|]; exact (w_interval _ _ Hw)). clearbody s1.
  destruct (check_loop fuel s1 now) as [[s2 log2]|] eqn:E2; [|done]. intros [= <- <-] He.
  destruct (loop_inv fuel s1 now s2 log2) as (_ & _ & ? & _); [done|done|lia|done|].
  destruct Hft as [Heq Hw1]; [lia|]. change (list_fmap _ _ trunc_t l) with (trunc_t <$> l). rewrite Heq.
  rewrite (IH s1 log2 Hw1 Hx1 ltac:(lia) E2 He). done.
Qed.
End refine.
