(* ===== verification/TimeoutsFire.v ===== *)
(** * The network stack's timers: what a check fires

    Over unbounded time [sys_check_timeouts] terminates, fires only what is due, in
    order, and leaves nothing due, whatever the handlers call with delays in the
    bounds ([FairApps]); with handlers that cancel nothing ([AddingApps]) it fires
    everything that was due.  By the refinement of [TimeoutsSpec] so does the code at
    32 bits. *)

From S2P Require Import Prelude Timeouts TimeoutsSpec.
From stdpp Require Import prelude list sorting.
From Stdlib Require Import ZArith Lia.
Local Open Scope Z_scope.

Section fire.
Context {apps : Apps} {Hfair : FairApps}.
#[local] Abbreviation C := u32_time.
#[local] Abbreviation T := true_time.

(** ** What a handler does to the queue *)

(** It may cancel, and what it adds lies ahead. *)
Record adds (s s' : timers) : Prop := {
  a_grows : grows s s';
  a_new : ∃ new, next_timeout s' ⊆+ new ++ next_timeout s ∧ Forall (λ t, clock s < time t) new;
}.

Lemma adds_same s s' : grows s s' → next_timeout s' ⊆+ next_timeout s → adds s s'.
Proof. intros Hg He. split; [done|]. by exists []. Qed.

Lemma adds_trans s1 s2 s3 : adds s1 s2 → adds s2 s3 → adds s1 s3.
Proof.
  intros [G1 (n1 & P1 & F1)] [G2 (n2 & P2 & F2)]. split; [by eapply grows_trans|].
  exists (n2 ++ n1). split.
  { etrans; [exact P2|]. rewrite <- (assoc_L (++)). by apply submseteq_app. }
  apply Forall_app. split; [|done]. eapply Forall_impl; [exact F2|]. pose proof (g_clock _ _ G1). simpl. lia.
Qed.

Lemma adds_timeout s ms hd g :
  grows s (sys_timeout (tm := T) s ms hd g) → 0 < ms → adds s (sys_timeout (tm := T) s ms hd g).
Proof.
  change (sys_timeout (tm := T) s ms hd g) with (sys_timeout_abs (tm := T) s (clock s + ms) hd g).
  intros Hg Hms. split; [done|]. destruct (abs_cases (tm := T) s (clock s + ms) hd g) as ([He|Hp] & _).
  - exists []. split; [by rewrite He|constructor].
  - exists [mk_timeo (clock s + ms) hd g]. split; [by rewrite Hp|]. repeat constructor. simpl. lia.
Qed.

Lemma adds_call s c : intervals_ok s → fair_call c → adds s (do_call (tm := T) s c).
Proof.
  intros Hi Hc. pose proof (grows_call s c Hi Hc) as Hg. destruct c as [ms hd g|hd g|b hd|]; cbn [do_call] in *.
  - apply adds_timeout; [done|]. destruct Hc. lia.
  - apply adds_same; [done|]. apply sublist_submseteq, untimeout_sublist.
  - revert Hg. unfold sys_timeouts_set_timer_enable.
    destruct (find_cyclic hd 0 _) as [i|] eqn:E; [|intros; by apply adds_same].
    apply find_cyclic_bound in E as [E _]. pose proof (interval_in s i Hi ltac:(lia)).
    destruct b; case_bool_decide; intros; try (by apply adds_same).
    eapply adds_trans; [|apply (adds_same _ (set_status _ i _)); [apply grows_status|done]].
    apply adds_timeout; [|lia]. apply grows_timeout; [done|]. intros. lia.
  - revert Hg. unfold tcp_timer_needed. destruct LWIP_TCP eqn:E; [|intros; by apply adds_same]. cbn [negb].
    destruct (tcp_timer_pending s); [intros; by apply adds_same|]. cbn [negb]. intros Hg. split; [done|].
    destruct (abs_cases (tm := T) (s <| tcp_timer_pending := true |>) (clock s + TCP_TMR_INTERVAL) H_CYCLIC 0) as ([He|Hp] & _).
    + exists []. split; [|constructor]. apply (f_equal next_timeout) in He. by rewrite (He : next_timeout (sys_timeout (tm := T) _ _ _ _) = _).
    + exists [mk_timeo (clock s + TCP_TMR_INTERVAL) H_CYCLIC 0]. split; [by rewrite (Hp : next_timeout (sys_timeout (tm := T) _ _ _ _) ≡ₚ _)|].
      repeat constructor. simpl. pose proof tcp_fair. lia.
Qed.

Lemma adds_calls l s : intervals_ok s → fair l → adds s (run_calls (tm := T) s l).
Proof.
  intros Hi Hl. revert s Hi. induction Hl as [|[dt c] l [Hd Hc] _ IH]; intros s Hi; [apply adds_same; [apply grows_refl|done]|].
  cbn [run_calls]. assert (adds s (do_call (tm := T) (s <| clock := clock s + dt |>) c)) as Hg.
  { eapply adds_trans; [apply adds_same; [by apply grows_clock|done]|]. by apply adds_call. }
  eapply adds_trans; [exact Hg|]. apply IH. exact (grows_interval _ _ (a_grows _ _ Hg) Hi).
Qed.

(** ** Handlers that cancel nothing *)

Definition adding (l : list (Z * call)) : Prop :=
  Forall (λ dc, match dc.2 with CUntimeout _ _ => False | _ => True end) l.

Class AddingApps : Prop := {
  user_adding id a now : adding (user_handler id a now);
  cyclic_adding hd now : adding (cyclic_handler hd now);
}.

Section keeps.
Context {tm : Time}.

Lemma keeps_abs s a hd g : next_timeout s ⊆+ next_timeout (sys_timeout_abs s a hd g).
Proof. destruct (abs_cases s a hd g) as ([->|Hp] & _); [done|]. rewrite Hp. by apply submseteq_cons. Qed.

Lemma keeps_call s c :
  match c with CUntimeout _ _ => False | _ => True end → next_timeout s ⊆+ next_timeout (do_call s c).
Proof.
  intros Hc. destruct c as [ms hd g|hd g|b hd|]; cbn [do_call]; [apply keeps_abs|done| |].
  - unfold sys_timeouts_set_timer_enable. destruct (find_cyclic hd 0 _) as [i|]; [|done].
    destruct b; case_bool_decide; try done. apply (keeps_abs s).
  - unfold tcp_timer_needed. destruct LWIP_TCP; [|done]. destruct (tcp_timer_pending s); [done|].
    cbn [negb]. unfold sys_timeout. by rewrite <- (keeps_abs (s <| tcp_timer_pending := true |>)).
Qed.

Lemma keeps_calls l s : adding l → next_timeout s ⊆+ next_timeout (run_calls s l).
Proof.
  intros Hl. revert s. induction Hl as [|[dt c] l Hc _ IH]; intros s; [done|]. cbn [run_calls].
  etrans; [|apply IH]. by rewrite <- (keeps_call (s <| clock := clock s + dt |>) c).
Qed.

Lemma keeps_handler s t : AddingApps → next_timeout s ⊆+ next_timeout (run_handler s t).
Proof.
  intros Ha. unfold run_handler. destruct (h t); [done| |apply keeps_calls, user_adding].
  unfold lwip_cyclic_timer. case_bool_decide; [done|]. case_bool_decide; [done|]. cbv zeta.
  etrans; [|apply keeps_abs]. apply keeps_calls, cyclic_adding.
Qed.
End keeps.

(** ** Each timeout fires at most twice in one check *)

Definition weight (now a : Z) : Z := if a <? now then 2 else if a =? now then 1 else 0.
Definition wsum (now : Z) (l : list sys_timeo) : Z := foldr (λ t n, weight now (time t) + n) 0 l.

Lemma wsum_app now l l' : wsum now (l ++ l') = wsum now l + wsum now l'.
Proof. induction l as [|t l IH]; simpl in *; lia. Qed.

Lemma wsum_bound now l : 0 ≤ wsum now l ≤ 2 * Z.of_nat (length l).
Proof. induction l as [|t l IH]; simpl; [lia|]. unfold weight. repeat case_match; lia. Qed.

Lemma wsum_submseteq now l l' : l ⊆+ l' → wsum now l ≤ wsum now l'.
Proof. unfold wsum. induction 1; simpl; unfold weight in *; repeat case_match; lia. Qed.

Lemma wsum_after now l : Forall (λ t, now < time t) l → wsum now l = 0.
Proof. induction 1 as [|t l Ht _ IH]; simpl; [done|]. rewrite IH. unfold weight. repeat case_match; lia. Qed.

Section head.
Variables (s : timers) (t : sys_timeo) (l : list sys_timeo) (now : Z).
Hypothesis Hq : next_timeout s = t :: l.
Hypothesis Hix : indexed s.
Hypothesis Hiv : intervals_ok s.
Hypothesis Hnow : now ≤ clock s.
Hypothesis Hdue : time t ≤ now.

Lemma fire_adds :
  ∃ new, next_timeout (run_handler (tm := T) (unlink_first s t l) t) ⊆+ new ++ l ∧
    Forall (λ x, now ≤ time x) new ∧ wsum now new < weight now (time t).
Proof.
  set (s0 := unlink_first s t l). assert (0 < weight now (time t)) as Hpos by (unfold weight; repeat case_match; lia).
  assert (∀ s', adds s0 s' → ∃ new, next_timeout s' ⊆+ new ++ l ∧ Forall (λ x, now < time x) new) as Ha.
  { intros s' [_ (new & Hp & Hf)]. exists new. split; [done|]. eapply Forall_impl; [exact Hf|]. simpl. lia. }
  assert (∀ s', adds s0 s' → ∃ new, next_timeout s' ⊆+ new ++ l ∧ Forall (λ x, now ≤ time x) new ∧
    wsum now new < weight now (time t)) as Hb.
  { intros s' (new & Hp & Hf)%Ha. exists new. split_and!; [done| |by rewrite (wsum_after now new)].
    eapply Forall_impl; [exact Hf|]. simpl. lia. }
  assert (indexed s0) as Hx0 by (by apply (unlink_index s)).
  unfold run_handler. destruct (h t) eqn:Hh.
  - apply Hb, adds_same; [apply grows_refl|done].
  - rewrite cyclic_true. cbv zeta. set (i := arg t). set (c := lwip_cyclic_timers s0 !% i).
    assert (0 ≤ i < Z.of_nat (length (lwip_cyclic_timers s0))) as Hi0 by (by eapply head_index).
    destruct (status c).
    + apply Hb, adds_same; [apply grows_refl|done].
    + destruct (rearm_range s0 i now Hiv Hi0 Hnow Hdue) as [Hg [Hr1 Hr2]].
      set (s1 := run_calls s0 _) in *. set (a := rearm_time _ _ _) in *.
      destruct (Ha s1) as (new & Hp & Hf); [apply adds_calls; [done|apply cyclic_fair]|].
      pose proof (g_clock _ _ Hg) as Hc. change (clock s0) with (clock s) in Hc.
      change (current_timeout_due_time s0) with (time t) in Hr2. clearbody a.
      assert (Forall (λ x, now ≤ time x) new) by (eapply Forall_impl; [exact Hf|]; simpl; lia).
      destruct (abs_cases (tm := T) s1 a H_CYCLIC i) as ([He|Hp'] & _).
      * rewrite He. exists new. by rewrite (wsum_after now new).
      * exists (mk_timeo a H_CYCLIC i :: new). split_and!; [|constructor; [simpl; lia|done]|].
        -- rewrite Hp'. simpl. by apply submseteq_skip.
        -- simpl. rewrite (wsum_after now new) by done. unfold weight. repeat case_match; lia.
    + apply Hb, adds_same; [apply grows_status|done].
  - apply Hb, adds_calls; [done|apply user_fair].
Qed.
End head.

(** ** The loop *)

Abbreviation due now := (λ t : sys_timeo, time t ≤ now).

Lemma none_due now l : Forall (λ t, now < time t) l → filter (due now) l = [].
Proof. induction 1 as [|t l Ht _ IH]; [done|]. rewrite filter_cons_False by lia. done. Qed.

Lemma due_submseteq now l l' : l ⊆+ l' → filter (due now) l ⊆+ filter (due now) l'.
Proof. intros [k ->]%submseteq_Permutation. rewrite filter_app. by apply submseteq_inserts_r. Qed.

Lemma loop_fires fuel s now :
  indexed s → intervals_ok s → now ≤ clock s → in_order (next_timeout s) →
  wsum now (next_timeout s) < Z.of_nat fuel →
  ∃ s' log, check_loop (tm := T) fuel s now = Some (s', log) ∧ in_order (next_timeout s') ∧
    Forall (λ t, now < time t) (next_timeout s') ∧ Forall (due now) log ∧ in_order log ∧
    (AddingApps → filter (due now) (next_timeout s) ⊆+ log) ∧
    (∀ b, b ≤ now → Forall (λ t, b ≤ time t) (next_timeout s) → Forall (λ t, b ≤ time t) log).
Proof.
  revert s. induction fuel as [|fuel IH]; intros s Hx Hi Hn Ho Hw.
  { pose proof (wsum_bound now (next_timeout s)). lia. }
  cbn [check_loop]. destruct (next_timeout s) as [|t l] eqn:Hq.
  { exists s, []. rewrite Hq. split_and!; try done; constructor. }
  inversion Ho as [|? ? Hol Hal]; subst. cbn [less T true_time]. destruct (Z.ltb_spec now (time t)) as [Hlt|Hle].
  - assert (Forall (λ x, now < time x) (t :: l)) as Hall.
    { constructor; [done|]. eapply Forall_impl; [exact Hal|]. unfold due_order. simpl. lia. }
    exists s, []. rewrite Hq. split_and!; try done; try constructor.
    intros _. by rewrite none_due.
  - pose proof (fire_head s t l now Hq Hx Hi Hn Hle) as Hf.
    destruct (fire_adds s t l now Hq Hx Hi Hn Hle) as (new & Hp & Hnew & Hws).
    pose proof (keeps_handler (tm := T) (unlink_first s t l) t) as Hkeep.
    change (next_timeout (unlink_first s t l)) with l in Hkeep.
    set (s1 := run_handler _ t) in *. clearbody s1.
    assert (wsum now (next_timeout s1) < Z.of_nat fuel) as Hw1.
    { pose proof (wsum_submseteq now _ _ Hp) as Hs1. rewrite wsum_app in Hs1. simpl in Hw. lia. }
    pose proof (f_clock _ _ _ _ Hf) as Hc. change (clock (unlink_first s t l)) with (clock s) in Hc.
    destruct (IH s1) as (s2 & log & He & Ho2 & Ha2 & Hd & Hol2 & Hsub & Hlow).
    { apply (f_index _ _ _ _ Hf). by apply unlink_index. }
    { by eapply fired_interval. }
    { lia. }
    { by apply (f_order _ _ _ _ Hf). }
    { done. }
    assert (Forall (λ x, time t ≤ time x) log) as Hlog.
    { apply Hlow; [done|]. apply Forall_forall. intros x Hin. apply (elem_of_submseteq _ _ _ Hin) in Hp. clear Hin. revert x Hp. apply Forall_forall.
      apply Forall_app. split; [|exact Hal]. eapply Forall_impl; [exact Hnew|]. simpl. lia. }
    exists s2, (t :: log). rewrite He. split_and!; [done|done|done|by constructor|by constructor| |].
    + intros Ha. rewrite filter_cons_True by done. apply submseteq_skip. etrans; [|by apply Hsub].
      by apply due_submseteq, Hkeep.
    + intros b Hb [Hbt Hbl]%Forall_cons. constructor; [done|]. eapply Forall_impl; [exact Hlog|]. simpl. lia.
Qed.

(** ** The time a check takes *)

Lemma call_clock s c : clock (do_call (tm := T) s c) = clock s.
Proof.
  assert (∀ x ms hd g, clock (sys_timeout (tm := T) x ms hd g) = clock x) as Ht.
  { intros x ms hd g. destruct (abs_cases (tm := T) x (clock x + ms) hd g) as (_ & Hc & _). exact Hc. }
  destruct c; cbn [do_call]; [apply Ht| | |].
  - unfold sys_untimeout. by destruct (remove_first _ _ _).
  - unfold sys_timeouts_set_timer_enable. destruct (find_cyclic _ _ _) as [i|]; [|done].
    destruct enable; case_bool_decide; try done. exact (Ht _ _ _ _).
  - unfold tcp_timer_needed. destruct LWIP_TCP; [|done]. cbn [negb]. destruct (tcp_timer_pending s); [done|]. exact (Ht (s <| tcp_timer_pending := true |>) _ _ _).
Qed.

Lemma calls_clock l s : clock (run_calls (tm := T) s l) = clock s + duration l.
Proof.
  revert s. induction l as [|[dt c] l IH]; intros s; simpl; [lia|]. rewrite IH, call_clock. simpl. lia.
Qed.

(** Every handler returns within [D] ms. *)
Definition swift (D : Z) : Prop :=
  0 ≤ D ∧ (∀ id a now, duration (user_handler id a now) ≤ D) ∧ (∀ hd now, duration (cyclic_handler hd now) ≤ D).

Lemma handler_clock D s t : swift D → clock (run_handler (tm := T) s t) ≤ clock s + D.
Proof.
  intros (H0 & Hu & Hc). unfold run_handler. destruct (h t); [lia| |by rewrite calls_clock; specialize (Hu id (arg t) (clock s)); lia].
  rewrite cyclic_true. cbv zeta. destruct (status _); [lia| |unfold set_status; simpl; lia].
  match goal with |- context [sys_timeout_abs ?x ?a ?hd ?g] =>
    destruct (abs_cases (tm := T) x a hd g) as (_ & -> & _) end.
  rewrite calls_clock. specialize (Hc (handler (lwip_cyclic_timers s !% arg t)) (clock s)). lia.
Qed.

Lemma loop_duration D fuel s now s' log :
  swift D → indexed s → intervals_ok s → now ≤ clock s → check_loop (tm := T) fuel s now = Some (s', log) →
  clock s' ≤ clock s + D * wsum now (next_timeout s).
Proof.
  intros HD. revert s log. induction fuel as [|fuel IH]; intros s log Hx Hi Hn; [done|]. cbn [check_loop].
  pose proof (proj1 HD). pose proof (wsum_bound now (next_timeout s)).
  destruct (next_timeout s) as [|t l] eqn:Hq; [intros [= <- <-]; simpl; lia|].
  cbn [less T true_time]. destruct (Z.ltb_spec now (time t)) as [|Hle]; [intros [= <- <-]; nia|].
  pose proof (fire_head s t l now Hq Hx Hi Hn Hle) as Hf.
  destruct (fire_adds s t l now Hq Hx Hi Hn Hle) as (new & Hp & _ & Hws).
  pose proof (handler_clock D (unlink_first s t l) t HD) as Hc. pose proof (f_clock _ _ _ _ Hf) as Hc'.
  set (s1 := run_handler _ t) in *. clearbody s1. change (clock (unlink_first s t l)) with (clock s) in Hc, Hc'.
  destruct (check_loop fuel s1 now) as [[s2 log2]|] eqn:E; [|done]. intros [= <- <-].
  assert (clock s2 ≤ clock s1 + D * wsum now (next_timeout s1)) as H2.
  { eapply IH; [|by eapply fired_interval|lia|done]. apply (f_index _ _ _ _ Hf). by apply unlink_index. }
  pose proof (wsum_submseteq now _ _ Hp) as Hs1. rewrite wsum_app in Hs1. simpl. nia.
Qed.

(** ** Traces *)

Inductive top := TInit | TCall (c : call) | TWait (dt : Z) | TCheck | TRestart.

(** Enough iterations for a check: twice the timeouts, and the last test. *)
Definition check_fuel (s : timers) : nat := S (2 * length (next_timeout s)).

Definition tstep (tm : Time) (s : timers) (o : top) : option (timers * list sys_timeo) :=
  match o with
  | TInit => Some (sys_timeouts_init s, [])
  | TCall c => Some (do_call s c, [])
  | TWait dt => Some (s <| clock := clock s + dt |>, [])
  | TCheck => sys_check_timeouts (check_fuel s) s
  | TRestart => Some (sys_restart_timeouts s, [])
  end.

(** A run, with the timeouts it fires. *)
Fixpoint trun (tm : Time) (s : timers) (os : list top) : option (timers * list sys_timeo) :=
  match os with
  | [] => Some (s, [])
  | o :: os => '(s, l1) ← tstep tm s o; '(s, l2) ← trun tm s os; Some (s, l1 ++ l2)
  end.

(** Calls within the rules; a restart only of timeouts less than [2^30] ms apart. *)
Definition legal (s : timers) (o : top) : Prop :=
  match o with
  | TCall c => fair_call c
  | TWait dt => 0 ≤ dt
  | TRestart => ∀ t t', t ∈ next_timeout s → t' ∈ next_timeout s → time t' - time t < 2 ^ 30
  | _ => True
  end.

(** No operation lasts, and no timeout is late, more than [2^30] ms (12 days). *)
Definition lag (s : timers) (c : Z) : Prop :=
  c - 2 ^ 30 ≤ clock s ∧ ∀ t, t ∈ next_timeout s → c - 2 ^ 30 ≤ time t.

Fixpoint punctual (s : timers) (os : list top) : Prop :=
  match os with
  | [] => True
  | o :: os =>
      legal s o ∧ ∀ s' l, tstep true_time s o = Some (s', l) → lag s (clock s') ∧ punctual s' os
  end.

Record tinv (s : timers) : Prop := {
  ti_index : indexed s;
  ti_interval : intervals_ok s;
  ti_ahead : ahead s;
  ti_order : in_order (next_timeout s);
}.

Lemma lag_win s c : tinv s → lag s c → clock s ≤ c → win c s.
Proof. intros [? ? Ha ?] [? Hl] ?. split; [lia|auto|auto|auto]. Qed.

Lemma grows_tinv s s' : tinv s → grows s s' → tinv s'.
Proof.
  intros [? Hi ? ?] Hg. split; [by apply Hg|exact (grows_interval _ _ Hg Hi)|by eapply grows_ahead|by apply Hg].
Qed.

Lemma init_loop_grows s i l :
  (∀ c, c ∈ l → 0 < interval_ms c < 2 ^ 30) → 0 ≤ i →
  i + Z.of_nat (length l) ≤ Z.of_nat (length (lwip_cyclic_timers s)) →
  grows s (init_loop (tm := T) s i l) ∧
  ∀ E, win E s → init_loop (tm := C) (trunc s) i l = trunc (init_loop (tm := T) s i l).
Proof.
  revert s i. induction l as [|c l IH]; intros s i Hc Hi Hl; [split; [apply grows_refl|done]|].
  cbn [init_loop length] in *. assert (0 < interval_ms c < 2 ^ 30) as Hiv by (apply Hc; by left).
  destruct ((first_cyclic <=? i) && _).
  - assert (grows s (sys_timeout (tm := T) s (interval_ms c) H_CYCLIC i)) as Hg by (apply grows_timeout; [done|lia]).
    destruct (IH (sys_timeout (tm := T) s (interval_ms c) H_CYCLIC i) (i + 1)) as [Hg2 Ht]; [intros ? ?; apply Hc; by right|lia| |].
    { pose proof (f_equal length (g_intervals _ _ Hg)) as He. rewrite !length_fmap in He. lia. }
    split; [by eapply grows_trans|]. intros E Hw. rewrite (timeout_trunc E) by done. apply (Ht E).
    eapply grows_win; [done..|]. pose proof (w_clock _ _ Hw).
    pose proof (call_clock s (CTimeout (interval_ms c) H_CYCLIC i)) as Hcl. cbn [do_call] in Hcl. lia.
  - apply IH; [intros ? ?; apply Hc; by right|lia|lia].
Qed.

Lemma restart_true s :
  sys_restart_timeouts (tm := T) s =
    match next_timeout s with
    | [] => s
    | t0 :: _ => s <| next_timeout := (λ t, t <| time := time t - time t0 + clock s |>) <$> next_timeout s |>
    end.
Proof. done. Qed.

Lemma restart_times base now (l : list sys_timeo) :
  (λ t, t <| time := u32 (u32 (time t - u32 base) + u32 now) |>) <$> (trunc_t <$> l) =
  trunc_t <$> ((λ t, t <| time := time t - base + now |>) <$> l).
Proof.
  rewrite <- !list_fmap_compose. apply list_fmap_ext. intros _ t _. unfold trunc_t. simpl. unfold set_field. simpl.
  by rewrite u32_sub, u32_add_l, u32_add_r.
Qed.

Lemma restart_trunc s : sys_restart_timeouts (tm := C) (trunc s) = trunc (sys_restart_timeouts (tm := T) s).
Proof.
  destruct s as [[|t0 l] d c p n k]; [done|].
  exact (f_equal (λ q, mk_timers q (u32 d) c p n k) (restart_times (time t0) k (t0 :: l))).
Qed.

Lemma restart_tinv s : tinv s → legal s TRestart → tinv (sys_restart_timeouts (tm := T) s).
Proof.
  intros [Hx Hi Ha Ho] Hl. rewrite restart_true. destruct (next_timeout s) as [|t0 l] eqn:Hq; [by split; rewrite ?Hq|].
  cbn [legal] in Hl. rewrite Hq in Hl. split; [|done| |].
  - split; [apply Hx|]. intros t (t' & -> & Ht)%list_elem_of_fmap Hh. apply (proj2 Hx t'); [by rewrite Hq|done].
  - intros t (t' & -> & Ht)%list_elem_of_fmap. specialize (Hl t0 t' ltac:(by left) Ht). simpl. lia.
  - cbn [next_timeout set_field]. set (f := λ t : sys_timeo, _). clear -Ho. induction Ho as [|t l' _ IH Hf]; [constructor|].
    cbn [fmap list_fmap]. constructor; [exact IH|]. apply Forall_fmap. eapply Forall_impl; [exact Hf|].
    unfold due_order, f. simpl. lia.
Qed.

Lemma check_total s :
  tinv s →
  ∃ s' log, sys_check_timeouts (tm := T) (check_fuel s) s = Some (s', log) ∧ in_order (next_timeout s') ∧
    Forall (λ t, clock s < time t) (next_timeout s') ∧ Forall (due (clock s)) log ∧ in_order log ∧
    (AddingApps → filter (due (clock s)) (next_timeout s) ⊆+ log).
Proof.
  intros [Hx Hi _ Ho]. destruct (loop_fires (check_fuel s) s (clock s) Hx Hi ltac:(lia) Ho) as (s' & log & He & ? & ? & ? & ? & ? & _).
  { pose proof (wsum_bound (clock s) (next_timeout s)). unfold check_fuel. lia. }
  by exists s', log.
Qed.

Lemma check_tinv s s' log :
  tinv s → sys_check_timeouts (tm := T) (check_fuel s) s = Some (s', log) → tinv s' ∧ clock s ≤ clock s'.
Proof.
  intros Hs He. destruct (check_total s Hs) as (s2 & log2 & He2 & Ho & _). rewrite He in He2. simplify_eq.
  destruct Hs as [Hx Hi Ha _]. destruct (loop_inv _ _ _ _ _ Hx Hi (Z.le_refl (clock s)) He) as (? & ? & ? & ?).
  split; [split; auto|done].
Qed.

Lemma init_grows s :
  tinv s → grows s (sys_timeouts_init (tm := T) s) ∧
  ∀ E, win E s → sys_timeouts_init (tm := C) (trunc s) = trunc (sys_timeouts_init (tm := T) s).
Proof. intros [_ Hi _ _]. apply (init_loop_grows s 0); [exact Hi|lia|lia]. Qed.

Lemma step_sim s o s' l :
  tinv s → legal s o → tstep T s o = Some (s', l) → lag s (clock s') →
  tinv s' ∧ tstep C (trunc s) o = Some (trunc s', trunc_t <$> l).
Proof.
  intros Hs Hl Hst Hlag. pose proof Hs as [Hx Hi Ha Ho].
  assert (clock s ≤ clock s' → win (clock s') s) as Hwin by (intros; by apply lag_win).
  destruct o as [|c|dt| |]; cbn [tstep legal] in *.
  - injection Hst as <- <-. destruct (init_grows s Hs) as [Hg Ht]. split; [by eapply grows_tinv|].
    rewrite (Ht _ (Hwin (g_clock _ _ Hg))). done.
  - injection Hst as <- <-. pose proof (grows_call s c Hi Hl) as Hg. split; [by eapply grows_tinv|].
    rewrite (call_trunc (clock (do_call (tm := T) s c)) s c); [done|apply Hwin, Hg|done].
  - injection Hst as <- <-. split; [|done]. eapply grows_tinv; [done|]. by apply grows_clock.
  - destruct (check_tinv s s' l Hs Hst) as [? Hc]. split; [done|].
    assert (check_fuel (trunc s) = check_fuel s) as -> by (unfold check_fuel, trunc; cbn; by rewrite length_fmap).
    apply (loop_trunc (clock s') (check_fuel s) s (clock s)); [by apply Hwin|done|destruct Hlag; lia|exact Hst|lia].
  - injection Hst as <- <-. split; [by apply restart_tinv|]. by rewrite restart_trunc.
Qed.

Lemma step_total s o : tinv s → ∃ s' l, tstep T s o = Some (s', l).
Proof.
  intros Hs. destruct o; cbn [tstep]; try (by do 2 eexists). destruct (check_total s Hs) as (s' & log & He & _).
  by exists s', log.
Qed.

Lemma trun_sim os s :
  tinv s → punctual s os →
  ∃ s' l, trun T s os = Some (s', l) ∧ trun C (trunc s) os = Some (trunc s', trunc_t <$> l) ∧ tinv s'.
Proof.
  revert s. induction os as [|o os IH]; intros s Hs Hp; [by exists s, []|]. destruct Hp as [Hl Hp].
  destruct (step_total s o Hs) as (s1 & l1 & H1). destruct (Hp s1 l1 H1) as [Hlag Hp1].
  destruct (step_sim s o s1 l1 Hs Hl H1 Hlag) as [Hs1 H2]. destruct (IH s1 Hs1 Hp1) as (s2 & l2 & H3 & H4 & Hs2).
  exists s2, (l1 ++ l2). cbn [trun]. rewrite H1, H2. cbn [mbind option_bind]. rewrite H3, H4. cbn [mbind option_bind].
  by rewrite fmap_app.
Qed.

(** ** Deciding [punctual] on a concrete trace *)

Definition fair_callb (c : call) : bool :=
  match c with
  | CTimeout ms hd _ => (0 <? ms) && (ms <? 2 ^ 30) && negb (bool_decide (hd = H_CYCLIC))
  | _ => true
  end.

Definition legalb (s : timers) (o : top) : bool :=
  match o with
  | TCall c => fair_callb c
  | TWait dt => 0 <=? dt
  | TRestart => forallb (λ t, forallb (λ t', time t' - time t <? 2 ^ 30) (next_timeout s)) (next_timeout s)
  | _ => true
  end.

Definition lagb (s : timers) (c : Z) : bool :=
  (c - 2 ^ 30 <=? clock s) && forallb (λ t, c - 2 ^ 30 <=? time t) (next_timeout s).

Fixpoint punctualb (s : timers) (os : list top) : bool :=
  match os with
  | [] => true
  | o :: os => legalb s o && match tstep T s o with Some (s', _) => lagb s (clock s') && punctualb s' os | None => true end
  end.

Lemma forallb_all {A} (f : A → bool) l : forallb f l = true → ∀ x, x ∈ l → f x = true.
Proof. rewrite forallb_forall. intros Hf x Hx. apply Hf. by apply list_elem_of_In. Qed.

Lemma legalb_sound s o : legalb s o = true → legal s o.
Proof.
  destruct o as [|c|dt| |]; cbn [legalb legal]; [done| |by intros ?%Z.leb_le|done|].
  - destruct c; try done. cbn [fair_callb]. intros [[?%Z.ltb_lt ?%Z.ltb_lt]%andb_true_iff Hh%negb_true_iff]%andb_true_iff.
    apply bool_decide_eq_false in Hh. split; [lia|done].
  - intros Hf t t' Ht Ht'. apply Z.ltb_lt. exact (forallb_all _ _ (forallb_all _ _ Hf t Ht) t' Ht').
Qed.

Lemma lagb_sound s c : lagb s c = true → lag s c.
Proof.
  intros [?%Z.leb_le Hf]%andb_true_iff. split; [done|]. intros t Ht. apply Z.leb_le. exact (forallb_all _ _ Hf t Ht).
Qed.

Lemma punctualb_sound os s : punctualb s os = true → punctual s os.
Proof.
  revert s. induction os as [|o os IH]; intros s; [done|]. cbn [punctualb punctual].
  intros [Hl Hp]%andb_true_iff. split; [by apply legalb_sound|]. intros s' l He. rewrite He in Hp.
  apply andb_true_iff in Hp as [? ?]. split; [by apply lagb_sound|by apply IH].
Qed.

End fire.

(** ** Properties *)

Section properties.
Context {apps : Apps}.
#[local] Abbreviation C := u32_time.

(** C20: across the wrap of the 32-bit clock, the code does what it would do
    with a clock that never wraps: the same timeouts, fired in the same order,
    and every check terminates.  This holds for any sequence of timeouts
    started and cancelled, timers enabled and disabled, waits, checks and
    restarts, and whatever the handlers call, cancels included, under these
    conditions: every delay (the program's, a handler's, [TCP_TMR_INTERVAL]) is
    positive and at most [LWIP_UINT32_MAX / 4] ms, the bound [sys_timeout] asserts (with a delay
    of zero a handler that starts itself again keeps the check from ending);
    [lwip_cyclic_timer] is not itself passed as a handler ([FairApps], [legal]);
    no operation lasts, and no timeout is handled, more than [2^30] ms late
    ([lag]); and a restart comes when the pending timeouts are less than
    [2^30] ms apart.  The initial state is well formed ([tinv]: table indices
    in range, table intervals in that bound, nothing due beyond it, the queue
    in order). *)
Theorem timeouts_refine_true_time s os :
  FairApps → tinv s → punctual s os →
  ∃ s' fired, trun true_time s os = Some (s', fired) ∧
    trun u32_time (trunc s) os = Some (trunc s', trunc_t <$> fired).
Proof. intros Hfair Hs Hp. destruct (trun_sim os s Hs Hp) as (s' & l & ? & ? & _). by exists s', l. Qed.

(** C21: a check, at 32 bits, of a well-formed state ([tinv]), with handlers
    that each return within [D] ms and whose delays, like [TCP_TMR_INTERVAL], are
    positive and at most [LWIP_UINT32_MAX / 4] ms ([FairApps]), no timeout being more than [2^30] ms
    late when the check ends: it terminates; it fires only timeouts that are
    due, in the order of their due times; what it leaves pending is not yet
    due, and again in order; and when no handler cancels timeouts
    ([AddingApps]), it fires every timeout that was pending and due. *)
Theorem timeouts_check_fires D s :
  FairApps → swift D → tinv s →
  lag s (clock s + D * (2 * Z.of_nat (length (next_timeout s)))) →
  ∃ s' log, sys_check_timeouts (tm := u32_time) (check_fuel (trunc s)) (trunc s) = Some (trunc s', trunc_t <$> log) ∧
    Forall (λ t, time t ≤ clock s) log ∧ in_order log ∧
    (AddingApps → filter (λ t, time t ≤ clock s) (next_timeout s) ⊆+ log) ∧
    Forall (λ t, clock s < time t) (next_timeout s') ∧ in_order (next_timeout s').
Proof.
  intros Hfair HD Hs Hlag. destruct (check_total s Hs) as (s' & log & He & Ho & Ha & Hdue & Hol & Hsub).
  assert (clock s' ≤ clock s + D * (2 * Z.of_nat (length (next_timeout s)))) as Hc.
  { pose proof (loop_duration D _ _ _ _ _ HD (ti_index _ Hs) (ti_interval _ Hs) (Z.le_refl (clock s)) He) as Hd.
    pose proof (wsum_bound (clock s) (next_timeout s)). pose proof (proj1 HD). nia. }
  destruct (step_sim s TCheck s' log Hs I He) as [_ H2]; [|exists s', log; by split_and!].
  destruct Hlag as [? Hl]. split; [lia|]. intros t Ht. specialize (Hl t Ht). lia.
Qed.

(** [sys_timeouts_sleeptime] is the time until the first timeout is due,
    zero when one is late, and infinite when none is pending: the idle loop
    neither sleeps past a timeout nor wakes before it. *)
Theorem timeouts_sleeptime s :
  tinv s → lag s (clock s) →
  sys_timeouts_sleeptime (tm := u32_time) (trunc s) =
    match next_timeout s with
    | [] => SYS_TIMEOUTS_SLEEPTIME_INFINITE
    | t :: _ => Z.max 0 (time t - clock s)
    end.
Proof.
  intros Hs Hl. pose proof (lag_win s (clock s) Hs Hl ltac:(lia)) as Hw. unfold sys_timeouts_sleeptime.
  cbn [next_timeout trunc set_field]. destruct (next_timeout s) as [|t l] eqn:Hq; [done|]. cbn [fmap list_fmap].
  assert (t ∈ next_timeout s) as Ht by (rewrite Hq; by left).
  pose proof (w_late _ _ Hw t Ht). pose proof (w_ahead _ _ Hw t Ht).
  unfold sys_now. cbn [norm less C u32_time]. change (time (trunc_t t)) with (u32 (time t)).
  change (clock (trunc s)) with (clock s). rewrite less_u32, u32_sub by lia.
  destruct (Z.ltb_spec (time t) (clock s)); [lia|]. rewrite wrap_small by (unfold uint; lia). lia.
Qed.
End properties.
