(* ===== verification/TimeoutsBooked.v ===== *)
(** * The network stack's timers: the periodic timers and their bookings

    Every periodic timer of the table that is not idle has exactly one pending
    timeout, an idle one has none: enabling, disabling, firing and re-arming
    neither lose a timer nor book it twice.  The pool of records has one per
    timer, as the build configures it. *)

From S2P Require Import Prelude Timeouts TimeoutsSpec TimeoutsFire.
From stdpp Require Import prelude list sorting.
From Stdlib Require Import ZArith Lia.
Local Open Scope Z_scope.

(** ** Counting bookings *)

Abbreviation booking i := (λ t : sys_timeo, h t = H_CYCLIC ∧ arg t = i).

Definition pending (i : Z) (l : list sys_timeo) : nat := length (filter (booking i) l).

Lemma pending_perm i l l' : l ≡ₚ l' → pending i l = pending i l'.
Proof. intros Hp. unfold pending. by rewrite Hp. Qed.

Lemma pending_cons i t l :
  h t = H_CYCLIC → pending i (t :: l) = ((if decide (arg t = i) then 1 else 0) + pending i l)%nat.
Proof.
  intros Hh. unfold pending. rewrite filter_cons. destruct (decide (arg t = i)) as [He|He].
  - rewrite decide_True by done. done.
  - rewrite decide_False by naive_solver. done.
Qed.

Lemma pending_elem i l : (∃ t, t ∈ l ∧ h t = H_CYCLIC ∧ arg t = i) → (0 < pending i l)%nat.
Proof.
  intros (t & Ht & Hb). unfold pending. destruct (filter (booking i) l) eqn:E; [|simpl; lia].
  assert (t ∈ filter (booking i) l) as Hin by (apply list_elem_of_filter; done). rewrite E in Hin. set_solver.
Qed.

Section booked.
Context {apps : Apps}.

(** Only periodic timers are pending, each at most once. *)
Record once (s : timers) : Prop := {
  o_entries t : t ∈ next_timeout s → h t = H_CYCLIC ∧ 0 ≤ arg t < Z.of_nat (length (lwip_cyclic_timers s));
  o_once i : (pending i (next_timeout s) ≤ 1)%nat;
  o_pool : (length (lwip_cyclic_timers s) ≤ slots s + length (next_timeout s))%nat;
}.

Lemma args_nodup (l : list sys_timeo) :
  (∀ t, t ∈ l → h t = H_CYCLIC) → (∀ i, (pending i l ≤ 1)%nat) → NoDup (arg <$> l).
Proof.
  induction l as [|t l IH]; intros Hh Hp; [constructor|]. assert (h t = H_CYCLIC) as Ht by (apply Hh; by left).
  apply NoDup_cons. split.
  - intros (t' & Ha & Hin)%list_elem_of_fmap. specialize (Hp (arg t)). rewrite pending_cons, decide_True in Hp by done.
    assert (0 < pending (arg t) l)%nat; [|lia]. apply pending_elem. exists t'. split_and!; [done| |done]. apply Hh. by right.
  - apply IH; [intros; apply Hh; by right|]. intros i. specialize (Hp i). rewrite pending_cons in Hp by done. lia.
Qed.

(** A timer that is not pending has a record left for it. *)
Lemma record_left s i :
  once s → 0 ≤ i < Z.of_nat (length (lwip_cyclic_timers s)) → pending i (next_timeout s) = 0%nat →
  ∃ k, slots s = S k.
Proof.
  intros [He Ho Hp] Hi Hz. set (n := length (lwip_cyclic_timers s)) in *.
  assert (NoDup (i :: (arg <$> next_timeout s))) as Hnd.
  { apply NoDup_cons. split; [|by apply args_nodup; [intros; by apply He|]].
    intros (t & -> & Ht)%list_elem_of_fmap. assert (0 < pending (arg t) (next_timeout s))%nat; [|lia].
    apply pending_elem. exists t. by split_and!; [|apply He|]. }
  assert (i :: (arg <$> next_timeout s) ⊆+ seqZ 0 (Z.of_nat n)) as Hsub.
  { apply NoDup_submseteq; [done|]. intros x [->|(t & -> & Ht)%list_elem_of_fmap]%elem_of_cons; apply elem_of_seqZ; [lia|].
    destruct (He t Ht) as [_ ?]. lia. }
  apply submseteq_length in Hsub. rewrite length_seqZ in Hsub. simpl in Hsub. rewrite length_fmap in Hsub.
  destruct (slots s) as [|k]; [lia|by exists k].
Qed.

Section add.
Context {tm : Time}.

Lemma once_add s a i :
  once s → 0 ≤ i < Z.of_nat (length (lwip_cyclic_timers s)) → pending i (next_timeout s) = 0%nat →
  let s' := sys_timeout_abs s a H_CYCLIC i in
  once s' ∧ lwip_cyclic_timers s' = lwip_cyclic_timers s ∧ tcp_timer_pending s' = tcp_timer_pending s ∧
  ∀ j, pending j (next_timeout s') = if decide (j = i) then 1%nat else pending j (next_timeout s).
Proof.
  intros Hs Hi Hz. destruct (record_left s i Hs Hi Hz) as [k Hk]. cbv zeta. rewrite (abs_insert _ _ _ _ k) by done.
  cbn [lwip_cyclic_timers tcp_timer_pending next_timeout set_field].
  assert (∀ j, pending j (insert_after (mk_timeo a H_CYCLIC i) (next_timeout s)) =
    if decide (j = i) then 1%nat else pending j (next_timeout s)) as Hpend.
  { intros j. rewrite (pending_perm j _ _ (insert_perm _ _)), pending_cons by done. simpl.
    destruct (decide (i = j)) as [->|]; [rewrite decide_True, Hz by done; done|by rewrite decide_False by done]. }
  split_and!; [|done..]. destruct Hs as [He Ho Hp]. split; cbn [lwip_cyclic_timers next_timeout slots set_field].
  - intros t Ht. rewrite insert_perm in Ht. apply elem_of_cons in Ht as [->|Ht]; [done|by apply He].
  - intros j. rewrite Hpend. destruct (decide _); [done|apply Ho].
  - rewrite (Permutation_length (insert_perm _ _)). simpl. lia.
Qed.

(** ** Bookings *)

(** How often timer [i] should be pending. *)
Definition wanted (s : timers) (i : Z) : nat :=
  if LWIP_TCP && (i =? 0) then (if tcp_timer_pending s then 1 else 0)
  else if decide (status (lwip_cyclic_timers s !% i) = LWIP_TIMER_STATUS_IDLE) then 0 else 1.

(** Every timer is booked as wanted; but for timer [k] when [o] is [Some k],
    which is being fired. *)
Record booked (o : option Z) (s : timers) : Prop := {
  b_once : once s;
  b_pending i : 0 ≤ i < Z.of_nat (length (lwip_cyclic_timers s)) →
    pending i (next_timeout s) = if decide (o = Some i) then 0%nat else wanted s i;
  b_firing k : o = Some k → 0 ≤ k < Z.of_nat (length (lwip_cyclic_timers s)) ∧ wanted s k = 1%nat;
  b_tcp : LWIP_TCP = true → 0 < Z.of_nat (length (lwip_cyclic_timers s)) ∧
    status (lwip_cyclic_timers s !% 0) = LWIP_TIMER_STATUS_RUNNING;
}.

Lemma booked_add k s a : booked (Some k) s → booked None (sys_timeout_abs s a H_CYCLIC k).
Proof.
  intros [Ho Hp Hk Ht]. destruct (Hk k eq_refl) as [Hr Hw].
  assert (pending k (next_timeout s) = 0%nat) as Hz by (rewrite Hp by done; by rewrite decide_True).
  destruct (once_add s a k Ho Hr Hz) as (Ho' & Hl & Htp & Hpend). split; [done| |done|by rewrite Hl].
  intros i Hi. rewrite Hl in Hi. assert (wanted (sys_timeout_abs s a H_CYCLIC k) i = wanted s i) as ->
    by (unfold wanted; by rewrite Hl, Htp).
  rewrite Hpend, (decide_False (P := None = Some i)) by done.
  destruct (decide (i = k)) as [->|Hne]; [done|]. rewrite Hp, decide_False by (done || congruence). done.
Qed.
End add.

Lemma set_status_at s i st j :
  0 ≤ i < Z.of_nat (length (lwip_cyclic_timers s)) → 0 ≤ j →
  status (lwip_cyclic_timers (set_status s i st) !% j) =
    if decide (j = i) then st else status (lwip_cyclic_timers s !% j).
Proof.
  intros Hi Hj. unfold set_status. cbn [lwip_cyclic_timers set_field]. destruct (decide (j = i)) as [->|].
  - by rewrite aget_aset_eq.
  - by rewrite aget_aset_ne by lia.
Qed.

Lemma set_status_length s i st : length (lwip_cyclic_timers (set_status s i st)) = length (lwip_cyclic_timers s).
Proof. apply aset_length. Qed.

(** A status change that leaves what is wanted. *)
Lemma booked_status o s i st :
  booked o s → first_cyclic ≤ i → 0 ≤ i < Z.of_nat (length (lwip_cyclic_timers s)) →
  pending i (next_timeout s) = (if decide (o = Some i) then 0%nat else if decide (st = LWIP_TIMER_STATUS_IDLE) then 0%nat else 1%nat) →
  (o = Some i → st ≠ LWIP_TIMER_STATUS_IDLE) → booked o (set_status s i st).
Proof.
  intros [[He Hon Hpl] Hp Hk Ht] Hf Hi Hpi Ho. unfold first_cyclic in Hf.
  assert (∀ j, 0 ≤ j → wanted (set_status s i st) j =
    if decide (j = i) then (if decide (st = LWIP_TIMER_STATUS_IDLE) then 0%nat else 1%nat) else wanted s j) as Hw.
  { intros j Hj. unfold wanted. rewrite set_status_at by done. change (tcp_timer_pending (set_status s i st)) with (tcp_timer_pending s).
    destruct (LWIP_TCP && (j =? 0)) eqn:E; [|by destruct (decide (j = i))]. rewrite decide_False; [done|].
    apply andb_true_iff in E as [E1 E2%Z.eqb_eq]. rewrite E1 in Hf. lia. }
  split.
  - split; rewrite ?set_status_length; done.
  - intros j Hj. rewrite set_status_length in Hj. change (next_timeout (set_status s i st)) with (next_timeout s).
    rewrite Hw by lia. destruct (decide (j = i)) as [->|Hne]; [done|]. by apply Hp.
  - intros k Hok. rewrite set_status_length. destruct (Hk k Hok) as [? ?]. split; [done|]. rewrite Hw by lia.
    destruct (decide (k = i)) as [->|]; [|done]. rewrite decide_False; [done|]. by apply Ho.
  - intros HT. rewrite set_status_length. destruct (Ht HT) as [? ?]. split; [done|]. rewrite set_status_at by lia.
    rewrite HT in Hf. by rewrite decide_False by lia.
Qed.

Section ops.
Context {tm : Time}.

(** Booking a timer that was not wanted, together with the change that makes it
    wanted. *)
Lemma booked_start o s a i (f : timers → timers) :
  booked o s → 0 ≤ i < Z.of_nat (length (lwip_cyclic_timers s)) → wanted s i = 0%nat →
  let s' := f (sys_timeout_abs s a H_CYCLIC i) in
  next_timeout s' = next_timeout (sys_timeout_abs s a H_CYCLIC i) →
  slots s' = slots (sys_timeout_abs s a H_CYCLIC i) →
  length (lwip_cyclic_timers s') = length (lwip_cyclic_timers s) →
  (∀ j, 0 ≤ j → wanted s' j = if decide (j = i) then 1%nat else wanted s j) →
  (LWIP_TCP = true → status (lwip_cyclic_timers s' !% 0) = LWIP_TIMER_STATUS_RUNNING) → booked o s'.
Proof.
  intros [Ho Hp Hk Ht] Hi Hwi s' Hn Hsl Hl Hw Hst.
  assert (pending i (next_timeout s) = 0%nat) as Hz by (rewrite Hp by done; rewrite Hwi; by destruct (decide _)).
  assert (o ≠ Some i) as Hoi by (intros [_ ?]%Hk; lia).
  destruct (once_add s a i Ho Hi Hz) as ([He1 Ho1 Hp1] & Hl1 & Htp & Hpend). rewrite Hl1 in He1, Hp1. split.
  - split; rewrite ?Hn, ?Hl, ?Hsl; done.
  - intros j Hj. rewrite Hl in Hj. rewrite Hn, Hpend, Hw by lia. destruct (decide (j = i)) as [->|Hne].
    + by rewrite decide_False.
    + by rewrite Hp.
  - intros k Hok. rewrite Hl. destruct (Hk k Hok) as [? ?]. split; [done|]. rewrite Hw by lia.
    by destruct (decide (k = i)).
  - intros HT. rewrite Hl. split; [by apply Ht|by apply Hst].
Qed.

Lemma booked_enable o s b hd : booked o s → booked o (sys_timeouts_set_timer_enable s b hd).
Proof.
  intros Hb. unfold sys_timeouts_set_timer_enable. destruct (find_cyclic hd 0 _) as [i|] eqn:E; [|done].
  apply find_cyclic_bound in E as [Hi Hf]. rewrite Z.add_0_l in Hi. pose proof Hb as [Ho Hp Hk Ht].
  assert (LWIP_TCP && (i =? 0) = false) as HT.
  { unfold first_cyclic in Hf. destruct LWIP_TCP; [|done]. simpl. apply Z.eqb_neq. lia. }
  assert (wanted s i = if decide (status (lwip_cyclic_timers s !% i) = LWIP_TIMER_STATUS_IDLE) then 0%nat else 1%nat) as Hw
    by (unfold wanted; by rewrite HT).
  destruct b; case_bool_decide as Hst.
  - rewrite decide_True in Hw by done. unfold sys_timeout.
    set (a := norm (sys_now s + _)). pose proof (abs_cases s a H_CYCLIC i) as (_ & _ & Hl & _).
    apply (booked_start o s a i (λ x, set_status x i LWIP_TIMER_STATUS_RUNNING)); [done|done|done|done|done| | |].
    + by rewrite set_status_length, Hl.
    + intros j Hj. unfold wanted. rewrite set_status_at, Hl by (rewrite ?Hl; done).
      change (tcp_timer_pending (set_status ?x _ _)) with (tcp_timer_pending x).
      assert (tcp_timer_pending (sys_timeout_abs s a H_CYCLIC i) = tcp_timer_pending s) as ->.
      { unfold sys_timeout_abs. by repeat case_match. }
      destruct (decide (j = i)) as [->|]; [by rewrite HT|done].
    + intros HTc. rewrite set_status_at, Hl by (rewrite ?Hl; lia || done). destruct (Ht HTc) as [_ ->].
      by destruct (decide _).
  - apply booked_status; [done|done|done| |done]. rewrite Hp, Hw by done.
    by rewrite !(decide_False (P := _ = LWIP_TIMER_STATUS_IDLE)) by done.
  - apply booked_status; [done|done|done| |done]. rewrite Hp, Hw by done. rewrite Hst.
    by rewrite !(decide_False (P := _ = LWIP_TIMER_STATUS_IDLE)) by done.
  - done.
Qed.

Lemma booked_tcp o s : booked o s → booked o (tcp_timer_needed s).
Proof.
  intros Hb. unfold tcp_timer_needed. destruct LWIP_TCP eqn:HT; [|done]. cbn [negb].
  destruct (tcp_timer_pending s) eqn:Hpe; [done|]. cbn [negb]. pose proof (b_tcp _ _ Hb HT) as [Hlen Hst].
  unfold sys_timeout. set (a := norm _). 
  assert (sys_timeout_abs (s <| tcp_timer_pending := true |>) a H_CYCLIC 0 =
    (sys_timeout_abs s a H_CYCLIC 0) <| tcp_timer_pending := true |>) as ->.
  { unfold sys_timeout_abs. cbn [slots next_timeout set_field]. by repeat case_match. }
  pose proof (abs_cases s a H_CYCLIC 0) as (_ & _ & Hl & _).
  apply (booked_start o s a 0 (λ x, x <| tcp_timer_pending := true |>)); [done|lia| |done|done|by cbn; rewrite Hl| |].
  - unfold wanted. by rewrite HT, Hpe.
  - intros j Hj. unfold wanted. cbn [lwip_cyclic_timers tcp_timer_pending set_field]. rewrite Hl, HT. cbn [andb].
    by destruct (Z.eqb_spec j 0), (decide (j = 0)).
  - intros _. cbn [lwip_cyclic_timers set_field]. by rewrite Hl.
Qed.

(** The stack's handlers: they enable and disable timers. *)
Definition stack_call (c : call) : Prop := match c with CEnable _ _ | CTcpNeeded => True | _ => False end.

Lemma booked_frame o s s' :
  next_timeout s' = next_timeout s → slots s' = slots s → lwip_cyclic_timers s' = lwip_cyclic_timers s →
  tcp_timer_pending s' = tcp_timer_pending s → booked o s → booked o s'.
Proof.
  intros Hn Hs Hl Ht [[He Ho Hp] Hpe Hk Htc]. unfold wanted in *. split; [split|..]; unfold wanted; rewrite ?Hn, ?Hs, ?Hl, ?Ht; auto.
Qed.

Lemma booked_call o s c : booked o s → stack_call c → booked o (do_call s c).
Proof. intros Hb Hc. destruct c; [done|done|by apply booked_enable|by apply booked_tcp]. Qed.

Lemma booked_calls o l s : booked o s → Forall (λ dc, stack_call dc.2) l → booked o (run_calls s l).
Proof.
  intros Hb Hl. revert s Hb. induction Hl as [|[dt c] l Hc _ IH]; intros s Hb; [done|]. cbn [run_calls].
  apply IH, booked_call; [|done]. by eapply booked_frame; [..|exact Hb].
Qed.

Class StackApps : Prop := { cyclic_stack hd now : Forall (λ dc, stack_call dc.2) (cyclic_handler hd now) }.
Context {Hstack : StackApps}.

(** The timer being fired: its entry is gone until it is re-armed. *)
Lemma booked_unlink s t l :
  booked None s → next_timeout s = t :: l → h t = H_CYCLIC ∧ booked (Some (arg t)) (unlink_first s t l).
Proof.
  intros [[He Ho Hpl] Hp _ Ht] Hq. destruct (He t) as [Hh Hr]; [rewrite Hq; by left|]. split; [done|].
  assert (∀ i, pending i (next_timeout s) = ((if decide (arg t = i) then 1 else 0) + pending i l)%nat) as Hpc
    by (intros i; rewrite Hq; by apply pending_cons).
  assert (wanted s (arg t) = 1%nat) as Hw.
  { specialize (Hp (arg t) Hr). rewrite decide_False in Hp by done. specialize (Hpc (arg t)). specialize (Ho (arg t)).
    rewrite decide_True in Hpc by done. lia. }
  split.
  - split; cbn [next_timeout lwip_cyclic_timers slots unlink_first set_field].
    + intros x Hx. apply He. rewrite Hq. by right.
    + intros i. specialize (Ho i). rewrite Hpc in Ho. lia.
    + rewrite Hq in Hpl. simpl in Hpl. lia.
  - intros i Hi. change (wanted (unlink_first s t l) i) with (wanted s i). change (next_timeout (unlink_first s t l)) with l.
    specialize (Hp i Hi). rewrite decide_False in Hp by done. specialize (Hpc i).
    destruct (decide (arg t = i)) as [<-|Hne].
    + rewrite decide_True by done. lia.
    + rewrite decide_False by congruence. lia.
  - intros k [= <-]. done.
  - done.
Qed.

Lemma booked_cyclic s i : booked (Some i) s → booked None (lwip_cyclic_timer s i).
Proof.
  intros Hb. pose proof Hb as [Hon Hp Hk Ht]. destruct (Hk i eq_refl) as [Hr Hw]. unfold lwip_cyclic_timer.
  case_bool_decide as Hst.
  - assert (LWIP_TCP && (i =? 0) = false) as HT.
    { destruct LWIP_TCP eqn:E; [|done]. destruct (Z.eqb_spec i 0) as [->|]; [|done]. destruct (Ht eq_refl) as [_ ?]. congruence. }
    assert (first_cyclic ≤ i) as Hf by (unfold first_cyclic; destruct LWIP_TCP; [|lia]; simpl in HT; apply Z.eqb_neq in HT; lia).
    assert (pending i (next_timeout s) = 0%nat) as Hz by (rewrite Hp by done; by rewrite decide_True).
    split.
    + destruct Hon as [He Ho Hpl]. split; rewrite ?set_status_length; done.
    + intros j Hj. rewrite set_status_length in Hj. change (next_timeout (set_status s i _)) with (next_timeout s).
      rewrite (decide_False (P := None = Some j)) by done. unfold wanted. rewrite set_status_at by lia.
      change (tcp_timer_pending (set_status s i _)) with (tcp_timer_pending s).
      destruct (decide (j = i)) as [->|Hne]; [by rewrite HT|].
      rewrite Hp, decide_False by (done || congruence). done.
    + done.
    + intros HTc. rewrite set_status_length. destruct (Ht HTc) as [? ?]. split; [done|]. rewrite set_status_at by lia.
      unfold first_cyclic in Hf. rewrite HTc in Hf. by rewrite decide_False by lia.
  - case_bool_decide as Hst2.
    + exfalso. unfold wanted in Hw. destruct (LWIP_TCP && (i =? 0)) eqn:E.
      * apply andb_true_iff in E as [E1 ->%Z.eqb_eq]. destruct (Ht E1) as [_ ?]. done.
      * destruct (decide _) as [|Hni]; [done|]. by destruct (status (lwip_cyclic_timers s !% i)).
    + apply booked_add. apply booked_calls; [done|apply cyclic_stack].
Qed.

Lemma booked_loop fuel s now s' log :
  booked None s → check_loop fuel s now = Some (s', log) → booked None s'.
Proof.
  revert s log. induction fuel as [|fuel IH]; intros s log Hb; [done|]. cbn [check_loop].
  destruct (next_timeout s) as [|t l] eqn:Hq; [by intros [= <- <-]|]. destruct (less now (time t)); [by intros [= <- <-]|].
  destruct (booked_unlink s t l Hb Hq) as [Hh Hb1]. unfold run_handler. rewrite Hh.
  pose proof (booked_cyclic _ _ Hb1) as Hb2. destruct (check_loop fuel _ now) as [[s2 log2]|] eqn:E; [|done].
  intros [= <- <-]. by eapply IH.
Qed.

(** The loop of [sys_timeouts_init] has booked the timers below [i]. *)
Lemma booked_init_loop l s i :
  once s → 0 ≤ i → tcp_timer_pending s = false → drop (Z.to_nat i) (lwip_cyclic_timers s) = l →
  (LWIP_TCP = true → 0 < Z.of_nat (length (lwip_cyclic_timers s)) ∧
    status (lwip_cyclic_timers s !% 0) = LWIP_TIMER_STATUS_RUNNING) →
  (∀ c, c ∈ lwip_cyclic_timers s → status c ≠ LWIP_TIMER_STATUS_STOPPING) →
  (∀ j, 0 ≤ j < Z.of_nat (length (lwip_cyclic_timers s)) →
    pending j (next_timeout s) = if decide (j < i) then wanted s j else 0%nat) →
  booked None (init_loop s i l).
Proof.
  revert s i. induction l as [|c l IH]; intros s i Ho Hi Htp Hd Ht Hns Hp; cbn [init_loop].
  - split; [done| |done|done]. intros j Hj. rewrite Hp by done. rewrite decide_True, decide_False; [done|done|].
    assert (length (drop (Z.to_nat i) (lwip_cyclic_timers s)) = 0%nat) as H by (by rewrite Hd). rewrite length_drop in H. lia.
  - assert (lwip_cyclic_timers s !! Z.to_nat i = Some c) as Hc.
    { rewrite <- (Nat.add_0_r (Z.to_nat i)), <- lookup_drop, Hd. done. }
    pose proof (lookup_lt_Some _ _ _ Hc) as Hlt. assert (lwip_cyclic_timers s !% i = c) as Hci by (by apply list_lookup_total_correct).
    assert (drop (Z.to_nat (i + 1)) (lwip_cyclic_timers s) = l) as Hd'.
    { apply (f_equal (drop 1)) in Hd. rewrite drop_drop in Hd. cbn [drop] in Hd.
      by replace (Z.to_nat (i + 1)) with (Z.to_nat i + 1)%nat by lia. }
    assert (status c ≠ LWIP_TIMER_STATUS_STOPPING) as Hcs by (apply Hns; by eapply list_elem_of_lookup_2).
    destruct ((first_cyclic <=? i) && bool_decide (status c = LWIP_TIMER_STATUS_RUNNING)) eqn:E.
    + apply andb_true_iff in E as [Hf%Z.leb_le Hst%bool_decide_eq_true]. unfold sys_timeout. set (a := norm _).
      assert (pending i (next_timeout s) = 0%nat) as Hz by (rewrite Hp, decide_False by lia; done).
      destruct (once_add s a i Ho ltac:(lia) Hz) as (Ho' & Hl & Htp' & Hpend).
      assert (∀ j, wanted (sys_timeout_abs s a H_CYCLIC i) j = wanted s j) as Hw by (intros j; unfold wanted; by rewrite Hl, Htp').
      apply IH; rewrite ?Hl, ?Htp'; [done|lia|done|done|done|done|].
      intros j Hj. rewrite Hpend, Hw. destruct (decide (j = i)) as [->|Hne].
      * rewrite decide_True by lia. unfold wanted, first_cyclic in *. rewrite Hci, Hst.
        destruct LWIP_TCP; [|done]. simpl. rewrite (proj2 (Z.eqb_neq i 0)) by lia. done.
      * rewrite Hp by done. destruct (decide (j < i)), (decide (j < i + 1)); done || lia.
    + apply IH; [done|lia|done|done|done|done|]. intros j Hj. rewrite Hp by done.
      destruct (decide (j = i)) as [->|Hne].
      * rewrite decide_False, decide_True by lia. unfold wanted. rewrite Htp, Hci.
        apply andb_false_iff in E as [Hf%Z.leb_gt|Hst%bool_decide_eq_false].
        -- unfold first_cyclic in Hf. destruct LWIP_TCP; [|lia]. by rewrite (proj2 (Z.eqb_eq i 0)) by lia.
        -- destruct (_ && _); [done|]. rewrite decide_True; [done|]. by destruct (status c).
      * destruct (decide (j < i)), (decide (j < i + 1)); done || lia.
Qed.

Lemma booked_restart s : booked None s → booked None (sys_restart_timeouts s).
Proof.
  intros Hb. unfold sys_restart_timeouts. destruct (next_timeout s) as [|t0 l0] eqn:Hq; [done|].
  destruct Hb as [[He Ho Hpl] Hp Hk Ht].
  set (f := λ t : sys_timeo, _). rewrite <- Hq. assert (∀ i l, pending i (f <$> l) = pending i l) as Hf.
  { intros i l. induction l as [|t l IH]; [done|]. unfold pending in *. cbn [fmap list_fmap]. rewrite !filter_cons.
    change (h (f t)) with (h t). change (arg (f t)) with (arg t). destruct (decide _); [|exact IH]. simpl. f_equal. exact IH. }
  split; [split|..]; cbn [next_timeout lwip_cyclic_timers slots set_field].
  - intros t (t' & -> & Hin)%list_elem_of_fmap. exact (He t' Hin).
  - intros i. rewrite Hf. apply Ho.
  - by rewrite length_fmap.
  - intros i Hi. rewrite Hf. exact (Hp i Hi).
  - done.
  - exact Ht.
Qed.

(** The operations of the stack. *)
Definition stack_op (o : top) : Prop := match o with TInit => False | TCall c => stack_call c | _ => True end.

Lemma booked_run os s s' fired :
  booked None s → Forall stack_op os → trun tm s os = Some (s', fired) → booked None s'.
Proof.
  intros Hb Hos. revert s fired Hb. induction Hos as [|o os Ho _ IH]; intros s fired Hb; [by intros [= <- <-]|].
  cbn [trun]. destruct (tstep tm s o) as [[s1 l1]|] eqn:E1; [|done]. cbn [mbind option_bind].
  destruct (trun tm s1 os) as [[s2 l2]|] eqn:E2; [|done]. intros [= <- <-].
  eapply (IH s1 l2); [|done]. destruct o as [|c|dt| |]; cbn [tstep] in E1; [done|..].
  - injection E1 as <- _. by apply booked_call.
  - injection E1 as <- _. by eapply booked_frame; [..|exact Hb].
  - by eapply booked_loop.
  - injection E1 as <- _. by apply booked_restart.
Qed.

(** The state before [sys_timeouts_init]: nothing pending, a record for each
    timer of the table, and the statuses the table is built with. *)
Record cold (s : timers) : Prop := {
  c_queue : next_timeout s = [];
  c_pool : slots s = length (lwip_cyclic_timers s);
  c_pending : tcp_timer_pending s = false;
  c_tcp : LWIP_TCP = true → 0 < Z.of_nat (length (lwip_cyclic_timers s)) ∧
    status (lwip_cyclic_timers s !% 0) = LWIP_TIMER_STATUS_RUNNING;
  c_status c : c ∈ lwip_cyclic_timers s → status c ≠ LWIP_TIMER_STATUS_STOPPING;
}.

Lemma booked_cold s : cold s → booked None (sys_timeouts_init s).
Proof.
  intros [Hq Hp Ht Htc Hs]. apply booked_init_loop; [|done|done|done|done|done|].
  - split; rewrite Hq; [by intros t ?%elem_of_nil|intros; unfold pending; simpl; lia|simpl; lia].
  - intros j Hj. rewrite Hq, decide_False by lia. done.
Qed.
End ops.

(** ** Property *)

(** From [sys_timeouts_init] on, whatever timers the stack then enables,
    disables and fires, in checks at least every [2^30] ms: the run succeeds at
    32 bits, and every timer of the table has exactly one pending timeout when
    it is running or stopping and none when it is idle; the TCP timer has one
    once it has been needed. *)
Theorem timeouts_booked {Hs : StackApps} {Hf : FairApps} s os :
  cold s → tinv s → Forall stack_op os → punctual s (TInit :: os) →
  ∃ s' fired, trun u32_time (trunc s) (TInit :: os) = Some (s', fired) ∧
    ∀ i, 0 ≤ i < Z.of_nat (length (lwip_cyclic_timers s')) → pending i (next_timeout s') = wanted s' i.
Proof.
  intros Hc Hi Hos Hp. destruct (trun_sim _ s Hi Hp) as (s' & l & _ & Hr & _).
  exists (trunc s'), (trunc_t <$> l). split; [done|]. cbn [trun tstep] in Hr. cbn [mbind option_bind] in Hr.
  destruct (trun u32_time (sys_timeouts_init (tm := u32_time) (trunc s)) os) as [[s2 l2]|] eqn:E; [|done].
  injection Hr as Hs2 _. rewrite <- Hs2. intros i Hi2.
  assert (cold (trunc s)) as Hct by (destruct Hc as [Hq ? ? ? ?]; split; [cbn; by rewrite Hq|done..]).
  pose proof (booked_run (tm := u32_time) os _ s2 l2 (booked_cold (tm := u32_time) (trunc s) Hct) Hos E) as Hb.
  rewrite (b_pending _ _ Hb i Hi2). done.
Qed.
End booked.

(** ** A concrete stack *)

(** The build without TCP: four periodic timers whose handlers call nothing. *)
Definition quiet_apps : Apps := {|
  LWIP_TCP := false; TCP_TMR_INTERVAL := 250; SYS_TIMEOUTS_SLEEPTIME_INFINITE := 0xFFFFFFFF;
  user_handler := λ _ _ _, []; cyclic_handler := λ _ _, [];
|}.
#[export] Instance quiet_fair : FairApps (apps := quiet_apps).
Proof. split; intros; [constructor|constructor|simpl; lia]. Qed.
#[export] Instance quiet_stack : StackApps (apps := quiet_apps).
Proof. split; intros; constructor. Qed.

Definition table0 : list lwip_cyclic :=
  (λ '(ms, hd), mk_cyclic LWIP_TIMER_STATUS_RUNNING ms hd) <$> [(1000, 1); (60000, 2); (500, 3); (1000, 4)].

(** Ten milliseconds before the 32-bit clock wraps. *)
Definition timers0 : timers := mk_timers [] 0 table0 false 4 (2 ^ 32 - 10).

Lemma timers0_cold : cold (apps := quiet_apps) timers0.
Proof.
  split; [done|done|done|done|]. intros c (x & -> & Hx)%list_elem_of_fmap. by destruct x.
Qed.

Lemma timers0_tinv : tinv (apps := quiet_apps) timers0.
Proof.
  split.
  - split; [done|]. by intros t ?%elem_of_nil.
  - intros c (x & -> & Hx)%list_elem_of_fmap. repeat (apply elem_of_cons in Hx as [->|Hx]; [simpl; lia|]). by apply elem_of_nil in Hx.
  - by intros t ?%elem_of_nil.
  - constructor.
Qed.

(** Start, wait 600 ms across the wrap, check, disable a timer. *)
Definition ops0 : list top := [TWait 600; TCheck; TCall (CEnable false 4)].

(** An application: its handler 1 takes 3 ms, starts itself again 100 ms later
    and starts handler 3; the stack's handler 3 takes 1 ms and starts handler 2
    of the application, and when [cancels] it also cancels handler 1. *)
Definition busy_apps (cancels : bool) : Apps := {|
  LWIP_TCP := true; TCP_TMR_INTERVAL := 250; SYS_TIMEOUTS_SLEEPTIME_INFINITE := 0xFFFFFFFF;
  user_handler := λ id a _,
    if id =? 1 then [(2, CTimeout 100 (H_USER 1) a); (1, CTimeout 40 (H_USER 3) 0)] else [];
  cyclic_handler := λ hd _,
    if hd =? 3 then (1, CTimeout 5 (H_USER 2) 0) :: (if cancels then [(0, CUntimeout (H_USER 1) 0)] else []) else [];
|}.
#[export] Instance busy_fair cancels : FairApps (apps := busy_apps cancels).
Proof.
  split; [intros; simpl|intros; simpl|simpl; lia]; case_match; [|constructor| |constructor].
  - repeat constructor; simpl; lia || done.
  - constructor; [|destruct cancels; [|constructor]]; repeat constructor; simpl; lia || done.
Qed.
#[export] Instance busy_adding : AddingApps (apps := busy_apps false).
Proof. split; intros; simpl; case_match; repeat constructor. Qed.

Lemma busy_swift : swift (apps := busy_apps false) 3.
Proof. split; [lia|]. split; intros; simpl; case_match; simpl; lia. Qed.

(** The same four timers, the first of them TCP's, with more records; the
    program starts handler 1, starts the TCP timer, and checks twice across the
    wrap, disabling a timer between the checks. *)
Definition timers2 : timers := timers0 <| slots := 10%nat |>.
Definition ops2 : list top :=
  [TCall (CTimeout 20 (H_USER 1) 0); TCall CTcpNeeded; TWait 600; TCheck; TCall (CEnable false 4);
   TRestart; TWait 500; TCheck].

Lemma timers2_tinv cancels : tinv (apps := busy_apps cancels) timers2.
Proof. destruct timers0_tinv as [? ? ? ?]. by split. Qed.

Lemma ops2_punctual : punctual (apps := busy_apps true) timers2 (TInit :: ops2).
Proof. apply punctualb_sound. by vm_compute. Qed.

Lemma ops0_punctual : punctual (apps := quiet_apps) timers0 (TInit :: ops0).
Proof. apply punctualb_sound. by vm_compute. Qed.

Lemma timeouts_refine_true_time_witness :
  ∃ s' fired, trun (apps := busy_apps true) true_time timers2 (TInit :: ops2) = Some (s', fired) ∧
    trun (apps := busy_apps true) u32_time (trunc timers2) (TInit :: ops2) = Some (trunc s', trunc_t <$> fired).
Proof.
  exact (timeouts_refine_true_time (apps := busy_apps true) timers2 (TInit :: ops2)
    (busy_fair true) (timers2_tinv true) ops2_punctual).
Defined.

Lemma timeouts_booked_witness :
  ∃ s' fired, trun (apps := quiet_apps) u32_time (trunc timers0) (TInit :: ops0) = Some (s', fired) ∧
    ∀ i, 0 ≤ i < Z.of_nat (length (lwip_cyclic_timers s')) → pending i (next_timeout s') = wanted (apps := quiet_apps) s' i.
Proof.
  apply (timeouts_booked (apps := quiet_apps) timers0 ops0 timers0_cold timers0_tinv); [by repeat constructor|apply ops0_punctual].
Defined.

(** Two timeouts, one 5 ms late, 10 ms before the wrap. *)
Definition timers1 : timers :=
  mk_timers [mk_timeo (2 ^ 32 - 15) (H_USER 1) 0; mk_timeo (2 ^ 32 + 90) (H_USER 2) 0] 0 table0 false 4 (2 ^ 32 - 10).

Lemma timers1_tinv (apps : Apps) : tinv timers1.
Proof.
  split.
  - split; [unfold first_cyclic; case_match; simpl; lia|]. intros t Ht Hh. repeat (apply elem_of_cons in Ht as [->|Ht]; [done|]). by apply elem_of_nil in Ht.
  - exact (ti_interval (apps := quiet_apps) timers0 timers0_tinv).
  - intros t Ht. repeat (apply elem_of_cons in Ht as [->|Ht]; [simpl; lia|]). by apply elem_of_nil in Ht.
  - repeat constructor. unfold due_order. simpl. lia.
Qed.

Lemma timeouts_check_fires_witness :
  ∃ s' log, sys_check_timeouts (tm := u32_time) (apps := busy_apps false) (check_fuel (trunc timers1)) (trunc timers1) =
      Some (trunc s', trunc_t <$> log) ∧
    filter (λ t, time t ≤ clock timers1) (next_timeout timers1) ⊆+ log ∧
    Forall (λ t, clock timers1 < time t) (next_timeout s').
Proof.
  destruct (timeouts_check_fires (apps := busy_apps false) 3 timers1 (busy_fair false) busy_swift (timers1_tinv _))
    as (s' & log & He & _ & _ & Hall & Ha & _).
  - apply lagb_sound. by vm_compute.
  - exists s', log. split; [exact He|]. split; [exact (Hall busy_adding)|exact Ha].
Defined.

Lemma timeouts_sleeptime_witness :
  sys_timeouts_sleeptime (tm := u32_time) (apps := quiet_apps) (trunc timers1) = Z.max 0 (2 ^ 32 - 15 - (2 ^ 32 - 10)).
Proof.
  apply (timeouts_sleeptime (apps := quiet_apps) timers1); [apply timers1_tinv|apply lagb_sound; by vm_compute].
Defined.

(** Why a delay must be positive: a handler that starts itself again with no
    delay is due again at once, so that a check never ends. *)
Definition spin_apps : Apps := {|
  LWIP_TCP := false; TCP_TMR_INTERVAL := 250; SYS_TIMEOUTS_SLEEPTIME_INFINITE := 0xFFFFFFFF;
  user_handler := λ id a _, [(0, CTimeout 0 (H_USER id) a)]; cyclic_handler := λ _ _, [];
|}.

Definition spinning (due : Z) : timers := mk_timers [mk_timeo 100 (H_USER 1) 0] due [] false 1 100.

Lemma spin_again due t l :
  run_handler (tm := u32_time) (apps := spin_apps) (unlink_first (spinning due) t l) (mk_timeo 100 (H_USER 1) 0) =
    sys_timeout_abs (tm := u32_time) (unlink_first (spinning due) t l) 100 (H_USER 1) 0.
Proof. done. Qed.

Lemma zero_delay_spins fuel due :
  sys_check_timeouts (tm := u32_time) (apps := spin_apps) fuel (spinning due) = None.
Proof.
  unfold sys_check_timeouts. change (sys_now (spinning due)) with 100.
  revert due. induction fuel as [|fuel IH]; intros due; [done|].
  cbn [check_loop next_timeout spinning time]. change (less 100 100) with false. cbv iota.
  rewrite spin_again. exact (f_equal (λ r, '(s, fired) ← r; Some (s, mk_timeo 100 (H_USER 1) 0 :: fired)) (IH 100)).
Qed.
