(* ===== verification/Uart.v ===== *)
(** * The UART ([qemu-machine/hw/char/bl808_uart.c])

    One module [BL808UART]: the state, the register handlers, the character
    back-end and DMA entry points, the clock and reset hooks; both FIFOs hold
    queues of bytes, transmission and reception keep the order of the bytes, and
    the interrupt line follows the status registers. *)

From S2P Require Import Prelude Qemu Fifo.
From stdpp Require Import prelude list.
From Stdlib Require Import ZArith Lia.
Local Open Scope Z_scope.

Module BL808UART.

Definition BL808_UART_FIFO_DEPTH := 32.

(** ** State *)

Record BL808UARTState := mk_uart {
  irq : bool;               (* level last passed to qemu_set_irq *)
  chr_out : list Z;         (* bytes passed to qemu_chr_fe_write_all, oldest first *)
  utx_config : Z;
  urx_config : Z;
  bit_prd : Z;
  data_config : Z;
  utx_ir_position : Z;
  urx_ir_position : Z;
  urx_rto_timer : Z;
  uart_sw_mode : Z;
  int_sts : Z;
  int_mask : Z;
  int_en : Z;
  fifo_config_0 : Z;
  fifo_config_1 : Z;
  sts_urx_abr_prd : Z;
  urx_abr_prd_b01 : Z;
  urx_abr_prd_b23 : Z;
  urx_abr_prd_b45 : Z;
  urx_abr_prd_b67 : Z;
  urx_abr_pw_tol : Z;
  urx_bcr_int_cfg : Z;
  utx_rs485_cfg : Z;
  tx_fifo : list Z;         (* uint8_t[BL808_UART_FIFO_DEPTH] *)
  rx_fifo : list Z;         (* uint8_t[BL808_UART_FIFO_DEPTH] *)
  tx_head : Z; tx_tail : Z; tx_count : Z;
  rx_head : Z; rx_tail : Z; rx_count : Z;
  tx_total : Z; rx_total : Z;
  gate_enabled : bool;
  module_clock_enabled : bool;
  clock_enabled : bool;
  reset_asserted : bool;
}.

#[export] Instance eta_uart : Eta BL808UARTState := λ r,
  mk_uart (irq r) (chr_out r) (utx_config r) (urx_config r) (bit_prd r) (data_config r)
    (utx_ir_position r) (urx_ir_position r) (urx_rto_timer r) (uart_sw_mode r) (int_sts r)
    (int_mask r) (int_en r) (fifo_config_0 r) (fifo_config_1 r) (sts_urx_abr_prd r)
    (urx_abr_prd_b01 r) (urx_abr_prd_b23 r) (urx_abr_prd_b45 r) (urx_abr_prd_b67 r)
    (urx_abr_pw_tol r) (urx_bcr_int_cfg r) (utx_rs485_cfg r) (tx_fifo r) (rx_fifo r) (tx_head r)
    (tx_tail r) (tx_count r) (rx_head r) (rx_tail r) (rx_count r) (tx_total r) (rx_total r)
    (gate_enabled r) (module_clock_enabled r) (clock_enabled r) (reset_asserted r).

Definition UART_UTX_CONFIG := 0x00.
Definition UART_URX_CONFIG := 0x04.
Definition UART_BIT_PRD := 0x08.
Definition UART_DATA_CONFIG := 0x0c.
Definition UART_UTX_IR_POSITION := 0x10.
Definition UART_URX_IR_POSITION := 0x14.
Definition UART_URX_RTO_TIMER := 0x18.
Definition UART_SW_MODE := 0x1c.
Definition UART_INT_STS := 0x20.
Definition UART_INT_MASK := 0x24.
Definition UART_INT_CLEAR := 0x28.
Definition UART_INT_EN := 0x2c.
Definition UART_STATUS := 0x30.
Definition UART_STS_URX_ABR_PRD := 0x34.
Definition UART_URX_ABR_PRD_B01 := 0x38.
Definition UART_URX_ABR_PRD_B23 := 0x3c.
Definition UART_URX_ABR_PRD_B45 := 0x40.
Definition UART_URX_ABR_PRD_B67 := 0x44.
Definition UART_URX_ABR_PW_TOL := 0x48.
Definition UART_URX_BCR_INT_CFG := 0x50.
Definition UART_UTX_RS485_CFG := 0x54.
Definition UART_FIFO_CONFIG_0 := 0x80.
Definition UART_FIFO_CONFIG_1 := 0x84.
Definition UART_FIFO_WDATA := 0x88.
Definition UART_FIFO_RDATA := 0x8c.

Definition UTX_EN := BIT 0.
Definition UTX_FREERUN_EN := BIT 2.
Definition UTX_LEN_SHIFT := 16.
Definition URX_EN := BIT 0.
Definition URX_LEN_SHIFT := 16.
Definition INT_UTX_END := BIT 0.
Definition INT_URX_END := BIT 1.
Definition INT_UTX_FRDY := BIT 2.
Definition INT_URX_FRDY := BIT 3.
Definition INT_UTX_FER := BIT 6.
Definition INT_URX_FER := BIT 7.
Definition FIFO_DMA_TX_EN := BIT 0.
Definition FIFO_DMA_RX_EN := BIT 1.
Definition FIFO_TX_CLR := BIT 2.
Definition FIFO_RX_CLR := BIT 3.
Definition FIFO_TX_OVERFLOW := BIT 4.
Definition FIFO_TX_UNDERFLOW := BIT 5.
Definition FIFO_RX_OVERFLOW := BIT 6.
Definition FIFO_RX_UNDERFLOW := BIT 7.

(** ** Operations *)

Definition bl808_uart_clock_active (s : BL808UARTState) : bool :=
  clock_enabled s && negb (reset_asserted s).

Definition bl808_uart_recompute_clock (s : BL808UARTState) : BL808UARTState :=
  s <| clock_enabled := gate_enabled s && module_clock_enabled s |>.

Definition bl808_uart_dynamic_ints (s : BL808UARTState) : Z :=
  let tx_free := u32 (BL808_UART_FIFO_DEPTH - tx_count s) in
  let tx_thresh := Z.land (Z.shiftr (fifo_config_1 s) 16) 0x1f in
  let rx_thresh := Z.land (Z.shiftr (fifo_config_1 s) 24) 0x1f in
  let dynamic := 0 in
  let dynamic := if tx_thresh <? tx_free then Z.lor dynamic INT_UTX_FRDY else dynamic in
  let dynamic := if (rx_thresh <=? rx_count s) && (0 <? rx_count s)
                 then Z.lor dynamic INT_URX_FRDY else dynamic in
  let dynamic := if tst (fifo_config_0 s) (Z.lor FIFO_TX_OVERFLOW FIFO_TX_UNDERFLOW)
                 then Z.lor dynamic INT_UTX_FER else dynamic in
  if tst (fifo_config_0 s) (Z.lor FIFO_RX_OVERFLOW FIFO_RX_UNDERFLOW)
  then Z.lor dynamic INT_URX_FER else dynamic.

Definition bl808_uart_update_irq (s : BL808UARTState) : BL808UARTState :=
  let pending := clr (Z.land (Z.lor (int_sts s) (bl808_uart_dynamic_ints s)) (int_en s))
                     (int_mask s) in
  s <| irq := bl808_uart_clock_active s && negb (pending =? 0) |>.

Definition bl808_uart_can_receive (s : BL808UARTState) : Z :=
  if negb (bl808_uart_clock_active s) || negb (tst (urx_config s) URX_EN) then 0
  else i32 (u32 (BL808_UART_FIFO_DEPTH - rx_count s)).

Definition bl808_uart_maybe_set_rx_end (s : BL808UARTState) : BL808UARTState :=
  let rx_len := Z.shiftr (urx_config s) URX_LEN_SHIFT in
  if negb (rx_len =? 0) && (rx_len <=? rx_total s)
  then s <| int_sts := Z.lor (int_sts s) INT_URX_END |> <| rx_total := 0 |> else s.

(** The loop of [bl808_uart_flush_tx]; every round takes a byte out of the FIFO,
    so as many rounds as the count allow are enough. *)
Fixpoint flush_tx_loop (fuel : nat) (s : BL808UARTState) : BL808UARTState :=
  match fuel with
  | O => s
  | S fuel =>
      if 0 <? tx_count s then
        let ch := tx_fifo s !!! Z.to_nat (tx_head s) in
        let tx_len := Z.shiftr (utx_config s) UTX_LEN_SHIFT in
        let s := s <| tx_head := (tx_head s + 1) mod BL808_UART_FIFO_DEPTH |>
                   <| tx_count := u32 (tx_count s - 1) |>
                   <| chr_out := chr_out s ++ [ch] |>
                   <| tx_total := u32 (tx_total s + 1) |> in
        if negb (tst (utx_config s) UTX_FREERUN_EN) && negb (tx_len =? 0) && (tx_len <=? tx_total s)
        then s <| int_sts := Z.lor (int_sts s) INT_UTX_END |>
               <| utx_config := clr (utx_config s) UTX_EN |> <| tx_total := 0 |>
        else flush_tx_loop fuel s
      else s
  end.

Definition bl808_uart_flush_tx (s : BL808UARTState) : BL808UARTState :=
  if negb (bl808_uart_clock_active s) || negb (tst (utx_config s) UTX_EN) then s
  else flush_tx_loop (Z.to_nat (tx_count s)) s.

Fixpoint receive_loop (s : BL808UARTState) (buf : list Z) : BL808UARTState :=
  match buf with
  | [] => s
  | ch :: buf =>
      if BL808_UART_FIFO_DEPTH <=? rx_count s
      then s <| fifo_config_0 := Z.lor (fifo_config_0 s) FIFO_RX_OVERFLOW |>
      else receive_loop
        (s <| rx_fifo := <[Z.to_nat (rx_tail s) := ch]> (rx_fifo s) |>
           <| rx_tail := (rx_tail s + 1) mod BL808_UART_FIFO_DEPTH |>
           <| rx_count := u32 (rx_count s + 1) |>
           <| rx_total := u32 (rx_total s + 1) |>) buf
  end.

Definition bl808_uart_receive (s : BL808UARTState) (buf : list Z) : BL808UARTState :=
  if negb (bl808_uart_clock_active s) || negb (tst (urx_config s) URX_EN) then s
  else bl808_uart_update_irq (bl808_uart_maybe_set_rx_end (receive_loop s buf)).

Definition bl808_uart_status (s : BL808UARTState) : Z :=
  let status := if 0 <? tx_count s then Z.lor 0 (BIT 0) else 0 in
  if 0 <? rx_count s then Z.lor status (BIT 1) else status.

Definition bl808_uart_fifo_config_1 (s : BL808UARTState) : Z :=
  let value := clr (fifo_config_1 s) (Z.lor 0x3f (Z.shiftl 0x3f 8)) in
  let value := Z.lor value (Z.land (u32 (BL808_UART_FIFO_DEPTH - tx_count s)) 0x3f) in
  Z.lor value (Z.shiftl (Z.land (rx_count s) 0x3f) 8).

Definition bl808_uart_dma_can_read (s : BL808UARTState) (width_bytes : Z) : bool :=
  if negb (bl808_uart_clock_active s) || negb (tst (fifo_config_0 s) FIFO_DMA_RX_EN) ||
     negb (width_bytes =? 1) then false
  else 0 <? rx_count s.

Definition bl808_uart_dma_can_write (s : BL808UARTState) (width_bytes : Z) : bool :=
  if negb (bl808_uart_clock_active s) || negb (tst (fifo_config_0 s) FIFO_DMA_TX_EN) ||
     negb (width_bytes =? 1) then false
  else tx_count s <? BL808_UART_FIFO_DEPTH.

Definition bl808_uart_dma_read (s : BL808UARTState) (width_bytes : Z) : Z * BL808UARTState :=
  if negb (width_bytes =? 1) then (0, s)
  else if rx_count s =? 0 then
    (0xFF, bl808_uart_update_irq (s <| fifo_config_0 := Z.lor (fifo_config_0 s) FIFO_RX_UNDERFLOW |>))
  else
    let ch := rx_fifo s !!! Z.to_nat (rx_head s) in
    let s := s <| rx_head := (rx_head s + 1) mod BL808_UART_FIFO_DEPTH |>
               <| rx_count := u32 (rx_count s - 1) |> in
    (ch, bl808_uart_update_irq s).

Definition bl808_uart_dma_write (s : BL808UARTState) (value width_bytes : Z) : BL808UARTState :=
  if negb (width_bytes =? 1) then s
  else if BL808_UART_FIFO_DEPTH <=? tx_count s then
    bl808_uart_update_irq (s <| fifo_config_0 := Z.lor (fifo_config_0 s) FIFO_TX_OVERFLOW |>)
  else if negb (tst (utx_config s) UTX_EN) then
    bl808_uart_update_irq (s <| fifo_config_0 := Z.lor (fifo_config_0 s) FIFO_TX_UNDERFLOW |>)
  else
    let s := s <| tx_fifo := <[Z.to_nat (tx_tail s) := u8 value]> (tx_fifo s) |>
               <| tx_tail := (tx_tail s + 1) mod BL808_UART_FIFO_DEPTH |>
               <| tx_count := u32 (tx_count s + 1) |> in
    bl808_uart_update_irq (bl808_uart_flush_tx s).

Definition bl808_uart_read (s : BL808UARTState) (offset size : Z) : Z * BL808UARTState :=
  if offset =? UART_UTX_CONFIG then (utx_config s, s)
  else if offset =? UART_URX_CONFIG then (urx_config s, s)
  else if offset =? UART_BIT_PRD then (bit_prd s, s)
  else if offset =? UART_DATA_CONFIG then (data_config s, s)
  else if offset =? UART_UTX_IR_POSITION then (utx_ir_position s, s)
  else if offset =? UART_URX_IR_POSITION then (urx_ir_position s, s)
  else if offset =? UART_URX_RTO_TIMER then (urx_rto_timer s, s)
  else if offset =? UART_SW_MODE then (uart_sw_mode s, s)
  else if offset =? UART_INT_STS then (Z.lor (int_sts s) (bl808_uart_dynamic_ints s), s)
  else if offset =? UART_INT_MASK then (int_mask s, s)
  else if offset =? UART_INT_EN then (int_en s, s)
  else if offset =? UART_STATUS then (bl808_uart_status s, s)
  else if offset =? UART_STS_URX_ABR_PRD then (sts_urx_abr_prd s, s)
  else if offset =? UART_URX_ABR_PRD_B01 then (urx_abr_prd_b01 s, s)
  else if offset =? UART_URX_ABR_PRD_B23 then (urx_abr_prd_b23 s, s)
  else if offset =? UART_URX_ABR_PRD_B45 then (urx_abr_prd_b45 s, s)
  else if offset =? UART_URX_ABR_PRD_B67 then (urx_abr_prd_b67 s, s)
  else if offset =? UART_URX_ABR_PW_TOL then (urx_abr_pw_tol s, s)
  else if offset =? UART_URX_BCR_INT_CFG then (urx_bcr_int_cfg s, s)
  else if offset =? UART_UTX_RS485_CFG then (utx_rs485_cfg s, s)
  else if offset =? UART_FIFO_CONFIG_0 then (fifo_config_0 s, s)
  else if offset =? UART_FIFO_CONFIG_1 then (bl808_uart_fifo_config_1 s, s)
  else if offset =? UART_FIFO_RDATA then
    if 0 <? rx_count s then
      let ch := rx_fifo s !!! Z.to_nat (rx_head s) in
      let s := s <| rx_head := (rx_head s + 1) mod BL808_UART_FIFO_DEPTH |>
                 <| rx_count := u32 (rx_count s - 1) |> in
      (ch, bl808_uart_update_irq s)
    else
      let s := s <| fifo_config_0 := Z.lor (fifo_config_0 s) FIFO_RX_UNDERFLOW |> in
      (0xFF, bl808_uart_update_irq s)
  else (0, s).

Definition write_fifo_config_0 (s : BL808UARTState) (value : Z) : BL808UARTState :=
  let s := s <| fifo_config_0 := clr (fifo_config_0 s) (Z.lor FIFO_TX_CLR FIFO_RX_CLR) |> in
  let dma := Z.lor FIFO_DMA_TX_EN FIFO_DMA_RX_EN in
  let s := s <| fifo_config_0 := u32 (Z.lor (clr (fifo_config_0 s) dma) (Z.land value dma)) |> in
  let s := if tst value FIFO_TX_CLR
           then s <| fifo_config_0 := clr (fifo_config_0 s) (Z.lor FIFO_TX_OVERFLOW FIFO_TX_UNDERFLOW) |>
                  <| tx_count := 0 |> <| tx_tail := 0 |> <| tx_head := 0 |> else s in
  let s := if tst value FIFO_RX_CLR
           then s <| fifo_config_0 := clr (fifo_config_0 s) (Z.lor FIFO_RX_OVERFLOW FIFO_RX_UNDERFLOW) |>
                  <| rx_count := 0 |> <| rx_tail := 0 |> <| rx_head := 0 |> else s in
  bl808_uart_update_irq s.

Definition write_fifo_wdata (s : BL808UARTState) (value : Z) : BL808UARTState :=
  let s :=
    if tst (utx_config s) UTX_EN then
      if BL808_UART_FIFO_DEPTH <=? tx_count s
      then s <| fifo_config_0 := Z.lor (fifo_config_0 s) FIFO_TX_OVERFLOW |>
      else
        let s := s <| tx_fifo := <[Z.to_nat (tx_tail s) := u8 value]> (tx_fifo s) |>
                   <| tx_tail := (tx_tail s + 1) mod BL808_UART_FIFO_DEPTH |>
                   <| tx_count := u32 (tx_count s + 1) |> in
        bl808_uart_flush_tx s
    else s <| fifo_config_0 := Z.lor (fifo_config_0 s) FIFO_TX_UNDERFLOW |> in
  bl808_uart_update_irq s.

Definition bl808_uart_write (s : BL808UARTState) (offset value size : Z) : BL808UARTState :=
  if reset_asserted s then s
  else if offset =? UART_UTX_CONFIG then
    let old := utx_config s in
    let s := s <| utx_config := u32 value |> in
    if negb (tst old UTX_EN) && tst (utx_config s) UTX_EN then bl808_uart_flush_tx s else s
  else if offset =? UART_URX_CONFIG then s <| urx_config := u32 value |>
  else if offset =? UART_BIT_PRD then s <| bit_prd := u32 value |>
  else if offset =? UART_DATA_CONFIG then s <| data_config := u32 value |>
  else if offset =? UART_UTX_IR_POSITION then s <| utx_ir_position := u32 value |>
  else if offset =? UART_URX_IR_POSITION then s <| urx_ir_position := u32 value |>
  else if offset =? UART_URX_RTO_TIMER then s <| urx_rto_timer := Z.land value 0xff |>
  else if offset =? UART_SW_MODE then s <| uart_sw_mode := Z.land value 0xf |>
  else if offset =? UART_INT_MASK then bl808_uart_update_irq (s <| int_mask := u32 value |>)
  else if offset =? UART_INT_CLEAR then
    bl808_uart_update_irq (s <| int_sts := clr (int_sts s) value |>)
  else if offset =? UART_INT_EN then bl808_uart_update_irq (s <| int_en := u32 value |>)
  else if offset =? UART_URX_ABR_PW_TOL then s <| urx_abr_pw_tol := Z.land value 0xff |>
  else if offset =? UART_URX_BCR_INT_CFG then s <| urx_bcr_int_cfg := Z.land value 0xffff |>
  else if offset =? UART_UTX_RS485_CFG then s <| utx_rs485_cfg := u32 value |>
  else if offset =? UART_FIFO_CONFIG_0 then write_fifo_config_0 s value
  else if offset =? UART_FIFO_CONFIG_1 then
    bl808_uart_update_irq
      (s <| fifo_config_1 := Z.land value (Z.lor (Z.shiftl 0x1f 16) (Z.shiftl 0x1f 24)) |>)
  else if offset =? UART_FIFO_WDATA then write_fifo_wdata s value
  else s.

Definition bl808_uart_init (s : BL808UARTState) : BL808UARTState :=
  let s := s <| gate_enabled := true |> <| module_clock_enabled := true |>
             <| reset_asserted := false |> in
  bl808_uart_recompute_clock s.

Definition bl808_uart_reset (s : BL808UARTState) : BL808UARTState :=
  let s := s
    <| utx_config := Z.lor (Z.lor (Z.shiftl 4 13) (Z.shiftl 1 11)) (Z.shiftl 7 8) |>
    <| urx_config := Z.shiftl 7 8 |>
    <| bit_prd := 0x00FF00FF |>
    <| data_config := 0 |>
    <| utx_ir_position := Z.lor (Z.shiftl 159 16) 112 |>
    <| urx_ir_position := 111 |>
    <| urx_rto_timer := 15 |>
    <| uart_sw_mode := 0 |>
    <| int_sts := 0 |>
    <| int_mask := 0x0FFF |>
    <| int_en := 0x0FFF |>
    <| fifo_config_0 := 0 |>
    <| fifo_config_1 := 0 |>
    <| sts_urx_abr_prd := 0 |>
    <| urx_abr_prd_b01 := 0 |>
    <| urx_abr_prd_b23 := 0 |>
    <| urx_abr_prd_b45 := 0 |>
    <| urx_abr_prd_b67 := 0 |>
    <| urx_abr_pw_tol := 3 |>
    <| urx_bcr_int_cfg := 0xFFFF |>
    <| utx_rs485_cfg := 0x2 |>
    <| tx_count := 0 |> <| tx_tail := 0 |> <| tx_head := 0 |>
    <| rx_count := 0 |> <| rx_tail := 0 |> <| rx_head := 0 |>
    <| rx_total := 0 |> <| tx_total := 0 |> in
  bl808_uart_update_irq (bl808_uart_recompute_clock s).

(** The common body of the two clock hooks. *)
Definition clock_changed (s : BL808UARTState) : BL808UARTState :=
  let s := bl808_uart_recompute_clock s in
  let s := if bl808_uart_clock_active s then bl808_uart_flush_tx s else s in
  bl808_uart_update_irq s.

Definition bl808_uart_set_clock_enabled (s : BL808UARTState) (enabled : bool) : BL808UARTState :=
  clock_changed (s <| gate_enabled := enabled |>).

Definition bl808_uart_set_module_clock_enabled (s : BL808UARTState) (enabled : bool) : BL808UARTState :=
  clock_changed (s <| module_clock_enabled := enabled |>).

Definition bl808_uart_set_reset_asserted `{!ColdReset bl808_uart_reset}
    (s : BL808UARTState) (asserted : bool) : BL808UARTState :=
  let s := s <| reset_asserted := asserted |> in
  let s := if asserted then device_cold_reset s else s in
  bl808_uart_update_irq s.

(** ** The queues *)

(** The device holds the bytes [txq] to send and [rxq] received. *)
Record queues (s : BL808UARTState) (txq rxq : list Z) : Prop := {
  q_tx : ring BL808_UART_FIFO_DEPTH (tx_fifo s) (tx_head s) (tx_tail s) (tx_count s) txq;
  q_rx : ring BL808_UART_FIFO_DEPTH (rx_fifo s) (rx_head s) (rx_tail s) (rx_count s) rxq;
}.

Lemma u32_small x : 0 ≤ x < 2 ^ 32 → u32 x = x.
Proof. apply wrap_small. Qed.

Lemma update_irq_queues s txq rxq :
  queues (bl808_uart_update_irq s) txq rxq ↔ queues s txq rxq.
Proof. split; intros []; by split. Qed.

Lemma update_irq_out r s : chr_out (r, bl808_uart_update_irq s).2 = chr_out (r : Z, s).2.
Proof. reflexivity. Qed.

Lemma tx_range s txq rxq : queues s txq rxq → tx_count s = Z.of_nat (length txq) ∧ 0 ≤ tx_count s ≤ 32.
Proof. intros [Ht _]. destruct (ring_length _ _ _ _ _ _ Ht) as (? & _ & ?). done. Qed.

Lemma rx_range s txq rxq : queues s txq rxq → rx_count s = Z.of_nat (length rxq) ∧ 0 ≤ rx_count s ≤ 32.
Proof. intros [_ Hr]. destruct (ring_length _ _ _ _ _ _ Hr) as (? & _ & ?). done. Qed.

Definition tx_unlimited (s : BL808UARTState) : bool :=
  tst (utx_config s) UTX_FREERUN_EN || (Z.shiftr (utx_config s) UTX_LEN_SHIFT =? 0).

(** What the transmitter did: [k] bytes left the queue in order; when it stopped
    before the end of the queue, or ended on a packet, it disabled itself. *)
Record flushed (s : BL808UARTState) (txq rxq : list Z) (k : nat) (s' : BL808UARTState) : Prop := {
  fl_queues : queues s' (drop k txq) rxq;
  fl_out : chr_out s' = chr_out s ++ take k txq;
  fl_len : (k ≤ length txq)%nat;
  fl_end : (k = length txq ∧ utx_config s' = utx_config s ∧ int_sts s' = int_sts s) ∨
           (tx_unlimited s = false ∧ (0 < k)%nat ∧ utx_config s' = clr (utx_config s) UTX_EN ∧
            int_sts s' = Z.lor (int_sts s) INT_UTX_END);
  fl_other : clock_enabled s' = clock_enabled s ∧ reset_asserted s' = reset_asserted s ∧
             irq s' = irq s ∧ fifo_config_0 s' = fifo_config_0 s;
}.

Lemma flush_loop_spec txq rxq s :
  queues s txq rxq → ∃ k, flushed s txq rxq k (flush_tx_loop (length txq) s).
Proof.
  revert s. induction txq as [|ch txq IH]; intros s Hq.
  { exists 0%nat. split; [done|by rewrite app_nil_r|done|by left|done]. }
  destruct (tx_range _ _ _ Hq) as [Hc Hb]. pose proof Hq as [Ht Hr]. simpl in Hc.
  destruct (ring_pop _ _ _ _ _ _ _ Ht) as [Hch Ht']. cbn [length flush_tx_loop].
  rewrite (proj2 (Z.ltb_lt 0 (tx_count s))) by lia. rewrite Hch, (u32_small (tx_count s - 1)) by lia.
  cbv zeta. set (s1 := s <| tx_head := _ |> <| tx_count := _ |> <| chr_out := _ |> <| tx_total := _ |>).
  assert (queues s1 txq rxq) as Hq1 by (by split).
  change (utx_config s1) with (utx_config s).
  destruct (negb (tst (utx_config s) UTX_FREERUN_EN) &&
            negb (Z.shiftr (utx_config s) UTX_LEN_SHIFT =? 0) &&
            (Z.shiftr (utx_config s) UTX_LEN_SHIFT <=? tx_total s1)) eqn:E.
  - exists 1%nat. split; simpl; [by destruct Hq1; split; rewrite ?drop_0|done|lia| |done].
    right. split_and!; [|lia|done|done]. unfold tx_unlimited.
    apply andb_true_iff in E as [[E1 E2]%andb_true_iff _]. apply negb_true_iff in E1, E2. by rewrite E1, E2.
  - destruct (IH s1 Hq1) as (k & [Hfq Hfo Hfl Hfe Hfx]). exists (S k). split; simpl; [done| |lia| |done].
    + rewrite Hfo. simpl. by rewrite <- (assoc_L (++)).
    + destruct Hfe as [(-> & ? & ?)|(? & ? & ? & ?)]; [by left|right]. split_and!; [done|lia|done|done].
Qed.

Lemma flush_spec s txq rxq :
  queues s txq rxq → ∃ k, flushed s txq rxq k (bl808_uart_flush_tx s) ∨
    ((bl808_uart_clock_active s = false ∨ tst (utx_config s) UTX_EN = false) ∧ k = 0%nat ∧
     bl808_uart_flush_tx s = s).
Proof.
  intros Hq. unfold bl808_uart_flush_tx. destruct (tx_range _ _ _ Hq) as [Hc _].
  destruct (bl808_uart_clock_active s) eqn:E1; cbn [negb orb]; [|exists 0%nat; right; by split_and!; [left|..]].
  destruct (tst (utx_config s) UTX_EN) eqn:E2; cbn [negb]; [|exists 0%nat; right; by split_and!; [right|..]].
  rewrite Hc, Nat2Z.id. destruct (flush_loop_spec _ _ _ Hq) as [k Hk]. exists k. by left.
Qed.

(** [k] bytes of the queue [q] were sent, in order. *)
Definition sent (s : BL808UARTState) (q rxq : list Z) (k : nat) (s' : BL808UARTState) : Prop :=
  queues s' (drop k q) rxq ∧ chr_out s' = chr_out s ++ take k q.

Lemma sent_none s txq rxq s' : queues s' txq rxq → chr_out s' = chr_out s → sent s txq rxq 0 s'.
Proof. intros. split; [done|]. simpl. by rewrite app_nil_r. Qed.

Lemma flush_sent s txq rxq : queues s txq rxq → ∃ k, sent s txq rxq k (bl808_uart_flush_tx s).
Proof.
  intros Hq. destruct (flush_spec s txq rxq Hq) as [k [[? ? _ _ _]|(_ & -> & ->)]].
  - by exists k.
  - exists 0%nat. by apply sent_none.
Qed.

Lemma sent_irq s txq rxq k s' : sent s txq rxq k s' → sent s txq rxq k (bl808_uart_update_irq s').
Proof. intros [? ?]. split; [by apply update_irq_queues|done]. Qed.

(** Pushing a byte and flushing. *)
Definition push_tx (s : BL808UARTState) (v : Z) : BL808UARTState :=
  s <| tx_fifo := <[Z.to_nat (tx_tail s) := u8 v]> (tx_fifo s) |>
    <| tx_tail := (tx_tail s + 1) mod BL808_UART_FIFO_DEPTH |>
    <| tx_count := u32 (tx_count s + 1) |>.

Lemma push_queues s txq rxq v :
  queues s txq rxq → tx_count s < 32 → queues (push_tx s v) (txq ++ [u8 v]) rxq.
Proof.
  intros Hq Hlt. destruct (tx_range _ _ _ Hq) as [_ Hb]. destruct Hq as [Ht Hr]. split; [|done].
  unfold push_tx. cbn. rewrite u32_small by lia. by apply ring_push.
Qed.

Lemma push_sent s txq rxq v :
  queues s txq rxq → tx_count s < 32 →
  ∃ k, sent s (txq ++ [u8 v]) rxq k (bl808_uart_flush_tx (push_tx s v)).
Proof. intros Hq Hlt. exact (flush_sent _ _ _ (push_queues s txq rxq v Hq Hlt)). Qed.

(** Taking the oldest received byte. *)
Definition pop_rx (s : BL808UARTState) : BL808UARTState :=
  s <| rx_head := (rx_head s + 1) mod BL808_UART_FIFO_DEPTH |>
    <| rx_count := u32 (rx_count s - 1) |>.

Lemma pop_queues s txq ch rxq :
  queues s txq (ch :: rxq) → rx_fifo s !!! Z.to_nat (rx_head s) = ch ∧ queues (pop_rx s) txq rxq.
Proof.
  intros Hq. destruct (rx_range _ _ _ Hq) as [Hc Hb]. simpl in Hc. destruct Hq as [Ht Hr].
  destruct (ring_pop _ _ _ _ _ _ _ Hr) as [Hch Hr']. split; [done|]. split; [done|].
  unfold pop_rx. cbn. by rewrite u32_small by lia.
Qed.

Lemma receive_loop_spec s txq rxq buf :
  queues s txq rxq →
  let n := (32 - length rxq)%nat in let s' := receive_loop s buf in
  queues s' txq (rxq ++ take n buf) ∧ chr_out s' = chr_out s ∧ urx_config s' = urx_config s ∧
  int_sts s' = int_sts s ∧
  fifo_config_0 s' = (if decide (length buf ≤ n)%nat then fifo_config_0 s
                      else Z.lor (fifo_config_0 s) FIFO_RX_OVERFLOW).
Proof.
  revert s rxq. induction buf as [|ch buf IH]; intros s rxq Hq; cbv zeta.
  { rewrite take_nil, app_nil_r. cbn [receive_loop]. split_and!; try done. }
  destruct (rx_range _ _ _ Hq) as [Hc Hb]. cbn [receive_loop].
  destruct (Z.leb_spec BL808_UART_FIFO_DEPTH (rx_count s)) as [Hfull|Hroom]; unfold BL808_UART_FIFO_DEPTH in *.
  - replace (32 - length rxq)%nat with 0%nat by lia. cbn [take]. rewrite app_nil_r.
    split_and!; [by destruct Hq; split|done..|]. by rewrite decide_False by (simpl; lia).
  - match goal with |- context [receive_loop ?x buf] => set (s1 := x) end.
    assert (queues s1 txq (rxq ++ [ch])) as Hq1.
    { destruct Hq as [Ht Hr]. split; [done|]. unfold s1. cbn. rewrite u32_small by lia. by apply ring_push. }
    destruct (IH s1 (rxq ++ [ch]) Hq1) as (Hi1 & Hi2 & Hi3 & Hi4 & Hi5).
    rewrite length_app in Hi1, Hi5. simpl in Hi1, Hi5.
    replace (32 - length rxq)%nat with (S (32 - (length rxq + 1))) by lia. cbn [take].
    rewrite <- (assoc_L (++)) in Hi1. split_and!; try done. rewrite Hi5. cbn [length].
    repeat destruct (decide _); done || lia.
Qed.

(** ** Runs of the device *)

Inductive uart_op :=
  | UWrite (offset value : Z)
  | URead (offset : Z)
  | UReceive (buf : list Z)
  | UDmaRead (width : Z)
  | UDmaWrite (value width : Z)
  | UClock (enabled : bool)
  | UModuleClock (enabled : bool)
  | UReset
  | UResetLine (asserted : bool).

Definition uart_step `{!ColdReset bl808_uart_reset} (s : BL808UARTState) (op : uart_op) :
    Z * BL808UARTState :=
  match op with
  | UWrite offset value => (0, bl808_uart_write s offset value 4)
  | URead offset => bl808_uart_read s offset 4
  | UReceive buf => (0, bl808_uart_receive s buf)
  | UDmaRead w => bl808_uart_dma_read s w
  | UDmaWrite v w => (0, bl808_uart_dma_write s v w)
  | UClock b => (0, bl808_uart_set_clock_enabled s b)
  | UModuleClock b => (0, bl808_uart_set_module_clock_enabled s b)
  | UReset => (0, bl808_uart_reset s)
  | UResetLine b => (0, bl808_uart_set_reset_asserted s b)
  end.

(** ** The abstract UART: two queues *)

(** The operation empties the transmit, or the receive queue. *)
Definition clears_tx (s : BL808UARTState) (op : uart_op) : bool :=
  match op with
  | UReset | UResetLine true => true
  | UWrite o v => negb (reset_asserted s) && (o =? UART_FIFO_CONFIG_0) && tst v FIFO_TX_CLR
  | _ => false
  end.

Definition clears_rx (s : BL808UARTState) (op : uart_op) : bool :=
  match op with
  | UReset | UResetLine true => true
  | UWrite o v => negb (reset_asserted s) && (o =? UART_FIFO_CONFIG_0) && tst v FIFO_RX_CLR
  | _ => false
  end.

(** The byte the operation queues for transmission. *)
Definition queued (s : BL808UARTState) (op : uart_op) : list Z :=
  match op with
  | UWrite o v =>
      if negb (reset_asserted s) && (o =? UART_FIFO_WDATA) && tst (utx_config s) UTX_EN && (tx_count s <? 32)
      then [u8 v] else []
  | UDmaWrite v w =>
      if (w =? 1) && tst (utx_config s) UTX_EN && (tx_count s <? 32) then [u8 v] else []
  | _ => []
  end.

(** The bytes the operation accepts from the line. *)
Definition accepted (s : BL808UARTState) (op : uart_op) : list Z :=
  match op with
  | UReceive buf =>
      if bl808_uart_clock_active s && tst (urx_config s) URX_EN then take (32 - Z.to_nat (rx_count s)) buf else []
  | _ => []
  end.

(** The operation consumes a received byte. *)
Definition consumes (op : uart_op) : bool :=
  match op with URead o => o =? UART_FIFO_RDATA | UDmaRead w => w =? 1 | _ => false end.

Record queue_step (s : BL808UARTState) (txq rxq : list Z) (op : uart_op) (r : Z * BL808UARTState)
    (k : nat) : Prop := {
  qs_out : chr_out r.2 = chr_out s ++ take k (txq ++ queued s op);
  qs_queues : queues r.2 (if clears_tx s op then [] else drop k (txq ++ queued s op))
                (if clears_rx s op then [] else drop (if consumes op then 1 else 0) rxq ++ accepted s op);
  qs_value : consumes op = true → r.1 = (match rxq with ch :: _ => ch | [] => 0xFF end);
}.

(** An operation that leaves the queues to the transmitter. *)
Lemma quiet_step s txq rxq op r k :
  queued s op = [] → clears_tx s op = false → clears_rx s op = false → consumes op = false →
  accepted s op = [] → sent s txq rxq k r.2 → queue_step s txq rxq op r k.
Proof.
  intros Hq Ht Hr Hc Ha [Hs Ho]. split; rewrite ?Hq, ?Ht, ?Hr, ?Hc, ?Ha, ?app_nil_r; done.
Qed.

Lemma frame_queues s s' txq rxq :
  queues s txq rxq → tx_fifo s' = tx_fifo s → tx_head s' = tx_head s → tx_tail s' = tx_tail s →
  tx_count s' = tx_count s → rx_fifo s' = rx_fifo s → rx_head s' = rx_head s →
  rx_tail s' = rx_tail s → rx_count s' = rx_count s → queues s' txq rxq.
Proof. intros [] ? ? ? ? ? ? ? ?. split; congruence. Qed.

Section steps.
Variables (s : BL808UARTState) (txq rxq : list Z).
Hypothesis Hq : queues s txq rxq.

Lemma wdata_step v :
  reset_asserted s = false →
  ∃ k, queue_step s txq rxq (UWrite UART_FIFO_WDATA v) (0, write_fifo_wdata s v) k.
Proof.
  intros Hrst. destruct (tx_range _ _ _ Hq) as [_ Hb].
  assert (queued s (UWrite UART_FIFO_WDATA v) =
    if tst (utx_config s) UTX_EN && (tx_count s <? 32) then [u8 v] else []) as Hqd.
  { cbn [queued]. by rewrite Hrst, Z.eqb_refl. }
  unfold write_fifo_wdata. destruct (tst (utx_config s) UTX_EN) eqn:E; cbn [andb] in Hqd.
  2: { exists 0%nat. apply quiet_step; [done|simpl; by rewrite Hrst|simpl; by rewrite Hrst|done|done|].
       apply sent_irq, sent_none; [|done]. by eapply frame_queues. }
  unfold BL808_UART_FIFO_DEPTH. destruct (Z.leb_spec 32 (tx_count s)) as [Hf|Hr].
  - rewrite (proj2 (Z.ltb_ge _ _)) in Hqd by lia. exists 0%nat.
    apply quiet_step; [done|simpl; by rewrite Hrst|simpl; by rewrite Hrst|done|done|].
    apply sent_irq, sent_none; [|done]. by eapply frame_queues.
  - rewrite (proj2 (Z.ltb_lt _ _)) in Hqd by lia.
    destruct (push_sent s txq rxq v Hq Hr) as (k & Hs). apply sent_irq in Hs as [Hs Ho]. exists k.
    split; rewrite ?Hqd; [exact Ho| |done]. simpl. rewrite Hrst. simpl. by rewrite app_nil_r.
Qed.

Lemma config0_step v :
  reset_asserted s = false →
  queue_step s txq rxq (UWrite UART_FIFO_CONFIG_0 v) (0, write_fifo_config_0 s v) 0.
Proof.
  intros Hrst. pose proof Hq as [Ht Hr]. split; simpl; rewrite ?Hrst, ?app_nil_r; [|apply update_irq_queues|done].
  - unfold write_fifo_config_0. cbv zeta. by destruct (tst v FIFO_TX_CLR), (tst v FIFO_RX_CLR).
  - cbn [negb andb]. change (UART_FIFO_CONFIG_0 =? UART_FIFO_CONFIG_0) with true. cbn [andb].
    destruct (tst v FIFO_TX_CLR), (tst v FIFO_RX_CLR); split; cbn; rewrite ?app_nil_r;
      first [exact Ht|exact Hr|by apply ring_empty; [apply Ht|]|by apply ring_empty; [apply Hr|]].
Qed.

Lemma other_write o v :
  o ≠ UART_FIFO_WDATA → o ≠ UART_FIFO_CONFIG_0 → ∃ k, sent s txq rxq k (bl808_uart_write s o v 4).
Proof.
  intros H1 H2. assert (∀ s', queues s' txq rxq → chr_out s' = chr_out s → ∃ k, sent s txq rxq k s') as Hn
    by (intros s' ? ?; exists 0%nat; by apply sent_none).
  unfold bl808_uart_write. rewrite (proj2 (Z.eqb_neq o UART_FIFO_WDATA)), (proj2 (Z.eqb_neq o UART_FIFO_CONFIG_0)) by done.
  destruct (reset_asserted s); [by apply Hn|].
  destruct (o =? UART_UTX_CONFIG).
  { destruct (_ && _); [|apply Hn; [by eapply frame_queues|done]].
    destruct (flush_sent (s <| utx_config := u32 v |>) txq rxq) as [k Hk]; [by eapply frame_queues|by exists k]. }
  repeat match goal with |- context [o =? ?c] => destruct (o =? c);
    [apply Hn; [first [apply update_irq_queues|idtac]; eapply frame_queues; [exact Hq|reflexivity..]|reflexivity]|] end.
  by apply Hn.
Qed.

Lemma write_step o v : ∃ k, queue_step s txq rxq (UWrite o v) (0, bl808_uart_write s o v 4) k.
Proof.
  destruct (reset_asserted s) eqn:Hrst.
  { exists 0%nat. unfold bl808_uart_write. rewrite Hrst.
    apply quiet_step; simpl; rewrite ?Hrst; try done. by apply sent_none. }
  destruct (decide (o = UART_FIFO_WDATA)) as [->|H1].
  { unfold bl808_uart_write. rewrite Hrst. by apply wdata_step. }
  destruct (decide (o = UART_FIFO_CONFIG_0)) as [->|H2].
  { unfold bl808_uart_write. rewrite Hrst. exists 0%nat. by apply config0_step. }
  destruct (other_write o v H1 H2) as [k Hk]. exists k.
  apply quiet_step; simpl; rewrite ?Hrst, ?(proj2 (Z.eqb_neq _ _) H1), ?(proj2 (Z.eqb_neq _ _) H2); done.
Qed.

(** Reading the data register or through the DMA. *)
Lemma take_rx :
  let r := if 0 <? rx_count s
           then (rx_fifo s !!! Z.to_nat (rx_head s), bl808_uart_update_irq (pop_rx s))
           else (0xFF, bl808_uart_update_irq (s <| fifo_config_0 := Z.lor (fifo_config_0 s) FIFO_RX_UNDERFLOW |>)) in
  chr_out r.2 = chr_out s ∧ queues r.2 txq (drop 1 rxq) ∧ r.1 = (match rxq with ch :: _ => ch | [] => 0xFF end).
Proof.
  destruct (rx_range _ _ _ Hq) as [Hc _]. cbv zeta. destruct rxq as [|ch l]; simpl in Hc.
  - rewrite Hc. cbn. split_and!; [done| |done]. by eapply frame_queues.
  - rewrite (proj2 (Z.ltb_lt _ _)) by lia. destruct (pop_queues _ _ _ _ Hq) as [Hch Hp].
    split_and!; [done| |done]. by apply update_irq_queues.
Qed.

Lemma read_step o : ∃ k, queue_step s txq rxq (URead o) (bl808_uart_read s o 4) k.
Proof.
  exists 0%nat. destruct (Z.eqb_spec o UART_FIFO_RDATA) as [->|Hne].
  - pose proof take_rx as (Ho & Hs & Hv). split; simpl; rewrite ?app_nil_r; [exact Ho|exact Hs|]. intros _. exact Hv.
  - apply quiet_step; try done; [simpl; by apply Z.eqb_neq|].
    assert ((bl808_uart_read s o 4).2 = s) as ->; [|by apply sent_none].
    unfold bl808_uart_read. rewrite (proj2 (Z.eqb_neq o UART_FIFO_RDATA)) by done.
    repeat match goal with |- context [o =? ?c] => destruct (o =? c); [reflexivity|] end. reflexivity.
Qed.

Lemma receive_step buf : ∃ k, queue_step s txq rxq (UReceive buf) (0, bl808_uart_receive s buf) k.
Proof.
  exists 0%nat. unfold bl808_uart_receive.
  destruct (negb (bl808_uart_clock_active s) || negb (tst (urx_config s) URX_EN)) eqn:E.
  - apply quiet_step; try done; [|by apply sent_none]. simpl.
    destruct (bl808_uart_clock_active s), (tst (urx_config s) URX_EN); done.
  - apply orb_false_iff in E as [E1%negb_false_iff E2%negb_false_iff].
    destruct (receive_loop_spec s txq rxq buf Hq) as (H1 & H2 & _). set (s1 := receive_loop s buf) in *.
    assert (queues (bl808_uart_maybe_set_rx_end s1) txq (rxq ++ take (32 - length rxq) buf) ∧
            chr_out (bl808_uart_maybe_set_rx_end s1) = chr_out s1) as [H3 H4].
    { unfold bl808_uart_maybe_set_rx_end. destruct (_ && _); [|done]. split; [|done]. by eapply frame_queues. }
    destruct (rx_range _ _ _ Hq) as [Hc _]. rewrite <- (Nat2Z.id (length rxq)), <- Hc in H3.
    split; simpl; rewrite ?E1, ?E2, ?app_nil_r; [|by apply update_irq_queues|done].
    etransitivity; [exact H4|exact H2].
Qed.

Lemma dma_read_step w : ∃ k, queue_step s txq rxq (UDmaRead w) (bl808_uart_dma_read s w) k.
Proof.
  exists 0%nat. unfold bl808_uart_dma_read. destruct (Z.eqb_spec w 1) as [->|Hne]; cbn [negb].
  - pose proof take_rx as (Ho & Hs & Hv). destruct (rx_range _ _ _ Hq) as [_ Hb].
    assert ((rx_count s =? 0) = negb (0 <? rx_count s)) as ->
      by (destruct (Z.eqb_spec (rx_count s) 0), (Z.ltb_spec 0 (rx_count s)); done || lia).
    destruct (0 <? rx_count s); cbn [negb];
      (split; simpl; rewrite ?app_nil_r; [exact Ho|exact Hs|intros _; exact Hv]).
  - apply quiet_step; try done; [simpl; by apply Z.eqb_neq|]. by apply sent_none.
Qed.

Lemma dma_write_step v w : ∃ k, queue_step s txq rxq (UDmaWrite v w) (0, bl808_uart_dma_write s v w) k.
Proof.
  destruct (tx_range _ _ _ Hq) as [_ Hb]. unfold bl808_uart_dma_write.
  destruct (Z.eqb_spec w 1) as [->|Hne]; cbn [negb].
  2: { exists 0%nat. apply quiet_step; try done; [|by apply sent_none]. cbn [queued].
       by rewrite (proj2 (Z.eqb_neq _ _)). }
  unfold BL808_UART_FIFO_DEPTH. destruct (Z.leb_spec 32 (tx_count s)) as [Hf|Hr].
  { exists 0%nat. apply quiet_step; try done.
    - cbn [queued]. rewrite (proj2 (Z.ltb_ge _ _)), andb_false_r by lia. done.
    - apply sent_irq, sent_none; [|done]. by eapply frame_queues. }
  destruct (tst (utx_config s) UTX_EN) eqn:E; cbn [negb].
  - destruct (push_sent s txq rxq v Hq Hr) as (k & Hs). apply sent_irq in Hs as [Hs Ho]. exists k.
    assert (queued s (UDmaWrite v 1) = [u8 v]) as Hqd.
    { cbn [queued]. rewrite E, (proj2 (Z.ltb_lt _ _)) by lia. done. }
    split; rewrite ?Hqd; [exact Ho| |done]. simpl. by rewrite app_nil_r.
  - exists 0%nat. apply quiet_step; try done.
    + cbn [queued]. by rewrite E, andb_false_r.
    + apply sent_irq, sent_none; [|done]. by eapply frame_queues.
Qed.

Lemma clock_step op s1 :
  queued s op = [] → clears_tx s op = false → clears_rx s op = false → consumes op = false →
  accepted s op = [] → queues s1 txq rxq → chr_out s1 = chr_out s →
  ∃ k, queue_step s txq rxq op (0, clock_changed s1) k.
Proof.
  intros ? ? ? ? ? Hq1 Ho. unfold clock_changed. set (s2 := bl808_uart_recompute_clock s1).
  assert (queues s2 txq rxq) as Hq2 by (by eapply frame_queues).
  destruct (bl808_uart_clock_active s2).
  - destruct (flush_sent s2 txq rxq Hq2) as (k & Hk). exists k. apply quiet_step; try done.
    apply sent_irq in Hk as [? Hk]. split; [done|]. by rewrite <- Ho.
  - exists 0%nat. apply quiet_step; try done. by apply sent_irq, sent_none.
Qed.

Lemma reset_queues s1 :
  length (tx_fifo s1) = 32%nat → length (rx_fifo s1) = 32%nat → queues (bl808_uart_reset s1) [] [].
Proof.
  intros Ht Hr. split; (apply ring_empty; [|done]); unfold BL808_UART_FIFO_DEPTH.
  - change (Z.of_nat (length (tx_fifo s1)) = 32). lia.
  - change (Z.of_nat (length (rx_fifo s1)) = 32). lia.
Qed.

Lemma reset_step op s1 :
  queued s op = [] → clears_tx s op = true → clears_rx s op = true → consumes op = false →
  tx_fifo s1 = tx_fifo s → rx_fifo s1 = rx_fifo s → chr_out s1 = chr_out s →
  queue_step s txq rxq op (0, bl808_uart_reset s1) 0.
Proof.
  intros Hqd Ht Hr Hc E1 E2 Ho. pose proof Hq as [[] []]. unfold BL808_UART_FIFO_DEPTH in *.
  split; simpl; rewrite ?Hqd, ?Ht, ?Hr, ?Hc, ?app_nil_r; [exact Ho| |done].
  apply reset_queues; [rewrite E1; lia|rewrite E2; lia].
Qed.

Lemma uart_queue_step `{!ColdReset bl808_uart_reset} op :
  ∃ k, queue_step s txq rxq op (uart_step s op) k.
Proof.
  destruct op as [o v|o|buf|w|v w|b|b| |[]]; cbn [uart_step].
  - apply write_step.
  - apply read_step.
  - apply receive_step.
  - apply dma_read_step.
  - apply dma_write_step.
  - apply clock_step; try done. by eapply frame_queues.
  - apply clock_step; try done. by eapply frame_queues.
  - exists 0%nat. by apply reset_step.
  - exists 0%nat. unfold bl808_uart_set_reset_asserted. rewrite device_cold_reset_runs.
    destruct (reset_step (UResetLine true) (s <| reset_asserted := true |>)) as [H1 H2 H3]; [done..|].
    split; [rewrite update_irq_out; exact H1|apply update_irq_queues; exact H2|discriminate].
  - exists 0%nat. apply quiet_step; try done. apply sent_irq, sent_none; [|done]. by eapply frame_queues.
Qed.
End steps.

(** ** The interrupt line *)

(** The line is at the level that the registers ask for. *)
Definition irq_current (s : BL808UARTState) : Prop := irq s = irq (bl808_uart_update_irq s).

Lemma update_irq_current s : irq_current (bl808_uart_update_irq s).
Proof. reflexivity. Qed.

(** The level, bit by bit: some interrupt is raised, enabled and not masked. *)
Lemma irq_current_bits s :
  irq_current s → 0 ≤ int_en s →
  irq s = true ↔ bl808_uart_clock_active s = true ∧
    ∃ i, 0 ≤ i ∧ Z.testbit (Z.lor (int_sts s) (bl808_uart_dynamic_ints s)) i = true ∧
         Z.testbit (int_en s) i = true ∧ Z.testbit (int_mask s) i = false.
Proof.
  intros -> Hen. cbn [irq bl808_uart_update_irq set_field]. rewrite andb_true_iff, negb_true_iff, Z.eqb_neq.
  apply and_iff_compat_l. rewrite nonzero_bit by (apply Z.land_nonneg; left; apply Z.land_nonneg; by right).
  apply exist_proper. intros i. apply and_proper_r || idtac. split.
  - intros [Hi Hb]. rewrite clr_spec, Z.land_spec in Hb by done.
    apply andb_true_iff in Hb as [[? ?]%andb_true_iff ?%negb_true_iff]. done.
  - intros (Hi & H1 & H2 & H3). split; [done|]. by rewrite clr_spec, Z.land_spec, H1, H2, H3 by done.
Qed.

Lemma write_current s o v :
  irq_current s → o ≠ UART_UTX_CONFIG → irq_current (bl808_uart_write s o v 4).
Proof.
  intros Hc Hne. unfold bl808_uart_write. destruct (reset_asserted s) eqn:Hr; [done|].
  rewrite (proj2 (Z.eqb_neq o UART_UTX_CONFIG)) by done.
  repeat match goal with |- context [o =? ?c] => destruct (o =? c);
    [first [apply update_irq_current|exact Hc]|] end.
  exact Hc.
Qed.

Lemma read_current s o : irq_current s → irq_current (bl808_uart_read s o 4).2.
Proof.
  intros Hc. unfold bl808_uart_read.
  repeat match goal with |- context [o =? ?c] => destruct (o =? c);
    [first [exact Hc|destruct (0 <? rx_count s); apply update_irq_current]|] end.
  exact Hc.
Qed.

(** The operation re-evaluates the line, or cannot change it. *)
Definition refreshes (op : uart_op) : bool :=
  match op with UWrite o _ => negb (o =? UART_UTX_CONFIG) | _ => true end.

Lemma step_current `{!ColdReset bl808_uart_reset} s op :
  irq_current s → refreshes op = true → irq_current (uart_step s op).2.
Proof.
  intros Hc Hr. destruct op as [o v|o|buf|w|v w|b|b| |b]; cbn [uart_step snd].
  - apply write_current; [done|]. by apply Z.eqb_neq, negb_true_iff.
  - by apply read_current.
  - unfold bl808_uart_receive. destruct (_ || _); [done|]. apply update_irq_current.
  - unfold bl808_uart_dma_read. destruct (negb _); [done|]. destruct (_ =? 0); apply update_irq_current.
  - unfold bl808_uart_dma_write. destruct (negb _); [done|].
    destruct (_ <=? _); [apply update_irq_current|]. destruct (negb _); apply update_irq_current.
  - apply update_irq_current.
  - apply update_irq_current.
  - apply update_irq_current.
  - apply update_irq_current.
Qed.

(** ** Properties *)

Section runs.
Context `{!ColdReset bl808_uart_reset}.

Definition uart_run (s : BL808UARTState) (ops : list uart_op) : BL808UARTState :=
  foldl (λ s op, (uart_step s op).2) s ops.

(** The received byte that the operation hands out. *)
Definition popped (s : BL808UARTState) (op : uart_op) : list Z :=
  if consumes op && (0 <? rx_count s) then [(uart_step s op).1] else [].

(** What a run collects at each step. *)
Fixpoint collect (f : BL808UARTState → uart_op → list Z) (s : BL808UARTState) (ops : list uart_op) : list Z :=
  match ops with
  | [] => []
  | op :: ops => f s op ++ collect f (uart_step s op).2 ops
  end.

Fixpoint no_clear (s : BL808UARTState) (ops : list uart_op) : bool :=
  match ops with
  | [] => true
  | op :: ops => negb (clears_tx s op) && negb (clears_rx s op) && no_clear (uart_step s op).2 ops
  end.

Lemma run_queues s txq rxq ops :
  queues s txq rxq → no_clear s ops = true →
  ∃ txq' rxq', queues (uart_run s ops) txq' rxq' ∧
    chr_out (uart_run s ops) ++ txq' = chr_out s ++ txq ++ collect queued s ops ∧
    collect popped s ops ++ rxq' = rxq ++ collect accepted s ops.
Proof.
  revert s txq rxq. induction ops as [|op ops IH]; intros s txq rxq Hq Hn.
  { exists txq, rxq. simpl. by rewrite !app_nil_r. }
  cbn [no_clear] in Hn. apply andb_true_iff in Hn as [[Ht%negb_true_iff Hr%negb_true_iff]%andb_true_iff Hn].
  destruct (uart_queue_step s txq rxq Hq op) as (k & [Ho Hs Hv]). rewrite Ht, Hr in Hs.
  destruct (IH _ _ _ Hs Hn) as (txq' & rxq' & Hq' & Hout & Hin). exists txq', rxq'.
  cbn [uart_run foldl collect]. split_and!; [done| |].
  - change (foldl (λ s op, (uart_step s op).2) (uart_step s op).2 ops) with (uart_run (uart_step s op).2 ops).
    rewrite Hout, Ho, <- !(assoc_L (++)), (assoc_L (++) (take k _)), take_drop. by rewrite <- !(assoc_L (++)).
  - rewrite <- (assoc_L (++)), Hin, !(assoc_L (++)). f_equal. rewrite <- (assoc_L (++)) || idtac.
    unfold popped. destruct (rx_range _ _ _ Hq) as [Hc _]. destruct (consumes op) eqn:Ec; [|done].
    rewrite (Hv eq_refl). destruct rxq as [|ch l]; simpl in Hc; rewrite Hc; [done|].
    by rewrite (proj2 (Z.ltb_lt _ _)) by lia.
Qed.

(** C6: no byte is lost, duplicated or reordered.  Over any sequence of register
    accesses, line receptions, DMA accesses and clock changes that does not
    clear a FIFO: what was sent followed by what waits in the transmit FIFO is
    what was sent and waited before followed by the bytes queued on the way,
    and what software read followed by what waits in the receive FIFO is what
    waited before followed by the bytes accepted from the line. *)
Theorem uart_no_byte_lost s txq rxq ops :
  queues s txq rxq → no_clear s ops = true →
  ∃ txq' rxq', queues (uart_run s ops) txq' rxq' ∧
    chr_out (uart_run s ops) ++ txq' = chr_out s ++ txq ++ collect queued s ops ∧
    collect popped s ops ++ rxq' = rxq ++ collect accepted s ops.
Proof. apply run_queues. Qed.

(** As long as [UTX_CONFIG] is not written, the interrupt line is always at
    the level the registers ask for: asserted exactly when the clock runs, the
    block is out of reset, and some interrupt is raised, enabled and unmasked. *)
Theorem uart_irq_follows s op :
  irq_current s → refreshes op = true → 0 ≤ int_en (uart_step s op).2 →
  let s' := (uart_step s op).2 in
  irq_current s' ∧
  (irq s' = true ↔ bl808_uart_clock_active s' = true ∧
    ∃ i, 0 ≤ i ∧ Z.testbit (Z.lor (int_sts s') (bl808_uart_dynamic_ints s')) i = true ∧
         Z.testbit (int_en s') i = true ∧ Z.testbit (int_mask s') i = false).
Proof.
  intros Hc Hr Hen. pose proof (step_current s op Hc Hr). split; [done|]. by apply irq_current_bits.
Qed.
End runs.

(** ** Concrete runs *)

(** The device after allocation, [bl808_uart_init] and reset. *)
Definition uart0 : BL808UARTState :=
  bl808_uart_reset (bl808_uart_init
    (mk_uart false [] 0 0 0 0 0 0 0 0 0 0 0 0 0 0 0 0 0 0 0 0 0 (replicate 32 0) (replicate 32 0)
       0 0 0 0 0 0 0 0 false false false false)).

Lemma uart0_queues : queues uart0 [] [].
Proof. by apply reset_queues. Qed.

(** Receive "Hi", read one byte, send one. *)
Definition ops0 : list uart_op :=
  [UWrite UART_URX_CONFIG 0x701; UReceive [72; 105]; URead UART_FIFO_RDATA;
   UWrite UART_UTX_CONFIG 0x8F05; UWrite UART_FIFO_WDATA 33].

Lemma uart_no_byte_lost_witness :
  ∃ txq' rxq', queues (@uart_run (direct_reset _) uart0 ops0) txq' rxq' ∧
    chr_out (@uart_run (direct_reset _) uart0 ops0) ++ txq' = [33] ∧ [72] ++ rxq' = [72; 105].
Proof.
  exact (@uart_no_byte_lost (direct_reset _) uart0 [] [] ops0 uart0_queues eq_refl).
Defined.

Lemma uart_irq_follows_witness :
  irq_current (@uart_step (direct_reset _) uart0 (UWrite UART_INT_MASK 0)).2.
Proof.
  refine (proj1 (@uart_irq_follows (direct_reset _) uart0 (UWrite UART_INT_MASK 0) _ _ _));
    vm_compute; congruence.
Defined.

(** Writing [UTX_CONFIG] with the enable bit flushes the transmit FIFO, which
    can raise the end-of-packet interrupt, but does not re-evaluate the line:
    with a byte waiting, an unmasked end interrupt and a packet length of one,
    the line stays low although the interrupt is pending. *)
Theorem uart_utx_config_stale_irq :
  let step := @uart_step (direct_reset _) in
  let s := (step (@uart_run (direct_reset _) uart0
    [UWrite UART_UTX_CONFIG 0x1; UModuleClock false; UWrite UART_FIFO_WDATA 65; UWrite UART_UTX_CONFIG 0;
     UModuleClock true; UWrite UART_INT_EN 1; UWrite UART_INT_MASK 0]) (UWrite UART_UTX_CONFIG 0x10001)).2 in
  chr_out s = [65] ∧ int_sts s = 1 ∧ irq s = false ∧ irq (bl808_uart_update_irq s) = true.
Proof. by vm_compute. Qed.
End BL808UART.
