(* ===== verification/Clic.v ===== *)
(** * The core-local interrupt controller ([qemu-machine/hw/intc/xt_clic.c]),
    definitions

    One module [XTCLIC]: the per-hart arrays of the controller, its register
    handlers, the interrupt inputs and the entry points that the CPU model
    calls.  Every operation that an assertion of the source can stop returns
    [None] when it does. *)

From S2P Require Import Prelude.
From stdpp Require Import prelude list sorting.
From Stdlib Require Import ZArith Lia.
Local Open Scope Z_scope.

Module XTCLIC.

(** What the controller uses of the CPU model of the emulator, which is not part
    of the repository: the privilege encoding and the accessors of the fields
    of the CPU's registers. *)
Class RiscvDefs := {
  PRV_M : Z;
  XLEN : Z;                       (* width of target_ulong *)
  MINTSTATUS_MIL : Z;
  MCAUSE_MPIL : Z;
  E902_MEXSTATUS_WFE : Z;
  get_field : Z → Z → Z;
  put_field : Z → Z → Z → Z;
  (** The RISC-V privileged architecture encodes machine mode as 3. *)
  PRV_M_is_3 : PRV_M = 3;
}.

(** The part of [CPURISCVState] and of the CPU object that the controller reads
    or writes; [clic_irq] is the [CPU_INTERRUPT_CLIC] request. *)
Record CPUState := mk_cpu {
  mintstatus : Z;
  mcause : Z;
  mtvt : Z;
  mtvec : Z;
  stvec : Z;
  priv : Z;
  has_clic : bool;
  ext_xthead_e902 : bool;
  e902_wfi_active : bool;
  e902_mexstatus : Z;
  e902_wfi_wake_only : bool;
  exccode : Z;
  clic_irq : bool;
}.

#[export] Instance eta_cpu : Eta CPUState := λ r,
  mk_cpu (mintstatus r) (mcause r) (mtvt r) (mtvec r) (stvec r) (priv r) (has_clic r)
    (ext_xthead_e902 r) (e902_wfi_active r) (e902_mexstatus r) (e902_wfi_wake_only r) (exccode r)
    (clic_irq r).

#[export] Instance cpu_inhabited : Inhabited CPUState :=
  populate (mk_cpu 0 0 0 0 0 0 false false false 0 false 0 false).

Record CLICActiveInterrupt := mk_active {
  intcfg : Z;   (* uint16_t *)
  a_irq : Z;    (* uint16_t *)
}.

#[export] Instance active_inhabited : Inhabited CLICActiveInterrupt := populate (mk_active 0 0).
#[export] Instance active_eq_dec : EqDecision CLICActiveInterrupt.
Proof. solve_decision. Defined.

Inductive TRIG_TYPE := POSITIVE_LEVEL | POSITIVE_EDGE | NEG_LEVEL | NEG_EDGE.

(** The controller, with the CPUs of the machine by their index. *)
Record XTCLICState := mk_clic {
  nvbits : bool;
  num_harts : Z;
  hartid_base : Z;
  num_sources : Z;
  clicintctlbits : Z;
  nmbits : list Z;
  nlbits : list Z;
  clicintip : list Z;
  clicintie : list Z;
  clicintattr : list Z;
  clicintctl : list Z;
  mintthresh : list Z;
  active_list : list CLICActiveInterrupt;
  active_count : list Z;
  cpus : list CPUState;
}.

#[export] Instance eta_clic : Eta XTCLICState := λ r,
  mk_clic (nvbits r) (num_harts r) (hartid_base r) (num_sources r) (clicintctlbits r) (nmbits r)
    (nlbits r) (clicintip r) (clicintie r) (clicintattr r) (clicintctl r) (mintthresh r)
    (active_list r) (active_count r) (cpus r).

(** [a[i]] and [a[i] = v] of a C array. *)
Definition at_ {A} `{Inhabited A} (l : list A) (i : Z) : A := l !!! Z.to_nat i.
Definition put {A} (l : list A) (i : Z) (v : A) : list A := <[Z.to_nat i := v]> l.

Definition UINT8_MAX := 255.

Section clic.
Context `{RiscvDefs}.

(** [current_cpu->cpu_index - clic->hartid_base]. *)
Definition xt_clic_get_hartid_internal (clic : XTCLICState) (current_cpu : Z) : Z :=
  current_cpu - hartid_base clic.

Definition xt_clic_get_trigger_type (clic : XTCLICState) (irq_offset : Z) : TRIG_TYPE :=
  let t := Z.land (Z.shiftr (at_ (clicintattr clic) irq_offset) 1) 0x3 in
  if t =? 0 then POSITIVE_LEVEL else if t =? 1 then POSITIVE_EDGE
  else if t =? 2 then NEG_LEVEL else NEG_EDGE.

Definition xt_clic_is_edge_triggered (clic : XTCLICState) (irq_offset : Z) : bool :=
  tst (Z.shiftr (at_ (clicintattr clic) irq_offset) 1) 0x1.

Definition xt_clic_is_shv_interrupt (clic : XTCLICState) (irq_offset : Z) : bool :=
  tst (at_ (clicintattr clic) irq_offset) 0x1 && nvbits clic.

Definition xt_clic_intctl_mask (clic : XTCLICState) : Z :=
  if clicintctlbits clic =? 0 then 0
  else if 8 <=? clicintctlbits clic then UINT8_MAX
  else u8 (Z.shiftl UINT8_MAX (8 - clicintctlbits clic)).

Definition xt_clic_intctl_effective (clic : XTCLICState) (intctl : Z) : Z :=
  let mask := xt_clic_intctl_mask clic in
  Z.lor (Z.land intctl mask) (clr UINT8_MAX mask).

Definition xt_clic_intctl_storage (clic : XTCLICState) (intctl : Z) : Z :=
  Z.land intctl (xt_clic_intctl_mask clic).

Definition xt_clic_intctl_priority_valid (clic : XTCLICState) (intctl : Z) : bool :=
  negb (Z.land intctl (xt_clic_intctl_mask clic) =? 0).

Definition xt_clic_get_interrupt_level (clic : XTCLICState) (hartid intctl : Z) : Z :=
  let nlbits := Z.min (at_ (nlbits clic) hartid) (clicintctlbits clic) in
  if nlbits =? 0 then UINT8_MAX else
  let mask_il := u8 (Z.shiftl (Z.shiftl 1 nlbits - 1) (8 - nlbits)) in
  let mask_padding := u8 (Z.shiftl 1 (8 - nlbits) - 1) in
  Z.lor (Z.land intctl mask_il) mask_padding.

Definition xt_clic_get_interrupt_priority (clic : XTCLICState) (hartid intctl : Z) : Z := intctl.

(** Mode, level and priority. *)
Definition xt_clic_intcfg_decode (clic : XTCLICState) (hartid cfg : Z) : Z * Z * Z :=
  (u8 (Z.shiftr cfg 8), xt_clic_get_interrupt_level clic hartid (Z.land cfg 0xff),
   xt_clic_get_interrupt_priority clic hartid (Z.land cfg 0xff)).

(** The entries [active_list[hart_offset .. hart_offset + active_count)]. *)
Definition active_slice (clic : XTCLICState) (hartid : Z) : list CLICActiveInterrupt :=
  take (Z.to_nat (at_ (active_count clic) hartid))
       (drop (Z.to_nat (hartid * num_sources clic)) (active_list clic)).

Fixpoint find_pending_loop (clic : XTCLICState) (hartid threshold : Z) (non_shv_only : bool)
    (active : list CLICActiveInterrupt) : option (CLICActiveInterrupt * Z) :=
  match active with
  | [] => None
  | a :: active =>
      let irq_offset := a_irq a + hartid * num_sources clic in
      if negb (xt_clic_intctl_priority_valid clic (at_ (clicintctl clic) irq_offset))
      then find_pending_loop clic hartid threshold non_shv_only active
      else
        let '(mode, level, priority) := xt_clic_intcfg_decode clic hartid (intcfg a) in
        if level <=? threshold then None
        else if negb (at_ (clicintip clic) irq_offset =? 0) then
          if non_shv_only && xt_clic_is_shv_interrupt clic irq_offset then None
          else Some (a, level)
        else find_pending_loop clic hartid threshold non_shv_only active
  end.

Definition xt_clic_find_pending (clic : XTCLICState) (hartid threshold : Z) (non_shv_only : bool) :
    option (CLICActiveInterrupt * Z) :=
  find_pending_loop clic hartid threshold non_shv_only (active_slice clic hartid).

Definition encode_exccode (a : CLICActiveInterrupt) (level : Z) : Z :=
  Z.lor (Z.lor (a_irq a) (Z.shiftl PRV_M 12)) (Z.shiftl level 14).

Definition xt_clic_next_interrupt (clic : XTCLICState) (hartid : Z) : XTCLICState :=
  let ix := hartid + hartid_base clic in
  let env := at_ (cpus clic) ix in
  let threshold := u8 (Z.max (get_field (mintstatus env) MINTSTATUS_MIL)
                             (at_ (mintthresh clic) hartid)) in
  let e902_wfi_wake := ext_xthead_e902 env && e902_wfi_active env &&
                       tst (e902_mexstatus env) E902_MEXSTATUS_WFE in
  let env' :=
    match xt_clic_find_pending clic hartid threshold false with
    | Some (active, level) =>
        env <| exccode := encode_exccode active level |> <| e902_wfi_wake_only := false |>
            <| clic_irq := true |>
    | None =>
        match (if e902_wfi_wake then xt_clic_find_pending clic hartid 0 false else None) with
        | Some (active, level) =>
            env <| exccode := encode_exccode active level |> <| e902_wfi_wake_only := true |>
                <| clic_irq := true |>
        | None => env <| e902_wfi_wake_only := false |> <| clic_irq := false |>
        end
    end in
  clic <| cpus := put (cpus clic) ix env' |>.

Definition xt_clic_validate_intip (clic : XTCLICState) (current_cpu irq : Z) : bool :=
  xt_clic_is_edge_triggered clic
    (irq + num_sources clic * xt_clic_get_hartid_internal clic current_cpu).

Definition xt_clic_update_intip (clic : XTCLICState) (hartid irq value : Z) : XTCLICState :=
  let irq_offset := irq + num_sources clic * hartid in
  let clic := clic <| clicintip := put (clicintip clic) irq_offset (if value =? 0 then 0 else 1) |> in
  xt_clic_next_interrupt clic hartid.

Definition xt_clic_encode_priority (i : CLICActiveInterrupt) : Z :=
  Z.lor (Z.shiftl (Z.land (intcfg i) 0x3ff) 12) (Z.land (a_irq i) 0xfff).

Definition xt_clic_active_compare (a b : CLICActiveInterrupt) : Z :=
  xt_clic_encode_priority b - xt_clic_encode_priority a.

(** [qsort] with that comparison. *)
Definition before (a b : CLICActiveInterrupt) : Prop := xt_clic_active_compare a b ≤ 0.
#[export] Instance before_dec a b : Decision (before a b).
Proof. unfold before. apply _. Defined.
Definition qsort (l : list CLICActiveInterrupt) : list CLICActiveInterrupt := merge_sort before l.

(** [bsearch] with that comparison: the index of the entry found. *)
Fixpoint bsearch_loop (fuel : nat) (key : CLICActiveInterrupt) (l : list CLICActiveInterrupt)
    (lo hi : nat) : option nat :=
  match fuel with
  | O => None
  | S fuel =>
      if (lo <? hi)%nat then
        let mid := ((lo + hi) / 2)%nat in
        let c := xt_clic_active_compare key (l !!! mid) in
        if c <? 0 then bsearch_loop fuel key l lo mid
        else if 0 <? c then bsearch_loop fuel key l (S mid) hi
        else Some mid
      else None
  end.
Definition bsearch (key : CLICActiveInterrupt) (l : list CLICActiveInterrupt) : option nat :=
  bsearch_loop (S (length l)) key l 0 (length l).

(** Writing [l'] over the entries from [off] on. *)
Definition splice {A} (l : list A) (off : Z) (l' : list A) : list A :=
  take (Z.to_nat off) l ++ l' ++ drop (Z.to_nat off + length l') l.

(** The entry of an enabled interrupt. *)
Definition entry_of (clic : XTCLICState) (irq intctl : Z) : CLICActiveInterrupt :=
  mk_active (Z.lor (Z.shiftl PRV_M 8) (xt_clic_intctl_effective clic intctl)) irq.

Definition xt_clic_enable_irq (clic : XTCLICState) (current_cpu irq : Z) : XTCLICState :=
  let hartid := xt_clic_get_hartid_internal clic current_cpu in
  let hart_offset := hartid * num_sources clic in
  let irq_offset := irq + hart_offset in
  let count := at_ (active_count clic) hartid in
  let clic := clic <| active_list := put (active_list clic) (hart_offset + count)
                        (entry_of clic irq (at_ (clicintctl clic) irq_offset)) |>
                   <| active_count := put (active_count clic) hartid (count + 1) |> in
  clic <| active_list := splice (active_list clic) hart_offset (qsort (active_slice clic hartid)) |>.

(** [None]: the assertion that the entry was found fails. *)
Definition xt_clic_disable_irq (clic : XTCLICState) (current_cpu irq : Z) : option XTCLICState :=
  let hartid := xt_clic_get_hartid_internal clic current_cpu in
  let hart_offset := hartid * num_sources clic in
  let irq_offset := irq + hart_offset in
  let key := entry_of clic irq (at_ (clicintctl clic) irq_offset) in
  let active := active_slice clic hartid in
  match bsearch key active with
  | None => None
  | Some elem =>
      let clic := clic <| active_count := put (active_count clic) hartid (at_ (active_count clic) hartid - 1) |> in
      (* memmove of the entries after [elem] one place down *)
      let clic := clic <| active_list := splice (active_list clic) (hart_offset + Z.of_nat elem)
                                           (drop (S elem) active) |> in
      Some (clic <| active_list := splice (active_list clic) hart_offset (qsort (active_slice clic hartid)) |>)
  end.

Definition xt_clic_update_intctl (clic : XTCLICState) (current_cpu irq new_intctl : Z) : XTCLICState :=
  let hartid := xt_clic_get_hartid_internal clic current_cpu in
  let hart_offset := hartid * num_sources clic in
  let irq_offset := irq + hart_offset in
  let key := entry_of clic irq (at_ (clicintctl clic) irq_offset) in
  let clic :=
    match bsearch key (active_slice clic hartid) with
    | Some elem =>
        let clic := clic <| active_list := put (active_list clic) (hart_offset + Z.of_nat elem)
          (mk_active (Z.lor (Z.shiftl PRV_M 8) (xt_clic_intctl_effective clic (u8 new_intctl)))
             (a_irq (at_ (active_list clic) (hart_offset + Z.of_nat elem)))) |> in
        clic <| active_list := splice (active_list clic) hart_offset (qsort (active_slice clic hartid)) |>
    | None => clic
    end in
  let clic := clic <| clicintctl := put (clicintctl clic) irq_offset (u8 new_intctl) |> in
  xt_clic_next_interrupt clic hartid.

Definition xt_clic_update_intie (clic : XTCLICState) (current_cpu irq new_intie : Z) : option XTCLICState :=
  let hartid := xt_clic_get_hartid_internal clic current_cpu in
  let irq_offset := irq + num_sources clic * hartid in
  let old_intie := at_ (clicintie clic) irq_offset in
  let clic := clic <| clicintie := put (clicintie clic) irq_offset (if new_intie =? 0 then 0 else 1) |> in
  clic ← (if negb (new_intie =? 0) && (old_intie =? 0) then Some (xt_clic_enable_irq clic current_cpu irq)
          else if (new_intie =? 0) && negb (old_intie =? 0) then xt_clic_disable_irq clic current_cpu irq
          else Some clic);
  Some (xt_clic_next_interrupt clic hartid).

(** ** Registers *)

Definition BL808_CLIC_CFG_OFF := 0x000.
Definition BL808_CLIC_INFO_OFF := 0x004.
Definition BL808_CLIC_MINTTHRESH_OFF := 0x008.
Definition BL808_CLIC_INT_OFF := 0x1000.
Definition BL808_CLIC_INT_STRIDE := 0x4.
Definition BL808_CLIC_INT_IP := 0x0.
Definition BL808_CLIC_INT_IE := 0x1.
Definition BL808_CLIC_INT_ATTR := 0x2.
Definition BL808_CLIC_INT_CTL := 0x3.

(** The interrupt and the field of an address, when it is one. *)
Definition xt_clic_decode_int_reg (clic : XTCLICState) (addr : Z) : option (Z * Z) :=
  if addr <? BL808_CLIC_INT_OFF then None else
  let rel := addr - BL808_CLIC_INT_OFF in
  let irq := rel / BL808_CLIC_INT_STRIDE in
  let fld := rel mod BL808_CLIC_INT_STRIDE in
  if irq <? num_sources clic then Some (irq, fld) else None.

Definition xt_clic_read_int_field (clic : XTCLICState) (hartid irq fld : Z) : option Z :=
  let irq_offset := irq + num_sources clic * hartid in
  if fld =? BL808_CLIC_INT_IP then Some (at_ (clicintip clic) irq_offset)
  else if fld =? BL808_CLIC_INT_IE then Some (at_ (clicintie clic) irq_offset)
  else if fld =? BL808_CLIC_INT_ATTR then
    Some (u8 (Z.lor (at_ (clicintattr clic) irq_offset) (Z.shiftl PRV_M 6)))
  else if fld =? BL808_CLIC_INT_CTL then
    Some (xt_clic_intctl_effective clic (at_ (clicintctl clic) irq_offset))
  else None.

Definition xt_clic_write_int_field (clic : XTCLICState) (current_cpu hartid irq fld value : Z) :
    option XTCLICState :=
  let irq_offset := irq + num_sources clic * hartid in
  if fld =? BL808_CLIC_INT_IP then
    if xt_clic_validate_intip clic current_cpu irq && negb (value =? at_ (clicintip clic) irq_offset)
    then Some (xt_clic_update_intip clic hartid irq value) else Some clic
  else if fld =? BL808_CLIC_INT_IE then
    if negb (at_ (clicintie clic) irq_offset =? value)
    then xt_clic_update_intie clic current_cpu irq value else Some clic
  else if fld =? BL808_CLIC_INT_ATTR then
    let clic := clic <| clicintattr := put (clicintattr clic) irq_offset
                          (u8 (Z.lor (Z.land value 0x7) (Z.shiftl PRV_M 6))) |> in
    Some (xt_clic_next_interrupt clic hartid)
  else if fld =? BL808_CLIC_INT_CTL then
    let value := xt_clic_intctl_storage clic value in
    if negb (value =? at_ (clicintctl clic) irq_offset)
    then Some (xt_clic_update_intctl clic current_cpu irq value) else Some clic
  else None.

(** [for (i = 0; i < size; i++)] over the bytes of a write. *)
Fixpoint write_fields (n : nat) (clic : XTCLICState) (current_cpu hartid irq fld value : Z) :
    option XTCLICState :=
  match n with
  | O => Some clic
  | S n =>
      clic ← xt_clic_write_int_field clic current_cpu hartid irq fld (u8 value);
      write_fields n clic current_cpu hartid irq (fld + 1) (Z.shiftr value 8)
  end.

Definition xt_clic_write (clic : XTCLICState) (current_cpu addr value size : Z) : option XTCLICState :=
  let hartid := xt_clic_get_hartid_internal clic current_cpu in
  if addr =? BL808_CLIC_CFG_OFF then
    let nlb := Z.land (Z.shiftr (u32 value) 1) 0xf in
    let clic := if nlb <=? 8 then clic <| nlbits := put (nlbits clic) hartid (u8 (Z.min nlb (clicintctlbits clic))) |>
                else clic in
    let clic := clic <| nmbits := put (nmbits clic) hartid 0 |> in
    Some (xt_clic_next_interrupt clic hartid)
  else if addr =? BL808_CLIC_MINTTHRESH_OFF then
    let clic := clic <| mintthresh := put (mintthresh clic) hartid (u8 value) |> in
    Some (xt_clic_next_interrupt clic hartid)
  else
    match xt_clic_decode_int_reg clic addr with
    | Some (irq, fld) =>
        if BL808_CLIC_INT_STRIDE <? fld + size then Some clic
        else write_fields (Z.to_nat size) clic current_cpu hartid irq fld value
    | None => Some clic
    end.

(** The bytes of a read, from byte [i] of the result on. *)
Fixpoint read_fields (n : nat) (clic : XTCLICState) (hartid irq fld : Z) (i : Z) : option Z :=
  match n with
  | O => Some 0
  | S n =>
      b ← xt_clic_read_int_field clic hartid irq fld;
      rest ← read_fields n clic hartid irq (fld + 1) (i + 1);
      Some (Z.lor (Z.shiftl b (i * 8)) rest)
  end.

Definition xt_clic_read (clic : XTCLICState) (current_cpu addr size : Z) : option Z :=
  let hartid := xt_clic_get_hartid_internal clic current_cpu in
  if addr =? BL808_CLIC_CFG_OFF then
    Some (Z.lor (Z.lor (if nvbits clic then 1 else 0) (Z.shiftl (at_ (nlbits clic) hartid) 1))
                (Z.shiftl (at_ (nmbits clic) hartid) 5))
  else if addr =? BL808_CLIC_INFO_OFF then
    Some (Z.lor (Z.lor (Z.land (num_sources clic) 0x1fff) (Z.shiftl 0x80 13))
                (Z.shiftl (Z.land (clicintctlbits clic) 0xf) 21))
  else if addr =? BL808_CLIC_MINTTHRESH_OFF then Some (at_ (mintthresh clic) hartid)
  else
    match xt_clic_decode_int_reg clic addr with
    | Some (irq, fld) =>
        if BL808_CLIC_INT_STRIDE <? fld + size then Some 0
        else read_fields (Z.to_nat size) clic hartid irq fld 0
    | None => Some 0
    end.

Definition xt_clic_set_irq (clic : XTCLICState) (n level : Z) : XTCLICState :=
  let hartid := n / num_sources clic in
  let irq := n mod num_sources clic in
  let irq_offset := irq + num_sources clic * hartid in
  let not_level := if level =? 0 then 1 else 0 in
  if negb (level =? 0) then
    match xt_clic_get_trigger_type clic irq_offset with
    | POSITIVE_LEVEL | POSITIVE_EDGE => xt_clic_update_intip clic hartid irq level
    | NEG_LEVEL => xt_clic_update_intip clic hartid irq not_level
    | NEG_EDGE => clic
    end
  else
    match xt_clic_get_trigger_type clic irq_offset with
    | POSITIVE_LEVEL => xt_clic_update_intip clic hartid irq level
    | POSITIVE_EDGE => clic
    | NEG_LEVEL | NEG_EDGE => xt_clic_update_intip clic hartid irq not_level
    end.

(** [xt_clic_realize] on the properties of the device: [g_new0] arrays, and the
    controller registered with the CPUs it serves. *)
Definition xt_clic_realize (nv : bool) (harts base sources ctlbits : Z) (cs : list CPUState) : XTCLICState :=
  let irqs := harts * sources in
  mk_clic nv harts base sources ctlbits
    (replicate (Z.to_nat harts) 0) (replicate (Z.to_nat harts) 0)
    (replicate (Z.to_nat irqs) 0) (replicate (Z.to_nat irqs) 0) (replicate (Z.to_nat irqs) 0)
    (replicate (Z.to_nat irqs) 0) (replicate (Z.to_nat harts) 0)
    (replicate (Z.to_nat irqs) (mk_active 0 0)) (replicate (Z.to_nat harts) 0)
    (imap (λ i c, if (base <=? Z.of_nat i) && (Z.of_nat i <? base + harts)
                  then c <| has_clic := true |> else c) cs).

(** ** Entry points of the CPU model *)

Definition xt_clic_get_next_interrupt (clic : XTCLICState) (current_cpu : Z) : XTCLICState :=
  xt_clic_next_interrupt clic (current_cpu - hartid_base clic).

Definition xt_clic_shv_interrupt (clic : XTCLICState) (current_cpu irq : Z) : bool :=
  xt_clic_is_shv_interrupt clic (irq + num_sources clic * xt_clic_get_hartid_internal clic current_cpu).

Definition xt_clic_edge_triggered (clic : XTCLICState) (current_cpu irq : Z) : bool :=
  xt_clic_is_edge_triggered clic (irq + num_sources clic * xt_clic_get_hartid_internal clic current_cpu).

Definition xt_clic_clean_pending (clic : XTCLICState) (current_cpu irq : Z) : XTCLICState :=
  let hartid := xt_clic_get_hartid_internal clic current_cpu in
  let irq_offset := irq + num_sources clic * hartid in
  let clic := clic <| clicintip := put (clicintip clic) irq_offset 0 |> in
  xt_clic_next_interrupt clic hartid.

Definition xt_clic_mnxti_read (clic : XTCLICState) (current_cpu : Z) (ack : bool) : Z * XTCLICState :=
  let hartid := xt_clic_get_hartid_internal clic current_cpu in
  let env := at_ (cpus clic) current_cpu in
  if negb (priv env =? PRV_M) then (0, clic) else
  let threshold := u8 (get_field (mcause env) MCAUSE_MPIL) in
  match xt_clic_find_pending clic hartid threshold true with
  | None => (0, clic)
  | Some (active, level) =>
      let irq_offset := a_irq active + num_sources clic * hartid in
      let env := env <| mintstatus := put_field (mintstatus env) MINTSTATUS_MIL level |>
                     <| mcause := Z.lor (clr (mcause env) 0xfff) (a_irq active) |> in
      let clic := clic <| cpus := put (cpus clic) current_cpu env |> in
      let clic := if ack && xt_clic_is_edge_triggered clic irq_offset
                  then xt_clic_next_interrupt
                         (clic <| clicintip := put (clicintip clic) irq_offset 0 |>) hartid
                  else clic in
      (wrap XLEN (clr (mtvt env) 0x3f + 4 * a_irq active), clic)
  end.

Definition xt_clic_is_clic_mode (env : CPUState) : bool :=
  let xtvec := if priv env =? PRV_M then mtvec env else stvec env in
  has_clic env && (Z.land xtvec 0x3 =? 3).

(** Mode, level and interrupt of an exception code. *)
Definition xt_clic_decode_exccode (exccode : Z) : Z * Z * Z :=
  (Z.land (Z.shiftr exccode 12) 0x3, Z.land (Z.shiftr exccode 14) 0xff, Z.land exccode 0xfff).
End clic.
End XTCLIC.
