(* ===== verification/ClicSpec.v ===== *)
(** * The core-local interrupt controller: the active lists and the selection

    The controller keeps, per hart, the enabled interrupts sorted by priority,
    and delivers the first pending one above the threshold.  The invariant
    [clic_inv] says that each list holds exactly the enabled interrupts, in
    order; every operation preserves it and none trips the assertion of
    [xt_clic_disable_irq]; and the interrupt that is delivered is the one the
    registers designate. *)

From S2P Require Import Prelude Clic.
From stdpp Require Import prelude list sorting.
From Stdlib Require Import ZArith Lia.
Local Open Scope Z_scope.
Import XTCLIC.

(** ** Slices of arrays *)

Definition slice {A} (l : list A) (o n : nat) : list A := take n (drop o l).

Lemma slice_lookup {A} (l : list A) o n i :
  slice l o n !! i = if decide (i < n)%nat then l !! (o + i)%nat else None.
Proof.
  unfold slice. destruct (decide (i < n)%nat).
  - by rewrite lookup_take_lt, lookup_drop.
  - by rewrite lookup_take_ge by lia.
Qed.

Lemma slice_length {A} (l : list A) o n : (o + n ≤ length l)%nat → length (slice l o n) = n.
Proof. intros. unfold slice. rewrite length_take, length_drop. lia. Qed.

Lemma splice_lookup {A} (l l' : list A) (off : Z) i :
  0 ≤ off → Z.of_nat (length l') + off ≤ Z.of_nat (length l) →
  splice l off l' !! i =
    if decide (i < Z.to_nat off)%nat then l !! i
    else if decide (i < Z.to_nat off + length l')%nat then l' !! (i - Z.to_nat off)%nat else l !! i.
Proof.
  intros H0 Hl. unfold splice. destruct (decide (i < Z.to_nat off)%nat).
  { rewrite lookup_app_l by (rewrite length_take; lia). by rewrite lookup_take_lt by lia. }
  rewrite lookup_app_r by (rewrite length_take; lia). rewrite length_take, Nat.min_l by lia.
  destruct (decide (i < Z.to_nat off + length l')%nat).
  - by rewrite lookup_app_l by lia.
  - rewrite lookup_app_r by lia. rewrite lookup_drop. f_equal. lia.
Qed.

Lemma splice_length {A} (l l' : list A) (off : Z) :
  0 ≤ off → Z.of_nat (length l') + off ≤ Z.of_nat (length l) → length (splice l off l') = length l.
Proof. intros. unfold splice. rewrite !length_app, length_take, length_drop. lia. Qed.

(** ** Priorities *)

(** Cases of a bounded integer. *)
Lemma bounded_forall (n : nat) (P : Z → bool) :
  forallb P (seqZ 0 (Z.of_nat n)) = true → ∀ x, 0 ≤ x < Z.of_nat n → P x = true.
Proof.
  intros Hall x Hx. rewrite forallb_forall in Hall. apply Hall. apply list_elem_of_In, elem_of_seqZ. lia.
Qed.

Section defs.
Context `{RiscvDefs}.

Definition level_of (nl x : Z) : Z :=
  if nl =? 0 then UINT8_MAX else
  Z.lor (Z.land x (u8 (Z.shiftl (Z.shiftl 1 nl - 1) (8 - nl)))) (u8 (Z.shiftl 1 (8 - nl) - 1)).

Lemma level_of_eq nl x :
  0 ≤ nl ≤ 8 → uint 8 x → level_of nl x = x / 2 ^ (8 - nl) * 2 ^ (8 - nl) + 2 ^ (8 - nl) - 1.
Proof.
  intros Hn Hx. apply Z.eqb_eq.
  assert (forallb (λ nl, forallb (λ x, level_of nl x =? x / 2 ^ (8 - nl) * 2 ^ (8 - nl) + 2 ^ (8 - nl) - 1)
    (seqZ 0 (Z.of_nat 256))) (seqZ 0 (Z.of_nat 9)) = true) as Hc by by vm_compute.
  pose proof (bounded_forall 9 _ Hc nl ltac:(lia)) as Hc2.
  by apply (bounded_forall 256 _ Hc2 x); unfold uint in Hx; lia.
Qed.

Lemma level_of_mono nl x y : 0 ≤ nl ≤ 8 → uint 8 x → uint 8 y → x ≤ y → level_of nl x ≤ level_of nl y.
Proof.
  intros Hn Hx Hy Hle. rewrite !level_of_eq by done.
  pose proof (Z.div_le_mono x y (2 ^ (8 - nl)) ltac:(lia) Hle).
  assert (0 < 2 ^ (8 - nl)) by lia. nia.
Qed.

(** What the mask of the implemented control bits does. *)
Definition mask_of (bits : Z) : Z :=
  if bits =? 0 then 0 else if 8 <=? bits then UINT8_MAX else u8 (Z.shiftl UINT8_MAX (8 - bits)).
Definition effective_of (bits x : Z) : Z := Z.lor (Z.land x (mask_of bits)) (clr UINT8_MAX (mask_of bits)).

Lemma effective_uint bits x : 0 ≤ bits ≤ 8 → uint 8 x → uint 8 (effective_of bits x).
Proof.
  intros Hb Hx. unfold effective_of. apply uint_lor; [lia|by apply uint_land_l|].
  apply uint_clr; [lia|]. unfold uint, UINT8_MAX. lia.
Qed.

Lemma cfg_eq bits x : 0 ≤ bits ≤ 8 → uint 8 x → Z.lor (Z.shiftl 3 8) (effective_of bits x) = 768 + effective_of bits x.
Proof. intros Hb Hx. rewrite lor_shiftl_add; [lia|lia|]. by apply effective_uint. Qed.

(** The priority code of an entry. *)
Lemma encode_eq bits x i :
  0 ≤ bits ≤ 8 → uint 8 x → 0 ≤ i < 4096 →
  xt_clic_encode_priority (mk_active (Z.lor (Z.shiftl 3 8) (effective_of bits x)) i) =
    (768 + effective_of bits x) * 4096 + i.
Proof.
  intros Hb Hx Hi. unfold xt_clic_encode_priority. cbn [intcfg a_irq].
  pose proof (effective_uint bits x Hb Hx) as He. rewrite cfg_eq by done. unfold uint in He.
  change 0x3ff with (Z.ones 10). change 0xfff with (Z.ones 12). rewrite !Z.land_ones by lia.
  rewrite !Z.mod_small by lia. rewrite lor_shiftl_add; [lia|lia|]. unfold uint. lia.
Qed.
End defs.

(** ** Searching a sorted list *)

Section search.
Variable l : list CLICActiveInterrupt.
Hypothesis Hsorted : StronglySorted before l.
Hypothesis Hinj : ∀ a b, a ∈ l → b ∈ l → xt_clic_encode_priority a = xt_clic_encode_priority b → a = b.
Hypothesis Hnodup : NoDup l.

Lemma sorted_lookup i j a b : (i ≤ j)%nat → l !! i = Some a → l !! j = Some b →
  xt_clic_encode_priority b ≤ xt_clic_encode_priority a.
Proof.
  intros Hij Ha Hb. destruct (decide (i = j)) as [->|Hne]; [simplify_eq; lia|].
  clear Hinj Hnodup. revert i j Hij Hne Ha Hb. induction Hsorted as [|x l' Hs IH Hf]; intros i j Hij Hne Ha Hb; [done|].
  destruct i as [|i], j as [|j]; try lia; simpl in *.
  - simplify_eq. rewrite Forall_forall in Hf. specialize (Hf b (list_elem_of_lookup_2 _ _ _ Hb)).
    unfold before, xt_clic_active_compare in Hf. lia.
  - eapply (IH Hs i j); [lia|lia|done|done].
Qed.

Lemma bsearch_loop_found key k fuel lo hi :
  l !! k = Some key → (lo ≤ k < hi)%nat → (hi ≤ length l)%nat → (hi - lo < fuel)%nat →
  bsearch_loop fuel key l lo hi = Some k.
Proof.
  intros Hk. revert lo hi. induction fuel as [|fuel IH]; intros lo hi Hr Hh Hf; [lia|].
  cbn [bsearch_loop]. rewrite (proj2 (Nat.ltb_lt lo hi)) by lia.
  set (mid := ((lo + hi) / 2)%nat).
  assert (lo ≤ mid < hi)%nat as Hm.
  { unfold mid. pose proof (Nat.div_mod (lo + hi) 2 ltac:(lia)). pose proof (Nat.mod_upper_bound (lo + hi) 2 ltac:(lia)). lia. }
  destruct (lookup_lt_is_Some_2 l mid ltac:(lia)) as [m Hmid].
  rewrite (list_lookup_total_correct _ _ _ Hmid). unfold xt_clic_active_compare.
  destruct (Z.ltb_spec (xt_clic_encode_priority m - xt_clic_encode_priority key) 0) as [Hc|Hc].
  - apply IH; [|lia|lia]. split; [lia|]. destruct (decide (k < mid)%nat); [done|].
    pose proof (sorted_lookup mid k m key ltac:(lia) Hmid Hk). lia.
  - destruct (Z.ltb_spec 0 (xt_clic_encode_priority m - xt_clic_encode_priority key)) as [Hc2|Hc2].
    + apply IH; [|lia|lia]. split; [|lia]. destruct (decide (mid < k)%nat); [done|].
      pose proof (sorted_lookup k mid key m ltac:(lia) Hk Hmid). lia.
    + f_equal. assert (m = key) as ->.
      { apply Hinj; [by eapply list_elem_of_lookup_2|by eapply list_elem_of_lookup_2|lia]. }
      by eapply NoDup_lookup.
Qed.

Lemma bsearch_found key k : l !! k = Some key → bsearch key l = Some k.
Proof.
  intros Hk. apply bsearch_loop_found; [done| |lia|lia]. split; [lia|]. by eapply lookup_lt_Some.
Qed.

Lemma bsearch_absent key :
  (∀ a, a ∈ l → xt_clic_encode_priority a ≠ xt_clic_encode_priority key) → bsearch key l = None.
Proof.
  clear - l. intros Hne. unfold bsearch. assert (length l ≤ length l)%nat as Hh by lia. revert Hh.
  generalize (S (length l)). intros fuel. generalize 0%nat, (length l) at 1 3.
  induction fuel as [|fuel IH]; intros lo hi Hh; [done|]. cbn [bsearch_loop].
  destruct (Nat.ltb_spec lo hi) as [Hlt|]; [|done].
  set (mid := ((lo + hi) / 2)%nat).
  assert (lo ≤ mid < hi)%nat as Hm.
  { unfold mid. pose proof (Nat.div_mod (lo + hi) 2 ltac:(lia)). pose proof (Nat.mod_upper_bound (lo + hi) 2 ltac:(lia)). lia. }
  destruct (lookup_lt_is_Some_2 l mid ltac:(lia)) as [m Hmid].
  rewrite (list_lookup_total_correct _ _ _ Hmid). unfold xt_clic_active_compare.
  pose proof (Hne m (list_elem_of_lookup_2 _ _ _ Hmid)).
  destruct (Z.ltb_spec (xt_clic_encode_priority m - xt_clic_encode_priority key) 0); [apply IH; lia|].
  destruct (Z.ltb_spec 0 (xt_clic_encode_priority m - xt_clic_encode_priority key)); [apply IH; lia|lia].
Qed.
End search.

#[export] Instance before_trans : Transitive before.
Proof. intros a b c. unfold before, xt_clic_active_compare. lia. Qed.
#[export] Instance before_total : Total before.
Proof. intros a b. unfold before, xt_clic_active_compare. lia. Qed.

Lemma qsort_sorted l : StronglySorted before (qsort l).
Proof. apply StronglySorted_merge_sort; apply _. Qed.

Lemma qsort_perm l : qsort l ≡ₚ l.
Proof. apply merge_sort_Permutation. Qed.

Lemma at_put_eq {A} `{Inhabited A} (l : list A) i v : 0 ≤ i < Z.of_nat (length l) → at_ (put l i v) i = v.
Proof. intros. unfold at_, put. apply list_lookup_total_insert_eq. lia. Qed.

Lemma at_put_ne {A} `{Inhabited A} (l : list A) i j v : 0 ≤ i → 0 ≤ j → i ≠ j → at_ (put l i v) j = at_ l j.
Proof. intros. unfold at_, put. apply list_lookup_total_insert_ne. lia. Qed.

(** ** The invariant *)

Section inv.
Context `{RiscvDefs}.

Definition irq_at (c : XTCLICState) (h i : Z) : Z := i + h * num_sources c.
Definition entry (c : XTCLICState) (h i : Z) : CLICActiveInterrupt :=
  entry_of c i (at_ (clicintctl c) (irq_at c h i)).
Definition on (c : XTCLICState) (h i : Z) : Prop :=
  0 ≤ i < num_sources c ∧ at_ (clicintie c) (irq_at c h i) ≠ 0.

(** The list [A] holds exactly the enabled interrupts of hart [h], by priority. *)
Record active_ok (c : XTCLICState) (h : Z) (A : list CLICActiveInterrupt) : Prop := {
  ao_sorted : StronglySorted before A;
  ao_nodup : NoDup (a_irq <$> A);
  ao_elem a : a ∈ A ↔ ∃ i, on c h i ∧ a = entry c h i;
}.

Record clic_sizes (c : XTCLICState) : Prop := {
  cs_harts : 0 ≤ num_harts c;
  cs_sources : 0 < num_sources c ≤ 4096;
  cs_bits : 0 ≤ clicintctlbits c ≤ 8;
  cs_ip : Z.of_nat (length (clicintip c)) = num_harts c * num_sources c;
  cs_ie : Z.of_nat (length (clicintie c)) = num_harts c * num_sources c;
  cs_ctl : Z.of_nat (length (clicintctl c)) = num_harts c * num_sources c;
  cs_active : Z.of_nat (length (active_list c)) = num_harts c * num_sources c;
  cs_count : Z.of_nat (length (active_count c)) = num_harts c;
  cs_nl : Z.of_nat (length (nlbits c)) = num_harts c;
}.

Record clic_inv (c : XTCLICState) : Prop := {
  ci_sizes : clic_sizes c;
  ci_ctl i : 0 ≤ i < num_harts c * num_sources c → uint 8 (at_ (clicintctl c) i);
  ci_nl h : 0 ≤ h < num_harts c → 0 ≤ at_ (nlbits c) h ≤ 8;
  ci_count h : 0 ≤ h < num_harts c → 0 ≤ at_ (active_count c) h ≤ num_sources c;
  ci_active h : 0 ≤ h < num_harts c → active_ok c h (active_slice c h);
}.

Lemma entry_code c h i :
  clic_inv c → 0 ≤ h < num_harts c → 0 ≤ i < num_sources c →
  xt_clic_encode_priority (entry c h i) =
    (768 + xt_clic_intctl_effective c (at_ (clicintctl c) (irq_at c h i))) * 4096 + i.
Proof.
  intros Hc Hh Hi. destruct Hc as [[] Hctl _ _ _]. unfold entry, entry_of. rewrite PRV_M_is_3.
  apply encode_eq; [done| |lia]. apply Hctl. unfold irq_at. nia.
Qed.

Lemma entry_inj c h i j :
  clic_inv c → 0 ≤ h < num_harts c → 0 ≤ i < num_sources c → 0 ≤ j < num_sources c →
  xt_clic_encode_priority (entry c h i) = xt_clic_encode_priority (entry c h j) → i = j.
Proof.
  intros Hc Hh Hi Hj He. rewrite !entry_code in He by done. destruct Hc as [[] _ _ _ _]. lia.
Qed.

Section lists.
Variables (c : XTCLICState) (h : Z) (A : list CLICActiveInterrupt).
Hypothesis Hc : clic_inv c.
Hypothesis Hh : 0 ≤ h < num_harts c.
Hypothesis HA : active_ok c h A.

Lemma active_inj a b : a ∈ A → b ∈ A → xt_clic_encode_priority a = xt_clic_encode_priority b → a = b.
Proof.
  intros (i & [Hi _] & ->)%(ao_elem _ _ _ HA) (j & [Hj _] & ->)%(ao_elem _ _ _ HA) He.
  apply entry_inj in He; [by subst|done..].
Qed.

Lemma active_NoDup : NoDup A.
Proof. eapply NoDup_fmap_1, HA. Qed.

Lemma active_search i : on c h i → ∃ k, A !! k = Some (entry c h i) ∧ bsearch (entry c h i) A = Some k.
Proof.
  intros Hi. assert (entry c h i ∈ A) as [k Hk]%list_elem_of_lookup by (apply HA; by exists i).
  exists k. split; [done|]. apply bsearch_found; [apply HA|apply active_inj|apply active_NoDup|done].
Qed.

Lemma active_absent i : 0 ≤ i < num_sources c → ¬ on c h i → bsearch (entry c h i) A = None.
Proof.
  intros Hi Hoff. apply bsearch_absent. intros a (j & Hj & ->)%(ao_elem _ _ _ HA) He.
  apply entry_inj in He; [by subst|done|done|apply Hj|done].
Qed.

(** There are at most as many entries as interrupts; fewer when one is off. *)
Lemma active_length : (length A ≤ Z.to_nat (num_sources c))%nat ∧
  ∀ i, 0 ≤ i < num_sources c → ¬ on c h i → (length A < Z.to_nat (num_sources c))%nat.
Proof.
  assert (∀ a, a ∈ a_irq <$> A → a ∈ seqZ 0 (num_sources c)) as Hsub.
  { intros a (x & -> & (i & [Hi _] & ->)%(ao_elem _ _ _ HA))%list_elem_of_fmap. apply elem_of_seqZ. simpl. lia. }
  rewrite <- (length_fmap a_irq A). rewrite <- (length_seqZ 0 (num_sources c)). split.
  - apply submseteq_length, NoDup_submseteq; [apply HA|done].
  - intros i Hi Hoff. apply (submseteq_length (i :: (a_irq <$> A))), NoDup_submseteq.
    + constructor; [|apply HA]. intros (x & Hx & (j & Hj & ->)%(ao_elem _ _ _ HA))%list_elem_of_fmap.
      simpl in Hx. by subst.
    + intros a [->|Ha]%elem_of_cons; [apply elem_of_seqZ; lia|auto].
Qed.
End lists.

(** ** Preservation *)

Lemma slice_eq c h :
  active_slice c h = slice (active_list c) (Z.to_nat (h * num_sources c)) (Z.to_nat (at_ (active_count c) h)).
Proof. reflexivity. Qed.

(** Operations that leave the enables, the controls and the lists alone. *)
Lemma inv_frame c c' :
  clic_inv c → num_harts c' = num_harts c → num_sources c' = num_sources c →
  clicintctlbits c' = clicintctlbits c → length (clicintip c') = length (clicintip c) →
  clicintie c' = clicintie c → clicintctl c' = clicintctl c → active_list c' = active_list c →
  active_count c' = active_count c → nlbits c' = nlbits c → clic_inv c'.
Proof.
  intros [[] Hctl Hnl Hcnt Hact] E1 E2 E3 E4 E5 E6 E7 E8 E9.
  split; [split|..]; rewrite ?E1, ?E2, ?E3, ?E4, ?E5, ?E6, ?E7, ?E8, ?E9; try done.
  intros h Hh. specialize (Hact h Hh). rewrite slice_eq, E2, E7, E8, <- slice_eq.
  destruct Hact as [? ? He]. split; [done|done|]. intros a. rewrite He.
  unfold on, entry, irq_at, entry_of, xt_clic_intctl_effective, xt_clic_intctl_mask.
  by rewrite E2, E3, E5, E6.
Qed.

Lemma next_inv c h : clic_inv c → clic_inv (xt_clic_next_interrupt c h).
Proof. intros Hc. by eapply inv_frame. Qed.

(** Positions of another hart. *)
Definition elsewhere (c : XTCLICState) (h : Z) (j : nat) : Prop :=
  Z.of_nat j < h * num_sources c ∨ h * num_sources c + num_sources c ≤ Z.of_nat j.

Lemma other_hart c h h' i :
  0 ≤ h' → 0 ≤ h → h' ≠ h → 0 ≤ i < num_sources c → elsewhere c h (Z.to_nat (irq_at c h' i)).
Proof. intros. unfold elsewhere, irq_at. destruct (Z.lt_trichotomy h' h) as [?|[?|?]]; nia. Qed.

Section relist.
Variables (c c' : XTCLICState) (h : Z) (N : list CLICActiveInterrupt).
Hypothesis Hc : clic_inv c.
Hypothesis Hh : 0 ≤ h < num_harts c.
Hypothesis Hnh : num_harts c' = num_harts c.
Hypothesis Hns : num_sources c' = num_sources c.
Hypothesis Hbits : clicintctlbits c' = clicintctlbits c.
Hypothesis Hip : length (clicintip c') = length (clicintip c).
Hypothesis Hielen : length (clicintie c') = length (clicintie c).
Hypothesis Hctllen : length (clicintctl c') = length (clicintctl c).
Hypothesis Hactlen : length (active_list c') = length (active_list c).
Hypothesis Hnl : nlbits c' = nlbits c.
Hypothesis Hie : ∀ j, elsewhere c h j → clicintie c' !! j = clicintie c !! j.
Hypothesis Hctl : ∀ j, elsewhere c h j → clicintctl c' !! j = clicintctl c !! j.
Hypothesis Hlist : ∀ j, elsewhere c h j → active_list c' !! j = active_list c !! j.
Hypothesis Hcount : active_count c' = put (active_count c) h (Z.of_nat (length N)).
Hypothesis HN : slice (active_list c') (Z.to_nat (h * num_sources c)) (length N) = N.
Hypothesis Hok : active_ok c' h N.
Hypothesis Hu8 : ∀ i, 0 ≤ i < num_sources c → uint 8 (at_ (clicintctl c') (irq_at c h i)).

Lemma relist_other h' i :
  0 ≤ h' < num_harts c → h' ≠ h → 0 ≤ i < num_sources c →
  at_ (clicintctl c') (irq_at c h' i) = at_ (clicintctl c) (irq_at c h' i) ∧
  at_ (clicintie c') (irq_at c h' i) = at_ (clicintie c) (irq_at c h' i).
Proof.
  intros Hh' Hne Hi. pose proof (other_hart c h h' i ltac:(lia) ltac:(lia) Hne Hi) as Ho.
  unfold at_. by rewrite !list_lookup_total_alt, Hctl, Hie.
Qed.

Lemma relist_at h' i : irq_at c' h' i = irq_at c h' i.
Proof. unfold irq_at. by rewrite Hns. Qed.

Lemma relist_on h' i : 0 ≤ h' < num_harts c → h' ≠ h → on c' h' i ↔ on c h' i.
Proof.
  intros Hh' Hne. unfold on. rewrite relist_at, Hns. split; intros [Hi Ho]; (split; [done|]);
    by rewrite (proj2 (relist_other h' i Hh' Hne Hi)) in *.
Qed.

Lemma relist_entry h' i :
  0 ≤ h' < num_harts c → h' ≠ h → 0 ≤ i < num_sources c → entry c' h' i = entry c h' i.
Proof.
  intros Hh' Hne Hi. unfold entry, entry_of, xt_clic_intctl_effective, xt_clic_intctl_mask.
  by rewrite Hbits, relist_at, (proj1 (relist_other h' i Hh' Hne Hi)).
Qed.

Lemma relist_slice h' :
  0 ≤ h' < num_harts c → h' ≠ h → active_slice c' h' = active_slice c h'.
Proof.
  intros Hh' Hne. rewrite !slice_eq, Hns, Hcount, at_put_ne by lia. apply list_eq. intros i.
  rewrite !slice_lookup. destruct (decide _) as [Hi|]; [|done]. apply Hlist.
  pose proof (ci_count c Hc h' Hh'). destruct (ci_sizes c Hc).
  pose proof (other_hart c h h' (Z.of_nat i) ltac:(lia) ltac:(lia) Hne ltac:(lia)) as Ho.
  unfold elsewhere, irq_at in *. lia.
Qed.

Lemma relist_inv : clic_inv c'.
Proof.
  pose proof Hc as [[] Hctl0 Hnl0 Hcnt0 Hact0].
  assert ((length N ≤ Z.to_nat (num_sources c))%nat) as HNlen.
  { rewrite <- Hns. by apply (active_length c' h N). }
  split.
  - split; rewrite ?Hnh, ?Hns, ?Hbits, ?Hip, ?Hielen, ?Hctllen, ?Hactlen, ?Hnl, ?Hcount; try done.
    unfold put. by rewrite length_insert.
  - intros i Hi. rewrite Hnh, Hns in Hi.
    assert (∃ h' i', i = irq_at c h' i' ∧ 0 ≤ h' < num_harts c ∧ 0 ≤ i' < num_sources c) as (h' & i' & -> & Hh' & Hi').
    { exists (i / num_sources c), (i mod num_sources c). unfold irq_at.
      pose proof (Z.div_mod i (num_sources c) ltac:(lia)). pose proof (Z.mod_pos_bound i (num_sources c) ltac:(lia)).
      split_and!; [lia| |apply Z.div_lt_upper_bound; lia|lia|lia]. apply Z.div_pos; lia. }
    destruct (decide (h' = h)) as [->|Hne]; [auto|].
    destruct (relist_other h' i' Hh' Hne Hi') as [-> _]. by apply Hctl0.
  - intros h' Hh'. rewrite Hnl. rewrite Hnh in Hh'. auto.
  - intros h' Hh'. rewrite Hnh in Hh'. rewrite Hns, Hcount. destruct (decide (h' = h)) as [->|Hne].
    + rewrite at_put_eq by lia. lia.
    + rewrite at_put_ne by lia. auto.
  - intros h' Hh'. rewrite Hnh in Hh'. destruct (decide (h' = h)) as [->|Hne].
    + rewrite slice_eq, Hns, Hcount, at_put_eq, Nat2Z.id, HN by lia. done.
    + rewrite relist_slice by done. destruct (Hact0 h' Hh') as [? ? He]. split; [done|done|].
      intros a. rewrite He. apply exist_proper. intros i. rewrite relist_on by done.
      split; (intros [Hon ->]; split; [done|]); by rewrite relist_entry by (done || apply Hon).
Qed.
End relist.

(** Sorting the entries of a hart in place. *)
Definition resort (l : list CLICActiveInterrupt) (off : Z) (n : nat) : list CLICActiveInterrupt :=
  splice l off (qsort (slice l (Z.to_nat off) n)).

Lemma resort_spec l off n :
  0 ≤ off → off + Z.of_nat n ≤ Z.of_nat (length l) →
  length (resort l off n) = length l ∧
  slice (resort l off n) (Z.to_nat off) n = qsort (slice l (Z.to_nat off) n) ∧
  ∀ j, Z.of_nat j < off ∨ off + Z.of_nat n ≤ Z.of_nat j → resort l off n !! j = l !! j.
Proof.
  intros H0 Hn. unfold resort. set (q := qsort _).
  assert (length q = n) as Hq.
  { unfold q. rewrite (Permutation_length (qsort_perm _)). apply slice_length. lia. }
  split_and!.
  - apply splice_length; lia.
  - apply list_eq. intros i. rewrite slice_lookup, splice_lookup by lia. rewrite Hq.
    destruct (decide (i < n)%nat).
    + rewrite decide_False, decide_True by lia. f_equal. lia.
    + symmetry. apply lookup_ge_None_2. lia.
  - intros j Hj. rewrite splice_lookup, Hq by lia. destruct (decide _); [done|].
    by rewrite decide_False by lia.
Qed.

Lemma active_ok_perm c h N N' :
  N ≡ₚ N' → StronglySorted before N → NoDup (a_irq <$> N') →
  (∀ a, a ∈ N' ↔ ∃ i, on c h i ∧ a = entry c h i) → active_ok c h N.
Proof. intros Hp Hs Hn He. split; [done|by rewrite Hp|]. intros a. by rewrite Hp. Qed.

Lemma slice_put_last {A} (l : list A) o n v :
  (o + n < length l)%nat → slice (<[(o + n)%nat := v]> l) o (S n) = slice l o n ++ [v].
Proof.
  intros Hl. assert (length (slice l o n) = n) as Hlen by (apply slice_length; lia).
  apply list_eq. intros i. rewrite slice_lookup. destruct (decide (i < S n)%nat) as [Hi|Hi].
  - destruct (decide (i = n)) as [->|Hne].
    + rewrite list_lookup_insert_eq by lia. by rewrite lookup_app_r, Hlen, Nat.sub_diag by lia.
    + rewrite list_lookup_insert_ne, lookup_app_l by lia. rewrite slice_lookup. by rewrite decide_True by lia.
  - symmetry. apply lookup_ge_None_2. rewrite length_app, Hlen. simpl. lia.
Qed.

Section hart.
Variables (c : XTCLICState) (h : Z).
Hypothesis Hc : clic_inv c.
Hypothesis Hh : 0 ≤ h < num_harts c.
#[local] Abbreviation A := (active_slice c h).
#[local] Abbreviation off := (h * num_sources c).

Lemma hart_bounds : 0 ≤ off ∧ off + num_sources c ≤ num_harts c * num_sources c.
Proof. destruct (ci_sizes c Hc). nia. Qed.

Lemma A_length : Z.of_nat (length A) = at_ (active_count c) h.
Proof.
  pose proof hart_bounds. pose proof (ci_count c Hc h Hh). destruct (ci_sizes c Hc).
  rewrite slice_eq, slice_length; lia.
Qed.

Lemma A_slice : slice (active_list c) (Z.to_nat off) (length A) = A.
Proof. etransitivity; [|symmetry; apply slice_eq]. f_equal. pose proof A_length. lia. Qed.

Lemma irq_elsewhere i j : 0 ≤ i < num_sources c → elsewhere c h j → Z.to_nat (irq_at c h i) ≠ j.
Proof. unfold elsewhere, irq_at. pose proof hart_bounds. lia. Qed.

Lemma irq_bounds i : 0 ≤ i < num_sources c → 0 ≤ irq_at c h i < num_harts c * num_sources c.
Proof. unfold irq_at. pose proof hart_bounds. lia. Qed.

Lemma irq_at_inj i j : irq_at c h i = irq_at c h j → i = j.
Proof. unfold irq_at. lia. Qed.

Lemma put_elsewhere {B} (l : list B) i v j :
  0 ≤ i < num_sources c → elsewhere c h j → put l (irq_at c h i) v !! j = l !! j.
Proof. intros Hi Hj. unfold put. apply list_lookup_insert_ne. by apply irq_elsewhere. Qed.

(** What enabling, disabling and changing a priority have in common: the
    entries [S] of the hart are sorted in place in the list [L1]. *)
Section resorted.
Variables (c2 : XTCLICState) (L1 S : list CLICActiveInterrupt).
Hypothesis Hparams : num_harts c2 = num_harts c ∧ num_sources c2 = num_sources c ∧
  clicintctlbits c2 = clicintctlbits c ∧ nlbits c2 = nlbits c ∧ length (clicintip c2) = length (clicintip c).
Hypothesis Hie : length (clicintie c2) = length (clicintie c) ∧
  ∀ j, elsewhere c h j → clicintie c2 !! j = clicintie c !! j.
Hypothesis Hctl : length (clicintctl c2) = length (clicintctl c) ∧
  ∀ j, elsewhere c h j → clicintctl c2 !! j = clicintctl c !! j.
Hypothesis HL1 : length L1 = length (active_list c) ∧
  ∀ j, elsewhere c h j → L1 !! j = active_list c !! j.
Hypothesis HS : slice L1 (Z.to_nat off) (length S) = S.
Hypothesis Hbound : Z.of_nat (length S) ≤ num_sources c.
Hypothesis Hlist : active_list c2 = resort L1 off (length S).
Hypothesis Hcount : active_count c2 = put (active_count c) h (Z.of_nat (length S)).
Hypothesis Hnodup : NoDup (a_irq <$> S).
Hypothesis Helem : ∀ a, a ∈ S ↔ ∃ i, on c2 h i ∧ a = entry c2 h i.
Hypothesis Hu8 : ∀ i, 0 ≤ i < num_sources c → uint 8 (at_ (clicintctl c2) (irq_at c h i)).

Lemma resorted_inv : clic_inv c2.
Proof.
  destruct Hparams as (P1 & P2 & P3 & P4 & P5), Hie as [I1 I2], Hctl as [C1 C2], HL1 as [L2 L3].
  pose proof hart_bounds. pose proof (ci_sizes c Hc) as [].
  destruct (resort_spec L1 off (length S)) as (R1 & R2 & R3); [lia|lia|].
  pose proof (Permutation_length (qsort_perm S)) as Hql.
  eapply (relist_inv c c2 h (qsort S)); try done.
  - by rewrite Hlist, R1.
  - intros j Hj. rewrite Hlist, R3 by (unfold elsewhere in Hj; lia). auto.
  - by rewrite Hql.
  - by rewrite Hql, Hlist, R2, HS.
  - by apply (active_ok_perm _ _ _ S); [apply qsort_perm|apply qsort_sorted|..].
Qed.
End resorted.

(** The enables after one is changed. *)
Lemma on_put c2 i v j :
  num_sources c2 = num_sources c → clicintie c2 = put (clicintie c) (irq_at c h i) v →
  0 ≤ i < num_sources c → on c2 h j ↔ (j = i ∧ v ≠ 0) ∨ (j ≠ i ∧ on c h j).
Proof.
  intros Hns He Hi. pose proof (irq_bounds i Hi) as Hb. pose proof (ci_sizes c Hc) as [].
  unfold on. assert (irq_at c2 h j = irq_at c h j) as -> by (unfold irq_at; by rewrite Hns).
  rewrite Hns, He. destruct (decide (j = i)) as [->|Hne].
  - rewrite at_put_eq by lia. naive_solver.
  - split; intros Hx.
    + right. split; [done|]. destruct Hx as [Hj Hx]. split; [done|]. pose proof (irq_bounds j Hj).
      rewrite at_put_ne in Hx; [done|lia|lia|]. by intros He2%irq_at_inj.
    + destruct Hx as [[? _]|[_ [Hj Hx]]]; [done|]. split; [done|]. pose proof (irq_bounds j Hj).
      rewrite at_put_ne; [done|lia|lia|]. by intros He2%irq_at_inj.
Qed.

(** *** Enabling *)

Lemma enable_inv i :
  0 ≤ i < num_sources c → ¬ on c h i →
  clic_inv (xt_clic_enable_irq (c <| clicintie := put (clicintie c) (irq_at c h i) 1 |>) (h + hartid_base c) i).
Proof.
  intros Hi Hoff. pose proof (ci_active c Hc h Hh) as HA. pose proof (ci_sizes c Hc) as [].
  destruct (active_length c h A HA) as [_ Hlt]. specialize (Hlt i Hi Hoff).
  pose proof A_length as Hlen. pose proof hart_bounds as Hb.
  unfold xt_clic_enable_irq, xt_clic_get_hartid_internal. cbn [hartid_base set_field].
  replace (h + hartid_base c - hartid_base c) with h by lia. set (c1 := c <| clicintie := _ |>).
  change (entry_of c1 i (at_ (clicintctl c1) (i + h * num_sources c1))) with (entry c h i).
  change (at_ (active_count c1) h) with (at_ (active_count c) h). change (num_sources c1) with (num_sources c).
  change (active_list c1) with (active_list c). change (active_count c1) with (active_count c).
  match goal with |- clic_inv ?x => set (c2 := x) end.
  assert (length (A ++ [entry c h i]) = S (length A)) as HSl by (rewrite length_app; simpl; lia).
  apply (resorted_inv c2 (put (active_list c) (off + at_ (active_count c) h) (entry c h i)) (A ++ [entry c h i]));
    rewrite ?HSl; try done.
  - split; [apply length_insert|]. intros j Hj. by apply put_elsewhere.
  - split; [apply length_insert|]. intros j Hj. apply list_lookup_insert_ne. unfold elsewhere in Hj. lia.
  - unfold put. replace (Z.to_nat (off + _)) with (Z.to_nat off + length A)%nat by lia.
    rewrite slice_put_last by lia. by rewrite A_slice.
  - lia.
  - unfold c2, resort. cbn [active_list set_field]. f_equal. f_equal. rewrite slice_eq.
    cbn [active_list active_count num_sources set_field c1]. rewrite at_put_eq by lia. f_equal. lia.
  - unfold c2. cbn [active_count set_field]. f_equal. lia.
  - rewrite fmap_app. apply NoDup_app. split_and!; [apply HA| |apply NoDup_singleton].
    intros x (a & -> & (j & Hj & ->)%(ao_elem _ _ _ HA))%list_elem_of_fmap Hx%list_elem_of_singleton.
    simpl in Hx. by subst.
  - intros a. rewrite elem_of_app, list_elem_of_singleton, (ao_elem _ _ _ HA).
    change (entry c2 h) with (entry c h). setoid_rewrite (on_put c2 i 1); [|done..]. split.
    + intros [(j & Hj & ->)| ->]; [|exists i; auto]. exists j. split; [|done].
      destruct (decide (j = i)) as [->|]; auto.
    + intros (j & [[-> _]|[_ Hj]] & ->); [by right|left; eauto].
  - intros j Hj. apply (ci_ctl c Hc). by apply irq_bounds.
Qed.

(** *** Disabling *)

Lemma slice_drop_one {B} (l : list B) o n k :
  (k < n)%nat → (o + n ≤ length l)%nat →
  slice (splice l (Z.of_nat (o + k)) (drop (S k) (slice l o n))) o (n - 1) = delete k (slice l o n).
Proof.
  intros Hk Hl. set (A := slice l o n). assert (length A = n) as HA by by apply slice_length.
  apply list_eq. intros i. rewrite slice_lookup, splice_lookup by (rewrite ?length_drop; lia).
  rewrite Nat2Z.id, length_drop, HA. destruct (decide (i < n - 1)%nat).
  - destruct (decide (o + i < o + k)%nat).
    + rewrite list_lookup_delete_lt by lia. unfold A. rewrite slice_lookup. by rewrite decide_True by lia.
    + rewrite decide_True by lia. rewrite list_lookup_delete_ge by lia. rewrite lookup_drop. f_equal. lia.
  - symmetry. apply lookup_ge_None_2. rewrite length_delete by (rewrite lookup_lt_is_Some; lia). lia.
Qed.

Lemma disable_inv i :
  on c h i →
  ∃ c', xt_clic_disable_irq (c <| clicintie := put (clicintie c) (irq_at c h i) 0 |>) (h + hartid_base c) i = Some c' ∧
        clic_inv c'.
Proof.
  intros Hon. pose proof Hon as [Hi _]. pose proof (ci_active c Hc h Hh) as HA. pose proof (ci_sizes c Hc) as [].
  destruct (active_length c h A HA) as [Hle _]. pose proof A_length as Hlen. pose proof hart_bounds as Hb.
  destruct (active_search c h A Hc Hh HA i Hon) as (k & Hk & Hs).
  unfold xt_clic_disable_irq, xt_clic_get_hartid_internal. cbn [hartid_base set_field].
  replace (h + hartid_base c - hartid_base c) with h by lia. set (c1 := c <| clicintie := _ |>).
  change (entry_of c1 i (at_ (clicintctl c1) (i + h * num_sources c1))) with (entry c h i).
  change (active_slice c1 h) with A. rewrite Hs. eexists. split; [reflexivity|].
  change (at_ (active_count c1) h) with (at_ (active_count c) h). change (num_sources c1) with (num_sources c).
  change (active_list c1) with (active_list c). change (active_count c1) with (active_count c).
  match goal with |- clic_inv ?x => set (c2 := x) end.
  pose proof (lookup_lt_Some _ _ _ Hk) as Hkl.
  assert (length (delete k A) = (length A - 1)%nat) as HSl by (rewrite length_delete by (by eexists); lia).
  assert (slice (splice (active_list c) (off + Z.of_nat k) (drop (S k) A)) (Z.to_nat off) (length A - 1) = delete k A) as HSd.
  { pose proof (slice_drop_one (active_list c) (Z.to_nat off) (length A) k Hkl ltac:(lia)) as Hd.
    rewrite A_slice in Hd. by replace (Z.of_nat (Z.to_nat off + k)) with (off + Z.of_nat k) in Hd by lia. }
  assert (∀ a, a ∈ delete k A ↔ a ∈ A ∧ a ≠ entry c h i) as Hdel.
  { intros a. pose proof (active_NoDup c h A HA) as Hnd. rewrite (delete_Permutation _ _ _ Hk) in Hnd.
    apply NoDup_cons in Hnd as [Hnew _]. rewrite (delete_Permutation _ _ _ Hk) at 2. rewrite elem_of_cons.
    split; [|naive_solver]. intros Ha. split; [by right|]. by intros ->. }
  apply (resorted_inv c2 (splice (active_list c) (off + Z.of_nat k) (drop (S k) A)) (delete k A));
    rewrite ?HSl; try done.
  - split; [apply length_insert|]. intros j Hj. by apply put_elsewhere.
  - split; [apply splice_length; rewrite ?length_drop; lia|]. intros j Hj. unfold elsewhere in Hj.
    rewrite splice_lookup by (rewrite ?length_drop; lia). rewrite length_drop.
    destruct (decide _); [done|]. by rewrite decide_False by lia.
  - lia.
  - unfold c2, resort. cbn [active_list set_field]. f_equal. f_equal. rewrite slice_eq.
    cbn [active_list active_count num_sources set_field c1]. rewrite at_put_eq by lia. f_equal. lia.
  - unfold c2. cbn [active_count set_field]. f_equal. lia.
  - pose proof (ao_nodup _ _ _ HA) as Hnd. rewrite (delete_Permutation _ _ _ Hk) in Hnd. simpl in Hnd.
    by apply NoDup_cons in Hnd as [_ ?].
  - intros a. rewrite Hdel, (ao_elem _ _ _ HA). change (entry c2 h) with (entry c h).
    setoid_rewrite (on_put c2 i 0); [|done..]. split.
    + intros [(j & Hj & ->) Hne]. exists j. split; [right; split; [by intros ->|done]|done].
    + intros (j & [[_ ?]|[Hne Hj]] & ->); [done|]. split; [eauto|]. intros He. apply Hne.
      apply (f_equal a_irq) in He. done.
  - intros j Hj. apply (ci_ctl c Hc). by apply irq_bounds.
Qed.

(** *** Changing a priority *)

(** The entries after one control is changed. *)
Lemma entry_put c2 i v j :
  num_sources c2 = num_sources c → clicintctlbits c2 = clicintctlbits c →
  clicintctl c2 = put (clicintctl c) (irq_at c h i) v → 0 ≤ i < num_sources c → 0 ≤ j < num_sources c →
  entry c2 h j = if decide (j = i) then entry_of c i v else entry c h j.
Proof.
  intros Hns Hbits He Hi Hj. pose proof (irq_bounds i Hi). pose proof (irq_bounds j Hj). pose proof (ci_sizes c Hc) as [].
  unfold entry, entry_of, xt_clic_intctl_effective, xt_clic_intctl_mask.
  assert (irq_at c2 h j = irq_at c h j) as -> by (unfold irq_at; by rewrite Hns).
  rewrite Hbits, He. destruct (decide (j = i)) as [->|Hne].
  - by rewrite at_put_eq by lia.
  - rewrite at_put_ne; [done|lia|lia|]. by intros Hx%irq_at_inj.
Qed.

Lemma ctl_put_uint i v j :
  0 ≤ i < num_sources c → uint 8 v → 0 ≤ j < num_sources c →
  uint 8 (at_ (put (clicintctl c) (irq_at c h i) v) (irq_at c h j)).
Proof.
  intros Hi Hv Hj. pose proof (irq_bounds i Hi). pose proof (irq_bounds j Hj). pose proof (ci_sizes c Hc) as [].
  destruct (decide (i = j)) as [->|Hne]; [by rewrite at_put_eq by lia|].
  rewrite at_put_ne; [by apply (ci_ctl c Hc)|lia|lia|]. by intros Hx%irq_at_inj.
Qed.

Lemma slice_put {B} (l : list B) o n k v :
  (k < n)%nat → slice (<[(o + k)%nat := v]> l) o n = <[k := v]> (slice l o n).
Proof.
  intros Hk. apply list_eq. intros i. rewrite slice_lookup. destruct (decide (i = k)) as [->|Hne].
  - rewrite decide_True by done. destruct (decide (o + k < length l)%nat).
    + rewrite list_lookup_insert_eq, list_lookup_insert_eq; [done| |done].
      unfold slice. rewrite length_take, length_drop. lia.
    + rewrite !lookup_ge_None_2; [done| |]; rewrite length_insert; [|lia].
      unfold slice. rewrite length_take, length_drop. lia.
  - rewrite !list_lookup_insert_ne, slice_lookup by lia. done.
Qed.

Lemma intctl_on_inv i v :
  on c h i → uint 8 v → clic_inv (xt_clic_update_intctl c (h + hartid_base c) i v).
Proof.
  intros Hon Hv. pose proof Hon as [Hi _]. pose proof (ci_active c Hc h Hh) as HA. pose proof (ci_sizes c Hc) as [].
  destruct (active_length c h A HA) as [Hle _]. pose proof A_length as Hlen. pose proof hart_bounds as Hb.
  destruct (active_search c h A Hc Hh HA i Hon) as (k & Hk & Hs). pose proof (lookup_lt_Some _ _ _ Hk) as Hkl.
  unfold xt_clic_update_intctl, xt_clic_get_hartid_internal. apply next_inv.
  replace (h + hartid_base c - hartid_base c) with h by lia.
  change (entry_of c i (at_ (clicintctl c) (i + off))) with (entry c h i). rewrite Hs, (wrap_small 8 v) by done.
  assert (at_ (active_list c) (off + Z.of_nat k) = entry c h i) as Hat.
  { unfold at_. apply list_lookup_total_correct. rewrite <- Hk. rewrite slice_eq, slice_lookup, decide_True by lia.
    f_equal. lia. }
  rewrite Hat. change (mk_active _ (a_irq (entry c h i))) with (entry_of c i v).
  match goal with |- clic_inv ?x => set (c2 := x) end.
  apply (resorted_inv c2 (put (active_list c) (off + Z.of_nat k) (entry_of c i v)) (<[k := entry_of c i v]> A));
    rewrite ?length_insert; try done.
  - split; [apply length_insert|]. intros j Hj. by apply put_elsewhere.
  - split; [apply length_insert|]. intros j Hj. unfold put. apply list_lookup_insert_ne. unfold elsewhere in Hj. lia.
  - unfold put. replace (Z.to_nat (off + Z.of_nat k)) with (Z.to_nat off + k)%nat by lia.
    rewrite slice_put by done. by rewrite A_slice.
  - lia.
  - unfold c2, resort. cbn [active_list set_field]. f_equal. f_equal. rewrite slice_eq.
    cbn [active_list active_count num_sources set_field]. f_equal. lia.
  - unfold c2. cbn [active_count set_field]. rewrite Hlen. unfold put, at_. symmetry.
    apply list_insert_id. rewrite list_lookup_lookup_total_lt by lia. done.
  - rewrite list_fmap_insert, (list_insert_id _ k); [apply HA|]. by rewrite list_lookup_fmap, Hk.
  - intros a. assert (∀ j, on c2 h j ↔ on c h j) as Hon2 by done.
    pose proof (λ j, entry_put c2 i v j eq_refl eq_refl eq_refl Hi) as Hent. split.
    + intros (j & Hj)%list_elem_of_lookup. destruct (decide (j = k)) as [->|Hne].
      * rewrite list_lookup_insert_eq in Hj by done. injection Hj as <-. exists i.
        split; [done|]. by rewrite Hent, decide_True by done.
      * rewrite list_lookup_insert_ne in Hj by done.
        pose proof (list_elem_of_lookup_2 _ _ _ Hj) as (i' & Hi' & ->)%(ao_elem _ _ _ HA).
        exists i'. split; [done|]. rewrite Hent by apply Hi'. rewrite decide_False; [done|].
        intros ->. apply Hne. eapply NoDup_lookup; [by eapply active_NoDup|done|done].
    + intros (i' & Hi' & ->). rewrite Hent by apply Hi'. destruct (decide (i' = i)) as [->|Hne].
      * apply list_elem_of_lookup. exists k. by rewrite list_lookup_insert_eq by done.
      * assert (entry c h i' ∈ A) as [k' Hk']%list_elem_of_lookup by (apply HA; eauto).
        apply list_elem_of_lookup. exists k'. rewrite list_lookup_insert_ne; [done|]. intros ->.
        rewrite Hk in Hk'. injection Hk' as He. congruence.
  - intros j Hj. by apply ctl_put_uint.
Qed.

Lemma intctl_off_inv i v :
  0 ≤ i < num_sources c → ¬ on c h i → uint 8 v → clic_inv (xt_clic_update_intctl c (h + hartid_base c) i v).
Proof.
  intros Hi Hoff Hv. pose proof (ci_active c Hc h Hh) as HA. pose proof (ci_sizes c Hc) as [].
  destruct (active_length c h A HA) as [Hle _]. pose proof A_length as Hlen.
  unfold xt_clic_update_intctl, xt_clic_get_hartid_internal. apply next_inv.
  replace (h + hartid_base c - hartid_base c) with h by lia.
  change (entry_of c i (at_ (clicintctl c) (i + off))) with (entry c h i).
  rewrite (active_absent c h A Hc Hh HA i Hi Hoff), (wrap_small 8 v) by done.
  match goal with |- clic_inv ?x => set (c2 := x) end.
  apply (relist_inv c c2 h A); try done.
  - apply length_insert.
  - intros j Hj. by apply put_elsewhere.
  - unfold c2. cbn [active_count set_field]. rewrite Hlen. unfold put, at_. symmetry.
    apply list_insert_id. rewrite list_lookup_lookup_total_lt by lia. done.
  - apply A_slice.
  - pose proof (λ j, entry_put c2 i v j eq_refl eq_refl eq_refl Hi) as Hent.
    destruct HA as [? ? He]. split; [done|done|]. intros a. rewrite He.
    assert (∀ j, on c h j → entry c2 h j = entry c h j) as Hsame.
    { intros j Hj. rewrite Hent by apply Hj. rewrite decide_False; [done|]. by intros ->. }
    split; intros (j & Hj & ->); exists j; (split; [done|]); by rewrite Hsame.
  - intros j Hj. by apply ctl_put_uint.
Qed.

(** *** The handlers *)

Lemma ie_same_inv i v :
  0 ≤ i < num_sources c → (v ≠ 0 ↔ on c h i) → clic_inv (c <| clicintie := put (clicintie c) (irq_at c h i) v |>).
Proof.
  intros Hi Hsame. pose proof (ci_active c Hc h Hh) as HA. pose proof (ci_sizes c Hc) as [].
  pose proof A_length as Hlen. set (c2 := c <| clicintie := _ |>).
  apply (relist_inv c c2 h A); try done.
  - apply length_insert.
  - intros j Hj. by apply put_elsewhere.
  - unfold c2. cbn [active_count set_field]. rewrite Hlen. unfold put, at_. symmetry.
    apply list_insert_id. rewrite list_lookup_lookup_total_lt by lia. done.
  - apply A_slice.
  - destruct HA as [? ? He]. split; [done|done|]. intros a. rewrite He. apply exist_proper. intros j.
    change (entry c2 h) with (entry c h). rewrite (on_put c2 i v) by done.
    destruct (decide (j = i)) as [->|]; naive_solver.
  - intros j Hj. apply (ci_ctl c Hc). by apply irq_bounds.
Qed.

(** The parameters of the device, which no operation changes. *)
Definition same_params (c c' : XTCLICState) : Prop :=
  num_harts c' = num_harts c ∧ num_sources c' = num_sources c ∧ hartid_base c' = hartid_base c.

Lemma update_intie_inv i v :
  0 ≤ i < num_sources c →
  ∃ c', xt_clic_update_intie c (h + hartid_base c) i v = Some c' ∧ clic_inv c' ∧ same_params c c'.
Proof.
  intros Hi. unfold xt_clic_update_intie, xt_clic_get_hartid_internal.
  replace (h + hartid_base c - hartid_base c) with h by lia.
  replace (i + num_sources c * h) with (irq_at c h i) by (unfold irq_at; lia).
  set (o := at_ (clicintie c) (irq_at c h i)).
  assert (on c h i ↔ o ≠ 0) as Hon by (unfold on, o; naive_solver).
  destruct (Z.eqb_spec v 0) as [->|Hv]; cbn [negb andb]; destruct (Z.eqb_spec o 0) as [Ho|Ho]; cbn [negb andb];
    cbn [mbind option_bind].
  - eexists. split; [reflexivity|]. split; [|done]. apply next_inv, ie_same_inv; [done|]. naive_solver.
  - destruct (disable_inv i) as (c' & Hd & Hc'); [by apply Hon|]. rewrite Hd. cbn [mbind option_bind].
    eexists. split; [reflexivity|]. split; [by apply next_inv|].
    unfold xt_clic_disable_irq in Hd. destruct (bsearch _ _); [|done]. by injection Hd as <-.
  - eexists. split; [reflexivity|]. split; [|done]. apply next_inv, enable_inv; [done|]. naive_solver.
  - eexists. split; [reflexivity|]. split; [|done]. apply next_inv, ie_same_inv; [done|]. naive_solver.
Qed.

Lemma update_intip_inv i v : clic_inv (xt_clic_update_intip c h i v) ∧ same_params c (xt_clic_update_intip c h i v).
Proof. split; [|done]. apply next_inv. eapply inv_frame; [exact Hc|done..| | | | | |]; try done. apply length_insert. Qed.

Lemma write_field_inv i fld v :
  0 ≤ i < num_sources c → 0 ≤ fld < 4 → uint 8 v →
  ∃ c', xt_clic_write_int_field c (h + hartid_base c) h i fld v = Some c' ∧ clic_inv c' ∧ same_params c c'.
Proof.
  intros Hi Hf Hv. unfold xt_clic_write_int_field, BL808_CLIC_INT_IP, BL808_CLIC_INT_IE, BL808_CLIC_INT_ATTR, BL808_CLIC_INT_CTL.
  destruct (Z.eqb_spec fld 0).
  { destruct (_ && _); [|by exists c]. eexists. split; [reflexivity|apply update_intip_inv]. }
  destruct (Z.eqb_spec fld 1).
  { destruct (negb _); [by apply update_intie_inv|by exists c]. }
  destruct (Z.eqb_spec fld 2).
  { eexists. split; [reflexivity|]. split; [|done]. apply next_inv. by eapply inv_frame. }
  destruct (Z.eqb_spec fld 3); [|lia].
  destruct (negb _); [|by exists c]. eexists. split; [reflexivity|]. split.
  - assert (uint 8 (xt_clic_intctl_storage c v)) by (by apply uint_land_l).
    destruct (decide (at_ (clicintie c) (irq_at c h i) = 0)) as [Hz|Hnz].
    + apply intctl_off_inv; [done| |done]. by intros [_ ?].
    + by apply intctl_on_inv.
  - unfold xt_clic_update_intctl, same_params. by destruct (bsearch _ _).
Qed.
End hart.

Lemma write_fields_inv n c h i fld v :
  clic_inv c → 0 ≤ h < num_harts c → 0 ≤ i < num_sources c → 0 ≤ fld → fld + Z.of_nat n ≤ 4 →
  ∃ c', write_fields n c (h + hartid_base c) h i fld v = Some c' ∧ clic_inv c' ∧ same_params c c'.
Proof.
  revert c fld v. induction n as [|n IH]; intros c fld v Hc Hh Hi H0 Hf; [by exists c|]. cbn [write_fields].
  destruct (write_field_inv c h Hc Hh i fld (u8 v) Hi ltac:(lia) (uint_wrap 8 v ltac:(lia)))
    as (c1 & -> & Hc1 & E1 & E2 & E3). cbn [mbind option_bind].
  destruct (IH c1 (fld + 1) (Z.shiftr v 8) Hc1) as (c2 & Hw & Hc2 & F1 & F2 & F3);
    [by rewrite E1|by rewrite E2|lia|lia|].
  rewrite E3 in Hw. exists c2. split; [done|]. split; [done|]. split_and!; congruence.
Qed.

Lemma nlbits_inv c h v :
  clic_inv c → 0 ≤ h < num_harts c → 0 ≤ v ≤ 8 → clic_inv (c <| nlbits := put (nlbits c) h v |>).
Proof.
  intros [[] Hctl Hnl Hcnt Hact] Hh Hv. split; [split; try done; cbn; unfold put; by rewrite length_insert|exact Hctl| |exact Hcnt| ].
  2: { intros h' Hh'. destruct (Hact h' Hh') as [? ? He]. split; [done|done|]. intros a. exact (He a). }
  intros h' Hh'. cbn [nlbits num_harts set_field] in *. destruct (decide (h' = h)) as [->|Hne].
  { rewrite at_put_eq by lia. done. }
  rewrite at_put_ne by lia. auto.
Qed.

Lemma clic_write_inv c cpu addr value size :
  clic_inv c → 0 ≤ cpu - hartid_base c < num_harts c → 0 ≤ size →
  ∃ c', xt_clic_write c cpu addr value size = Some c' ∧ clic_inv c' ∧ same_params c c'.
Proof.
  intros Hc Hh Hsz. unfold xt_clic_write, xt_clic_get_hartid_internal. set (h := cpu - hartid_base c) in *.
  destruct (ci_sizes c Hc). destruct (addr =? BL808_CLIC_CFG_OFF).
  { eexists. split; [reflexivity|]. destruct (Z.leb_spec (Z.land (Z.shiftr (u32 value) 1) 0xf) 8) as [Hle|].
    - split; [|done]. apply next_inv. set (m := Z.min _ _).
      assert (0 ≤ Z.land (Z.shiftr (u32 value) 1) 15) by (apply Z.land_nonneg; by right).
      assert (0 ≤ m ≤ 8) as Hm by (unfold m; lia). rewrite wrap_small by (unfold uint; lia).
      by eapply inv_frame; [apply (nlbits_inv c h m)|..].
    - split; [|done]. apply next_inv. by eapply inv_frame. }
  destruct (addr =? BL808_CLIC_MINTTHRESH_OFF).
  { eexists. split; [reflexivity|]. split; [|done]. apply next_inv. by eapply inv_frame. }
  unfold xt_clic_decode_int_reg, BL808_CLIC_INT_OFF, BL808_CLIC_INT_STRIDE.
  destruct (Z.ltb_spec addr 0x1000); [by exists c|].
  destruct (Z.ltb_spec ((addr - 0x1000) / 4) (num_sources c)) as [Hlt|]; [|by exists c].
  destruct (Z.ltb_spec 4 ((addr - 0x1000) mod 4 + size)) as [|Hfit]; [by exists c|].
  pose proof (Z.mod_pos_bound (addr - 0x1000) 4 ltac:(lia)).
  assert (0 ≤ (addr - 0x1000) / 4) by (apply Z.div_pos; lia).
  replace cpu with (h + hartid_base c) by (unfold h; lia).
  apply write_fields_inv; try done; lia.
Qed.

(** ** Selection *)

Definition level_at (c : XTCLICState) (h i : Z) : Z :=
  xt_clic_get_interrupt_level c h (xt_clic_intctl_effective c (at_ (clicintctl c) (irq_at c h i))).

(** Interrupt [i] of hart [h] is enabled, pending, has a priority, and its level
    is above the threshold. *)
Definition candidate (c : XTCLICState) (h threshold i : Z) : Prop :=
  on c h i ∧ at_ (clicintip c) (irq_at c h i) ≠ 0 ∧
  xt_clic_intctl_priority_valid c (at_ (clicintctl c) (irq_at c h i)) = true ∧ threshold < level_at c h i.

(** Interrupt [i] goes before [j]: higher control value, then higher number. *)
Definition outranks (c : XTCLICState) (h i j : Z) : Prop :=
  let e k := xt_clic_intctl_effective c (at_ (clicintctl c) (irq_at c h k)) in
  e j < e i ∨ (e j = e i ∧ j ≤ i).

Section select.
Variables (c : XTCLICState) (h : Z).
Hypothesis Hc : clic_inv c.
Hypothesis Hh : 0 ≤ h < num_harts c.

Lemma ctl_uint i : 0 ≤ i < num_sources c → uint 8 (at_ (clicintctl c) (irq_at c h i)).
Proof. intros Hi. apply (ci_ctl c Hc). by apply irq_bounds. Qed.

Lemma eff_uint i : 0 ≤ i < num_sources c → uint 8 (xt_clic_intctl_effective c (at_ (clicintctl c) (irq_at c h i))).
Proof. intros Hi. apply effective_uint; [apply (ci_sizes c Hc)|by apply ctl_uint]. Qed.

Lemma before_outranks i j :
  0 ≤ i < num_sources c → 0 ≤ j < num_sources c → before (entry c h i) (entry c h j) ↔ outranks c h i j.
Proof.
  intros Hi Hj. unfold before, xt_clic_active_compare, outranks. rewrite !entry_code by done.
  destruct (ci_sizes c Hc). cbv zeta. lia.
Qed.

Lemma outranks_level i j :
  0 ≤ i < num_sources c → 0 ≤ j < num_sources c → outranks c h i j → level_at c h j ≤ level_at c h i.
Proof.
  intros Hi Hj Ho. pose proof (ci_nl c Hc h Hh). pose proof (cs_bits c (ci_sizes c Hc)).
  apply (level_of_mono (Z.min (at_ (nlbits c) h) (clicintctlbits c))); [lia|by apply eff_uint|by apply eff_uint|].
  unfold outranks in Ho. lia.
Qed.

Lemma entry_decode i :
  0 ≤ i < num_sources c → xt_clic_intcfg_decode c h (intcfg (entry c h i)) =
    (3, level_at c h i, xt_clic_intctl_effective c (at_ (clicintctl c) (irq_at c h i))).
Proof.
  intros Hi. pose proof (eff_uint i Hi) as He. unfold xt_clic_intcfg_decode, entry, entry_of. cbn [intcfg].
  rewrite PRV_M_is_3. set (e := xt_clic_intctl_effective _ _) in *.
  rewrite (lor_shiftl_add 8 3 e) by (done || lia). unfold uint in He.
  change 0xff with (Z.ones 8). rewrite Z.land_ones by lia.
  assert ((3 * 2 ^ 8 + e) mod 2 ^ 8 = e) as -> by (rewrite Z.add_comm, Z.mod_add, Z.mod_small; lia).
  rewrite Z.shiftr_div_pow2 by lia. rewrite (Z.add_comm (3 * 2 ^ 8)), Z.div_add, Z.div_small by lia. done.
Qed.

Lemma find_loop_spec th B :
  StronglySorted before B → (∀ a, a ∈ B → ∃ i, on c h i ∧ a = entry c h i) →
  match find_pending_loop c h th false B with
  | Some (a, lv) => ∃ i, a = entry c h i ∧ candidate c h th i ∧ lv = level_at c h i ∧
      ∀ j, entry c h j ∈ B → candidate c h th j → outranks c h i j
  | None => ∀ j, entry c h j ∈ B → ¬ candidate c h th j
  end.
Proof.
  intros Hs. induction Hs as [|a B Hs IH Hf]; intros Hent; cbn [find_pending_loop].
  { intros j Hj. set_solver. }
  destruct (Hent a) as (i & Hi & ->); [set_solver|]. pose proof Hi as [Hir _].
  specialize (IH ltac:(set_solver)). rewrite Forall_forall in Hf.
  assert (∀ j, entry c h j ∈ B → on c h j → outranks c h i j) as Hout.
  { intros j Hj [Hjr _]. apply before_outranks; [done|done|auto]. }
  assert (∀ j, entry c h j = entry c h i → j = i) as Hinj.
  { intros j He. by apply (f_equal a_irq) in He. }
  change (a_irq (entry c h i) + h * num_sources c) with (irq_at c h i).
  destruct (xt_clic_intctl_priority_valid c (at_ (clicintctl c) (irq_at c h i))) eqn:Hval; cbn [negb].
  2: { destruct (find_pending_loop c h th false B) as [[b lv]|].
       - destruct IH as (k & -> & Hk & -> & Hbest). exists k. split_and!; [done..|].
         intros j [Hj%Hinj|Hj]%elem_of_cons Hcj; [|auto]. subst j. destruct Hcj as (_ & _ & Hv & _). congruence.
       - intros j [Hj%Hinj|Hj]%elem_of_cons Hcj; [|by eapply IH]. subst j.
         destruct Hcj as (_ & _ & Hv & _). congruence. }
  rewrite entry_decode by done. destruct (Z.leb_spec (level_at c h i) th) as [Hlow|Hhigh].
  { intros j [Hj%Hinj|Hj]%elem_of_cons (Hon & _ & _ & Hlv); [subst j; lia|].
    pose proof (outranks_level i j Hir (proj1 Hon) (Hout j Hj Hon)). lia. }
  destruct (Z.eqb_spec (at_ (clicintip c) (irq_at c h i)) 0) as [Hz|Hp]; cbn [negb andb].
  - destruct (find_pending_loop c h th false B) as [[b lv]|].
    + destruct IH as (k & -> & Hk & -> & Hbest). exists k. split_and!; [done..|].
      intros j [Hj%Hinj|Hj]%elem_of_cons Hcj; [|auto]. subst j. by destruct Hcj as (_ & ? & _).
    + intros j [Hj%Hinj|Hj]%elem_of_cons Hcj; [|by eapply IH]. subst j. by destruct Hcj as (_ & ? & _).
  - exists i. split_and!; try done. intros j [Hj%Hinj|Hj]%elem_of_cons Hcj.
    + subst j. right. by split.
    + apply Hout; [done|apply Hcj].
Qed.

Lemma find_pending_spec th :
  match xt_clic_find_pending c h th false with
  | Some (a, lv) => ∃ i, a = entry c h i ∧ candidate c h th i ∧ lv = level_at c h i ∧
      ∀ j, candidate c h th j → outranks c h i j
  | None => ∀ j, ¬ candidate c h th j
  end.
Proof.
  pose proof (ci_active c Hc h Hh) as HA. unfold xt_clic_find_pending.
  pose proof (find_loop_spec th (active_slice c h) (ao_sorted _ _ _ HA)) as Hs.
  destruct (find_pending_loop _ _ _ _ _) as [[a lv]|].
  - destruct Hs as (i & -> & Hi & -> & Hb); [intros a0; apply HA|]. exists i. split_and!; [done..|].
    intros j Hj. apply Hb; [|done]. apply HA. exists j. split; [apply Hj|done].
  - intros j Hj. apply (Hs (λ a, proj1 (ao_elem _ _ _ HA a)) j); [|done]. apply HA. exists j. split; [apply Hj|done].
Qed.

Lemma level_uint i : 0 ≤ i < num_sources c → uint 8 (level_at c h i).
Proof.
  intros Hi. pose proof (ci_nl c Hc h Hh). pose proof (cs_bits c (ci_sizes c Hc)).
  unfold level_at. change (xt_clic_get_interrupt_level c h) with
    (level_of (Z.min (at_ (nlbits c) h) (clicintctlbits c))).
  unfold level_of. destruct (_ =? 0); [by unfold uint, UINT8_MAX|].
  apply uint_lor; [lia|apply uint_land_l; [lia|by apply eff_uint]|apply uint_wrap; lia].
Qed.
End select.

(** The exception code carries the level and the number of the interrupt. *)
Lemma exccode_roundtrip a lv :
  uint 8 lv → 0 ≤ a_irq a < 4096 → xt_clic_decode_exccode (encode_exccode a lv) = (3, lv, a_irq a).
Proof.
  intros Hlv Ha. unfold encode_exccode. rewrite PRV_M_is_3. unfold uint in Hlv.
  assert (Z.lor (Z.lor (a_irq a) (Z.shiftl 3 12)) (Z.shiftl lv 14) = lv * 2 ^ 14 + (3 * 2 ^ 12 + a_irq a)) as ->.
  { rewrite (Z.lor_comm (a_irq a)), lor_shiftl_add by (unfold uint; lia).
    rewrite Z.lor_comm, lor_shiftl_add by (unfold uint; lia). done. }
  set (x := lv * 2 ^ 14 + (3 * 2 ^ 12 + a_irq a)).
  assert (x / 2 ^ 12 = lv * 4 + 3) as H12.
  { symmetry. apply (Z.div_unique _ _ _ (a_irq a)); unfold x; lia. }
  assert (x / 2 ^ 14 = lv) as H14.
  { symmetry. apply (Z.div_unique _ _ _ (3 * 2 ^ 12 + a_irq a)); unfold x; lia. }
  unfold xt_clic_decode_exccode. change (Z.land (Z.shiftr x 12) 0x3) with (Z.land (Z.shiftr x 12) (Z.ones 2)).
  change 0xff with (Z.ones 8). change 0xfff with (Z.ones 12).
  rewrite !Z.land_ones, !Z.shiftr_div_pow2, H12, H14 by lia.
  assert ((lv * 4 + 3) mod 2 ^ 2 = 3) as -> by (symmetry; apply (Z.mod_unique _ _ lv); lia).
  rewrite (Z.mod_small lv) by lia. f_equal.
  symmetry. apply (Z.mod_unique _ _ (lv * 4 + 3)); unfold x; lia.
Qed.
End inv.

(** ** Runs of the controller *)

Section runs.
Context `{RiscvDefs}.

Inductive clic_op :=
  | CWrite (cpu addr value size : Z)
  | CSetIrq (n level : Z)
  | CClean (cpu irq : Z)
  | CMnxti (cpu : Z) (ack : bool)
  | CNext (cpu : Z).

Definition clic_step (c : XTCLICState) (op : clic_op) : option XTCLICState :=
  match op with
  | CWrite cpu addr value size => xt_clic_write c cpu addr value size
  | CSetIrq n level => Some (xt_clic_set_irq c n level)
  | CClean cpu irq => Some (xt_clic_clean_pending c cpu irq)
  | CMnxti cpu ack => Some (xt_clic_mnxti_read c cpu ack).2
  | CNext cpu => Some (xt_clic_get_next_interrupt c cpu)
  end.

(** The operation comes from a CPU that the controller serves. *)
Definition served (harts base : Z) (op : clic_op) : Prop :=
  match op with
  | CWrite cpu _ _ size => 0 ≤ cpu - base < harts ∧ 0 ≤ size
  | CSetIrq _ _ => True
  | CClean cpu _ | CMnxti cpu _ | CNext cpu => 0 ≤ cpu - base < harts
  end.

Lemma intip_frame c v : clic_inv c → length v = length (clicintip c) → clic_inv (c <| clicintip := v |>).
Proof. intros Hc Hl. by eapply inv_frame. Qed.

Lemma step_inv c op :
  clic_inv c → served (num_harts c) (hartid_base c) op →
  ∃ c', clic_step c op = Some c' ∧ clic_inv c' ∧ same_params c c'.
Proof.
  intros Hc Hop. destruct op as [cpu addr value size|n level|cpu irq|cpu ack|cpu]; cbn [clic_step].
  - destruct Hop. by apply clic_write_inv.
  - eexists. split; [reflexivity|]. unfold xt_clic_set_irq.
    destruct (negb _), (xt_clic_get_trigger_type _ _); try done; by apply update_intip_inv.
  - eexists. split; [reflexivity|]. split; [|done]. apply next_inv, intip_frame; [done|]. apply length_insert.
  - eexists. split; [reflexivity|]. unfold xt_clic_mnxti_read. destruct (negb _); [done|].
    destruct (xt_clic_find_pending _ _ _ _) as [[a lv]|]; [|done]. cbn [snd].
    destruct (_ && _).
    + split; [|done]. apply next_inv, intip_frame; [by eapply inv_frame|]. apply length_insert.
    + split; [|done]. by eapply inv_frame.
  - eexists. split; [reflexivity|]. split; [by apply next_inv|done].
Qed.

Fixpoint clic_run (c : XTCLICState) (ops : list clic_op) : option XTCLICState :=
  match ops with
  | [] => Some c
  | op :: ops => c ← clic_step c op; clic_run c ops
  end.

Lemma run_inv c ops :
  clic_inv c → Forall (served (num_harts c) (hartid_base c)) ops →
  ∃ c', clic_run c ops = Some c' ∧ clic_inv c' ∧ same_params c c'.
Proof.
  revert c. induction ops as [|op ops IH]; intros c Hc Hops; [by exists c|].
  apply Forall_cons in Hops as [Hop Hops]. destruct (step_inv c op Hc Hop) as (c1 & He & Hc1 & E1 & E2 & E3).
  cbn [clic_run]. rewrite He. cbn [mbind option_bind].
  destruct (IH c1 Hc1) as (c2 & He2 & Hc2 & F1 & F2 & F3); [by rewrite E1, E3|].
  exists c2. split; [done|]. split; [done|]. split_and!; congruence.
Qed.

Lemma replicate_at n i : 0 ≤ i < n → at_ (replicate (Z.to_nat n) 0) i = 0.
Proof. intros Hi. apply list_lookup_total_correct, lookup_replicate. split; [done|lia]. Qed.

Lemma realize_inv nv harts base sources bits cs :
  0 ≤ harts → 0 < sources ≤ 4096 → 0 ≤ bits ≤ 8 →
  clic_inv (xt_clic_realize nv harts base sources bits cs).
Proof.
  intros Hh Hs Hb. set (c := xt_clic_realize _ _ _ _ _ _). assert (0 ≤ harts * sources) by nia. split.
  - split; unfold c, xt_clic_realize; cbn; rewrite ?length_replicate; lia.
  - intros i Hi. unfold c, xt_clic_realize in *. cbn [clicintctl num_harts num_sources] in *.
    rewrite replicate_at by done. by vm_compute.
  - intros h Hr. unfold c, xt_clic_realize in *. cbn [nlbits num_harts] in *. rewrite replicate_at by done. lia.
  - intros h Hr. unfold c, xt_clic_realize in *. cbn [active_count num_sources num_harts] in *.
    rewrite replicate_at by done. lia.
  - intros h Hr. unfold c, xt_clic_realize in Hr. cbn [num_harts] in Hr. assert (active_slice c h = []) as ->.
    { unfold active_slice, c, xt_clic_realize. cbn [active_count]. by rewrite replicate_at. }
    split; [constructor|constructor|]. intros a. split; [set_solver|]. intros (i & [Hi Ho] & _).
    exfalso. apply Ho. unfold irq_at, c, xt_clic_realize in *. cbn [clicintie num_sources] in *.
    apply replicate_at. nia.
Qed.

(** ** Properties *)

(** C4: from [xt_clic_realize], any sequence of register writes, input changes
    and CPU requests runs through: the assertion of [xt_clic_disable_irq] never
    fails, and afterwards the active list of every hart holds exactly the
    enabled interrupts of that hart, each once, with its current priority, in
    decreasing order of priority. *)
Theorem clic_lists_track_enables nv harts base sources bits cs ops :
  0 ≤ harts → 0 < sources ≤ 4096 → 0 ≤ bits ≤ 8 → Forall (served harts base) ops →
  ∃ c, clic_run (xt_clic_realize nv harts base sources bits cs) ops = Some c ∧
    ∀ h, 0 ≤ h < harts →
      StronglySorted before (active_slice c h) ∧ NoDup (a_irq <$> active_slice c h) ∧
      ∀ a, a ∈ active_slice c h ↔ ∃ i, on c h i ∧ a = entry c h i.
Proof.
  intros Hh Hs Hb Hops. destruct (run_inv _ ops (realize_inv nv harts base sources bits cs Hh Hs Hb) Hops)
    as (c & He & Hc & E1 & _). exists c. split; [done|]. intros h Hr.
  destruct (ci_active c Hc h) as [H1 H2 H3]; [by rewrite E1|]. done.
Qed.

(** The interrupt selected above a threshold is the enabled, pending
    interrupt with a priority whose level exceeds the threshold that outranks
    every other such interrupt; nothing is selected exactly when there is
    none. *)
Theorem clic_selects_highest c h threshold :
  clic_inv c → 0 ≤ h < num_harts c →
  match xt_clic_find_pending c h threshold false with
  | Some (a, lv) => candidate c h threshold (a_irq a) ∧ lv = level_at c h (a_irq a) ∧
      ∀ j, candidate c h threshold j → outranks c h (a_irq a) j
  | None => ∀ j, ¬ candidate c h threshold j
  end.
Proof.
  intros Hc Hh. pose proof (find_pending_spec c h Hc Hh threshold) as Hs.
  destruct (xt_clic_find_pending c h threshold false) as [[a lv]|]; [|done].
  by destruct Hs as (i & -> & ? & -> & ?).
Qed.

(** C5: delivery.  [xt_clic_next_interrupt] requests a CLIC interrupt from the
    hart's CPU when some interrupt exceeds both the current level and the
    threshold register, and the exception code decodes to machine mode and the
    level and number of the highest such interrupt; outside a pending E902
    wake-up, the request is withdrawn when there is none. *)
Theorem clic_delivers_highest c h :
  clic_inv c → 0 ≤ h < num_harts c → 0 ≤ h + hartid_base c < Z.of_nat (length (cpus c)) →
  let env := at_ (cpus c) (h + hartid_base c) in
  let th := u8 (Z.max (get_field (mintstatus env) MINTSTATUS_MIL) (at_ (mintthresh c) h)) in
  let env' := at_ (cpus (xt_clic_next_interrupt c h)) (h + hartid_base c) in
  (∀ i, candidate c h th i → (∀ j, candidate c h th j → outranks c h i j) →
     clic_irq env' = true ∧ e902_wfi_wake_only env' = false ∧
     xt_clic_decode_exccode (exccode env') = (3, level_at c h i, i)) ∧
  ((∀ i, ¬ candidate c h th i) → e902_wfi_active env = false → clic_irq env' = false).
Proof.
  intros Hc Hh Hcpu env th env'. pose proof (find_pending_spec c h Hc Hh th) as Hs. unfold env', xt_clic_next_interrupt.
  cbn [cpus set_field]. rewrite at_put_eq by lia. fold env th.
  destruct (xt_clic_find_pending c h th false) as [[a lv]|].
  - destruct Hs as (k & -> & Hk & -> & Hbest). split; [|intros Hno; exfalso; by eapply Hno].
    intros i Hi Hb. assert (k = i) as ->.
    { specialize (Hbest i Hi). specialize (Hb k Hk). unfold outranks in *. cbv zeta in *. lia. }
    split; [done|]. split; [done|]. cbn [exccode set_field]. destruct Hi as [[Hi _] _].
    destruct (ci_sizes c Hc). apply exccode_roundtrip; [by apply level_uint|simpl; lia].
  - split; [intros i Hi; exfalso; by eapply Hs|]. intros _ Hwfi.
    rewrite Hwfi, andb_false_r. done.
Qed.
End runs.

(** ** Concrete controller *)

(** The fields of the CPU's registers, as in the XuanTie documentation. *)
Definition demo_defs : RiscvDefs :=
  {| PRV_M := 3; XLEN := 32; MINTSTATUS_MIL := 0xff000000; MCAUSE_MPIL := 0xff0000; E902_MEXSTATUS_WFE := 0x10;
     get_field := λ r m, Z.land r m / Z.land m (- m);
     put_field := λ r m v, Z.lor (clr r m) (Z.land (v * Z.land m (- m)) m);
     PRV_M_is_3 := eq_refl |}.

(** One hart, 16 sources, 4 control bits; interrupts 5 and 7 enabled and raised. *)
Definition clic0 : XTCLICState :=
  @xt_clic_realize true 1 0 16 4 [mk_cpu 0 0 0 0 0 3 false false false 0 false 0 false].
Definition ops0 : list clic_op :=
  [CWrite 0 0x0000 8 1; CWrite 0 0x1015 0x1 1; CWrite 0 0x1017 0x80 1; CWrite 0 0x101d 0x1 1;
   CWrite 0 0x101f 0xC0 1; CSetIrq 5 1; CSetIrq 7 1].

Lemma ops0_served : Forall (served 1 0) ops0.
Proof. repeat (apply Forall_cons; split; [cbn; intuition lia|]). constructor. Qed.

Lemma clic_lists_track_enables_witness :
  ∃ c, @clic_run demo_defs clic0 ops0 = Some c ∧ NoDup (a_irq <$> active_slice c 0) ∧
       active_slice c 0 = [mk_active 0x3CF 7; mk_active 0x38F 5].
Proof.
  destruct (@clic_lists_track_enables demo_defs true 1 0 16 4 [mk_cpu 0 0 0 0 0 3 false false false 0 false 0 false] ops0)
    as (c & He & Hl); [lia|lia|lia|exact ops0_served|].
  exists c. split; [exact He|]. split; [apply (Hl 0); lia|]. vm_compute in He. by injection He as <-.
Defined.

Definition clic1 : XTCLICState := default clic0 (@clic_run demo_defs clic0 ops0).

Lemma clic1_inv : @clic_inv demo_defs clic1.
Proof.
  destruct (@run_inv demo_defs clic0 ops0) as (c & He & Hc & _); [by apply realize_inv|exact ops0_served|].
  unfold clic1. by rewrite He.
Qed.

Lemma clic_selects_highest_witness :
  @xt_clic_find_pending clic1 0 0 false = Some (mk_active 0x3CF 7, 0xCF) ∧ candidate clic1 0 0 7.
Proof.
  split; [by vm_compute|].
  pose proof (@clic_selects_highest demo_defs clic1 0 0 clic1_inv) as Hs.
  specialize (Hs ltac:(vm_compute; split; congruence)).
  assert (xt_clic_find_pending clic1 0 0 false = Some (mk_active 0x3CF 7, 0xCF)) as He by by vm_compute.
  rewrite He in Hs. apply Hs.
Defined.

Lemma clic_delivers_highest_witness :
  let env' := at_ (cpus (@xt_clic_next_interrupt demo_defs clic1 0)) 0 in
  clic_irq env' = true ∧ xt_clic_decode_exccode (exccode env') = (3, 0xCF, 7).
Proof.
  assert (xt_clic_find_pending clic1 0 0 false = Some (mk_active 0x3CF 7, 0xCF)) as He by by vm_compute.
  pose proof (@find_pending_spec demo_defs clic1 0 clic1_inv ltac:(vm_compute; split; congruence) 0) as Hs.
  rewrite He in Hs. destruct Hs as (i & Ha & Hi & Hlv & Hb). apply (f_equal a_irq) in Ha. cbn in Ha. subst i.
  destruct (@clic_delivers_highest demo_defs clic1 0 clic1_inv) as [Hd _];
    [vm_compute; split; congruence|vm_compute; split; congruence|].
  destruct (Hd 7 Hi Hb) as (H1 & _ & H3). rewrite <- Hlv in H3. split; [exact H1|exact H3].
Defined.
