(* ===== verification/Clint.v ===== *)
(** * The core-local interruptor ([qemu-machine/hw/intc/thead_clint.c])

    One module [THEADCLINT]: software interrupts, the timer compare registers
    and the time base.  The virtual clock is an argument of the operations that
    read it. *)

From S2P Require Import Prelude Qemu.
From stdpp Require Import prelude list.
From Stdlib Require Import ZArith Lia.
Local Open Scope Z_scope.

Module THEADCLINT.

Record THEADCLINTState := mk_clint {
  msip : list Z;                 (* uint32_t *)
  mtimecmp : list Z;             (* uint64_t *)
  time_delta : Z;                (* int64_t *)
  num_harts : Z;
  timebase_freq : Z;             (* uint32_t *)
  timer : list (option Z);       (* expiry last passed to timer_mod *)
  pirq : list bool;              (* levels last passed to qemu_set_irq *)
}.

#[export] Instance eta_clint : Eta THEADCLINTState := λ r,
  mk_clint (msip r) (mtimecmp r) (time_delta r) (num_harts r) (timebase_freq r) (timer r) (pirq r).

Definition i64 (x : Z) : Z := (x + 2 ^ 63) mod 2 ^ 64 - 2 ^ 63.

Section clint.
Context `{MulDiv}.

(** [now] is [qemu_clock_get_ns(QEMU_CLOCK_VIRTUAL)]. *)
Definition thead_clint_read_rtc_raw (s : THEADCLINTState) (now : Z) : Z :=
  muldiv64 (u64 now) (timebase_freq s) NANOSECONDS_PER_SECOND.

Definition thead_clint_read_rtc (s : THEADCLINTState) (now : Z) : Z :=
  u64 (thead_clint_read_rtc_raw s now + time_delta s).

Definition thead_clint_read_rtc_cb (s : THEADCLINTState) (now : Z) : Z := thead_clint_read_rtc s now.

(** [qemu_set_irq(s->pirq[i], level)]. *)
Definition set_pirq (s : THEADCLINTState) (i : Z) (level : bool) : THEADCLINTState :=
  s <| pirq := <[Z.to_nat i := level]> (pirq s) |>.

(** The timer of a hart expires; its argument is the hart's timer line. *)
Definition thead_clint_timer_cb (s : THEADCLINTState) (hartid : Z) : THEADCLINTState :=
  set_pirq s (2 * hartid + 1) true.

Definition thead_clint_write_timecmp (s : THEADCLINTState) (now hartid value : Z) : THEADCLINTState :=
  let rtc := thead_clint_read_rtc s now in
  let s := s <| mtimecmp := <[Z.to_nat hartid := value]> (mtimecmp s) |> in
  let s := set_pirq s (2 * hartid + 1) false in
  if value <=? rtc then set_pirq s (2 * hartid + 1) true
  else
    let diff := u64 (value - rtc) in
    let ns := u64 (now + muldiv64 diff NANOSECONDS_PER_SECOND (timebase_freq s)) in
    s <| timer := <[Z.to_nat hartid := Some (i64 ns)]> (timer s) |>.

Definition thead_clint_read (s : THEADCLINTState) (now addr size : Z) : Z :=
  if negb (Z.land addr 0x3 =? 0) || negb (size =? 4) then 0
  else if addr <? num_harts s * 4 then msip s !!! Z.to_nat (addr / 4)
  else if (0x4000 <=? addr) && (addr <? 0x4000 + num_harts s * 8) then
    let hartid := (addr - 0x4000) / 8 in
    if Z.land addr 0x7 =? 0 then u32 (Z.land (mtimecmp s !!! Z.to_nat hartid) 0xFFFFFFFF)
    else u32 (Z.land (Z.shiftr (mtimecmp s !!! Z.to_nat hartid) 32) 0xFFFFFFFF)
  else if addr =? 0xBFF8 then u32 (Z.land (thead_clint_read_rtc s now) 0xFFFFFFFF)
  else if addr =? 0xBFFC then u32 (Z.land (Z.shiftr (thead_clint_read_rtc s now) 32) 0xFFFFFFFF)
  else 0.

(** [for (hartid = 0; hartid < num_harts; hartid++)]: every compare register is
    written back. *)
Definition rearm_all (s : THEADCLINTState) (now : Z) : THEADCLINTState :=
  foldl (λ s hartid, thead_clint_write_timecmp s now hartid (mtimecmp s !!! Z.to_nat hartid)) s
    (seqZ 0 (num_harts s)).

Definition thead_clint_write (s : THEADCLINTState) (now addr value size : Z) : THEADCLINTState :=
  if negb (Z.land addr 0x3 =? 0) || negb (size =? 4) then s
  else if addr <? num_harts s * 4 then
    let hartid := addr / 4 in
    let s := s <| msip := <[Z.to_nat hartid := Z.land value 1]> (msip s) |> in
    set_pirq s (hartid * 2) (tst value 1)
  else if (0x4000 <=? addr) && (addr <? 0x4000 + num_harts s * 8) then
    let hartid := (addr - 0x4000) / 8 in
    if Z.land addr 0x7 =? 0 then
      let hi := Z.land (mtimecmp s !!! Z.to_nat hartid) 0xFFFFFFFF00000000 in
      thead_clint_write_timecmp s now hartid (Z.lor hi (Z.land value 0xFFFFFFFF))
    else
      let lo := Z.land (mtimecmp s !!! Z.to_nat hartid) 0xFFFFFFFF in
      thead_clint_write_timecmp s now hartid (Z.lor (u64 (Z.shiftl value 32)) lo)
  else if (addr =? 0xBFF8) || (addr =? 0xBFFC) then
    let rtc_raw := thead_clint_read_rtc_raw s now in
    let rtc := thead_clint_read_rtc s now in
    let s :=
      if addr =? 0xBFF8
      then s <| time_delta := i64 (u64 (Z.lor (clr rtc 0xFFFFFFFF) (Z.land value 0xFFFFFFFF) - rtc_raw)) |>
      else s <| time_delta := i64 (u64 (Z.lor (Z.shiftl (Z.land value 0xFFFFFFFF) 32)
                                              (Z.land rtc 0xFFFFFFFF) - rtc_raw)) |> in
    rearm_all s now
  else s.

(** [thead_clint_realize] on the properties of the device. *)
Definition thead_clint_realize (harts freq : Z) : THEADCLINTState :=
  mk_clint (replicate (Z.to_nat harts) 0) (replicate (Z.to_nat harts) (2 ^ 64 - 1)) 0 harts freq
    (replicate (Z.to_nat harts) None) (replicate (Z.to_nat (2 * harts)) false).
End clint.

(** ** Lemmas *)

Record clint_ok (s : THEADCLINTState) : Prop := {
  ck_harts : 0 ≤ num_harts s ≤ 4095;
  ck_msip : Z.of_nat (length (msip s)) = num_harts s;
  ck_cmp : Z.of_nat (length (mtimecmp s)) = num_harts s;
  ck_timer : Z.of_nat (length (timer s)) = num_harts s;
  ck_pirq : Z.of_nat (length (pirq s)) = 2 * num_harts s;
  ck_freq : 0 < timebase_freq s ≤ NANOSECONDS_PER_SECOND;
}.

Lemma u64_i64 x y : u64 (x + i64 y) = u64 (x + y).
Proof.
  unfold wrap, i64. rewrite Z.add_sub_assoc, <- Zminus_mod_idemp_l, Zplus_mod_idemp_r, Zminus_mod_idemp_l.
  f_equal. lia.
Qed.

Lemma u64_add_sub a b : uint 64 a → u64 (b + (a - b)) = a.
Proof. intros. replace (b + (a - b)) with a by lia. by apply wrap_small. Qed.

Section lemmas.
Context `{MulDiv}.

Lemma timecmp_ok s now h v : clint_ok s → clint_ok (thead_clint_write_timecmp s now h v).
Proof.
  intros []. unfold thead_clint_write_timecmp, set_pirq. destruct (_ <=? _);
    split; cbn; rewrite ?length_insert; done.
Qed.

Lemma rearm_ok s now : clint_ok s → clint_ok (rearm_all s now).
Proof.
  intros Hs. unfold rearm_all. revert Hs. generalize (seqZ 0 (num_harts s)). intros l.
  revert s. induction l as [|h l IH]; intros s Hs; [done|]. apply IH. by apply timecmp_ok.
Qed.

Lemma write_ok s now addr v size : clint_ok s → clint_ok (thead_clint_write s now addr v size).
Proof.
  intros Hs. unfold thead_clint_write. destruct (_ || _); [done|]. destruct (_ <? _).
  { destruct Hs. split; cbn; rewrite ?length_insert; done. }
  destruct (_ && _); [destruct (_ =? 0); by apply timecmp_ok|].
  destruct (_ || _); [|done]. apply rearm_ok. destruct (addr =? 0xBFF8); by destruct Hs; split.
Qed.

(** Rewriting the compare registers changes neither the time base nor them. *)
Lemma timecmp_time s now h v :
  time_delta (thead_clint_write_timecmp s now h v) = time_delta s ∧
  timebase_freq (thead_clint_write_timecmp s now h v) = timebase_freq s.
Proof. unfold thead_clint_write_timecmp. by destruct (_ <=? _). Qed.

Lemma rearm_time s now :
  time_delta (rearm_all s now) = time_delta s ∧ timebase_freq (rearm_all s now) = timebase_freq s.
Proof.
  unfold rearm_all. generalize (seqZ 0 (num_harts s)). intros l. revert s.
  induction l as [|h l IH]; intros s; [done|]. cbn [foldl].
  destruct (IH (thead_clint_write_timecmp s now h (mtimecmp s !!! Z.to_nat h))) as [-> ->]. apply timecmp_time.
Qed.

Lemma rtc_eq s s' now :
  time_delta s' = time_delta s → timebase_freq s' = timebase_freq s →
  thead_clint_read_rtc s' now = thead_clint_read_rtc s now.
Proof. intros E1 E2. unfold thead_clint_read_rtc, thead_clint_read_rtc_raw. by rewrite E1, E2. Qed.

Lemma pirq_at s i j v :
  0 ≤ i < Z.of_nat (length (pirq s)) → 0 ≤ j →
  pirq (set_pirq s i v) !!! Z.to_nat j = if decide (i = j) then v else pirq s !!! Z.to_nat j.
Proof.
  intros Hi Hj. unfold set_pirq. cbn [pirq set_field]. destruct (decide (i = j)) as [->|Hne].
  - apply list_lookup_total_insert_eq. lia.
  - apply list_lookup_total_insert_ne. lia.
Qed.

Lemma set_pirq_length s i v : length (pirq (set_pirq s i v)) = length (pirq s).
Proof. apply length_insert. Qed.

(** The raw time base at a sane time. *)
Lemma raw_eq s t :
  clint_ok s → 0 ≤ t < 2 ^ 63 →
  thead_clint_read_rtc_raw s t = t * timebase_freq s / NANOSECONDS_PER_SECOND ∧
  0 ≤ t * timebase_freq s / NANOSECONDS_PER_SECOND ≤ t.
Proof.
  intros [_ _ _ _ _ Hf] Ht. unfold thead_clint_read_rtc_raw, NANOSECONDS_PER_SECOND in *.
  rewrite (wrap_small 64 t) by (unfold uint; lia).
  assert (0 ≤ t * timebase_freq s / 1000000000 ≤ t) as Hr.
  { split; [apply Z.div_pos; lia|]. apply Z.div_le_upper_bound; nia. }
  rewrite muldiv64_spec by (unfold uint; lia). rewrite wrap_small by (unfold uint; lia). done.
Qed.

(** A delay of [diff] ticks, rounded down to nanoseconds, falls short of it by
    less than a tick. *)
Lemma tick_rounding now diff f :
  0 ≤ now → 0 ≤ diff → 0 < f ≤ NANOSECONDS_PER_SECOND →
  now * f / NANOSECONDS_PER_SECOND + diff - 1 ≤
    (now + diff * NANOSECONDS_PER_SECOND / f) * f / NANOSECONDS_PER_SECOND ≤
    now * f / NANOSECONDS_PER_SECOND + diff.
Proof.
  unfold NANOSECONDS_PER_SECOND. intros Hn Hd Hf. set (B := 1000000000) in *.
  pose proof (Z.div_mod (now * f) B ltac:(lia)) as H1. pose proof (Z.mod_pos_bound (now * f) B ltac:(lia)).
  pose proof (Z.div_mod (diff * B) f ltac:(lia)) as H2. pose proof (Z.mod_pos_bound (diff * B) f ltac:(lia)).
  set (r := now * f / B) in *. set (d := diff * B / f) in *.
  split.
  - apply Z.div_le_lower_bound; [lia|]. nia.
  - apply Z.lt_succ_r, Z.div_lt_upper_bound; [lia|]. nia.
Qed.

(** ** Properties *)

(** Writing a compare register sets the hart's timer line to whether the time
    has reached the value, stores it, and leaves every other line alone. *)
Theorem clint_timer_line s now h v j :
  clint_ok s → 0 ≤ h < num_harts s → 0 ≤ j < 2 * num_harts s →
  let s' := thead_clint_write_timecmp s now h v in
  mtimecmp s' !!! Z.to_nat h = v ∧
  pirq s' !!! Z.to_nat j =
    (if decide (j = 2 * h + 1) then v <=? thead_clint_read_rtc s now else pirq s !!! Z.to_nat j).
Proof.
  intros Hs Hh Hj. cbv zeta. destruct Hs. unfold thead_clint_write_timecmp. cbv zeta.
  set (s1 := s <| mtimecmp := _ |>).
  assert (mtimecmp s1 !!! Z.to_nat h = v) as Hv by (apply list_lookup_total_insert_eq; lia).
  assert (length (pirq s1) = length (pirq s)) as Hl by done.
  destruct (v <=? thead_clint_read_rtc s now); (split; [done|]).
  - rewrite !pirq_at by (rewrite ?set_pirq_length; lia).
    repeat destruct (decide _); try done; lia.
  - match goal with |- pirq ?x !!! _ = _ => change (pirq x) with (pirq (set_pirq s1 (2 * h + 1) false)) end.
    rewrite pirq_at by lia. repeat destruct (decide _); try done; lia.
Qed.

(** When the value lies ahead and the delay fits in the virtual clock, the
    timer is armed for a moment at which the time base is the value, or one
    tick short of it (the delay is rounded down to a nanosecond). *)
Theorem clint_timer_deadline s now h v :
  clint_ok s → 0 ≤ h < num_harts s → 0 ≤ now → uint 64 v →
  0 ≤ thead_clint_read_rtc_raw s now + time_delta s < v →
  let diff := v - (thead_clint_read_rtc_raw s now + time_delta s) in
  now + diff * NANOSECONDS_PER_SECOND / timebase_freq s < 2 ^ 63 →
  ∃ t, timer (thead_clint_write_timecmp s now h v) !!! Z.to_nat h = Some t ∧ now ≤ t ∧
       v - 1 ≤ thead_clint_read_rtc s t ≤ v.
Proof.
  intros Hs Hh Hnow Hv Hrtc diff Hfit. pose proof Hs as [_ _ _ Htl _ Hf]. unfold uint in Hv.
  assert (0 ≤ diff * NANOSECONDS_PER_SECOND / timebase_freq s) as Hd0
    by (unfold NANOSECONDS_PER_SECOND in *; apply Z.div_pos; lia).
  set (d := diff * NANOSECONDS_PER_SECOND / timebase_freq s) in *.
  assert (thead_clint_read_rtc s now = v - diff) as Hr.
  { unfold thead_clint_read_rtc, diff. rewrite wrap_small by (unfold uint; lia). lia. }
  unfold thead_clint_write_timecmp. rewrite Hr, (proj2 (Z.leb_gt _ _)) by (unfold diff; lia).
  replace (v - (v - diff)) with diff by lia. rewrite (wrap_small 64 diff) by (unfold uint, diff; lia).
  exists (now + d). split.
  - cbn. rewrite list_lookup_total_insert_eq by lia. f_equal.
    rewrite muldiv64_spec; [|unfold uint, diff; lia|by vm_compute|unfold uint, NANOSECONDS_PER_SECOND in *; lia|lia].
    fold d. rewrite (wrap_small 64 d), wrap_small by (unfold uint; lia).
    unfold i64. rewrite Z.mod_small by lia. lia.
  - split; [lia|]. destruct (raw_eq s now Hs ltac:(lia)) as [Hr1 _].
    destruct (raw_eq s (now + d) Hs ltac:(lia)) as [Hr2 _].
    pose proof (tick_rounding now diff (timebase_freq s) Hnow ltac:(lia) Hf) as Hk. fold d in Hk.
    unfold thead_clint_read_rtc. rewrite Hr2. rewrite Hr1 in *. unfold diff in Hk.
    rewrite wrap_small by (unfold uint; lia). lia.
Qed.

Lemma mtime_write_lo s now lo :
  clint_ok s → uint 32 lo →
  thead_clint_read_rtc (thead_clint_write s now 0xBFF8 lo 4) now =
    thead_clint_read_rtc s now / 2 ^ 32 * 2 ^ 32 + lo.
Proof.
  intros [Hh _ _ _ _ _] Hlo. unfold thead_clint_write. change (negb (Z.land 49144 3 =? 0) || negb (4 =? 4)) with false.
  cbv iota. rewrite (proj2 (Z.ltb_ge _ _)) by lia. rewrite (proj2 (Z.ltb_ge _ (0x4000 + _))), andb_false_r by lia.
  change ((49144 =? 49144) || (49144 =? 49148)) with true. change (49144 =? 49144) with true. cbv iota zeta.
  set (x := Z.lor _ _). assert (uint 64 (thead_clint_read_rtc s now)) as Hr by (apply uint_wrap; lia).
  assert (x = thead_clint_read_rtc s now / 2 ^ 32 * 2 ^ 32 + lo) as Hx.
  { unfold x. change 0xFFFFFFFF with (Z.ones 32). rewrite (Z.land_ones lo), (Z.mod_small lo) by (unfold uint in *; lia).
    unfold clr. rewrite <- Z.ldiff_land, Z.ldiff_ones_r, Z.shiftr_div_pow2 by lia. by rewrite lor_shiftl_add by (done || lia). }
  assert (uint 64 x) as Hx64.
  { rewrite Hx. unfold uint in *. pose proof (Z.div_mod (thead_clint_read_rtc s now) (2 ^ 32) ltac:(lia)).
    pose proof (Z.mod_pos_bound (thead_clint_read_rtc s now) (2 ^ 32) ltac:(lia)).
    assert (thead_clint_read_rtc s now / 2 ^ 32 < 2 ^ 32) by (apply Z.div_lt_upper_bound; lia). nia. }
  match goal with |- thead_clint_read_rtc (rearm_all ?y now) now = _ => set (s1 := y);
    destruct (rearm_time s1 now) as [E1 E2]; rewrite (rtc_eq s1 _ now E1 E2) end.
  unfold thead_clint_read_rtc at 1. change (thead_clint_read_rtc_raw s1 now) with (thead_clint_read_rtc_raw s now).
  unfold s1. cbn [time_delta set_field]. rewrite u64_i64. unfold wrap at 1 2. rewrite Zplus_mod_idemp_r.
  change ((thead_clint_read_rtc_raw s now + (x - thead_clint_read_rtc_raw s now)) mod 2 ^ 64)
    with (u64 (thead_clint_read_rtc_raw s now + (x - thead_clint_read_rtc_raw s now))).
  rewrite u64_add_sub by done. exact Hx.
Qed.

Lemma mtime_write_hi s now hi :
  clint_ok s → uint 32 hi →
  thead_clint_read_rtc (thead_clint_write s now 0xBFFC hi 4) now =
    hi * 2 ^ 32 + thead_clint_read_rtc s now mod 2 ^ 32.
Proof.
  intros [Hh _ _ _ _ _] Hhi. unfold thead_clint_write. change (negb (Z.land 49148 3 =? 0) || negb (4 =? 4)) with false.
  cbv iota. rewrite (proj2 (Z.ltb_ge _ _)) by lia. rewrite (proj2 (Z.ltb_ge _ (0x4000 + _))), andb_false_r by lia.
  change ((49148 =? 49144) || (49148 =? 49148)) with true. change (49148 =? 49144) with false. cbv iota zeta.
  set (x := Z.lor _ _). assert (x = hi * 2 ^ 32 + thead_clint_read_rtc s now mod 2 ^ 32) as Hx.
  { unfold x. change 0xFFFFFFFF with (Z.ones 32). rewrite !Z.land_ones by lia.
    rewrite (Z.mod_small hi) by (unfold uint in *; lia). rewrite lor_shiftl_add; [done|lia|].
    unfold uint. apply Z.mod_pos_bound. lia. }
  assert (uint 64 x) as Hx64.
  { rewrite Hx. unfold uint in *. pose proof (Z.mod_pos_bound (thead_clint_read_rtc s now) (2 ^ 32) ltac:(lia)). lia. }
  match goal with |- thead_clint_read_rtc (rearm_all ?y now) now = _ => set (s1 := y);
    destruct (rearm_time s1 now) as [E1 E2]; rewrite (rtc_eq s1 _ now E1 E2) end.
  unfold thead_clint_read_rtc at 1. change (thead_clint_read_rtc_raw s1 now) with (thead_clint_read_rtc_raw s now).
  unfold s1. cbn [time_delta set_field]. rewrite u64_i64. unfold wrap at 1 2. rewrite Zplus_mod_idemp_r.
  change ((thead_clint_read_rtc_raw s now + (x - thead_clint_read_rtc_raw s now)) mod 2 ^ 64)
    with (u64 (thead_clint_read_rtc_raw s now + (x - thead_clint_read_rtc_raw s now))).
  rewrite u64_add_sub by done. exact Hx.
Qed.

(** The time base can be set: after writing the two halves of [MTIME], in
    either order, the time reads as the value written. *)
Theorem clint_mtime_roundtrip s now lo hi :
  clint_ok s → uint 32 lo → uint 32 hi →
  thead_clint_read_rtc (thead_clint_write (thead_clint_write s now 0xBFF8 lo 4) now 0xBFFC hi 4) now =
    hi * 2 ^ 32 + lo ∧
  thead_clint_read_rtc (thead_clint_write (thead_clint_write s now 0xBFFC hi 4) now 0xBFF8 lo 4) now =
    hi * 2 ^ 32 + lo.
Proof.
  intros Hs Hlo Hhi. pose proof (write_ok s now 0xBFF8 lo 4 Hs). pose proof (write_ok s now 0xBFFC hi 4 Hs).
  rewrite mtime_write_hi, mtime_write_lo by done. rewrite mtime_write_lo, mtime_write_hi by done. unfold uint in *. split.
  - rewrite Z.add_comm, (Z.add_comm (_ * _)), Z.mod_add, Z.mod_small by lia. lia.
  - rewrite Z.div_add_l by lia. rewrite Z.div_small by (apply Z.mod_pos_bound; lia). lia.
Qed.
End lemmas.

(** ** Concrete device *)

Definition clint0 : THEADCLINTState := thead_clint_realize 2 1000000.

Lemma clint0_ok : clint_ok clint0.
Proof. split; vm_compute; split; congruence || done. Qed.

Lemma clint_timer_line_witness :
  pirq (@thead_clint_write_timecmp wide_muldiv clint0 5000 0 3) !!! 1%nat = true.
Proof.
  pose proof (@clint_timer_line wide_muldiv clint0 5000 0 3 1 clint0_ok) as Hw.
  destruct Hw as [_ Hw]; [vm_compute; split; congruence|vm_compute; split; congruence|]. exact Hw.
Defined.

Lemma clint_timer_deadline_witness :
  ∃ t, timer (@thead_clint_write_timecmp wide_muldiv clint0 5500 1 100) !!! 1%nat = Some t ∧ 5500 ≤ t ∧
       99 ≤ @thead_clint_read_rtc wide_muldiv clint0 t ≤ 100.
Proof.
  apply (@clint_timer_deadline wide_muldiv clint0 5500 1 100 clint0_ok);
    vm_compute; intuition congruence.
Defined.

Lemma clint_mtime_roundtrip_witness :
  @thead_clint_read_rtc wide_muldiv (@thead_clint_write wide_muldiv
    (@thead_clint_write wide_muldiv clint0 5000 0xBFF8 7 4) 5000 0xBFFC 1 4) 5000 = 0x100000007.
Proof.
  apply (@clint_mtime_roundtrip wide_muldiv clint0 5000 7 1 clint0_ok); vm_compute; intuition congruence.
Defined.

(** A write to [MTIME] re-arms every timer; for a hart whose compare register
    holds the boot value [UINT64_MAX] the delay overflows 64 bits and the timer
    is armed for a moment that has already passed, although the time is far
    below the compare value. *)
Theorem clint_mtime_write_spurious :
  let s := @thead_clint_write wide_muldiv clint0 5000 0xBFF8 0 4 in
  ∃ t, timer s !!! 0%nat = Some t ∧ t < 5000 ∧
       @thead_clint_read_rtc wide_muldiv s 5000 < mtimecmp s !!! 0%nat.
Proof. eexists. split; [by vm_compute|]. by vm_compute. Qed.
End THEADCLINT.
