(* ===== verification/Dma.v ===== *)
(** * The DMA controller ([qemu-machine/hw/dma/bl808_dma.c])

    Module [BL808DMA]: the channel registers, the request lines, the item loop of
    one channel, the bottom half that steps all channels and the scheduling of
    that bottom half.

    The controller acts on a world outside its own state: the physical memory,
    through [cpu_physical_memory_read] and [cpu_physical_memory_write], and the
    peripherals behind the request lines, through their callbacks.  That world is
    a type [E] whose memory accesses are the class [PhysMem] of [Qemu]; a request line holds
    the callbacks applied to their [opaque] argument, as functions on [E].  The
    controller's own registers are not part of [E]. *)

From S2P Require Import Prelude Qemu.
From stdpp Require Import prelude list.
From Stdlib Require Import ZArith Lia.
Local Open Scope Z_scope.

Module BL808DMA.

Definition BL808_DMA_CHANNELS := 8.
Definition BL808_DMA_REQUEST_LINES := 32.

Definition DMA_INT_STATUS := 0x00.
Definition DMA_INT_TC_STATUS := 0x04.
Definition DMA_INT_TC_CLEAR := 0x08.
Definition DMA_INT_ERR_STATUS := 0x0C.
Definition DMA_INT_ERR_CLEAR := 0x10.
Definition DMA_RAW_INT_TC := 0x14.
Definition DMA_RAW_INT_ERR := 0x18.
Definition DMA_ENABLED_CHNS := 0x1C.
Definition DMA_SOFT_BREQ := 0x20.
Definition DMA_SOFT_SREQ := 0x24.
Definition DMA_SOFT_LBREQ := 0x28.
Definition DMA_SOFT_LSREQ := 0x2C.
Definition DMA_TOP_CONFIG := 0x30.
Definition DMA_SYNC := 0x34.

Definition DMA_CH_BASE := 0x100.
Definition DMA_CH_STRIDE := 0x100.
Definition DMA_CH_SRC_ADDR := 0x00.
Definition DMA_CH_DST_ADDR := 0x04.
Definition DMA_CH_LLI := 0x08.
Definition DMA_CH_CONTROL := 0x0C.
Definition DMA_CH_CONFIG := 0x10.

Definition DMA_CTRL_XFER_MASK := 0x0FFF.
Definition DMA_CTRL_SB_SHIFT := 12.
Definition DMA_CTRL_DB_SHIFT := 15.
Definition DMA_CTRL_SW_SHIFT := 18.
Definition DMA_CTRL_DW_SHIFT := 21.
Definition DMA_CTRL_SRC_INC := BIT 26.
Definition DMA_CTRL_DST_INC := BIT 27.
Definition DMA_CTRL_TC_IRQ_EN := BIT 31.

Definition DMA_CFG_ENABLE := BIT 0.
Definition DMA_CFG_SRC_SHIFT := 1.
Definition DMA_CFG_DST_SHIFT := 6.
Definition DMA_CFG_FLOW_SHIFT := 11.
Definition DMA_CFG_FLOW_MASK := Z.shiftl 7 DMA_CFG_FLOW_SHIFT.
Definition DMA_CFG_ERR_IRQ_EN := BIT 14.
Definition DMA_CFG_TC_IRQ_EN := BIT 15.
Definition DMA_CFG_ACTIVE := BIT 17.
Definition DMA_CFG_HALT := BIT 18.

Definition DMA_TOP_ENABLE := BIT 0.

Definition DMA_FLOW_M2M := 0.
Definition DMA_FLOW_M2P := 1.
Definition DMA_FLOW_P2M := 2.
Definition DMA_FLOW_P2P := 3.
Definition DMA_FLOW_P2P_DST := 4.
Definition DMA_FLOW_M2P_PERI := 5.
Definition DMA_FLOW_P2M_PERI := 6.
Definition DMA_FLOW_P2P_SRC := 7.

Definition DMA_MAX_STEPS_PER_RUN := 64.

(** ** State *)

Record BL808DMAChannel := mk_channel {
  src_addr : Z;              (* uint32_t *)
  dst_addr : Z;              (* uint32_t *)
  lli : Z;                   (* uint32_t *)
  control : Z;               (* uint32_t *)
  config : Z;                (* uint32_t *)
  active : bool;
}.

#[export] Instance eta_channel : Eta BL808DMAChannel := λ r,
  mk_channel (src_addr r) (dst_addr r) (lli r) (control r) (config r) (active r).
#[export] Instance channel_inhabited : Inhabited BL808DMAChannel :=
  populate (mk_channel 0 0 0 0 0 false).

Section dma.
Context {E : Type} `{!PhysMem E}.

Record BL808DMARequestOps := mk_request_ops {
  can_read : option (E → Z → bool);
  can_write : option (E → Z → bool);
  read : E → Z → Z * E;
  write : E → Z → Z → E;
}.

Record BL808DMAState := mk_dma {
  irq : bool;                (* level last passed to qemu_set_irq *)
  ch_irq : list bool;
  run_bh : bool;             (* the bottom half is scheduled *)
  poll_timer : option Z;     (* deadline of the pending timer *)
  channels : list BL808DMAChannel;
  requests : list (option BL808DMARequestOps);
  raw_tc_status : Z;
  raw_err_status : Z;
  soft_breq : Z;
  soft_sreq : Z;
  soft_lbreq : Z;
  soft_lsreq : Z;
  top_config : Z;
  sync : Z;
  channel_count : Z;         (* uint8_t *)
  supports_doubleword_width : bool;
  clock_enabled : bool;
  reset_asserted : bool;
  run_scheduled : bool;
}.

#[export] Instance eta_dma : Eta BL808DMAState := λ r,
  mk_dma (irq r) (ch_irq r) (run_bh r) (poll_timer r) (channels r) (requests r) (raw_tc_status r)
    (raw_err_status r) (soft_breq r) (soft_sreq r) (soft_lbreq r) (soft_lsreq r) (top_config r)
    (sync r) (channel_count r) (supports_doubleword_width r) (clock_enabled r) (reset_asserted r)
    (run_scheduled r).

(** [&s->channels[i]], read and updated. *)
Definition chan (s : BL808DMAState) (i : Z) : BL808DMAChannel := channels s !!! Z.to_nat i.
Definition set_chan (s : BL808DMAState) (i : Z) (ch : BL808DMAChannel) : BL808DMAState :=
  s <| channels := <[Z.to_nat i := ch]> (channels s) |>.

(** ** Decoding *)

Definition bl808_dma_channel_count (s : BL808DMAState) : Z :=
  Z.min (Z.max (channel_count s) 1) BL808_DMA_CHANNELS.

Definition bl808_dma_width_bytes (s : BL808DMAState) (control : Z) (dst : bool) : Z :=
  let width := Z.land (Z.shiftr control (if dst then DMA_CTRL_DW_SHIFT else DMA_CTRL_SW_SHIFT)) 0x3 in
  if width =? 0 then 1
  else if width =? 1 then 2
  else if width =? 2 then 4
  else if supports_doubleword_width s then 8 else 0.

Definition bl808_dma_burst_len (control : Z) (dst : bool) : Z :=
  let burst := Z.land (Z.shiftr control (if dst then DMA_CTRL_DB_SHIFT else DMA_CTRL_SB_SHIFT)) 0x3 in
  if burst =? 0 then 1
  else if burst =? 1 then 4
  else if burst =? 2 then 8
  else if burst =? 3 then 16
  else 1.

Definition bl808_dma_src_request (config : Z) : Z := Z.land (Z.shiftr config DMA_CFG_SRC_SHIFT) 0x1F.
Definition bl808_dma_dst_request (config : Z) : Z := Z.land (Z.shiftr config DMA_CFG_DST_SHIFT) 0x1F.
Definition bl808_dma_flow (config : Z) : Z := Z.shiftr (Z.land config DMA_CFG_FLOW_MASK) DMA_CFG_FLOW_SHIFT.

(** ** Interrupts *)

(** The channels of the device, and the mask of those that satisfy [f]. *)
Definition chnos (s : BL808DMAState) : list Z := Z.of_nat <$> seq 0 (Z.to_nat (bl808_dma_channel_count s)).
Definition chan_mask (s : BL808DMAState) (f : BL808DMAChannel → bool) : Z :=
  foldl (λ mask i, if f (chan s i) then Z.lor mask (BIT i) else mask) 0 (chnos s).

Definition bl808_dma_tc_mask (s : BL808DMAState) : Z :=
  chan_mask s (λ ch, tst (config ch) DMA_CFG_TC_IRQ_EN && tst (control ch) DMA_CTRL_TC_IRQ_EN).

Definition bl808_dma_err_mask (s : BL808DMAState) : Z :=
  chan_mask s (λ ch, tst (config ch) DMA_CFG_ERR_IRQ_EN).

Definition bl808_dma_visible_tc_status (s : BL808DMAState) : Z :=
  Z.land (raw_tc_status s) (bl808_dma_tc_mask s).

Definition bl808_dma_visible_err_status (s : BL808DMAState) : Z :=
  Z.land (raw_err_status s) (bl808_dma_err_mask s).

Definition bl808_dma_update_irq (s : BL808DMAState) : BL808DMAState :=
  let pending := Z.lor (bl808_dma_visible_tc_status s) (bl808_dma_visible_err_status s) in
  let channels := bl808_dma_channel_count s in
  s <| irq := clock_enabled s && negb (reset_asserted s) && negb (pending =? 0) |>
    <| ch_irq := (λ i, (i <? channels) && clock_enabled s && negb (reset_asserted s) &&
                       tst pending (BIT i)) <$> (Z.of_nat <$> seq 0 (Z.to_nat BL808_DMA_CHANNELS)) |>.

(** ** Scheduling *)

Definition bl808_dma_has_active_channels (s : BL808DMAState) : bool :=
  existsb (λ i, active (chan s i)) (chnos s).

Definition bl808_dma_can_run (s : BL808DMAState) : bool :=
  clock_enabled s && negb (reset_asserted s) && tst (top_config s) DMA_TOP_ENABLE.

Definition bl808_dma_cancel_work (s : BL808DMAState) : BL808DMAState :=
  s <| run_bh := false |> <| poll_timer := None |> <| run_scheduled := false |>.

Definition bl808_dma_schedule (s : BL808DMAState) : BL808DMAState :=
  if negb (bl808_dma_can_run s) || negb (bl808_dma_has_active_channels s) || run_scheduled s then s
  else s <| run_scheduled := true |> <| run_bh := true |>.

Definition bl808_dma_reschedule_poll (s : BL808DMAState) (now : Z) : BL808DMAState :=
  if negb (bl808_dma_can_run s) || negb (bl808_dma_has_active_channels s) then s
  else s <| poll_timer := Some (now + 1) |>.

Definition bl808_dma_enabled_channels (s : BL808DMAState) : Z :=
  chan_mask s (λ ch, tst (config ch) DMA_CFG_ENABLE).

(** ** Memory accesses *)

Definition bl808_dma_read_mem_value (addr width_bytes : Z) (e : E) : Z * E :=
  if (width_bytes =? 1) || (width_bytes =? 2) || (width_bytes =? 4) || (width_bytes =? 8) then
    let '(tmp, e) := cpu_physical_memory_read addr (Z.to_nat width_bytes) e in (le_to_cpu tmp, e)
  else (0, e).

Definition bl808_dma_write_mem_value (addr value width_bytes : Z) (e : E) : E :=
  if (width_bytes =? 1) || (width_bytes =? 2) || (width_bytes =? 4) || (width_bytes =? 8) then
    cpu_physical_memory_write addr (cpu_to_le (Z.to_nat width_bytes) value) e
  else e.

Definition read_word (addr : Z) (e : E) : Z * E :=
  let '(tmp, e) := cpu_physical_memory_read addr 4 e in (le_to_cpu tmp, e).

Definition bl808_dma_load_lli (ch : BL808DMAChannel) (e : E) : option (BL808DMAChannel * E) :=
  if lli ch =? 0 then None
  else
    let '(src, e) := read_word (u32 (lli ch + 0)) e in
    let '(dst, e) := read_word (u32 (lli ch + 4)) e in
    let '(next, e) := read_word (u32 (lli ch + 8)) e in
    let '(ctl, e) := read_word (u32 (lli ch + 12)) e in
    Some (ch <| src_addr := src |> <| dst_addr := dst |> <| lli := next |> <| control := ctl |>, e).

(** ** Channel completion *)

Definition bl808_dma_complete_channel (s : BL808DMAState) (chno : Z) : BL808DMAState :=
  let ch := chan s chno in
  let ch := ch <| active := false |>
               <| config := clr (config ch) (Z.lor DMA_CFG_ENABLE DMA_CFG_HALT) |>
               <| control := clr (control ch) DMA_CTRL_XFER_MASK |> in
  let s := set_chan s chno ch in
  if tst (control ch) DMA_CTRL_TC_IRQ_EN
  then s <| raw_tc_status := Z.lor (raw_tc_status s) (BIT chno) |> else s.

Definition bl808_dma_error_channel (s : BL808DMAState) (chno : Z) : BL808DMAState :=
  let ch := chan s chno in
  let s := set_chan s chno (ch <| active := false |>
             <| config := clr (config ch) (Z.lor DMA_CFG_ENABLE DMA_CFG_HALT) |>) in
  s <| raw_err_status := Z.lor (raw_err_status s) (BIT chno) |>.

(** ** Request lines *)

Definition request (s : BL808DMAState) (req_id : Z) : option BL808DMARequestOps :=
  requests s !!! Z.to_nat req_id.

Definition bl808_dma_request_can_read (s : BL808DMAState) (e : E) (req_id width_bytes : Z) : bool :=
  if BL808_DMA_REQUEST_LINES <=? req_id then false
  else match request s req_id with
       | Some ops => match can_read ops with Some f => f e width_bytes | None => false end
       | None => false
       end.

Definition bl808_dma_request_can_write (s : BL808DMAState) (e : E) (req_id width_bytes : Z) : bool :=
  if BL808_DMA_REQUEST_LINES <=? req_id then false
  else match request s req_id with
       | Some ops => match can_write ops with Some f => f e width_bytes | None => false end
       | None => false
       end.

(** Called only after the corresponding [can] test, so on a registered line. *)
Definition bl808_dma_request_read (s : BL808DMAState) (e : E) (req_id width_bytes : Z) : Z * E :=
  match request s req_id with Some ops => read ops e width_bytes | None => (0, e) end.

Definition bl808_dma_request_write (s : BL808DMAState) (e : E) (req_id value width_bytes : Z) : E :=
  match request s req_id with Some ops => write ops e value width_bytes | None => e end.

(** ** One step of a channel *)

(** The two [switch] statements of the item loop: the flows that read from
    memory, read from a request line, write to memory, write to a request line. *)
Definition flow_reads_mem (flow : Z) : bool :=
  (flow =? DMA_FLOW_M2M) || (flow =? DMA_FLOW_M2P) || (flow =? DMA_FLOW_M2P_PERI).
Definition flow_reads_peri (flow : Z) : bool :=
  (flow =? DMA_FLOW_P2M) || (flow =? DMA_FLOW_P2M_PERI) || (flow =? DMA_FLOW_P2P) ||
  (flow =? DMA_FLOW_P2P_DST) || (flow =? DMA_FLOW_P2P_SRC).
Definition flow_writes_mem (flow : Z) : bool :=
  (flow =? DMA_FLOW_M2M) || (flow =? DMA_FLOW_P2M) || (flow =? DMA_FLOW_P2M_PERI).
Definition flow_writes_peri (flow : Z) : bool :=
  (flow =? DMA_FLOW_M2P) || (flow =? DMA_FLOW_M2P_PERI) || (flow =? DMA_FLOW_P2P) ||
  (flow =? DMA_FLOW_P2P_DST) || (flow =? DMA_FLOW_P2P_SRC).

(** How a half of an item ends: it was moved, the requester was not ready
    ([goto out]), or the flow is not supported (error and [return true]). *)
Inductive half (A : Type) := Moved (a : A) | Stalled | Unsupported.
Arguments Moved {A} _. Arguments Stalled {A}. Arguments Unsupported {A}.

Definition fetch_item (s : BL808DMAState) (e : E) (chno flow src_req src_width : Z) : half (Z * E) :=
  if flow_reads_mem flow then
    Moved (bl808_dma_read_mem_value (src_addr (chan s chno)) src_width e)
  else if flow_reads_peri flow then
    if negb (bl808_dma_request_can_read s e src_req src_width) then Stalled
    else Moved (bl808_dma_request_read s e src_req src_width)
  else Unsupported.

Definition store_item (s : BL808DMAState) (e : E) (chno flow dst_req dst_width value : Z) : half E :=
  if flow_writes_mem flow then
    Moved (bl808_dma_write_mem_value (dst_addr (chan s chno)) value dst_width e)
  else if flow_writes_peri flow then
    if negb (bl808_dma_request_can_write s e dst_req dst_width) then Stalled
    else Moved (bl808_dma_request_write s e dst_req (u32 value) dst_width)
  else Unsupported.

(** The end of an iteration: addresses, count. *)
Definition advance (ch : BL808DMAChannel) (src_width dst_width remaining : Z) : BL808DMAChannel :=
  let ch := if tst (control ch) DMA_CTRL_SRC_INC
            then ch <| src_addr := u32 (src_addr ch + src_width) |> else ch in
  let ch := if tst (control ch) DMA_CTRL_DST_INC
            then ch <| dst_addr := u32 (dst_addr ch + dst_width) |> else ch in
  ch <| control := Z.lor (clr (control ch) DMA_CTRL_XFER_MASK) remaining |>.

(** The loop ends at the label [out], with the local variables [remaining] and
    [made_progress], or returns [true] from the function. *)
Inductive loop_exit :=
  | Out (s : BL808DMAState) (e : E) (remaining : Z) (made_progress : bool)
  | Return (s : BL808DMAState) (e : E).

Fixpoint item_loop (limit : nat) (s : BL808DMAState) (e : E)
    (chno flow src_width dst_width src_req dst_req remaining : Z) (made_progress : bool) : loop_exit :=
  match limit with
  | O => Out s e remaining made_progress
  | S limit =>
      if negb (0 <? remaining) then Out s e remaining made_progress
      else
        match fetch_item s e chno flow src_req src_width with
        | Stalled => Out s e remaining made_progress
        | Unsupported => Return (bl808_dma_error_channel s chno) e
        | Moved (value, e) =>
            match store_item s e chno flow dst_req dst_width value with
            | Stalled => Out s e remaining made_progress
            | Unsupported => Return (bl808_dma_error_channel s chno) e
            | Moved e =>
                let s := set_chan s chno (advance (chan s chno) src_width dst_width (remaining - 1)) in
                item_loop limit s e chno flow src_width dst_width src_req dst_req (remaining - 1) true
            end
        end
  end.

(** The tail of the function when nothing remains: the next descriptor, or the
    end of the transfer. *)
Definition next_or_complete (s : BL808DMAState) (e : E) (chno : Z) : BL808DMAState * E * bool :=
  match bl808_dma_load_lli (chan s chno) e with
  | Some (ch, e) => (set_chan s chno ch, e, true)
  | None => (bl808_dma_complete_channel s chno, e, true)
  end.

Definition bl808_dma_step_channel (s : BL808DMAState) (e : E) (chno : Z) : BL808DMAState * E * bool :=
  let ch := chan s chno in
  let flow := bl808_dma_flow (config ch) in
  let src_width := bl808_dma_width_bytes s (control ch) false in
  let dst_width := bl808_dma_width_bytes s (control ch) true in
  let src_req := bl808_dma_src_request (config ch) in
  let dst_req := bl808_dma_dst_request (config ch) in
  let remaining := Z.land (control ch) DMA_CTRL_XFER_MASK in
  let burst := Z.max (bl808_dma_burst_len (control ch) false) (bl808_dma_burst_len (control ch) true) in
  if negb (active ch) || negb (tst (config ch) DMA_CFG_ENABLE) || tst (config ch) DMA_CFG_HALT
  then (set_chan s chno (ch <| active := false |>), e, false)
  else if (src_width =? 0) || (dst_width =? 0) then (bl808_dma_error_channel s chno, e, true)
  else if ((4 <? src_width) || (4 <? dst_width)) && negb (flow =? DMA_FLOW_M2M)
  then (bl808_dma_error_channel s chno, e, true)
  else if remaining =? 0 then next_or_complete s e chno
  else
    let limit := Z.min remaining DMA_MAX_STEPS_PER_RUN in
    let limit := if negb (flow =? DMA_FLOW_M2M) then Z.min limit (Z.max 1 burst) else limit in
    match item_loop (Z.to_nat limit) s e chno flow src_width dst_width src_req dst_req remaining false with
    | Return s e => (s, e, true)
    | Out s e remaining made_progress =>
        if remaining =? 0 then next_or_complete s e chno
        else if negb made_progress &&
                ((flow =? DMA_FLOW_M2P) || (flow =? DMA_FLOW_M2P_PERI)) &&
                negb (if request s dst_req then true else false)
        then (bl808_dma_error_channel s chno, e, true)
        else if negb made_progress && flow_reads_peri flow &&
                negb (if request s src_req then true else false)
        then (bl808_dma_error_channel s chno, e, true)
        else (s, e, made_progress)
    end.

(** ** The bottom half and the poll timer *)

Definition step_channels (s : BL808DMAState) (e : E) (ns : list Z) : BL808DMAState * E * bool :=
  foldl (λ '(s, e, progress) i,
           let '(s, e, p) := bl808_dma_step_channel s e i in (s, e, progress || p)) (s, e, false) ns.

Definition bl808_dma_run_bh (s : BL808DMAState) (e : E) (now : Z) : BL808DMAState * E :=
  let s := s <| run_scheduled := false |> in
  if negb (bl808_dma_can_run s) then (bl808_dma_update_irq s, e)
  else
    let '(s, e, progress) := step_channels s e (chnos s) in
    let s := bl808_dma_update_irq s in
    if negb (bl808_dma_has_active_channels s) then (s, e)
    else if progress then (bl808_dma_schedule s, e)
    else (bl808_dma_reschedule_poll s now, e).

Definition bl808_dma_poll_timer_cb (s : BL808DMAState) : BL808DMAState :=
  if negb (run_scheduled s) then bl808_dma_schedule s else s.

(** ** Register access *)

Definition bl808_dma_read (s : BL808DMAState) (offset size : Z) : Z :=
  if negb (size =? 4) then 0
  else if offset =? DMA_INT_STATUS then
    Z.lor (bl808_dma_visible_tc_status s) (bl808_dma_visible_err_status s)
  else if offset =? DMA_INT_TC_STATUS then bl808_dma_visible_tc_status s
  else if offset =? DMA_INT_ERR_STATUS then bl808_dma_visible_err_status s
  else if offset =? DMA_RAW_INT_TC then raw_tc_status s
  else if offset =? DMA_RAW_INT_ERR then raw_err_status s
  else if offset =? DMA_ENABLED_CHNS then bl808_dma_enabled_channels s
  else if offset =? DMA_SOFT_BREQ then soft_breq s
  else if offset =? DMA_SOFT_SREQ then soft_sreq s
  else if offset =? DMA_SOFT_LBREQ then soft_lbreq s
  else if offset =? DMA_SOFT_LSREQ then soft_lsreq s
  else if offset =? DMA_TOP_CONFIG then top_config s
  else if offset =? DMA_SYNC then sync s
  else if (offset <? DMA_CH_BASE) || (DMA_CH_BASE + BL808_DMA_CHANNELS * DMA_CH_STRIDE <=? offset) then 0
  else
    let chno := (offset - DMA_CH_BASE) / DMA_CH_STRIDE in
    if bl808_dma_channel_count s <=? chno then 0
    else
      let ch := chan s chno in
      let choff := (offset - DMA_CH_BASE) mod DMA_CH_STRIDE in
      if choff =? DMA_CH_SRC_ADDR then src_addr ch
      else if choff =? DMA_CH_DST_ADDR then dst_addr ch
      else if choff =? DMA_CH_LLI then lli ch
      else if choff =? DMA_CH_CONTROL then control ch
      else if choff =? DMA_CH_CONFIG then Z.lor (config ch) (if active ch then DMA_CFG_ACTIVE else 0)
      else 0.

Definition bl808_dma_write_channel_config (s : BL808DMAState) (chno value : Z) : BL808DMAState :=
  let ch := chan s chno in
  let was_enabled := tst (config ch) DMA_CFG_ENABLE in
  let enable := tst value DMA_CFG_ENABLE in
  let ch := ch <| config := clr value DMA_CFG_ACTIVE |> in
  if negb enable then
    set_chan s chno (ch <| active := false |> <| config := clr (config ch) DMA_CFG_ENABLE |>)
  else
    let ch := if negb was_enabled || negb (active ch) then ch <| active := true |> else ch in
    bl808_dma_schedule (set_chan s chno ch).

Definition bl808_dma_write (s : BL808DMAState) (offset value size : Z) : BL808DMAState :=
  if negb (size =? 4) then s
  else if reset_asserted s then s
  else if offset =? DMA_INT_TC_CLEAR then
    bl808_dma_update_irq (s <| raw_tc_status := Z.land (raw_tc_status s) (not32 (u32 value)) |>)
  else if offset =? DMA_INT_ERR_CLEAR then
    bl808_dma_update_irq (s <| raw_err_status := Z.land (raw_err_status s) (not32 (u32 value)) |>)
  else if offset =? DMA_SOFT_BREQ then bl808_dma_schedule (s <| soft_breq := u32 value |>)
  else if offset =? DMA_SOFT_SREQ then bl808_dma_schedule (s <| soft_sreq := u32 value |>)
  else if offset =? DMA_SOFT_LBREQ then bl808_dma_schedule (s <| soft_lbreq := u32 value |>)
  else if offset =? DMA_SOFT_LSREQ then bl808_dma_schedule (s <| soft_lsreq := u32 value |>)
  else if offset =? DMA_TOP_CONFIG then
    let s := s <| top_config := Z.land (u32 value) DMA_TOP_ENABLE |> in
    if tst (top_config s) DMA_TOP_ENABLE then bl808_dma_schedule s else bl808_dma_cancel_work s
  else if offset =? DMA_SYNC then s <| sync := u32 value |>
  else if (offset <? DMA_CH_BASE) || (DMA_CH_BASE + BL808_DMA_CHANNELS * DMA_CH_STRIDE <=? offset) then s
  else
    let chno := (offset - DMA_CH_BASE) / DMA_CH_STRIDE in
    if bl808_dma_channel_count s <=? chno then s
    else
      let ch := chan s chno in
      let choff := (offset - DMA_CH_BASE) mod DMA_CH_STRIDE in
      if choff =? DMA_CH_SRC_ADDR then
        bl808_dma_update_irq (set_chan s chno (ch <| src_addr := u32 value |>))
      else if choff =? DMA_CH_DST_ADDR then
        bl808_dma_update_irq (set_chan s chno (ch <| dst_addr := u32 value |>))
      else if choff =? DMA_CH_LLI then
        bl808_dma_update_irq (set_chan s chno (ch <| lli := u32 value |>))
      else if choff =? DMA_CH_CONTROL then
        bl808_dma_update_irq (set_chan s chno (ch <| control := u32 value |>))
      else if choff =? DMA_CH_CONFIG then
        bl808_dma_update_irq (bl808_dma_write_channel_config s chno (u32 value))
      else s.

(** ** Wiring, clock and reset *)

Definition bl808_dma_register_request (s : BL808DMAState) (request_id : Z)
    (ops : option BL808DMARequestOps) : BL808DMAState :=
  if BL808_DMA_REQUEST_LINES <=? request_id then s
  else s <| requests := <[Z.to_nat request_id := ops]> (requests s) |>.

Definition bl808_dma_set_clock_enabled (s : BL808DMAState) (enabled : bool) : BL808DMAState :=
  let s := s <| clock_enabled := enabled |> in
  let s := if negb enabled then bl808_dma_cancel_work s else bl808_dma_schedule s in
  bl808_dma_update_irq s.

Definition bl808_dma_reset (s : BL808DMAState) : BL808DMAState :=
  let s := s <| channels := replicate (Z.to_nat BL808_DMA_CHANNELS) (mk_channel 0 0 0 0 0 false) |>
             <| raw_tc_status := 0 |> <| raw_err_status := 0 |> <| soft_breq := 0 |>
             <| soft_sreq := 0 |> <| soft_lbreq := 0 |> <| soft_lsreq := 0 |>
             <| top_config := 0 |> <| sync := 0 |> in
  bl808_dma_update_irq (bl808_dma_cancel_work s).

Definition bl808_dma_set_reset_asserted `{!ColdReset bl808_dma_reset} (s : BL808DMAState)
    (asserted : bool) : BL808DMAState :=
  let s := s <| reset_asserted := asserted |> in
  let s := if asserted then device_cold_reset s else bl808_dma_schedule s in
  bl808_dma_update_irq s.

(** [bl808_dma_init] on the zeroed object; the properties may then replace
    [channel_count] and [supports_doubleword_width]. *)
Definition bl808_dma_init (s : BL808DMAState) : BL808DMAState :=
  s <| channel_count := BL808_DMA_CHANNELS |> <| supports_doubleword_width := false |>
    <| clock_enabled := false |>.

End dma.
#[global] Arguments BL808DMARequestOps : clear implicits.
#[global] Arguments BL808DMAState : clear implicits.
End BL808DMA.
