(* ===== verification/DmaSpec.v ===== *)
(** * The DMA controller: what a transfer does

    The reference meaning of a memory-to-memory descriptor is [copy_items], a
    function on memories that moves one item after the other; the controller,
    which works in bounded slices from a bottom half it reschedules, is proved
    to compute it for whole descriptor chains.  Peripheral flows are proved
    against the interface [TxPort] of a requester that accepts items. *)

From S2P Require Import Prelude Qemu Dma.
From stdpp Require Import prelude list.
From Stdlib Require Import ZArith Lia.
Local Open Scope Z_scope.
Import BL808DMA.

(** ** The reference: copying items *)

(** One item of [sw] bytes at [src] becomes an item of [dw] bytes at [dst],
    truncated or extended with zeroes. *)
Definition copy_item (src dst sw dw : Z) (m : mem) : mem := λ a,
  if decide (dst ≤ a < dst + dw) then (if decide (a - dst < sw) then m (src + (a - dst)) else 0) else m a.

Definition bump (inc : bool) (a w : Z) : Z := if inc then u32 (a + w) else a.

Fixpoint copy_items (n : nat) (src dst sw dw : Z) (si di : bool) (m : mem) : mem :=
  match n with
  | O => m
  | S n => copy_items n (bump si src sw) (bump di dst dw) sw dw si di (copy_item src dst sw dw m)
  end.

#[export] Instance copy_item_proper src dst sw dw : Proper ((≡) ==> (≡)) (copy_item src dst sw dw).
Proof. intros m m' H a. unfold copy_item. by rewrite !H. Qed.

#[export] Instance copy_items_proper n src dst sw dw si di :
  Proper ((≡) ==> (≡)) (copy_items n src dst sw dw si di).
Proof.
  revert src dst. induction n as [|n IH]; intros src dst m m' H; [done|].
  cbn [copy_items]. apply IH. by apply copy_item_proper.
Qed.

Lemma copy_items_app n n' src dst sw dw si di m :
  copy_items (n + n') src dst sw dw si di m =
  copy_items n' (Nat.iter n (λ a, bump si a sw) src) (Nat.iter n (λ a, bump di a dw) dst) sw dw si di
    (copy_items n src dst sw dw si di m).
Proof.
  revert src dst m. induction n as [|n IH]; intros src dst m; [done|].
  cbn [copy_items Nat.add]. by rewrite IH, !Nat.iter_succ_r.
Qed.

(** With incrementing addresses, items of equal width, and blocks that neither
    overlap nor reach the end of the address space, it is a block copy. *)
Lemma copy_items_block n src dst w m :
  0 < w → 0 ≤ src → 0 ≤ dst → src + Z.of_nat n * w ≤ 2 ^ 32 → dst + Z.of_nat n * w ≤ 2 ^ 32 →
  (src + Z.of_nat n * w ≤ dst ∨ dst + Z.of_nat n * w ≤ src) →
  ∀ a, copy_items n src dst w w true true m a =
       if decide (dst ≤ a < dst + Z.of_nat n * w) then m (src + (a - dst)) else m a.
Proof.
  revert src dst m. induction n as [|n IH]; intros src dst m Hw Hs Hd Hse Hde Hov a.
  { cbn [copy_items]. by rewrite decide_False by lia. }
  destruct (decide (n = 0%nat)) as [->|Hn].
  { cbn [copy_items]. unfold copy_item. repeat case_decide; try lia; done. }
  cbn [copy_items bump]. unfold wrap. rewrite !Z.mod_small by nia. rewrite IH by nia.
  unfold copy_item. repeat case_decide; try nia; f_equal; lia.
Qed.

(** ** Fields of the control word *)

Lemma XFER_MASK_ones : DMA_CTRL_XFER_MASK = Z.ones 12.
Proof. done. Qed.

Definition with_count (c r : Z) : Z := Z.lor (clr c DMA_CTRL_XFER_MASK) r.

Lemma with_count_bits c r i : 0 ≤ r < 4096 → 12 ≤ i → Z.testbit (with_count c r) i = Z.testbit c i.
Proof.
  intros Hr Hi. unfold with_count. rewrite Z.lor_spec, clr_spec, XFER_MASK_ones, Z.ones_spec_high by lia.
  rewrite (uint_testbit_high 12 r) by (unfold uint; lia). simpl. by rewrite andb_true_r, orb_false_r.
Qed.

Lemma with_count_tst c r k : 0 ≤ r < 4096 → 12 ≤ k → tst (with_count c r) (BIT k) = tst c (BIT k).
Proof. intros. rewrite !tst_BIT by lia. by apply with_count_bits. Qed.

Lemma with_count_field c r k m : 0 ≤ r < 4096 → 12 ≤ k →
  Z.land (Z.shiftr (with_count c r) k) m = Z.land (Z.shiftr c k) m.
Proof.
  intros Hr Hk. apply Z.bits_inj'. intros i Hi. rewrite !Z.land_spec, !Z.shiftr_spec by lia.
  by rewrite with_count_bits by lia.
Qed.

Lemma with_count_count c r : 0 ≤ r < 4096 → Z.land (with_count c r) DMA_CTRL_XFER_MASK = r.
Proof.
  intros Hr. apply Z.bits_inj'. intros i Hi. unfold with_count.
  rewrite Z.land_spec, Z.lor_spec, clr_spec by lia. destruct (decide (i < 12)).
  - rewrite XFER_MASK_ones, Z.ones_spec_low by lia. simpl. by rewrite andb_false_r, andb_true_r.
  - rewrite XFER_MASK_ones, Z.ones_spec_high by lia. rewrite (uint_testbit_high 12 r) by (unfold uint; lia).
    by rewrite !andb_false_r.
Qed.

Lemma with_count_twice c r r' : 0 ≤ r < 4096 → with_count (with_count c r) r' = with_count c r'.
Proof.
  intros Hr. apply Z.bits_inj'. intros i Hi. unfold with_count. rewrite !Z.lor_spec, !clr_spec, Z.lor_spec, clr_spec by lia.
  destruct (decide (i < 12)).
  - rewrite XFER_MASK_ones, Z.ones_spec_low by lia. simpl. by rewrite !andb_false_r.
  - rewrite XFER_MASK_ones, Z.ones_spec_high by lia. rewrite (uint_testbit_high 12 r) by (unfold uint; lia).
    simpl. by rewrite !andb_true_r, orb_false_r.
Qed.

Lemma with_count_id c : 0 ≤ c → with_count c (Z.land c DMA_CTRL_XFER_MASK) = c.
Proof.
  intros Hc. apply Z.bits_inj'. intros i Hi. unfold with_count. rewrite Z.lor_spec, clr_spec, Z.land_spec by lia.
  by destruct (Z.testbit c i), (Z.testbit DMA_CTRL_XFER_MASK i).
Qed.

Lemma count_bounds c : 0 ≤ Z.land c DMA_CTRL_XFER_MASK < 4096.
Proof. rewrite XFER_MASK_ones, Z.land_ones by lia. apply Z.mod_pos_bound. lia. Qed.

(** ** Channels of the device *)

Section device.
Context {E : Type} `{!PhysMem E}.
Implicit Types (s : BL808DMAState E) (e : E).

Definition has (s : BL808DMAState E) (c : Z) : Prop := 0 ≤ c < Z.of_nat (length (channels s)).

Lemma chan_set_eq s c ch : has s c → chan (set_chan s c ch) c = ch.
Proof. intros [? ?]. unfold chan, set_chan. cbn. apply list_lookup_total_insert_eq. lia. Qed.

Lemma chan_set_ne s c i ch : 0 ≤ c → 0 ≤ i → c ≠ i → chan (set_chan s c ch) i = chan s i.
Proof. intros. unfold chan, set_chan. cbn. apply list_lookup_total_insert_ne. lia. Qed.

Lemma set_chan_twice s c ch ch' : set_chan (set_chan s c ch) c ch' = set_chan s c ch'.
Proof. unfold set_chan. cbn. by rewrite list_insert_insert_eq. Qed.

Lemma set_chan_id s c : has s c → set_chan s c (chan s c) = s.
Proof.
  intros [? ?]. unfold set_chan, chan. cbn.
  rewrite list_insert_id; [by destruct s|]. apply list_lookup_lookup_total_lt. lia.
Qed.

Lemma has_set s c i ch : has (set_chan s i ch) c ↔ has s c.
Proof. unfold has, set_chan. cbn. by rewrite length_insert. Qed.

Lemma elem_chnos s i : i ∈ chnos s ↔ 0 ≤ i < bl808_dma_channel_count s.
Proof.
  unfold chnos. rewrite list_elem_of_fmap. split.
  - intros (j & -> & Hj%elem_of_seq). lia.
  - intros Hi. exists (Z.to_nat i). rewrite elem_of_seq. lia.
Qed.

Lemma chnos_nodup s : NoDup (chnos s).
Proof. unfold chnos. apply NoDup_fmap; [intros ? ?; lia|apply NoDup_seq]. Qed.

Lemma count_range s : 1 ≤ bl808_dma_channel_count s ≤ 8.
Proof. unfold bl808_dma_channel_count, BL808_DMA_CHANNELS. lia. Qed.

(** ** Items *)

Fixpoint advances (n : nat) (ch : BL808DMAChannel) (sw dw r : Z) : BL808DMAChannel :=
  match n with O => ch | S n => advances n (advance ch sw dw (r - 1)) sw dw (r - 1) end.

Definition src_inc (c : Z) : bool := tst c DMA_CTRL_SRC_INC.
Definition dst_inc (c : Z) : bool := tst c DMA_CTRL_DST_INC.

Lemma advance_fields ch sw dw r :
  advance ch sw dw r =
  mk_channel (bump (src_inc (control ch)) (src_addr ch) sw) (bump (dst_inc (control ch)) (dst_addr ch) dw)
    (lli ch) (with_count (control ch) r) (config ch) (active ch).
Proof.
  destruct ch as [a b n c f g]. unfold advance, bump, src_inc, dst_inc, with_count. cbn [control src_addr dst_addr].
  destruct (tst c DMA_CTRL_SRC_INC); cbn [control src_addr dst_addr set_field]; by destruct (tst c DMA_CTRL_DST_INC).
Qed.

Lemma with_count_incs c r : 0 ≤ r < 4096 →
  src_inc (with_count c r) = src_inc c ∧ dst_inc (with_count c r) = dst_inc c.
Proof. intros. split; apply with_count_tst; lia. Qed.

(** After [n] items: the addresses moved, the count went down, nothing else. *)
Lemma advances_fields n ch sw dw r :
  0 ≤ control ch → r = Z.land (control ch) DMA_CTRL_XFER_MASK → Z.of_nat n ≤ r →
  advances n ch sw dw r =
  mk_channel (Nat.iter n (λ a, bump (src_inc (control ch)) a sw) (src_addr ch))
    (Nat.iter n (λ a, bump (dst_inc (control ch)) a dw) (dst_addr ch))
    (lli ch) (with_count (control ch) (r - Z.of_nat n)) (config ch) (active ch).
Proof.
  intros Hc. revert ch r Hc. induction n as [|n IH]; intros ch r Hc -> Hn; cbn [advances].
  { rewrite Z.sub_0_r, with_count_id by done. by destruct ch. }
  pose proof (count_bounds (control ch)) as Hb. rewrite advance_fields.
  set (r := Z.land (control ch) DMA_CTRL_XFER_MASK) in *.
  rewrite IH; cbn [control src_addr dst_addr lli config active].
  - destruct (with_count_incs (control ch) (r - 1) ltac:(lia)) as [-> ->].
    rewrite with_count_twice by lia. rewrite !Nat.iter_succ_r. f_equal. f_equal. lia.
  - apply Z.lor_nonneg. split; [|lia]. apply Z.land_nonneg. by left.
  - by rewrite with_count_count by lia.
  - lia.
Qed.

Section memory.
Context `{R : !Ram}.

Definition width (w : Z) : Prop := w = 1 ∨ w = 2 ∨ w = 4 ∨ w = 8.

Lemma width_test w : width w → (w =? 1) || (w =? 2) || (w =? 4) || (w =? 8) = true.
Proof. intros [->|[->|[->| ->]]]; done. Qed.

Lemma read_mem_ram a w e : width w → ram_range a w →
  bl808_dma_read_mem_value a w e = (le_to_cpu (ram e <$> seqZ a w), e).
Proof.
  intros Hw Hr. unfold bl808_dma_read_mem_value. rewrite width_test by done.
  assert (0 < w) by (destruct Hw as [->|[->|[->| ->]]]; lia).
  rewrite ram_read; rewrite Z2Nat.id by lia; done.
Qed.

Lemma copy_item_ram src dst sw dw e :
  width sw → width dw → ram_range src sw → ram_range dst dw →
  let '(v, e') := bl808_dma_read_mem_value src sw e in
  ram (bl808_dma_write_mem_value dst v dw e') ≡ copy_item src dst sw dw (ram e).
Proof.
  intros Hs Hd Hrs Hrd. rewrite read_mem_ram by done. intros a. unfold bl808_dma_write_mem_value.
  rewrite width_test by done. assert (0 < dw ∧ 0 < sw) as [? ?].
  { destruct Hs as [->|[->|[->| ->]]], Hd as [->|[->|[->| ->]]]; lia. }
  rewrite ram_write; rewrite ?cpu_to_le_length, ?Z2Nat.id by lia; [|done|apply cpu_to_le_bytes].
  unfold copy_item. case_decide; [|done].
  erewrite list_lookup_total_correct; [|apply cpu_to_le_lookup; lia].
  rewrite le_to_cpu_byte; [|apply Forall_fmap, Forall_true; intros; apply ram_byte].
  rewrite list_lookup_fmap. case_decide.
  - rewrite lookup_seqZ_lt by lia. simpl. f_equal. lia.
  - by rewrite lookup_seqZ_ge by lia.
Qed.

(** Every item of a transfer lies in memory. *)
Fixpoint items_ram (n : nat) (src dst sw dw : Z) (si di : bool) : Prop :=
  match n with
  | O => True
  | S n => ram_range src sw ∧ ram_range dst dw ∧ items_ram n (bump si src sw) (bump di dst dw) sw dw si di
  end.

Lemma items_ram_app n n' src dst sw dw si di :
  items_ram (n + n') src dst sw dw si di →
  items_ram n src dst sw dw si di ∧
  items_ram n' (Nat.iter n (λ a, bump si a sw) src) (Nat.iter n (λ a, bump di a dw) dst) sw dw si di.
Proof.
  revert src dst. induction n as [|n IH]; intros src dst; [done|]. cbn [items_ram Nat.add].
  intros (? & ? & Hx%IH). rewrite !Nat.iter_succ_r. naive_solver.
Qed.

Lemma m2m_loop n s e c sw dw sr dr r p :
  has s c → width sw → width dw →
  let ch := chan s c in
  0 ≤ control ch → r = Z.land (control ch) DMA_CTRL_XFER_MASK → Z.of_nat n ≤ r →
  items_ram n (src_addr ch) (dst_addr ch) sw dw (src_inc (control ch)) (dst_inc (control ch)) →
  ∃ e', item_loop n s e c DMA_FLOW_M2M sw dw sr dr r p =
          Out (set_chan s c (advances n ch sw dw r)) e' (r - Z.of_nat n) (p || (0 <? n)%nat) ∧
        ram e' ≡ copy_items n (src_addr ch) (dst_addr ch) sw dw (src_inc (control ch)) (dst_inc (control ch)) (ram e).
Proof.
  intros Hc Hsw Hdw ch. subst ch. revert s e r p Hc. induction n as [|n IH]; intros s e r p Hc Hctl Hr Hn Hram.
  { exists e. cbn. rewrite set_chan_id, Z.sub_0_r, orb_false_r by done. done. }
  destruct Hram as (Hr1 & Hr2 & Hram). pose proof (count_bounds (control (chan s c))) as Hb. rewrite <- Hr in Hb.
  cbn [item_loop]. rewrite (proj2 (Z.ltb_lt 0 r)) by lia. cbn [negb]. unfold fetch_item, store_item.
  cbn [flow_reads_mem flow_writes_mem DMA_FLOW_M2M Z.eqb orb].
  pose proof (copy_item_ram (src_addr (chan s c)) (dst_addr (chan s c)) sw dw e Hsw Hdw Hr1 Hr2) as He.
  destruct (bl808_dma_read_mem_value (src_addr (chan s c)) sw e) as [v e1]. cbv zeta.
  set (e2 := bl808_dma_write_mem_value (dst_addr (chan s c)) v dw e1) in *.
  set (ch1 := advance (chan s c) sw dw (r - 1)). set (s1 := set_chan s c ch1).
  assert (chan s1 c = ch1) as E1 by (by apply chan_set_eq).
  pose proof (advance_fields (chan s c) sw dw (r - 1)) as Ea. fold ch1 in Ea.
  destruct (with_count_incs (control (chan s c)) (r - 1) ltac:(lia)) as [Ei1 Ei2].
  destruct (IH s1 e2 (r - 1) true) as (e' & Hl & He'); rewrite ?E1, ?Ea; cbn [control src_addr dst_addr].
  - by apply has_set.
  - apply Z.lor_nonneg. split; [|lia]. apply Z.land_nonneg. by left.
  - by rewrite with_count_count by lia.
  - lia.
  - by rewrite Ei1, Ei2.
  - exists e'. split.
    + rewrite Hl, E1. unfold s1. rewrite set_chan_twice. cbn [advances]. fold ch1. rewrite orb_true_r. f_equal. lia.
    + rewrite He', E1, Ea. cbn [control src_addr dst_addr copy_items]. rewrite Ei1, Ei2.
      by apply copy_items_proper.
Qed.

(** ** Descriptors *)

Record desc := mk_desc { d_src : Z; d_dst : Z; d_next : Z; d_ctl : Z }.

Definition chan_of (d : desc) (cfg : Z) : BL808DMAChannel :=
  mk_channel (d_src d) (d_dst d) (d_next d) (d_ctl d) cfg true.

Definition d_count (d : desc) : Z := Z.land (d_ctl d) DMA_CTRL_XFER_MASK.

(** Bytes per item, from the two bits of the control word at [sh]; [dbl] allows
    the 8-byte width. *)
Definition item_bytes (dbl : bool) (sh : Z) (ctl : Z) : Z :=
  let w := Z.land (Z.shiftr ctl sh) 3 in
  if w =? 3 then (if dbl then 8 else 0) else 2 ^ w.
Definition d_sw (dbl : bool) (d : desc) : Z := item_bytes dbl DMA_CTRL_SW_SHIFT (d_ctl d).
Definition d_dw (dbl : bool) (d : desc) : Z := item_bytes dbl DMA_CTRL_DW_SHIFT (d_ctl d).

(** What a descriptor does to the memory. *)
Definition run_desc (dbl : bool) (m : mem) (d : desc) : mem :=
  copy_items (Z.to_nat (d_count d)) (d_src d) (d_dst d) (d_sw dbl d) (d_dw dbl d)
    (src_inc (d_ctl d)) (dst_inc (d_ctl d)) m.

(** The descriptor can be executed: its widths are supported and its items lie
    in memory. *)
Record good (dbl : bool) (d : desc) : Prop := {
  gd_ctl : 0 ≤ d_ctl d;
  gd_sw : d_sw dbl d ≠ 0;
  gd_dw : d_dw dbl d ≠ 0;
  gd_ram : items_ram (Z.to_nat (d_count d)) (d_src d) (d_dst d) (d_sw dbl d) (d_dw dbl d)
             (src_inc (d_ctl d)) (dst_inc (d_ctl d));
}.

Definition word_at (m : mem) (a : Z) : Z := le_to_cpu (m <$> seqZ a 4).
Definition desc_at (m : mem) (a : Z) : desc :=
  mk_desc (word_at m (u32 (a + 0))) (word_at m (u32 (a + 4))) (word_at m (u32 (a + 8))) (word_at m (u32 (a + 12))).
Definition desc_ram (a : Z) : Prop :=
  ram_range (u32 (a + 0)) 4 ∧ ram_range (u32 (a + 4)) 4 ∧ ram_range (u32 (a + 8)) 4 ∧ ram_range (u32 (a + 12)) 4.

(** From memory [m], the chain that starts with [d] continues with [ds]: each
    next descriptor is read after the transfers before it. *)
Fixpoint chained (dbl : bool) (m : mem) (d : desc) (ds : list desc) : Prop :=
  good dbl d ∧
  match ds with
  | [] => d_next d = 0
  | d' :: ds =>
      d_next d ≠ 0 ∧ desc_ram (d_next d) ∧ desc_at (run_desc dbl m d) (d_next d) = d' ∧
      chained dbl (run_desc dbl m d) d' ds
  end.

#[local] Instance word_at_proper : Proper ((≡) ==> (=) ==> (=)) word_at.
Proof.
  intros m m' Hm a ? <-. unfold word_at. f_equal. apply list_eq. intros i. rewrite !list_lookup_fmap.
  destruct (seqZ a 4 !! i); simpl; [by rewrite Hm|done].
Qed.
#[local] Instance desc_at_proper : Proper ((≡) ==> (=) ==> (=)) desc_at.
Proof. intros m m' Hm a ? <-. unfold desc_at. by rewrite !Hm. Qed.
#[local] Instance run_desc_proper dbl : Proper ((≡) ==> (=) ==> (≡)) (run_desc dbl).
Proof. intros m m' Hm d ? <-. by apply copy_items_proper. Qed.

Lemma chained_proper dbl m m' d ds : m ≡ m' → chained dbl m d ds → chained dbl m' d ds.
Proof.
  revert m m' d. induction ds as [|d' ds IH]; intros m m' d Hm; [done|]. cbn [chained].
  intros (? & ? & ? & He & Hc). split_and!; [done..|by rewrite <- Hm|].
  eapply IH; [|done]. by rewrite Hm.
Qed.

Lemma word_at_nonneg e a : 0 ≤ word_at (ram e) a.
Proof.
  unfold word_at. assert (Forall (uint 8) (ram e <$> seqZ a 4)) as Hf
    by (apply Forall_fmap, Forall_true; intros; apply ram_byte).
  revert Hf. generalize (ram e <$> seqZ a 4). intros l. induction 1 as [|b l [Hb _] _ IH]; simpl; lia.
Qed.

Lemma item_width dbl sh c : 0 ≤ sh → item_bytes dbl sh c ≠ 0 → width (item_bytes dbl sh c).
Proof.
  intros Hs. unfold item_bytes. pose proof (Z.land_ones (Z.shiftr c sh) 2 ltac:(lia)) as Hl. change (Z.ones 2) with 3 in Hl.
  pose proof (Z.mod_pos_bound (Z.shiftr c sh) (2 ^ 2) ltac:(lia)). rewrite <- Hl in *.
  set (w := Z.land (Z.shiftr c sh) 3) in *. clearbody w. unfold width.
  assert (w = 0 ∨ w = 1 ∨ w = 2 ∨ w = 3) as [->|[->|[->| ->]]] by lia; destruct dbl; vm_compute; naive_solver.
Qed.

Lemma width_bytes_eq s c : let dbl := supports_doubleword_width s in
  bl808_dma_width_bytes s c false = item_bytes dbl DMA_CTRL_SW_SHIFT c ∧
  bl808_dma_width_bytes s c true = item_bytes dbl DMA_CTRL_DW_SHIFT c.
Proof.
  unfold bl808_dma_width_bytes, item_bytes. cbv zeta.
  assert (∀ x, 0 ≤ Z.land x 3 < 4) as Hx.
  { intros x. change 3 with (Z.ones 2). rewrite Z.land_ones by lia. apply Z.mod_pos_bound. lia. }
  split.
  - pose proof (Hx (Z.shiftr c DMA_CTRL_SW_SHIFT)). set (w := Z.land _ 3) in *. clearbody w.
    assert (w = 0 ∨ w = 1 ∨ w = 2 ∨ w = 3) as [->|[->|[->| ->]]] by lia; done.
  - pose proof (Hx (Z.shiftr c DMA_CTRL_DW_SHIFT)). set (w := Z.land _ 3) in *. clearbody w.
    assert (w = 0 ∨ w = 1 ∨ w = 2 ∨ w = 3) as [->|[->|[->| ->]]] by lia; done.
Qed.

Lemma item_bytes_count dbl sh c r : 12 ≤ sh → 0 ≤ r < 4096 → item_bytes dbl sh (with_count c r) = item_bytes dbl sh c.
Proof. intros. unfold item_bytes. by rewrite with_count_field by lia. Qed.

Lemma load_lli_desc ch e : lli ch ≠ 0 → desc_ram (lli ch) →
  let d := desc_at (ram e) (lli ch) in
  bl808_dma_load_lli ch e = Some (mk_channel (d_src d) (d_dst d) (d_next d) (d_ctl d) (config ch) (active ch), e).
Proof.
  intros Hn (H0 & H4 & H8 & H12). unfold bl808_dma_load_lli. rewrite (proj2 (Z.eqb_neq _ _) Hn).
  unfold read_word. by rewrite !ram_read by done.
Qed.

(** ** A running channel *)

(** Channel [c] alone is active and executes the descriptor [d]. *)
Record running (s : BL808DMAState E) (c cfg : Z) (d : desc) : Prop := {
  rn_len : length (channels s) = 8%nat;
  rn_c : 0 ≤ c < bl808_dma_channel_count s;
  rn_ch : chan s c = chan_of d cfg;
  rn_cfg : tst cfg DMA_CFG_ENABLE = true ∧ tst cfg DMA_CFG_HALT = false;
  rn_others i : 0 ≤ i < bl808_dma_channel_count s → i ≠ c → active (chan s i) = false;
  rn_can : bl808_dma_can_run s = true;
}.

Lemma running_has s c cfg d : running s c cfg d → has s c.
Proof. intros []. pose proof (count_range s). unfold has. lia. Qed.

(** What is left of a descriptor after [n] items. *)
Definition rest_desc (dbl : bool) (n : nat) (d : desc) : desc :=
  mk_desc (Nat.iter n (λ a, bump (src_inc (d_ctl d)) a (d_sw dbl d)) (d_src d))
    (Nat.iter n (λ a, bump (dst_inc (d_ctl d)) a (d_dw dbl d)) (d_dst d))
    (d_next d) (with_count (d_ctl d) (d_count d - Z.of_nat n)).

Lemma rest_desc_good dbl n d m : good dbl d → Z.of_nat n ≤ d_count d →
  let d' := rest_desc dbl n d in
  good dbl d' ∧ d_count d' = d_count d - Z.of_nat n ∧
  tst (d_ctl d') DMA_CTRL_TC_IRQ_EN = tst (d_ctl d) DMA_CTRL_TC_IRQ_EN ∧
  run_desc dbl (copy_items n (d_src d) (d_dst d) (d_sw dbl d) (d_dw dbl d) (src_inc (d_ctl d)) (dst_inc (d_ctl d)) m) d'
    = run_desc dbl m d.
Proof.
  intros [Hc Hsw Hdw Hram] Hn d'. pose proof (count_bounds (d_ctl d)) as Hb. fold (d_count d) in Hb.
  assert (d_count d' = d_count d - Z.of_nat n) as Ec by (unfold d_count at 1; cbn; apply with_count_count; lia).
  assert (d_sw dbl d' = d_sw dbl d ∧ d_dw dbl d' = d_dw dbl d) as [E1 E2]
    by (split; apply item_bytes_count; unfold DMA_CTRL_SW_SHIFT, DMA_CTRL_DW_SHIFT; lia).
  destruct (with_count_incs (d_ctl d) (d_count d - Z.of_nat n) ltac:(lia)) as [E3 E4].
  assert (Z.to_nat (d_count d) = n + Z.to_nat (d_count d - Z.of_nat n))%nat as En by lia.
  split; [|split; [done|split; [apply with_count_tst; lia|]]].
  - split; rewrite ?E1, ?E2, ?Ec; cbn [d_ctl d' rest_desc d_src d_dst]; rewrite ?E3, ?E4; [|done..|].
    + apply Z.lor_nonneg. split; [|lia]. apply Z.land_nonneg. by left.
    + rewrite En in Hram. by apply items_ram_app in Hram as [_ ?].
  - unfold run_desc. rewrite E1, E2, Ec, En, copy_items_app. cbn [d_ctl d' rest_desc d_src d_dst].
    by rewrite E3, E4.
Qed.

(** One step of the channel moves up to 64 items. *)
Lemma slice s c cfg d e :
  running s c cfg d → bl808_dma_flow cfg = DMA_FLOW_M2M → good (supports_doubleword_width s) d →
  let dbl := supports_doubleword_width s in
  let n := Z.to_nat (Z.min (d_count d) 64) in
  let s1 := set_chan s c (chan_of (rest_desc dbl n d) cfg) in
  ∃ e1, ram e1 ≡ copy_items n (d_src d) (d_dst d) (d_sw dbl d) (d_dw dbl d) (src_inc (d_ctl d)) (dst_inc (d_ctl d)) (ram e) ∧
    bl808_dma_step_channel s e c = if d_count d <=? 64 then next_or_complete s1 e1 c else (s1, e1, true).
Proof.
  intros Hrun Hfl Hg dbl n s1. pose proof (running_has _ _ _ _ Hrun) as Hhas. destruct Hrun as [_ _ Hch [Hen Hha] _ _].
  destruct Hg as [Hctl Hsw Hdw Hram]. fold dbl in Hsw, Hdw, Hram.
  pose proof (count_bounds (d_ctl d)) as Hb. fold (d_count d) in Hb.
  unfold bl808_dma_step_channel. rewrite Hch. cbn [active config control chan_of src_addr dst_addr].
  destruct (width_bytes_eq s (d_ctl d)) as [-> ->]. fold dbl. fold (d_sw dbl d) (d_dw dbl d) (d_count d).
  rewrite Hen, Hha, Hfl, (proj2 (Z.eqb_neq _ _) Hsw), (proj2 (Z.eqb_neq _ _) Hdw).
  change (DMA_FLOW_M2M =? DMA_FLOW_M2M) with true. cbn [negb orb]. rewrite andb_false_r.
  change DMA_MAX_STEPS_PER_RUN with 64. fold n.
  destruct (m2m_loop n s e c (d_sw dbl d) (d_dw dbl d) (bl808_dma_src_request cfg) (bl808_dma_dst_request cfg) (d_count d) false)
    as (e1 & Hl & He); rewrite ?Hch; cbn [control chan_of src_addr dst_addr]; [done|by apply item_width|by apply item_width|done|done|lia| |].
  { replace (Z.to_nat (d_count d)) with (n + (Z.to_nat (d_count d) - n))%nat in Hram by lia.
    by apply items_ram_app in Hram as [? _]. }
  rewrite Hch in Hl, He. exists e1. split; [done|]. rewrite Hl.
  rewrite advances_fields by (done || lia). cbn [control chan_of src_addr dst_addr lli config active].
  fold (d_count d). change (mk_channel _ _ _ _ cfg true) with (chan_of (rest_desc dbl n d) cfg). fold s1.
  destruct (Z.eqb_spec (d_count d) 0) as [E0|E0].
  - rewrite (proj2 (Z.leb_le _ _)) by lia. assert (n = 0%nat) as En by (unfold n; rewrite E0; done).
    assert (s1 = s) as ->.
    { unfold s1. rewrite <- (set_chan_id s c Hhas) at 2. f_equal. rewrite Hch. unfold chan_of, rest_desc. rewrite En. cbn.
      by rewrite Z.sub_0_r, with_count_id. }
    rewrite En in Hl. cbn [item_loop] in Hl. by injection Hl as _ <-.
  - rewrite (proj2 (Nat.ltb_lt 0 n)) by lia. cbn [orb negb andb].
    destruct (Z.leb_spec (d_count d) 64).
    + by rewrite (proj2 (Z.eqb_eq _ _)) by lia.
    + by rewrite (proj2 (Z.eqb_neq _ _)) by lia.
Qed.

(** ** The bottom half *)

Lemma step_idle s e i : has s i → active (chan s i) = false → bl808_dma_step_channel s e i = (s, e, false).
Proof.
  intros Hi Ha. unfold bl808_dma_step_channel. rewrite Ha. cbn [negb orb].
  replace ((chan s i) <| active := false |>) with (chan s i); [by rewrite set_chan_id|].
  destruct (chan s i). cbn in Ha. by subst.
Qed.

Lemma step_channels_idle s e l p :
  (∀ i, i ∈ l → has s i ∧ active (chan s i) = false) →
  foldl (λ '(s, e, progress) i,
           let '(s, e, p) := bl808_dma_step_channel s e i in (s, e, progress || p)) (s, e, p) l = (s, e, p).
Proof.
  induction l as [|i l IH]; intros Hl; [done|]. cbn [foldl].
  destruct (Hl i) as [? ?]; [by left|]. rewrite step_idle, orb_false_r by done. apply IH. intros j Hj. apply Hl. by right.
Qed.

Lemma step_channels_only s e c s1 e1 p :
  c ∈ chnos s → (∀ i, i ∈ chnos s → has s i) → (∀ i, i ∈ chnos s → i ≠ c → active (chan s i) = false) →
  bl808_dma_step_channel s e c = (s1, e1, p) →
  (∀ i, 0 ≤ i → i ≠ c → chan s1 i = chan s i) → length (channels s1) = length (channels s) →
  step_channels s e (chnos s) = (s1, e1, p).
Proof.
  intros Hc Hhas Hidle Hstep Hsame Hlen. pose proof (chnos_nodup s) as Hnd. unfold step_channels.
  destruct (list_elem_of_split _ _ Hc) as (l1 & l2 & E1). rewrite E1 in *.
  apply NoDup_app in Hnd as (_ & Hd1 & [Hd2 _]%NoDup_cons). rewrite foldl_app, step_channels_idle.
  - cbn [foldl]. rewrite Hstep. apply step_channels_idle. intros i Hi.
    assert (i ∈ l1 ++ c :: l2) as Hin by set_solver. pose proof (Hhas i Hin) as Hi'.
    rewrite Hsame by (set_solver || apply Hi'). unfold has in *. rewrite Hlen. split; [done|].
    apply Hidle; [done|]. set_solver.
  - intros i Hi. split; [apply Hhas; set_solver|]. apply Hidle; [set_solver|]. set_solver.
Qed.

Lemma has_active_only s c :
  0 ≤ c < bl808_dma_channel_count s →
  (∀ i, 0 ≤ i < bl808_dma_channel_count s → i ≠ c → active (chan s i) = false) →
  bl808_dma_has_active_channels s = active (chan s c).
Proof.
  intros Hc Hi. unfold bl808_dma_has_active_channels. apply eq_bool_prop_intro. rewrite !Is_true_true, existsb_exists. split.
  - intros (i & Hin%list_elem_of_In%elem_chnos & Ha). destruct (decide (i = c)) as [->|]; [done|].
    by rewrite Hi in Ha.
  - intros Ha. exists c. split; [|done]. by apply list_elem_of_In, elem_chnos.
Qed.

(** The two forms the device takes after the bottom half: done, or scheduled
    again. *)
Definition idle_again (s : BL808DMAState E) : BL808DMAState E := s <| run_bh := false |> <| run_scheduled := false |>.
Definition rescheduled (s : BL808DMAState E) : BL808DMAState E := s <| run_scheduled := true |> <| run_bh := true |>.

Lemma running_flags s c cfg d : running s c cfg d → running (idle_again s) c cfg d.
Proof. intros []; by split. Qed.

Lemma bh_running s c cfg d e now ch t e1 :
  running s c cfg d →
  let s1 := (set_chan (idle_again s) c ch) <| raw_tc_status := t |> in
  bl808_dma_step_channel (idle_again s) e c = (s1, e1, true) →
  bl808_dma_run_bh (s <| run_bh := false |>) e now =
    ((if active ch then rescheduled (bl808_dma_update_irq s1) else bl808_dma_update_irq s1), e1).
Proof.
  intros Hr s1 Hstep. pose proof (running_flags _ _ _ _ Hr) as Hr0. pose proof (running_has _ _ _ _ Hr0) as Hhas.
  set (s0 := idle_again s) in *. destruct Hr0 as [Hlen Hc Hch Hcfg Hoth Hcan].
  unfold bl808_dma_run_bh. change (s <| run_bh := false |> <| run_scheduled := false |>) with s0.
  rewrite Hcan. cbn [negb].
  assert (∀ i, 0 ≤ i → i ≠ c → chan s1 i = chan s0 i) as Hsame.
  { intros i Hi Hne. change (chan s1 i) with (chan (set_chan s0 c ch) i). by apply chan_set_ne; [lia|..]. }
  erewrite step_channels_only; [|by apply elem_chnos| | |exact Hstep|done|].
  2: { intros i Hi%elem_chnos. pose proof (count_range s0). unfold has. lia. }
  2: { intros i Hi%elem_chnos. by apply Hoth. }
  2: { unfold s1. cbn. by rewrite length_insert. }
  assert (bl808_dma_has_active_channels (bl808_dma_update_irq s1) = active ch) as Ha.
  { rewrite (has_active_only _ c); [|done|].
    - change (chan (bl808_dma_update_irq s1) c) with (chan (set_chan s0 c ch) c). by rewrite chan_set_eq.
    - intros i Hi Hne. change (chan (bl808_dma_update_irq s1) i) with (chan s1 i). rewrite Hsame by (done || lia).
      by apply Hoth. }
  rewrite Ha. destruct (active ch) eqn:Eact; cbn [negb]; [|done].
  unfold bl808_dma_schedule. rewrite Ha. change (bl808_dma_can_run (bl808_dma_update_irq s1)) with (bl808_dma_can_run s0).
  rewrite Hcan. done.
Qed.

(** The main loop: while the bottom half is scheduled, it is dispatched, which
    first clears the request. *)
Fixpoint dma_drain (fuel : nat) (s : BL808DMAState E) (e : E) (now : Z) : BL808DMAState E * E :=
  match fuel with
  | O => (s, e)
  | S fuel =>
      if run_bh s then let '(s, e) := bl808_dma_run_bh (s <| run_bh := false |>) e now in dma_drain fuel s e now
      else (s, e)
  end.

Lemma drain_step fuel s c cfg d e now ch t e1 :
  running s c cfg d → run_bh s = true →
  let s1 := (set_chan (idle_again s) c ch) <| raw_tc_status := t |> in
  bl808_dma_step_channel (idle_again s) e c = (s1, e1, true) →
  dma_drain (S fuel) s e now =
    dma_drain fuel (if active ch then rescheduled (bl808_dma_update_irq s1) else bl808_dma_update_irq s1) e1 now.
Proof. intros Hr Hb s1 Hs. cbn [dma_drain]. rewrite Hb. by erewrite bh_running. Qed.

Lemma drain_stopped fuel s e now : run_bh s = false → dma_drain fuel s e now = (s, e).
Proof. intros H. destruct fuel; [done|]. cbn [dma_drain]. by rewrite H. Qed.

Lemma running_next s c cfg d d' :
  running s c cfg d →
  let s1 := (set_chan (idle_again s) c (chan_of d' cfg)) <| raw_tc_status := raw_tc_status s |> in
  running (rescheduled (bl808_dma_update_irq s1)) c cfg d'.
Proof.
  intros Hr s1. pose proof (running_has _ _ _ _ Hr) as Hh. destruct Hr as [Hlen Hc Hch Hcfg Hoth Hcan].
  split; [|done| |done| |done].
  - cbn. by rewrite length_insert.
  - change (chan (rescheduled (bl808_dma_update_irq s1)) c) with (chan (set_chan s c (chan_of d' cfg)) c).
    by apply chan_set_eq.
  - intros i Hi Hne. change (chan (rescheduled (bl808_dma_update_irq s1)) i) with (chan (set_chan s c (chan_of d' cfg)) i).
    rewrite chan_set_ne by lia. by apply Hoth.
Qed.

(** ** Descriptor chains *)

(** Bottom halves that a descriptor takes. *)
Definition slices (d : desc) : nat := Nat.max 1 (Z.to_nat ((d_count d + 63) / 64)).
Fixpoint chain_slices (d : desc) (ds : list desc) : nat :=
  slices d + match ds with [] => 0 | d' :: ds => chain_slices d' ds end.
Fixpoint last_desc (d : desc) (ds : list desc) : desc :=
  match ds with [] => d | d' :: ds => last_desc d' ds end.

(** The transfer is over: nothing scheduled, the channel switched off, the
    terminal count raised when the last descriptor asks for it, no error. *)
Record finished (s : BL808DMAState E) (c cfg : Z) (tc : bool) (s' : BL808DMAState E) : Prop := {
  fn_bh : run_bh s' = false;
  fn_scheduled : run_scheduled s' = false;
  fn_active : bl808_dma_has_active_channels s' = false;
  fn_config : config (chan s' c) = clr cfg (Z.lor DMA_CFG_ENABLE DMA_CFG_HALT);
  fn_count : Z.land (control (chan s' c)) DMA_CTRL_XFER_MASK = 0;
  fn_tc : raw_tc_status s' = if tc then Z.lor (raw_tc_status s) (BIT c) else raw_tc_status s;
  fn_err : raw_err_status s' = raw_err_status s;
}.

Lemma set_tc_own s c ch : (set_chan s c ch) <| raw_tc_status := raw_tc_status s |> = set_chan s c ch.
Proof. by destruct s. Qed.

(** The completion of a channel as a change of the channel and the status. *)
Lemma complete_form s c d cfg :
  has s c →
  let ch := mk_channel (d_src d) (d_dst d) (d_next d) (clr (d_ctl d) DMA_CTRL_XFER_MASK)
              (clr cfg (Z.lor DMA_CFG_ENABLE DMA_CFG_HALT)) false in
  bl808_dma_complete_channel (set_chan s c (chan_of d cfg)) c =
  (set_chan s c ch) <| raw_tc_status := if tst (d_ctl d) DMA_CTRL_TC_IRQ_EN
                                        then Z.lor (raw_tc_status s) (BIT c) else raw_tc_status s |>.
Proof.
  intros Hc ch. unfold bl808_dma_complete_channel. rewrite chan_set_eq, set_chan_twice by done.
  change ((chan_of d cfg) <| active := _ |> <| config := _ |> <| control := _ |>) with ch. cbv zeta.
  assert (tst (control ch) DMA_CTRL_TC_IRQ_EN = tst (d_ctl d) DMA_CTRL_TC_IRQ_EN) as ->.
  { unfold DMA_CTRL_TC_IRQ_EN. rewrite !tst_BIT by lia. cbn [control ch]. rewrite clr_spec by lia.
    change (Z.testbit DMA_CTRL_XFER_MASK 31) with false. apply andb_true_r. }
  destruct (tst _ _); [done|]. by destruct s.
Qed.

Lemma complete_finished s c cfg d d1 e1 now fuel :
  running s c cfg d →
  let t := if tst (d_ctl d1) DMA_CTRL_TC_IRQ_EN then Z.lor (raw_tc_status s) (BIT c) else raw_tc_status s in
  let ch := mk_channel (d_src d1) (d_dst d1) (d_next d1) (clr (d_ctl d1) DMA_CTRL_XFER_MASK)
              (clr cfg (Z.lor DMA_CFG_ENABLE DMA_CFG_HALT)) false in
  let s' := bl808_dma_update_irq ((set_chan (idle_again s) c ch) <| raw_tc_status := t |>) in
  dma_drain fuel s' e1 now = (s', e1) ∧ finished s c cfg (tst (d_ctl d1) DMA_CTRL_TC_IRQ_EN) s'.
Proof.
  intros Hr t ch s'. pose proof (running_has _ _ _ _ Hr) as Hh. destruct Hr as [Hlen Hc Hch Hcfg Hoth Hcan].
  split; [by apply drain_stopped|].
  assert (chan s' c = ch) as Ech by (change (chan s' c) with (chan (set_chan s c ch) c); by apply chan_set_eq).
  split; try done; rewrite ?Ech; try done.
  - rewrite (has_active_only _ c); [by rewrite Ech|done|]. intros i Hi Hne.
    change (chan s' i) with (chan (set_chan s c ch) i). rewrite chan_set_ne by lia. by apply Hoth.
  - cbn [control ch]. apply Z.bits_inj'. intros i Hi. rewrite Z.land_spec, clr_spec, Z.bits_0 by done.
    by destruct (Z.testbit (d_ctl d1) i), (Z.testbit DMA_CTRL_XFER_MASK i).
Qed.

(** A descriptor of more than 64 items goes on with the rest of it. *)
Lemma rest_chained dbl m d ds n :
  chained dbl m d ds → Z.of_nat n ≤ d_count d →
  let d' := rest_desc dbl n d in
  let m' := copy_items n (d_src d) (d_dst d) (d_sw dbl d) (d_dw dbl d) (src_inc (d_ctl d)) (dst_inc (d_ctl d)) m in
  chained dbl m' d' ds ∧ run_desc dbl m' d' = run_desc dbl m d.
Proof.
  intros Hc Hn d' m'. destruct ds as [|d2 ds]; destruct Hc as [Hg Hc];
    destruct (rest_desc_good dbl n d m Hg Hn) as (? & _ & _ & Hr); (split; [|done]); cbn [chained]; fold m' d' in Hr;
    (split; [done|]).
  - done.
  - by rewrite Hr.
Qed.

Lemma drain_chain fuel s c cfg d ds e now m :
  running s c cfg d → bl808_dma_flow cfg = DMA_FLOW_M2M → run_bh s = true → ram e ≡ m → chained (supports_doubleword_width s) m d ds →
  (chain_slices d ds ≤ fuel)%nat →
  ∃ s' e', dma_drain fuel s e now = (s', e') ∧
    finished s c cfg (tst (d_ctl (last_desc d ds)) DMA_CTRL_TC_IRQ_EN) s' ∧
    ram e' ≡ foldl (run_desc (supports_doubleword_width s)) m (d :: ds).
Proof.
  intros Hr Hfl. revert s d ds e m Hr. induction fuel as [|fuel IH]; intros s d ds e m Hr Hb Hm Hch Hf.
  { exfalso. destruct ds; cbn [chain_slices] in Hf; unfold slices in Hf; lia. }
  pose proof Hr as Hr'. apply running_flags in Hr'. set (s0 := idle_again s) in *. set (dbl := supports_doubleword_width s) in *.
  assert (good dbl d) as Hg by (destruct ds; apply Hch). pose proof (count_bounds (d_ctl d)) as Hcb. fold (d_count d) in Hcb.
  destruct (slice s0 c cfg d e Hr' Hfl Hg) as (e1 & He1 & Hstep). fold dbl in He1, Hstep.
  change (supports_doubleword_width s0) with dbl in He1, Hstep.
  set (n := Z.to_nat (Z.min (d_count d) 64)) in *. set (d1 := rest_desc dbl n d) in *.
  pose proof (running_has _ _ _ _ Hr') as Hh.
  destruct (rest_desc_good dbl n d m Hg ltac:(lia)) as (_ & Hc1 & Htc & _). fold d1 in Hc1, Htc.
  set (m1 := copy_items n (d_src d) (d_dst d) (d_sw dbl d) (d_dw dbl d) (src_inc (d_ctl d)) (dst_inc (d_ctl d)) m).
  assert (ram e1 ≡ m1) as Hm1 by (rewrite He1; by apply copy_items_proper).
  destruct (Z.leb_spec (d_count d) 64) as [Hle|Hgt].
  - assert (m1 = run_desc dbl m d) as Em1 by (unfold m1, run_desc, n; do 2 f_equal; lia).
    unfold next_or_complete in Hstep. rewrite chan_set_eq in Hstep by done.
    destruct ds as [|d2 ds]; destruct Hch as [_ Hch].
    + assert (bl808_dma_load_lli (chan_of d1 cfg) e1 = None) as El
        by (unfold bl808_dma_load_lli; change (lli (chan_of d1 cfg)) with (d_next d); by rewrite Hch).
      rewrite El, complete_form in Hstep by done.
      rewrite (drain_step fuel s c cfg d e now _ _ e1 Hr Hb Hstep). cbn [active].
      destruct (complete_finished s c cfg d d1 e1 now fuel Hr) as [Hd Hfin]. eexists _, _. split; [exact Hd|].
      split; [cbn [last_desc]; rewrite <- Htc; exact Hfin|]. cbn [foldl]. by rewrite <- Em1.
    + destruct Hch as (Hn & Hram & Hd2 & Hch). rewrite load_lli_desc in Hstep by done. cbv zeta in Hstep.
      change (lli (chan_of d1 cfg)) with (d_next d) in Hstep. cbn [config active chan_of] in Hstep.
      rewrite (desc_at_proper _ _ Hm1 _ _ eq_refl), Em1, Hd2 in Hstep. rewrite set_chan_twice in Hstep.
      change (mk_channel _ _ _ _ cfg true) with (chan_of d2 cfg) in Hstep. rewrite <- set_tc_own in Hstep.
      rewrite (drain_step fuel s c cfg d e now _ _ e1 Hr Hb Hstep). cbn [active chan_of].
      destruct (IH _ d2 ds e1 m1 (running_next s c cfg d d2 Hr) eq_refl Hm1) as (s' & e' & Hd & Hfin & Hm').
      * by rewrite Em1.
      * cbn [chain_slices] in Hf. unfold slices at 1 in Hf. lia.
      * exists s', e'. split; [exact Hd|]. split; [|cbn [foldl]; by rewrite <- Em1].
        destruct Hfin as [? ? ? ? ? Ht ?]. by split.
  - rewrite <- set_tc_own in Hstep. rewrite (drain_step fuel s c cfg d e now _ _ e1 Hr Hb Hstep). cbn [active chan_of].
    destruct (rest_chained dbl m d ds n Hch ltac:(lia)) as [Hch1 Hrd]. fold d1 m1 in Hch1, Hrd.
    destruct (IH _ d1 ds e1 m1 (running_next s c cfg d d1 Hr) eq_refl Hm1 Hch1) as (s' & e' & Hd & Hfin & Hm').
    + assert (S (slices d1) ≤ slices d)%nat.
      { unfold slices. rewrite Hc1. unfold n. rewrite Z.min_r, Z2Nat.id by lia.
        replace (d_count d - 64 + 63) with (d_count d + 63 + (-1) * 64) by lia. rewrite Z.div_add by lia.
        assert (2 ≤ (d_count d + 63) / 64) by (apply Z.div_le_lower_bound; lia). lia. }
      destruct ds; cbn [chain_slices] in Hf |- *; lia.
    + exists s', e'. split; [exact Hd|]. split; [|cbn [foldl] in Hm' |- *; by rewrite <- Hrd].
      assert (tst (d_ctl (last_desc d1 ds)) DMA_CTRL_TC_IRQ_EN = tst (d_ctl (last_desc d ds)) DMA_CTRL_TC_IRQ_EN) as <-
        by (destruct ds; [exact Htc|done]).
      destruct Hfin as [? ? ? ? ? Ht ?]. by split.
Qed.

(** ** Programming a channel *)

Definition ch_reg (c off : Z) : Z := DMA_CH_BASE + c * DMA_CH_STRIDE + off.

(** The writes by which software starts channel [c]. *)
Definition dma_program (s : BL808DMAState E) (c : Z) (d : desc) (cfg : Z) : BL808DMAState E :=
  let s := bl808_dma_write s (ch_reg c DMA_CH_SRC_ADDR) (d_src d) 4 in
  let s := bl808_dma_write s (ch_reg c DMA_CH_DST_ADDR) (d_dst d) 4 in
  let s := bl808_dma_write s (ch_reg c DMA_CH_LLI) (d_next d) 4 in
  let s := bl808_dma_write s (ch_reg c DMA_CH_CONTROL) (d_ctl d) 4 in
  bl808_dma_write s (ch_reg c DMA_CH_CONFIG) cfg 4.

(** The device is clocked, enabled, and has nothing to do. *)
Record ready (s : BL808DMAState E) (c : Z) : Prop := {
  rd_len : length (channels s) = 8%nat;
  rd_c : 0 ≤ c < bl808_dma_channel_count s;
  rd_idle i : 0 ≤ i < bl808_dma_channel_count s → active (chan s i) = false;
  rd_can : bl808_dma_can_run s = true;
  rd_sched : run_scheduled s = false;
}.

(** A write to a register of channel [c]. *)
Lemma write_channel s c off v :
  0 ≤ c < bl808_dma_channel_count s → 0 ≤ off < 256 → reset_asserted s = false →
  bl808_dma_write s (ch_reg c off) v 4 =
  let ch := chan s c in
  if off =? DMA_CH_SRC_ADDR then bl808_dma_update_irq (set_chan s c (ch <| src_addr := u32 v |>))
  else if off =? DMA_CH_DST_ADDR then bl808_dma_update_irq (set_chan s c (ch <| dst_addr := u32 v |>))
  else if off =? DMA_CH_LLI then bl808_dma_update_irq (set_chan s c (ch <| lli := u32 v |>))
  else if off =? DMA_CH_CONTROL then bl808_dma_update_irq (set_chan s c (ch <| control := u32 v |>))
  else if off =? DMA_CH_CONFIG then bl808_dma_update_irq (bl808_dma_write_channel_config s c (u32 v))
  else s.
Proof.
  intros Hc Ho Hr. pose proof (count_range s) as Hn. unfold bl808_dma_write. rewrite Hr. change (4 =? 4) with true. cbn [negb].
  assert (ch_reg c off = 256 * (c + 1) + off) as Er by (unfold ch_reg, DMA_CH_BASE, DMA_CH_STRIDE; lia).
  assert (∀ k, k < 256 → (ch_reg c off =? k) = false) as Hk by (intros; apply Z.eqb_neq; lia).
  rewrite !Hk by done. unfold DMA_CH_BASE, DMA_CH_STRIDE, BL808_DMA_CHANNELS.
  rewrite (proj2 (Z.ltb_ge _ _)), (proj2 (Z.leb_gt (256 + 8 * 256) _)) by lia. cbn [orb].
  replace ((ch_reg c off - 256) / 256) with c by (apply (Z.div_unique_pos _ _ _ off); lia).
  replace ((ch_reg c off - 256) mod 256) with off by (apply (Z.mod_unique_pos _ _ c); lia).
  rewrite (proj2 (Z.leb_gt _ _)) by lia. done.
Qed.

(** [s'] is [s] but for channel [c], which is [ch], and the interrupt lines. *)
Record only_channel (s : BL808DMAState E) (c : Z) (ch : BL808DMAChannel) (s' : BL808DMAState E) : Prop := {
  oc_ch : chan s' c = ch;
  oc_other i : 0 ≤ i → i ≠ c → chan s' i = chan s i;
  oc_len : length (channels s') = length (channels s);
  oc_count : channel_count s' = channel_count s;
  oc_dbl : supports_doubleword_width s' = supports_doubleword_width s;
  oc_can : bl808_dma_can_run s' = bl808_dma_can_run s;
  oc_reset : reset_asserted s' = reset_asserted s;
  oc_sched : run_scheduled s' = run_scheduled s;
  oc_status : raw_tc_status s' = raw_tc_status s ∧ raw_err_status s' = raw_err_status s ∧ requests s' = requests s;
}.

Lemma only_channel_refl s c : only_channel s c (chan s c) s.
Proof. by split. Qed.

Lemma only_channel_has s c ch s' : only_channel s c ch s' → has s c → has s' c.
Proof. intros [] ?. unfold has in *. congruence. Qed.

Lemma only_channel_set s c ch s' ch' :
  has s c → only_channel s c ch s' → only_channel s c ch' (bl808_dma_update_irq (set_chan s' c ch')).
Proof.
  intros Hh Ho. pose proof (only_channel_has _ _ _ _ Ho Hh) as Hh'. destruct Ho as [? Hot ? ? ? ? ? ? ?]. split; try done.
  - by apply chan_set_eq.
  - intros i Hi Hne. rewrite <- Hot by done. apply chan_set_ne; [apply Hh|done..].
  - cbn. by rewrite length_insert.
Qed.

Lemma write_only s c ch s' off v :
  only_channel s c ch s' → 0 ≤ c < bl808_dma_channel_count s → reset_asserted s = false → 0 ≤ off < 256 →
  bl808_dma_write s' (ch_reg c off) v 4 =
  if off =? DMA_CH_SRC_ADDR then bl808_dma_update_irq (set_chan s' c (ch <| src_addr := u32 v |>))
  else if off =? DMA_CH_DST_ADDR then bl808_dma_update_irq (set_chan s' c (ch <| dst_addr := u32 v |>))
  else if off =? DMA_CH_LLI then bl808_dma_update_irq (set_chan s' c (ch <| lli := u32 v |>))
  else if off =? DMA_CH_CONTROL then bl808_dma_update_irq (set_chan s' c (ch <| control := u32 v |>))
  else if off =? DMA_CH_CONFIG then bl808_dma_update_irq (bl808_dma_write_channel_config s' c (u32 v))
  else s'.
Proof.
  intros [<- _ _ Hc _ _ Hr _ _] Hlt Hrst Hoff. apply write_channel; [|done|by rewrite Hr].
  unfold bl808_dma_channel_count in *. by rewrite Hc.
Qed.

(** The four address and control registers. *)
Lemma program_registers s c d cfg :
  0 ≤ c < bl808_dma_channel_count s → has s c → reset_asserted s = false →
  uint 32 (d_src d) → uint 32 (d_dst d) → uint 32 (d_next d) → uint 32 (d_ctl d) →
  ∃ s4, only_channel s c (mk_channel (d_src d) (d_dst d) (d_next d) (d_ctl d) (config (chan s c)) (active (chan s c))) s4 ∧
        dma_program s c d cfg = bl808_dma_update_irq (bl808_dma_write_channel_config s4 c (u32 cfg)).
Proof.
  intros Hc Hh Hrst Hu1 Hu2 Hu3 Hu4. unfold dma_program.
  pose proof (only_channel_refl s c) as Ho.
  rewrite (write_only _ _ _ _ DMA_CH_SRC_ADDR _ Ho Hc Hrst) by (by vm_compute). change (DMA_CH_SRC_ADDR =? DMA_CH_SRC_ADDR) with true. cbn iota.
  eapply only_channel_set in Ho; [|done]. rewrite (write_only _ _ _ _ DMA_CH_DST_ADDR _ Ho Hc Hrst) by (by vm_compute).
  cbn [DMA_CH_SRC_ADDR DMA_CH_DST_ADDR Z.eqb Pos.eqb].
  eapply only_channel_set in Ho; [|done]. rewrite (write_only _ _ _ _ DMA_CH_LLI _ Ho Hc Hrst) by (by vm_compute).
  cbn [DMA_CH_SRC_ADDR DMA_CH_DST_ADDR DMA_CH_LLI Z.eqb Pos.eqb].
  eapply only_channel_set in Ho; [|done]. rewrite (write_only _ _ _ _ DMA_CH_CONTROL _ Ho Hc Hrst) by (by vm_compute).
  cbn [DMA_CH_SRC_ADDR DMA_CH_DST_ADDR DMA_CH_LLI DMA_CH_CONTROL Z.eqb Pos.eqb].
  eapply only_channel_set in Ho; [|done]. rewrite (write_only _ _ _ _ DMA_CH_CONFIG _ Ho Hc Hrst) by (by vm_compute).
  cbn [DMA_CH_SRC_ADDR DMA_CH_DST_ADDR DMA_CH_LLI DMA_CH_CONTROL DMA_CH_CONFIG Z.eqb Pos.eqb].
  eexists. split; [|reflexivity]. rewrite !wrap_small in Ho |- * by done. exact Ho.
Qed.

Lemma clr_active_bits cfg :
  tst (clr cfg DMA_CFG_ACTIVE) DMA_CFG_ENABLE = tst cfg DMA_CFG_ENABLE ∧
  tst (clr cfg DMA_CFG_ACTIVE) DMA_CFG_HALT = tst cfg DMA_CFG_HALT ∧
  bl808_dma_flow (clr cfg DMA_CFG_ACTIVE) = bl808_dma_flow cfg.
Proof.
  unfold DMA_CFG_ENABLE, DMA_CFG_HALT, DMA_CFG_ACTIVE. rewrite !tst_BIT, !clr_spec, !BIT_spec by lia. cbn [Z.eqb Pos.eqb negb].
  rewrite !andb_true_r. split_and!; [done..|]. unfold bl808_dma_flow. f_equal. apply Z.bits_inj'. intros i Hi.
  rewrite !Z.land_spec, clr_spec, BIT_spec by lia. destruct (Z.eqb_spec 17 i) as [<-|]; [|by rewrite andb_true_r].
  change (Z.testbit DMA_CFG_FLOW_MASK 17) with false. by rewrite !andb_false_r.
Qed.

Lemma program_running s c d cfg :
  ready s c → uint 32 (d_src d) → uint 32 (d_dst d) → uint 32 (d_next d) → uint 32 (d_ctl d) → uint 32 cfg →
  tst cfg DMA_CFG_ENABLE = true → tst cfg DMA_CFG_HALT = false →
  let s1 := dma_program s c d cfg in
  running s1 c (clr cfg DMA_CFG_ACTIVE) d ∧ run_bh s1 = true ∧
  supports_doubleword_width s1 = supports_doubleword_width s ∧
  raw_tc_status s1 = raw_tc_status s ∧ raw_err_status s1 = raw_err_status s ∧ requests s1 = requests s.
Proof.
  intros [Hlen Hc Hidle Hcan Hsch] Hu1 Hu2 Hu3 Hu4 Hu5 Hen Hha. pose proof (count_range s) as Hn.
  assert (reset_asserted s = false) as Hrst.
  { unfold bl808_dma_can_run in Hcan. by apply andb_true_iff in Hcan as [[_ ?%negb_true_iff]%andb_true_iff _]. }
  assert (has s c) as Hh by (unfold has; lia).
  destruct (program_registers s c d cfg Hc Hh Hrst Hu1 Hu2 Hu3 Hu4) as (s4 & Ho & Hp). cbv zeta. rewrite Hp. clear Hp.
  unfold bl808_dma_write_channel_config. rewrite (wrap_small 32 cfg), Hen by done. cbn [negb].
  pose proof (only_channel_has _ _ _ _ Ho Hh) as Hh4. rewrite (oc_ch _ _ _ _ Ho). cbn [active config set_field].
  rewrite (Hidle c Hc). cbn [negb]. rewrite orb_true_r.
  destruct (clr_active_bits cfg) as (Eb1 & Eb2 & Eb3).
  set (ch5 := set_field true _). assert (ch5 = chan_of d (clr cfg DMA_CFG_ACTIVE)) as -> by done.
  set (ch5 := chan_of d (clr cfg DMA_CFG_ACTIVE)). set (s5 := set_chan s4 c ch5).
  assert (bl808_dma_channel_count s5 = bl808_dma_channel_count s) as Ecount
    by (unfold bl808_dma_channel_count; change (channel_count s5) with (channel_count s4); by rewrite (oc_count _ _ _ _ Ho)).
  assert (chan s5 c = ch5) as Ech by (by apply chan_set_eq).
  assert (∀ i, 0 ≤ i < bl808_dma_channel_count s5 → i ≠ c → active (chan s5 i) = false) as Hoth.
  { intros i Hi Hne. rewrite Ecount in Hi. unfold s5. rewrite chan_set_ne by lia. rewrite (oc_other _ _ _ _ Ho) by (done || lia).
    by apply Hidle. }
  assert (bl808_dma_has_active_channels s5 = true) as Hact by (rewrite (has_active_only s5 c), Ech; [done|by rewrite Ecount|done]).
  assert (bl808_dma_can_run s5 = true) as Hcan5 by (change (bl808_dma_can_run s5) with (bl808_dma_can_run s4); by rewrite (oc_can _ _ _ _ Ho)).
  unfold bl808_dma_schedule. rewrite Hact, Hcan5. change (run_scheduled s5) with (run_scheduled s4).
  rewrite (oc_sched _ _ _ _ Ho), Hsch. cbn [negb orb]. destruct (oc_status _ _ _ _ Ho) as (? & ? & ?).
  split; [|split; [done|split; [exact (oc_dbl _ _ _ _ Ho)|done]]].
  split; [|change (0 ≤ c < bl808_dma_channel_count s5); by rewrite Ecount|exact Ech|by rewrite Eb1, Eb2|exact Hoth|exact Hcan5].
  cbn. rewrite length_insert, (oc_len _ _ _ _ Ho). done.
Qed.

Lemma slices_bound d : (slices d ≤ 64)%nat.
Proof.
  unfold slices. pose proof (count_bounds (d_ctl d)) as Hb. fold (d_count d) in Hb.
  assert ((d_count d + 63) / 64 < 65) by (apply Z.div_lt_upper_bound; lia). lia.
Qed.

Lemma chain_slices_bound d ds : (chain_slices d ds ≤ 64 * S (length ds))%nat.
Proof.
  revert d. induction ds as [|d' ds IH]; intros d; cbn [chain_slices length]; pose proof (slices_bound d).
  - lia.
  - specialize (IH d'). lia.
Qed.

Lemma program_chain s c d ds cfg e now :
  ready s c → uint 32 (d_src d) → uint 32 (d_dst d) → uint 32 (d_next d) → uint 32 (d_ctl d) → uint 32 cfg →
  tst cfg DMA_CFG_ENABLE = true → tst cfg DMA_CFG_HALT = false → bl808_dma_flow cfg = DMA_FLOW_M2M →
  chained (supports_doubleword_width s) (ram e) d ds →
  ∃ s' e', dma_drain (64 * S (length ds)) (dma_program s c d cfg) e now = (s', e') ∧
    finished s c (clr cfg DMA_CFG_ACTIVE) (tst (d_ctl (last_desc d ds)) DMA_CTRL_TC_IRQ_EN) s' ∧
    ram e' ≡ foldl (run_desc (supports_doubleword_width s)) (ram e) (d :: ds).
Proof.
  intros Hr ? ? ? ? ? Hen Hha Hfl Hch.
  destruct (program_running s c d cfg Hr) as (Hrun & Hbh & Hdbl & Htc & Herr & _); [done..|].
  destruct (drain_chain (64 * S (length ds)) _ c _ d ds e now (ram e) Hrun) as (s' & e' & Hd & [? ? ? ? ? Ht ?] & Hm).
  - by rewrite (proj2 (proj2 (clr_active_bits cfg))).
  - done.
  - done.
  - by rewrite Hdbl.
  - apply chain_slices_bound.
  - exists s', e'. split; [done|]. rewrite <- Hdbl. split; [|done]. split; [done..| |congruence]. by rewrite Ht, Htc.
Qed.

(** ** Properties of transfers *)

(** C9: a memory-to-memory transfer programmed on an idle controller runs to its
    end in at most 64 bottom halves per descriptor, however the items are cut
    into slices: the memory is the one obtained by copying the items of the
    descriptors of the chain one after the other, each descriptor read from the
    memory the transfers before it left; then the channel is off, nothing is
    scheduled, no error was raised, and the terminal count of the channel is
    raised when the last descriptor asks for it. *)
Theorem dma_chain_transfer s c d ds cfg e now :
  ready s c → uint 32 (d_src d) → uint 32 (d_dst d) → uint 32 (d_next d) → uint 32 (d_ctl d) → uint 32 cfg →
  tst cfg DMA_CFG_ENABLE = true → tst cfg DMA_CFG_HALT = false → bl808_dma_flow cfg = DMA_FLOW_M2M →
  chained (supports_doubleword_width s) (ram e) d ds →
  ∃ s' e', dma_drain (64 * S (length ds)) (dma_program s c d cfg) e now = (s', e') ∧
    finished s c (clr cfg DMA_CFG_ACTIVE) (tst (d_ctl (last_desc d ds)) DMA_CTRL_TC_IRQ_EN) s' ∧
    ram e' ≡ foldl (run_desc (supports_doubleword_width s)) (ram e) (d :: ds).
Proof. apply program_chain. Qed.

Lemma items_ram_block n src dst w :
  0 < w → 0 ≤ src → 0 ≤ dst → src + Z.of_nat n * w ≤ 2 ^ 32 → dst + Z.of_nat n * w ≤ 2 ^ 32 →
  ram_range src (Z.of_nat n * w) → ram_range dst (Z.of_nat n * w) → items_ram n src dst w w true true.
Proof.
  revert src dst. induction n as [|n IH]; intros src dst Hw Hs Hd Hse Hde Hrs Hrd; [done|].
  destruct (decide (n = 0%nat)) as [->|Hn].
  { cbn [items_ram]. split_and!; [intros i Hi; apply Hrs; lia|intros i Hi; apply Hrd; lia|done]. }
  cbn [items_ram bump]. unfold wrap. rewrite !Z.mod_small by nia.
  split_and!; [intros i Hi; apply Hrs; nia|intros i Hi; apply Hrd; nia|].
  apply IH; [nia..|intros i Hi; apply Hrs; nia|intros i Hi; apply Hrd; nia].
Qed.

(** Block copy.  With equal widths, incrementing addresses, no next
    descriptor, and two blocks of memory that do not overlap, the transfer copies
    the source block to the destination and changes no other byte. *)
Theorem dma_block_copy s c d cfg e now :
  ready s c → uint 32 (d_src d) → uint 32 (d_dst d) → d_next d = 0 → uint 32 (d_ctl d) → uint 32 cfg →
  tst cfg DMA_CFG_ENABLE = true → tst cfg DMA_CFG_HALT = false → bl808_dma_flow cfg = DMA_FLOW_M2M →
  src_inc (d_ctl d) = true → dst_inc (d_ctl d) = true →
  let w := d_sw (supports_doubleword_width s) d in
  w ≠ 0 → d_dw (supports_doubleword_width s) d = w →
  let n := d_count d * w in
  d_src d + n ≤ 2 ^ 32 → d_dst d + n ≤ 2 ^ 32 → ram_range (d_src d) n → ram_range (d_dst d) n →
  d_src d + n ≤ d_dst d ∨ d_dst d + n ≤ d_src d →
  ∃ s' e', dma_drain 64 (dma_program s c d cfg) e now = (s', e') ∧
    finished s c (clr cfg DMA_CFG_ACTIVE) (tst (d_ctl d) DMA_CTRL_TC_IRQ_EN) s' ∧
    ∀ a, ram e' a = if decide (d_dst d ≤ a < d_dst d + n) then ram e (d_src d + (a - d_dst d)) else ram e a.
Proof.
  intros Hr Hs Hd Hn Hc Hcfg Hen Hha Hfl Hsi Hdi w Hw Hdw n Hse Hde Hrs Hrd Hov.
  pose proof (count_bounds (d_ctl d)) as Hb. fold (d_count d) in Hb.
  assert (width w) as Hww by (by apply item_width).
  assert (0 < w) as Hw0 by (unfold width in Hww; lia).
  assert (Z.of_nat (Z.to_nat (d_count d)) = d_count d) as En by lia.
  destruct (program_chain s c d [] cfg e now) as (s' & e' & Hdr & Hfin & Hm); try done.
  { by rewrite Hn. }
  { split; [|done]. split; [apply Hc|exact Hw|rewrite Hdw; exact Hw|]. fold w. rewrite Hdw, Hsi, Hdi.
    unfold uint in *. apply items_ram_block; rewrite ?En; (exact Hrs || exact Hrd || lia). }
  exists s', e'. split; [done|]. split; [done|]. intros a. rewrite (Hm a). cbn [foldl]. unfold run_desc. fold w. rewrite Hdw, Hsi, Hdi.
  unfold uint in *. rewrite copy_items_block by (rewrite ?En; (done || lia)). by rewrite En.
Qed.
End memory.
End device.
