(* ===== verification/DmaSched.v ===== *)
(** * The DMA controller: scheduling and interrupt lines

    Invariants of every run of the device, whatever software writes, whatever
    the peripherals and the memory do in between, and in whatever order the
    emulator dispatches the bottom half and the poll timer. *)

From S2P Require Import Prelude Qemu Dma DmaSpec.
From stdpp Require Import prelude list.
From Stdlib Require Import ZArith Lia.
Local Open Scope Z_scope.
Import BL808DMA.

Section runs.
Context {E : Type} `{!PhysMem E} `{!ColdReset (@bl808_dma_reset E)}.
Implicit Types (s : BL808DMAState E) (e : E).

(** ** Runs *)

Inductive dma_op :=
  | DWrite (offset value size : Z)
  | DBottomHalf (now : Z)
  | DPollTimer
  | DClock (enabled : bool)
  | DReset
  | DResetLine (asserted : bool)
  | DRegister (request_id : Z) (ops : option (BL808DMARequestOps E))
  | DWorld (f : E → E).

(** The emulator clears a scheduled bottom half, or removes an expired timer,
    before it calls the handler. *)
Definition dma_step (se : BL808DMAState E * E) (op : dma_op) : BL808DMAState E * E :=
  let '(s, e) := se in
  match op with
  | DWrite offset value size => (bl808_dma_write s offset value size, e)
  | DBottomHalf now => if run_bh s then bl808_dma_run_bh (s <| run_bh := false |>) e now else (s, e)
  | DPollTimer =>
      (match poll_timer s with Some _ => bl808_dma_poll_timer_cb (s <| poll_timer := None |>) | None => s end, e)
  | DClock b => (bl808_dma_set_clock_enabled s b, e)
  | DReset => (bl808_dma_reset s, e)
  | DResetLine b => (bl808_dma_set_reset_asserted s b, e)
  | DRegister i ops => (bl808_dma_register_request s i ops, e)
  | DWorld f => (s, f e)
  end.

Definition dma_run (se : BL808DMAState E * E) (ops : list dma_op) : BL808DMAState E * E := foldl dma_step se ops.

(** ** Invariant *)

(** A device with something to do has asked the emulator to call it back. *)
Definition live (s : BL808DMAState E) : Prop :=
  bl808_dma_can_run s = true → bl808_dma_has_active_channels s = true → run_bh s = true ∨ poll_timer s ≠ None.

Definition lines_current (s : BL808DMAState E) : Prop :=
  irq s = irq (bl808_dma_update_irq s) ∧ ch_irq s = ch_irq (bl808_dma_update_irq s).

Record dma_inv (s : BL808DMAState E) : Prop := {
  di_len : length (channels s) = 8%nat;
  di_flag : run_bh s = run_scheduled s;
  di_live : live s;
  di_lines : lines_current s;
}.

(** Without the lines, which [bl808_dma_update_irq] restores. *)
Record dma_pre (s : BL808DMAState E) : Prop := {
  dp_len : length (channels s) = 8%nat;
  dp_flag : run_bh s = run_scheduled s;
  dp_live : live s;
}.

Lemma inv_pre s : dma_inv s → dma_pre s.
Proof. intros []. by split. Qed.

Lemma update_irq_inv s : dma_pre s → dma_inv (bl808_dma_update_irq s).
Proof. intros []. by split. Qed.

Lemma schedule_pre s : length (channels s) = 8%nat → run_bh s = run_scheduled s → dma_pre (bl808_dma_schedule s).
Proof.
  intros Hl Hf. unfold bl808_dma_schedule. destruct (bl808_dma_can_run s) eqn:Ec; cbn [negb orb].
  2: { split; [done..|]. intros Hc. by rewrite Ec in Hc. }
  destruct (bl808_dma_has_active_channels s) eqn:Ea; cbn [negb orb].
  2: { split; [done..|]. intros _ Ha. by rewrite Ea in Ha. }
  destruct (run_scheduled s) eqn:Es; split; try done; [congruence|intros _ _; left; congruence|].
  intros _ _. by left.
Qed.

Lemma schedule_lines s : lines_current s → lines_current (bl808_dma_schedule s).
Proof. intros []. unfold bl808_dma_schedule. destruct (_ || _); by split. Qed.

Lemma cancel_pre s : length (channels s) = 8%nat → bl808_dma_can_run s = false → dma_pre (bl808_dma_cancel_work s).
Proof.
  intros Hl Hc. split; [done..|]. intros Hc'. change (bl808_dma_can_run (bl808_dma_cancel_work s)) with (bl808_dma_can_run s) in Hc'.
  congruence.
Qed.

Lemma has_active_true s :
  bl808_dma_has_active_channels s = true ↔ ∃ i, 0 ≤ i < bl808_dma_channel_count s ∧ active (chan s i) = true.
Proof.
  unfold bl808_dma_has_active_channels. rewrite existsb_exists. split; intros (i & Hi & Ha); exists i.
  - by apply list_elem_of_In, elem_chnos in Hi.
  - split; [by apply list_elem_of_In, elem_chnos|done].
Qed.

(** Changing a channel without activating it. *)
Lemma set_chan_pre s c ch :
  has s c → (active ch = true → active (chan s c) = true) → dma_pre s → dma_pre (set_chan s c ch).
Proof.
  intros Hc Ha [Hl Hf Hlive]. split; [cbn; by rewrite length_insert|done|].
  intros Hcan (i & Hi & Hact)%has_active_true. apply (Hlive Hcan). apply has_active_true. exists i. split; [done|].
  destruct (decide (i = c)) as [->|Hne].
  - rewrite chan_set_eq in Hact by done. by apply Ha.
  - rewrite chan_set_ne in Hact by (apply Hc || lia || done). done.
Qed.

(** ** The step of a channel only changes channels and statuses *)

Record frame (s s' : BL808DMAState E) : Prop := {
  fr_len : length (channels s') = length (channels s);
  fr_bh : run_bh s' = run_bh s;
  fr_sched : run_scheduled s' = run_scheduled s;
  fr_timer : poll_timer s' = poll_timer s;
  fr_can : bl808_dma_can_run s' = bl808_dma_can_run s;
  fr_count : channel_count s' = channel_count s;
}.

#[local] Instance frame_preorder : PreOrder frame.
Proof. split; [by split|]. intros s1 s2 s3 [] []. split; congruence. Qed.

Lemma frame_set s c ch : frame s (set_chan s c ch).
Proof. split; try done. cbn. by rewrite length_insert. Qed.

Lemma frame_error s c : frame s (bl808_dma_error_channel s c).
Proof. unfold bl808_dma_error_channel. split; try done. cbn. by rewrite length_insert. Qed.

Lemma frame_complete s c : frame s (bl808_dma_complete_channel s c).
Proof.
  unfold bl808_dma_complete_channel. cbv zeta. destruct (tst _ _).
  - split; try done. cbn. by rewrite length_insert.
  - apply frame_set.
Qed.

Lemma frame_next s e c : frame s (next_or_complete s e c).1.1.
Proof.
  unfold next_or_complete. destruct (bl808_dma_load_lli _ _) as [[ch e']|]; [apply frame_set|apply frame_complete].
Qed.

Definition exit_state (x : loop_exit) : BL808DMAState E :=
  match x with Out s _ _ _ => s | Return s _ => s end.

Lemma frame_loop n s e c flow sw dw sr dr r p : frame s (exit_state (item_loop n s e c flow sw dw sr dr r p)).
Proof.
  revert s e r p. induction n as [|n IH]; intros s e r p; [done|]. cbn [item_loop].
  destruct (negb (0 <? r)); [done|]. destruct (fetch_item _ _ _ _ _ _) as [[v e']| |]; [|done|apply frame_error].
  destruct (store_item _ _ _ _ _ _ _) as [e''| |]; [|done|apply frame_error]. cbv zeta.
  etransitivity; [apply frame_set|apply IH].
Qed.

Lemma frame_step s e c : frame s (bl808_dma_step_channel s e c).1.1.
Proof.
  unfold bl808_dma_step_channel. cbv zeta. destruct (_ || tst _ DMA_CFG_HALT); [apply frame_set|].
  destruct (_ || (_ =? 0)); [apply frame_error|]. destruct (_ && _); [apply frame_error|].
  destruct (_ =? 0); [apply frame_next|].
  match goal with |- context [item_loop ?n ?s ?e ?c ?f ?w ?d ?a ?b ?r ?p] =>
    pose proof (frame_loop n s e c f w d a b r p) as Hl; destruct (item_loop n s e c f w d a b r p) as [s1 e1 r1 p1|s1 e1] end;
    cbn [exit_state] in Hl; [|done].
  etransitivity; [exact Hl|]. destruct (_ =? 0); [apply frame_next|]. destruct (_ && negb _); [apply frame_error|].
  destruct (_ && negb _); [apply frame_error|]. done.
Qed.

Lemma frame_steps s e l : frame s (step_channels s e l).1.1.
Proof.
  unfold step_channels. generalize false. revert s e. induction l as [|i l IH]; intros s e p; [done|]. cbn [foldl].
  pose proof (frame_step s e i) as Hs. destruct (bl808_dma_step_channel s e i) as [[s1 e1] p1].
  etransitivity; [exact Hs|apply IH].
Qed.

(** ** Every operation preserves the invariant *)

Lemma run_bh_inv s e now : dma_pre s → dma_inv (bl808_dma_run_bh (s <| run_bh := false |>) e now).1.
Proof.
  intros [Hl Hf _]. unfold bl808_dma_run_bh. set (s0 := s <| run_bh := false |> <| run_scheduled := false |>).
  destruct (bl808_dma_can_run s0) eqn:Hcan; cbn [negb].
  2: { apply update_irq_inv. split; [done..|]. intros Hc. congruence. }
  pose proof (frame_steps s0 e (chnos s0)) as [Fl Fb Fs Ft Fc Fn].
  destruct (step_channels s0 e (chnos s0)) as [[s1 e1] p]. cbn [fst] in *.
  set (s2 := bl808_dma_update_irq s1).
  assert (length (channels s2) = 8%nat) as Hl2 by (change (channels s2) with (channels s1); by rewrite Fl).
  assert (run_bh s2 = run_scheduled s2) as Hf2.
  { change (run_bh s1 = run_scheduled s1). by rewrite Fb, Fs. }
  destruct (bl808_dma_has_active_channels s2) eqn:Ha; cbn [negb].
  2: { split; [done..| |done]. intros _ Ha'. cbn [fst] in Ha'. congruence. }
  assert (bl808_dma_can_run s2 = true) as Hc2 by (change (bl808_dma_can_run s1 = true); by rewrite Fc).
  destruct p.
  - cbn [fst]. destruct (schedule_pre s2 Hl2 Hf2). split; [done..|]. by apply schedule_lines.
  - cbn [fst]. unfold bl808_dma_reschedule_poll. rewrite Ha, Hc2. cbn [negb orb]. split; [done..| |done].
    intros _ _. by right.
Qed.

Lemma write_config_pre s c v : has s c → dma_pre s → dma_pre (bl808_dma_write_channel_config s c v).
Proof.
  intros Hc Hp. unfold bl808_dma_write_channel_config. cbv zeta. destruct (negb (tst v DMA_CFG_ENABLE)).
  - by apply set_chan_pre.
  - destruct Hp as [Hl Hf _]. apply schedule_pre; [cbn; by rewrite length_insert|done].
Qed.

Lemma write_inv s offset value size : dma_inv s → dma_inv (bl808_dma_write s offset value size).
Proof.
  intros Hi. pose proof (inv_pre s Hi) as Hp. pose proof Hi as [Hl Hf Hlive [Hq1 Hq2]]. unfold bl808_dma_write.
  assert (∀ s', length (channels s') = 8%nat → run_bh s' = run_scheduled s' → lines_current s' → dma_inv (bl808_dma_schedule s'))
    as Hsch by (intros s' H1 H2 H3; destruct (schedule_pre s' H1 H2); split; [done..|by apply schedule_lines]).
  destruct (negb (size =? 4)); [done|]. destruct (reset_asserted s) eqn:Er; [done|].
  destruct (offset =? DMA_INT_TC_CLEAR); [by apply update_irq_inv|].
  destruct (offset =? DMA_INT_ERR_CLEAR); [by apply update_irq_inv|].
  do 4 (destruct (offset =? _); [by apply Hsch|]).
  destruct (offset =? DMA_TOP_CONFIG).
  { cbv zeta. destruct (tst _ _) eqn:Et; [by apply Hsch|].
    set (s1 := s <| top_config := _ |>) in *. assert (bl808_dma_can_run s1 = false) as Hc1
      by (unfold bl808_dma_can_run; rewrite Et; apply andb_false_r).
    destruct (cancel_pre s1 Hl Hc1). by split. }
  destruct (offset =? DMA_SYNC); [by split|].
  destruct ((offset <? DMA_CH_BASE) || _) eqn:Ew; [done|]. apply orb_false_iff in Ew as [Hlo%Z.ltb_ge Hhi%Z.leb_gt].
  cbv zeta. set (c := (offset - DMA_CH_BASE) / DMA_CH_STRIDE). destruct (Z.leb_spec (bl808_dma_channel_count s) c) as [|Hc]; [done|].
  assert (has s c) as Hh.
  { pose proof (count_range s). unfold has. rewrite Hl. split; [|lia]. apply Z.div_pos; [lia|by vm_compute]. }
  do 4 (destruct (_ =? _); [apply update_irq_inv, set_chan_pre; done|]).
  destruct (_ =? _); [|done]. apply update_irq_inv. by apply write_config_pre.
Qed.

Lemma dma_step_inv se op : dma_inv se.1 → dma_inv (dma_step se op).1.
Proof.
  destruct se as [s e]. cbn [fst]. intros Hi. pose proof Hi as [Hl Hf Hlive Hq]. pose proof (inv_pre s Hi) as Hp.
  destruct op as [o v sz|now| |b| |b|i ops|f]; cbn [dma_step].
  - by apply write_inv.
  - destruct (run_bh s); [by apply run_bh_inv|done].
  - cbn [fst]. destruct (poll_timer s); [|done]. unfold bl808_dma_poll_timer_cb. cbn [run_scheduled set_field].
    set (s0 := s <| poll_timer := None |>). change (run_scheduled s0) with (run_scheduled s).
    destruct (run_scheduled s) eqn:Es; cbn [negb].
    + split; [done|change (run_bh s = run_scheduled s); congruence| |done].
      intros _ _. left. change (run_bh s = true). congruence.
    + destruct (schedule_pre s0 Hl) as [? ? ?]; [change (run_bh s = run_scheduled s); congruence|].
      split; [done..|]. by apply schedule_lines.
  - unfold bl808_dma_set_clock_enabled. cbn [fst]. apply update_irq_inv. destruct b; cbn [negb].
    + by apply schedule_pre.
    + by apply cancel_pre.
  - unfold bl808_dma_reset. cbn [fst]. apply update_irq_inv, cancel_pre; [done|]. unfold bl808_dma_can_run. cbn. apply andb_false_r.
  - unfold bl808_dma_set_reset_asserted. cbn [fst]. apply update_irq_inv. destruct b.
    + rewrite device_cold_reset_runs. unfold bl808_dma_reset.
      apply inv_pre, update_irq_inv, cancel_pre; [done|]. unfold bl808_dma_can_run. cbn. apply andb_false_r.
    + by apply schedule_pre.
  - cbn [fst]. unfold bl808_dma_register_request. destruct (_ <=? _); [done|]. by split.
  - done.
Qed.

Lemma reset_inv s : dma_inv (bl808_dma_reset s).
Proof. apply update_irq_inv, cancel_pre; [done|]. unfold bl808_dma_can_run. cbn. apply andb_false_r. Qed.

Lemma dma_run_inv se ops : dma_inv se.1 → dma_inv (dma_run se ops).1.
Proof. revert se. induction ops as [|op ops IH]; intros se Hi; [done|]. cbn. by apply IH, dma_step_inv. Qed.

(** ** The lines, bit by bit *)

Lemma chan_mask_bit s f i : 0 ≤ i → Z.testbit (chan_mask s f) i = (i <? bl808_dma_channel_count s) && f (chan s i).
Proof.
  intros Hi. unfold chan_mask.
  assert (∀ l m, Forall (λ j, 0 ≤ j) l →
    Z.testbit (foldl (λ mask j, if f (chan s j) then Z.lor mask (BIT j) else mask) m l) i =
    Z.testbit m i || (bool_decide (i ∈ l) && f (chan s i))) as Hg.
  { intros l. induction l as [|j l IH]; intros m Hl; cbn [foldl].
    { rewrite bool_decide_eq_false_2 by set_solver. by rewrite orb_false_r. }
    apply Forall_cons in Hl as [Hj Hl]. rewrite IH by done. destruct (decide (i = j)) as [->|Hne].
    - rewrite (bool_decide_eq_true_2 (j ∈ j :: l)) by set_solver. destruct (f (chan s j)); [|by rewrite !andb_false_r].
      by rewrite Z.lor_spec, BIT_spec, Z.eqb_refl, !orb_true_r by done.
    - rewrite (bool_decide_ext (i ∈ j :: l) (i ∈ l)) by set_solver. f_equal.
      destruct (f (chan s j)); [|done]. rewrite Z.lor_spec, BIT_spec by done.
      rewrite (proj2 (Z.eqb_neq j i)) by congruence. apply orb_false_r. }
  rewrite Hg; [rewrite Z.bits_0; cbn [orb]|].
  - f_equal. destruct (Z.ltb_spec i (bl808_dma_channel_count s)).
    + apply bool_decide_eq_true_2, elem_chnos. lia.
    + apply bool_decide_eq_false_2. rewrite elem_chnos. lia.
  - apply Forall_forall. intros j Hj%elem_chnos. lia.
Qed.

(** Channel [c] has an interrupt to deliver. *)
Definition channel_pending (s : BL808DMAState E) (c : Z) : bool :=
  let ch := chan s c in
  (Z.testbit (raw_tc_status s) c && tst (config ch) DMA_CFG_TC_IRQ_EN && tst (control ch) DMA_CTRL_TC_IRQ_EN) ||
  (Z.testbit (raw_err_status s) c && tst (config ch) DMA_CFG_ERR_IRQ_EN).

Lemma visible_bit s c : 0 ≤ c →
  Z.testbit (Z.lor (bl808_dma_visible_tc_status s) (bl808_dma_visible_err_status s)) c =
  (c <? bl808_dma_channel_count s) && channel_pending s c.
Proof.
  intros Hc. unfold bl808_dma_visible_tc_status, bl808_dma_visible_err_status, bl808_dma_tc_mask, bl808_dma_err_mask, channel_pending.
  rewrite Z.lor_spec, !Z.land_spec, !chan_mask_bit by done. cbv zeta.
  destruct (c <? _), (Z.testbit (raw_tc_status s) c), (Z.testbit (raw_err_status s) c); cbn [andb orb]; done.
Qed.

Lemma visible_nonzero s :
  Z.lor (bl808_dma_visible_tc_status s) (bl808_dma_visible_err_status s) ≠ 0 ↔
  ∃ c, 0 ≤ c < bl808_dma_channel_count s ∧ channel_pending s c = true.
Proof.
  split.
  - intros Hne. destruct (existsb (channel_pending s) (chnos s)) eqn:Ex.
    { apply existsb_exists in Ex as (c & Hc & Hp). exists c. split; [|done]. by apply list_elem_of_In, elem_chnos in Hc. }
    exfalso. apply Hne, Z.bits_inj'. intros i Hi. rewrite visible_bit, Z.bits_0 by done.
    destruct (Z.ltb_spec i (bl808_dma_channel_count s)); [|done]. cbn [andb]. destruct (channel_pending s i) eqn:Ep; [|done].
    rewrite <- Ex. symmetry. apply existsb_exists. exists i. split; [|done]. apply list_elem_of_In, elem_chnos. lia.
  - intros (c & Hc & Hp) Hz. apply (f_equal (λ z, Z.testbit z c)) in Hz. rewrite visible_bit, Z.bits_0, Hp in Hz by lia.
    rewrite (proj2 (Z.ltb_lt _ _)) in Hz by lia. done.
Qed.

(** ** Properties of runs *)

(** C10: no transfer stalls.  In every state reached from reset, if the controller
    is clocked, out of reset and enabled and some channel is active, then the
    bottom half is scheduled or the poll timer is armed, so the channel will be
    stepped again. *)
Theorem dma_never_stalls s0 e0 ops :
  let s := (dma_run (bl808_dma_reset s0, e0) ops).1 in
  bl808_dma_can_run s = true → bl808_dma_has_active_channels s = true → run_bh s = true ∨ poll_timer s ≠ None.
Proof. intros s. exact (di_live _ (dma_run_inv (bl808_dma_reset s0, e0) ops (reset_inv s0))). Qed.

(** In every state reached from reset, each of the eight channel lines is
    high exactly when the controller is clocked and out of reset and the channel
    exists and has a raised and enabled terminal-count or error interrupt; the
    common line is high exactly when one of the channel lines is. *)
Theorem dma_lines_follow s0 e0 ops :
  let s := (dma_run (bl808_dma_reset s0, e0) ops).1 in
  (∀ c, 0 ≤ c < 8 → ch_irq s !! Z.to_nat c =
     Some ((c <? bl808_dma_channel_count s) && clock_enabled s && negb (reset_asserted s) && channel_pending s c)) ∧
  (irq s = true ↔ ∃ c, 0 ≤ c < 8 ∧ ch_irq s !! Z.to_nat c = Some true).
Proof.
  intros s. destruct (di_lines _ (dma_run_inv (bl808_dma_reset s0, e0) ops (reset_inv s0))) as [H1 H2]. fold s in H1, H2.
  assert (∀ c, 0 ≤ c < 8 → ch_irq s !! Z.to_nat c =
     Some ((c <? bl808_dma_channel_count s) && clock_enabled s && negb (reset_asserted s) && channel_pending s c)) as Hc.
  { intros c Hc. rewrite H2. unfold bl808_dma_update_irq. cbn [ch_irq set_field].
    rewrite !list_lookup_fmap, lookup_seq_lt by (unfold BL808_DMA_CHANNELS; lia). cbn. rewrite Z2Nat.id by lia.
    rewrite tst_BIT, visible_bit by lia. f_equal.
    by destruct (c <? _), (clock_enabled s), (reset_asserted s), (channel_pending s c). }
  split; [done|]. rewrite H1. unfold bl808_dma_update_irq. cbn [irq set_field]. pose proof (count_range s).
  rewrite !andb_true_iff, !negb_true_iff, Z.eqb_neq, visible_nonzero. split.
  - intros [[Hk Hr] (c & Hi & Hp)]. exists c. split; [lia|]. rewrite Hc, Hk, Hr, Hp by lia. by rewrite (proj2 (Z.ltb_lt _ _)) by lia.
  - intros (c & Hi & Hl). rewrite Hc in Hl by done. injection Hl as Hl.
    apply andb_true_iff in Hl as [[[Hlt%Z.ltb_lt Hk]%andb_true_iff Hr]%andb_true_iff Hp].
    split; [split; [done|by apply negb_true_iff]|]. exists c. split; [lia|done].
Qed.
End runs.
