(* ===== verification/DmaPort.v ===== *)
(** * The DMA controller and its peripherals

    A peripheral that takes items from memory through a request line promises the
    interface [TxPort]; the memory-to-peripheral flow is proved against it.  The
    transmitter of the UART ([bl808_uart.c], wired to the controller in
    [hw/riscv/bl808.c]) is shown to implement the interface, which gives the
    end-to-end property of a transmission by DMA, and concrete runs show where the
    hand-over of the controller to a peripheral loses items. *)

From S2P Require Import Prelude Qemu Fifo Uart Dma DmaSpec DmaSched.
From stdpp Require Import prelude list gmap.
From Stdlib Require Import ZArith Lia.
Local Open Scope Z_scope.
Import BL808DMA.

(** ** The interface of a requester that accepts items *)

Class TxPort {E : Type} `{!PhysMem E} `{R : !Ram} (ops : BL808DMARequestOps E) := {
  port_ok : E → Prop;
  accepted : E → list Z;
  port_can : E → Z → bool;
  port_can_write : can_write ops = Some port_can;
  port_write e v w : port_ok e → port_can e w = true → 
    port_ok (write ops e v w) ∧ accepted (write ops e v w) = accepted e ++ [wrap (8 * w) v] ∧
    ram (write ops e v w) ≡ ram e;
}.

(** The items of a block of memory as the requester receives them. *)
Fixpoint mem_items (n : nat) (src sw dw : Z) (si : bool) (m : mem) : list Z :=
  match n with
  | O => []
  | S n => wrap (8 * dw) (u32 (le_to_cpu (m <$> seqZ src sw))) :: mem_items n (bump si src sw) sw dw si m
  end.

Lemma mem_items_app n n' src sw dw si m :
  mem_items (n + n') src sw dw si m =
  mem_items n src sw dw si m ++ mem_items n' (Nat.iter n (λ a, bump si a sw) src) sw dw si m.
Proof.
  revert src. induction n as [|n IH]; intros src; [done|]. cbn [mem_items Nat.add app].
  by rewrite IH, Nat.iter_succ_r.
Qed.

Lemma mem_items_equiv n src sw dw si m m' : m ≡ m' → mem_items n src sw dw si m = mem_items n src sw dw si m'.
Proof.
  intros Hm. revert src. induction n as [|n IH]; intros src; [done|]. cbn [mem_items]. rewrite IH. f_equal.
  do 3 f_equal. apply list_eq. intros i. rewrite !list_lookup_fmap. destruct (seqZ src sw !! i); simpl; [by rewrite Hm|done].
Qed.

Section feed.
Context {E : Type} `{!PhysMem E} `{R : !Ram} (ops : BL808DMARequestOps E) `{!TxPort ops}.
Implicit Types (s : BL808DMAState E) (e : E).

Definition to_port (flow : Z) : Prop := flow = DMA_FLOW_M2P ∨ flow = DMA_FLOW_M2P_PERI.

Lemma to_port_tests flow : to_port flow →
  flow_reads_mem flow = true ∧ flow_writes_mem flow = false ∧ flow_writes_peri flow = true ∧
  flow_reads_peri flow = false ∧ (flow =? DMA_FLOW_M2M) = false.
Proof. intros [->| ->]; done. Qed.

(** Every item to read lies in memory. *)
Fixpoint sources_ram (n : nat) (src sw : Z) (si : bool) : Prop :=
  match n with O => True | S n => ram_range src sw ∧ sources_ram n (bump si src sw) sw si end.

Lemma sources_ram_app n n' src sw si :
  sources_ram (n + n') src sw si → sources_ram n src sw si ∧ sources_ram n' (Nat.iter n (λ a, bump si a sw) src) sw si.
Proof.
  revert src. induction n as [|n IH]; intros src; [done|]. cbn [sources_ram Nat.add].
  intros (? & Hx%IH). rewrite Nat.iter_succ_r. naive_solver.
Qed.

Lemma request_can_write s e r w : 0 ≤ r < 32 → request s r = Some ops →
  bl808_dma_request_can_write s e r w = port_can e w.
Proof.
  intros Hr Hq. unfold bl808_dma_request_can_write, BL808_DMA_REQUEST_LINES. rewrite (proj2 (Z.leb_gt _ _)) by lia.
  by rewrite Hq, port_can_write.
Qed.

(** The loop hands over items until the limit, or until the requester does not
    accept more. *)
Lemma feed_loop n s e c flow sw dw sr dr r p :
  to_port flow → has s c → width sw → 0 ≤ dr < 32 → request s dr = Some ops → port_ok e →
  let ch := chan s c in
  0 ≤ control ch → r = Z.land (control ch) DMA_CTRL_XFER_MASK → Z.of_nat n ≤ r →
  sources_ram n (src_addr ch) sw (src_inc (control ch)) →
  ∃ k e', (k ≤ n)%nat ∧
    item_loop n s e c flow sw dw sr dr r p =
      Out (set_chan s c (advances k ch sw dw r)) e' (r - Z.of_nat k) (p || (0 <? k)%nat) ∧
    port_ok e' ∧ ram e' ≡ ram e ∧
    accepted e' = accepted e ++ mem_items k (src_addr ch) sw dw (src_inc (control ch)) (ram e) ∧
    (k = n ∨ port_can e' dw = false) ∧ (k = 0%nat → e' = e).
Proof.
  intros Hf Hc Hsw Hdr Hq Hok ch. subst ch. destruct (to_port_tests _ Hf) as (F1 & F2 & F3 & _ & _).
  revert s e r p Hc Hq Hok. induction n as [|n IH]; intros s e r p Hc Hq Hok Hctl Hr Hn Hram.
  { exists 0%nat, e. cbn. rewrite set_chan_id, Z.sub_0_r, orb_false_r, app_nil_r by done. split_and!; try done. by left. }
  destruct Hram as (Hr1 & Hram). pose proof (count_bounds (control (chan s c))) as Hb. rewrite <- Hr in Hb.
  cbn [item_loop]. rewrite (proj2 (Z.ltb_lt 0 r)) by lia. cbn [negb]. unfold fetch_item, store_item.
  rewrite F1, F2, F3, read_mem_ram by done. set (v := le_to_cpu _).
  rewrite request_can_write by done. destruct (port_can e dw) eqn:Ecan; cbn [negb].
  2: { exists 0%nat, e. cbn. rewrite set_chan_id, Z.sub_0_r, orb_false_r, app_nil_r by done.
       split_and!; try done; [lia|]. by right. }
  unfold bl808_dma_request_write. rewrite Hq. destruct (port_write e (u32 v) dw Hok Ecan) as (Hok2 & Hacc & Hram2).
  set (e2 := write ops e (u32 v) dw) in *. cbv zeta.
  set (ch1 := advance (chan s c) sw dw (r - 1)). set (s1 := set_chan s c ch1).
  assert (chan s1 c = ch1) as E1 by (by apply chan_set_eq).
  pose proof (advance_fields (chan s c) sw dw (r - 1)) as Ea. fold ch1 in Ea.
  destruct (with_count_incs (control (chan s c)) (r - 1) ltac:(lia)) as [Ei1 Ei2].
  destruct (IH s1 e2 (r - 1) true) as (k & e' & Hk & Hl & Hok' & Hram' & Hacc' & Hend & _);
    rewrite ?E1, ?Ea; cbn [control src_addr dst_addr]; rewrite ?Ei1; try done.
  - by apply has_set.
  - apply Z.lor_nonneg. split; [|lia]. apply Z.land_nonneg. by left.
  - by rewrite with_count_count by lia.
  - lia.
  - exists (S k), e'. split; [lia|]. split; [|split; [done|split; [by rewrite Hram'|split]]].
    + rewrite Hl, E1. unfold s1. rewrite set_chan_twice. cbn [advances]. fold ch1. rewrite orb_true_r. f_equal. lia.
    + rewrite Hacc', Hacc, E1, Ea. cbn [control src_addr mem_items]. rewrite Ei1, (mem_items_equiv _ _ _ _ _ _ _ Hram2).
      by rewrite <- (assoc_L (++)).
    + split; [|done]. destruct Hend as [->|]; [by left|by right].
Qed.

(** The items a channel has still to hand over. *)
Definition left_over (dbl : bool) (d : desc) (m : mem) : list Z :=
  mem_items (Z.to_nat (d_count d)) (d_src d) (d_sw dbl d) (d_dw dbl d) (src_inc (d_ctl d)) m.

Record feeding (s : BL808DMAState E) (e : E) (c cfg : Z) (d : desc) : Prop := {
  fd_run : running s c cfg d;
  fd_flow : to_port (bl808_dma_flow cfg);
  fd_line : request s (bl808_dma_dst_request cfg) = Some ops;
  fd_port : port_ok e;
  fd_last : d_next d = 0;
  fd_ctl : 0 ≤ d_ctl d;
  fd_count : 0 < d_count d;
  fd_sw : 0 < d_sw (supports_doubleword_width s) d ≤ 4;
  fd_dw : 0 < d_dw (supports_doubleword_width s) d ≤ 4;
  fd_ram : sources_ram (Z.to_nat (d_count d)) (d_src d) (d_sw (supports_doubleword_width s) d) (src_inc (d_ctl d));
}.

Lemma dst_request_range cfg : 0 ≤ bl808_dma_dst_request cfg < 32.
Proof.
  unfold bl808_dma_dst_request. change 0x1F with (Z.ones 5). rewrite Z.land_ones by lia. apply Z.mod_pos_bound. lia.
Qed.

(** The most items one step hands over. *)
Definition feed_limit (d : desc) : Z :=
  Z.min (Z.min (d_count d) 64)
    (Z.max 1 (Z.max (bl808_dma_burst_len (d_ctl d) false) (bl808_dma_burst_len (d_ctl d) true))).

Lemma feed_step s e c cfg d :
  feeding s e c cfg d →
  let dbl := supports_doubleword_width s in
  ∃ k e1, (k ≤ Z.to_nat (feed_limit d))%nat ∧ port_ok e1 ∧ ram e1 ≡ ram e ∧
    accepted e1 = accepted e ++ mem_items k (d_src d) (d_sw dbl d) (d_dw dbl d) (src_inc (d_ctl d)) (ram e) ∧
    (k = Z.to_nat (feed_limit d) ∨ port_can e1 (d_dw dbl d) = false) ∧ (k = 0%nat → e1 = e) ∧
    let s1 := set_chan s c (chan_of (rest_desc dbl k d) cfg) in
    bl808_dma_step_channel s e c =
      if d_count d =? Z.of_nat k then next_or_complete s1 e1 c else (s1, e1, (0 <? k)%nat).
Proof.
  intros [Hrun Hflow Hline Hport Hnext Hctl Hcnt Hsw Hdw Hram] dbl. pose proof (running_has _ _ _ _ Hrun) as Hhas.
  destruct Hrun as [_ _ Hch [Hen Hha] _ _]. fold dbl in Hsw, Hdw, Hram.
  pose proof (count_bounds (d_ctl d)) as Hb. fold (d_count d) in Hb.
  destruct (to_port_tests _ Hflow) as (_ & _ & _ & F4 & F5).
  set (n := Z.to_nat (feed_limit d)). assert (Z.of_nat n ≤ d_count d) as Hnb by (unfold n, feed_limit; lia).
  destruct (feed_loop n s e c (bl808_dma_flow cfg) (d_sw dbl d) (d_dw dbl d) (bl808_dma_src_request cfg)
              (bl808_dma_dst_request cfg) (d_count d) false) as (k & e1 & Hk & Hl & Hok & Hm & Hacc & Hend & Hz);
    rewrite ?Hch; cbn [control chan_of src_addr dst_addr]; try done.
  { apply item_width; [by vm_compute|]. unfold d_sw in Hsw. lia. }
  { apply dst_request_range. }
  { replace (Z.to_nat (d_count d)) with (n + (Z.to_nat (d_count d) - n))%nat in Hram by lia.
    by apply sources_ram_app in Hram as [? _]. }
  rewrite Hch in Hl, Hacc. cbn [control chan_of src_addr] in Hl, Hacc. exists k, e1. split_and!; try done. cbv zeta.
  unfold bl808_dma_step_channel. rewrite Hch. cbn [active config control chan_of src_addr dst_addr].
  destruct (width_bytes_eq s (d_ctl d)) as [-> ->]. fold dbl. fold (d_sw dbl d) (d_dw dbl d) (d_count d).
  rewrite Hen, Hha, F5, (proj2 (Z.eqb_neq (d_sw dbl d) 0)), (proj2 (Z.eqb_neq (d_dw dbl d) 0)) by lia. cbn [negb orb].
  rewrite (proj2 (Z.ltb_ge 4 (d_sw dbl d))), (proj2 (Z.ltb_ge 4 (d_dw dbl d))) by lia. cbn [orb andb].
  rewrite (proj2 (Z.eqb_neq (d_count d) 0)) by lia. change DMA_MAX_STEPS_PER_RUN with 64. fold (feed_limit d). fold n.
  rewrite Hl. rewrite advances_fields by (done || lia). cbn [control chan_of src_addr dst_addr lli config active].
  fold (d_count d). change (mk_channel _ _ _ _ cfg true) with (chan_of (rest_desc dbl k d) cfg).
  set (s1 := set_chan s c _). change (request s1) with (request s). rewrite Hline, F4. cbn [negb orb].
  rewrite !andb_false_r. cbn [andb].
  destruct (Z.eqb_spec (d_count d) (Z.of_nat k)).
  - by rewrite (proj2 (Z.eqb_eq _ _)) by lia.
  - by rewrite (proj2 (Z.eqb_neq _ _)) by lia.
Qed.

(** The rest of a descriptor after [k] items. *)
Lemma rest_left dbl k d m : 0 ≤ d_ctl d → Z.of_nat k ≤ d_count d →
  let d1 := rest_desc dbl k d in
  d_count d1 = d_count d - Z.of_nat k ∧ d_sw dbl d1 = d_sw dbl d ∧ d_dw dbl d1 = d_dw dbl d ∧ 0 ≤ d_ctl d1 ∧
  src_inc (d_ctl d1) = src_inc (d_ctl d) ∧ tst (d_ctl d1) DMA_CTRL_TC_IRQ_EN = tst (d_ctl d) DMA_CTRL_TC_IRQ_EN ∧
  mem_items k (d_src d) (d_sw dbl d) (d_dw dbl d) (src_inc (d_ctl d)) m ++ left_over dbl d1 m = left_over dbl d m.
Proof.
  intros Hc Hk d1. pose proof (count_bounds (d_ctl d)) as Hb. fold (d_count d) in Hb.
  assert (d_count d1 = d_count d - Z.of_nat k) as Ec by (unfold d_count at 1; cbn; apply with_count_count; lia).
  assert (d_sw dbl d1 = d_sw dbl d ∧ d_dw dbl d1 = d_dw dbl d) as [E1 E2]
    by (split; apply item_bytes_count; unfold DMA_CTRL_SW_SHIFT, DMA_CTRL_DW_SHIFT; lia).
  destruct (with_count_incs (d_ctl d) (d_count d - Z.of_nat k) ltac:(lia)) as [E3 _].
  split_and!; try done.
  - apply Z.lor_nonneg. split; [|lia]. apply Z.land_nonneg. by left.
  - apply with_count_tst; lia.
  - unfold left_over. rewrite E1, E2, Ec. cbn [d_ctl d1 rest_desc d_src]. rewrite E3, <- mem_items_app. f_equal. lia.
Qed.

Lemma feeding_rest s e c cfg d k e1 s1 :
  feeding s e c cfg d → Z.of_nat k < d_count d → port_ok e1 →
  let d1 := rest_desc (supports_doubleword_width s) k d in
  running s1 c cfg d1 → requests s1 = requests s → supports_doubleword_width s1 = supports_doubleword_width s →
  feeding s1 e1 c cfg d1.
Proof.
  intros [Hrun Hflow Hline Hport Hnext Hctl Hcnt Hsw Hdw Hram] Hk Hok d1 Hrun1 Hreq Hdbl.
  destruct (rest_left (supports_doubleword_width s) k d (λ _, 0) Hctl ltac:(lia)) as (Ec & Es & Ed & Hc1 & Ei & _ & _).
  fold d1 in Ec, Es, Ed, Hc1, Ei. split; rewrite ?Hdbl, ?Es, ?Ed, ?Ec; try done; try lia.
  - unfold request. by rewrite Hreq.
  - rewrite Ei. replace (Z.to_nat (d_count d)) with (k + Z.to_nat (d_count d - Z.of_nat k))%nat in Hram by lia.
    by apply sources_ram_app in Hram as [_ ?].
Qed.

(** The last descriptor of a channel ends the transfer. *)
Lemma next_last s e c cfg d : has s c → d_next d = 0 →
  next_or_complete (set_chan s c (chan_of d cfg)) e c =
    (bl808_dma_complete_channel (set_chan s c (chan_of d cfg)) c, e, true).
Proof.
  intros Hh Hn. unfold next_or_complete. rewrite chan_set_eq by done. unfold bl808_dma_load_lli.
  change (lli (chan_of d cfg)) with (d_next d). by rewrite Hn.
Qed.

(** A memory-to-peripheral channel neither loses nor repeats an item,
    however the peripheral throttles it.  One step of the channel either ends the
    transfer, when the requester has taken all the items that were left, or leaves
    the channel in the middle of it: what the requester has taken followed by what
    is left to hand over is unchanged, and some item was taken if the requester
    could take one. *)
Theorem dma_port_conserves s e c cfg d :
  feeding s e c cfg d →
  let dbl := supports_doubleword_width s in
  let '(s1, e1, progress) := bl808_dma_step_channel s e c in
  port_ok e1 ∧ ram e1 ≡ ram e ∧
  ((active (chan s1 c) = false ∧ accepted e1 = accepted e ++ left_over dbl d (ram e)) ∨
   (∃ d1, feeding s1 e1 c cfg d1 ∧
      accepted e1 ++ left_over dbl d1 (ram e1) = accepted e ++ left_over dbl d (ram e) ∧
      (progress = true ↔ d_count d1 < d_count d) ∧ (port_can e (d_dw dbl d) = true → progress = true))).
Proof.
  intros Hf dbl. pose proof (fd_run _ _ _ _ _ Hf) as Hrun. pose proof (running_has _ _ _ _ Hrun) as Hh.
  pose proof (fd_count _ _ _ _ _ Hf) as Hcnt. pose proof (count_bounds (d_ctl d)) as Hb. fold (d_count d) in Hb.
  destruct (feed_step s e c cfg d Hf) as (k & e1 & Hk & Hok & Hm & Hacc & Hend & Hz & ->). fold dbl in Hacc, Hend |- *.
  assert (Z.of_nat k ≤ d_count d) as Hkc by (unfold feed_limit in Hk; lia).
  destruct (rest_left dbl k d (ram e) (fd_ctl _ _ _ _ _ Hf) Hkc) as (Ec & Es & Ed & Hc1 & Ei & Et & Hleft).
  set (d1 := rest_desc dbl k d) in *.
  destruct (Z.eqb_spec (d_count d) (Z.of_nat k)) as [Heq|Hne].
  - rewrite next_last by (done || apply Hf). rewrite complete_form by done. split; [done|]. split; [done|]. left. split.
    + match goal with |- active (chan ?x c) = _ => change (chan x c) with (chan (set_chan s c (mk_channel (d_src d1) (d_dst d1)
        (d_next d1) (clr (d_ctl d1) DMA_CTRL_XFER_MASK) (clr cfg (Z.lor DMA_CFG_ENABLE DMA_CFG_HALT)) false)) c) end.
      by rewrite chan_set_eq.
    + rewrite Hacc, <- Hleft. f_equal. unfold left_over at 1. rewrite Ec. replace (Z.to_nat (d_count d - Z.of_nat k)) with 0%nat by lia.
      by rewrite app_nil_r.
  - split; [done|]. split; [done|]. right. exists d1. split; [|split; [|split]].
    + eapply feeding_rest; [done|lia|done| |done|done]. destruct Hrun as [Hlen Hc Hch Hcfg Hoth Hcan].
      split; [cbn; by rewrite length_insert|done|by apply chan_set_eq|done| |done].
      intros i Hi Hic. rewrite chan_set_ne by lia. by apply Hoth.
    + rewrite Hacc, <- Hleft, <- (assoc_L (++)). do 2 f_equal. unfold left_over. by apply mem_items_equiv.
    + rewrite Nat.ltb_lt, Ec. lia.
    + intros Hcan. apply Nat.ltb_lt. destruct (decide (k = 0%nat)) as [->|]; [|lia]. rewrite Hz in Hend by done.
      destruct Hend as [Hend|Hend]; [unfold feed_limit in Hend; lia|congruence].
Qed.

(** A requester that always accepts takes the whole block. *)
Lemma drain_feed fuel s e c cfg d now :
  feeding s e c cfg d → run_bh s = true →
  (∀ e, port_ok e → port_can e (d_dw (supports_doubleword_width s) d) = true) →
  (Z.to_nat (d_count d) ≤ fuel)%nat →
  ∃ s' e', dma_drain fuel s e now = (s', e') ∧
    finished s c cfg (tst (d_ctl d) DMA_CTRL_TC_IRQ_EN) s' ∧ ram e' ≡ ram e ∧ port_ok e' ∧
    accepted e' = accepted e ++ left_over (supports_doubleword_width s) d (ram e).
Proof.
  revert s e d. induction fuel as [|fuel IH]; intros s e d Hf Hbh Hready Hfuel.
  { exfalso. pose proof (fd_count _ _ _ _ _ Hf). lia. }
  set (dbl := supports_doubleword_width s) in *. pose proof (fd_run _ _ _ _ _ Hf) as Hrun.
  assert (feeding (idle_again s) e c cfg d) as Hf0 by (destruct Hf; split; [by apply running_flags|done..]).
  pose proof (running_has _ _ _ _ (fd_run _ _ _ _ _ Hf0)) as Hh.
  pose proof (fd_count _ _ _ _ _ Hf) as Hcnt. pose proof (count_bounds (d_ctl d)) as Hb. fold (d_count d) in Hb.
  destruct (feed_step (idle_again s) e c cfg d Hf0) as (k & e1 & Hk & Hok & Hm & Hacc & Hend & _ & Hstep).
  cbv zeta in Hstep. change (supports_doubleword_width (idle_again s)) with dbl in Hacc, Hend, Hstep.
  assert (k = Z.to_nat (feed_limit d)) as Ek by (destruct Hend as [|Hend]; [done|]; rewrite Hready in Hend by done; done).
  assert (0 < Z.of_nat k ≤ d_count d) as Hkc by (unfold feed_limit in Ek; lia).
  destruct (rest_left dbl k d (ram e) (fd_ctl _ _ _ _ _ Hf) ltac:(lia)) as (Ec & Es & Ed & Hc1 & Ei & Et & Hleft).
  set (d1 := rest_desc dbl k d) in *.
  destruct (Z.eqb_spec (d_count d) (Z.of_nat k)) as [Heq|Hne].
  - rewrite next_last in Hstep by (done || apply Hf). rewrite complete_form in Hstep by done.
    rewrite (drain_step fuel s c cfg d e now _ _ e1 Hrun Hbh Hstep). cbn [active].
    destruct (complete_finished s c cfg d d1 e1 now fuel Hrun) as [Hd Hfin]. rewrite <- Et.
    eexists _, _. split; [exact Hd|]. split; [exact Hfin|]. split_and!; [done..|].
    rewrite Hacc, <- Hleft. f_equal. unfold left_over at 1. rewrite Ec.
    replace (Z.to_nat (d_count d - Z.of_nat k)) with 0%nat by lia. by rewrite app_nil_r.
  - rewrite (proj2 (Nat.ltb_lt 0 k)) in Hstep by lia. rewrite <- set_tc_own in Hstep.
    rewrite (drain_step fuel s c cfg d e now _ _ e1 Hrun Hbh Hstep). cbn [active chan_of].
    pose proof (running_next s c cfg d d1 Hrun) as Hrun1. cbv zeta in Hrun1.
    match type of Hrun1 with running ?x _ _ _ => set (s2 := x) in * end.
    assert (feeding s2 e1 c cfg d1) as Hf2 by (eapply feeding_rest; [exact Hf|lia|done|exact Hrun1|done|done]).
    destruct (IH s2 e1 d1 Hf2 eq_refl) as (s' & e' & Hd & Hfin & Hm' & Hok' & Hacc').
    + intros e2 He2. change (supports_doubleword_width s2) with dbl. rewrite Ed. by apply Hready.
    + lia.
    + exists s', e'. split; [exact Hd|]. rewrite <- Et. split; [destruct Hfin as [? ? ? ? ? Ht ?]; by split|].
      split; [by rewrite Hm'|]. split; [done|]. rewrite Hacc', Hacc, <- Hleft, <- (assoc_L (++)). do 2 f_equal.
      change (supports_doubleword_width s2) with dbl. by apply mem_items_equiv.
Qed.
End feed.

(** ** Memory and a UART *)

(** A world with memory at every address and one UART. *)
Record soc := mk_soc { soc_mem : gmap Z Z; soc_uart : BL808UART.BL808UARTState }.

Fixpoint put_bytes (m : gmap Z Z) (a : Z) (bs : list Z) : gmap Z Z :=
  match bs with [] => m | b :: bs => put_bytes (<[a := b]> m) (a + 1) bs end.

Definition soc_byte (e : soc) (a : Z) : Z := u8 (default 0 (soc_mem e !! a)).

#[export] Instance soc_phys : PhysMem soc := {|
  cpu_physical_memory_read a n e := (soc_byte e <$> seqZ a (Z.of_nat n), e);
  cpu_physical_memory_write a bs e := mk_soc (put_bytes (soc_mem e) a bs) (soc_uart e);
|}.

Lemma put_bytes_lookup bs m a x :
  put_bytes m a bs !! x =
  if decide (a ≤ x < a + Z.of_nat (length bs)) then Some (bs !!! Z.to_nat (x - a)) else m !! x.
Proof.
  revert m a. induction bs as [|b bs IH]; intros m a; cbn [put_bytes length].
  { by rewrite decide_False by lia. }
  rewrite IH. destruct (decide (x = a)) as [->|Hne].
  - rewrite decide_False, decide_True by lia. rewrite lookup_insert_eq. replace (a - a) with 0 by lia. done.
  - rewrite lookup_insert_ne by congruence. repeat case_decide; try lia; [|done]. f_equal.
    replace (Z.to_nat (x - a)) with (S (Z.to_nat (x - (a + 1)))) by lia. done.
Qed.

#[export] Program Instance soc_ram : Ram (E := soc) := {| ram := soc_byte; is_ram _ := True |}.
Next Obligation. intros. by apply uint_wrap. Qed.
Next Obligation. done. Qed.
Next Obligation.
  intros a bs e _ Hb x. unfold soc_byte. cbn. rewrite put_bytes_lookup. case_decide as Hx; [|done]. cbn.
  apply wrap_small. eapply Forall_lookup_1; [exact Hb|]. apply list_lookup_lookup_total_lt. lia.
Qed.

(** The request lines of the UART, as [bl808_soc_dma_uart_tx_ops] and
    [bl808_soc_dma_uart_rx_ops] of the machine fill them. *)
Definition bl808_soc_dma_uart_tx_ops : BL808DMARequestOps soc := {|
  can_read := None;
  can_write := Some (λ e w, BL808UART.bl808_uart_dma_can_write (soc_uart e) w);
  read := λ e _, (0, e);
  write := λ e v w, mk_soc (soc_mem e) (BL808UART.bl808_uart_dma_write (soc_uart e) v w);
|}.

Definition bl808_soc_dma_uart_rx_ops : BL808DMARequestOps soc := {|
  can_read := Some (λ e w, BL808UART.bl808_uart_dma_can_read (soc_uart e) w);
  can_write := None;
  read := λ e w, let '(v, u) := BL808UART.bl808_uart_dma_read (soc_uart e) w in (v, mk_soc (soc_mem e) u);
  write := λ e _ _, e;
|}.

(** The transmitter is clocked, enabled, accepts DMA, has no packet length, and
    its FIFO is empty. *)
Record uart_streams (u : BL808UART.BL808UARTState) : Prop := {
  us_queues : ∃ rxq, BL808UART.queues u [] rxq;
  us_clock : BL808UART.bl808_uart_clock_active u = true;
  us_dma : tst (BL808UART.fifo_config_0 u) BL808UART.FIFO_DMA_TX_EN = true;
  us_enabled : tst (BL808UART.utx_config u) BL808UART.UTX_EN = true;
  us_free : BL808UART.tx_unlimited u = true;
}.

Lemma uart_stream_write u v : uart_streams u →
  let u' := BL808UART.bl808_uart_dma_write u v 1 in
  uart_streams u' ∧ BL808UART.chr_out u' = BL808UART.chr_out u ++ [u8 v].
Proof.
  intros [[rxq Hq] Hck Hdma Hen Hfree]. cbv zeta. destruct (BL808UART.tx_range _ _ _ Hq) as [Hc _]. cbn in Hc.
  unfold BL808UART.bl808_uart_dma_write. change (1 =? 1) with true. cbn [negb]. rewrite Hc.
  change (BL808UART.BL808_UART_FIFO_DEPTH <=? 0) with false. rewrite Hen. cbn [negb].
  pose proof (BL808UART.push_queues u [] rxq v Hq ltac:(lia)) as Hq1. unfold BL808UART.push_tx in Hq1. rewrite Hc in Hq1. cbn [app] in Hq1.
  set (u1 := u <| BL808UART.tx_fifo := _ |> <| BL808UART.tx_tail := _ |> <| BL808UART.tx_count := _ |>) in *.
  destruct (BL808UART.flush_spec u1 _ _ Hq1) as (k & [Hf|([Hx|Hx] & _)]).
  - destruct Hf as [Hfq Hfo Hfl Hfe (Hx1 & Hx2 & Hx3 & Hx4)]. cbn in Hfl.
    destruct Hfe as [(-> & Hutx & _)|(Hx & _)]; [|change (BL808UART.tx_unlimited u1) with (BL808UART.tx_unlimited u) in Hx; congruence].
    cbv zeta. set (u2 := BL808UART.bl808_uart_flush_tx u1) in *. split; [|exact Hfo]. split.
    + exists rxq. by apply BL808UART.update_irq_queues.
    + change (BL808UART.bl808_uart_clock_active u2 = true). unfold BL808UART.bl808_uart_clock_active.
      rewrite Hx1, Hx2. exact Hck.
    + change (tst (BL808UART.fifo_config_0 u2) BL808UART.FIFO_DMA_TX_EN = true). by rewrite Hx4.
    + change (tst (BL808UART.utx_config u2) BL808UART.UTX_EN = true). by rewrite Hutx.
    + change (BL808UART.tx_unlimited u2 = true). unfold BL808UART.tx_unlimited. rewrite Hutx. exact Hfree.
  - change (BL808UART.bl808_uart_clock_active u1) with (BL808UART.bl808_uart_clock_active u) in Hx. congruence.
  - change (BL808UART.utx_config u1) with (BL808UART.utx_config u) in Hx. congruence.
Qed.

Lemma uart_can_width u w : BL808UART.bl808_uart_dma_can_write u w = true → w = 1.
Proof.
  unfold BL808UART.bl808_uart_dma_can_write. destruct (Z.eqb_spec w 1); [done|]. rewrite orb_true_r. done.
Qed.

(** The UART implements the interface: it has accepted the bytes it has sent. *)
#[export] Program Instance uart_port : TxPort bl808_soc_dma_uart_tx_ops := {|
  port_ok e := uart_streams (soc_uart e);
  accepted e := BL808UART.chr_out (soc_uart e);
  port_can e w := BL808UART.bl808_uart_dma_can_write (soc_uart e) w;
|}.
Next Obligation. done. Qed.
Next Obligation.
  intros e v w Hok Hcan. pose proof (uart_can_width _ _ Hcan) as ->. destruct (uart_stream_write _ v Hok) as [? ?]. done.
Qed.

Lemma uart_always_ready e : uart_streams (soc_uart e) → BL808UART.bl808_uart_dma_can_write (soc_uart e) 1 = true.
Proof.
  intros [[rxq Hq] Hck Hdma _ _]. unfold BL808UART.bl808_uart_dma_can_write. rewrite Hck, Hdma. cbn [negb orb Z.eqb Pos.eqb].
  destruct (BL808UART.tx_range _ _ _ Hq) as [-> _]. done.
Qed.

Lemma mem_items_bytes n src e :
  0 ≤ src → src + Z.of_nat n ≤ 2 ^ 32 → mem_items n src 1 1 true (soc_byte e) = soc_byte e <$> seqZ src (Z.of_nat n).
Proof.
  revert src. induction n as [|n IH]; intros src Hs Hle; [done|]. cbn [mem_items bump].
  rewrite (seqZ_cons src (Z.of_nat (S n))) by lia. cbn [fmap list_fmap]. replace (Z.pred (Z.of_nat (S n))) with (Z.of_nat n) by lia.
  f_equal.
  - change (le_to_cpu (soc_byte e <$> seqZ src 1)) with (soc_byte e src + 2 ^ 8 * 0). rewrite Z.mul_0_r, Z.add_0_r.
    assert (uint 8 (soc_byte e src)) as Hb by (by apply uint_wrap). rewrite (wrap_small 32) by (eapply uint_weaken; [done|lia]).
    by apply wrap_small.
  - destruct n; [done|]. unfold wrap. rewrite Z.mod_small by lia. apply IH; lia.
Qed.

Lemma sources_soc n src sw si : sources_ram n src sw si.
Proof. revert src. induction n as [|n IH]; intros src; [done|]. split; [by intros i Hi|apply IH]. Qed.

Lemma dst_request_active cfg : bl808_dma_dst_request (clr cfg DMA_CFG_ACTIVE) = bl808_dma_dst_request cfg.
Proof.
  unfold bl808_dma_dst_request, DMA_CFG_DST_SHIFT. apply Z.bits_inj'. intros i Hi. rewrite !Z.land_spec, !Z.shiftr_spec by lia.
  destruct (decide (i < 5)).
  - unfold DMA_CFG_ACTIVE. rewrite clr_spec, BIT_spec by lia. rewrite (proj2 (Z.eqb_neq 17 _)) by lia. by rewrite andb_true_r.
  - change 0x1F with (Z.ones 5). rewrite Z.ones_spec_high by lia. by rewrite !andb_false_r.
Qed.

(** Transmission by DMA, end to end.  Software programs an idle controller
    to feed a block of memory to the request line of the UART, whose transmitter
    streams without a packet length: after at most one bottom half per byte the
    UART has sent exactly the bytes of the block, in order, the memory is
    unchanged, the channel is off and its terminal count raised when asked for. *)
Theorem dma_uart_transmits (s : BL808DMAState soc) (e : soc) c d cfg now :
  ready s c → uint 32 (d_src d) → uint 32 (d_dst d) → d_next d = 0 → uint 32 (d_ctl d) → uint 32 cfg →
  tst cfg DMA_CFG_ENABLE = true → tst cfg DMA_CFG_HALT = false → bl808_dma_flow cfg = DMA_FLOW_M2P →
  request s (bl808_dma_dst_request cfg) = Some bl808_soc_dma_uart_tx_ops → uart_streams (soc_uart e) →
  src_inc (d_ctl d) = true →
  d_sw (supports_doubleword_width s) d = 1 → d_dw (supports_doubleword_width s) d = 1 →
  0 < d_count d → d_src d + d_count d ≤ 2 ^ 32 →
  ∃ s' e', dma_drain 4095 (dma_program s c d cfg) e now = (s', e') ∧
    finished s c (clr cfg DMA_CFG_ACTIVE) (tst (d_ctl d) DMA_CTRL_TC_IRQ_EN) s' ∧ ram e' ≡ ram e ∧
    BL808UART.chr_out (soc_uart e') = BL808UART.chr_out (soc_uart e) ++ (ram e <$> seqZ (d_src d) (d_count d)).
Proof.
  intros Hr Hs Hd Hn Hc Hcfg Hen Hha Hfl Hline Hu Hsi Hsw Hdw Hcnt Hend.
  pose proof (count_bounds (d_ctl d)) as Hb. fold (d_count d) in Hb.
  destruct (program_running s c d cfg Hr) as (Hrun & Hbh & Hdbl & Htc & Herr & Hreq); try done.
  { by rewrite Hn. }
  destruct (clr_active_bits cfg) as (_ & _ & Hflow). set (s1 := dma_program s c d cfg) in *.
  assert (feeding bl808_soc_dma_uart_tx_ops s1 e c (clr cfg DMA_CFG_ACTIVE) d) as Hf.
  { split; rewrite ?Hdbl, ?Hsw, ?Hdw, ?Hflow; try done; try lia.
    - rewrite Hfl. by left.
    - unfold request. rewrite Hreq, dst_request_active. exact Hline.
    - apply Hc.
    - apply sources_soc. }
  destruct (drain_feed bl808_soc_dma_uart_tx_ops 4095 s1 e c _ d now Hf Hbh) as (s' & e' & Hdr & [? ? ? ? ? Ht ?] & Hm & _ & Hacc).
  { intros e2. rewrite Hdbl, Hdw. apply uart_always_ready. }
  { lia. }
  exists s', e'. split; [done|]. split; [split; [done..| |congruence]; by rewrite Ht, Htc|]. split; [done|].
  cbn [accepted uart_port] in Hacc. rewrite Hacc. f_equal. unfold left_over. rewrite Hdbl, Hsw, Hdw, Hsi.
  unfold uint in Hs. cbn [ram soc_ram]. rewrite mem_items_bytes by lia. by rewrite Z2Nat.id by lia.
Qed.

(** ** Concrete runs *)

(** A controller out of reset, clocked and enabled, with the UART on request
    lines 0 (receive) and 1 (transmit). *)
Definition dma0 : BL808DMAState soc :=
  let s := mk_dma false [] false None [] (replicate 32 None) 0 0 0 0 0 0 0 0 0 false false false false in
  let s := bl808_dma_reset (bl808_dma_init s) in
  let s := bl808_dma_register_request s 0 (Some bl808_soc_dma_uart_rx_ops) in
  let s := bl808_dma_register_request s 1 (Some bl808_soc_dma_uart_tx_ops) in
  bl808_dma_write (bl808_dma_set_clock_enabled s true) DMA_TOP_CONFIG 1 4.

(** The UART with both directions enabled and opened to DMA, transmitter in the
    mode [utx]. *)
Definition uart_with (utx : Z) : BL808UART.BL808UARTState :=
  @BL808UART.uart_run (direct_reset _) BL808UART.uart0
    [BL808UART.UClock true; BL808UART.UModuleClock true; BL808UART.UWrite BL808UART.UART_FIFO_CONFIG_0 3;
     BL808UART.UWrite BL808UART.UART_URX_CONFIG 1; BL808UART.UWrite BL808UART.UART_UTX_CONFIG utx].

Definition soc0 : soc := mk_soc (list_to_map (zip (seqZ 0x1000 5) [10; 20; 30; 40; 50])) (uart_with 5).

Lemma dma0_ready : ready dma0 0.
Proof.
  split; [by vm_compute|by vm_compute| |by vm_compute|by vm_compute]. intros i Hi.
  assert (bl808_dma_channel_count dma0 = 8) as E by (by vm_compute). rewrite E in Hi.
  assert (i = 0 ∨ i = 1 ∨ i = 2 ∨ i = 3 ∨ i = 4 ∨ i = 5 ∨ i = 6 ∨ i = 7) as Hc by lia.
  repeat destruct Hc as [->|Hc]; [by vm_compute..|]. subst i. by vm_compute.
Qed.

Lemma soc0_streams : uart_streams (soc_uart soc0).
Proof.
  split; [|by vm_compute..]. exists []. split; apply ring_empty; by vm_compute.
Qed.

(** Counts, incrementing addresses and the terminal-count interrupt. *)
Definition ctl_bytes (n : Z) : Z := n + 2 ^ 26 + 2 ^ 27 + 2 ^ 31.

Lemma dma_block_copy_witness :
  let d := mk_desc 0x1000 0x2000 0 (ctl_bytes 5) in
  ∃ s' e', dma_drain 64 (dma_program dma0 0 d 0x8001) soc0 7 = (s', e') ∧
    finished dma0 0 (clr 0x8001 DMA_CFG_ACTIVE) (tst (d_ctl d) DMA_CTRL_TC_IRQ_EN) s' ∧
    ∀ a, ram e' a = if decide (d_dst d ≤ a < d_dst d + 5) then ram soc0 (d_src d + (a - d_dst d)) else ram soc0 a.
Proof.
  intros d. apply (dma_block_copy dma0 0 d 0x8001 soc0 7 dma0_ready); try (by vm_compute); try (by intros i _).
  left. by vm_compute.
Defined.

Lemma dma_chain_transfer_witness :
  let e := mk_soc (soc_mem soc0 ∪ list_to_map (zip (seqZ 0x3000 16)
             [0x02; 0x10; 0; 0; 0x00; 0x20; 0; 0; 0; 0; 0; 0; 0x03; 0; 0; 0x8c])) (soc_uart soc0) in
  let d := mk_desc 0x1000 0x2100 0x3000 (ctl_bytes 2) in
  let d' := mk_desc 0x1002 0x2000 0 (ctl_bytes 3) in
  ∃ s' e', dma_drain (64 * S (length [d'])) (dma_program dma0 0 d 0x8001) e 7 = (s', e') ∧
    finished dma0 0 (clr 0x8001 DMA_CFG_ACTIVE) (tst (d_ctl (last_desc d [d'])) DMA_CTRL_TC_IRQ_EN) s' ∧
    ram e' ≡ foldl (run_desc (supports_doubleword_width dma0)) (ram e) [d; d'].
Proof.
  intros e d d'. apply (dma_chain_transfer dma0 0 d [d'] 0x8001 e 7 dma0_ready); [by vm_compute..|].
  assert (∀ n src dst sw dw si di, items_ram (E := soc) n src dst sw dw si di) as Hi.
  { intros n. induction n as [|n IH]; [done|]. intros. split; [by intros i _|]. split; [by intros i _|]. apply IH. }
  split; [split; [by vm_compute|by vm_compute|by vm_compute|apply Hi]|].
  split; [by vm_compute|]. split; [done|]. split; [by vm_compute|].
  split; [split; [by vm_compute|by vm_compute|by vm_compute|apply Hi]|]. by vm_compute.
Defined.

(** A transmission of five bytes. *)
Definition tx_cfg : Z := 1 + 2 ^ 6 + 2 ^ 11 + 2 ^ 15.
Definition tx_desc : desc := mk_desc 0x1000 0x2000A088 0 (5 + 2 ^ 26 + 2 ^ 31).

Lemma dma_uart_transmits_witness :
  ∃ s' e', dma_drain 4095 (dma_program dma0 0 tx_desc tx_cfg) soc0 7 = (s', e') ∧
    finished dma0 0 (clr tx_cfg DMA_CFG_ACTIVE) (tst (d_ctl tx_desc) DMA_CTRL_TC_IRQ_EN) s' ∧ ram e' ≡ ram soc0 ∧
    BL808UART.chr_out (soc_uart e') =
      BL808UART.chr_out (soc_uart soc0) ++ (ram soc0 <$> seqZ (d_src tx_desc) (d_count tx_desc)).
Proof.
  apply (dma_uart_transmits dma0 soc0 0 tx_desc tx_cfg 7 dma0_ready); 
    [by vm_compute|by vm_compute|by vm_compute|by vm_compute|by vm_compute|by vm_compute|by vm_compute|by vm_compute|reflexivity
    |exact soc0_streams|by vm_compute..].
Defined.

Lemma tx_feeding : feeding bl808_soc_dma_uart_tx_ops (dma_program dma0 0 tx_desc tx_cfg) soc0 0 (clr tx_cfg DMA_CFG_ACTIVE) tx_desc.
Proof.
  destruct (program_running dma0 0 tx_desc tx_cfg dma0_ready) as (Hrun & _); [by vm_compute..|].
  split; [exact Hrun|by left|reflexivity|apply soc0_streams|by vm_compute|by vm_compute|by vm_compute|by vm_compute|by vm_compute|].
  apply sources_soc.
Qed.

Lemma dma_port_conserves_witness :
  let s := dma_program dma0 0 tx_desc tx_cfg in
  let '(s1, e1, progress) := bl808_dma_step_channel s soc0 0 in
  uart_streams (soc_uart e1) ∧ ram e1 ≡ ram soc0 ∧
  ((active (chan s1 0) = false ∧ accepted e1 = accepted soc0 ++ left_over false tx_desc (ram soc0)) ∨
   (∃ d1, feeding bl808_soc_dma_uart_tx_ops s1 e1 0 (clr tx_cfg DMA_CFG_ACTIVE) d1 ∧
      accepted e1 ++ left_over false d1 (ram e1) = accepted soc0 ++ left_over false tx_desc (ram soc0) ∧
      (progress = true ↔ d_count d1 < d_count tx_desc) ∧
      (port_can soc0 (d_dw false tx_desc) = true → progress = true))).
Proof. exact (dma_port_conserves bl808_soc_dma_uart_tx_ops _ soc0 0 _ tx_desc tx_feeding). Defined.

(** A channel that waits for a line nobody serves is polled. *)
Lemma dma_never_stalls_witness :
  let ops := [DClock true; DRegister 0 (Some bl808_soc_dma_uart_rx_ops); DWrite DMA_TOP_CONFIG 1 4;
              DWrite (ch_reg 0 DMA_CH_CONTROL) 5 4; DWrite (ch_reg 0 DMA_CH_CONFIG) 0x1001 4; DBottomHalf 3] in
  let s := (@dma_run soc soc_phys (direct_reset _) (bl808_dma_reset dma0, soc0) ops).1 in
  run_bh s = true ∨ poll_timer s ≠ None.
Proof. intros ops. apply (@dma_never_stalls soc soc_phys (direct_reset _) dma0 soc0 ops); by vm_compute. Defined.

(** With a packet length the transmitter disables itself in the middle of a
    burst, but [bl808_uart_dma_can_write] does not look at its enable bit: the
    controller hands over all five bytes and reports a complete transfer, and the
    UART has sent only the packet of two. *)
Theorem dma_uart_packet_drops :
  let e := mk_soc (soc_mem soc0) (uart_with (1 + 2 * 2 ^ 16)) in
  let '(s', e') := dma_drain 4095 (dma_program dma0 0 tx_desc tx_cfg) e 7 in
  BL808UART.chr_out (soc_uart e') = [10; 20] ∧ BL808UART.tx_count (soc_uart e') = 0 ∧
  raw_tc_status s' = 1 ∧ raw_err_status s' = 0.
Proof. by vm_compute. Qed.

(** A peripheral-to-peripheral channel reads the source before it asks the
    destination: with nothing registered on the destination line, every bottom half
    takes a byte from the receive FIFO and discards it, and no error is raised. *)
Theorem dma_p2p_drains_source :
  let u := BL808UART.bl808_uart_receive (uart_with 5) [65; 66; 67] in
  let cfg := 1 + 9 * 2 ^ 6 + 3 * 2 ^ 11 in
  let s := dma_program dma0 0 (mk_desc 0 0 0 5) cfg in
  let '(s1, e1) := bl808_dma_run_bh (s <| run_bh := false |>) (mk_soc ∅ u) 0 in
  let '(s2, e2) := bl808_dma_run_bh (bl808_dma_poll_timer_cb s1) e1 1 in
  BL808UART.rx_count (soc_uart e1) = 2 ∧ BL808UART.rx_count (soc_uart e2) = 1 ∧
  d_count (mk_desc 0 0 0 (control (chan s2 0))) = 5 ∧ raw_err_status s2 = 0 ∧ active (chan s2 0) = true.
Proof. by vm_compute. Qed.
