(* ===== verification/Timer.v ===== *)
(** * Timers and watchdog ([qemu-machine/hw/timer/bl808_timer.c])

    Module [BL808Timer]: two compare channels and the watchdog.  A counter is not
    ticked: the device keeps the count at a base instant and computes the present
    count from the virtual clock; an event is a timer of the emulator armed for
    the instant of the next compare value.

    Every handler takes the virtual time [now_ns] at which it runs; the clock is
    read as one instant per handler.  A handler that divides by the rate of the
    watchdog clock returns [None] when that rate is zero: the division traps. *)

From S2P Require Import Prelude Qemu.
From stdpp Require Import prelude list.
From Stdlib Require Import ZArith Lia.
Local Open Scope Z_scope.

Module BL808Timer.

Definition BL808_TIMER_CHANNELS := 2.

Definition TIMER_TCCR := 0x00.
Definition TIMER_TMR2_0 := 0x10.
Definition TIMER_TMR2_1 := 0x14.
Definition TIMER_TMR2_2 := 0x18.
Definition TIMER_TMR3_0 := 0x1C.
Definition TIMER_TMR3_1 := 0x20.
Definition TIMER_TMR3_2 := 0x24.
Definition TIMER_TCR2 := 0x2C.
Definition TIMER_TCR3 := 0x30.
Definition TIMER_TSR2 := 0x38.
Definition TIMER_TSR3 := 0x3C.
Definition TIMER_TIER2 := 0x44.
Definition TIMER_TIER3 := 0x48.
Definition TIMER_TPLVR2 := 0x50.
Definition TIMER_TPLVR3 := 0x54.
Definition TIMER_TPLCR2 := 0x5C.
Definition TIMER_TPLCR3 := 0x60.
Definition TIMER_WMER := 0x64.
Definition TIMER_WMR := 0x68.
Definition TIMER_WVR := 0x6C.
Definition TIMER_WSR := 0x70.
Definition TIMER_TICR2 := 0x78.
Definition TIMER_TICR3 := 0x7C.
Definition TIMER_WICR := 0x80.
Definition TIMER_TCER := 0x84.
Definition TIMER_TCMR := 0x88.
Definition TIMER_TILR2 := 0x90.
Definition TIMER_TILR3 := 0x94.
Definition TIMER_WCR := 0x98.
Definition TIMER_WFAR := 0x9C.
Definition TIMER_WSAR := 0xA0.
Definition TIMER_TCVWR2 := 0xA8.
Definition TIMER_TCVWR3 := 0xAC.
Definition TIMER_TCVSYN2 := 0xB4.
Definition TIMER_TCVSYN3 := 0xB8.
Definition TIMER_TCDR := 0xBC.
Definition TIMER_TCDR_FORCE := 0xCC.

Definition TCCR_CLK2_SRC_SHIFT := 0.
Definition TCCR_CLK2_SRC_MASK := 0x0F.
Definition TCCR_CLK3_SRC_SHIFT := 4.
Definition TCCR_CLK3_SRC_MASK := Z.shiftl 0x0F 4.
Definition TCCR_WDT_SRC_SHIFT := 8.
Definition TCCR_WDT_SRC_MASK := Z.shiftl 0x0F 8.
Definition TCCR_WRITABLE_MASK := Z.lor (Z.lor TCCR_CLK2_SRC_MASK TCCR_CLK3_SRC_MASK) TCCR_WDT_SRC_MASK.
Definition TCCR_RESET_VALUE := Z.lor (Z.lor (Z.shiftl 1 TCCR_WDT_SRC_SHIFT) (Z.shiftl 5 TCCR_CLK3_SRC_SHIFT)) 5.
Definition TCCR_ID_VALUE := 0xA5.
Definition TMR_RESET_VALUE := 0xFFFFFFFF.

Definition TCER_TIMER2_EN := BIT 1.
Definition TCER_TIMER3_EN := BIT 2.
Definition TCER_TIMER2_CLR := BIT 5.
Definition TCER_TIMER3_CLR := BIT 6.

Definition TCMR_TIMER2_MODE := BIT 1.
Definition TCMR_TIMER3_MODE := BIT 2.
Definition TCMR_TIMER2_ALIGN := BIT 5.
Definition TCMR_TIMER3_ALIGN := BIT 6.

Definition WMER_WDT_EN := BIT 0.
Definition WMER_WDT_RST := BIT 1.
Definition WMR_WDT_ALIGN := BIT 16.
Definition WMR_WDT_MATCH_MASK := 0xFFFF.

Definition TCDR_TIMER2_SHIFT := 8.
Definition TCDR_TIMER3_SHIFT := 16.
Definition TCDR_WDT_SHIFT := 24.
Definition TCDR_TIMER2_MASK := Z.shiftl 0xFF TCDR_TIMER2_SHIFT.
Definition TCDR_TIMER3_MASK := Z.shiftl 0xFF TCDR_TIMER3_SHIFT.
Definition TCDR_WDT_MASK := Z.shiftl 0xFF TCDR_WDT_SHIFT.
Definition TCDR_FORCE_TIMER2 := BIT 1.
Definition TCDR_FORCE_TIMER3 := BIT 2.
Definition TCDR_FORCE_WDT := BIT 4.
Definition TCDR_FORCE_WRITABLE_MASK := Z.lor (Z.lor TCDR_FORCE_TIMER2 TCDR_FORCE_TIMER3) TCDR_FORCE_WDT.

Definition WFAR_MAGIC := 0xBABA.
Definition WSAR_MAGIC := 0xEB10.
Definition UINT32_MAX := 0xFFFFFFFF.

(** ** State *)

Record BL808TimerState := mk_timer {
  irq : list bool;                       (* levels last passed to qemu_set_irq *)
  irq_pulses : list Z;                   (* channels pulsed, oldest first *)
  reset_requests : nat;                  (* calls of qemu_system_reset_request *)
  timers_created : bool;                 (* the timer pointers are not NULL *)
  channel_timer : list (option Z);       (* deadlines of the pending timers *)
  wdt_timer : option Z;
  tccr : Z;
  tmr : list (list Z);
  tcr : list Z;
  tsr : list Z;
  tier : list Z;
  tplvr : list Z;
  tplcr : list Z;
  tilr : list Z;
  tcer : Z;
  tcmr : Z;
  tcdr : Z;
  wmer : Z;
  wmr : Z;
  wsr : Z;
  wcr : Z;
  tcdr_force : Z;
  bclk_hz : Z;                           (* uint64_t *)
  xtal_hz : Z;
  f32k_hz : Z;
  tmr_live : list (list Z);
  tplvr_live : list Z;
  tplcr_live : list Z;
  tcdr_live : Z;
  wmr_live : Z;
  tcvwr : list Z;
  channel_count : list Z;
  channel_base_ns : list Z;              (* uint64_t *)
  channel_compare_fired : list (list bool);
  channel_update_pending : list bool;
  tcvwr_read_mask : Z;                   (* uint8_t *)
  wdt_count : Z;
  wdt_base_ns : Z;
  wfar_seen : bool;
  wdt_unlocked : bool;
  wdt_update_pending : bool;
  clock_enabled : bool;
  reset_asserted : bool;
}.

#[export] Instance eta_timer : Eta BL808TimerState := λ r,
  mk_timer (irq r) (irq_pulses r) (reset_requests r) (timers_created r) (channel_timer r) (wdt_timer r)
    (tccr r) (tmr r) (tcr r) (tsr r) (tier r) (tplvr r) (tplcr r) (tilr r) (tcer r) (tcmr r) (tcdr r)
    (wmer r) (wmr r) (wsr r) (wcr r) (tcdr_force r) (bclk_hz r) (xtal_hz r) (f32k_hz r) (tmr_live r)
    (tplvr_live r) (tplcr_live r) (tcdr_live r) (wmr_live r) (tcvwr r) (channel_count r)
    (channel_base_ns r) (channel_compare_fired r) (channel_update_pending r) (tcvwr_read_mask r)
    (wdt_count r) (wdt_base_ns r) (wfar_seen r) (wdt_unlocked r) (wdt_update_pending r)
    (clock_enabled r) (reset_asserted r).

(** ** Clocks *)

Definition bl808_timer_clock_base_hz (s : BL808TimerState) (sel : Z) : Z :=
  if sel =? 0 then bclk_hz s
  else if sel =? 1 then f32k_hz s
  else if sel =? 2 then 1000
  else if sel =? 3 then xtal_hz s
  else 0.

Definition bl808_timer_channel_divider_mask (ch : Z) : Z :=
  if ch =? 0 then TCDR_TIMER2_MASK else TCDR_TIMER3_MASK.

Definition bl808_timer_channel_divider_shift (ch : Z) : Z :=
  if ch =? 0 then TCDR_TIMER2_SHIFT else TCDR_TIMER3_SHIFT.

Definition bl808_timer_source_hz (s : BL808TimerState) (ch : Z) : Z :=
  let sel := if ch =? 0 then Z.shiftr (Z.land (tccr s) TCCR_CLK2_SRC_MASK) TCCR_CLK2_SRC_SHIFT
             else Z.shiftr (Z.land (tccr s) TCCR_CLK3_SRC_MASK) TCCR_CLK3_SRC_SHIFT in
  let divider := Z.shiftr (Z.land (tcdr_live s) (bl808_timer_channel_divider_mask ch))
                   (bl808_timer_channel_divider_shift ch) in
  let base_hz := bl808_timer_clock_base_hz s sel in
  if base_hz =? 0 then 0 else base_hz / (divider + 1).

(** ** Channels *)

Definition bl808_timer_channel_enabled (s : BL808TimerState) (ch : Z) : bool :=
  let bit := if ch =? 0 then TCER_TIMER2_EN else TCER_TIMER3_EN in
  clock_enabled s && negb (reset_asserted s) && tst (tcer s) bit.

Definition bl808_timer_channel_preload (s : BL808TimerState) (ch : Z) : bool :=
  let bit := if ch =? 0 then TCMR_TIMER2_MODE else TCMR_TIMER3_MODE in negb (tst (tcmr s) bit).

Definition bl808_timer_channel_align_enabled (s : BL808TimerState) (ch : Z) : bool :=
  tst (tcmr s) (if ch =? 0 then TCMR_TIMER2_ALIGN else TCMR_TIMER3_ALIGN).

Definition bl808_timer_channel_initial_count (s : BL808TimerState) (ch : Z) : Z :=
  if bl808_timer_channel_preload s ch then tplvr_live s !% ch else 0.

Definition bl808_timer_channel_reload_match (s : BL808TimerState) (ch : Z) : option Z :=
  let tplcr := Z.land (tplcr_live s !% ch) 0x3 in
  if negb (bl808_timer_channel_preload s ch) || (tplcr =? 0) then None
  else Some ((tmr_live s !% ch) !% (tplcr - 1)).

(** Ticks of a clock of [rate] Hz between two instants, as computed at 64 bits. *)
Definition elapsed_ticks (now_ns base_ns rate : Z) : Z := u64 (u64 (now_ns - base_ns) * rate) / 1000000000.

Definition bl808_timer_channel_now (s : BL808TimerState) (ch now_ns : Z) : Z :=
  let rate := bl808_timer_source_hz s ch in
  if negb (bl808_timer_channel_enabled s ch) || (rate =? 0) then channel_count s !% ch
  else u32 (channel_count s !% ch + u32 (elapsed_ticks now_ns (channel_base_ns s !% ch) rate)).

Definition bl808_timer_channel_commit_now (s : BL808TimerState) (ch count now_ns : Z) : BL808TimerState :=
  s <| channel_count := aset (channel_count s) ch count |>
    <| channel_base_ns := aset (channel_base_ns s) ch now_ns |>.

Definition bl808_timer_channel_sync (s : BL808TimerState) (ch now_ns : Z) : BL808TimerState :=
  bl808_timer_channel_commit_now s ch (bl808_timer_channel_now s ch now_ns) now_ns.

Definition bl808_timer_channel_load_live_config (s : BL808TimerState) (ch : Z) : BL808TimerState :=
  s <| tmr_live := aset (tmr_live s) ch (tmr s !% ch) |>
    <| tplvr_live := aset (tplvr_live s) ch (tplvr s !% ch) |>
    <| tplcr_live := aset (tplcr_live s) ch (Z.land (tplcr s !% ch) 0x3) |>
    <| channel_update_pending := aset (channel_update_pending s) ch false |>.

Definition bl808_timer_channel_clear_compare_state (s : BL808TimerState) (ch : Z) : BL808TimerState :=
  s <| channel_compare_fired := aset (channel_compare_fired s) ch [false; false; false] |>.

Definition bl808_timer_channel_mark_passed_compares (s : BL808TimerState) (ch current : Z) : BL808TimerState :=
  s <| channel_compare_fired :=
         aset (channel_compare_fired s) ch ((λ i, (tmr_live s !% ch) !% i <=? current) <$> [0; 1; 2]) |>.

Definition bl808_timer_channel_divider_pending (s : BL808TimerState) (ch : Z) : bool :=
  let mask := bl808_timer_channel_divider_mask ch in
  negb (Z.land (tcdr s) mask =? Z.land (tcdr_live s) mask).

Definition bl808_timer_channel_copy_programmed_divider (s : BL808TimerState) (ch : Z) : BL808TimerState :=
  let mask := bl808_timer_channel_divider_mask ch in
  s <| tcdr_live := Z.lor (clr (tcdr_live s) mask) (Z.land (tcdr s) mask) |>.

Definition bl808_timer_channel_commit_divider (s : BL808TimerState) (ch now_ns : Z) : BL808TimerState :=
  bl808_timer_channel_copy_programmed_divider
    (bl808_timer_channel_commit_now s ch (bl808_timer_channel_now s ch now_ns) now_ns) ch.

(** ** Interrupts *)

Definition bl808_timer_channel_level_irq_pending (s : BL808TimerState) (ch : Z) : bool :=
  negb (Z.land (clr (Z.land (tsr s !% ch) (tier s !% ch)) (tilr s !% ch)) 0x7 =? 0).

Definition bl808_timer_channel_pulse_irq (s : BL808TimerState) (ch : Z) : BL808TimerState :=
  if negb (clock_enabled s) || reset_asserted s then s
  else s <| irq := aset (irq s) ch false |> <| irq_pulses := irq_pulses s ++ [ch] |>.

Definition bl808_timer_update_irq (s : BL808TimerState) : BL808TimerState :=
  s <| irq := [clock_enabled s && negb (reset_asserted s) && bl808_timer_channel_level_irq_pending s 0;
               clock_enabled s && negb (reset_asserted s) && bl808_timer_channel_level_irq_pending s 1;
               clock_enabled s && negb (reset_asserted s) && tst (wsr s) 1] |>.

(** ** Channel events *)

Definition set_channel_timer (s : BL808TimerState) (ch : Z) (t : option Z) : BL808TimerState :=
  s <| channel_timer := aset (channel_timer s) ch t |>.

(** The next compare value to reach: the loop of
    [bl808_timer_channel_reschedule]. *)
Definition next_compare (s : BL808TimerState) (ch current : Z) : Z :=
  let reload := bl808_timer_channel_reload_match s ch in
  foldl (λ next i,
           let cmp := (tmr_live s !% ch) !% i in
           if ((channel_compare_fired s !% ch) !% i) || (cmp <? current) then next
           else if match reload with Some m => m <? cmp | None => false end then next
           else Z.min next cmp) UINT32_MAX [0; 1; 2].

Definition ceil_ns (ticks rate : Z) : Z := Z.max 1 (u64 (u64 (ticks * 1000000000) + rate - 1) / rate).

Definition bl808_timer_channel_reschedule (s : BL808TimerState) (ch now_ns : Z) : BL808TimerState :=
  if negb (bl808_timer_channel_enabled s ch) then set_channel_timer s ch None
  else
    let current := bl808_timer_channel_now s ch now_ns in
    let rate := bl808_timer_source_hz s ch in
    if rate =? 0 then set_channel_timer s ch None
    else
      let next := next_compare s ch current in
      if next =? UINT32_MAX then set_channel_timer s ch None
      else if next <=? current then set_channel_timer s ch (Some (now_ns + 1))
      else set_channel_timer s ch (Some (now_ns + ceil_ns (next - current) rate)).

(** The compare loop of [bl808_timer_channel_event]; returns [new_status]. *)
Definition raise_compares (s : BL808TimerState) (ch current : Z) : BL808TimerState * Z :=
  foldl (λ '(s, new_status) i,
           if negb ((channel_compare_fired s !% ch) !% i) && ((tmr_live s !% ch) !% i =? current) then
             (s <| tsr := aset (tsr s) ch (Z.lor (tsr s !% ch) (BIT i)) |>
                <| channel_compare_fired :=
                     aset (channel_compare_fired s) ch (aset (channel_compare_fired s !% ch) i true) |>,
              Z.lor new_status (BIT i))
           else (s, new_status)) (s, 0) [0; 1; 2].

Definition bl808_timer_channel_event (s : BL808TimerState) (ch now_ns : Z) : BL808TimerState :=
  let current := bl808_timer_channel_now s ch now_ns in
  let had_level_irq := bl808_timer_channel_level_irq_pending s ch in
  let reload_event := match bl808_timer_channel_reload_match s ch with
                      | Some reload_match => current =? reload_match
                      | None => false
                      end in
  let '(s, new_status) := raise_compares s ch current in
  let s :=
    if reload_event then
      let s := if channel_update_pending s !% ch then bl808_timer_channel_load_live_config s ch else s in
      let s := if bl808_timer_channel_divider_pending s ch
               then bl808_timer_channel_copy_programmed_divider s ch else s in
      let s := bl808_timer_channel_clear_compare_state s ch in
      bl808_timer_channel_commit_now s ch (bl808_timer_channel_initial_count s ch) now_ns
    else
      let s := bl808_timer_channel_commit_now s ch current now_ns in
      if (channel_update_pending s !% ch) && bl808_timer_channel_align_enabled s ch && negb (new_status =? 0) then
        bl808_timer_channel_mark_passed_compares (bl808_timer_channel_load_live_config s ch) ch current
      else s in
  let s :=
    if negb (Z.land (Z.land (Z.land new_status (tier s !% ch)) (tilr s !% ch)) 0x7 =? 0) &&
       negb had_level_irq && negb (bl808_timer_channel_level_irq_pending s ch)
    then bl808_timer_channel_pulse_irq s ch else s in
  bl808_timer_channel_reschedule (bl808_timer_update_irq s) ch now_ns.

Definition bl808_timer_channel0_cb (s : BL808TimerState) (now_ns : Z) : BL808TimerState :=
  bl808_timer_channel_event s 0 now_ns.
Definition bl808_timer_channel1_cb (s : BL808TimerState) (now_ns : Z) : BL808TimerState :=
  bl808_timer_channel_event s 1 now_ns.

(** ** Watchdog *)

Definition bl808_timer_wdt_hz (s : BL808TimerState) : Z :=
  let sel := Z.shiftr (Z.land (tccr s) TCCR_WDT_SRC_MASK) TCCR_WDT_SRC_SHIFT in
  let divider := Z.shiftr (Z.land (tcdr_live s) TCDR_WDT_MASK) TCDR_WDT_SHIFT in
  let base_hz := bl808_timer_clock_base_hz s sel in
  if base_hz =? 0 then 0 else base_hz / (divider + 1).

Definition bl808_timer_wdt_enabled (s : BL808TimerState) : bool :=
  clock_enabled s && negb (reset_asserted s) && tst (wmer s) WMER_WDT_EN.

Definition bl808_timer_wdt_now (s : BL808TimerState) (now_ns : Z) : Z :=
  let rate := bl808_timer_wdt_hz s in
  if negb (bl808_timer_wdt_enabled s) || (rate =? 0) then wdt_count s
  else Z.land (u32 (wdt_count s + u32 (elapsed_ticks now_ns (wdt_base_ns s) rate))) WMR_WDT_MATCH_MASK.

Definition bl808_timer_wdt_commit_now (s : BL808TimerState) (count now_ns : Z) : BL808TimerState :=
  s <| wdt_count := Z.land count WMR_WDT_MATCH_MASK |> <| wdt_base_ns := now_ns |>.

Definition bl808_timer_wdt_align_enabled (s : BL808TimerState) : bool := tst (wmr s) WMR_WDT_ALIGN.

Definition bl808_timer_wdt_match_value (s : BL808TimerState) : Z := Z.land (wmr_live s) WMR_WDT_MATCH_MASK.

Definition bl808_timer_wdt_divider_pending (s : BL808TimerState) : bool :=
  negb (Z.land (tcdr s) TCDR_WDT_MASK =? Z.land (tcdr_live s) TCDR_WDT_MASK).

Definition bl808_timer_wdt_copy_programmed_divider (s : BL808TimerState) : BL808TimerState :=
  s <| tcdr_live := Z.lor (clr (tcdr_live s) TCDR_WDT_MASK) (Z.land (tcdr s) TCDR_WDT_MASK) |>.

Definition bl808_timer_wdt_commit_divider (s : BL808TimerState) (now_ns : Z) : BL808TimerState :=
  bl808_timer_wdt_copy_programmed_divider
    (bl808_timer_wdt_commit_now s (bl808_timer_wdt_now s now_ns) now_ns).

Definition bl808_timer_wdt_apply_programmed (s : BL808TimerState) : BL808TimerState :=
  s <| wmr_live := Z.land (wmr s) (Z.lor WMR_WDT_ALIGN WMR_WDT_MATCH_MASK) |> <| wdt_update_pending := false |>.

Definition bl808_timer_wdt_take_unlock (s : BL808TimerState) : bool * BL808TimerState :=
  (wdt_unlocked s, s <| wdt_unlocked := false |>).

Definition bl808_timer_wdt_reschedule (s : BL808TimerState) (now_ns : Z) : option BL808TimerState :=
  if negb (bl808_timer_wdt_enabled s) || (bl808_timer_wdt_match_value s =? 0)
  then Some (s <| wdt_timer := None |>)
  else
    let current := bl808_timer_wdt_now s now_ns in
    let rate := bl808_timer_wdt_hz s in
    if bl808_timer_wdt_match_value s <=? current then Some (s <| wdt_timer := Some (now_ns + 1) |>)
    else if rate =? 0 then None
    else Some (s <| wdt_timer := Some (now_ns + ceil_ns (bl808_timer_wdt_match_value s - current) rate) |>).

Definition bl808_timer_wdt_fire (s : BL808TimerState) (now_ns : Z) : option BL808TimerState :=
  let s := bl808_timer_wdt_commit_now s (bl808_timer_wdt_match_value s) now_ns in
  let s := s <| wsr := Z.lor (wsr s) 1 |> in
  let s := if wdt_update_pending s && bl808_timer_wdt_align_enabled s
           then bl808_timer_wdt_apply_programmed s else s in
  let s := bl808_timer_update_irq s in
  if tst (wmer s) WMER_WDT_RST then Some (s <| reset_requests := S (reset_requests s) |>)
  else bl808_timer_wdt_reschedule s now_ns.

(** ** Clock and reset *)

Definition bl808_timer_sync_counters (s : BL808TimerState) (now_ns : Z) : BL808TimerState :=
  let s := bl808_timer_channel_sync s 0 now_ns in
  let s := bl808_timer_channel_sync s 1 now_ns in
  bl808_timer_wdt_commit_now s (bl808_timer_wdt_now s now_ns) now_ns.

Definition bl808_timer_reset_hold (s : BL808TimerState) (now_ns : Z) : BL808TimerState :=
  let tmrs := replicate 2 (replicate 3 TMR_RESET_VALUE) in
  let s := s <| tccr := TCCR_RESET_VALUE |> <| tmr := tmrs |> <| tmr_live := tmrs |>
             <| tcr := [0; 0] |> <| tsr := [0; 0] |> <| tier := [0; 0] |>
             <| tplvr := [0; 0] |> <| tplvr_live := [0; 0] |> <| tplcr := [0; 0] |> <| tplcr_live := [0; 0] |>
             <| tilr := [0; 0] |> <| channel_compare_fired := replicate 2 (replicate 3 false) |>
             <| channel_update_pending := [false; false] |> <| tcvwr := [0; 0] |> <| tcvwr_read_mask := 0 |>
             <| tcer := 0 |> <| tcmr := 0 |> <| tcdr := 0 |> <| tcdr_live := 0 |> <| wmer := 0 |>
             <| wmr := WMR_WDT_MATCH_MASK |> <| wmr_live := WMR_WDT_MATCH_MASK |> <| wsr := 0 |> <| wcr := 0 |>
             <| tcdr_force := 0 |> <| wfar_seen := false |> <| wdt_unlocked := false |>
             <| wdt_update_pending := false |> in
  let s := s <| channel_count := [0; 0] |> <| channel_base_ns := [now_ns; now_ns] |>
             <| channel_timer := [None; None] |> <| wdt_count := 0 |> <| wdt_base_ns := now_ns |>
             <| wdt_timer := None |> in
  bl808_timer_update_irq s.

Definition bl808_timer_reset (s : BL808TimerState) (now_ns : Z) : BL808TimerState :=
  bl808_timer_reset_hold (s <| clock_enabled := true |> <| reset_asserted := false |>) now_ns.

Definition reschedule_all (s : BL808TimerState) (now_ns : Z) : option BL808TimerState :=
  let s := bl808_timer_channel_reschedule s 0 now_ns in
  let s := bl808_timer_channel_reschedule s 1 now_ns in
  bl808_timer_wdt_reschedule s now_ns.

Definition bl808_timer_set_clock_enabled (s : BL808TimerState) (enabled : bool) (now_ns : Z) :
    option BL808TimerState :=
  if negb (timers_created s) then Some (s <| clock_enabled := enabled |>)
  else
    let s := bl808_timer_sync_counters s now_ns in
    s ← reschedule_all (s <| clock_enabled := enabled |>) now_ns;
    Some (bl808_timer_update_irq s).

Definition bl808_timer_set_reset_asserted (s : BL808TimerState) (asserted : bool) (now_ns : Z) : BL808TimerState :=
  let s := s <| reset_asserted := asserted |> in
  if negb (timers_created s) then s
  else if asserted then bl808_timer_reset_hold s now_ns else bl808_timer_update_irq s.

Definition bl808_timer_set_clock_inputs (s : BL808TimerState) (bclk xtal f32k now_ns : Z) : option BL808TimerState :=
  let set_inputs s := s <| bclk_hz := bclk |> <| xtal_hz := xtal |> <| f32k_hz := f32k |> in
  if negb (timers_created s) then Some (set_inputs s)
  else
    let s := bl808_timer_sync_counters s now_ns in
    s ← reschedule_all (set_inputs s) now_ns;
    Some (bl808_timer_update_irq s).

(** [bl808_timer_init] creates the timers and sets the clock inputs. *)
Definition bl808_timer_init (s : BL808TimerState) : BL808TimerState :=
  s <| timers_created := true |> <| channel_timer := [None; None] |> <| wdt_timer := None |>
    <| clock_enabled := true |> <| bclk_hz := 80000000 |> <| xtal_hz := 40000000 |> <| f32k_hz := 32768 |>.

(** ** Register reads *)

Definition bl808_timer_tcvwr_read (s : BL808TimerState) (ch now_ns : Z) : Z * BL808TimerState :=
  let s := if tcvwr_read_mask s =? 0
           then s <| tcvwr := [bl808_timer_channel_now s 0 now_ns; bl808_timer_channel_now s 1 now_ns] |> else s in
  let s := s <| tcvwr_read_mask := Z.lor (tcvwr_read_mask s) (BIT ch) |> in
  let all := Z.shiftl 1 BL808_TIMER_CHANNELS - 1 in
  let s := if Z.land (tcvwr_read_mask s) all =? all then s <| tcvwr_read_mask := 0 |> else s in
  (tcvwr s !% ch, s).

Definition bl808_timer_read (s : BL808TimerState) (offset now_ns : Z) : Z * BL808TimerState :=
  if offset =? TIMER_TCCR then (Z.lor (Z.shiftl TCCR_ID_VALUE 24) (tccr s), s)
  else if (offset =? TIMER_TMR2_0) || (offset =? TIMER_TMR2_1) || (offset =? TIMER_TMR2_2) then
    ((tmr s !% 0) !% ((offset - TIMER_TMR2_0) / 4), s)
  else if (offset =? TIMER_TMR3_0) || (offset =? TIMER_TMR3_1) || (offset =? TIMER_TMR3_2) then
    ((tmr s !% 1) !% ((offset - TIMER_TMR3_0) / 4), s)
  else if offset =? TIMER_TCR2 then (bl808_timer_channel_now s 0 now_ns, s)
  else if offset =? TIMER_TCR3 then (bl808_timer_channel_now s 1 now_ns, s)
  else if offset =? TIMER_TSR2 then (tsr s !% 0, s)
  else if offset =? TIMER_TSR3 then (tsr s !% 1, s)
  else if offset =? TIMER_TIER2 then (tier s !% 0, s)
  else if offset =? TIMER_TIER3 then (tier s !% 1, s)
  else if offset =? TIMER_TPLVR2 then (tplvr s !% 0, s)
  else if offset =? TIMER_TPLVR3 then (tplvr s !% 1, s)
  else if offset =? TIMER_TPLCR2 then (tplcr s !% 0, s)
  else if offset =? TIMER_TPLCR3 then (tplcr s !% 1, s)
  else if offset =? TIMER_WMER then (wmer s, s)
  else if offset =? TIMER_WMR then (Z.land (wmr s) (Z.lor WMR_WDT_ALIGN WMR_WDT_MATCH_MASK), s)
  else if offset =? TIMER_WVR then (Z.land (bl808_timer_wdt_now s now_ns) WMR_WDT_MATCH_MASK, s)
  else if offset =? TIMER_WSR then (wsr s, s)
  else if offset =? TIMER_TCER then (tcer s, s)
  else if offset =? TIMER_TCMR then (tcmr s, s)
  else if offset =? TIMER_TILR2 then (tilr s !% 0, s)
  else if offset =? TIMER_TILR3 then (tilr s !% 1, s)
  else if offset =? TIMER_WCR then (wcr s, s)
  else if offset =? TIMER_TCVWR2 then bl808_timer_tcvwr_read s 0 now_ns
  else if offset =? TIMER_TCVWR3 then bl808_timer_tcvwr_read s 1 now_ns
  else if offset =? TIMER_TCVSYN2 then (bl808_timer_channel_now s 0 now_ns, s)
  else if offset =? TIMER_TCVSYN3 then (bl808_timer_channel_now s 1 now_ns, s)
  else if offset =? TIMER_TCDR then (tcdr s, s)
  else if offset =? TIMER_TCDR_FORCE then (tcdr_force s, s)
  else (0, s).

(** ** Register writes *)

(** What a write to a compare, preload or reload register does after storing the
    value: it is deferred while the channel runs aligned, and otherwise taken at
    once by [take]. *)
Definition stage_channel (s : BL808TimerState) (ch now_ns : Z) (take : BL808TimerState → BL808TimerState) :
    BL808TimerState :=
  if bl808_timer_channel_enabled s ch && bl808_timer_channel_align_enabled s ch
  then s <| channel_update_pending := aset (channel_update_pending s) ch true |>
  else bl808_timer_channel_reschedule (take (bl808_timer_channel_load_live_config s ch)) ch now_ns.

Definition mark_passed (ch : Z) (s : BL808TimerState) : BL808TimerState :=
  bl808_timer_channel_mark_passed_compares s ch (channel_count s !% ch).

Definition write_tmr (s : BL808TimerState) (ch i value now_ns : Z) : BL808TimerState :=
  let s := bl808_timer_channel_sync s ch now_ns in
  let s := s <| tmr := aset (tmr s) ch (aset (tmr s !% ch) i (u32 value)) |> in
  stage_channel s ch now_ns (λ s, bl808_timer_channel_clear_compare_state s ch).

Definition write_tplvr (s : BL808TimerState) (ch value now_ns : Z) : BL808TimerState :=
  let s := bl808_timer_channel_sync s ch now_ns in
  let s := s <| tplvr := aset (tplvr s) ch (u32 value) |> in
  stage_channel s ch now_ns (mark_passed ch).

Definition write_tplcr (s : BL808TimerState) (ch value now_ns : Z) : BL808TimerState :=
  let s := bl808_timer_channel_sync s ch now_ns in
  let s := s <| tplcr := aset (tplcr s) ch (Z.land (u32 value) 0x3) |> in
  stage_channel s ch now_ns (mark_passed ch).

Definition write_tier (s : BL808TimerState) (ch value : Z) : BL808TimerState :=
  bl808_timer_update_irq (s <| tier := aset (tier s) ch (Z.land (u32 value) 0x7) |>).

Definition write_ticr (s : BL808TimerState) (ch value : Z) : BL808TimerState :=
  bl808_timer_update_irq (s <| tsr := aset (tsr s) ch (clr (tsr s !% ch) (Z.land (u32 value) 0x7)) |>).

Definition write_wmer (s : BL808TimerState) (value now_ns : Z) : option BL808TimerState :=
  let '(unlocked, s) := bl808_timer_wdt_take_unlock s in
  if negb unlocked then Some s
  else
    let s := bl808_timer_wdt_commit_now s (bl808_timer_wdt_now s now_ns) now_ns in
    let old_wmer := wmer s in
    let s := s <| wmer := Z.land (u32 value) (Z.lor WMER_WDT_EN WMER_WDT_RST) |> in
    let s :=
      if negb (Z.land old_wmer WMER_WDT_EN =? Z.land (wmer s) WMER_WDT_EN) then
        let s := if bl808_timer_wdt_divider_pending s then bl808_timer_wdt_copy_programmed_divider s else s in
        bl808_timer_wdt_apply_programmed s
      else s in
    bl808_timer_wdt_reschedule s now_ns.

Definition write_wmr (s : BL808TimerState) (value now_ns : Z) : option BL808TimerState :=
  let '(unlocked, s) := bl808_timer_wdt_take_unlock s in
  if negb unlocked then Some s
  else
    let s := bl808_timer_wdt_commit_now s (bl808_timer_wdt_now s now_ns) now_ns in
    let mask := Z.lor WMR_WDT_ALIGN WMR_WDT_MATCH_MASK in
    let s := s <| wmr := Z.lor (clr (wmr s) mask) (Z.land (u32 value) mask) |> in
    if bl808_timer_wdt_enabled s && bl808_timer_wdt_align_enabled s
    then Some (s <| wdt_update_pending := true |>)
    else bl808_timer_wdt_reschedule (bl808_timer_wdt_apply_programmed s) now_ns.

Definition write_wicr (s : BL808TimerState) (value : Z) : BL808TimerState :=
  let '(unlocked, s) := bl808_timer_wdt_take_unlock s in
  if negb unlocked then s
  else if tst value 1 then bl808_timer_update_irq (s <| wsr := clr (wsr s) 1 |>) else s.

(** The part of a [TCER] write that restarts channel [ch]. *)
Definition tcer_restart (s : BL808TimerState) (ch now_ns value old_tcer new_tcer en clear : Z) : BL808TimerState :=
  if tst value clear || (negb (tst old_tcer en) && tst new_tcer en) || (tst old_tcer en && negb (tst new_tcer en))
  then
    let s := bl808_timer_channel_load_live_config s ch in
    let s := bl808_timer_channel_copy_programmed_divider s ch in
    let s := bl808_timer_channel_clear_compare_state s ch in
    bl808_timer_channel_commit_now s ch (bl808_timer_channel_initial_count s ch) now_ns
  else s.

Definition write_tcer (s : BL808TimerState) (value now_ns : Z) : BL808TimerState :=
  let s := bl808_timer_channel_sync s 0 now_ns in
  let s := bl808_timer_channel_sync s 1 now_ns in
  let old_tcer := tcer s in
  let new_tcer := Z.land (u32 value) (Z.lor TCER_TIMER2_EN TCER_TIMER3_EN) in
  let s := s <| tcer := new_tcer |> in
  let s := tcer_restart s 0 now_ns value old_tcer new_tcer TCER_TIMER2_EN TCER_TIMER2_CLR in
  let s := tcer_restart s 1 now_ns value old_tcer new_tcer TCER_TIMER3_EN TCER_TIMER3_CLR in
  bl808_timer_channel_reschedule (bl808_timer_channel_reschedule s 0 now_ns) 1 now_ns.

Definition write_tcmr (s : BL808TimerState) (value now_ns : Z) : BL808TimerState :=
  let s := bl808_timer_channel_sync s 0 now_ns in
  let s := bl808_timer_channel_sync s 1 now_ns in
  let old_tcmr := tcmr s in
  let s := s <| tcmr := u32 value |> in
  let s := if tst (Z.lxor old_tcmr (tcmr s)) TCMR_TIMER2_MODE
           then bl808_timer_channel_clear_compare_state s 0 else s in
  let s := if tst (Z.lxor old_tcmr (tcmr s)) TCMR_TIMER3_MODE
           then bl808_timer_channel_clear_compare_state s 1 else s in
  let s := if (channel_update_pending s !% 0) && negb (bl808_timer_channel_align_enabled s 0)
           then mark_passed 0 (bl808_timer_channel_load_live_config s 0) else s in
  let s := if (channel_update_pending s !% 1) && negb (bl808_timer_channel_align_enabled s 1)
           then mark_passed 1 (bl808_timer_channel_load_live_config s 1) else s in
  bl808_timer_channel_reschedule (bl808_timer_channel_reschedule s 0 now_ns) 1 now_ns.

Definition write_wcr (s : BL808TimerState) (value now_ns : Z) : option BL808TimerState :=
  let '(unlocked, s) := bl808_timer_wdt_take_unlock s in
  if negb unlocked then Some s
  else
    let s := s <| wcr := Z.land (u32 value) 1 |> in
    if negb (wcr s =? 0) then
      let s := if bl808_timer_wdt_divider_pending s then bl808_timer_wdt_copy_programmed_divider s else s in
      let s := bl808_timer_wdt_apply_programmed s in
      bl808_timer_wdt_reschedule (bl808_timer_wdt_commit_now s 0 now_ns) now_ns
    else Some s.

Definition write_wsar (s : BL808TimerState) (value : Z) : BL808TimerState :=
  if wfar_seen s && (Z.land (u32 value) 0xFFFF =? WSAR_MAGIC)
  then s <| wfar_seen := false |> <| wdt_unlocked := true |>
  else s <| wfar_seen := false |> <| wdt_unlocked := false |>.

Definition write_tcdr (s : BL808TimerState) (value now_ns : Z) : BL808TimerState :=
  let s := bl808_timer_channel_sync s 0 now_ns in
  let s := bl808_timer_channel_sync s 1 now_ns in
  let s := bl808_timer_wdt_commit_now s (bl808_timer_wdt_now s now_ns) now_ns in
  let s := s <| tcdr := u32 value |> in
  let s := if negb (bl808_timer_channel_enabled s 0) then bl808_timer_channel_copy_programmed_divider s 0 else s in
  let s := if negb (bl808_timer_channel_enabled s 1) then bl808_timer_channel_copy_programmed_divider s 1 else s in
  if negb (bl808_timer_wdt_enabled s) then bl808_timer_wdt_copy_programmed_divider s else s.

Definition write_tcdr_force (s : BL808TimerState) (value now_ns : Z) : option BL808TimerState :=
  let s := s <| tcdr_force := Z.land (u32 value) TCDR_FORCE_WRITABLE_MASK |> in
  let s := if tst (tcdr_force s) TCDR_FORCE_TIMER2
           then bl808_timer_channel_reschedule (bl808_timer_channel_commit_divider s 0 now_ns) 0 now_ns else s in
  let s := if tst (tcdr_force s) TCDR_FORCE_TIMER3
           then bl808_timer_channel_reschedule (bl808_timer_channel_commit_divider s 1 now_ns) 1 now_ns else s in
  if tst (tcdr_force s) TCDR_FORCE_WDT
  then bl808_timer_wdt_reschedule (bl808_timer_wdt_commit_divider s now_ns) now_ns else Some s.

Definition bl808_timer_write (s : BL808TimerState) (offset value now_ns : Z) : option BL808TimerState :=
  if offset =? TIMER_TCCR then
    let s := bl808_timer_sync_counters s now_ns in
    reschedule_all (s <| tccr := Z.land (u32 value) TCCR_WRITABLE_MASK |>) now_ns
  else if (offset =? TIMER_TMR2_0) || (offset =? TIMER_TMR2_1) || (offset =? TIMER_TMR2_2) then
    Some (write_tmr s 0 ((offset - TIMER_TMR2_0) / 4) value now_ns)
  else if (offset =? TIMER_TMR3_0) || (offset =? TIMER_TMR3_1) || (offset =? TIMER_TMR3_2) then
    Some (write_tmr s 1 ((offset - TIMER_TMR3_0) / 4) value now_ns)
  else if (offset =? TIMER_TCR2) || (offset =? TIMER_TCR3) then Some s
  else if offset =? TIMER_TIER2 then Some (write_tier s 0 value)
  else if offset =? TIMER_TIER3 then Some (write_tier s 1 value)
  else if offset =? TIMER_TPLVR2 then Some (write_tplvr s 0 value now_ns)
  else if offset =? TIMER_TPLVR3 then Some (write_tplvr s 1 value now_ns)
  else if offset =? TIMER_TPLCR2 then Some (write_tplcr s 0 value now_ns)
  else if offset =? TIMER_TPLCR3 then Some (write_tplcr s 1 value now_ns)
  else if offset =? TIMER_WMER then write_wmer s value now_ns
  else if offset =? TIMER_WMR then write_wmr s value now_ns
  else if offset =? TIMER_TICR2 then Some (write_ticr s 0 value)
  else if offset =? TIMER_TICR3 then Some (write_ticr s 1 value)
  else if offset =? TIMER_WICR then Some (write_wicr s value)
  else if offset =? TIMER_TCER then Some (write_tcer s value now_ns)
  else if offset =? TIMER_TCMR then Some (write_tcmr s value now_ns)
  else if offset =? TIMER_TILR2 then Some (s <| tilr := aset (tilr s) 0 (u32 value) |>)
  else if offset =? TIMER_TILR3 then Some (s <| tilr := aset (tilr s) 1 (u32 value) |>)
  else if offset =? TIMER_WSR then
    Some (if Z.land (u32 value) 1 =? 0 then bl808_timer_update_irq (s <| wsr := clr (wsr s) 1 |>) else s)
  else if offset =? TIMER_WCR then write_wcr s value now_ns
  else if offset =? TIMER_WFAR then
    Some (s <| wfar_seen := Z.land (u32 value) 0xFFFF =? WFAR_MAGIC |> <| wdt_unlocked := false |>)
  else if offset =? TIMER_WSAR then Some (write_wsar s value)
  else if offset =? TIMER_TCDR then Some (write_tcdr s value now_ns)
  else if offset =? TIMER_TCDR_FORCE then write_tcdr_force s value now_ns
  else Some s.

End BL808Timer.
