(* ===== verification/TimerSpec.v ===== *)
(** * Timers and watchdog: properties

    The instants at which compare events happen, the levels of the interrupt
    lines, the two-key lock of the watchdog registers and the snapshot of the
    counters. *)

From S2P Require Import Prelude Qemu Timer.
From stdpp Require Import prelude list.
From Stdlib Require Import ZArith Lia.
Local Open Scope Z_scope.
Import BL808Timer.

(** ** Runs *)

Inductive timer_op :=
  | TWrite (offset value : Z)
  | TRead (offset : Z)
  | TChannel (ch : Z)
  | TWatchdog
  | TClock (enabled : bool)
  | TInputs (bclk xtal f32k : Z)
  | TResetLine (asserted : bool)
  | TReset.

(** An operation at virtual time [now].  The emulator removes an expired timer
    before it calls the handler. *)
Definition timer_step (s : BL808TimerState) (now : Z) (op : timer_op) : option BL808TimerState :=
  match op with
  | TWrite offset value => bl808_timer_write s offset value now
  | TRead offset => Some (bl808_timer_read s offset now).2
  | TChannel ch =>
      Some (if ch =? 0 then bl808_timer_channel0_cb (set_channel_timer s 0 None) now
            else bl808_timer_channel1_cb (set_channel_timer s 1 None) now)
  | TWatchdog => bl808_timer_wdt_fire (s <| wdt_timer := None |>) now
  | TClock b => bl808_timer_set_clock_enabled s b now
  | TInputs b x f => bl808_timer_set_clock_inputs s b x f now
  | TResetLine b => Some (bl808_timer_set_reset_asserted s b now)
  | TReset => Some (bl808_timer_reset s now)
  end.

Fixpoint timer_run (s : BL808TimerState) (ops : list (Z * timer_op)) : option BL808TimerState :=
  match ops with
  | [] => Some s
  | (now, op) :: ops => s ← timer_step s now op; timer_run s ops
  end.

(** ** What the helpers leave alone *)

(** The fields that decide the interrupt lines, and the lock. *)
Definition lines_of (s : BL808TimerState) :=
  (irq s, clock_enabled s, reset_asserted s, tsr s, tier s, tilr s, wsr s).
Definition lock_of (s : BL808TimerState) := (wfar_seen s, wdt_unlocked s).
Definition ctl (s : BL808TimerState) := (lines_of s, lock_of s, timers_created s).

Lemma ctl_sync s ch now : ctl (bl808_timer_channel_sync s ch now) = ctl s.
Proof. reflexivity. Qed.
Lemma ctl_reschedule s ch now : ctl (bl808_timer_channel_reschedule s ch now) = ctl s.
Proof. unfold bl808_timer_channel_reschedule. by repeat case_match. Qed.
Lemma ctl_wdt_reschedule s now s' : bl808_timer_wdt_reschedule s now = Some s' → ctl s' = ctl s.
Proof. unfold bl808_timer_wdt_reschedule. intros H. repeat case_match; simplify_eq; done. Qed.
Lemma ctl_reschedule_all s now s' : reschedule_all s now = Some s' → ctl s' = ctl s.
Proof. unfold reschedule_all. intros H%ctl_wdt_reschedule. by rewrite H, !ctl_reschedule. Qed.
Lemma ctl_stage s ch now take : (∀ s, ctl (take s) = ctl s) → ctl (stage_channel s ch now take) = ctl s.
Proof. intros Ht. unfold stage_channel. case_match; [done|]. by rewrite ctl_reschedule, Ht. Qed.
Lemma ctl_restart s ch now v o n en c : ctl (tcer_restart s ch now v o n en c) = ctl s.
Proof. unfold tcer_restart. by case_match. Qed.

#[local] Hint Rewrite ctl_sync ctl_reschedule ctl_restart : ctl.

Lemma ctl_write_tmr s ch i v now : ctl (write_tmr s ch i v now) = ctl s.
Proof. unfold write_tmr. by rewrite ctl_stage. Qed.
Lemma ctl_write_tplvr s ch v now : ctl (write_tplvr s ch v now) = ctl s.
Proof. unfold write_tplvr. by rewrite ctl_stage. Qed.
Lemma ctl_write_tplcr s ch v now : ctl (write_tplcr s ch v now) = ctl s.
Proof. unfold write_tplcr. by rewrite ctl_stage. Qed.
Lemma ctl_write_tcer s v now : ctl (write_tcer s v now) = ctl s.
Proof. unfold write_tcer. cbv zeta. by rewrite !ctl_reschedule, !ctl_restart. Qed.
Lemma ctl_write_tcmr s v now : ctl (write_tcmr s v now) = ctl s.
Proof. unfold write_tcmr. cbv zeta. rewrite !ctl_reschedule. by repeat case_match. Qed.
Lemma ctl_write_tcdr s v now : ctl (write_tcdr s v now) = ctl s.
Proof. unfold write_tcdr. cbv zeta. by repeat case_match. Qed.
Lemma ctl_write_tcdr_force s v now s' : write_tcdr_force s v now = Some s' → ctl s' = ctl s.
Proof.
  unfold write_tcdr_force. cbv zeta. set (s0 := s <| tcdr_force := _ |>).
  set (s1 := if tst (tcdr_force s0) TCDR_FORCE_TIMER2 then _ else s0).
  assert (ctl s1 = ctl s) as H1 by (unfold s1; case_match; [by rewrite ctl_reschedule|done]).
  set (s2 := if tst (tcdr_force s1) TCDR_FORCE_TIMER3 then _ else s1).
  assert (ctl s2 = ctl s) as H2 by (unfold s2; case_match; [rewrite ctl_reschedule; exact H1|done]).
  case_match; [|by intros [= <-]]. intros Hw%ctl_wdt_reschedule. rewrite Hw. exact H2.
Qed.

(** ** Interrupt lines *)

Definition lines_current (s : BL808TimerState) : Prop := irq s = irq (bl808_timer_update_irq s).

Lemma lines_of_eq s s' : lines_of s' = lines_of s → lines_current s → lines_current s'.
Proof.
  unfold lines_of, lines_current. intros H. injection H as E1 E2 E3 E4 E5 E6 E7. unfold bl808_timer_update_irq, bl808_timer_channel_level_irq_pending.
  cbn [irq set_field]. by rewrite E1, E2, E3, E4, E5, E6, E7.
Qed.

Lemma ctl_lines s s' : ctl s' = ctl s → lines_current s → lines_current s'.
Proof. intros H. apply lines_of_eq. exact (f_equal (λ x, x.1.1) H). Qed.

Lemma update_current s : lines_current (bl808_timer_update_irq s).
Proof. reflexivity. Qed.

(** The operations after which the lines may be out of date: writes to the
    level registers. *)
Definition writes_level (op : timer_op) : bool :=
  match op with TWrite offset _ => (offset =? TIMER_TILR2) || (offset =? TIMER_TILR3) | _ => false end.

Lemma event_current s ch now : lines_current (bl808_timer_channel_event s ch now).
Proof.
  unfold bl808_timer_channel_event. cbv zeta. destruct (raise_compares s ch _) as [s1 st].
  eapply ctl_lines; [apply ctl_reschedule|apply update_current].
Qed.

Lemma wdt_fire_current s now s' : bl808_timer_wdt_fire s now = Some s' → lines_current s'.
Proof.
  unfold bl808_timer_wdt_fire. cbv zeta. set (s1 := if _ && _ then _ else _). destruct (tst _ WMER_WDT_RST).
  - intros [= <-]. apply (lines_of_eq (bl808_timer_update_irq s1)); [done|apply update_current].
  - intros H%ctl_wdt_reschedule. eapply ctl_lines; [exact H|apply update_current].
Qed.

Lemma take_unlock_current s : lines_current s → lines_current (bl808_timer_wdt_take_unlock s).2.
Proof. by apply lines_of_eq. Qed.

Lemma wmer_current s v now s' : lines_current s → write_wmer s v now = Some s' → lines_current s'.
Proof.
  intros Hc. unfold write_wmer. cbn [bl808_timer_wdt_take_unlock]. destruct (negb (wdt_unlocked s)).
  - intros [= <-]. exact (take_unlock_current s Hc).
  - cbv zeta. intros H%ctl_wdt_reschedule. eapply ctl_lines; [exact H|].
    case_match; [|by apply lines_of_eq with s]. case_match; by apply lines_of_eq with s.
Qed.

Lemma wmr_current s v now s' : lines_current s → write_wmr s v now = Some s' → lines_current s'.
Proof.
  intros Hc. unfold write_wmr. cbn [bl808_timer_wdt_take_unlock]. destruct (negb (wdt_unlocked s)).
  - intros [= <-]. exact (take_unlock_current s Hc).
  - cbv zeta. destruct (_ && _).
    + intros [= <-]. by apply lines_of_eq with s.
    + intros H%ctl_wdt_reschedule. eapply ctl_lines; [exact H|]. by apply lines_of_eq with s.
Qed.

Lemma wicr_current s v : lines_current s → lines_current (write_wicr s v).
Proof.
  intros Hc. unfold write_wicr. cbn [bl808_timer_wdt_take_unlock]. destruct (negb _); [exact (take_unlock_current s Hc)|].
  destruct (tst v 1); [apply update_current|exact (take_unlock_current s Hc)].
Qed.

Lemma wcr_current s v now s' : lines_current s → write_wcr s v now = Some s' → lines_current s'.
Proof.
  intros Hc. unfold write_wcr. cbn [bl808_timer_wdt_take_unlock]. destruct (negb (wdt_unlocked s)).
  - intros [= <-]. exact (take_unlock_current s Hc).
  - cbv zeta. destruct (negb (_ =? 0)).
    + intros H%ctl_wdt_reschedule. eapply ctl_lines; [exact H|]. case_match; by apply lines_of_eq with s.
    + intros [= <-]. by apply lines_of_eq with s.
Qed.

Lemma wsar_current s v : lines_current s → lines_current (write_wsar s v).
Proof. intros Hc. unfold write_wsar. destruct (_ && _); by apply lines_of_eq with s. Qed.

Lemma some_current x s' : lines_current x → Some x = Some s' → lines_current s'.
Proof. by intros ? [= <-]. Qed.

Lemma twrite_current s offset value now s' :
  lines_current s → writes_level (TWrite offset value) = false →
  bl808_timer_write s offset value now = Some s' → lines_current s'.
Proof.
  intros Hc Hl. cbn [writes_level] in Hl. apply orb_false_iff in Hl as [Hl2 Hl3]. unfold bl808_timer_write.
  rewrite Hl2, Hl3. clear Hl2 Hl3.
  destruct (offset =? TIMER_TCCR); [intros H%ctl_reschedule_all; eapply ctl_lines; [exact H|]; by apply lines_of_eq with s|].
  destruct (_ || (offset =? TIMER_TMR2_2)); [apply some_current; eapply ctl_lines; [apply ctl_write_tmr|done]|].
  destruct (_ || (offset =? TIMER_TMR3_2)); [apply some_current; eapply ctl_lines; [apply ctl_write_tmr|done]|].
  destruct (_ || (offset =? TIMER_TCR3)); [by apply some_current|].
  do 2 (destruct (offset =? _); [apply some_current, update_current|]).
  do 2 (destruct (offset =? _); [apply some_current; eapply ctl_lines; [apply ctl_write_tplvr|done]|]).
  do 2 (destruct (offset =? _); [apply some_current; eapply ctl_lines; [apply ctl_write_tplcr|done]|]).
  destruct (offset =? _); [by apply wmer_current|]. destruct (offset =? _); [by apply wmr_current|].
  do 2 (destruct (offset =? _); [apply some_current, update_current|]).
  destruct (offset =? _); [by apply some_current, wicr_current|].
  destruct (offset =? _); [apply some_current; eapply ctl_lines; [apply ctl_write_tcer|done]|].
  destruct (offset =? _); [apply some_current; eapply ctl_lines; [apply ctl_write_tcmr|done]|].
  destruct (offset =? _); [apply some_current; destruct (_ =? 0); [apply update_current|done]|].
  destruct (offset =? _); [by apply wcr_current|].
  destruct (offset =? _); [apply some_current; by apply lines_of_eq with s|].
  destruct (offset =? _); [by apply some_current, wsar_current|].
  destruct (offset =? _); [apply some_current; eapply ctl_lines; [apply ctl_write_tcdr|done]|].
  destruct (offset =? _); [intros H%ctl_write_tcdr_force; by eapply ctl_lines|]. by apply some_current.
Qed.

Lemma read_ctl s offset now : ctl (bl808_timer_read s offset now).2 = ctl s.
Proof.
  unfold bl808_timer_read, bl808_timer_tcvwr_read. cbv zeta. repeat (destruct (offset =? _); [done|]).
  repeat case_match; done.
Qed.

Lemma tstep_current s now op s' :
  lines_current s → timers_created s = true → writes_level op = false → timer_step s now op = Some s' → lines_current s'.
Proof.
  intros Hc Ht Hl. destruct op as [o v|o|ch| |b|b x f|b|]; cbn [timer_step].
  - by apply twrite_current.
  - apply some_current. eapply ctl_lines; [apply read_ctl|done].
  - apply some_current. destruct (ch =? 0); apply event_current.
  - apply wdt_fire_current.
  - unfold bl808_timer_set_clock_enabled. rewrite Ht. cbn [negb]. intros (s1 & _ & [= <-])%bind_Some. apply update_current.
  - unfold bl808_timer_set_clock_inputs. rewrite Ht. cbn [negb]. intros (s1 & _ & [= <-])%bind_Some. apply update_current.
  - apply some_current. unfold bl808_timer_set_reset_asserted. cbv zeta.
    change (timers_created (s <| reset_asserted := b |>)) with (timers_created s). rewrite Ht. cbn [negb].
    destruct b; apply update_current.
  - apply some_current. apply update_current.
Qed.

(** ** The lock of the watchdog *)

Inductive lock := Locked | FirstKey | Unlocked.

#[export] Instance lock_eq_dec : EqDecision lock.
Proof. solve_decision. Defined.

Definition lock_state (s : BL808TimerState) : lock :=
  if wdt_unlocked s then Unlocked else if wfar_seen s then FirstKey else Locked.

Definition protected (offset : Z) : bool :=
  (offset =? TIMER_WMER) || (offset =? TIMER_WMR) || (offset =? TIMER_WICR) || (offset =? TIMER_WCR).

(** The specification: the two keys in order open the lock for one access. *)
Definition lock_step (l : lock) (op : timer_op) : lock :=
  match op with
  | TWrite offset value =>
      if offset =? TIMER_WFAR then (if Z.land (u32 value) 0xFFFF =? WFAR_MAGIC then FirstKey else Locked)
      else if offset =? TIMER_WSAR then
        (if bool_decide (l = FirstKey) && (Z.land (u32 value) 0xFFFF =? WSAR_MAGIC) then Unlocked else Locked)
      else if protected offset then (if bool_decide (l = Unlocked) then Locked else l)
      else l
  | TReset | TResetLine true => Locked
  | _ => l
  end.

(** The keys and the flag are never both pending. *)
Definition lock_inv (s : BL808TimerState) : Prop := wdt_unlocked s = true → wfar_seen s = false.

Definition keys (s : BL808TimerState) := (lock_of s, timers_created s).

Lemma ctl_keys s s' : ctl s' = ctl s → keys s' = keys s.
Proof. intros H. exact (f_equal (λ x, (x.1.2, x.2)) H). Qed.

Lemma raise_keys s ch c : keys (raise_compares s ch c).1 = keys s.
Proof.
  unfold raise_compares. set (f := λ '(s, st) i, _).
  assert (∀ l s st, keys (foldl f (s, st) l).1 = keys s) as Hf; [|apply Hf].
  intros l. induction l as [|i l IH]; intros s1 st; [done|]. cbn [foldl f]. case_match; by rewrite IH.
Qed.

Lemma event_keys s ch now : keys (bl808_timer_channel_event s ch now) = keys s.
Proof.
  unfold bl808_timer_channel_event. cbv zeta.
  pose proof (raise_keys s ch (bl808_timer_channel_now s ch now)) as Hr.
  destruct (raise_compares s ch _) as [s1 st]. cbn [fst] in Hr. rewrite (ctl_keys _ _ (ctl_reschedule _ _ _)).
  change (keys (bl808_timer_update_irq ?x)) with (keys x). rewrite <- Hr.
  assert (∀ x, keys (bl808_timer_channel_pulse_irq x ch) = keys x) as Hp
    by (intros x; unfold bl808_timer_channel_pulse_irq; by case_match).
  case_match; rewrite ?Hp; (case_match; [by repeat case_match|]; by repeat case_match).
Qed.

(** The protected registers: a closed lock turns the write into nothing, an open
    one is used up. *)
Lemma protected_step s offset value now s' :
  protected offset = true → bl808_timer_write s offset value now = Some s' →
  keys s' = ((wfar_seen s, false), timers_created s) ∧ (wdt_unlocked s = false → s' = s).
Proof.
  assert (wdt_unlocked s = false → s <| wdt_unlocked := false |> = s) as Hid by (intros <-; by destruct s).
  assert (∀ x y, keys x = keys (s <| wdt_unlocked := false |>) → ctl y = ctl x → keys y = ((wfar_seen s, false), timers_created s)) as Hk.
  { intros x y Hx Hy%ctl_keys. by rewrite Hy, Hx. }
  unfold protected. rewrite !orb_true_iff, !Z.eqb_eq. intros [[[->| ->]| ->]| ->].
  - change (bl808_timer_write s TIMER_WMER value now) with (write_wmer s value now). unfold write_wmer.
    cbn [bl808_timer_wdt_take_unlock]. destruct (wdt_unlocked s) eqn:E; cbn [negb].
    + cbv zeta. intros H%ctl_wdt_reschedule. split; [|done]. eapply Hk; [|exact H]. case_match; [case_match; done|done].
    + intros [= <-]. split; [done|]. intros _. by apply Hid.
  - change (bl808_timer_write s TIMER_WMR value now) with (write_wmr s value now). unfold write_wmr.
    cbn [bl808_timer_wdt_take_unlock]. destruct (wdt_unlocked s) eqn:E; cbn [negb].
    + cbv zeta. destruct (_ && _); [by intros [= <-]|]. intros H%ctl_wdt_reschedule. split; [|done]. by eapply Hk; [|exact H].
    + intros [= <-]. split; [done|]. intros _. by apply Hid.
  - change (bl808_timer_write s TIMER_WICR value now) with (Some (write_wicr s value)). unfold write_wicr.
    cbn [bl808_timer_wdt_take_unlock]. destruct (wdt_unlocked s) eqn:E; cbn [negb].
    + destruct (tst value 1); by intros [= <-].
    + intros [= <-]. split; [done|]. intros _. by apply Hid.
  - change (bl808_timer_write s TIMER_WCR value now) with (write_wcr s value now). unfold write_wcr.
    cbn [bl808_timer_wdt_take_unlock]. destruct (wdt_unlocked s) eqn:E; cbn [negb].
    + cbv zeta. destruct (negb (_ =? 0)); [|by intros [= <-]]. intros H%ctl_wdt_reschedule. split; [|done].
      eapply Hk; [|exact H]. case_match; done.
    + intros [= <-]. split; [done|]. intros _. by apply Hid.
Qed.

Lemma some_keys x s' (k : (bool * bool) * bool) : keys x = k → Some x = Some s' → keys s' = k.
Proof. by intros <- [= <-]. Qed.

(** Every other register leaves the lock alone. *)
Lemma write_keys s offset value now s' :
  protected offset = false → (offset =? TIMER_WFAR) = false → (offset =? TIMER_WSAR) = false →
  bl808_timer_write s offset value now = Some s' → keys s' = keys s.
Proof.
  unfold protected. intros Hp E1 E2. apply orb_false_iff in Hp as [[[P1 P2]%orb_false_iff P3]%orb_false_iff P4].
  unfold bl808_timer_write. rewrite E1, E2, P1, P2, P3, P4. clear E1 E2 P1 P2 P3 P4.
  destruct (offset =? TIMER_TCCR); [intros H%ctl_reschedule_all%ctl_keys; by rewrite H|].
  destruct (_ || (offset =? TIMER_TMR2_2)); [apply some_keys, ctl_keys, ctl_write_tmr|].
  destruct (_ || (offset =? TIMER_TMR3_2)); [apply some_keys, ctl_keys, ctl_write_tmr|].
  destruct (_ || (offset =? TIMER_TCR3)); [by apply some_keys|].
  do 2 (destruct (offset =? _); [by apply some_keys|]).
  do 2 (destruct (offset =? _); [apply some_keys, ctl_keys, ctl_write_tplvr|]).
  do 2 (destruct (offset =? _); [apply some_keys, ctl_keys, ctl_write_tplcr|]).
  do 2 (destruct (offset =? _); [by apply some_keys|]).
  destruct (offset =? _); [apply some_keys, ctl_keys, ctl_write_tcer|].
  destruct (offset =? _); [apply some_keys, ctl_keys, ctl_write_tcmr|].
  do 2 (destruct (offset =? _); [by apply some_keys|]).
  destruct (offset =? _); [apply some_keys; by destruct (_ =? 0)|].
  destruct (offset =? _); [apply some_keys, ctl_keys, ctl_write_tcdr|].
  destruct (offset =? _); [intros H%ctl_write_tcdr_force; by apply ctl_keys|]. by apply some_keys.
Qed.

Lemma lock_of_keys s s' : keys s' = keys s → lock_state s' = lock_state s ∧ (lock_inv s → lock_inv s').
Proof. unfold keys, lock_of, lock_state, lock_inv. intros [= -> -> _]. done. Qed.

(** The operations that are not writes, and not resets. *)
Definition quiet_op (op : timer_op) : bool :=
  match op with TWrite _ _ | TReset | TResetLine true => false | _ => true end.

Lemma quiet_keys s now op s' :
  timers_created s = true → quiet_op op = true →
  timer_step s now op = Some s' → keys s' = keys s.
Proof.
  intros Ht Hq. destruct op as [o v|o|ch| |b|b x f|[]|]; try done; cbn [timer_step].
  - apply some_keys, ctl_keys, read_ctl.
  - apply some_keys. destruct (ch =? 0); unfold bl808_timer_channel0_cb, bl808_timer_channel1_cb; by rewrite event_keys.
  - unfold bl808_timer_wdt_fire. cbv zeta. set (s1 := if _ && _ then _ else _).
    assert (keys s1 = keys s) as H1 by (unfold s1; by case_match).
    destruct (tst _ WMER_WDT_RST); [by apply some_keys|]. intros H%ctl_wdt_reschedule%ctl_keys. by rewrite H.
  - unfold bl808_timer_set_clock_enabled. rewrite Ht. cbn [negb].
    intros (s1 & H%ctl_reschedule_all%ctl_keys & [= <-])%bind_Some. exact H.
  - unfold bl808_timer_set_clock_inputs. rewrite Ht. cbn [negb].
    intros (s1 & H%ctl_reschedule_all%ctl_keys & [= <-])%bind_Some. exact H.
  - apply some_keys. unfold bl808_timer_set_reset_asserted. cbv zeta.
    change (timers_created (s <| reset_asserted := false |>)) with (timers_created s). by rewrite Ht.
Qed.

Lemma lock_simulates s now op s' :
  timers_created s = true → lock_inv s → timer_step s now op = Some s' →
  timers_created s' = true ∧ lock_inv s' ∧ lock_state s' = lock_step (lock_state s) op.
Proof.
  intros Ht Hi Hstep. destruct (quiet_op op) eqn:Hq.
  { pose proof (quiet_keys s now op s' Ht Hq Hstep) as Hk. destruct (lock_of_keys _ _ Hk) as [-> ?].
    split; [|split; [auto|]].
    - rewrite <- Ht. exact (f_equal snd Hk).
    - by destruct op as [| | | | | |[]|]. }
  destruct op as [o v| | | | | |[]|]; try done; cbn [timer_step] in Hstep.
  - cbn [lock_step]. destruct (Z.eqb_spec o TIMER_WFAR) as [->|N1].
    { change (bl808_timer_write s TIMER_WFAR v now) with
        (Some (s <| wfar_seen := Z.land (u32 v) 0xFFFF =? WFAR_MAGIC |> <| wdt_unlocked := false |>)) in Hstep.
      injection Hstep as <-. split; [done|]. split; [done|]. unfold lock_state. cbn. done. }
    destruct (Z.eqb_spec o TIMER_WSAR) as [->|N2].
    { change (bl808_timer_write s TIMER_WSAR v now) with (Some (write_wsar s v)) in Hstep. injection Hstep as <-.
      unfold write_wsar, lock_state, lock_inv in *.
      destruct (wdt_unlocked s), (wfar_seen s), (Z.land (u32 v) 65535 =? WSAR_MAGIC); cbn; try done. by specialize (Hi eq_refl). }
    destruct (protected o) eqn:Ep.
    + destruct (protected_step s o v now s' Ep Hstep) as [Hk _]. unfold keys, lock_of in Hk. injection Hk as K1 K2 K3.
      rewrite K3. split; [done|]. unfold lock_state, lock_inv. rewrite K1, K2. split; [done|].
      destruct (wdt_unlocked s) eqn:Eu; [by rewrite (Hi Eu)|]. by destruct (wfar_seen s).
    + pose proof (write_keys s o v now s' Ep (proj2 (Z.eqb_neq _ _) N1) (proj2 (Z.eqb_neq _ _) N2) Hstep) as Hk.
      destruct (lock_of_keys _ _ Hk) as [-> ?]. split; [|split; [auto|done]]. rewrite <- Ht. exact (f_equal snd Hk).
  - injection Hstep as <-. unfold bl808_timer_set_reset_asserted. cbv zeta.
    change (timers_created (s <| reset_asserted := true |>)) with (timers_created s). rewrite Ht. done.
  - by injection Hstep as <-.
Qed.

Lemma lock_run s ops s' :
  timers_created s = true → lock_inv s → timer_run s ops = Some s' →
  timers_created s' = true ∧ lock_inv s' ∧ lock_state s' = foldl lock_step (lock_state s) ops.*2.
Proof.
  revert s. induction ops as [|[now op] ops IH]; intros s Ht Hi; cbn [timer_run fmap list_fmap foldl].
  { by intros [= <-]. }
  intros (s1 & Hs & Hr)%bind_Some. destruct (lock_simulates s now op s1 Ht Hi Hs) as (Ht1 & Hi1 & Hl).
  cbn [snd]. rewrite <- Hl. by apply IH.
Qed.

(** C12: the watchdog registers are protected by a two-key lock.  After any run
    from reset, the lock is in the state that the keys written so far determine:
    open only when the first key, then the second key were written, and no
    protected register since; and a write to a protected register (mode, match,
    interrupt clear, counter reset) while it is not open changes nothing. *)
Theorem timer_wdt_lock s0 t0 ops s :
  timers_created s0 = true → timer_run (bl808_timer_reset s0 t0) ops = Some s →
  lock_state s = foldl lock_step Locked ops.*2 ∧
  (lock_state s ≠ Unlocked → ∀ offset value now, protected offset = true →
     bl808_timer_write s offset value now = Some s).
Proof.
  intros Ht Hr. destruct (lock_run (bl808_timer_reset s0 t0) ops s Ht ltac:(done) Hr) as (_ & _ & Hl). split; [done|].
  intros Hn offset value now Hp. destruct (wdt_unlocked s) eqn:Eu.
  { exfalso. apply Hn. unfold lock_state. by rewrite Eu. }
  destruct (bl808_timer_write s offset value now) as [s'|] eqn:Ew.
  - f_equal. by destruct (protected_step s offset value now s' Hp Ew) as [_ ->].
  - exfalso. revert Ew. unfold protected in Hp. rewrite !orb_true_iff, !Z.eqb_eq in Hp.
    destruct Hp as [[[->| ->]| ->]| ->].
    + change (write_wmer s value now ≠ None). unfold write_wmer. cbn [bl808_timer_wdt_take_unlock]. by rewrite Eu.
    + change (write_wmr s value now ≠ None). unfold write_wmr. cbn [bl808_timer_wdt_take_unlock]. by rewrite Eu.
    + done.
    + change (write_wcr s value now ≠ None). unfold write_wcr. cbn [bl808_timer_wdt_take_unlock]. by rewrite Eu.
Qed.

(** ** The lines over runs *)

Lemma lines_run s ops s' :
  timers_created s = true → lock_inv s → lines_current s → forallb (λ '(_, op), negb (writes_level op)) ops = true →
  timer_run s ops = Some s' → lines_current s'.
Proof.
  revert s. induction ops as [|[now op] ops IH]; intros s Ht Hi Hc; cbn [timer_run forallb].
  { by intros _ [= <-]. }
  intros [Hl%negb_true_iff Hrest]%andb_true_iff (s1 & Hs & Hr)%bind_Some.
  destruct (lock_simulates s now op s1 Ht Hi Hs) as (Ht1 & Hi1 & _).
  apply (IH s1 Ht1 Hi1); [|done..]. by apply (tstep_current s now op).
Qed.

Lemma level_pending_bits s ch :
  bl808_timer_channel_level_irq_pending s ch = true ↔
  ∃ i, 0 ≤ i < 3 ∧ Z.testbit (tsr s !% ch) i = true ∧ Z.testbit (tier s !% ch) i = true ∧ Z.testbit (tilr s !% ch) i = false.
Proof.
  unfold bl808_timer_channel_level_irq_pending. rewrite negb_true_iff, Z.eqb_neq.
  assert (∀ i, 0 ≤ i → Z.testbit (Z.land (clr (Z.land (tsr s !% ch) (tier s !% ch)) (tilr s !% ch)) 7) i =
    Z.testbit (tsr s !% ch) i && Z.testbit (tier s !% ch) i && negb (Z.testbit (tilr s !% ch) i) && (i <? 3)) as Hb.
  { intros i Hi. rewrite Z.land_spec, clr_spec, Z.land_spec by done. f_equal. change 7 with (Z.ones 3).
    destruct (Z.ltb_spec i 3); [apply Z.ones_spec_low|apply Z.ones_spec_high]; lia. }
  split.
  - intros Hne. apply nonzero_bit in Hne as (i & Hi & Hbit); [|apply Z.land_nonneg; by right]. rewrite Hb in Hbit by lia.
    apply andb_true_iff in Hbit as [[[? ?]%andb_true_iff ?%negb_true_iff]%andb_true_iff ?%Z.ltb_lt]. exists i. done.
  - intros (i & Hi & H1 & H2 & H3) Hz. apply (f_equal (λ z, Z.testbit z i)) in Hz. rewrite Hb, H1, H2, H3, Z.bits_0 in Hz by lia.
    rewrite (proj2 (Z.ltb_lt _ _)) in Hz by lia. done.
Qed.

(** Over any run from reset that does not write the level registers, the line
    of a channel is high exactly when the block is clocked and out of reset and
    some raised compare interrupt of the channel is enabled and of level type, and
    the line of the watchdog exactly when its interrupt is raised. *)
Theorem timer_lines_follow s0 t0 ops s :
  timers_created s0 = true → timer_run (bl808_timer_reset s0 t0) ops = Some s →
  forallb (λ '(_, op), negb (writes_level op)) ops = true →
  (∀ ch, ch = 0 ∨ ch = 1 → irq s !% ch = true ↔
     clock_enabled s = true ∧ reset_asserted s = false ∧
     ∃ i, 0 ≤ i < 3 ∧ Z.testbit (tsr s !% ch) i = true ∧ Z.testbit (tier s !% ch) i = true ∧ Z.testbit (tilr s !% ch) i = false) ∧
  (irq s !% 2 = true ↔ clock_enabled s = true ∧ reset_asserted s = false ∧ Z.testbit (wsr s) 0 = true).
Proof.
  intros Ht Hr Hl. assert (lines_current s) as Hc.
  { apply (lines_run (bl808_timer_reset s0 t0) ops s); [done|done|apply update_current|done|done]. }
  unfold lines_current, bl808_timer_update_irq in Hc. cbn [irq set_field] in Hc. rewrite Hc. split.
  - intros ch [->| ->].
    + change ([?x; ?y; ?z] !% 0) with x. rewrite <- level_pending_bits, !andb_true_iff, negb_true_iff. tauto.
    + change ([?x; ?y; ?z] !% 1) with y. rewrite <- level_pending_bits, !andb_true_iff, negb_true_iff. tauto.
  - change ([?x; ?y; ?z] !% 2) with z. change 1 with (BIT 0). rewrite tst_BIT, !andb_true_iff, negb_true_iff by lia. tauto.
Qed.

(** ** Compare events *)

(** The shape of the arrays. *)
Record timer_ok (s : BL808TimerState) : Prop := {
  ok_timers : length (channel_timer s) = 2%nat;
  ok_tsr : length (tsr s) = 2%nat;
  ok_fired : length (channel_compare_fired s) = 2%nat;
  ok_flags ch : 0 ≤ ch < 2 → length (channel_compare_fired s !% ch) = 3%nat;
}.

Lemma ceil_ns_exact d rate :
  0 < rate ≤ 1000000000 → 0 < d < 2 ^ 32 →
  let n := ceil_ns d rate in
  1 ≤ n ∧ n * rate < 2 ^ 64 ∧ n * rate / 1000000000 = d ∧ ∀ k, 0 ≤ k < n → k * rate / 1000000000 < d.
Proof.
  intros Hr Hd n. assert (n = (d * 1000000000 + rate - 1) / rate) as En.
  { unfold n, ceil_ns, wrap. rewrite (Z.mod_small (d * 1000000000)) by lia. rewrite Z.mod_small by lia.
    apply Z.max_r. apply Z.div_le_lower_bound; lia. }
  pose proof (Z.div_mod (d * 1000000000 + rate - 1) rate ltac:(lia)) as Hdm.
  pose proof (Z.mod_pos_bound (d * 1000000000 + rate - 1) rate ltac:(lia)) as Hm. rewrite <- En in Hdm.
  assert (d * 1000000000 ≤ n * rate < d * 1000000000 + rate) as Hn by lia.
  split; [nia|]. split; [lia|]. split.
  - symmetry. apply (Z.div_unique_pos _ _ _ (n * rate - d * 1000000000)); lia.
  - intros k Hk. apply Z.div_lt_upper_bound; [lia|]. nia.
Qed.

Lemma elapsed_small now k rate : 0 ≤ k → 0 < rate → k * rate < 2 ^ 64 →
  elapsed_ticks (now + k) now rate = k * rate / 1000000000.
Proof.
  intros Hk Hr Hb. unfold elapsed_ticks. replace (now + k - now) with k by lia.
  rewrite (wrap_small 64 k), wrap_small by (unfold uint; nia). done.
Qed.

(** The counter [k] nanoseconds after the base instant. *)
Lemma channel_now_after s ch now k rate :
  bl808_timer_channel_enabled s ch = true → bl808_timer_source_hz s ch = rate → 0 < rate →
  channel_base_ns s !% ch = now → 0 ≤ k → k * rate < 2 ^ 64 → 0 ≤ channel_count s !% ch →
  channel_count s !% ch + k * rate / 1000000000 < 2 ^ 32 →
  bl808_timer_channel_now s ch (now + k) = channel_count s !% ch + k * rate / 1000000000.
Proof.
  intros He Er Hr Hb Hk Hkr Hc Hlt. unfold bl808_timer_channel_now. rewrite He, Er, (proj2 (Z.eqb_neq rate 0)) by lia.
  cbn [negb orb]. rewrite Hb, elapsed_small by done. assert (0 ≤ k * rate / 1000000000) by (apply Z.div_pos; nia).
  rewrite (wrap_small 32 (k * rate / 1000000000)), wrap_small by (unfold uint; lia). done.
Qed.

(** The compare values that the counter [current] hits. *)
Definition hit (s : BL808TimerState) (ch current i : Z) : bool :=
  negb ((channel_compare_fired s !% ch) !% i) && ((tmr_live s !% ch) !% i =? current).

(** [s'] is [s] after raising the hits among [l]. *)
Record raised (s : BL808TimerState) (ch current : Z) (l : list Z) (s' : BL808TimerState) : Prop := {
  rs_ok : timer_ok s';
  rs_tmr : tmr_live s' = tmr_live s;
  rs_other : (clock_enabled s', reset_asserted s', tier s', tilr s') = (clock_enabled s, reset_asserted s, tier s, tilr s);
  rs_fired j : j ∉ l → 0 ≤ j → (channel_compare_fired s' !% ch) !% j = (channel_compare_fired s !% ch) !% j;
  rs_tsr j : 0 ≤ j → Z.testbit (tsr s' !% ch) j = Z.testbit (tsr s !% ch) j || (bool_decide (j ∈ l) && hit s ch current j);
}.

Lemma raised_step s ch current l s' st i :
  0 ≤ ch < 2 → 0 ≤ i < 3 → i ∉ l → raised s ch current l s' →
  raised s ch current (l ++ [i])
    (if negb ((channel_compare_fired s' !% ch) !% i) && ((tmr_live s' !% ch) !% i =? current) then
       (s' <| tsr := aset (tsr s') ch (Z.lor (tsr s' !% ch) (BIT i)) |>
           <| channel_compare_fired := aset (channel_compare_fired s') ch (aset (channel_compare_fired s' !% ch) i true) |>,
        Z.lor st (BIT i))
     else (s', st)).1.
Proof.
  intros Hch Hi Hn [[Ok1 Ok2 Ok3 Ok4] Ht Ho Hf Hb]. rewrite Hf, Ht by (done || lia). fold (hit s ch current i).
  assert (∀ j, bool_decide (j ∈ l ++ [i]) = bool_decide (j ∈ l) || (i =? j)) as Hmem.
  { intros j. destruct (Z.eqb_spec i j) as [->|].
    - rewrite orb_true_r. apply bool_decide_eq_true_2. set_solver.
    - rewrite orb_false_r. apply bool_decide_ext. set_solver. }
  destruct (hit s ch current i) eqn:Eh; cbn [fst].
  - split; [|done|done| |].
    + split; cbn [channel_timer tsr channel_compare_fired set_field]; rewrite ?aset_length; try done.
      intros c Hc. destruct (decide (c = ch)) as [->|].
      * rewrite aget_aset_eq, aset_length by (rewrite Ok3; lia). by apply Ok4.
      * rewrite aget_aset_ne by lia. by apply Ok4.
    + intros j Hj Hj0. cbn [channel_compare_fired set_field]. rewrite aget_aset_eq by (rewrite Ok3; lia).
      rewrite aget_aset_ne by set_solver by lia. apply Hf; [set_solver|done].
    + intros j Hj. cbn [tsr set_field]. rewrite aget_aset_eq by (rewrite Ok2; lia). rewrite Z.lor_spec, BIT_spec, Hb, Hmem by lia.
      destruct (Z.eqb_spec i j) as [<-|]; [|by rewrite !orb_false_r]. by rewrite Eh, !orb_true_r.
  - split; [by split|done|done| |].
    + intros j Hj Hj0. apply Hf; [set_solver|done].
    + intros j Hj. rewrite Hb, Hmem by done. destruct (Z.eqb_spec i j) as [<-|]; [|by rewrite orb_false_r].
      by rewrite Eh, !andb_false_r.
Qed.

Lemma raise_spec s ch current : timer_ok s → 0 ≤ ch < 2 → raised s ch current [0; 1; 2] (raise_compares s ch current).1.
Proof.
  intros Hok Hch. unfold raise_compares. cbn [foldl].
  assert (raised s ch current [] s) as H0 by (split; try done; intros j Hj; by rewrite orb_false_r).
  apply (raised_step s ch current [] s 0 0 Hch ltac:(lia) ltac:(set_solver)) in H0.
  match type of H0 with raised _ _ _ _ (?x.1) => set (x0 := x) in * end.
  change (if negb (channel_compare_fired s !% ch !% 0) && _ then _ else _) with x0. destruct x0 as [s0 st0]. cbn [fst] in H0.
  apply (raised_step s ch current [0] s0 st0 1 Hch ltac:(lia) ltac:(set_solver)) in H0.
  match type of H0 with raised _ _ _ _ (?x.1) => destruct x as [s1 st1] end. cbn [fst] in H0.
  by apply (raised_step s ch current [0; 1] s1 st1 2 Hch ltac:(lia) ltac:(set_solver)) in H0.
Qed.

(** What an event does to the status, the enables and the line. *)
Lemma event_status s ch now :
  timer_ok s → 0 ≤ ch < 2 →
  let s' := bl808_timer_channel_event s ch now in
  (clock_enabled s', reset_asserted s', tier s', tilr s') = (clock_enabled s, reset_asserted s, tier s, tilr s) ∧
  ∀ i, 0 ≤ i < 3 → Z.testbit (tsr s' !% ch) i =
    Z.testbit (tsr s !% ch) i || hit s ch (bl808_timer_channel_now s ch now) i.
Proof.
  intros Hok Hch s'. pose proof (raise_spec s ch (bl808_timer_channel_now s ch now) Hok Hch) as Hr.
  set (v := λ x : BL808TimerState, (clock_enabled x, reset_asserted x, tier x, tilr x, tsr x)).
  assert (v s' = v (raise_compares s ch (bl808_timer_channel_now s ch now)).1) as Hv.
  { unfold s', bl808_timer_channel_event. cbv zeta. destruct (raise_compares s ch _) as [s1 st]. cbn [fst].
    assert (∀ x, v (bl808_timer_channel_reschedule x ch now) = v x) as H1
      by (intros x; unfold bl808_timer_channel_reschedule; by repeat case_match).
    assert (∀ x, v (bl808_timer_channel_pulse_irq x ch) = v x) as H2
      by (intros x; unfold bl808_timer_channel_pulse_irq; by case_match).
    rewrite H1. change (v (bl808_timer_update_irq ?x)) with (v x).
    case_match; rewrite ?H2; (case_match; [by repeat case_match|]; by repeat case_match). }
  destruct Hr as [_ _ Ho _ Hb]. unfold v in Hv. injection Hv as V1 V2 V3 V4 V5. split.
  - rewrite V1, V2, V3, V4. exact Ho.
  - intros i Hi. rewrite V5, Hb by lia. rewrite bool_decide_eq_true_2; [done|].
    assert (i = 0 ∨ i = 1 ∨ i = 2) by lia. set_solver.
Qed.

(** C11: compare events happen on time.  When a running channel is re-armed at the
    base instant of its counter, for a rate of at most 1 GHz, its timer is set for
    the first nanosecond at which the counter has reached the next compare value:
    before it the counter is below the value, and at it the counter equals the
    value; the event at that instant raises the status bit of every unfired
    compare register that holds the value, and the channel's line goes high if that
    interrupt is enabled and of level type. *)
Theorem timer_compare_on_time s ch now rate c :
  timer_ok s → 0 ≤ ch < 2 → bl808_timer_channel_enabled s ch = true →
  bl808_timer_source_hz s ch = rate → 0 < rate ≤ 1000000000 →
  channel_base_ns s !% ch = now → 0 ≤ channel_count s !% ch →
  next_compare s ch (channel_count s !% ch) = c → channel_count s !% ch < c < UINT32_MAX →
  let s1 := bl808_timer_channel_reschedule s ch now in
  ∃ t, channel_timer s1 !% ch = Some t ∧ now < t ∧
    (∀ u, now ≤ u < t → bl808_timer_channel_now s1 ch u < c) ∧ bl808_timer_channel_now s1 ch t = c ∧
    let s2 := bl808_timer_channel_event s1 ch t in
    ∀ i, 0 ≤ i < 3 → (tmr_live s !% ch) !% i = c → (channel_compare_fired s !% ch) !% i = false →
      Z.testbit (tsr s2 !% ch) i = true ∧
      (Z.testbit (tier s !% ch) i = true → Z.testbit (tilr s !% ch) i = false → irq s2 !% ch = true).
Proof.
  intros Hok Hch He Er Hr Hb Hc0 Hnext Hc s1. unfold UINT32_MAX in Hc.
  set (n := ceil_ns (c - channel_count s !% ch) rate).
  assert (0 < c - channel_count s !% ch < 2 ^ 32) as Hd by lia.
  destruct (ceil_ns_exact _ rate Hr Hd) as (Hn1 & Hn2 & Hn3 & Hn4). fold n in Hn1, Hn2, Hn3, Hn4.
  assert (bl808_timer_channel_now s ch now = channel_count s !% ch) as Hnow.
  { rewrite <- (Z.add_0_r now) at 1. assert (0 * rate / 1000000000 = 0) as E0 by (by rewrite Z.mul_0_l).
    rewrite (channel_now_after s ch now 0 rate); rewrite ?E0; (done || lia). }
  assert (s1 = set_channel_timer s ch (Some (now + n))) as Es1.
  { unfold s1, bl808_timer_channel_reschedule. rewrite He, Hnow, Er, Hnext. cbn [negb].
    rewrite (proj2 (Z.eqb_neq rate 0)), (proj2 (Z.eqb_neq c UINT32_MAX)), (proj2 (Z.leb_gt _ _)) by (unfold UINT32_MAX; lia). done. }
  clearbody s1. subst s1. set (s1 := set_channel_timer s ch (Some (now + n))).
  assert (∀ u, bl808_timer_channel_now s1 ch u = bl808_timer_channel_now s ch u) as Hsame by done.
  exists (now + n). split; [|split; [lia|split; [|split]]].
  - apply aget_aset_eq. rewrite (ok_timers _ Hok). lia.
  - intros u Hu. rewrite Hsame. replace u with (now + (u - now)) by lia. specialize (Hn4 (u - now) ltac:(lia)).
    assert (0 ≤ (u - now) * rate / 1000000000) by (apply Z.div_pos; nia).
    rewrite (channel_now_after s ch now (u - now) rate); try done; try lia. nia.
  - rewrite Hsame, (channel_now_after s ch now n rate); try done; lia.
  - intros s2 i Hi Hti Hfi. assert (timer_ok s1) as Hok1.
    { destruct Hok as [K1 K2 K3 K4]. split; try done. cbn. by rewrite aset_length. }
    destruct (event_status s1 ch (now + n) Hok1 Hch) as [Eo Eb]. fold s2 in Eo, Eb.
    assert (Z.testbit (tsr s2 !% ch) i = true) as Hbit.
    { rewrite Eb by done. apply orb_true_iff. right. unfold hit. rewrite Hsame, (channel_now_after s ch now n rate) by (done || lia).
      rewrite Hn3. replace (channel_count s !% ch + (c - channel_count s !% ch)) with c by lia.
      change (tmr_live s1) with (tmr_live s). change (channel_compare_fired s1) with (channel_compare_fired s).
      by rewrite Hti, Hfi, Z.eqb_refl. }
    split; [done|]. intros Htier Htilr. injection Eo as V1 V2 V3 V4.
    assert (irq s2 = irq (bl808_timer_update_irq s2)) as Hl by apply event_current. rewrite Hl.
    unfold bl808_timer_channel_enabled in He. apply andb_true_iff in He as [[Hck Hrs]%andb_true_iff _].
    assert (clock_enabled s2 && negb (reset_asserted s2) && bl808_timer_channel_level_irq_pending s2 ch = true) as Hp.
    { rewrite V1, V2. change (clock_enabled s1) with (clock_enabled s). change (reset_asserted s1) with (reset_asserted s).
      rewrite Hck, Hrs. apply level_pending_bits. exists i. rewrite V3, V4. done. }
    unfold bl808_timer_update_irq. cbn [irq set_field]. assert (ch = 0 ∨ ch = 1) as [->| ->] by lia; exact Hp.
Qed.

(** ** Watchdog events *)

Lemma wdt_now_after s now k rate :
  bl808_timer_wdt_enabled s = true → bl808_timer_wdt_hz s = rate → 0 < rate → wdt_base_ns s = now → wdt_count s = 0 →
  0 ≤ k → k * rate < 2 ^ 64 → k * rate / 1000000000 < 2 ^ 16 →
  bl808_timer_wdt_now s (now + k) = k * rate / 1000000000.
Proof.
  intros He Er Hr Hb Hc Hk Hkr Hlt. unfold bl808_timer_wdt_now. rewrite He, Er, (proj2 (Z.eqb_neq rate 0)) by lia.
  cbn [negb orb]. rewrite Hb, Hc, elapsed_small by done. assert (0 ≤ k * rate / 1000000000) by (apply Z.div_pos; nia).
  rewrite (wrap_small 32 (k * rate / 1000000000)), wrap_small by (unfold uint; lia).
  unfold WMR_WDT_MATCH_MASK. change 0xFFFF with (Z.ones 16). rewrite Z.land_ones by lia. apply Z.mod_small. lia.
Qed.

Lemma match_mask x : 0 ≤ Z.land x WMR_WDT_MATCH_MASK < 2 ^ 16.
Proof. unfold WMR_WDT_MATCH_MASK. change 0xFFFF with (Z.ones 16). rewrite Z.land_ones by lia. apply Z.mod_pos_bound. lia. Qed.

Lemma wdt_reschedule_total s now : 0 < bl808_timer_wdt_hz s → is_Some (bl808_timer_wdt_reschedule s now).
Proof.
  intros Hr. unfold bl808_timer_wdt_reschedule. cbv zeta. repeat case_match; try done.
  apply Z.eqb_eq in H1. lia.
Qed.

(** An event of the watchdog raises its interrupt and, when armed for it, asks
    for a reset of the system. *)
Lemma wdt_fire_effect s now : 0 < bl808_timer_wdt_hz s →
  ∃ s', bl808_timer_wdt_fire s now = Some s' ∧ Z.testbit (wsr s') 0 = true ∧
    (tst (wmer s) WMER_WDT_RST = true → reset_requests s' = S (reset_requests s)).
Proof.
  intros Hr. unfold bl808_timer_wdt_fire. cbv zeta. set (s1 := if _ && _ then _ else _).
  assert ((wmer s1, wsr s1, reset_requests s1, bl808_timer_wdt_hz s1) =
          (wmer s, Z.lor (wsr s) 1, reset_requests s, bl808_timer_wdt_hz s)) as E1 by (unfold s1; by case_match).
  injection E1 as E1 E2 E3 E4. change (wmer (bl808_timer_update_irq s1)) with (wmer s1). rewrite E1.
  assert (Z.testbit (wsr s1) 0 = true) as Hb by (rewrite E2, Z.lor_spec; apply orb_true_r).
  destruct (tst (wmer s) WMER_WDT_RST).
  - eexists. split; [done|]. split; [done|]. intros _. cbn. by rewrite E3.
  - destruct (wdt_reschedule_total (bl808_timer_update_irq s1) now) as [s' Hs']; [by rewrite <- E4 in Hr|].
    exists s'. split; [done|]. split; [|done]. apply ctl_wdt_reschedule in Hs'.
    pose proof (f_equal (λ x, x.1.1.2) Hs') as Hw. cbn in Hw. by rewrite Hw.
Qed.

(** A watchdog that starts to count at [now]. *)
Lemma wdt_armed s now s' :
  bl808_timer_wdt_enabled s = true → wdt_count s = 0 → wdt_base_ns s = now →
  let m := bl808_timer_wdt_match_value s in
  m ≠ 0 → bl808_timer_wdt_reschedule s now = Some s' → 0 < bl808_timer_wdt_hz s' ≤ 1000000000 →
  ∃ t, wdt_timer s' = Some t ∧ now < t ∧
    (∀ u, now ≤ u < t → bl808_timer_wdt_now s' u < m) ∧ bl808_timer_wdt_now s' t = m ∧
    ∃ s2, bl808_timer_wdt_fire s' t = Some s2 ∧ Z.testbit (wsr s2) 0 = true ∧
      (tst (wmer s) WMER_WDT_RST = true → reset_requests s2 = S (reset_requests s)).
Proof.
  intros He Hc Hb m Hm Hw Hr. assert (0 ≤ m < 2 ^ 16) as Hmb by apply match_mask.
  assert (bl808_timer_wdt_hz s' = bl808_timer_wdt_hz s) as Ehz
    by (unfold bl808_timer_wdt_reschedule in Hw; repeat case_match; simplify_eq; done).
  rewrite Ehz in Hr. pose proof (eq_refl (bl808_timer_wdt_hz s)) as Er. set (rate := bl808_timer_wdt_hz s) in Hr, Er at 2.
  clearbody rate. assert (0 * rate / 1000000000 = 0) as E0 by (by rewrite Z.mul_0_l).
  assert (bl808_timer_wdt_now s now = 0) as Hn0.
  { rewrite <- (Z.add_0_r now). rewrite (wdt_now_after s now 0 rate); rewrite ?E0; (done || lia). }
  destruct (ceil_ns_exact m rate Hr ltac:(lia)) as (Hn1 & Hn2 & Hn3 & Hn4).
  assert (s' = s <| wdt_timer := Some (now + ceil_ns m rate) |>) as ->.
  { revert Hw. unfold bl808_timer_wdt_reschedule. rewrite He, Hn0, Er. fold m.
    rewrite (proj2 (Z.eqb_neq m 0) Hm), (proj2 (Z.leb_gt m 0)), (proj2 (Z.eqb_neq rate 0)), Z.sub_0_r by lia. cbn [negb orb].
    intros H. by injection H. }
  clear Hw Ehz. set (n := ceil_ns m rate) in *. clearbody n.
  set (s3 := s <| wdt_timer := Some (now + n) |>).
  assert (∀ k, bl808_timer_wdt_now s3 k = bl808_timer_wdt_now s k) as Hsame by reflexivity.
  exists (now + n). split; [reflexivity|]. split; [lia|]. split; [|split].
  - intros u Hu. rewrite Hsame. replace u with (now + (u - now)) by lia. specialize (Hn4 (u - now) ltac:(lia)).
    rewrite (wdt_now_after s now (u - now) rate); try done; try lia. nia.
  - rewrite Hsame, (wdt_now_after s now n rate); try done; lia.
  - destruct (wdt_fire_effect s3 (now + n)) as (s4 & H1 & H2 & H3).
    { change (0 < bl808_timer_wdt_hz s). lia. }
    exists s4. split; [exact H1|]. split; [exact H2|]. intros Hrst. exact (H3 Hrst).
Qed.

(** The watchdog.  A kick (writing the counter-reset register with the lock
    open) restarts the count: the watchdog is armed for the first nanosecond at
    which the count reaches the programmed match value, so a program that kicks
    earlier is never interrupted; at that instant the interrupt is raised, and the
    system reset is requested when the mode register asks for it. *)
Theorem timer_wdt_kick s now value s' :
  wdt_unlocked s = true → bl808_timer_wdt_enabled s = true → Z.land (u32 value) 1 = 1 →
  let m := Z.land (wmr s) WMR_WDT_MATCH_MASK in
  m ≠ 0 → bl808_timer_write s TIMER_WCR value now = Some s' → 0 < bl808_timer_wdt_hz s' ≤ 1000000000 →
  ∃ t, wdt_timer s' = Some t ∧ now < t ∧
    (∀ u, now ≤ u < t → bl808_timer_wdt_now s' u < m) ∧ bl808_timer_wdt_now s' t = m ∧
    ∃ s2, bl808_timer_wdt_fire s' t = Some s2 ∧ Z.testbit (wsr s2) 0 = true ∧
      (tst (wmer s) WMER_WDT_RST = true → reset_requests s2 = S (reset_requests s)).
Proof.
  intros Hu He Hv m Hm. change (bl808_timer_write s TIMER_WCR value now) with (write_wcr s value now).
  unfold write_wcr. cbn [bl808_timer_wdt_take_unlock]. rewrite Hu, Hv. cbn [negb]. cbv zeta.
  set (s2 := bl808_timer_wdt_commit_now _ 0 now). change (negb (wcr _ =? 0)) with true. cbn iota. intros Hw Hr.
  assert (wmr_live s2 = Z.land (wmr s) (Z.lor WMR_WDT_ALIGN WMR_WDT_MATCH_MASK)) as E0 by (unfold s2; by case_match).
  assert (wmer s2 = wmer s) as E1 by (unfold s2; by case_match).
  assert (reset_requests s2 = reset_requests s) as E2 by (unfold s2; by case_match).
  assert (bl808_timer_wdt_enabled s2 = true) as E3 by (rewrite <- He; unfold s2; by case_match).
  assert (wdt_count s2 = 0) as E5 by done. assert (wdt_base_ns s2 = now) as E6 by done. clearbody s2.
  assert (bl808_timer_wdt_match_value s2 = m) as E4
    by (unfold bl808_timer_wdt_match_value, m; rewrite E0, <- Z.land_assoc; by f_equal).
  rewrite <- E1, <- E2, <- E4. apply (wdt_armed s2); try done. by rewrite E4.
Qed.

(** ** The snapshot registers *)

(** The first read of a pair latches both counters. *)
Lemma tcvwr_first s ch now : tcvwr_read_mask s = 0 → ch = 0 ∨ ch = 1 →
  let vs := [bl808_timer_channel_now s 0 now; bl808_timer_channel_now s 1 now] in
  bl808_timer_tcvwr_read s ch now = (vs !% ch, s <| tcvwr := vs |> <| tcvwr_read_mask := BIT ch |>).
Proof. intros Hm [->| ->]; unfold bl808_timer_tcvwr_read; rewrite Hm; by destruct s; cbn in Hm; subst. Qed.

(** Later reads use the latched values. *)
Lemma tcvwr_second s ch ch' now : tcvwr_read_mask s = BIT ch → ch = 0 ∨ ch = 1 → ch' = 0 ∨ ch' = 1 →
  bl808_timer_tcvwr_read s ch' now =
    (tcvwr s !% ch', if decide (ch = ch') then s else s <| tcvwr_read_mask := 0 |>).
Proof.
  intros Hm Hc Hc'. unfold bl808_timer_tcvwr_read. rewrite Hm.
  destruct Hc as [->| ->], Hc' as [->| ->]; (change (BIT _ =? 0) with false); cbv zeta; cbn iota; rewrite Hm; by destruct s; cbn in Hm; subst.
Qed.

(** The two snapshot registers, read one after the other in either order,
    give the values of the two counters at the instant of the first read. *)
Theorem timer_snapshot_pair s now1 now2 :
  tcvwr_read_mask s = 0 →
  (let '(v0, s1) := bl808_timer_read s TIMER_TCVWR2 now1 in
   let '(v1, s2) := bl808_timer_read s1 TIMER_TCVWR3 now2 in
   v0 = bl808_timer_channel_now s 0 now1 ∧ v1 = bl808_timer_channel_now s 1 now1 ∧ tcvwr_read_mask s2 = 0) ∧
  (let '(v1, s1) := bl808_timer_read s TIMER_TCVWR3 now1 in
   let '(v0, s2) := bl808_timer_read s1 TIMER_TCVWR2 now2 in
   v0 = bl808_timer_channel_now s 0 now1 ∧ v1 = bl808_timer_channel_now s 1 now1 ∧ tcvwr_read_mask s2 = 0).
Proof.
  intros Hm. change (bl808_timer_read ?x TIMER_TCVWR2 ?n) with (bl808_timer_tcvwr_read x 0 n).
  change (bl808_timer_read ?x TIMER_TCVWR3 ?n) with (bl808_timer_tcvwr_read x 1 n).
  split.
  - rewrite tcvwr_first by auto. cbv zeta. rewrite (tcvwr_second _ 0 1) by auto. done.
  - rewrite tcvwr_first by auto. cbv zeta. rewrite (tcvwr_second _ 1 0) by auto. done.
Qed.

(** A snapshot register that is read alone never moves: until the other one is
    read, every further read returns the value of the first. *)
Theorem timer_snapshot_stuck s now1 now2 :
  tcvwr_read_mask s = 0 →
  let '(v, s1) := bl808_timer_read s TIMER_TCVWR2 now1 in
  bl808_timer_read s1 TIMER_TCVWR2 now2 = (v, s1).
Proof.
  intros Hm. change (bl808_timer_read ?x TIMER_TCVWR2 ?n) with (bl808_timer_tcvwr_read x 0 n).
  rewrite tcvwr_first by auto. cbv zeta. rewrite (tcvwr_second _ 0 0) by auto. done.
Qed.

(** ** Concrete runs *)

(** The device after allocation, [bl808_timer_init] and reset. *)
Definition timer_fresh : BL808TimerState :=
  bl808_timer_init (mk_timer [] [] 0 false [] None 0 [] [] [] [] [] [] [] 0 0 0 0 0 0 0 0 0 0 0 [] [] [] 0 0 [] [] [] [] []
                      0 0 0 false false false false false).
Definition timer0 : BL808TimerState := bl808_timer_reset timer_fresh 0.

(** Channel 2 on the 40 MHz crystal, free running, compare 0 at 1000 ticks. *)
Definition free_run : list (Z * timer_op) :=
  [(0, TWrite TIMER_TCCR 0x153); (0, TWrite TIMER_TCMR 2); (0, TWrite TIMER_TMR2_0 1000); (0, TWrite TIMER_TIER2 1);
   (10, TWrite TIMER_TCER 2)].
Definition timer1 : BL808TimerState := default timer0 (timer_run timer0 free_run).

(** The keys of the lock, then the watchdog enabled with reset on expiry. *)
Definition wdt_on : list (Z * timer_op) :=
  [(0, TWrite TIMER_WFAR 0xBABA); (0, TWrite TIMER_WSAR 0xEB10); (0, TWrite TIMER_WMER 3)].
Definition timer2 : BL808TimerState := default timer0 (timer_run timer0 (wdt_on ++ take 2 wdt_on)).

Lemma timer1_ok : timer_ok timer1.
Proof.
  split; [by vm_compute..|]. intros ch Hch. assert (ch = 0 ∨ ch = 1) as [->| ->] by lia; by vm_compute.
Qed.

Lemma timer_compare_on_time_witness :
  let s1 := bl808_timer_channel_reschedule timer1 0 10 in
  ∃ t, channel_timer s1 !% 0 = Some t ∧ 10 < t ∧
    (∀ u, 10 ≤ u < t → bl808_timer_channel_now s1 0 u < 1000) ∧ bl808_timer_channel_now s1 0 t = 1000 ∧
    let s2 := bl808_timer_channel_event s1 0 t in
    ∀ i, 0 ≤ i < 3 → (tmr_live timer1 !% 0) !% i = 1000 → (channel_compare_fired timer1 !% 0) !% i = false →
      Z.testbit (tsr s2 !% 0) i = true ∧
      (Z.testbit (tier timer1 !% 0) i = true → Z.testbit (tilr timer1 !% 0) i = false → irq s2 !% 0 = true).
Proof.
  apply (timer_compare_on_time timer1 0 10 40000000 1000 timer1_ok); by vm_compute.
Defined.

Lemma timer_wdt_kick_witness :
  ∃ s', bl808_timer_write timer2 TIMER_WCR 1 500 = Some s' ∧
  ∃ t, wdt_timer s' = Some t ∧ 500 < t ∧
    (∀ u, 500 ≤ u < t → bl808_timer_wdt_now s' u < Z.land (wmr timer2) WMR_WDT_MATCH_MASK) ∧
    bl808_timer_wdt_now s' t = Z.land (wmr timer2) WMR_WDT_MATCH_MASK ∧
    ∃ s2, bl808_timer_wdt_fire s' t = Some s2 ∧ Z.testbit (wsr s2) 0 = true ∧
      (tst (wmer timer2) WMER_WDT_RST = true → reset_requests s2 = S (reset_requests timer2)).
Proof.
  destruct (bl808_timer_write timer2 TIMER_WCR 1 500) as [s'|] eqn:E; [|exfalso; revert E; by vm_compute].
  exists s'. split; [done|]. apply (timer_wdt_kick timer2 500 1 s'); [by vm_compute|by vm_compute|by vm_compute|by vm_compute|done|].
  assert (bl808_timer_wdt_hz s' = 32768) as ->; [|lia].
  assert (Some (bl808_timer_wdt_hz s') = Some 32768) as H; [|by injection H].
  change (Some (bl808_timer_wdt_hz s')) with (bl808_timer_wdt_hz <$> Some s'). rewrite <- E. by vm_compute.
Defined.

Lemma timer_wdt_lock_witness :
  lock_state timer2 = Unlocked ∧
  ∃ s, timer_run timer0 wdt_on = Some s ∧ lock_state s = foldl lock_step Locked wdt_on.*2 ∧
    (lock_state s ≠ Unlocked → ∀ offset value now, protected offset = true →
       bl808_timer_write s offset value now = Some s).
Proof.
  split; [by vm_compute|]. destruct (timer_run timer0 wdt_on) as [s|] eqn:E; [|exfalso; revert E; by vm_compute].
  exists s. split; [done|]. exact (timer_wdt_lock timer_fresh 0 wdt_on s eq_refl E).
Defined.

Lemma timer_lines_follow_witness :
  let ops := free_run ++ [(25010, TChannel 0)] in
  ∃ s, timer_run timer0 ops = Some s ∧ irq s !% 0 = true ∧
  (∀ ch, ch = 0 ∨ ch = 1 → irq s !% ch = true ↔
     clock_enabled s = true ∧ reset_asserted s = false ∧
     ∃ i, 0 ≤ i < 3 ∧ Z.testbit (tsr s !% ch) i = true ∧ Z.testbit (tier s !% ch) i = true ∧ Z.testbit (tilr s !% ch) i = false) ∧
  (irq s !% 2 = true ↔ clock_enabled s = true ∧ reset_asserted s = false ∧ Z.testbit (wsr s) 0 = true).
Proof.
  intros ops. destruct (timer_run timer0 ops) as [s|] eqn:E; [|exfalso; revert E; by vm_compute].
  exists s. split; [done|]. split.
  - assert (Some (irq s !% 0) = Some true) as H; [|by injection H].
    change (Some (irq s !% 0)) with ((λ x, irq x !% 0) <$> Some s). rewrite <- E. by vm_compute.
  - exact (timer_lines_follow timer_fresh 0 ops s eq_refl E ltac:(by vm_compute)).
Defined.

Lemma timer_snapshot_pair_witness :
  (let '(v0, s1) := bl808_timer_read timer1 TIMER_TCVWR2 100 in
   let '(v1, s2) := bl808_timer_read s1 TIMER_TCVWR3 900 in
   v0 = bl808_timer_channel_now timer1 0 100 ∧ v1 = bl808_timer_channel_now timer1 1 100 ∧ tcvwr_read_mask s2 = 0) ∧
  (let '(v1, s1) := bl808_timer_read timer1 TIMER_TCVWR3 100 in
   let '(v0, s2) := bl808_timer_read s1 TIMER_TCVWR2 900 in
   v0 = bl808_timer_channel_now timer1 0 100 ∧ v1 = bl808_timer_channel_now timer1 1 100 ∧ tcvwr_read_mask s2 = 0).
Proof. apply (timer_snapshot_pair timer1 100 900). by vm_compute. Defined.

Lemma timer_snapshot_stuck_witness :
  (bl808_timer_channel_now timer1 0 100, bl808_timer_channel_now timer1 0 900) = (3, 35) ∧
  let '(v, s1) := bl808_timer_read timer1 TIMER_TCVWR2 100 in bl808_timer_read s1 TIMER_TCVWR2 900 = (v, s1).
Proof. split; [by vm_compute|]. apply (timer_snapshot_stuck timer1 100 900). by vm_compute. Defined.

(** A channel callback that runs late misses its compare value: the event
    compares for equality, so one microsecond after the deadline no status is
    raised, the passed value is skipped and the timer is not armed again. *)
Theorem timer_late_event_lost :
  channel_timer timer1 !% 0 = Some 25010 ∧
  (let s := bl808_timer_channel0_cb (set_channel_timer timer1 0 None) 25010 in tsr s !% 0 = 1 ∧ irq s !% 0 = true) ∧
  (let s := bl808_timer_channel0_cb (set_channel_timer timer1 0 None) 26010 in
   tsr s !% 0 = 0 ∧ irq s !% 0 = false ∧ channel_timer s !% 0 = None).
Proof. by vm_compute. Qed.

(** The elapsed time times the rate is computed at 64 bits.  On an 80 MHz
    clock it overflows after 231 seconds without an access: the counter, which
    should have advanced by one second since the instant before, reads a value
    from a different position of its range. *)
Theorem timer_elapsed_overflows :
  let s := default timer0 (timer_run timer0
             [(0, TWrite TIMER_TCCR 0x150); (0, TWrite TIMER_TCMR 2); (0, TWrite TIMER_TCER 2)]) in
  bl808_timer_source_hz s 0 = 80000000 ∧
  bl808_timer_channel_now s 0 230000000000 = 18400000000 mod 2 ^ 32 ∧
  bl808_timer_channel_now s 0 231000000000 ≠ 18480000000 mod 2 ^ 32.
Proof. by vm_compute. Qed.

(** A write to a level register does not re-evaluate the line: after a compare
    interrupt has been raised as a level, making it a pulse interrupt leaves the
    line high although no level interrupt is pending. *)
Theorem timer_tilr_stale_irq :
  ∃ s, timer_run timer0 (free_run ++ [(25010, TChannel 0); (25020, TWrite TIMER_TILR2 1)]) = Some s ∧
    irq s !% 0 = true ∧ irq (bl808_timer_update_irq s) !% 0 = false.
Proof. eexists. split; [by vm_compute|]. by vm_compute. Qed.

(** With the watchdog running, selecting a clock source that does not exist
    divides by a rate of zero. *)
Theorem timer_wdt_zero_rate_traps :
  is_Some (timer_run timer0 wdt_on) ∧ timer_run timer0 (wdt_on ++ [(5, TWrite TIMER_TCCR 0x455)]) = None.
Proof. split; [eexists|]; by vm_compute. Qed.
