(* ===== verification/SecHash.v ===== *)
(** * Security engine: the arithmetic of the hash and CRC units

    The functions of [qemu-machine/hw/misc/bl808_sec_eng.c] that compute on byte
    buffers without touching the device: the SHA-512 compression function and
    the padding around it (the engine computes SHA-512/224 and SHA-512/256
    itself and leaves the other digests to QEMU), and the CRC unit with its
    bit-reflection options.

    A buffer is the list of its bytes; a [memcpy] into a buffer is [memcpy_at]. *)

From S2P Require Import Prelude Qemu.
From stdpp Require Import prelude list.
From Stdlib Require Import ZArith Lia.
Local Open Scope Z_scope.

(** ** Buffers *)

(** [memcpy(buf + off, bs, length bs)], inside the buffer. *)
Definition memcpy_at (buf : list Z) (off : Z) (bs : list Z) : list Z :=
  take (Z.to_nat off) buf ++ bs ++ drop (Z.to_nat off + length bs) buf.

(** [length] bytes of the buffer at [off]. *)
Definition slice (buf : list Z) (off len : Z) : list Z :=
  take (Z.to_nat len) (drop (Z.to_nat off) buf).

(** [ldl_be_p] and [stl_be_p] and their 64-bit relatives: most significant byte first. *)
Definition be_to_cpu (bs : list Z) : Z := le_to_cpu (reverse bs).
Definition cpu_to_be (n : nat) (v : Z) : list Z := reverse (cpu_to_le n v).

(** ** SHA-512 *)

Definition bl808_sec_eng_rotr64 (value shift : Z) : Z :=
  Z.lor (Z.shiftr value shift) (u64 (Z.shiftl value (64 - shift))).

Definition bl808_sec_eng_sha512_ch (x y z : Z) : Z :=
  Z.lxor (Z.land x y) (Z.land (u64 (Z.lnot x)) z).

Definition bl808_sec_eng_sha512_maj (x y z : Z) : Z :=
  Z.lxor (Z.lxor (Z.land x y) (Z.land x z)) (Z.land y z).

Definition bl808_sec_eng_sha512_sigma0 (x : Z) : Z :=
  Z.lxor (Z.lxor (bl808_sec_eng_rotr64 x 28) (bl808_sec_eng_rotr64 x 34)) (bl808_sec_eng_rotr64 x 39).

Definition bl808_sec_eng_sha512_sigma1 (x : Z) : Z :=
  Z.lxor (Z.lxor (bl808_sec_eng_rotr64 x 14) (bl808_sec_eng_rotr64 x 18)) (bl808_sec_eng_rotr64 x 41).

Definition bl808_sec_eng_sha512_gamma0 (x : Z) : Z :=
  Z.lxor (Z.lxor (bl808_sec_eng_rotr64 x 1) (bl808_sec_eng_rotr64 x 8)) (Z.shiftr x 7).

Definition bl808_sec_eng_sha512_gamma1 (x : Z) : Z :=
  Z.lxor (Z.lxor (bl808_sec_eng_rotr64 x 19) (bl808_sec_eng_rotr64 x 61)) (Z.shiftr x 6).

Definition sha512_k : list Z :=
  [0x428a2f98d728ae22; 0x7137449123ef65cd; 0xb5c0fbcfec4d3b2f; 0xe9b5dba58189dbbc;
   0x3956c25bf348b538; 0x59f111f1b605d019; 0x923f82a4af194f9b; 0xab1c5ed5da6d8118;
   0xd807aa98a3030242; 0x12835b0145706fbe; 0x243185be4ee4b28c; 0x550c7dc3d5ffb4e2;
   0x72be5d74f27b896f; 0x80deb1fe3b1696b1; 0x9bdc06a725c71235; 0xc19bf174cf692694;
   0xe49b69c19ef14ad2; 0xefbe4786384f25e3; 0x0fc19dc68b8cd5b5; 0x240ca1cc77ac9c65;
   0x2de92c6f592b0275; 0x4a7484aa6ea6e483; 0x5cb0a9dcbd41fbd4; 0x76f988da831153b5;
   0x983e5152ee66dfab; 0xa831c66d2db43210; 0xb00327c898fb213f; 0xbf597fc7beef0ee4;
   0xc6e00bf33da88fc2; 0xd5a79147930aa725; 0x06ca6351e003826f; 0x142929670a0e6e70;
   0x27b70a8546d22ffc; 0x2e1b21385c26c926; 0x4d2c6dfc5ac42aed; 0x53380d139d95b3df;
   0x650a73548baf63de; 0x766a0abb3c77b2a8; 0x81c2c92e47edaee6; 0x92722c851482353b;
   0xa2bfe8a14cf10364; 0xa81a664bbc423001; 0xc24b8b70d0f89791; 0xc76c51a30654be30;
   0xd192e819d6ef5218; 0xd69906245565a910; 0xf40e35855771202a; 0x106aa07032bbd1b8;
   0x19a4c116b8d2d0c8; 0x1e376c085141ab53; 0x2748774cdf8eeb99; 0x34b0bcb5e19b48a8;
   0x391c0cb3c5c95a63; 0x4ed8aa4ae3418acb; 0x5b9cca4f7763e373; 0x682e6ff3d6b2b8a3;
   0x748f82ee5defb2fc; 0x78a5636f43172f60; 0x84c87814a1f0ab72; 0x8cc702081a6439ec;
   0x90befffa23631e28; 0xa4506cebde82bde9; 0xbef9a3f7b2c67915; 0xc67178f2e372532b;
   0xca273eceea26619c; 0xd186b8c721c0c207; 0xeada7dd6cde0eb1e; 0xf57d4f7fee6ed178;
   0x06f067aa72176fba; 0x0a637dc5a2c898a6; 0x113f9804bef90dae; 0x1b710b35131c471b;
   0x28db77f523047d84; 0x32caab7b40c72493; 0x3c9ebe0a15c9bebc; 0x431d67c49c100d4c;
   0x4cc5d4becb3e42b6; 0x597f299cfc657e2a; 0x5fcb6fab3ad6faec; 0x6c44198c4a475817].

(** The message schedule [w] of a block. *)
Definition sha512_schedule (block : list Z) : list Z :=
  let w := replicate 80 0 in
  let w := foldl (λ w i, aset w i (be_to_cpu (slice block (i * 8) 8))) w (seqZ 0 16) in
  foldl (λ w i,
    aset w i (u64 (bl808_sec_eng_sha512_gamma1 (w !% (i - 2)) + w !% (i - 7) +
                   bl808_sec_eng_sha512_gamma0 (w !% (i - 15)) + w !% (i - 16))))
    w (seqZ 16 64).

Definition sha512_vars : Type := Z * Z * Z * Z * Z * Z * Z * Z.

Definition sha512_round (w : list Z) (v : sha512_vars) (i : Z) : sha512_vars :=
  let '(a, b, c, d, e, f, g, h) := v in
  let t1 := u64 (h + bl808_sec_eng_sha512_sigma1 e + bl808_sec_eng_sha512_ch e f g +
                 sha512_k !% i + w !% i) in
  let t2 := u64 (bl808_sec_eng_sha512_sigma0 a + bl808_sec_eng_sha512_maj a b c) in
  (u64 (t1 + t2), a, b, c, u64 (d + t1), e, f, g).

Definition bl808_sec_eng_sha512_process_block (state block : list Z) : list Z :=
  let w := sha512_schedule block in
  let '(a, b, c, d, e, f, g, h) :=
    foldl (sha512_round w)
      (state !% 0, state !% 1, state !% 2, state !% 3, state !% 4, state !% 5, state !% 6, state !% 7)
      (seqZ 0 80) in
  [u64 (state !% 0 + a); u64 (state !% 1 + b); u64 (state !% 2 + c); u64 (state !% 3 + d);
   u64 (state !% 4 + e); u64 (state !% 5 + f); u64 (state !% 6 + g); u64 (state !% 7 + h)].

Definition bl808_sec_eng_sha512_custom (data iv : list Z) (digest_len : Z) : list Z :=
  let len := Z.of_nat (length data) in
  let rem := len mod 128 in
  let blocks := len / 128 in
  let final_len := rem + 1 + 16 in
  let padded_len := if final_len <=? 128 then 128 else 256 in
  let bit_len_hi := Z.shiftr len 61 in
  let bit_len_lo := u64 (Z.shiftl len 3) in
  let state := foldl (λ state i, bl808_sec_eng_sha512_process_block state (slice data (i * 128) 128))
                 iv (seqZ 0 blocks) in
  let final_blocks := replicate 256 0 in
  let final_blocks := if rem =? 0 then final_blocks
                      else memcpy_at final_blocks 0 (slice data (blocks * 128) rem) in
  let final_blocks := aset final_blocks rem 0x80 in
  let final_blocks := memcpy_at final_blocks (padded_len - 16) (cpu_to_be 8 bit_len_hi) in
  let final_blocks := memcpy_at final_blocks (padded_len - 8) (cpu_to_be 8 bit_len_lo) in
  let state := bl808_sec_eng_sha512_process_block state (slice final_blocks 0 128) in
  let state := if padded_len =? 256
               then bl808_sec_eng_sha512_process_block state (slice final_blocks 128 128) else state in
  let full_digest := foldl (λ d i, memcpy_at d (i * 8) (cpu_to_be 8 (state !% i))) (replicate 64 0) (seqZ 0 8) in
  take (Z.to_nat digest_len) full_digest.

Definition sha512_224_iv : list Z :=
  [0x8c3d37c819544da2; 0x73e1996689dcd4d6; 0x1dfab7ae32ff9c82; 0x679dd514582f9fcf;
   0x0f6d2b697bd44da8; 0x77e36f7304c48942; 0x3f9d85a86a1d36c8; 0x1112e6ad91d692a1].

Definition sha512_256_iv : list Z :=
  [0x22312194fc2bf72c; 0x9f555fa3c84c64c2; 0x2393b86b6f53b151; 0x963877195940eabd;
   0x96283ee2a88effe3; 0xbe5e1e2553863992; 0x2b0199fc2c85b8aa; 0x0eb72ddc81c52ca2].

(** ** CRC *)

Definition bl808_sec_eng_reflect_bits (value width : Z) : Z :=
  foldl (λ reflected i,
    if tst value (u32 (Z.shiftl 1 i)) then Z.lor reflected (u32 (Z.shiftl 1 (width - 1 - i))) else reflected)
    0 (seqZ 0 width).

Definition bl808_sec_eng_crc_mask (width : Z) : Z :=
  if width =? 32 then 0xffffffff else u32 (Z.shiftl 1 width) - 1.

(** One turn of the inner loop, bits taken from the low and from the high end. *)
Definition crc_bit_ref (poly_ref mask crc : Z) : Z :=
  Z.land (if tst crc 1 then Z.lxor (Z.shiftr crc 1) poly_ref else Z.shiftr crc 1) mask.

Definition crc_bit_top (poly mask top crc : Z) : Z :=
  if tst crc top then Z.lxor (Z.land (u32 (Z.shiftl crc 1)) mask) poly
  else Z.land (u32 (Z.shiftl crc 1)) mask.

Definition bl808_sec_eng_crc_update (data : list Z) (width poly crc : Z) (din_ref : bool) : Z :=
  let mask := bl808_sec_eng_crc_mask width in
  let crc := Z.land crc mask in
  let poly := Z.land poly mask in
  let crc :=
    if din_ref then
      let poly_ref := bl808_sec_eng_reflect_bits poly width in
      foldl (λ crc byte, Nat.iter 8 (crc_bit_ref poly_ref mask) (Z.lxor crc byte)) crc data
    else
      let top := u32 (Z.shiftl 1 (width - 1)) in
      foldl (λ crc byte, Nat.iter 8 (crc_bit_top poly mask top)
                           (Z.lxor crc (u32 (Z.shiftl byte (width - 8))))) crc data in
  Z.land crc mask.

Definition bl808_sec_eng_crc_finalize (width crc : Z) (din_ref dout_ref dout_inv : bool) : Z :=
  let mask := bl808_sec_eng_crc_mask width in
  let crc := Z.land crc mask in
  let crc := if negb (Bool.eqb dout_ref din_ref) then bl808_sec_eng_reflect_bits crc width else crc in
  let crc := if dout_inv then Z.lxor crc mask else crc in
  Z.land crc mask.

Definition bl808_sec_eng_crc_restore_state (width stored_crc : Z) (din_ref dout_ref dout_inv : bool) : Z :=
  let mask := bl808_sec_eng_crc_mask width in
  let stored_crc := Z.land stored_crc mask in
  let stored_crc := if dout_inv then Z.lxor stored_crc mask else stored_crc in
  let stored_crc := if negb (Bool.eqb dout_ref din_ref)
                    then bl808_sec_eng_reflect_bits stored_crc width else stored_crc in
  Z.land stored_crc mask.
