(* ===== verification/SecEng.v ===== *)
(** * The security engine ([qemu-machine/hw/misc/bl808_sec_eng.c])

    Module [BL808SecEng]: the register file of the engine, the four interrupt
    lines, the ownership of its units by the two security domains, the hash
    accumulator, the SHA and CRC runs, the AES runs in the four block modes, the
    random number generator and the MAC unit, and the two register handlers.

    The engine works on buffers of the physical memory, so its operations act on
    a world [E] with the accesses of [PhysMem] beside the state; its own
    registers are not part of [E].  The ciphers, digests and MACs of the QEMU and
    GnuTLS libraries are the classes [QCrypto] and [GnuTLS]. *)

From S2P Require Import Prelude Qemu SecHash.
From stdpp Require Import prelude list.
From Stdlib Require Import ZArith Lia.
Local Open Scope Z_scope.

Module BL808SecEng.

Definition SEC_ENG_SE_SHA_0_CTRL_OFFSET := 0x000.
Definition SEC_ENG_SE_SHA_0_MSA_OFFSET := 0x004.
Definition SEC_ENG_SE_SHA_0_STATUS_OFFSET := 0x008.
Definition SEC_ENG_SE_SHA_0_ENDIAN_OFFSET := 0x00c.
Definition SEC_ENG_SE_SHA_0_HASH_L_0_OFFSET := 0x010.
Definition SEC_ENG_SE_SHA_0_HASH_H_0_OFFSET := 0x030.
Definition SEC_ENG_SE_SHA_0_LINK_OFFSET := 0x050.
Definition SEC_ENG_SE_SHA_0_CTRL_PROT_OFFSET := 0x0fc.
Definition SEC_ENG_SE_AES_0_CTRL_OFFSET := 0x100.
Definition SEC_ENG_SE_AES_0_MSA_OFFSET := 0x104.
Definition SEC_ENG_SE_AES_0_MDA_OFFSET := 0x108.
Definition SEC_ENG_SE_AES_0_STATUS_OFFSET := 0x10c.
Definition SEC_ENG_SE_AES_0_IV_0_OFFSET := 0x110.
Definition SEC_ENG_SE_AES_0_IV_3_OFFSET := 0x11c.
Definition SEC_ENG_SE_AES_0_KEY_0_OFFSET := 0x120.
Definition SEC_ENG_SE_AES_0_KEY_SEL_OFFSET := 0x140.
Definition SEC_ENG_SE_AES_1_KEY_SEL_OFFSET := 0x144.
Definition SEC_ENG_SE_AES_0_ENDIAN_OFFSET := 0x148.
Definition SEC_ENG_SE_AES_0_SBOOT_OFFSET := 0x14c.
Definition SEC_ENG_SE_AES_0_LINK_OFFSET := 0x150.
Definition SEC_ENG_SE_AES_0_CTRL_PROT_OFFSET := 0x1fc.
Definition SEC_ENG_SE_TRNG_0_CTRL_0_OFFSET := 0x200.
Definition SEC_ENG_SE_TRNG_0_STATUS_OFFSET := 0x204.
Definition SEC_ENG_SE_TRNG_0_DOUT_0_OFFSET := 0x208.
Definition SEC_ENG_SE_TRNG_0_CTRL_PROT_OFFSET := 0x2fc.
Definition SEC_ENG_SE_PKA_0_CTRL_0_OFFSET := 0x300.
Definition SEC_ENG_SE_PKA_0_CTRL_1_OFFSET := 0x310.
Definition SEC_ENG_SE_PKA_0_RW_OFFSET := 0x340.
Definition SEC_ENG_SE_PKA_0_RW_BURST_OFFSET := 0x360.
Definition SEC_ENG_SE_PKA_0_CTRL_PROT_OFFSET := 0x3fc.
Definition SEC_ENG_SE_CDET_0_CTRL_0_OFFSET := 0x400.
Definition SEC_ENG_SE_CDET_0_CTRL_1_OFFSET := 0x404.
Definition SEC_ENG_SE_CDET_0_CTRL_2_OFFSET := 0x408.
Definition SEC_ENG_SE_CDET_0_CTRL_3_OFFSET := 0x40c.
Definition SEC_ENG_SE_CDET_0_CTRL_PROT_OFFSET := 0x4fc.
Definition SEC_ENG_SE_GMAC_0_CTRL_0_OFFSET := 0x500.
Definition SEC_ENG_SE_GMAC_0_LCA_OFFSET := 0x504.
Definition SEC_ENG_SE_GMAC_0_STATUS_OFFSET := 0x508.
Definition SEC_ENG_SE_GMAC_0_CTRL_PROT_OFFSET := 0x5fc.
Definition SEC_ENG_SE_CTRL_PROT_RD_OFFSET := 0xf00.
Definition SEC_ENG_SE_SHA_0_BUSY := BIT 0.
Definition SEC_ENG_SE_SHA_0_TRIG_1T := BIT 1.
Definition SEC_ENG_SE_SHA_0_MODE_SHIFT := 2.
Definition SEC_ENG_SE_SHA_0_MODE_MASK := Z.shiftl 0x7 SEC_ENG_SE_SHA_0_MODE_SHIFT.
Definition SEC_ENG_SE_SHA_0_EN := BIT 5.
Definition SEC_ENG_SE_SHA_0_HASH_SEL := BIT 6.
Definition SEC_ENG_SE_SHA_0_INT := BIT 8.
Definition SEC_ENG_SE_SHA_0_INT_CLR_1T := BIT 9.
Definition SEC_ENG_SE_SHA_0_INT_SET_1T := BIT 10.
Definition SEC_ENG_SE_SHA_0_INT_MASK := BIT 11.
Definition SEC_ENG_SE_SHA_0_MODE_EXT_SHIFT := 12.
Definition SEC_ENG_SE_SHA_0_MODE_EXT_MASK := Z.shiftl 0x3 SEC_ENG_SE_SHA_0_MODE_EXT_SHIFT.
Definition SEC_ENG_SE_SHA_0_LINK_MODE := BIT 15.
Definition SEC_ENG_SE_SHA_0_MSG_LEN_SHIFT := 16.
Definition SEC_ENG_SE_SHA_0_MSG_LEN_MASK := Z.shiftl 0xffff SEC_ENG_SE_SHA_0_MSG_LEN_SHIFT.
Definition SEC_ENG_SE_AES_0_BUSY := BIT 0.
Definition SEC_ENG_SE_AES_0_TRIG_1T := BIT 1.
Definition SEC_ENG_SE_AES_0_EN := BIT 2.
Definition SEC_ENG_SE_AES_0_MODE_SHIFT := 3.
Definition SEC_ENG_SE_AES_0_MODE_MASK := Z.shiftl 0x3 SEC_ENG_SE_AES_0_MODE_SHIFT.
Definition SEC_ENG_SE_AES_0_DEC_EN := BIT 5.
Definition SEC_ENG_SE_AES_0_HW_KEY_EN := BIT 7.
Definition SEC_ENG_SE_AES_0_INT := BIT 8.
Definition SEC_ENG_SE_AES_0_INT_CLR_1T := BIT 9.
Definition SEC_ENG_SE_AES_0_INT_SET_1T := BIT 10.
Definition SEC_ENG_SE_AES_0_INT_MASK := BIT 11.
Definition SEC_ENG_SE_AES_0_BLOCK_MODE_SHIFT := 12.
Definition SEC_ENG_SE_AES_0_BLOCK_MODE_MASK := Z.shiftl 0x3 SEC_ENG_SE_AES_0_BLOCK_MODE_SHIFT.
Definition SEC_ENG_SE_AES_0_IV_SEL := BIT 14.
Definition SEC_ENG_SE_AES_0_LINK_MODE := BIT 15.
Definition SEC_ENG_SE_AES_0_MSG_LEN_SHIFT := 16.
Definition SEC_ENG_SE_AES_0_MSG_LEN_MASK := Z.shiftl 0xffff SEC_ENG_SE_AES_0_MSG_LEN_SHIFT.
Definition SEC_ENG_SE_AES_0_SBOOT_KEY_SEL := BIT 0.
Definition SEC_ENG_SE_TRNG_0_BUSY := BIT 0.
Definition SEC_ENG_SE_TRNG_0_TRIG_1T := BIT 1.
Definition SEC_ENG_SE_TRNG_0_EN := BIT 2.
Definition SEC_ENG_SE_TRNG_0_DOUT_CLR_1T := BIT 3.
Definition SEC_ENG_SE_TRNG_0_INT := BIT 8.
Definition SEC_ENG_SE_TRNG_0_INT_CLR_1T := BIT 9.
Definition SEC_ENG_SE_TRNG_0_INT_SET_1T := BIT 10.
Definition SEC_ENG_SE_TRNG_0_INT_MASK := BIT 11.
Definition SEC_ENG_SE_PKA_0_DONE := BIT 0.
Definition SEC_ENG_SE_PKA_0_DONE_CLR_1T := BIT 1.
Definition SEC_ENG_SE_PKA_0_BUSY := BIT 2.
Definition SEC_ENG_SE_PKA_0_EN := BIT 3.
Definition SEC_ENG_SE_PKA_0_INT := BIT 8.
Definition SEC_ENG_SE_PKA_0_INT_CLR_1T := BIT 9.
Definition SEC_ENG_SE_PKA_0_INT_SET := BIT 10.
Definition SEC_ENG_SE_PKA_0_INT_MASK := BIT 11.
Definition SEC_ENG_SE_CDET_0_EN := BIT 0.
Definition SEC_ENG_SE_CDET_0_BUSY := BIT 1.
Definition SEC_ENG_SE_CDET_0_INT := BIT 8.
Definition SEC_ENG_SE_CDET_0_INT_CLR := BIT 9.
Definition SEC_ENG_SE_CDET_0_INT_SET := BIT 10.
Definition SEC_ENG_SE_CDET_0_INT_MASK := BIT 11.
Definition SEC_ENG_SE_CDET_0_MODE := BIT 12.
Definition SEC_ENG_SE_GMAC_0_BUSY := BIT 0.
Definition SEC_ENG_SE_GMAC_0_TRIG_1T := BIT 1.
Definition SEC_ENG_SE_GMAC_0_EN := BIT 2.
Definition SEC_ENG_SE_GMAC_0_INT := BIT 8.
Definition SEC_ENG_SE_GMAC_0_INT_CLR_1T := BIT 9.
Definition SEC_ENG_SE_GMAC_0_INT_SET_1T := BIT 10.
Definition SEC_ENG_SE_GMAC_0_INT_MASK := BIT 11.
Definition SEC_ENG_SE_SHA_ID0_EN_RD := BIT 0.
Definition SEC_ENG_SE_SHA_ID1_EN_RD := BIT 1.
Definition SEC_ENG_SE_AES_ID0_EN_RD := BIT 2.
Definition SEC_ENG_SE_AES_ID1_EN_RD := BIT 3.
Definition SEC_ENG_SE_TRNG_ID0_EN_RD := BIT 4.
Definition SEC_ENG_SE_TRNG_ID1_EN_RD := BIT 5.
Definition SEC_ENG_SE_PKA_ID0_EN_RD := BIT 6.
Definition SEC_ENG_SE_PKA_ID1_EN_RD := BIT 7.
Definition SEC_ENG_SE_CDET_ID0_EN_RD := BIT 8.
Definition SEC_ENG_SE_CDET_ID1_EN_RD := BIT 9.
Definition SEC_ENG_SE_GMAC_ID0_EN_RD := BIT 10.
Definition SEC_ENG_SE_GMAC_ID1_EN_RD := BIT 11.

Definition BL808_SEC_ENG_REG_SIZE := 0x1000.

(** ** Libraries *)

Inductive QCryptoHashAlgo :=
  | QCRYPTO_HASH_ALGO_MD5 | QCRYPTO_HASH_ALGO_SHA1 | QCRYPTO_HASH_ALGO_SHA224
  | QCRYPTO_HASH_ALGO_SHA256 | QCRYPTO_HASH_ALGO_SHA384 | QCRYPTO_HASH_ALGO_SHA512.

Inductive QCryptoCipherAlgo :=
  | QCRYPTO_CIPHER_ALGO_AES_128 | QCRYPTO_CIPHER_ALGO_AES_192 | QCRYPTO_CIPHER_ALGO_AES_256.

Inductive QCryptoCipherMode :=
  | QCRYPTO_CIPHER_MODE_ECB | QCRYPTO_CIPHER_MODE_CTR | QCRYPTO_CIPHER_MODE_CBC | QCRYPTO_CIPHER_MODE_XTS.
#[export] Instance cipher_mode_dec : EqDecision QCryptoCipherMode.
Proof. solve_decision. Defined.

(** QEMU's crypto layer: a call that fails returns [None]; a cipher object has a
    state, which an operation on it changes. *)
Class QCrypto := {
  QCryptoCipher : Type;
  qcrypto_hash_bytes : QCryptoHashAlgo → list Z → option (list Z);
  qcrypto_cipher_supports : QCryptoCipherAlgo → QCryptoCipherMode → bool;
  qcrypto_cipher_new : QCryptoCipherAlgo → QCryptoCipherMode → list Z → option QCryptoCipher;
  qcrypto_cipher_setiv : QCryptoCipher → list Z → option QCryptoCipher;
  qcrypto_cipher_encrypt : QCryptoCipher → list Z → option (list Z * QCryptoCipher);
  qcrypto_cipher_decrypt : QCryptoCipher → list Z → option (list Z * QCryptoCipher);
}.

(** GnuTLS, present when QEMU was configured with it ([CONFIG_GNUTLS_CRYPTO]). *)
Class GnuTLS := {
  CONFIG_GNUTLS_CRYPTO : bool;
  gnutls_hmac_hd_t : Type;
  gnutls_mac_get_nonce_size : Z;
  gnutls_hmac_init : list Z → option gnutls_hmac_hd_t;
  gnutls_hmac_set_nonce : gnutls_hmac_hd_t → list Z → gnutls_hmac_hd_t;
  gnutls_hmac : gnutls_hmac_hd_t → list Z → option gnutls_hmac_hd_t;
  gnutls_hmac_output : gnutls_hmac_hd_t → list Z;
}.

(** ** State *)

(** The lines are recorded in the order [BL808_SEC_ENG_IRQ_ID1_SHARED],
    [BL808_SEC_ENG_IRQ_ID0_SHARED], [BL808_SEC_ENG_IRQ_ID1_CDET],
    [BL808_SEC_ENG_IRQ_ID0_CDET]; [sha_accum] holds the [sha_accum_len] bytes in
    use; [efuse_shadow] is the contents of the array of the eFuse controller. *)
Record BL808SecEngState := mk_sec {
  irq : list bool;
  regs : list Z;
  sha_accum : list Z;
  sha_accum_cap : Z;
  trng_state : Z;
  efuse_shadow : option (list Z);
}.

#[export] Instance eta_sec : Eta BL808SecEngState := λ r,
  mk_sec (irq r) (regs r) (sha_accum r) (sha_accum_cap r) (trng_state r) (efuse_shadow r).

Definition BL808_SEC_ENG_IRQ_ID1_SHARED := 0.
Definition BL808_SEC_ENG_IRQ_ID0_SHARED := 1.
Definition BL808_SEC_ENG_IRQ_ID1_CDET := 2.
Definition BL808_SEC_ENG_IRQ_ID0_CDET := 3.

(** [s->regs[offset / 4]]. *)
Definition reg (s : BL808SecEngState) (offset : Z) : Z := regs s !% (offset / 4).
Definition set_reg (s : BL808SecEngState) (offset v : Z) : BL808SecEngState :=
  s <| regs := aset (regs s) (offset / 4) v |>.

(** ** Owners and interrupt lines *)

Definition bl808_sec_eng_pair_from_bits (value id0_bit id1_bit : Z) : Z :=
  Z.lor (if tst value id0_bit then 1 else 0) (if tst value id1_bit then 2 else 0).

Definition bl808_sec_eng_update_ctrl_prot (s : BL808SecEngState) : BL808SecEngState :=
  let pair off := bl808_sec_eng_pair_from_bits (reg s off) (BIT 1) (BIT 2) in
  let prot := 0 in
  let prot := Z.lor prot (Z.shiftl (pair SEC_ENG_SE_SHA_0_CTRL_PROT_OFFSET) 0) in
  let prot := Z.lor prot (Z.shiftl (pair SEC_ENG_SE_AES_0_CTRL_PROT_OFFSET) 2) in
  let prot := Z.lor prot (Z.shiftl (pair SEC_ENG_SE_TRNG_0_CTRL_PROT_OFFSET) 4) in
  let prot := Z.lor prot (Z.shiftl (pair SEC_ENG_SE_PKA_0_CTRL_PROT_OFFSET) 6) in
  let prot := Z.lor prot (Z.shiftl (pair SEC_ENG_SE_CDET_0_CTRL_PROT_OFFSET) 8) in
  let prot := Z.lor prot (Z.shiftl (pair SEC_ENG_SE_GMAC_0_CTRL_PROT_OFFSET) 10) in
  set_reg s SEC_ENG_SE_CTRL_PROT_RD_OFFSET prot.

Definition bl808_sec_eng_set_owner (s : BL808SecEngState) (offset value : Z) : BL808SecEngState :=
  let reg := Z.land value 0x7 in
  if (offset =? SEC_ENG_SE_SHA_0_CTRL_PROT_OFFSET) || (offset =? SEC_ENG_SE_AES_0_CTRL_PROT_OFFSET) ||
     (offset =? SEC_ENG_SE_TRNG_0_CTRL_PROT_OFFSET) || (offset =? SEC_ENG_SE_PKA_0_CTRL_PROT_OFFSET) ||
     (offset =? SEC_ENG_SE_GMAC_0_CTRL_PROT_OFFSET) then
    bl808_sec_eng_update_ctrl_prot (set_reg s offset (Z.land reg 0x6))
  else if offset =? SEC_ENG_SE_CDET_0_CTRL_PROT_OFFSET then
    bl808_sec_eng_update_ctrl_prot (set_reg s offset reg)
  else s.

Definition bl808_sec_eng_owner_pair (s : BL808SecEngState) (shift : Z) : Z :=
  Z.land (Z.shiftr (reg s SEC_ENG_SE_CTRL_PROT_RD_OFFSET) shift) 0x3.

(** The contribution of one unit to the lines of the two domains: the unit whose
    control register is at [offset] requests when its [int] bit is set and its
    [mask] bit is not. *)
Definition unit_requests (s : BL808SecEngState) (offset int mask shift : Z) (ids : bool * bool) : bool * bool :=
  if Z.land (reg s offset) (Z.lor int mask) =? int then
    let pair := bl808_sec_eng_owner_pair s shift in
    (fst ids || negb (Z.land pair 1 =? 0), snd ids || negb (Z.land pair 2 =? 0))
  else ids.

Definition bl808_sec_eng_update_irq (s : BL808SecEngState) : BL808SecEngState :=
  let shared := (false, false) in
  let shared := unit_requests s SEC_ENG_SE_AES_0_CTRL_OFFSET SEC_ENG_SE_AES_0_INT SEC_ENG_SE_AES_0_INT_MASK 2 shared in
  let shared := unit_requests s SEC_ENG_SE_SHA_0_CTRL_OFFSET SEC_ENG_SE_SHA_0_INT SEC_ENG_SE_SHA_0_INT_MASK 0 shared in
  let shared := unit_requests s SEC_ENG_SE_TRNG_0_CTRL_0_OFFSET SEC_ENG_SE_TRNG_0_INT SEC_ENG_SE_TRNG_0_INT_MASK 4 shared in
  let shared := unit_requests s SEC_ENG_SE_PKA_0_CTRL_0_OFFSET SEC_ENG_SE_PKA_0_INT SEC_ENG_SE_PKA_0_INT_MASK 6 shared in
  let shared := unit_requests s SEC_ENG_SE_GMAC_0_CTRL_0_OFFSET SEC_ENG_SE_GMAC_0_INT SEC_ENG_SE_GMAC_0_INT_MASK 10 shared in
  let cdet := unit_requests s SEC_ENG_SE_CDET_0_CTRL_0_OFFSET SEC_ENG_SE_CDET_0_INT SEC_ENG_SE_CDET_0_INT_MASK 8 (false, false) in
  s <| irq := [snd shared; fst shared; snd cdet; fst cdet] |>.

(** ** The hash accumulator *)

Definition bl808_sec_eng_sha_accum_reset (s : BL808SecEngState) : BL808SecEngState :=
  s <| sha_accum := [] |> <| sha_accum_cap := 0 |>.

(** [while (new_cap < new_len) new_cap *= 2]. *)
Fixpoint grow_cap (fuel : nat) (new_cap new_len : Z) : Z :=
  match fuel with
  | O => new_cap
  | S fuel => if new_cap <? new_len then grow_cap fuel (u64 (new_cap * 2)) new_len else new_cap
  end.

(** From 256, 56 doublings reach every 64-bit length up to [2^63]. *)
Definition grow_fuel : nat := 56.

Definition bl808_sec_eng_sha_accum_append (s : BL808SecEngState) (buf : list Z) : BL808SecEngState :=
  let new_len := u64 (Z.of_nat (length (sha_accum s)) + Z.of_nat (length buf)) in
  let s :=
    if sha_accum_cap s <? new_len then
      s <| sha_accum_cap := grow_cap grow_fuel (Z.max 256 (sha_accum_cap s)) new_len |>
    else s in
  s <| sha_accum := sha_accum s ++ buf |>.

(** ** Register fields *)

Definition bl808_sec_eng_sha_mode (ctrl : Z) : Z :=
  Z.shiftr (Z.land ctrl SEC_ENG_SE_SHA_0_MODE_MASK) SEC_ENG_SE_SHA_0_MODE_SHIFT.

Definition bl808_sec_eng_sha_mode_ext (ctrl : Z) : Z :=
  Z.shiftr (Z.land ctrl SEC_ENG_SE_SHA_0_MODE_EXT_MASK) SEC_ENG_SE_SHA_0_MODE_EXT_SHIFT.

Definition bl808_sec_eng_sha_is_64bit (ctrl : Z) : bool :=
  let mode := bl808_sec_eng_sha_mode ctrl in
  (mode =? 4) || (mode =? 5) || (mode =? 6) || (mode =? 7).

Definition bl808_sec_eng_sha_block_bytes (ctrl : Z) : Z :=
  let mode_ext := bl808_sec_eng_sha_mode_ext ctrl in
  let mode := bl808_sec_eng_sha_mode ctrl in
  if mode_ext =? 1 then 64
  else if (mode_ext =? 2) || (mode_ext =? 3) then 4
  else if (mode =? 4) || (mode =? 5) || (mode =? 6) || (mode =? 7) then 128 else 64.

Definition sha_msg_len (ctrl : Z) : Z :=
  Z.shiftr (Z.land ctrl SEC_ENG_SE_SHA_0_MSG_LEN_MASK) SEC_ENG_SE_SHA_0_MSG_LEN_SHIFT.

(** ** Digests in the register file *)

(** [memset] of [n] registers from [offset] to zero. *)
Definition clear_regs (s : BL808SecEngState) (offset : Z) (n : nat) : BL808SecEngState :=
  foldl (λ s i, set_reg s (offset + i * 4) 0) s (seqZ 0 (Z.of_nat n)).

Definition bl808_sec_eng_clear_sha_output (s : BL808SecEngState) : BL808SecEngState :=
  clear_regs s SEC_ENG_SE_SHA_0_HASH_L_0_OFFSET 16.

Definition bl808_sec_eng_store_words_le (s : BL808SecEngState) (offset : Z) (buf : list Z)
    (max_words : Z) : BL808SecEngState :=
  let copy_len := Z.min (Z.of_nat (length buf)) 64 in
  let tmp := memcpy_at (replicate 64 0) 0 (slice buf 0 copy_len) in
  foldl (λ s i, set_reg s (offset + i * 4) (le_to_cpu (slice tmp (i * 4) 4))) s (seqZ 0 max_words).

Definition bl808_sec_eng_store_sha_output (s : BL808SecEngState) (ctrl : Z) (digest : list Z) : BL808SecEngState :=
  let digest_len := Z.of_nat (length digest) in
  let words := (digest_len + 3) / 4 in
  let s := bl808_sec_eng_clear_sha_output s in
  if negb (bl808_sec_eng_sha_is_64bit ctrl) then
    bl808_sec_eng_store_words_le s SEC_ENG_SE_SHA_0_HASH_L_0_OFFSET digest 16
  else
    foldl (λ s i,
      let copy_len := Z.min 4 (digest_len - i * 4) in
      let word_buf := memcpy_at (replicate 4 0) 0 (slice digest (i * 4) copy_len) in
      let reg := le_to_cpu word_buf in
      let reg_off := if Z.land i 1 =? 0 then SEC_ENG_SE_SHA_0_HASH_H_0_OFFSET + i / 2 * 4
                     else SEC_ENG_SE_SHA_0_HASH_L_0_OFFSET + i / 2 * 4 in
      set_reg s reg_off reg) s (seqZ 0 words).

Definition bl808_sec_eng_sha512_t_hash (s : BL808SecEngState) (mode : Z) : option (list Z) :=
  if mode =? 6 then Some (bl808_sec_eng_sha512_custom (sha_accum s) sha512_224_iv 28)
  else if mode =? 7 then Some (bl808_sec_eng_sha512_custom (sha_accum s) sha512_256_iv 32)
  else None.

Definition bl808_sec_eng_sha_hash `{!QCrypto} (s : BL808SecEngState) (ctrl : Z) : option (list Z) :=
  let mode := bl808_sec_eng_sha_mode ctrl in
  let mode_ext := bl808_sec_eng_sha_mode_ext ctrl in
  let hash alg := qcrypto_hash_bytes alg (sha_accum s) in
  if mode_ext =? 1 then hash QCRYPTO_HASH_ALGO_MD5
  else if (mode_ext =? 2) || (mode_ext =? 3) then None
  else if negb (mode_ext =? 0) then None
  else if mode =? 0 then hash QCRYPTO_HASH_ALGO_SHA256
  else if mode =? 1 then hash QCRYPTO_HASH_ALGO_SHA224
  else if (mode =? 2) || (mode =? 3) then hash QCRYPTO_HASH_ALGO_SHA1
  else if mode =? 4 then hash QCRYPTO_HASH_ALGO_SHA512
  else if mode =? 5 then hash QCRYPTO_HASH_ALGO_SHA384
  else if (mode =? 6) || (mode =? 7) then bl808_sec_eng_sha512_t_hash s mode
  else None.

Section engine.
Context {E : Type} `{!PhysMem E} `{!QCrypto} `{!GnuTLS}.

(** ** Guest memory *)

(** With length zero the buffer is a byte that no caller reads. *)
Definition bl808_sec_eng_read_guest (addr len : Z) (e : E) : list Z * E :=
  if len =? 0 then ([], e) else cpu_physical_memory_read addr (Z.to_nat len) e.

Definition bl808_sec_eng_ldl (addr : Z) (e : E) : Z * E :=
  let '(value, e) := cpu_physical_memory_read addr 4 e in (le_to_cpu value, e).

(** [n] consecutive words from [addr], each loaded with [bl808_sec_eng_ldl] and
    stored in a buffer with [put]. *)
Fixpoint ldl_words (put : Z → list Z) (n : nat) (addr : Z) (e : E) : list Z * E :=
  match n with
  | O => ([], e)
  | S n =>
      let '(w, e) := bl808_sec_eng_ldl addr e in
      let '(ws, e) := ldl_words put n (addr + 4) e in
      (put w ++ ws, e)
  end.

(** ** SHA and CRC runs *)

Definition bl808_sec_eng_store_sha_link_output (link_addr : Z) (digest : list Z) (e : E) : E :=
  let e := cpu_physical_memory_write (link_addr + 8) (replicate 64 0) e in
  if Z.of_nat (length digest) =? 0 then e
  else cpu_physical_memory_write (link_addr + 8) digest e.

Definition bl808_sec_eng_run_crc_link (s : BL808SecEngState) (link_addr ctrl : Z) (e : E)
    : bool * BL808SecEngState * E :=
  let mode_ext := bl808_sec_eng_sha_mode_ext ctrl in
  let blocks := sha_msg_len ctrl in
  let total_len := blocks * 4 in
  let '(src, e) := bl808_sec_eng_ldl (link_addr + 4) e in
  let '(poly, e) := bl808_sec_eng_ldl (link_addr + 8) e in
  let '(crc_ctrl, e) := bl808_sec_eng_ldl (link_addr + 12) e in
  let '(iv_and_hash, e) := bl808_sec_eng_ldl (link_addr + 16) e in
  let dout_inv := tst crc_ctrl (BIT 0) in
  let dout_ref := tst crc_ctrl (BIT 1) in
  let din_ref := tst crc_ctrl (BIT 2) in
  let run width :=
    let crc :=
      if tst ctrl SEC_ENG_SE_SHA_0_HASH_SEL then
        bl808_sec_eng_crc_restore_state width iv_and_hash din_ref dout_ref dout_inv
      else Z.land iv_and_hash (bl808_sec_eng_crc_mask width) in
    let '(data, e) := bl808_sec_eng_read_guest src total_len e in
    let crc := bl808_sec_eng_crc_update data width poly crc din_ref in
    let crc := bl808_sec_eng_crc_finalize width crc din_ref dout_ref dout_inv in
    let s := bl808_sec_eng_clear_sha_output s in
    let s := set_reg s SEC_ENG_SE_SHA_0_HASH_L_0_OFFSET crc in
    let e := cpu_physical_memory_write (link_addr + 16) (cpu_to_le 4 crc) e in
    (true, s, e) in
  if mode_ext =? 2 then run 16
  else if mode_ext =? 3 then run 32
  else (false, s, e).

Definition bl808_sec_eng_run_crc_direct (s : BL808SecEngState) (ctrl : Z) (e : E)
    : bool * BL808SecEngState * E :=
  let mode_ext := bl808_sec_eng_sha_mode_ext ctrl in
  let blocks := sha_msg_len ctrl in
  let total_len := blocks * 4 in
  let src := reg s SEC_ENG_SE_SHA_0_MSA_OFFSET in
  let run width poly dout_inv dout_ref din_ref crc :=
    let crc :=
      if tst ctrl SEC_ENG_SE_SHA_0_HASH_SEL then
        bl808_sec_eng_crc_restore_state width (reg s SEC_ENG_SE_SHA_0_HASH_L_0_OFFSET)
          din_ref dout_ref dout_inv
      else crc in
    let '(data, e) := bl808_sec_eng_read_guest src total_len e in
    let crc := bl808_sec_eng_crc_update data width poly crc din_ref in
    let crc := bl808_sec_eng_crc_finalize width crc din_ref dout_ref dout_inv in
    let s := bl808_sec_eng_clear_sha_output s in
    let s := set_reg s SEC_ENG_SE_SHA_0_HASH_L_0_OFFSET crc in
    (true, s, e) in
  if mode_ext =? 2 then run 16 0x8005 false true true 0xffff
  else if mode_ext =? 3 then run 32 0x04c11db7 true true true 0xffffffff
  else (false, s, e).

Definition bl808_sec_eng_complete_sha (s : BL808SecEngState) (ctrl : Z) : BL808SecEngState :=
  let s := set_reg s SEC_ENG_SE_SHA_0_CTRL_OFFSET
             (clr (clr ctrl SEC_ENG_SE_SHA_0_BUSY) SEC_ENG_SE_SHA_0_TRIG_1T) in
  set_reg s SEC_ENG_SE_SHA_0_CTRL_OFFSET
    (Z.lor (reg s SEC_ENG_SE_SHA_0_CTRL_OFFSET) SEC_ENG_SE_SHA_0_INT).

(** The end shared by all paths of [bl808_sec_eng_run_sha]. *)
Definition finish_sha (s : BL808SecEngState) (ctrl : Z) : BL808SecEngState :=
  let s := set_reg s SEC_ENG_SE_SHA_0_STATUS_OFFSET 0 in
  let s := bl808_sec_eng_complete_sha s ctrl in
  bl808_sec_eng_update_irq s.

(** Appending the message of a run to the accumulator: [work_ctrl] is the control
    word in force, from the register or from the link descriptor. *)
Definition sha_take_message (s : BL808SecEngState) (work_ctrl src : Z) (e : E) : BL808SecEngState * E :=
  let total_len := sha_msg_len work_ctrl * bl808_sec_eng_sha_block_bytes work_ctrl in
  let s := if negb (tst work_ctrl SEC_ENG_SE_SHA_0_HASH_SEL)
           then bl808_sec_eng_sha_accum_reset s else s in
  let '(data, e) := bl808_sec_eng_read_guest src total_len e in
  (bl808_sec_eng_sha_accum_append s data, e).

Definition bl808_sec_eng_run_sha (s : BL808SecEngState) (ctrl : Z) (e : E) : BL808SecEngState * E :=
  if tst ctrl SEC_ENG_SE_SHA_0_LINK_MODE then
    let link_addr := reg s SEC_ENG_SE_SHA_0_LINK_OFFSET in
    let '(work_ctrl, e) := bl808_sec_eng_ldl link_addr e in
    let mode_ext := bl808_sec_eng_sha_mode_ext work_ctrl in
    if (mode_ext =? 2) || (mode_ext =? 3) then
      let '(ok, s, e) := bl808_sec_eng_run_crc_link s link_addr work_ctrl e in
      let s := if negb ok then bl808_sec_eng_clear_sha_output s else s in
      (finish_sha s ctrl, e)
    else
      let '(src, e) := bl808_sec_eng_ldl (link_addr + 4) e in
      let '(s, e) := sha_take_message s work_ctrl src e in
      match bl808_sec_eng_sha_hash s work_ctrl with
      | Some digest =>
          let s := bl808_sec_eng_store_sha_output s work_ctrl digest in
          let e := bl808_sec_eng_store_sha_link_output link_addr digest e in
          (finish_sha s ctrl, e)
      | None =>
          let s := bl808_sec_eng_clear_sha_output s in
          let e := bl808_sec_eng_store_sha_link_output link_addr [] e in
          (finish_sha s ctrl, e)
      end
  else
    let mode_ext := bl808_sec_eng_sha_mode_ext ctrl in
    if (mode_ext =? 2) || (mode_ext =? 3) then
      let '(ok, s, e) := bl808_sec_eng_run_crc_direct s ctrl e in
      let s := if negb ok then bl808_sec_eng_clear_sha_output s else s in
      (finish_sha s ctrl, e)
    else
      let '(s, e) := sha_take_message s ctrl (reg s SEC_ENG_SE_SHA_0_MSA_OFFSET) e in
      let s := match bl808_sec_eng_sha_hash s ctrl with
               | Some digest => bl808_sec_eng_store_sha_output s ctrl digest
               | None => bl808_sec_eng_clear_sha_output s
               end in
      (finish_sha s ctrl, e).

(** ** AES keys and initial vectors *)

Definition aes_key_mode (ctrl : Z) : Z :=
  Z.shiftr (Z.land ctrl SEC_ENG_SE_AES_0_MODE_MASK) SEC_ENG_SE_AES_0_MODE_SHIFT.

Definition aes_block_mode (ctrl : Z) : Z :=
  Z.shiftr (Z.land ctrl SEC_ENG_SE_AES_0_BLOCK_MODE_MASK) SEC_ENG_SE_AES_0_BLOCK_MODE_SHIFT.

Definition bl808_sec_eng_aes_mode (ctrl : Z) : option QCryptoCipherMode :=
  let m := aes_block_mode ctrl in
  if m =? 0 then Some QCRYPTO_CIPHER_MODE_ECB
  else if m =? 1 then Some QCRYPTO_CIPHER_MODE_CTR
  else if m =? 2 then Some QCRYPTO_CIPHER_MODE_CBC
  else if m =? 3 then Some QCRYPTO_CIPHER_MODE_XTS
  else None.

(** Key material: the bytes in use ([key_len] of them) and the algorithm. *)
Definition aes_key : Type := list Z * QCryptoCipherAlgo.

Definition bl808_sec_eng_hw_key_slot_offset (slot : Z) : option Z :=
  if slot =? 0 then Some 0x1c
  else if slot =? 1 then Some 0x2c
  else if slot =? 2 then Some 0x3c
  else if slot =? 3 then Some 0x4c
  else if slot =? 4 then Some 0x80
  else if slot =? 5 then Some 0x90
  else None.

Definition bl808_sec_eng_load_hw_key_slot (s : BL808SecEngState) (slot key_len : Z) : option (list Z) :=
  let words := (key_len + 3) / 4 in
  match efuse_shadow s, bl808_sec_eng_hw_key_slot_offset slot with
  | Some efuse, Some offset =>
      let word_base := offset / 4 in
      if Z.of_nat (length efuse) <? word_base + words then None
      else Some (concat ((λ i, cpu_to_le 4 (efuse !% (word_base + i))) <$> seqZ 0 words))
  | _, _ => None
  end.

(** Words of the key registers, least significant byte first. *)
Definition key_regs (s : BL808SecEngState) (reg_key_len : Z) : list Z :=
  concat ((λ i, cpu_to_le 4 (reg s (SEC_ENG_SE_AES_0_KEY_0_OFFSET + i * 4))) <$> seqZ 0 ((reg_key_len + 3) / 4)).

Definition bl808_sec_eng_build_aes_key_regs (s : BL808SecEngState) (ctrl : Z) : option aes_key :=
  let key_mode := aes_key_mode ctrl in
  match bl808_sec_eng_aes_mode ctrl with
  | None => None
  | Some QCRYPTO_CIPHER_MODE_XTS =>
      if key_mode =? 0 then Some (key_regs s 32, QCRYPTO_CIPHER_ALGO_AES_128)
      else if key_mode =? 1 then
        let key := key_regs s 32 in Some (key ++ key, QCRYPTO_CIPHER_ALGO_AES_256)
      else if key_mode =? 2 then
        let key := key_regs s 24 in Some (key ++ key, QCRYPTO_CIPHER_ALGO_AES_192)
      else if key_mode =? 3 then Some (key_regs s 32, QCRYPTO_CIPHER_ALGO_AES_128)
      else None
  | Some _ =>
      if key_mode =? 0 then Some (key_regs s 16, QCRYPTO_CIPHER_ALGO_AES_128)
      else if key_mode =? 1 then Some (key_regs s 32, QCRYPTO_CIPHER_ALGO_AES_256)
      else if key_mode =? 2 then Some (key_regs s 24, QCRYPTO_CIPHER_ALGO_AES_192)
      else None
  end.

Definition bl808_sec_eng_build_aes_hw_key (s : BL808SecEngState) (ctrl : Z) : option aes_key :=
  let key_mode := aes_key_mode ctrl in
  let keysel0 := Z.land (reg s SEC_ENG_SE_AES_0_KEY_SEL_OFFSET) 0x3 in
  let keysel1 := Z.land (reg s SEC_ENG_SE_AES_1_KEY_SEL_OFFSET) 0x3 in
  let sboot_source := tst (reg s SEC_ENG_SE_AES_0_SBOOT_OFFSET) SEC_ENG_SE_AES_0_SBOOT_KEY_SEL in
  let both alg :=
    key0 ← bl808_sec_eng_load_hw_key_slot s keysel0 16;
    key1 ← bl808_sec_eng_load_hw_key_slot s keysel1 16;
    Some (key0 ++ key1, alg) in
  if sboot_source then None
  else
    match bl808_sec_eng_aes_mode ctrl with
    | None => None
    | Some QCRYPTO_CIPHER_MODE_XTS =>
        if (key_mode =? 0) || (key_mode =? 3) then both QCRYPTO_CIPHER_ALGO_AES_128 else None
    | Some _ =>
        if key_mode =? 0 then
          key0 ← bl808_sec_eng_load_hw_key_slot s keysel0 16;
          Some (key0, QCRYPTO_CIPHER_ALGO_AES_128)
        else if key_mode =? 1 then both QCRYPTO_CIPHER_ALGO_AES_256
        else None
    end.

Definition bl808_sec_eng_build_iv_regs (s : BL808SecEngState) (ctrl : Z) : list Z :=
  match bl808_sec_eng_aes_mode ctrl with
  | None => replicate 16 0
  | Some QCRYPTO_CIPHER_MODE_XTS =>
      concat ((λ i, cpu_to_be 4 (reg s (SEC_ENG_SE_AES_0_IV_3_OFFSET - i * 4))) <$> seqZ 0 4)
  | Some _ =>
      concat ((λ i, cpu_to_le 4 (reg s (SEC_ENG_SE_AES_0_IV_0_OFFSET + i * 4))) <$> seqZ 0 4)
  end.

(** The two halves of an XTS key in a link descriptor, loaded word by word in turn. *)
Fixpoint link_xts_words (n : nat) (a0 a1 : Z) (e : E) : list Z * list Z * E :=
  match n with
  | O => ([], [], e)
  | S n =>
      let '(w0, e) := bl808_sec_eng_ldl a0 e in
      let '(w1, e) := bl808_sec_eng_ldl a1 e in
      let '(ws0, ws1, e) := link_xts_words n (a0 + 4) (a1 + 4) e in
      (cpu_to_be 4 w0 ++ ws0, cpu_to_be 4 w1 ++ ws1, e)
  end.

Definition bl808_sec_eng_build_aes_link_key (link : Z) (xts : bool) (key_mode : Z) (e : E)
    : option aes_key * E :=
  if xts then
    let load alg key_part_len :=
      let '(key0, key1, e) := link_xts_words (Z.to_nat ((key_part_len + 3) / 4)) (link + 28) (link + 64) e in
      (Some (key0 ++ key1, alg), e) in
    if (key_mode =? 0) || (key_mode =? 3) then load QCRYPTO_CIPHER_ALGO_AES_128 16
    else if key_mode =? 1 then load QCRYPTO_CIPHER_ALGO_AES_256 32
    else if key_mode =? 2 then load QCRYPTO_CIPHER_ALGO_AES_192 24
    else (None, e)
  else
    let load alg key_len :=
      let '(key, e) := ldl_words (cpu_to_be 4) (Z.to_nat ((key_len + 3) / 4)) (link + 28) e in
      (Some (key, alg), e) in
    if key_mode =? 0 then load QCRYPTO_CIPHER_ALGO_AES_128 16
    else if key_mode =? 1 then load QCRYPTO_CIPHER_ALGO_AES_256 32
    else if key_mode =? 2 then load QCRYPTO_CIPHER_ALGO_AES_192 24
    else (None, e).

(** ** Block modes *)

Fixpoint xts_shift (carry_in : Z) (tweak : list Z) : list Z * Z :=
  match tweak with
  | [] => ([], carry_in)
  | b :: tweak =>
      let carry_out := Z.shiftr b 7 in
      let '(rest, carry) := xts_shift carry_out tweak in
      (u8 (Z.lor (Z.shiftl b 1) carry_in) :: rest, carry)
  end.

Definition bl808_sec_eng_xts_mul_x (tweak : list Z) : list Z :=
  let '(tweak, carry_out) := xts_shift 0 tweak in
  if negb (carry_out =? 0) then aset tweak 0 (Z.lxor (tweak !% 0) 0x87) else tweak.

(** Increment of a buffer, least significant byte first. *)
Fixpoint bl808_sec_eng_xts_inc_unit (unit_iv : list Z) : list Z :=
  match unit_iv with
  | [] => []
  | b :: unit_iv =>
      let b := u8 (b + 1) in
      if negb (b =? 0) then b :: unit_iv else b :: bl808_sec_eng_xts_inc_unit unit_iv
  end.

(** The counter of the CTR mode is incremented from its last byte. *)
Definition ctr_inc (counter : list Z) : list Z :=
  reverse (bl808_sec_eng_xts_inc_unit (reverse counter)).

Definition xor_bytes (xs ys : list Z) : list Z := zip_with Z.lxor xs ys.

(** The loop of the CTR mode from [offset] on, for data of 16 * [n] bytes. *)
Fixpoint ctr_loop (n : nat) (cipher : QCryptoCipher) (counter inp out : list Z) (offset : Z) : option (list Z) :=
  match n with
  | O => Some out
  | S n =>
      '(stream, cipher) ← qcrypto_cipher_encrypt cipher counter;
      let out := memcpy_at out offset (xor_bytes (slice inp offset 16) stream) in
      ctr_loop n cipher (ctr_inc counter) inp out (offset + 16)
  end.

(** The blocks of one data unit, [n] of them left. *)
Fixpoint xts_blocks (n : nat) (dec : bool) (crypt_cipher : QCryptoCipher) (tweak inp out : list Z) (offset : Z)
    : option (list Z * Z * QCryptoCipher) :=
  match n with
  | O => Some (out, offset, crypt_cipher)
  | S n =>
      let block := xor_bytes (slice inp offset 16) tweak in
      '(crypt, crypt_cipher) ← (if dec then qcrypto_cipher_decrypt crypt_cipher block
                                else qcrypto_cipher_encrypt crypt_cipher block);
      let out := memcpy_at out offset (xor_bytes crypt tweak) in
      let offset := offset + 16 in
      let tweak := match n with O => tweak | S _ => bl808_sec_eng_xts_mul_x tweak end in
      xts_blocks n dec crypt_cipher tweak inp out offset
  end.

(** The data units.  A unit holds at least one block, so [data_len / 16] turns
    are enough; a run that needs more does not end. *)
Fixpoint xts_units (fuel : nat) (dec single : bool) (total_blocks unit_blocks data_len : Z)
    (crypt_cipher tweak_cipher : QCryptoCipher) (unit_iv inp out : list Z) (offset : Z) : option (list Z) :=
  if offset <? data_len then
    match fuel with
    | O => None
    | S fuel =>
        let blocks_this_unit := if single then total_blocks
                                else Z.min unit_blocks ((data_len - offset) / 16) in
        '(tweak, tweak_cipher) ← qcrypto_cipher_encrypt tweak_cipher unit_iv;
        '(out, offset, crypt_cipher) ←
          xts_blocks (Z.to_nat blocks_this_unit) dec crypt_cipher tweak inp out offset;
        let unit_iv := if negb single && (offset <? data_len)
                       then bl808_sec_eng_xts_inc_unit unit_iv else unit_iv in
        xts_units fuel dec single total_blocks unit_blocks data_len crypt_cipher tweak_cipher
          unit_iv inp out offset
    end
  else Some out.

(** [bl808_sec_eng_run_aes_crypt] after the input was read: [None] when an
    operation on the cipher failed. *)
Definition ctr_crypt (key : list Z) (alg : QCryptoCipherAlgo) : option QCryptoCipher :=
  if negb (qcrypto_cipher_supports alg QCRYPTO_CIPHER_MODE_ECB) then None
  else qcrypto_cipher_new alg QCRYPTO_CIPHER_MODE_ECB key.

Definition xts_ciphers (key : list Z) (alg : QCryptoCipherAlgo) : option (QCryptoCipher * QCryptoCipher) :=
  let key_len := Z.of_nat (length key) in
  let key_part_len := key_len / 2 in
  if negb (Z.land key_len 1 =? 0) || (key_part_len =? 0) ||
     negb (qcrypto_cipher_supports alg QCRYPTO_CIPHER_MODE_ECB) then None
  else
    crypt_cipher ← qcrypto_cipher_new alg QCRYPTO_CIPHER_MODE_ECB (slice key 0 key_part_len);
    tweak_cipher ← qcrypto_cipher_new alg QCRYPTO_CIPHER_MODE_ECB (slice key key_part_len key_part_len);
    Some (crypt_cipher, tweak_cipher).

Definition bl808_sec_eng_run_aes_crypt (ctrl src dst : Z) (key : list Z) (alg : QCryptoCipherAlgo)
    (iv : list Z) (xts_unit_len : Z) (xts_single_unit : bool) (data_len : Z) (e : E) : bool * E :=
  let dec := tst ctrl SEC_ENG_SE_AES_0_DEC_EN in
  let out := replicate (Z.to_nat data_len) 0 in
  let finish (result : option (list Z)) (e : E) :=
    match result with
    | Some out => (true, cpu_physical_memory_write dst out e)
    | None => (false, e)
    end in
  match bl808_sec_eng_aes_mode ctrl with
  | None => (false, e)
  | Some QCRYPTO_CIPHER_MODE_CTR =>
      match ctr_crypt key alg with
      | None => (false, e)
      | Some cipher =>
          let '(inp, e) := bl808_sec_eng_read_guest src data_len e in
          finish (ctr_loop (Z.to_nat (data_len / 16)) cipher iv inp out 0) e
      end
  | Some QCRYPTO_CIPHER_MODE_XTS =>
      let total_blocks := data_len / 16 in
      let unit_blocks := if xts_unit_len =? 0 then total_blocks else xts_unit_len in
      match xts_ciphers key alg with
      | None => (false, e)
      | Some (crypt_cipher, tweak_cipher) =>
          let '(inp, e) := bl808_sec_eng_read_guest src data_len e in
          finish (xts_units (Z.to_nat total_blocks) dec xts_single_unit total_blocks unit_blocks data_len
                    crypt_cipher tweak_cipher iv inp out 0) e
      end
  | Some mode =>
      if negb (qcrypto_cipher_supports alg mode) then (false, e)
      else
        match cipher ← qcrypto_cipher_new alg mode key;
              (if decide (mode = QCRYPTO_CIPHER_MODE_ECB) then Some cipher
               else qcrypto_cipher_setiv cipher iv)
        with
        | None => (false, e)
        | Some cipher =>
            let '(inp, e) := bl808_sec_eng_read_guest src data_len e in
            finish (fst <$> (if dec then qcrypto_cipher_decrypt cipher inp
                             else qcrypto_cipher_encrypt cipher inp)) e
        end
  end.

(** ** AES runs *)

Definition bl808_sec_eng_complete_aes (s : BL808SecEngState) (ctrl : Z) : BL808SecEngState :=
  let s := set_reg s SEC_ENG_SE_AES_0_CTRL_OFFSET
             (clr (clr ctrl SEC_ENG_SE_AES_0_BUSY) SEC_ENG_SE_AES_0_TRIG_1T) in
  let s := set_reg s SEC_ENG_SE_AES_0_CTRL_OFFSET
             (Z.lor (reg s SEC_ENG_SE_AES_0_CTRL_OFFSET) SEC_ENG_SE_AES_0_INT) in
  let s := set_reg s SEC_ENG_SE_AES_0_STATUS_OFFSET 0 in
  bl808_sec_eng_update_irq s.

(** The control word of a link run: the block mode, key mode, direction and
    length come from the descriptor. *)
Definition aes_link_ctrl (ctrl link_ctrl : Z) : Z :=
  let block_mode := Z.land (Z.shiftr link_ctrl 12) 0x3 in
  let key_mode := Z.land (Z.shiftr link_ctrl 3) 0x3 in
  Z.lor (Z.lor (Z.lor (Z.lor
    (clr ctrl (Z.lor (Z.lor (Z.lor SEC_ENG_SE_AES_0_BLOCK_MODE_MASK SEC_ENG_SE_AES_0_MODE_MASK)
                       SEC_ENG_SE_AES_0_DEC_EN) SEC_ENG_SE_AES_0_MSG_LEN_MASK))
    (Z.land (Z.shiftl block_mode SEC_ENG_SE_AES_0_BLOCK_MODE_SHIFT) SEC_ENG_SE_AES_0_BLOCK_MODE_MASK))
    (Z.land (Z.shiftl key_mode SEC_ENG_SE_AES_0_MODE_SHIFT) SEC_ENG_SE_AES_0_MODE_MASK))
    (if tst link_ctrl (BIT 5) then SEC_ENG_SE_AES_0_DEC_EN else 0))
    (Z.land link_ctrl SEC_ENG_SE_AES_0_MSG_LEN_MASK).

(** The XTS data unit taken from the SBOOT register. *)
Definition aes_unit_regs (s : BL808SecEngState) (ctrl : Z) : Z * bool :=
  if aes_block_mode ctrl =? 3 then
    let sboot := reg s SEC_ENG_SE_AES_0_SBOOT_OFFSET in
    (Z.land (Z.shiftr sboot 16) 0xffff, tst sboot (BIT 15))
  else (0, false).

(** The common end of a run: the data length in bytes comes from [ctrl]. *)
Definition aes_crypt_and_complete (s : BL808SecEngState) (ctrl src dst : Z) (key : aes_key) (iv : list Z)
    (unit : Z * bool) (e : E) : BL808SecEngState * E :=
  let data_len :=
    u32 (Z.shiftr (Z.land ctrl SEC_ENG_SE_AES_0_MSG_LEN_MASK) SEC_ENG_SE_AES_0_MSG_LEN_SHIFT * 16) in
  if data_len =? 0 then (bl808_sec_eng_complete_aes s ctrl, e)
  else
    let '(_, e) := bl808_sec_eng_run_aes_crypt ctrl src dst (fst key) (snd key) iv (fst unit) (snd unit)
                     data_len e in
    (bl808_sec_eng_complete_aes s ctrl, e).

Definition bl808_sec_eng_run_aes (s : BL808SecEngState) (ctrl : Z) (e : E) : BL808SecEngState * E :=
  if tst ctrl SEC_ENG_SE_AES_0_LINK_MODE then
    let link := reg s SEC_ENG_SE_AES_0_LINK_OFFSET in
    let '(link_ctrl, e) := bl808_sec_eng_ldl link e in
    let block_mode := Z.land (Z.shiftr link_ctrl 12) 0x3 in
    let key_mode := Z.land (Z.shiftr link_ctrl 3) 0x3 in
    let xts := block_mode =? 3 in
    let ctrl := aes_link_ctrl ctrl link_ctrl in
    match bl808_sec_eng_aes_mode ctrl with
    | None => (bl808_sec_eng_complete_aes s ctrl, e)
    | Some _ =>
        let '(key, e) :=
          if tst link_ctrl SEC_ENG_SE_AES_0_HW_KEY_EN then (bl808_sec_eng_build_aes_hw_key s ctrl, e)
          else bl808_sec_eng_build_aes_link_key link xts key_mode e in
        match key with
        | None => (bl808_sec_eng_complete_aes s ctrl, e)
        | Some key =>
            let '(iv, e) := ldl_words (cpu_to_be 4) 4 (link + 12) e in
            let '(unit, e) :=
              if xts then let '(w, e) := bl808_sec_eng_ldl (link + 60) e in
                          ((Z.shiftr w 16, tst link_ctrl (BIT 15)), e)
              else ((0, false), e) in
            let '(src, e) := bl808_sec_eng_ldl (link + 4) e in
            let '(dst, e) := bl808_sec_eng_ldl (link + 8) e in
            aes_crypt_and_complete s ctrl src dst key iv unit e
        end
    end
  else
    let key := if tst ctrl SEC_ENG_SE_AES_0_HW_KEY_EN then bl808_sec_eng_build_aes_hw_key s ctrl
               else bl808_sec_eng_build_aes_key_regs s ctrl in
    match key with
    | None => (bl808_sec_eng_complete_aes s ctrl, e)
    | Some key =>
        let iv := bl808_sec_eng_build_iv_regs s ctrl in
        aes_crypt_and_complete s ctrl (reg s SEC_ENG_SE_AES_0_MSA_OFFSET) (reg s SEC_ENG_SE_AES_0_MDA_OFFSET)
          key iv (aes_unit_regs s ctrl) e
    end.

(** ** Random numbers *)

Definition bl808_sec_eng_rand32 (s : BL808SecEngState) : Z * BL808SecEngState :=
  let x := trng_state s in
  let x := Z.lxor x (Z.shiftr x 12) in
  let x := Z.lxor x (u64 (Z.shiftl x 25)) in
  let x := Z.lxor x (Z.shiftr x 27) in
  (u32 (Z.shiftr (u64 (x * 2685821657736338717)) 32), s <| trng_state := x |>).

Definition bl808_sec_eng_run_trng (s : BL808SecEngState) (ctrl : Z) : BL808SecEngState :=
  let s := foldl (λ s i,
             let '(r, s) := bl808_sec_eng_rand32 s in
             set_reg s (SEC_ENG_SE_TRNG_0_DOUT_0_OFFSET + i * 4) r) s (seqZ 0 8) in
  let s := set_reg s SEC_ENG_SE_TRNG_0_STATUS_OFFSET 1 in
  let s := set_reg s SEC_ENG_SE_TRNG_0_CTRL_0_OFFSET
             (Z.lor (clr ctrl (Z.lor SEC_ENG_SE_TRNG_0_BUSY SEC_ENG_SE_TRNG_0_TRIG_1T))
                SEC_ENG_SE_TRNG_0_INT) in
  bl808_sec_eng_update_irq s.

(** ** GMAC *)

Definition bl808_sec_eng_run_gmac_link (s : BL808SecEngState) (e : E) : bool * E :=
  if CONFIG_GNUTLS_CRYPTO then
    let link_addr := reg s SEC_ENG_SE_GMAC_0_LCA_OFFSET in
    let '(link_ctrl, e) := bl808_sec_eng_ldl link_addr e in
    let '(src, e) := bl808_sec_eng_ldl (link_addr + 4) e in
    let data_len := Z.land (Z.shiftr link_ctrl 16) 0xffff * 16 in
    let nonce_len := gnutls_mac_get_nonce_size in
    let '(key, e) := ldl_words (cpu_to_le 4) 4 (link_addr + 8) e in
    let '(data, e) := bl808_sec_eng_read_guest src data_len e in
    let tag :=
      if 16 <? nonce_len then None
      else
        hmac ← gnutls_hmac_init key;
        hmac ← gnutls_hmac (gnutls_hmac_set_nonce hmac (replicate (Z.to_nat nonce_len) 0)) data;
        Some (gnutls_hmac_output hmac) in
    match tag with
    | Some tag => (true, cpu_physical_memory_write (link_addr + 0x18) tag e)
    | None => (false, cpu_physical_memory_write (link_addr + 0x18) (replicate 16 0) e)
    end
  else (false, e).

(** ** Register handlers *)

Definition bl808_sec_eng_read (s : BL808SecEngState) (offset size : Z) : Z :=
  if negb (size =? 4) then 0
  else if negb (Z.land offset 3 =? 0) || (BL808_SEC_ENG_REG_SIZE <=? offset) then 0
  else reg s offset.

(** The bits of a control word that a write replaces. *)
Definition sha_ctrl_bits : Z :=
  Z.lor (Z.lor (Z.lor (Z.lor (Z.lor (Z.lor SEC_ENG_SE_SHA_0_MODE_MASK SEC_ENG_SE_SHA_0_EN)
    SEC_ENG_SE_SHA_0_HASH_SEL) SEC_ENG_SE_SHA_0_INT_MASK) SEC_ENG_SE_SHA_0_MODE_EXT_MASK)
    SEC_ENG_SE_SHA_0_LINK_MODE) SEC_ENG_SE_SHA_0_MSG_LEN_MASK.

Definition aes_ctrl_bits : Z :=
  Z.lor (Z.lor (Z.lor (Z.lor (Z.lor (Z.lor (Z.lor (Z.lor SEC_ENG_SE_AES_0_EN SEC_ENG_SE_AES_0_MODE_MASK)
    SEC_ENG_SE_AES_0_DEC_EN) SEC_ENG_SE_AES_0_HW_KEY_EN) SEC_ENG_SE_AES_0_INT_MASK)
    SEC_ENG_SE_AES_0_BLOCK_MODE_MASK) SEC_ENG_SE_AES_0_IV_SEL) SEC_ENG_SE_AES_0_LINK_MODE)
    SEC_ENG_SE_AES_0_MSG_LEN_MASK.

(** [INT_CLR_1T] and then [INT_SET_1T] of a written value. *)
Definition int_bits (ctrl value int int_clr int_set : Z) : Z :=
  let ctrl := if tst value int_clr then clr ctrl int else ctrl in
  if tst value int_set then Z.lor ctrl int else ctrl.

Definition bl808_sec_eng_write_sha (s : BL808SecEngState) (value : Z) (e : E) : BL808SecEngState * E :=
  let ctrl := reg s SEC_ENG_SE_SHA_0_CTRL_OFFSET in
  let ctrl := Z.lor (clr ctrl sha_ctrl_bits) (Z.land value sha_ctrl_bits) in
  let ctrl := int_bits ctrl value SEC_ENG_SE_SHA_0_INT SEC_ENG_SE_SHA_0_INT_CLR_1T SEC_ENG_SE_SHA_0_INT_SET_1T in
  if tst value SEC_ENG_SE_SHA_0_TRIG_1T then
    let ctrl := Z.lor ctrl SEC_ENG_SE_SHA_0_BUSY in
    let s := set_reg s SEC_ENG_SE_SHA_0_CTRL_OFFSET ctrl in
    bl808_sec_eng_run_sha s ctrl e
  else
    let ctrl := clr ctrl (Z.lor SEC_ENG_SE_SHA_0_BUSY SEC_ENG_SE_SHA_0_TRIG_1T) in
    let s := set_reg s SEC_ENG_SE_SHA_0_CTRL_OFFSET ctrl in
    (bl808_sec_eng_update_irq s, e).

Definition bl808_sec_eng_write_aes (s : BL808SecEngState) (value : Z) (e : E) : BL808SecEngState * E :=
  let ctrl := reg s SEC_ENG_SE_AES_0_CTRL_OFFSET in
  let ctrl := Z.lor (clr ctrl aes_ctrl_bits) (Z.land value aes_ctrl_bits) in
  let ctrl := int_bits ctrl value SEC_ENG_SE_AES_0_INT SEC_ENG_SE_AES_0_INT_CLR_1T SEC_ENG_SE_AES_0_INT_SET_1T in
  if tst value SEC_ENG_SE_AES_0_TRIG_1T then
    let ctrl := Z.lor ctrl SEC_ENG_SE_AES_0_BUSY in
    let s := set_reg s SEC_ENG_SE_AES_0_CTRL_OFFSET ctrl in
    bl808_sec_eng_run_aes s ctrl e
  else
    let ctrl := clr ctrl (Z.lor SEC_ENG_SE_AES_0_BUSY SEC_ENG_SE_AES_0_TRIG_1T) in
    let s := set_reg s SEC_ENG_SE_AES_0_CTRL_OFFSET ctrl in
    (bl808_sec_eng_update_irq s, e).

Definition bl808_sec_eng_write_trng (s : BL808SecEngState) (value : Z) : BL808SecEngState :=
  let ctrl := reg s SEC_ENG_SE_TRNG_0_CTRL_0_OFFSET in
  let keep := Z.lor SEC_ENG_SE_TRNG_0_EN SEC_ENG_SE_TRNG_0_INT_MASK in
  let ctrl := Z.lor (clr ctrl keep) (Z.land value keep) in
  let ctrl := int_bits ctrl value SEC_ENG_SE_TRNG_0_INT SEC_ENG_SE_TRNG_0_INT_CLR_1T SEC_ENG_SE_TRNG_0_INT_SET_1T in
  let s := if tst value SEC_ENG_SE_TRNG_0_DOUT_CLR_1T
           then clear_regs s SEC_ENG_SE_TRNG_0_DOUT_0_OFFSET 8 else s in
  if tst value SEC_ENG_SE_TRNG_0_TRIG_1T && tst ctrl SEC_ENG_SE_TRNG_0_EN then
    let ctrl := Z.lor ctrl SEC_ENG_SE_TRNG_0_BUSY in
    let s := set_reg s SEC_ENG_SE_TRNG_0_CTRL_0_OFFSET ctrl in
    bl808_sec_eng_run_trng s ctrl
  else
    let ctrl := clr ctrl (Z.lor SEC_ENG_SE_TRNG_0_BUSY SEC_ENG_SE_TRNG_0_TRIG_1T) in
    let s := set_reg s SEC_ENG_SE_TRNG_0_CTRL_0_OFFSET ctrl in
    bl808_sec_eng_update_irq s.

Definition bl808_sec_eng_write_pka (s : BL808SecEngState) (value : Z) : BL808SecEngState :=
  let ctrl := reg s SEC_ENG_SE_PKA_0_CTRL_0_OFFSET in
  let keep := Z.lor (Z.lor SEC_ENG_SE_PKA_0_EN SEC_ENG_SE_PKA_0_INT_MASK) (Z.shiftl 0xffff 16) in
  let ctrl := Z.lor (clr ctrl keep) (Z.land value keep) in
  let ctrl := if tst value SEC_ENG_SE_PKA_0_DONE_CLR_1T then clr ctrl SEC_ENG_SE_PKA_0_DONE else ctrl in
  let ctrl := int_bits ctrl value SEC_ENG_SE_PKA_0_INT SEC_ENG_SE_PKA_0_INT_CLR_1T SEC_ENG_SE_PKA_0_INT_SET in
  let ctrl := if tst value SEC_ENG_SE_PKA_0_EN then Z.lor ctrl SEC_ENG_SE_PKA_0_DONE else ctrl in
  let ctrl := clr ctrl SEC_ENG_SE_PKA_0_BUSY in
  let s := set_reg s SEC_ENG_SE_PKA_0_CTRL_0_OFFSET ctrl in
  bl808_sec_eng_update_irq s.

Definition bl808_sec_eng_write_cdet (s : BL808SecEngState) (value : Z) : BL808SecEngState :=
  let ctrl := reg s SEC_ENG_SE_CDET_0_CTRL_0_OFFSET in
  let keep := Z.lor (Z.lor (Z.lor SEC_ENG_SE_CDET_0_EN SEC_ENG_SE_CDET_0_INT_MASK) SEC_ENG_SE_CDET_0_MODE)
                (Z.shiftl 0x1f 3) in
  let ctrl := Z.lor (clr ctrl keep) (Z.land value keep) in
  let ctrl := int_bits ctrl value SEC_ENG_SE_CDET_0_INT SEC_ENG_SE_CDET_0_INT_CLR SEC_ENG_SE_CDET_0_INT_SET in
  let ctrl := clr ctrl SEC_ENG_SE_CDET_0_BUSY in
  let ctrl := if tst value SEC_ENG_SE_CDET_0_EN then Z.lor ctrl SEC_ENG_SE_CDET_0_INT else ctrl in
  let s := set_reg s SEC_ENG_SE_CDET_0_CTRL_0_OFFSET ctrl in
  bl808_sec_eng_update_irq s.

Definition bl808_sec_eng_write_gmac (s : BL808SecEngState) (value : Z) (e : E) : BL808SecEngState * E :=
  let ctrl := reg s SEC_ENG_SE_GMAC_0_CTRL_0_OFFSET in
  let keep := Z.lor (Z.lor (Z.lor (Z.lor SEC_ENG_SE_GMAC_0_EN SEC_ENG_SE_GMAC_0_INT_MASK) (BIT 12)) (BIT 13)) (BIT 14) in
  let ctrl := Z.lor (clr ctrl keep) (Z.land value keep) in
  let ctrl := int_bits ctrl value SEC_ENG_SE_GMAC_0_INT SEC_ENG_SE_GMAC_0_INT_CLR_1T SEC_ENG_SE_GMAC_0_INT_SET_1T in
  let '(ctrl, e) :=
    if tst value SEC_ENG_SE_GMAC_0_TRIG_1T && tst ctrl SEC_ENG_SE_GMAC_0_EN then
      let '(_, e) := bl808_sec_eng_run_gmac_link s e in
      (Z.lor ctrl SEC_ENG_SE_GMAC_0_INT, e)
    else (ctrl, e) in
  let ctrl := clr ctrl (Z.lor SEC_ENG_SE_GMAC_0_BUSY SEC_ENG_SE_GMAC_0_TRIG_1T) in
  let s := set_reg s SEC_ENG_SE_GMAC_0_CTRL_0_OFFSET ctrl in
  let s := set_reg s SEC_ENG_SE_GMAC_0_STATUS_OFFSET 0 in
  (bl808_sec_eng_update_irq s, e).

Definition is_owner_offset (offset : Z) : bool :=
  (offset =? SEC_ENG_SE_SHA_0_CTRL_PROT_OFFSET) || (offset =? SEC_ENG_SE_AES_0_CTRL_PROT_OFFSET) ||
  (offset =? SEC_ENG_SE_TRNG_0_CTRL_PROT_OFFSET) || (offset =? SEC_ENG_SE_PKA_0_CTRL_PROT_OFFSET) ||
  (offset =? SEC_ENG_SE_CDET_0_CTRL_PROT_OFFSET) || (offset =? SEC_ENG_SE_GMAC_0_CTRL_PROT_OFFSET).

Definition bl808_sec_eng_write (s : BL808SecEngState) (offset value size : Z) (e : E) : BL808SecEngState * E :=
  let val := u32 value in
  if negb (size =? 4) then (s, e)
  else if negb (Z.land offset 3 =? 0) || (BL808_SEC_ENG_REG_SIZE <=? offset) then (s, e)
  else if offset =? SEC_ENG_SE_SHA_0_CTRL_OFFSET then bl808_sec_eng_write_sha s val e
  else if offset =? SEC_ENG_SE_AES_0_CTRL_OFFSET then bl808_sec_eng_write_aes s val e
  else if offset =? SEC_ENG_SE_TRNG_0_CTRL_0_OFFSET then (bl808_sec_eng_write_trng s val, e)
  else if offset =? SEC_ENG_SE_PKA_0_CTRL_0_OFFSET then (bl808_sec_eng_write_pka s val, e)
  else if offset =? SEC_ENG_SE_CDET_0_CTRL_0_OFFSET then (bl808_sec_eng_write_cdet s val, e)
  else if offset =? SEC_ENG_SE_GMAC_0_CTRL_0_OFFSET then bl808_sec_eng_write_gmac s val e
  else if is_owner_offset offset then
    (bl808_sec_eng_update_irq (bl808_sec_eng_set_owner s offset val), e)
  else (set_reg s offset val, e).

Definition bl808_sec_eng_reset (s : BL808SecEngState) : BL808SecEngState :=
  let s := s <| regs := replicate 1024 0 |> in
  let s := bl808_sec_eng_sha_accum_reset s in
  let s := set_reg s SEC_ENG_SE_SHA_0_STATUS_OFFSET 0x41 in
  let s := set_reg s SEC_ENG_SE_SHA_0_ENDIAN_OFFSET 0x1 in
  let s := set_reg s SEC_ENG_SE_AES_0_ENDIAN_OFFSET 0x1f in
  let s := set_reg s SEC_ENG_SE_AES_0_SBOOT_OFFSET (Z.shiftl 2 16) in
  let s := set_reg s SEC_ENG_SE_SHA_0_CTRL_PROT_OFFSET 0x6 in
  let s := set_reg s SEC_ENG_SE_AES_0_CTRL_PROT_OFFSET 0x6 in
  let s := set_reg s SEC_ENG_SE_TRNG_0_CTRL_PROT_OFFSET 0x6 in
  let s := set_reg s SEC_ENG_SE_PKA_0_CTRL_PROT_OFFSET 0x6 in
  let s := set_reg s SEC_ENG_SE_CDET_0_CTRL_PROT_OFFSET 0x7 in
  let s := set_reg s SEC_ENG_SE_GMAC_0_CTRL_PROT_OFFSET 0x6 in
  let s := bl808_sec_eng_update_ctrl_prot s in
  let s := s <| trng_state := 0x8081b10b1e5eed5 |> in
  bl808_sec_eng_update_irq s.

End engine.

End BL808SecEng.
