(* ===== verification/SecHashSpec.v ===== *)
(** * Security engine: what the hash and CRC units compute

    The CRC unit computes the remainder of a polynomial division over GF(2), for
    both bit orders; a saved CRC resumes where it stopped; the SHA-512 runs fold
    the compression function over the padded message of FIPS 180-4. *)

From S2P Require Import Prelude Qemu SecHash.
From stdpp Require Import prelude list.
From Stdlib Require Import ZArith Lia.
Local Open Scope Z_scope.

(** ** Polynomials over GF(2)

    A polynomial is the integer whose bits are its coefficients; addition is
    [Z.lxor].  [clmul q p] is the product with the polynomial whose coefficients
    are listed in [q], lowest first. *)

Fixpoint clmul (q : list bool) (p : Z) : Z :=
  match q with
  | [] => 0
  | b :: q => Z.lxor (if b then p else 0) (Z.shiftl (clmul q p) 1)
  end.

(** [r] is a remainder of [x] modulo [p], of degree below [w]. *)
Definition remainder (w p x r : Z) : Prop := uint w r ∧ ∃ q, x = Z.lxor (clmul q p) r.

(** The polynomial of a message, first byte first. *)
Definition message (data : list Z) : Z := be_to_cpu data.

Definition congr (p x y : Z) : Prop := ∃ q, Z.lxor x y = clmul q p.

Fixpoint add_coeffs (q q' : list bool) : list bool :=
  match q, q' with
  | [], q' => q'
  | q, [] => q
  | b :: q, b' :: q' => xorb b b' :: add_coeffs q q'
  end.

Lemma shiftl_lxor x y n : 0 ≤ n → Z.shiftl (Z.lxor x y) n = Z.lxor (Z.shiftl x n) (Z.shiftl y n).
Proof. intros. apply Z.bits_inj'. intros i Hi. by rewrite Z.lxor_spec, !Z.shiftl_spec, Z.lxor_spec by lia. Qed.

Ltac lxor_ring :=
  apply Z.bits_inj'; intros ? ?; rewrite ?Z.lxor_spec, ?Z.bits_0;
  repeat match goal with |- context [Z.testbit ?x ?i] => destruct (Z.testbit x i) end; reflexivity.

Lemma clmul_add q q' p : clmul (add_coeffs q q') p = Z.lxor (clmul q p) (clmul q' p).
Proof.
  revert q'. induction q as [|b q IH]; intros [|b' q']; simpl; rewrite ?Z.lxor_0_r; try done.
  rewrite IH, shiftl_lxor by done. destruct b, b'; simpl; lxor_ring.
Qed.

#[export] Instance congr_equivalence p : Equivalence (congr p).
Proof.
  split.
  - intros x. exists []. by rewrite Z.lxor_nilpotent.
  - intros x y [q H]. exists q. by rewrite Z.lxor_comm.
  - intros x y z [q H] [q' H']. exists (add_coeffs q q'). rewrite clmul_add, <- H, <- H'. lxor_ring.
Qed.

#[export] Instance congr_lxor p : Proper (congr p ==> congr p ==> congr p) Z.lxor.
Proof.
  intros x x' [q H] y y' [q' H']. exists (add_coeffs q q'). rewrite clmul_add, <- H, <- H'. lxor_ring.
Qed.

Lemma congr_double p x y : congr p x y → congr p (Z.shiftl x 1) (Z.shiftl y 1).
Proof. intros [q H]. exists (false :: q). simpl. by rewrite <- H, shiftl_lxor by done. Qed.

Lemma congr_shiftl p x y n : 0 ≤ n → congr p x y → congr p (Z.shiftl x n) (Z.shiftl y n).
Proof.
  intros Hn Hc. revert n Hn. apply natlike_ind; [by rewrite !Z.shiftl_0_r|].
  intros n Hn IH. rewrite <- Z.add_1_r, <- !Z.shiftl_shiftl by lia. by apply congr_double.
Qed.

Lemma congr_modulus p x : congr p (Z.lxor x p) x.
Proof. exists [true]. simpl. rewrite Z.lxor_0_r. lxor_ring. Qed.

Lemma congr_remainder w p x r : uint w r → congr p x r → remainder w p x r.
Proof. intros Hr [q H]. split; [done|]. exists q. rewrite <- H. lxor_ring. Qed.

(** The remainder is unique when the modulus has degree [w]. *)
Lemma clmul_degree w p q : 0 ≤ w → Z.testbit p w = true → (∀ i, w < i → Z.testbit p i = false) →
  clmul q p = 0 ∨ ∃ i, w ≤ i ∧ Z.testbit (clmul q p) i = true.
Proof.
  intros Hw Hp Hh. induction q as [|b q [IH|(i & Hi & IH)]]; [by left| |]; simpl.
  - rewrite IH, Z.shiftl_0_l, Z.lxor_0_r. destruct b; [right|by left]. by exists w.
  - right. exists (i + 1). split; [lia|]. rewrite Z.lxor_spec, Z.shiftl_spec by lia.
    replace (i + 1 - 1) with i by lia. rewrite IH.
    destruct b; [rewrite (Hh (i + 1)) by lia|rewrite Z.bits_0]; done.
Qed.

Lemma remainder_unique w p x r r' : 0 ≤ w → Z.testbit p w = true → (∀ i, w < i → Z.testbit p i = false) →
  remainder w p x r → remainder w p x r' → r = r'.
Proof.
  intros Hw Hp Hh [Hr [q ->]] [Hr' [q' H]].
  assert (clmul (add_coeffs q q') p = Z.lxor r r') as Hx.
  { rewrite clmul_add. apply (f_equal (λ z, Z.lxor (Z.lxor z r) (clmul q' p))) in H. revert H.
    generalize (clmul q p), (clmul q' p). intros a b H.
    transitivity (Z.lxor (Z.lxor (Z.lxor a r) r) b); [lxor_ring|]. rewrite H. lxor_ring. }
  apply Z.lxor_eq. destruct (clmul_degree w p (add_coeffs q q') Hw Hp Hh) as [H0|(i & Hi & H1)].
  - by rewrite <- Hx.
  - rewrite Hx, Z.lxor_spec, !(uint_testbit_high w) in H1 by (done || lia). done.
Qed.

(** ** Bit order *)

Lemma seqZ_snoc m n : 0 ≤ n → seqZ m (n + 1) = seqZ m n ++ [m + n].
Proof. intros. rewrite (seqZ_app m n 1) by lia. done. Qed.

Lemma shiftl_1_u32 i : 0 ≤ i < 32 → u32 (Z.shiftl 1 i) = BIT i.
Proof.
  intros. unfold BIT. apply wrap_small. rewrite Z.shiftl_1_l. split; [lia|].
  apply Z.pow_lt_mono_r; lia.
Qed.

Lemma reflect_loop value width n : 0 ≤ n ≤ width → width ≤ 32 → ∀ i, 0 ≤ i →
  Z.testbit (foldl (λ reflected i,
    if tst value (u32 (Z.shiftl 1 i)) then Z.lor reflected (u32 (Z.shiftl 1 (width - 1 - i))) else reflected)
    0 (seqZ 0 n)) i = (width - n <=? i) && (i <? width) && Z.testbit value (width - 1 - i).
Proof.
  intros [Hn Hnw] Hw. revert Hnw. pattern n. apply natlike_ind; [| |done]; clear n Hn.
  - intros _ i Hi. simpl. rewrite Z.bits_0. symmetry.
    destruct (Z.leb_spec (width - 0) i), (Z.ltb_spec i width); try done; lia.
  - intros n Hn IH Hnw i Hi. rewrite <- Z.add_1_r, seqZ_snoc, foldl_app by lia.
    cbn [foldl]. rewrite Z.add_0_l, !shiftl_1_u32, tst_BIT by lia. specialize (IH ltac:(lia) i Hi).
    destruct (Z.testbit value n) eqn:Ht.
    + rewrite Z.lor_spec, IH, BIT_spec by lia. destruct (Z.eqb_spec (width - 1 - n) i) as [<-|].
      * replace (width - 1 - (width - 1 - n)) with n by lia. rewrite Ht, orb_true_r. symmetry.
        apply andb_true_iff. split; [|done]. apply andb_true_iff. lia.
      * rewrite orb_false_r. do 2 f_equal. lia.
    + rewrite IH. destruct (decide (i = width - 1 - n)) as [->|].
      * replace (width - 1 - (width - 1 - n)) with n by lia. by rewrite Ht, !andb_false_r.
      * do 2 f_equal. lia.
Qed.

Lemma reflect_spec value width i : 0 ≤ width ≤ 32 → 0 ≤ i →
  Z.testbit (bl808_sec_eng_reflect_bits value width) i = (i <? width) && Z.testbit value (width - 1 - i).
Proof.
  intros. unfold bl808_sec_eng_reflect_bits. rewrite reflect_loop by lia.
  destruct (Z.leb_spec (width - width) i); [done|lia].
Qed.

Lemma uint_bits w x : 0 ≤ w → 0 ≤ x → (∀ i, w ≤ i → Z.testbit x i = false) → uint w x.
Proof.
  intros Hw Hx Hb. apply uint_land_ones; [done|]. apply Z.bits_inj'. intros i Hi.
  rewrite Z.land_spec. destruct (decide (i < w)).
  - by rewrite Z.ones_spec_low, andb_true_r by lia.
  - by rewrite (Hb i) by lia.
Qed.

Lemma uint_reflect value w : 0 ≤ w ≤ 32 → uint w (bl808_sec_eng_reflect_bits value w).
Proof.
  intros Hw. apply uint_bits; [lia| |].
  - unfold bl808_sec_eng_reflect_bits. generalize (seqZ 0 w). intros l.
    assert (∀ acc, 0 ≤ acc → 0 ≤ foldl (λ reflected i, if tst value (u32 (Z.shiftl 1 i))
      then Z.lor reflected (u32 (Z.shiftl 1 (w - 1 - i))) else reflected) acc l) as H; [|by apply H].
    induction l as [|i l IH]; [done|]. intros acc Ha. cbn [foldl]. apply IH. case_match; [|done].
    apply Z.lor_nonneg. split; [done|]. by apply (uint_wrap 32).
  - intros i Hi. rewrite reflect_spec by lia. by destruct (Z.ltb_spec i w); [lia|].
Qed.

Lemma reflect_involutive value w : 0 ≤ w ≤ 32 → uint w value →
  bl808_sec_eng_reflect_bits (bl808_sec_eng_reflect_bits value w) w = value.
Proof.
  intros Hw Hv. apply Z.bits_inj'. intros i Hi. rewrite reflect_spec by lia.
  destruct (Z.ltb_spec i w).
  - rewrite reflect_spec by lia. destruct (Z.ltb_spec (w - 1 - i) w); [|lia].
    simpl. f_equal. lia.
  - simpl. symmetry. apply (uint_testbit_high w); lia || done.
Qed.

Lemma reflect_lxor x y w : 0 ≤ w ≤ 32 →
  bl808_sec_eng_reflect_bits (Z.lxor x y) w =
  Z.lxor (bl808_sec_eng_reflect_bits x w) (bl808_sec_eng_reflect_bits y w).
Proof.
  intros. apply Z.bits_inj'. intros i Hi. rewrite Z.lxor_spec, !reflect_spec, Z.lxor_spec by lia.
  by destruct (i <? w).
Qed.

(** ** The CRC loops *)

Lemma crc_mask_ones w : 0 ≤ w ≤ 32 → bl808_sec_eng_crc_mask w = Z.ones w.
Proof.
  intros Hw. unfold bl808_sec_eng_crc_mask. destruct (Z.eqb_spec w 32) as [->|]; [done|].
  rewrite shiftl_1_u32 by lia. unfold BIT. by rewrite Z.ones_equiv, Z.shiftl_1_l, <- Z.sub_1_r.
Qed.

(** The modulus of a CRC of width [w]. *)
Definition modulus (w poly : Z) : Z := Z.lxor (BIT w) poly.

Lemma byte_shift_small b n : uint 8 b → 0 ≤ n ≤ 24 → uint (n + 8) (Z.shiftl b n).
Proof.
  intros [? Hb] Hn. rewrite Z.shiftl_mul_pow2 by lia. split; [lia|].
  rewrite Z.pow_add_r by lia. nia.
Qed.

Lemma message_app data b : message (data ++ [b]) = b + 2 ^ 8 * message data.
Proof. unfold message, be_to_cpu. by rewrite reverse_app. Qed.

Lemma message_snoc data b : uint 8 b → message (data ++ [b]) = Z.lxor (Z.shiftl (message data) 8) b.
Proof.
  intros Hb. rewrite message_app, Z.lxor_lor; [rewrite lor_shiftl_add by done; lia|].
  apply Z.bits_inj'. intros i Hi. rewrite Z.land_spec, Z.bits_0. destruct (decide (i < 8)).
  - by rewrite Z.shiftl_spec_low by lia.
  - rewrite (uint_testbit_high 8 b) by (done || lia). apply andb_false_r.
Qed.

Section crc.
Context (w poly : Z) (Hw : 8 ≤ w ≤ 32) (Hp : uint w poly).

Let mask := bl808_sec_eng_crc_mask w.
Let top := u32 (Z.shiftl 1 (w - 1)).

(** [(crc << 1) & mask]. *)
Let dbl (c : Z) : Z := Z.land (u32 (Z.shiftl c 1)) mask.

Local Lemma top_BIT : top = BIT (w - 1).
Proof using Hw. apply shiftl_1_u32. lia. Qed.

Local Lemma dbl_bit c i : 0 ≤ i → Z.testbit (dbl c) i = (i <? w) && Z.testbit c (i - 1).
Proof using Hw.
  intros. unfold dbl, mask. rewrite crc_mask_ones, Z.land_spec, wrap_testbit, Z.shiftl_spec by lia.
  destruct (Z.ltb_spec i w).
  - rewrite Z.ones_spec_low by lia. destruct (Z.ltb_spec i 32); [|lia]. by rewrite !andb_true_r.
  - rewrite Z.ones_spec_high by lia. by rewrite andb_false_r.
Qed.

Local Lemma dbl_split c : uint w c →
  Z.shiftl c 1 = Z.lxor (if Z.testbit c (w - 1) then BIT w else 0) (dbl c).
Proof using Hw.
  intros Hc. apply Z.bits_inj'. intros i Hi. rewrite Z.lxor_spec, dbl_bit, Z.shiftl_spec by lia.
  destruct (Z.ltb_spec i w) as [Hl|Hl].
  - replace (Z.testbit (if _ : bool then _ else _) i) with false; [by rewrite xorb_false_l|].
    destruct (Z.testbit c (w - 1)); [|by rewrite Z.bits_0]. rewrite BIT_spec by lia. symmetry. apply Z.eqb_neq. lia.
  - rewrite andb_false_l, xorb_false_r. destruct (decide (i = w)) as [->|].
    + destruct (Z.testbit c (w - 1)); [|by rewrite Z.bits_0]. by rewrite BIT_spec, Z.eqb_refl by lia.
    + rewrite (uint_testbit_high w c) by (done || lia).
      destruct (Z.testbit c (w - 1)); [|by rewrite Z.bits_0]. rewrite BIT_spec by lia. symmetry. apply Z.eqb_neq. lia.
Qed.

Local Lemma uint_dbl c : uint w (dbl c).
Proof using Hw. unfold dbl, mask. rewrite crc_mask_ones, <- wrap_land by lia. apply uint_wrap. lia. Qed.

Lemma crc_bit_top_congr c : uint w c →
  uint w (crc_bit_top poly mask top c) ∧
  congr (modulus w poly) (Z.shiftl c 1) (crc_bit_top poly mask top c).
Proof using Hw Hp.
  intros Hc. unfold crc_bit_top. rewrite top_BIT, tst_BIT by lia. fold (dbl c).
  rewrite (dbl_split c Hc). pose proof (uint_dbl c). destruct (Z.testbit c (w - 1)).
  - split; [apply uint_lxor; done || lia|].
    exists [true]. simpl. unfold modulus. lxor_ring.
  - split; [done|]. by rewrite Z.lxor_0_l.
Qed.

Lemma crc_bit_top_iter n c : uint w c →
  uint w (Nat.iter n (crc_bit_top poly mask top) c) ∧
  congr (modulus w poly) (Z.shiftl c (Z.of_nat n)) (Nat.iter n (crc_bit_top poly mask top) c).
Proof using Hw Hp.
  intros Hc. induction n as [|n [IHu IHc]]; simpl Nat.iter.
  - split; [done|]. by rewrite Z.shiftl_0_r.
  - destruct (crc_bit_top_congr _ IHu) as [Hu Hd]. split; [done|]. etransitivity; [|done].
    replace (Z.of_nat (S n)) with (Z.of_nat n + 1) by lia. rewrite <- Z.shiftl_shiftl by lia.
    by apply congr_double.
Qed.

Let step_top (crc byte : Z) : Z :=
  Nat.iter 8 (crc_bit_top poly mask top) (Z.lxor crc (u32 (Z.shiftl byte (w - 8)))).

Local Lemma shift_byte b : uint 8 b → u32 (Z.shiftl b (w - 8)) = Z.shiftl b (w - 8) ∧ uint w (Z.shiftl b (w - 8)).
Proof using Hw.
  intros Hb. pose proof (byte_shift_small b (w - 8) Hb ltac:(lia)) as H.
  replace (w - 8 + 8) with w in H by lia. split; [|done]. apply wrap_small.
  apply (uint_weaken w); done || lia.
Qed.

(** The state after [data]: congruent to the initial state shifted past the
    message, plus the message shifted past the register. *)
Lemma crc_top_congr c data : uint w c → Forall (uint 8) data →
  uint w (foldl step_top c data) ∧
  congr (modulus w poly)
    (Z.lxor (Z.shiftl c (8 * Z.of_nat (length data))) (Z.shiftl (message data) w)) (foldl step_top c data).
Proof using Hw Hp.
  intros Hc. induction data as [|b data IH] using rev_ind; intros Hd.
  { simpl. split; [done|]. change (message []) with 0. by rewrite Z.shiftl_0_r, Z.shiftl_0_l, Z.lxor_0_r. }
  apply Forall_app in Hd as [Hd [Hb _]%Forall_cons]. destruct (IH Hd) as [IHu IHc].
  rewrite foldl_app. cbn [foldl]. set (r := foldl step_top c data) in *. unfold step_top.
  destruct (shift_byte b Hb) as [-> Hbw].
  destruct (crc_bit_top_iter 8 (Z.lxor r (Z.shiftl b (w - 8)))) as [Hu Hr].
  { apply uint_lxor; done || lia. }
  split; [done|]. etransitivity; [|done]. rewrite shiftl_lxor, Z.shiftl_shiftl by lia.
  replace (w - 8 + Z.of_nat 8) with w by lia. rewrite message_snoc by done.
  apply (congr_shiftl _ _ _ 8) in IHc; [|lia]. rewrite !shiftl_lxor, !Z.shiftl_shiftl in * by lia.
  rewrite length_app. simpl length.
  replace (8 * Z.of_nat (length data) + 8) with (8 * Z.of_nat (length data + 1)) in IHc by lia.
  rewrite <- IHc. replace (w + 8) with (8 + w) by lia. by rewrite Z.lxor_assoc.
Qed.

(** The reflected loop runs the other one on reflected bits. *)
Lemma crc_bit_reflect c : uint w c →
  crc_bit_ref (bl808_sec_eng_reflect_bits poly w) mask (bl808_sec_eng_reflect_bits c w) =
  bl808_sec_eng_reflect_bits (crc_bit_top poly mask top c) w.
Proof using Hw Hp.
  intros Hc. unfold crc_bit_ref, crc_bit_top. rewrite top_BIT, tst_BIT by lia.
  change 1 with (BIT 0) at 1. rewrite tst_BIT, reflect_spec by lia.
  destruct (Z.ltb_spec 0 w); [|lia]. rewrite Z.sub_0_r, andb_true_l. fold (dbl c).
  assert (Z.land (Z.shiftr (bl808_sec_eng_reflect_bits c w) 1) mask = bl808_sec_eng_reflect_bits (dbl c) w) as Hs.
  { apply Z.bits_inj'. intros i Hi. unfold mask. rewrite crc_mask_ones, Z.land_spec, Z.shiftr_spec by lia.
    rewrite !reflect_spec by lia. destruct (Z.ltb_spec i w).
    - rewrite Z.ones_spec_low, andb_true_r, dbl_bit by lia.
      destruct (Z.ltb_spec (w - 1 - i) w); [|lia]. destruct (Z.ltb_spec (i + 1) w).
      + simpl. f_equal. lia.
      + simpl. rewrite Z.testbit_neg_r by lia. done.
    - by rewrite Z.ones_spec_high, andb_false_r by lia. }
  destruct (Z.testbit c (w - 1)); [|done].
  rewrite reflect_lxor, <- Hs by lia. unfold mask. rewrite crc_mask_ones by lia.
  rewrite <- !wrap_land by lia. rewrite <- (wrap_small w (bl808_sec_eng_reflect_bits poly w)) at 2 by (apply uint_reflect; lia).
  apply Z.bits_inj'. intros i Hi. rewrite ?Z.lxor_spec, ?wrap_testbit, ?Z.lxor_spec, ?wrap_testbit by lia.
  destruct (i <? w); by rewrite ?andb_true_r, ?andb_false_r.
Qed.

Lemma crc_iter_reflect n c : uint w c →
  Nat.iter n (crc_bit_ref (bl808_sec_eng_reflect_bits poly w) mask) (bl808_sec_eng_reflect_bits c w) =
  bl808_sec_eng_reflect_bits (Nat.iter n (crc_bit_top poly mask top) c) w.
Proof using Hw Hp.
  intros Hc. induction n as [|n IH]; [done|]. simpl Nat.iter. rewrite IH, crc_bit_reflect; [done|].
  by apply crc_bit_top_iter.
Qed.

Lemma byte_reflect b : uint 8 b →
  bl808_sec_eng_reflect_bits (Z.shiftl (bl808_sec_eng_reflect_bits b 8) (w - 8)) w = b.
Proof using Hw.
  intros Hb. apply Z.bits_inj'. intros i Hi. rewrite reflect_spec by lia. destruct (Z.ltb_spec i w).
  - rewrite Z.shiftl_spec by lia. simpl. destruct (decide (i < 8)).
    + rewrite reflect_spec by lia. destruct (Z.ltb_spec (w - 1 - i - (w - 8)) 8); [|lia]. simpl. f_equal. lia.
    + rewrite Z.testbit_neg_r, (uint_testbit_high 8 b) by (done || lia). done.
  - by rewrite (uint_testbit_high 8 b) by (done || lia).
Qed.

Lemma crc_ref_reflect c data : uint w c → Forall (uint 8) data →
  foldl (λ crc byte, Nat.iter 8 (crc_bit_ref (bl808_sec_eng_reflect_bits poly w) mask) (Z.lxor crc byte))
    (bl808_sec_eng_reflect_bits c w) data =
  bl808_sec_eng_reflect_bits (foldl step_top c ((λ b, bl808_sec_eng_reflect_bits b 8) <$> data)) w.
Proof using Hw Hp.
  intros Hc Hd. revert c Hc. induction Hd as [|b data Hb Hd IH]; intros c Hc; [done|].
  cbn [foldl fmap list_fmap]. destruct (shift_byte (bl808_sec_eng_reflect_bits b 8)) as [Heq Hu].
  { apply uint_reflect. lia. }
  assert (uint w (Z.lxor c (Z.shiftl (bl808_sec_eng_reflect_bits b 8) (w - 8)))) as Hx by (apply uint_lxor; done || lia).
  rewrite <- (byte_reflect b Hb) at 1. rewrite <- reflect_lxor, crc_iter_reflect by (done || lia).
  unfold step_top at 2. rewrite Heq. apply IH. by apply crc_bit_top_iter.
Qed.
End crc.

Lemma land_mask w x : 0 ≤ w ≤ 32 → Z.land x (bl808_sec_eng_crc_mask w) = wrap w x.
Proof. intros. by rewrite crc_mask_ones, wrap_land by lia. Qed.

(** The value of [n] bits in the order in which the unit takes its input. *)
Definition flip (din_ref : bool) (v n : Z) : Z :=
  if din_ref then bl808_sec_eng_reflect_bits v n else v.

Lemma uint_flip r v n : 0 ≤ n ≤ 32 → uint n v → uint n (flip r v n).
Proof. intros. destruct r; [by apply uint_reflect|done]. Qed.

(** The dividend of a CRC: the initial value, moved past the message, plus the
    message, moved past the register. *)
Definition dividend (w init : Z) (data : list Z) (din_ref : bool) : Z :=
  Z.lxor (Z.shiftl (flip din_ref init w) (8 * Z.of_nat (length data)))
    (Z.shiftl (message ((λ b, flip din_ref b 8) <$> data)) w).

Lemma crc_update_congr data w poly init din_ref : 8 ≤ w ≤ 32 → Forall (uint 8) data →
  uint w (bl808_sec_eng_crc_update data w poly init din_ref) ∧
  congr (modulus w (wrap w poly)) (dividend w (wrap w init) data din_ref)
    (flip din_ref (bl808_sec_eng_crc_update data w poly init din_ref) w).
Proof.
  intros Hw Hd. unfold bl808_sec_eng_crc_update. rewrite !land_mask by lia.
  assert (uint w (wrap w poly)) as Hp by (apply uint_wrap; lia).
  assert (uint w (wrap w init)) as Hi by (apply uint_wrap; lia).
  split; [apply uint_wrap; lia|]. unfold dividend, flip. destruct din_ref.
  - rewrite <- (reflect_involutive (wrap w init) w) at 2 by (done || lia).
    rewrite crc_ref_reflect by (done || lia || apply uint_reflect; lia).
    destruct (crc_top_congr w (wrap w poly) Hw Hp (bl808_sec_eng_reflect_bits (wrap w init) w)
      ((λ b, bl808_sec_eng_reflect_bits b 8) <$> data)) as [Hu Hc].
    { apply uint_reflect. lia. }
    { apply Forall_fmap, Forall_forall. intros b _. apply uint_reflect. lia. }
    rewrite (wrap_small w (bl808_sec_eng_reflect_bits (foldl _ _ _) _)) by (apply uint_reflect; lia).
    rewrite reflect_involutive by (done || lia). by rewrite length_fmap in Hc.
  - destruct (crc_top_congr w (wrap w poly) Hw Hp (wrap w init) data Hi Hd) as [Hu Hc].
    rewrite list_fmap_id. by rewrite (wrap_small w (foldl _ _ _)).
Qed.

Lemma modulus_degree w poly : 0 ≤ w → uint w poly →
  Z.testbit (modulus w poly) w = true ∧ ∀ i, w < i → Z.testbit (modulus w poly) i = false.
Proof.
  intros Hw Hp. unfold modulus. split.
  - by rewrite Z.lxor_spec, BIT_spec, Z.eqb_refl, (uint_testbit_high w poly) by (done || lia).
  - intros i Hi. rewrite Z.lxor_spec, BIT_spec, (uint_testbit_high w poly) by (done || lia).
    destruct (Z.eqb_spec w i); [lia|done].
Qed.

(** C17: the CRC unit divides polynomials over GF(2): for every width from 8 to
    32, polynomial, initial value, message and bit order, [bl808_sec_eng_crc_update]
    returns the remainder of the message (preceded by the initial value and
    followed by as many zero bits as the register is wide) modulo
    [x^width + poly]; with [din_ref] set, message bytes, initial value and result
    are bit-reflected.  The result is the only such remainder. *)
Theorem sec_crc_remainder data w poly init din_ref :
  8 ≤ w ≤ 32 → Forall (uint 8) data →
  let crc := bl808_sec_eng_crc_update data w poly init din_ref in
  let divides := remainder w (modulus w (wrap w poly)) (dividend w (wrap w init) data din_ref) in
  uint w crc ∧ divides (flip din_ref crc w) ∧ ∀ r, divides r → r = flip din_ref crc w.
Proof.
  intros Hw Hd crc divides. destruct (crc_update_congr data w poly init din_ref Hw Hd) as [Hu Hc].
  assert (divides (flip din_ref crc w)) as Hr by (apply congr_remainder; [apply uint_flip; lia || done|done]).
  split_and!; [done..|]. intros r Hr'.
  destruct (modulus_degree w (wrap w poly)) as [H1 H2]; [lia|apply uint_wrap; lia|].
  apply (remainder_unique w (modulus w (wrap w poly)) (dividend w (wrap w init) data din_ref)); done || lia.
Qed.

(** The check value of the CRC-32 of "123456789" is 0xcbf43926; here the final
    complement, which the finalisation adds, is missing. *)
Lemma sec_crc_remainder_witness :
  let data := [0x31; 0x32; 0x33; 0x34; 0x35; 0x36; 0x37; 0x38; 0x39] in
  bl808_sec_eng_crc_update data 32 0x04c11db7 0xffffffff true = 0x340bc6d9 ∧
  remainder 32 (modulus 32 0x04c11db7) (dividend 32 0xffffffff data true)
    (flip true 0x340bc6d9 32).
Proof.
  intros data. split; [by vm_compute|].
  assert (Forall (uint 8) data) as Hd by (repeat constructor; by vm_compute).
  apply (proj1 (proj2 (sec_crc_remainder data 32 0x04c11db7 0xffffffff true ltac:(lia) Hd))).
Defined.

(** ** Saving and resuming *)

Lemma finalize_uint w crc a b c : 0 ≤ w ≤ 32 → uint w (bl808_sec_eng_crc_finalize w crc a b c).
Proof. intros. unfold bl808_sec_eng_crc_finalize. rewrite !land_mask by lia. apply uint_wrap. lia. Qed.

Lemma lxor_ones_twice w x : uint w x → 0 ≤ w →
  wrap w (Z.lxor (wrap w (Z.lxor x (Z.ones w))) (Z.ones w)) = x.
Proof.
  intros Hx Hw. apply Z.bits_inj'. intros i Hi. rewrite wrap_testbit, Z.lxor_spec, wrap_testbit, Z.lxor_spec by lia.
  destruct (Z.ltb_spec i w); [rewrite Z.ones_spec_low by lia; by destruct (Z.testbit x i)|].
  rewrite andb_false_r. symmetry. apply (uint_testbit_high w); done.
Qed.

Lemma restore_finalize w crc din_ref dout_ref dout_inv : 0 ≤ w ≤ 32 → uint w crc →
  bl808_sec_eng_crc_restore_state w (bl808_sec_eng_crc_finalize w crc din_ref dout_ref dout_inv)
    din_ref dout_ref dout_inv = crc.
Proof.
  intros Hw Hc. unfold bl808_sec_eng_crc_restore_state, bl808_sec_eng_crc_finalize.
  rewrite !land_mask, !crc_mask_ones by lia.
  assert (uint w (bl808_sec_eng_reflect_bits crc w)) as Hr by (apply uint_reflect; lia).
  assert (∀ x, uint w x → wrap w (wrap w x) = x) as Hww.
  { intros x Hx. by rewrite !(wrap_small w x) by done. }
  rewrite (wrap_small w crc) by done. destruct (negb (eqb dout_ref din_ref)), dout_inv;
    rewrite ?(wrap_small w (wrap w (Z.lxor _ _))) by (apply uint_wrap; lia).
  - assert (∀ x, uint w x → Z.lxor (wrap w (Z.lxor x (Z.ones w))) (Z.ones w) = x) as Hx.
    { intros x Hx. rewrite <- (lxor_ones_twice w x) at 2 by (done || lia). symmetry. apply wrap_small.
      apply uint_lxor; [lia|apply uint_wrap; lia|]. rewrite Z.ones_equiv. unfold uint. lia. }
    by rewrite Hx, reflect_involutive, (wrap_small w crc) by (done || lia).
  - by rewrite Hww, reflect_involutive, (wrap_small w crc) by (done || lia).
  - by apply (lxor_ones_twice w crc); [|lia].
  - by rewrite !(wrap_small w crc) by done.
Qed.

Lemma crc_update_app d1 d2 w poly c din_ref : 8 ≤ w ≤ 32 → Forall (uint 8) d1 →
  bl808_sec_eng_crc_update (d1 ++ d2) w poly c din_ref =
  bl808_sec_eng_crc_update d2 w poly (bl808_sec_eng_crc_update d1 w poly c din_ref) din_ref.
Proof.
  intros Hw Hd. unfold bl808_sec_eng_crc_update. rewrite !land_mask by lia. f_equal.
  assert (∀ x, wrap w (wrap w x) = wrap w x) as Hww by (intros; apply wrap_small; apply uint_wrap; lia).
  assert (uint w (wrap w poly)) as Hp by (apply uint_wrap; lia).
  assert (uint w (wrap w c)) as Hi by (apply uint_wrap; lia).
  destruct din_ref; rewrite foldl_app, Hww; f_equal; symmetry; apply wrap_small.
  - rewrite <- (reflect_involutive (wrap w c) w) by (done || lia).
    rewrite crc_ref_reflect; [apply uint_reflect; lia|done..|apply uint_reflect; lia|done].
  - by apply (crc_top_congr w (wrap w poly) Hw Hp).
Qed.

(** A CRC can be computed in several runs: the state restored from a
    finalised result is the state the finalisation started from, for every
    combination of the reflection and inversion options, so a run that
    continues from the stored result of [d1] over [d2] returns what one run over
    [d1 ++ d2] returns. *)
Theorem sec_crc_resumes d1 d2 w poly init din_ref dout_ref dout_inv :
  8 ≤ w ≤ 32 → Forall (uint 8) d1 →
  let finalize crc := bl808_sec_eng_crc_finalize w crc din_ref dout_ref dout_inv in
  let restore crc := bl808_sec_eng_crc_restore_state w crc din_ref dout_ref dout_inv in
  let stored := finalize (bl808_sec_eng_crc_update d1 w poly init din_ref) in
  restore stored = bl808_sec_eng_crc_update d1 w poly init din_ref ∧
  finalize (bl808_sec_eng_crc_update d2 w poly (restore stored) din_ref) =
  finalize (bl808_sec_eng_crc_update (d1 ++ d2) w poly init din_ref).
Proof.
  intros Hw Hd finalize restore stored.
  assert (restore stored = bl808_sec_eng_crc_update d1 w poly init din_ref) as Hs.
  { apply restore_finalize; [lia|]. by apply crc_update_congr. }
  split; [done|]. by rewrite Hs, crc_update_app by done.
Qed.

Lemma sec_crc_resumes_witness :
  let data := [0x31; 0x32; 0x33; 0x34; 0x35; 0x36; 0x37; 0x38; 0x39] in
  let finalize crc := bl808_sec_eng_crc_finalize 32 crc true true true in
  let stored := finalize (bl808_sec_eng_crc_update (take 5 data) 32 0x04c11db7 0xffffffff true) in
  finalize (bl808_sec_eng_crc_update (drop 5 data) 32 0x04c11db7
              (bl808_sec_eng_crc_restore_state 32 stored true true true) true) = 0xcbf43926.
Proof.
  intros data finalize stored.
  assert (Forall (uint 8) (take 5 data)) as Hd by (repeat constructor; by vm_compute).
  etransitivity;
    [apply (proj2 (sec_crc_resumes (take 5 data) (drop 5 data) 32 0x04c11db7 0xffffffff true true true ltac:(lia) Hd))|].
  by vm_compute.
Defined.

(** ** Padding *)

(** The padded message of FIPS 180-4, section 5.1.2: the bit 1, as many zero bits
    as reach the next multiple of 1024 bits, and the length in bits on 128 bits. *)
Definition sha512_pad (data : list Z) : list Z :=
  let len := Z.of_nat (length data) in
  data ++ 0x80 :: replicate (Z.to_nat ((- (len + 17)) mod 128)) 0 ++ cpu_to_be 16 (8 * len).

(** The compression function over the 1024-bit blocks of a padded message. *)
Definition sha512_fold (state m : list Z) : list Z :=
  foldl (λ state i, bl808_sec_eng_sha512_process_block state (slice m (i * 128) 128))
    state (seqZ 0 (Z.of_nat (length m) / 128)).

Lemma memcpy_at_app (a b b' c : list Z) off :
  off = Z.of_nat (length a) → length b' = length b → memcpy_at (a ++ b ++ c) off b' = a ++ b' ++ c.
Proof.
  intros -> Hb. unfold memcpy_at. rewrite Nat2Z.id, take_app_length, Hb, <- drop_drop.
  by rewrite !drop_app_length.
Qed.

Lemma slice_app_l (a b : list Z) off n :
  0 ≤ off → 0 ≤ n → off + n ≤ Z.of_nat (length a) → slice (a ++ b) off n = slice a off n.
Proof. intros. unfold slice. rewrite drop_app_le, take_app_le; rewrite ?length_drop; try done; lia. Qed.

Lemma slice_app_r (a b : list Z) off n :
  Z.of_nat (length a) ≤ off → slice (a ++ b) off n = slice b (off - Z.of_nat (length a)) n.
Proof. intros. unfold slice. rewrite drop_app_ge by lia. do 2 f_equal. lia. Qed.

Lemma slice_size (a : list Z) off n :
  0 ≤ off → 0 ≤ n → off + n ≤ Z.of_nat (length a) → Z.of_nat (length (slice a off n)) = n.
Proof. intros. unfold slice. rewrite length_take, length_drop. lia. Qed.

Lemma cpu_to_be_length n v : length (cpu_to_be n v) = n.
Proof. unfold cpu_to_be. by rewrite length_reverse, cpu_to_le_length. Qed.

Lemma cpu_to_le_app n m v : cpu_to_le (n + m) v = cpu_to_le n v ++ cpu_to_le m (Z.shiftr v (8 * Z.of_nat n)).
Proof.
  revert v. induction n as [|n IH]; intros v; [done|]. cbn [Nat.add cpu_to_le app]. rewrite IH.
  rewrite Z.shiftr_shiftr by lia. do 4 f_equal. lia.
Qed.

Lemma cpu_to_le_wrap n w v : 8 * Z.of_nat n ≤ w → cpu_to_le n (wrap w v) = cpu_to_le n v.
Proof.
  revert w v. induction n as [|n IH]; intros w v Hw; [done|]. cbn [cpu_to_le]. f_equal.
  - apply Z.bits_inj'. intros i Hi. rewrite !wrap_testbit by lia.
    destruct (Z.ltb_spec i 8); [|by rewrite !andb_false_r].
    destruct (Z.ltb_spec i w); [by rewrite andb_true_r|lia].
  - rewrite <- (IH (w - 8)) by lia. rewrite <- (IH (w - 8) (Z.shiftr v 8)) by lia. f_equal.
    apply Z.bits_inj'. intros i Hi. rewrite !wrap_testbit, !Z.shiftr_spec, wrap_testbit by lia.
    destruct (Z.ltb_spec i (w - 8)); [|by rewrite !andb_false_r].
    destruct (Z.ltb_spec (i + 8) w); [by rewrite !andb_true_r|lia].
Qed.

Lemma bit_length_split len : 0 ≤ len →
  cpu_to_be 8 (Z.shiftr len 61) ++ cpu_to_be 8 (u64 (Z.shiftl len 3)) = cpu_to_be 16 (8 * len).
Proof.
  intros. unfold cpu_to_be. rewrite <- reverse_app. f_equal.
  rewrite (cpu_to_le_app 8 8). rewrite cpu_to_le_wrap by lia. f_equal.
  - f_equal. rewrite Z.shiftl_mul_pow2 by lia. lia.
  - f_equal. replace (8 * len) with (Z.shiftl len 3) by (rewrite Z.shiftl_mul_pow2; lia).
    by rewrite Z.shiftr_shiftl_r by lia.
Qed.

(** The tail of the message, padded into one or two blocks. *)
Lemma final_blocks_padded rest hi lo padded_len :
  let rem := Z.of_nat (length rest) in
  rem < 128 → length hi = 8%nat → length lo = 8%nat →
  padded_len = (if rem + 1 + 16 <=? 128 then 128 else 256) →
  let blocks := replicate 256 0 in
  let blocks := if rem =? 0 then blocks else memcpy_at blocks 0 rest in
  memcpy_at (memcpy_at (aset blocks rem 0x80) (padded_len - 16) hi) (padded_len - 8) lo =
  (rest ++ 0x80 :: replicate (Z.to_nat (padded_len - 17 - rem)) 0 ++ hi ++ lo) ++
  replicate (Z.to_nat (256 - padded_len)) 0.
Proof.
  intros rem Hrem Hhi Hlo Hpl blocks0 blocks.
  assert (padded_len = 128 ∨ padded_len = 256) as Hpc by (subst; case_match; auto).
  assert (rem + 17 ≤ padded_len) as Hle by (subst padded_len; destruct (Z.leb_spec (rem + 1 + 16) 128); lia).
  assert (blocks = rest ++ replicate (256 - length rest) 0) as ->.
  { subst blocks blocks0 rem. destruct (Z.eqb_spec (Z.of_nat (length rest)) 0) as [H0|].
    - destruct rest; [done|simpl in H0; lia].
    - replace (replicate 256 0) with ([] ++ replicate (length rest) 0 ++ replicate (256 - length rest) 0).
      + by rewrite memcpy_at_app by (done || by rewrite length_replicate).
      + rewrite app_nil_l, <- replicate_add. f_equal. lia. }
  replace (256 - length rest)%nat with
    (S (Z.to_nat (padded_len - 17 - rem) + (8 + (8 + Z.to_nat (256 - padded_len)))))%nat by lia.
  cbn [replicate]. rewrite !replicate_add. unfold aset, rem at 1. rewrite Nat2Z.id.
  rewrite insert_app_r_alt by lia. rewrite Nat.sub_diag. cbn [insert list_insert].
  set (z := replicate (Z.to_nat (padded_len - 17 - rem)) 0). set (t := replicate (Z.to_nat (256 - padded_len)) 0).
  assert (∀ a b c : list Z, rest ++ 128 :: z ++ a ++ b ++ c = (rest ++ 128 :: z) ++ a ++ b ++ c) as Ha.
  { intros. by rewrite <- app_assoc. }
  assert (Z.of_nat (length (rest ++ 128 :: z)) = padded_len - 16) as Hl.
  { subst z. rewrite length_app. cbn [length]. rewrite length_replicate. lia. }
  rewrite Ha, memcpy_at_app by (rewrite ?length_replicate; lia || done).
  rewrite (app_assoc _ hi), memcpy_at_app;
    [by rewrite <- !app_assoc; cbn [app]; rewrite <- !app_assoc| |by rewrite length_replicate].
  rewrite length_app, Hhi. lia.
Qed.

Lemma foldl_ext_in {A B} (f g : B → A → B) l : ∀ b, (∀ x, x ∈ l → ∀ b, f b x = g b x) → foldl f b l = foldl g b l.
Proof.
  induction l as [|x l IH]; intros b H; [done|]. cbn [foldl]. rewrite (H x) by left. apply IH.
  intros y Hy. apply H. by right.
Qed.

Lemma foldl_seqZ_shift {B} (f : B → Z → B) k n b :
  foldl f b (seqZ k n) = foldl (λ b i, f b (k + i)) b (seqZ 0 n).
Proof.
  rewrite <- (foldl_fmap f b (seqZ 0 n) (Z.add k)), fmap_add_seqZ. by rewrite Z.add_0_r.
Qed.

Lemma sha512_fold_app state m m' b : Z.of_nat (length m) = 128 * b →
  sha512_fold state (m ++ m') = sha512_fold (sha512_fold state m) m'.
Proof.
  intros Hm. unfold sha512_fold. rewrite length_app, Nat2Z.inj_add, Hm.
  replace ((128 * b + Z.of_nat (length m')) / 128) with (b + Z.of_nat (length m') / 128).
  2: { rewrite (Z.add_comm (128 * b)), (Z.mul_comm 128), Z.div_add by lia. lia. }
  rewrite (Z.mul_comm 128), Z.div_mul by lia.
  rewrite seqZ_app, foldl_app by (apply Z.div_pos || idtac; lia). rewrite Z.add_0_l.
  rewrite (foldl_ext_in _ (λ state i, bl808_sec_eng_sha512_process_block state (slice m (i * 128) 128)) (seqZ 0 b)).
  - rewrite foldl_seqZ_shift. apply foldl_ext_in. intros i [Hi _]%elem_of_seqZ st.
    rewrite slice_app_r by lia. by replace ((b + i) * 128 - Z.of_nat (length m)) with (i * 128) by lia.
  - intros i Hi%elem_of_seqZ st. by rewrite slice_app_l by lia.
Qed.

Lemma sha512_fold_one state m : length m = 128%nat →
  sha512_fold state m = bl808_sec_eng_sha512_process_block state (slice m 0 128).
Proof. intros Hm. unfold sha512_fold. by rewrite Hm. Qed.

Lemma sha512_fold_two state m : length m = 256%nat →
  sha512_fold state m = bl808_sec_eng_sha512_process_block
    (bl808_sec_eng_sha512_process_block state (slice m 0 128)) (slice m 128 128).
Proof. intros Hm. unfold sha512_fold. by rewrite Hm. Qed.

Lemma process_block_length state block : length (bl808_sec_eng_sha512_process_block state block) = 8%nat.
Proof.
  unfold bl808_sec_eng_sha512_process_block. destruct (foldl _ _ _) as [[[[[[[a b] c] d] e] f] g] h]. done.
Qed.

(** The digest buffer holds the eight words, most significant byte first. *)
Definition digest_bytes (state : list Z) : list Z := concat (cpu_to_be 8 <$> state).

Lemma full_digest state : length state = 8%nat →
  foldl (λ d i, memcpy_at d (i * 8) (cpu_to_be 8 (state !% i))) (replicate 64 0) (seqZ 0 8) = digest_bytes state.
Proof.
  intros Hl. do 8 (destruct state as [|? state]; [done|]). destruct state; [|done].
  change (seqZ 0 8) with [0; 1; 2; 3; 4; 5; 6; 7]. unfold digest_bytes. cbn [foldl fmap list_fmap concat].
  repeat match goal with |- context [aget ?l ?i] =>
    let v := eval cbv [aget lookup_total list_lookup_total Z.to_nat Pos.to_nat Pos.iter_op Init.Nat.add] in (l !% i) in
    change (l !% i) with v end.
  assert (∀ v, ∃ b0 b1 b2 b3 b4 b5 b6 b7, cpu_to_be 8 v = [b0; b1; b2; b3; b4; b5; b6; b7]) as Hc.
  { intros v. unfold cpu_to_be. cbn [cpu_to_le reverse rev_append]. by repeat eexists. }
  repeat match goal with |- context [cpu_to_be 8 ?v] =>
    destruct (Hc v) as (? & ? & ? & ? & ? & ? & ? & ? & ->) end. done.
Qed.

Lemma sha512_fold_length state m : length state = 8%nat → length (sha512_fold state m) = 8%nat.
Proof.
  unfold sha512_fold. generalize (seqZ 0 (Z.of_nat (length m) / 128)). intros l. revert state.
  induction l as [|i l IH]; intros state Hs; [done|]. cbn [foldl]. apply IH. apply process_block_length.
Qed.

Section padding.
Context (data : list Z).

Let len := Z.of_nat (length data).
Let front := take (Z.to_nat (len / 128 * 128)) data.
Let rest := slice data (len / 128 * 128) (len mod 128).
Let padded_len := if len mod 128 + 1 + 16 <=? 128 then 128 else 256.
Let tail := rest ++ 0x80 :: replicate (Z.to_nat (padded_len - 17 - len mod 128)) 0 ++ cpu_to_be 16 (8 * len).

Local Lemma split_bounds : 0 ≤ len / 128 * 128 ≤ len ∧ len = len / 128 * 128 + len mod 128 ∧ 0 ≤ len mod 128 < 128.
Proof using. pose proof (Z.div_mod len 128). pose proof (Z.mod_pos_bound len 128). lia. Qed.

Local Lemma rest_drop : rest = drop (Z.to_nat (len / 128 * 128)) data.
Proof using.
  unfold rest, slice. apply take_ge. rewrite length_drop. pose proof split_bounds. lia.
Qed.

Local Lemma front_length : Z.of_nat (length front) = 128 * (len / 128).
Proof using. unfold front. rewrite length_take. pose proof split_bounds. lia. Qed.

Local Lemma rest_length : Z.of_nat (length rest) = len mod 128.
Proof using. rewrite rest_drop, length_drop. pose proof split_bounds. lia. Qed.

Local Lemma padded_room : padded_len - 17 - len mod 128 = (- (len + 17)) mod 128 ∧ (padded_len = 128 ∨ padded_len = 256).
Proof using.
  unfold padded_len. pose proof split_bounds as (_ & Hs & Hb).
  destruct (Z.leb_spec (len mod 128 + 1 + 16) 128).
  - split; [|by left]. apply (Z.mod_unique_pos _ _ (- (len / 128) - 1)); lia.
  - split; [|by right]. apply (Z.mod_unique_pos _ _ (- (len / 128) - 2)); lia.
Qed.

Local Lemma pad_split : sha512_pad data = front ++ tail.
Proof using.
  unfold sha512_pad, tail. fold len. rewrite (proj1 padded_room), app_assoc. f_equal.
  rewrite rest_drop. unfold front. by rewrite take_drop.
Qed.

Local Lemma tail_length : Z.of_nat (length tail) = padded_len.
Proof using.
  unfold tail. rewrite length_app. cbn [length]. rewrite length_app, length_replicate, cpu_to_be_length.
  pose proof rest_length. pose proof padded_room as [Hr Hc]. pose proof split_bounds.
  pose proof (Z.mod_pos_bound (- (len + 17)) 128). lia.
Qed.

Local Lemma sha512_fold_front iv :
  foldl (λ state i, bl808_sec_eng_sha512_process_block state (slice data (i * 128) 128)) iv (seqZ 0 (len / 128)) =
  sha512_fold iv front.
Proof using.
  unfold sha512_fold. rewrite front_length, (Z.mul_comm 128), Z.div_mul by lia. apply foldl_ext_in.
  intros i Hi%elem_of_seqZ st. rewrite <- (take_drop (Z.to_nat (len / 128 * 128)) data) at 1. fold front.
  pose proof front_length. by rewrite slice_app_l by lia.
Qed.

Lemma sha512_custom_pad iv digest_len : len < 2 ^ 64 →
  bl808_sec_eng_sha512_custom data iv digest_len =
  take (Z.to_nat digest_len) (digest_bytes (sha512_fold iv (sha512_pad data))).
Proof using.
  intros Hlen. unfold bl808_sec_eng_sha512_custom. fold len. cbv zeta. fold padded_len rest.
  rewrite sha512_fold_front. pose proof rest_length as Hrl. pose proof split_bounds as Hb.
  pose proof (final_blocks_padded rest (cpu_to_be 8 (Z.shiftr len 61)) (cpu_to_be 8 (u64 (Z.shiftl len 3))) padded_len)
    as Hf. cbv zeta in Hf. rewrite Hrl in Hf.
  rewrite Hf; [|lia|apply cpu_to_be_length..|done]. clear Hf.
  rewrite bit_length_split by (unfold len; lia). fold tail.
  rewrite pad_split, (sha512_fold_app _ front tail (len / 128)) by apply front_length.
  pose proof tail_length as Htl. generalize (sha512_fold iv front). intros state.
  destruct padded_room as [_ [Hp|Hp]]; rewrite Hp in *.
  - change (128 =? 256) with false. cbv iota.
    rewrite full_digest by apply process_block_length. do 2 f_equal.
    rewrite slice_app_l by lia. rewrite sha512_fold_one by lia. done.
  - change (256 =? 256) with true. cbv iota.
    rewrite full_digest by apply process_block_length. do 2 f_equal.
    rewrite !slice_app_l by lia. rewrite sha512_fold_two by lia. done.
Qed.

Lemma sha512_pad_length : Z.of_nat (length (sha512_pad data)) mod 128 = 0.
Proof using.
  rewrite pad_split, length_app, Nat2Z.inj_add, front_length, tail_length.
  destruct padded_room as [_ [-> | ->]]; rewrite (Z.mul_comm 128).
  - replace (len / 128 * 128 + 128) with ((len / 128 + 1) * 128) by lia. apply Z.mod_mul. lia.
  - replace (len / 128 * 128 + 256) with ((len / 128 + 2) * 128) by lia. apply Z.mod_mul. lia.
Qed.
End padding.

(** C18: [bl808_sec_eng_sha512_custom] is the SHA-512 construction for every
    message length: the two buffers of the code, with the 0x80 byte and the two
    halves of the bit length stored at computed offsets, hold the tail of the
    padded message of FIPS 180-4, one block or two as its length requires, and
    the digest is the truncated fold of the compression function over the padded
    message, from the given initial value. *)
Theorem sec_sha512_padded data iv digest_len :
  Z.of_nat (length data) < 2 ^ 64 →
  Z.of_nat (length (sha512_pad data)) mod 128 = 0 ∧
  bl808_sec_eng_sha512_custom data iv digest_len =
  take (Z.to_nat digest_len) (digest_bytes (sha512_fold iv (sha512_pad data))).
Proof. intros Hlen. split; [apply sha512_pad_length|by apply sha512_custom_pad]. Qed.

(** SHA-512/256 of "abc", from FIPS 180-4's examples. *)
Lemma sec_sha512_padded_witness :
  digest_bytes (sha512_fold sha512_256_iv (sha512_pad [0x61; 0x62; 0x63])) ≠ [] ∧
  be_to_cpu (bl808_sec_eng_sha512_custom [0x61; 0x62; 0x63] sha512_256_iv 32) =
  0x53048e2681941ef99b2e29b76b4c7dabe4c2d0c634fc6d46e0e2f13107e7af23.
Proof.
  split; [by vm_compute|].
  rewrite (proj2 (sec_sha512_padded [0x61; 0x62; 0x63] sha512_256_iv 32 ltac:(by vm_compute))).
  by vm_compute.
Defined.
