(* ===== verification/SecAesSpec.v ===== *)
(** * Security engine: the block modes of the AES unit

    The engine runs the CTR and XTS modes itself, on top of the ECB mode of the
    cipher library.  Against the interface [EcbLaws] of that library the loops are
    proved to compute the modes as NIST SP 800-38A and IEEE 1619 define them, on
    128-bit numbers and polynomials, and decryption is proved to undo encryption
    in guest memory. *)

From S2P Require Import Prelude Qemu SecHash SecHashSpec SecEng.
From stdpp Require Import prelude list.
From Stdlib Require Import ZArith Lia.
Local Open Scope Z_scope.
Import BL808SecEng.

(** ** Buffers as numbers *)

(** A block: sixteen bytes. *)
Definition is_block (b : list Z) : Prop := length b = 16%nat ∧ Forall (uint 8) b.

Lemma block_number b : is_block b → cpu_to_le 16 (le_to_cpu b) = b.
Proof. intros [Hl Hb]. rewrite <- Hl. by apply cpu_to_le_to_cpu. Qed.

Lemma number_block v : is_block (cpu_to_le 16 v).
Proof. split; [apply cpu_to_le_length|apply cpu_to_le_bytes]. Qed.

Lemma number_wrap v : cpu_to_le 16 (wrap 128 v) = cpu_to_le 16 v.
Proof. by apply cpu_to_le_wrap. Qed.

(** *** Increment *)

Lemma inc_unit_number bs : Forall (uint 8) bs →
  bl808_sec_eng_xts_inc_unit bs = cpu_to_le (length bs) (le_to_cpu bs + 1).
Proof.
  induction 1 as [|b bs Hb Hbs IH]; [done|]. cbn [bl808_sec_eng_xts_inc_unit length cpu_to_le le_to_cpu].
  unfold uint in Hb. rewrite Z.shiftr_div_pow2 by lia. unfold wrap in *.
  replace (b + 2 ^ 8 * le_to_cpu bs + 1) with (b + 1 + le_to_cpu bs * 2 ^ 8) by lia.
  rewrite Z.mod_add, Z.div_add by lia.
  destruct (decide (b = 255)) as [->|].
  - change ((255 + 1) mod 2 ^ 8) with 0. simpl negb. cbv iota. rewrite IH. f_equal. f_equal.
    change ((255 + 1) / 2 ^ 8) with 1. lia.
  - rewrite (Z.mod_small (b + 1)), (Z.div_small (b + 1)) by lia.
    destruct (Z.eqb_spec (b + 1) 0); [lia|]. simpl negb. cbv iota. f_equal. rewrite Z.add_0_l.
    by rewrite cpu_to_le_to_cpu.
Qed.

Lemma inc_unit_wrap u : bl808_sec_eng_xts_inc_unit (cpu_to_le 16 u) = cpu_to_le 16 (u + 1).
Proof.
  rewrite inc_unit_number by apply cpu_to_le_bytes. rewrite cpu_to_le_length, le_to_cpu_to_le.
  rewrite <- (number_wrap (u + 1)), <- number_wrap. f_equal. unfold wrap.
  by rewrite Z.add_mod_idemp_l by lia.
Qed.

Lemma ctr_inc_number u : ctr_inc (cpu_to_be 16 u) = cpu_to_be 16 (u + 1).
Proof. unfold ctr_inc, cpu_to_be. by rewrite reverse_involutive, inc_unit_wrap. Qed.

(** *** Multiplication by x *)

(** In GF(2^128) with the polynomial of IEEE 1619. *)
Definition gf_mul_x (t : Z) : Z :=
  Z.lxor (wrap 128 (Z.shiftl t 1)) (if Z.testbit t 127 then 0x87 else 0).

Definition bit (c : Z) : Prop := c = 0 ∨ c = 1.

Lemma xts_shift_number c bs : bit c → Forall (uint 8) bs →
  let '(r, co) := xts_shift c bs in
  bit co ∧ length r = length bs ∧ Forall (uint 8) r ∧
  le_to_cpu r + 2 ^ (8 * Z.of_nat (length bs)) * co = 2 * le_to_cpu bs + c.
Proof.
  intros Hc Hbs. revert c Hc. induction Hbs as [|b bs Hb Hbs IH]; intros c Hc.
  { cbn. split_and!; try done. lia. }
  cbn [xts_shift]. assert (0 ≤ b < 256) as Hb' by (by unfold uint in Hb; lia).
  assert (bit (Z.shiftr b 7)) as Hco.
  { rewrite Z.shiftr_div_pow2 by lia. change (2 ^ 7) with 128. unfold bit.
    pose proof (Z.div_mod b 128). pose proof (Z.mod_pos_bound b 128). lia. }
  specialize (IH _ Hco). destruct (xts_shift (Z.shiftr b 7) bs) as [r co]. destruct IH as (Hbc & Hl & Hr & He).
  cbn [length le_to_cpu]. split_and!; [done|by rewrite Hl|constructor; [apply uint_wrap; lia|done]|].
  replace (8 * Z.of_nat (S (length bs))) with (8 + 8 * Z.of_nat (length bs)) by lia.
  rewrite Z.pow_add_r by lia. rewrite lor_shiftl_add by (lia || (destruct Hc as [-> | ->]; done)).
  unfold wrap. change (2 ^ 1) with 2. change (2 ^ 8) with 256 in *. rewrite Z.shiftr_div_pow2 in He by lia.
  change (2 ^ 7) with 128 in He. pose proof (Z.div_mod b 128 ltac:(lia)). pose proof (Z.mod_pos_bound b 128 ltac:(lia)).
  assert ((b * 2 + c) mod 256 = b * 2 + c - 256 * (b / 128)) as ->.
  { symmetry. apply (Z.mod_unique_pos _ _ (b / 128)); [destruct Hc; lia|lia]. }
  nia.
Qed.

Lemma mul_x_number t : is_block t → bl808_sec_eng_xts_mul_x t = cpu_to_le 16 (gf_mul_x (le_to_cpu t)).
Proof.
  intros [Hl Ht]. unfold bl808_sec_eng_xts_mul_x.
  pose proof (xts_shift_number 0 t ltac:(by left) Ht) as H. destruct (xts_shift 0 t) as [r co].
  destruct H as (Hco & Hlr & Hr & He). rewrite Hl in Hlr, He.
  pose proof (le_to_cpu_bound t Ht) as Htb. pose proof (le_to_cpu_bound r Hr) as Hrb. rewrite Hl in Htb. rewrite Hlr in Hrb.
  change (8 * Z.of_nat 16) with 128 in *.
  assert (wrap 128 (Z.shiftl (le_to_cpu t) 1) = le_to_cpu r) as Hw.
  { unfold wrap. rewrite Z.shiftl_mul_pow2 by lia. symmetry. apply (Z.mod_unique_pos _ _ co); [apply Hrb|lia]. }
  assert (Z.testbit (le_to_cpu t) 127 = negb (co =? 0)) as Hb.
  { rewrite Z.testbit_odd, Z.shiftr_div_pow2 by lia. unfold uint in *.
    assert (le_to_cpu t / 2 ^ 127 = co) as ->; [|by destruct Hco as [-> | ->]].
    symmetry. apply (Z.div_unique_pos _ _ _ (le_to_cpu t - 2 ^ 127 * co)); destruct Hco; lia. }
  unfold gf_mul_x. rewrite Hw, Hb. destruct (negb (co =? 0)); [|by rewrite Z.lxor_0_r, block_number].
  destruct r as [|b0 r]; [done|]. apply Forall_cons in Hr as [Hb0 Hr]. injection Hlr as Hlr.
  change (aset (b0 :: r) 0 (Z.lxor ((b0 :: r) !% 0) 0x87)) with (Z.lxor b0 0x87 :: r).
  cbn [le_to_cpu]. assert (uint 8 (Z.lxor b0 0x87)) as Hx by (by apply uint_lxor).
  rewrite <- (block_number (Z.lxor b0 135 :: r)) by (split; [simpl; lia|by constructor]). f_equal. cbn [le_to_cpu].
  assert (∀ b, uint 8 b → b + 2 ^ 8 * le_to_cpu r = Z.lor (Z.shiftl (le_to_cpu r) 8) b) as Hs.
  { intros b Hb8. rewrite lor_shiftl_add by (done || lia). lia. }
  rewrite !Hs by done. apply Z.bits_inj'. intros i Hi. rewrite Z.lxor_spec, !Z.lor_spec, Z.lxor_spec.
  destruct (decide (i < 8)); [by rewrite Z.shiftl_spec_low by lia|].
  rewrite (uint_testbit_high 8 135 i) by (done || lia). by rewrite !xorb_false_r.
Qed.

Lemma gf_mul_x_uint t : uint 128 (gf_mul_x t).
Proof. unfold gf_mul_x. apply uint_lxor; [lia|apply uint_wrap; lia|by destruct (Z.testbit t 127)]. Qed.

Lemma gf_mul_x_congr t : uint 128 t → congr (modulus 128 0x87) (Z.shiftl t 1) (gf_mul_x t).
Proof.
  intros Ht. exists [Z.testbit t 127]. cbn [clmul]. rewrite Z.shiftl_0_l, Z.lxor_0_r. unfold gf_mul_x.
  apply Z.bits_inj'. intros i Hi. rewrite !Z.lxor_spec, wrap_testbit, Z.shiftl_spec by lia.
  destruct (Z.testbit t 127) eqn:Hb; rewrite ?Z.bits_0, ?xorb_false_r.
  - unfold modulus. rewrite Z.lxor_spec, BIT_spec by lia. destruct (Z.ltb_spec i 128).
    + destruct (Z.eqb_spec 128 i); [lia|]. rewrite andb_true_r. by destruct (Z.testbit t (i - 1)), (Z.testbit 135 i).
    + rewrite andb_false_r, (uint_testbit_high 128 0x87 i) by (done || lia). destruct (Z.eqb_spec 128 i) as [<-|].
      * change (128 - 1) with 127. by rewrite Hb.
      * by rewrite (uint_testbit_high 128 t) by (done || lia).
  - destruct (Z.ltb_spec i 128); [rewrite andb_true_r; by destruct (Z.testbit t (i - 1))|].
    rewrite andb_false_r, xorb_false_r. destruct (decide (i = 128)) as [->|]; [done|].
    apply (uint_testbit_high 128); lia || done.
Qed.

(** [j] multiplications give the remainder of the product with [x^j]. *)
Lemma gf_mul_x_iter t j : uint 128 t →
  remainder 128 (modulus 128 0x87) (Z.shiftl t (Z.of_nat j)) (Nat.iter j gf_mul_x t).
Proof.
  intros Ht. assert (uint 128 (Nat.iter j gf_mul_x t)) as Hu.
  { destruct j; [done|]. apply gf_mul_x_uint. }
  apply congr_remainder; [done|]. clear Hu. induction j as [|j IH]; [by rewrite Z.shiftl_0_r|].
  replace (Z.of_nat (S j)) with (Z.of_nat j + 1) by lia. rewrite <- Z.shiftl_shiftl by lia.
  etransitivity; [by apply congr_double|]. simpl Nat.iter. apply gf_mul_x_congr.
  destruct j; [done|]. apply gf_mul_x_uint.
Qed.

(** ** The cipher library *)

Definition aes_key_len (alg : QCryptoCipherAlgo) : Z :=
  match alg with
  | QCRYPTO_CIPHER_ALGO_AES_128 => 16
  | QCRYPTO_CIPHER_ALGO_AES_192 => 24
  | QCRYPTO_CIPHER_ALGO_AES_256 => 32
  end.

(** What the engine relies on of the ECB mode: it is there for the AES
    algorithms, a cipher object made with a key of the right length keeps that
    key, and it maps blocks to blocks, decryption undoing encryption. *)
Class EcbLaws `{!QCrypto} := {
  block_enc : QCryptoCipherAlgo → list Z → list Z → list Z;
  block_dec : QCryptoCipherAlgo → list Z → list Z → list Z;
  ecb : QCryptoCipher → QCryptoCipherAlgo → list Z → Prop;
  ecb_supports alg : qcrypto_cipher_supports alg QCRYPTO_CIPHER_MODE_ECB = true;
  ecb_new alg key : Z.of_nat (length key) = aes_key_len alg →
    ∃ c, qcrypto_cipher_new alg QCRYPTO_CIPHER_MODE_ECB key = Some c ∧ ecb c alg key;
  ecb_encrypt c alg key b : ecb c alg key → is_block b →
    ∃ c', qcrypto_cipher_encrypt c b = Some (block_enc alg key b, c') ∧ ecb c' alg key;
  ecb_decrypt c alg key b : ecb c alg key → is_block b →
    ∃ c', qcrypto_cipher_decrypt c b = Some (block_dec alg key b, c') ∧ ecb c' alg key;
  block_enc_block alg key b : is_block b → is_block (block_enc alg key b);
  block_dec_block alg key b : is_block b → is_block (block_dec alg key b);
  block_dec_enc alg key b : is_block b → block_dec alg key (block_enc alg key b) = b;
}.

Lemma xor_bytes_block a b : is_block a → is_block b → is_block (xor_bytes a b).
Proof.
  intros [Hla Ha] [Hlb Hb]. unfold xor_bytes. split; [rewrite length_zip_with; lia|].
  clear Hla Hlb. revert b Hb. induction Ha as [|x a Hx Ha IH]; intros b Hb; [done|].
  destruct Hb; simpl; constructor; [by apply uint_lxor|by apply IH].
Qed.

Lemma xor_bytes_twice a b : length a = length b → xor_bytes (xor_bytes a b) b = a.
Proof.
  unfold xor_bytes. revert b. induction a as [|x a IH]; intros [|y b] Hl; try done. simpl in *.
  rewrite IH by lia. by rewrite Z.lxor_assoc, Z.lxor_nilpotent, Z.lxor_0_r.
Qed.

(** ** Writing blocks one after the other *)

(** [k] blocks of a message computed by [B], then the [n] blocks still to come. *)
Definition written (B : Z → list Z) (k n : Z) : list Z :=
  concat (B <$> seqZ 0 k) ++ replicate (Z.to_nat (16 * n)) 0.

Lemma concat_blocks_length (B : Z → list Z) k m : (∀ i, m ≤ i < m + k → length (B i) = 16%nat) → 0 ≤ k →
  Z.of_nat (length (concat (B <$> seqZ m k))) = 16 * k.
Proof.
  intros HB Hk. revert m HB. pattern k. apply natlike_ind; [done| |done]. clear k Hk.
  intros k Hk IH m HB. rewrite seqZ_cons by lia. rewrite fmap_cons. cbn [concat]. rewrite length_app, (HB m) by lia.
  replace (Z.pred (Z.succ k)) with k by lia. specialize (IH (Z.succ m)). rewrite Nat2Z.inj_add, IH; [lia|].
  intros i Hi. apply HB. lia.
Qed.

Lemma written_step (B : Z → list Z) k n : 0 ≤ k → 0 < n → (∀ i, 0 ≤ i < k → length (B i) = 16%nat) →
  length (B k) = 16%nat → memcpy_at (written B k n) (16 * k) (B k) = written B (k + 1) (n - 1).
Proof.
  intros Hk Hn HB Hl. unfold written.
  replace (Z.to_nat (16 * n)) with (16 + Z.to_nat (16 * (n - 1)))%nat by lia. rewrite replicate_add.
  rewrite memcpy_at_app; [|by rewrite concat_blocks_length by (lia || (intros; apply HB; lia))|by rewrite length_replicate].
  rewrite seqZ_snoc by done. rewrite fmap_app, concat_app, Z.add_0_l. cbn [fmap list_fmap concat].
  by rewrite app_nil_r, <- app_assoc.
Qed.

Lemma slice_concat_blocks (B : Z → list Z) k i : 0 ≤ i < k → (∀ i, 0 ≤ i < k → length (B i) = 16%nat) →
  slice (concat (B <$> seqZ 0 k)) (16 * i) 16 = B i.
Proof.
  intros Hi HB. replace k with (i + (1 + (k - i - 1))) by lia. rewrite !seqZ_app by lia.
  rewrite !fmap_app, !concat_app, Z.add_0_l. cbn [fmap list_fmap].
  assert (Z.of_nat (length (concat (B <$> seqZ 0 i))) = 16 * i) as Hl.
  { apply concat_blocks_length; [intros; apply HB; lia|lia]. }
  rewrite slice_app_r by lia. rewrite Hl, Z.sub_diag. rewrite (seqZ_cons i 1) by lia. change (seqZ (Z.succ i) (Z.pred 1)) with ([] : list Z). cbn [fmap list_fmap concat].
  rewrite app_nil_r, slice_app_l by (rewrite ?HB; lia). unfold slice. simpl drop. apply take_ge. rewrite HB; lia.
Qed.

Lemma concat_slices l n : Z.of_nat (length l) = 16 * n → concat ((λ i, slice l (16 * i) 16) <$> seqZ 0 n) = l.
Proof.
  intros Hl. assert (0 ≤ n) as Hn by lia. revert l Hl. pattern n. apply natlike_ind; [by intros [|]| |done]. clear n Hn.
  intros n Hn IH l Hl. rewrite <- Z.add_1_l, seqZ_app by lia. rewrite fmap_app, concat_app.
  transitivity (take 16 l ++ drop 16 l); [f_equal|apply take_drop].
  - change (seqZ 0 1) with [0]. cbn [fmap list_fmap concat]. by rewrite app_nil_r.
  - rewrite <- (IH (drop 16 l)) at 1 by (rewrite length_drop; lia).
    replace (seqZ (0 + 1) n) with (Z.add 1 <$> seqZ 0 n) by (rewrite fmap_add_seqZ; done).
    rewrite <- list_fmap_compose. f_equal. apply list_fmap_ext. intros j i Hi. apply lookup_seqZ in Hi as [-> ?].
    unfold slice, compose. rewrite drop_drop. do 2 f_equal. lia.
Qed.

Lemma slice_block l i n : Forall (uint 8) l → Z.of_nat (length l) = 16 * n → 0 ≤ i < n → is_block (slice l (16 * i) 16).
Proof.
  intros Hl Hn Hi. split; [apply Nat2Z.inj, slice_size; lia|]. unfold slice. by apply Forall_take, Forall_drop.
Qed.

Section modes.
Context `{Q : !QCrypto} `{L : !EcbLaws}.

(** *** Counter mode *)

(** Block [i] of the CTR mode: the input xor the encrypted counter, a big-endian
    128-bit number. *)
Definition ctr_block (alg : QCryptoCipherAlgo) (key : list Z) (counter : Z) (inp : list Z) (i : Z) : list Z :=
  xor_bytes (slice inp (16 * i) 16) (block_enc alg key (cpu_to_be 16 (counter + i))).

Lemma counter_block v : is_block (cpu_to_be 16 v).
Proof. split; [apply cpu_to_be_length|]. unfold cpu_to_be. apply Forall_reverse, cpu_to_le_bytes. Qed.

Lemma ctr_loop_spec alg key counter inp total : Forall (uint 8) inp → Z.of_nat (length inp) = 16 * total →
  ∀ n k cipher, ecb cipher alg key → 0 ≤ k → Z.of_nat n = total - k →
  ctr_loop n cipher (cpu_to_be 16 (counter + k)) inp (written (ctr_block alg key counter inp) k (total - k)) (16 * k)
  = Some (concat (ctr_block alg key counter inp <$> seqZ 0 total)).
Proof.
  intros Hi Hl. assert (∀ i, 0 ≤ i < total → length (ctr_block alg key counter inp i) = 16%nat) as HB.
  { intros i Hr. apply xor_bytes_block; [by apply (slice_block inp i total)|].
    apply block_enc_block, counter_block. }
  induction n as [|n IH]; intros k cipher Hc Hk Hn; cbn [ctr_loop].
  - replace (total - k) with 0 by lia. unfold written. rewrite app_nil_r. by replace k with total by lia.
  - destruct (ecb_encrypt cipher alg key (cpu_to_be 16 (counter + k)) Hc (counter_block _)) as (c' & He & Hc').
    rewrite He. cbn [mbind option_bind]. fold (ctr_block alg key counter inp k).
    rewrite written_step; [|lia..|intros; apply HB; lia|apply HB; lia].
    rewrite ctr_inc_number. replace (16 * k + 16) with (16 * (k + 1)) by lia.
    replace (counter + k + 1) with (counter + (k + 1)) by lia.
    replace (total - k - 1) with (total - (k + 1)) by lia. by apply IH; [|lia..].
Qed.

(** *** XTS mode *)

(** The tweak of block [i] when a data unit has [unit] blocks: the encrypted
    number of the data unit, multiplied by [x] once per block of the unit. *)
Definition xts_tweak (alg : QCryptoCipherAlgo) (key2 : list Z) (iv unit i : Z) : list Z :=
  cpu_to_le 16 (Nat.iter (Z.to_nat (i mod unit)) gf_mul_x
                  (le_to_cpu (block_enc alg key2 (cpu_to_le 16 (iv + i / unit))))).

Definition xts_block (dec : bool) (alg : QCryptoCipherAlgo) (key1 key2 : list Z) (iv unit : Z) (inp : list Z)
    (i : Z) : list Z :=
  let t := xts_tweak alg key2 iv unit i in
  xor_bytes ((if dec then block_dec else block_enc) alg key1 (xor_bytes (slice inp (16 * i) 16) t)) t.

Lemma xts_tweak_block alg key2 iv unit i : is_block (xts_tweak alg key2 iv unit i).
Proof. apply number_block. Qed.

Lemma xts_block_block dec alg key1 key2 iv unit inp i n :
  Forall (uint 8) inp → Z.of_nat (length inp) = 16 * n → 0 ≤ i < n →
  is_block (xts_block dec alg key1 key2 iv unit inp i).
Proof.
  intros Hi Hl Hr. apply xor_bytes_block; [|apply xts_tweak_block].
  assert (is_block (xor_bytes (slice inp (16 * i) 16) (xts_tweak alg key2 iv unit i))).
  { apply xor_bytes_block; [by apply (slice_block inp i n)|apply xts_tweak_block]. }
  destruct dec; [by apply block_dec_block|by apply block_enc_block].
Qed.

Section loop.
Context (dec : bool) (alg : QCryptoCipherAlgo) (key1 key2 : list Z) (iv unit : Z) (inp : list Z) (total : Z).
Context (Hin : Forall (uint 8) inp) (Hlen : Z.of_nat (length inp) = 16 * total) (Hunit : 0 < unit).

Let B := xts_block dec alg key1 key2 iv unit inp.
Let T := xts_tweak alg key2 iv unit.

Local Lemma B_length i : 0 ≤ i < total → length (B i) = 16%nat.
Proof using Hin Hlen. intros Hi. by apply (xts_block_block dec alg key1 key2 iv unit inp i total). Qed.

Local Lemma T_next i : 0 ≤ i → i mod unit + 1 < unit → bl808_sec_eng_xts_mul_x (T i) = T (i + 1).
Proof using Hin Hlen Hunit.
  intros Hi Hm. rewrite mul_x_number by apply xts_tweak_block. unfold T, xts_tweak.
  assert ((i + 1) mod unit = i mod unit + 1 ∧ (i + 1) / unit = i / unit) as [-> ->].
  { pose proof (Z.div_mod i unit ltac:(lia)). pose proof (Z.mod_pos_bound i unit ltac:(lia)). split.
    - symmetry. apply (Z.mod_unique_pos _ _ (i / unit)); lia.
    - symmetry. apply (Z.div_unique_pos _ _ _ (i mod unit + 1)); lia. }
  pose proof (Z.mod_pos_bound i unit ltac:(lia)).
  replace (Z.to_nat (i mod unit + 1)) with (S (Z.to_nat (i mod unit))) by lia. change (Nat.iter (S ?n) gf_mul_x ?x) with (gf_mul_x (Nat.iter n gf_mul_x x)). do 2 f_equal.
  rewrite le_to_cpu_to_le. apply wrap_small. change (8 * Z.of_nat 16) with 128.
  destruct (Z.to_nat (i mod unit)); [|apply gf_mul_x_uint].
  pose proof (le_to_cpu_bound (block_enc alg key2 (cpu_to_le 16 (iv + i / unit)))) as H2.
  destruct (block_enc_block alg key2 (cpu_to_le 16 (iv + i / unit)) (number_block _)) as [Hl Hb].
  rewrite Hl in H2. by apply H2.
Qed.

(** Within one data unit. *)
Lemma xts_blocks_spec n k cipher : ecb cipher alg key1 → 0 ≤ k → k + Z.of_nat n ≤ total →
  k mod unit + Z.of_nat n ≤ unit →
  ∃ cipher', xts_blocks n dec cipher (T k) inp (written B k (total - k)) (16 * k) =
    Some (written B (k + Z.of_nat n) (total - (k + Z.of_nat n)), 16 * (k + Z.of_nat n), cipher') ∧
    ecb cipher' alg key1.
Proof using Hin Hlen Hunit.
  revert k cipher. induction n as [|n IH]; intros k cipher Hc Hk Hn Hu; cbn [xts_blocks].
  { exists cipher. rewrite !Z.add_0_r. done. }
  assert (is_block (xor_bytes (slice inp (16 * k) 16) (T k))) as Hb.
  { apply xor_bytes_block; [apply (slice_block inp k total); [done..|lia]|apply xts_tweak_block]. }
  assert (∃ c', (if dec then qcrypto_cipher_decrypt cipher (xor_bytes (slice inp (16 * k) 16) (T k))
                 else qcrypto_cipher_encrypt cipher (xor_bytes (slice inp (16 * k) 16) (T k))) =
    Some ((if dec then block_dec else block_enc) alg key1 (xor_bytes (slice inp (16 * k) 16) (T k)), c') ∧
    ecb c' alg key1) as (c' & -> & Hc').
  { destruct dec; [by apply ecb_decrypt|by apply ecb_encrypt]. }
  cbn [mbind option_bind].
  assert (memcpy_at (written B k (total - k)) (16 * k)
    (xor_bytes ((if dec then block_dec else block_enc) alg key1 (xor_bytes (slice inp (16 * k) 16) (T k))) (T k)) =
    written B (k + 1) (total - (k + 1))) as ->.
  { fold (xts_block dec alg key1 key2 iv unit inp k). fold (B k).
    rewrite written_step; [f_equal; lia|lia..|intros; apply B_length; lia|apply B_length; lia]. }
  replace (16 * k + 16) with (16 * (k + 1)) by lia.
  replace (k + Z.of_nat (S n)) with (k + 1 + Z.of_nat n) in * by lia.
  destruct n as [|n]; [exists c'; split; [|done]; cbn [xts_blocks]; rewrite !Z.add_0_r; done|].
  rewrite T_next by lia. apply IH; [done|lia..|].
  assert ((k + 1) mod unit = k mod unit + 1) as ->; [|lia].
  pose proof (Z.div_mod k unit ltac:(lia)). pose proof (Z.mod_pos_bound k unit ltac:(lia)).
  symmetry. apply (Z.mod_unique_pos _ _ (k / unit)); lia.
Qed.

Lemma T_first u : 0 ≤ u → T (u * unit) = block_enc alg key2 (cpu_to_le 16 (iv + u)).
Proof using Hin Hlen Hunit.
  intros Hu. unfold T, xts_tweak. rewrite Z.mod_mul, Z.div_mul by lia. simpl Nat.iter.
  apply block_number, block_enc_block, number_block.
Qed.

Lemma written_all : written B total 0 = concat (B <$> seqZ 0 total).
Proof using. unfold written. apply app_nil_r. Qed.

(** All the data units from number [u] on. *)
Lemma xts_units_spec (single : bool) unit_blocks fuel u crypt_cipher tweak_cipher :
  unit = (if single then total else unit_blocks) →
  ecb crypt_cipher alg key1 → ecb tweak_cipher alg key2 → 0 ≤ u → u * unit < total → total - u * unit ≤ Z.of_nat fuel →
  xts_units fuel dec single total unit_blocks (16 * total) crypt_cipher tweak_cipher (cpu_to_le 16 (iv + u)) inp
    (written B (u * unit) (total - u * unit)) (16 * (u * unit)) = Some (concat (B <$> seqZ 0 total)).
Proof using Hin Hlen Hunit.
  intros Hue. revert u crypt_cipher tweak_cipher. induction fuel as [|fuel IH]; intros u cc tc Hcc Htc Hu Hk Hf; [lia|].
  cbn [xts_units]. destruct (Z.ltb_spec (16 * (u * unit)) (16 * total)); [|lia].
  destruct (ecb_encrypt tc alg key2 (cpu_to_le 16 (iv + u)) Htc (number_block _)) as (tc' & -> & Htc').
  cbn [mbind option_bind]. rewrite <- (T_first u Hu).
  set (blocks := if single then total else _).
  assert (blocks = Z.min unit (total - u * unit)) as ->.
  { subst blocks. replace (16 * total - 16 * (u * unit)) with ((total - u * unit) * 16) by lia.
    rewrite Z.div_mul by lia. destruct single; [|by rewrite Hue]. assert (u = 0) as -> by nia. lia. }
  set (n := Z.min unit (total - u * unit)). assert (0 < n) as Hn by lia.
  destruct (xts_blocks_spec (Z.to_nat n) (u * unit) cc Hcc) as (cc' & Hb & Hcc'); [lia..|rewrite Z.mod_mul; lia|].
  rewrite Hb. clear Hb. cbn [mbind option_bind]. rewrite Z2Nat.id by lia.
  destruct (decide (u * unit + n < total)) as [Hmore|].
  - destruct single; [exfalso; assert (u = 0) as -> by nia; lia|]. replace (u * unit + n) with ((u + 1) * unit) by lia.
    destruct (Z.ltb_spec (16 * ((u + 1) * unit)) (16 * total)); [|lia]. cbn [negb andb].
    rewrite inc_unit_wrap. replace (iv + u + 1) with (iv + (u + 1)) by lia. apply IH; [done..|lia|lia|lia].
  - replace (u * unit + n) with total by lia. rewrite Z.sub_diag, written_all.
    destruct fuel; cbn [xts_units]; by rewrite Z.ltb_irrefl.
Qed.

End loop.
End modes.

(** ** Runs on guest memory *)

Section runs.
Context {E : Type} `{!PhysMem E} `{R : !Ram (E := E)} `{Q : !QCrypto} `{L : !EcbLaws}.

(** The bytes of a range of guest memory. *)
Definition guest (e : E) (a n : Z) : list Z := ram e <$> seqZ a n.

Lemma guest_bytes e a n : Forall (uint 8) (guest e a n).
Proof. apply Forall_fmap, Forall_forall. intros x _. apply ram_byte. Qed.

Lemma guest_length e a n : 0 ≤ n → Z.of_nat (length (guest e a n)) = n.
Proof. intros. unfold guest. rewrite length_fmap, length_seqZ. lia. Qed.

Lemma read_guest_ram e a n : 0 ≤ n → ram_range a n → bl808_sec_eng_read_guest a n e = (guest e a n, e).
Proof.
  intros Hn Hr. unfold bl808_sec_eng_read_guest, guest. destruct (Z.eqb_spec n 0) as [->|]; [done|].
  rewrite ram_read; rewrite Z2Nat.id by lia; done.
Qed.

Lemma guest_write e a bs : Forall (uint 8) bs → ram_range a (Z.of_nat (length bs)) →
  guest (cpu_physical_memory_write a bs e) a (Z.of_nat (length bs)) = bs.
Proof.
  intros Hb Hr. unfold guest. apply list_eq. intros i. rewrite list_lookup_fmap.
  destruct (decide (i < length bs)%nat) as [Hi|].
  - rewrite lookup_seqZ_lt by lia. simpl. rewrite ram_write by done.
    rewrite decide_True by lia. replace (a + Z.of_nat i - a) with (Z.of_nat i) by lia. rewrite Nat2Z.id.
    by rewrite list_lookup_lookup_total_lt by done.
  - rewrite lookup_seqZ_ge by lia. symmetry. apply lookup_ge_None. lia.
Qed.

(** The message produced by a mode, and its input recovered from it. *)
Definition ctr_message (alg : QCryptoCipherAlgo) (key : list Z) (counter total : Z) (inp : list Z) : list Z :=
  concat (ctr_block alg key counter inp <$> seqZ 0 total).

Definition xts_message (dec : bool) (alg : QCryptoCipherAlgo) (key1 key2 : list Z) (iv unit total : Z)
    (inp : list Z) : list Z :=
  concat (xts_block dec alg key1 key2 iv unit inp <$> seqZ 0 total).

Lemma blocks_message (B : Z → list Z) total : 0 ≤ total → (∀ i, 0 ≤ i < total → is_block (B i)) →
  Z.of_nat (length (concat (B <$> seqZ 0 total))) = 16 * total ∧ Forall (uint 8) (concat (B <$> seqZ 0 total)).
Proof.
  intros Ht HB. split; [apply concat_blocks_length; [intros; by apply HB|done]|].
  apply Forall_concat, Forall_fmap, Forall_forall. intros i Hi%elem_of_seqZ. apply HB. lia.
Qed.

Lemma blocks_inverse (B B' : Z → list Z) inp total : 0 ≤ total → Z.of_nat (length inp) = 16 * total →
  (∀ i, 0 ≤ i < total → B' i = slice inp (16 * i) 16) → concat (B' <$> seqZ 0 total) = inp.
Proof.
  intros Ht Hl HB. rewrite <- (concat_slices inp total Hl) at 1. f_equal.
  apply list_fmap_ext. intros j i [-> ?]%lookup_seqZ. apply HB. lia.
Qed.

Lemma ctr_message_block alg key counter total inp i : Forall (uint 8) inp → Z.of_nat (length inp) = 16 * total →
  0 ≤ i < total → is_block (ctr_block alg key counter inp i).
Proof.
  intros Hi Hl Hr. apply xor_bytes_block; [by apply (slice_block inp i total)|].
  apply block_enc_block, counter_block.
Qed.

Lemma ctr_twice alg key counter total inp : 0 ≤ total → Forall (uint 8) inp → Z.of_nat (length inp) = 16 * total →
  ctr_message alg key counter total (ctr_message alg key counter total inp) = inp.
Proof.
  intros Ht Hi Hl. pose proof (λ i, ctr_message_block alg key counter total inp i Hi Hl) as HB.
  apply (blocks_inverse (ctr_block alg key counter inp)); [done..|].
  intros i Hr. unfold ctr_block at 1. unfold ctr_message.
  rewrite slice_concat_blocks; [|done|intros; by apply HB]. unfold ctr_block. apply xor_bytes_twice.
  destruct (slice_block inp i total Hi Hl Hr) as [-> _].
  by destruct (block_enc_block alg key (cpu_to_be 16 (counter + i)) (counter_block _)) as [-> _].
Qed.

Lemma xts_dec_enc alg key1 key2 iv unit total inp :
  0 ≤ total → Forall (uint 8) inp → Z.of_nat (length inp) = 16 * total →
  xts_message true alg key1 key2 iv unit total (xts_message false alg key1 key2 iv unit total inp) = inp.
Proof.
  intros Ht Hi Hl. pose proof (λ i, xts_block_block false alg key1 key2 iv unit inp i total Hi Hl) as HB.
  apply (blocks_inverse (xts_block false alg key1 key2 iv unit inp)); [done..|].
  intros i Hr. unfold xts_block at 1. unfold xts_message.
  rewrite slice_concat_blocks; [|done|intros; by apply HB]. unfold xts_block.
  set (T := xts_tweak alg key2 iv unit i). assert (is_block T) as HT by apply xts_tweak_block.
  pose proof (slice_block inp i total Hi Hl Hr) as Hs.
  pose proof (xor_bytes_block _ _ Hs HT) as Hx.
  rewrite (xor_bytes_twice (block_enc _ _ _)).
  - rewrite block_dec_enc by done. apply xor_bytes_twice. destruct Hs as [-> _], HT as [-> _]. done.
  - destruct (block_enc_block alg key1 _ Hx) as [-> _], HT as [-> _]. done.
Qed.

(** The data unit in force, in blocks. *)
Definition data_unit (unit_len : Z) (single : bool) (total : Z) : Z :=
  if single then total else if unit_len =? 0 then total else unit_len.

Lemma run_ctr ctrl src dst key alg iv unit_len single total e :
  bl808_sec_eng_aes_mode ctrl = Some QCRYPTO_CIPHER_MODE_CTR →
  Z.of_nat (length key) = aes_key_len alg → is_block iv → 0 ≤ total → ram_range src (16 * total) →
  bl808_sec_eng_run_aes_crypt ctrl src dst key alg iv unit_len single (16 * total) e =
  (true, cpu_physical_memory_write dst
           (ctr_message alg key (be_to_cpu iv) total (guest e src (16 * total))) e).
Proof.
  intros Hm Hk [Hil Hib] Ht Hr. unfold bl808_sec_eng_run_aes_crypt. rewrite Hm. unfold ctr_crypt.
  rewrite ecb_supports. cbn [negb]. destruct (ecb_new alg key Hk) as (c & -> & Hc). cbn iota.
  rewrite read_guest_ram by (done || lia). rewrite (Z.mul_comm 16), Z.div_mul by lia.
  pose proof (ctr_loop_spec alg key (be_to_cpu iv) (guest e src (16 * total)) total (guest_bytes _ _ _)
    (guest_length e src (16 * total) ltac:(lia)) (Z.to_nat total) 0 c Hc) as H.
  rewrite !Z.add_0_r, Z.sub_0_r, Z.mul_0_r in H. specialize (H ltac:(lia) ltac:(lia)).
  assert (cpu_to_be 16 (be_to_cpu iv) = iv) as Hiv.
  { unfold cpu_to_be, be_to_cpu. rewrite block_number; [apply reverse_involutive|].
    split; [by rewrite length_reverse|by apply Forall_reverse]. }
  rewrite Hiv in H. unfold written in H. change (concat (ctr_block _ _ _ _ <$> seqZ 0 0)) with ([] : list Z) in H.
  rewrite app_nil_l in H. rewrite (Z.mul_comm total). by rewrite H.
Qed.

Lemma run_xts ctrl src dst key alg iv unit_len single total e :
  bl808_sec_eng_aes_mode ctrl = Some QCRYPTO_CIPHER_MODE_XTS →
  Z.of_nat (length key) = 2 * aes_key_len alg → is_block iv → 0 < total → 0 ≤ unit_len → ram_range src (16 * total) →
  bl808_sec_eng_run_aes_crypt ctrl src dst key alg iv unit_len single (16 * total) e =
  (true, cpu_physical_memory_write dst
           (xts_message (tst ctrl SEC_ENG_SE_AES_0_DEC_EN) alg
              (slice key 0 (aes_key_len alg)) (slice key (aes_key_len alg) (aes_key_len alg))
              (le_to_cpu iv) (data_unit unit_len single total) total (guest e src (16 * total))) e).
Proof.
  intros Hm Hk Hiv Ht Hul Hr. unfold bl808_sec_eng_run_aes_crypt. rewrite Hm. unfold xts_ciphers.
  assert (0 < aes_key_len alg) as Hkl by (by destruct alg).
  rewrite Hk, ecb_supports. replace (2 * aes_key_len alg / 2) with (aes_key_len alg) by (rewrite Z.mul_comm, Z.div_mul; lia).
  assert (Z.land (2 * aes_key_len alg) 1 = 0) as -> by (by destruct alg).
  destruct (Z.eqb_spec (aes_key_len alg) 0); [lia|]. cbn [negb orb Z.eqb].
  destruct (ecb_new alg (slice key 0 (aes_key_len alg))) as (c1 & -> & Hc1); [rewrite slice_size; lia|].
  destruct (ecb_new alg (slice key (aes_key_len alg) (aes_key_len alg))) as (c2 & -> & Hc2); [rewrite slice_size; lia|].
  cbn [mbind option_bind]. rewrite read_guest_ram by (done || lia).
  replace (16 * total / 16) with total by (rewrite Z.mul_comm, Z.div_mul; lia).
  pose proof (xts_units_spec (tst ctrl SEC_ENG_SE_AES_0_DEC_EN) alg (slice key 0 (aes_key_len alg))
    (slice key (aes_key_len alg) (aes_key_len alg)) (le_to_cpu iv) (data_unit unit_len single total)
    (guest e src (16 * total)) total (guest_bytes _ _ _) (guest_length e src (16 * total) ltac:(lia))) as H.
  assert (0 < data_unit unit_len single total) as Hu.
  { unfold data_unit. destruct single; [done|]. destruct (Z.eqb_spec unit_len 0); lia. }
  specialize (H Hu single (if unit_len =? 0 then total else unit_len) (Z.to_nat total) 0 c1 c2).
  rewrite !Z.add_0_r, Z.mul_0_l, Z.sub_0_r, Z.mul_0_r, block_number in H by done.
  specialize (H ltac:(done) Hc1 Hc2 ltac:(lia) ltac:(lia) ltac:(lia)).
  unfold written in H. change (concat (xts_block _ _ _ _ _ _ _ <$> seqZ 0 0)) with ([] : list Z) in H.
  rewrite app_nil_l in H. by rewrite H.
Qed.
End runs.
