(* ===== verification/SecEngSpec.v ===== *)
(** * Security engine: registers, owners and interrupt lines

    Which registers each operation of the engine can change, the invariant of
    its state, and the theorem that the four interrupt lines always show the
    unmasked requests of the units that each security domain owns. *)

From S2P Require Import Prelude Qemu SecHash SecHashSpec SecEng.
From stdpp Require Import prelude list.
From Stdlib Require Import ZArith Lia.
Local Open Scope Z_scope.
Import BL808SecEng.

(** ** The register file *)

Definition regs_wf (s : BL808SecEngState) : Prop := length (regs s) = 1024%nat ∧ Forall (uint 32) (regs s).

Lemma aset_aget_decide (a : list Z) i j v : 0 ≤ i < Z.of_nat (length a) → 0 ≤ j →
  aset a i v !% j = if decide (i = j) then v else a !% j.
Proof. intros Hi Hj. case_decide as Hd; [subst; by apply aget_aset_eq|by apply aget_aset_ne; lia]. Qed.

Lemma uint_aget (a : list Z) i n : Forall (uint n) a → 0 < n → uint n (a !% i).
Proof.
  intros Ha Hn. unfold aget. destruct (decide (Z.to_nat i < length a)%nat) as [Hi|Hi].
  - eapply Forall_lookup_total_1; [done|by apply Hi].
  - rewrite list_lookup_total_alt, lookup_ge_None_2 by lia. simpl. unfold uint. change inhabitant with 1.
    split; [done|]. apply Z.pow_gt_1; lia.
Qed.

(** The generator of random numbers must not reach the state zero, which it does
    not leave. *)
Definition trng_ok (s : BL808SecEngState) : Prop := uint 64 (trng_state s) ∧ trng_state s ≠ 0.

(** [touches lo hi s s']: the registers of [s'] are those of [s] but for indices
    in [lo .. hi - 1]. *)
Record touches (lo hi : Z) (s s' : BL808SecEngState) : Prop := {
  touches_length : length (regs s') = length (regs s);
  touches_other i : 0 ≤ i → ¬ lo ≤ i < hi → regs s' !% i = regs s !% i;
  touches_uint : regs_wf s → Forall (uint 32) (regs s');
  touches_trng : trng_ok s → trng_ok s';
}.

#[export] Instance touches_refl lo hi : Reflexive (touches lo hi).
Proof. intros s. split; try done. by intros [_ ?]. Qed.

#[export] Instance touches_trans lo hi : Transitive (touches lo hi).
Proof.
  intros s1 s2 s3 [L1 O1 U1 T1] [L2 O2 U2 T2]. split; [congruence| | |tauto].
  - intros i Hi Hn. by rewrite O2, O1.
  - intros Hw. apply U2. split; [rewrite L1; apply Hw|by apply U1].
Qed.

Lemma touches_wf lo hi s s' : touches lo hi s s' → regs_wf s → regs_wf s'.
Proof. intros [L O U T] Hw. split; [rewrite L; apply Hw|by apply U]. Qed.

Lemma touches_set_reg lo hi s off v : lo ≤ off / 4 < hi → 0 ≤ lo → uint 32 v → touches lo hi s (set_reg s off v).
Proof.
  intros Ho Hlo Hv. unfold set_reg. split; simpl.
  - apply aset_length.
  - intros i Hi Hn. apply aget_aset_ne; lia.
  - intros [_ Hw]. unfold aset. by apply Forall_insert.
  - done.
Qed.

Lemma touches_reg lo hi s s' off : touches lo hi s s' → 0 ≤ off / 4 → ¬ lo ≤ off / 4 < hi → reg s' off = reg s off.
Proof. intros [L O U T] ??. unfold reg. by apply O. Qed.

Lemma reg_set_reg s off off' v : regs_wf s → 0 ≤ off / 4 < 1024 → 0 ≤ off' / 4 →
  reg (set_reg s off v) off' = if decide (off / 4 = off' / 4) then v else reg s off'.
Proof. intros [Hl _] Ho Ho'. unfold reg, set_reg. simpl. apply aset_aget_decide; [rewrite Hl|]; lia. Qed.

(** A loop that sets registers of a range. *)
Lemma touches_foldl lo hi (f : BL808SecEngState → Z → BL808SecEngState) l s :
  (∀ s i, i ∈ l → touches lo hi s (f s i)) → touches lo hi s (foldl f s l).
Proof.
  revert s. induction l as [|i l IH]; intros s H; [reflexivity|]. cbn [foldl].
  etransitivity; [apply H; by left|]. apply IH. intros s' j Hj. apply H. by right.
Qed.

Create HintDb regs.
#[export] Hint Resolve touches_set_reg : regs.
#[export] Hint Extern 1 (_ ≤ _ < _) => (vm_compute; split; congruence) : regs.
#[export] Hint Extern 1 (_ ≤ _) => (vm_compute; congruence) : regs.

(** ** Interrupt lines *)

(** A unit requests when its INT bit is set and its mask bit is not. *)
Definition requests (s : BL808SecEngState) (ctrl_off : Z) : bool :=
  Z.testbit (reg s ctrl_off) 8 && negb (Z.testbit (reg s ctrl_off) 11).

(** Domain [id] owns a unit when bit [1 + id] of its protection register is set. *)
Definition owns (s : BL808SecEngState) (prot_off id : Z) : bool := Z.testbit (reg s prot_off) (1 + id).

Definition shared_line (s : BL808SecEngState) (id : Z) : bool :=
  (requests s SEC_ENG_SE_SHA_0_CTRL_OFFSET && owns s SEC_ENG_SE_SHA_0_CTRL_PROT_OFFSET id) ||
  (requests s SEC_ENG_SE_AES_0_CTRL_OFFSET && owns s SEC_ENG_SE_AES_0_CTRL_PROT_OFFSET id) ||
  (requests s SEC_ENG_SE_TRNG_0_CTRL_0_OFFSET && owns s SEC_ENG_SE_TRNG_0_CTRL_PROT_OFFSET id) ||
  (requests s SEC_ENG_SE_PKA_0_CTRL_0_OFFSET && owns s SEC_ENG_SE_PKA_0_CTRL_PROT_OFFSET id) ||
  (requests s SEC_ENG_SE_GMAC_0_CTRL_0_OFFSET && owns s SEC_ENG_SE_GMAC_0_CTRL_PROT_OFFSET id).

Definition cdet_line (s : BL808SecEngState) (id : Z) : bool :=
  requests s SEC_ENG_SE_CDET_0_CTRL_0_OFFSET && owns s SEC_ENG_SE_CDET_0_CTRL_PROT_OFFSET id.

(** The levels the four lines should have. *)
Definition lines (s : BL808SecEngState) : list bool :=
  [shared_line s 1; shared_line s 0; cdet_line s 1; cdet_line s 0].

(** The summary register repeats the owner bits of the protection registers. *)
Definition pair_of (s : BL808SecEngState) (prot_off shift : Z) : Prop :=
  ∀ id, 0 ≤ id < 2 → Z.testbit (reg s SEC_ENG_SE_CTRL_PROT_RD_OFFSET) (shift + id) = owns s prot_off id.

Record owners_ok (s : BL808SecEngState) : Prop := {
  own_sha : pair_of s SEC_ENG_SE_SHA_0_CTRL_PROT_OFFSET 0;
  own_aes : pair_of s SEC_ENG_SE_AES_0_CTRL_PROT_OFFSET 2;
  own_trng : pair_of s SEC_ENG_SE_TRNG_0_CTRL_PROT_OFFSET 4;
  own_pka : pair_of s SEC_ENG_SE_PKA_0_CTRL_PROT_OFFSET 6;
  own_cdet : pair_of s SEC_ENG_SE_CDET_0_CTRL_PROT_OFFSET 8;
  own_gmac : pair_of s SEC_ENG_SE_GMAC_0_CTRL_PROT_OFFSET 10;
}.

Lemma request_test x : (Z.land x (Z.lor (BIT 8) (BIT 11)) =? BIT 8) = Z.testbit x 8 && negb (Z.testbit x 11).
Proof.
  destruct (Z.eqb_spec (Z.land x (Z.lor (BIT 8) (BIT 11))) (BIT 8)) as [H|H].
  - pose proof (f_equal (λ z, Z.testbit z 8) H) as H8. pose proof (f_equal (λ z, Z.testbit z 11) H) as H11.
    cbv beta in *. rewrite Z.land_spec, Z.lor_spec, !BIT_spec in H8, H11 by lia. simpl in H8, H11.
    rewrite andb_true_r in H8, H11. by rewrite H8, H11.
  - symmetry. apply not_true_iff_false. intros [H8 H11%negb_true_iff]%andb_true_iff. apply H.
    apply Z.bits_inj'. intros i Hi. rewrite Z.land_spec, Z.lor_spec, !BIT_spec by lia.
    destruct (Z.eqb_spec 8 i) as [<-|]; [by rewrite H8|]. destruct (Z.eqb_spec 11 i) as [<-|]; [by rewrite H11|].
    by rewrite andb_false_r.
Qed.

Lemma owner_bit s shift id : 0 ≤ shift → id = 0 ∨ id = 1 →
  negb (Z.land (bl808_sec_eng_owner_pair s shift) (BIT id) =? 0) =
  Z.testbit (reg s SEC_ENG_SE_CTRL_PROT_RD_OFFSET) (shift + id).
Proof.
  intros Hs Hid. fold (tst (bl808_sec_eng_owner_pair s shift) (BIT id)). rewrite tst_BIT by lia.
  unfold bl808_sec_eng_owner_pair. rewrite Z.land_spec, Z.shiftr_spec by lia.
  assert (Z.testbit 3 id = true) as -> by (by destruct Hid as [-> | ->]). rewrite andb_true_r. f_equal. lia.
Qed.

Lemma unit_requests_spec s off prot shift ids : pair_of s prot shift → 0 ≤ shift →
  unit_requests s off (BIT 8) (BIT 11) shift ids =
  (fst ids || (requests s off && owns s prot 0), snd ids || (requests s off && owns s prot 1)).
Proof.
  intros Hp Hs. unfold unit_requests, requests. rewrite request_test.
  destruct ids as [i0 i1]. simpl. destruct (Z.testbit _ 8 && negb _); simpl; [|by rewrite !orb_false_r].
  change 1 with (BIT 0) at 1. change 2 with (BIT 1). rewrite !owner_bit, !Hp by (lia || auto). done.
Qed.

Lemma update_irq_lines s : owners_ok s → bl808_sec_eng_update_irq s = s <| irq := lines s |>.
Proof.
  intros [O1 O2 O3 O4 O5 O6]. unfold bl808_sec_eng_update_irq.
  rewrite (unit_requests_spec s SEC_ENG_SE_AES_0_CTRL_OFFSET SEC_ENG_SE_AES_0_CTRL_PROT_OFFSET),
    (unit_requests_spec s SEC_ENG_SE_SHA_0_CTRL_OFFSET SEC_ENG_SE_SHA_0_CTRL_PROT_OFFSET),
    (unit_requests_spec s SEC_ENG_SE_TRNG_0_CTRL_0_OFFSET SEC_ENG_SE_TRNG_0_CTRL_PROT_OFFSET),
    (unit_requests_spec s SEC_ENG_SE_PKA_0_CTRL_0_OFFSET SEC_ENG_SE_PKA_0_CTRL_PROT_OFFSET),
    (unit_requests_spec s SEC_ENG_SE_GMAC_0_CTRL_0_OFFSET SEC_ENG_SE_GMAC_0_CTRL_PROT_OFFSET),
    (unit_requests_spec s SEC_ENG_SE_CDET_0_CTRL_0_OFFSET SEC_ENG_SE_CDET_0_CTRL_PROT_OFFSET) by (done || lia).
  unfold lines, shared_line, cdet_line. cbv zeta. cbn [fst snd].
  destruct (requests s SEC_ENG_SE_AES_0_CTRL_OFFSET && owns s SEC_ENG_SE_AES_0_CTRL_PROT_OFFSET 1),
    (requests s SEC_ENG_SE_AES_0_CTRL_OFFSET && owns s SEC_ENG_SE_AES_0_CTRL_PROT_OFFSET 0),
    (requests s SEC_ENG_SE_SHA_0_CTRL_OFFSET && owns s SEC_ENG_SE_SHA_0_CTRL_PROT_OFFSET 1),
    (requests s SEC_ENG_SE_SHA_0_CTRL_OFFSET && owns s SEC_ENG_SE_SHA_0_CTRL_PROT_OFFSET 0); reflexivity.
Qed.

(** ** Xorshift *)

Lemma xor_shiftr_nonzero n k x : 0 ≤ n → 0 < k → uint n x → x ≠ 0 → Z.lxor x (Z.shiftr x k) ≠ 0.
Proof.
  intros Hn Hk Hx Hne H%Z.lxor_eq. apply Hne. apply Z.bits_inj'. intros i Hi. rewrite Z.bits_0.
  assert (∀ m, (0 ≤ m → ∀ i, n - m ≤ i → 0 ≤ i → Z.testbit x i = false)) as Hb.
  { intros m Hm. pattern m. apply natlike_ind; [| |done]; clear m Hm.
    - intros j Hj Hj0. apply (uint_testbit_high n); done || lia.
    - intros m Hm IH j Hj Hj0. rewrite H, Z.shiftr_spec by lia. apply IH; lia. }
  apply (Hb n Hn); lia.
Qed.

Lemma xor_shiftl_nonzero n k x : 0 ≤ n → 0 < k → uint n x → x ≠ 0 → Z.lxor x (wrap n (Z.shiftl x k)) ≠ 0.
Proof.
  intros Hn Hk Hx Hne H%Z.lxor_eq. apply Hne. apply Z.bits_inj'. intros i Hi. rewrite Z.bits_0.
  assert (∀ m, (0 ≤ m → ∀ i, i < m → 0 ≤ i → Z.testbit x i = false)) as Hb.
  { intros m Hm. pattern m. apply natlike_ind; [| |done]; clear m Hm.
    - intros j Hj Hj0. lia.
    - intros m Hm IH j Hj Hj0. rewrite H, wrap_testbit, Z.shiftl_spec by lia.
      destruct (decide (j < k)); [by rewrite Z.testbit_neg_r by lia|]. rewrite IH by lia. done. }
  apply (Hb (i + 1)); lia.
Qed.

Lemma rand32_ok s : trng_ok s → let '(r, s') := bl808_sec_eng_rand32 s in trng_ok s' ∧ uint 32 r ∧ regs s' = regs s.
Proof.
  intros [Hu Hne]. unfold bl808_sec_eng_rand32.
  set (x1 := Z.lxor (trng_state s) _). assert (uint 64 x1 ∧ x1 ≠ 0) as [U1 N1].
  { split; [apply uint_lxor; [lia|done|]; apply uint_shiftr; lia || done|by apply (xor_shiftr_nonzero 64)]. }
  set (x2 := Z.lxor x1 _). assert (uint 64 x2 ∧ x2 ≠ 0) as [U2 N2].
  { split; [apply uint_lxor; [lia|done|]; apply uint_wrap; lia|by apply (xor_shiftl_nonzero 64)]. }
  set (x3 := Z.lxor x2 _). assert (uint 64 x3 ∧ x3 ≠ 0) as [U3 N3].
  { split; [apply uint_lxor; [lia|done|]; apply uint_shiftr; lia || done|by apply (xor_shiftr_nonzero 64)]. }
  split_and!; [done|apply uint_wrap; lia|done].
Qed.

(** ** What the operations touch *)

Lemma uint_int_bits ctrl value int c st : uint 32 ctrl → uint 32 int → uint 32 (int_bits ctrl value int c st).
Proof. intros. unfold int_bits. solve_uint. Qed.
#[export] Hint Resolve uint_int_bits : uint.

Lemma touches_clear_regs lo hi off n s : lo ≤ off / 4 → off / 4 + Z.of_nat n ≤ hi → 0 ≤ lo → off mod 4 = 0 →
  touches lo hi s (clear_regs s off n).
Proof.
  intros. unfold clear_regs. apply touches_foldl. intros s' i Hi%elem_of_seqZ. apply touches_set_reg; [|done..].
  rewrite Z.div_add by lia. lia.
Qed.

Lemma le_to_cpu_word bs : Forall (uint 8) bs → (length bs ≤ 4)%nat → uint 32 (le_to_cpu bs).
Proof.
  intros Hb Hl.
  apply (uint_weaken (8 * Z.of_nat (length bs))); [by apply le_to_cpu_bound|lia].
Qed.

Lemma slice_bytes l off n : Forall (uint 8) l → Forall (uint 8) (slice l off n).
Proof. intros. unfold slice. by apply Forall_take, Forall_drop. Qed.

Lemma slice_short (l : list Z) off n : (length (slice l off n) ≤ Z.to_nat n)%nat.
Proof. unfold slice. rewrite length_take. lia. Qed.

Lemma memcpy_bytes buf off bs : Forall (uint 8) buf → Forall (uint 8) bs → Forall (uint 8) (memcpy_at buf off bs).
Proof. intros. unfold memcpy_at. rewrite !Forall_app. split_and!; [by apply Forall_take|done|by apply Forall_drop]. Qed.

Lemma zeros_bytes n : Forall (uint 8) (replicate n 0).
Proof. by apply Forall_replicate. Qed.

Lemma touches_store_sha s ctrl digest : Forall (uint 8) digest → (length digest ≤ 64)%nat →
  touches 0 21 s (bl808_sec_eng_store_sha_output s ctrl digest).
Proof.
  intros Hb Hl. unfold bl808_sec_eng_store_sha_output. transitivity (bl808_sec_eng_clear_sha_output s).
  { apply (touches_clear_regs 0 21 SEC_ENG_SE_SHA_0_HASH_L_0_OFFSET 16); vm_compute; congruence. }
  generalize (bl808_sec_eng_clear_sha_output s). intros s0. destruct (negb _).
  - unfold bl808_sec_eng_store_words_le. apply touches_foldl. intros s' i Hi%elem_of_seqZ.
    apply touches_set_reg; [change SEC_ENG_SE_SHA_0_HASH_L_0_OFFSET with (4 * 4); rewrite Z.div_add, Z.div_mul by lia; lia|lia|].
    apply le_to_cpu_word; [|apply slice_short].
    apply slice_bytes, memcpy_bytes; [apply zeros_bytes|by apply slice_bytes].
  - apply touches_foldl. intros s' i Hi%elem_of_seqZ.
    assert (0 ≤ i < 16) as Hi16.
    { assert ((Z.of_nat (length digest) + 3) / 4 < 17) by (apply Z.div_lt_upper_bound; lia). lia. }
    assert (0 ≤ i / 2 < 8) by (split; [apply Z.div_pos|apply Z.div_lt_upper_bound]; lia).
    apply touches_set_reg; [|lia|].
    + destruct (Z.land i 1 =? 0).
      * change SEC_ENG_SE_SHA_0_HASH_H_0_OFFSET with (12 * 4). rewrite Z.div_add, Z.div_mul by lia. lia.
      * change SEC_ENG_SE_SHA_0_HASH_L_0_OFFSET with (4 * 4). rewrite Z.div_add, Z.div_mul by lia. lia.
    + apply le_to_cpu_word; [apply memcpy_bytes; [apply zeros_bytes|by apply slice_bytes]|].
      unfold memcpy_at. rewrite !length_app, length_take, length_drop, length_replicate.
      pose proof (slice_short digest (i * 4) (Z.min 4 (Z.of_nat (length digest) - i * 4))). lia.
Qed.

(** The digests of QEMU's hash layer: bytes, at most 64 of them. *)
Definition hash_digest_len (alg : QCryptoHashAlgo) : Z :=
  match alg with
  | QCRYPTO_HASH_ALGO_MD5 => 16 | QCRYPTO_HASH_ALGO_SHA1 => 20 | QCRYPTO_HASH_ALGO_SHA224 => 28
  | QCRYPTO_HASH_ALGO_SHA256 => 32 | QCRYPTO_HASH_ALGO_SHA384 => 48 | QCRYPTO_HASH_ALGO_SHA512 => 64
  end.

Class HashLaws `{!QCrypto} := {
  hash_digest alg data digest : qcrypto_hash_bytes alg data = Some digest →
    Z.of_nat (length digest) = hash_digest_len alg ∧ Forall (uint 8) digest;
}.

(** ** The invariant *)

(** The indices of the protection registers and of their summary. *)
Definition owner_index (i : Z) : bool :=
  (i =? 63) || (i =? 127) || (i =? 191) || (i =? 255) || (i =? 319) || (i =? 383) || (i =? 960).

(** Registers are words, the generator is alive, the summary register repeats the
    owners and the lines show the requests. *)
Record sec_ok (s : BL808SecEngState) : Prop := {
  ok_regs : regs_wf s;
  ok_trng : trng_ok s;
  ok_owners : owners_ok s;
  ok_lines : irq s = lines s;
}.

Definition spares_owners (lo hi : Z) : Prop := ∀ i, lo ≤ i < hi → owner_index i = false.

Lemma touches_owners lo hi s s' : touches lo hi s s' → spares_owners lo hi → owners_ok s → owners_ok s'.
Proof.
  intros Ht Hs [O1 O2 O3 O4 O5 O6].
  assert (∀ off, 0 ≤ off / 4 → owner_index (off / 4) = true → reg s' off = reg s off) as Hr.
  { intros off Ho Hi. apply (touches_reg lo hi); [done..|]. intros Hb%Hs. congruence. }
  split; intros id Hid; unfold owns; rewrite !Hr by (vm_compute; congruence || done);
    [by apply O1|by apply O2|by apply O3|by apply O4|by apply O5|by apply O6].
Qed.

(** A state change that ends in [bl808_sec_eng_update_irq] after touching only
    registers that are not owner registers keeps the invariant. *)
Definition completes (lo hi : Z) (s s' : BL808SecEngState) : Prop :=
  ∃ t, touches lo hi s t ∧ s' = bl808_sec_eng_update_irq t.

Lemma lines_updated s : regs_wf s → trng_ok s → owners_ok s → sec_ok (bl808_sec_eng_update_irq s).
Proof. intros R T O. rewrite update_irq_lines by done. destruct O. by split. Qed.

Lemma completes_ok lo hi s s' : spares_owners lo hi → sec_ok s → completes lo hi s s' → sec_ok s'.
Proof.
  intros Hs [R T O L] (t & Ht & ->). apply lines_updated.
  - by apply (touches_wf lo hi s t).
  - by apply Ht.
  - by apply (touches_owners lo hi s).
Qed.

Lemma touches_completes lo hi s t s' : touches lo hi s t → completes lo hi t s' → completes lo hi s s'.
Proof. intros Ht (u & Hu & ->). exists u. split; [by etransitivity|done]. Qed.

Lemma completes_weaken lo hi lo' hi' s s' : lo' ≤ lo → hi ≤ hi' → completes lo hi s s' → completes lo' hi' s s'.
Proof.
  intros Hl Hh (t & [L O U T] & ->). exists t. split; [|done]. split; [done| |done..]. intros i Hi Hn. apply O; lia.
Qed.

Section ops.
Context {E : Type} `{PM : !PhysMem E} `{QC : !QCrypto} `{GT : !GnuTLS} `{HL : !HashLaws}.

(** *** SHA *)

Lemma clear_sha_touches s : touches 0 21 s (bl808_sec_eng_clear_sha_output s).
Proof. apply (touches_clear_regs 0 21 SEC_ENG_SE_SHA_0_HASH_L_0_OFFSET 16); vm_compute; congruence. Qed.

Lemma crc_store_touches s crc w b1 b2 b3 : w = 16 ∨ w = 32 →
  touches 0 21 s (set_reg (bl808_sec_eng_clear_sha_output s) SEC_ENG_SE_SHA_0_HASH_L_0_OFFSET
                    (bl808_sec_eng_crc_finalize w crc b1 b2 b3)).
Proof.
  intros Hw. etransitivity; [apply clear_sha_touches|].
  apply touches_set_reg; [vm_compute; split; congruence|done|].
  apply (uint_weaken w); [apply finalize_uint; lia|lia].
Qed.

Lemma crc_direct_touches s ctrl e :
  let '(_, s', _) := bl808_sec_eng_run_crc_direct s ctrl e in touches 0 21 s s'.
Proof.
  unfold bl808_sec_eng_run_crc_direct.
  destruct (_ =? 2); [|destruct (_ =? 3)].
  - destruct (bl808_sec_eng_read_guest _ _ e) as [data e']. apply crc_store_touches. by left.
  - destruct (bl808_sec_eng_read_guest _ _ e) as [data e']. apply crc_store_touches. by right.
  - reflexivity.
Qed.

Lemma crc_link_touches s link ctrl e :
  let '(_, s', _) := bl808_sec_eng_run_crc_link s link ctrl e in touches 0 21 s s'.
Proof.
  unfold bl808_sec_eng_run_crc_link.
  repeat match goal with |- context [bl808_sec_eng_ldl ?a ?e] => destruct (bl808_sec_eng_ldl a e) as [? ?] end.
  destruct (_ =? 2); [|destruct (_ =? 3)].
  - destruct (bl808_sec_eng_read_guest _ _ _) as [data e']. apply crc_store_touches. by left.
  - destruct (bl808_sec_eng_read_guest _ _ _) as [data e']. apply crc_store_touches. by right.
  - reflexivity.
Qed.

Lemma finish_sha_completes s ctrl : uint 32 ctrl → completes 0 21 s (finish_sha s ctrl).
Proof.
  intros Hc. unfold finish_sha. eexists. split; [|reflexivity]. unfold bl808_sec_eng_complete_sha.
  assert (uint 32 (clr (clr ctrl SEC_ENG_SE_SHA_0_BUSY) SEC_ENG_SE_SHA_0_TRIG_1T)) as Hx by solve_uint.
  set (s1 := set_reg s _ 0). set (s2 := set_reg s1 _ _).
  assert (touches 0 21 s s1) as Ht1 by (apply touches_set_reg; by (vm_compute; repeat split; congruence)).
  assert (touches 0 21 s1 s2) as Ht2 by (apply touches_set_reg; [vm_compute; split; congruence|done..]).
  etransitivity; [exact Ht1|]. etransitivity; [exact Ht2|].
  split; simpl; [apply aset_length|intros i Hi Hn; apply aget_aset_ne; vm_compute (_ / _); lia| |done].
  intros [_ Hw]. apply Forall_insert; [done|]. apply uint_lor; [lia|by apply uint_aget|by vm_compute].
Qed.

Lemma accum_touches s buf : touches 0 21 s (bl808_sec_eng_sha_accum_append s buf).
Proof.
  unfold bl808_sec_eng_sha_accum_append. destruct (_ <? _); split; try done; by intros [_ ?].
Qed.

Lemma take_message_touches s ctrl src e : let '(s', _) := sha_take_message s ctrl src e in touches 0 21 s s'.
Proof.
  unfold sha_take_message. destruct (bl808_sec_eng_read_guest _ _ e) as [data e'].
  destruct (negb _); [|apply accum_touches]. etransitivity; [|apply accum_touches].
  split; try done; by intros [_ ?].
Qed.

Lemma sha512_custom_bytes data iv n :
  Forall (uint 8) (bl808_sec_eng_sha512_custom data iv n) ∧
  (length (bl808_sec_eng_sha512_custom data iv n) ≤ 64)%nat.
Proof.
  unfold bl808_sec_eng_sha512_custom. cbv zeta. rewrite full_digest.
  2: { destruct (_ =? 256); apply process_block_length. }
  set (st := if _ =? 256 then _ else _). assert (length st = 8%nat) as Hl.
  { subst st. destruct (_ =? 256); apply process_block_length. }
  clearbody st. unfold digest_bytes. split.
  - apply Forall_take, Forall_concat, Forall_fmap, Forall_forall. intros x _. unfold compose, cpu_to_be.
    apply Forall_reverse, cpu_to_le_bytes.
  - rewrite length_take.
    assert (∀ l, length (concat (cpu_to_be 8 <$> l)) = (8 * length l)%nat) as Hc.
    { induction l as [|x l IH]; [done|]. rewrite fmap_cons. cbn [concat]. rewrite length_app, IH, cpu_to_be_length.
      simpl. lia. }
    rewrite Hc, Hl. lia.
Qed.

Lemma sha_hash_bytes s ctrl digest : bl808_sec_eng_sha_hash s ctrl = Some digest →
  Forall (uint 8) digest ∧ (length digest ≤ 64)%nat.
Proof.
  assert (∀ alg d, qcrypto_hash_bytes alg (sha_accum s) = Some d → Forall (uint 8) d ∧ (length d ≤ 64)%nat) as H.
  { intros alg d [Hl Hb]%hash_digest. split; [done|]. destruct alg; simpl in Hl; lia. }
  unfold bl808_sec_eng_sha_hash, bl808_sec_eng_sha512_t_hash. intros Hd.
  repeat match type of Hd with context [if ?b then _ else _] => destruct b; try done; try by apply (H _ _ Hd) end;
    injection Hd as <-; apply sha512_custom_bytes.
Qed.

Lemma run_sha_completes s ctrl e : uint 32 ctrl →
  completes 0 21 s (fst (bl808_sec_eng_run_sha s ctrl e)).
Proof.
  intros Hc. unfold bl808_sec_eng_run_sha. destruct (tst ctrl _).
  - destruct (bl808_sec_eng_ldl _ e) as [wc e1]. destruct (_ || _).
    + pose proof (crc_link_touches s (reg s SEC_ENG_SE_SHA_0_LINK_OFFSET) wc e1) as H.
      destruct (bl808_sec_eng_run_crc_link _ _ _ _) as [[ok s1] e2]. simpl.
      apply (touches_completes 0 21 s s1 _ H). destruct ok; simpl; [by apply finish_sha_completes|].
      eapply touches_completes; [apply clear_sha_touches|by apply finish_sha_completes].
    + destruct (bl808_sec_eng_ldl _ e1) as [src e2].
      pose proof (take_message_touches s wc src e2) as H.
      destruct (sha_take_message s wc src e2) as [s1 e3]. destruct (bl808_sec_eng_sha_hash s1 wc) as [d|] eqn:Hd; simpl;
        apply (touches_completes 0 21 s s1 _ H).
      * apply sha_hash_bytes in Hd as [??].
        eapply touches_completes; [by apply touches_store_sha|by apply finish_sha_completes].
      * eapply touches_completes; [apply clear_sha_touches|by apply finish_sha_completes].
  - destruct (_ || _).
    + pose proof (crc_direct_touches s ctrl e) as H.
      destruct (bl808_sec_eng_run_crc_direct _ _ _) as [[ok s1] e2]. simpl.
      apply (touches_completes 0 21 s s1 _ H). destruct ok; simpl; [by apply finish_sha_completes|].
      eapply touches_completes; [apply clear_sha_touches|by apply finish_sha_completes].
    + pose proof (take_message_touches s ctrl (reg s SEC_ENG_SE_SHA_0_MSA_OFFSET) e) as H.
      destruct (sha_take_message s ctrl _ e) as [s1 e3]. simpl. apply (touches_completes 0 21 s s1 _ H).
      destruct (bl808_sec_eng_sha_hash s1 ctrl) as [d|] eqn:Hd.
      * apply sha_hash_bytes in Hd as [??].
        eapply touches_completes; [by apply touches_store_sha|by apply finish_sha_completes].
      * eapply touches_completes; [apply clear_sha_touches|by apply finish_sha_completes].
Qed.

(** *** AES *)

Lemma complete_aes_completes s ctrl : uint 32 ctrl → completes 64 68 s (bl808_sec_eng_complete_aes s ctrl).
Proof.
  intros Hc. unfold bl808_sec_eng_complete_aes. eexists. split; [|reflexivity].
  assert (uint 32 (clr (clr ctrl SEC_ENG_SE_AES_0_BUSY) SEC_ENG_SE_AES_0_TRIG_1T)) as Hx by solve_uint.
  set (s1 := set_reg s _ _).
  assert (touches 64 68 s s1) as Ht1 by (apply touches_set_reg; [vm_compute; split; congruence|done..]).
  etransitivity; [exact Ht1|]. etransitivity; [|apply touches_set_reg; [vm_compute; split; congruence|done|by vm_compute]].
  split; simpl; [apply aset_length|intros i Hi Hn; apply aget_aset_ne; vm_compute (_ / _); lia| |done].
  intros [_ Hw]. apply Forall_insert; [done|]. apply uint_lor; [lia|by apply uint_aget|by vm_compute].
Qed.

Lemma uint_aes_link_ctrl ctrl lc : uint 32 ctrl → uint 32 (aes_link_ctrl ctrl lc).
Proof.
  intros. unfold aes_link_ctrl. repeat (apply uint_lor; [lia| |]);
    [by apply uint_clr|apply uint_land_r; by vm_compute..|apply uint_if; by vm_compute|apply uint_land_r; by vm_compute].
Qed.

Lemma crypt_and_complete_completes s ctrl src dst key iv unit e : uint 32 ctrl →
  completes 64 68 s (fst (aes_crypt_and_complete s ctrl src dst key iv unit e)).
Proof.
  intros Hc. unfold aes_crypt_and_complete. destruct (_ =? 0); [by apply complete_aes_completes|].
  destruct (bl808_sec_eng_run_aes_crypt _ _ _ _ _ _ _ _ _ _). by apply complete_aes_completes.
Qed.

Lemma run_aes_completes s ctrl e : uint 32 ctrl → completes 64 68 s (fst (bl808_sec_eng_run_aes s ctrl e)).
Proof.
  intros Hc. unfold bl808_sec_eng_run_aes. destruct (tst ctrl _).
  - destruct (bl808_sec_eng_ldl _ e) as [lc e1].
    pose proof (uint_aes_link_ctrl ctrl lc Hc) as Hlc.
    destruct (bl808_sec_eng_aes_mode _); [|by apply complete_aes_completes].
    destruct (if tst lc _ then _ else _) as [[key|] e2]; [|by apply complete_aes_completes].
    destruct (ldl_words _ _ _ e2) as [iv e3]. destruct (if _ =? 3 then _ else _) as [unit e4].
    destruct (bl808_sec_eng_ldl _ e4) as [src e5]. destruct (bl808_sec_eng_ldl _ e5) as [dst e6].
    by apply crypt_and_complete_completes.
  - destruct (if tst ctrl _ then _ else _) as [key|]; [|by apply complete_aes_completes].
    by apply crypt_and_complete_completes.
Qed.

(** *** The other units *)

Lemma run_trng_completes s ctrl : uint 32 ctrl → completes 128 139 s (bl808_sec_eng_run_trng s ctrl).
Proof.
  intros Hc. unfold bl808_sec_eng_run_trng. eexists. split; [|reflexivity].
  assert (uint 32 (Z.lor (clr ctrl (Z.lor SEC_ENG_SE_TRNG_0_BUSY SEC_ENG_SE_TRNG_0_TRIG_1T)) SEC_ENG_SE_TRNG_0_INT)) as Hx
    by solve_uint.
  etransitivity; [|apply touches_set_reg; [vm_compute; split; congruence|done..]].
  etransitivity; [|apply touches_set_reg; [vm_compute; split; congruence|done|by vm_compute]].
  apply touches_foldl. intros t i Hi%elem_of_seqZ.
  unfold bl808_sec_eng_rand32 at 1. set (r := u32 _). assert (uint 32 r) as Hr by (apply uint_wrap; lia).
  etransitivity; [|apply touches_set_reg;
    [change SEC_ENG_SE_TRNG_0_DOUT_0_OFFSET with (130 * 4); rewrite Z.div_add, Z.div_mul by lia; lia|done|exact Hr]].
  split; try done; [by intros [_ ?]|]. intros Hok. by apply (rand32_ok t) in Hok as [? _].
Qed.

(** A write to a control register: keep the value, then update the lines. *)
Lemma set_ctrl_completes lo hi s off ctrl : lo ≤ off / 4 < hi → 0 ≤ lo → uint 32 ctrl →
  completes lo hi s (bl808_sec_eng_update_irq (set_reg s off ctrl)).
Proof. intros. eexists. split; [|reflexivity]. by apply touches_set_reg. Qed.

(** The interrupt bits and the bits a write keeps or takes. *)
Lemma uint_written old value keep int c st : uint 32 old → uint 32 value → uint 32 int →
  uint 32 (int_bits (Z.lor (clr old keep) (Z.land value keep)) value int c st).
Proof. intros. solve_uint. Qed.

Lemma write_sha_completes s value e : regs_wf s → uint 32 value →
  completes 0 21 s (fst (bl808_sec_eng_write_sha s value e)).
Proof.
  intros [_ Hw] Hv. unfold bl808_sec_eng_write_sha.
  pose proof (uint_written (reg s SEC_ENG_SE_SHA_0_CTRL_OFFSET) value sha_ctrl_bits SEC_ENG_SE_SHA_0_INT
    SEC_ENG_SE_SHA_0_INT_CLR_1T SEC_ENG_SE_SHA_0_INT_SET_1T ltac:(by apply uint_aget) Hv ltac:(by vm_compute)) as Hc.
  set (ctrl := int_bits _ _ _ _ _) in *. clearbody ctrl. cbv zeta. destruct (tst value _).
  - assert (uint 32 (Z.lor ctrl SEC_ENG_SE_SHA_0_BUSY)) as Hb by solve_uint.
    eapply touches_completes; [|by apply run_sha_completes].
    apply touches_set_reg; [vm_compute; split; congruence|done..].
  - apply set_ctrl_completes; [vm_compute; split; congruence|done|solve_uint].
Qed.

Lemma write_aes_completes s value e : regs_wf s → uint 32 value →
  completes 64 68 s (fst (bl808_sec_eng_write_aes s value e)).
Proof.
  intros [_ Hw] Hv. unfold bl808_sec_eng_write_aes.
  pose proof (uint_written (reg s SEC_ENG_SE_AES_0_CTRL_OFFSET) value aes_ctrl_bits SEC_ENG_SE_AES_0_INT
    SEC_ENG_SE_AES_0_INT_CLR_1T SEC_ENG_SE_AES_0_INT_SET_1T ltac:(by apply uint_aget) Hv ltac:(by vm_compute)) as Hc.
  set (ctrl := int_bits _ _ _ _ _) in *. clearbody ctrl. cbv zeta. destruct (tst value _).
  - assert (uint 32 (Z.lor ctrl SEC_ENG_SE_AES_0_BUSY)) as Hb by solve_uint.
    eapply touches_completes; [|by apply run_aes_completes].
    apply touches_set_reg; [vm_compute; split; congruence|done..].
  - apply set_ctrl_completes; [vm_compute; split; congruence|done|solve_uint].
Qed.

Lemma write_trng_completes s value : regs_wf s → uint 32 value →
  completes 128 139 s (bl808_sec_eng_write_trng s value).
Proof.
  intros [_ Hw] Hv. unfold bl808_sec_eng_write_trng. cbv zeta.
  set (keep := Z.lor SEC_ENG_SE_TRNG_0_EN SEC_ENG_SE_TRNG_0_INT_MASK).
  pose proof (uint_written (reg s SEC_ENG_SE_TRNG_0_CTRL_0_OFFSET) value keep SEC_ENG_SE_TRNG_0_INT
    SEC_ENG_SE_TRNG_0_INT_CLR_1T SEC_ENG_SE_TRNG_0_INT_SET_1T ltac:(by apply uint_aget) Hv ltac:(by vm_compute)) as Hc.
  set (ctrl := int_bits _ _ _ _ _) in *. clearbody ctrl.
  apply (touches_completes _ _ _ (if tst value SEC_ENG_SE_TRNG_0_DOUT_CLR_1T
           then clear_regs s SEC_ENG_SE_TRNG_0_DOUT_0_OFFSET 8 else s)).
  { destruct (tst value _); [|reflexivity]. apply touches_clear_regs; vm_compute; congruence. }
  generalize (if tst value SEC_ENG_SE_TRNG_0_DOUT_CLR_1T then clear_regs s SEC_ENG_SE_TRNG_0_DOUT_0_OFFSET 8 else s).
  intros t. destruct (_ && _).
  - assert (uint 32 (Z.lor ctrl SEC_ENG_SE_TRNG_0_BUSY)) as Hb by solve_uint.
    eapply touches_completes; [|by apply run_trng_completes].
    apply touches_set_reg; [vm_compute; split; congruence|done..].
  - apply set_ctrl_completes; [vm_compute; split; congruence|done|solve_uint].
Qed.

Lemma write_pka_completes s value : regs_wf s → uint 32 value →
  completes 192 193 s (bl808_sec_eng_write_pka s value).
Proof.
  intros [_ Hw] Hv. assert (uint 32 (reg s SEC_ENG_SE_PKA_0_CTRL_0_OFFSET)) as Hr by by apply uint_aget.
  unfold bl808_sec_eng_write_pka. cbv zeta. apply set_ctrl_completes; [vm_compute; split; congruence|done|].
  apply uint_clr; [lia|]. apply uint_if; [apply uint_lor; [lia| |by vm_compute]|];
    (apply uint_int_bits; [|by vm_compute]; apply uint_if; solve_uint).
Qed.

Lemma write_cdet_completes s value : regs_wf s → uint 32 value →
  completes 256 257 s (bl808_sec_eng_write_cdet s value).
Proof.
  intros [_ Hw] Hv. assert (uint 32 (reg s SEC_ENG_SE_CDET_0_CTRL_0_OFFSET)) as Hr by by apply uint_aget.
  unfold bl808_sec_eng_write_cdet. cbv zeta. apply set_ctrl_completes; [vm_compute; split; congruence|done|].
  apply uint_if; [apply uint_lor; [lia| |by vm_compute]|]; (apply uint_clr; [lia|]; apply uint_written; [done|done|by vm_compute]).
Qed.

Lemma write_gmac_completes s value e : regs_wf s → uint 32 value →
  completes 320 323 s (fst (bl808_sec_eng_write_gmac s value e)).
Proof.
  intros [_ Hw] Hv. unfold bl808_sec_eng_write_gmac. cbv zeta.
  set (keep := Z.lor (Z.lor (Z.lor (Z.lor _ _) _) _) _).
  pose proof (uint_written (reg s SEC_ENG_SE_GMAC_0_CTRL_0_OFFSET) value keep SEC_ENG_SE_GMAC_0_INT
    SEC_ENG_SE_GMAC_0_INT_CLR_1T SEC_ENG_SE_GMAC_0_INT_SET_1T ltac:(by apply uint_aget) Hv ltac:(by vm_compute)) as Hc.
  set (ctrl := int_bits _ _ _ _ _) in *. clearbody ctrl.
  assert (∀ c e', uint 32 c → completes 320 323 s (fst (bl808_sec_eng_update_irq (set_reg (set_reg s
    SEC_ENG_SE_GMAC_0_CTRL_0_OFFSET (clr c (Z.lor SEC_ENG_SE_GMAC_0_BUSY SEC_ENG_SE_GMAC_0_TRIG_1T)))
    SEC_ENG_SE_GMAC_0_STATUS_OFFSET 0), e' : E))) as Hdone.
  { intros c e' Hcu. simpl. eapply touches_completes; [|apply set_ctrl_completes; [vm_compute; split; congruence|done..]].
    apply touches_set_reg; [vm_compute; split; congruence|done|solve_uint]. }
  destruct (_ && _); [|by apply Hdone]. destruct (bl808_sec_eng_run_gmac_link s e). apply Hdone. solve_uint.
Qed.

(** *** Owners *)

Lemma pair_bit v i : Z.testbit (bl808_sec_eng_pair_from_bits v (BIT 1) (BIT 2)) i =
  ((i =? 0) && Z.testbit v 1) || ((i =? 1) && Z.testbit v 2).
Proof.
  unfold bl808_sec_eng_pair_from_bits. rewrite !tst_BIT by lia. change 2 with (BIT 1) at 2. change 1 with (BIT 0) at 2.
  rewrite Z.lor_spec. f_equal.
  - destruct (Z.testbit v 1); rewrite ?Z.bits_0, ?andb_false_r, ?andb_true_r; [|done].
    rewrite BIT_spec by lia. apply Z.eqb_sym.
  - destruct (Z.testbit v 2); rewrite ?Z.bits_0, ?andb_false_r, ?andb_true_r; [|done].
    rewrite BIT_spec by lia. apply Z.eqb_sym.
Qed.

Lemma uint_pair v k : 0 ≤ k ≤ 10 → uint 32 (Z.shiftl (bl808_sec_eng_pair_from_bits v (BIT 1) (BIT 2)) k).
Proof.
  intros Hk. unfold bl808_sec_eng_pair_from_bits. rewrite Z.shiftl_mul_pow2 by lia.
  assert (0 < 2 ^ k ≤ 2 ^ 10) by (split; [apply Z.pow_pos_nonneg|apply Z.pow_le_mono_r]; lia).
  change (2 ^ 10) with 1024 in *. unfold uint. change (2 ^ 32) with 4294967296. set (p := 2 ^ k) in *. clearbody p.
  destruct (tst v (BIT 1)), (tst v (BIT 2)); rewrite ?Z.lor_0_r, ?Z.lor_0_l; change (Z.lor 1 2) with 3; lia.
Qed.

Lemma update_ctrl_prot_touches s : touches 960 961 s (bl808_sec_eng_update_ctrl_prot s).
Proof.
  unfold bl808_sec_eng_update_ctrl_prot. cbv zeta. apply touches_set_reg; [vm_compute; split; congruence|done|].
  repeat first [apply uint_pair; lia | apply uint_lor; [lia| |]].
Qed.

Lemma update_ctrl_prot_owners s : regs_wf s → owners_ok (bl808_sec_eng_update_ctrl_prot s).
Proof.
  intros Hw. set (s' := bl808_sec_eng_update_ctrl_prot s).
  assert (∀ off, owner_index (off / 4) = true → off / 4 ≠ 960 → 0 ≤ off / 4 → ∀ id, owns s' off id = owns s off id) as Ho.
  { intros off _ Hne Hpos id. unfold owns. f_equal. apply (touches_reg 960 961); [apply update_ctrl_prot_touches|done|lia]. }
  eassert (reg s' SEC_ENG_SE_CTRL_PROT_RD_OFFSET = _) as Hprot.
  { subst s'. unfold bl808_sec_eng_update_ctrl_prot. cbv zeta.
    rewrite reg_set_reg by (done || (vm_compute; repeat split; congruence)). by rewrite decide_True by done. }
  split; intros id Hid; rewrite Hprot, Ho by (vm_compute; congruence || done); clear -Hid; unfold owns;
    assert (id = 0 ∨ id = 1) as [-> | ->] by lia;
    rewrite !Z.lor_spec, !Z.shiftl_spec, Z.bits_0, !pair_bit by lia; cbn [Z.add Pos.add Pos.succ Z.sub Z.opp Z.pos_sub Pos.pred_double Z.eqb Pos.eqb andb orb];
    rewrite ?orb_false_r, ?orb_false_l; done.
Qed.

Lemma set_owner_ok s off value : sec_ok s → is_owner_offset off = true → uint 32 value →
  sec_ok (bl808_sec_eng_update_irq (bl808_sec_eng_set_owner s off value)).
Proof.
  intros [R T O L] Ho Hv.
  assert (∃ v, uint 32 v ∧ bl808_sec_eng_set_owner s off value = bl808_sec_eng_update_ctrl_prot (set_reg s off v))
    as (v & Hvu & ->).
  { unfold bl808_sec_eng_set_owner. cbv zeta. destruct (_ || _) eqn:H1.
    - eexists. split; [|reflexivity]. apply uint_land_r; [lia|by vm_compute].
    - destruct (off =? SEC_ENG_SE_CDET_0_CTRL_PROT_OFFSET) eqn:H2; [eexists; split; [|reflexivity]; apply uint_land_r; [lia|by vm_compute]|].
      exfalso. unfold is_owner_offset in Ho. rewrite !orb_false_iff in H1. destruct H1 as [[[[H1a H1b] H1c] H1d] H1e].
      by rewrite H1a, H1b, H1c, H1d, H1e, H2 in Ho. }
  assert (0 ≤ off / 4 < 1024) as Hoff.
  { unfold is_owner_offset in Ho. rewrite !orb_true_iff, !Z.eqb_eq in Ho.
    destruct Ho as [[[[[-> | ->]| ->]| ->]| ->]| ->]; vm_compute; split; congruence. }
  assert (touches 0 1024 s (set_reg s off v)) as Ht by (by apply touches_set_reg; [|lia|]).
  pose proof (touches_wf _ _ _ _ Ht R) as R'. apply lines_updated.
  - apply (touches_wf 960 961 (set_reg s off v)); [apply update_ctrl_prot_touches|done].
  - by apply update_ctrl_prot_touches, Ht.
  - by apply update_ctrl_prot_owners.
Qed.

(** *** The register handler *)

Lemma set_plain_ok s off v : sec_ok s → 0 ≤ off → off mod 4 = 0 → off < 4096 → uint 32 v →
  off ≠ SEC_ENG_SE_SHA_0_CTRL_OFFSET → off ≠ SEC_ENG_SE_AES_0_CTRL_OFFSET → off ≠ SEC_ENG_SE_TRNG_0_CTRL_0_OFFSET →
  off ≠ SEC_ENG_SE_PKA_0_CTRL_0_OFFSET → off ≠ SEC_ENG_SE_CDET_0_CTRL_0_OFFSET →
  off ≠ SEC_ENG_SE_GMAC_0_CTRL_0_OFFSET → is_owner_offset off = false → off ≠ SEC_ENG_SE_CTRL_PROT_RD_OFFSET →
  sec_ok (set_reg s off v).
Proof.
  intros [R T O L] H0 Hm Hlt Hv N1 N2 N3 N4 N5 N6 No Nr.
  assert (off = 4 * (off / 4)) as Hoff by (apply Z_div_exact_full_2; lia).
  assert (∀ o, o mod 4 = 0 → 0 ≤ o → o ≠ off → reg (set_reg s off v) o = reg s o) as Hr.
  { intros o Hmo Hpo Hne. rewrite reg_set_reg; [|done| |]; [rewrite decide_False; [done|]| |apply Z.div_pos; lia].
    - intros Heq. apply Hne. rewrite Hoff, Heq. apply Z_div_exact_full_2; lia.
    - split; [apply Z.div_pos|apply Z.div_lt_upper_bound]; lia. }
  unfold is_owner_offset in No. rewrite !orb_false_iff, !Z.eqb_neq in No.
  destruct No as [[[[[O1 O2] O3] O4] O5] O6].
  assert (touches 0 1024 s (set_reg s off v)) as Ht.
  { apply touches_set_reg; [|lia|done]. split; [apply Z.div_pos|apply Z.div_lt_upper_bound]; lia. }
  split; [by apply (touches_wf 0 1024 s)|done| |].
  - destruct O as [P1 P2 P3 P4 P5 P6]. split; intros id Hid; unfold owns; rewrite !Hr by (done || congruence);
      [by apply P1|by apply P2|by apply P3|by apply P4|by apply P5|by apply P6].
  - change (irq (set_reg s off v)) with (irq s). rewrite L. unfold lines, shared_line, cdet_line, requests, owns.
    rewrite !Hr by (done || congruence). done.
Qed.

Lemma sec_write_ok s off value size e : sec_ok s → 0 ≤ off → off ≠ SEC_ENG_SE_CTRL_PROT_RD_OFFSET →
  sec_ok (fst (bl808_sec_eng_write s off value size e)).
Proof.
  intros Hs Hpos Hrd. pose proof (ok_regs s Hs) as R. unfold bl808_sec_eng_write.
  assert (uint 32 (u32 value)) as Hv by (apply uint_wrap; lia).
  destruct (negb (size =? 4)); [done|]. destruct (negb (Z.land off 3 =? 0) || _) eqn:Hb; [done|].
  apply orb_false_iff in Hb as [Hal%negb_false_iff%Z.eqb_eq Hlt%Z.leb_gt].
  assert (∀ lo hi, (∀ i, lo ≤ i < hi → owner_index i = false) → spares_owners lo hi) as Hsp by (intros lo hi H; exact H).
  assert (spares_owners 0 21 ∧ spares_owners 64 68 ∧ spares_owners 128 139 ∧ spares_owners 192 193 ∧
          spares_owners 256 257 ∧ spares_owners 320 323) as (S1 & S2 & S3 & S4 & S5 & S6).
  { split_and!; intros i Hi; unfold owner_index; rewrite !orb_false_iff, !Z.eqb_neq; lia. }
  destruct (Z.eqb_spec off SEC_ENG_SE_SHA_0_CTRL_OFFSET); [apply (completes_ok 0 21 s); [done..|by apply write_sha_completes]|].
  destruct (Z.eqb_spec off SEC_ENG_SE_AES_0_CTRL_OFFSET); [apply (completes_ok 64 68 s); [done..|by apply write_aes_completes]|].
  destruct (Z.eqb_spec off SEC_ENG_SE_TRNG_0_CTRL_0_OFFSET); [apply (completes_ok 128 139 s); [done..|by apply write_trng_completes]|].
  destruct (Z.eqb_spec off SEC_ENG_SE_PKA_0_CTRL_0_OFFSET); [apply (completes_ok 192 193 s); [done..|by apply write_pka_completes]|].
  destruct (Z.eqb_spec off SEC_ENG_SE_CDET_0_CTRL_0_OFFSET); [apply (completes_ok 256 257 s); [done..|by apply write_cdet_completes]|].
  destruct (Z.eqb_spec off SEC_ENG_SE_GMAC_0_CTRL_0_OFFSET); [apply (completes_ok 320 323 s); [done..|by apply write_gmac_completes]|].
  destruct (is_owner_offset off) eqn:Ho; [by apply set_owner_ok|].
  apply set_plain_ok; try done. change 3 with (Z.ones 2) in Hal. by rewrite Z.land_ones in Hal by lia.
Qed.

Lemma reset_ok s : sec_ok (bl808_sec_eng_reset s).
Proof.
  assert (∃ irqs words, bl808_sec_eng_reset s = mk_sec irqs words [] 0 0x8081b10b1e5eed5 (efuse_shadow s) ∧
    length words = 1024%nat ∧ Forall (uint 32) words ∧ owners_ok (mk_sec irqs words [] 0 0x8081b10b1e5eed5 None) ∧
    irqs = lines (mk_sec irqs words [] 0 0x8081b10b1e5eed5 None)) as (irqs & words & -> & Hl & Hw & [P1 P2 P3 P4 P5 P6] & Hi).
  { do 2 eexists. split; [vm_compute; reflexivity|]. split; [done|]. split; [|split; [|by vm_compute]].
    - apply (bool_decide_unpack (Forall (uint 32) _)). by vm_compute.
    - split; intros id Hid; assert (id = 0 ∨ id = 1) as [-> | ->] by lia; by vm_compute. }
  split; [done|split; [by vm_compute|done]|by split|done].
Qed.

(** A guest program: a sequence of register writes. *)
Definition sec_writes (ws : list (Z * Z * Z)) (s : BL808SecEngState) (e : E) : BL808SecEngState * E :=
  foldl (λ '(s, e) '(offset, value, size), bl808_sec_eng_write s offset value size e) (s, e) ws.

(** C16: whatever a guest writes to the engine after a reset, to every register
    but the summary register at 0xf00, and whatever the runs it triggers do: the
    register file stays 1024 words of 32 bits, the random generator never reaches
    the zero state, the summary register repeats the owner bits of the protection
    registers, and each of the four interrupt lines is up exactly when a unit
    owned by that line's security domain has its interrupt set and not masked. *)
Theorem sec_lines_follow ws s e :
  Forall (λ '(offset, _, _), 0 ≤ offset ∧ offset ≠ SEC_ENG_SE_CTRL_PROT_RD_OFFSET) ws →
  let '(s', _) := sec_writes ws (bl808_sec_eng_reset s) e in
  sec_ok s' ∧ irq s' = [shared_line s' 1; shared_line s' 0; cdet_line s' 1; cdet_line s' 0].
Proof.
  intros Hws. pose proof (reset_ok s) as Hs. revert Hs. generalize (bl808_sec_eng_reset s). clear s.
  unfold sec_writes. revert e. induction Hws as [|[[off v] sz] ws [Hoff Hrd] Hws IH]; intros e s Hs.
  - simpl. split; [done|]. apply Hs.
  - cbn [foldl]. pose proof (sec_write_ok s off v sz e Hs Hoff Hrd) as Hs'.
    destruct (bl808_sec_eng_write s off v sz e) as [s' e']. by apply IH.
Qed.

(** The summary register, which hardware derives from the protection registers,
    can be written like any plain register: after the domain ID0 released every
    unit, a write of 0x1 to it makes the next SHA interrupt reach ID0 although
    the SHA unit belongs to nobody. *)
Lemma sec_summary_forged s (e : E) :
  let '(s', _) := sec_writes
    [(SEC_ENG_SE_SHA_0_CTRL_PROT_OFFSET, 0, 4); (SEC_ENG_SE_CTRL_PROT_RD_OFFSET, 1, 4);
     (SEC_ENG_SE_SHA_0_CTRL_OFFSET, 0x400, 4)] (bl808_sec_eng_reset s) e in
  irq s' !! Z.to_nat BL808_SEC_ENG_IRQ_ID0_SHARED = Some true ∧ shared_line s' 0 = false.
Proof. by vm_compute. Qed.
End ops.
