(* ===== verification/SecEngRun.v ===== *)
(** * Security engine: hash streams and ciphers through the registers

    What a guest that programs the engine gets: the digest of the concatenation
    of the messages of a sequence of runs, at the words where the register layout
    puts it, and memory encrypted and decrypted again in the CTR and XTS modes.
    The last section instantiates the interfaces and runs the engine on concrete
    inputs. *)

From S2P Require Import Prelude Qemu SecHash SecHashSpec SecEng SecAesSpec SecEngSpec.
From stdpp Require Import prelude list.
From Stdlib Require Import ZArith Lia.
Local Open Scope Z_scope.
Import BL808SecEng.

(** ** Loops that fill registers *)

Lemma regs_wf_set s off v : regs_wf s → uint 32 v → regs_wf (set_reg s off v).
Proof.
  intros [Hl Hw] Hv. split; simpl; [by unfold aset; rewrite length_insert|]. unfold aset. by apply Forall_insert.
Qed.

(** [s] after setting the registers at [f i] to [g i], for [i] from 0 to [n - 1]. *)
Definition fill (f g : Z → Z) (n : Z) (s : BL808SecEngState) : BL808SecEngState :=
  foldl (λ s i, set_reg s (f i) (g i)) s (seqZ 0 n).

Lemma fill_length f g n s : length (regs (fill f g n s)) = length (regs s).
Proof.
  unfold fill. generalize (seqZ 0 n). intros l. revert s. induction l as [|i l IH]; intros s; [done|].
  cbn [foldl]. rewrite IH. apply aset_length.
Qed.

Lemma reg_set s off off' v : length (regs s) = 1024%nat → 0 ≤ off / 4 < 1024 → 0 ≤ off' / 4 →
  reg (set_reg s off v) off' = if decide (off / 4 = off' / 4) then v else reg s off'.
Proof. intros Hl Ho Ho'. unfold reg, set_reg. simpl. apply aset_aget_decide; [rewrite Hl|]; lia. Qed.

Lemma fill_reg f g n s off : 0 ≤ n → length (regs s) = 1024%nat →
  (∀ i, 0 ≤ i < n → 0 ≤ f i / 4 < 1024) → (∀ i j, 0 ≤ i < n → 0 ≤ j < n → f i / 4 = f j / 4 → i = j) →
  0 ≤ off / 4 →
  (∀ i, 0 ≤ i < n → f i / 4 = off / 4 → reg (fill f g n s) off = g i) ∧
  ((∀ i, 0 ≤ i < n → f i / 4 ≠ off / 4) → reg (fill f g n s) off = reg s off).
Proof.
  intros Hn Hl. pattern n. apply natlike_ind; [| |done]; clear n Hn.
  { intros _ _ Ho. split; [lia|done]. }
  intros n Hn IH Hr Hinj Ho. unfold fill. rewrite <- Z.add_1_r, seqZ_snoc, foldl_app by done. cbn [foldl].
  fold (fill f g n s). rewrite Z.add_0_l. rewrite reg_set; [|by rewrite fill_length|apply Hr; lia|done].
  destruct IH as [IH1 IH2]; [intros; apply Hr; lia|intros; apply Hinj; lia|done|]. split.
  - intros i Hi He. case_decide as Hd.
    + f_equal. symmetry. apply Hinj; [lia..|congruence].
    + apply IH1; [|done]. assert (i ≠ n) by (intros ->; congruence). lia.
  - intros Hall. rewrite decide_False by (apply Hall; lia). apply IH2. intros. apply Hall. lia.
Qed.

(** ** The digest registers *)

(** The [i]-th word of the digest: the 64-bit digests are stored with the high
    half of each word in the H registers and the low half in the L registers. *)
Definition digest_reg (ctrl i : Z) : Z :=
  if bl808_sec_eng_sha_is_64bit ctrl then
    if Z.land i 1 =? 0 then SEC_ENG_SE_SHA_0_HASH_H_0_OFFSET + i / 2 * 4
    else SEC_ENG_SE_SHA_0_HASH_L_0_OFFSET + i / 2 * 4
  else SEC_ENG_SE_SHA_0_HASH_L_0_OFFSET + i * 4.

(** [n] bytes of digest, as a driver reads them back. *)
Definition read_digest (s : BL808SecEngState) (ctrl n : Z) : list Z :=
  take (Z.to_nat n) (concat ((λ i, cpu_to_le 4 (reg s (digest_reg ctrl i))) <$> seqZ 0 ((n + 3) / 4))).

Lemma digest_reg_index ctrl i : 0 ≤ i < 16 →
  digest_reg ctrl i / 4 = if bl808_sec_eng_sha_is_64bit ctrl then (if Z.even i then 12 else 4) + i / 2 else 4 + i.
Proof.
  intros Hi. unfold digest_reg.
  assert ((Z.land i 1 =? 0) = Z.even i) as ->.
  { change 1 with (Z.ones 1). rewrite Z.land_ones, Zmod_even by lia. by destruct (Z.even i). }
  change SEC_ENG_SE_SHA_0_HASH_H_0_OFFSET with (12 * 4). change SEC_ENG_SE_SHA_0_HASH_L_0_OFFSET with (4 * 4).
  destruct (bl808_sec_eng_sha_is_64bit ctrl); [destruct (Z.even i)|]; rewrite Z.div_add, Z.div_mul by lia; done.
Qed.

Lemma even_half i : i = 2 * (i / 2) + (if Z.even i then 0 else 1).
Proof. rewrite <- Zmod_even. apply Z.div_mod. lia. Qed.

Lemma digest_reg_bounds ctrl i : 0 ≤ i < 16 → 4 ≤ digest_reg ctrl i / 4 < 20.
Proof.
  intros Hi. rewrite digest_reg_index by done. pose proof (even_half i).
  destruct (bl808_sec_eng_sha_is_64bit ctrl), (Z.even i); lia.
Qed.

Lemma digest_reg_inj ctrl i j : 0 ≤ i < 16 → 0 ≤ j < 16 → digest_reg ctrl i / 4 = digest_reg ctrl j / 4 → i = j.
Proof.
  intros Hi Hj. rewrite !digest_reg_index by done. pose proof (even_half i). pose proof (even_half j).
  destruct (bl808_sec_eng_sha_is_64bit ctrl), (Z.even i), (Z.even j); lia.
Qed.

(** The words of a digest, the last one filled up with zeros. *)
Definition digest_word (digest : list Z) (i : Z) : list Z :=
  slice (digest ++ replicate (64 - length digest) 0) (i * 4) 4.

Lemma digest_word_direct digest i : (length digest ≤ 64)%nat → 0 ≤ i →
  slice (memcpy_at (replicate 64 0) 0 (slice digest 0 (Z.min (Z.of_nat (length digest)) 64))) (i * 4) 4 =
  digest_word digest i.
Proof.
  intros Hl Hi. unfold digest_word. f_equal. unfold slice, memcpy_at. simpl (take (Z.to_nat 0) _). rewrite app_nil_l.
  change (drop (Z.to_nat 0) digest) with digest. rewrite take_ge by lia. f_equal.
  by rewrite Nat.add_0_l, drop_replicate.
Qed.

Lemma digest_word_partial digest i : (length digest ≤ 64)%nat → 0 ≤ i → i * 4 < Z.of_nat (length digest) →
  memcpy_at (replicate 4 0) 0 (slice digest (i * 4) (Z.min 4 (Z.of_nat (length digest) - i * 4))) =
  digest_word digest i.
Proof.
  intros Hl Hi Hlt. unfold digest_word, memcpy_at, slice. simpl (take (Z.to_nat 0) _). rewrite app_nil_l, Nat.add_0_l.
  rewrite drop_app_le by lia. set (d := drop (Z.to_nat (i * 4)) digest).
  assert (length d = (length digest - Z.to_nat (i * 4))%nat) as Hd by (subst d; by rewrite length_drop).
  rewrite drop_replicate. destruct (decide (4 ≤ length d)%nat).
  - rewrite take_app_le by lia. replace (Z.to_nat (Z.min 4 (Z.of_nat (length digest) - i * 4))) with 4%nat by lia.
    rewrite length_take. replace (4 - 4 `min` length d)%nat with 0%nat by lia. by rewrite app_nil_r.
  - rewrite (take_ge d) by lia. rewrite take_app_ge by lia. f_equal. rewrite take_replicate. f_equal. lia.
Qed.

Lemma digest_word_bytes digest i : Forall (uint 8) digest → 0 ≤ i < 16 → (length digest ≤ 64)%nat →
  Forall (uint 8) (digest_word digest i) ∧ length (digest_word digest i) = 4%nat.
Proof.
  intros Hd Hi Hl. unfold digest_word. split.
  - apply slice_bytes. apply Forall_app. split; [done|apply zeros_bytes].
  - apply Nat2Z.inj, slice_size; rewrite ?length_app, ?length_replicate; lia.
Qed.

Lemma store_digest_fill s ctrl digest : (length digest ≤ 64)%nat →
  bl808_sec_eng_store_sha_output s ctrl digest =
  fill (digest_reg ctrl) (λ i, le_to_cpu (digest_word digest i))
    (if bl808_sec_eng_sha_is_64bit ctrl then (Z.of_nat (length digest) + 3) / 4 else 16)
    (bl808_sec_eng_clear_sha_output s).
Proof.
  intros Hl. unfold bl808_sec_eng_store_sha_output, fill, digest_reg. destruct (bl808_sec_eng_sha_is_64bit ctrl); simpl negb; cbv iota.
  - apply foldl_ext_in. intros i Hi%elem_of_seqZ t. rewrite digest_word_partial; [done|done|lia|].
    pose proof (Z.mul_div_le (Z.of_nat (length digest) + 3) 4). lia.
  - unfold bl808_sec_eng_store_words_le. apply foldl_ext_in. intros i Hi%elem_of_seqZ t.
    by rewrite digest_word_direct by (done || lia).
Qed.

Lemma concat_words (B : Z → list Z) l n : (∀ i, 0 ≤ i < n → B i = slice l (i * 4) 4) →
  0 ≤ n → 4 * n ≤ Z.of_nat (length l) → concat (B <$> seqZ 0 n) = take (Z.to_nat (4 * n)) l.
Proof.
  intros HB Hn. revert HB. pattern n. apply natlike_ind; [done| |done]. clear n Hn. intros n Hn IH HB Hl.
  rewrite <- Z.add_1_r, seqZ_snoc, fmap_app, concat_app by done. rewrite IH; [|intros; apply HB; lia|lia].
  cbn [fmap list_fmap concat]. rewrite app_nil_r, Z.add_0_l, HB by lia. unfold slice.
  replace (Z.to_nat (4 * (n + 1))) with (Z.to_nat (4 * n) + 4)%nat by lia.
  replace (Z.to_nat (n * 4)) with (Z.to_nat (4 * n)) by lia. by rewrite take_take_drop.
Qed.

(** The digest registers give back what was stored in them. *)
Lemma read_stored_digest s ctrl digest : length (regs s) = 1024%nat →
  Forall (uint 8) digest → (length digest ≤ 64)%nat →
  read_digest (bl808_sec_eng_store_sha_output s ctrl digest) ctrl (Z.of_nat (length digest)) = digest.
Proof.
  intros Hs Hb Hl. unfold read_digest. rewrite store_digest_fill by done.
  set (n := (Z.of_nat (length digest) + 3) / 4).
  assert (0 ≤ n ≤ 16 ∧ Z.of_nat (length digest) ≤ 4 * n) as [Hn Hcov].
  { subst n. pose proof (Z.div_mod (Z.of_nat (length digest) + 3) 4 ltac:(lia)).
    pose proof (Z.mod_pos_bound (Z.of_nat (length digest) + 3) 4 ltac:(lia)). lia. }
  assert (length (regs (bl808_sec_eng_clear_sha_output s)) = 1024%nat) as Hs'.
  { rewrite <- Hs. apply (touches_length 0 21), clear_sha_touches. }
  rewrite (concat_words _ (digest ++ replicate (64 - length digest) 0) n).
  - rewrite take_take, Nat2Z.id. rewrite Nat.min_l by lia. by rewrite take_app_length.
  - intros i Hi. set (m := if bl808_sec_eng_sha_is_64bit ctrl then n else 16).
    assert (n ≤ m ≤ 16) as Hm by (subst m; destruct (bl808_sec_eng_sha_is_64bit ctrl); lia).
    destruct (fill_reg (digest_reg ctrl) (λ i, le_to_cpu (digest_word digest i)) m
      (bl808_sec_eng_clear_sha_output s) (digest_reg ctrl i)) as [Hr _].
    + lia.
    + done.
    + intros j Hj. pose proof (digest_reg_bounds ctrl j). lia.
    + intros j k Hj Hk. apply digest_reg_inj; lia.
    + pose proof (digest_reg_bounds ctrl i). lia.
    + rewrite (Hr i) by (done || lia). destruct (digest_word_bytes digest i Hb ltac:(lia) Hl) as [Hwb Hwl].
      rewrite <- Hwl at 1. by rewrite cpu_to_le_to_cpu.
  - lia.
  - rewrite length_app, length_replicate. lia.
Qed.

(** ** Control words *)

Lemma land_BIT_0 m n : 0 ≤ n → Z.land m (BIT n) = 0 → Z.testbit m n = false.
Proof.
  intros Hn H. apply (f_equal (λ z, Z.testbit z n)) in H.
  by rewrite Z.land_spec, BIT_spec, Z.eqb_refl, andb_true_r, Z.bits_0 in H by done.
Qed.

(** A field that a write replaces reads as written, whatever the old value. *)
Lemma written_field old value keep c st field : Z.land field keep = field →
  Z.land field (BIT 8) = 0 → Z.land field (BIT 0) = 0 →
  Z.land (Z.lor (int_bits (Z.lor (clr old keep) (Z.land value keep)) value (BIT 8) c st) (BIT 0)) field =
  Z.land value field.
Proof.
  intros Hk H8%land_BIT_0 H0%land_BIT_0; [|lia..]. apply Z.bits_inj'. intros i Hi. rewrite !Z.land_spec.
  destruct (Z.testbit field i) eqn:Hf; [|by rewrite !andb_false_r]. rewrite !andb_true_r, Z.lor_spec, BIT_spec by lia.
  assert (Z.testbit keep i = true) as Hki.
  { apply (f_equal (λ z, Z.testbit z i)) in Hk. rewrite Z.land_spec, Hf in Hk. done. }
  destruct (Z.eqb_spec 0 i) as [<-|]; [congruence|]. rewrite orb_false_r.
  assert (i ≠ 8) as Hi8 by (intros ->; congruence).
  assert (Z.testbit (Z.lor (clr old keep) (Z.land value keep)) i = Z.testbit value i) as Hb.
  { rewrite Z.lor_spec, clr_spec, Z.land_spec, Hki by lia. simpl. by rewrite andb_false_r, andb_true_r. }
  revert Hb. generalize (Z.lor (clr old keep) (Z.land value keep)). intros x Hb.
  unfold int_bits. destruct (tst value c), (tst value st); rewrite ?Z.lor_spec, ?clr_spec, ?BIT_spec, Hb by lia;
    destruct (Z.eqb_spec 8 i); try congruence; by rewrite ?andb_true_r, ?orb_false_r.
Qed.

(** ** Hash streams *)

Section run.
Context {E : Type} `{PM : !PhysMem E} `{QC : !QCrypto} `{GT : !GnuTLS} `{HL : !HashLaws} `{R : !Ram (E := E)}.

(** The digest that a mode promises; the modes 6 and 7 are SHA-512/224 and
    SHA-512/256, by their definition on the padded message. *)
Definition message_digest (ctrl : Z) (m : list Z) : option (list Z) :=
  let mode := bl808_sec_eng_sha_mode ctrl in
  if bl808_sec_eng_sha_mode_ext ctrl =? 1 then qcrypto_hash_bytes QCRYPTO_HASH_ALGO_MD5 m
  else if mode =? 0 then qcrypto_hash_bytes QCRYPTO_HASH_ALGO_SHA256 m
  else if mode =? 1 then qcrypto_hash_bytes QCRYPTO_HASH_ALGO_SHA224 m
  else if (mode =? 2) || (mode =? 3) then qcrypto_hash_bytes QCRYPTO_HASH_ALGO_SHA1 m
  else if mode =? 4 then qcrypto_hash_bytes QCRYPTO_HASH_ALGO_SHA512 m
  else if mode =? 5 then qcrypto_hash_bytes QCRYPTO_HASH_ALGO_SHA384 m
  else if mode =? 6 then Some (take 28 (digest_bytes (sha512_fold sha512_224_iv (sha512_pad m))))
  else Some (take 32 (digest_bytes (sha512_fold sha512_256_iv (sha512_pad m)))).

(** Messages of the hash modes: neither CRC mode. *)
Definition hash_mode (ctrl : Z) : Prop :=
  bl808_sec_eng_sha_mode_ext ctrl = 0 ∨ bl808_sec_eng_sha_mode_ext ctrl = 1.

Lemma sha_mode_range ctrl : 0 ≤ bl808_sec_eng_sha_mode ctrl < 8.
Proof.
  assert (uint 3 (bl808_sec_eng_sha_mode ctrl)) as H; [|exact H].
  apply uint_bits; [lia| |].
  - apply Z.shiftr_nonneg, Z.land_nonneg. by right.
  - intros i Hi. unfold bl808_sec_eng_sha_mode. rewrite Z.shiftr_spec, Z.land_spec by lia.
    rewrite (uint_testbit_high 5 SEC_ENG_SE_SHA_0_MODE_MASK); [apply andb_false_r|lia|by vm_compute|].
    change SEC_ENG_SE_SHA_0_MODE_SHIFT with 2. lia.
Qed.

Lemma sha_hash_message s ctrl : hash_mode ctrl → Z.of_nat (length (sha_accum s)) < 2 ^ 64 →
  bl808_sec_eng_sha_hash s ctrl = message_digest ctrl (sha_accum s).
Proof.
  intros Hm Hl. unfold bl808_sec_eng_sha_hash, message_digest, bl808_sec_eng_sha512_t_hash.
  pose proof (sha_mode_range ctrl). set (mode := bl808_sec_eng_sha_mode ctrl) in *. clearbody mode.
  destruct Hm as [-> | ->]; [|done]. change (0 =? 1) with false. cbn [orb negb Z.eqb].
  repeat eqb_case; cbn [orb]; try done; try lia; by rewrite sha512_custom_pad.
Qed.

Lemma accum_append s buf : sha_accum (bl808_sec_eng_sha_accum_append s buf) = sha_accum s ++ buf.
Proof. unfold bl808_sec_eng_sha_accum_append. by destruct (_ <? _). Qed.

(** The end of a run leaves the digest registers alone. *)
Lemma finish_sha_reg s ctrl off : length (regs s) = 1024%nat → 4 ≤ off / 4 →
  reg (finish_sha s ctrl) off = reg s off ∧ sha_accum (finish_sha s ctrl) = sha_accum s.
Proof.
  intros Hl Ho. split; [|done]. unfold finish_sha, bl808_sec_eng_complete_sha, bl808_sec_eng_update_irq.
  change (reg (?x <| irq := _ |>) off) with (reg x off).
  assert (0 / 4 = 0 ∧ 8 / 4 = 2) as [H0 H8] by done. unfold SEC_ENG_SE_SHA_0_CTRL_OFFSET, SEC_ENG_SE_SHA_0_STATUS_OFFSET.
  rewrite !reg_set by (simpl; rewrite ?aset_length; lia || done). rewrite H0, H8. rewrite !decide_False by lia. done.
Qed.

Lemma finish_sha_length s ctrl : length (regs (finish_sha s ctrl)) = length (regs s).
Proof. simpl. by rewrite !aset_length. Qed.

Lemma store_sha_length s ctrl d : (length d ≤ 64)%nat →
  length (regs (bl808_sec_eng_store_sha_output s ctrl d)) = length (regs s).
Proof.
  intros Hd. rewrite store_digest_fill, fill_length by done. apply (touches_length 0 21), clear_sha_touches.
Qed.

Lemma foldl_accum (f : BL808SecEngState → Z → BL808SecEngState) l s :
  (∀ s i, sha_accum (f s i) = sha_accum s) → sha_accum (foldl f s l) = sha_accum s.
Proof. intros Hf. revert s. induction l as [|i l IH]; intros s; [done|]. cbn [foldl]. by rewrite IH, Hf. Qed.

Lemma clear_sha_accum s : sha_accum (bl808_sec_eng_clear_sha_output s) = sha_accum s.
Proof. by apply foldl_accum. Qed.

Lemma store_sha_accum s ctrl d : sha_accum (bl808_sec_eng_store_sha_output s ctrl d) = sha_accum s.
Proof.
  rewrite <- (clear_sha_accum s). unfold bl808_sec_eng_store_sha_output.
  destruct (negb _); by apply foldl_accum.
Qed.

(** The bytes a run hashes, and whether it starts afresh. *)
Definition run_bytes (e : E) (src ctrl : Z) : list Z :=
  guest e src (sha_msg_len ctrl * bl808_sec_eng_sha_block_bytes ctrl).

Definition run_accum (s : BL808SecEngState) (ctrl : Z) : list Z :=
  if tst ctrl SEC_ENG_SE_SHA_0_HASH_SEL then sha_accum s else [].

Lemma run_sha_direct s ctrl e : length (regs s) = 1024%nat → hash_mode ctrl →
  tst ctrl SEC_ENG_SE_SHA_0_LINK_MODE = false → 0 ≤ sha_msg_len ctrl →
  let src := reg s SEC_ENG_SE_SHA_0_MSA_OFFSET in
  let m := run_accum s ctrl ++ run_bytes e src ctrl in
  ram_range src (sha_msg_len ctrl * bl808_sec_eng_sha_block_bytes ctrl) → Z.of_nat (length m) < 2 ^ 64 →
  let '(s', e') := bl808_sec_eng_run_sha s ctrl e in
  e' = e ∧ sha_accum s' = m ∧ length (regs s') = 1024%nat ∧
  ∀ d, message_digest ctrl m = Some d → read_digest s' ctrl (Z.of_nat (length d)) = d.
Proof.
  intros Hl Hm Hlink Hlen src m Hr Hml. unfold bl808_sec_eng_run_sha. rewrite Hlink.
  assert ((bl808_sec_eng_sha_mode_ext ctrl =? 2) || (bl808_sec_eng_sha_mode_ext ctrl =? 3) = false) as ->
    by (by destruct Hm as [-> | ->]).
  pose proof (take_message_touches s ctrl src e) as Ht. unfold sha_take_message in *. fold src.
  assert (0 ≤ bl808_sec_eng_sha_block_bytes ctrl) as Hbb.
  { unfold bl808_sec_eng_sha_block_bytes. repeat case_match; lia. }
  assert (0 ≤ sha_msg_len ctrl * bl808_sec_eng_sha_block_bytes ctrl) as Hn by (by apply Z.mul_nonneg_nonneg).
  pose proof (read_guest_ram e src _ Hn Hr) as Hread. fold (run_bytes e src ctrl) in Hread. rewrite Hread in *.
  set (s1 := bl808_sec_eng_sha_accum_append _ _) in *.
  assert (sha_accum s1 = m) as Ha.
  { subst s1 m. rewrite accum_append. unfold run_accum. by destruct (tst ctrl SEC_ENG_SE_SHA_0_HASH_SEL). }
  assert (length (regs s1) = 1024%nat) as Hl1 by (rewrite <- Hl; by apply (touches_length 0 21)).
  clearbody s1. clear Ht. rewrite sha_hash_message by (done || by rewrite Ha). rewrite Ha.
  destruct (message_digest ctrl m) as [d|] eqn:Hd.
  - assert (Forall (uint 8) d ∧ (length d ≤ 64)%nat) as [Hb Hdl].
    { apply (sha_hash_bytes s1 ctrl). by rewrite sha_hash_message, Ha by (done || by rewrite Ha). }
    split; [done|]. split; [by rewrite (proj2 (finish_sha_reg _ ctrl 16 ltac:(by rewrite store_sha_length) ltac:(by vm_compute))), store_sha_accum|].
    split; [by rewrite finish_sha_length, store_sha_length|]. intros d' [= <-].
    rewrite <- (read_stored_digest s1 ctrl d) at 3 by done. unfold read_digest. f_equal. f_equal.
    apply list_fmap_ext. intros j i Hi. apply lookup_seqZ in Hi as [-> Hi]. f_equal.
    apply finish_sha_reg; [by rewrite store_sha_length|]. apply digest_reg_bounds.
    assert ((Z.of_nat (length d) + 3) / 4 < 17) by (apply Z.div_lt_upper_bound; lia). lia.
  - split; [done|]. split; [|split; [|done]].
    + by rewrite <- Ha, <- (clear_sha_accum s1).
    + rewrite finish_sha_length, <- Hl1. apply (touches_length 0 21), clear_sha_touches.
Qed.

(** What a run takes from its control word. *)
Record same_fields (c v : Z) : Prop := {
  same_mode : bl808_sec_eng_sha_mode c = bl808_sec_eng_sha_mode v;
  same_mode_ext : bl808_sec_eng_sha_mode_ext c = bl808_sec_eng_sha_mode_ext v;
  same_len : sha_msg_len c = sha_msg_len v;
  same_sel : tst c SEC_ENG_SE_SHA_0_HASH_SEL = tst v SEC_ENG_SE_SHA_0_HASH_SEL;
  same_link : tst c SEC_ENG_SE_SHA_0_LINK_MODE = tst v SEC_ENG_SE_SHA_0_LINK_MODE;
}.

Lemma written_same_fields old v :
  same_fields (Z.lor (int_bits (Z.lor (clr old sha_ctrl_bits) (Z.land v sha_ctrl_bits)) v SEC_ENG_SE_SHA_0_INT
    SEC_ENG_SE_SHA_0_INT_CLR_1T SEC_ENG_SE_SHA_0_INT_SET_1T) SEC_ENG_SE_SHA_0_BUSY) v.
Proof.
  split; unfold bl808_sec_eng_sha_mode, bl808_sec_eng_sha_mode_ext, sha_msg_len, tst;
    by rewrite written_field by (by vm_compute).
Qed.

Lemma same_fields_digest c v : same_fields c v →
  (∀ m, message_digest c m = message_digest v m) ∧ (∀ s n, read_digest s c n = read_digest s v n) ∧
  bl808_sec_eng_sha_block_bytes c = bl808_sec_eng_sha_block_bytes v ∧ (hash_mode c ↔ hash_mode v).
Proof.
  intros [H1 H2 _ _ _]. unfold message_digest, read_digest, digest_reg, bl808_sec_eng_sha_is_64bit,
    bl808_sec_eng_sha_block_bytes, hash_mode. rewrite H1, H2. done.
Qed.

(** One run as a guest programs it: the address of the message, then the control
    word with the trigger bit. *)
Definition sha_run (s : BL808SecEngState) (e : E) (run : Z * Z) : BL808SecEngState * E :=
  let '(src, v) := run in
  let '(s, e) := bl808_sec_eng_write s SEC_ENG_SE_SHA_0_MSA_OFFSET src 4 e in
  bl808_sec_eng_write s SEC_ENG_SE_SHA_0_CTRL_OFFSET v 4 e.

Definition sha_bytes (e : E) (run : Z * Z) : list Z := run_bytes e (fst run) (snd run).

(** A register-mode run of a hash mode on a message in memory. *)
Record hash_run (sel : bool) (run : Z * Z) : Prop := {
  run_src : uint 32 (fst run);
  run_value : uint 32 (snd run);
  run_trig : tst (snd run) SEC_ENG_SE_SHA_0_TRIG_1T = true;
  run_link : tst (snd run) SEC_ENG_SE_SHA_0_LINK_MODE = false;
  run_sel : tst (snd run) SEC_ENG_SE_SHA_0_HASH_SEL = sel;
  run_mode : hash_mode (snd run);
  run_ram : ram_range (fst run) (sha_msg_len (snd run) * bl808_sec_eng_sha_block_bytes (snd run));
}.

Lemma sha_msg_len_nonneg v : 0 ≤ sha_msg_len v.
Proof. apply Z.shiftr_nonneg, Z.land_nonneg. by right. Qed.

Lemma sha_run_step s e run sel : length (regs s) = 1024%nat → hash_run sel run →
  let m := (if sel then sha_accum s else []) ++ sha_bytes e run in
  Z.of_nat (length m) < 2 ^ 64 →
  let '(s', e') := sha_run s e run in
  e' = e ∧ sha_accum s' = m ∧ length (regs s') = 1024%nat ∧
  ∀ d, message_digest (snd run) m = Some d → read_digest s' (snd run) (Z.of_nat (length d)) = d.
Proof.
  destruct run as [src v]. intros Hl [Hsrc Hv Ht Hk Hs Hm Hr] m Hml. simpl fst in *. simpl snd in *. unfold sha_run.
  change (bl808_sec_eng_write s SEC_ENG_SE_SHA_0_MSA_OFFSET src 4 e) with (set_reg s SEC_ENG_SE_SHA_0_MSA_OFFSET (u32 src), e).
  cbv iota. rewrite (wrap_small 32 src) by done. set (s1 := set_reg s _ src).
  change (bl808_sec_eng_write s1 SEC_ENG_SE_SHA_0_CTRL_OFFSET v 4 e) with (bl808_sec_eng_write_sha s1 (u32 v) e).
  rewrite (wrap_small 32 v) by done. unfold bl808_sec_eng_write_sha. cbv zeta. rewrite Ht.
  pose proof (written_same_fields (reg s1 SEC_ENG_SE_SHA_0_CTRL_OFFSET) v) as Hf.
  set (c := Z.lor (int_bits _ _ _ _ _) _) in *. clearbody c.
  destruct (same_fields_digest c v Hf) as (Hmd & Hrd & Hbb & Hmode).
  assert (length (regs s1) = 1024%nat) as Hl1 by (simpl; by rewrite aset_length).
  assert (reg (set_reg s1 SEC_ENG_SE_SHA_0_CTRL_OFFSET c) SEC_ENG_SE_SHA_0_MSA_OFFSET = src) as Hmsa.
  { rewrite reg_set by (done || (vm_compute; repeat split; congruence)). rewrite decide_False by done.
    subst s1. rewrite reg_set by (done || (vm_compute; repeat split; congruence)). by rewrite decide_True by done. }
  assert (run_accum (set_reg s1 SEC_ENG_SE_SHA_0_CTRL_OFFSET c) c ++ run_bytes e src c = m) as Hma.
  { subst m. unfold run_accum, sha_bytes, run_bytes. rewrite (same_sel c v Hf), Hs, (same_len c v Hf), Hbb. done. }
  pose proof (run_sha_direct (set_reg s1 SEC_ENG_SE_SHA_0_CTRL_OFFSET c) c e) as H. cbv zeta in H.
  rewrite Hmsa, Hma, (same_len c v Hf), Hbb, Hmd, (same_link c v Hf) in H.
  destruct (bl808_sec_eng_run_sha _ c e) as [s' e']. setoid_rewrite Hrd in H.
  apply H; [simpl; by rewrite aset_length|by apply Hmode|done|apply sha_msg_len_nonneg|done..].
Qed.

(** C15: hashing in several runs.  A guest that triggers a first run without
    [HASH_SEL] and any number of further runs with it, all in one hash mode, each
    with its own message in memory, reads back from the digest registers, in the
    layout of that mode, the digest of the concatenation of the messages: SHA-512
    modes in the interleaved H and L halves, SHA-512/224 and SHA-512/256 computed
    by the engine on the padded concatenation. *)
Theorem sec_sha_stream first rest s e :
  regs_wf s → hash_run false first → Forall (hash_run true) rest →
  Forall (λ run, bl808_sec_eng_sha_mode (snd run) = bl808_sec_eng_sha_mode (snd first) ∧
                 bl808_sec_eng_sha_mode_ext (snd run) = bl808_sec_eng_sha_mode_ext (snd first)) rest →
  let m := concat (sha_bytes e <$> first :: rest) in
  Z.of_nat (length m) < 2 ^ 64 →
  let '(s', e') := foldl (λ '(s, e) run, sha_run s e run) (s, e) (first :: rest) in
  e' = e ∧ ∀ digest, message_digest (snd first) m = Some digest →
    read_digest s' (snd first) (Z.of_nat (length digest)) = digest.
Proof.
  intros [Hl _] Hfirst. rewrite <- (reverse_involutive rest). generalize (reverse rest). clear rest. intros rest.
  assert (∀ rest, Forall (hash_run true) (reverse rest) →
    Forall (λ run, bl808_sec_eng_sha_mode (snd run) = bl808_sec_eng_sha_mode (snd first) ∧
                   bl808_sec_eng_sha_mode_ext (snd run) = bl808_sec_eng_sha_mode_ext (snd first)) (reverse rest) →
    let m := concat (sha_bytes e <$> first :: reverse rest) in Z.of_nat (length m) < 2 ^ 64 →
    let '(s', e') := foldl (λ '(s, e) run, sha_run s e run) (s, e) (first :: reverse rest) in
    e' = e ∧ sha_accum s' = m ∧ length (regs s') = 1024%nat ∧
    ∀ d, message_digest (snd first) m = Some d → read_digest s' (snd first) (Z.of_nat (length d)) = d) as H.
  2: { intros Hr Hmode m Hm. specialize (H rest Hr Hmode Hm). destruct (foldl _ _ _) as [s' e'].
       destruct H as (He & _ & _ & Hd). done. }
  clear rest. induction rest as [|run rest IH]; intros Hr Hmode m Hm.
  - pose proof (sha_run_step s e first false Hl Hfirst) as H. change (reverse []) with ([] : list (Z * Z)) in *.
    assert (m = sha_bytes e first) as Hm1 by apply app_nil_r. clearbody m. subst m.
    cbn [foldl app] in H |- *. destruct (sha_run s e first) as [s' e']. by apply H.
  - rewrite reverse_cons in *. apply Forall_app in Hr as [Hr [Hrun _]%Forall_cons].
    apply Forall_app in Hmode as [Hmode [[Hm1 Hm2] _]%Forall_cons].
    rewrite app_comm_cons, foldl_app. cbn [foldl]. specialize (IH Hr Hmode). cbv zeta in IH.
    assert (m = concat (sha_bytes e <$> first :: reverse rest) ++ sha_bytes e run) as Hmr.
    { subst m. rewrite ?reverse_cons, app_comm_cons, fmap_app, concat_app. cbn [fmap list_fmap concat]. by rewrite app_nil_r. }
    change (foldl _ (sha_run s e first) (reverse rest)) with
      (foldl (λ '(s, e) run, sha_run s e run) (s, e) (first :: reverse rest)).
    destruct (foldl _ (s, e) (first :: reverse rest)) as [s1 e1] eqn:Hf.
    rewrite Hmr, length_app in Hm. destruct IH as (-> & Ha & Hl1 & _); [lia|].
    pose proof (sha_run_step s1 e run true Hl1 Hrun) as Hstep. cbv zeta in Hstep. rewrite Ha, <- Hmr in Hstep.
    assert (∀ m, message_digest (snd first) m = message_digest (snd run) m) as Hmd.
    { intros m'. unfold message_digest. by rewrite Hm1, Hm2. }
    assert (∀ s n, read_digest s (snd first) n = read_digest s (snd run) n) as Hrd.
    { intros s' n. unfold read_digest, digest_reg, bl808_sec_eng_sha_is_64bit. by rewrite Hm1. }
    destruct (sha_run s1 e run) as [s' e']. setoid_rewrite Hrd. rewrite Hmd. apply Hstep.
    rewrite Hmr, length_app. lia.
Qed.
End run.

(** ** Ciphers *)

Section cipher.
Context {E : Type} `{PM : !PhysMem E} `{QC : !QCrypto} `{GT : !GnuTLS} `{EL : !EcbLaws} `{R : !Ram (E := E)}.

Definition aes_msg_len (ctrl : Z) : Z :=
  Z.shiftr (Z.land ctrl SEC_ENG_SE_AES_0_MSG_LEN_MASK) SEC_ENG_SE_AES_0_MSG_LEN_SHIFT.

Record same_aes (c v : Z) : Prop := {
  same_key_mode : aes_key_mode c = aes_key_mode v;
  same_block_mode : aes_block_mode c = aes_block_mode v;
  same_aes_len : aes_msg_len c = aes_msg_len v;
  same_dec : tst c SEC_ENG_SE_AES_0_DEC_EN = tst v SEC_ENG_SE_AES_0_DEC_EN;
  same_hw : tst c SEC_ENG_SE_AES_0_HW_KEY_EN = tst v SEC_ENG_SE_AES_0_HW_KEY_EN;
  same_aes_link : tst c SEC_ENG_SE_AES_0_LINK_MODE = tst v SEC_ENG_SE_AES_0_LINK_MODE;
}.

Lemma written_same_aes old v :
  same_aes (Z.lor (int_bits (Z.lor (clr old aes_ctrl_bits) (Z.land v aes_ctrl_bits)) v SEC_ENG_SE_AES_0_INT
    SEC_ENG_SE_AES_0_INT_CLR_1T SEC_ENG_SE_AES_0_INT_SET_1T) SEC_ENG_SE_AES_0_BUSY) v.
Proof.
  split; unfold aes_key_mode, aes_block_mode, aes_msg_len, tst; by rewrite written_field by (by vm_compute).
Qed.

(** The bytes of consecutive words. *)
Lemma words_bytes (put : Z → list Z) ws : (∀ w, length (put w) = 4%nat ∧ Forall (uint 8) (put w)) →
  length (concat (put <$> ws)) = (4 * length ws)%nat ∧ Forall (uint 8) (concat (put <$> ws)).
Proof.
  intros Hp. induction ws as [|w ws [IHl IHb]]; [done|]. rewrite fmap_cons. cbn [concat].
  destruct (Hp w) as [Hl Hb]. rewrite length_app, Hl, IHl. split; [simpl; lia|]. by apply Forall_app.
Qed.

Lemma le_word w : length (cpu_to_le 4 w) = 4%nat ∧ Forall (uint 8) (cpu_to_le 4 w).
Proof. split; [apply cpu_to_le_length|apply cpu_to_le_bytes]. Qed.

Lemma be_word w : length (cpu_to_be 4 w) = 4%nat ∧ Forall (uint 8) (cpu_to_be 4 w).
Proof. split; [apply cpu_to_be_length|apply Forall_reverse, cpu_to_le_bytes]. Qed.

Lemma key_regs_length s n : 0 ≤ n → n mod 4 = 0 → Z.of_nat (length (key_regs s n)) = n.
Proof.
  intros Hn Hm. unfold key_regs.
  destruct (words_bytes (λ i, cpu_to_le 4 (reg s (SEC_ENG_SE_AES_0_KEY_0_OFFSET + i * 4))) (seqZ 0 ((n + 3) / 4))
    (λ i, le_word _)) as [Hl _]. rewrite Hl, length_seqZ.
  pose proof (Z.div_mod n 4 ltac:(lia)).
  assert ((n + 3) / 4 = n / 4) by (symmetry; apply (Z.div_unique_pos _ _ _ 3); lia). lia.
Qed.

Lemma iv_block s ctrl : is_block (bl808_sec_eng_build_iv_regs s ctrl).
Proof.
  unfold bl808_sec_eng_build_iv_regs.
  assert (∀ put : Z → list Z, (∀ w, length (put w) = 4%nat ∧ Forall (uint 8) (put w)) → is_block (concat (put <$> seqZ 0 4))) as H.
  { intros put Hp. destruct (words_bytes put (seqZ 0 4) Hp) as [Hl Hb]. split; [by rewrite Hl|done]. }
  destruct (bl808_sec_eng_aes_mode ctrl) as [[]|]; try (apply H; intros; apply le_word || apply be_word).
  split; [done|apply zeros_bytes].
Qed.

(** The modes that the engine implements itself. *)
Definition own_mode (v : Z) : Prop :=
  bl808_sec_eng_aes_mode v = Some QCRYPTO_CIPHER_MODE_CTR ∨ bl808_sec_eng_aes_mode v = Some QCRYPTO_CIPHER_MODE_XTS.

Lemma key_regs_lengths s v key alg : bl808_sec_eng_build_aes_key_regs s v = Some (key, alg) →
  (bl808_sec_eng_aes_mode v = Some QCRYPTO_CIPHER_MODE_CTR → Z.of_nat (length key) = aes_key_len alg) ∧
  (bl808_sec_eng_aes_mode v = Some QCRYPTO_CIPHER_MODE_XTS → Z.of_nat (length key) = 2 * aes_key_len alg).
Proof.
  unfold bl808_sec_eng_build_aes_key_regs. intros Hk.
  split; intros Hm; rewrite Hm in Hk; cbv zeta in Hk;
    repeat (match type of Hk with context [if ?b then _ else _] => destruct b end; [injection Hk as <- <-|]); try done;
    rewrite ?length_app, ?Nat2Z.inj_add, ?key_regs_length by (done || lia); done.
Qed.

(** What a register-mode run makes of its input. *)
Definition aes_message (s : BL808SecEngState) (v : Z) (key : aes_key) (inp : list Z) : list Z :=
  let iv := bl808_sec_eng_build_iv_regs s v in
  let total := aes_msg_len v in
  let klen := aes_key_len (snd key) in
  match bl808_sec_eng_aes_mode v with
  | Some QCRYPTO_CIPHER_MODE_XTS =>
      xts_message (tst v SEC_ENG_SE_AES_0_DEC_EN) (snd key) (slice (fst key) 0 klen) (slice (fst key) klen klen)
        (le_to_cpu iv) (data_unit (fst (aes_unit_regs s v)) (snd (aes_unit_regs s v)) total) total inp
  | _ => ctr_message (snd key) (fst key) (be_to_cpu iv) total inp
  end.

Lemma aes_unit_nonneg s v : 0 ≤ fst (aes_unit_regs s v).
Proof.
  unfold aes_unit_regs. destruct (_ =? 3); [|done]. simpl. apply Z.land_nonneg. by right.
Qed.

Lemma crypt_message s c key src dst e : bl808_sec_eng_build_aes_key_regs s c = Some key → own_mode c →
  0 < aes_msg_len c → ram_range src (16 * aes_msg_len c) →
  snd (bl808_sec_eng_run_aes_crypt c src dst (fst key) (snd key) (bl808_sec_eng_build_iv_regs s c)
    (fst (aes_unit_regs s c)) (snd (aes_unit_regs s c)) (16 * aes_msg_len c) e) =
  cpu_physical_memory_write dst (aes_message s c key (guest e src (16 * aes_msg_len c))) e.
Proof.
  destruct key as [key alg]. intros Hk Hm Ht Hr. destruct (key_regs_lengths s c key alg Hk) as [K1 K2].
  unfold aes_message. cbv zeta. destruct Hm as [Hm|Hm]; rewrite Hm.
  - rewrite run_ctr; [done|done|by apply K1|apply iv_block|lia|done].
  - rewrite run_xts; [done|done|by apply K2|apply iv_block|lia|apply aes_unit_nonneg|done].
Qed.

Lemma aes_msg_len_bound v : 0 ≤ aes_msg_len v < 2 ^ 16.
Proof.
  assert (uint 16 (aes_msg_len v)) as H; [|exact H]. apply uint_bits; [lia| |].
  - apply Z.shiftr_nonneg, Z.land_nonneg. by right.
  - intros i Hi. unfold aes_msg_len. rewrite Z.shiftr_spec, Z.land_spec by lia.
    rewrite (uint_testbit_high 32 SEC_ENG_SE_AES_0_MSG_LEN_MASK); [apply andb_false_r|lia|by vm_compute|].
    change SEC_ENG_SE_AES_0_MSG_LEN_SHIFT with 16. lia.
Qed.

(** Key, vector and data unit are taken from registers above the control and
    status registers. *)
Definition same_setup (s t : BL808SecEngState) : Prop := ∀ off, 68 ≤ off / 4 → reg t off = reg s off.

Lemma setup_key s t c v : same_setup s t → same_aes c v →
  bl808_sec_eng_build_aes_key_regs t c = bl808_sec_eng_build_aes_key_regs s v ∧
  bl808_sec_eng_build_iv_regs t c = bl808_sec_eng_build_iv_regs s v ∧
  aes_unit_regs t c = aes_unit_regs s v.
Proof.
  intros Hs [Hk Hb _ _ _ _].
  assert (∀ n, key_regs t n = key_regs s n) as Hkr.
  { intros n. unfold key_regs. f_equal. apply list_fmap_ext. intros j i Hi. apply lookup_seqZ in Hi as [-> ?].
    rewrite Hs; [done|]. change SEC_ENG_SE_AES_0_KEY_0_OFFSET with (72 * 4). rewrite Z.div_add, Z.div_mul by lia. lia. }
  assert (∀ c, bl808_sec_eng_build_iv_regs t c = bl808_sec_eng_build_iv_regs s c) as Hiv.
  { intros c'. unfold bl808_sec_eng_build_iv_regs.
    destruct (bl808_sec_eng_aes_mode c') as [[]|]; [..|done]; change (seqZ 0 4) with [0; 1; 2; 3]; cbn [fmap list_fmap];
      by rewrite !Hs by (vm_compute; congruence). }
  assert (bl808_sec_eng_aes_mode c = bl808_sec_eng_aes_mode v) as Hm by (unfold bl808_sec_eng_aes_mode; by rewrite Hb).
  split_and!.
  - unfold bl808_sec_eng_build_aes_key_regs. by rewrite Hk, Hm, !Hkr.
  - rewrite Hiv. unfold bl808_sec_eng_build_iv_regs. by rewrite Hm.
  - unfold aes_unit_regs. rewrite Hb. by rewrite Hs by (vm_compute; congruence).
Qed.
(** One run as a guest programs it: source, destination, control word. *)
Definition aes_start (s : BL808SecEngState) (e : E) (src dst v : Z) : BL808SecEngState * E :=
  let '(s, e) := bl808_sec_eng_write s SEC_ENG_SE_AES_0_MSA_OFFSET src 4 e in
  let '(s, e) := bl808_sec_eng_write s SEC_ENG_SE_AES_0_MDA_OFFSET dst 4 e in
  bl808_sec_eng_write s SEC_ENG_SE_AES_0_CTRL_OFFSET v 4 e.

(** A run with the key of the key registers, in a mode of the engine. *)
Record aes_value (v : Z) : Prop := {
  av_uint : uint 32 v;
  av_trig : tst v SEC_ENG_SE_AES_0_TRIG_1T = true;
  av_link : tst v SEC_ENG_SE_AES_0_LINK_MODE = false;
  av_hw : tst v SEC_ENG_SE_AES_0_HW_KEY_EN = false;
  av_mode : own_mode v;
  av_len : 0 < aes_msg_len v;
}.

Lemma complete_aes_frame s c : length (regs s) = 1024%nat →
  length (regs (bl808_sec_eng_complete_aes s c)) = 1024%nat ∧ same_setup s (bl808_sec_eng_complete_aes s c).
Proof.
  intros Hl. unfold bl808_sec_eng_complete_aes, bl808_sec_eng_update_irq. split; [simpl; by rewrite !aset_length|].
  intros off Ho. change (reg (?x <| irq := _ |>) off) with (reg x off).
  assert (0x100 / 4 = 64 ∧ 0x10c / 4 = 67) as [H64 H67] by done.
  unfold SEC_ENG_SE_AES_0_CTRL_OFFSET, SEC_ENG_SE_AES_0_STATUS_OFFSET.
  rewrite !reg_set by (simpl; rewrite ?aset_length; lia || done). rewrite H64, H67, !decide_False by lia. done.
Qed.

Lemma same_setup_set s off v : length (regs s) = 1024%nat → 0 ≤ off / 4 < 68 → same_setup s (set_reg s off v).
Proof. intros Hl Ho off' Ho'. rewrite reg_set by (done || lia). by rewrite decide_False by lia. Qed.

Lemma run_aes_spec s c key e : length (regs s) = 1024%nat →
  tst c SEC_ENG_SE_AES_0_LINK_MODE = false → tst c SEC_ENG_SE_AES_0_HW_KEY_EN = false → own_mode c →
  0 < aes_msg_len c → bl808_sec_eng_build_aes_key_regs s c = Some key →
  let src := reg s SEC_ENG_SE_AES_0_MSA_OFFSET in
  ram_range src (16 * aes_msg_len c) →
  let '(s', e') := bl808_sec_eng_run_aes s c e in
  e' = cpu_physical_memory_write (reg s SEC_ENG_SE_AES_0_MDA_OFFSET)
         (aes_message s c key (guest e src (16 * aes_msg_len c))) e ∧
  length (regs s') = 1024%nat ∧ same_setup s s'.
Proof.
  intros Hl Hlink Hhw Hm Hlen Hk src Hr. unfold bl808_sec_eng_run_aes. rewrite Hlink, Hhw, Hk.
  unfold aes_crypt_and_complete. pose proof (aes_msg_len_bound c) as Hb. fold (aes_msg_len c).
  rewrite wrap_small by (unfold uint; lia). destruct (Z.eqb_spec (aes_msg_len c * 16) 0); [lia|].
  rewrite (Z.mul_comm (aes_msg_len c)). fold src.
  pose proof (crypt_message s c key src (reg s SEC_ENG_SE_AES_0_MDA_OFFSET) e Hk Hm Hlen Hr) as Hc.
  destruct (bl808_sec_eng_run_aes_crypt _ _ _ _ _ _ _ _ _ _) as [ok e']. simpl in Hc. subst e'.
  split; [done|]. by apply complete_aes_frame.
Qed.

Lemma aes_start_spec s e src dst v key : length (regs s) = 1024%nat → aes_value v → uint 32 src → uint 32 dst →
  bl808_sec_eng_build_aes_key_regs s v = Some key → ram_range src (16 * aes_msg_len v) →
  let '(s', e') := aes_start s e src dst v in
  e' = cpu_physical_memory_write dst (aes_message s v key (guest e src (16 * aes_msg_len v))) e ∧
  length (regs s') = 1024%nat ∧ same_setup s s'.
Proof.
  intros Hl [Hv Ht Hlink Hhw Hm Hlen] Hsrc Hdst Hk Hr. unfold aes_start.
  change (bl808_sec_eng_write s SEC_ENG_SE_AES_0_MSA_OFFSET src 4 e) with (set_reg s SEC_ENG_SE_AES_0_MSA_OFFSET (u32 src), e).
  cbv iota. rewrite (wrap_small 32 src) by done. set (s1 := set_reg s _ src).
  change (bl808_sec_eng_write s1 SEC_ENG_SE_AES_0_MDA_OFFSET dst 4 e) with (set_reg s1 SEC_ENG_SE_AES_0_MDA_OFFSET (u32 dst), e).
  cbv iota. rewrite (wrap_small 32 dst) by done. set (s2 := set_reg s1 _ dst).
  change (bl808_sec_eng_write s2 SEC_ENG_SE_AES_0_CTRL_OFFSET v 4 e) with (bl808_sec_eng_write_aes s2 (u32 v) e).
  rewrite (wrap_small 32 v) by done. unfold bl808_sec_eng_write_aes. cbv zeta. rewrite Ht.
  pose proof (written_same_aes (reg s2 SEC_ENG_SE_AES_0_CTRL_OFFSET) v) as Hf.
  set (c := Z.lor (int_bits _ _ _ _ _) _) in *. clearbody c. set (s3 := set_reg s2 _ c).
  assert (length (regs s1) = 1024%nat) as Hl1 by (simpl; by rewrite aset_length).
  assert (length (regs s2) = 1024%nat) as Hl2 by (simpl; by rewrite !aset_length).
  assert (length (regs s3) = 1024%nat) as Hl3 by (simpl; by rewrite !aset_length).
  assert (same_setup s s3) as Hs.
  { intros off Ho. unfold s3. rewrite (same_setup_set s2 _ c) by (done || (vm_compute; split; congruence)). unfold s2.
    rewrite (same_setup_set s1 _ dst) by (done || (vm_compute; split; congruence)). unfold s1.
    by rewrite (same_setup_set s _ src) by (done || (vm_compute; split; congruence)). }
  assert (reg s3 SEC_ENG_SE_AES_0_MSA_OFFSET = src ∧ reg s3 SEC_ENG_SE_AES_0_MDA_OFFSET = dst) as [Hmsa Hmda].
  { unfold s3, s2, s1. by rewrite !reg_set by (done || (vm_compute; repeat split; congruence)). }
  destruct (setup_key s s3 c v Hs Hf) as (Hkey & Hiv & Hun).
  assert (bl808_sec_eng_aes_mode c = bl808_sec_eng_aes_mode v) as Hmode.
  { unfold bl808_sec_eng_aes_mode. by rewrite (same_block_mode c v Hf). }
  pose proof (run_aes_spec s3 c key e Hl3) as H. cbv zeta in H.
  rewrite Hmsa, Hmda, (same_aes_len c v Hf), (same_hw c v Hf), (same_aes_link c v Hf), Hkey in H.
  unfold own_mode in H. rewrite Hmode in H. specialize (H Hlink Hhw Hm Hlen Hk Hr).
  destruct (bl808_sec_eng_run_aes s3 c e) as [s' e']. destruct H as (-> & Hl' & Hs').
  split; [|split; [done|]].
  - unfold aes_message. by rewrite Hiv, Hun, (same_aes_len c v Hf), (same_dec c v Hf), Hmode.
  - intros off Ho. by rewrite Hs', Hs.
Qed.

Lemma aes_message_blocks s v key inp : bl808_sec_eng_build_aes_key_regs s v = Some key → own_mode v →
  Forall (uint 8) inp → Z.of_nat (length inp) = 16 * aes_msg_len v →
  Z.of_nat (length (aes_message s v key inp)) = 16 * aes_msg_len v ∧ Forall (uint 8) (aes_message s v key inp).
Proof.
  intros Hk Hm Hi Hl. pose proof (aes_msg_len_bound v). unfold aes_message.
  destruct Hm as [-> | ->]; apply blocks_message; try lia; intros i Hr.
  - by apply (ctr_message_block _ _ _ (aes_msg_len v)).
  - by apply (xts_block_block _ _ _ _ _ _ _ _ (aes_msg_len v)).
Qed.

(** C14: the CTR and XTS modes, from the registers.  A run that a guest triggers
    with the key in the key registers replaces [msg_len] blocks at the destination
    address by the mode of operation over the blocks at the source: in the CTR
    mode block [i] is the input xor the encryption of the big-endian 128-bit
    counter of the IV registers plus [i]; in the XTS mode it is
    [E1(P xor T) xor T] (or the inverse), where the tweak [T] of block [i] is the
    remainder, modulo x^128 + x^7 + x^2 + x + 1 over GF(2), of the product of
    [E2(iv + i / unit)] with [x^(i mod unit)], [unit] being the number of blocks
    of a data unit. *)
Theorem sec_aes_blocks s e src dst v key i :
  regs_wf s → aes_value v → uint 32 src → uint 32 dst →
  bl808_sec_eng_build_aes_key_regs s v = Some key →
  ram_range src (16 * aes_msg_len v) → ram_range dst (16 * aes_msg_len v) → 0 ≤ i < aes_msg_len v →
  let '(_, e') := aes_start s e src dst v in
  let inp := slice (guest e src (16 * aes_msg_len v)) (16 * i) 16 in
  let out := slice (guest e' dst (16 * aes_msg_len v)) (16 * i) 16 in
  let alg := snd key in
  let iv := bl808_sec_eng_build_iv_regs s v in
  match bl808_sec_eng_aes_mode v with
  | Some QCRYPTO_CIPHER_MODE_CTR =>
      out = xor_bytes inp (block_enc alg (fst key) (cpu_to_be 16 (be_to_cpu iv + i)))
  | _ =>
      let key1 := slice (fst key) 0 (aes_key_len alg) in
      let key2 := slice (fst key) (aes_key_len alg) (aes_key_len alg) in
      let unit := data_unit (fst (aes_unit_regs s v)) (snd (aes_unit_regs s v)) (aes_msg_len v) in
      ∃ t, remainder 128 (modulus 128 0x87)
             (Z.shiftl (le_to_cpu (block_enc alg key2 (cpu_to_le 16 (le_to_cpu iv + i / unit)))) (i mod unit)) t ∧
        out = xor_bytes ((if tst v SEC_ENG_SE_AES_0_DEC_EN then block_dec else block_enc) alg key1
                (xor_bytes inp (cpu_to_le 16 t))) (cpu_to_le 16 t)
  end.
Proof.
  intros [Hl _] Hv Hsrc Hdst Hk Hr Hrd Hi.
  pose proof (aes_start_spec s e src dst v key Hl Hv Hsrc Hdst Hk Hr) as H.
  destruct (aes_start s e src dst v) as [s' e']. destruct H as (-> & _ & _).
  pose proof (guest_bytes e src (16 * aes_msg_len v)) as Hib.
  pose proof (guest_length e src (16 * aes_msg_len v) ltac:(pose proof (aes_msg_len_bound v); lia)) as Hil.
  destruct (aes_message_blocks s v key _ Hk (av_mode v Hv) Hib Hil) as [Hml Hmb].
  pose proof (guest_write e dst (aes_message s v key (guest e src (16 * aes_msg_len v))) Hmb) as Hgw.
  rewrite Hml in Hgw. cbv zeta. rewrite (Hgw Hrd). clear Hgw.
  unfold aes_message. destruct (av_mode v Hv) as [Hm|Hm]; rewrite Hm; cbv zeta.
  - unfold ctr_message. rewrite slice_concat_blocks; [done|done|].
    intros j Hj. by apply (ctr_message_block _ _ _ (aes_msg_len v)).
  - unfold xts_message. rewrite slice_concat_blocks; [|done|].
    2: { intros j Hj. by apply (xts_block_block _ _ _ _ _ _ _ _ (aes_msg_len v)). }
    set (unit := data_unit _ _ _). assert (0 < unit) as Hu.
    { subst unit. unfold data_unit. pose proof (aes_unit_nonneg s v). repeat case_match; lia. }
    unfold xts_block, xts_tweak. set (x := le_to_cpu _).
    exists (Nat.iter (Z.to_nat (i mod unit)) gf_mul_x x). split; [|done].
    pose proof (Z.mod_pos_bound i unit Hu). rewrite <- (Z2Nat.id (i mod unit)) at 1 by lia.
    apply gf_mul_x_iter. subst x. match goal with |- uint _ (le_to_cpu ?b) => assert (is_block b) as [Hbl Hbb] end.
    { apply block_enc_block, number_block. }
    apply le_to_cpu_bound in Hbb. by rewrite Hbl in Hbb.
Qed.

(** C13: decryption undoes encryption.  A guest encrypts a message from [src] to
    [dst] and then decrypts it from [dst] to [back], with the same control word
    but for the direction bit: in the CTR and XTS modes, for every key size, data
    unit and number of blocks, memory at [back] then holds the original message;
    the three areas may overlap. *)
Theorem sec_aes_roundtrip s e src dst back v v' key :
  regs_wf s → aes_value v → aes_value v' → uint 32 src → uint 32 dst → uint 32 back →
  same_aes (clr v' SEC_ENG_SE_AES_0_DEC_EN) v → tst v SEC_ENG_SE_AES_0_DEC_EN = false →
  tst v' SEC_ENG_SE_AES_0_DEC_EN = true →
  bl808_sec_eng_build_aes_key_regs s v = Some key →
  let n := 16 * aes_msg_len v in
  ram_range src n → ram_range dst n → ram_range back n →
  let '(s1, e1) := aes_start s e src dst v in
  let '(s2, e2) := aes_start s1 e1 dst back v' in
  guest e2 back n = guest e src n.
Proof.
  intros [Hl _] Hv Hv' Hsrc Hdst Hback Hsame Hdec Hdec' Hk n Hr1 Hr2 Hr3.
  assert (∀ m, Z.land m SEC_ENG_SE_AES_0_DEC_EN = 0 → Z.land (clr v' SEC_ENG_SE_AES_0_DEC_EN) m = Z.land v' m) as Hclr.
  { intros m Hm. unfold clr. apply Z.bits_inj'. intros i Hi. rewrite !Z.land_spec, Z.lnot_spec by lia.
    apply (f_equal (λ z, Z.testbit z i)) in Hm. rewrite Z.land_spec, Z.bits_0 in Hm.
    destruct (Z.testbit m i); [|by rewrite !andb_false_r]. simpl in Hm. by rewrite Hm, !andb_true_r. }
  destruct Hsame as [S1 S2 S3 _ _ _]. unfold aes_key_mode, aes_block_mode, aes_msg_len in S1, S2, S3.
  rewrite Hclr in S1, S2, S3 by done. fold (aes_key_mode v') (aes_key_mode v) in S1.
  fold (aes_block_mode v') (aes_block_mode v) in S2. fold (aes_msg_len v') (aes_msg_len v) in S3.
  assert (bl808_sec_eng_aes_mode v' = bl808_sec_eng_aes_mode v) as Hmode by (unfold bl808_sec_eng_aes_mode; by rewrite S2).
  pose proof (aes_start_spec s e src dst v key Hl Hv Hsrc Hdst Hk Hr1) as H1.
  destruct (aes_start s e src dst v) as [s1 e1]. destruct H1 as (-> & Hl1 & Hs1).
  assert (bl808_sec_eng_build_aes_key_regs s1 v' = Some key) as Hk1.
  { rewrite <- Hk. transitivity (bl808_sec_eng_build_aes_key_regs s v').
    - by apply (setup_key s s1 v' v').
    - unfold bl808_sec_eng_build_aes_key_regs. by rewrite S1, Hmode. }
  destruct (setup_key s s1 v' v' Hs1 ltac:(done)) as (_ & Hiv & Hun).
  set (inp := guest e src n). set (e1 := cpu_physical_memory_write dst _ e).
  pose proof (aes_start_spec s1 e1 dst back v' key Hl1 Hv' Hdst Hback Hk1) as H2. rewrite S3 in H2. specialize (H2 Hr2).
  destruct (aes_start s1 e1 dst back v') as [s2 e2]. destruct H2 as (-> & _ & _).
  pose proof (aes_msg_len_bound v) as Hlb.
  assert (Z.of_nat (length inp) = 16 * aes_msg_len v) as Hil by (apply guest_length; lia).
  assert (Forall (uint 8) inp) as Hib by apply guest_bytes.
  destruct (aes_message_blocks s v key inp Hk (av_mode v Hv) Hib Hil) as [Hml Hmb].
  assert (guest e1 dst (16 * aes_msg_len v) = aes_message s v key inp) as ->.
  { rewrite <- Hml. apply guest_write; [done|by rewrite Hml]. }
  assert (aes_message s1 v' key (aes_message s v key inp) = inp) as ->.
  { unfold aes_message. rewrite Hiv, Hun, S3, Hmode, Hdec, Hdec'.
    assert (bl808_sec_eng_build_iv_regs s v' = bl808_sec_eng_build_iv_regs s v) as ->.
    { unfold bl808_sec_eng_build_iv_regs. by rewrite Hmode. }
    assert (aes_unit_regs s v' = aes_unit_regs s v) as -> by (unfold aes_unit_regs; by rewrite S2).
    destruct (av_mode v Hv) as [-> | ->]; [apply ctr_twice|apply xts_dec_enc]; done || lia. }
  subst n. rewrite <- Hil. apply guest_write; [done|by rewrite Hil].
Qed.
End cipher.

(** ** A concrete world

    Plain memory, and libraries that satisfy the interfaces: a cipher that
    reverses a block and adds a byte of the key, digests and MACs that are
    constant. *)

Module SecEngDemo.

Definition world : Type := Z → Z.
Definition world_ram (e : world) : mem := λ a, u8 (e a).

#[export] Instance demo_mem : PhysMem world := {|
  cpu_physical_memory_read a n e := (world_ram e <$> seqZ a (Z.of_nat n), e);
  cpu_physical_memory_write a bs e := λ x,
    if decide (a ≤ x < a + Z.of_nat (length bs)) then bs !!! Z.to_nat (x - a) else e x;
|}.

#[export] Program Instance demo_ram : Ram (E := world) := {| ram := world_ram; is_ram _ := True |}.
Next Obligation. intros e a. by apply uint_wrap. Qed.
Next Obligation. done. Qed.
Next Obligation.
  intros a bs e _ Hb x. unfold world_ram. simpl. case_decide as Hd; [|done]. apply wrap_small.
  apply (Forall_lookup_total_1 _ _ _ Hb). lia.
Qed.

Definition demo_byte (key : list Z) : Z := u8 (key !!! 0%nat).
Definition demo_enc (key b : list Z) : list Z := (λ x, Z.lxor x (demo_byte key)) <$> reverse b.
Definition demo_dec (key b : list Z) : list Z := reverse ((λ x, Z.lxor x (demo_byte key)) <$> b).

#[export] Instance demo_crypto : QCrypto := {|
  QCryptoCipher := list Z;
  qcrypto_hash_bytes alg data := Some (replicate (Z.to_nat (hash_digest_len alg)) 0x11);
  qcrypto_cipher_supports _ _ := true;
  qcrypto_cipher_new _ _ key := Some key;
  qcrypto_cipher_setiv c _ := Some c;
  qcrypto_cipher_encrypt c b := Some (demo_enc c b, c);
  qcrypto_cipher_decrypt c b := Some (demo_dec c b, c);
|}.

#[export] Instance demo_gnutls : GnuTLS := {|
  CONFIG_GNUTLS_CRYPTO := true;
  gnutls_hmac_hd_t := unit;
  gnutls_mac_get_nonce_size := 12;
  gnutls_hmac_init _ := Some tt;
  gnutls_hmac_set_nonce h _ := h;
  gnutls_hmac h _ := Some h;
  gnutls_hmac_output _ := replicate 16 0x22;
|}.

#[export] Instance demo_hash_laws : HashLaws.
Proof.
  split. intros alg data digest [= <-]. split.
  - rewrite length_replicate. destruct alg; reflexivity.
  - by apply Forall_replicate.
Qed.

Lemma demo_xor_bytes key b : Forall (uint 8) b → Forall (uint 8) ((λ x, Z.lxor x (demo_byte key)) <$> b).
Proof. intros Hb. apply Forall_fmap. eapply Forall_impl; [done|]. intros x Hx. by apply uint_lxor, uint_wrap. Qed.

Lemma demo_xor_twice key (b : list Z) : (λ x, Z.lxor x (demo_byte key)) <$> ((λ x, Z.lxor x (demo_byte key)) <$> b) = b.
Proof.
  rewrite <- list_fmap_compose. rewrite <- (list_fmap_id b) at 2. apply list_fmap_ext. intros i x _.
  unfold compose. by rewrite Z.lxor_assoc, Z.lxor_nilpotent, Z.lxor_0_r.
Qed.

#[export] Program Instance demo_ecb : EcbLaws := {|
  block_enc _ key b := demo_enc key b;
  block_dec _ key b := demo_dec key b;
  ecb c _ key := c = key;
|}.
Next Obligation. done. Qed.
Next Obligation. intros alg key _. by exists key. Qed.
Next Obligation. intros c alg key b Hc _. rewrite Hc. by exists key. Qed.
Next Obligation. intros c alg key b Hc _. rewrite Hc. by exists key. Qed.
Next Obligation.
  intros _ key b [Hl Hb]. unfold demo_enc. split; [by rewrite length_fmap, length_reverse|].
  by apply demo_xor_bytes, Forall_reverse.
Qed.
Next Obligation.
  intros _ key b [Hl Hb]. unfold demo_dec. split; [by rewrite length_reverse, length_fmap|].
  by apply Forall_reverse, demo_xor_bytes.
Qed.
Next Obligation. intros alg key b Hb. unfold demo_enc, demo_dec. by rewrite demo_xor_twice, reverse_involutive. Qed.

(** Memory with the letter a up to 0x107f and the letter b behind. *)
Definition letters : world := λ a, if a <? 0x1080 then 0x61 else 0x62.
Definition demo_start : BL808SecEngState := bl808_sec_eng_reset (mk_sec [] [] [] 0 0 None).
Definition demo_key : BL808SecEngState :=
  foldl (λ s i, set_reg s (SEC_ENG_SE_AES_0_KEY_0_OFFSET + i * 4) (0x01020304 * (i + 1))) demo_start (seqZ 0 8).

Lemma demo_regs : regs_wf demo_start ∧ regs_wf demo_key.
Proof. split; (split; [by vm_compute|apply (bool_decide_unpack (Forall (uint 32) _)); by vm_compute]). Qed.

(** SHA-512/256 of 128 times "a" and 128 times "b", in two runs. *)
Lemma sec_sha_stream_witness :
  let '(s', _) := foldl (λ '(s, e) run, sha_run s e run) (demo_start, letters) [(0x1000, 0x1001e); (0x1080, 0x1005e)] in
  be_to_cpu (read_digest s' 0x1001e 32) = 0x33ca370fae7124385bb921372646525d050601077415155cebd1a0895d2fc6d1.
Proof.
  assert (hash_run false (0x1000, 0x1001e)) as H1 by (split; try (by vm_compute); by right + by left).
  assert (Forall (hash_run true) [(0x1080, 0x1005e)]) as H2.
  { constructor; [|done]. split; try (by vm_compute); by right + by left. }
  assert (Forall (λ run, bl808_sec_eng_sha_mode (snd run) = bl808_sec_eng_sha_mode 0x1001e ∧
    bl808_sec_eng_sha_mode_ext (snd run) = bl808_sec_eng_sha_mode_ext 0x1001e) [(0x1080, 0x1005e)]) as H3.
  { by repeat constructor. }
  pose proof (sec_sha_stream (0x1000, 0x1001e) [(0x1080, 0x1005e)] demo_start letters (proj1 demo_regs) H1 H2 H3) as H.
  cbv zeta in H. specialize (H ltac:(by vm_compute)).
  destruct (foldl _ (demo_start, letters) _) as [s' e']. destruct H as [_ Hd].
  specialize (Hd _ ltac:(vm_compute; reflexivity)). change (Z.of_nat (length _)) with 32 in Hd.
  change (snd (4096, 65566)) with 0x1001e in Hd. rewrite Hd. by vm_compute.
Defined.

(** After a reset both domains own the AES unit: setting its interrupt raises
    both shared lines; masking it lowers them. *)
Lemma sec_lines_follow_witness :
  let '(s', _) := sec_writes [(SEC_ENG_SE_AES_0_CTRL_OFFSET, 0x400, 4)] demo_start letters in
  irq s' = [true; true; false; false].
Proof.
  pose proof (sec_lines_follow [(SEC_ENG_SE_AES_0_CTRL_OFFSET, 0x400, 4)] (mk_sec [] [] [] 0 0 None) letters) as H.
  specialize (H ltac:(by repeat constructor)). fold demo_start in H.
  destruct (sec_writes _ demo_start letters) as [s' e'] eqn:Hw. destruct H as [_ ->].
  apply (f_equal fst) in Hw. simpl in Hw. subst s'. by vm_compute.
Defined.

(** The second block of a CTR run over three blocks. *)
Lemma sec_aes_blocks_witness :
  let '(_, e') := aes_start demo_key letters 0x1070 0x3000 0x31002 in
  slice (guest e' 0x3000 48) 16 16 =
  xor_bytes (replicate 16 0x62) (demo_enc (key_regs demo_key 16) (cpu_to_be 16 1)).
Proof.
  assert (aes_value 0x31002) as Hv by (split; try (by vm_compute); by left).
  pose proof (sec_aes_blocks demo_key letters 0x1070 0x3000 0x31002
    (key_regs demo_key 16, QCRYPTO_CIPHER_ALGO_AES_128) 1 (proj2 demo_regs) Hv ltac:(by vm_compute) ltac:(by vm_compute)
    ltac:(done) ltac:(done) ltac:(done) ltac:(by vm_compute)) as H.
  destruct (aes_start demo_key letters 0x1070 0x3000 0x31002) as [s' e']. cbv zeta in H.
  change (bl808_sec_eng_aes_mode 0x31002) with (Some QCRYPTO_CIPHER_MODE_CTR) in H. cbv iota in H.
  etransitivity; [exact H|]. by vm_compute.
Defined.

(** XTS with a 256-bit key and data units of two blocks, over five blocks. *)
Lemma sec_aes_roundtrip_witness :
  let '(s1, e1) := aes_start demo_key letters 0x1050 0x3000 0x5300a in
  let '(_, e2) := aes_start s1 e1 0x3000 0x4000 0x5302a in
  guest e2 0x4000 80 = replicate 48 0x61 ++ replicate 32 0x62.
Proof.
  assert (aes_value 0x5300a) as Hv by (split; try (by vm_compute); by right).
  assert (aes_value 0x5302a) as Hv' by (split; try (by vm_compute); by right).
  assert (same_aes (clr 0x5302a SEC_ENG_SE_AES_0_DEC_EN) 0x5300a) as Hs by (split; by vm_compute).
  pose proof (sec_aes_roundtrip demo_key letters 0x1050 0x3000 0x4000 0x5300a 0x5302a
    (key_regs demo_key 32 ++ key_regs demo_key 32, QCRYPTO_CIPHER_ALGO_AES_256) (proj2 demo_regs) Hv Hv'
    ltac:(by vm_compute) ltac:(by vm_compute) ltac:(by vm_compute) Hs ltac:(by vm_compute) ltac:(by vm_compute)
    ltac:(done) ltac:(done) ltac:(done) ltac:(done)) as H.
  destruct (aes_start demo_key letters 0x1050 0x3000 0x5300a) as [s1 e1].
  destruct (aes_start s1 e1 0x3000 0x4000 0x5302a) as [s2 e2].
  etransitivity; [exact H|]. by vm_compute.
Defined.
End SecEngDemo.
