(* ===== verification/SfCtrl.v ===== *)
(** * The serial flash controller ([qemu-machine/hw/block/bl808_sf_ctrl.c])

    Module [BL808SFCTRL]: the registers and the command buffer of the controller,
    the NOR flash chip behind it (a Winbond W25Q128JW: its array, its status and
    security registers, its write-enable latch and its modes), and the windows
    through which the cores execute in place from the flash (XIP).

    Large arrays (the flash, the windows) are functions from byte offsets to
    bytes ([mem]); accesses outside their bounds do not occur in the code, as the
    bounds of each access show.  The drive that backs the flash is a type [B] with
    the accesses of the block layer, the class [BlockBackend]. *)

From S2P Require Import Prelude Qemu.
From stdpp Require Import prelude list.
From Stdlib Require Import ZArith Lia.
Local Open Scope Z_scope.

(** [memset] and [memcpy] on large arrays. *)
Definition mem_fill (m : mem) (base n v : Z) : mem :=
  λ a, if (base <=? a) && (a <? base + n) then v else m a.
Definition mem_copy (dst : mem) (d : Z) (src : mem) (o n : Z) : mem :=
  λ a, if (d <=? a) && (a <? d + n) then src (o + (a - d)) else dst a.
Definition mem_store (m : mem) (a v : Z) : mem := λ x, if x =? a then v else m x.

(** [memcpy] of the bytes of a buffer to the start of another. *)
Definition copy_front (buf data : list Z) : list Z := data ++ drop (length data) buf.

(** The block layer: [blk_pread] gives the result and the bytes read, [blk_pwrite]
    the result and the drive after it; a negative result is an error. *)
Class BlockBackend (B : Type) := {
  blk_set_perm : B → Z * B;
  blk_getlength : B → Z;
  blk_pread : B → Z → Z → Z * mem;
  blk_pwrite : B → Z → Z → mem → Z * B;
}.

Module BL808SFCTRL.

Definition REG_SF_CTRL_0 := 0x000.
Definition REG_SF_CTRL_1 := 0x004.
Definition REG_SF_CTRL_IF_SAHB0 := 0x008.
Definition REG_SF_CTRL_IF_SAHB1 := 0x00C.
Definition REG_SF_CTRL_IF_SAHB2 := 0x010.
Definition REG_SF_CTRL_SF_ID0_OFFSET := 0x0A0.
Definition REG_SF_CTRL_SF_ID1_OFFSET := 0x0A4.
Definition REG_SF_CTRL_SF_BK2_ID0_OFFSET := 0x0A8.
Definition REG_SF_CTRL_SF_BK2_ID1_OFFSET := 0x0AC.
Definition REG_SF_CTRL_SF_ID0 := 0x14C.
Definition REG_SF_CTRL_SF_ID1 := 0x150.

Definition SF_CTRL_0_32B_ADDR_EN := BIT 19.

Definition SAHB0_BUSY := BIT 0.
Definition SAHB0_TRIGGER := BIT 1.
Definition SAHB0_DATA_BYTES_SHIFT := 2.
Definition SAHB0_DATA_BYTES_MASK := Z.shiftl 0x3ff SAHB0_DATA_BYTES_SHIFT.
Definition SAHB0_ADDR_BYTES_SHIFT := 17.
Definition SAHB0_ADDR_BYTES_MASK := Z.shiftl 0x7 SAHB0_ADDR_BYTES_SHIFT.
Definition SAHB0_CMD_BYTES_SHIFT := 20.
Definition SAHB0_CMD_BYTES_MASK := Z.shiftl 0x7 SAHB0_CMD_BYTES_SHIFT.
Definition SAHB0_DATA_EN := BIT 24.
Definition SAHB0_ADDR_EN := BIT 26.
Definition SAHB0_CMD_EN := BIT 27.

Definition FLASH_CMD_WRITE_SR := 0x01.
Definition FLASH_CMD_PAGE_PROG := 0x02.
Definition FLASH_CMD_READ := 0x03.
Definition FLASH_CMD_WRDIS := 0x04.
Definition FLASH_CMD_READ_SR1 := 0x05.
Definition FLASH_CMD_WREN := 0x06.
Definition FLASH_CMD_FAST_READ := 0x0B.
Definition FLASH_CMD_WRITE_SR3 := 0x11.
Definition FLASH_CMD_READ_SR3 := 0x15.
Definition FLASH_CMD_SECTOR_ERASE := 0x20.
Definition FLASH_CMD_WRITE_SR2 := 0x31.
Definition FLASH_CMD_QPAGE_PROG := 0x32.
Definition FLASH_CMD_READ_SR2 := 0x35.
Definition FLASH_CMD_QPP_OR_QPI := 0x38.
Definition FLASH_CMD_DUAL_READ := 0x3B.
Definition FLASH_CMD_SEC_REG_PROG := 0x42.
Definition FLASH_CMD_SEC_REG_ERASE := 0x44.
Definition FLASH_CMD_SEC_REG_READ := 0x48.
Definition FLASH_CMD_READ_UID := 0x4B.
Definition FLASH_CMD_WREN_VOLATILE := 0x50.
Definition FLASH_CMD_BLOCK_ERASE32 := 0x52.
Definition FLASH_CMD_CHIP_ERASE_ALT := 0x60.
Definition FLASH_CMD_EN_RESET := 0x66.
Definition FLASH_CMD_QUAD_READ := 0x6B.
Definition FLASH_CMD_BURST_WRAP := 0x77.
Definition FLASH_CMD_READ_MFG_DEVICE_ID := 0x90.
Definition FLASH_CMD_READ_MFG_DEVICE_ID_DUAL := 0x92.
Definition FLASH_CMD_READ_MFG_DEVICE_ID_QUAD := 0x94.
Definition FLASH_CMD_RESET := 0x99.
Definition FLASH_CMD_READ_ID := 0x9F.
Definition FLASH_CMD_REL_PD := 0xAB.
Definition FLASH_CMD_EN4B := 0xB7.
Definition FLASH_CMD_POWER_DN := 0xB9.
Definition FLASH_CMD_DIO_READ := 0xBB.
Definition FLASH_CMD_BURST_WRAP_ALT := 0xC0.
Definition FLASH_CMD_CHIP_ERASE := 0xC7.
Definition FLASH_CMD_BLOCK_ERASE64 := 0xD8.
Definition FLASH_CMD_EX4B := 0xE9.
Definition FLASH_CMD_QIO_READ := 0xEB.
Definition FLASH_CMD_EXIT_QPI := 0xFF.

Definition W25Q128JW_MFR := 0xEF.
Definition W25Q128JW_MEM := 0x60.
Definition W25Q128JW_CAP := 0x18.
Definition W25Q128JW_DEVICE_ID := 0x17.
Definition W25Q128JW_UID_LO := 0x44332211.
Definition W25Q128JW_UID_HI := 0x88776655.

Definition SR1_WEL := BIT 1.
Definition SR1_BP0 := BIT 2.
Definition SR1_BP1 := BIT 3.
Definition SR1_BP2 := BIT 4.
Definition SR1_TB := BIT 5.
Definition SR1_SEC := BIT 6.
Definition SR1_SRP0 := BIT 7.
Definition SR2_SRL := BIT 0.
Definition SR2_QE := BIT 1.
Definition SR2_LB1 := BIT 3.
Definition SR2_LB2 := BIT 4.
Definition SR2_LB3 := BIT 5.
Definition SR2_CMP := BIT 6.
Definition SR2_SUS := BIT 7.
Definition SR3_WPS := BIT 2.
Definition SR3_DRV0 := BIT 5.
Definition SR3_DRV1 := BIT 6.

Definition SR1_WRITABLE_MASK :=
  Z.lor (Z.lor (Z.lor (Z.lor (Z.lor SR1_BP0 SR1_BP1) SR1_BP2) SR1_TB) SR1_SEC) SR1_SRP0.
Definition SR2_LB_MASK := Z.lor (Z.lor SR2_LB1 SR2_LB2) SR2_LB3.
Definition SR2_WRITABLE_MASK := Z.lor (Z.lor (Z.lor SR2_SRL SR2_QE) SR2_LB_MASK) SR2_CMP.
Definition SR3_WRITABLE_MASK := Z.lor (Z.lor SR3_WPS SR3_DRV0) SR3_DRV1.

Definition FLASH_SECTOR_SIZE := 4 * 1024.
Definition FLASH_BLOCK32_SIZE := 32 * 1024.
Definition FLASH_BLOCK64_SIZE := 64 * 1024.
Definition FLASH_PAGE_SIZE := 256.

Definition BL808_SF_CTRL_FLASH_APERTURE_SIZE := 64 * 1024 * 1024.
Definition BL808_SF_CTRL_FLASH_SIZE := 16 * 1024 * 1024.
Definition BL808_SF_CTRL_SEC_REG_COUNT := 3.
Definition BL808_SF_CTRL_SEC_REG_SIZE := 256.
Definition BL808_SF_CTRL_BUF_OFF := 0x600.
Definition BL808_SF_CTRL_BUF_SIZE := 512.
Definition BL808_SF_CTRL_GROUP_COUNT := 2.
Definition BL808_SF_CTRL_BANK_COUNT := 2.

(** ** State *)

Section state.
Context {B : Type}.

(** The two-dimensional arrays indexed by group and bank are functions; the
    command buffer is its 512 bytes. *)
Record BL808SfCtrlState := mk_sf {
  blk : option B;
  sf_ctrl_0 : Z;                       (* uint32_t *)
  sf_ctrl_1 : Z;
  sf_ctrl_if_sahb0 : Z;
  sf_ctrl_if_sahb1 : Z;
  sf_ctrl_if_sahb2 : Z;
  regs : list Z;                       (* uint32_t [0x180] *)
  buf : list Z;                        (* bytes *)
  flash : mem;
  sec_reg : list (list Z);             (* uint8_t [3][256] *)
  xip_ptr : Z → Z → option mem;
  xip_offset : Z → Z → Z;              (* uint32_t *)
  reset_xip_offset : Z → Z → Z;
  sr1 : Z;                             (* uint8_t *)
  sr2 : Z;
  sr3 : Z;
  sr1_nv : Z;
  sr2_nv : Z;
  sr3_nv : Z;
  volatile_wel : bool;
  powered_down : bool;
  qpi_mode : bool;
  reset_armed : bool;
  burst_wrap_data : Z;
}.
End state.
Arguments BL808SfCtrlState : clear implicits.
#[export] Instance eta_sf {B} : Eta (BL808SfCtrlState B) := λ r,
  mk_sf (blk r) (sf_ctrl_0 r) (sf_ctrl_1 r) (sf_ctrl_if_sahb0 r) (sf_ctrl_if_sahb1 r) (sf_ctrl_if_sahb2 r)
    (regs r) (buf r) (flash r) (sec_reg r) (xip_ptr r) (xip_offset r) (reset_xip_offset r)
    (sr1 r) (sr2 r) (sr3 r) (sr1_nv r) (sr2_nv r) (sr3_nv r) (volatile_wel r) (powered_down r)
    (qpi_mode r) (reset_armed r) (burst_wrap_data r).

(** [a[group][bank] = v]. *)
Definition set2 {A} (a : Z → Z → A) (group bank : Z) (v : A) : Z → Z → A :=
  λ g b, if (g =? group) && (b =? bank) then v else a g b.

(** ** The windows of execution in place *)

Section sf.
Context {B : Type} `{!BlockBackend B}.
Notation state := (BL808SfCtrlState B).

Definition sf_ctrl_valid_group_bank (group bank : Z) : bool :=
  (group <? BL808_SF_CTRL_GROUP_COUNT) && (bank <? BL808_SF_CTRL_BANK_COUNT).

(** The assertion on its arguments holds: every caller has checked them. *)
Definition sf_ctrl_image_offset_reg (group bank : Z) : Z :=
  if group =? 0
  then (if bank =? 0 then REG_SF_CTRL_SF_ID0_OFFSET else REG_SF_CTRL_SF_BK2_ID0_OFFSET)
  else (if bank =? 0 then REG_SF_CTRL_SF_ID1_OFFSET else REG_SF_CTRL_SF_BK2_ID1_OFFSET).

Definition bl808_sf_ctrl_get_flash_image_offset (s : state) (group bank : Z) : Z :=
  if negb (sf_ctrl_valid_group_bank group bank) then 0 else xip_offset s group bank.

Definition sf_ctrl_refresh_xip_view (s : state) (group bank : Z) : state :=
  if negb (sf_ctrl_valid_group_bank group bank) then s
  else match xip_ptr s group bank with
  | None => s
  | Some xip =>
      let offset := xip_offset s group bank in
      let xip := mem_fill xip 0 BL808_SF_CTRL_FLASH_APERTURE_SIZE 0xFF in
      let xip :=
        if BL808_SF_CTRL_FLASH_SIZE <=? offset then xip
        else
          let available := u32 (BL808_SF_CTRL_FLASH_SIZE - offset) in
          mem_copy xip 0 (flash s) offset (Z.min available BL808_SF_CTRL_FLASH_APERTURE_SIZE) in
      s <| xip_ptr := set2 (xip_ptr s) group bank (Some xip) |>
  end.

Definition sf_ctrl_sync_xip_range (s : state) (group bank offset size : Z) : state :=
  if negb (sf_ctrl_valid_group_bank group bank) then s
  else match xip_ptr s group bank with
  | None => s
  | Some xip =>
      if size =? 0 then s
      else
        let image_offset := xip_offset s group bank in
        if u32 (offset + size) <=? image_offset then s
        else
          let start := if image_offset <? offset then u32 (offset - image_offset) else 0 in
          if BL808_SF_CTRL_FLASH_APERTURE_SIZE <=? start then s
          else
            let end_ := Z.min (u32 (offset + size - image_offset)) BL808_SF_CTRL_FLASH_APERTURE_SIZE in
            if end_ <=? start then s
            else
              s <| xip_ptr := set2 (xip_ptr s) group bank
                     (Some (mem_copy xip start (flash s) (image_offset + start) (end_ - start))) |>
  end.

(** The nested loops over groups and banks, in order. *)
Definition group_banks : list (Z * Z) := [(0, 0); (0, 1); (1, 0); (1, 1)].

Definition bl808_sf_ctrl_sync_all_xip (s : state) : state :=
  foldl (λ s '(group, bank), sf_ctrl_refresh_xip_view s group bank) s group_banks.

Definition sf_ctrl_sync_xip (s : state) (offset size : Z) : state :=
  foldl (λ s '(group, bank), sf_ctrl_sync_xip_range s group bank offset size) s group_banks.

Definition bl808_sf_ctrl_set_flash_image_offset (s : state) (group bank addr_offset : Z) : state :=
  if negb (sf_ctrl_valid_group_bank group bank) then s
  else
    let addr_offset := Z.land addr_offset 0x0FFFFFFF in
    let reg := sf_ctrl_image_offset_reg group bank in
    let s := s <| xip_offset := set2 (xip_offset s) group bank addr_offset |> in
    let s := s <| regs := aset (regs s) (reg / 4) addr_offset |> in
    sf_ctrl_refresh_xip_view s group bank.

(** A failed write is only logged. *)
Definition sf_ctrl_blk_write (s : state) (offset size : Z) : state :=
  match blk s with
  | Some d =>
      if u32 (offset + size) <=? BL808_SF_CTRL_FLASH_SIZE
      then s <| blk := Some (blk_pwrite d offset size (λ i, flash s (offset + i))).2 |>
      else s
  | None => s
  end.

(** The device is realized, so [flash] is allocated; [data] is the buffer at
    the pointer, or no buffer. *)
Definition bl808_sf_ctrl_write_flash (s : state) (offset : Z) (data : option mem) (size : Z) : state :=
  match data with
  | None => s
  | Some data =>
      if (size =? 0) || (BL808_SF_CTRL_FLASH_SIZE <=? offset) then s
      else
        let size := if BL808_SF_CTRL_FLASH_SIZE <? u32 (offset + size)
                    then u32 (BL808_SF_CTRL_FLASH_SIZE - offset) else size in
        let s := s <| flash := mem_copy (flash s) offset data 0 size |> in
        let s := sf_ctrl_sync_xip s offset size in
        sf_ctrl_blk_write s offset size
  end.

(** ** The flash chip *)

Definition sf_ctrl_store_data (s : state) (data : list Z) : state :=
  let data := take (Z.to_nat BL808_SF_CTRL_BUF_SIZE) data in
  s <| buf := copy_front (replicate (Z.to_nat BL808_SF_CTRL_BUF_SIZE) 0xFF) data |>.

Definition sf_ctrl_restore_status_from_nv (s : state) : state :=
  s <| sr1 := Z.land (sr1_nv s) SR1_WRITABLE_MASK |>
    <| sr2 := Z.lor (Z.land (sr2_nv s) SR2_WRITABLE_MASK) SR2_QE |>
    <| sr3 := Z.land (sr3_nv s) SR3_WRITABLE_MASK |>.

Definition sf_ctrl_soft_reset (s : state) : state :=
  let s := s <| sf_ctrl_0 := clr (sf_ctrl_0 s) SF_CTRL_0_32B_ADDR_EN |>
             <| sf_ctrl_if_sahb0 := 0 |> <| sf_ctrl_if_sahb1 := 0 |> <| sf_ctrl_if_sahb2 := 0 |> in
  let s := sf_ctrl_restore_status_from_nv s in
  s <| sr1 := clr (sr1 s) SR1_WEL |>
    <| sr2 := clr (sr2 s) SR2_SUS |>
    <| volatile_wel := false |> <| powered_down := false |> <| qpi_mode := false |>
    <| reset_armed := false |> <| burst_wrap_data := 0 |>
    <| buf := replicate (Z.to_nat BL808_SF_CTRL_BUF_SIZE) 0 |>.

Definition sf_ctrl_status_write_enabled (s : state) : bool :=
  if tst (sr2 s) SR2_SRL then false else tst (sr1 s) SR1_WEL || volatile_wel s.

Definition sf_ctrl_reset_register_defaults (s : state) : state :=
  let s := s <| regs := replicate (Z.to_nat (BL808_SF_CTRL_BUF_OFF / 4)) 0 |> in
  let s := foldl (λ s '(group, bank),
      let reg := sf_ctrl_image_offset_reg group bank in
      let s := s <| xip_offset := set2 (xip_offset s) group bank
                      (Z.land (reset_xip_offset s group bank) 0x0FFFFFFF) |> in
      s <| regs := aset (regs s) (reg / 4) (xip_offset s group bank) |>) s group_banks in
  let s := s <| regs := aset (regs s) (REG_SF_CTRL_SF_ID0 / 4)
                 (Z.lor (Z.lor W25Q128JW_MFR (Z.shiftl W25Q128JW_MEM 8)) (Z.shiftl W25Q128JW_CAP 16)) |> in
  s <| regs := aset (regs s) (REG_SF_CTRL_SF_ID1 / 4) W25Q128JW_DEVICE_ID |>.

Definition sf_ctrl_flash_power_on_reset (s : state) : state :=
  let s := s <| sr1_nv := 0 |> <| sr2_nv := SR2_QE |> <| sr3_nv := 0 |> in
  let s := sf_ctrl_restore_status_from_nv s in
  s <| volatile_wel := false |> <| powered_down := false |> <| qpi_mode := false |>
    <| reset_armed := false |> <| burst_wrap_data := 0 |>.

(** The bytes that a read of [n] bytes leaves in the buffer. *)
Definition read_into (n : Z) (byte : Z → Z) : list Z :=
  copy_front (replicate (Z.to_nat BL808_SF_CTRL_BUF_SIZE) 0xFF) (byte <$> seqZ 0 n).

Definition sf_ctrl_read_buffer (s : state) (addr data_len : Z) : state :=
  let max_bytes := if data_len =? 0 then BL808_SF_CTRL_BUF_SIZE
                   else Z.min data_len BL808_SF_CTRL_BUF_SIZE in
  if BL808_SF_CTRL_FLASH_SIZE <=? addr then s <| buf := read_into 0 (λ _, 0) |>
  else
    let avail := u32 (BL808_SF_CTRL_FLASH_SIZE - addr) in
    s <| buf := read_into (Z.min avail max_bytes) (λ i, flash s (addr + i)) |>.

(** The register and the offset in it, or [None] for [false]. *)
Definition sf_ctrl_decode_sec_reg_addr (addr : Z) : option (Z * Z) :=
  if negb (Z.land addr 0xFF0000 =? 0) || negb (Z.land addr 0x0F00 =? 0) then None
  else
    let slot := Z.land (Z.shiftr addr 12) 0x0F in
    if (slot <? 1) || (BL808_SF_CTRL_SEC_REG_COUNT <? slot) then None
    else Some (slot - 1, Z.land addr 0xFF).

Definition sf_ctrl_sec_reg_lock_mask (reg_index : Z) : Z := u8 (Z.shiftl SR2_LB1 reg_index).

Definition sf_ctrl_read_sec_reg (s : state) (addr data_len : Z) : state :=
  let max_bytes := if data_len =? 0 then BL808_SF_CTRL_BUF_SIZE
                   else Z.min data_len BL808_SF_CTRL_BUF_SIZE in
  match sf_ctrl_decode_sec_reg_addr addr with
  | None => s <| buf := read_into 0 (λ _, 0) |>
  | Some (reg_index, reg_offset) =>
      s <| buf := read_into max_bytes (λ i, sec_reg s !% reg_index !% Z.land (reg_offset + i) 0xFF) |>
  end.

Definition sf_ctrl_erase_range (s : state) (base size : Z) : state :=
  let s := s <| flash := mem_fill (flash s) base size 0xFF |> in
  let s := sf_ctrl_sync_xip s base size in
  let s := sf_ctrl_blk_write s base size in
  s <| sr1 := clr (sr1 s) SR1_WEL |>.

Definition sf_ctrl_page_program (s : state) (addr data_len : Z) : state :=
  let src := buf s in
  if (BL808_SF_CTRL_FLASH_SIZE <=? addr) || negb (tst (sr1 s) SR1_WEL)
  then s <| sr1 := clr (sr1 s) SR1_WEL |>
  else
    let page_base := clr addr (FLASH_PAGE_SIZE - 1) in
    let page_offset := Z.land addr (FLASH_PAGE_SIZE - 1) in
    let len := Z.min (if data_len =? 0 then BL808_SF_CTRL_BUF_SIZE else data_len) FLASH_PAGE_SIZE in
    let s := s <| flash := foldl (λ m i,
      let dest := page_base + Z.land (page_offset + i) (FLASH_PAGE_SIZE - 1) in
      if dest <? BL808_SF_CTRL_FLASH_SIZE then mem_store m dest (Z.land (m dest) (src !% i)) else m)
      (flash s) (seqZ 0 len) |> in
    let s := sf_ctrl_sync_xip s page_base FLASH_PAGE_SIZE in
    let s := sf_ctrl_blk_write s page_base FLASH_PAGE_SIZE in
    s <| sr1 := clr (sr1 s) SR1_WEL |>.

Definition sf_ctrl_sec_reg_erase (s : state) (addr : Z) : state :=
  match sf_ctrl_decode_sec_reg_addr addr with
  | None => s <| sr1 := clr (sr1 s) SR1_WEL |>
  | Some (reg_index, _) =>
      if tst (sr2 s) (sf_ctrl_sec_reg_lock_mask reg_index) then s <| sr1 := clr (sr1 s) SR1_WEL |>
      else
        let s := s <| sec_reg := aset (sec_reg s) reg_index
                       (replicate (Z.to_nat BL808_SF_CTRL_SEC_REG_SIZE) 0xFF) |> in
        s <| sr1 := clr (sr1 s) SR1_WEL |>
  end.

Definition sf_ctrl_sec_reg_program (s : state) (addr data_len : Z) : state :=
  let src := buf s in
  match (if tst (sr1 s) SR1_WEL then sf_ctrl_decode_sec_reg_addr addr else None) with
  | None => s <| sr1 := clr (sr1 s) SR1_WEL |>
  | Some (reg_index, reg_offset) =>
      if tst (sr2 s) (sf_ctrl_sec_reg_lock_mask reg_index) then s <| sr1 := clr (sr1 s) SR1_WEL |>
      else
        let len := Z.min (if data_len =? 0 then BL808_SF_CTRL_BUF_SIZE else data_len)
                         BL808_SF_CTRL_SEC_REG_SIZE in
        let r := foldl (λ r i,
          let o := Z.land (reg_offset + i) 0xFF in aset r o (Z.land (r !% o) (src !% i)))
          (sec_reg s !% reg_index) (seqZ 0 len) in
        let s := s <| sec_reg := aset (sec_reg s) reg_index r |> in
        s <| sr1 := clr (sr1 s) SR1_WEL |>
  end.

Definition sf_ctrl_apply_sr2_write (current requested : Z) : Z :=
  let next := clr current (Z.lor SR2_SRL SR2_CMP) in
  let next := Z.lor next (Z.land requested (Z.lor SR2_SRL SR2_CMP)) in
  let next := Z.lor next (Z.land current SR2_LB_MASK) in
  let next := Z.lor next (Z.land requested SR2_LB_MASK) in
  Z.lor next SR2_QE.

Definition sf_ctrl_apply_sr3_write (current requested : Z) : Z :=
  Z.lor (clr current SR3_WRITABLE_MASK) (Z.land requested SR3_WRITABLE_MASK).

Definition sf_ctrl_commit_status_write (s : state) (write_volatile : bool) : state :=
  let s := s <| sr1 := clr (sr1 s) SR1_WEL |> <| sr2 := Z.lor (sr2 s) SR2_QE |>
             <| volatile_wel := false |> in
  if negb write_volatile then
    s <| sr1_nv := Z.land (sr1 s) SR1_WRITABLE_MASK |>
      <| sr2_nv := Z.lor (Z.land (sr2 s) SR2_WRITABLE_MASK) SR2_QE |>
      <| sr3_nv := Z.land (sr3 s) SR3_WRITABLE_MASK |>
  else s.

(** ** Commands *)

(** [stl_be_p] and [stl_le_p]: the bytes stored. *)
Definition stl_be_p (v : Z) : list Z := rev (cpu_to_le 4 v).
Definition stl_le_p (v : Z) : list Z := cpu_to_le 4 v.

(** An erase command of [size] bytes (sector and block erase). *)
Definition sf_ctrl_erase_cmd (s : state) (has_addr : bool) (addr size : Z) : state :=
  if has_addr && tst (sr1 s) SR1_WEL then
    let base := clr addr (size - 1) in
    if u32 (base + size) <=? BL808_SF_CTRL_FLASH_SIZE then sf_ctrl_erase_range s base size
    else s <| sr1 := clr (sr1 s) SR1_WEL |>
  else s.

(** The switch of [sf_ctrl_execute_cmd]. *)
Definition sf_ctrl_switch (s : state) (cmd : Z) (has_addr : bool) (addr data_len : Z) : state :=
  let write_status_volatile := volatile_wel s in
  if cmd =? FLASH_CMD_WREN then s <| sr1 := Z.lor (sr1 s) SR1_WEL |> <| volatile_wel := false |>
  else if cmd =? FLASH_CMD_WREN_VOLATILE then s <| volatile_wel := true |>
  else if cmd =? FLASH_CMD_WRDIS then s <| sr1 := clr (sr1 s) SR1_WEL |> <| volatile_wel := false |>
  else if cmd =? FLASH_CMD_READ_SR1 then sf_ctrl_store_data s [sr1 s]
  else if cmd =? FLASH_CMD_READ_SR2 then sf_ctrl_store_data s [sr2 s]
  else if cmd =? FLASH_CMD_READ_SR3 then sf_ctrl_store_data s [sr3 s]
  else if cmd =? FLASH_CMD_WRITE_SR then
    if sf_ctrl_status_write_enabled s then
      let s := if 0 <? data_len then
                 s <| sr1 := Z.lor (clr (sr1 s) SR1_WRITABLE_MASK)
                               (Z.land (buf s !% 0) SR1_WRITABLE_MASK) |> else s in
      let s := if 1 <? data_len then s <| sr2 := sf_ctrl_apply_sr2_write (sr2 s) (buf s !% 1) |> else s in
      sf_ctrl_commit_status_write s write_status_volatile
    else s
  else if cmd =? FLASH_CMD_WRITE_SR2 then
    if sf_ctrl_status_write_enabled s then
      let s := if 0 <? data_len then s <| sr2 := sf_ctrl_apply_sr2_write (sr2 s) (buf s !% 0) |> else s in
      sf_ctrl_commit_status_write s write_status_volatile
    else s
  else if cmd =? FLASH_CMD_WRITE_SR3 then
    if sf_ctrl_status_write_enabled s then
      let s := if 0 <? data_len then s <| sr3 := sf_ctrl_apply_sr3_write (sr3 s) (buf s !% 0) |> else s in
      sf_ctrl_commit_status_write s write_status_volatile
    else s
  else if cmd =? FLASH_CMD_READ_ID then
    sf_ctrl_store_data s [W25Q128JW_MFR; W25Q128JW_MEM; W25Q128JW_CAP]
  else if cmd =? FLASH_CMD_READ_UID then
    sf_ctrl_store_data s (stl_le_p W25Q128JW_UID_LO ++ stl_le_p W25Q128JW_UID_HI)
  else if cmd =? FLASH_CMD_REL_PD then
    let s := s <| powered_down := false |> in
    if 0 <? data_len then sf_ctrl_store_data s [W25Q128JW_DEVICE_ID] else s
  else if (cmd =? FLASH_CMD_READ_MFG_DEVICE_ID) || (cmd =? FLASH_CMD_READ_MFG_DEVICE_ID_DUAL) ||
          (cmd =? FLASH_CMD_READ_MFG_DEVICE_ID_QUAD) then
    if negb has_addr || (addr =? 0) then sf_ctrl_store_data s [W25Q128JW_MFR; W25Q128JW_DEVICE_ID] else s
  else if (cmd =? FLASH_CMD_READ) || (cmd =? FLASH_CMD_FAST_READ) || (cmd =? FLASH_CMD_DIO_READ) ||
          (cmd =? FLASH_CMD_DUAL_READ) || (cmd =? FLASH_CMD_QIO_READ) || (cmd =? FLASH_CMD_QUAD_READ) then
    if has_addr then sf_ctrl_read_buffer s addr data_len else s
  else if cmd =? FLASH_CMD_SEC_REG_READ then
    if has_addr then sf_ctrl_read_sec_reg s addr data_len else s
  else if (cmd =? FLASH_CMD_PAGE_PROG) || (cmd =? FLASH_CMD_QPAGE_PROG) then
    if has_addr then sf_ctrl_page_program s addr data_len else s
  else if cmd =? FLASH_CMD_SEC_REG_PROG then
    if has_addr then sf_ctrl_sec_reg_program s addr data_len else s
  else if cmd =? FLASH_CMD_QPP_OR_QPI then
    if has_addr then sf_ctrl_page_program s addr data_len else s <| qpi_mode := true |>
  else if cmd =? FLASH_CMD_SECTOR_ERASE then sf_ctrl_erase_cmd s has_addr addr FLASH_SECTOR_SIZE
  else if cmd =? FLASH_CMD_SEC_REG_ERASE then
    if has_addr && tst (sr1 s) SR1_WEL then sf_ctrl_sec_reg_erase s addr else s
  else if cmd =? FLASH_CMD_BLOCK_ERASE32 then sf_ctrl_erase_cmd s has_addr addr FLASH_BLOCK32_SIZE
  else if cmd =? FLASH_CMD_BLOCK_ERASE64 then sf_ctrl_erase_cmd s has_addr addr FLASH_BLOCK64_SIZE
  else if (cmd =? FLASH_CMD_CHIP_ERASE) || (cmd =? FLASH_CMD_CHIP_ERASE_ALT) then
    if tst (sr1 s) SR1_WEL then sf_ctrl_erase_range s 0 BL808_SF_CTRL_FLASH_SIZE else s
  else if (cmd =? FLASH_CMD_BURST_WRAP) || (cmd =? FLASH_CMD_BURST_WRAP_ALT) then
    if 0 <? data_len then s <| burst_wrap_data := buf s !% 0 |> else s
  else if cmd =? FLASH_CMD_POWER_DN then s <| powered_down := true |>
  else if (cmd =? FLASH_CMD_EN4B) || (cmd =? FLASH_CMD_EX4B) then s
  else if cmd =? FLASH_CMD_EXIT_QPI then s <| qpi_mode := false |>
  else if cmd =? FLASH_CMD_EN_RESET then s <| reset_armed := true |>
  else if cmd =? FLASH_CMD_RESET then
    if reset_armed s then sf_ctrl_reset_register_defaults (sf_ctrl_soft_reset s) else s
  else s.

(** The fields of the command word. *)
Definition sahb0_cmd_bytes (sahb0 : Z) : Z :=
  if tst sahb0 SAHB0_CMD_EN then Z.shiftr (Z.land sahb0 SAHB0_CMD_BYTES_MASK) 20 + 1 else 0.
Definition sahb0_addr_bytes (sahb0 : Z) : Z :=
  if tst sahb0 SAHB0_ADDR_EN
  then Z.shiftr (Z.land sahb0 SAHB0_ADDR_BYTES_MASK) SAHB0_ADDR_BYTES_SHIFT + 1 else 0.
Definition sahb0_data_len (sahb0 : Z) : Z :=
  if tst sahb0 SAHB0_DATA_EN
  then Z.shiftr (Z.land sahb0 SAHB0_DATA_BYTES_MASK) SAHB0_DATA_BYTES_SHIFT + 1 else 0.

Definition sf_ctrl_cmd_stream (s : state) : list Z :=
  stl_be_p (sf_ctrl_if_sahb1 s) ++ stl_be_p (sf_ctrl_if_sahb2 s).

(** The loop that collects the address bytes stops at the end of the stream. *)
Definition sf_ctrl_cmd_addr (s : state) (cmd_bytes addr_bytes : Z) : Z :=
  let addr := foldl (λ addr i,
    if cmd_bytes + i <? 8
    then Z.lor (u32 (Z.shiftl addr 8)) (sf_ctrl_cmd_stream s !% (cmd_bytes + i)) else addr)
    0 (seqZ 0 addr_bytes) in
  if tst (sf_ctrl_0 s) SF_CTRL_0_32B_ADDR_EN then addr else Z.land addr 0x00FFFFFF.

Definition sf_ctrl_execute_cmd (s : state) : state :=
  let sahb0 := sf_ctrl_if_sahb0 s in
  let cmd_bytes := sahb0_cmd_bytes sahb0 in
  let addr_bytes := sahb0_addr_bytes sahb0 in
  let data_len := sahb0_data_len sahb0 in
  let has_addr := negb (addr_bytes =? 0) in
  let finish s := s <| sf_ctrl_if_sahb0 := clr (sf_ctrl_if_sahb0 s) (Z.lor SAHB0_BUSY SAHB0_TRIGGER) |> in
  if cmd_bytes =? 0 then finish s
  else
    let cmd := sf_ctrl_cmd_stream s !% 0 in
    let addr := sf_ctrl_cmd_addr s cmd_bytes addr_bytes in
    if powered_down s && negb (cmd =? FLASH_CMD_REL_PD) then finish s
    else
      let s := if reset_armed s && negb (cmd =? FLASH_CMD_RESET) then s <| reset_armed := false |> else s in
      finish (sf_ctrl_switch s cmd has_addr addr data_len).

(** ** Register handlers *)

Definition in_buf (offset : Z) : bool :=
  (BL808_SF_CTRL_BUF_OFF <=? offset) && (offset <? BL808_SF_CTRL_BUF_OFF + BL808_SF_CTRL_BUF_SIZE).

Definition bl808_sf_ctrl_read (s : state) (offset size : Z) : Z :=
  if in_buf offset then
    let o := Z.to_nat (offset - BL808_SF_CTRL_BUF_OFF) in
    if size =? 1 then buf s !!! o
    else if (size =? 2) || (size =? 4) then le_to_cpu (take (Z.to_nat size) (drop o (buf s)))
    else 0
  else if negb (size =? 4) then 0
  else if offset =? REG_SF_CTRL_0 then sf_ctrl_0 s
  else if offset =? REG_SF_CTRL_1 then sf_ctrl_1 s
  else if offset =? REG_SF_CTRL_IF_SAHB0 then sf_ctrl_if_sahb0 s
  else if offset =? REG_SF_CTRL_IF_SAHB1 then sf_ctrl_if_sahb1 s
  else if offset =? REG_SF_CTRL_IF_SAHB2 then sf_ctrl_if_sahb2 s
  else if (offset <? BL808_SF_CTRL_BUF_OFF) && (Z.land offset 3 =? 0) then regs s !% (offset / 4)
  else 0.

(** The bytes [bs] stored at offset [o] of the buffer. *)
Definition buf_store (b : list Z) (o : nat) (bs : list Z) : list Z :=
  take o b ++ bs ++ drop (o + length bs) b.

Definition bl808_sf_ctrl_write (s : state) (offset value size : Z) : state :=
  if in_buf offset then
    let o := Z.to_nat (offset - BL808_SF_CTRL_BUF_OFF) in
    if (size =? 1) || (size =? 2) || (size =? 4)
    then s <| buf := buf_store (buf s) o (cpu_to_le (Z.to_nat size) value) |>
    else s
  else if negb (size =? 4) then s
  else if offset =? REG_SF_CTRL_0 then s <| sf_ctrl_0 := u32 value |>
  else if offset =? REG_SF_CTRL_1 then s <| sf_ctrl_1 := u32 value |>
  else if offset =? REG_SF_CTRL_IF_SAHB0 then
    let old := sf_ctrl_if_sahb0 s in
    let new_value := clr (u32 value) SAHB0_BUSY in
    let s := s <| sf_ctrl_if_sahb0 := new_value |> in
    if negb (tst old SAHB0_TRIGGER) && tst new_value SAHB0_TRIGGER then
      let s := s <| sf_ctrl_if_sahb0 := Z.lor (sf_ctrl_if_sahb0 s) SAHB0_BUSY |> in
      sf_ctrl_execute_cmd s
    else s
  else if offset =? REG_SF_CTRL_IF_SAHB1 then s <| sf_ctrl_if_sahb1 := u32 value |>
  else if offset =? REG_SF_CTRL_IF_SAHB2 then s <| sf_ctrl_if_sahb2 := u32 value |>
  else if offset =? REG_SF_CTRL_SF_ID0_OFFSET then bl808_sf_ctrl_set_flash_image_offset s 0 0 (u32 value)
  else if offset =? REG_SF_CTRL_SF_ID1_OFFSET then bl808_sf_ctrl_set_flash_image_offset s 1 0 (u32 value)
  else if offset =? REG_SF_CTRL_SF_BK2_ID0_OFFSET then bl808_sf_ctrl_set_flash_image_offset s 0 1 (u32 value)
  else if offset =? REG_SF_CTRL_SF_BK2_ID1_OFFSET then bl808_sf_ctrl_set_flash_image_offset s 1 1 (u32 value)
  else if (offset <? BL808_SF_CTRL_BUF_OFF) && (Z.land offset 3 =? 0)
  then s <| regs := aset (regs s) (offset / 4) (u32 value) |>
  else s.

(** ** Life cycle *)

Definition bl808_sf_ctrl_reset (s : state) : state :=
  let s := sf_ctrl_reset_register_defaults s in
  let s := sf_ctrl_flash_power_on_reset s in
  let s := s <| sf_ctrl_0 := 0 |> <| sf_ctrl_1 := 0 |> in
  let s := sf_ctrl_soft_reset s in
  bl808_sf_ctrl_sync_all_xip s.

(** [None] is an error: the device is not created. *)
Definition bl808_sf_ctrl_realize (s : state) : option state :=
  let s := s <| flash := λ _, 0xFF |>
             <| sec_reg := replicate (Z.to_nat BL808_SF_CTRL_SEC_REG_COUNT)
                             (replicate (Z.to_nat BL808_SF_CTRL_SEC_REG_SIZE) 0xFF) |> in
  let s := sf_ctrl_flash_power_on_reset (sf_ctrl_reset_register_defaults s) in
  match blk s with
  | None => Some (bl808_sf_ctrl_sync_all_xip s)
  | Some d =>
      let '(ret, d) := blk_set_perm d in
      let s := s <| blk := Some d |> in
      if ret <? 0 then None
      else
        let len := blk_getlength d in
        if len <? 0 then None
        else
          let len := if BL808_SF_CTRL_FLASH_SIZE <? len then BL808_SF_CTRL_FLASH_SIZE else len in
          if 0 <? len then
            let '(ret, data) := blk_pread d 0 len in
            if ret <? 0 then None
            else Some (bl808_sf_ctrl_sync_all_xip (s <| flash := mem_copy (flash s) 0 data 0 len |>))
          else Some (bl808_sf_ctrl_sync_all_xip s)
  end.

End sf.
End BL808SFCTRL.
