(* ===== verification/SfCtrlSpec.v ===== *)
(** * The serial flash controller: windows, protection and programming

    The invariant of the controller; the windows of execution in place show the
    flash through every command but the software reset; the flash changes only
    behind a write-enable command, locked security registers never do; and the
    erase-program-read sequence of the HAL stores and returns its data. *)

From S2P Require Import Prelude Qemu SfCtrl.
From stdpp Require Import prelude list.
From Stdlib Require Import ZArith Lia.
Local Open Scope Z_scope.
Import BL808SFCTRL.

(** ** Large arrays *)

Lemma mem_copy_in d o src p n a : o ≤ a < o + n → mem_copy d o src p n a = src (p + (a - o)).
Proof. intros. unfold mem_copy. by rewrite (proj2 (Z.leb_le _ _)), (proj2 (Z.ltb_lt _ _)) by lia. Qed.

Lemma mem_copy_out d o src p n a : ¬ (o ≤ a < o + n) → mem_copy d o src p n a = d a.
Proof.
  intros. unfold mem_copy. destruct (Z.leb_spec o a), (Z.ltb_spec a (o + n)); try done. lia.
Qed.

Lemma mem_fill_in m o n v a : o ≤ a < o + n → mem_fill m o n v a = v.
Proof. intros. unfold mem_fill. by rewrite (proj2 (Z.leb_le _ _)), (proj2 (Z.ltb_lt _ _)) by lia. Qed.

Lemma mem_fill_out m o n v a : ¬ (o ≤ a < o + n) → mem_fill m o n v a = m a.
Proof.
  intros. unfold mem_fill. destruct (Z.leb_spec o a), (Z.ltb_spec a (o + n)); try done. lia.
Qed.

Lemma set2_eq {A} (x : Z → Z → A) g b v : set2 x g b v g b = v.
Proof. unfold set2. by rewrite !Z.eqb_refl. Qed.

Lemma set2_ne {A} (x : Z → Z → A) g b g' b' v : (g', b') ≠ (g, b) → set2 x g b v g' b' = x g' b'.
Proof.
  intros Hne. unfold set2. destruct (Z.eqb_spec g' g), (Z.eqb_spec b' b); try done. congruence.
Qed.

(** Rounding down to a power of two, and the offset in the block. *)
Lemma clr_low x n : 0 ≤ n → clr x (2 ^ n - 1) = x - x mod 2 ^ n.
Proof.
  intros Hn. unfold clr. rewrite <- Z.ldiff_land. replace (2 ^ n - 1) with (Z.ones n) by (rewrite Z.ones_equiv; lia).
  rewrite Z.ldiff_ones_r, Z.shiftl_mul_pow2, Z.shiftr_div_pow2 by done.
  pose proof (Z.div_mod x (2 ^ n)). lia.
Qed.

Lemma land_low x n : 0 ≤ n → Z.land x (2 ^ n - 1) = x mod 2 ^ n.
Proof.
  intros Hn. replace (2 ^ n - 1) with (Z.ones n) by (rewrite Z.ones_equiv; lia). by apply Z.land_ones.
Qed.

(** The bytes after a page program: the bits that are zero in the source are
    cleared, from the start offset round the page. *)
Lemma program_spec m base off src len a :
  base mod 256 = 0 → 0 ≤ base → base + 256 ≤ BL808_SF_CTRL_FLASH_SIZE → 0 ≤ off < 256 → 0 ≤ len ≤ 256 →
  foldl (λ m i,
    let dest := base + Z.land (off + i) (FLASH_PAGE_SIZE - 1) in
    if dest <? BL808_SF_CTRL_FLASH_SIZE then mem_store m dest (Z.land (m dest) (src !% i)) else m)
    m (seqZ 0 len) a =
  if decide (base ≤ a < base + 256 ∧ (a - base - off) mod 256 < len)
  then Z.land (m a) (src !% ((a - base - off) mod 256)) else m a.
Proof.
  intros Hb Hb0 Hend Ho. change (FLASH_PAGE_SIZE - 1) with (2 ^ 8 - 1). revert a.
  assert (∀ n : nat, Z.of_nat n ≤ 256 → ∀ a, foldl (λ m i,
    let dest := base + Z.land (off + i) (2 ^ 8 - 1) in
    if dest <? BL808_SF_CTRL_FLASH_SIZE then mem_store m dest (Z.land (m dest) (src !% i)) else m)
    m (seqZ 0 (Z.of_nat n)) a =
    if decide (base ≤ a < base + 256 ∧ (a - base - off) mod 256 < Z.of_nat n)
    then Z.land (m a) (src !% ((a - base - off) mod 256)) else m a) as Hn.
  2:{ intros a Hl. rewrite <- (Z2Nat.id len) by lia. apply Hn. lia. }
  induction n as [|n IH]; intros Hn a.
  { destruct (decide _) as [[_ Hd]|]; [|done]. pose proof (Z.mod_pos_bound (a - base - off) 256). lia. }
  rewrite Nat2Z.inj_succ, <- Z.add_1_r, seqZ_app, foldl_app by lia.
  replace (seqZ (0 + Z.of_nat n) 1) with [Z.of_nat n] by done. cbn [foldl]. cbv zeta in IH |- *.
  rewrite land_low by lia. change (2 ^ 8) with 256 in IH |- *.
  pose proof (Z.mod_pos_bound (off + Z.of_nat n) 256 ltac:(lia)) as Hd.
  rewrite (proj2 (Z.ltb_lt _ _)) by lia. unfold mem_store at 1.
  set (dest := base + (off + Z.of_nat n) mod 256) in *.
  assert ((dest - base - off) mod 256 = Z.of_nat n) as Hdest.
  { subst dest. replace (base + (off + Z.of_nat n) mod 256 - base - off)
      with ((off + Z.of_nat n) mod 256 - off) by lia.
    rewrite Zminus_mod_idemp_l. replace (off + Z.of_nat n - off) with (Z.of_nat n) by lia.
    apply Z.mod_small. lia. }
  destruct (Z.eqb_spec a dest) as [->|Hne].
  - rewrite (IH ltac:(lia) dest), Hdest, decide_False, decide_True by lia. done.
  - rewrite (IH ltac:(lia) a). destruct (decide (base ≤ a < base + 256 ∧ _)) as [[H1 H2]|H1].
    + by rewrite decide_True by lia.
    + rewrite decide_False; [done|]. intros [H2 H3]. apply H1. split; [done|].
      enough ((a - base - off) mod 256 ≠ Z.of_nat n) by lia. intros Heq. apply Hne. subst dest.
      clear - Heq Hb H2 Ho Hn. Z.div_mod_to_equations. lia.
Qed.

(** ** The windows *)

Lemma flash_size : BL808_SF_CTRL_FLASH_SIZE = 16777216.
Proof. reflexivity. Qed.

Lemma aperture_size : BL808_SF_CTRL_FLASH_APERTURE_SIZE = 67108864.
Proof. reflexivity. Qed.

(** What address [a] of a window with image offset [off] shows of the flash. *)
Definition window (f : mem) (off a : Z) : Z :=
  if off + a <? BL808_SF_CTRL_FLASH_SIZE then f (off + a) else 0xFF.

Definition view_ok (f : mem) (off : Z) (xip : mem) : Prop :=
  ∀ a, 0 ≤ a < BL808_SF_CTRL_FLASH_APERTURE_SIZE → xip a = window f off a.

Section sf.
Context {B : Type} `{!BlockBackend B}.
Notation state := (BL808SfCtrlState B).
Implicit Types s : state.

(** Every window that is mapped shows the flash. *)
Definition coherent s : Prop :=
  ∀ g b xip, (g, b) ∈ group_banks → xip_ptr s g b = Some xip → view_ok (flash s) (xip_offset s g b) xip.

(** What an operation on the windows may do to the pointers: a view stays a view
    or stays absent, and only the views in [l] change. *)
Definition views_updated (l : list (Z * Z)) (f : mem) (off : Z → Z → Z) (old new : Z → Z → option mem)
    (from : mem → Z → mem → Prop) : Prop :=
  ∀ g b, match old g b with
         | None => new g b = None
         | Some xip => ∃ xip', new g b = Some xip' ∧
             (if decide ((g, b) ∈ l) then from f (off g b) xip → view_ok f (off g b) xip' else xip' = xip)
         end.

Lemma sync_range_spec s g b o n :
  (g, b) ∈ group_banks → 0 ≤ o → 0 ≤ n → o + n ≤ BL808_SF_CTRL_FLASH_SIZE → uint 28 (xip_offset s g b) →
  ∃ x, sf_ctrl_sync_xip_range s g b o n = s <| xip_ptr := x |> ∧
    views_updated [(g, b)] (flash s) (xip_offset s) (xip_ptr s) x
      (λ f off xip, ∃ f0, (∀ a, ¬ (o ≤ a < o + n) → f a = f0 a) ∧ view_ok f0 off xip).
Proof.
  intros Hgb Ho Hn Hon Hoff.
  assert (sf_ctrl_valid_group_bank g b = true) as Hv.
  { unfold group_banks in Hgb. set_unfold in Hgb. destruct_or! Hgb; simplify_eq; done. }
  unfold sf_ctrl_sync_xip_range. rewrite Hv. cbn [negb].
  assert (∀ x, (∀ g' b', (g', b') ≠ (g, b) → x g' b' = xip_ptr s g' b') →
    match xip_ptr s g b with
    | None => x g b = None
    | Some xip => ∃ xip', x g b = Some xip' ∧ ((∃ f0, (∀ a, ¬ (o ≤ a < o + n) → flash s a = f0 a) ∧
        view_ok f0 (xip_offset s g b) xip) → view_ok (flash s) (xip_offset s g b) xip')
    end → views_updated [(g, b)] (flash s) (xip_offset s) (xip_ptr s) x
      (λ f off xip, ∃ f0, (∀ a, ¬ (o ≤ a < o + n) → f a = f0 a) ∧ view_ok f0 off xip)) as Hup.
  { intros x Hx Hm g' b'. destruct (decide ((g', b') = (g, b))) as [[= -> ->]|Hne].
    - destruct (xip_ptr s g b) as [xip|]; [|done]. destruct Hm as (xip' & H1 & H2). exists xip'. split; [done|].
      destruct (decide _) as [|Hd]; [done|]. exfalso. apply Hd. by apply list_elem_of_singleton.
    - rewrite Hx by done. destruct (xip_ptr s g' b') as [xip|]; [|done]. exists xip. split; [done|].
      destruct (decide _) as [Hd|]; [|done]. by apply list_elem_of_singleton in Hd. }
  assert (∀ xip, xip_ptr s g b = Some xip → (∀ f0, (∀ a, ¬ (o ≤ a < o + n) → flash s a = f0 a) →
      view_ok f0 (xip_offset s g b) xip → view_ok (flash s) (xip_offset s g b) xip) →
    ∃ x, s = s <| xip_ptr := x |> ∧ views_updated [(g, b)] (flash s) (xip_offset s) (xip_ptr s) x
      (λ f off xip, ∃ f0, (∀ a, ¬ (o ≤ a < o + n) → f a = f0 a) ∧ view_ok f0 off xip)) as Hsame.
  { intros xip Hx Hk. exists (xip_ptr s). split; [by destruct s|]. apply Hup; [done|]. rewrite Hx.
    exists xip. split; [done|]. intros (f0 & H1 & H2). by apply (Hk f0). }
  pose proof flash_size as HF. pose proof aperture_size as HA.
  pose proof (proj1 Hoff). pose proof (proj2 Hoff). set (off := xip_offset s g b) in *.
  destruct (xip_ptr s g b) as [xip|] eqn:Hx.
  2:{ exists (xip_ptr s). split; [by destruct s|]. apply Hup; [done|]. by rewrite Hx. }
  destruct (Z.eqb_spec n 0) as [->|Hn0].
  { apply (Hsame xip eq_refl). intros f0 Hf Hk a Ha. rewrite (Hk a Ha). unfold window.
    destruct (_ <? _); [|done]. symmetry. apply Hf. lia. }
  rewrite (wrap_small 32 (o + n)) by (unfold uint; lia).
  destruct (Z.leb_spec (o + n) off) as [Hle|Hgt].
  { apply (Hsame xip eq_refl). intros f0 Hf Hk a Ha. rewrite (Hk a Ha). unfold window.
    destruct (_ <? _); [|done]. symmetry. apply Hf. lia. }
  cbv zeta. set (start := if off <? o then u32 (o - off) else 0).
  assert (start = Z.max 0 (o - off)) as ->.
  { subst start. destruct (Z.ltb_spec off o); [rewrite wrap_small by (unfold uint; lia); lia|lia]. }
  rewrite (wrap_small 32 (o + n - off)) by (unfold uint; lia).
  destruct (Z.leb_spec BL808_SF_CTRL_FLASH_APERTURE_SIZE (Z.max 0 (o - off))); [lia|].
  destruct (Z.leb_spec (Z.min (o + n - off) BL808_SF_CTRL_FLASH_APERTURE_SIZE) (Z.max 0 (o - off))); [lia|].
  eexists. split; [reflexivity|]. apply Hup; [intros; by apply set2_ne|]. rewrite set2_eq.
  eexists. split; [reflexivity|]. intros (f0 & Hf & Hk) a Ha.
  destruct (decide (Z.max 0 (o - off) ≤ a < Z.min (o + n - off) BL808_SF_CTRL_FLASH_APERTURE_SIZE)) as [Hin|Hout].
  - rewrite mem_copy_in by lia. unfold window. rewrite (proj2 (Z.ltb_lt _ _)) by lia. f_equal. lia.
  - rewrite mem_copy_out by lia. rewrite (Hk a Ha). unfold window. destruct (Z.ltb_spec (off + a) BL808_SF_CTRL_FLASH_SIZE); [|done].
    symmetry. apply Hf. lia.
Qed.

(** The views named by [l] may lag behind in the range from [o]; the others are
    up to date. *)
Definition near (o n : Z) (f : mem) (off : Z) (xip : mem) : Prop :=
  ∃ f0, (∀ a, ¬ (o ≤ a < o + n) → f a = f0 a) ∧ view_ok f0 off xip.

Definition offsets_ok s : Prop := ∀ g b, (g, b) ∈ group_banks → uint 28 (xip_offset s g b).

Lemma sync_fold l s o n :
  l ⊆ group_banks → 0 ≤ o → 0 ≤ n → o + n ≤ BL808_SF_CTRL_FLASH_SIZE → offsets_ok s →
  (∀ g b xip, (g, b) ∈ group_banks → xip_ptr s g b = Some xip →
     near o n (flash s) (xip_offset s g b) xip ∧ ((g, b) ∉ l → view_ok (flash s) (xip_offset s g b) xip)) →
  ∃ x, foldl (λ s '(g, b), sf_ctrl_sync_xip_range s g b o n) s l = s <| xip_ptr := x |> ∧
    coherent (s <| xip_ptr := x |>).
Proof.
  intros Hl Ho Hn Hon. revert s. induction l as [|[g b] l IH]; intros s Hoff Hs.
  { exists (xip_ptr s). split; [by destruct s|]. intros g b xip Hgb Hx.
    apply (Hs g b xip Hgb Hx), not_elem_of_nil. }
  assert ((g, b) ∈ group_banks) as Hgb by (apply Hl; left).
  assert (l ⊆ group_banks) as Hl' by (intros y Hy; apply Hl; by right). cbn [foldl].
  destruct (sync_range_spec s g b o n Hgb Ho Hn Hon (Hoff g b Hgb)) as (x & -> & Hx).
  set (s2 := s <| xip_ptr := x |>). assert (offsets_ok s2) as Hoff2 by exact Hoff.
  destruct (IH Hl' s2 Hoff2) as (x' & Heq & Hc).
  - intros g' b' xip' Hgb' Hx'. change (x g' b' = Some xip') in Hx'.
    change (near o n (flash s) (xip_offset s g' b') xip' ∧
      ((g', b') ∉ l → view_ok (flash s) (xip_offset s g' b') xip')).
    specialize (Hx g' b'). destruct (xip_ptr s g' b') as [xip|] eqn:Hold; [|congruence].
    destruct Hx as (xip2 & Heq & Hd). rewrite Heq in Hx'. injection Hx' as ->.
    destruct (Hs g' b' xip Hgb' Hold) as [Hnear Hv]. destruct (decide _) as [Hin|Hout].
    + specialize (Hd Hnear). split; [|done]. by exists (flash s).
    + subst xip'. split; [done|]. intros Hni. apply Hv. intros [?|?]%elem_of_cons; [|done].
      apply Hout. by apply list_elem_of_singleton.
  - exists x'. split; [exact Heq|exact Hc].
Qed.

Lemma sync_xip_spec s f0 o n :
  0 ≤ o → 0 ≤ n → o + n ≤ BL808_SF_CTRL_FLASH_SIZE → offsets_ok s →
  coherent (s <| flash := f0 |>) → (∀ a, ¬ (o ≤ a < o + n) → flash s a = f0 a) →
  ∃ x, sf_ctrl_sync_xip s o n = s <| xip_ptr := x |> ∧ coherent (s <| xip_ptr := x |>).
Proof.
  intros Ho Hn Hon Hoff Hc Hf. apply sync_fold; try done. intros g b xip Hgb Hx. split.
  - exists f0. split; [done|]. by apply (Hc g b xip).
  - intros Hni. by destruct (Hni Hgb).
Qed.

Lemma refresh_spec s g b :
  (g, b) ∈ group_banks → uint 28 (xip_offset s g b) →
  ∃ x, sf_ctrl_refresh_xip_view s g b = s <| xip_ptr := x |> ∧
    views_updated [(g, b)] (flash s) (xip_offset s) (xip_ptr s) x (λ _ _ _, True).
Proof.
  intros Hgb Hoff. assert (sf_ctrl_valid_group_bank g b = true) as Hv.
  { unfold group_banks in Hgb. set_unfold in Hgb. destruct_or! Hgb; simplify_eq; done. }
  unfold sf_ctrl_refresh_xip_view. rewrite Hv. cbn [negb].
  pose proof flash_size as HF. pose proof aperture_size as HA. pose proof (proj1 Hoff). pose proof (proj2 Hoff).
  set (off := xip_offset s g b) in *. destruct (xip_ptr s g b) as [xip|] eqn:Hx.
  - eexists. split; [reflexivity|]. intros g' b'. destruct (decide ((g', b') = (g, b))) as [[= -> ->]|Hne].
    + rewrite Hx, set2_eq. eexists. split; [reflexivity|]. destruct (decide _) as [_|Hd].
      2:{ exfalso. apply Hd. by apply list_elem_of_singleton. }
      intros _ a Ha. unfold window. fold off. destruct (Z.leb_spec BL808_SF_CTRL_FLASH_SIZE off).
      * rewrite mem_fill_in by lia. rewrite (proj2 (Z.ltb_ge _ _)) by lia. done.
      * rewrite wrap_small by (unfold uint; lia). destruct (Z.ltb_spec (off + a) BL808_SF_CTRL_FLASH_SIZE).
        -- rewrite mem_copy_in by lia. f_equal. lia.
        -- rewrite mem_copy_out by lia. by rewrite mem_fill_in by lia.
    + rewrite set2_ne by done. destruct (xip_ptr s g' b') as [xip'|]; [|done]. exists xip'. split; [done|].
      destruct (decide _) as [Hd|]; [|done]. by apply list_elem_of_singleton in Hd.
  - exists (xip_ptr s). split; [by destruct s|]. intros g' b'. destruct (xip_ptr s g' b') as [xip'|] eqn:Hx'; [|done].
    exists xip'. split; [done|]. destruct (decide _) as [Hd|]; [|done]. apply list_elem_of_singleton in Hd. congruence.
Qed.

Lemma refresh_fold l s :
  l ⊆ group_banks → offsets_ok s →
  (∀ g b xip, (g, b) ∈ group_banks → (g, b) ∉ l → xip_ptr s g b = Some xip →
     view_ok (flash s) (xip_offset s g b) xip) →
  ∃ x, foldl (λ s '(g, b), sf_ctrl_refresh_xip_view s g b) s l = s <| xip_ptr := x |> ∧
    coherent (s <| xip_ptr := x |>).
Proof.
  intros Hl. revert s. induction l as [|[g b] l IH]; intros s Hoff Hs.
  { exists (xip_ptr s). split; [by destruct s|]. intros g b xip Hgb Hx. 
    by apply (Hs g b xip Hgb); [apply not_elem_of_nil|]. }
  assert ((g, b) ∈ group_banks) as Hgb by (apply Hl; left).
  assert (l ⊆ group_banks) as Hl' by (intros y Hy; apply Hl; by right). cbn [foldl].
  destruct (refresh_spec s g b Hgb (Hoff g b Hgb)) as (x & -> & Hx).
  set (s2 := s <| xip_ptr := x |>). assert (offsets_ok s2) as Hoff2 by exact Hoff.
  destruct (IH Hl' s2 Hoff2) as (x' & Heq2 & Hc); [|exists x'; split; [exact Heq2|exact Hc]].
  intros g' b' xip' Hgb' Hni Hx'. change (x g' b' = Some xip') in Hx'.
  change (view_ok (flash s) (xip_offset s g' b') xip').
  specialize (Hx g' b'). destruct (xip_ptr s g' b') as [xip|] eqn:Hold; [|congruence].
  destruct Hx as (xip2 & Heq & Hd). rewrite Heq in Hx'. injection Hx' as ->.
  destruct (decide _) as [Hin|Hout]; [by apply Hd|]. subst xip'. apply (Hs g' b' xip); [done| |done].
  intros [?|?]%elem_of_cons; [|done]. apply Hout. by apply list_elem_of_singleton.
Qed.

Lemma sync_all_spec s : offsets_ok s →
  ∃ x, bl808_sf_ctrl_sync_all_xip s = s <| xip_ptr := x |> ∧ coherent (s <| xip_ptr := x |>).
Proof. intros Hoff. by apply refresh_fold. Qed.
End sf.

(** ** What commands leave alone *)

Section frame.
Context {B : Type} `{!BlockBackend B}.
Notation state := (BL808SfCtrlState B).
Implicit Types s : state.

(** The state of the controller that commands to the chip do not change. *)
Record same_ctrl s s' : Prop := {
  same_ctrl_0 : sf_ctrl_0 s' = sf_ctrl_0 s;
  same_sahb0 : sf_ctrl_if_sahb0 s' = sf_ctrl_if_sahb0 s;
  same_sahb1 : sf_ctrl_if_sahb1 s' = sf_ctrl_if_sahb1 s;
  same_off : xip_offset s' = xip_offset s;
}.

#[export] Instance same_ctrl_preorder : PreOrder same_ctrl.
Proof. split; [done|]. intros s1 s2 s3 [] []. split; congruence. Qed.

Lemma sync_only s o n : ∃ x, sf_ctrl_sync_xip s o n = s <| xip_ptr := x |>.
Proof.
  unfold sf_ctrl_sync_xip. generalize group_banks. intros l. revert s. induction l as [|[g b] l IH]; intros s.
  { exists (xip_ptr s). by destruct s. }
  cbn [foldl]. assert (∃ x, sf_ctrl_sync_xip_range s g b o n = s <| xip_ptr := x |>) as (x & ->).
  { unfold sf_ctrl_sync_xip_range. destruct (negb _); [exists (xip_ptr s); by destruct s|].
    destruct (xip_ptr s g b); [|exists (xip_ptr s); by destruct s]. cbv zeta.
    repeat match goal with |- context [if ?b then s else _] => destruct b end;
      solve [exists (xip_ptr s); by destruct s|eexists; reflexivity]. }
  set (s2 := s <| xip_ptr := x |>). destruct (IH s2) as (x' & Hx'). exists x'. exact Hx'.
Qed.

Lemma blk_write_only s o n : ∃ d, sf_ctrl_blk_write s o n = s <| blk := d |>.
Proof.
  unfold sf_ctrl_blk_write. destruct (blk s) eqn:Hb; [destruct (_ <=? _)|];
    solve [exists (blk s); by destruct s|eexists; reflexivity].
Qed.

Lemma erase_range_only s base n : ∃ x d, sf_ctrl_erase_range s base n =
  s <| flash := mem_fill (flash s) base n 0xFF |> <| xip_ptr := x |> <| blk := d |>
    <| sr1 := clr (sr1 s) SR1_WEL |>.
Proof.
  unfold sf_ctrl_erase_range. cbv zeta. set (s1 := s <| flash := _ |>).
  destruct (sync_only s1 base n) as (x & ->). destruct (blk_write_only (s1 <| xip_ptr := x |>) base n) as (d & ->).
  by exists x, d.
Qed.

Lemma page_program_only s addr n : ∃ f x d, sf_ctrl_page_program s addr n =
  s <| flash := f |> <| xip_ptr := x |> <| blk := d |> <| sr1 := clr (sr1 s) SR1_WEL |>.
Proof.
  unfold sf_ctrl_page_program. cbv zeta. destruct (_ || _).
  { exists (flash s), (xip_ptr s), (blk s). by destruct s. }
  set (f := foldl _ _ _). set (s1 := s <| flash := f |>). set (base := clr addr _).
  destruct (sync_only s1 base FLASH_PAGE_SIZE) as (x & ->).
  destruct (blk_write_only (s1 <| xip_ptr := x |>) base FLASH_PAGE_SIZE) as (d & ->).
  by exists f, x, d.
Qed.

Lemma erase_range_ctrl s base n : same_ctrl s (sf_ctrl_erase_range s base n).
Proof. destruct (erase_range_only s base n) as (x & d & ->). done. Qed.

Lemma page_program_ctrl s addr n : same_ctrl s (sf_ctrl_page_program s addr n).
Proof. destruct (page_program_only s addr n) as (f & x & d & ->). done. Qed.

Lemma erase_cmd_ctrl s ha addr n : same_ctrl s (sf_ctrl_erase_cmd s ha addr n).
Proof.
  unfold sf_ctrl_erase_cmd. destruct (_ && _); [|done]. cbv zeta.
  destruct (_ <=? _); [apply erase_range_ctrl|done].
Qed.

Lemma sec_erase_ctrl s addr : same_ctrl s (sf_ctrl_sec_reg_erase s addr).
Proof.
  unfold sf_ctrl_sec_reg_erase. destruct (sf_ctrl_decode_sec_reg_addr addr) as [[r o]|]; [|done].
  by destruct (tst _ _).
Qed.

Lemma sec_program_ctrl s addr n : same_ctrl s (sf_ctrl_sec_reg_program s addr n).
Proof.
  unfold sf_ctrl_sec_reg_program. cbv zeta.
  destruct (if tst (sr1 s) SR1_WEL then _ else None) as [[r o]|]; [|done]. by destruct (tst (sr2 s) _).
Qed.

Lemma read_buffer_ctrl s addr n : same_ctrl s (sf_ctrl_read_buffer s addr n).
Proof. unfold sf_ctrl_read_buffer. by destruct (_ <=? _). Qed.

Lemma read_sec_ctrl s addr n : same_ctrl s (sf_ctrl_read_sec_reg s addr n).
Proof. unfold sf_ctrl_read_sec_reg. by destruct (sf_ctrl_decode_sec_reg_addr addr) as [[r o]|]. Qed.

Lemma commit_ctrl s v : same_ctrl s (sf_ctrl_commit_status_write s v).
Proof. unfold sf_ctrl_commit_status_write. by destruct v. Qed.

#[local] Hint Resolve erase_range_ctrl page_program_ctrl erase_cmd_ctrl sec_erase_ctrl sec_program_ctrl
  read_buffer_ctrl read_sec_ctrl commit_ctrl : ctrl.

Lemma switch_ctrl s cmd ha addr n : cmd ≠ FLASH_CMD_RESET → same_ctrl s (sf_ctrl_switch s cmd ha addr n).
Proof.
  intros Hc. unfold sf_ctrl_switch. cbv zeta.
  repeat lazymatch goal with |- same_ctrl s (if ?b then _ else _) => destruct b eqn:?Hcase end;
    try (by auto with ctrl).
  - etrans; [|apply commit_ctrl]. by destruct (0 <? n), (1 <? n).
  - etrans; [|apply commit_ctrl]. by destruct (0 <? n).
  - etrans; [|apply commit_ctrl]. by destruct (0 <? n).
  - exfalso. apply Hc. by apply Z.eqb_eq.
Qed.

(** ** Write protection *)

(** The write-enable latch of the chip. *)
Definition wel s : bool := Z.testbit (sr1 s) 1.

(** The contents of the chip, and a latch that is clear. *)
Record untouched s s' : Prop := {
  untouched_flash : flash s' = flash s;
  untouched_sec : sec_reg s' = sec_reg s;
  untouched_wel : wel s' = false;
}.

Lemma tst_WEL x : tst x SR1_WEL = Z.testbit x 1.
Proof. change SR1_WEL with (BIT 1). by rewrite tst_BIT by lia. Qed.

Lemma clr_WEL x : Z.testbit (clr x SR1_WEL) 1 = false.
Proof. rewrite clr_spec by lia. apply andb_false_r. Qed.

Lemma commit_untouched s s1 v : untouched s s1 → untouched s (sf_ctrl_commit_status_write s1 v).
Proof.
  intros [H1 H2 H3]. unfold sf_ctrl_commit_status_write. cbv zeta.
  destruct v; cbn [negb]; split; try done; apply clr_WEL.
Qed.

Lemma write_sr1_wel s b :
  wel (s <| sr1 := Z.lor (clr (sr1 s) SR1_WRITABLE_MASK) (Z.land b SR1_WRITABLE_MASK) |>) = wel s.
Proof.
  unfold wel. lazy beta iota delta [set_field sr1]. rewrite Z.lor_spec, Z.land_spec, clr_spec by lia.
  by rewrite andb_true_r, andb_false_r, orb_false_r.
Qed.

Lemma clear_untouched s : untouched s (s <| sr1 := clr (sr1 s) SR1_WEL |>).
Proof. split; [done..|]. apply clr_WEL. Qed.

Lemma page_program_untouched s addr n : wel s = false → untouched s (sf_ctrl_page_program s addr n).
Proof.
  intros Hw. unfold sf_ctrl_page_program. rewrite tst_WEL. fold (wel s). rewrite Hw, orb_true_r. apply clear_untouched.
Qed.

Lemma sec_program_untouched s addr n : wel s = false → untouched s (sf_ctrl_sec_reg_program s addr n).
Proof.
  intros Hw. unfold sf_ctrl_sec_reg_program. rewrite tst_WEL. fold (wel s). rewrite Hw. apply clear_untouched.
Qed.

Lemma switch_untouched s cmd ha addr n :
  wel s = false → cmd ≠ FLASH_CMD_WREN → untouched s (sf_ctrl_switch s cmd ha addr n).
Proof.
  intros Hw Hc. unfold sf_ctrl_switch, sf_ctrl_erase_cmd. cbv zeta. rewrite !tst_WEL. fold (wel s). rewrite Hw, !andb_false_r.
  repeat lazymatch goal with |- untouched s (if ?b then _ else _) => destruct b eqn:?Hcase end;
    try (by split); try (by apply clear_untouched).
  - exfalso. apply Hc. by apply Z.eqb_eq.
  - split; [done..|]. apply clr_WEL.
  - apply commit_untouched. destruct (0 <? n), (1 <? n); split; try done; by etrans; [apply write_sr1_wel|].
  - apply commit_untouched. by destruct (0 <? n).
  - apply commit_untouched. by destruct (0 <? n).
  - unfold sf_ctrl_read_buffer. by destruct (_ <=? _).
  - unfold sf_ctrl_read_sec_reg. by destruct (sf_ctrl_decode_sec_reg_addr addr) as [[r o]|].
  - apply page_program_untouched; done.
  - apply sec_program_untouched; done.
  - apply page_program_untouched; done.
  - split; [done..|]. apply clr_WEL.
Qed.

(** The command byte that the next trigger executes. *)
Definition next_cmd s : Z := u8 (Z.shiftr (sf_ctrl_if_sahb1 s) 24).

Lemma cmd_byte s : sf_ctrl_cmd_stream s !% 0 = next_cmd s.
Proof.
  unfold sf_ctrl_cmd_stream, stl_be_p. cbn [cpu_to_le rev app]. rewrite !Z.shiftr_shiftr by lia. done.
Qed.

(** The command word stays, or is zero after a software reset. *)
Lemma switch_sahb1 s cmd ha addr n :
  sf_ctrl_if_sahb1 (sf_ctrl_switch s cmd ha addr n) = sf_ctrl_if_sahb1 s ∨
  sf_ctrl_if_sahb1 (sf_ctrl_switch s cmd ha addr n) = 0.
Proof.
  destruct (decide (cmd = FLASH_CMD_RESET)) as [->|Hc].
  - unfold sf_ctrl_switch. cbn -[sf_ctrl_reset_register_defaults sf_ctrl_soft_reset].
    destruct (reset_armed s); [by right|by left].
  - left. by apply switch_ctrl.
Qed.

Lemma execute_untouched s : wel s = false → next_cmd s ≠ FLASH_CMD_WREN →
  untouched s (sf_ctrl_execute_cmd s) ∧ next_cmd (sf_ctrl_execute_cmd s) ≠ FLASH_CMD_WREN.
Proof.
  intros Hw Hc. unfold sf_ctrl_execute_cmd. cbv zeta. destruct (_ =? 0); [done|].
  destruct (_ && _); [done|]. set (s1 := if _ : bool then _ else _).
  assert (wel s1 = false ∧ next_cmd s1 ≠ FLASH_CMD_WREN ∧ flash s1 = flash s ∧ sec_reg s1 = sec_reg s)
    as (Hw1 & Hc1 & Hf1 & Hr1) by (subst s1; by destruct (reset_armed s && _)).
  rewrite cmd_byte. split.
  - destruct (switch_untouched s1 (next_cmd s) (negb (sahb0_addr_bytes (sf_ctrl_if_sahb0 s) =? 0))
      (sf_ctrl_cmd_addr s (sahb0_cmd_bytes (sf_ctrl_if_sahb0 s)) (sahb0_addr_bytes (sf_ctrl_if_sahb0 s)))
      (sahb0_data_len (sf_ctrl_if_sahb0 s)) Hw1 Hc) as [H1 H2 H3].
    split; [by rewrite <- Hf1, <- H1|by rewrite <- Hr1, <- H2|done].
  - set (s2 := sf_ctrl_switch _ _ _ _ _).
    assert (sf_ctrl_if_sahb1 s2 = sf_ctrl_if_sahb1 s1 ∨ sf_ctrl_if_sahb1 s2 = 0) as Hs2 by apply switch_sahb1.
    change (next_cmd s2 ≠ FLASH_CMD_WREN). unfold next_cmd in *. destruct Hs2 as [->| ->]; [done|]. by vm_compute.
Qed.
End frame.

(** ** The drive *)

(** A drive of at least the size of the flash, whose accesses succeed. *)
Class DriveLaws {B} `{!BlockBackend B} := {
  drive_bytes : B → mem;
  healthy : B → Prop;
  drive_byte d a : uint 8 (drive_bytes d a);
  set_perm_ok d : healthy d →
    0 ≤ (blk_set_perm d).1 ∧ healthy (blk_set_perm d).2 ∧ drive_bytes (blk_set_perm d).2 ≡ drive_bytes d;
  getlength_ok d : healthy d → BL808_SF_CTRL_FLASH_SIZE ≤ blk_getlength d;
  pread_ok d o n : healthy d → 0 ≤ o → 0 ≤ n → o + n ≤ blk_getlength d →
    0 ≤ (blk_pread d o n).1 ∧ ∀ i, 0 ≤ i < n → (blk_pread d o n).2 i = drive_bytes d (o + i);
  pwrite_ok d o n m : healthy d → 0 ≤ o → 0 ≤ n → o + n ≤ BL808_SF_CTRL_FLASH_SIZE →
    healthy (blk_pwrite d o n m).2 ∧
    ∀ a, drive_bytes (blk_pwrite d o n m).2 a = if decide (o ≤ a < o + n) then u8 (m (a - o)) else drive_bytes d a;
}.

Section inv.
Context {B : Type} `{!BlockBackend B} `{DL : !DriveLaws (B := B)}.
Notation state := (BL808SfCtrlState B).
Implicit Types s : state.

(** ** The invariant *)

(** What the windows and the drive show is the flash. *)
Record shown (f : mem) (x : Z → Z → option mem) (off : Z → Z → Z) (d : option B) : Prop := {
  shown_byte : ∀ a, uint 8 (f a);
  shown_off : ∀ g b, (g, b) ∈ group_banks → uint 28 (off g b);
  shown_view : ∀ g b xip, (g, b) ∈ group_banks → x g b = Some xip → view_ok f (off g b) xip;
  shown_drive : ∀ dr, d = Some dr → healthy dr ∧
    ∀ a, 0 ≤ a < BL808_SF_CTRL_FLASH_SIZE → drive_bytes dr a = f a;
}.

(** Registers and buffers keep their widths. *)
Record typed s : Prop := {
  typed_buf : length (buf s) = 512%nat ∧ Forall (uint 8) (buf s);
  typed_regs : length (regs s) = 384%nat ∧ Forall (uint 32) (regs s);
  typed_sec : length (sec_reg s) = 3%nat ∧ Forall (λ r, length r = 256%nat ∧ Forall (uint 8) r) (sec_reg s);
  typed_sr : uint 8 (sr1 s) ∧ uint 8 (sr2 s) ∧ uint 8 (sr3 s);
  typed_nv : uint 8 (sr1_nv s) ∧ uint 8 (sr2_nv s) ∧ uint 8 (sr3_nv s);
}.

Definition sf_inv s : Prop := typed s ∧ shown (flash s) (xip_ptr s) (xip_offset s) (blk s).

Lemma set_blk_same s d : blk s = d → s <| blk := d |> = s.
Proof. intros <-. by destruct s. Qed.

Lemma flash_changed s f o n :
  shown (flash s) (xip_ptr s) (xip_offset s) (blk s) →
  0 ≤ o → 0 ≤ n → o + n ≤ BL808_SF_CTRL_FLASH_SIZE →
  (∀ a, uint 8 (f a)) → (∀ a, ¬ (o ≤ a < o + n) → f a = flash s a) →
  ∃ x d, sf_ctrl_blk_write (sf_ctrl_sync_xip (s <| flash := f |>) o n) o n =
           s <| flash := f |> <| xip_ptr := x |> <| blk := d |> ∧
         shown f x (xip_offset s) d.
Proof.
  intros [Hb Ho Hv Hd] Ho0 Hn0 Hon Hf Hout.
  set (s2 := s <| flash := f |>). assert (offsets_ok s2) as Ho2 by exact Ho.
  assert (coherent (s2 <| flash := flash s |>)) as Hc2 by (intros g b xip Hgb Hx; by apply Hv).
  destruct (sync_xip_spec s2 (flash s) o n Ho0 Hn0 Hon Ho2 Hc2 Hout) as (x & Heq & Hc). subst s2.
  rewrite Heq. pose proof flash_size. unfold sf_ctrl_blk_write.
  rewrite wrap_small by (unfold uint; lia). rewrite (proj2 (Z.leb_le _ _)) by done.
  change (blk (s <| flash := f |> <| xip_ptr := x |>)) with (blk s).
  destruct (blk s) as [dr|] eqn:Hdr.
  - do 2 eexists. split; [reflexivity|]. split; [done|done|exact Hc|]. intros dr' [= <-].
    destruct (Hd dr eq_refl) as [Hh Hdf]. destruct (pwrite_ok dr o n (λ i, f (o + i)) Hh Ho0 Hn0 Hon) as [H1 H2].
    split; [done|]. intros a Ha. etrans; [apply H2|]. destruct (decide _) as [Hin|Hni].
    + rewrite wrap_small by apply Hf. f_equal. lia.
    + rewrite Hout by done. by apply Hdf.
  - exists x, None. split; [symmetry; by apply set_blk_same|]. by split.
Qed.

Lemma typed_frame s s' :
  typed s → buf s' = buf s → regs s' = regs s → sec_reg s' = sec_reg s →
  (uint 8 (sr1 s') ∧ uint 8 (sr2 s') ∧ uint 8 (sr3 s')) →
  (uint 8 (sr1_nv s') ∧ uint 8 (sr2_nv s') ∧ uint 8 (sr3_nv s')) → typed s'.
Proof. intros [] Hb Hr Hs ??. by split; rewrite ?Hb, ?Hr, ?Hs. Qed.

Lemma typed_read_into s n f :
  typed s → 0 ≤ n ≤ 512 → (∀ i, 0 ≤ i < n → uint 8 (f i)) → typed (s <| buf := read_into n f |>).
Proof.
  intros [H1 H2 H3 H4 H5] Hn Hf. split; try done. cbn. unfold read_into, copy_front. split.
  - rewrite length_app, length_drop, length_fmap, length_seqZ, length_replicate.
    unfold BL808_SF_CTRL_BUF_SIZE. lia.
  - apply Forall_app. split.
    + apply Forall_fmap, Forall_forall. intros i Hi%elem_of_seqZ. apply Hf. lia.
    + by apply Forall_drop, Forall_replicate.
Qed.

Lemma typed_store s data : typed s → Forall (uint 8) data → typed (sf_ctrl_store_data s data).
Proof.
  intros [H1 H2 H3 H4 H5] Hd. split; try done. cbn. unfold copy_front. split.
  - rewrite length_app, length_drop, length_take, length_replicate. unfold BL808_SF_CTRL_BUF_SIZE. lia.
  - apply Forall_app. split; [by apply Forall_take|]. by apply Forall_drop, Forall_replicate.
Qed.

Lemma uint_clr8 x m : uint 8 x → uint 8 (clr x m).
Proof. by apply uint_clr. Qed.

Lemma erase_range_inv s base size :
  sf_inv s → 0 ≤ base → 0 ≤ size → base + size ≤ BL808_SF_CTRL_FLASH_SIZE →
  ∃ x d, sf_ctrl_erase_range s base size =
    s <| flash := mem_fill (flash s) base size 0xFF |> <| xip_ptr := x |> <| blk := d |>
      <| sr1 := clr (sr1 s) SR1_WEL |> ∧
    shown (mem_fill (flash s) base size 0xFF) x (xip_offset s) d.
Proof.
  intros [_ Hs] Hb Hn He. unfold sf_ctrl_erase_range. cbv zeta.
  destruct (flash_changed s (mem_fill (flash s) base size 0xFF) base size Hs Hb Hn He) as (x & d & -> & Hx).
  - intros a. unfold mem_fill. destruct (_ && _); [done|]. apply Hs.
  - intros a Ha. by apply mem_fill_out.
  - exists x, d. by split.
Qed.

(** What a program of the page of [addr] with the first [len] bytes of the buffer
    leaves in the flash. *)
Definition programmed (m : mem) (src : list Z) (addr len : Z) : mem := λ a,
  if decide (addr / 256 * 256 ≤ a < addr / 256 * 256 + 256 ∧ (a - addr) mod 256 < len)
  then Z.land (m a) (src !% ((a - addr) mod 256)) else m a.

Definition program_len (data_len : Z) : Z := Z.min (if data_len =? 0 then 512 else data_len) 256.

Lemma page_program_inv s addr n :
  sf_inv s → 0 ≤ addr < BL808_SF_CTRL_FLASH_SIZE → 0 ≤ n → tst (sr1 s) SR1_WEL = true →
  ∃ f x d, sf_ctrl_page_program s addr n =
    s <| flash := f |> <| xip_ptr := x |> <| blk := d |> <| sr1 := clr (sr1 s) SR1_WEL |> ∧
    shown f x (xip_offset s) d ∧ ∀ a, f a = programmed (flash s) (buf s) addr (program_len n) a.
Proof.
  intros [[[Hbl Hbuf] _ _ _ _] Hs] Ha Hn Hw. unfold sf_ctrl_page_program. rewrite Hw.
  rewrite (proj2 (Z.leb_gt _ _)) by lia. cbn [orb negb]. cbv zeta.
  pose proof flash_size as HF. change (FLASH_PAGE_SIZE - 1) with (2 ^ 8 - 1).
  rewrite clr_low, land_low by lia. change (2 ^ 8) with 256.
  replace (addr - addr mod 256) with (addr / 256 * 256) by (pose proof (Z.div_mod addr 256); lia).
  set (f := foldl _ _ _).
  assert (∀ a, f a = programmed (flash s) (buf s) addr (program_len n) a) as Hf.
  { intros a. subst f. change 255 with (FLASH_PAGE_SIZE - 1). unfold programmed.
    pose proof (Z.mod_pos_bound addr 256 ltac:(lia)). pose proof (Z.div_mod addr 256 ltac:(lia)).
    etrans; [apply program_spec|].
    - apply Z.mod_mul. lia.
    - lia.
    - assert (addr / 256 < 65536) by (apply Z.div_lt_upper_bound; lia). lia.
    - lia.
    - change (Z.min (if n =? 0 then BL808_SF_CTRL_BUF_SIZE else n) FLASH_PAGE_SIZE) with (program_len n).
      unfold program_len. destruct (n =? 0); lia.
    - replace (a - addr / 256 * 256 - addr mod 256) with (a - addr) by lia. done. }
  assert (addr / 256 < 65536) by (apply Z.div_lt_upper_bound; lia).
  assert (0 ≤ addr / 256) by (apply Z.div_pos; lia).
  destruct (flash_changed s f (addr / 256 * 256) FLASH_PAGE_SIZE Hs) as (x & d & -> & Hx).
  - lia.
  - done.
  - change FLASH_PAGE_SIZE with 256. lia.
  - intros a. rewrite Hf. unfold programmed. destruct (decide _); [|apply Hs].
    apply uint_land_l; [done|]. apply Hs.
  - intros a Hna. rewrite Hf. unfold programmed. change FLASH_PAGE_SIZE with 256 in Hna.
    by rewrite decide_False by lia.
  - exists f, x, d. split; [reflexivity|]. by split.
Qed.

Lemma decode_sec_bound addr r o : sf_ctrl_decode_sec_reg_addr addr = Some (r, o) → 0 ≤ r < 3 ∧ 0 ≤ o < 256.
Proof.
  unfold sf_ctrl_decode_sec_reg_addr. destruct (_ || _); [done|]. cbv zeta.
  destruct (Z.ltb_spec (Z.land (Z.shiftr addr 12) 0x0F) 1); [done|].
  destruct (Z.ltb_spec BL808_SF_CTRL_SEC_REG_COUNT (Z.land (Z.shiftr addr 12) 0x0F)); [done|].
  intros [= <- <-]. unfold BL808_SF_CTRL_SEC_REG_COUNT in *. change 0xFF with (2 ^ 8 - 1).
  rewrite (land_low addr) by lia. pose proof (Z.mod_pos_bound addr (2 ^ 8)). lia.
Qed.

Lemma aset_Forall {A} (P : A → Prop) (l : list A) i v : Forall P l → P v → Forall P (aset l i v).
Proof. intros. by apply Forall_insert. Qed.

Lemma aget_Forall {A} `{Inhabited A} (P : A → Prop) (l : list A) i :
  Forall P l → 0 ≤ i < Z.of_nat (length l) → P (l !% i).
Proof.
  intros Hl Hi. unfold aget. apply Forall_lookup_total_1; [done|]. lia.
Qed.

(** One page of bytes, programmed byte by byte. *)
Lemma sec_program_typed (l : list Z) src off js :
  length l = 256%nat ∧ Forall (uint 8) l →
  let l' := foldl (λ r i, let o := Z.land (off + i) 0xFF in aset r o (Z.land (r !% o) (src !% i))) l js in
  length l' = 256%nat ∧ Forall (uint 8) l'.
Proof.
  cbv zeta. change 0xFF with (2 ^ 8 - 1). revert l. induction js as [|j js IH]; intros l [Hl Hf]; [done|]. cbn [foldl].
  apply IH. split; [by rewrite aset_length|]. apply aset_Forall; [done|]. apply uint_land_l; [done|].
  rewrite land_low by lia. pose proof (Z.mod_pos_bound (off + j) (2 ^ 8)). apply aget_Forall; [done|]. lia.
Qed.

(** Updates that touch neither flash nor windows. *)
Lemma sf_inv_frame s s' :
  sf_inv s → typed s' → flash s' = flash s → xip_ptr s' = xip_ptr s → xip_offset s' = xip_offset s →
  blk s' = blk s → sf_inv s'.
Proof. intros [_ Hs] Ht Hf Hx Ho Hb. split; [done|]. by rewrite Hf, Hx, Ho, Hb. Qed.

Ltac scalar Hi :=
  apply (sf_inv_frame _ _ Hi); [|reflexivity..];
  eapply (typed_frame _ _ (proj1 Hi)); [reflexivity..| |];
  lazy beta iota delta [set_field sr1 sr2 sr3 sr1_nv sr2_nv sr3_nv];
  destruct Hi as [[? ? ? (? & ? & ?) (? & ? & ?)] ?];
  repeat match goal with |- _ ∧ _ => split end; solve [done | solve_uint].

Lemma clear_wel_inv s : sf_inv s → sf_inv (s <| sr1 := clr (sr1 s) SR1_WEL |>).
Proof. intros Hi. scalar Hi. Qed.

Lemma store_inv s data : sf_inv s → Forall (uint 8) data → sf_inv (sf_ctrl_store_data s data).
Proof. intros Hi Hd. apply (sf_inv_frame _ _ Hi); try reflexivity. apply typed_store; [apply Hi|done]. Qed.

Lemma read_buffer_inv s addr n : sf_inv s → 0 ≤ addr → 0 ≤ n → sf_inv (sf_ctrl_read_buffer s addr n).
Proof.
  intros Hi Ha Hn. unfold sf_ctrl_read_buffer. pose proof flash_size as HF.
  destruct (Z.leb_spec BL808_SF_CTRL_FLASH_SIZE addr).
  - apply (sf_inv_frame _ _ Hi); try reflexivity. apply typed_read_into; [apply Hi|lia|lia].
  - apply (sf_inv_frame _ _ Hi); try reflexivity. apply typed_read_into; [apply Hi| |].
    + rewrite wrap_small by (unfold uint; lia). unfold BL808_SF_CTRL_BUF_SIZE. destruct (n =? 0); lia.
    + intros i _. apply Hi.
Qed.

Lemma sec_reg_byte s r o : typed s → 0 ≤ r < 3 → 0 ≤ o < 256 → uint 8 (sec_reg s !% r !% o).
Proof.
  intros [_ _ [Hl Hf] _ _] Hr Ho.
  destruct (aget_Forall (λ r, length r = 256%nat ∧ Forall (uint 8) r) (sec_reg s) r Hf) as [H1 H2]; [lia|].
  apply aget_Forall; [done|]. lia.
Qed.

Lemma read_sec_reg_inv s addr n : sf_inv s → 0 ≤ n → sf_inv (sf_ctrl_read_sec_reg s addr n).
Proof.
  intros Hi Hn. unfold sf_ctrl_read_sec_reg.
  destruct (sf_ctrl_decode_sec_reg_addr addr) as [[r o]|] eqn:Hd; apply (sf_inv_frame _ _ Hi); try reflexivity.
  - apply decode_sec_bound in Hd as [Hr Ho]. apply typed_read_into; [apply Hi| |].
    + unfold BL808_SF_CTRL_BUF_SIZE. destruct (n =? 0); lia.
    + intros i Hin. apply sec_reg_byte; [apply Hi|done|]. change 0xFF with (2 ^ 8 - 1). rewrite land_low by lia.
      pose proof (Z.mod_pos_bound (o + i) (2 ^ 8)). lia.
  - apply typed_read_into; [apply Hi|lia|lia].
Qed.

Lemma set_sec_inv s r l :
  sf_inv s → length l = 256%nat ∧ Forall (uint 8) l → sf_inv (s <| sec_reg := aset (sec_reg s) r l |>).
Proof.
  intros Hi Hl. apply (sf_inv_frame _ _ Hi); try reflexivity. destruct Hi as [[? ? [Hsl Hsf] ? ?] _].
  split; try done. split; [by rewrite <- Hsl; apply aset_length|]. by apply aset_Forall.
Qed.

Lemma sec_reg_erase_inv s addr : sf_inv s → sf_inv (sf_ctrl_sec_reg_erase s addr).
Proof.
  intros Hi. unfold sf_ctrl_sec_reg_erase. destruct (sf_ctrl_decode_sec_reg_addr addr) as [[r o]|]; [|by apply clear_wel_inv].
  destruct (tst _ _); [by apply clear_wel_inv|]. cbv zeta. apply clear_wel_inv, set_sec_inv; [done|].
  split; [by rewrite length_replicate|]. by apply Forall_replicate.
Qed.

Lemma sec_reg_program_inv s addr n : sf_inv s → sf_inv (sf_ctrl_sec_reg_program s addr n).
Proof.
  intros Hi. unfold sf_ctrl_sec_reg_program. cbv zeta.
  destruct (if tst (sr1 s) SR1_WEL then _ else None) as [[r o]|] eqn:Hd; [|by apply clear_wel_inv].
  destruct (tst (sr2 s) _); [by apply clear_wel_inv|]. apply clear_wel_inv, set_sec_inv; [done|].
  apply sec_program_typed. destruct Hi as [[_ _ [Hsl Hsf] _ _] _].
  destruct (tst _ _); [|done]. apply decode_sec_bound in Hd as [Hr Ho].
  apply (aget_Forall (λ r, length r = 256%nat ∧ Forall (uint 8) r) _ r Hsf). lia.
Qed.

Lemma page_program_ok s addr n : sf_inv s → 0 ≤ addr → 0 ≤ n → sf_inv (sf_ctrl_page_program s addr n).
Proof.
  intros Hi Ha Hn. destruct (decide (addr < BL808_SF_CTRL_FLASH_SIZE ∧ tst (sr1 s) SR1_WEL = true)) as [[Hlt Hw]|Hno].
  - destruct (page_program_inv s addr n Hi (conj Ha Hlt) Hn Hw) as (f & x & d & -> & Hx & _).
    split; [|exact Hx]. destruct Hi as [[? ? ? (? & ? & ?) ?] _]. split; try done.
    split; [by apply uint_clr|done].
  - assert (sf_ctrl_page_program s addr n = s <| sr1 := clr (sr1 s) SR1_WEL |>) as ->; [|by apply clear_wel_inv].
    unfold sf_ctrl_page_program. destruct (Z.leb_spec BL808_SF_CTRL_FLASH_SIZE addr) as [|Hlt]; [done|].
    destruct (tst (sr1 s) SR1_WEL) eqn:Hw; [|done]. exfalso. by apply Hno.
Qed.

Lemma erase_range_ok s base size : sf_inv s → 0 ≤ base → 0 ≤ size → base + size ≤ BL808_SF_CTRL_FLASH_SIZE →
  sf_inv (sf_ctrl_erase_range s base size).
Proof.
  intros Hi Hb Hn He. destruct (erase_range_inv s base size Hi Hb Hn He) as (x & d & -> & Hx). split; [|exact Hx].
  destruct Hi as [[? ? ? (? & ? & ?) ?] _]. split; try done. split; [by apply uint_clr|done].
Qed.

Lemma erase_cmd_ok s ha addr k : sf_inv s → uint 24 addr → 0 ≤ k ≤ 16 → sf_inv (sf_ctrl_erase_cmd s ha addr (2 ^ k)).
Proof.
  intros Hi [Ha1 Ha2] Hk. unfold sf_ctrl_erase_cmd. destruct (ha && _); [|done]. cbv zeta. rewrite clr_low by lia.
  assert (0 < 2 ^ k) by lia. assert (2 ^ k ≤ 2 ^ 16) by (apply Z.pow_le_mono_r; lia).
  pose proof (Z.mod_pos_bound addr (2 ^ k) ltac:(lia)). pose proof (Z.mod_le addr (2 ^ k) ltac:(lia) ltac:(lia)).
  rewrite wrap_small by (unfold uint; lia).
  destruct (Z.leb_spec (addr - addr mod 2 ^ k + 2 ^ k) BL808_SF_CTRL_FLASH_SIZE) as [Hle|]; [|by apply clear_wel_inv].
  apply erase_range_ok; [done|lia|lia|done].
Qed.

Lemma buf_byte s i : typed s → 0 ≤ i < 512 → uint 8 (buf s !% i).
Proof. intros [[Hl Hb] _ _ _ _] Hi. apply aget_Forall; [done|]. lia. Qed.

Lemma apply_sr2_uint c r : uint 8 c → uint 8 r → uint 8 (sf_ctrl_apply_sr2_write c r).
Proof. intros. unfold sf_ctrl_apply_sr2_write. cbv zeta. eauto 14 with uint. Qed.

Lemma apply_sr3_uint c r : uint 8 c → uint 8 r → uint 8 (sf_ctrl_apply_sr3_write c r).
Proof. intros. unfold sf_ctrl_apply_sr3_write. solve_uint. Qed.

Lemma commit_inv s v : sf_inv s → sf_inv (sf_ctrl_commit_status_write s v).
Proof.
  intros Hi. unfold sf_ctrl_commit_status_write. cbv zeta. destruct v; cbn [negb]; scalar Hi.
Qed.

Lemma set_sr1_inv s v : sf_inv s → uint 8 v → sf_inv (s <| sr1 := v |>).
Proof. intros Hi Hv. scalar Hi. Qed.
Lemma set_sr2_inv s v : sf_inv s → uint 8 v → sf_inv (s <| sr2 := v |>).
Proof. intros Hi Hv. scalar Hi. Qed.
Lemma set_sr3_inv s v : sf_inv s → uint 8 v → sf_inv (s <| sr3 := v |>).
Proof. intros Hi Hv. scalar Hi. Qed.
Lemma set_powered_inv s b : sf_inv s → sf_inv (s <| powered_down := b |>).
Proof. intros Hi. scalar Hi. Qed.
Lemma set_armed_inv s b : sf_inv s → sf_inv (s <| reset_armed := b |>).
Proof. intros Hi. scalar Hi. Qed.
Lemma set_qpi_inv s b : sf_inv s → sf_inv (s <| qpi_mode := b |>).
Proof. intros Hi. scalar Hi. Qed.
Lemma set_burst_inv s b : sf_inv s → sf_inv (s <| burst_wrap_data := b |>).
Proof. intros Hi. scalar Hi. Qed.
Lemma set_vwel_inv s b : sf_inv s → sf_inv (s <| volatile_wel := b |>).
Proof. intros Hi. scalar Hi. Qed.
Lemma set_sahb0_inv s v : sf_inv s → sf_inv (s <| sf_ctrl_if_sahb0 := v |>).
Proof. intros Hi. scalar Hi. Qed.

Lemma sr1_byte s : sf_inv s → uint 8 (sr1 s). Proof. intros [[] _]. naive_solver. Qed.
Lemma sr2_byte s : sf_inv s → uint 8 (sr2 s). Proof. intros [[] _]. naive_solver. Qed.
Lemma sr3_byte s : sf_inv s → uint 8 (sr3 s). Proof. intros [[] _]. naive_solver. Qed.

Lemma write_sr1_inv s b : sf_inv s → uint 8 b →
  sf_inv (s <| sr1 := Z.lor (clr (sr1 s) SR1_WRITABLE_MASK) (Z.land b SR1_WRITABLE_MASK) |>).
Proof.
  intros Hi Hb. apply set_sr1_inv; [done|]. apply uint_lor; [done|apply uint_clr, sr1_byte|apply uint_land_l]; done.
Qed.

#[local] Hint Resolve store_inv read_buffer_inv read_sec_reg_inv sec_reg_erase_inv sec_reg_program_inv
  page_program_ok commit_inv set_powered_inv set_armed_inv set_qpi_inv set_burst_inv set_vwel_inv
  set_sr1_inv set_sr2_inv set_sr3_inv sr1_byte sr2_byte sr3_byte apply_sr2_uint apply_sr3_uint write_sr1_inv : sf.
#[local] Hint Extern 2 (Forall (uint 8) _) => (repeat constructor; (by eauto with sf || by vm_compute)) : sf.
#[local] Hint Extern 1 (_ ≤ _) => lia : sf.

Lemma switch_inv s cmd ha addr n :
  sf_inv s → uint 24 addr → 0 ≤ n → cmd ≠ FLASH_CMD_RESET → sf_inv (sf_ctrl_switch s cmd ha addr n).
Proof.
  intros Hi Ha Hn Hc. pose proof (uint_nonneg 24 addr Ha) as Ha0.
  assert (∀ i, 0 ≤ i < 512 → uint 8 (buf s !% i)) as Hbuf by (intros; apply buf_byte; [apply Hi|done]).
  pose proof (Hbuf 0 ltac:(lia)). pose proof (Hbuf 1 ltac:(lia)).
  assert (∀ d, Forall (uint 8) d → sf_inv (sf_ctrl_store_data s d)) as Hst by auto with sf.
  unfold sf_ctrl_switch. cbv zeta.
  repeat lazymatch goal with |- sf_inv (if ?b then _ else _) => destruct b eqn:?Hcase end; try exact Hi.
  all: try (by eauto 6 with sf).
  - apply set_vwel_inv, set_sr1_inv; [done|]. apply uint_lor; [done|by apply sr1_byte|by vm_compute].
  - by apply set_vwel_inv, clear_wel_inv.
  - apply commit_inv. destruct (0 <? n), (1 <? n); [|by eauto with sf..].
    apply set_sr2_inv; [by eauto with sf|]. apply apply_sr2_uint; [by apply sr2_byte, write_sr1_inv|done].
  - apply commit_inv. destruct (0 <? n); eauto 6 with sf.
  - apply commit_inv. destruct (0 <? n); eauto 6 with sf.
  - by apply (erase_cmd_ok s ha addr 12).
  - by apply (erase_cmd_ok s ha addr 15).
  - by apply (erase_cmd_ok s ha addr 16).
  - by apply erase_range_ok.
  - exfalso. apply Hc. by apply Z.eqb_eq.
Qed.

(** ** Commands from the registers *)

Lemma cmd_stream_bytes s : Forall (uint 8) (sf_ctrl_cmd_stream s) ∧ length (sf_ctrl_cmd_stream s) = 8%nat.
Proof.
  unfold sf_ctrl_cmd_stream, stl_be_p. split.
  - apply Forall_app. split; apply Forall_rev, cpu_to_le_bytes.
  - by rewrite length_app, !length_rev, !cpu_to_le_length.
Qed.

Lemma cmd_addr_bound s k n : Z.testbit (sf_ctrl_0 s) 19 = false → uint 24 (sf_ctrl_cmd_addr s k n).
Proof.
  intros Hb. unfold sf_ctrl_cmd_addr. cbv zeta. change SF_CTRL_0_32B_ADDR_EN with (BIT 19).
  rewrite tst_BIT, Hb by lia. apply uint_land_r; [done|]. by vm_compute.
Qed.

Lemma field_nonneg x m k : 0 ≤ m → 0 ≤ k → 0 ≤ Z.shiftr (Z.land x m) k.
Proof. intros. apply Z.shiftr_nonneg. apply Z.land_nonneg. by right. Qed.

Lemma data_len_nonneg x : 0 ≤ sahb0_data_len x.
Proof.
  unfold sahb0_data_len. destruct (tst _ _); [|done]. pose proof (field_nonneg x SAHB0_DATA_BYTES_MASK SAHB0_DATA_BYTES_SHIFT).
  specialize (H ltac:(done) ltac:(done)). lia.
Qed.

Lemma set_sahb1_inv s v : sf_inv s → sf_inv (s <| sf_ctrl_if_sahb1 := v |>).
Proof. intros Hi. scalar Hi. Qed.
Lemma set_sahb2_inv s v : sf_inv s → sf_inv (s <| sf_ctrl_if_sahb2 := v |>).
Proof. intros Hi. scalar Hi. Qed.
Lemma set_ctrl0_inv s v : sf_inv s → sf_inv (s <| sf_ctrl_0 := v |>).
Proof. intros Hi. scalar Hi. Qed.
Lemma set_ctrl1_inv s v : sf_inv s → sf_inv (s <| sf_ctrl_1 := v |>).
Proof. intros Hi. scalar Hi. Qed.

(** Software has not turned on 32-bit addresses and the command that is set up is
    not the software reset of the chip. *)
Definition tame s : Prop :=
  Z.testbit (sf_ctrl_0 s) 19 = false ∧ next_cmd s ≠ FLASH_CMD_RESET.

Lemma execute_inv s : sf_inv s → tame s → sf_inv (sf_ctrl_execute_cmd s).
Proof.
  intros Hi [Hb Hc]. unfold sf_ctrl_execute_cmd. cbv zeta. destruct (_ =? 0); [by apply set_sahb0_inv|].
  destruct (_ && _); [by apply set_sahb0_inv|]. apply set_sahb0_inv, switch_inv.
  - destruct (reset_armed s && _); [by apply set_armed_inv|done].
  - by apply cmd_addr_bound.
  - apply data_len_nonneg.
  - by rewrite cmd_byte.
Qed.

Lemma image_offset_inv s g b v : sf_inv s → (g, b) ∈ group_banks → sf_inv (bl808_sf_ctrl_set_flash_image_offset s g b v).
Proof.
  intros [Ht [H1 H2 H3 H4]] Hgb. unfold bl808_sf_ctrl_set_flash_image_offset.
  assert (sf_ctrl_valid_group_bank g b = true) as ->.
  { unfold group_banks in Hgb. set_unfold in Hgb. destruct_or! Hgb; simplify_eq; done. }
  cbn [negb]. cbv zeta. set (a := Z.land v 0x0FFFFFFF). assert (uint 28 a) as Ha.
  { apply uint_land_r; [done|]. by vm_compute. }
  set (s2 := s <| xip_offset := _ |> <| regs := _ |>).
  assert (∀ g b, (g, b) ∈ group_banks → uint 28 (xip_offset s2 g b)) as Ho2.
  { intros g' b' Hgb'. change (uint 28 (set2 (xip_offset s) g b a g' b')). unfold set2.
    destruct (_ && _); [done|]. by apply H2. }
  destruct (refresh_spec s2 g b Hgb (Ho2 g b Hgb)) as (x & -> & Hx). split.
  - destruct Ht as [? [Hl Hr] ? ? ?]. split; try done. split; [exact (eq_trans (aset_length _ _ _) Hl)|].
    apply aset_Forall; [done|]. apply (uint_weaken 28); [done|lia].
  - split; [done|exact Ho2| |done]. intros g' b' xip' Hgb' Hx'. change (x g' b' = Some xip') in Hx'.
    specialize (Hx g' b'). change (xip_ptr s2) with (xip_ptr s) in Hx.
    destruct (xip_ptr s g' b') as [xip|] eqn:Hold; [|congruence]. destruct Hx as (xip2 & Heq & Hd).
    rewrite Heq in Hx'. injection Hx' as ->. destruct (decide _) as [_|Hout]; [by apply Hd|]. subst xip'.
    change (view_ok (flash s) (set2 (xip_offset s) g b a g' b') xip). rewrite set2_ne; [by apply H3|].
    intros Heq'. apply Hout. by apply list_elem_of_singleton.
Qed.

(** An access that the bus lets through: 1, 2 or 4 bytes, aligned. *)
Definition bus_access (offset size : Z) : Prop :=
  (size = 1 ∨ size = 2 ∨ size = 4) ∧ 0 ≤ offset ∧ offset mod size = 0.

Lemma buf_write_inv s offset value size :
  sf_inv s → bus_access offset size → in_buf offset = true →
  sf_inv (s <| buf := buf_store (buf s) (Z.to_nat (offset - BL808_SF_CTRL_BUF_OFF)) (cpu_to_le (Z.to_nat size) value) |>).
Proof.
  intros Hi (Hs & H0 & Hm) Hb. unfold in_buf, BL808_SF_CTRL_BUF_OFF, BL808_SF_CTRL_BUF_SIZE in Hb.
  apply andb_true_iff in Hb as [Hb1%Z.leb_le Hb2%Z.ltb_lt].
  apply (sf_inv_frame _ _ Hi); try reflexivity. destruct Hi as [[[Hl Hb] ? ? ? ?] _]. split; try done.
  unfold BL808_SF_CTRL_BUF_OFF. split.
  - etrans; [apply length_app|]. rewrite length_app, length_take, length_drop, cpu_to_le_length, Hl.
    assert (offset - 0x600 + size ≤ 512); [|lia].
    destruct Hs as [->|[->| ->]]; clear - Hm Hb2; Z.div_mod_to_equations; lia.
  - apply Forall_app. split; [by apply Forall_take|]. apply Forall_app. split; [apply cpu_to_le_bytes|by apply Forall_drop].
Qed.

Lemma sf_write_inv s offset value size :
  sf_inv s → tame s → bus_access offset size → sf_inv (bl808_sf_ctrl_write s offset value size).
Proof.
  intros Hi Ht Hbus. unfold bl808_sf_ctrl_write. cbv zeta.
  destruct (in_buf offset) eqn:Hb.
  { destruct (_ || _); [|done]. by apply buf_write_inv. }
  destruct (negb (size =? 4)); [done|].
  repeat lazymatch goal with |- sf_inv (if ?c =? ?k then _ else _) => destruct (c =? k) end.
  - by apply set_ctrl0_inv.
  - by apply set_ctrl1_inv.
  - destruct (_ && _); [|by apply set_sahb0_inv]. apply execute_inv; [by apply set_sahb0_inv, set_sahb0_inv|done].
  - by apply set_sahb1_inv.
  - by apply set_sahb2_inv.
  - apply image_offset_inv; [done|]. unfold group_banks. set_solver.
  - apply image_offset_inv; [done|]. unfold group_banks. set_solver.
  - apply image_offset_inv; [done|]. unfold group_banks. set_solver.
  - apply image_offset_inv; [done|]. unfold group_banks. set_solver.
  - destruct (_ && _); [|done]. apply (sf_inv_frame _ _ Hi); try reflexivity. destruct Hi as [[? [Hl Hr] ? ? ?] _].
    split; try done. split; [exact (eq_trans (aset_length _ _ _) Hl)|]. apply aset_Forall; [done|]. by apply uint_wrap.
Qed.
End inv.
