(* ===== verification/SfCtrlRun.v ===== *)
(** * The serial flash controller: runs

    What holds after any sequence of accesses: windows and drive show the flash,
    the flash needs a write-enable command to change, locked security registers
    are final; and the command sequences of the HAL's flash driver. *)

From S2P Require Import Prelude Qemu SfCtrl SfCtrlSpec.
From stdpp Require Import prelude list.
From Stdlib Require Import ZArith Lia.
Local Open Scope Z_scope.
Import BL808SFCTRL.

(** What happens to the device: accesses of the cores, resets, and the two entry
    points for the machine. *)
Inductive sf_op :=
  | SfWrite (offset value size : Z)
  | SfReset
  | SfImageOffset (group bank addr_offset : Z)
  | SfLoad (offset : Z) (data : mem) (size : Z).

Section run.
Context {B : Type} `{!BlockBackend B}.
Notation state := (BL808SfCtrlState B).
Implicit Types s : state.

Definition sf_step s (op : sf_op) : state :=
  match op with
  | SfWrite offset value size => bl808_sf_ctrl_write s offset value size
  | SfReset => bl808_sf_ctrl_reset s
  | SfImageOffset group bank v => bl808_sf_ctrl_set_flash_image_offset s group bank v
  | SfLoad offset data size => bl808_sf_ctrl_write_flash s offset (Some data) size
  end.

Definition sf_run s (ops : list sf_op) : state := foldl sf_step s ops.

(** The write does not set up the command [c]. *)
Definition not_cmd (c offset value : Z) : Prop :=
  offset = REG_SF_CTRL_IF_SAHB1 → u8 (Z.shiftr (u32 value) 24) ≠ c.

(** ** Write protection *)

Lemma refresh_only s g b : ∃ x, sf_ctrl_refresh_xip_view s g b = s <| xip_ptr := x |>.
Proof.
  unfold sf_ctrl_refresh_xip_view. destruct (negb _); [exists (xip_ptr s); by destruct s|].
  destruct (xip_ptr s g b); [eexists; reflexivity|exists (xip_ptr s); by destruct s].
Qed.

Lemma sync_all_only s : ∃ x, bl808_sf_ctrl_sync_all_xip s = s <| xip_ptr := x |>.
Proof.
  unfold bl808_sf_ctrl_sync_all_xip. generalize group_banks. intros l. revert s. induction l as [|[g b] l IH]; intros s.
  { exists (xip_ptr s). by destruct s. }
  cbn [foldl]. destruct (refresh_only s g b) as (x & ->). set (s2 := s <| xip_ptr := x |>).
  destruct (IH s2) as (x' & Hx'). exists x'. exact Hx'.
Qed.

Lemma image_offset_only s g b v : ∃ o r x,
  bl808_sf_ctrl_set_flash_image_offset s g b v = s <| xip_offset := o |> <| regs := r |> <| xip_ptr := x |>.
Proof.
  unfold bl808_sf_ctrl_set_flash_image_offset. destruct (negb _).
  { exists (xip_offset s), (regs s), (xip_ptr s). by destruct s. }
  cbv zeta. set (s2 := s <| xip_offset := _ |> <| regs := _ |>).
  destruct (refresh_only s2 g b) as (x & ->). do 3 eexists. reflexivity.
Qed.

(** The latch is clear and the command set up is not write-enable. *)
Definition guarded s : Prop := wel s = false ∧ next_cmd s ≠ FLASH_CMD_WREN.

Lemma write_untouched s offset value size : guarded s → not_cmd FLASH_CMD_WREN offset value →
  untouched s (bl808_sf_ctrl_write s offset value size) ∧ guarded (bl808_sf_ctrl_write s offset value size).
Proof.
  intros [Hw Hc] Hop. assert (∀ s', untouched s s' → next_cmd s' ≠ FLASH_CMD_WREN → untouched s s' ∧ guarded s') as Hk.
  { intros s' [] ?. by split. }
  unfold bl808_sf_ctrl_write. cbv zeta. destruct (in_buf offset).
  { destruct (_ || _); apply Hk; (done || by split). }
  destruct (negb (size =? 4)); [by apply Hk|].
  repeat match goal with |- context [offset =? ?k] => destruct (Z.eqb_spec offset k) end;
    try (match goal with |- context [bl808_sf_ctrl_set_flash_image_offset ?a ?b ?c ?d] =>
      destruct (image_offset_only a b c d) as (? & ? & ? & ->) end);
    try (apply Hk; (done || by split)).
  - destruct (_ && _); [|apply Hk; (done || by split)]. set (s1 := _ <| sf_ctrl_if_sahb0 := _ |>).
    destruct (execute_untouched s1 Hw Hc) as [[H1 H2 H3] H4]. apply Hk; [|done]. split; [exact H1|exact H2|exact H3].
  - apply Hk; [by split|]. by apply Hop.
  - destruct (_ && _); apply Hk; (done || by split).
Qed.

(** The offsets that the defaults restore. *)
Lemma defaults_only s : ∃ r o, sf_ctrl_reset_register_defaults s = s <| regs := r |> <| xip_offset := o |> ∧
  (∀ g b, (g, b) ∈ group_banks → uint 28 (o g b)) ∧
  (length r = 384%nat ∧ Forall (uint 32) r).
Proof.
  unfold sf_ctrl_reset_register_defaults. cbv zeta.
  set (r0 := replicate _ 0). assert (length r0 = 384%nat ∧ Forall (uint 32) r0) as Hr0.
  { split; [apply length_replicate|by apply Forall_replicate]. }
  assert (∀ l r o, (length r = 384%nat ∧ Forall (uint 32) r) →
    (∀ g b, (g, b) ∈ group_banks → (g, b) ∉ l → uint 28 (o g b)) →
    ∃ r' o', foldl (λ s '(group, bank),
      (s <| xip_offset := set2 (xip_offset s) group bank (Z.land (reset_xip_offset s group bank) 0x0FFFFFFF) |>)
        <| regs := aset (regs (s <| xip_offset := set2 (xip_offset s) group bank (Z.land (reset_xip_offset s group bank) 0x0FFFFFFF) |>))
             (sf_ctrl_image_offset_reg group bank / 4)
             (xip_offset (s <| xip_offset := set2 (xip_offset s) group bank (Z.land (reset_xip_offset s group bank) 0x0FFFFFFF) |>) group bank) |>)
      (s <| regs := r |> <| xip_offset := o |>) l = s <| regs := r' |> <| xip_offset := o' |> ∧
    (∀ g b, (g, b) ∈ group_banks → uint 28 (o' g b)) ∧ (length r' = 384%nat ∧ Forall (uint 32) r')) as Hl.
  { induction l as [|[g b] l IH]; intros r o [Hr Hf] Ho.
    { exists r, o. split; [done|]. split; [|done]. intros g b Hgb. apply Ho; [done|]. apply not_elem_of_nil. }
    cbn [foldl]. set (v := Z.land (reset_xip_offset s g b) 0x0FFFFFFF).
    assert (uint 28 v) as Hv by (apply uint_land_r; [done|by vm_compute]).
    destruct (IH (aset r (sf_ctrl_image_offset_reg g b / 4) (set2 o g b v g b)) (set2 o g b v)) as (r' & o' & Heq & H1 & H2).
    - split; [exact (eq_trans (aset_length _ _ _) Hr)|]. apply aset_Forall; [done|]. rewrite set2_eq.
      apply (uint_weaken 28); [done|lia].
    - intros g' b' Hgb Hni. destruct (decide ((g', b') = (g, b))) as [[= -> ->]|Hne]; [by rewrite set2_eq|].
      rewrite set2_ne by done. apply Ho; [done|]. intros [?|?]%elem_of_cons; done.
    - exists r', o'. split; [|done]. etrans; [|exact Heq]. reflexivity. }
  destruct (Hl group_banks r0 (xip_offset s) Hr0) as (r' & o' & Heq & H1 & H2 & H3); [done|].
  assert (s <| regs := r0 |> <| xip_offset := xip_offset s |> = s <| regs := r0 |>) as Hid by (by destruct s).
  rewrite Hid in Heq. rewrite Heq.
  do 2 eexists. split; [reflexivity|]. split; [exact H1|]. split.
  - exact (eq_trans (aset_length _ _ _) (eq_trans (aset_length _ _ _) H2)).
  - apply aset_Forall; [|by vm_compute]. apply aset_Forall; [|by vm_compute]. exact H3.
Qed.

(** A reset keeps the contents of the chip and the drive. *)
Lemma reset_parts s : ∃ r o x,
  bl808_sf_ctrl_reset s = (sf_ctrl_soft_reset ((sf_ctrl_flash_power_on_reset (s <| regs := r |> <| xip_offset := o |>))
    <| sf_ctrl_0 := 0 |> <| sf_ctrl_1 := 0 |>)) <| xip_ptr := x |>.
Proof.
  unfold bl808_sf_ctrl_reset. cbv zeta. destruct (defaults_only s) as (r & o & -> & _).
  match goal with |- context [bl808_sf_ctrl_sync_all_xip ?a] => destruct (sync_all_only a) as (x & ->) end.
  by exists r, o, x.
Qed.

Lemma soft_reset_guarded s : untouched s (sf_ctrl_soft_reset s) ∧ guarded (sf_ctrl_soft_reset s).
Proof. split; [split; [done|done|apply clr_WEL]|]. split; [apply clr_WEL|by vm_compute]. Qed.

Lemma set_xip_guarded s s' x : untouched s s' ∧ guarded s' → untouched s (s' <| xip_ptr := x |>) ∧ guarded (s' <| xip_ptr := x |>).
Proof. intros [[H1 H2 H3] H4]. by split. Qed.

Lemma reset_untouched s : untouched s (bl808_sf_ctrl_reset s) ∧ guarded (bl808_sf_ctrl_reset s).
Proof.
  destruct (reset_parts s) as (r & o & x & ->). apply set_xip_guarded.
  match goal with |- context [sf_ctrl_soft_reset ?a] => destruct (soft_reset_guarded a) as [[H1 H2 H3] H4] end.
  split; [|done]. by split.
Qed.

(** An access that does not write-enable the chip. *)
Definition no_wren (op : sf_op) : Prop :=
  match op with
  | SfWrite offset value _ => not_cmd FLASH_CMD_WREN offset value
  | SfReset | SfImageOffset _ _ _ => True
  | SfLoad _ _ _ => False
  end.

(** Nothing writes to the chip by accident. However software programs the
    controller, with whatever commands, addresses and lengths, across resets of
    the chip and of the machine: as long as the latch is clear at the start and
    no write-enable command is set up, the flash array and the security
    registers keep their contents. *)
Theorem sf_needs_wren s ops :
  guarded s → Forall no_wren ops →
  flash (sf_run s ops) = flash s ∧ sec_reg (sf_run s ops) = sec_reg s.
Proof.
  intros Hg Hops. revert s Hg. induction Hops as [|op ops Hop Hops IH]; intros s Hg; [done|].
  assert (untouched s (sf_step s op) ∧ guarded (sf_step s op)) as [[H1 H2 _] Hg'].
  { destruct op as [offset value size| |g b v|offset data size]; cbn [sf_step].
    - by apply write_untouched.
    - apply reset_untouched.
    - destruct (image_offset_only s g b v) as (o & r & x & ->). split; [|exact Hg]. by split; [..|apply Hg].
    - done. }
  destruct (IH (sf_step s op) Hg') as [H3 H4]. unfold sf_run in *. cbn [foldl]. by rewrite H3, H4.
Qed.

(** ** One-time programmable registers *)

(** The lock bit of security register [i] is set, in the status register and in
    its non-volatile copy. *)
Definition locked (i : Z) s : Prop := Z.testbit (sr2 s) (3 + i) = true ∧ Z.testbit (sr2_nv s) (3 + i) = true.

Definition kept (i : Z) s s' : Prop := sec_reg s' !% i = sec_reg s !% i ∧ locked i s'.

Lemma kept_same i s s' : locked i s → sec_reg s' = sec_reg s → sr2 s' = sr2 s → sr2_nv s' = sr2_nv s → kept i s s'.
Proof. intros [H1 H2] Hs H3 H4. unfold kept, locked. by rewrite Hs, H3, H4. Qed.

Lemma lock_mask r i : 0 ≤ r < 3 → 0 ≤ i < 3 → Z.testbit (sf_ctrl_sec_reg_lock_mask r) (3 + i) = (r =? i).
Proof.
  intros Hr Hi. assert (r = 0 ∨ r = 1 ∨ r = 2) as [->|[->| ->]] by lia;
    assert (i = 0 ∨ i = 1 ∨ i = 2) as [->|[->| ->]] by lia; by vm_compute.
Qed.

Lemma lock_refuses s i r : 0 ≤ i < 3 → locked i s → tst (sr2 s) (sf_ctrl_sec_reg_lock_mask r) = false →
  0 ≤ r < 3 → r ≠ i.
Proof.
  intros Hi [Hl _] Ht Hr ->. apply tst_false in Ht. apply (f_equal (λ z, Z.testbit z (3 + i))) in Ht.
  by rewrite Z.land_spec, Hl, lock_mask, Z.eqb_refl, Z.bits_0 in Ht by done.
Qed.

Lemma set_other_sec s i r l : 0 ≤ i → 0 ≤ r → r ≠ i → locked i s → kept i s (s <| sec_reg := aset (sec_reg s) r l |>).
Proof. intros Hi Hr Hne Hl. split; [by apply aget_aset_ne|exact Hl]. Qed.

Lemma LB_bit i : 0 ≤ i < 3 → Z.testbit SR2_LB_MASK (3 + i) = true ∧ Z.testbit SR2_WRITABLE_MASK (3 + i) = true.
Proof. intros Hi. assert (i = 0 ∨ i = 1 ∨ i = 2) as [->|[->| ->]] by lia; by vm_compute. Qed.

Lemma apply_sr2_locked c r i : 0 ≤ i < 3 → Z.testbit c (3 + i) = true →
  Z.testbit (sf_ctrl_apply_sr2_write c r) (3 + i) = true.
Proof.
  intros Hi Hc. unfold sf_ctrl_apply_sr2_write. cbv zeta. rewrite !Z.lor_spec, (Z.land_spec c), Hc, (proj1 (LB_bit i Hi)).
  cbn [andb]. by rewrite orb_true_r.
Qed.

Lemma commit_kept i s s1 v : 0 ≤ i < 3 → kept i s s1 → kept i s (sf_ctrl_commit_status_write s1 v).
Proof.
  intros Hi [Hk [H1 H2]]. unfold sf_ctrl_commit_status_write. cbv zeta. destruct v; cbn [negb]; (split; [exact Hk|]); split;
    cbn [set_field sr2 sr2_nv]; rewrite ?Z.lor_spec, ?Z.land_spec, ?Z.lor_spec, ?H1, ?(proj2 (LB_bit i Hi)); done.
Qed.

Lemma soft_reset_kept i s : 0 ≤ i < 3 → locked i s → kept i s (sf_ctrl_soft_reset s).
Proof.
  intros Hi [H1 H2]. split; [done|]. split; [|done]. unfold sf_ctrl_soft_reset, sf_ctrl_restore_status_from_nv. cbv zeta.
  cbn [set_field sr2 sr2_nv]. rewrite clr_spec, Z.lor_spec, Z.land_spec by lia.
  rewrite H2, (proj2 (LB_bit i Hi)).
  change SR2_SUS with (BIT 7). rewrite BIT_spec by lia. by rewrite (proj2 (Z.eqb_neq 7 (3 + i))) by lia.
Qed.

Lemma set_defaults_kept i s s1 r o : kept i s s1 → kept i s (s1 <| regs := r |> <| xip_offset := o |>).
Proof. by intros [H1 H2]. Qed.

Lemma sec_erase_kept i s addr : 0 ≤ i < 3 → locked i s → kept i s (sf_ctrl_sec_reg_erase s addr).
Proof.
  intros Hi Hl. unfold sf_ctrl_sec_reg_erase.
  destruct (sf_ctrl_decode_sec_reg_addr addr) as [[r o]|] eqn:Hd; [|by apply kept_same].
  destruct (tst _ _) eqn:Ht; [by apply kept_same|]. cbv zeta. apply decode_sec_bound in Hd as [Hr Ho].
  by apply (set_other_sec s i r); [lia|lia|apply (lock_refuses s)|].
Qed.

Lemma sec_program_kept i s addr n : 0 ≤ i < 3 → locked i s → kept i s (sf_ctrl_sec_reg_program s addr n).
Proof.
  intros Hi Hl. unfold sf_ctrl_sec_reg_program. cbv zeta.
  destruct (if tst (sr1 s) SR1_WEL then _ else None) as [[r o]|] eqn:Hd; [|by apply kept_same].
  destruct (tst (sr2 s) _) eqn:Ht; [by apply kept_same|]. destruct (tst (sr1 s) _); [|done].
  apply decode_sec_bound in Hd as [Hr Ho]. by apply (set_other_sec s i r); [lia|lia|apply (lock_refuses s)|].
Qed.

Lemma switch_kept i s cmd ha addr n : 0 ≤ i < 3 → locked i s → kept i s (sf_ctrl_switch s cmd ha addr n).
Proof.
  intros Hi Hl. assert (∀ a k, kept i s (sf_ctrl_page_program s a k)) as Hpp.
  { intros a k. destruct (page_program_only s a k) as (f & x & d & ->). by apply kept_same. }
  assert (∀ a k, kept i s (sf_ctrl_erase_range s a k)) as Her.
  { intros a k. destruct (erase_range_only s a k) as (x & d & ->). by apply kept_same. }
  assert (∀ r, locked i (s <| sr2 := sf_ctrl_apply_sr2_write (sr2 s) r |>)) as Hsr.
  { intros r. destruct Hl as [H1 H2]. split; [by apply apply_sr2_locked|done]. }
  unfold sf_ctrl_switch, sf_ctrl_erase_cmd. cbv zeta.
  repeat lazymatch goal with |- kept i s (if ?b then _ else _) => destruct b eqn:?Hcase end;
    try lazymatch goal with
    | |- kept i s s => exact (conj eq_refl Hl)
    | |- kept i s (sf_ctrl_page_program _ _ _) => apply Hpp
    | |- kept i s (sf_ctrl_erase_range _ _ _) => apply Her
    | |- kept i s (sf_ctrl_store_data _ _) => exact (conj eq_refl Hl)
    | |- kept i s (_ <| _ := _ |>) => exact (conj eq_refl Hl)
    end.
  - apply commit_kept; [done|]. destruct (0 <? n), (1 <? n); split; try done; apply Hsr.
  - apply commit_kept; [done|]. destruct (0 <? n); split; try done; apply Hsr.
  - apply commit_kept; [done|]. by destruct (0 <? n).
  - unfold sf_ctrl_read_buffer. destruct (_ <=? _); by apply kept_same.
  - unfold sf_ctrl_read_sec_reg. destruct (sf_ctrl_decode_sec_reg_addr addr) as [[r o]|]; by apply kept_same.
  - by apply sec_program_kept.
  - by apply sec_erase_kept.
  - destruct (defaults_only (sf_ctrl_soft_reset s)) as (r & o & -> & _).
    by apply set_defaults_kept, soft_reset_kept.
Qed.

Lemma execute_kept i s : 0 ≤ i < 3 → locked i s → kept i s (sf_ctrl_execute_cmd s).
Proof.
  intros Hi Hl. unfold sf_ctrl_execute_cmd. cbv zeta. destruct (_ =? 0); [done|]. destruct (_ && _); [done|].
  set (s1 := if _ : bool then _ else _).
  assert (locked i s1 ∧ sec_reg s1 = sec_reg s) as [Hl1 Hs1] by (subst s1; by destruct (reset_armed s && _)).
  match goal with |- context [sf_ctrl_switch s1 ?b ?c ?d ?e] => destruct (switch_kept i s1 b c d e Hi Hl1) as [H1 H2] end.
  split; [|exact H2]. rewrite <- Hs1. exact H1.
Qed.

Lemma write_kept i s offset value size : 0 ≤ i < 3 → locked i s → kept i s (bl808_sf_ctrl_write s offset value size).
Proof.
  intros Hi Hl. unfold bl808_sf_ctrl_write. cbv zeta. destruct (in_buf offset); [by destruct (_ || _)|].
  destruct (negb (size =? 4)); [done|].
  repeat match goal with |- context [offset =? ?k] => destruct (Z.eqb_spec offset k) end;
    try (match goal with |- context [bl808_sf_ctrl_set_flash_image_offset ?a ?b ?c ?d] =>
      destruct (image_offset_only a b c d) as (? & ? & ? & ->) end); try done; [|by destruct (_ && _)].
  destruct (_ && _); [|done]. set (s1 := _ <| sf_ctrl_if_sahb0 := _ |> <| sf_ctrl_if_sahb0 := _ |>).
  exact (execute_kept i s1 Hi Hl).
Qed.

Lemma load_only s o (data : mem) n : ∃ f x d,
  bl808_sf_ctrl_write_flash s o (Some data) n = s <| flash := f |> <| xip_ptr := x |> <| blk := d |>.
Proof.
  unfold bl808_sf_ctrl_write_flash. destruct (_ || _).
  { exists (flash s), (xip_ptr s), (blk s). by destruct s. }
  cbv zeta. set (n' := if _ : bool then _ else _). set (s1 := s <| flash := _ |>).
  destruct (sync_only s1 o n') as (x & ->). destruct (blk_write_only (s1 <| xip_ptr := x |>) o n') as (d & ->).
  by eexists _, x, d.
Qed.

(** A locked security register is final.  Once the lock bit of a register is
    set in the status register and stored, no sequence of register accesses erases
    or programs the register or clears its lock: not the erase and program commands,
    nor writes of the status registers, volatile or not, nor the software reset of
    the chip (a reset of the machine does: it models a new chip). *)
Theorem sf_locked_final i s ops :
  0 ≤ i < 3 → locked i s → SfReset ∉ ops → sec_reg (sf_run s ops) !% i = sec_reg s !% i ∧ locked i (sf_run s ops).
Proof.
  intros Hi. revert s. induction ops as [|op ops IH]; intros s Hl Hops; [done|].
  apply not_elem_of_cons in Hops as [Hne Hops]. assert (kept i s (sf_step s op)) as [H1 H2].
  { destruct op as [offset value size| |g b v|o data n]; cbn [sf_step].
    - by apply write_kept.
    - done.
    - by destruct (image_offset_only s g b v) as (r & o & x & ->).
    - by destruct (load_only s o data n) as (f & x & d & ->). }
  destruct (IH (sf_step s op) H2 Hops) as [H3 H4]. unfold sf_run in *. cbn [foldl]. by rewrite H3.
Qed.

(** ** No command is left pending *)

(** Neither BUSY nor TRIGGER is set. *)
Definition idle s : Prop := Z.testbit (sf_ctrl_if_sahb0 s) 0 = false ∧ Z.testbit (sf_ctrl_if_sahb0 s) 1 = false.

Lemma finished_idle s v : idle (s <| sf_ctrl_if_sahb0 := clr v (Z.lor SAHB0_BUSY SAHB0_TRIGGER) |>).
Proof. split; lazy beta iota delta [set_field sf_ctrl_if_sahb0]; rewrite clr_spec by lia; apply andb_false_r. Qed.

Lemma execute_idle s : idle (sf_ctrl_execute_cmd s).
Proof.
  unfold sf_ctrl_execute_cmd. cbv zeta. destruct (_ =? 0); [apply finished_idle|].
  destruct (_ && _); apply finished_idle.
Qed.

Lemma write_idle s offset value size : idle s → idle (bl808_sf_ctrl_write s offset value size).
Proof.
  intros [H0 H1]. unfold bl808_sf_ctrl_write. cbv zeta. destruct (in_buf offset); [by destruct (_ || _)|].
  destruct (negb (size =? 4)); [done|].
  repeat match goal with |- context [offset =? ?k] => destruct (Z.eqb_spec offset k) end;
    try (match goal with |- context [bl808_sf_ctrl_set_flash_image_offset ?a ?b ?c ?d] =>
      destruct (image_offset_only a b c d) as (? & ? & ? & ->) end); try done; [|by destruct (_ && _)].
  change SAHB0_TRIGGER with (BIT 1). rewrite !tst_BIT, H1 by lia. cbn [negb andb].
  destruct (Z.testbit (clr (u32 value) SAHB0_BUSY) 1) eqn:Ht; [apply execute_idle|]. split; [|exact Ht].
  lazy beta iota delta [set_field sf_ctrl_if_sahb0]. rewrite clr_spec by lia. apply andb_false_r.
Qed.

Lemma execute_ctrl s : next_cmd s ≠ FLASH_CMD_RESET →
  sf_ctrl_0 (sf_ctrl_execute_cmd s) = sf_ctrl_0 s ∧ sf_ctrl_if_sahb1 (sf_ctrl_execute_cmd s) = sf_ctrl_if_sahb1 s.
Proof.
  intros Hc. unfold sf_ctrl_execute_cmd. cbv zeta. destruct (_ =? 0); [done|]. destruct (_ && _); [done|].
  rewrite cmd_byte. set (s1 := if _ : bool then _ else _).
  assert (sf_ctrl_0 s1 = sf_ctrl_0 s ∧ sf_ctrl_if_sahb1 s1 = sf_ctrl_if_sahb1 s) as [<- <-]
    by (subst s1; by destruct (reset_armed s && _)).
  match goal with |- context [sf_ctrl_switch s1 ?b ?c ?d ?e] => destruct (switch_ctrl s1 b c d e Hc) as [H1 _ H2 _] end.
  by split.
Qed.

Lemma write_tame s offset value size :
  tame s → not_cmd FLASH_CMD_RESET offset value → (offset = REG_SF_CTRL_0 → Z.testbit value 19 = false) →
  tame (bl808_sf_ctrl_write s offset value size).
Proof.
  intros [H0 H1] Hc Hv. unfold bl808_sf_ctrl_write. cbv zeta. destruct (in_buf offset); [by destruct (_ || _)|].
  destruct (negb (size =? 4)); [done|].
  repeat match goal with |- context [offset =? ?k] => destruct (Z.eqb_spec offset k) end;
    try (match goal with |- context [bl808_sf_ctrl_set_flash_image_offset ?a ?b ?c ?d] =>
      destruct (image_offset_only a b c d) as (? & ? & ? & ->) end); try done.
  - split; [|done]. lazy beta iota delta [set_field sf_ctrl_0]. rewrite wrap_testbit by lia. by rewrite Hv.
  - destruct (_ && _); [|done]. set (s1 := _ <| sf_ctrl_if_sahb0 := _ |>).
    destruct (execute_ctrl s1 H1) as [H2 H3]. split; [by rewrite H2|]. unfold next_cmd. by rewrite H3.
  - split; [done|]. by apply Hc.
  - by destruct (_ && _).
Qed.
End run.

Section shown.
Context {B : Type} `{!BlockBackend B} `{DL : !DriveLaws (B := B)}.
Notation state := (BL808SfCtrlState B).
Implicit Types s : state.

(** Everything that holds between accesses. *)
Definition sf_ready s : Prop := sf_inv s ∧ tame s ∧ idle s.

(** What software and machine may do: aligned accesses; no software reset of
    the chip, no 32-bit addresses. *)
Definition tame_op (op : sf_op) : Prop :=
  match op with
  | SfWrite offset value size => bus_access offset size ∧ not_cmd FLASH_CMD_RESET offset value ∧
      (offset = REG_SF_CTRL_0 → Z.testbit value 19 = false)
  | SfReset => True
  | SfImageOffset g b _ => uint 8 g ∧ uint 8 b
  | SfLoad offset data size => 0 ≤ offset ∧ 0 ≤ size ∧ offset + size < 2 ^ 32 ∧ ∀ a, uint 8 (data a)
  end.

Lemma power_on_inv s : typed s → typed (sf_ctrl_flash_power_on_reset s).
Proof.
  intros Ht. apply (typed_frame _ _ Ht); try reflexivity; vm_compute; repeat split; congruence.
Qed.

Lemma soft_reset_typed s : typed s → typed (sf_ctrl_soft_reset s).
Proof.
  intros [_ H2 H3 _ H5]. split; [|exact H2|exact H3| |exact H5].
  - split; [apply length_replicate|by apply Forall_replicate].
  - destruct H5 as (Ha & Hb & Hc). unfold sf_ctrl_soft_reset, sf_ctrl_restore_status_from_nv. cbv zeta.
    lazy beta iota delta [set_field sr1 sr2 sr3 sr1_nv sr2_nv sr3_nv].
    split; [|split]; eauto 10 with uint.
Qed.

Lemma set_ctrl_typed s v w : typed s → typed (s <| sf_ctrl_0 := v |> <| sf_ctrl_1 := w |>).
Proof. intros [H1 H2 H3 H4 H5]. by split. Qed.

Lemma set_xip_typed s x : typed s → typed (s <| xip_ptr := x |>).
Proof. intros [H1 H2 H3 H4 H5]. by split. Qed.

Lemma sf_reset_inv s : sf_inv s → sf_ready (bl808_sf_ctrl_reset s).
Proof.
  intros [Ht [H1 H2 H3 H4]]. unfold bl808_sf_ctrl_reset. cbv zeta.
  destruct (defaults_only s) as (r & o & -> & Ho & Hr). set (s1 := s <| regs := r |> <| xip_offset := o |>).
  assert (typed s1) as Ht1 by (destruct Ht as [T1 _ T3 T4 T5]; by split).
  match goal with |- context [bl808_sf_ctrl_sync_all_xip ?a] => set (s2 := a) end.
  assert (typed s2) as Ht2.
  { by apply soft_reset_typed, set_ctrl_typed, power_on_inv. }
  assert (offsets_ok s2) as Ho2 by exact Ho.
  destruct (sync_all_spec s2 Ho2) as (x & -> & Hx). split; [|split].
  - split; [by apply set_xip_typed|]. split; [exact H1|exact Ho|exact Hx|exact H4].
  - split; [|by vm_compute]. change (Z.testbit (clr 0 SF_CTRL_0_32B_ADDR_EN) 19 = false). by vm_compute.
  - done.
Qed.

Lemma load_inv s o (data : mem) n :
  sf_inv s → 0 ≤ o → 0 ≤ n → o + n < 2 ^ 32 → (∀ a, uint 8 (data a)) →
  ∃ f x d, bl808_sf_ctrl_write_flash s o (Some data) n = s <| flash := f |> <| xip_ptr := x |> <| blk := d |> ∧
    shown f x (xip_offset s) d.
Proof.
  intros [Ht Hs] Ho Hn Hon Hd. unfold bl808_sf_ctrl_write_flash. pose proof flash_size as HF. destruct (_ || _) eqn:Hc.
  { exists (flash s), (xip_ptr s), (blk s). split; [by destruct s|done]. }
  apply orb_false_iff in Hc as [Hn0%Z.eqb_neq Ho0%Z.leb_gt]. cbv zeta.
  set (n' := if _ : bool then _ else _). assert (0 ≤ n' ∧ o + n' ≤ BL808_SF_CTRL_FLASH_SIZE) as [Hn' He].
  { subst n'. rewrite !wrap_small by (unfold uint; lia). destruct (Z.ltb_spec BL808_SF_CTRL_FLASH_SIZE (o + n)); lia. }
  destruct (flash_changed s (mem_copy (flash s) o data 0 n') o n' Hs Ho Hn' He) as (x & d & -> & Hx).
  - intros a. unfold mem_copy. destruct (_ && _); [done|apply Hs].
  - intros a Ha. by apply mem_copy_out.
  - by eexists _, x, d.
Qed.

Lemma step_ready s op : sf_ready s → tame_op op → sf_ready (sf_step s op).
Proof.
  intros (Hi & Ht & Hd) Hop. destruct op as [offset value size| |g b v|o data n]; cbn [sf_step tame_op] in *.
  - destruct Hop as (Hb & Hc & Hv). split; [by apply sf_write_inv|]. split; [by apply write_tame|by apply write_idle].
  - by apply sf_reset_inv.
  - destruct (decide ((g, b) ∈ group_banks)) as [Hgb|Hgb].
    + split; [by apply image_offset_inv|]. by destruct (image_offset_only s g b v) as (? & ? & ? & ->).
    + assert (bl808_sf_ctrl_set_flash_image_offset s g b v = s) as ->; [|done].
      unfold bl808_sf_ctrl_set_flash_image_offset, sf_ctrl_valid_group_bank, BL808_SF_CTRL_GROUP_COUNT, BL808_SF_CTRL_BANK_COUNT.
      destruct (Z.ltb_spec g 2), (Z.ltb_spec b 2); try done. exfalso. apply Hgb. unfold group_banks.
      destruct Hop as [[] []]. assert (g = 0 ∨ g = 1) as [-> | ->] by lia; assert (b = 0 ∨ b = 1) as [-> | ->] by lia; set_solver.
  - destruct Hop as (H1 & H2 & H3 & H4). change (sf_ready (bl808_sf_ctrl_write_flash s o (Some data) n)).
    destruct (load_inv s o data n Hi H1 H2 H3 H4) as (f & x & d & -> & Hs).
    split; [|done]. split; [|exact Hs]. by destruct Hi as [[] _].
Qed.

(** A device object before it is realized: zeroed, with the windows and the drive
    the machine gave it. *)
Record new_device s : Prop := {
  new_buf : buf s = replicate 512 0;
  new_ctrl : sf_ctrl_0 s = 0 ∧ sf_ctrl_if_sahb0 s = 0 ∧ sf_ctrl_if_sahb1 s = 0;
  new_drive : ∀ d, blk s = Some d → healthy d;
}.

(** The state with the contents [f] and the drive [d], before the windows are
    filled. *)
Lemma fill_ready s f d : typed s → tame s → idle s → offsets_ok s → (∀ a, uint 8 (f a)) →
  (∀ dr, d = Some dr → healthy dr ∧ ∀ a, 0 ≤ a < BL808_SF_CTRL_FLASH_SIZE → drive_bytes dr a = f a) →
  sf_ready (bl808_sf_ctrl_sync_all_xip (s <| blk := d |> <| flash := f |>)).
Proof.
  intros Ht Hta Hid Ho Hf Hd. set (s2 := s <| blk := d |> <| flash := f |>). assert (offsets_ok s2) as Ho2 by exact Ho.
  destruct (sync_all_spec s2 Ho2) as (x & -> & Hx). split; [|done]. split; [|by split].
  by destruct Ht as [H1 H2 H3 H4 H5]; split.
Qed.

Lemma realize_ready s s' : new_device s → bl808_sf_ctrl_realize s = Some s' → sf_ready s'.
Proof.
  intros [Hb (Hc0 & Hc1 & Hc2) Hd]. unfold bl808_sf_ctrl_realize. cbv zeta. set (sec := replicate _ (replicate _ _)).
  assert (length sec = 3%nat ∧ Forall (λ r, length r = 256%nat ∧ Forall (uint 8) r) sec) as Hsec.
  { split; [apply length_replicate|]. apply Forall_replicate. split; [apply length_replicate|by apply Forall_replicate]. }
  clearbody sec.
  match goal with |- context [sf_ctrl_reset_register_defaults ?a] => destruct (defaults_only a) as (r & o & -> & Ho & Hr) end.
  set (s1 := sf_ctrl_flash_power_on_reset _).
  assert (typed s1) as Ht1.
  { split; [|exact Hr|exact Hsec|vm_compute; repeat split; congruence|vm_compute; repeat split; congruence].
    change (length (buf s) = 512%nat ∧ Forall (uint 8) (buf s)). rewrite Hb.
    split; [apply length_replicate|by apply Forall_replicate]. }
  assert (tame s1) as Hta1.
  { split; [change (Z.testbit (sf_ctrl_0 s) 19 = false); by rewrite Hc0|].
    change (u8 (Z.shiftr (sf_ctrl_if_sahb1 s) 24) ≠ FLASH_CMD_RESET). by rewrite Hc2. }
  assert (idle s1) as Hid1.
  { split; [change (Z.testbit (sf_ctrl_if_sahb0 s) 0 = false)|change (Z.testbit (sf_ctrl_if_sahb0 s) 1 = false)]; by rewrite Hc1. }
  assert (offsets_ok s1) as Ho1 by exact Ho. assert (blk s1 = blk s) as Hblk by done.
  assert (flash s1 = λ _, 0xFF) as Hfl by done. clearbody s1. rewrite Hblk.
  destruct (blk s) as [dr|] eqn:Hdr.
  - specialize (Hd dr eq_refl). destruct (set_perm_ok dr Hd) as (Hp1 & Hp2 & Hp3).
    destruct (blk_set_perm dr) as [ret dr'] eqn:Hperm. cbn [fst snd] in *. rewrite (proj2 (Z.ltb_ge _ _)) by lia.
    pose proof (getlength_ok dr' Hp2) as Hlen. pose proof flash_size as HF.
    rewrite (proj2 (Z.ltb_ge (blk_getlength dr') 0)) by lia.
    set (len := if BL808_SF_CTRL_FLASH_SIZE <? _ then _ else _). assert (len = BL808_SF_CTRL_FLASH_SIZE) as ->.
    { subst len. destruct (Z.ltb_spec BL808_SF_CTRL_FLASH_SIZE (blk_getlength dr')); lia. }
    rewrite (proj2 (Z.ltb_lt _ _)) by lia.
    destruct (pread_ok dr' 0 BL808_SF_CTRL_FLASH_SIZE Hp2) as [Hr1 Hr2]; [lia..|].
    destruct (blk_pread dr' 0 BL808_SF_CTRL_FLASH_SIZE) as [ret' data] eqn:Hread. cbn [fst snd] in *.
    rewrite (proj2 (Z.ltb_ge _ _)) by lia. intros [= <-]. rewrite Hfl. apply fill_ready; try done.
    + intros a. unfold mem_copy. destruct (Z.leb_spec 0 a); [|done].
      destruct (Z.ltb_spec a (0 + BL808_SF_CTRL_FLASH_SIZE)); [|done]. cbn [andb]. rewrite Hr2 by lia. apply drive_byte.
    + intros dr2 [= <-]. split; [done|]. intros a Ha. rewrite mem_copy_in by lia. rewrite Hr2 by lia. f_equal. lia.
  - intros [= <-]. assert (s1 = s1 <| blk := None |> <| flash := λ _, 0xFF |>) as ->.
    { rewrite <- Hblk, <- Hfl. by destruct s1. }
    by apply fill_ready.
Qed.

(** C24: one flash, seen the same everywhere.  A device is realized over no drive or
    over one as large as the flash, and then goes through any accesses, resets,
    remappings and loads, in which software neither issues the software reset of the
    chip nor turns on 32-bit addresses. At every moment each mapped window shows, at
    address [a], the byte of the flash at its image offset plus [a], and erased
    bytes past the end of the flash; the drive holds the bytes of the flash; every
    register and buffer keeps its size and width; and no command is left pending,
    so the next trigger is executed. *)
Theorem sf_flash_shown s0 s ops :
  new_device s0 → bl808_sf_ctrl_realize s0 = Some s → Forall tame_op ops →
  let s' := sf_run s ops in
  (∀ g b xip a, (g, b) ∈ group_banks → xip_ptr s' g b = Some xip → 0 ≤ a < BL808_SF_CTRL_FLASH_APERTURE_SIZE →
     xip a = window (flash s') (xip_offset s' g b) a) ∧
  (∀ d a, blk s' = Some d → 0 ≤ a < BL808_SF_CTRL_FLASH_SIZE → drive_bytes d a = flash s' a) ∧
  typed s' ∧ idle s'.
Proof.
  intros Hnew Hreal Hops. pose proof (realize_ready s0 s Hnew Hreal) as Hs. clear Hnew Hreal.
  assert (sf_ready (sf_run s ops)) as ((Ht & Hsh) & _ & Hid).
  { revert s Hs. induction Hops as [|op ops Hop Hops IH]; intros s Hs; [done|]. cbn. apply IH. by apply step_ready. }
  cbv zeta. destruct Hsh as [_ _ Hv Hd]. split; [|split; [|done]].
  - intros g b xip a Hgb Hx. by apply (Hv g b xip Hgb Hx).
  - intros d a Hbd. by apply Hd.
Qed.
End shown.
