(* ===== verification/SfFlash.v ===== *)
(** * The flash driver of the HAL ([src/bl808/flash.nim]) on the controller

    Module [FlashHal]: the routines by which the kernel erases, programs and reads
    the flash, as accesses to the registers of [SfCtrl].  They are proved against
    the controller: programming any stretch of the flash clears exactly the bits
    that are zero in the data, and erased flash reads back what was written. *)

From S2P Require Import Prelude Qemu SfCtrl SfCtrlSpec SfCtrlRun.
From stdpp Require Import prelude list.
From Stdlib Require Import ZArith Lia.
Local Open Scope Z_scope.
Import BL808SFCTRL.

Module FlashHal.

Definition SfCtrlCfg1OwnerIahb := BIT 28.
Definition SfCtrlCfg1IfEn := BIT 29.
Definition SfCtrlCfg1Ahb2SifEn := BIT 30.
Definition SfCtrlBufBase := BL808_SF_CTRL_BUF_OFF.
Definition Sahb0DataRw := BIT 23.

Inductive FlashError := flashOk | flashBusy | flashTimeout | flashAlignError | flashSizeError.

#[export] Instance flash_error_dec : EqDecision FlashError.
Proof. solve_decision. Defined.

Section hal.
Context {B : Type} `{!BlockBackend B}.
Notation state := (BL808SfCtrlState B).
Implicit Types s : state.

Definition regRead s (reg : Z) : Z := bl808_sf_ctrl_read s reg 4.
Definition regWrite s (reg value : Z) : state := bl808_sf_ctrl_write s reg value 4.

Definition sfCtrlRestoreXip s : state :=
  regWrite s REG_SF_CTRL_1
    (Z.lor (Z.lor (Z.lor (regRead s REG_SF_CTRL_1) SfCtrlCfg1IfEn) SfCtrlCfg1OwnerIahb) SfCtrlCfg1Ahb2SifEn).

(** The first word of the command stream for three address bytes. *)
Definition cmd_word (cmd flashAddr : Z) (hasAddr : bool) : Z :=
  let cmd0 := u32 (Z.shiftl cmd 24) in
  if hasAddr then
    foldl (λ cmd0 i,
      let shift := (3 - 1 - i) * 8 in
      let byteVal := Z.land (Z.shiftr flashAddr shift) 0xFF in
      let streamIndex := 1 + i in
      Z.lor cmd0 (u32 (Z.shiftl byteVal ((3 - streamIndex) * 8)))) cmd0 (seqZ 0 3)
  else cmd0.

Definition sahb0_word (hasAddr : bool) (dataLen : Z) (dataWrite : bool) : Z :=
  let sahb0 := SAHB0_CMD_EN in
  let sahb0 := if hasAddr then Z.lor (Z.lor sahb0 SAHB0_ADDR_EN) (Z.shiftl (3 - 1) SAHB0_ADDR_BYTES_SHIFT) else sahb0 in
  if 0 <? dataLen then
    let sahb0 := Z.lor (Z.lor sahb0 SAHB0_DATA_EN) (Z.shiftl (dataLen - 1) SAHB0_DATA_BYTES_SHIFT) in
    if dataWrite then Z.lor sahb0 Sahb0DataRw else sahb0
  else sahb0.

(** [addrLen] is 3 in every call.  The waits for BUSY only read. *)
Definition sfCtrlSendCmd s (cmd flashAddr : Z) (hasAddr : bool) (dataLen : Z) (dataWrite : bool) : state :=
  let cmd0 := cmd_word cmd flashAddr hasAddr in
  let sahb0 := sahb0_word hasAddr dataLen dataWrite in
  let s := regWrite s REG_SF_CTRL_1
    (Z.lor (clr (regRead s REG_SF_CTRL_1) (Z.lor SfCtrlCfg1OwnerIahb SfCtrlCfg1Ahb2SifEn)) SfCtrlCfg1IfEn) in
  let s := regWrite s REG_SF_CTRL_IF_SAHB0 (clr (regRead s REG_SF_CTRL_IF_SAHB0) SAHB0_TRIGGER) in
  let s := regWrite s REG_SF_CTRL_IF_SAHB1 cmd0 in
  let s := regWrite s REG_SF_CTRL_IF_SAHB2 0 in
  let s := regWrite s REG_SF_CTRL_IF_SAHB0 sahb0 in
  regWrite s REG_SF_CTRL_IF_SAHB0 (Z.lor sahb0 SAHB0_TRIGGER).

(** One turn of the polling loop. *)
Definition poll_once s : FlashError * state :=
  let s := sfCtrlSendCmd s FLASH_CMD_READ_SR1 0 false 1 false in
  let sr := Z.land (regRead s SfCtrlBufBase) 0xFF in
  if Z.land sr (Z.shiftl 1 0) =? 0 then (flashOk, s) else (flashTimeout, s).

Definition or_else (r : FlashError * state) (k : state → FlashError * state) : FlashError * state :=
  if bool_decide (r.1 = flashOk) then r else k r.2.

(** At most [countdown] turns; the recursion is on the binary digits of the
    countdown, which is in the millions. *)
Fixpoint sfCtrlWaitBusy s (countdown : positive) : FlashError * state :=
  match countdown with
  | xH => poll_once s
  | xO n => or_else (sfCtrlWaitBusy s n) (λ s, sfCtrlWaitBusy s n)
  | xI n => or_else (poll_once s) (λ s, or_else (sfCtrlWaitBusy s n) (λ s, sfCtrlWaitBusy s n))
  end.

Definition flashWriteEnable s : FlashError * state :=
  (flashOk, sfCtrlRestoreXip (sfCtrlSendCmd s FLASH_CMD_WREN 0 false 0 false)).

Definition flashReadRawByte s (offset : Z) : Z * state :=
  let s := sfCtrlSendCmd s FLASH_CMD_READ offset true 1 false in
  (Z.land (regRead s SfCtrlBufBase) 0xFF, sfCtrlRestoreXip s).

(** The commands that erase [size] bytes. *)
Definition flashErase s (cmd size address : Z) (timeout : positive) : FlashError * state :=
  if negb (Z.land address (size - 1) =? 0) then (flashAlignError, s)
  else
    let '(result, s) := flashWriteEnable s in
    if negb (bool_decide (result = flashOk)) then (result, s)
    else
      let s := sfCtrlSendCmd s cmd address true 0 false in
      let '(result, s) := sfCtrlWaitBusy s timeout in
      (result, sfCtrlRestoreXip s).

Definition flashEraseSector s (address : Z) : FlashError * state :=
  flashErase s FLASH_CMD_SECTOR_ERASE FLASH_SECTOR_SIZE address 5000000.
Definition flashEraseBlock64 s (address : Z) : FlashError * state :=
  flashErase s FLASH_CMD_BLOCK_ERASE64 FLASH_BLOCK64_SIZE address 10000000.

(** The data, four bytes at a time; the last word is padded with zeros. *)
Definition load_words s (data : list Z) : state :=
  foldl (λ s i, regWrite s (SfCtrlBufBase + 4 * i) (le_to_cpu (take 4 (drop (Z.to_nat (4 * i)) data))))
    s (seqZ 0 ((Z.of_nat (length data) + 3) / 4)).

Definition flashProgramRaw s (address : Z) (data : list Z) : FlashError * state :=
  let len := Z.of_nat (length data) in
  if len =? 0 then (flashOk, s)
  else if FLASH_PAGE_SIZE <? len then (flashSizeError, s)
  else
    let '(result, s) := flashWriteEnable s in
    if negb (bool_decide (result = flashOk)) then (result, s)
    else
      let s := load_words s data in
      let s := sfCtrlSendCmd s FLASH_CMD_PAGE_PROG address true len true in
      let '(result, s) := sfCtrlWaitBusy s 5000000 in
      (result, sfCtrlRestoreXip s).

Definition flashProgramPage s (address : Z) (data : list Z) : FlashError * state :=
  if negb (Z.land address (FLASH_PAGE_SIZE - 1) =? 0) then (flashAlignError, s)
  else flashProgramRaw s address data.

(** The data left at each step is [data]; every step programs at least a byte. *)
Fixpoint flashWrite_loop (fuel : nat) s (writeAddr : Z) (data : list Z) : FlashError * state :=
  match fuel with
  | O => (flashOk, s)
  | S fuel =>
      match data with
      | [] => (flashOk, s)
      | _ =>
          let pageOffset := Z.land writeAddr (FLASH_PAGE_SIZE - 1) in
          let pageRemain := FLASH_PAGE_SIZE - pageOffset in
          let chunkLen := Z.to_nat (Z.min pageRemain (Z.of_nat (length data))) in
          let '(result, s) := flashProgramRaw s writeAddr (take chunkLen data) in
          if negb (bool_decide (result = flashOk)) then (result, s)
          else flashWrite_loop fuel s (u32 (writeAddr + Z.of_nat chunkLen)) (drop chunkLen data)
      end
  end.

Definition flashWrite s (address : Z) (data : list Z) : FlashError * state :=
  flashWrite_loop (length data) s address data.

(** ** The words of a command *)

Lemma cmd_word_spec cmd a hasAddr : uint 8 cmd →
  cmd_word cmd a hasAddr = cmd * 2 ^ 24 + (if hasAddr then a mod 2 ^ 24 else 0).
Proof.
  intros Hc. unfold uint in Hc. unfold cmd_word. rewrite (Z.shiftl_mul_pow2 cmd) by lia.
  rewrite (wrap_small 32) by (unfold uint; lia). destruct hasAddr; [|lia].
  change (seqZ 0 3) with [0; 1; 2]. cbn [foldl]. cbv zeta.
  change ((3 - 1 - 0) * 8) with 16. change ((3 - 1 - 1) * 8) with 8. change ((3 - 1 - 2) * 8) with 0.
  change ((3 - (1 + 0)) * 8) with 16. change ((3 - (1 + 1)) * 8) with 8. change ((3 - (1 + 2)) * 8) with 0.
  change 0xFF with (Z.ones 8). rewrite !Z.land_ones, !Z.shiftr_div_pow2 by lia.
  set (b2 := (a / 2 ^ 16) mod 2 ^ 8). set (b1 := (a / 2 ^ 8) mod 2 ^ 8). set (b0 := (a / 2 ^ 0) mod 2 ^ 8).
  assert (uint 8 b2 ∧ uint 8 b1 ∧ uint 8 b0) as (H2 & H1 & H0).
  { repeat split; apply Z.mod_pos_bound; lia. }
  unfold uint in *. rewrite !(wrap_small 32) by (unfold uint; rewrite Z.shiftl_mul_pow2 by lia; lia).
  rewrite Z.shiftl_0_r, <- !Z.lor_assoc.
  rewrite (lor_shiftl_add 8 b1 b0) by (done || lia).
  rewrite (lor_shiftl_add 16 b2) by (unfold uint; lia).
  replace (cmd * 2 ^ 24) with (Z.shiftl cmd 24) by (by rewrite Z.shiftl_mul_pow2).
  rewrite (lor_shiftl_add 24 cmd) by (unfold uint; lia). rewrite Z.shiftl_mul_pow2 by lia.
  f_equal. subst b2 b1 b0. rewrite Z.div_1_r. clear. Z.div_mod_to_equations. lia.
Qed.

Lemma sahb0_word_fields hasAddr n rw : 0 ≤ n ≤ 1024 →
  let w := Z.lor (clr (u32 (Z.lor (sahb0_word hasAddr n rw) SAHB0_TRIGGER)) SAHB0_BUSY) SAHB0_BUSY in
  sahb0_cmd_bytes w = 1 ∧ sahb0_addr_bytes w = (if hasAddr then 3 else 0) ∧ sahb0_data_len w = n ∧
  Z.testbit (clr (u32 (sahb0_word hasAddr n rw)) SAHB0_BUSY) 1 = false ∧
  Z.testbit (clr (u32 (Z.lor (sahb0_word hasAddr n rw) SAHB0_TRIGGER)) SAHB0_BUSY) 1 = true.
Proof.
  assert (forallb (λ n, forallb (λ ha, forallb (λ rw,
    let w := Z.lor (clr (u32 (Z.lor (sahb0_word ha n rw) SAHB0_TRIGGER)) SAHB0_BUSY) SAHB0_BUSY in
    (sahb0_cmd_bytes w =? 1) && (sahb0_addr_bytes w =? if ha then 3 else 0) && (sahb0_data_len w =? n) &&
    negb (Z.testbit (clr (u32 (sahb0_word ha n rw)) SAHB0_BUSY) 1) &&
    Z.testbit (clr (u32 (Z.lor (sahb0_word ha n rw) SAHB0_TRIGGER)) SAHB0_BUSY) 1)
      [true; false]) [true; false]) (seqZ 0 1025) = true) as Hall by (by vm_compute).
  intros Hn. rewrite forallb_forall in Hall. specialize (Hall n). 
  assert (In n (seqZ 0 1025)) as Hin by (apply list_elem_of_In, elem_of_seqZ; lia). specialize (Hall Hin).
  rewrite forallb_forall in Hall. specialize (Hall hasAddr ltac:(destruct hasAddr; simpl; tauto)).
  rewrite forallb_forall in Hall. specialize (Hall rw ltac:(destruct rw; simpl; tauto)). cbv zeta in *.
  rewrite !andb_true_iff, !Z.eqb_eq, negb_true_iff in Hall. tauto.
Qed.

Lemma cmd_addr_spec s : Z.testbit (sf_ctrl_0 s) 19 = false → uint 32 (sf_ctrl_if_sahb1 s) →
  sf_ctrl_cmd_addr s 1 3 = sf_ctrl_if_sahb1 s mod 2 ^ 24.
Proof.
  intros Hb Hu. unfold sf_ctrl_cmd_addr. cbv zeta. change SF_CTRL_0_32B_ADDR_EN with (BIT 19).
  rewrite tst_BIT, Hb by lia. change (seqZ 0 3) with [0; 1; 2]. cbn [foldl].
  assert (∀ i, 1 ≤ i ≤ 3 → sf_ctrl_cmd_stream s !% i = (sf_ctrl_if_sahb1 s / 2 ^ (8 * (3 - i))) mod 2 ^ 8) as Hst.
  { intros i Hi. unfold sf_ctrl_cmd_stream, stl_be_p. cbn [cpu_to_le rev app]. rewrite !Z.shiftr_shiftr by lia.
    assert (i = 1 ∨ i = 2 ∨ i = 3) as [->|[->| ->]] by lia; cbn; unfold wrap; rewrite ?Z.shiftr_div_pow2, ?Z.div_1_r by lia; done. }
  change (1 + 0 <? 8) with true. change (1 + 1 <? 8) with true. change (1 + 2 <? 8) with true. cbv iota.
  change (1 + 0) with 1. change (1 + 1) with 2. change (1 + 2) with 3. rewrite !Hst by lia.
  change (8 * (3 - 1)) with 16. change (8 * (3 - 2)) with 8. change (8 * (3 - 3)) with 0.
  set (x := sf_ctrl_if_sahb1 s) in *. set (b2 := (x / 2 ^ 16) mod 2 ^ 8). set (b1 := (x / 2 ^ 8) mod 2 ^ 8). set (b0 := (x / 2 ^ 0) mod 2 ^ 8).
  assert (uint 8 b2 ∧ uint 8 b1 ∧ uint 8 b0) as (H2 & H1 & H0).
  { repeat split; apply Z.mod_pos_bound; lia. }
  unfold uint in *. rewrite Z.shiftl_0_l. change (u32 0) with 0. rewrite Z.lor_0_l.
  rewrite (Z.shiftl_mul_pow2 b2), (wrap_small 32 (b2 * 2 ^ 8)) by (unfold uint; lia).
  rewrite <- (Z.shiftl_mul_pow2 b2), (lor_shiftl_add 8 b2 b1) by (unfold uint; lia).
  rewrite (Z.shiftl_mul_pow2 (b2 * 2 ^ 8 + b1)), (wrap_small 32) by (unfold uint; lia).
  rewrite <- Z.shiftl_mul_pow2, lor_shiftl_add by (unfold uint; lia).
  change 0x00FFFFFF with (Z.ones 24). rewrite Z.land_ones by lia.
  subst b2 b1 b0. rewrite Z.div_1_r. clear - Hu. Z.div_mod_to_equations. lia.
Qed.

(** ** What a command does *)

Lemma regWrite_ctrl_1 s v : regWrite s REG_SF_CTRL_1 v = s <| sf_ctrl_1 := u32 v |>.
Proof. reflexivity. Qed.
Lemma regWrite_sahb1 s v : regWrite s REG_SF_CTRL_IF_SAHB1 v = s <| sf_ctrl_if_sahb1 := u32 v |>.
Proof. reflexivity. Qed.
Lemma regWrite_sahb2 s v : regWrite s REG_SF_CTRL_IF_SAHB2 v = s <| sf_ctrl_if_sahb2 := u32 v |>.
Proof. reflexivity. Qed.

Lemma regWrite_sahb0 s v : Z.testbit (sf_ctrl_if_sahb0 s) 1 = false →
  regWrite s REG_SF_CTRL_IF_SAHB0 v =
    (let s1 := s <| sf_ctrl_if_sahb0 := clr (u32 v) SAHB0_BUSY |> in
     if Z.testbit (clr (u32 v) SAHB0_BUSY) 1
     then sf_ctrl_execute_cmd (s1 <| sf_ctrl_if_sahb0 := Z.lor (sf_ctrl_if_sahb0 s1) SAHB0_BUSY |>) else s1).
Proof.
  intros Ht. transitivity (let s1 := s <| sf_ctrl_if_sahb0 := clr (u32 v) SAHB0_BUSY |> in
    if negb (tst (sf_ctrl_if_sahb0 s) SAHB0_TRIGGER) && tst (clr (u32 v) SAHB0_BUSY) SAHB0_TRIGGER
    then sf_ctrl_execute_cmd (s1 <| sf_ctrl_if_sahb0 := Z.lor (sf_ctrl_if_sahb0 s1) SAHB0_BUSY |>) else s1); [reflexivity|].
  change SAHB0_TRIGGER with (BIT 1). rewrite !tst_BIT, Ht by lia. done.
Qed.

Definition set_up s (c1 w cmdw : Z) : state :=
  s <| sf_ctrl_1 := c1 |> <| sf_ctrl_if_sahb0 := w |> <| sf_ctrl_if_sahb1 := cmdw |> <| sf_ctrl_if_sahb2 := 0 |>
    <| reset_armed := false |>.

Definition finished s : state :=
  s <| sf_ctrl_if_sahb0 := clr (sf_ctrl_if_sahb0 s) (Z.lor SAHB0_BUSY SAHB0_TRIGGER) |>.

Lemma set_armed_same s : reset_armed s = false → s = s <| reset_armed := false |>.
Proof. intros <-. by destruct s. Qed.

(** The command reaches the chip once, with its address and length. *)
Lemma send_spec s cmd a ha n rw :
  idle s → Z.testbit (sf_ctrl_0 s) 19 = false → powered_down s = false → uint 8 cmd → cmd ≠ FLASH_CMD_RESET →
  0 ≤ n ≤ 1024 →
  ∃ c1 w cmdw, next_cmd (set_up s c1 w cmdw) = cmd ∧
  sfCtrlSendCmd s cmd a ha n rw =
    finished (sf_ctrl_switch (set_up s c1 w cmdw) cmd ha (if ha then a mod 2 ^ 24 else 0) n).
Proof.
  intros [_ Ht] Hb Hp Hc Hr Hn. unfold sfCtrlSendCmd. cbv zeta.
  rewrite regWrite_ctrl_1. set (c1 := u32 _). set (s1 := s <| sf_ctrl_1 := c1 |>).
  rewrite (regWrite_sahb0 s1) by exact Ht. cbv zeta. set (w0 := clr _ SAHB0_BUSY).
  assert (Z.testbit w0 1 = false) as Hw0.
  { subst w0. rewrite clr_spec, wrap_testbit by lia. unfold regRead. change (bl808_sf_ctrl_read s1 REG_SF_CTRL_IF_SAHB0 4) with (sf_ctrl_if_sahb0 s).
    by rewrite clr_spec, Ht by lia. }
  rewrite Hw0. rewrite regWrite_sahb1, regWrite_sahb2. set (cw := u32 (cmd_word cmd a ha)).
  set (s2 := s1 <| sf_ctrl_if_sahb0 := w0 |> <| sf_ctrl_if_sahb1 := cw |> <| sf_ctrl_if_sahb2 := u32 0 |>).
  destruct (sahb0_word_fields ha n rw Hn) as (Hcb & Hab & Hdl & Hnt & Htr).
  rewrite (regWrite_sahb0 s2) by exact Hw0. cbv zeta. rewrite Hnt. cbv iota.
  set (w1 := clr (u32 (sahb0_word ha n rw)) SAHB0_BUSY) in *.
  set (s3 := s2 <| sf_ctrl_if_sahb0 := w1 |>). rewrite (regWrite_sahb0 s3) by exact Hnt. cbv zeta. rewrite Htr.
  set (w2 := Z.lor (clr (u32 (Z.lor (sahb0_word ha n rw) SAHB0_TRIGGER)) SAHB0_BUSY) SAHB0_BUSY) in *.
  match goal with |- context [sf_ctrl_execute_cmd ?x] => set (s4 := x) end.
  assert (cw = cmd * 2 ^ 24 + (if ha then a mod 2 ^ 24 else 0)) as Hcw.
  { subst cw. rewrite cmd_word_spec by done. apply wrap_small. unfold uint in *.
    pose proof (Z.mod_pos_bound a (2 ^ 24)). destruct ha; lia. }
  pose proof (Z.mod_pos_bound a (2 ^ 24) ltac:(lia)) as Ha. unfold uint in Hc.
  assert (next_cmd s4 = cmd) as Hnc.
  { change (u8 (Z.shiftr cw 24) = cmd). rewrite Z.shiftr_div_pow2, Hcw by lia.
    replace ((cmd * 2 ^ 24 + (if ha then a mod 2 ^ 24 else 0)) / 2 ^ 24) with cmd.
    - by apply wrap_small.
    - symmetry. rewrite Z.add_comm, Z.div_add by lia. rewrite Z.div_small; [lia|]. destruct ha; lia. }
  exists c1, w2, cw. split; [exact Hnc|].
  unfold sf_ctrl_execute_cmd. cbv zeta. change (sf_ctrl_if_sahb0 s4) with w2. rewrite Hcb, Hab, Hdl.
  change (1 =? 0) with false. cbv iota. change (powered_down s4) with (powered_down s). rewrite Hp. cbn [andb].
  rewrite cmd_byte, Hnc. rewrite (proj2 (Z.eqb_neq cmd FLASH_CMD_RESET) Hr). cbn [negb]. rewrite andb_true_r.
  assert ((if reset_armed s4 then s4 <| reset_armed := false |> else s4) = set_up s c1 w2 cw) as ->.
  { change (reset_armed s4) with (reset_armed s). unfold set_up. destruct (reset_armed s) eqn:Hra; [done|].
    etrans; [exact (set_armed_same s4 Hra)|reflexivity]. }
  unfold finished. destruct ha; cbn [negb Z.eqb].
  - change (negb (3 =? 0)) with true. rewrite cmd_addr_spec; [|exact Hb|].
    2:{ change (uint 32 cw). rewrite Hcw. unfold uint. lia. }
    change (sf_ctrl_if_sahb1 s4) with cw. rewrite Hcw. replace ((cmd * 2 ^ 24 + a mod 2 ^ 24) mod 2 ^ 24) with (a mod 2 ^ 24); [done|].
    rewrite Z.add_comm, Z.mod_add by lia. by rewrite Z.mod_mod.
  - assert (sf_ctrl_cmd_addr s4 1 0 = 0) as ->; [|done].
    unfold sf_ctrl_cmd_addr. cbv zeta. change (seqZ 0 0) with (@nil Z). cbn [foldl]. by destruct (tst _ _).
Qed.
End hal.

(** ** The driver's steps *)

Section driver.
Context {B : Type} `{!BlockBackend B} `{DL : !DriveLaws (B := B)}.
Notation state := (BL808SfCtrlState B).
Implicit Types s : state.

(** The controller between two calls of the driver: the chip is awake and not
    busy. *)
Definition up s : Prop := sf_ready s ∧ powered_down s = false ∧ Z.testbit (sr1 s) 0 = false.

(** The contents of the flash, the latch and the buffer. *)
Definition sees s (f : mem) (w : bool) : Prop := up s ∧ flash s ≡ f ∧ wel s = w.

Lemma sent s cmd a ha n rw :
  up s → uint 8 cmd → cmd ≠ FLASH_CMD_RESET → 0 ≤ n ≤ 1024 →
  ∃ s1, sf_inv s1 ∧ flash s1 = flash s ∧ buf s1 = buf s ∧ sr1 s1 = sr1 s ∧ powered_down s1 = false ∧
    let s2 := sf_ctrl_switch s1 cmd ha (if ha then a mod 2 ^ 24 else 0) n in
    sfCtrlSendCmd s cmd a ha n rw = finished s2 ∧ sf_ready (finished s2).
Proof.
  intros ((Hi & [Hb Hnr] & Hid) & Hp & Hz) Hc Hr Hn.
  destruct (send_spec s cmd a ha n rw Hid Hb Hp Hc Hr Hn) as (c1 & w & cw & Hnc & Heq).
  set (s1 := set_up s c1 w cw) in *. assert (sf_inv s1) as Hi1.
  { by apply set_armed_inv, set_sahb2_inv, set_sahb1_inv, set_sahb0_inv, set_ctrl1_inv. }
  exists s1. split; [done|]. do 3 (split; [reflexivity|]). split; [exact Hp|]. cbv zeta. split; [exact Heq|].
  pose proof (Z.mod_pos_bound a (2 ^ 24) ltac:(lia)) as Ha.
  set (s2 := sf_ctrl_switch _ _ _ _ _). assert (same_ctrl s1 s2) as [H1 H2 H3 H4] by by apply switch_ctrl.
  split; [|split].
  - apply set_sahb0_inv, switch_inv; [done|destruct ha; unfold uint; lia|lia|done].
  - split; [exact (eq_trans (f_equal (λ x, Z.testbit x 19) H1) Hb)|].
    change (u8 (Z.shiftr (sf_ctrl_if_sahb1 s2) 24) ≠ FLASH_CMD_RESET). rewrite H3. by rewrite <- Hnc in Hr.
  - apply finished_idle.
Qed.

Lemma up_intro s : sf_ready s → powered_down s = false → Z.testbit (sr1 s) 0 = false → up s.
Proof. by split. Qed.

Lemma clr_bit0 x m : Z.testbit x 0 = false → Z.testbit (clr x m) 0 = false.
Proof. intros Hx. by rewrite clr_spec, Hx by lia. Qed.

Lemma sees_restore s f w : sees s f w → sees (sfCtrlRestoreXip s) f w.
Proof.
  intros (((Hi & Ht & Hid) & Hp & Hz) & Hf & Hw). unfold sfCtrlRestoreXip. rewrite regWrite_ctrl_1.
  split; [|done]. split; [|done]. split; [by apply set_ctrl1_inv|done].
Qed.

Lemma sees_wren s f w : sees s f w →
  (flashWriteEnable s).1 = flashOk ∧ sees (flashWriteEnable s).2 f true ∧ powered_down (flashWriteEnable s).2 = false.
Proof.
  intros (Hu & Hf & Hw). split; [done|]. unfold flashWriteEnable. cbn [fst snd].
  destruct (sent s FLASH_CMD_WREN 0 false 0 false Hu) as (s1 & Hi1 & Hf1 & Hb1 & Hs1 & Hp1 & Heq & Hr); [done|done|done|].
  rewrite Heq. set (s2 := finished _) in *.
  assert (sees s2 f true) as Hs2; [|split; [by apply sees_restore|exact Hp1]].
  destruct Hu as (_ & Hp & Hz). split; [apply up_intro; [done|exact Hp1|]|split].
  - change (Z.testbit (Z.lor (sr1 s1) SR1_WEL) 0 = false). by rewrite Z.lor_spec, Hs1, Hz.
  - change (flash s1 ≡ f). by rewrite Hf1.
  - change (Z.testbit (Z.lor (sr1 s1) SR1_WEL) 1 = true). rewrite Z.lor_spec. apply orb_true_r.
Qed.

(** The buffer is full of bytes. *)
Lemma up_buf s : up s → length (buf s) = 512%nat ∧ Forall (uint 8) (buf s).
Proof. intros (([[] _] & _) & _). done. Qed.

Lemma buf_word s : up s → Z.land (regRead s SfCtrlBufBase) 0xFF = buf s !% 0.
Proof.
  intros Hu. destruct (up_buf s Hu) as [Hl Hb].
  change (regRead s SfCtrlBufBase) with (le_to_cpu (take 4 (drop 0 (buf s)))). rewrite drop_0.
  destruct (buf s) as [|b0 bs]; [done|]. cbn [take le_to_cpu]. change (aget (b0 :: bs) 0) with b0.
  apply Forall_cons in Hb as [Hb0 _]. change 0xFF with (2 ^ 8 - 1). rewrite land_low by lia.
  rewrite (Z.mul_comm (2 ^ 8)), Z.mod_add by lia. by apply Z.mod_small.
Qed.

(** One poll of a chip that is not busy. *)
Lemma sees_poll s f w n : sees s f w → (sfCtrlWaitBusy s n).1 = flashOk ∧ sees (sfCtrlWaitBusy s n).2 f w.
Proof.
  intros Hs. assert (∀ s, sees s f w → (poll_once s).1 = flashOk ∧ sees (poll_once s).2 f w) as Honce.
  { clear s Hs. intros s (Hu & Hf & Hw). unfold poll_once. cbv zeta.
    destruct (sent s FLASH_CMD_READ_SR1 0 false 1 false Hu) as (s1 & Hi1 & Hf1 & Hb1 & Hs1 & Hp1 & Heq & Hr); [done|done|done|].
    rewrite Heq. set (s2 := finished _) in *. destruct Hu as (_ & Hp & Hz).
    assert (up s2) as Hu2. { apply up_intro; [done|exact Hp1|]. change (Z.testbit (sr1 s1) 0 = false). by rewrite Hs1. }
    assert (sees s2 f w) as Hs2.
    { split; [done|]. split; [change (flash s1 ≡ f); by rewrite Hf1|]. change (Z.testbit (sr1 s1) 1 = w). by rewrite Hs1. }
    rewrite buf_word by done. change (buf s2 !% 0) with (sr1 s1). rewrite Hs1.
    change (Z.shiftl 1 0) with (2 ^ 1 - 1). rewrite land_low by lia. change (2 ^ 1) with 2.
    rewrite <- Z.bit0_mod, Hz. done. }
  assert (∀ r : FlashError * state, ∀ k, r.1 = flashOk ∧ sees r.2 f w → or_else r k = r) as Helse.
  { intros r k [Hr _]. unfold or_else. by rewrite bool_decide_true. }
  revert s Hs. induction n as [n IH|n IH|]; intros s Hs; cbn [sfCtrlWaitBusy].
  - rewrite Helse; by apply Honce.
  - rewrite Helse; by apply IH.
  - by apply Honce.
Qed.

(** An erase command on a write-enabled chip. *)
Lemma sees_erase s f cmd k a :
  sees s f true → (cmd = FLASH_CMD_SECTOR_ERASE ∧ k = 12 ∨ cmd = FLASH_CMD_BLOCK_ERASE64 ∧ k = 16) →
  a mod 2 ^ k = 0 → 0 ≤ a → a + 2 ^ k ≤ BL808_SF_CTRL_FLASH_SIZE →
  sees (sfCtrlSendCmd s cmd a true 0 false) (mem_fill f a (2 ^ k) 0xFF) false.
Proof.
  intros (Hu & Hf & Hw) Hcmd Ha Ha0 Hend. pose proof flash_size as HF.
  destruct (sent s cmd a true 0 false Hu) as (s1 & Hi1 & Hf1 & Hb1 & Hs1 & Hp1 & Heq & Hr);
    [by destruct Hcmd as [[-> _]|[-> _]]|by destruct Hcmd as [[-> _]|[-> _]]|done|].
  assert (0 ≤ k ∧ 0 < 2 ^ k) as [Hk Hk2] by (destruct Hcmd as [[_ ->]|[_ ->]]; lia).
  rewrite Heq. rewrite Z.mod_small in * by lia.
  assert (wel s1 = true) as Hw1 by (unfold wel in *; by rewrite Hs1).
  assert (sf_ctrl_switch s1 cmd true a 0 = sf_ctrl_erase_range s1 a (2 ^ k)) as Hsw.
  { transitivity (sf_ctrl_erase_cmd s1 true a (2 ^ k)); [by destruct Hcmd as [[-> ->]|[-> ->]]|].
    unfold sf_ctrl_erase_cmd. rewrite tst_WEL. fold (wel s1). rewrite Hw1. cbn [andb]. cbv zeta.
    rewrite clr_low by done. rewrite Ha, Z.sub_0_r. rewrite wrap_small by (unfold uint; lia).
    by rewrite (proj2 (Z.leb_le _ _)). }
  rewrite Hsw in *. destruct (erase_range_only s1 a (2 ^ k)) as (x & d & Her). rewrite Her in *.
  destruct Hu as (_ & Hp & Hz). split; [apply up_intro; [done|exact Hp1|]|split].
  - apply clr_bit0. by rewrite Hs1.
  - intros y. change (mem_fill (flash s1) a (2 ^ k) 255 y = mem_fill f a (2 ^ k) 255 y). unfold mem_fill.
    rewrite Hf1. by rewrite (Hf y).
  - apply clr_WEL.
Qed.

(** A page program on a write-enabled chip. *)
Lemma sees_program s f a n :
  sees s f true → 0 ≤ a < BL808_SF_CTRL_FLASH_SIZE → 0 < n ≤ 256 →
  sees (sfCtrlSendCmd s FLASH_CMD_PAGE_PROG a true n true) (programmed f (buf s) a n) false.
Proof.
  intros (Hu & Hf & Hw) Ha Hn. pose proof flash_size as HF.
  destruct (sent s FLASH_CMD_PAGE_PROG a true n true Hu) as (s1 & Hi1 & Hf1 & Hb1 & Hs1 & Hp1 & Heq & Hr); [done|done|lia|].
  rewrite Heq. rewrite Z.mod_small in * by lia.
  assert (wel s1 = true) as Hw1 by (unfold wel in *; by rewrite Hs1).
  change (sf_ctrl_switch s1 FLASH_CMD_PAGE_PROG true a n) with (sf_ctrl_page_program s1 a n) in *.
  destruct (page_program_inv s1 a n Hi1 Ha) as (f' & x & d & Hpp & _ & Hf'); [lia|by rewrite tst_WEL|].
  rewrite Hpp in *. destruct Hu as (_ & Hp & Hz). split; [apply up_intro; [done|exact Hp1|]|split].
  - apply clr_bit0. by rewrite Hs1.
  - intros y. change (f' y = programmed f (buf s) a n y). rewrite Hf', Hf1, Hb1. unfold programmed.
    assert (program_len n = n) as ->. { unfold program_len. destruct (Z.eqb_spec n 0); lia. }
    by rewrite (Hf y).
  - apply clr_WEL.
Qed.

(** A byte read back by command. *)
Lemma sees_read s f w a : sees s f w → 0 ≤ a < BL808_SF_CTRL_FLASH_SIZE →
  (flashReadRawByte s a).1 = f a ∧ sees (flashReadRawByte s a).2 f w.
Proof.
  intros (Hu & Hf & Hw) Ha. pose proof flash_size as HF. unfold flashReadRawByte. cbv zeta. cbn [fst snd].
  destruct (sent s FLASH_CMD_READ a true 1 false Hu) as (s1 & Hi1 & Hf1 & Hb1 & Hs1 & Hp1 & Heq & Hr); [done|done|done|].
  rewrite Heq. rewrite Z.mod_small in * by lia.
  change (sf_ctrl_switch s1 FLASH_CMD_READ true a 1) with (sf_ctrl_read_buffer s1 a 1) in *.
  assert (sf_ctrl_read_buffer s1 a 1 = s1 <| buf := read_into 1 (λ i, flash s1 (a + i)) |>) as Hrd.
  { unfold sf_ctrl_read_buffer. rewrite (proj2 (Z.leb_gt _ _)) by lia. cbv zeta.
    rewrite wrap_small by (unfold uint; lia). change (1 =? 0) with false. cbv iota.
    change (Z.min 1 BL808_SF_CTRL_BUF_SIZE) with 1. by rewrite Z.min_r by lia. }
  rewrite Hrd in *. set (s2 := finished _) in *. destruct Hu as (_ & Hp & Hz).
  assert (up s2) as Hu2. { apply up_intro; [done|exact Hp1|]. change (Z.testbit (sr1 s1) 0 = false). by rewrite Hs1. }
  assert (sees s2 f w) as Hs2.
  { split; [done|]. split; [change (flash s1 ≡ f); by rewrite Hf1|]. change (Z.testbit (sr1 s1) 1 = w). by rewrite Hs1. }
  split; [|by apply sees_restore]. rewrite buf_word by done. change (buf s2 !% 0) with (flash s1 (a + 0)).
  rewrite Hf1, Z.add_0_r. apply Hf.
Qed.

(** ** Loading the buffer *)

Lemma regWrite_buf s i v : 0 ≤ i < 128 →
  regWrite s (SfCtrlBufBase + 4 * i) v = s <| buf := buf_store (buf s) (Z.to_nat (4 * i)) (cpu_to_le 4 v) |>.
Proof.
  intros Hi. unfold regWrite, bl808_sf_ctrl_write, SfCtrlBufBase, in_buf, BL808_SF_CTRL_BUF_OFF, BL808_SF_CTRL_BUF_SIZE.
  rewrite (proj2 (Z.leb_le _ _)), (proj2 (Z.ltb_lt _ _)) by lia. cbn [andb orb Z.eqb Pos.eqb]. cbv zeta.
  by replace (0x600 + 4 * i - 0x600) with (4 * i) by lia.
Qed.

Lemma sees_buf s f w i v : sees s f w → 0 ≤ i < 128 → sees (regWrite s (SfCtrlBufBase + 4 * i) v) f w.
Proof.
  intros (((Hi & Ht & Hid) & Hp & Hz) & Hf & Hw) Hr. split; [|by rewrite regWrite_buf].
  split; [|by rewrite regWrite_buf]. split; [|by rewrite regWrite_buf].
  apply sf_write_inv; [done|done|]. split; [by right; right|]. unfold SfCtrlBufBase, BL808_SF_CTRL_BUF_OFF.
  split; [lia|]. rewrite Z.mul_comm, Z.mod_add by lia. done.
Qed.

Lemma buf_store_lookup b o bs j : (o + length bs ≤ length b)%nat →
  buf_store b o bs !! j = if decide (o ≤ j < o + length bs)%nat then bs !! (j - o)%nat else b !! j.
Proof.
  intros Hl. unfold buf_store. destruct (decide (o ≤ j < o + length bs)%nat) as [Hin|Hout].
  - rewrite lookup_app_r by (rewrite length_take; lia). rewrite length_take, Nat.min_l by lia.
    by rewrite lookup_app_l by lia.
  - destruct (decide (j < o)%nat).
    + rewrite lookup_app_l by (rewrite length_take; lia). by rewrite lookup_take_lt.
    + rewrite lookup_app_r by (rewrite length_take; lia). rewrite length_take, Nat.min_l by lia.
      rewrite lookup_app_r by lia. rewrite lookup_drop. f_equal. lia.
Qed.

Lemma load_words_spec s f w data :
  sees s f w → Forall (uint 8) data → (length data ≤ 256)%nat →
  sees (load_words s data) f w ∧ ∀ j, (j < length data)%nat → buf (load_words s data) !! j = data !! j.
Proof.
  intros Hs Hd Hl. unfold load_words.
  assert (∀ k : nat, Z.of_nat k ≤ (Z.of_nat (length data) + 3) / 4 →
    let s' := foldl (λ s i, regWrite s (SfCtrlBufBase + 4 * i) (le_to_cpu (take 4 (drop (Z.to_nat (4 * i)) data))))
      s (seqZ 0 (Z.of_nat k)) in
    sees s' f w ∧ ∀ j, (j < length data)%nat → (j < 4 * k)%nat → buf s' !! j = data !! j) as Hk.
  2:{ pose proof (Z.div_pos (Z.of_nat (length data) + 3) 4). destruct (Hk (Z.to_nat ((Z.of_nat (length data) + 3) / 4))) as [H1 H2]; [lia|].
      rewrite Z2Nat.id in * by lia. split; [done|]. intros j Hj. apply H2; [done|].
      assert (Z.of_nat j < 4 * ((Z.of_nat (length data) + 3) / 4)); [|lia]. clear - Hj. Z.div_mod_to_equations. lia. }
  induction k as [|k IH]; intros Hkl; cbv zeta.
  { split; [done|]. intros j _ Hj. lia. }
  destruct IH as [Hs1 Hb1]; [lia|]. cbv zeta in *.
  rewrite Nat2Z.inj_succ, <- Z.add_1_r, seqZ_app, foldl_app by lia.
  replace (seqZ (0 + Z.of_nat k) 1) with [Z.of_nat k] by done. cbn [foldl]. set (s1 := foldl _ s _) in *.
  assert (Z.of_nat k < 64) as Hk64. { clear - Hkl Hl. Z.div_mod_to_equations. lia. }
  split; [apply sees_buf; [done|lia]|]. intros j Hj Hjk. rewrite regWrite_buf by lia.
  change (buf (s1 <| buf := ?b |>)) with b.
  destruct (up_buf s1 (proj1 Hs1)) as [Hl1 _]. cbn [buf set_field].
  rewrite buf_store_lookup by (rewrite cpu_to_le_length; lia). rewrite cpu_to_le_length.
  destruct (decide _) as [Hin|Hout]; [|apply Hb1; [done|lia]].
  rewrite cpu_to_le_lookup by lia. rewrite le_to_cpu_byte by (by apply Forall_take, Forall_drop).
  rewrite lookup_take_lt, lookup_drop by lia. replace (Z.to_nat (4 * Z.of_nat k) + (j - Z.to_nat (4 * Z.of_nat k)))%nat with j by lia.
  destruct (data !! j) eqn:Hdj; [done|]. apply lookup_ge_None in Hdj. lia.
Qed.

(** ** Programming *)

(** What programming [data] at [a] makes of the contents [f]: NOR flash can only
    clear bits. *)
Definition overlay (f : mem) (a : Z) (data : list Z) : mem := λ x,
  if decide (a ≤ x < a + Z.of_nat (length data)) then Z.land (f x) (data !% (x - a)) else f x.

Lemma overlay_nil f a : overlay f a [] ≡ f.
Proof. intros x. unfold overlay. by rewrite decide_False by (simpl; lia). Qed.

Lemma overlay_split f f1 a data k : (k ≤ length data)%nat → f1 ≡ overlay f a (take k data) →
  overlay f1 (a + Z.of_nat k) (drop k data) ≡ overlay f a data.
Proof.
  intros Hk Hf1 x. unfold overlay. rewrite (Hf1 x). unfold overlay. rewrite length_take, length_drop, Nat.min_l by lia.
  destruct (decide (a ≤ x < a + Z.of_nat k)) as [H1|H1].
  - rewrite decide_False, decide_True by lia. f_equal. unfold aget. by rewrite lookup_total_take_lt by lia.
  - destruct (decide (a + Z.of_nat k ≤ x < a + Z.of_nat k + Z.of_nat (length data - k))) as [H2|H2].
    + rewrite decide_True by lia. f_equal. unfold aget. rewrite lookup_total_drop. f_equal. lia.
    + by rewrite decide_False by lia.
Qed.

Lemma programmed_overlay f src a data :
  0 ≤ a → 0 < Z.of_nat (length data) → a mod 256 + Z.of_nat (length data) ≤ 256 →
  (∀ j, (j < length data)%nat → src !! j = data !! j) →
  programmed f src a (Z.of_nat (length data)) ≡ overlay f a data.
Proof.
  intros Ha Hn Hpage Hsrc x. unfold programmed, overlay.
  destruct (decide (a ≤ x < a + Z.of_nat (length data))) as [H1|H1].
  - assert ((x - a) mod 256 = x - a) as Hm by (apply Z.mod_small; pose proof (Z.mod_pos_bound a 256); lia).
    rewrite decide_True.
    2:{ rewrite Hm. clear - H1 Hpage. Z.div_mod_to_equations. lia. }
    rewrite Hm. f_equal. unfold aget. by rewrite !list_lookup_total_alt, Hsrc by lia.
  - rewrite decide_False; [done|]. intros [H2 H3]. apply H1. clear - H2 H3 Hpage Ha Hn. Z.div_mod_to_equations. lia.
Qed.

Lemma program_raw_spec s f w a data :
  sees s f w → Forall (uint 8) data → 0 ≤ a → 0 < Z.of_nat (length data) → a mod 256 + Z.of_nat (length data) ≤ 256 →
  a + Z.of_nat (length data) ≤ BL808_SF_CTRL_FLASH_SIZE →
  (flashProgramRaw s a data).1 = flashOk ∧ sees (flashProgramRaw s a data).2 (overlay f a data) false.
Proof.
  intros Hs Hd Ha Hn Hpage Hend. unfold flashProgramRaw. cbv zeta. pose proof (Z.mod_pos_bound a 256 ltac:(lia)).
  rewrite (proj2 (Z.eqb_neq _ 0)) by lia. unfold FLASH_PAGE_SIZE. rewrite (proj2 (Z.ltb_ge _ _)) by lia.
  destruct (sees_wren s f w Hs) as (He & Hs1 & _). destruct (flashWriteEnable s) as [e s1]. cbn [fst snd] in *. subst e.
  rewrite bool_decide_true by done. cbn [negb].
  destruct (load_words_spec s1 f true data Hs1 Hd) as [Hs2 Hb2]; [lia|]. set (s2 := load_words s1 data) in *.
  assert (sees (sfCtrlSendCmd s2 FLASH_CMD_PAGE_PROG a true (Z.of_nat (length data)) true) (overlay f a data) false) as Hs3.
  { destruct (sees_program s2 f a (Z.of_nat (length data)) Hs2) as (Hu & Hf & Hw); [lia|lia|].
    split; [done|]. split; [|done]. etrans; [exact Hf|]. by apply programmed_overlay. }
  destruct (sees_poll _ _ _ 5000000 Hs3) as [He4 Hs4]. destruct (sfCtrlWaitBusy _ 5000000) as [e s4].
  cbn [fst snd] in *. split; [done|]. by apply sees_restore.
Qed.

Lemma sees_equiv s f f' w : f ≡ f' → sees s f w → sees s f' w.
Proof. intros Hf (Hu & Hs & Hw). split; [done|]. split; [by etrans|done]. Qed.

Lemma write_loop_spec fuel s f w a data :
  (length data ≤ fuel)%nat → sees s f w → Forall (uint 8) data → 0 ≤ a →
  a + Z.of_nat (length data) ≤ BL808_SF_CTRL_FLASH_SIZE →
  (flashWrite_loop fuel s a data).1 = flashOk ∧ ∃ w', sees (flashWrite_loop fuel s a data).2 (overlay f a data) w'.
Proof.
  revert s f w a data. induction fuel as [|fuel IH]; intros s f w a data Hfuel Hs Hd Ha Hend.
  { destruct data; [|simpl in Hfuel; lia]. split; [done|]. exists w. by apply (sees_equiv _ f); [symmetry; apply overlay_nil|]. }
  destruct data as [|b0 rest].
  { split; [done|]. exists w. by apply (sees_equiv _ f); [symmetry; apply overlay_nil|]. }
  cbn [flashWrite_loop]. cbv zeta. set (data := b0 :: rest) in *. assert (0 < Z.of_nat (length data)) as Hpos by (simpl; lia).
  change (FLASH_PAGE_SIZE - 1) with (2 ^ 8 - 1). rewrite land_low by lia. change (2 ^ 8) with 256. unfold FLASH_PAGE_SIZE.
  pose proof (Z.mod_pos_bound a 256 ltac:(lia)) as Hm. pose proof flash_size as HF.
  set (k := Z.to_nat (Z.min (256 - a mod 256) (Z.of_nat (length data)))).
  assert (0 < Z.of_nat k ∧ (k ≤ length data)%nat ∧ a mod 256 + Z.of_nat k ≤ 256) as (Hk0 & Hk & Hkp) by lia.
  assert (length (take k data) = k) as Hlk by (rewrite length_take; lia).
  destruct (program_raw_spec s f w a (take k data) Hs) as [He Hs1]; [by apply Forall_take|done|lia|lia|lia|].
  destruct (flashProgramRaw s a (take k data)) as [e s1]. cbn [fst snd] in *. subst e. rewrite bool_decide_true by done.
  cbn [negb]. rewrite wrap_small by (unfold uint; lia).
  destruct (IH s1 (overlay f a (take k data)) false (a + Z.of_nat k) (drop k data)) as [He2 (w' & Hs2)];
    [rewrite length_drop; lia|done|by apply Forall_drop|lia|rewrite length_drop; lia|].
  split; [done|]. exists w'. apply (sees_equiv _ (overlay (overlay f a (take k data)) (a + Z.of_nat k) (drop k data))); [|done].
  by apply overlay_split.
Qed.

(** C22: the HAL programs the flash.  However long the data and however it lies
    across pages, [flashWrite] succeeds and terminates: the bytes it is given are
    and-ed into the flash at their addresses, exactly once each, and no other
    byte of the flash changes, although the device wraps round within a page. *)
Theorem flash_write_programs s address data :
  up s → Forall (uint 8) data → 0 ≤ address → address + Z.of_nat (length data) ≤ BL808_SF_CTRL_FLASH_SIZE →
  let '(result, s') := flashWrite s address data in
  result = flashOk ∧ up s' ∧ flash s' ≡ overlay (flash s) address data.
Proof.
  intros Hu Hd Ha Hend. destruct (write_loop_spec (length data) s (flash s) (wel s) address data) as [He (w' & Hs & Hf & _)];
    [lia|done|done|done|done|]. unfold flashWrite. by destruct (flashWrite_loop _ _ _ _) as [e s'].
Qed.

Lemma erase_spec s f w cmd k a n :
  sees s f w → (cmd = FLASH_CMD_SECTOR_ERASE ∧ k = 12 ∨ cmd = FLASH_CMD_BLOCK_ERASE64 ∧ k = 16) →
  a mod 2 ^ k = 0 → 0 ≤ a → a + 2 ^ k ≤ BL808_SF_CTRL_FLASH_SIZE →
  (flashErase s cmd (2 ^ k) a n).1 = flashOk ∧ sees (flashErase s cmd (2 ^ k) a n).2 (mem_fill f a (2 ^ k) 0xFF) false.
Proof.
  intros Hs Hcmd Ha Ha0 Hend. unfold flashErase. assert (0 ≤ k) by (destruct Hcmd as [[_ ->]|[_ ->]]; lia).
  rewrite land_low, Ha by done. cbn [negb Z.eqb].
  destruct (sees_wren s f w Hs) as (He & Hs1 & _). destruct (flashWriteEnable s) as [e s1]. cbn [fst snd] in *. subst e.
  rewrite bool_decide_true by done. cbn [negb].
  pose proof (sees_erase s1 f cmd k a Hs1 Hcmd Ha Ha0 Hend) as Hs2.
  destruct (sees_poll _ _ _ n Hs2) as [He4 Hs4]. destruct (sfCtrlWaitBusy _ n) as [e s4].
  cbn [fst snd] in *. split; [done|]. by apply sees_restore.
Qed.

(** C23: what is written is read back.  Erase a sector, write data anywhere inside
    it, and read any byte of the sector by command: each call succeeds, the byte is
    the one written, or 0xFF where nothing was; and the rest of the flash is as
    before. *)
Theorem flash_erase_write_read s sector offset data i :
  up s → sector mod FLASH_SECTOR_SIZE = 0 → 0 ≤ sector → sector + FLASH_SECTOR_SIZE ≤ BL808_SF_CTRL_FLASH_SIZE →
  Forall (uint 8) data → 0 ≤ offset → offset + Z.of_nat (length data) ≤ FLASH_SECTOR_SIZE → 0 ≤ i < FLASH_SECTOR_SIZE →
  let '(erased, s1) := flashEraseSector s sector in
  let '(written, s2) := flashWrite s1 (sector + offset) data in
  let '(byte, s3) := flashReadRawByte s2 (sector + i) in
  erased = flashOk ∧ written = flashOk ∧
  byte = (if decide (offset ≤ i < offset + Z.of_nat (length data)) then data !% (i - offset) else 0xFF) ∧
  ∀ a, ¬ (sector ≤ a < sector + FLASH_SECTOR_SIZE) → flash s3 a = flash s a.
Proof.
  intros Hu Hsec Hs0 Hend Hd Ho Hoe Hi. unfold flashEraseSector. change FLASH_SECTOR_SIZE with (2 ^ 12) in *.
  destruct (erase_spec s (flash s) (wel s) FLASH_CMD_SECTOR_ERASE 12 sector 5000000) as [He1 Hs1];
    [done|by left|done|done|done|].
  destruct (flashErase _ _ _ _ _) as [e s1]. cbn [fst snd] in *.
  destruct (write_loop_spec (length data) s1 _ _ (sector + offset) data (le_n _) Hs1) as [He2 (w' & Hs2)]; [done|lia|lia|].
  unfold flashWrite. destruct (flashWrite_loop _ s1 _ _) as [e2 s2]. cbn [fst snd] in *.
  destruct (sees_read s2 _ _ (sector + i) Hs2) as [Hb Hs3]; [lia|]. destruct (flashReadRawByte s2 _) as [byte s3].
  cbn [fst snd] in *. split; [done|]. split; [done|]. split.
  - rewrite Hb. unfold overlay. rewrite mem_fill_in by lia. destruct (decide (offset ≤ i < _)) as [Hin|Hout].
    + rewrite decide_True by lia. replace (sector + i - (sector + offset)) with (i - offset) by lia.
      assert (uint 8 (data !% (i - offset))) as [H1 H2] by (apply aget_Forall; [done|lia]).
      rewrite Z.land_comm. change 0xFF with (2 ^ 8 - 1). rewrite land_low by lia. by apply Z.mod_small.
    + by rewrite decide_False by lia.
  - intros a Ha. destruct Hs3 as (_ & Hf & _). rewrite (Hf a). unfold overlay.
    rewrite decide_False by lia. by apply mem_fill_out.
Qed.
End driver.
End FlashHal.

(** ** Concrete runs *)

Module SfDemo.

(** A drive that is an array of bytes. *)
#[export] Instance array_drive : BlockBackend mem := {
  blk_set_perm d := (0, d);
  blk_getlength _ := BL808_SF_CTRL_FLASH_SIZE;
  blk_pread d o n := (0, λ i, u8 (d (o + i)));
  blk_pwrite d o n m := (0, mem_copy d o m 0 n);
}.

#[export] Instance array_drive_laws : DriveLaws (B := mem).
Proof.
  refine {| drive_bytes d a := u8 (d a); healthy _ := True |}.
  - intros d a. by apply uint_wrap.
  - intros d _. by split.
  - intros d _. done.
  - intros d o n _ _ _ _. split; [done|]. by intros.
  - intros d o n m _ _ _ _. split; [done|]. intros a. cbn [snd blk_pwrite array_drive].
    destruct (decide _); [by rewrite mem_copy_in by done|by rewrite mem_copy_out by done].
Defined.

(** A zeroed object with two windows and a drive of zero bytes. *)
Definition fresh (d : option mem) : BL808SfCtrlState mem :=
  mk_sf d 0 0 0 0 0 (replicate 384 0) (replicate 512 0) (λ _, 0) []
    (λ g b, if b =? 0 then Some (λ _, 0) else None) (λ _ _, 0) (λ _ _, 0)
    0 0 0 0 0 0 false false false false 0.

Definition board (d : option mem) : BL808SfCtrlState mem :=
  default (fresh d) (bl808_sf_ctrl_realize (fresh d)).

Lemma fresh_new d : new_device (fresh d).
Proof. split; [done..|]. intros dr _. exact I. Qed.

Lemma board_realized d : bl808_sf_ctrl_realize (fresh d) = Some (board d).
Proof.
  assert ((if bl808_sf_ctrl_realize (fresh d) then true else false) = true) as H by (destruct d; by vm_compute).
  unfold board. by destruct (bl808_sf_ctrl_realize (fresh d)).
Qed.

Lemma board_up d : FlashHal.up (board d).
Proof.
  split; [exact (realize_ready _ _ (fresh_new d) (board_realized d))|].
  split; [|destruct d; by vm_compute]. destruct d; by vm_compute.
Qed.

(** The accesses that issue a command with the given stream word. *)
Definition issue (word sahb0 : Z) : list sf_op :=
  [SfWrite REG_SF_CTRL_IF_SAHB1 word 4; SfWrite REG_SF_CTRL_IF_SAHB0 (Z.lor sahb0 SAHB0_TRIGGER) 4].

Definition wren : list sf_op := issue 0x06000000 SAHB0_CMD_EN.
(** A sector erase, and a program of one byte of the buffer, at an address. *)
Definition erase_at (a : Z) : list sf_op :=
  issue (Z.lor 0x20000000 a) (FlashHal.sahb0_word true 0 false).
Definition program_at (a : Z) : list sf_op :=
  issue (Z.lor 0x02000000 a) (FlashHal.sahb0_word true 1 true).

Lemma flash_write_programs_witness :
  let '(result, s') := FlashHal.flashWrite (board None) 254 [1; 2; 3; 4] in
  result = FlashHal.flashOk ∧ FlashHal.up s' ∧ flash s' ≡ FlashHal.overlay (flash (board None)) 254 [1; 2; 3; 4].
Proof.
  apply (FlashHal.flash_write_programs (board None) 254 [1; 2; 3; 4]); [apply board_up| |lia|].
  - apply (bool_decide_unpack _). by vm_compute.
  - by vm_compute.
Defined.

Lemma flash_erase_write_read_witness :
  let s := board (Some (λ _, 7)) in
  let '(erased, s1) := FlashHal.flashEraseSector s 0x3000 in
  let '(written, s2) := FlashHal.flashWrite s1 (0x3000 + 0x1FF) [0xA5; 0x5A; 0x3C] in
  let '(byte, s3) := FlashHal.flashReadRawByte s2 (0x3000 + 0x200) in
  erased = FlashHal.flashOk ∧ written = FlashHal.flashOk ∧
  byte = (if decide (0x1FF ≤ 0x200 < 0x1FF + Z.of_nat 3) then [0xA5; 0x5A; 0x3C] !% (0x200 - 0x1FF) else 0xFF) ∧
  ∀ a, ¬ (0x3000 ≤ a < 0x3000 + FLASH_SECTOR_SIZE) → flash s3 a = flash s a.
Proof.
  cbv zeta.
  apply (FlashHal.flash_erase_write_read (board (Some (λ _, 7))) 0x3000 0x1FF [0xA5; 0x5A; 0x3C] 0x200);
    [apply board_up|done|lia|by vm_compute| |lia|by vm_compute|by vm_compute].
  apply (bool_decide_unpack _). by vm_compute.
Defined.

Lemma sf_needs_wren_witness :
  let s' := sf_run (board None) (erase_at 0 ++ program_at 0 ++ [SfReset]) in
  flash s' = flash (board None) ∧ sec_reg s' = sec_reg (board None).
Proof.
  apply (sf_needs_wren (board None) (erase_at 0 ++ program_at 0 ++ [SfReset])); [split; by vm_compute|].
  repeat constructor; intros _; by vm_compute.
Defined.

(** The board after the lock bit of the first security register has been set. *)
Definition locked_board : BL808SfCtrlState mem :=
  sf_run (board None) (wren ++ [SfWrite BL808_SF_CTRL_BUF_OFF 0x08 1] ++
    issue 0x31000000 (FlashHal.sahb0_word false 1 true)).

Lemma sf_locked_final_witness :
  let ops := wren ++ issue 0x44001000 (FlashHal.sahb0_word true 0 false) in
  locked 0 locked_board ∧
  sec_reg (sf_run locked_board ops) !% 0 = sec_reg locked_board !% 0 ∧ locked 0 (sf_run locked_board ops).
Proof.
  assert (locked 0 locked_board) as Hl by (split; by vm_compute). split; [exact Hl|].
  apply (sf_locked_final 0 locked_board); [lia|exact Hl|]. unfold wren, issue. cbn [app].
  repeat (apply not_elem_of_cons; split; [done|]). apply not_elem_of_nil.
Defined.

Lemma sf_flash_shown_witness :
  let ops := wren ++ erase_at 0x1000 ++ [SfImageOffset 1 0 0x1000; SfWrite BL808_SF_CTRL_BUF_OFF 0x5A 1] ++
             wren ++ program_at 0x1000 in
  let s' := sf_run (board (Some (λ _, 7))) ops in
  (∀ g b xip a, (g, b) ∈ group_banks → xip_ptr s' g b = Some xip → 0 ≤ a < BL808_SF_CTRL_FLASH_APERTURE_SIZE →
     xip a = window (flash s') (xip_offset s' g b) a) ∧
  (∀ d a, blk s' = Some d → 0 ≤ a < BL808_SF_CTRL_FLASH_SIZE → drive_bytes d a = flash s' a) ∧
  typed s' ∧ idle s'.
Proof.
  cbv zeta. apply (sf_flash_shown (fresh (Some (λ _, 7))) (board (Some (λ _, 7)))); [apply fresh_new|apply board_realized|].
  unfold wren, erase_at, program_at, issue. cbn [app].
  repeat (apply Forall_cons; split; [vm_compute; intuition congruence|]). constructor.
Defined.

(** ** Where the code does something else *)

(** The software reset of the chip also restores the image offsets, but the
    windows keep showing the flash at the old ones.  (The reset of the machine
    refills them.) *)
Lemma sf_reset_stale_xip :
  let s := sf_run (board None) ([SfLoad 0 (λ a, u8 (a / 4096)) 0x2000; SfImageOffset 0 0 0x1000] ++
             issue 0x66000000 SAHB0_CMD_EN ++ issue 0x99000000 SAHB0_CMD_EN) in
  xip_offset s 0 0 = 0 ∧ (if xip_ptr s 0 0 is Some xip then xip 0 else 0) = 1 ∧ window (flash s) 0 0 = 0.
Proof. repeat split; by vm_compute. Qed.

(** With 32-bit addresses on, the end of the last sector wraps to zero and passes
    the bounds check: the erase writes at offset 0xFFFFF000 of the 16 MiB array. *)
Lemma sf_erase_out_of_bounds :
  let s := board None in
  let s' := sf_run (s <| flash := λ _, 0 |>)
    ([SfWrite REG_SF_CTRL_0 SF_CTRL_0_32B_ADDR_EN 4] ++ wren ++
     [SfWrite REG_SF_CTRL_IF_SAHB1 0x20FFFFF0 4; SfWrite REG_SF_CTRL_IF_SAHB2 0 4;
      SfWrite REG_SF_CTRL_IF_SAHB0
        (Z.lor (Z.lor (Z.lor SAHB0_CMD_EN SAHB0_ADDR_EN) (Z.shiftl 3 SAHB0_ADDR_BYTES_SHIFT)) SAHB0_TRIGGER) 4]) in
  BL808_SF_CTRL_FLASH_SIZE ≤ 0xFFFFF000 ∧ flash s' 0xFFFFF000 = 0xFF.
Proof. cbv zeta. split; by vm_compute. Qed.

(** A reset of the machine clears the one-time programmable lock bits. *)
Lemma sf_machine_reset_unlocks :
  locked 0 locked_board ∧ ¬ locked 0 (sf_run locked_board [SfReset]).
Proof. split; [split; by vm_compute|]. intros [H _]. by vm_compute in H. Qed.
End SfDemo.
