(* ===== verification/Dma2d.v ===== *)
(** * The 2D DMA engine ([qemu-machine/hw/dma/bl808_dma2d.c])

    Module [BL808DMA2D]: two channels that copy a run of items or a rectangle of
    cells in physical memory, leaving out the cells that match a colour key, and the
    bottom half that runs them.  As in [Dma], memory is a world [E] with the accesses
    of [PhysMem], and the engine's own registers are not part of it. *)

From S2P Require Import Prelude Qemu.
From stdpp Require Import prelude list.
From Stdlib Require Import ZArith Lia.
Local Open Scope Z_scope.

Module BL808DMA2D.

Definition DMA2D_INTSTATUS := 0x000.
Definition DMA2D_INTTCSTATUS := 0x004.
Definition DMA2D_INTTCCLEAR := 0x008.
Definition DMA2D_ENBLDCHNS := 0x00c.
Definition DMA2D_CONFIG := 0x010.
Definition DMA2D_SYNC := 0x014.
Definition DMA2D_SOFTBREQ := 0x020.
Definition DMA2D_SOFTLBREQ := 0x024.
Definition DMA2D_SOFTSREQ := 0x028.
Definition DMA2D_SOFTLSREQ := 0x02c.
Definition DMA2D_QOS := 0x038.

Definition DMA2D_CH_BASE := 0x100.
Definition DMA2D_CH_STRIDE := 0x100.

Definition DMA2D_C_SRCADDR := 0x00.
Definition DMA2D_C_DSTADDR := 0x04.
Definition DMA2D_C_LLI := 0x08.
Definition DMA2D_C_BUS := 0x0c.
Definition DMA2D_C_SRC_CNT := 0x10.
Definition DMA2D_C_SRC_XIC := 0x14.
Definition DMA2D_C_SRC_YIC := 0x18.
Definition DMA2D_C_DST_CNT := 0x1c.
Definition DMA2D_C_DST_XIC := 0x20.
Definition DMA2D_C_DST_YIC := 0x24.
Definition DMA2D_C_KEY := 0x74.
Definition DMA2D_C_KEY_EN := 0x78.
Definition DMA2D_C_CFG := 0x7c.

Definition DMA2D_E := BIT 0.
Definition DMA2D_TRANSFERSIZE_MASK := 0x0fff.
Definition DMA2D_SRC_SIZE_SHIFT := 18.
Definition DMA2D_DST_SIZE_SHIFT := 21.
Definition DMA2D_SI := BIT 26.
Definition DMA2D_DI := BIT 27.
Definition DMA2D_I := BIT 31.

Definition DMA2D_CH_EN := BIT 0.
Definition DMA2D_FIFO_EMPTY := BIT 16.
Definition DMA2D_REG_2D_EN := BIT 31.

Definition DMA2D_KEY_EN_BIT := BIT 0.
Definition DMA2D_KEY_MODE_SHIFT := 1.
Definition DMA2D_KEY_MODE_MASK := Z.shiftl 0x3 DMA2D_KEY_MODE_SHIFT.
Definition DMA2D_KEY_STRB_SHIFT := 4.
Definition DMA2D_KEY_STRB_MASK := Z.shiftl 0xf DMA2D_KEY_STRB_SHIFT.

Definition BL808_DMA2D_CHANNELS := 2.

(** ** State *)

Record BL808DMA2DChannel := mk_channel2d {
  src_addr : Z;              (* uint32_t *)
  dst_addr : Z;
  lli : Z;
  bus : Z;
  src_cnt : Z;
  src_xic : Z;
  src_yic : Z;
  dst_cnt : Z;
  dst_xic : Z;
  dst_yic : Z;
  key : Z;
  key_en : Z;
  cfg : Z;
  active : bool;
}.

#[export] Instance eta_channel2d : Eta BL808DMA2DChannel := λ r,
  mk_channel2d (src_addr r) (dst_addr r) (lli r) (bus r) (src_cnt r) (src_xic r) (src_yic r)
    (dst_cnt r) (dst_xic r) (dst_yic r) (key r) (key_en r) (cfg r) (active r).

Definition zero_channel : BL808DMA2DChannel := mk_channel2d 0 0 0 0 0 0 0 0 0 0 0 0 0 false.
#[export] Instance channel2d_inhabited : Inhabited BL808DMA2DChannel := populate zero_channel.

Record BL808DMA2DState := mk_dma2d {
  irq : list bool;           (* levels last passed to qemu_set_irq *)
  run_bh : bool;             (* the bottom half is scheduled *)
  channels : list BL808DMA2DChannel;
  int_status : Z;            (* uint32_t *)
  int_tc_status : Z;
  global_cfg : Z;
  sync : Z;
  soft_breq : Z;
  soft_lbreq : Z;
  soft_sreq : Z;
  soft_lsreq : Z;
  qos : Z;
  run_scheduled : bool;
  clock_enabled : bool;
  reset_asserted : bool;
}.

#[export] Instance eta_dma2d : Eta BL808DMA2DState := λ r,
  mk_dma2d (irq r) (run_bh r) (channels r) (int_status r) (int_tc_status r) (global_cfg r) (sync r)
    (soft_breq r) (soft_lbreq r) (soft_sreq r) (soft_lsreq r) (qos r) (run_scheduled r)
    (clock_enabled r) (reset_asserted r).

Definition chan (s : BL808DMA2DState) (i : Z) : BL808DMA2DChannel := channels s !% i.
Definition set_chan (s : BL808DMA2DState) (i : Z) (ch : BL808DMA2DChannel) : BL808DMA2DState :=
  s <| channels := aset (channels s) i ch |>.
Definition chnos : list Z := [0; 1].

(** ** Decoding *)

Definition bl808_dma2d_active (s : BL808DMA2DState) : bool := clock_enabled s && negb (reset_asserted s).

Definition bl808_dma2d_width_bytes (bus : Z) (dst : bool) : Z :=
  let width := Z.land (Z.shiftr bus (if dst then DMA2D_DST_SIZE_SHIFT else DMA2D_SRC_SIZE_SHIFT)) 0x3 in
  if width =? 0 then 1 else if width =? 1 then 2 else if width =? 2 then 4 else 8.

Definition bl808_dma2d_enabled_channels (s : BL808DMA2DState) : Z :=
  foldl (λ mask i, if tst (cfg (chan s i)) DMA2D_CH_EN then Z.lor mask (BIT i) else mask) 0 chnos.

Definition bl808_dma2d_update_irq (s : BL808DMA2DState) : BL808DMA2DState :=
  s <| irq := (λ i, bl808_dma2d_active s && tst (int_status s) (BIT i)) <$> chnos |>.

Definition bl808_dma2d_color_key_skip (ch : BL808DMA2DChannel) (value : Z) : bool :=
  let v := u32 value in
  if negb (tst (key_en ch) DMA2D_KEY_EN_BIT) then false
  else
    let strobe := Z.shiftr (Z.land (key_en ch) DMA2D_KEY_STRB_MASK) DMA2D_KEY_STRB_SHIFT in
    let lane b m x acc := if tst strobe (BIT b) then Z.lor acc (Z.land x m) else acc in
    let masked x := lane 3 0xff000000 x (lane 2 0x00ff0000 x (lane 1 0x0000ff00 x (lane 0 0x000000ff x 0))) in
    masked v =? masked (key ch).

Definition bl808_dma2d_complete_channel (s : BL808DMA2DState) (chno : Z) : BL808DMA2DState :=
  let ch := chan s chno in
  let ch := ch <| active := false |> <| cfg := Z.lor (clr (cfg ch) DMA2D_CH_EN) DMA2D_FIFO_EMPTY |> in
  let s := set_chan s chno ch in
  if tst (bus ch) DMA2D_I then
    s <| int_tc_status := Z.lor (int_tc_status s) (BIT chno) |>
      <| int_status := Z.lor (int_status s) (BIT chno) |>
  else s.

(** ** Transfers *)

Section transfers.
Context {E : Type} `{!PhysMem E}.

Definition is_width (w : Z) : bool := (w =? 1) || (w =? 2) || (w =? 4) || (w =? 8).

Definition bl808_dma2d_read_mem (addr width_bytes : Z) (e : E) : Z * E :=
  if is_width width_bytes then
    let '(tmp, e) := cpu_physical_memory_read addr (Z.to_nat width_bytes) e in (le_to_cpu tmp, e)
  else (0, e).

Definition bl808_dma2d_write_mem (addr value width_bytes : Z) (e : E) : E :=
  if is_width width_bytes
  then cpu_physical_memory_write addr (cpu_to_le (Z.to_nat width_bytes) value) e
  else e.

(** The item or cell that both loops move. *)
Definition move_cell (ch : BL808DMA2DChannel) (src dst src_width dst_width : Z) (e : E) : E :=
  let '(value, e) := bl808_dma2d_read_mem src src_width e in
  if negb (bl808_dma2d_color_key_skip ch value) then bl808_dma2d_write_mem dst value dst_width e else e.

(** [hwaddr] is 64 bits wide. *)
Fixpoint linear_loop (count : nat) (ch : BL808DMA2DChannel) (src_width dst_width src dst : Z) (e : E) : Z * Z * E :=
  match count with
  | O => (src, dst, e)
  | S count =>
      let e := move_cell ch src dst src_width dst_width e in
      let src := if tst (bus ch) DMA2D_SI then u64 (src + src_width) else src in
      let dst := if tst (bus ch) DMA2D_DI then u64 (dst + dst_width) else dst in
      linear_loop count ch src_width dst_width src dst e
  end.

Definition bl808_dma2d_run_linear (s : BL808DMA2DState) (chno : Z) (e : E) : BL808DMA2DState * E :=
  let ch := chan s chno in
  let count := Z.land (bus ch) DMA2D_TRANSFERSIZE_MASK in
  let src_width := bl808_dma2d_width_bytes (bus ch) false in
  let dst_width := bl808_dma2d_width_bytes (bus ch) true in
  let '(src, dst, e) := linear_loop (Z.to_nat count) ch src_width dst_width (src_addr ch) (dst_addr ch) e in
  let s := set_chan s chno (ch <| src_addr := u32 src |> <| dst_addr := u32 dst |>) in
  (bl808_dma2d_complete_channel s chno, e).

(** The inner loop, over a row. *)
Fixpoint row_loop (xcount : nat) (ch : BL808DMA2DChannel) (width_bytes src dst : Z) (e : E) : Z * Z * E :=
  match xcount with
  | O => (src, dst, e)
  | S xcount =>
      let e := move_cell ch src dst width_bytes width_bytes e in
      row_loop xcount ch width_bytes (u64 (src + i32 (src_xic ch))) (u64 (dst + i32 (dst_xic ch))) e
  end.

Fixpoint rows_loop (ycount xcount : nat) (ch : BL808DMA2DChannel) (width_bytes row_src row_dst : Z) (e : E) : Z * Z * E :=
  match ycount with
  | O => (row_src, row_dst, e)
  | S ycount =>
      let '(src, dst, e) := row_loop xcount ch width_bytes row_src row_dst e in
      rows_loop ycount xcount ch width_bytes (u64 (src + i32 (src_yic ch))) (u64 (dst + i32 (dst_yic ch))) e
  end.

Definition bl808_dma2d_run_2d (s : BL808DMA2DState) (chno : Z) (e : E) : BL808DMA2DState * E :=
  let ch := chan s chno in
  let width_bytes := bl808_dma2d_width_bytes (bus ch) false in
  let xcount := Z.land (src_cnt ch) 0xffff in
  let ycount := Z.land (Z.shiftr (src_cnt ch) 16) 0xffff in
  let '(row_src, row_dst, e) :=
    rows_loop (Z.to_nat ycount) (Z.to_nat xcount) ch width_bytes (src_addr ch) (dst_addr ch) e in
  let s := set_chan s chno (ch <| src_addr := u32 row_src |> <| dst_addr := u32 row_dst |>) in
  (bl808_dma2d_complete_channel s chno, e).

Definition bl808_dma2d_run_channel (s : BL808DMA2DState) (chno : Z) (e : E) : BL808DMA2DState * E * bool :=
  let ch := chan s chno in
  if negb (bl808_dma2d_active s) then (set_chan s chno (ch <| active := false |>), e, false)
  else if negb (tst (global_cfg s) DMA2D_E) || negb (tst (cfg ch) DMA2D_CH_EN)
  then (set_chan s chno (ch <| active := false |>), e, false)
  else
    let s := set_chan s chno (ch <| active := true |> <| cfg := clr (cfg ch) DMA2D_FIFO_EMPTY |>) in
    let '(s, e) := if tst (cfg (chan s chno)) DMA2D_REG_2D_EN then bl808_dma2d_run_2d s chno e
                   else bl808_dma2d_run_linear s chno e in
    (s, e, true).

(** The bottom half; the emulator clears the scheduled mark when it runs it. *)
Definition bl808_dma2d_run_bh (s : BL808DMA2DState) (e : E) : BL808DMA2DState * E :=
  let s := s <| run_bh := false |> in
  let s := s <| run_scheduled := false |> in
  let '(s, e) := foldl (λ '(s, e) i, let '(s, e, _) := bl808_dma2d_run_channel s i e in (s, e)) (s, e) chnos in
  (bl808_dma2d_update_irq s, e).
End transfers.

(** ** Scheduling and registers *)

Definition bl808_dma2d_schedule (s : BL808DMA2DState) : BL808DMA2DState :=
  if negb (run_scheduled s) && bl808_dma2d_active s && negb (bl808_dma2d_enabled_channels s =? 0) &&
     tst (global_cfg s) DMA2D_E
  then s <| run_scheduled := true |> <| run_bh := true |>
  else s.

Definition in_channels (offset : Z) : bool :=
  (DMA2D_CH_BASE <=? offset) && (offset <? DMA2D_CH_BASE + BL808_DMA2D_CHANNELS * DMA2D_CH_STRIDE).

Definition bl808_dma2d_read (s : BL808DMA2DState) (offset size : Z) : Z :=
  if negb (size =? 4) then 0
  else if offset =? DMA2D_INTSTATUS then int_status s
  else if offset =? DMA2D_INTTCSTATUS then int_tc_status s
  else if offset =? DMA2D_INTTCCLEAR then 0
  else if offset =? DMA2D_ENBLDCHNS then bl808_dma2d_enabled_channels s
  else if offset =? DMA2D_CONFIG then global_cfg s
  else if offset =? DMA2D_SYNC then sync s
  else if offset =? DMA2D_SOFTBREQ then soft_breq s
  else if offset =? DMA2D_SOFTLBREQ then soft_lbreq s
  else if offset =? DMA2D_SOFTSREQ then soft_sreq s
  else if offset =? DMA2D_SOFTLSREQ then soft_lsreq s
  else if offset =? DMA2D_QOS then qos s
  else if negb (in_channels offset) then 0
  else
    let chno := (offset - DMA2D_CH_BASE) / DMA2D_CH_STRIDE in
    let ch := chan s chno in
    let choff := (offset - DMA2D_CH_BASE) mod DMA2D_CH_STRIDE in
    if choff =? DMA2D_C_SRCADDR then src_addr ch
    else if choff =? DMA2D_C_DSTADDR then dst_addr ch
    else if choff =? DMA2D_C_LLI then lli ch
    else if choff =? DMA2D_C_BUS then bus ch
    else if choff =? DMA2D_C_SRC_CNT then src_cnt ch
    else if choff =? DMA2D_C_SRC_XIC then src_xic ch
    else if choff =? DMA2D_C_SRC_YIC then src_yic ch
    else if choff =? DMA2D_C_DST_CNT then dst_cnt ch
    else if choff =? DMA2D_C_DST_XIC then dst_xic ch
    else if choff =? DMA2D_C_DST_YIC then dst_yic ch
    else if choff =? DMA2D_C_KEY then key ch
    else if choff =? DMA2D_C_KEY_EN then key_en ch
    else if choff =? DMA2D_C_CFG then cfg ch
    else 0.

Definition bl808_dma2d_write (s : BL808DMA2DState) (offset value size : Z) : BL808DMA2DState :=
  let val := u32 value in
  if negb (size =? 4) then s
  else if reset_asserted s then s
  else if offset =? DMA2D_INTTCCLEAR then
    bl808_dma2d_update_irq (s <| int_tc_status := clr (int_tc_status s) val |>
                              <| int_status := clr (int_status s) val |>)
  else if offset =? DMA2D_CONFIG then
    bl808_dma2d_schedule (s <| global_cfg := Z.land val 0x00ff0001 |>)
  else if offset =? DMA2D_SYNC then s <| sync := val |>
  else if offset =? DMA2D_SOFTBREQ then s <| soft_breq := val |>
  else if offset =? DMA2D_SOFTLBREQ then s <| soft_lbreq := val |>
  else if offset =? DMA2D_SOFTSREQ then s <| soft_sreq := val |>
  else if offset =? DMA2D_SOFTLSREQ then s <| soft_lsreq := val |>
  else if offset =? DMA2D_QOS then s <| qos := Z.land val 0x3 |>
  else if negb (in_channels offset) then s
  else
    let chno := (offset - DMA2D_CH_BASE) / DMA2D_CH_STRIDE in
    let ch := chan s chno in
    let choff := (offset - DMA2D_CH_BASE) mod DMA2D_CH_STRIDE in
    if choff =? DMA2D_C_SRCADDR then set_chan s chno (ch <| src_addr := val |>)
    else if choff =? DMA2D_C_DSTADDR then set_chan s chno (ch <| dst_addr := val |>)
    else if choff =? DMA2D_C_LLI then set_chan s chno (ch <| lli := val |>)
    else if choff =? DMA2D_C_BUS then set_chan s chno (ch <| bus := val |>)
    else if choff =? DMA2D_C_SRC_CNT then set_chan s chno (ch <| src_cnt := val |>)
    else if choff =? DMA2D_C_SRC_XIC then set_chan s chno (ch <| src_xic := val |>)
    else if choff =? DMA2D_C_SRC_YIC then set_chan s chno (ch <| src_yic := val |>)
    else if choff =? DMA2D_C_DST_CNT then set_chan s chno (ch <| dst_cnt := val |>)
    else if choff =? DMA2D_C_DST_XIC then set_chan s chno (ch <| dst_xic := val |>)
    else if choff =? DMA2D_C_DST_YIC then set_chan s chno (ch <| dst_yic := val |>)
    else if choff =? DMA2D_C_KEY then set_chan s chno (ch <| key := val |>)
    else if choff =? DMA2D_C_KEY_EN then
      set_chan s chno (ch <| key_en :=
        Z.land val (Z.lor (Z.lor DMA2D_KEY_EN_BIT DMA2D_KEY_MODE_MASK) DMA2D_KEY_STRB_MASK) |>)
    else if choff =? DMA2D_C_CFG then
      let ch := ch <| cfg := Z.land val (Z.lor (Z.lor DMA2D_CH_EN DMA2D_REG_2D_EN) (BIT 14)) |> in
      let ch := if negb (tst (cfg ch) DMA2D_CH_EN)
                then ch <| active := false |> <| cfg := Z.lor (cfg ch) DMA2D_FIFO_EMPTY |> else ch in
      bl808_dma2d_schedule (set_chan s chno ch)
    else s.

(** ** Life cycle *)

Definition bl808_dma2d_reset (s : BL808DMA2DState) : BL808DMA2DState :=
  let s := s <| channels := replicate 2 zero_channel |> <| int_status := 0 |> <| int_tc_status := 0 |>
             <| global_cfg := 0 |> <| sync := 0 |> <| soft_breq := 0 |> <| soft_lbreq := 0 |>
             <| soft_sreq := 0 |> <| soft_lsreq := 0 |> <| qos := 0 |> <| run_scheduled := false |>
             <| run_bh := false |> in
  let s := foldl (λ s i, set_chan s i ((chan s i) <| cfg := DMA2D_FIFO_EMPTY |>)) s chnos in
  bl808_dma2d_update_irq s.

Definition bl808_dma2d_set_clock_enabled (s : BL808DMA2DState) (enabled : bool) : BL808DMA2DState :=
  let s := s <| clock_enabled := enabled |> in
  let s := if negb enabled then s <| run_bh := false |> <| run_scheduled := false |>
           else bl808_dma2d_schedule s in
  bl808_dma2d_update_irq s.

Definition bl808_dma2d_set_reset_asserted `{!ColdReset bl808_dma2d_reset} (s : BL808DMA2DState)
    (asserted : bool) : BL808DMA2DState :=
  let s := s <| reset_asserted := asserted |> in
  let s := if asserted then device_cold_reset (s <| run_bh := false |> <| run_scheduled := false |>)
           else bl808_dma2d_schedule s in
  bl808_dma2d_update_irq s.

(** The object is allocated zeroed; the hook creates the bottom half and sets the
    flags. *)
Definition bl808_dma2d_init (s : BL808DMA2DState) : BL808DMA2DState :=
  s <| clock_enabled := false |> <| reset_asserted := false |>.

End BL808DMA2D.
