(* ===== verification/Dma2dSpec.v ===== *)
(** * The 2D DMA engine: what a transfer does

    A channel visits a list of cells, [plan]: a run of items, or the cells of a
    rectangle row by row.  [blit] moves them one after the other and leaves out those
    that match the colour key.  The bottom half is proved to compute it, and, where no
    destination overlaps another cell, to fill every cell of the destination with its
    source.  The last part follows the device through any sequence of accesses. *)

From S2P Require Import Prelude Qemu Dma DmaSpec DmaPort Dma2d.
From stdpp Require Import prelude list gmap.
From Stdlib Require Import ZArith Lia.
Local Open Scope Z_scope.
Import BL808DMA2D.

(** ** The cells of a transfer *)

(** [n] cells from an address of each side, a step apart; addresses have 64 bits. *)
Definition strip (src dst sstep dstep n : Z) : list (Z * Z) :=
  (λ i, (u64 (src + i * sstep), u64 (dst + i * dstep))) <$> seqZ 0 n.

(** The distance between the first cells of two rows. *)
Definition pitch (xcount xic yic : Z) : Z := xcount * i32 xic + i32 yic.

Definition xcount (ch : BL808DMA2DChannel) : Z := Z.land (src_cnt ch) 0xffff.
Definition ycount (ch : BL808DMA2DChannel) : Z := Z.land (Z.shiftr (src_cnt ch) 16) 0xffff.

Definition cell_src (ch : BL808DMA2DChannel) (x y : Z) : Z :=
  u64 (src_addr ch + y * pitch (xcount ch) (src_xic ch) (src_yic ch) + x * i32 (src_xic ch)).
Definition cell_dst (ch : BL808DMA2DChannel) (x y : Z) : Z :=
  u64 (dst_addr ch + y * pitch (xcount ch) (dst_xic ch) (dst_yic ch) + x * i32 (dst_xic ch)).

Definition rectangle (ch : BL808DMA2DChannel) : list (Z * Z) :=
  y ← seqZ 0 (ycount ch); (λ x, (cell_src ch x y, cell_dst ch x y)) <$> seqZ 0 (xcount ch).

Definition two_d (ch : BL808DMA2DChannel) : bool := tst (cfg ch) DMA2D_REG_2D_EN.
Definition sw (ch : BL808DMA2DChannel) : Z := bl808_dma2d_width_bytes (bus ch) false.
(** A rectangle uses the source width for both sides. *)
Definition dw (ch : BL808DMA2DChannel) : Z := if two_d ch then sw ch else bl808_dma2d_width_bytes (bus ch) true.

Definition items (ch : BL808DMA2DChannel) : Z := Z.land (bus ch) DMA2D_TRANSFERSIZE_MASK.
Definition item_step (ch : BL808DMA2DChannel) (inc : Z) (w : Z) : Z := if tst (bus ch) inc then w else 0.
Definition src_step (ch : BL808DMA2DChannel) : Z := item_step ch DMA2D_SI (sw ch).
Definition dst_step (ch : BL808DMA2DChannel) : Z := item_step ch DMA2D_DI (bl808_dma2d_width_bytes (bus ch) true).
Definition items_of (ch : BL808DMA2DChannel) : list (Z * Z) :=
  strip (src_addr ch) (dst_addr ch) (src_step ch) (dst_step ch) (items ch).

Definition plan (ch : BL808DMA2DChannel) : list (Z * Z) := if two_d ch then rectangle ch else items_of ch.

(** ** The colour key *)

Definition lane (v i : Z) : Z := u8 (Z.shiftr v (8 * i)).

(** A value matches the key when the key is on and every byte lane the strobe
    selects agrees. *)
Definition matches (ch : BL808DMA2DChannel) (v : Z) : Prop :=
  Z.testbit (key_en ch) 0 = true ∧
  ∀ i, 0 ≤ i < 4 → Z.testbit (key_en ch) (4 + i) = true → lane v i = lane (key ch) i.

#[export] Instance matches_dec ch v : Decision (matches ch v).
Proof.
  refine (cast_if (decide (Z.testbit (key_en ch) 0 = true ∧
    Forall (λ i, Z.testbit (key_en ch) (4 + i) = true → lane v i = lane (key ch) i) (seqZ 0 4))));
    abstract (unfold matches; rewrite Forall_forall in *; setoid_rewrite elem_of_seqZ in a || setoid_rewrite elem_of_seqZ in n; naive_solver).
Defined.

Lemma lane_bits v i k : 0 ≤ i → 0 ≤ k → Z.testbit (lane v i) k = Z.testbit v (8 * i + k) && (k <? 8).
Proof. intros. unfold lane. rewrite wrap_testbit, Z.shiftr_spec by lia. do 2 f_equal. lia. Qed.

Lemma masked_bits strobe x k : 0 ≤ k →
  let lane b m acc := if tst strobe (BIT b) then Z.lor acc (Z.land x m) else acc in
  Z.testbit (lane 3 0xff000000 (lane 2 0x00ff0000 (lane 1 0x0000ff00 (lane 0 0x000000ff 0)))) k =
  (k <? 32) && Z.testbit strobe (k / 8) && Z.testbit x k.
Proof.
  intros Hk. cbv beta zeta. rewrite !tst_BIT by lia.
  assert (∀ n, 0 ≤ n → Z.testbit (Z.shiftl 0xff (8 * n)) k = (k / 8 =? n)) as Hm.
  { intros n Hn. destruct (Z.eqb_spec (k / 8) n) as [<-|Hne].
    - rewrite Z.shiftl_spec by lia. pose proof (Z.mod_pos_bound k 8 ltac:(lia)).
      replace (k - 8 * (k / 8)) with (k mod 8) by (rewrite (Z.div_mod k 8) at 2; lia).
      change 0xff with (Z.ones 8). rewrite Z.ones_spec_low; lia.
    - destruct (decide (k < 8 * n)); [by rewrite Z.shiftl_spec_low|]. rewrite Z.shiftl_spec by lia.
      change 0xff with (Z.ones 8). apply Z.ones_spec_high.
      assert (k / 8 ≠ n) by done. assert (¬ k < 8 * (n + 1)) by (intros ?; apply Hne; symmetry; apply Z.div_unique with (k - 8 * n); lia). lia. }
  pose proof (Hm 0 ltac:(lia)) as H0. pose proof (Hm 1 ltac:(lia)) as H1.
  pose proof (Hm 2 ltac:(lia)) as H2. pose proof (Hm 3 ltac:(lia)) as H3.
  change (Z.shiftl 0xff (8 * 0)) with 0xff in H0. change (Z.shiftl 0xff (8 * 1)) with 0xff00 in H1.
  change (Z.shiftl 0xff (8 * 2)) with 0xff0000 in H2. change (Z.shiftl 0xff (8 * 3)) with 0xff000000 in H3.
  assert (0 ≤ k / 8) by (apply Z.div_pos; lia).
  destruct (Z.ltb_spec k 32) as [Hlt|Hge].
  - assert (k / 8 < 4) by (apply Z.div_lt_upper_bound; lia).
    assert (k / 8 = 0 ∨ k / 8 = 1 ∨ k / 8 = 2 ∨ k / 8 = 3) as [E|[E|[E|E]]] by lia; rewrite E in *;
      cbn in H0, H1, H2, H3; split_ifs; rewrite ?Z.lor_spec, ?Z.land_spec, ?H0, ?H1, ?H2, ?H3, ?Z.bits_0 in *;
      repeat match goal with |- context [Z.testbit strobe ?i] => destruct (Z.testbit strobe i) end;
      try discriminate; by destruct (Z.testbit x k).
  - assert (4 ≤ k / 8) by (apply Z.div_le_lower_bound; lia).
    rewrite (proj2 (Z.eqb_neq _ _)) in H0 by lia. rewrite (proj2 (Z.eqb_neq _ _)) in H1 by lia.
    rewrite (proj2 (Z.eqb_neq _ _)) in H2 by lia. rewrite (proj2 (Z.eqb_neq _ _)) in H3 by lia.
    split_ifs; by rewrite ?Z.lor_spec, ?Z.land_spec, ?H0, ?H1, ?H2, ?H3, ?Z.bits_0, ?andb_false_r.
Qed.

(** The lane-by-lane masks of the code compare the selected bytes. *)
Lemma color_key_spec ch v :
  bl808_dma2d_color_key_skip ch v = bool_decide (matches ch v).
Proof.
  unfold bl808_dma2d_color_key_skip. cbv beta zeta. change DMA2D_KEY_EN_BIT with (BIT 0).
  rewrite tst_BIT by lia. destruct (Z.testbit (key_en ch) 0) eqn:E0; cbn [negb].
  2: { symmetry. apply bool_decide_eq_false. unfold matches. rewrite E0. by intros [? _]. }
  assert (∀ k, k < 32 → Z.testbit (u32 v) k = Z.testbit v k) as Hv.
  { intros k Hk. destruct (decide (0 ≤ k)); [|by rewrite !Z.testbit_neg_r by lia].
    by rewrite wrap_testbit, (proj2 (Z.ltb_lt _ _)), andb_true_r by lia. }
  set (strobe := Z.shiftr _ DMA2D_KEY_STRB_SHIFT).
  assert (∀ i, 0 ≤ i < 4 → Z.testbit strobe i = Z.testbit (key_en ch) (4 + i)) as Hst.
  { intros i Hi. unfold strobe. rewrite Z.shiftr_spec, Z.land_spec by lia. unfold DMA2D_KEY_STRB_SHIFT.
    rewrite (Z.add_comm i 4). replace (Z.testbit DMA2D_KEY_STRB_MASK (4 + i)) with true; [apply andb_true_r|].
    assert (i = 0 ∨ i = 1 ∨ i = 2 ∨ i = 3) as [->|[->|[->| ->]]] by lia; done. }
  apply eq_bool_prop_intro. rewrite Is_true_true, Z.eqb_eq, bool_decide_spec. split.
  - intros Heq. split; [done|]. intros i Hi Hsel. apply Z.bits_inj'. intros k Hk.
    rewrite !lane_bits by lia. destruct (Z.ltb_spec k 8); [|by rewrite !andb_false_r].
    apply (f_equal (λ z, Z.testbit z (8 * i + k))) in Heq. rewrite !masked_bits in Heq by lia.
    replace ((8 * i + k) / 8) with i in Heq by (apply Z.div_unique with k; lia).
    rewrite Hst, Hsel, (proj2 (Z.ltb_lt _ _)), Hv in Heq by lia. rewrite !andb_true_r. exact Heq.
  - intros [_ Hl]. apply Z.bits_inj'. intros k Hk. rewrite !masked_bits by lia.
    destruct (Z.ltb_spec k 32); [|done]. cbn [andb]. rewrite Hv by done.
    assert (0 ≤ k / 8 < 4) by (split; [apply Z.div_pos; lia|apply Z.div_lt_upper_bound; lia]).
    rewrite Hst by lia. destruct (Z.testbit (key_en ch) (4 + k / 8)) eqn:Hsel; [|done]. cbn [andb].
    pose proof (Hl (k / 8) ltac:(lia) Hsel) as Hx. apply (f_equal (λ z, Z.testbit z (k mod 8))) in Hx.
    pose proof (Z.mod_pos_bound k 8 ltac:(lia)). rewrite !lane_bits in Hx by lia.
    rewrite <- Z.div_mod in Hx by lia. by rewrite (proj2 (Z.ltb_lt (k mod 8) 8)), !andb_true_r in Hx by lia.
Qed.

(** ** The loops visit the plan *)

Lemma u64_u64_add x y : u64 (u64 x + y) = u64 (x + y).
Proof. unfold wrap. by rewrite Z.add_mod_idemp_l. Qed.

Lemma u32_u64 x : u32 (u64 x) = u32 x.
Proof. unfold wrap. apply Z.mod_mod_divide. by exists (2 ^ 32). Qed.

Lemma strip_S src dst ss ds n : 0 ≤ n →
  strip src dst ss ds (Z.succ n) = (u64 src, u64 dst) :: strip (u64 (src + ss)) (u64 (dst + ds)) ss ds n.
Proof.
  intros Hn. unfold strip. rewrite seqZ_cons, fmap_cons by lia. rewrite Z.pred_succ. f_equal; [f_equal; f_equal; lia|].
  rewrite <- (fmap_add_seqZ 1 0), <- list_fmap_compose. apply list_fmap_ext. intros i x _. cbn.
  rewrite !u64_u64_add. f_equal; f_equal; lia.
Qed.

Lemma strip_wrap src dst ss ds n : strip (u64 src) (u64 dst) ss ds n = strip src dst ss ds n.
Proof. apply list_fmap_ext. intros i x _. by rewrite !u64_u64_add. Qed.

Section loops.
Context {E : Type} `{!PhysMem E}.

Definition move_cells (ch : BL808DMA2DChannel) (sw dw : Z) (cells : list (Z * Z)) (e : E) : E :=
  foldl (λ e '(a, b), move_cell ch a b sw dw e) e cells.

Lemma linear_loop_strip n ch ws wd src dst e :
  let ss := item_step ch DMA2D_SI ws in
  let ds := item_step ch DMA2D_DI wd in
  uint 64 src → uint 64 dst →
  linear_loop n ch ws wd src dst e =
  (u64 (src + Z.of_nat n * ss), u64 (dst + Z.of_nat n * ds), move_cells ch ws wd (strip src dst ss ds (Z.of_nat n)) e).
Proof.
  cbv zeta. revert src dst e. induction n as [|n IH]; intros src dst e Hs Hd.
  { cbn. by rewrite !Z.add_0_r, !wrap_small. }
  cbn [linear_loop]. rewrite Nat2Z.inj_succ, strip_S by lia. rewrite (wrap_small _ src), (wrap_small _ dst) by done.
  rewrite IH; [|by split_ifs; solve_uint..]. unfold move_cells. cbn [foldl]. unfold item_step.
  f_equal; [f_equal|]; [split_ifs|split_ifs|f_equal; f_equal; split_ifs]; rewrite ?u64_u64_add, ?Z.add_0_r, ?wrap_small by done;
    try done; f_equal; lia.
Qed.

Lemma row_loop_strip n ch w src dst e :
  uint 64 src → uint 64 dst →
  let ss := i32 (src_xic ch) in
  let ds := i32 (dst_xic ch) in
  row_loop n ch w src dst e =
  (u64 (src + Z.of_nat n * ss), u64 (dst + Z.of_nat n * ds), move_cells ch w w (strip src dst ss ds (Z.of_nat n)) e).
Proof.
  cbv zeta. revert src dst e. induction n as [|n IH]; intros src dst e Hs Hd.
  { cbn. by rewrite !Z.add_0_r, !wrap_small. }
  cbn [row_loop]. rewrite Nat2Z.inj_succ, strip_S by lia. rewrite (wrap_small _ src), (wrap_small _ dst) by done.
  rewrite IH by solve_uint. unfold move_cells. cbn [foldl]. rewrite !u64_u64_add. do 3 f_equal; lia.
Qed.

Lemma move_cells_app ch ws wd l l' e :
  move_cells ch ws wd (l ++ l') e = move_cells ch ws wd l' (move_cells ch ws wd l e).
Proof. apply foldl_app. Qed.

(** Rows from two addresses. *)
Definition rows (ch : BL808DMA2DChannel) (xc src dst yc : Z) : list (Z * Z) :=
  y ← seqZ 0 yc;
  strip (src + y * pitch xc (src_xic ch) (src_yic ch)) (dst + y * pitch xc (dst_xic ch) (dst_yic ch))
    (i32 (src_xic ch)) (i32 (dst_xic ch)) xc.

Lemma rows_S ch xc src dst n : 0 ≤ n →
  rows ch xc src dst (Z.succ n) =
  strip src dst (i32 (src_xic ch)) (i32 (dst_xic ch)) xc ++
  rows ch xc (u64 (src + pitch xc (src_xic ch) (src_yic ch))) (u64 (dst + pitch xc (dst_xic ch) (dst_yic ch))) n.
Proof.
  intros Hn. unfold rows. rewrite seqZ_cons by lia. rewrite Z.pred_succ, bind_cons. f_equal.
  { f_equal; lia. }
  rewrite <- (fmap_add_seqZ 1 0), list_fmap_bind. apply list_bind_ext; [|done]. intros y. cbn.
  rewrite <- strip_wrap. rewrite <- (strip_wrap (_ + _)), !u64_u64_add. f_equal; f_equal; lia.
Qed.

Lemma rows_loop_rows n xn ch w src dst e :
  uint 64 src → uint 64 dst →
  let ps := pitch (Z.of_nat xn) (src_xic ch) (src_yic ch) in
  let pd := pitch (Z.of_nat xn) (dst_xic ch) (dst_yic ch) in
  rows_loop n xn ch w src dst e =
  (u64 (src + Z.of_nat n * ps), u64 (dst + Z.of_nat n * pd),
   move_cells ch w w (rows ch (Z.of_nat xn) src dst (Z.of_nat n)) e).
Proof.
  cbv zeta. revert src dst e. induction n as [|n IH]; intros src dst e Hs Hd.
  { cbn. by rewrite !Z.add_0_r, !wrap_small. }
  cbn [rows_loop]. rewrite row_loop_strip by done. rewrite !u64_u64_add, IH by solve_uint.
  rewrite Nat2Z.inj_succ, rows_S, move_cells_app by lia. rewrite !u64_u64_add. unfold pitch.
  f_equal; [f_equal; f_equal; unfold Z.succ; ring|]. do 2 f_equal; unfold pitch; f_equal; ring.
Qed.

Lemma rectangle_rows ch :
  rectangle ch = rows ch (xcount ch) (src_addr ch) (dst_addr ch) (ycount ch).
Proof. done. Qed.

(** ** A channel *)

Definition moved (ch : BL808DMA2DChannel) : Z * Z :=
  if two_d ch
  then (src_addr ch + ycount ch * pitch (xcount ch) (src_xic ch) (src_yic ch),
        dst_addr ch + ycount ch * pitch (xcount ch) (dst_xic ch) (dst_yic ch))
  else (src_addr ch + items ch * src_step ch, dst_addr ch + items ch * dst_step ch).

(** The registers of a channel after its transfer. *)
Definition finish (ch : BL808DMA2DChannel) : BL808DMA2DChannel :=
  mk_channel2d (u32 (moved ch).1) (u32 (moved ch).2) (lli ch) (bus ch) (src_cnt ch) (src_xic ch) (src_yic ch)
    (dst_cnt ch) (dst_xic ch) (dst_yic ch) (key ch) (key_en ch)
    (Z.lor (clr (clr (cfg ch) DMA2D_FIFO_EMPTY) DMA2D_CH_EN) DMA2D_FIFO_EMPTY) false.

(** The end of a transfer is reported when the channel asks for it. *)
Definition report (s : BL808DMA2DState) (c : Z) (ch : BL808DMA2DChannel) : BL808DMA2DState :=
  if tst (bus ch) DMA2D_I
  then s <| int_tc_status := Z.lor (int_tc_status s) (BIT c) |> <| int_status := Z.lor (int_status s) (BIT c) |>
  else s.

Definition ready (s : BL808DMA2DState) (c : Z) : bool :=
  bl808_dma2d_active s && tst (global_cfg s) DMA2D_E && tst (cfg (chan s c)) DMA2D_CH_EN.

Definition has (s : BL808DMA2DState) (c : Z) : Prop := 0 ≤ c < Z.of_nat (length (channels s)).

Lemma dma2d_chan_eq s c ch : has s c → chan (set_chan s c ch) c = ch.
Proof. intros. by apply aget_aset_eq. Qed.

Lemma dma2d_chan_ne s c i ch : 0 ≤ c → 0 ≤ i → c ≠ i → chan (set_chan s c ch) i = chan s i.
Proof. intros. by apply aget_aset_ne. Qed.

Lemma dma2d_set_twice s c ch ch' : set_chan (set_chan s c ch) c ch' = set_chan s c ch'.
Proof. unfold set_chan, aset. cbn. by rewrite list_insert_insert_eq. Qed.

Lemma dma2d_has_set s c i ch : has s c → has (set_chan s i ch) c.
Proof. unfold has, set_chan. cbn. by rewrite aset_length. Qed.

Lemma complete_report s c ch : has s c →
  bl808_dma2d_complete_channel (set_chan s c ch) c =
  report (set_chan s c (ch <| active := false |> <| cfg := Z.lor (clr (cfg ch) DMA2D_CH_EN) DMA2D_FIFO_EMPTY |>)) c ch.
Proof.
  intros Hc. unfold bl808_dma2d_complete_channel. cbv zeta. rewrite dma2d_chan_eq by done.
  rewrite dma2d_set_twice. done.
Qed.

Lemma land_ones_bound x n : 0 ≤ n → 0 ≤ Z.land x (Z.ones n).
Proof. intros. rewrite Z.land_ones by done. apply Z.mod_pos_bound. lia. Qed.

Lemma cfg_two_d ch c : two_d (ch <| active := true |> <| cfg := clr c DMA2D_FIFO_EMPTY |>) = two_d (ch <| cfg := c |>).
Proof. unfold two_d. change DMA2D_REG_2D_EN with (BIT 31). rewrite !tst_BIT by lia. cbn. by rewrite clr_spec, andb_true_r by lia. Qed.

Lemma run_2d_cells s c e : has s c → two_d (chan s c) = true →
  uint 32 (src_addr (chan s c)) → uint 32 (dst_addr (chan s c)) →
  let ch := chan s c in
  bl808_dma2d_run_2d s c e =
  (bl808_dma2d_complete_channel (set_chan s c (ch <| src_addr := u32 (moved ch).1 |> <| dst_addr := u32 (moved ch).2 |>)) c,
   move_cells ch (sw ch) (dw ch) (plan ch) e).
Proof.
  intros Hc H2 Hs Hd. cbv zeta. unfold bl808_dma2d_run_2d. cbv zeta. fold (xcount (chan s c)) (ycount (chan s c)).
  assert (0 ≤ xcount (chan s c)) by (apply (land_ones_bound _ 16); lia).
  assert (0 ≤ ycount (chan s c)) by (apply (land_ones_bound _ 16); lia).
  rewrite rows_loop_rows by (eapply uint_weaken; [done|lia]). rewrite !Z2Nat.id by done. rewrite !u32_u64.
  unfold moved, dw, plan. rewrite H2, rectangle_rows. done.
Qed.

Lemma run_linear_cells s c e : has s c → two_d (chan s c) = false →
  uint 32 (src_addr (chan s c)) → uint 32 (dst_addr (chan s c)) →
  let ch := chan s c in
  bl808_dma2d_run_linear s c e =
  (bl808_dma2d_complete_channel (set_chan s c (ch <| src_addr := u32 (moved ch).1 |> <| dst_addr := u32 (moved ch).2 |>)) c,
   move_cells ch (sw ch) (dw ch) (plan ch) e).
Proof.
  intros Hc H2 Hs Hd. cbv zeta. unfold bl808_dma2d_run_linear. cbv zeta. fold (items (chan s c)).
  assert (0 ≤ items (chan s c)) by (apply (land_ones_bound _ 12); lia).
  rewrite linear_loop_strip by (eapply uint_weaken; [done|lia]). rewrite !Z2Nat.id by done. rewrite !u32_u64.
  unfold moved, dw, plan. rewrite H2. done.
Qed.

(** A channel that may run visits its plan and finishes; another is left as it is. *)
Lemma run_channel_cells s c e : has s c → ready s c = true →
  uint 32 (src_addr (chan s c)) → uint 32 (dst_addr (chan s c)) →
  let ch := chan s c in
  bl808_dma2d_run_channel s c e = (report (set_chan s c (finish ch)) c ch, move_cells ch (sw ch) (dw ch) (plan ch) e, true).
Proof.
  intros Hc [[Ha Hg]%andb_true_iff He]%andb_true_iff Hs Hd. cbv zeta. unfold bl808_dma2d_run_channel.
  rewrite Ha, Hg, He. cbv zeta. cbn [negb orb]. rewrite dma2d_chan_eq by done.
  set (ch1 := (chan s c) <| active := true |> <| cfg := clr (cfg (chan s c)) DMA2D_FIFO_EMPTY |>).
  assert (chan (set_chan s c ch1) c = ch1) as E1 by by apply dma2d_chan_eq.
  assert (two_d ch1 = two_d (chan s c)) as E2 by (unfold ch1; by rewrite cfg_two_d).
  assert (move_cells ch1 (sw ch1) (dw ch1) (plan ch1) e = move_cells (chan s c) (sw (chan s c)) (dw (chan s c)) (plan (chan s c)) e) as E3.
  { unfold dw, plan. by rewrite E2. }
  assert (moved ch1 = moved (chan s c)) as E4 by (unfold moved; by rewrite E2).
  fold (two_d ch1). destruct (two_d ch1) eqn:Et.
  - rewrite run_2d_cells; rewrite ?E1; try done; [|by apply dma2d_has_set].
    rewrite dma2d_set_twice, complete_report, E3, E4 by done. done.
  - rewrite run_linear_cells; rewrite ?E1; try done; [|by apply dma2d_has_set].
    rewrite dma2d_set_twice, complete_report, E3, E4 by done. done.
Qed.

Lemma run_channel_idle s c e : ready s c = false →
  bl808_dma2d_run_channel s c e = (set_chan s c ((chan s c) <| active := false |>), e, false).
Proof.
  unfold ready, bl808_dma2d_run_channel. intros Hr.
  destruct (bl808_dma2d_active s); [|done]. destruct (tst (global_cfg s) DMA2D_E); [|done].
  destruct (tst _ DMA2D_CH_EN); done.
Qed.

(** ** The bottom half *)

Record wf (s : BL808DMA2DState) : Prop := {
  wf_len : length (channels s) = 2%nat;
  wf_addr c : 0 ≤ c < 2 → uint 32 (src_addr (chan s c)) ∧ uint 32 (dst_addr (chan s c));
}.

Definition ended (s : BL808DMA2DState) (c : Z) : BL808DMA2DChannel :=
  if ready s c then finish (chan s c) else (chan s c) <| active := false |>.
Definition run_one (s : BL808DMA2DState) (c : Z) : BL808DMA2DState :=
  let s' := set_chan s c (ended s c) in if ready s c then report s' c (chan s c) else s'.

Definition run_cells (s : BL808DMA2DState) (c : Z) (e : E) : E :=
  let ch := chan s c in if ready s c then move_cells ch (sw ch) (dw ch) (plan ch) e else e.

Lemma wf_has s c : wf s → 0 ≤ c < 2 → has s c.
Proof. intros [Hl _] ?. unfold has. lia. Qed.

Lemma run_channel_one s c e : wf s → 0 ≤ c < 2 →
  bl808_dma2d_run_channel s c e = (run_one s c, run_cells s c e, ready s c).
Proof.
  intros Hwf Hc. pose proof (wf_has s c Hwf Hc) as Hh. destruct (wf_addr s Hwf c Hc) as [Hs Hd].
  unfold run_one, ended, run_cells. destruct (ready s c) eqn:Er.
  - by rewrite run_channel_cells.
  - by rewrite run_channel_idle.
Qed.

Lemma run_one_frame s c : ∃ l st tc, run_one s c = s <| channels := l |> <| int_tc_status := tc |> <| int_status := st |>.
Proof.
  exists (aset (channels s) c (ended s c)).
  unfold run_one, report. destruct (ready s c); [destruct (tst (bus (chan s c)) DMA2D_I)|].
  - eexists _, _. reflexivity.
  - exists (int_status s), (int_tc_status s). by destruct s.
  - exists (int_status s), (int_tc_status s). by destruct s.
Qed.

Lemma run_one_channels s c : channels (run_one s c) = aset (channels s) c (ended s c).
Proof. unfold run_one, report. destruct (ready s c); [destruct (tst (bus (chan s c)) DMA2D_I)|]; done. Qed.

Lemma run_one_chan s c i : has s c → 0 ≤ i → chan (run_one s c) i = if decide (i = c) then ended s c else chan s i.
Proof.
  intros Hc Hi. unfold chan. rewrite run_one_channels. case_decide as Eq.
  - subst. by apply aget_aset_eq.
  - apply aget_aset_ne; unfold has in Hc; lia.
Qed.

Lemma run_one_status s c : int_status (run_one s c) =
  if ready s c && tst (bus (chan s c)) DMA2D_I then Z.lor (int_status s) (BIT c) else int_status s.
Proof. unfold run_one, report. destruct (ready s c), (tst (bus (chan s c)) DMA2D_I); done. Qed.

Lemma ready_ne s c i : has s c → 0 ≤ i → i ≠ c → ready (run_one s c) i = ready s i.
Proof.
  intros Hc Hi Hne. unfold ready. rewrite run_one_chan, decide_False by done.
  by destruct (run_one_frame s c) as (? & ? & ? & ->).
Qed.

Lemma finish_addr ch : uint 32 (src_addr (finish ch)) ∧ uint 32 (dst_addr (finish ch)).
Proof. split; apply uint_wrap; lia. Qed.

Lemma wf_run_one s c : wf s → 0 ≤ c < 2 → wf (run_one s c).
Proof.
  intros Hwf Hc. pose proof (wf_has s c Hwf Hc) as Hh. split.
  - rewrite run_one_channels, aset_length. by apply wf_len.
  - intros i Hi. rewrite run_one_chan by (done || lia). destruct (decide (i = c)) as [_|Hne]; [|by apply (wf_addr s)].
    unfold ended. destruct (ready s c); [apply finish_addr|]. by apply (wf_addr s Hwf c).
Qed.

(** The bottom half runs the two channels in order. *)
Definition after_bh (s : BL808DMA2DState) : BL808DMA2DState :=
  bl808_dma2d_update_irq (run_one (run_one (s <| run_bh := false |> <| run_scheduled := false |>) 0) 1).

Lemma bh_after s e : wf s → bl808_dma2d_run_bh s e = (after_bh s, run_cells s 1 (run_cells s 0 e)).
Proof.
  intros Hwf. unfold bl808_dma2d_run_bh, after_bh. cbv zeta. cbn [chnos foldl].
  set (s0 := s <| run_bh := false |> <| run_scheduled := false |>).
  assert (wf s0) as Hwf0 by (destruct Hwf; by split).
  rewrite run_channel_one by (done || lia). pose proof (wf_has s0 0 Hwf0 ltac:(lia)) as Hh.
  rewrite run_channel_one by (lia || by apply wf_run_one).
  unfold run_cells at 1. rewrite ready_ne, run_one_chan by (done || lia). done.
Qed.

Lemma after_bh_chan s c : wf s → 0 ≤ c < 2 → chan (after_bh s) c = ended s c.
Proof.
  intros Hwf Hc. unfold after_bh. set (s0 := s <| run_bh := false |> <| run_scheduled := false |>).
  assert (wf s0) as Hwf0 by (destruct Hwf; by split).
  pose proof (wf_has s0 0 Hwf0 ltac:(lia)) as H0.
  pose proof (wf_has _ 1 (wf_run_one s0 0 Hwf0 ltac:(lia)) ltac:(lia)) as H1.
  change (chan (bl808_dma2d_update_irq (run_one (run_one s0 0) 1)) c) with (chan (run_one (run_one s0 0) 1) c).
  rewrite run_one_chan by (done || lia). case_decide as Eq.
  - subst c. unfold ended. rewrite ready_ne, !run_one_chan, decide_False by (done || lia). done.
  - assert (c = 0) as -> by lia. by rewrite run_one_chan by done.
Qed.

Lemma update_lines s c : 0 ≤ c < 2 →
  irq (bl808_dma2d_update_irq s) !! Z.to_nat c = Some (bl808_dma2d_active s && Z.testbit (int_status s) c).
Proof. intros Hc. cbn -[BIT tst]. rewrite !tst_BIT by lia. by assert (c = 0 ∨ c = 1) as [->| ->] by lia. Qed.

Lemma after_bh_lines s c : 0 ≤ c < 2 →
  irq (after_bh s) !! Z.to_nat c = Some (bl808_dma2d_active s && Z.testbit (int_status (after_bh s)) c).
Proof.
  intros Hc. unfold after_bh. rewrite update_lines by done. do 2 f_equal.
  destruct (run_one_frame (run_one (s <| run_bh := false |> <| run_scheduled := false |>) 0) 1) as (? & ? & ? & ->).
  by destruct (run_one_frame (s <| run_bh := false |> <| run_scheduled := false |>) 0) as (? & ? & ? & ->).
Qed.

Lemma after_bh_status s c : wf s → 0 ≤ c < 2 →
  Z.testbit (int_status (after_bh s)) c = Z.testbit (int_status s) c || (ready s c && tst (bus (chan s c)) DMA2D_I).
Proof.
  intros Hwf Hc. unfold after_bh. set (s0 := s <| run_bh := false |> <| run_scheduled := false |>).
  assert (wf s0) as Hwf0 by (destruct Hwf; by split).
  pose proof (wf_has s0 0 Hwf0 ltac:(lia)) as H0.
  change (int_status (bl808_dma2d_update_irq (run_one (run_one s0 0) 1))) with (int_status (run_one (run_one s0 0) 1)).
  rewrite !run_one_status, ready_ne, run_one_chan, decide_False by (done || lia).
  change (ready s0) with (ready s). change (chan s0) with (chan s). change (int_status s0) with (int_status s).
  assert (c = 0 ∨ c = 1) as [->| ->] by lia; split_ifs; rewrite ?Z.lor_spec, ?BIT_spec by lia; cbn;
    by rewrite ?orb_false_r, ?orb_true_r.
Qed.

End loops.

(** ** Memory *)

Section memory.
Context {E : Type} `{!PhysMem E} `{R : !Ram (E := E)}.

Definition value_at (m : mem) (a w : Z) : Z := le_to_cpu (m <$> seqZ a w).

Definition blit_cell (ch : BL808DMA2DChannel) (m : mem) (cell : Z * Z) : mem :=
  if decide (matches ch (value_at m cell.1 (sw ch))) then m else copy_item cell.1 cell.2 (sw ch) (dw ch) m.

(** The reference: the cells of the plan in order. *)
Definition blit (ch : BL808DMA2DChannel) (cells : list (Z * Z)) (m : mem) : mem := foldl (blit_cell ch) m cells.

Definition cells_ram (ch : BL808DMA2DChannel) : Prop :=
  Forall (λ cell, ram_range cell.1 (sw ch) ∧ ram_range cell.2 (dw ch)) (plan ch).

Lemma width_bytes_width b d : width (bl808_dma2d_width_bytes b d).
Proof. unfold bl808_dma2d_width_bytes, width. cbv zeta. split_ifs; naive_solver. Qed.

Lemma dw_width ch : width (dw ch).
Proof. unfold dw. destruct (two_d ch); apply width_bytes_width. Qed.

Lemma value_at_equiv m m' a w : m ≡ m' → value_at m a w = value_at m' a w.
Proof. intros H. unfold value_at. f_equal. apply list_fmap_ext. intros i x _. apply H. Qed.

#[export] Instance blit_cell_proper ch : Proper ((≡) ==> (=) ==> (≡)) (blit_cell ch).
Proof.
  intros m m' H cell ? <-. unfold blit_cell. rewrite (value_at_equiv m m') by done.
  case_decide; [done|]. by apply copy_item_proper.
Qed.

#[export] Instance blit_proper ch cells : Proper ((≡) ==> (≡)) (blit ch cells).
Proof.
  unfold blit. induction cells as [|cell cells IH]; intros m m' H; [done|]. cbn. apply IH. by rewrite H.
Qed.

Lemma move_cell_ram ch cell e :
  ram_range cell.1 (sw ch) → ram_range cell.2 (dw ch) →
  ram (move_cell ch cell.1 cell.2 (sw ch) (dw ch) e) ≡ blit_cell ch (ram e) cell.
Proof.
  intros Ha Hb.
  pose proof (copy_item_ram cell.1 cell.2 _ _ e (width_bytes_width (bus ch) false) (dw_width ch) Ha Hb) as Hi.
  fold (sw ch) in Hi. unfold move_cell.
  change (bl808_dma2d_read_mem cell.1 (sw ch) e) with (BL808DMA.bl808_dma_read_mem_value cell.1 (sw ch) e).
  pose proof (read_mem_ram cell.1 (sw ch) e (width_bytes_width _ _) Ha) as Hr.
  rewrite Hr in Hi |- *. fold (value_at (ram e) cell.1 (sw ch)) in *. rewrite color_key_spec. unfold blit_cell.
  case_bool_decide; cbn [negb]; [by rewrite decide_True|]. rewrite decide_False by done. exact Hi.
Qed.

Lemma move_cells_ram ch cells e :
  Forall (λ cell, ram_range cell.1 (sw ch) ∧ ram_range cell.2 (dw ch)) cells →
  ram (move_cells ch (sw ch) (dw ch) cells e) ≡ blit ch cells (ram e).
Proof.
  intros Hf. revert e. induction Hf as [|[a b] cells [Ha Hb] Hf IH]; intros e; [done|].
  unfold move_cells, blit in *. cbn [foldl]. rewrite IH. apply (blit_proper ch cells).
  by apply (move_cell_ram ch (a, b)).
Qed.

(** *** Cells that do not disturb each other *)

Definition apart (a n b m : Z) : Prop := a + n ≤ b ∨ b + m ≤ a.

(** What a cell is filled with is not read or filled by a later one. *)
Fixpoint clear (ws wd : Z) (cells : list (Z * Z)) : Prop :=
  match cells with
  | [] => True
  | (_, b) :: cells => Forall (λ c', apart b wd c'.1 ws ∧ apart b wd c'.2 wd) cells ∧ clear ws wd cells
  end.

#[export] Instance apart_dec a n b m : Decision (apart a n b m).
Proof. unfold apart. apply _. Defined.
#[export] Instance clear_dec ws wd cells : Decision (clear ws wd cells).
Proof. induction cells as [|[a b] cells IH]; cbn [clear]; apply _. Defined.

Definition fits (a n x : Z) : Prop := a ≤ x < a + n.

Lemma blit_cell_at ch m cell x :
  blit_cell ch m cell x =
  if decide (fits cell.2 (dw ch) x ∧ ¬ matches ch (value_at m cell.1 (sw ch)))
  then (if decide (x - cell.2 < sw ch) then m (cell.1 + (x - cell.2)) else 0) else m x.
Proof.
  unfold blit_cell, copy_item, fits. destruct (decide (matches _ _)).
  - by rewrite decide_False by naive_solver.
  - repeat (case_decide; try done); exfalso; naive_solver.
Qed.

Lemma blit_outside ch cells m x : Forall (λ cell, ¬ fits cell.2 (dw ch) x) cells → blit ch cells m x = m x.
Proof.
  intros Hf. revert m. induction Hf as [|cell cells Hc Hf IH]; intros m; [done|].
  unfold blit in *. cbn [foldl]. rewrite IH, blit_cell_at, decide_False by naive_solver. done.
Qed.

Lemma value_at_ext m m' a w : (∀ x, fits a w x → m x = m' x) → value_at m a w = value_at m' a w.
Proof.
  intros H. unfold value_at. f_equal. apply list_fmap_ext. intros i x Hx%list_elem_of_lookup_2.
  apply H. apply elem_of_seqZ in Hx. unfold fits. lia.
Qed.

Lemma blit_clear ch cells m a b k :
  clear (sw ch) (dw ch) cells → (a, b) ∈ cells → 0 ≤ k < dw ch →
  blit ch cells m (b + k) =
  if decide (matches ch (value_at m a (sw ch))) then m (b + k) else if decide (k < sw ch) then m (a + k) else 0.
Proof.
  revert m. induction cells as [|[a0 b0] cells IH]; intros m Hcl Hin Hk; [by apply elem_of_nil in Hin|].
  destruct Hcl as [Hf Hcl]. change (blit ch ((a0, b0) :: cells) m) with (blit ch cells (blit_cell ch m (a0, b0))).
  apply elem_of_cons in Hin as [[= -> ->]|Hin].
  - rewrite (blit_outside ch cells); [|].
    2: { eapply Forall_impl; [exact Hf|]. intros cell [_ Hap]. unfold apart, fits in *. lia. }
    rewrite blit_cell_at. cbn [fst snd]. replace (b0 + k - b0) with k by lia.
    destruct (decide (matches _ _)); [by rewrite decide_False by naive_solver|].
    rewrite decide_True by (unfold fits; naive_solver lia). done.
  - rewrite IH by done. pose proof (proj1 (Forall_forall _ _) Hf _ Hin) as [Hs Hd]. cbn [fst snd] in Hs, Hd.
    unfold apart in Hs, Hd.
    assert (∀ x, ¬ fits b0 (dw ch) x → blit_cell ch m (a0, b0) x = m x) as Hout.
    { intros x Hx. rewrite blit_cell_at, decide_False by naive_solver. done. }
    rewrite (value_at_ext (blit_cell ch m (a0, b0)) m a).
    2: { intros x Hx. apply Hout. unfold fits in *. lia. }
    rewrite (Hout (b + k)) by (unfold fits; lia).
    repeat (case_decide; try done). apply Hout. unfold fits. lia.
Qed.

Definition run_mem (s : BL808DMA2DState) (c : Z) (m : mem) : mem :=
  if ready s c then blit (chan s c) (plan (chan s c)) m else m.

#[export] Instance run_mem_proper s c : Proper ((≡) ==> (≡)) (run_mem s c).
Proof. intros m m' H. unfold run_mem. destruct (ready s c); [by apply blit_proper|done]. Qed.

Lemma run_cells_ram s c e : (ready s c = true → cells_ram (chan s c)) → ram (run_cells s c e) ≡ run_mem s c (ram e).
Proof. unfold run_cells, run_mem. intros Hr. destruct (ready s c); [|done]. by apply move_cells_ram, Hr. Qed.

Lemma bh_ram s e : wf s → (∀ c, 0 ≤ c < 2 → ready s c = true → cells_ram (chan s c)) →
  ram (bl808_dma2d_run_bh s e).2 ≡ run_mem s 1 (run_mem s 0 (ram e)).
Proof.
  intros Hwf Hr. rewrite bh_after by done. cbn [snd].
  rewrite run_cells_ram by (apply Hr; lia). apply run_mem_proper, run_cells_ram, Hr. lia.
Qed.

(** One run of the bottom half moves, channel after channel, the cells
    of every channel that is enabled, exactly as the reference [blit] does: items or
    the cells of a rectangle in order, those that match the colour key left out.  A
    channel that ran is disabled and its interrupt line is high if it asked for it. *)
Theorem dma2d_bh_blits s e :
  wf s → (∀ c, 0 ≤ c < 2 → ready s c = true → cells_ram (chan s c)) →
  let '(s', e') := bl808_dma2d_run_bh s e in
  ram e' ≡ run_mem s 1 (run_mem s 0 (ram e)) ∧
  ∀ c, 0 ≤ c < 2 →
    chan s' c = ended s c ∧
    irq s' !! Z.to_nat c =
      Some (bl808_dma2d_active s && (Z.testbit (int_status s) c || (ready s c && tst (bus (chan s c)) DMA2D_I))).
Proof.
  intros Hwf Hr. pose proof (bh_ram s e Hwf Hr) as Hm. rewrite (bh_after s e Hwf) in *. split; [exact Hm|].
  intros c Hc. split; [by apply after_bh_chan|]. rewrite <- (after_bh_status s c Hwf Hc).
  apply after_bh_lines. done.
Qed.

(** C25: when one channel is ready and the other is not, a rectangle whose
    destination cells overlap neither each other nor a source cell is copied by
    the bottom half, cell by cell: cell [(x, y)] of the destination holds
    the source cell [(x, y)], unless that matched the colour key, and then it is
    unchanged, like every byte outside the destination. *)
Theorem dma2d_copies_rectangle s e c :
  wf s → 0 ≤ c < 2 → ready s c = true → ready s (1 - c) = false → two_d (chan s c) = true →
  cells_ram (chan s c) → clear (sw (chan s c)) (sw (chan s c)) (rectangle (chan s c)) →
  let ch := chan s c in
  let w := sw ch in
  let e' := (bl808_dma2d_run_bh s e).2 in
  (∀ x y k, 0 ≤ x < xcount ch → 0 ≤ y < ycount ch → 0 ≤ k < w →
    ram e' (cell_dst ch x y + k) =
    if decide (matches ch (value_at (ram e) (cell_src ch x y) w))
    then ram e (cell_dst ch x y + k) else ram e (cell_src ch x y + k)) ∧
  (∀ a, (∀ x y, 0 ≤ x < xcount ch → 0 ≤ y < ycount ch → ¬ fits (cell_dst ch x y) w a) → ram e' a = ram e a).
Proof.
  intros Hwf Hc Hr Hr' H2 Hram Hcl ch w e'.
  assert (ram e' ≡ blit ch (rectangle ch) (ram e)) as He.
  { unfold e'. rewrite bh_ram; [|done|].
    - unfold run_mem, plan, ch in *.
      assert (c = 0 ∨ c = 1) as [->| ->] by lia; [change (1 - 0) with 1 in Hr'|change (1 - 1) with 0 in Hr'];
        by rewrite Hr, Hr', H2.
    - intros i Hi Hri. destruct (decide (i = c)) as [->|Hne]; [done|].
      replace i with (1 - c) in Hri by lia. congruence. }
  assert (dw ch = w) as Hw by (unfold dw, ch; by rewrite H2).
  assert (∀ x y, 0 ≤ x < xcount ch → 0 ≤ y < ycount ch → (cell_src ch x y, cell_dst ch x y) ∈ rectangle ch) as Hin.
  { intros x y Hx Hy. unfold rectangle. apply list_elem_of_bind. exists y. split; [|apply elem_of_seqZ; lia].
    apply list_elem_of_fmap. exists x. split; [done|apply elem_of_seqZ; lia]. }
  split.
  - intros x y k Hx Hy Hk. rewrite (He _).
    assert (clear (sw ch) (dw ch) (rectangle ch)) as Hcl' by (rewrite Hw; exact Hcl).
    rewrite (blit_clear ch _ (ram e) _ _ k Hcl' (Hin x y Hx Hy)) by (rewrite Hw; exact Hk).
    unfold w in Hk |- *. rewrite (decide_True (P := k < sw ch)) by lia. reflexivity.
  - intros a Ha. rewrite (He _), blit_outside; [done|]. apply Forall_forall. intros cell Hcell.
    apply list_elem_of_bind in Hcell as (y & Hy & Hyin). apply list_elem_of_fmap in Hy as (x & -> & Hx).
    apply elem_of_seqZ in Hx, Hyin. rewrite Hw. apply Ha; lia.
Qed.

End memory.

(** ** The device in use *)

Inductive d2_op :=
  | D2Write (offset value size : Z)
  | D2Bh
  | D2Clock (enabled : bool)
  | D2Reset (asserted : bool)
  | D2ColdReset.

Section run.
Context {E : Type} `{!PhysMem E} `{!ColdReset bl808_dma2d_reset}.

(** The emulator runs the bottom half only when it is scheduled. *)
Definition d2_step (se : BL808DMA2DState * E) (op : d2_op) : BL808DMA2DState * E :=
  let '(s, e) := se in
  match op with
  | D2Write offset value size => (bl808_dma2d_write s offset value size, e)
  | D2Bh => if run_bh s then bl808_dma2d_run_bh s e else (s, e)
  | D2Clock b => (bl808_dma2d_set_clock_enabled s b, e)
  | D2Reset b => (bl808_dma2d_set_reset_asserted s b, e)
  | D2ColdReset => (device_cold_reset s, e)
  end.

Definition d2_run (se : BL808DMA2DState * E) (ops : list d2_op) : BL808DMA2DState * E := foldl d2_step se ops.
End run.

(** The object before its first use: allocated zeroed, lines low. *)
Definition d2_object : BL808DMA2DState :=
  bl808_dma2d_init (mk_dma2d [false; false] false (replicate 2 zero_channel) 0 0 0 0 0 0 0 0 0 false false false).

Definition lines_follow (s : BL808DMA2DState) : Prop :=
  ∀ c, 0 ≤ c < 2 → irq s !! Z.to_nat c = Some (bl808_dma2d_active s && Z.testbit (int_status s) c).
Definition pending (s : BL808DMA2DState) : Prop := ∀ c, 0 ≤ c < 2 → ready s c = true → run_bh s = true.

(** The invariant without its clause on lines. *)
Record quiet_inv (s : BL808DMA2DState) : Prop := {
  qi_wf : wf s;
  qi_sched : run_scheduled s = run_bh s;
  qi_status : uint 2 (int_status s);
  qi_tc : int_tc_status s = int_status s;
}.

Record d2_inv (s : BL808DMA2DState) : Prop := {
  di_quiet : quiet_inv s;
  di_lines : lines_follow s;
  di_pending : pending s;
}.

Lemma enabled_spec s c : 0 ≤ c < 2 → tst (cfg (chan s c)) DMA2D_CH_EN = true → bl808_dma2d_enabled_channels s ≠ 0.
Proof.
  intros Hc He H0. apply (f_equal (λ z, Z.testbit z c)) in H0. rewrite Z.bits_0 in H0. revert H0.
  unfold bl808_dma2d_enabled_channels. cbn [chnos foldl].
  assert (c = 0 ∨ c = 1) as [->| ->] by lia; rewrite He; split_ifs; by rewrite ?Z.lor_spec, ?BIT_spec by lia.
Qed.

Lemma schedule_frame s : ∃ b b', bl808_dma2d_schedule s = s <| run_scheduled := b |> <| run_bh := b' |>.
Proof.
  unfold bl808_dma2d_schedule. destruct (_ && _); [by eexists _, _|].
  exists (run_scheduled s), (run_bh s). by destruct s.
Qed.

Lemma schedule_pending s : run_scheduled s = run_bh s → pending (bl808_dma2d_schedule s).
Proof.
  intros Hsch c Hc Hr. assert (ready s c = true) as Hr'.
  { by destruct (schedule_frame s) as (? & ? & E); rewrite E in Hr. }
  unfold ready in Hr'. apply andb_true_iff in Hr' as [[Ha Hg]%andb_true_iff He].
  pose proof (enabled_spec s c Hc He) as Hn. unfold bl808_dma2d_schedule.
  rewrite Ha, Hg, (proj2 (Z.eqb_neq _ _) Hn). destruct (run_scheduled s) eqn:Es; [exact (eq_sym Hsch)|done].
Qed.

Lemma schedule_sched s : run_scheduled s = run_bh s →
  run_scheduled (bl808_dma2d_schedule s) = run_bh (bl808_dma2d_schedule s).
Proof. intros. unfold bl808_dma2d_schedule. by destruct (_ && _). Qed.

Lemma schedule_quiet s : quiet_inv s → quiet_inv (bl808_dma2d_schedule s).
Proof.
  intros [[] H ? ?]. apply schedule_sched in H. destruct (schedule_frame s) as (? & ? & E). rewrite E in *. by split.
Qed.

Lemma schedule_inv s : quiet_inv s → lines_follow s → d2_inv (bl808_dma2d_schedule s).
Proof.
  intros Hq Hl. split; [by apply schedule_quiet| |by apply schedule_pending, Hq].
  by destruct (schedule_frame s) as (? & ? & ->).
Qed.

Lemma update_inv s : quiet_inv s → pending s → d2_inv (bl808_dma2d_update_irq s).
Proof. intros [[] ? ? ?] Hp. split; [by split| |exact Hp]. intros c Hc. by rewrite update_lines. Qed.

(** Writes of a channel register leave the rest. *)
Lemma set_chan_quiet s i ch : quiet_inv s → 0 ≤ i < 2 → uint 32 (src_addr ch) → uint 32 (dst_addr ch) →
  quiet_inv (set_chan s i ch).
Proof.
  intros [Hw ? ? ?] Hi ? ?. split; [|done..]. pose proof (wf_has s i Hw Hi). split.
  - unfold set_chan. cbn. rewrite aset_length. by apply wf_len.
  - intros c Hc. destruct (decide (c = i)) as [->|Hne]; [by rewrite dma2d_chan_eq|].
    rewrite dma2d_chan_ne by lia. by apply (wf_addr s).
Qed.

Lemma set_chan_inv s i ch : d2_inv s → 0 ≤ i < 2 → uint 32 (src_addr ch) → uint 32 (dst_addr ch) →
  cfg ch = cfg (chan s i) → d2_inv (set_chan s i ch).
Proof.
  intros [Hq Hl Hp] Hi Hs Hd He. split; [by apply set_chan_quiet|exact Hl|].
  intros c Hc Hr. apply (Hp c Hc). revert Hr. unfold ready.
  destruct (decide (c = i)) as [->|Hne].
  - rewrite dma2d_chan_eq, He; [done|]. apply wf_has; [apply Hq|done].
  - by rewrite dma2d_chan_ne by lia.
Qed.

(** A write that changes none of the fields the invariant names. *)
Lemma dma2d_inv_frame s s' : d2_inv s →
  channels s' = channels s → irq s' = irq s → int_status s' = int_status s → int_tc_status s' = int_tc_status s →
  global_cfg s' = global_cfg s → run_bh s' = run_bh s → run_scheduled s' = run_scheduled s →
  clock_enabled s' = clock_enabled s → reset_asserted s' = reset_asserted s → d2_inv s'.
Proof. intros. destruct s, s'; cbn in *; subst. destruct H as [[[] ? ? ?] ? ?]. by split. Qed.

Lemma in_channels_range off : in_channels off = true → 0 ≤ (off - DMA2D_CH_BASE) / DMA2D_CH_STRIDE < 2.
Proof.
  unfold in_channels, DMA2D_CH_BASE, DMA2D_CH_STRIDE, BL808_DMA2D_CHANNELS.
  intros [H1%Z.leb_le H2%Z.ltb_lt]%andb_true_iff. split; [apply Z.div_pos|apply Z.div_lt_upper_bound]; lia.
Qed.

Lemma dma2d_write_inv s off v sz : d2_inv s → d2_inv (bl808_dma2d_write s off v sz).
Proof.
  intros Hi. pose proof (di_quiet s Hi) as Hq. pose proof (di_lines s Hi) as Hl. unfold bl808_dma2d_write. cbv zeta.
  destruct (sz =? 4); [|done]. destruct (reset_asserted s); [done|]. cbn [negb].
  destruct (off =? DMA2D_INTTCCLEAR).
  { apply update_inv; [|exact (di_pending s Hi)]. destruct Hq as [Hw Hs Hst Htc].
    split; [by destruct Hw|done|by apply uint_clr|]. cbn. by rewrite Htc. }
  destruct (off =? DMA2D_CONFIG); [apply schedule_inv; [by destruct Hq as [[] ? ? ?]|exact Hl]|].
  do 6 (match goal with |- d2_inv (if ?b then _ else _) => destruct b end; [by apply (dma2d_inv_frame s)|]).
  destruct (in_channels off) eqn:Ein; [|done]. cbn [negb]. apply in_channels_range in Ein.
  set (c := (off - DMA2D_CH_BASE) / DMA2D_CH_STRIDE) in *. clearbody c.
  set (o := (off - DMA2D_CH_BASE) mod DMA2D_CH_STRIDE). clearbody o.
  destruct (wf_addr s (qi_wf s Hq) c Ein) as [Hs Hd]. assert (uint 32 (u32 v)) as Hv by (apply uint_wrap; lia).
  do 12 (match goal with |- d2_inv (if ?b then _ else _) => destruct b end; [by apply set_chan_inv|]).
  destruct (o =? DMA2D_C_CFG); [|done].
  apply schedule_inv; [|exact Hl]. split_ifs; by apply set_chan_quiet.
Qed.

Lemma object_inv s : irq s = [false; false] → length (channels s) = 2%nat → int_status s = 0 → int_tc_status s = 0 →
  (∀ c, 0 ≤ c < 2 → src_addr (chan s c) = 0 ∧ dst_addr (chan s c) = 0) →
  (∀ c, 0 ≤ c < 2 → tst (cfg (chan s c)) DMA2D_CH_EN = false) → run_scheduled s = run_bh s → d2_inv s.
Proof.
  intros Hirq Hlen Hst Htc Ha Hc Hsch. split; [split|..].
  - split; [done|]. intros c Hr. by destruct (Ha c Hr) as [-> ->].
  - done.
  - by rewrite Hst.
  - by rewrite Htc, Hst.
  - intros c Hr. rewrite Hirq, Hst, Z.bits_0, andb_false_r. by assert (c = 0 ∨ c = 1) as [->| ->] by lia.
  - intros c Hr Hre. unfold ready in Hre. rewrite (Hc c Hr), andb_false_r in Hre. done.
Qed.

Definition reset_channel : BL808DMA2DChannel := mk_channel2d 0 0 0 0 0 0 0 0 0 0 0 0 DMA2D_FIFO_EMPTY false.

Lemma reset_fields s :
  bl808_dma2d_reset s =
  mk_dma2d [false; false] false [reset_channel; reset_channel] 0 0 0 0 0 0 0 0 0 false (clock_enabled s) (reset_asserted s).
Proof.
  unfold bl808_dma2d_reset, bl808_dma2d_update_irq. cbn -[BIT tst]. unfold tst. rewrite !Z.land_0_l, !andb_false_r.
  reflexivity.
Qed.

Lemma dma2d_reset_inv s : d2_inv (bl808_dma2d_reset s).
Proof.
  rewrite reset_fields. apply object_inv; try done; intros c Hc; by assert (c = 0 ∨ c = 1) as [->| ->] by lia.
Qed.

Lemma after_bh_ready s c : wf s → 0 ≤ c < 2 → ready (after_bh s) c = false.
Proof.
  intros Hwf Hc. assert (bl808_dma2d_active (after_bh s) = bl808_dma2d_active s ∧ global_cfg (after_bh s) = global_cfg s) as [Ea Eg].
  { unfold after_bh. set (s0 := s <| run_bh := false |> <| run_scheduled := false |>).
    change (bl808_dma2d_active (run_one (run_one s0 0) 1) = bl808_dma2d_active s ∧
            global_cfg (run_one (run_one s0 0) 1) = global_cfg s).
    destruct (run_one_frame (run_one s0 0) 1) as (? & ? & ? & ->). by destruct (run_one_frame s0 0) as (? & ? & ? & ->). }
  unfold ready. rewrite Ea, Eg, after_bh_chan by done. unfold ended. destruct (ready s c) eqn:Er; [|exact Er].
  change DMA2D_CH_EN with (BIT 0). rewrite tst_BIT by lia. cbn [finish cfg].
  change DMA2D_FIFO_EMPTY with (BIT 16). rewrite Z.lor_spec, clr_spec, !BIT_spec by lia. cbn.
  by rewrite !andb_false_r.
Qed.

Lemma after_bh_inv s : d2_inv s → d2_inv (after_bh s).
Proof.
  intros [[Hw Hs Hst Htc] Hl Hp]. unfold after_bh. set (s0 := s <| run_bh := false |> <| run_scheduled := false |>).
  assert (wf s0) as Hw0 by (destruct Hw; by split).
  assert (∀ s c, 0 ≤ c < 2 → quiet_inv s → quiet_inv (run_one s c)) as Hone.
  { intros s1 c Hc [Hw1 Hs1 Hst1 Htc1]. split; [by apply wf_run_one|by destruct (run_one_frame s1 c) as (? & ? & ? & ->)|..].
    - rewrite run_one_status. split_ifs; [|done]. apply uint_lor; [lia|done|].
      assert (c = 0 ∨ c = 1) as [->| ->] by lia; by vm_compute.
    - unfold run_one, report. split_ifs; cbn; by rewrite ?Htc1. }
  apply update_inv; [by apply Hone, Hone; [lia|lia|split]|].
  intros c Hc Hr. pose proof (after_bh_ready s c Hw Hc) as Hf. unfold after_bh in Hf. fold s0 in Hf.
  change (ready (run_one (run_one s0 0) 1) c = false) in Hf. congruence.
Qed.

Section run_inv.
Context {E : Type} `{!PhysMem E} `{!ColdReset bl808_dma2d_reset}.

Lemma d2_step_inv se op : d2_inv se.1 → d2_inv (d2_step (E := E) se op).1.
Proof.
  destruct se as [s e]. cbn [fst]. intros Hi. destruct op as [off v sz| |b|b|]; cbn [d2_step fst].
  - by apply dma2d_write_inv.
  - destruct (run_bh s); [|done]. rewrite bh_after by apply Hi. cbn [fst]. by apply after_bh_inv.
  - unfold bl808_dma2d_set_clock_enabled. cbv zeta.
    destruct b; cbn [negb]; apply update_inv.
    + apply schedule_quiet. by destruct Hi as [[[] ? ? ?] ? ?].
    + apply schedule_pending. apply Hi.
    + by destruct Hi as [[[] ? ? ?] ? ?].
    + intros c Hc. unfold ready, bl808_dma2d_active. cbn. done.
  - unfold bl808_dma2d_set_reset_asserted. cbv zeta. destruct b; [rewrite device_cold_reset_runs|]; apply update_inv.
    + apply dma2d_reset_inv.
    + apply dma2d_reset_inv.
    + apply schedule_quiet. by destruct Hi as [[[] ? ? ?] ? ?].
    + apply schedule_pending. apply Hi.
  - rewrite device_cold_reset_runs. apply dma2d_reset_inv.
Qed.

Lemma d2_run_inv ops (e : E) : d2_inv (d2_run (d2_object, e) ops).1.
Proof.
  assert (d2_inv d2_object) as H0.
  { apply object_inv; try done; intros c Hc; by assert (c = 0 ∨ c = 1) as [->| ->] by lia. }
  unfold d2_run. revert H0. change d2_object with (d2_object, e).1 at 1. generalize (d2_object, e).
  induction ops as [|op ops IH]; intros se Hi; [done|]. cbn [foldl]. by apply IH, d2_step_inv.
Qed.

(** Whatever registers are written, and however clocks and resets
    change, the interrupt lines are the status bits of a device that is clocked and
    out of reset, a channel that may run has its bottom half scheduled, a run of that
    leaves no such channel, and the two status registers agree within two bits. *)
Theorem dma2d_never_stalls ops (e : E) :
  let s := (d2_run (d2_object, e) ops).1 in
  (∀ c, 0 ≤ c < 2 →
    irq s !! Z.to_nat c = Some (bl808_dma2d_active s && Z.testbit (int_status s) c)) ∧
  (∀ c, 0 ≤ c < 2 → ready s c = true → run_bh s = true) ∧
  (∀ c, 0 ≤ c < 2 → ready (bl808_dma2d_run_bh s e).1 c = false) ∧
  int_tc_status s = int_status s ∧ uint 2 (int_status s).
Proof.
  cbv zeta. pose proof (d2_run_inv ops e) as Hi. set (s := (d2_run _ _).1) in *. clearbody s.
  destruct Hi as [[Hw Hs Hst Htc] Hl Hp]. split_and!; try done.
  intros c Hc. rewrite bh_after by done. by apply after_bh_ready.
Qed.
End run_inv.

(** ** The driver of the HAL ([src/src/bl808/dma2d.nim])

    Its register map is another one: what it takes for the control register is the
    interrupt status of the device, and the channel registers do not occur in it. *)

Module Dma2dHal.
Section hal.
Context {E : Type} `{!PhysMem E} `{!ColdReset bl808_dma2d_reset}.

Definition Dma2dCtrl := 0x00.
Definition Dma2dIntSts := 0x04.
Definition Dma2dIntClr := 0x0C.
Definition Dma2dSrcAddr := 0x10.
Definition Dma2dSrcStride := 0x14.
Definition Dma2dDstAddr := 0x18.
Definition Dma2dDstStride := 0x1C.
Definition Dma2dXCount := 0x20.
Definition Dma2dYCount := 0x24.
Definition Dma2dEn := 0.

Inductive Dma2dError := dma2dOk | dma2dTimeout.

(** Accesses of the core; a bottom half that one schedules runs before the next. *)
Definition regWrite (off value : Z) (se : BL808DMA2DState * E) : BL808DMA2DState * E :=
  d2_step (d2_step se (D2Write off value 4)) D2Bh.
Definition regRead (off : Z) (se : BL808DMA2DState * E) : Z := bl808_dma2d_read se.1 off 4.
Definition regSet (off mask : Z) (se : BL808DMA2DState * E) : BL808DMA2DState * E :=
  regWrite off (Z.lor (regRead off se) mask) se.
Definition regClear (off mask : Z) (se : BL808DMA2DState * E) : BL808DMA2DState * E :=
  regWrite off (clr (regRead off se) mask) se.

Fixpoint wait_done (countdown : nat) (se : BL808DMA2DState * E) : Dma2dError * (BL808DMA2DState * E) :=
  match countdown with
  | O => (dma2dTimeout, regClear Dma2dCtrl (Z.shiftl 1 Dma2dEn) se)
  | S countdown =>
      if tst (regRead Dma2dIntSts se) 1
      then (dma2dOk, regClear Dma2dCtrl (Z.shiftl 1 Dma2dEn) (regWrite Dma2dIntClr 1 se))
      else wait_done countdown se
  end.

Definition dma2dTransfer (srcAddr srcStride dstAddr dstStride widthBytes height : Z) (timeout : nat)
    (se : BL808DMA2DState * E) : Dma2dError * (BL808DMA2DState * E) :=
  let se := regWrite Dma2dSrcAddr srcAddr se in
  let se := regWrite Dma2dSrcStride srcStride se in
  let se := regWrite Dma2dDstAddr dstAddr se in
  let se := regWrite Dma2dDstStride dstStride se in
  let se := regWrite Dma2dXCount widthBytes se in
  let se := regWrite Dma2dYCount height se in
  let se := regWrite Dma2dIntClr 0xFF se in
  let se := regSet Dma2dCtrl (Z.shiftl 1 Dma2dEn) se in
  wait_done timeout se.

Definition dma2dFillRect (dstAddr dstStride widthBytes height patternAddr : Z) (timeout : nat)
    (se : BL808DMA2DState * E) : Dma2dError * (BL808DMA2DState * E) :=
  let se := regWrite Dma2dSrcAddr patternAddr se in
  let se := regWrite Dma2dSrcStride 0 se in
  let se := regWrite Dma2dDstAddr dstAddr se in
  let se := regWrite Dma2dDstStride dstStride se in
  let se := regWrite Dma2dXCount widthBytes se in
  let se := regWrite Dma2dYCount height se in
  let se := regWrite Dma2dIntClr 0xFF se in
  let se := regSet Dma2dCtrl (Z.shiftl 1 Dma2dEn) se in
  wait_done timeout se.

(** No channel is enabled, the flags of finished transfers are [t], memory is [e]. *)
Record inert (t : Z) (e : E) (se : BL808DMA2DState * E) : Prop := {
  in_bh : run_bh se.1 = false;
  in_off : bl808_dma2d_enabled_channels se.1 = 0;
  in_tc : int_tc_status se.1 = t;
  in_mem : se.2 = e;
}.

Lemma schedule_inert s : bl808_dma2d_enabled_channels s = 0 → bl808_dma2d_schedule s = s.
Proof. unfold bl808_dma2d_schedule. intros ->. by rewrite andb_false_r. Qed.

(** The registers that the driver writes. *)
Definition touched (off : Z) : Prop := 0 ≤ off < DMA2D_CH_BASE ∧ off ≠ DMA2D_INTTCCLEAR.

(** None of them belongs to a channel, and the control register ignores writes. *)
Lemma low_write t e s off v : inert t e (s, e) → touched off →
  let s' := bl808_dma2d_write s off v 4 in inert t e (s', e) ∧ (off = Dma2dCtrl → s' = s).
Proof.
  intros [Hb Ho Ht _] [Hoff Hclr]. cbn [fst snd] in *. unfold bl808_dma2d_write. cbv zeta. cbn [Z.eqb Pos.eqb negb].
  destruct (reset_asserted s); [done|].
  assert (in_channels off = false) as Hin.
  { unfold in_channels. by rewrite (proj2 (Z.leb_gt _ _)) by lia. }
  rewrite Hin, (proj2 (Z.eqb_neq _ _) Hclr). cbn [negb].
  destruct (Z.eqb_spec off DMA2D_CONFIG) as [->|]; [by rewrite schedule_inert|].
  repeat (match goal with |- context [if ?b then _ else _] => destruct b eqn:?E end;
    [apply Z.eqb_eq in E0; subst off; done|clear E0]).
  done.
Qed.

Lemma inert_write t e se off v : inert t e se → touched off →
  inert t e (regWrite off v se) ∧ (off = Dma2dCtrl → regWrite off v se = se).
Proof.
  destruct se as [s e']. intros Hi Hoff. pose proof (in_mem _ _ _ Hi) as He. cbn [snd] in He. subst e'.
  destruct (low_write _ _ s off v Hi Hoff) as (Hi' & Hc). pose proof (in_bh _ _ _ Hi') as Hb. cbn [fst] in Hb.
  unfold regWrite. cbn [d2_step]. rewrite Hb. split; [done|]. intros ->. by rewrite Hc.
Qed.

Lemma inert_ctrl t e se v : inert t e se → regWrite Dma2dCtrl v se = se.
Proof. intros Hi. by apply (inert_write t e se Dma2dCtrl v Hi). Qed.

Lemma inert_wait t e n se : inert t e se →
  ∃ se', wait_done n se = (if tst t 1 && (0 <? n)%nat then dma2dOk else dma2dTimeout, se') ∧ inert t e se'.
Proof.
  intros Hi. destruct n as [|n]; cbn [wait_done]; [rewrite andb_false_r|rewrite andb_true_r].
  { exists se. unfold regClear. by rewrite (inert_ctrl t e). }
  change (regRead Dma2dIntSts se) with (int_tc_status se.1). rewrite (in_tc _ _ _ Hi).
  destruct (tst t 1) eqn:Et.
  - destruct (inert_write t e se Dma2dIntClr 1 Hi ltac:(by vm_compute)) as [Hi' _].
    eexists. split; [reflexivity|]. unfold regClear. by rewrite (inert_ctrl t e).
  - exists se. split; [|done]. induction n as [|n IH]; cbn [wait_done].
    + unfold regClear. by rewrite (inert_ctrl t e).
    + change (regRead Dma2dIntSts se) with (int_tc_status se.1). by rewrite (in_tc _ _ _ Hi), Et.
Qed.

(** On a device on which no channel is enabled (after reset, say), the transfer of the
    HAL copies nothing; it reports a timeout, or success when the flag of an earlier
    transfer is still set. *)
Lemma dma2d_hal_never_starts t e se a b c d w h n :
  inert t e se →
  let '(r, se') := dma2dTransfer a b c d w h n se in
  r = (if tst t 1 && (0 <? n)%nat then dma2dOk else dma2dTimeout) ∧ inert t e se'.
Proof.
  intros Hi. unfold dma2dTransfer. cbv zeta. set (se1 := regWrite Dma2dIntClr 0xFF _).
  assert (inert t e se1) as Hse.
  { unfold se1. repeat (refine (proj1 (inert_write _ _ _ _ _ _ _)); [|by vm_compute]). done. }
  unfold regSet. rewrite (inert_ctrl t e) by done. by destruct (inert_wait t e n se1 Hse) as (se' & -> & ?).
Qed.
End hal.
End Dma2dHal.

(** ** The theorems on a concrete transfer *)

Module Dma2dDemo.

(** Six bytes of a picture, in rows of four bytes, of which two are moved; the
    value 9 is the colour key. *)
Definition picture : soc :=
  mk_soc (list_to_map (zip (seqZ 0x1000 6) [7; 9; 0; 0; 5; 6])) (uart_with 5).

#[local] Instance d2_cold : ColdReset bl808_dma2d_reset := direct_reset _.

Definition setup : list d2_op :=
  [D2Clock true; D2Write DMA2D_CONFIG 1 4;
   D2Write 0x100 0x1000 4; D2Write 0x104 0x2000 4; D2Write 0x10c (2 ^ 31) 4;
   D2Write 0x110 0x00020002 4; D2Write 0x114 1 4; D2Write 0x118 2 4; D2Write 0x120 1 4; D2Write 0x124 0 4;
   D2Write 0x174 9 4; D2Write 0x178 0x11 4; D2Write 0x17c (2 ^ 31 + 1) 4].

#[local] Notation armed := (fst (d2_run (E := soc) (d2_object, picture) setup)).
Definition armed_channel : BL808DMA2DChannel :=
  mk_channel2d 0x1000 0x2000 0 (2 ^ 31) 0x20002 1 2 0 1 0 9 0x11 (2 ^ 31 + 1) false.

Lemma armed_chan : chan armed 0 = armed_channel.
Proof. by vm_compute. Qed.

Lemma armed_wf : wf armed.
Proof. split; [by vm_compute|]. intros c Hc. assert (c = 0 ∨ c = 1) as [->| ->] by lia; by vm_compute. Qed.

Lemma armed_cells ch : cells_ram (E := soc) ch.
Proof. apply Forall_true. by intros [a b]. Qed.

Lemma dma2d_bh_blits_witness :
  wf armed ∧ (bl808_dma2d_run_bh armed picture).1.(irq) !! 0%nat = Some true.
Proof.
  split; [exact armed_wf|].
  pose proof (dma2d_bh_blits armed picture armed_wf (λ c _ _, armed_cells _)) as H.
  destruct (bl808_dma2d_run_bh armed picture) as [s' e']. destruct H as [_ H].
  destruct (H 0 ltac:(lia)) as [_ Hi]. rewrite armed_chan in Hi.
  transitivity (Some (bl808_dma2d_active armed && (Z.testbit (int_status armed) 0 || (ready armed 0 && true)))); [exact Hi|].
  by vm_compute.
Defined.

Lemma armed_clear : clear (sw (chan armed 0)) (sw (chan armed 0)) (rectangle (chan armed 0)).
Proof. rewrite armed_chan. apply (bool_decide_unpack _). by vm_compute. Qed.

Lemma arrives :
  (if decide (matches armed_channel (value_at (ram picture) (cell_src armed_channel 0 1) 1))
   then ram picture 0x2002 else ram picture (cell_src armed_channel 0 1 + 0)) = 5.
Proof. by vm_compute. Qed.

Lemma left_out :
  (if decide (matches armed_channel (value_at (ram picture) (cell_src armed_channel 1 0) 1))
   then ram picture 0x2001 else ram picture (cell_src armed_channel 1 0 + 0)) = 0.
Proof. by vm_compute. Qed.

(** The pixel 5 of the second row arrives; the pixel 9 of the first is left out. *)
Lemma dma2d_copies_rectangle_witness :
  let e' := (bl808_dma2d_run_bh armed picture).2 in
  ram e' 0x2002 = 5 ∧ ram e' 0x2001 = 0.
Proof.
  assert (wf armed) as Hw by exact armed_wf.
  pose proof (dma2d_copies_rectangle armed picture 0 Hw ltac:(lia) eq_refl eq_refl eq_refl (armed_cells _) armed_clear) as [H _].
  rewrite armed_chan in H. assert (xcount armed_channel = 2) as Ex by reflexivity.
  assert (ycount armed_channel = 2) as Ey by reflexivity. assert (sw armed_channel = 1) as Ew by reflexivity.
  cbv zeta in H. rewrite Ex, Ey, Ew in H.
  pose proof (H 0 1 0 ltac:(lia) ltac:(lia) ltac:(lia)) as Hx. pose proof (H 1 0 0 ltac:(lia) ltac:(lia) ltac:(lia)) as Hy.
  assert (cell_dst armed_channel 0 1 + 0 = 0x2002) as E1 by by vm_compute.
  assert (cell_dst armed_channel 1 0 + 0 = 0x2001) as E2 by by vm_compute.
  rewrite E1 in Hx. rewrite E2 in Hy. split.
  - exact (eq_trans Hx arrives).
  - exact (eq_trans Hy left_out).
Defined.

Lemma armed_ready : ready armed 0 = true.
Proof. by vm_compute. Qed.

Lemma dma2d_never_stalls_witness : ready armed 0 = true ∧ run_bh armed = true.
Proof.
  pose proof (dma2d_never_stalls setup picture) as (_ & H & _).
  exact (conj armed_ready (H 0 ltac:(lia) armed_ready)).
Defined.

End Dma2dDemo.
