(* ===== verification/Boot.v ===== *)
(** * Booting from flash ([qemu-machine/hw/riscv/bl808.c])

    Module [BL808BOOT]: what the machine does at reset in place of the vendor's boot
    loader.  It reads the boot header at the start of the flash, chooses one of two
    partition tables, chooses the firmware slot that the table names, falls back to
    the other slot (and records that in the other table) when the named one does not
    hold a firmware, and sets up the window of the first core, the boot ROM and the
    boot addresses of the other cores.

    A pointer into the flash is an offset; the flash is that of the controller
    modelled in [SfCtrl], and is written through it. *)

From S2P Require Import Prelude Qemu SfCtrl.
From stdpp Require Import prelude list.
From Stdlib Require Import ZArith Lia.
Local Open Scope Z_scope.

Module BL808BOOT.
Import BL808SFCTRL.

Definition BL808_FLASH_XIP_BASE := 0x58000000.
Definition BL808_LP_FLASH_XIP_BASE := 0x58020000.
Definition BL808_BOOTROM_BASE := 0x90000000.
Definition BL808_BOOTROM_SIZE := 128 * 1024.

Definition BL808_FLASH_OFFSET_M0 := 0x000000.
Definition BL808_FLASH_OFFSET_D0 := 0x100000.
Definition BL808_FLASH_OFFSET_D0_IMAGE := BL808_FLASH_OFFSET_D0 + 0x1000.
Definition BL808_BOOTHEADER_SIZE := 352.
Definition BL808_BOOTHEADER_MAGIC_BFNP := 0x504E4642.
Definition BL808_BOOTHEADER_MAGIC_BFAP := 0x50414642.
Definition BL808_BOOTHEADER_FLASH_CFG_MAGIC := 0x47464346.
Definition BL808_BOOTHEADER_CRC_DEADBEEF := 0xDEADBEEF.
Definition BL808_BOOTHEADER_FLAGS_OFFSET := 0x080.
Definition BL808_BOOTHEADER_GROUP_OFFSET := 0x084.
Definition BL808_BOOTHEADER_CPU_CFG_BASE := 0x0B0.
Definition BL808_BOOTHEADER_CPU_CFG_SIZE := 24.
Definition BL808_BOOTHEADER_PT0_OFFSET := 0x0F4.
Definition BL808_BOOTHEADER_PT1_OFFSET := 0x0F8.
Definition BL808_BOOTHEADER_CRC_OFFSET := 0x15C.
Definition BL808_BOOTHEADER_FLAG_POWER_ON_MM := BIT 18.
Definition BL808_PT_TABLE0_ADDRESS := 0x0000E000.
Definition BL808_PT_TABLE1_ADDRESS := 0x0000F000.
Definition BL808_PT_MAGIC_CODE := 0x54504642.
Definition BL808_PT_ENTRY_MAX := 16.
Definition BL808_PT_ENTRY_SIZE := 36.
Definition BL808_PT_TABLE_SIZE := 596.
Definition BL808_WRAM_CACHED := 0x62030000.
Definition BL808_BOOT2_PASS_PARAM_ADDR := BL808_WRAM_CACHED + 0x27C00.
Definition BL808_BOOT2_PASS_PARAM_OFFSET := BL808_BOOT2_PASS_PARAM_ADDR - BL808_WRAM_CACHED.
Definition BL808_BOOT2_PASS_PARAM_SIZE := 24.
Definition BL808_MM_MISC_CPU0_BOOT_RESET := 0x3eff0000.

(** ** Data *)

Record BL808BootHeaderInfo := mk_header {
  valid : bool;
  power_on_mm : bool;
  flash_offset : Z;                    (* uint32_t *)
  group_image_offset : Z;
  partition_table_offset : list Z;     (* [2] *)
  cpu_enabled : list bool;             (* [3] *)
  cpu_halt : list bool;
  cpu_image_offset : list Z;
}.

#[export] Instance eta_header : Eta BL808BootHeaderInfo := λ r,
  mk_header (valid r) (power_on_mm r) (flash_offset r) (group_image_offset r) (partition_table_offset r)
    (cpu_enabled r) (cpu_halt r) (cpu_image_offset r).

Definition zero_header : BL808BootHeaderInfo :=
  mk_header false false 0 0 [0; 0] [false; false; false] [false; false; false] [0; 0; 0].

Record BL808PartitionInfo := mk_partition {
  pt_valid : bool;                     (* valid *)
  fallback_applied : bool;
  header_flash_offset : Z;
  table_flash_offset : Z;
  writeback_flash_offset : Z;
  table_index : Z;
  entry_index : Z;
  entry_count : Z;
  active_index : Z;
  entry_prefix : list Z;               (* uint8_t [20] *)
}.

Definition zero_partition : BL808PartitionInfo := mk_partition false false 0 0 0 0 0 0 0 (replicate 20 0).

(** ** Reading the flash *)

(** [n] bytes at an offset, and little-endian values. *)
Definition bytes_at (m : mem) (a n : Z) : list Z := m <$> seqZ a n.
Definition ldl_le_p (m : mem) (a : Z) : Z := le_to_cpu (bytes_at m a 4).
Definition lduw_le_p (m : mem) (a : Z) : Z := le_to_cpu (bytes_at m a 2).
Definition put_at (m : mem) (a : Z) (bs : list Z) : mem := λ x,
  if (a <=? x) && (x <? a + Z.of_nat (length bs)) then bs !!! Z.to_nat (x - a) else m x.
Definition stl_le_p (m : mem) (a v : Z) : mem := put_at m a (cpu_to_le 4 v).

Definition crc_bit (crc : Z) : Z :=
  let mask := u32 (- Z.land crc 1) in Z.lxor (Z.shiftr crc 1) (Z.land 0xEDB88320 mask).

Definition crc_byte (crc b : Z) : Z := Nat.iter 8 crc_bit (Z.lxor crc b).

Definition bl808_bootheader_crc32 (data : list Z) : Z := not32 (foldl crc_byte 0xFFFFFFFF data).

Definition cpu_config (flash : mem) (raw cpu : Z) : Z := raw + (BL808_BOOTHEADER_CPU_CFG_BASE + cpu * BL808_BOOTHEADER_CPU_CFG_SIZE).

(** The result and what is left in [*info]. *)
Definition bl808_bootheader_read (flash : mem) (offset : Z) : bool * BL808BootHeaderInfo :=
  if BL808_SF_CTRL_FLASH_SIZE <? u32 (offset + BL808_BOOTHEADER_SIZE) then (false, zero_header)
  else
    let raw := offset in
    let magic := ldl_le_p flash (raw + 0x00) in
    let flash_cfg_magic := ldl_le_p flash (raw + 0x08) in
    let stored_crc := ldl_le_p flash (raw + BL808_BOOTHEADER_CRC_OFFSET) in
    if (negb (magic =? BL808_BOOTHEADER_MAGIC_BFNP) && negb (magic =? BL808_BOOTHEADER_MAGIC_BFAP)) ||
       negb (flash_cfg_magic =? BL808_BOOTHEADER_FLASH_CFG_MAGIC)
    then (false, zero_header)
    else if negb (stored_crc =? BL808_BOOTHEADER_CRC_DEADBEEF) &&
            negb (bl808_bootheader_crc32 (bytes_at flash raw BL808_BOOTHEADER_CRC_OFFSET) =? stored_crc)
    then (false, zero_header)
    else
      let flags := ldl_le_p flash (raw + BL808_BOOTHEADER_FLAGS_OFFSET) in
      (true,
       mk_header true (tst flags BL808_BOOTHEADER_FLAG_POWER_ON_MM) offset
         (Z.land (ldl_le_p flash (raw + BL808_BOOTHEADER_GROUP_OFFSET)) 0x0FFFFFFF)
         [Z.land (ldl_le_p flash (raw + BL808_BOOTHEADER_PT0_OFFSET)) 0x0FFFFFFF;
          Z.land (ldl_le_p flash (raw + BL808_BOOTHEADER_PT1_OFFSET)) 0x0FFFFFFF]
         ((λ cpu, negb (flash (cpu_config flash raw cpu) =? 0)) <$> [0; 1; 2])
         ((λ cpu, negb (flash (cpu_config flash raw cpu + 1) =? 0)) <$> [0; 1; 2])
         ((λ cpu, ldl_le_p flash (cpu_config flash raw cpu + 12)) <$> [0; 1; 2])).

(** [strncmp(a, b, n) == 0]. *)
Fixpoint strncmp_eq (a b : list Z) (n : nat) : bool :=
  match n, a, b with
  | O, _, _ => true
  | S n, x :: a, y :: b => (x =? y) && (if x =? 0 then true else strncmp_eq a b n)
  | _, _, _ => false
  end.

Definition name_FW : list Z := [0x46; 0x57].

Definition bl808_partition_name_matches (flash : mem) (raw_name : Z) (want : list Z) : bool :=
  let name := bytes_at flash raw_name 9 ++ [0] in
  strncmp_eq name (want ++ [0]) (S (length want)).

(** The age and the number of entries of a valid table. *)
Definition bl808_partition_table_valid (flash : mem) (raw : Z) : option (Z * Z) :=
  let entry_count := lduw_le_p flash (raw + 0x06) in
  if negb (ldl_le_p flash (raw + 0x00) =? BL808_PT_MAGIC_CODE) || (BL808_PT_ENTRY_MAX <? entry_count) then None
  else
    let stored_crc := ldl_le_p flash (raw + 0x0C) in
    if negb (bl808_bootheader_crc32 (bytes_at flash raw 12) =? stored_crc) then None
    else
      let entries_crc := ldl_le_p flash (raw + (0x10 + entry_count * BL808_PT_ENTRY_SIZE)) in
      if negb (bl808_bootheader_crc32 (bytes_at flash (raw + 0x10) (entry_count * BL808_PT_ENTRY_SIZE)) =? entries_crc)
      then None
      else Some (ldl_le_p flash (raw + 0x08), entry_count).

Definition cpu0_boots (info : BL808BootHeaderInfo) : bool :=
  (cpu_enabled info !!! 0%nat) && negb (cpu_halt info !!! 0%nat).

Definition bl808_partition_entry_bootheader (flash : mem) (entry slot : Z) : bool * BL808BootHeaderInfo :=
  if 1 <? slot then (false, zero_header)
  else
    let header := ldl_le_p flash (entry + 12 + slot * 4) in
    if header =? 0 then (false, zero_header)
    else
      let '(ok, info) := bl808_bootheader_read flash header in
      (ok && cpu0_boots info, info).

(** ** Choosing a partition table and a slot *)

(** The scan of the two copies: the copy, its age, its entries. *)
Definition consider_copy (flash : mem) (pt_offsets : list Z) (selected : option (Z * Z * Z)) (copy : Z) :
    option (Z * Z * Z) :=
  let raw := pt_offsets !% copy in
  if BL808_SF_CTRL_FLASH_SIZE <? u32 (raw + BL808_PT_TABLE_SIZE) then selected
  else match bl808_partition_table_valid flash raw with
  | None => selected
  | Some (age, count) =>
      match selected with
      | None => Some (copy, age, count)
      | Some (_, selected_age, _) => if selected_age <=? age then Some (copy, age, count) else selected
      end
  end.

Definition table_offsets (boot2 : BL808BootHeaderInfo) : list Z :=
  let p0 := partition_table_offset boot2 !% 0 in
  let p1 := partition_table_offset boot2 !% 1 in
  [if negb (p0 =? 0) then p0 else BL808_PT_TABLE0_ADDRESS; if negb (p1 =? 0) then p1 else BL808_PT_TABLE1_ADDRESS].

Section flash.
Context {B : Type} `{!BlockBackend B}.
Notation sf := (BL808SfCtrlState B).

(** [table] is a buffer of its own: offsets into it start at 0. *)
Definition bl808_partition_table_writeback (s : sf) (table_raw entry_count entry_index new_active_index
    writeback_offset : Z) : sf :=
  let entry_base := 0x10 + entry_index * BL808_PT_ENTRY_SIZE in
  let entries_end := 0x10 + entry_count * BL808_PT_ENTRY_SIZE in
  if (entry_count <=? entry_index) || (BL808_PT_TABLE_SIZE <? entries_end + 4) then s
  else
    let table : mem := λ a, flash s (table_raw + a) in
    let table := mem_store table (entry_base + 2) new_active_index in
    let table := stl_le_p table (entry_base + 32) (u32 (ldl_le_p table (entry_base + 32) + 1)) in
    let table := stl_le_p table 0x08 (u32 (ldl_le_p table 0x08 + 1)) in
    let table := stl_le_p table 0x0C (bl808_bootheader_crc32 (bytes_at table 0 12)) in
    let table := stl_le_p table entries_end
                   (bl808_bootheader_crc32 (bytes_at table 0x10 (entry_count * BL808_PT_ENTRY_SIZE))) in
    bl808_sf_ctrl_write_flash s writeback_offset (Some table) BL808_PT_TABLE_SIZE.

(** One entry of the selected table: go on with the next, or end with a slot. *)
Definition try_entry (s : sf) (pt_offsets : list Z) (selected_copy selected_entries : Z) (commit_fallback : bool)
    (i : Z) : sf * option BL808PartitionInfo :=
  let entry := pt_offsets !% selected_copy + 0x10 + i * BL808_PT_ENTRY_SIZE in
  let type := flash s entry in
  let active := Z.land (flash s (entry + 2)) 1 in
  let inactive := Z.lxor active 1 in
  let other := pt_offsets !% (Z.lxor selected_copy 1) in
  if negb (bl808_partition_name_matches (flash s) (entry + 3) name_FW) && negb (type =? 0) then (s, None)
  else if 1 <? flash s (entry + 2) then (s, None)
  else
    let '(ok, candidate) := bl808_partition_entry_bootheader (flash s) entry active in
    if ok then
      (s, Some (mk_partition true false (flash_offset candidate) (pt_offsets !% selected_copy) other selected_copy
                  i selected_entries active (bytes_at (flash s) entry 20)))
    else
      let '(ok, candidate) := bl808_partition_entry_bootheader (flash s) entry inactive in
      if negb ok then (s, None)
      else
        let s := if commit_fallback
                 then bl808_partition_table_writeback s (pt_offsets !% selected_copy) selected_entries i inactive other
                 else s in
        (s, Some (mk_partition true true (flash_offset candidate) (pt_offsets !% selected_copy) other selected_copy
                    i selected_entries inactive (<[2%nat := inactive]> (bytes_at (flash s) entry 20)))).

Fixpoint entry_loop (todo : list Z) (s : sf) (pt_offsets : list Z) (selected_copy selected_entries : Z)
    (commit_fallback : bool) : sf * option BL808PartitionInfo :=
  match todo with
  | [] => (s, None)
  | i :: todo =>
      match try_entry s pt_offsets selected_copy selected_entries commit_fallback i with
      | (s, Some info) => (s, Some info)
      | (s, None) => entry_loop todo s pt_offsets selected_copy selected_entries commit_fallback
      end
  end.

Definition bl808_select_partition_header (s : sf) (boot2 : BL808BootHeaderInfo) (commit_fallback : bool) :
    sf * option BL808PartitionInfo :=
  let pt_offsets := table_offsets boot2 in
  match foldl (consider_copy (flash s) pt_offsets) None [0; 1] with
  | None => (s, None)
  | Some (selected_copy, _, selected_entries) =>
      entry_loop (seqZ 0 selected_entries) s pt_offsets selected_copy selected_entries commit_fallback
  end.

(** ** The machine *)

(** What [get_image_size] and [load_image_size] give for the file named by the
    option [bootrom-image]. *)
Record BootromImage := mk_image { image_size : Z; image_loaded : Z; image_bytes : mem }.

Record BL808MachineState := mk_machine {
  sf_ctrl : BL808SfCtrlState B;
  bootrom : mem;
  wram : mem;
  bootrom_image : option BootromImage;
  strict_fidelity : bool;
  boot_gpio39 : bool;
  have_m0_entry : bool;
  m0_entry : Z;
  have_d0_entry : bool;
  d0_entry : Z;
  have_lp_entry : bool;
  lp_entry : Z;
  pds_ctl2 : Z;                        (* pds_regs[BL808_PDS_CTL2_OFFSET / 4] *)
  pds_cpu_core_cfg13 : Z;              (* pds_regs[BL808_PDS_CPU_CORE_CFG13_OFFSET / 4] *)
  hbn_glb : Z;                         (* hbn_regs[BL808_HBN_GLB_OFFSET / 4] *)
  mm_cpu0_boot : Z;                    (* soc.mm_misc.regs[BL808_MM_MISC_CPU0_BOOT / 4] *)
  m0_pc : Z;                           (* where the first core runs *)
}.

#[export] Instance eta_machine : Eta BL808MachineState := λ r,
  mk_machine (sf_ctrl r) (bootrom r) (wram r) (bootrom_image r) (strict_fidelity r) (boot_gpio39 r)
    (have_m0_entry r) (m0_entry r) (have_d0_entry r) (d0_entry r) (have_lp_entry r) (lp_entry r)
    (pds_ctl2 r) (pds_cpu_core_cfg13 r) (hbn_glb r) (mm_cpu0_boot r) (m0_pc r).
Implicit Types s : BL808MachineState.

Definition bl808_boot2_clear_pass_params s : BL808MachineState :=
  s <| wram := mem_fill (wram s) BL808_BOOT2_PASS_PARAM_OFFSET BL808_BOOT2_PASS_PARAM_SIZE 0 |>.

Definition bl808_boot2_store_partition_params s (info : BL808PartitionInfo) : BL808MachineState :=
  if negb (pt_valid info) then s
  else
    let w := stl_le_p (wram s) BL808_BOOT2_PASS_PARAM_OFFSET (table_index info) in
    s <| wram := put_at w (BL808_BOOT2_PASS_PARAM_OFFSET + 4) (entry_prefix info) |>.

Definition bl808_primary_flash_bootheader s : bool * BL808BootHeaderInfo :=
  let f := flash (sf_ctrl s) in
  let '(ok, boot2) := bl808_bootheader_read f BL808_FLASH_OFFSET_M0 in
  if strict_fidelity s || boot_gpio39 s || have_m0_entry s || negb ok then (false, zero_header)
  else
    let from_boot2 last := if cpu0_boots boot2 then (true, boot2) else (false, last) in
    match (bl808_select_partition_header (sf_ctrl s) boot2 false).2 with
    | None => from_boot2 zero_header
    | Some partition =>
        let '(ok, info) := bl808_bootheader_read f (header_flash_offset partition) in
        if ok && cpu0_boots info then (true, info) else from_boot2 info
    end.

(** *** The boot ROM *)

Definition bl808_riscv_encode_lui (rd imm20 : Z) : Z :=
  Z.lor (Z.lor (Z.shiftl (Z.land imm20 0xFFFFF) 12) (Z.shiftl (Z.land rd 0x1F) 7)) 0x37.

Definition bl808_riscv_encode_jalr (rd rs1 imm12 : Z) : Z :=
  Z.lor (Z.lor (Z.lor (Z.shiftl (Z.land (u32 imm12) 0xFFF) 20) (Z.shiftl (Z.land rs1 0x1F) 15))
    (Z.shiftl (Z.land rd 0x1F) 7)) 0x67.

Definition bl808_bootrom_write32 (rom : mem) (offset value : Z) : mem := stl_le_p rom offset value.

Definition bl808_bootrom_build_jump (rom : mem) (target : Z) : mem :=
  let hi20 := Z.shiftr (u32 (target + 0x800)) 12 in
  let lo12 := i32 target - i32 (u32 (Z.shiftl hi20 12)) in
  let rom := bl808_bootrom_write32 rom 0 (bl808_riscv_encode_lui 5 hi20) in
  let rom := bl808_bootrom_write32 rom 4 (bl808_riscv_encode_jalr 0 5 lo12) in
  bl808_bootrom_write32 rom 8 0x00000013.

Definition bl808_bootrom_build_download_stub (rom : mem) : mem :=
  bl808_bootrom_write32 (bl808_bootrom_write32 rom 0 0x0000006F) 4 0x00100073.

(** [None] is an error. *)
Definition bl808_load_external_bootrom (image : BootromImage) (rom : mem) : option mem :=
  if image_size image <? 0 then None
  else if BL808_BOOTROM_SIZE <? image_size image then None
  else if image_loaded image <? 0 then None
  else if negb (image_loaded image =? image_size image) then None
  else Some (mem_copy rom 0 (image_bytes image) 0 (image_loaded image)).

(** The text [BL808QEMUBOOT] and three zeroes. *)
Definition signature : list Z :=
  [0x42; 0x4C; 0x38; 0x30; 0x38; 0x51; 0x45; 0x4D; 0x55; 0x42; 0x4F; 0x4F; 0x54; 0; 0; 0].

Definition bl808_populate_bootrom s : option BL808MachineState :=
  let rom := mem_fill (bootrom s) 0 BL808_BOOTROM_SIZE 0 in
  match bootrom_image s with
  | Some image =>
      match bl808_load_external_bootrom image rom with
      | Some rom => Some (s <| bootrom := rom |>)
      | None => None
      end
  | None =>
      if strict_fidelity s then None
      else if have_m0_entry s then Some (s <| bootrom := rom |>)
      else
        let rom :=
          if boot_gpio39 s then bl808_bootrom_build_download_stub rom
          else
            let '(ok, boothdr) := bl808_primary_flash_bootheader s in
            let target := if ok then u32 (BL808_FLASH_XIP_BASE + cpu_image_offset boothdr !!! 0%nat)
                          else BL808_FLASH_XIP_BASE in
            bl808_bootrom_build_jump rom target in
        Some (s <| bootrom := put_at rom (BL808_BOOTROM_SIZE - 16) signature |>)
  end.

(** [memory_region_get_ram_ptr(&s->flash_xip)] is the window [xip_ptr[0][0]], which
    exists in a realized machine. *)
Definition bl808_sync_flash_xip_to_sf_ctrl (s : sf) : sf :=
  match xip_ptr s 0 0 with
  | None => s
  | Some xip => bl808_sf_ctrl_sync_all_xip (s <| flash := mem_copy (flash s) 0 xip 0 BL808_SF_CTRL_FLASH_SIZE |>)
  end.

(** *** Reset, as far as it boots *)

(** The window of the first core starts at the image. *)
Definition show_group s (boothdr : BL808BootHeaderInfo) : BL808MachineState :=
  let group_offset := u32 (flash_offset boothdr + group_image_offset boothdr) in
  let c := (sf_ctrl s) <| reset_xip_offset := set2 (reset_xip_offset (sf_ctrl s)) 0 0 group_offset |> in
  let s := s <| sf_ctrl := bl808_sf_ctrl_set_flash_image_offset c 0 0 group_offset |> in
  if power_on_mm boothdr then s <| pds_ctl2 := 0 |> else s.

(** The header that the machine boots from, if any, and the machine with the window
    of the first core set up. *)
Definition reset_boot_m0 s : BL808MachineState * BL808BootHeaderInfo :=
  let s := bl808_boot2_clear_pass_params s in
  let c := (sf_ctrl s) <| reset_xip_offset := set2 (reset_xip_offset (sf_ctrl s)) 0 0 0 |> in
  let s := s <| sf_ctrl := bl808_sf_ctrl_set_flash_image_offset c 0 0 0 |> in
  let primary s :=
    let '(ok, boothdr) := bl808_primary_flash_bootheader s in
    if ok then (show_group s boothdr, boothdr) else (s, boothdr) in
  if negb (strict_fidelity s) && negb (boot_gpio39 s) && negb (have_m0_entry s) then
    let '(ok, boot2hdr) := bl808_bootheader_read (flash (sf_ctrl s)) BL808_FLASH_OFFSET_M0 in
    if negb ok then primary s
    else
      let '(c, partition) := bl808_select_partition_header (sf_ctrl s) boot2hdr true in
      let s := s <| sf_ctrl := c |> in
      match partition with
      | None => primary s
      | Some partition =>
          let '(ok, boothdr) := bl808_bootheader_read (flash (sf_ctrl s)) (header_flash_offset partition) in
          if ok && cpu0_boots boothdr
          then (show_group (bl808_boot2_store_partition_params s partition) boothdr, boothdr)
          else primary s
      end
  else primary s.

Definition cpu_boots (boothdr : BL808BootHeaderInfo) (cpu : nat) : bool :=
  valid boothdr && (cpu_enabled boothdr !!! cpu) && negb (cpu_halt boothdr !!! cpu).

(** The boot addresses of the other two cores and the window of the second. *)
Definition reset_boot_others s (boothdr : BL808BootHeaderInfo) : BL808MachineState :=
  let s := if have_lp_entry s then s <| pds_cpu_core_cfg13 := u32 (lp_entry s) |>
           else if cpu_boots boothdr 2
           then s <| pds_cpu_core_cfg13 := u32 (BL808_FLASH_XIP_BASE + cpu_image_offset boothdr !!! 2%nat) |>
           else if negb (strict_fidelity s) then s <| pds_cpu_core_cfg13 := BL808_LP_FLASH_XIP_BASE |>
           else s in
  let s := s <| hbn_glb := 0x2 |> in
  let s := if have_d0_entry s then s <| mm_cpu0_boot := u32 (d0_entry s) |>
           else if cpu_boots boothdr 1
           then s <| mm_cpu0_boot := u32 (BL808_FLASH_XIP_BASE + cpu_image_offset boothdr !!! 1%nat) |>
           else if negb (strict_fidelity s) && negb (boot_gpio39 s) then s <| mm_cpu0_boot := BL808_FLASH_XIP_BASE |>
           else s <| mm_cpu0_boot := BL808_MM_MISC_CPU0_BOOT_RESET |> in
  let offset := if cpu_boots boothdr 1 then u32 (flash_offset boothdr + group_image_offset boothdr)
                else if negb (strict_fidelity s) && negb (boot_gpio39 s) then BL808_FLASH_OFFSET_D0_IMAGE else 0 in
  let c := (sf_ctrl s) <| reset_xip_offset := set2 (reset_xip_offset (sf_ctrl s)) 1 0 offset |> in
  s <| sf_ctrl := bl808_sf_ctrl_set_flash_image_offset c 1 0 offset |>.

(** The first core starts in the boot ROM, or in a program loaded into memory. *)
Definition reset_start_m0 s : BL808MachineState :=
  s <| m0_pc := if have_m0_entry s then m0_entry s else BL808_BOOTROM_BASE |>.

(** The parts of [bl808_machine_reset] that boot, in order; the registers that
    [bl808_pds_reset] clears in between are given.  [None]: the emulator exits. *)
Definition machine_boot (ctl2_reset : Z) s : option BL808MachineState :=
  match bl808_populate_bootrom s with
  | None => None
  | Some s =>
      let s := if have_m0_entry s then s <| sf_ctrl := bl808_sync_flash_xip_to_sf_ctrl (sf_ctrl s) |> else s in
      let s := s <| pds_ctl2 := ctl2_reset |> <| pds_cpu_core_cfg13 := 0 |> in
      let '(s, boothdr) := reset_boot_m0 s in
      Some (reset_start_m0 (reset_boot_others s boothdr))
  end.
End flash.
Arguments BL808MachineState : clear implicits.
End BL808BOOT.
