(* ===== verification/BootSpec.v ===== *)
(** * Booting from flash: what is booted

    The check sum of headers and tables detects every change within four bytes; the
    newer of two partition tables is chosen, and of its firmware entries the first that
    can boot; a fall back to the other slot is recorded for good and survives a torn
    write; and the jump in the boot ROM reaches the image that the window shows. *)

From S2P Require Import Prelude Qemu SfCtrl SfCtrlSpec Boot.
From stdpp Require Import prelude list.
From Stdlib Require Import ZArith Lia.
Local Open Scope Z_scope.
Import BL808SFCTRL BL808BOOT.

(** ** The check sum *)

Definition P : Z := 0xEDB88320.

Lemma crc_bit_odd c : crc_bit c = Z.lxor (Z.shiftr c 1) (if Z.odd c then P else 0).
Proof.
  unfold crc_bit. f_equal. change 1 with (Z.ones 1) at 1. rewrite Z.land_ones by lia. change (2 ^ 1) with 2.
  rewrite Zmod_odd. by destruct (Z.odd c).
Qed.

Lemma crc_bit_lxor a b : crc_bit (Z.lxor a b) = Z.lxor (crc_bit a) (crc_bit b).
Proof.
  rewrite !crc_bit_odd. rewrite Z.shiftr_lxor, <- !Z.bit0_odd, Z.lxor_spec, !Z.bit0_odd.
  apply Z.bits_inj'. intros i Hi. rewrite !Z.lxor_spec.
  destruct (Z.odd a), (Z.odd b); cbn [xorb]; rewrite ?Z.bits_0;
    by destruct (Z.testbit (Z.shiftr a 1) i), (Z.testbit (Z.shiftr b 1) i), (Z.testbit P i).
Qed.

Lemma crc_bit_uint c : uint 32 c → uint 32 (crc_bit c).
Proof. intros Hc. rewrite crc_bit_odd. apply uint_lxor; [lia|by apply uint_shiftr|by destruct (Z.odd c)]. Qed.

(** The top bit of the polynomial makes a step invertible. *)
Lemma crc_bit_zero c : uint 32 c → crc_bit c = 0 → c = 0.
Proof.
  intros Hc H. rewrite crc_bit_odd in H. pose proof (f_equal (λ z, Z.testbit z 31) H) as H31. cbn beta in H31.
  rewrite Z.lxor_spec, Z.shiftr_spec, Z.bits_0 in H31 by lia.
  rewrite (uint_testbit_high 32 c) in H31 by (done || lia). destruct (Z.odd c) eqn:Ho; [done|].
  rewrite Z.lxor_0_r in H. rewrite (Z.div_mod c 2), Zmod_odd, Ho by lia.
  change 2 with (2 ^ 1) at 2. rewrite <- Z.shiftr_div_pow2, H by lia. done.
Qed.

Lemma iter_lxor n a b : Nat.iter n crc_bit (Z.lxor a b) = Z.lxor (Nat.iter n crc_bit a) (Nat.iter n crc_bit b).
Proof. induction n as [|n IH]; [done|]. rewrite !Nat.iter_succ. by rewrite IH, crc_bit_lxor. Qed.

Lemma iter_uint n c : uint 32 c → uint 32 (Nat.iter n crc_bit c).
Proof. intros. induction n as [|n IH]; [done|]. rewrite !Nat.iter_succ. by apply crc_bit_uint. Qed.

Lemma iter_zero n c : uint 32 c → Nat.iter n crc_bit c = 0 → c = 0.
Proof.
  intros Hc. induction n as [|n IH]; [done|]. rewrite !Nat.iter_succ. intros H%crc_bit_zero; [by apply IH|by apply iter_uint].
Qed.

Lemma iter_inj n a b : uint 32 a → uint 32 b → Nat.iter n crc_bit a = Nat.iter n crc_bit b → a = b.
Proof.
  intros Ha Hb H. apply Z.lxor_eq. apply (iter_zero n); [apply uint_lxor; by try lia|].
  by rewrite iter_lxor, H, Z.lxor_nilpotent.
Qed.

Lemma iter_shift n x : 0 ≤ x → Nat.iter n crc_bit (Z.shiftl x (Z.of_nat n)) = x.
Proof.
  intros Hx. induction n as [|n IH]; [by rewrite Z.shiftl_0_r|]. rewrite Nat.iter_succ_r. rewrite <- IH at 2. f_equal.
  rewrite crc_bit_odd. replace (Z.of_nat (S n)) with (1 + Z.of_nat n) by lia.
  rewrite (Z.add_comm 1), <- Z.shiftl_shiftl by lia.
  rewrite Z.shiftr_shiftl_l, Z.sub_diag, Z.shiftl_0_r by lia.
  rewrite (Z.shiftl_mul_pow2 _ 1), Z.odd_mul by lia. by rewrite andb_false_r, Z.lxor_0_r.
Qed.

(** The state after some bytes, from the number they hold. *)
Lemma crc_bytes s bs : Forall (uint 8) bs →
  foldl crc_byte s bs = Nat.iter (8 * length bs) crc_bit (Z.lxor s (le_to_cpu bs)).
Proof.
  intros Hb. revert s. induction Hb as [|b bs Hb Hbs IH]; intros s; [by rewrite Z.lxor_0_r|].
  cbn [foldl length le_to_cpu]. rewrite IH. replace (8 * S (length bs))%nat with (8 * length bs + 8)%nat by lia.
  rewrite Nat.iter_add. f_equal. pose proof (le_to_cpu_bound bs Hbs) as [Hn _].
  replace (b + 2 ^ 8 * le_to_cpu bs) with (Z.lxor b (Z.shiftl (le_to_cpu bs) (Z.of_nat 8))).
  - rewrite <- Z.lxor_assoc, iter_lxor, iter_shift by done. done.
  - rewrite Z.lxor_comm, Z.add_comm, (Z.mul_comm (2 ^ 8)), <- lor_shiftl_add by done.
    apply Z.bits_inj'. intros i Hi. rewrite Z.lxor_spec, Z.lor_spec. change (Z.of_nat 8) with 8.
    destruct (decide (i < 8)).
    + by rewrite Z.shiftl_spec_low by lia.
    + rewrite (uint_testbit_high 8 b) by (done || lia). by rewrite orb_false_r, xorb_false_r.
Qed.

#[local] Strategy 100 [crc_bit].
Lemma crc_byte_eq s b : crc_byte s b = Nat.iter 8 crc_bit (Z.lxor s b).
Proof. reflexivity. Qed.

Lemma crc_byte_uint s b : uint 32 s → uint 8 b → uint 32 (crc_byte s b).
Proof. intros Hs Hb. unfold crc_byte. apply (iter_uint 8), uint_lxor; [lia|done|]. eapply uint_weaken; [done|lia]. Qed.

Lemma crc_fold_uint s bs : uint 32 s → Forall (uint 8) bs → uint 32 (foldl crc_byte s bs).
Proof. intros Hs Hb. revert s Hs. induction Hb; intros; [done|]. cbn [foldl]. by apply IHHb, crc_byte_uint. Qed.

Lemma lxor_cancel s s' b : Z.lxor s b = Z.lxor s' b → s = s'.
Proof. intros H. apply (f_equal (λ z, Z.lxor z b)) in H. by rewrite !Z.lxor_assoc, Z.lxor_nilpotent, !Z.lxor_0_r in H. Qed.

Lemma crc_byte_inj s s' b : uint 32 s → uint 32 s' → uint 8 b → crc_byte s b = crc_byte s' b → s = s'.
Proof.
  intros Hs Hs' Hb H. assert (uint 32 b) by (eapply uint_weaken; [done|lia]).
  rewrite !crc_byte_eq in H. apply iter_inj in H; [by apply lxor_cancel in H|apply uint_lxor; by try lia..].
Qed.

Lemma crc_fold_inj s s' bs : uint 32 s → uint 32 s' → Forall (uint 8) bs →
  foldl crc_byte s bs = foldl crc_byte s' bs → s = s'.
Proof.
  intros Hs Hs' Hb. revert s s' Hs Hs'. induction Hb as [|b bs Hb Hbs IH]; intros s s' Hs Hs' H; [done|].
  cbn [foldl] in H. apply IH in H; [|by apply crc_byte_uint..]. by apply crc_byte_inj in H.
Qed.

Lemma le_to_cpu_inj bs bs' : Forall (uint 8) bs → Forall (uint 8) bs' → length bs = length bs' →
  le_to_cpu bs = le_to_cpu bs' → bs = bs'.
Proof. intros Hb Hb' Hl H. rewrite <- (cpu_to_le_to_cpu bs), <- (cpu_to_le_to_cpu bs') by done. by rewrite Hl, H. Qed.

(** Different words of at most four bytes in the same message give different sums. *)
Lemma crc_detects pre w w' post : Forall (uint 8) (pre ++ w ++ post) → Forall (uint 8) w' →
  length w = length w' → (length w ≤ 4)%nat → w ≠ w' →
  bl808_bootheader_crc32 (pre ++ w ++ post) ≠ bl808_bootheader_crc32 (pre ++ w' ++ post).
Proof.
  rewrite !Forall_app. intros (Hpre & Hw & Hpost) Hw' Hl H4 Hne H. unfold bl808_bootheader_crc32 in H.
  assert (∀ l, Forall (uint 8) l → uint 32 (foldl crc_byte 0xFFFFFFFF l)) as Hu.
  { intros l Hf. by apply crc_fold_uint. }
  assert (∀ x y, uint 32 x → uint 32 y → not32 x = not32 y → x = y) as Hnot.
  { unfold not32. intros x y Hx Hy Hxy. apply Z.bits_inj'. intros i Hi.
    apply (f_equal (λ z, Z.testbit z i)) in Hxy. rewrite !wrap_testbit, !Z.lnot_spec in Hxy by lia.
    destruct (Z.ltb_spec i 32).
    - rewrite !andb_true_r in Hxy. by destruct (Z.testbit x i), (Z.testbit y i).
    - by rewrite !(uint_testbit_high 32) by (done || lia). }
  apply Hnot in H; [|apply Hu; by rewrite ?Forall_app..]. rewrite !foldl_app in H.
  pose proof (Hu pre Hpre) as Hs. set (s := foldl _ _ pre) in *. clearbody s.
  apply crc_fold_inj in H; [|by apply crc_fold_uint..|done].
  assert (∀ l, Forall (uint 8) l → (length l ≤ 4)%nat → uint 32 (le_to_cpu l)) as Hle.
  { intros l Hf Hlen. eapply uint_weaken; [by apply le_to_cpu_bound|lia]. }
  rewrite !crc_bytes, Hl in H by done. apply iter_inj in H.
  - apply (f_equal (Z.lxor s)) in H. rewrite <- !Z.lxor_assoc, Z.lxor_nilpotent, !Z.lxor_0_l in H.
    apply Hne. by apply le_to_cpu_inj.
  - apply uint_lxor; [lia|done|]. by apply Hle.
  - apply uint_lxor; [lia|done|]. apply Hle; [done|lia].
Qed.

(** ** Bytes of the flash *)

Definition byte_mem (m : mem) : Prop := ∀ a, uint 8 (m a).
Definition same_on (m m' : mem) (a n : Z) : Prop := ∀ x, a ≤ x < a + n → m x = m' x.

Lemma bytes_at_length m a n : 0 ≤ n → length (bytes_at m a n) = Z.to_nat n.
Proof. intros. unfold bytes_at. by rewrite length_fmap, length_seqZ. Qed.

Lemma bytes_at_bytes m a n : byte_mem m → Forall (uint 8) (bytes_at m a n).
Proof. intros H. apply Forall_fmap, Forall_true. intros x. apply H. Qed.

Lemma bytes_at_same m m' a n : same_on m m' a n → bytes_at m a n = bytes_at m' a n.
Proof. intros H. apply list_fmap_ext. intros i x Hx%list_elem_of_lookup_2. apply H. apply elem_of_seqZ in Hx. lia. Qed.

Lemma bytes_at_split m a n k : 0 ≤ k ≤ n → bytes_at m a n = bytes_at m a k ++ bytes_at m (a + k) (n - k).
Proof. intros. unfold bytes_at. rewrite <- fmap_app. f_equal. replace n with (k + (n - k)) at 1 by lia. apply seqZ_app; lia. Qed.

Lemma same_on_sub m m' a n b k : same_on m m' a n → a ≤ b → b + k ≤ a + n → same_on m m' b k.
Proof. intros H ? ? x Hx. apply H. lia. Qed.

Lemma ldl_same m m' a n o : same_on m m' a n → a ≤ o → o + 4 ≤ a + n → ldl_le_p m o = ldl_le_p m' o.
Proof. intros H ? ?. unfold ldl_le_p. by rewrite (bytes_at_same m m' o 4) by (by eapply same_on_sub). Qed.

Lemma ldl_uint m a : byte_mem m → uint 32 (ldl_le_p m a).
Proof.
  intros H. unfold ldl_le_p. pose proof (le_to_cpu_bound _ (bytes_at_bytes m a 4 H)) as Hb.
  by rewrite bytes_at_length in Hb by lia.
Qed.

Lemma lduw_uint m a : byte_mem m → uint 16 (lduw_le_p m a).
Proof.
  intros H. unfold lduw_le_p. pose proof (le_to_cpu_bound _ (bytes_at_bytes m a 2 H)) as Hb.
  by rewrite bytes_at_length in Hb by lia.
Qed.

Lemma crc_uint l : uint 32 (bl808_bootheader_crc32 l).
Proof. apply uint_wrap. lia. Qed.

(** Changing at most four consecutive bytes of a block changes its check sum. *)
Lemma crc_window m m' a n w x : byte_mem m → byte_mem m' → a ≤ w → w + 4 ≤ a + n →
  (∀ y, a ≤ y < a + n → ¬ (w ≤ y < w + 4) → m y = m' y) → w ≤ x < w + 4 → m x ≠ m' x →
  bl808_bootheader_crc32 (bytes_at m a n) ≠ bl808_bootheader_crc32 (bytes_at m' a n).
Proof.
  intros Hm Hm' Ha Hn Hout Hx Hne. assert (∀ m0, bytes_at m0 a n =
    bytes_at m0 a (w - a) ++ bytes_at m0 w 4 ++ bytes_at m0 (w + 4) (a + n - (w + 4))) as Hs.
  { intros m0. rewrite (bytes_at_split m0 a n (w - a)) by lia. f_equal.
    replace (a + (w - a)) with w by lia. rewrite (bytes_at_split m0 w _ 4) by lia. do 2 f_equal. lia. }
  pose proof (bytes_at_bytes m a n Hm) as Hb. rewrite !Hs in *.
  rewrite <- (bytes_at_same m m' a (w - a)), <- (bytes_at_same m m' (w + 4)) by (intros y Hy; apply Hout; lia).
  apply crc_detects; [done|by apply bytes_at_bytes| | |].
  - by rewrite !bytes_at_length.
  - by rewrite bytes_at_length.
  - intros Heq. apply Hne. apply (f_equal (λ l, l !! Z.to_nat (x - w))) in Heq. unfold bytes_at in Heq.
    rewrite !list_lookup_fmap, !lookup_seqZ_lt in Heq by lia. cbn in Heq.
    replace (w + Z.of_nat (Z.to_nat (x - w))) with x in Heq by lia. congruence.
Qed.

(** C28: a boot header with a check sum is rejected after any change
    confined to four consecutive bytes of what the sum covers, and the header that the
    caller gets is then empty. *)
Theorem boot_rejects_corrupt_header f f' off w x :
  byte_mem f → byte_mem f' → (bl808_bootheader_read f off).1 = true →
  ldl_le_p f (off + BL808_BOOTHEADER_CRC_OFFSET) ≠ BL808_BOOTHEADER_CRC_DEADBEEF →
  off ≤ w → w + 4 ≤ off + BL808_BOOTHEADER_CRC_OFFSET →
  (∀ y, ¬ (w ≤ y < w + 4) → f' y = f y) → w ≤ x < w + 4 → f' x ≠ f x →
  bl808_bootheader_read f' off = (false, zero_header).
Proof.
  intros Hf Hf' Hok Hdead Hw Hwe Hout Hx Hne. unfold bl808_bootheader_read in *. cbv zeta in *.
  assert (ldl_le_p f' (off + BL808_BOOTHEADER_CRC_OFFSET) = ldl_le_p f (off + BL808_BOOTHEADER_CRC_OFFSET)) as ->.
  { apply (ldl_same _ _ (off + BL808_BOOTHEADER_CRC_OFFSET) 4); [|lia..]. intros y Hy. apply Hout. lia. }
  pose proof (crc_window f f' off BL808_BOOTHEADER_CRC_OFFSET w x Hf Hf' Hw Hwe) as Hc.
  destruct (BL808_SF_CTRL_FLASH_SIZE <? _); [done|].
  destruct (_ || negb (ldl_le_p f (off + 8) =? _)); [done|].
  rewrite (proj2 (Z.eqb_neq _ _) Hdead) in *. cbn [negb andb] in *.
  destruct (_ || negb (ldl_le_p f' (off + 8) =? _)); [done|].
  destruct (Z.eqb_spec (bl808_bootheader_crc32 (bytes_at f off BL808_BOOTHEADER_CRC_OFFSET))
    (ldl_le_p f (off + BL808_BOOTHEADER_CRC_OFFSET))) as [Heq|]; [|done].
  rewrite <- Heq. cbn [negb]. rewrite (proj2 (Z.eqb_neq _ _)); [done|]. intros H. symmetry in H. revert H.
  apply Hc; [|done|congruence]. intros y _ Hy. symmetry. by apply Hout.
Qed.

(** ** What a choice depends on *)

Lemma header_read_same f f' off : same_on f f' off BL808_BOOTHEADER_SIZE →
  bl808_bootheader_read f off = bl808_bootheader_read f' off.
Proof.
  intros H. unfold bl808_bootheader_read. cbv zeta. unfold BL808_BOOTHEADER_SIZE in H.
  assert (∀ o, 0 ≤ o ≤ 348 → ldl_le_p f (off + o) = ldl_le_p f' (off + o)) as Hl.
  { intros o Ho. eapply ldl_same; [exact H|lia..]. }
  assert (∀ o, 0 ≤ o < 352 → f (off + o) = f' (off + o)) as Hb by (intros o Ho; apply H; lia).
  assert (bytes_at f off BL808_BOOTHEADER_CRC_OFFSET = bytes_at f' off BL808_BOOTHEADER_CRC_OFFSET) as ->.
  { apply bytes_at_same. eapply same_on_sub; [exact H|lia|]. unfold BL808_BOOTHEADER_CRC_OFFSET. lia. }
  assert (∀ cpu k, 0 ≤ cpu < 3 → 0 ≤ k ≤ 12 →
    ldl_le_p f (cpu_config f off cpu + k) = ldl_le_p f' (cpu_config f' off cpu + k) ∧
    f (cpu_config f off cpu + k) = f' (cpu_config f' off cpu + k)) as Hc.
  { intros cpu k Hcpu Hk. unfold cpu_config, BL808_BOOTHEADER_CPU_CFG_BASE, BL808_BOOTHEADER_CPU_CFG_SIZE.
    rewrite <- !Z.add_assoc. split; [apply Hl|apply Hb]; lia. }
  rewrite !Hl by (by vm_compute).
  assert ((λ cpu, negb (f (cpu_config f off cpu) =? 0)) <$> [0; 1; 2] =
          (λ cpu, negb (f' (cpu_config f' off cpu) =? 0)) <$> [0; 1; 2]) as ->.
  { apply list_fmap_ext. intros i cpu Hi%list_elem_of_lookup_2. rewrite <- (Z.add_0_r (cpu_config f _ _)).
    rewrite (proj2 (Hc cpu 0 ltac:(set_solver by lia) ltac:(lia))). by rewrite Z.add_0_r. }
  assert ((λ cpu, negb (f (cpu_config f off cpu + 1) =? 0)) <$> [0; 1; 2] =
          (λ cpu, negb (f' (cpu_config f' off cpu + 1) =? 0)) <$> [0; 1; 2]) as ->.
  { apply list_fmap_ext. intros i cpu Hi%list_elem_of_lookup_2.
    by rewrite (proj2 (Hc cpu 1 ltac:(set_solver by lia) ltac:(lia))). }
  assert ((λ cpu, ldl_le_p f (cpu_config f off cpu + 12)) <$> [0; 1; 2] =
          (λ cpu, ldl_le_p f' (cpu_config f' off cpu + 12)) <$> [0; 1; 2]) as ->; [|done].
  apply list_fmap_ext. intros i cpu Hi%list_elem_of_lookup_2. by apply Hc; [set_solver by lia|lia].
Qed.

Lemma table_valid_same f f' raw : byte_mem f → same_on f f' raw BL808_PT_TABLE_SIZE →
  bl808_partition_table_valid f raw = bl808_partition_table_valid f' raw.
Proof.
  intros Hf H. unfold bl808_partition_table_valid, BL808_PT_TABLE_SIZE in *. cbv zeta.
  assert (lduw_le_p f' (raw + 6) = lduw_le_p f (raw + 6)) as ->.
  { unfold lduw_le_p. f_equal. symmetry. apply bytes_at_same. eapply same_on_sub; [exact H|lia..]. }
  pose proof (lduw_uint f (raw + 6) Hf) as [Hn _]. set (n := lduw_le_p f (raw + 6)) in *. clearbody n.
  assert (∀ o, 0 ≤ o ≤ 592 → ldl_le_p f (raw + o) = ldl_le_p f' (raw + o)) as Hl.
  { intros o Ho. eapply ldl_same; [exact H|lia..]. }
  unfold BL808_PT_ENTRY_MAX, BL808_PT_ENTRY_SIZE. destruct (Z.ltb_spec 16 n); [by rewrite !orb_true_r|].
  rewrite !Hl by lia. rewrite (bytes_at_same f f' raw 12) by (eapply same_on_sub; [exact H|lia..]).
  rewrite (bytes_at_same f f' (raw + 0x10)) by (eapply same_on_sub; [exact H|lia..]). done.
Qed.

(** The tables, each with its age and entries when it is valid. *)
Definition table_at (f : mem) (raw : Z) : option (Z * Z) :=
  if BL808_SF_CTRL_FLASH_SIZE <? u32 (raw + BL808_PT_TABLE_SIZE) then None else bl808_partition_table_valid f raw.

Definition chosen (f : mem) (pts : list Z) : option (Z * Z * Z) := foldl (consider_copy f pts) None [0; 1].

(** The newer table is chosen, the second of two of the same age. *)
Lemma chosen_newest f pts :
  chosen f pts =
  match table_at f (pts !% 0), table_at f (pts !% 1) with
  | None, None => None
  | Some (a, n), None => Some (0, a, n)
  | None, Some (a, n) => Some (1, a, n)
  | Some (a0, n0), Some (a1, n1) => if a0 <=? a1 then Some (1, a1, n1) else Some (0, a0, n0)
  end.
Proof.
  unfold chosen, consider_copy, table_at. cbn [foldl]. cbv zeta.
  destruct (_ <? u32 (pts !% 0 + _)), (_ <? u32 (pts !% 1 + _));
    repeat (destruct (bl808_partition_table_valid _ _) as [[? ?]|]); try done; by destruct (_ <=? _).
Qed.

(** The slot an entry boots from, if any: which, whether it is a fall back, and the
    address of its header. *)
Definition entry_eligible (f : mem) (entry : Z) : bool :=
  (bl808_partition_name_matches f (entry + 3) name_FW || (f entry =? 0)) && (f (entry + 2) <=? 1).
Definition slot_header (f : mem) (entry slot : Z) : Z := ldl_le_p f (entry + 12 + slot * 4).
Definition slot_boots (f : mem) (entry slot : Z) : bool := (bl808_partition_entry_bootheader f entry slot).1.
Definition slot_of (f : mem) (entry : Z) : option (Z * bool) :=
  let active := Z.land (f (entry + 2)) 1 in
  if negb (entry_eligible f entry) then None
  else if slot_boots f entry active then Some (active, false)
  else if slot_boots f entry (Z.lxor active 1) then Some (Z.lxor active 1, true)
  else None.

Lemma land_1_range x : 0 ≤ Z.land x 1 ≤ 1.
Proof.
  pose proof (Z.land_ones x 1 ltac:(lia)) as H. change (Z.ones 1) with 1 in H. rewrite H.
  pose proof (Z.mod_pos_bound x (2 ^ 1) ltac:(lia)). lia.
Qed.

Lemma flip_range x : 0 ≤ x ≤ 1 → 0 ≤ Z.lxor x 1 ≤ 1 ∧ Z.lxor x 1 ≠ x ∧ Z.lxor (Z.lxor x 1) 1 = x.
Proof. intros H. by assert (x = 0 ∨ x = 1) as [->| ->] by lia. Qed.

Lemma read_offset f off : (bl808_bootheader_read f off).1 = true → flash_offset (bl808_bootheader_read f off).2 = off.
Proof. unfold bl808_bootheader_read. cbv zeta. by split_ifs. Qed.

Lemma slot_boots_offset f entry slot : slot_boots f entry slot = true →
  flash_offset (bl808_partition_entry_bootheader f entry slot).2 = slot_header f entry slot.
Proof.
  unfold slot_boots, bl808_partition_entry_bootheader. destruct (1 <? slot); [done|]. cbv zeta.
  destruct (_ =? 0); [done|]. fold (slot_header f entry slot).
  pose proof (read_offset f (slot_header f entry slot)) as Hr. destruct (bl808_bootheader_read _ _) as [ok info].
  destruct ok; [|done]. intros _. by apply Hr.
Qed.

(** ** The loop over the entries *)

Section flash.
Context {B : Type} `{!BlockBackend B}.
Implicit Types s : BL808SfCtrlState B.

Definition entry_at (raw i : Z) : Z := raw + 0x10 + i * BL808_PT_ENTRY_SIZE.

(** What the machine does about a slot it takes. *)
Definition take_slot s (pts : list Z) (c n : Z) (commit : bool) (i slot : Z) (fallback : bool) :
    BL808SfCtrlState B * BL808PartitionInfo :=
  let entry := entry_at (pts !% c) i in
  let s' := if commit && fallback
            then bl808_partition_table_writeback s (pts !% c) n i slot (pts !% Z.lxor c 1) else s in
  (s', mk_partition true fallback (slot_header (flash s) entry slot) (pts !% c) (pts !% Z.lxor c 1) c i n slot
         (if fallback then <[2%nat := slot]> (bytes_at (flash s') entry 20) else bytes_at (flash s) entry 20)).

Lemma try_entry_slot s pts c n commit i :
  try_entry s pts c n commit i =
  match slot_of (flash s) (entry_at (pts !% c) i) with
  | None => (s, None)
  | Some (slot, fallback) => let '(s', info) := take_slot s pts c n commit i slot fallback in (s', Some info)
  end.
Proof.
  unfold try_entry, slot_of, entry_eligible. cbv zeta. fold (entry_at (pts !% c) i).
  set (entry := entry_at (pts !% c) i).
  destruct (bl808_partition_name_matches (flash s) (entry + 3) name_FW || (flash s entry =? 0)) eqn:E1.
  2: { apply orb_false_iff in E1 as [-> ->]. done. }
  assert (negb (bl808_partition_name_matches (flash s) (entry + 3) name_FW) && negb (flash s entry =? 0) = false) as ->.
  { by destruct (bl808_partition_name_matches _ _ _), (flash s entry =? 0). }
  rewrite Z.ltb_antisym. destruct (flash s (entry + 2) <=? 1); [|done]. cbn [negb andb].
  pose proof (slot_boots_offset (flash s) entry (Z.land (flash s (entry + 2)) 1)) as H0.
  pose proof (slot_boots_offset (flash s) entry (Z.lxor (Z.land (flash s (entry + 2)) 1) 1)) as H1.
  unfold slot_boots in *.
  destruct (bl808_partition_entry_bootheader _ _ (Z.land _ 1)) as [ok0 i0]. cbn [fst snd] in *.
  destruct ok0; [unfold take_slot; rewrite andb_false_r; fold entry; by rewrite (H0 eq_refl)|].
  destruct (bl808_partition_entry_bootheader _ _ (Z.lxor _ 1)) as [ok1 i1]. cbn [fst snd] in *.
  destruct ok1; [|done]. cbn [negb]. unfold take_slot. fold entry. by rewrite andb_true_r, (H1 eq_refl).
Qed.

(** The first entry that boots. *)
Fixpoint first_slot (f : mem) (raw : Z) (todo : list Z) : option (Z * Z * bool) :=
  match todo with
  | [] => None
  | i :: todo =>
      match slot_of f (entry_at raw i) with
      | Some (slot, fallback) => Some (i, slot, fallback)
      | None => first_slot f raw todo
      end
  end.

Lemma entry_loop_first todo s pts c n commit :
  entry_loop todo s pts c n commit =
  match first_slot (flash s) (pts !% c) todo with
  | None => (s, None)
  | Some (i, slot, fallback) => let '(s', info) := take_slot s pts c n commit i slot fallback in (s', Some info)
  end.
Proof.
  induction todo as [|i todo IH]; [done|]. cbn [entry_loop first_slot]. rewrite try_entry_slot.
  destruct (slot_of _ _) as [[slot fb]|]; [|exact IH]. by destruct (take_slot _ _ _ _ _ _ _ _).
Qed.

Definition select_slot (f : mem) (pts : list Z) : option (Z * Z * (Z * Z * bool)) :=
  match chosen f pts with
  | None => None
  | Some (c, _, n) => match first_slot f (pts !% c) (seqZ 0 n) with None => None | Some x => Some (c, n, x) end
  end.

Lemma select_slot_spec s boot2 commit :
  bl808_select_partition_header s boot2 commit =
  match select_slot (flash s) (table_offsets boot2) with
  | None => (s, None)
  | Some (c, n, (i, slot, fallback)) =>
      let '(s', info) := take_slot s (table_offsets boot2) c n commit i slot fallback in (s', Some info)
  end.
Proof.
  unfold bl808_select_partition_header, select_slot, chosen. cbv zeta.
  destruct (foldl _ None [0; 1]) as [[[c a] n]|]; [|done]. rewrite entry_loop_first.
  by destruct (first_slot _ _ _) as [[[i slot] fb]|].
Qed.

Lemma first_slot_some f raw todo i slot fb : first_slot f raw todo = Some (i, slot, fb) →
  i ∈ todo ∧ slot_of f (entry_at raw i) = Some (slot, fb).
Proof.
  induction todo as [|j todo IH]; [done|]. cbn [first_slot].
  destruct (slot_of f (entry_at raw j)) as [[? ?]|] eqn:E; [intros [= -> -> ->]; set_solver|].
  intros [? ?]%IH. set_solver.
Qed.

Lemma first_slot_ext f f' raw todo : (∀ j, j ∈ todo → slot_of f' (entry_at raw j) = slot_of f (entry_at raw j)) →
  first_slot f' raw todo = first_slot f raw todo.
Proof.
  induction todo as [|j todo IH]; intros H; [done|]. cbn [first_slot]. rewrite H by set_solver.
  rewrite IH; [done|]. intros k Hk. apply H. set_solver.
Qed.

(** Two tables whose entries choose alike up to the one taken. *)
Lemma first_slot_alike f raw f' raw' i slot fb slot' fb' k m :
  first_slot f raw (seqZ k m) = Some (i, slot, fb) →
  (∀ j, k ≤ j < i → slot_of f' (entry_at raw' j) = slot_of f (entry_at raw j)) →
  slot_of f' (entry_at raw' i) = Some (slot', fb') →
  first_slot f' raw' (seqZ k m) = Some (i, slot', fb').
Proof.
  assert (m ≤ 0 ∨ ∃ p, m = Z.of_nat p) as [Hm|[p ->]]
    by (destruct (decide (m ≤ 0)); [by left|right; exists (Z.to_nat m); lia]).
  { by rewrite seqZ_nil. }
  revert k. induction p as [|p IH]; intros k; [done|]. rewrite seqZ_cons by lia. cbn [first_slot].
  replace (Z.pred (Z.of_nat (S p))) with (Z.of_nat p) by lia. intros Hf Hj Hi.
  destruct (slot_of f (entry_at raw k)) as [[sl fl]|] eqn:E.
  - injection Hf as -> -> ->. by rewrite Hi.
  - assert (k < i) as Hki.
    { apply first_slot_some in Hf as [Hin _]. apply elem_of_seqZ in Hin. lia. }
    rewrite Hj, E by lia. apply IH; [done| |done]. intros j Hjr. apply Hj. lia.
Qed.

(** ** Words in a block *)

Lemma put_at_out m a bs x : ¬ (a ≤ x < a + Z.of_nat (length bs)) → put_at m a bs x = m x.
Proof.
  intros H. unfold put_at. destruct (Z.leb_spec a x), (Z.ltb_spec x (a + Z.of_nat (length bs))); try done. lia.
Qed.

Lemma stl_out m a v x : ¬ (a ≤ x < a + 4) → stl_le_p m a v x = m x.
Proof. intros H. apply put_at_out. by rewrite cpu_to_le_length. Qed.

Lemma stl_in m a v k : 0 ≤ k < 4 → stl_le_p m a v (a + k) = u8 (Z.shiftr v (8 * k)).
Proof.
  intros Hk. unfold stl_le_p, put_at. rewrite cpu_to_le_length.
  rewrite (proj2 (Z.leb_le _ _)), (proj2 (Z.ltb_lt _ _)) by lia. cbn [andb].
  replace (a + k - a) with k by lia. erewrite list_lookup_total_correct; [|apply cpu_to_le_lookup; lia].
  by rewrite Z2Nat.id by lia.
Qed.

Lemma bytes_stl_out m a v o n : a + 4 ≤ o ∨ o + n ≤ a → bytes_at (stl_le_p m a v) o n = bytes_at m o n.
Proof. intros H. apply bytes_at_same. intros x Hx. apply stl_out. lia. Qed.

Lemma ldl_stl_out m a v o : a + 4 ≤ o ∨ o + 4 ≤ a → ldl_le_p (stl_le_p m a v) o = ldl_le_p m o.
Proof. intros H. unfold ldl_le_p. by rewrite bytes_stl_out. Qed.

Lemma ldl_stl m a v : ldl_le_p (stl_le_p m a v) a = u32 v.
Proof.
  unfold ldl_le_p. assert (bytes_at (stl_le_p m a v) a 4 = cpu_to_le 4 v) as ->; [|apply le_to_cpu_to_le].
  apply list_eq. intros i. unfold bytes_at. rewrite list_lookup_fmap. destruct (decide (i < 4)%nat).
  - rewrite lookup_seqZ_lt by lia. cbn [fmap option_fmap option_map]. rewrite stl_in by lia.
    by rewrite cpu_to_le_lookup.
  - rewrite lookup_seqZ_ge by lia. symmetry. apply lookup_ge_None. rewrite cpu_to_le_length. lia.
Qed.

Lemma stl_bytes m a v : byte_mem m → byte_mem (stl_le_p m a v).
Proof.
  intros H x. destruct (decide (a ≤ x < a + 4)); [|rewrite stl_out by done; apply H].
  replace x with (a + (x - a)) by lia. rewrite stl_in by lia. apply uint_wrap. lia.
Qed.

Lemma bytes_at_shift m raw o n : bytes_at m (raw + o) n = bytes_at (λ a, m (raw + a)) o n.
Proof. unfold bytes_at. rewrite <- (fmap_add_seqZ raw), <- list_fmap_compose. done. Qed.

Lemma table_valid_shift m raw : bl808_partition_table_valid m raw = bl808_partition_table_valid (λ a, m (raw + a)) 0.
Proof.
  unfold bl808_partition_table_valid, ldl_le_p, lduw_le_p. cbv zeta.
  assert (bytes_at m raw 12 = bytes_at (λ a, m (raw + a)) 0 12) as ->.
  { rewrite <- bytes_at_shift. f_equal. lia. }
  rewrite !Z.add_0_l, !bytes_at_shift. done.
Qed.

(** ** Recording a fall back *)

(** The table that is written. *)
Definition new_table (f : mem) (raw n i slot : Z) : mem :=
  let base := 0x10 + i * BL808_PT_ENTRY_SIZE in
  let end_ := 0x10 + n * BL808_PT_ENTRY_SIZE in
  let t1 := mem_store (λ a, f (raw + a)) (base + 2) slot in
  let t2 := stl_le_p t1 (base + 32) (u32 (ldl_le_p t1 (base + 32) + 1)) in
  let t3 := stl_le_p t2 0x08 (u32 (ldl_le_p t2 0x08 + 1)) in
  let t4 := stl_le_p t3 0x0C (bl808_bootheader_crc32 (bytes_at t3 0 12)) in
  stl_le_p t4 end_ (bl808_bootheader_crc32 (bytes_at t4 0x10 (n * BL808_PT_ENTRY_SIZE))).

Lemma new_table_bytes f raw n i slot : byte_mem f → uint 8 slot → byte_mem (new_table f raw n i slot).
Proof.
  intros Hf Hs. unfold new_table. cbv zeta. do 4 apply stl_bytes. intros x. unfold mem_store.
  case_match; [done|apply Hf].
Qed.

Lemma new_table_same f raw n i slot k : 0 ≤ i < n → 0 ≤ k < 596 →
  ¬ (8 ≤ k < 16) → ¬ (0x10 + n * 36 ≤ k < 0x10 + n * 36 + 4) → k ≠ 0x10 + i * 36 + 2 →
  ¬ (0x10 + i * 36 + 32 ≤ k < 0x10 + i * 36 + 36) →
  new_table f raw n i slot k = f (raw + k).
Proof.
  intros. unfold new_table, BL808_PT_ENTRY_SIZE. cbv zeta. rewrite !stl_out by lia.
  unfold mem_store. by rewrite (proj2 (Z.eqb_neq _ _)) by lia.
Qed.

Lemma new_table_slot f raw n i slot : 0 ≤ i < n → new_table f raw n i slot (0x10 + i * 36 + 2) = slot.
Proof.
  intros. unfold new_table, BL808_PT_ENTRY_SIZE. cbv zeta. rewrite !stl_out by lia.
  unfold mem_store. by rewrite Z.eqb_refl.
Qed.

(** It is valid, and newer by one. *)
Lemma new_table_valid f raw n i slot age : byte_mem f → 0 ≤ i < n →
  bl808_partition_table_valid f raw = Some (age, n) →
  bl808_partition_table_valid (new_table f raw n i slot) 0 = Some (u32 (age + 1), n).
Proof.
  intros Hf Hi Hv. rewrite table_valid_shift in Hv. unfold bl808_partition_table_valid in *. cbv zeta in *.
  rewrite !Z.add_0_l in Hv |- *. set (g := λ a, f (raw + a)) in *.
  assert (lduw_le_p (new_table f raw n i slot) 6 = lduw_le_p g 6) as ->.
  { unfold lduw_le_p. f_equal. apply bytes_at_same. intros x Hx. apply new_table_same; lia. }
  assert (ldl_le_p (new_table f raw n i slot) 0 = ldl_le_p g 0) as ->.
  { unfold ldl_le_p. f_equal. apply bytes_at_same. intros x Hx. apply new_table_same; lia. }
  destruct (_ || _) eqn:E0; [done|]. apply orb_false_iff in E0 as [_ Hmax%Z.ltb_ge].
  destruct (negb _); [done|]. destruct (negb _); [done|]. injection Hv as Hage Hn. rewrite Hn in *.
  unfold BL808_PT_ENTRY_MAX in Hmax. unfold new_table, BL808_PT_ENTRY_SIZE. cbv zeta.
  set (t1 := mem_store _ _ _). set (t2 := stl_le_p t1 _ _). set (t3 := stl_le_p t2 _ _). set (t4 := stl_le_p t3 _ _).
  set (end_ := 16 + n * 36). set (crc2 := bl808_bootheader_crc32 (bytes_at t4 16 _)).
  assert (u32 (ldl_le_p t2 8 + 1) = u32 (age + 1)) as Ha.
  { do 2 f_equal. rewrite <- Hage. unfold ldl_le_p. f_equal. apply bytes_at_same. intros x Hx.
    unfold t2, t1. rewrite stl_out by lia. unfold mem_store. by rewrite (proj2 (Z.eqb_neq _ _)) by lia. }
  rewrite (ldl_stl_out t4 end_ crc2 12), (ldl_stl_out t4 end_ crc2 8), (bytes_stl_out t4 end_ crc2 0 12) by lia.
  rewrite (bytes_stl_out t4 end_ crc2 16 (n * 36)), ldl_stl, (wrap_small 32 crc2) by (lia || apply crc_uint).
  unfold t4 at 1 2 4. rewrite ldl_stl, (bytes_stl_out t3 12 _ 0 12), wrap_small, Z.eqb_refl by (lia || apply crc_uint).
  unfold crc2. rewrite Z.eqb_refl. cbn [negb]. rewrite (ldl_stl_out t3) by lia. unfold t3. rewrite ldl_stl, Ha.
  do 2 f_equal. apply wrap_small, uint_wrap. lia.
Qed.

Lemma write_flash_flash s o data n : 0 ≤ o → 0 < n → o + n ≤ BL808_SF_CTRL_FLASH_SIZE →
  flash (bl808_sf_ctrl_write_flash s o (Some data) n) = mem_copy (flash s) o data 0 n.
Proof.
  intros Ho Hn Hon. pose proof flash_size as Hs. unfold bl808_sf_ctrl_write_flash.
  rewrite (proj2 (Z.eqb_neq n 0)), (proj2 (Z.leb_gt BL808_SF_CTRL_FLASH_SIZE o)) by lia. cbn [orb]. cbv zeta.
  rewrite wrap_small by (unfold uint; lia). rewrite (proj2 (Z.ltb_ge _ _)) by done.
  set (s1 := s <| flash := _ |>). destruct (sync_only s1 o n) as [x ->].
  by destruct (blk_write_only (s1 <| xip_ptr := x |>) o n) as [d ->].
Qed.

Lemma writeback_flash s raw n i slot wb : 0 ≤ i < n → n ≤ BL808_PT_ENTRY_MAX →
  0 ≤ wb → wb + BL808_PT_TABLE_SIZE ≤ BL808_SF_CTRL_FLASH_SIZE →
  flash (bl808_partition_table_writeback s raw n i slot wb) =
  mem_copy (flash s) wb (new_table (flash s) raw n i slot) 0 BL808_PT_TABLE_SIZE.
Proof.
  intros Hi Hn Hwb Hend. unfold bl808_partition_table_writeback. cbv zeta.
  unfold BL808_PT_ENTRY_MAX, BL808_PT_TABLE_SIZE in *.
  rewrite (proj2 (Z.leb_gt n i)), (proj2 (Z.ltb_ge _ _)) by (unfold BL808_PT_ENTRY_SIZE; lia). cbn [orb].
  by rewrite write_flash_flash by lia.
Qed.

(** ** Choices that agree *)

(** The places a choice among [n] entries of the table at [raw] looks at, besides
    the table: the headers its entries name. *)
Definition headers_off (f : mem) (raw n wb : Z) : Prop :=
  ∀ i slot, 0 ≤ i < n → 0 ≤ slot ≤ 1 →
    let h := slot_header f (entry_at raw i) slot in
    h + BL808_BOOTHEADER_SIZE ≤ wb ∨ wb + BL808_PT_TABLE_SIZE ≤ h.

Lemma slot_boots_alike f f' e e' slot : 0 ≤ slot ≤ 1 → (∀ k, 12 ≤ k < 20 → f' (e' + k) = f (e + k)) →
  bl808_bootheader_read f (slot_header f e slot) = bl808_bootheader_read f' (slot_header f e slot) →
  slot_header f' e' slot = slot_header f e slot ∧ slot_boots f' e' slot = slot_boots f e slot.
Proof.
  intros Hs He Hh. assert (slot_header f' e' slot = slot_header f e slot) as E.
  { unfold slot_header, ldl_le_p. f_equal. rewrite <- !Z.add_assoc, !bytes_at_shift. apply bytes_at_same.
    intros x Hx. apply He. lia. }
  split; [done|]. unfold slot_boots, bl808_partition_entry_bootheader. fold (slot_header f' e' slot) (slot_header f e slot).
  rewrite E. cbv zeta. destruct (1 <? slot); [done|]. destruct (_ =? 0); [done|]. by rewrite Hh.
Qed.

Lemma eligible_alike f f' e e' : f' e' = f e → (∀ k, 3 ≤ k < 12 → f' (e' + k) = f (e + k)) →
  (f' (e' + 2) <=? 1) = (f (e + 2) <=? 1) → entry_eligible f' e' = entry_eligible f e.
Proof.
  intros H0 Hk H2. unfold entry_eligible, bl808_partition_name_matches. rewrite H0, H2.
  assert (bytes_at f' (e' + 3) 9 = bytes_at f (e + 3) 9) as ->; [|done].
  rewrite !bytes_at_shift. apply bytes_at_same. intros x Hx. apply Hk. lia.
Qed.

Lemma slot_of_alike f f' e e' : (∀ k, 0 ≤ k < 20 → f' (e' + k) = f (e + k)) →
  (∀ slot, 0 ≤ slot ≤ 1 →
    bl808_bootheader_read f (slot_header f e slot) = bl808_bootheader_read f' (slot_header f e slot)) →
  slot_of f' e' = slot_of f e.
Proof.
  intros Hk Hh. unfold slot_of. cbv zeta. rewrite (Hk 2) by lia. rewrite (eligible_alike f f' e e').
  - pose proof (land_1_range (f (e + 2))) as Hr. destruct (flip_range _ Hr) as [Hr' _].
    assert (∀ slot, 0 ≤ slot ≤ 1 → slot_boots f' e' slot = slot_boots f e slot) as Hb.
    { intros slot Hs. apply slot_boots_alike; [done|intros; apply Hk; lia|by apply Hh]. }
    by rewrite !Hb.
  - rewrite <- (Z.add_0_r e'), <- (Z.add_0_r e). apply Hk. lia.
  - intros k Hk3. apply Hk. lia.
  - by rewrite Hk by lia.
Qed.

(** The two tables lie in the flash, apart from each other. *)
Record tables_apart (pts : list Z) : Prop := {
  ta_len : length pts = 2%nat;
  ta_in c : 0 ≤ c ≤ 1 → 0 ≤ pts !% c ∧ pts !% c + BL808_PT_TABLE_SIZE ≤ BL808_SF_CTRL_FLASH_SIZE;
  ta_apart : pts !% 0 + BL808_PT_TABLE_SIZE ≤ pts !% 1 ∨ pts !% 1 + BL808_PT_TABLE_SIZE ≤ pts !% 0;
}.

Lemma ta_other pts c : tables_apart pts → 0 ≤ c ≤ 1 →
  pts !% c + BL808_PT_TABLE_SIZE ≤ pts !% Z.lxor c 1 ∨ pts !% Z.lxor c 1 + BL808_PT_TABLE_SIZE ≤ pts !% c.
Proof. intros [] Hc. assert (c = 0 ∨ c = 1) as [->| ->] by lia; [done|]. change (Z.lxor 1 1) with 0. lia. Qed.

Lemma table_at_in f pts c : tables_apart pts → 0 ≤ c ≤ 1 →
  table_at f (pts !% c) = bl808_partition_table_valid f (pts !% c).
Proof.
  intros Ht Hc. destruct (ta_in _ Ht c Hc). pose proof flash_size. unfold table_at, BL808_PT_TABLE_SIZE in *.
  rewrite wrap_small by (unfold uint; lia). by rewrite (proj2 (Z.ltb_ge _ _)).
Qed.

(** The chosen copy is valid, and the other is not newer. *)
Lemma chosen_valid f pts c age n : tables_apart pts → chosen f pts = Some (c, age, n) →
  0 ≤ c ≤ 1 ∧ bl808_partition_table_valid f (pts !% c) = Some (age, n) ∧
  (bl808_partition_table_valid f (pts !% Z.lxor c 1) = None ∨
   ∃ age' n', bl808_partition_table_valid f (pts !% Z.lxor c 1) = Some (age', n') ∧
     age' ≤ age ∧ (c = 0 → age' < age)).
Proof.
  intros Ht. rewrite chosen_newest, !table_at_in by (done || lia).
  destruct (bl808_partition_table_valid f (pts !% 0)) as [[a0 n0]|] eqn:E0,
           (bl808_partition_table_valid f (pts !% 1)) as [[a1 n1]|] eqn:E1;
    [destruct (Z.leb_spec a0 a1)|..]; intros [= <- <- <-];
    (change (Z.lxor 0 1) with 1 || change (Z.lxor 1 1) with 0); rewrite ?E0, ?E1;
    (split; [lia|split; [done|]]); try (by left); right; eexists _, _; (split; [done|lia]).
Qed.

Lemma chosen_of_valid f pts c age n : tables_apart pts → 0 ≤ c ≤ 1 →
  bl808_partition_table_valid f (pts !% c) = Some (age, n) →
  (bl808_partition_table_valid f (pts !% Z.lxor c 1) = None ∨
   ∃ age' n', bl808_partition_table_valid f (pts !% Z.lxor c 1) = Some (age', n') ∧
     age' ≤ age ∧ (c = 0 → age' < age)) →
  chosen f pts = Some (c, age, n).
Proof.
  intros Ht Hc Hv Ho. rewrite chosen_newest, !table_at_in by (done || lia).
  assert (c = 0 ∨ c = 1) as [->| ->] by lia; [change (Z.lxor 0 1) with 1 in Ho|change (Z.lxor 1 1) with 0 in Ho];
    rewrite Hv; destruct Ho as [->|(a' & n' & -> & Hle & Hlt)]; try done.
  - by rewrite (proj2 (Z.leb_gt _ _)) by lia.
  - by rewrite (proj2 (Z.leb_le _ _)) by lia.
Qed.

Lemma valid_entries f raw age n : byte_mem f → bl808_partition_table_valid f raw = Some (age, n) →
  uint 32 age ∧ 0 ≤ n ≤ BL808_PT_ENTRY_MAX.
Proof.
  intros Hf. unfold bl808_partition_table_valid. cbv zeta. destruct (_ || _) eqn:E; [done|].
  apply orb_false_iff in E as [_ E%Z.ltb_ge]. destruct (negb _); [done|]. destruct (negb _); [done|].
  intros [= <- <-]. split; [by apply ldl_uint|]. split; [apply lduw_uint|]; done.
Qed.

(** Entries of a table that lies apart from [wb], after a change of what is at [wb]. *)
Lemma slot_of_untouched f f' raw n wb i :
  (∀ x, ¬ (wb ≤ x < wb + BL808_PT_TABLE_SIZE) → f' x = f x) →
  (raw + BL808_PT_TABLE_SIZE ≤ wb ∨ wb + BL808_PT_TABLE_SIZE ≤ raw) →
  headers_off f raw n wb → 0 ≤ i < n → n ≤ BL808_PT_ENTRY_MAX →
  slot_of f' (entry_at raw i) = slot_of f (entry_at raw i).
Proof.
  intros Hout Hap Hh Hi Hn. unfold BL808_PT_TABLE_SIZE, BL808_PT_ENTRY_MAX in *.
  apply slot_of_alike.
  - intros k Hk. apply Hout. unfold entry_at, BL808_PT_ENTRY_SIZE. lia.
  - intros slot Hs. apply header_read_same. intros x Hx. symmetry. apply Hout. specialize (Hh i slot Hi Hs). cbv zeta in Hh.
    unfold BL808_PT_TABLE_SIZE in Hh. lia.
Qed.

Section recorded.
Context (f f' : mem) (raw wb n i slot : Z).
Context (Hi : 0 ≤ i < n) (Hn : n ≤ BL808_PT_ENTRY_MAX).
Context (Hin : ∀ k, 0 ≤ k < BL808_PT_TABLE_SIZE → f' (wb + k) = new_table f raw n i slot k).
Context (Hout : ∀ x, ¬ (wb ≤ x < wb + BL808_PT_TABLE_SIZE) → f' x = f x).
Context (Hh : headers_off f raw n wb).

Lemma recorded_byte j k : 0 ≤ j < n → 0 ≤ k < 32 → ¬ (j = i ∧ k = 2) → f' (entry_at wb j + k) = f (entry_at raw j + k).
Proof.
  intros Hj Hk Hne. unfold entry_at, BL808_PT_ENTRY_SIZE, BL808_PT_TABLE_SIZE, BL808_PT_ENTRY_MAX in *.
  replace (wb + 0x10 + j * 36 + k) with (wb + (0x10 + j * 36 + k)) by lia. rewrite Hin by lia.
  rewrite new_table_same by lia. f_equal. lia.
Qed.

Lemma header_kept j sl : 0 ≤ j < n → 0 ≤ sl ≤ 1 →
  bl808_bootheader_read f (slot_header f (entry_at raw j) sl) = bl808_bootheader_read f' (slot_header f (entry_at raw j) sl).
Proof.
  intros Hj Hs. apply header_read_same. intros x Hx. symmetry. apply Hout. specialize (Hh j sl Hj Hs). cbv zeta in Hh. lia.
Qed.

Lemma recorded_before j : 0 ≤ j < i → slot_of f' (entry_at wb j) = slot_of f (entry_at raw j).
Proof.
  intros Hj. apply slot_of_alike; [intros k Hk; apply recorded_byte; lia|]. intros sl Hs. apply header_kept; lia.
Qed.

Lemma recorded_slot : slot_of f (entry_at raw i) = Some (slot, true) → slot_of f' (entry_at wb i) = Some (slot, false).
Proof.
  unfold slot_of at 1. cbv zeta. pose proof (land_1_range (f (entry_at raw i + 2))) as Hr.
  destruct (flip_range _ Hr) as [Hr' _].
  revert Hr'. generalize (Z.land (f (entry_at raw i + 2)) 1). intros a Hr'.
  destruct (entry_eligible f (entry_at raw i)) eqn:Eel; [|done]. cbn [negb].
  destruct (slot_boots _ _ a); [done|]. destruct (slot_boots f (entry_at raw i) (Z.lxor a 1)) eqn:Eb; [|done].
  intros [= Hsl]. rewrite Hsl in Hr', Eb.
  assert (f' (entry_at wb i + 2) = slot) as E2.
  { pose proof Hn as Hn'. unfold BL808_PT_ENTRY_MAX in Hn'. unfold entry_at, BL808_PT_ENTRY_SIZE.
    replace (wb + 0x10 + i * 36 + 2) with (wb + (0x10 + i * 36 + 2)) by lia.
    rewrite Hin by (unfold BL808_PT_TABLE_SIZE; lia). by apply new_table_slot. }
  unfold slot_of. cbv zeta. rewrite E2, (eligible_alike f f' (entry_at raw i)), Eel.
  - assert (Z.land slot 1 = slot) as -> by (by assert (slot = 0 ∨ slot = 1) as [->| ->] by lia). cbn [negb].
    rewrite (proj2 (slot_boots_alike f f' (entry_at raw i) (entry_at wb i) slot Hr'
      ltac:(intros; apply recorded_byte; lia) (header_kept i slot Hi Hr'))). by rewrite Eb.
  - rewrite <- (Z.add_0_r (entry_at wb i)), <- (Z.add_0_r (entry_at raw i)). apply recorded_byte; lia.
  - intros k Hk. apply recorded_byte; lia.
  - rewrite E2. rewrite (proj2 (Z.leb_le slot 1)) by lia. unfold entry_eligible in Eel.
    by apply andb_true_iff in Eel as [_ ->].
Qed.
End recorded.

Lemma slot_of_range f e slot fb : slot_of f e = Some (slot, fb) → 0 ≤ slot ≤ 1.
Proof.
  unfold slot_of. cbv zeta. pose proof (land_1_range (f (e + 2))) as Hr. destruct (flip_range _ Hr) as [Hr' _].
  split_ifs; [done|by intros [= <- <-]..|done].
Qed.

Lemma valid_age f raw age n : bl808_partition_table_valid f raw = Some (age, n) → ldl_le_p f (raw + 8) = age.
Proof.
  unfold bl808_partition_table_valid. cbv zeta. destruct (_ || _); [done|]. destruct (negb _); [done|].
  destruct (negb _); [done|]. by intros [= <- _].
Qed.

(** C26: when the slot that the partition table names does not boot and the
    machine falls back, it takes the other slot and writes only the other table;
    every later selection then chooses that table, the same header and the same
    slot, without another fall back or another write.  This is for two tables
    that lie in the flash and do not overlap ([tables_apart]), entries whose boot
    headers the written table does not overlap ([headers_off]), and an age of the
    table in use below [2^32 - 1]: at that age the new age wraps to 0 and the
    selection falls back again ([boot_age_wraps]). *)
Theorem boot_fallback_sticks s s' boot2 info :
  let pts := table_offsets boot2 in
  byte_mem (flash s) → tables_apart pts →
  bl808_select_partition_header s boot2 true = (s', Some info) → fallback_applied info = true →
  headers_off (flash s) (table_flash_offset info) (entry_count info) (writeback_flash_offset info) →
  ldl_le_p (flash s) (table_flash_offset info + 8) < 2 ^ 32 - 1 →
  (∀ x, ¬ (writeback_flash_offset info ≤ x < writeback_flash_offset info + BL808_PT_TABLE_SIZE) →
    flash s' x = flash s x) ∧
  ∀ commit, ∃ info',
    bl808_select_partition_header s' boot2 commit = (s', Some info') ∧
    fallback_applied info' = false ∧ table_flash_offset info' = writeback_flash_offset info ∧
    active_index info' = active_index info ∧ header_flash_offset info' = header_flash_offset info.
Proof.
  intros pts Hf Ht. rewrite select_slot_spec. fold pts. unfold select_slot.
  destruct (chosen (flash s) pts) as [[[c age] n]|] eqn:Ec; [|done].
  destruct (first_slot _ _ _) as [[[i slot] fb]|] eqn:Ei; [|done]. unfold take_slot.
  intros [= <- <-]. cbn [fallback_applied table_flash_offset entry_count writeback_flash_offset
    active_index header_flash_offset]. intros -> Hh Hage. cbn [andb].
  destruct (chosen_valid _ _ _ _ _ Ht Ec) as (Hc & Hv & Ho). destruct (flip_range c Hc) as (Hc' & Hne & Hcc).
  destruct (valid_entries _ _ _ _ Hf Hv) as [Hagew [Hn0 Hn]].
  destruct (first_slot_some _ _ _ _ _ _ Ei) as [Hi%elem_of_seqZ Hslot]. rewrite Z.add_0_l in Hi.
  set (raw := pts !% c) in *. set (wb := pts !% Z.lxor c 1) in *.
  destruct (ta_in _ Ht (Z.lxor c 1) Hc') as [Hwb Hend]. fold wb in Hwb, Hend.
  pose proof (ta_other _ c Ht Hc) as Hap. fold raw wb in Hap.
  set (s1 := bl808_partition_table_writeback s raw n i slot wb).
  assert (flash s1 = mem_copy (flash s) wb (new_table (flash s) raw n i slot) 0 BL808_PT_TABLE_SIZE) as Hfl
    by by apply writeback_flash.
  assert (∀ x, ¬ (wb ≤ x < wb + BL808_PT_TABLE_SIZE) → flash s1 x = flash s x) as Hout.
  { intros x Hx. rewrite Hfl. by apply mem_copy_out. }
  assert (∀ k, 0 ≤ k < BL808_PT_TABLE_SIZE → flash s1 (wb + k) = new_table (flash s) raw n i slot k) as Hin.
  { intros k Hk. rewrite Hfl, mem_copy_in by lia. f_equal. lia. }
  pose proof (valid_age _ _ _ _ Hv) as Eage. fold raw in Eage. rewrite Eage in Hage.
  split; [exact Hout|]. intros commit.
  assert (chosen (flash s1) pts = Some (Z.lxor c 1, u32 (age + 1), n)) as Ec'.
  { apply chosen_of_valid; [done..| |].
    - fold wb. rewrite table_valid_shift.
      transitivity (bl808_partition_table_valid (new_table (flash s) raw n i slot) 0); [|by apply new_table_valid].
      symmetry. apply table_valid_same.
      + apply new_table_bytes; [done|]. pose proof (slot_of_range _ _ _ _ Hslot). unfold uint. lia.
      + intros x Hx. symmetry. apply Hin. lia.
    - rewrite Hcc. fold raw. right. exists age, n. split.
      + rewrite <- Hv. symmetry. apply table_valid_same; [done|]. intros x Hx. symmetry. apply Hout. lia.
      + rewrite wrap_small by (unfold uint in *; lia). lia. }
  assert (first_slot (flash s1) wb (seqZ 0 n) = Some (i, slot, false)) as Ei'.
  { eapply first_slot_alike; [exact Ei| |].
    - intros j Hj. eapply recorded_before; [exact Hi|done..|lia].
    - eapply recorded_slot; [exact Hi|done..]. }
  rewrite select_slot_spec. fold pts. unfold select_slot. rewrite Ec'. fold wb. rewrite Ei'. unfold take_slot.
  rewrite andb_false_r. eexists. split; [reflexivity|]. cbn. split_and!; [done..|].
  fold wb. apply slot_boots_alike; [by eapply slot_of_range| |].
  - intros k Hk. eapply recorded_byte; [exact Hi|done..|lia|lia|lia].
  - eapply header_kept; [done..|lia|by eapply slot_of_range].
Qed.

(** Whatever a torn write leaves in the other table, as long as
    it is not a valid table, the choice of table, entry, slot and header is the same as
    before the write began. *)
Theorem boot_survives_torn_table s s1 boot2 info :
  let pts := table_offsets boot2 in
  byte_mem (flash s) → tables_apart pts →
  bl808_select_partition_header s boot2 false = (s, Some info) →
  headers_off (flash s) (table_flash_offset info) (entry_count info) (writeback_flash_offset info) →
  (∀ x, ¬ (writeback_flash_offset info ≤ x < writeback_flash_offset info + BL808_PT_TABLE_SIZE) →
    flash s1 x = flash s x) →
  bl808_partition_table_valid (flash s1) (writeback_flash_offset info) = None →
  bl808_select_partition_header s1 boot2 false = (s1, Some info).
Proof.
  intros pts Hf Ht. rewrite !select_slot_spec. fold pts. unfold select_slot.
  destruct (chosen (flash s) pts) as [[[c age] n]|] eqn:Ec; [|done].
  destruct (first_slot _ _ _) as [[[i slot] fb]|] eqn:Ei; [|done]. unfold take_slot. cbn [andb].
  intros [= <-]. cbn [table_flash_offset entry_count writeback_flash_offset]. intros Hh Hout Hinv.
  destruct (chosen_valid _ _ _ _ _ Ht Ec) as (Hc & Hv & _).
  destruct (valid_entries _ _ _ _ Hf Hv) as [_ [Hn0 Hn]].
  destruct (first_slot_some _ _ _ _ _ _ Ei) as [Hi%elem_of_seqZ Hslot]. rewrite Z.add_0_l in Hi.
  pose proof (ta_other _ c Ht Hc) as Hap. set (raw := pts !% c) in *. set (wb := pts !% Z.lxor c 1) in *.
  assert (∀ j, 0 ≤ j < n → slot_of (flash s1) (entry_at raw j) = slot_of (flash s) (entry_at raw j)) as Hj.
  { intros j Hj. by eapply slot_of_untouched. }
  assert (chosen (flash s1) pts = Some (c, age, n)) as ->.
  { apply chosen_of_valid; [done..| |by left]. fold raw. rewrite <- Hv. symmetry. apply table_valid_same; [done|].
    intros x Hx. symmetry. apply Hout. lia. }
  fold raw. rewrite (first_slot_alike (flash s) raw (flash s1) raw i slot fb slot fb 0 n Ei).
  - assert (bytes_at (flash s1) (entry_at raw i) 20 = bytes_at (flash s) (entry_at raw i) 20) as Hb.
    { apply bytes_at_same. intros x Hx. apply Hout. unfold entry_at, BL808_PT_ENTRY_SIZE, BL808_PT_TABLE_SIZE, BL808_PT_ENTRY_MAX in *. lia. }
    assert (slot_header (flash s1) (entry_at raw i) slot = slot_header (flash s) (entry_at raw i) slot) as Hsh.
    { apply slot_boots_alike; [by eapply slot_of_range| |].
      - intros k Hk. apply Hout. unfold entry_at, BL808_PT_ENTRY_SIZE, BL808_PT_TABLE_SIZE, BL808_PT_ENTRY_MAX in *. lia.
      - apply header_read_same. intros x Hx. symmetry. apply Hout. pose proof (Hh i slot Hi (slot_of_range _ _ _ _ Hslot)) as Hx'.
        cbv zeta in Hx'. lia. }
    fold raw. by rewrite Hb, Hsh.
  - intros j Hjr. apply Hj. lia.
  - by rewrite Hj.
Qed.

(** ** Reads stay in the flash *)

Lemma header_read_inside f f' off : 0 ≤ off < 2 ^ 32 - BL808_BOOTHEADER_SIZE →
  same_on f f' 0 BL808_SF_CTRL_FLASH_SIZE → bl808_bootheader_read f off = bl808_bootheader_read f' off.
Proof.
  intros Hoff Hs. unfold BL808_BOOTHEADER_SIZE in Hoff.
  destruct (decide (off + 352 ≤ BL808_SF_CTRL_FLASH_SIZE)) as [Hle|Hgt].
  - apply header_read_same. intros x Hx. apply Hs. unfold BL808_BOOTHEADER_SIZE in Hx. lia.
  - unfold bl808_bootheader_read, BL808_BOOTHEADER_SIZE. rewrite wrap_small by (unfold uint; lia).
    by rewrite (proj2 (Z.ltb_lt _ _)) by lia.
Qed.

Lemma table_at_inside f f' raw : byte_mem f → uint 28 raw → same_on f f' 0 BL808_SF_CTRL_FLASH_SIZE →
  table_at f raw = table_at f' raw.
Proof.
  intros Hf Hraw Hs. unfold table_at, BL808_PT_TABLE_SIZE, uint in *. rewrite wrap_small by (unfold uint; lia).
  destruct (Z.ltb_spec BL808_SF_CTRL_FLASH_SIZE (raw + 596)); [done|]. apply table_valid_same; [done|].
  eapply same_on_sub; [exact Hs|lia|unfold BL808_PT_TABLE_SIZE; lia].
Qed.

(** C29: as long as no entry names a header within 352 bytes of the end of the
    32-bit address space, a choice depends only on bytes of the flash: two flashes that
    agree on their 16 MiB give the same result. *)
Theorem boot_reads_inside s s1 boot2 :
  byte_mem (flash s) → same_on (flash s) (flash s1) 0 BL808_SF_CTRL_FLASH_SIZE →
  (∀ c, 0 ≤ c ≤ 1 → uint 28 (table_offsets boot2 !% c)) →
  (∀ c i slot, 0 ≤ c ≤ 1 → 0 ≤ i < BL808_PT_ENTRY_MAX → 0 ≤ slot ≤ 1 →
    slot_header (flash s) (entry_at (table_offsets boot2 !% c) i) slot < 2 ^ 32 - BL808_BOOTHEADER_SIZE) →
  (bl808_select_partition_header s boot2 false).2 = (bl808_select_partition_header s1 boot2 false).2.
Proof.
  intros Hf Hs Hpts Hh. rewrite !select_slot_spec. unfold select_slot. set (pts := table_offsets boot2) in *.
  assert (chosen (flash s1) pts = chosen (flash s) pts) as ->.
  { rewrite !chosen_newest. by rewrite !(table_at_inside (flash s) (flash s1)) by (done || apply Hpts; lia). }
  destruct (chosen (flash s) pts) as [[[c age] n]|] eqn:Ec; [|done].
  assert (0 ≤ c ≤ 1 ∧ table_at (flash s) (pts !% c) = Some (age, n)) as [Hc Hv].
  { rewrite chosen_newest in Ec. destruct (table_at (flash s) (pts !% 0)) as [[a0 n0]|] eqn:E0,
      (table_at (flash s) (pts !% 1)) as [[a1 n1]|] eqn:E1; [destruct (a0 <=? a1)|..]; by simplify_eq. }
  pose proof (Hpts c Hc) as Hraw. set (raw := pts !% c) in *. unfold table_at in Hv.
  unfold BL808_PT_TABLE_SIZE, uint in Hv, Hraw. rewrite wrap_small in Hv by (unfold uint; lia).
  destruct (Z.ltb_spec BL808_SF_CTRL_FLASH_SIZE (raw + 596)) as [|Hin]; [done|].
  destruct (valid_entries _ _ _ _ Hf Hv) as [_ [Hn0 Hn]]. unfold BL808_PT_ENTRY_MAX in *.
  assert (∀ i k, 0 ≤ i < n → 0 ≤ k < 36 → flash s1 (entry_at raw i + k) = flash s (entry_at raw i + k)) as Hb.
  { intros i k Hi Hk. symmetry. apply Hs. unfold entry_at, BL808_PT_ENTRY_SIZE. lia. }
  assert (∀ i slot, 0 ≤ i < n → 0 ≤ slot ≤ 1 →
    bl808_bootheader_read (flash s) (slot_header (flash s) (entry_at raw i) slot) =
    bl808_bootheader_read (flash s1) (slot_header (flash s) (entry_at raw i) slot)) as Hr.
  { intros i slot Hi Hsl. apply header_read_inside; [|done]. split; [|apply Hh; lia]. by apply ldl_uint. }
  rewrite (first_slot_ext (flash s) (flash s1)).
  2: { intros j Hj%elem_of_seqZ. apply slot_of_alike; [intros k Hk; apply Hb; lia|]. intros slot Hsl. apply Hr; lia. }
  destruct (first_slot (flash s) raw (seqZ 0 n)) as [[[i slot] fb]|] eqn:Ei; [|done].
  destruct (first_slot_some _ _ _ _ _ _ Ei) as [Hi%elem_of_seqZ Hslot]. rewrite Z.add_0_l in Hi.
  pose proof (slot_of_range _ _ _ _ Hslot) as Hsl. unfold take_slot. fold raw. cbn [andb snd].
  assert (bytes_at (flash s1) (entry_at raw i) 20 = bytes_at (flash s) (entry_at raw i) 20) as ->.
  { rewrite <- (Z.add_0_r (entry_at raw i)), !bytes_at_shift. apply bytes_at_same. intros x Hx. apply Hb; lia. }
  by rewrite (proj1 (slot_boots_alike _ _ _ _ slot Hsl (λ k Hk, Hb i k Hi ltac:(lia)) (Hr i slot Hi Hsl))).
Qed.

(** ** The jump of the boot ROM *)

(** The two instructions it uses, after the RISC-V manual, for a core with registers
    of [xlen] bits: the new program counter and register file. *)
Definition sext (w x : Z) : Z := (x + 2 ^ (w - 1)) mod 2 ^ w - 2 ^ (w - 1).
Definition field (insn lo w : Z) : Z := Z.land (Z.shiftr insn lo) (Z.ones w).

Definition exec (xlen : Z) (insn pc : Z) (regs : Z → Z) : option (Z * (Z → Z)) :=
  let rd := field insn 7 5 in
  let set v := λ r, if (r =? rd) && negb (rd =? 0) then v else regs r in
  if field insn 0 7 =? 0x37 then
    Some (wrap xlen (pc + 4), set (wrap xlen (sext 32 (Z.shiftl (field insn 12 20) 12))))
  else if (field insn 0 7 =? 0x67) && (field insn 12 3 =? 0) then
    let target := wrap xlen (regs (field insn 15 5) + sext 12 (field insn 20 12)) in
    Some (clr target 1, set (wrap xlen (pc + 4)))
  else None.

Definition fetch (rom : mem) (base pc : Z) : Z := ldl_le_p rom (pc - base).

Lemma land_small w x : 0 ≤ w → uint w x → Z.land x (Z.ones w) = x.
Proof. intros Hw. by apply uint_land_ones. Qed.

Lemma encode_lui_eq rd imm : uint 5 rd → uint 20 imm →
  bl808_riscv_encode_lui rd imm = imm * 2 ^ 12 + rd * 2 ^ 7 + 0x37.
Proof.
  intros Hr Hi. unfold bl808_riscv_encode_lui. change 0xFFFFF with (Z.ones 20). change 0x1F with (Z.ones 5).
  rewrite (land_small 20), (land_small 5) by done. unfold uint in *.
  rewrite <- Z.lor_assoc, (lor_shiftl_add 7), lor_shiftl_add; unfold uint; lia.
Qed.

Lemma encode_jalr_eq rd rs1 imm : uint 5 rd → uint 5 rs1 →
  bl808_riscv_encode_jalr rd rs1 imm = wrap 12 imm * 2 ^ 20 + rs1 * 2 ^ 15 + rd * 2 ^ 7 + 0x67.
Proof.
  intros Hr Hs. unfold bl808_riscv_encode_jalr. change 0xFFF with (Z.ones 12). change 0x1F with (Z.ones 5).
  rewrite (land_small 5 rd), (land_small 5 rs1) by done. rewrite <- (wrap_land 12 (u32 imm)) by lia.
  assert (wrap 12 (u32 imm) = wrap 12 imm) as ->.
  { unfold wrap. apply Z.mod_mod_divide. by exists (2 ^ 20). }
  pose proof (uint_wrap 12 imm ltac:(lia)) as Hi. unfold uint in *.
  rewrite <- !Z.lor_assoc, (lor_shiftl_add 7), (lor_shiftl_add 15), lor_shiftl_add; unfold uint; lia.
Qed.

Lemma field_eq insn lo w : 0 ≤ lo → 0 ≤ w → field insn lo w = (insn / 2 ^ lo) mod 2 ^ w.
Proof. intros. unfold field. by rewrite Z.land_ones, Z.shiftr_div_pow2. Qed.

Ltac fields := rewrite !field_eq by lia; cbn [Z.pow Z.pow_pos Pos.iter Z.mul Pos.mul];
  Z.to_euclidean_division_equations; lia.

Lemma exec_lui xlen imm pc regs : uint 20 imm →
  ∃ regs', exec xlen (bl808_riscv_encode_lui 5 imm) pc regs = Some (wrap xlen (pc + 4), regs') ∧
           regs' 5 = wrap xlen (sext 32 (imm * 2 ^ 12)).
Proof.
  intros Hi. unfold exec. rewrite encode_lui_eq by done. unfold uint in Hi.
  assert (field (imm * 2 ^ 12 + 5 * 2 ^ 7 + 0x37) 0 7 = 0x37) as -> by fields.
  assert (field (imm * 2 ^ 12 + 5 * 2 ^ 7 + 0x37) 7 5 = 5) as -> by fields.
  assert (field (imm * 2 ^ 12 + 5 * 2 ^ 7 + 0x37) 12 20 = imm) as -> by fields.
  cbv zeta. rewrite Z.eqb_refl, Z.shiftl_mul_pow2 by lia. eexists. split; [reflexivity|]. done.
Qed.

Lemma exec_jalr xlen imm pc regs :
  ∃ regs', exec xlen (bl808_riscv_encode_jalr 0 5 imm) pc regs =
           Some (clr (wrap xlen (regs 5 + sext 12 (wrap 12 imm))) 1, regs').
Proof.
  unfold exec. rewrite encode_jalr_eq by done. pose proof (uint_wrap 12 imm ltac:(lia)) as Hi. unfold uint in Hi.
  set (v := wrap 12 imm) in *. clearbody v.
  assert (field (v * 2 ^ 20 + 5 * 2 ^ 15 + 0 * 2 ^ 7 + 0x67) 0 7 = 0x67) as -> by fields.
  assert (field (v * 2 ^ 20 + 5 * 2 ^ 15 + 0 * 2 ^ 7 + 0x67) 12 3 = 0) as -> by fields.
  assert (field (v * 2 ^ 20 + 5 * 2 ^ 15 + 0 * 2 ^ 7 + 0x67) 15 5 = 5) as -> by fields.
  assert (field (v * 2 ^ 20 + 5 * 2 ^ 15 + 0 * 2 ^ 7 + 0x67) 20 12 = v) as -> by fields.
  eexists. reflexivity.
Qed.

(** The two immediates add up to the target. *)
Lemma immediates xlen target : uint 32 target → xlen = 32 ∨ xlen = 64 ∧ target < 2 ^ 31 - 2 ^ 11 →
  let hi := Z.shiftr (u32 (target + 0x800)) 12 in
  let lo := i32 target - i32 (u32 (Z.shiftl hi 12)) in
  uint 20 hi ∧ wrap xlen (wrap xlen (sext 32 (hi * 2 ^ 12)) + sext 12 (wrap 12 lo)) = target.
Proof.
  intros Ht Hx. cbv zeta. unfold wrap, i32, sext, uint in *. rewrite Z.shiftr_div_pow2, Z.shiftl_mul_pow2 by lia.
  set (hi := (target + 0x800) mod 2 ^ 32 / 2 ^ 12).
  assert (0 ≤ hi < 2 ^ 20 ∧ (target + 0x800) mod 2 ^ 32 = hi * 2 ^ 12 + (target + 0x800) mod 2 ^ 12) as [Hhi Heq].
  { unfold hi. Z.to_euclidean_division_equations; lia. }
  clearbody hi. split; [done|]. rewrite (Z.mod_small (hi * 2 ^ 12)) by lia.
  assert (((target + 2 ^ 31) mod 2 ^ 32 - 2 ^ 31 - ((hi * 2 ^ 12 + 2 ^ 31) mod 2 ^ 32 - 2 ^ 31)) mod 2 ^ 12 = target mod 2 ^ 12) as ->.
  { Z.to_euclidean_division_equations; lia. }
  assert ((target mod 2 ^ 12 + 2 ^ (12 - 1)) mod 2 ^ 12 = (target + 0x800) mod 2 ^ 12) as ->.
  { Z.to_euclidean_division_equations; lia. }
  destruct Hx as [->|[-> Hlt]].
  - rewrite Z.add_mod_idemp_l by lia. Z.to_euclidean_division_equations; lia.
  - Z.to_euclidean_division_equations; lia.
Qed.

(** The two instructions of the boot ROM take a core to every even 32-bit
    target: on a core of 32 bits always, on one of 64 bits for the targets below
    2^31 - 2^11 (the flash window is one of them). *)
Theorem boot_rom_jumps rom target xlen regs :
  uint 32 target → Z.even target = true → xlen = 32 ∨ xlen = 64 ∧ target < 2 ^ 31 - 2 ^ 11 →
  let rom := bl808_bootrom_build_jump rom target in
  let pc := BL808_BOOTROM_BASE in
  ∃ regs1 regs2,
    exec xlen (fetch rom pc pc) pc regs = Some (pc + 4, regs1) ∧
    exec xlen (fetch rom pc (pc + 4)) (pc + 4) regs1 = Some (target, regs2).
Proof.
  intros Ht Hev Hx. cbv zeta. unfold bl808_bootrom_build_jump, bl808_bootrom_write32. cbv zeta.
  destruct (immediates xlen target Ht Hx) as [Hhi Hsum]. set (hi := Z.shiftr _ 12) in *. set (lo := i32 target - _) in *.
  assert (uint 32 (bl808_riscv_encode_lui 5 hi)) as Hl.
  { rewrite encode_lui_eq by done. unfold uint in *. lia. }
  assert (uint 32 (bl808_riscv_encode_jalr 0 5 lo)) as Hj.
  { rewrite encode_jalr_eq by done. pose proof (uint_wrap 12 lo ltac:(lia)). unfold uint in *. lia. }
  unfold fetch. rewrite Z.sub_diag, Z.add_simpl_l.
  rewrite !(ldl_stl_out _ 8), (ldl_stl_out _ 4 _ 0), !ldl_stl, !wrap_small by (lia || done).
  destruct (exec_lui xlen hi BL808_BOOTROM_BASE regs Hhi) as (regs1 & H1 & H5).
  destruct (exec_jalr xlen lo (BL808_BOOTROM_BASE + 4) regs1) as (regs2 & H2).
  exists regs1, regs2. rewrite H1, H2, H5, Hsum. split.
  - do 2 f_equal. by destruct Hx as [->|[-> _]].
  - do 2 f_equal. change 1 with (2 ^ 1 - 1). rewrite clr_low by lia. rewrite Zmod_even, Hev. lia.
Qed.
End flash.
