(* ===== verification/BootRun.v ===== *)
(** * Booting from flash: the machine at reset

    The boot ROM that a reset builds jumps into the image that the window of the first
    core then shows, also when the reset records a fall back in between.  The second
    half holds the theorems of [BootSpec] and of this file on a concrete flash, and
    images on which the code does something else than it means to. *)

From S2P Require Import Prelude Qemu SfCtrl SfCtrlSpec Boot BootSpec SfFlash.
From stdpp Require Import prelude list.
From Stdlib Require Import ZArith Lia.
Local Open Scope Z_scope.
Import BL808SFCTRL BL808BOOT.

Section machine.
Context {B : Type} `{!BlockBackend B}.
Implicit Types s : BL808MachineState B.

Lemma set_offset_only (c : BL808SfCtrlState B) g b v : (g, b) ∈ group_banks →
  flash (bl808_sf_ctrl_set_flash_image_offset c g b v) = flash c ∧
  xip_offset (bl808_sf_ctrl_set_flash_image_offset c g b v) = set2 (xip_offset c) g b (Z.land v 0x0FFFFFFF).
Proof.
  intros Hgb. unfold bl808_sf_ctrl_set_flash_image_offset.
  assert (sf_ctrl_valid_group_bank g b = true) as Hv.
  { unfold group_banks in Hgb. set_unfold in Hgb. destruct_or! Hgb; simplify_eq; done. }
  rewrite Hv. cbn [negb]. cbv zeta. unfold sf_ctrl_refresh_xip_view. rewrite Hv. cbn [negb].
  by destruct (xip_ptr _ g b).
Qed.

(** Without a fall back to record, a choice depends on the flash only. *)
Lemma select_flash (c c' : BL808SfCtrlState B) boot2 : flash c = flash c' →
  (bl808_select_partition_header c boot2 false).2 = (bl808_select_partition_header c' boot2 false).2.
Proof.
  intros Hf. rewrite !select_slot_spec, Hf. destruct (select_slot _ _) as [[[k n] [[i slot] fb]]|]; [|done].
  unfold take_slot. cbn [andb snd]. by rewrite Hf.
Qed.

Lemma primary_flash s s' : flash (sf_ctrl s) = flash (sf_ctrl s') → strict_fidelity s = strict_fidelity s' →
  boot_gpio39 s = boot_gpio39 s' → have_m0_entry s = have_m0_entry s' →
  bl808_primary_flash_bootheader s = bl808_primary_flash_bootheader s'.
Proof.
  intros Hf H1 H2 H3. unfold bl808_primary_flash_bootheader. cbv zeta. rewrite Hf, H1, H2, H3.
  destruct (bl808_bootheader_read _ _) as [ok boot2]. by rewrite (select_flash _ (sf_ctrl s')).
Qed.

Lemma slot_of_boots f e slot fb : slot_of f e = Some (slot, fb) → slot_boots f e slot = true.
Proof.
  unfold slot_of. cbv zeta. destruct (negb _); [done|]. destruct (slot_boots f e (Z.land _ 1)) eqn:E0; [by intros [= <- _]|].
  destruct (slot_boots f e (Z.lxor _ 1)) eqn:E1; [by intros [= <- _]|done].
Qed.

Lemma slot_boots_read f e slot : slot_boots f e slot = true →
  ∃ info, bl808_bootheader_read f (slot_header f e slot) = (true, info) ∧ cpu0_boots info = true.
Proof.
  unfold slot_boots, bl808_partition_entry_bootheader, slot_header. cbv zeta. destruct (1 <? slot); [done|].
  destruct (_ =? 0); [done|]. destruct (bl808_bootheader_read f _) as [ok info]. cbn.
  intros [-> Hc]%andb_true_iff. by exists info.
Qed.

(** What the machine boots from. *)
Definition boot2_header s : BL808BootHeaderInfo := (bl808_bootheader_read (flash (sf_ctrl s)) BL808_FLASH_OFFSET_M0).2.

(** No firmware header lies in a partition table. *)
Definition headers_apart s : Prop :=
  let pts := table_offsets (boot2_header s) in
  ∀ c, 0 ≤ c ≤ 1 → headers_off (flash (sf_ctrl s)) (pts !% c) BL808_PT_ENTRY_MAX (pts !% Z.lxor c 1).

(** The machine boots from its flash. *)
Record boots_flash s : Prop := {
  bf_image : bootrom_image s = None;
  bf_strict : strict_fidelity s = false;
  bf_gpio : boot_gpio39 s = false;
  bf_entry : have_m0_entry s = false;
}.

Definition group_offset (hdr : BL808BootHeaderInfo) : Z := Z.land (u32 (flash_offset hdr + group_image_offset hdr)) 0x0FFFFFFF.

Lemma show_group_spec s hdr : let s' := show_group s hdr in
  xip_offset (sf_ctrl s') = set2 (xip_offset (sf_ctrl s)) 0 0 (group_offset hdr) ∧
  flash (sf_ctrl s') = flash (sf_ctrl s) ∧ bootrom s' = bootrom s ∧ have_m0_entry s' = have_m0_entry s.
Proof.
  unfold show_group. cbv zeta.
  destruct (set_offset_only ((sf_ctrl s) <| reset_xip_offset := set2 (reset_xip_offset (sf_ctrl s)) 0 0
    (u32 (flash_offset hdr + group_image_offset hdr)) |>) 0 0 (u32 (flash_offset hdr + group_image_offset hdr)))
    as [Hf Hx]; [set_solver|].
  destruct (power_on_mm hdr); cbn [sf_ctrl set_field bootrom have_m0_entry]; rewrite Hf, Hx; done.
Qed.

(** The window of the first core after [reset_boot_m0]. *)
Lemma primary_window s : let '(ok, hdr) := bl808_primary_flash_bootheader s in
  let r := if ok then (show_group s hdr, hdr) else (s, hdr) in
  xip_offset (sf_ctrl s) 0 0 = 0 →
  xip_offset (sf_ctrl r.1) 0 0 = (if ok then group_offset hdr else 0) ∧
  bootrom r.1 = bootrom s ∧ have_m0_entry r.1 = have_m0_entry s.
Proof.
  destruct (bl808_primary_flash_bootheader s) as [ok hdr]. cbv zeta. intros H0. destruct ok; [|done].
  destruct (show_group_spec s hdr) as (Hx & _ & Hb & Hm). cbn [fst]. by rewrite Hx, set2_eq.
Qed.

(** The slot that is taken lies in a table, and its header boots. *)
Lemma slot_in_table s boot2 c n i slot fb : byte_mem (flash (sf_ctrl s)) → tables_apart (table_offsets boot2) →
  select_slot (flash (sf_ctrl s)) (table_offsets boot2) = Some (c, n, (i, slot, fb)) →
  0 ≤ c ≤ 1 ∧ 0 ≤ i < n ∧ n ≤ BL808_PT_ENTRY_MAX ∧ 0 ≤ table_offsets boot2 !% Z.lxor c 1 ∧
  table_offsets boot2 !% Z.lxor c 1 + BL808_PT_TABLE_SIZE ≤ BL808_SF_CTRL_FLASH_SIZE.
Proof.
  intros Hf Ht. unfold select_slot. destruct (chosen _ _) as [[[c0 age] n0]|] eqn:Ec; [|done].
  destruct (first_slot _ _ _) as [[[i0 sl] fb0]|] eqn:Ei; [|done]. intros [= -> -> -> -> ->].
  destruct (chosen_valid _ _ _ _ _ Ht Ec) as (Hc & Hv & _). destruct (valid_entries _ _ _ _ Hf Hv) as [_ [Hn0 Hn]].
  destruct (first_slot_some _ _ _ _ _ _ Ei) as [Hi%elem_of_seqZ _].
  destruct (ta_in _ Ht (Z.lxor c 1) (proj1 (flip_range c Hc))). split_and!; try done; lia.
Qed.

Lemma chosen_slot_header s boot2 c n i slot fb : byte_mem (flash (sf_ctrl s)) → tables_apart (table_offsets boot2) →
  (∀ c, 0 ≤ c ≤ 1 → headers_off (flash (sf_ctrl s)) (table_offsets boot2 !% c) BL808_PT_ENTRY_MAX
                      (table_offsets boot2 !% Z.lxor c 1)) →
  select_slot (flash (sf_ctrl s)) (table_offsets boot2) = Some (c, n, (i, slot, fb)) →
  let f := flash (sf_ctrl s) in
  let wb := table_offsets boot2 !% Z.lxor c 1 in
  let h := slot_header f (entry_at (table_offsets boot2 !% c) i) slot in
  ∃ hdr, bl808_bootheader_read f h = (true, hdr) ∧ cpu0_boots hdr = true ∧
    ∀ f', (∀ x, ¬ (wb ≤ x < wb + BL808_PT_TABLE_SIZE) → f' x = f x) → bl808_bootheader_read f' h = (true, hdr).
Proof.
  intros Hf Ht Hh Hs f wb h. destruct (slot_in_table _ _ _ _ _ _ _ Hf Ht Hs) as (Hc & Hi & Hn & _).
  unfold select_slot in Hs. destruct (chosen _ _) as [[[c0 age] n0]|]; [|done].
  destruct (first_slot _ _ _) as [[[i0 sl] fb0]|] eqn:Ei; [|done]. injection Hs as -> -> -> -> ->.
  destruct (first_slot_some _ _ _ _ _ _ Ei) as [_ Hslot].
  destruct (slot_boots_read _ _ _ (slot_of_boots _ _ _ _ Hslot)) as (hdr & Hr & Hcpu).
  exists hdr. split_and!; [done..|]. intros f' Hout. rewrite <- Hr. symmetry. apply header_read_same.
  intros x Hx. symmetry. apply Hout. pose proof (Hh c Hc i slot ltac:(lia) (slot_of_range _ _ _ _ Hslot)) as Ho.
  cbv zeta in Ho. fold f wb h in Ho. fold f h in Hx. lia.
Qed.

Lemma reset_boot_m0_window s : boots_flash s → byte_mem (flash (sf_ctrl s)) →
  tables_apart (table_offsets (boot2_header s)) → headers_apart s →
  let '(ok, hdr) := bl808_primary_flash_bootheader s in
  let s' := (reset_boot_m0 s).1 in
  xip_offset (sf_ctrl s') 0 0 = (if ok then group_offset hdr else 0) ∧ bootrom s' = bootrom s ∧ have_m0_entry s' = false.
Proof.
  intros [_ Hst Hgp Hen] Hf Ht Hh. unfold reset_boot_m0. cbv zeta.
  set (c0 := (sf_ctrl (bl808_boot2_clear_pass_params s)) <| reset_xip_offset := _ |>).
  destruct (set_offset_only c0 0 0 0) as [Hfl Hx]; [set_solver|].
  set (s1 := (bl808_boot2_clear_pass_params s) <| sf_ctrl := bl808_sf_ctrl_set_flash_image_offset c0 0 0 0 |>).
  assert (flash (sf_ctrl s1) = flash (sf_ctrl s)) as Hfl1 by exact Hfl.
  assert (xip_offset (sf_ctrl s1) 0 0 = 0) as Hx1.
  { change (xip_offset (sf_ctrl s1)) with (xip_offset (bl808_sf_ctrl_set_flash_image_offset c0 0 0 0)). by rewrite Hx, set2_eq. }
  assert (bootrom s1 = bootrom s) as Hb1 by done. assert (have_m0_entry s1 = false) as Hm1 by exact Hen.
  assert (strict_fidelity s1 = false) as Hst1 by exact Hst. assert (boot_gpio39 s1 = false) as Hgp1 by exact Hgp.
  clearbody s1. clear c0 Hfl Hx. rewrite Hst1, Hgp1, Hm1. cbn [negb andb].
  assert (∀ s2, flash (sf_ctrl s2) = flash (sf_ctrl s) → strict_fidelity s2 = false → boot_gpio39 s2 = false →
    have_m0_entry s2 = false → bl808_primary_flash_bootheader s2 = bl808_primary_flash_bootheader s) as Hp.
  { intros s2 ????. apply primary_flash; congruence. }
  pose proof (primary_window s1) as Hw1. rewrite (Hp s1) in Hw1 |- * by done. rewrite Hfl1.
  destruct (bl808_bootheader_read (flash (sf_ctrl s)) BL808_FLASH_OFFSET_M0) as [ok2 boot2] eqn:E2.
  assert (boot2_header s = boot2) as Eb by (unfold boot2_header; by rewrite E2). unfold headers_apart in Hh.
  rewrite Eb in Ht, Hh. cbv zeta in Hh.
  destruct ok2; cbn [negb].
  2: { destruct (bl808_primary_flash_bootheader s) as [ok hdr]. destruct (Hw1 Hx1) as (? & -> & ->).
       destruct ok; by split_and!. }
  rewrite (select_slot_spec (sf_ctrl s1)), Hfl1.
  destruct (select_slot (flash (sf_ctrl s)) (table_offsets boot2)) as [[[c n] [[i slot] fb]]|] eqn:Es.
  - destruct (chosen_slot_header s boot2 c n i slot fb Hf Ht Hh Es) as (hdr & Hr & Hcpu & Hkeep).
    assert (bl808_primary_flash_bootheader s = (true, hdr)) as ->.
    { unfold bl808_primary_flash_bootheader. cbv zeta. rewrite E2, Hst, Hgp, Hen. cbn [orb negb].
      rewrite select_slot_spec, Es. unfold take_slot. cbn [andb snd header_flash_offset]. by rewrite Hr, Hcpu. }
    unfold take_slot. cbv zeta. cbn [header_flash_offset].
    set (c' := if true && fb then _ else _).
    assert (bl808_bootheader_read (flash c') (slot_header (flash (sf_ctrl s)) (entry_at (table_offsets boot2 !% c) i) slot)
      = (true, hdr)) as Hr'.
    { apply Hkeep. intros x Hx. unfold c'. destruct fb; cbn [andb]; [|by rewrite Hfl1].
      destruct (slot_in_table s boot2 c n i slot true Hf Ht Es) as (Hc & Hi & Hn & Hwb & Hend).
      rewrite writeback_flash, mem_copy_out by done. by rewrite Hfl1. }
    rewrite Hfl1. change (sf_ctrl (s1 <| sf_ctrl := c' |>)) with c'. rewrite Hr', Hcpu. cbn [andb].
    set (info := mk_partition _ _ _ _ _ _ _ _ _ _).
    assert (∀ s2, bootrom (bl808_boot2_store_partition_params s2 info) = bootrom s2 ∧
      have_m0_entry (bl808_boot2_store_partition_params s2 info) = have_m0_entry s2) as Hst2 by done.
    set (s2 := s1 <| sf_ctrl := c' |>). destruct (Hst2 s2) as [Hb2 Hm2].
    cbn [fst]. destruct (show_group_spec (bl808_boot2_store_partition_params s2 info) hdr) as (-> & _ & -> & ->).
    by rewrite set2_eq, Hb2, Hm2.
  - set (s2 := s1 <| sf_ctrl := sf_ctrl s1 |>). assert (s2 = s1) as -> by (by destruct s1). rewrite (Hp s1) by done.
    destruct (bl808_primary_flash_bootheader s) as [ok hdr]. destruct (Hw1 Hx1) as (? & -> & ->).
    destruct ok; by split_and!.
Qed.

Lemma boot_others_only s hdr :
  xip_offset (sf_ctrl (reset_boot_others s hdr)) 0 0 = xip_offset (sf_ctrl s) 0 0 ∧
  bootrom (reset_boot_others s hdr) = bootrom s ∧ have_m0_entry (reset_boot_others s hdr) = have_m0_entry s.
Proof.
  unfold reset_boot_others. cbv zeta. set (s5 := if have_d0_entry _ then _ else _).
  assert (sf_ctrl s5 = sf_ctrl s ∧ bootrom s5 = bootrom s ∧ have_m0_entry s5 = have_m0_entry s) as (Hc & Hb & Hm).
  { unfold s5. destruct (have_lp_entry s); [|destruct (cpu_boots hdr 2); [|destruct (negb (strict_fidelity s))]];
      (destruct (have_d0_entry _); [done|]); (destruct (cpu_boots hdr 1); [done|]); by destruct (_ && _). }
  clearbody s5. set (off := if cpu_boots hdr 1 then _ else _). set (c := (sf_ctrl s5) <| reset_xip_offset := _ |>).
  destruct (set_offset_only c 1 0 off) as [_ Hx]; [set_solver|]. split_and!; [|exact Hb|exact Hm].
  change (xip_offset (bl808_sf_ctrl_set_flash_image_offset c 1 0 off) 0 0 = xip_offset (sf_ctrl s) 0 0).
  rewrite Hx, set2_ne by done. change (xip_offset c) with (xip_offset (sf_ctrl s5)). by rewrite Hc.
Qed.

(** C27: after a reset from flash the boot ROM jumps to the first core's
    image offset in the very header whose group the window of that core shows, also when
    the reset has recorded a fall back in between, and the core starts in the boot ROM. *)
Theorem boot_rom_matches_window ctl2 s s' :
  boots_flash s → byte_mem (flash (sf_ctrl s)) → tables_apart (table_offsets (boot2_header s)) → headers_apart s →
  machine_boot ctl2 s = Some s' →
  let '(ok, hdr) := bl808_primary_flash_bootheader s in
  let target := if ok then u32 (BL808_FLASH_XIP_BASE + cpu_image_offset hdr !!! 0%nat) else BL808_FLASH_XIP_BASE in
  bootrom s' = put_at (bl808_bootrom_build_jump (mem_fill (bootrom s) 0 BL808_BOOTROM_SIZE 0) target)
                 (BL808_BOOTROM_SIZE - 16) signature ∧
  xip_offset (sf_ctrl s') 0 0 = (if ok then group_offset hdr else 0) ∧
  m0_pc s' = BL808_BOOTROM_BASE.
Proof.
  intros [Him Hst Hgp Hen] Hf Ht Hh. unfold machine_boot, bl808_populate_bootrom. cbv zeta.
  rewrite Him, Hst, Hen, Hgp. destruct (bl808_primary_flash_bootheader s) as [ok hdr] eqn:Ep.
  set (rom := put_at _ _ signature). set (s1 := s <| bootrom := rom |>).
  assert (have_m0_entry s1 = false) as -> by exact Hen.
  set (s2 := s1 <| pds_ctl2 := ctl2 |> <| pds_cpu_core_cfg13 := 0 |>).
  pose proof (reset_boot_m0_window s2) as Hw. rewrite (primary_flash s2 s), Ep in Hw by done.
  destruct Hw as (Hx & Hb & Hm); [by split|exact Hf|exact Ht|exact Hh|].
  destruct (reset_boot_m0 s2) as [s3 hdr3]. cbn [fst] in *. intros [= <-].
  destruct (boot_others_only s3 hdr3) as (Hx3 & Hb3 & Hm3).
  split_and!.
  - change (bootrom (reset_boot_others s3 hdr3) = rom). by rewrite Hb3, Hb.
  - change (xip_offset (sf_ctrl (reset_boot_others s3 hdr3)) 0 0 = (if ok then group_offset hdr else 0)). by rewrite Hx3.
  - change (m0_pc (reset_start_m0 ?x)) with (if have_m0_entry x then m0_entry x else BL808_BOOTROM_BASE).
    by rewrite Hm3, Hm.
Qed.
End machine.

(** ** A flash with a firmware in its second slot *)

Module BootDemo.
Import SfDemo.

(** A boot header whose first core is enabled, with its image at 0x1000. *)
Definition header_body : list Z :=
  foldl (λ l '(i, v), <[i := v]> l) (replicate 348 0)
    [(0x00%nat, 0x42); (0x01%nat, 0x46); (0x02%nat, 0x4E); (0x03%nat, 0x50);
     (0x08%nat, 0x46); (0x09%nat, 0x43); (0x0A%nat, 0x46); (0x0B%nat, 0x47);
     (0xB0%nat, 1); (0xBD%nat, 0x10)].
Definition header : list Z := header_body ++ cpu_to_le 4 (bl808_bootheader_crc32 header_body).

(** One entry, named FW, whose slots are at 0x10000 and 0x20000; the first is active. *)
Definition fw_entry : list Z :=
  [0; 0; 0; 0x46; 0x57] ++ replicate 7 0 ++ cpu_to_le 4 0x10000 ++ cpu_to_le 4 0x20000 ++ replicate 16 0.
Definition table_head (age : Z) : list Z := cpu_to_le 4 BL808_PT_MAGIC_CODE ++ [0; 0; 1; 0] ++ cpu_to_le 4 age.
Definition table (age : Z) : list Z :=
  table_head age ++ cpu_to_le 4 (bl808_bootheader_crc32 (table_head age)) ++
  fw_entry ++ cpu_to_le 4 (bl808_bootheader_crc32 fw_entry) ++ replicate 540 0.

(** The tables are at their default addresses; the first slot is blank. *)
Definition image (age0 age1 : Z) : mem :=
  put_at (put_at (put_at (put_at (λ _, 0xFF) 0 header) 0xE000 (table age0)) 0xF000 (table age1)) 0x20000 header.
Definition chip (f : mem) : BL808SfCtrlState mem := (fresh None) <| flash := f |>.
Definition machine (f : mem) : BL808MachineState mem :=
  mk_machine (chip f) (λ _, 0) (λ _, 0) None false false false 0 false 0 false 0 0 0 0 0 0.

Lemma put_at_bytes m a bs : byte_mem m → Forall (uint 8) bs → byte_mem (put_at m a bs).
Proof.
  intros Hm Hb x. unfold put_at. destruct (Z.leb_spec a x), (Z.ltb_spec x (a + Z.of_nat (length bs))); try apply Hm.
  cbn [andb]. eapply Forall_lookup_1; [exact Hb|]. apply list_lookup_lookup_total_lt. lia.
Qed.

Lemma header_bytes : Forall (uint 8) header.
Proof. apply (bool_decide_unpack _). by vm_compute. Qed.

Lemma table_bytes age : uint 32 age → Forall (uint 8) (table age).
Proof.
  intros _. unfold table, table_head. repeat (apply Forall_app_2); try apply cpu_to_le_bytes;
    apply (bool_decide_unpack _); by vm_compute.
Qed.

Lemma image_bytes_ok a0 a1 : uint 32 a0 → uint 32 a1 → byte_mem (image a0 a1).
Proof.
  intros H0 H1. unfold image. repeat (apply put_at_bytes); try apply header_bytes; try by apply table_bytes.
  intros x. by vm_compute.
Qed.

(** The checks of [headers_off], computed. *)
Definition headers_off_b (f : mem) (raw n wb : Z) : bool :=
  forallb (λ i, forallb (λ slot,
    let h := slot_header f (entry_at raw i) slot in
    (h + BL808_BOOTHEADER_SIZE <=? wb) || (wb + BL808_PT_TABLE_SIZE <=? h)) [0; 1]) (seqZ 0 n).

Lemma headers_off_ok f raw n wb : headers_off_b f raw n wb = true → headers_off f raw n wb.
Proof.
  unfold headers_off_b. rewrite forallb_forall. intros H i slot Hi Hs. cbv zeta.
  specialize (H i). rewrite <- list_elem_of_In, elem_of_seqZ in H. specialize (H ltac:(lia)).
  rewrite forallb_forall in H. specialize (H slot). cbv zeta in H.
  apply orb_true_iff in H as [H%Z.leb_le|H%Z.leb_le]; [by left|by right|].
  assert (slot = 0 ∨ slot = 1) as [->| ->] by lia; cbn; auto.
Qed.

Definition boot2 : BL808BootHeaderInfo := (bl808_bootheader_read (image 4 5) 0).2.

Lemma demo_tables : tables_apart (table_offsets boot2).
Proof.
  assert (table_offsets boot2 = [0xE000; 0xF000]) as -> by by vm_compute.
  split; [done| |by left]. intros c Hc. by assert (c = 0 ∨ c = 1) as [->| ->] by lia.
Qed.

(** The newer table is the second; the fall back goes to the first. *)
Definition taken (prefix : list Z) : BL808PartitionInfo :=
  mk_partition true true 0x20000 0xF000 0xE000 1 0 1 1 prefix.
Definition prefix : list Z := [0; 0; 1; 0x46; 0x57] ++ replicate 7 0 ++ cpu_to_le 4 0x10000 ++ cpu_to_le 4 0x20000.

Lemma demo_selected commit :
  (bl808_select_partition_header (chip (image 4 5)) boot2 commit).2 = Some (taken prefix).
Proof. destruct commit; by vm_compute. Qed.

Lemma demo_headers : headers_off (image 4 5) 0xF000 1 0xE000.
Proof. apply headers_off_ok. by vm_compute. Qed.

Lemma demo_age : ldl_le_p (image 4 5) (0xF000 + 8) < 2 ^ 32 - 1.
Proof. by vm_compute. Qed.

Lemma pair_eq {X Y : Type} (p : X * Y) y : p.2 = y → p = (p.1, y).
Proof. by destruct p; intros; subst. Qed.

Lemma boot_fallback_sticks_witness :
  let s := chip (image 4 5) in
  let s' := (bl808_select_partition_header s boot2 true).1 in
  ∃ info', (bl808_select_partition_header s' boot2 true).2 = Some info' ∧ fallback_applied info' = false ∧
    header_flash_offset info' = 0x20000.
Proof.
  cbv zeta. pose proof (boot_fallback_sticks (chip (image 4 5)) _ boot2 (taken prefix)
    (image_bytes_ok 4 5 ltac:(done) ltac:(done)) demo_tables (pair_eq _ _ (demo_selected true)) eq_refl
    demo_headers demo_age) as [_ H].
  destruct (H true) as (info' & H1 & H2 & _ & _ & H3). exists info'.
  exact (conj (f_equal snd H1) (conj H2 H3)).
Defined.

(** A table of which nothing but the first bytes was written. *)
Definition torn : mem := put_at (image 4 5) 0xE000 (replicate 20 0xFF).

Lemma boot_survives_torn_table_witness :
  (bl808_select_partition_header (chip torn) boot2 false).2 = Some (taken prefix).
Proof.
  refine (f_equal snd (boot_survives_torn_table (chip (image 4 5)) (chip torn) boot2 (taken prefix) _ _ _ _ _ _)).
  - by apply image_bytes_ok.
  - exact demo_tables.
  - exact (pair_eq _ _ (demo_selected false)).
  - exact demo_headers.
  - intros x Hx. apply put_at_out. cbn [writeback_flash_offset taken] in Hx. rewrite length_replicate.
    unfold BL808_PT_TABLE_SIZE in Hx. lia.
  - by vm_compute.
Defined.

(** One byte of the header changed. *)
Definition corrupt : mem := mem_store (image 4 5) 0xBD 0x11.

Lemma boot_rejects_corrupt_header_witness : bl808_bootheader_read corrupt 0 = (false, zero_header).
Proof.
  apply (boot_rejects_corrupt_header (image 4 5) corrupt 0 0xBD 0xBD).
  - by apply image_bytes_ok.
  - intros x. unfold corrupt, mem_store. case_match; [done|]. by apply image_bytes_ok.
  - by vm_compute.
  - by vm_compute.
  - lia.
  - by vm_compute.
  - intros y Hy. unfold corrupt, mem_store. by rewrite (proj2 (Z.eqb_neq _ _)) by lia.
  - lia.
  - by vm_compute.
Defined.

Lemma boot_reads_inside_witness : 
  (bl808_select_partition_header (chip (image 4 5)) boot2 false).2 =
  (bl808_select_partition_header (chip (λ a, if a <? 0 then 0 else image 4 5 a)) boot2 false).2.
Proof.
  apply boot_reads_inside.
  - by apply image_bytes_ok.
  - intros x Hx. cbn. by rewrite (proj2 (Z.ltb_ge _ _)) by lia.
  - intros c Hc. assert (table_offsets boot2 = [0xE000; 0xF000]) as -> by by vm_compute.
    by assert (c = 0 ∨ c = 1) as [->| ->] by lia.
  - intros c i slot Hc Hi Hs. unfold BL808_PT_ENTRY_MAX, BL808_BOOTHEADER_SIZE in *.
    assert (forallb (λ c, forallb (λ i, forallb (λ slot,
      slot_header (image 4 5) (entry_at ([0xE000; 0xF000] !% c) i) slot <? 2 ^ 32 - 352) [0; 1]) (seqZ 0 16)) [0; 1] = true) as H
      by by vm_compute.
    assert (table_offsets boot2 = [0xE000; 0xF000]) as -> by by vm_compute.
    rewrite forallb_forall in H. assert (In c [0; 1]) as Hin by (assert (c = 0 ∨ c = 1) as [->| ->] by lia; cbn; auto).
    specialize (H c Hin). cbv beta in H. rewrite forallb_forall in H.
    assert (In i (seqZ 0 16)) as Hii by (apply list_elem_of_In, elem_of_seqZ; lia).
    specialize (H i Hii). cbv beta in H. rewrite forallb_forall in H.
    assert (In slot [0; 1]) as Hsi by (assert (slot = 0 ∨ slot = 1) as [->| ->] by lia; cbn; auto).
    specialize (H slot Hsi). by apply Z.ltb_lt in H.
Defined.

Lemma demo_headers_apart : headers_apart (machine (image 4 5)).
Proof.
  unfold headers_apart. cbv zeta. intros c Hc. assert (table_offsets (boot2_header (machine (image 4 5))) = [0xE000; 0xF000]) as -> by by vm_compute.
  by assert (c = 0 ∨ c = 1) as [->| ->] by lia; apply headers_off_ok; vm_compute.
Qed.

Lemma demo_machine_tables : tables_apart (table_offsets (boot2_header (machine (image 4 5)))).
Proof.
  assert (table_offsets (boot2_header (machine (image 4 5))) = [0xE000; 0xF000]) as -> by by vm_compute.
  split; [done| |by left]. intros c Hc. by assert (c = 0 ∨ c = 1) as [->| ->] by lia.
Qed.

Lemma demo_machine_bytes : byte_mem (flash (sf_ctrl (machine (image 4 5)))).
Proof. by apply (image_bytes_ok 4 5). Qed.

Lemma demo_boots_flash : boots_flash (machine (image 4 5)).
Proof. by split. Qed.

(** The header in the second slot. *)
Definition header_info : BL808BootHeaderInfo := (bl808_bootheader_read (image 4 5) 0x20000).2.

Lemma demo_primary : bl808_primary_flash_bootheader (machine (image 4 5)) = (true, header_info).
Proof. by vm_compute. Qed.

Lemma demo_group : group_offset header_info = 0x20000.
Proof. by vm_compute. Qed.

Lemma demo_boots : is_Some (machine_boot 0 (machine (image 4 5))).
Proof.
  unfold machine_boot. assert (∃ s, bl808_populate_bootrom (machine (image 4 5)) = Some s) as [s ->] by by eexists.
  cbv zeta. by destruct (reset_boot_m0 _).
Qed.

Lemma boot_rom_matches_window_witness :
  ∃ s', machine_boot 0 (machine (image 4 5)) = Some s' ∧ xip_offset (sf_ctrl s') 0 0 = 0x20000.
Proof.
  destruct demo_boots as [s' H]. exists s'. split; [exact H|].
  pose proof (boot_rom_matches_window 0 (machine (image 4 5)) s' demo_boots_flash
    demo_machine_bytes demo_machine_tables demo_headers_apart H) as Hb.
  rewrite demo_primary in Hb. destruct Hb as (_ & Hx & _). exact (eq_trans Hx demo_group).
Defined.

Lemma boot_rom_jumps_witness :
  let rom := bl808_bootrom_build_jump (λ _, 0) 0x58001000 in
  ∃ regs1 regs2,
    exec 32 (fetch rom BL808_BOOTROM_BASE BL808_BOOTROM_BASE) BL808_BOOTROM_BASE (λ _, 0) =
      Some (BL808_BOOTROM_BASE + 4, regs1) ∧
    exec 32 (fetch rom BL808_BOOTROM_BASE (BL808_BOOTROM_BASE + 4)) (BL808_BOOTROM_BASE + 4) regs1 =
      Some (0x58001000, regs2).
Proof.
  apply (boot_rom_jumps (λ _, 0) 0x58001000 32 (λ _, 0)); [done|done|by left].
Defined.

(** *** What the code does not mean to do *)

(** The bound of a header is checked with a sum of 32 bits: an entry may name an
    address at the end of the address space, and the header is read beyond the flash. *)
Lemma boot_header_out_of_bounds :
  BL808_SF_CTRL_FLASH_SIZE < 2 ^ 32 - 352 ∧
  (bl808_bootheader_read (put_at (image 4 5) (2 ^ 32 - 352) header) (2 ^ 32 - 352)).1 = true ∧
  (bl808_bootheader_read (image 4 5) (2 ^ 32 - 352)).1 = false.
Proof. by vm_compute. Qed.

(** The age of a table wraps: after 2^32 - 1 the recorded fall back is older than the
    table it replaces, and every boot falls back again. *)
Lemma boot_age_wraps :
  let s' := (bl808_select_partition_header (chip (image 4 (2 ^ 32 - 1))) boot2 true).1 in
  (bl808_select_partition_header s' boot2 true).2 = Some (taken prefix).
Proof. by vm_compute. Qed.
End BootDemo.
