(* ===== verification/Spi.v ===== *)
(** * The SPI controller ([qemu-machine/hw/ssi/bl808_spi.c])

    One module [BL808SPI]: the state, the register handlers, the bottom half that
    moves frames over the bus, the entry points of the DMA controller, the clock
    and reset hooks.  The bus behind the controller belongs to the emulator and is
    the interface [SSIBus]. *)

From S2P Require Import Prelude Qemu Fifo.
From stdpp Require Import prelude list.
From Stdlib Require Import ZArith Lia.
Local Open Scope Z_scope.

(** [ssi_transfer]: the frame sent over the bus and the frame the selected
    peripheral answers. *)
Class SSIBus (B : Type) := ssi_transfer : B → Z → Z * B.

Module BL808SPI.

Definition BL808_SPI_FIFO_DEPTH := 32.

(** ** State *)

Section state.
Context {B : Type}.

Record BL808SPIState := mk_spi {
  irq : bool;               (* level last passed to qemu_set_irq *)
  cs : bool;                (* chip select, active low *)
  transfer_bh : bool;       (* the bottom half is scheduled *)
  bus : option B;
  config : Z;               (* uint32_t *)
  int_sts : Z;
  int_enable : Z;
  int_mask : Z;
  prd0 : Z;
  prd1 : Z;
  rxd_ignr : Z;
  sto_value : Z;
  fifo_config0 : Z;
  fifo_config1 : Z;
  tx_fifo : list Z;         (* uint32_t[BL808_SPI_FIFO_DEPTH] *)
  rx_fifo : list Z;
  tx_head : Z; tx_tail : Z; tx_count : Z;
  rx_head : Z; rx_tail : Z; rx_count : Z;
  rx_ignore_remaining : Z;
  transfer_scheduled : bool;
  transfer_active : bool;
  gate_enabled : bool;
  module_clock_enabled : bool;
  clock_enabled : bool;
  reset_asserted : bool;
  loopback : bool;
}.
End state.
Arguments BL808SPIState : clear implicits.

#[export] Instance eta_spi {B} : Eta (BL808SPIState B) := λ r,
  mk_spi (irq r) (cs r) (transfer_bh r) (bus r) (config r) (int_sts r) (int_enable r) (int_mask r)
    (prd0 r) (prd1 r) (rxd_ignr r) (sto_value r) (fifo_config0 r) (fifo_config1 r) (tx_fifo r)
    (rx_fifo r) (tx_head r) (tx_tail r) (tx_count r) (rx_head r) (rx_tail r) (rx_count r)
    (rx_ignore_remaining r) (transfer_scheduled r) (transfer_active r) (gate_enabled r)
    (module_clock_enabled r) (clock_enabled r) (reset_asserted r) (loopback r).

Definition SPI_CONFIG_REG := 0x00.
Definition SPI_INT_STS := 0x04.
Definition SPI_BUS_BUSY := 0x08.
Definition SPI_PRD0 := 0x10.
Definition SPI_PRD1 := 0x14.
Definition SPI_RXD_IGNR := 0x18.
Definition SPI_STO_VALUE := 0x1C.
Definition SPI_FIFO_CONFIG0 := 0x80.
Definition SPI_FIFO_CONFIG1 := 0x84.
Definition SPI_FIFO_WDATA := 0x88.
Definition SPI_FIFO_RDATA := 0x8C.

Definition SPI_MASTER_EN := BIT 0.
Definition SPI_SLAVE_EN := BIT 1.
Definition SPI_FRAME_SIZE_SHIFT := 2.
Definition SPI_FRAME_SIZE_MASK := Z.shiftl 3 SPI_FRAME_SIZE_SHIFT.
Definition SPI_RXD_IGNR_EN := BIT 8.

Definition SPI_INT_END := BIT 0.
Definition SPI_INT_TX_FIFO := BIT 1.
Definition SPI_INT_RX_FIFO := BIT 2.
Definition SPI_INT_TX_UNDER := BIT 4.
Definition SPI_INT_FIFO_ERR := BIT 5.
Definition SPI_INT_MASK_SHIFT := 8.
Definition SPI_INT_CLEAR_SHIFT := 16.
Definition SPI_INT_STATUS_MASK := 0x3F.

Definition SPI_FIFO_DMA_RX_EN := BIT 0.
Definition SPI_FIFO_DMA_TX_EN := BIT 1.
Definition SPI_FIFO_TX_CLR := BIT 2.
Definition SPI_FIFO_RX_CLR := BIT 3.
Definition SPI_FIFO_TX_OVERFLOW := BIT 4.
Definition SPI_FIFO_TX_UNDERFLOW := BIT 5.
Definition SPI_FIFO_RX_OVERFLOW := BIT 6.
Definition SPI_FIFO_RX_UNDERFLOW := BIT 7.
Definition SPI_FIFO_STATUS_MASK :=
  Z.lor (Z.lor (Z.lor SPI_FIFO_TX_OVERFLOW SPI_FIFO_TX_UNDERFLOW) SPI_FIFO_RX_OVERFLOW) SPI_FIFO_RX_UNDERFLOW.

(** ** Operations *)

Section spi.
Context {B : Type} `{!SSIBus B}.
Notation state := (BL808SPIState B).
Implicit Types s : state.

Definition bl808_spi_clock_active s : bool := clock_enabled s && negb (reset_asserted s).

Definition bl808_spi_recompute_clock s : state :=
  s <| clock_enabled := gate_enabled s && module_clock_enabled s |>.

Definition frame_size s : Z := Z.shiftr (Z.land (config s) SPI_FRAME_SIZE_MASK) SPI_FRAME_SIZE_SHIFT.

Definition bl808_spi_fifo_depth s : Z :=
  if frame_size s =? 0 then 32 else if frame_size s =? 1 then 16 else 8.

Definition bl808_spi_tx_free s : Z :=
  let depth := bl808_spi_fifo_depth s in
  if tx_count s <? depth then u32 (depth - tx_count s) else 0.

Definition bl808_spi_frame_mask s : Z :=
  if frame_size s =? 0 then 0xFF
  else if frame_size s =? 1 then 0xFFFF
  else if frame_size s =? 2 then 0x00FFFFFF
  else 0xFFFFFFFF.

Definition bl808_spi_enabled s : bool := tst (config s) (Z.lor SPI_MASTER_EN SPI_SLAVE_EN).

Definition bl808_spi_idle_frame s : Z := bl808_spi_frame_mask s.

Definition bl808_spi_dynamic_ints s : Z :=
  let tx_free := bl808_spi_tx_free s in
  let tx_thresh := Z.land (Z.shiftr (fifo_config1 s) 16) 0x1f in
  let rx_thresh := Z.land (Z.shiftr (fifo_config1 s) 24) 0x1f in
  let pending := 0 in
  let pending := if tx_thresh <? tx_free then Z.lor pending SPI_INT_TX_FIFO else pending in
  let pending := if rx_thresh <? rx_count s then Z.lor pending SPI_INT_RX_FIFO else pending in
  let pending := if tst (fifo_config0 s) SPI_FIFO_TX_UNDERFLOW
                 then Z.lor pending SPI_INT_TX_UNDER else pending in
  if tst (fifo_config0 s) (Z.lor (Z.lor SPI_FIFO_TX_OVERFLOW SPI_FIFO_RX_OVERFLOW) SPI_FIFO_RX_UNDERFLOW)
  then Z.lor pending SPI_INT_FIFO_ERR else pending.

Definition bl808_spi_update_irq s : state :=
  let pending := clr (Z.land (Z.lor (int_sts s) (bl808_spi_dynamic_ints s)) (int_enable s)) (int_mask s) in
  s <| irq := bl808_spi_clock_active s && negb (pending =? 0) |>.

Definition bl808_spi_clear_tx_fifo s : state :=
  s <| tx_head := 0 |> <| tx_tail := 0 |> <| tx_count := 0 |>
    <| fifo_config0 := clr (fifo_config0 s) (Z.lor SPI_FIFO_TX_OVERFLOW SPI_FIFO_TX_UNDERFLOW) |>.

Definition bl808_spi_clear_rx_fifo s : state :=
  s <| rx_head := 0 |> <| rx_tail := 0 |> <| rx_count := 0 |> <| rx_ignore_remaining := 0 |>
    <| fifo_config0 := clr (fifo_config0 s) (Z.lor SPI_FIFO_RX_OVERFLOW SPI_FIFO_RX_UNDERFLOW) |>.

Definition bl808_spi_schedule_transfer s : state :=
  if negb (clock_enabled s) || reset_asserted s || negb (bl808_spi_enabled s) ||
     transfer_scheduled s || (tx_count s =? 0)
  then s
  else s <| transfer_scheduled := true |> <| transfer_bh := true |>.

Definition bl808_spi_push_rx s (value : Z) : state :=
  if tst (config s) SPI_RXD_IGNR_EN && (rx_ignore_remaining s <? Z.land (rxd_ignr s) 0xFF)
  then s <| rx_ignore_remaining := u32 (rx_ignore_remaining s + 1) |>
  else if bl808_spi_fifo_depth s <=? rx_count s
  then s <| fifo_config0 := Z.lor (fifo_config0 s) SPI_FIFO_RX_OVERFLOW |>
  else s <| rx_fifo := <[Z.to_nat (rx_tail s) := Z.land value (bl808_spi_frame_mask s)]> (rx_fifo s) |>
         <| rx_tail := (rx_tail s + 1) mod BL808_SPI_FIFO_DEPTH |>
         <| rx_count := u32 (rx_count s + 1) |>.

Definition dma_width (width_bytes : Z) : bool :=
  (width_bytes =? 1) || (width_bytes =? 2) || (width_bytes =? 4).

Definition bl808_spi_dma_can_read s (width_bytes : Z) : bool :=
  if negb (clock_enabled s) || reset_asserted s || negb (tst (fifo_config0 s) SPI_FIFO_DMA_RX_EN) then false
  else if dma_width width_bytes then 0 <? rx_count s else false.

Definition bl808_spi_dma_can_write s (width_bytes : Z) : bool :=
  if negb (clock_enabled s) || reset_asserted s || negb (tst (fifo_config0 s) SPI_FIFO_DMA_TX_EN) then false
  else if dma_width width_bytes then tx_count s <? bl808_spi_fifo_depth s else false.

(** The value of a transfer of [width_bytes] in a 32-bit word. *)
Definition dma_value (value width_bytes : Z) : Z :=
  if width_bytes =? 1 then Z.land value 0xFF else if width_bytes =? 2 then Z.land value 0xFFFF else value.

(** A frame leaves the receive FIFO. *)
Definition pop_rx s : state :=
  s <| rx_head := (rx_head s + 1) mod BL808_SPI_FIFO_DEPTH |> <| rx_count := u32 (rx_count s - 1) |>.

Definition bl808_spi_dma_read s (width_bytes : Z) : Z * state :=
  if rx_count s =? 0 then
    let s := bl808_spi_update_irq (s <| fifo_config0 := Z.lor (fifo_config0 s) SPI_FIFO_RX_UNDERFLOW |>) in
    (bl808_spi_idle_frame s, s)
  else
    let value := rx_fifo s !!! Z.to_nat (rx_head s) in
    (dma_value value width_bytes, bl808_spi_update_irq (pop_rx s)).

(** A frame enters the transmit FIFO, which has room. *)
Definition push_tx s (value : Z) : state :=
  let s := if tx_count s =? 0 then s <| rx_ignore_remaining := 0 |> else s in
  let s := s <| tx_fifo := <[Z.to_nat (tx_tail s) := Z.land value (bl808_spi_frame_mask s)]> (tx_fifo s) |>
             <| tx_tail := (tx_tail s + 1) mod BL808_SPI_FIFO_DEPTH |>
             <| tx_count := u32 (tx_count s + 1) |>
             <| int_sts := clr (int_sts s) SPI_INT_END |> in
  bl808_spi_schedule_transfer s.

Definition bl808_spi_dma_write s (value width_bytes : Z) : state :=
  if bl808_spi_fifo_depth s <=? tx_count s
  then bl808_spi_update_irq (s <| fifo_config0 := Z.lor (fifo_config0 s) SPI_FIFO_TX_OVERFLOW |>)
  else bl808_spi_update_irq (push_tx s (dma_value value width_bytes)).

(** ** The bottom half *)

(** What comes back for the frame [tx]. *)
Definition answer s (tx : Z) : Z * option B :=
  if loopback s then (tx, bus s)
  else match bus s with
       | Some b => let '(rx, b) := ssi_transfer b tx in (rx, Some b)
       | None => (bl808_spi_idle_frame s, None)
       end.

Definition transfer_frame s : state :=
  let tx := tx_fifo s !!! Z.to_nat (tx_head s) in
  let '(rx, b) := answer s tx in
  let s := s <| bus := b |>
             <| tx_head := (tx_head s + 1) mod BL808_SPI_FIFO_DEPTH |>
             <| tx_count := u32 (tx_count s - 1) |> in
  bl808_spi_push_rx s (Z.land rx (bl808_spi_frame_mask s)).

(** Every round takes a frame out of the FIFO: as many rounds as it holds frames
    are enough.  The second component is the flag [transferred]. *)
Fixpoint transfer_loop (fuel : nat) s (transferred : bool) : state * bool :=
  match fuel with
  | O => (s, transferred)
  | S fuel => if 0 <? tx_count s then transfer_loop fuel (transfer_frame s) true else (s, transferred)
  end.

Definition bl808_spi_transfer_bh s : state :=
  let s := s <| transfer_scheduled := false |> in
  if negb (clock_enabled s) || reset_asserted s || negb (bl808_spi_enabled s)
  then bl808_spi_update_irq s
  else
    let s := s <| transfer_active := true |> in
    let s := if negb (loopback s) then s <| cs := false |> else s in
    let '(s, transferred) := transfer_loop (Z.to_nat (tx_count s)) s false in
    let s := if negb (loopback s) then s <| cs := true |> else s in
    let s := s <| transfer_active := false |> in
    let s := if transferred then s <| int_sts := Z.lor (int_sts s) SPI_INT_END |> else s in
    bl808_spi_update_irq s.

(** The main loop of the emulator runs the bottom half if it is scheduled. *)
Definition run_bh s : state :=
  if transfer_bh s then bl808_spi_transfer_bh (s <| transfer_bh := false |>) else s.

(** ** Register accesses *)

Definition bl808_spi_fifo_config1 s : Z :=
  let value := clr (fifo_config1 s) (Z.lor 0x3F (Z.shiftl 0x3F 8)) in
  let value := Z.lor value (Z.land (bl808_spi_tx_free s) 0x3F) in
  Z.lor value (Z.shiftl (Z.land (Z.min (rx_count s) (bl808_spi_fifo_depth s)) 0x3F) 8).

Definition bl808_spi_read s (offset size : Z) : Z * state :=
  if offset =? SPI_CONFIG_REG then (config s, s)
  else if offset =? SPI_INT_STS then
    (Z.lor (Z.lor (Z.lor (int_sts s) (bl808_spi_dynamic_ints s))
              (u32 (Z.shiftl (int_mask s) SPI_INT_MASK_SHIFT)))
       (u32 (Z.shiftl (int_enable s) 24)), s)
  else if offset =? SPI_BUS_BUSY then (Z.b2z (transfer_active s || transfer_scheduled s), s)
  else if offset =? SPI_PRD0 then (prd0 s, s)
  else if offset =? SPI_PRD1 then (prd1 s, s)
  else if offset =? SPI_RXD_IGNR then (rxd_ignr s, s)
  else if offset =? SPI_STO_VALUE then (sto_value s, s)
  else if offset =? SPI_FIFO_CONFIG0 then (fifo_config0 s, s)
  else if offset =? SPI_FIFO_CONFIG1 then (bl808_spi_fifo_config1 s, s)
  else if offset =? SPI_FIFO_RDATA then
    if rx_count s =? 0 then
      let s := bl808_spi_update_irq (s <| fifo_config0 := Z.lor (fifo_config0 s) SPI_FIFO_RX_UNDERFLOW |>) in
      (bl808_spi_idle_frame s, s)
    else
      let value := rx_fifo s !!! Z.to_nat (rx_head s) in
      (value, bl808_spi_update_irq (pop_rx s))
  else (0, s).

Definition write_config s (value : Z) : state :=
  let s := s <| config := u32 value |> in
  if negb (bl808_spi_enabled s) then s <| transfer_active := false |> else bl808_spi_schedule_transfer s.

Definition write_int_sts s (value : Z) : state :=
  s <| int_enable := Z.land (Z.shiftr (u32 value) 24) SPI_INT_STATUS_MASK |>
    <| int_mask := Z.land (Z.shiftr (u32 value) SPI_INT_MASK_SHIFT) SPI_INT_STATUS_MASK |>
    <| int_sts := clr (int_sts s) (Z.land (Z.shiftr (u32 value) SPI_INT_CLEAR_SHIFT) SPI_INT_STATUS_MASK) |>.

Definition write_fifo_config0 s (value : Z) : state :=
  let s := s <| fifo_config0 := clr (fifo_config0 s) SPI_FIFO_STATUS_MASK |> in
  let s := s <| fifo_config0 := Z.lor (fifo_config0 s)
                 (Z.land (u32 value) (Z.lor SPI_FIFO_DMA_RX_EN SPI_FIFO_DMA_TX_EN)) |> in
  let s := if tst value SPI_FIFO_TX_CLR
           then let s := bl808_spi_clear_tx_fifo s in s <| int_sts := clr (int_sts s) SPI_INT_END |>
           else s in
  if tst value SPI_FIFO_RX_CLR then bl808_spi_clear_rx_fifo s else s.

Definition write_fifo_wdata s (value : Z) : state :=
  if bl808_spi_fifo_depth s <=? tx_count s
  then s <| fifo_config0 := Z.lor (fifo_config0 s) SPI_FIFO_TX_OVERFLOW |>
  else push_tx s (u32 value).

Definition bl808_spi_write s (offset value size : Z) : state :=
  if reset_asserted s then s
  else if offset =? SPI_CONFIG_REG then bl808_spi_update_irq (write_config s value)
  else if offset =? SPI_INT_STS then bl808_spi_update_irq (write_int_sts s value)
  else if offset =? SPI_PRD0 then bl808_spi_update_irq (s <| prd0 := u32 value |>)
  else if offset =? SPI_PRD1 then bl808_spi_update_irq (s <| prd1 := u32 value |>)
  else if offset =? SPI_RXD_IGNR then
    bl808_spi_update_irq (s <| rxd_ignr := u32 value |> <| rx_ignore_remaining := 0 |>)
  else if offset =? SPI_STO_VALUE then bl808_spi_update_irq (s <| sto_value := u32 value |>)
  else if offset =? SPI_FIFO_CONFIG0 then bl808_spi_update_irq (write_fifo_config0 s value)
  else if offset =? SPI_FIFO_CONFIG1 then
    bl808_spi_update_irq (s <| fifo_config1 := Z.land (u32 value) (Z.lor (Z.shiftl 0x1F 16) (Z.shiftl 0x1F 24)) |>)
  else if offset =? SPI_FIFO_WDATA then bl808_spi_update_irq (write_fifo_wdata s value)
  else s.

(** ** Reset, clock and power *)

Definition bl808_spi_reset s : state :=
  let s := s <| config := 0 |> <| int_sts := 0 |> <| int_enable := SPI_INT_STATUS_MASK |>
             <| int_mask := SPI_INT_STATUS_MASK |> <| prd0 := 0x0F0F0F0F |> <| prd1 := 0x0F |>
             <| rxd_ignr := 0 |> <| sto_value := 0x0FFF |> <| fifo_config0 := 0 |> <| fifo_config1 := 0 |> in
  let s := bl808_spi_clear_rx_fifo (bl808_spi_clear_tx_fifo s) in
  bl808_spi_update_irq
    (s <| transfer_scheduled := false |> <| transfer_active := false |> <| transfer_bh := false |>
       <| cs := true |>).

Definition bl808_spi_set_clock_enabled s (enabled : bool) : state :=
  let s := bl808_spi_recompute_clock (s <| gate_enabled := enabled |>) in
  let s := if negb (bl808_spi_clock_active s)
           then s <| transfer_bh := false |> <| transfer_scheduled := false |>
                  <| transfer_active := false |> <| cs := true |>
           else bl808_spi_schedule_transfer s in
  bl808_spi_update_irq s.

Definition bl808_spi_set_module_clock_enabled s (enabled : bool) : state :=
  let s := s <| module_clock_enabled := enabled |> in
  bl808_spi_set_clock_enabled s (gate_enabled s).

Definition bl808_spi_set_reset_asserted `{!ColdReset bl808_spi_reset} s (asserted : bool) : state :=
  let s := s <| reset_asserted := asserted |> in
  let s := if asserted then device_cold_reset s else bl808_spi_schedule_transfer s in
  bl808_spi_update_irq s.

Definition bl808_spi_init s : state :=
  bl808_spi_recompute_clock
    (s <| gate_enabled := true |> <| module_clock_enabled := true |> <| reset_asserted := false |>).

End spi.
End BL808SPI.
