(* ===== verification/SpiSpec.v ===== *)
(** * Frames over the SPI bus

    [queues s q r]: the controller holds the frames [q] to send and [r] received.
    One turn of the bottom half exchanges every frame of [q] over the bus, in
    order, and keeps of the answers what the ignore counter and the room in the
    FIFO allow ([bh_exchanges]); on every run a controller with frames to send has
    its bottom half scheduled ([spi_never_stalls]). *)

From S2P Require Import Prelude Qemu Fifo Spi.
From stdpp Require Import prelude list.
From Stdlib Require Import ZArith Lia.
Import BL808SPI.
Local Open Scope Z_scope.

Section spi.
Context {B : Type} `{!SSIBus B}.
Notation state := (BL808SPIState B).
Implicit Types s : state.

(** ** The queues *)

Record queues s (q r : list Z) : Prop := {
  q_tx : ring BL808_SPI_FIFO_DEPTH (tx_fifo s) (tx_head s) (tx_tail s) (tx_count s) q;
  q_rx : ring BL808_SPI_FIFO_DEPTH (rx_fifo s) (rx_head s) (rx_tail s) (rx_count s) r;
}.

Lemma spi_tx_range s q r : queues s q r → tx_count s = Z.of_nat (length q) ∧ 0 ≤ tx_count s ≤ 32.
Proof. intros [Ht _]. by destruct (ring_length _ _ _ _ _ _ Ht) as (? & _ & ?). Qed.

Lemma spi_rx_range s q r : queues s q r → rx_count s = Z.of_nat (length r) ∧ 0 ≤ rx_count s ≤ 32.
Proof. intros [_ Hr]. by destruct (ring_length _ _ _ _ _ _ Hr) as (? & _ & ?). Qed.

Lemma spi_u32_small x : 0 ≤ x < 2 ^ 32 → u32 x = x.
Proof. apply wrap_small. Qed.

Lemma depth_range s : 8 ≤ bl808_spi_fifo_depth s ≤ 32.
Proof. unfold bl808_spi_fifo_depth. repeat case_match; lia. Qed.

(** ** Receiving frames, on lists *)

(** The receiver: frames left out so far, frames kept, and the overflow flag. *)
Definition receiver : Type := Z * list Z * bool.

(** One frame at a receiver that leaves out [n] frames and holds [d]. *)
Definition rx_step (n d : Z) (c : receiver) (v : Z) : receiver :=
  let '(i, r, o) := c in
  if i <? n then (i + 1, r, o)
  else if d <=? Z.of_nat (length r) then (i, r, true) else (i, r ++ [v], o).

Lemma rx_full n d fs i r o : n ≤ i → d ≤ Z.of_nat (length r) →
  foldl (rx_step n d) (i, r, o) fs = (i, r, o || negb (bool_decide (fs = []))).
Proof.
  revert o. induction fs as [|v fs IH]; intros o Hi Hd; [by rewrite orb_false_r|]. cbn [foldl rx_step].
  destruct (Z.ltb_spec i n); [lia|]. destruct (Z.leb_spec d (Z.of_nat (length r))); [|lia].
  rewrite IH by done. simpl. by rewrite orb_true_r.
Qed.

Lemma rx_room n d fs i r o : n ≤ i →
  foldl (rx_step n d) (i, r, o) fs =
  (i, r ++ take (Z.to_nat d - length r) fs, o || bool_decide (Z.to_nat d - length r < length fs)%nat).
Proof.
  revert r. induction fs as [|v fs IH]; intros r Hi.
  { rewrite take_nil, app_nil_r, bool_decide_false by (simpl; lia). by rewrite orb_false_r. }
  destruct (decide (d ≤ Z.of_nat (length r))) as [Hd|Hd].
  { rewrite rx_full by done. replace (Z.to_nat d - length r)%nat with 0%nat by lia.
    rewrite take_0, app_nil_r. by rewrite (bool_decide_true (0 < _)%nat) by (simpl; lia). }
  cbn [foldl rx_step]. destruct (Z.ltb_spec i n); [lia|]. destruct (Z.leb_spec d (Z.of_nat (length r))); [lia|].
  rewrite IH by done. rewrite length_app. cbn [length].
  replace (Z.to_nat d - length r)%nat with (S (Z.to_nat d - (length r + 1))) by lia. cbn [take].
  rewrite <- (assoc_L (++)). do 2 f_equal. apply bool_decide_ext. lia.
Qed.

(** Of the frames that arrive, the first [n - i] are left out and the rest fill
    the room; the flag reports that some found none. *)
Lemma rx_closed n d fs i r o :
  let m := Z.to_nat (n - i) in
  foldl (rx_step n d) (i, r, o) fs =
  (i + Z.of_nat (m `min` length fs), r ++ take (Z.to_nat d - length r) (drop m fs),
   o || bool_decide (Z.to_nat d - length r < length (drop m fs))%nat).
Proof.
  cbv zeta. revert i. induction fs as [|v fs IH]; intros i.
  { rewrite drop_nil, take_nil, app_nil_r, bool_decide_false by (simpl; lia).
    rewrite orb_false_r, Nat.min_0_r. cbn [foldl]. by rewrite Z.add_0_r. }
  destruct (decide (n ≤ i)) as [Hi|Hi].
  { rewrite rx_room by lia. replace (Z.to_nat (n - i)) with 0%nat by lia. cbn [drop Nat.min].
    by rewrite Z.add_0_r. }
  cbn [foldl rx_step]. destruct (Z.ltb_spec i n); [|lia]. rewrite IH.
  replace (Z.to_nat (n - i)) with (S (Z.to_nat (n - (i + 1)))) by lia. cbn [drop length Nat.min].
  do 2 f_equal. lia.
Qed.

(** ** The bus *)

Definition with_bus s (b : option B) : state := s <| bus := b |>.

(** What comes back for the frames [q], over the bus [b]. *)
Fixpoint answers s (b : option B) (q : list Z) : list Z * option B :=
  match q with
  | [] => ([], b)
  | tx :: q =>
      let '(rx, b) := answer (with_bus s b) tx in
      let '(fs, b) := answers s b q in (Z.land rx (bl808_spi_frame_mask s) :: fs, b)
  end.

(** The frames that the receiver leaves out. *)
Definition ignore_count s : Z := if tst (config s) SPI_RXD_IGNR_EN then Z.land (rxd_ignr s) 0xFF else 0.

Lemma ignore_range s : 0 ≤ ignore_count s ≤ 255.
Proof.
  unfold ignore_count. destruct (tst _ _); [|lia].
  assert (Z.land (rxd_ignr s) 0xFF = rxd_ignr s mod 2 ^ 8) as -> by (by rewrite <- Z.land_ones by lia).
  pose proof (Z.mod_pos_bound (rxd_ignr s) (2 ^ 8) ltac:(lia)). lia.
Qed.

(** What an exchange leaves alone. *)
Record moved s s' : Prop := {
  mv_config : config s' = config s;
  mv_ignr : rxd_ignr s' = rxd_ignr s;
  mv_loopback : loopback s' = loopback s;
  mv_ints : int_sts s' = int_sts s ∧ int_enable s' = int_enable s ∧ int_mask s' = int_mask s;
  mv_clock : gate_enabled s' = gate_enabled s ∧ module_clock_enabled s' = module_clock_enabled s ∧
             clock_enabled s' = clock_enabled s ∧ reset_asserted s' = reset_asserted s;
  mv_bh : transfer_bh s' = transfer_bh s ∧ transfer_scheduled s' = transfer_scheduled s;
  mv_config1 : fifo_config1 s' = fifo_config1 s;
}.

#[export] Instance moved_preorder : PreOrder moved.
Proof. split; [by split|]. intros s1 s2 s3 [] []. split; intuition congruence. Qed.

Definition overflowed s (o : bool) : Z :=
  if o then Z.lor (fifo_config0 s) SPI_FIFO_RX_OVERFLOW else fifo_config0 s.

(** In the course of an exchange that began in [s0] the controller is at [s],
    with [q] still to send and the receiver [c]. *)
Record during s0 s (q : list Z) (c : receiver) : Prop := {
  du_moved : moved s0 s;
  du_queues : queues s q c.1.2;
  du_ignored : rx_ignore_remaining s = c.1.1 ∧ 0 ≤ c.1.1 ≤ 255;
  du_flag : fifo_config0 s = overflowed s0 c.2;
}.

Lemma moved_depth s s' : moved s s' → bl808_spi_fifo_depth s' = bl808_spi_fifo_depth s.
Proof. intros [Hc]. unfold bl808_spi_fifo_depth, frame_size. by rewrite Hc. Qed.

Lemma moved_mask s s' : moved s s' → bl808_spi_frame_mask s' = bl808_spi_frame_mask s.
Proof. intros [Hc]. unfold bl808_spi_frame_mask, frame_size. by rewrite Hc. Qed.

Lemma moved_ignore s s' : moved s s' → ignore_count s' = ignore_count s.
Proof. intros [Hc Hr]. unfold ignore_count. by rewrite Hc, Hr. Qed.

Lemma overflowed_again s o : Z.lor (overflowed s o) SPI_FIFO_RX_OVERFLOW = overflowed s true.
Proof. destruct o; [|done]. simpl. by rewrite <- Z.lor_assoc. Qed.

(** [rxd_ignr] and the room at the receiver, as the exchange sees them. *)
Notation receive s := (rx_step (ignore_count s) (bl808_spi_fifo_depth s)).

Lemma push_rx_during s0 s q c v :
  during s0 s q c → Z.land v (bl808_spi_frame_mask s0) = v →
  during s0 (bl808_spi_push_rx s v) q (receive s0 c v) ∧ bus (bl808_spi_push_rx s v) = bus s.
Proof.
  destruct c as [[i r] o]. intros [Hm Hq [Hi Hr] Hf] Hv. cbn [fst snd] in *.
  pose proof (spi_rx_range _ _ _ Hq) as [Hc Hb]. pose proof (ignore_range s0) as Hn.
  rewrite <- (moved_mask _ _ Hm) in Hv. unfold rx_step.
  rewrite <- (moved_ignore _ _ Hm), <- (moved_depth _ _ Hm) in *. subst i.
  unfold bl808_spi_push_rx. pose proof (depth_range s) as Hd. unfold ignore_count in *.
  destruct (tst (config s) SPI_RXD_IGNR_EN) eqn:E; cbn [andb].
  1: destruct (Z.ltb_spec (rx_ignore_remaining s) (Z.land (rxd_ignr s) 0xFF)).
  1: { split; [|done]. split; cbn [fst snd]; [|by destruct Hq; split|cbn; rewrite spi_u32_small by lia; lia|done].
       etrans; [exact Hm|by split]. }
  2: destruct (Z.ltb_spec (rx_ignore_remaining s) 0); [lia|].
  all: rewrite <- Hc; destruct (Z.leb_spec (bl808_spi_fifo_depth s) (rx_count s)).
  all: split; [|done]; split; cbn [fst snd]; [etrans; [exact Hm|by split]| |done|].
  all: try first [by destruct Hq; split|cbn; by rewrite Hf, ?overflowed_again].
  all: destruct Hq as [Ht Hr']; split; [done|]; cbn; rewrite spi_u32_small by lia;
    rewrite Hv; apply ring_push; [done|unfold BL808_SPI_FIFO_DEPTH; lia].
Qed.

Lemma answer_moved s s' tx : loopback s' = loopback s → config s' = config s → bus s' = bus s →
  answer s' tx = answer s tx.
Proof. unfold answer, bl808_spi_idle_frame, bl808_spi_frame_mask, frame_size. by intros -> -> ->. Qed.

Lemma land_twice x m : Z.land (Z.land x m) m = Z.land x m.
Proof. by rewrite <- Z.land_assoc, Z.land_diag. Qed.

Lemma frame_during s0 s tx q c :
  during s0 s (tx :: q) c →
  let '(rx, b) := answer (with_bus s0 (bus s)) tx in
  during s0 (transfer_frame s) q (receive s0 c (Z.land rx (bl808_spi_frame_mask s0))) ∧
  bus (transfer_frame s) = b.
Proof.
  intros [Hm Hq Hi Hf]. destruct (spi_tx_range _ _ _ Hq) as [Hc Hb]. simpl in Hc.
  rewrite <- (answer_moved (with_bus s0 (bus s)) s tx (mv_loopback _ _ Hm) (mv_config _ _ Hm) eq_refl).
  destruct Hq as [Ht Hr]. destruct (ring_pop _ _ _ _ _ _ _ Ht) as [Htx Ht'].
  unfold transfer_frame. rewrite Htx. destruct (answer s tx) as [rx b].
  rewrite <- (moved_mask _ _ Hm).
  match goal with |- during _ (bl808_spi_push_rx ?x _) _ _ ∧ _ => set (s1 := x) end.
  assert (during s0 s1 q c) as Hd.
  { split; [etrans; [exact Hm|by split]| |done|done]. split; [|done]. cbn. by rewrite spi_u32_small by lia. }
  replace (bl808_spi_frame_mask s1) with (bl808_spi_frame_mask s) by done.
  destruct (push_rx_during _ _ _ _ (Z.land rx (bl808_spi_frame_mask s)) Hd) as [H1 H2].
  { rewrite (moved_mask _ _ Hm). apply land_twice. }
  split; [exact H1|by rewrite H2].
Qed.

Definition nonempty (q : list Z) : bool := match q with [] => false | _ => true end.

Lemma loop_during s0 s q c n t :
  during s0 s q c → (length q ≤ n)%nat →
  let '(fs, b) := answers s0 (bus s) q in let '(s', t') := transfer_loop n s t in
  during s0 s' [] (foldl (receive s0) c fs) ∧ bus s' = b ∧ t' = t || nonempty q.
Proof.
  revert s q c t. induction n as [|n IH]; intros s q c t Hd Hn.
  { destruct q; [|simpl in Hn; lia]. simpl. by rewrite orb_false_r. }
  destruct (spi_tx_range _ _ _ (du_queues _ _ _ _ Hd)) as [Hc _]. cbn [transfer_loop].
  destruct q as [|tx q]; simpl in Hc.
  { rewrite (proj2 (Z.ltb_ge _ _)) by lia. simpl. by rewrite orb_false_r. }
  rewrite (proj2 (Z.ltb_lt _ _)) by lia. pose proof (frame_during _ _ _ _ _ Hd) as Hf. cbn [answers].
  destruct (answer (with_bus s0 (bus s)) tx) as [rx b]. destruct Hf as [Hf <-].
  specialize (IH _ _ _ true Hf ltac:(simpl in Hn; lia)).
  destruct (answers s0 (bus (transfer_frame s)) q) as [fs b']. cbn [foldl].
  destruct (transfer_loop n (transfer_frame s) true) as [s' t']. by rewrite orb_true_r.
Qed.

(** ** One turn of the bottom half *)

(** Clocked, out of reset and enabled. *)
Definition powered s : bool := bl808_spi_clock_active s && bl808_spi_enabled s.

(** What a turn does with [q] to send and [r] received: [fs] are the answers. *)
Record exchanged s (q r fs : list Z) (b : option B) s' : Prop := {
  ex_queues : queues s' [] (r ++ take (Z.to_nat (bl808_spi_fifo_depth s) - length r)
                                   (drop (Z.to_nat (ignore_count s - rx_ignore_remaining s)) fs));
  ex_bus : bus s' = b;
  ex_flag : fifo_config0 s' = overflowed s (bool_decide (Z.to_nat (bl808_spi_fifo_depth s) - length r <
              length (drop (Z.to_nat (ignore_count s - rx_ignore_remaining s)) fs))%nat);
  ex_end : int_sts s' = if nonempty q then Z.lor (int_sts s) SPI_INT_END else int_sts s;
  ex_idle : transfer_scheduled s' = false ∧ transfer_active s' = false ∧ transfer_bh s' = transfer_bh s;
  ex_ignored : 0 ≤ rx_ignore_remaining s' ≤ 255;
  ex_config : config s' = config s ∧ rxd_ignr s' = rxd_ignr s ∧ loopback s' = loopback s;
  ex_clock : gate_enabled s' = gate_enabled s ∧ module_clock_enabled s' = module_clock_enabled s ∧
             clock_enabled s' = clock_enabled s ∧ reset_asserted s' = reset_asserted s;
}.

Lemma answers_ext s s' b q : loopback s' = loopback s → config s' = config s → answers s' b q = answers s b q.
Proof.
  intros Hl Hc. revert b. induction q as [|tx q IH]; intros b; [done|]. cbn [answers].
  rewrite (answer_moved (with_bus s b) (with_bus s' b)) by done. destruct (answer (with_bus s b) tx) as [rx b'].
  rewrite IH. by unfold bl808_spi_frame_mask, frame_size; rewrite Hc.
Qed.

Lemma rx_step_range n d c v : 0 ≤ n ≤ 255 → 0 ≤ c.1.1 ≤ 255 → 0 ≤ (rx_step n d c v).1.1 ≤ 255.
Proof.
  destruct c as [[i r] o]. cbn. intros. destruct (Z.ltb_spec i n); cbn; [lia|]. by destruct (d <=? _).
Qed.

Lemma bh_exchanges s q r :
  queues s q r → 0 ≤ rx_ignore_remaining s ≤ 255 → powered s = true →
  let '(fs, b) := answers s (bus s) q in exchanged s q r fs b (bl808_spi_transfer_bh s).
Proof.
  intros Hq Hi Hp. apply andb_true_iff in Hp as [Hk He]. apply andb_true_iff in Hk as [Hk Hr].
  unfold bl808_spi_transfer_bh. cbn [set_field clock_enabled reset_asserted].
  change (bl808_spi_enabled (s <| transfer_scheduled := false |>)) with (bl808_spi_enabled s).
  rewrite Hk, He. apply negb_true_iff in Hr. rewrite Hr. cbn [negb orb].
  match goal with |- context [transfer_loop _ ?x false] => set (s1 := x) end.
  assert (config s1 = config s ∧ loopback s1 = loopback s ∧ tx_count s1 = tx_count s ∧ bus s1 = bus s ∧
          queues s1 q r ∧ rx_ignore_remaining s1 = rx_ignore_remaining s ∧ fifo_config0 s1 = fifo_config0 s ∧
          rxd_ignr s1 = rxd_ignr s ∧ int_sts s1 = int_sts s ∧ transfer_bh s1 = transfer_bh s ∧
          transfer_scheduled s1 = false ∧ gate_enabled s1 = gate_enabled s ∧
          module_clock_enabled s1 = module_clock_enabled s ∧ clock_enabled s1 = clock_enabled s ∧
          reset_asserted s1 = reset_asserted s)
    as (Ec & El & Et & Eb & Eq & Ei & Ef & Eg & Es & Eh & Ed & Ek).
  { unfold s1. destruct Hq. destruct (loopback s) eqn:E; cbn; rewrite E; cbn; by split_and!. }
  assert (during s1 s1 q (rx_ignore_remaining s, r, false)) as Hd by (split; cbn; [done|done|by rewrite Ei|done]).
  destruct (spi_tx_range _ _ _ Hq) as [Hc _].
  pose proof (loop_during s1 s1 q _ (Z.to_nat (tx_count s1)) false Hd ltac:(lia)) as Hl.
  rewrite (answers_ext s s1), Eb in Hl by done. destruct (answers s (bus s) q) as [fs b].
  rewrite rx_closed in Hl.
  assert (ignore_count s1 = ignore_count s) as En by (unfold ignore_count; by rewrite Ec, Eg).
  assert (bl808_spi_fifo_depth s1 = bl808_spi_fifo_depth s) as Ep by (unfold bl808_spi_fifo_depth, frame_size; by rewrite Ec).
  rewrite En, Ep in Hl.
  destruct (transfer_loop _ s1 false) as [s' t']. destruct Hl as ([Hm Hq' [Hx Hxr] Hf] & Hb & ->).
  cbn [fst snd] in *. destruct Hm as [Mc Mg Ml (Ms & _ & _) (M1 & M2 & M3 & M4) (Mh & Md) _].
  assert (overflowed s1 = overflowed s) as Eo by (unfold overflowed; by rewrite Ef).
  rewrite Eo in Hf. cbn [orb].
  destruct (nonempty q) eqn:Eqn, (loopback s') eqn:El'; cbn [negb];
    (split; [by destruct Hq'; split|exact Hb|exact Hf|rewrite Eqn; cbn; congruence|cbn; split_and!; congruence
            |cbn; rewrite Hx; exact Hxr|cbn; split_and!; congruence|cbn; split_and!; try congruence]).
  all: destruct Ek as (? & ? & ? & ?); cbn; congruence.
Qed.

(** ** The invariant *)

(** The arrays hold queues, the bottom half is the one the controller waits for,
    and the clock is on when both gates are. *)
Record base s : Prop := {
  ba_queues : ∃ q r, queues s q r;
  ba_bh : transfer_bh s = transfer_scheduled s;
  ba_clock : clock_enabled s = gate_enabled s && module_clock_enabled s;
  ba_ignored : 0 ≤ rx_ignore_remaining s ≤ 255;
  ba_idle : transfer_active s = false;
}.

(** A powered controller with frames to send has its bottom half scheduled. *)
Definition scheduled s : Prop := powered s = true → tx_count s ≠ 0 → transfer_scheduled s = true.

Definition inv s : Prop := base s ∧ scheduled s.

(** The level that the registers call for. *)
Definition line s : bool :=
  bl808_spi_clock_active s &&
  negb (clr (Z.land (Z.lor (int_sts s) (bl808_spi_dynamic_ints s)) (int_enable s)) (int_mask s) =? 0).

Lemma inv_irq s : inv s → inv (bl808_spi_update_irq s) ∧ irq (bl808_spi_update_irq s) = line (bl808_spi_update_irq s).
Proof. intros [[Hq Hb Hk Hi Ha] Hs]. split; [|done]. split; [|done]. split; [|done..]. destruct Hq as (q & r & []). by exists q, r. Qed.

Lemma spi_schedule_inv s : base s → inv (bl808_spi_schedule_transfer s).
Proof.
  intros Hb. unfold bl808_spi_schedule_transfer.
  destruct (negb (clock_enabled s) || reset_asserted s || negb (bl808_spi_enabled s) || transfer_scheduled s ||
            (tx_count s =? 0)) eqn:E.
  - split; [done|]. intros Hp Ht. unfold powered, bl808_spi_clock_active in Hp.
    destruct (clock_enabled s), (reset_asserted s), (bl808_spi_enabled s), (transfer_scheduled s); try done.
    apply Z.eqb_neq in Ht. by rewrite Ht in E.
  - destruct Hb as [Hq ? ? ? ?]. split; [|done]. split; [|done..]. destruct Hq as (q & r & []). by exists q, r.
Qed.

Lemma base_only s s' : base s → (∀ q r, queues s q r → ∃ q' r', queues s' q' r') →
  transfer_bh s' = transfer_bh s → transfer_scheduled s' = transfer_scheduled s →
  gate_enabled s' = gate_enabled s → module_clock_enabled s' = module_clock_enabled s →
  clock_enabled s' = clock_enabled s → transfer_active s' = transfer_active s →
  0 ≤ rx_ignore_remaining s' ≤ 255 → base s'.
Proof. intros [(q & r & Hq) ? ? ? ?] Hf ? ? ? ? ? ? ?. split; [by eapply Hf|congruence..|done|congruence]. Qed.

(** Popping a frame, and pushing one. *)
Lemma spi_pop_queues s q v r :
  queues s q (v :: r) → rx_fifo s !!! Z.to_nat (rx_head s) = v ∧ queues (pop_rx s) q r.
Proof.
  intros Hq. destruct (spi_rx_range _ _ _ Hq) as [Hc Hb]. simpl in Hc. destruct Hq as [Ht Hr].
  destruct (ring_pop _ _ _ _ _ _ _ Hr) as [Hch Hr']. split; [done|]. split; [done|].
  unfold pop_rx. cbn. by rewrite spi_u32_small by lia.
Qed.

Definition pushed s (value : Z) : state :=
  let s := if tx_count s =? 0 then s <| rx_ignore_remaining := 0 |> else s in
  s <| tx_fifo := <[Z.to_nat (tx_tail s) := Z.land value (bl808_spi_frame_mask s)]> (tx_fifo s) |>
    <| tx_tail := (tx_tail s + 1) mod BL808_SPI_FIFO_DEPTH |>
    <| tx_count := u32 (tx_count s + 1) |>
    <| int_sts := clr (int_sts s) SPI_INT_END |>.

Lemma push_tx_pushed s v : push_tx s v = bl808_spi_schedule_transfer (pushed s v).
Proof. reflexivity. Qed.

Lemma spi_push_queues s q r v : queues s q r → tx_count s < 32 →
  queues (pushed s v) (q ++ [Z.land v (bl808_spi_frame_mask s)]) r.
Proof.
  intros Hq Hlt. destruct (spi_tx_range _ _ _ Hq) as [_ Hb]. destruct Hq as [Ht Hr].
  unfold pushed. destruct (tx_count s =? 0); (split; [|done]); cbn; rewrite spi_u32_small by lia; by apply ring_push.
Qed.

Lemma pushed_base s v : base s → tx_count s < 32 → base (pushed s v).
Proof.
  intros Hb Hlt. eapply base_only; [exact Hb| | | | | | | |].
  { intros q r Hq. do 2 eexists. by apply spi_push_queues. }
  all: unfold pushed; destruct (tx_count s =? 0); try done; try apply Hb; cbn; lia.
Qed.

Lemma clear_tx_queues s q r : queues s q r → queues (bl808_spi_clear_tx_fifo s) [] r.
Proof. intros [Ht Hr]. split; [|done]. by apply ring_empty; [apply Ht|]. Qed.

Lemma clear_rx_queues s q r : queues s q r → queues (bl808_spi_clear_rx_fifo s) q [].
Proof. intros [Ht Hr]. split; [done|]. by apply ring_empty; [apply Hr|]. Qed.

Lemma config0_inv s v : inv s → inv (write_fifo_config0 s v).
Proof.
  intros [Hb Hs]. unfold write_fifo_config0. cbv zeta.
  match goal with |- context [bl808_spi_clear_tx_fifo ?x] => set (s1 := x) end.
  assert (base s1 ∧ scheduled s1) as [Hb1 Hs1].
  { split; [|done]. eapply base_only; [exact Hb|intros q r []; by exists q, r|done..|apply Hb]. }
  clearbody s1. destruct (tst v SPI_FIFO_TX_CLR), (tst v SPI_FIFO_RX_CLR); [| | |done].
  all: split; [|first [done|by intros ??]].
  all: destruct Hb1 as [(q & r & Hq) ? ? ? ?]; split; try done; try (cbn; lia); do 2 eexists.
  - eapply clear_rx_queues. pose proof (clear_tx_queues _ _ _ Hq) as []. by split.
  - pose proof (clear_tx_queues _ _ _ Hq) as []. by split.
  - eapply clear_rx_queues. exact Hq.
Qed.

(** ** Runs *)

Inductive spi_op :=
  | SWrite (offset value : Z)
  | SRead (offset : Z)
  | SDmaRead (width : Z)
  | SDmaWrite (value width : Z)
  | SClock (enabled : bool)
  | SModuleClock (enabled : bool)
  | SReset
  | SResetLine (asserted : bool)
  | SMainLoop.

Context `{!ColdReset (bl808_spi_reset (B := B))}.

Definition spi_step s (op : spi_op) : state :=
  match op with
  | SWrite offset value => bl808_spi_write s offset value 4
  | SRead offset => (bl808_spi_read s offset 4).2
  | SDmaRead w => (bl808_spi_dma_read s w).2
  | SDmaWrite v w => bl808_spi_dma_write s v w
  | SClock b => bl808_spi_set_clock_enabled s b
  | SModuleClock b => bl808_spi_set_module_clock_enabled s b
  | SReset => bl808_spi_reset s
  | SResetLine b => bl808_spi_set_reset_asserted s b
  | SMainLoop => run_bh s
  end.

(** The invariant, with the interrupt line. *)
Definition good s : Prop := inv s ∧ irq s = line s.

Lemma good_irq s : inv s → good (bl808_spi_update_irq s).
Proof. apply inv_irq. Qed.

(** A step that leaves queues, scheduling and clocks alone. *)
Lemma inv_only s s' : inv s → (∀ q r, queues s q r → ∃ q' r', queues s' q' r') →
  transfer_bh s' = transfer_bh s → transfer_scheduled s' = transfer_scheduled s →
  gate_enabled s' = gate_enabled s → module_clock_enabled s' = module_clock_enabled s →
  clock_enabled s' = clock_enabled s → transfer_active s' = transfer_active s →
  0 ≤ rx_ignore_remaining s' ≤ 255 → reset_asserted s' = reset_asserted s → config s' = config s → tx_count s' = tx_count s → inv s'.
Proof.
  intros [Hb Hs] Hq ? Ht ? ? Hk ? ? Hr Hc Hn. split; [by eapply base_only|]. intros Hp. rewrite Hn, Ht.
  apply Hs. unfold powered, bl808_spi_clock_active, bl808_spi_enabled in *. by rewrite <- Hk, <- Hr, <- Hc.
Qed.

Ltac unchanged H := eapply inv_only; [exact H|intros ? ? []; do 2 eexists; by split|done..|apply H|done|done|done].

Lemma pop_inv s : inv s → rx_count s ≠ 0 → inv (pop_rx s).
Proof.
  intros H Hn. eapply inv_only; [exact H| |done..|apply H|done|done|done]. intros q r Hq.
  destruct (spi_rx_range _ _ _ Hq) as [Hc _]. destruct r as [|v r]; [done|]. exists q, r. by eapply spi_pop_queues.
Qed.

Lemma underflow_inv s k : inv s → inv (s <| fifo_config0 := k |>).
Proof. intros H. unchanged H. Qed.

Lemma read_good s o : good s → good (bl808_spi_read s o 4).2.
Proof.
  intros H. unfold bl808_spi_read. do 9 (destruct (_ =? _); [done|]). destruct (_ =? _); [|done].
  destruct (Z.eqb_spec (rx_count s) 0); cbn [snd]; apply good_irq; [apply underflow_inv, H|by apply pop_inv; [apply H|]].
Qed.

Lemma dma_read_good s w : good s → good (bl808_spi_dma_read s w).2.
Proof.
  intros H. unfold bl808_spi_dma_read.
  destruct (Z.eqb_spec (rx_count s) 0); cbn [snd]; apply good_irq; [apply underflow_inv, H|by apply pop_inv; [apply H|]].
Qed.

Lemma push_inv s v : inv s → tx_count s < bl808_spi_fifo_depth s → inv (push_tx s v).
Proof.
  intros [H _] Hlt. rewrite push_tx_pushed. apply spi_schedule_inv, pushed_base; [done|].
  pose proof (depth_range s). lia.
Qed.

Lemma write_good s o v : good s → good (bl808_spi_write s o v 4).
Proof.
  intros H. pose proof H as [Hv _]. unfold bl808_spi_write. destruct (reset_asserted s); [done|].
  repeat (destruct (_ =? _); [apply good_irq|]); try done; try (unchanged Hv).
  - unfold write_config.
    assert (base (s <| config := u32 v |>)) as Hb.
    { destruct Hv as [[(q & r & []) ? ? ? ?] _]. split; try done. by exists q, r. }
    destruct (bl808_spi_enabled (s <| config := u32 v |>)) eqn:E; cbn [negb]; [by apply spi_schedule_inv|].
    split; [by destruct Hb as [(q & r & []) ? ? ? ?]; split; try done; exists q, r|].
    intros Hp. unfold powered in Hp. apply andb_true_iff in Hp as [_ Hp].
    change (bl808_spi_enabled (s <| config := u32 v |>) = true) in Hp. congruence.
  - eapply inv_only; [exact Hv|intros ? ? []; do 2 eexists; by split|done..|cbn; lia|done|done|done].
  - by apply config0_inv.
  - unfold write_fifo_wdata. destruct (Z.leb_spec (bl808_spi_fifo_depth s) (tx_count s)); [by apply underflow_inv|].
    by apply push_inv.
Qed.

Lemma run_good s : good s → good (run_bh s).
Proof.
  intros H. unfold run_bh. destruct (transfer_bh s) eqn:Et; [|done].
  destruct H as [[[(q & r & Hq) Hb Hk Hi Ha] _] _]. set (s1 := s <| transfer_bh := false |>).
  assert (queues s1 q r) as Hq1 by (by destruct Hq; split).
  destruct (powered s1) eqn:Ep.
  - pose proof (bh_exchanges s1 q r Hq1 Hi Ep) as Hx. destruct (answers s1 (bus s1) q) as [fs b].
    destruct Hx as [Xq _ _ _ (Xd & Xa & Xh) Xi _ (X1 & X2 & X3 & X4)].
    assert (inv (bl808_spi_transfer_bh s1)) as Hn.
    { split; [split|].
      - by do 2 eexists.
      - by rewrite Xd, Xh.
      - by rewrite X1, X2, X3.
      - exact Xi.
      - exact Xa.
      - intros _ Hc. destruct (spi_tx_range _ _ _ Xq) as [Hz _]. done. }
    split; [exact Hn|]. unfold bl808_spi_transfer_bh.
    destruct (_ || _); [done|]. by destruct (transfer_loop _ _ _).
  - unfold bl808_spi_transfer_bh. cbv zeta.
    match goal with |- context [if ?c then _ else _] => destruct c eqn:Ec end.
    + apply good_irq. split; [split; try done; by exists q, r; destruct Hq; split|].
      intros Hp. exfalso. change (powered s1 = true) in Hp. congruence.
    + exfalso. unfold powered, bl808_spi_clock_active in Ep.
      change (bl808_spi_enabled (s1 <| transfer_scheduled := false |>)) with (bl808_spi_enabled s1) in Ec.
      cbn [set_field clock_enabled reset_asserted] in Ec.
      change (clock_enabled (s1 <| transfer_scheduled := false |>)) with (clock_enabled s1) in Ec.
      change (reset_asserted (s1 <| transfer_scheduled := false |>)) with (reset_asserted s1) in Ec.
      by destruct (clock_enabled s1), (reset_asserted s1), (bl808_spi_enabled s1).
Qed.

Lemma reset_good s : base s → good (bl808_spi_reset s).
Proof.
  intros [(q & r & Hq) Hb Hk Hi _]. apply good_irq. split; [split|].
  - exists [], []. pose proof (clear_rx_queues _ _ _ (clear_tx_queues _ _ _ Hq)) as []. by split.
  - done.
  - exact Hk.
  - cbn. lia.
  - done.
  - by intros _ ?.
Qed.

Lemma clock_good s b : (∃ q r, queues s q r) → transfer_bh s = transfer_scheduled s →
  0 ≤ rx_ignore_remaining s ≤ 255 → transfer_active s = false → good (bl808_spi_set_clock_enabled s b).
Proof.
  intros (q & r & Hq) Hb Hi Ha. apply good_irq.
  set (s1 := bl808_spi_recompute_clock (s <| gate_enabled := b |>)).
  assert (base s1) as H1 by (split; [destruct Hq; by exists q, r|done..]).
  destruct (bl808_spi_clock_active s1) eqn:E; cbn [negb]; [by apply spi_schedule_inv|].
  split; [destruct H1 as [(q' & r' & []) ? ? ? ?]; split; try done; by exists q', r'|].
  intros Hp _. unfold powered in Hp. apply andb_true_iff in Hp as [Hp _].
  change (bl808_spi_clock_active s1 = true) in Hp. congruence.
Qed.

Lemma step_good s op : good s → good (spi_step s op).
Proof.
  intros H. pose proof H as [[Hb Hs] _]. destruct op; cbn [spi_step].
  - by apply write_good.
  - by apply read_good.
  - by apply dma_read_good.
  - unfold bl808_spi_dma_write. destruct (Z.leb_spec (bl808_spi_fifo_depth s) (tx_count s)); apply good_irq;
      [by apply underflow_inv; split|by apply push_inv; [split|]].
  - apply clock_good; apply Hb.
  - apply clock_good; [|apply Hb..]. destruct Hb as [(q & r & []) ? ? ? ?]. by exists q, r.
  - by apply reset_good.
  - unfold bl808_spi_set_reset_asserted. set (s1 := s <| reset_asserted := asserted |>).
    assert (base s1) as H1 by (destruct Hb as [(q & r & []) ? ? ? ?]; split; [by exists q, r|done..]).
    destruct asserted; apply good_irq; [|by apply spi_schedule_inv].
    rewrite device_cold_reset_runs. by apply reset_good.
  - by apply run_good.
Qed.

(** ** The device as the machine makes it *)

Definition new_device s : Prop :=
  length (tx_fifo s) = 32%nat ∧ length (rx_fifo s) = 32%nat.

Lemma start_good s : new_device s → good (bl808_spi_reset (bl808_spi_init s)).
Proof.
  intros [Ht Hr]. apply good_irq. split; [split|by intros _ ?].
  - exists [], []. split; apply ring_empty; cbn; rewrite ?Ht, ?Hr; done.
  - done.
  - done.
  - cbn. lia.
  - done.
Qed.

Definition spi_run s (ops : list spi_op) : state := foldl spi_step s ops.

Lemma run_ops_good s ops : good s → good (spi_run s ops).
Proof. revert s. induction ops as [|op ops IH]; intros s H; [done|]. by apply IH, step_good. Qed.

(** A turn of the main loop, with frames to send or without. *)
Lemma run_powered s q r : base s → queues s q r → powered s = true → (q ≠ [] → transfer_scheduled s = true) →
  let '(fs, b) := answers s (bus s) q in let s' := run_bh s in
  let kept := drop (Z.to_nat (ignore_count s - rx_ignore_remaining s)) fs in
  let room := (Z.to_nat (bl808_spi_fifo_depth s) - length r)%nat in
  queues s' [] (r ++ take room kept) ∧ bus s' = b ∧
  fifo_config0 s' = overflowed s (bool_decide (room < length kept)%nat) ∧
  (q ≠ [] → (bl808_spi_read s' SPI_BUS_BUSY 4).1 = 0).
Proof.
  intros Hb Hq Hp Hsc. unfold run_bh. rewrite (ba_bh _ Hb). destruct (transfer_scheduled s) eqn:E.
  - set (s1 := s <| transfer_bh := false |>). assert (queues s1 q r) as Hq1 by (by destruct Hq; split).
    pose proof (bh_exchanges s1 q r Hq1 (ba_ignored _ Hb) Hp) as Hx.
    rewrite (answers_ext s s1) in Hx by done. change (bus s1) with (bus s) in Hx.
    destruct (answers s (bus s) q) as [fs b]. destruct Hx as [Xq Xb Xf _ (Xd & Xa & _) _ _ _].
    split_and!; [exact Xq|exact Xb|exact Xf|]. intros _. cbn. by rewrite Xd, Xa.
  - destruct q as [|tx q]; [|by specialize (Hsc ltac:(done))]. cbn [answers].
    rewrite drop_nil, take_nil, app_nil_r. cbv zeta. split_and!; [done|done| |done].
    by rewrite bool_decide_false by (simpl; lia).
Qed.

(** C31: the SPI controller never stalls.  Whatever the software, the DMA
    controller, the clock tree and the reset lines have done since the machine was
    made, a controller that is clocked, out of reset and enabled exchanges all the
    frames waiting in its FIFO at the next turn of the main loop, in order, over
    the bus; it then reports that the bus is idle; and its interrupt line is at
    all times the one its registers call for. *)
Theorem spi_never_stalls s0 ops : new_device s0 →
  let s := spi_run (bl808_spi_reset (bl808_spi_init s0)) ops in
  irq s = line s ∧
  (powered s = true → ∃ q r, queues s q r ∧
     (q ≠ [] → (bl808_spi_read s SPI_BUS_BUSY 4).1 = 1) ∧
     let '(fs, b) := answers s (bus s) q in let s' := run_bh s in
     let kept := drop (Z.to_nat (ignore_count s - rx_ignore_remaining s)) fs in
     let room := (Z.to_nat (bl808_spi_fifo_depth s) - length r)%nat in
     queues s' [] (r ++ take room kept) ∧ bus s' = b ∧
     fifo_config0 s' = overflowed s (bool_decide (room < length kept)%nat) ∧
     (q ≠ [] → (bl808_spi_read s' SPI_BUS_BUSY 4).1 = 0)).
Proof.
  intros Hn. cbv zeta. pose proof (run_ops_good _ ops (start_good _ Hn)) as [[Hb Hs] Hl].
  revert Hb Hs Hl. generalize (spi_run (bl808_spi_reset (bl808_spi_init s0)) ops). intros s Hb Hs Hl.
  split; [exact Hl|]. intros Hp. destruct (ba_queues _ Hb) as (q & r & Hq). exists q, r. split; [done|].
  assert (q ≠ [] → transfer_scheduled s = true) as Hsc.
  { intros Hne. apply (Hs Hp). destruct (spi_tx_range _ _ _ Hq) as [-> _]. destruct q; [done|]. simpl. lia. }
  split. { intros Hne. cbn. rewrite (Hsc Hne). by rewrite orb_true_r. }
  apply (run_powered _ _ _ Hb Hq Hp Hsc).
Qed.

End spi.
