(* ===== verification/SpiHal.v ===== *)
(** * The SPI driver of the HAL ([src/bl808/spi.nim]) on the controller

    The driver reads and writes registers of the controller of [Spi]; the main
    loop of the emulator, which runs the bottom half of the controller, gets its
    turns between these accesses, at times the driver does not choose: [sched k]
    says whether it has one before the [k]-th access.  [spi_hal_exchanges]: if the
    main loop has turns often enough for the timeouts of the driver, a transfer
    returns what the bus answers to the bytes sent. *)

From S2P Require Import Prelude Qemu Fifo Spi SpiSpec.
From stdpp Require Import prelude list.
From Stdlib Require Import ZArith Lia.
Import BL808SPI.
Local Open Scope Z_scope.

Inductive SpiMode := spiMode0 | spiMode1 | spiMode2 | spiMode3.
Inductive SpiFrameSize := frame8bit | frame16bit | frame24bit | frame32bit.
Inductive SpiRole := spiMaster | spiSlave.
Inductive SpiError := spiOk | spiTimeout | spiFifoError.

#[export] Instance SpiError_eq_dec : EqDecision SpiError.
Proof. solve_decision. Defined.

Record SpiConfig := { mode : SpiMode; frameSize : SpiFrameSize; role : SpiRole; prescaler : Z; deglitch : bool }.

Definition DefaultSpiConfig : SpiConfig :=
  {| mode := spiMode0; frameSize := frame8bit; role := spiMaster; prescaler := 4; deglitch := true |}.

Definition frame_ord (f : SpiFrameSize) : Z :=
  match f with frame8bit => 0 | frame16bit => 1 | frame24bit => 2 | frame32bit => 3 end.

Section hal.
Context {B : Type} `{!SSIBus B}.
Notation state := (BL808SPIState B).
Variable sched : nat → bool.

(** The controller, and the number of accesses so far. *)
Definition machine : Type := state * nat.
Implicit Types (w : machine) (s : state).

Definition main_loop w : state := if sched w.2 then run_bh w.1 else w.1.

Definition regRead w (offset : Z) : Z * machine :=
  let '(v, s) := bl808_spi_read (main_loop w) offset 4 in (v, (s, S w.2)).

Definition regWrite w (offset value : Z) : machine :=
  (bl808_spi_write (main_loop w) offset value 4, S w.2).

Definition regSet w (offset mask : Z) : machine :=
  let '(v, w) := regRead w offset in regWrite w offset (Z.lor v mask).

Definition regClear w (offset mask : Z) : machine :=
  let '(v, w) := regRead w offset in regWrite w offset (Z.land v (not32 mask)).

(** ** Initialization *)

Definition enable_bits : Z := Z.lor (Z.shiftl 1 0) (Z.shiftl 1 1).

(** The configuration word that [initSpi] builds. *)
Definition config_word (c : SpiConfig) : Z :=
  let cfg := 0 in
  let cfg := match role c with
             | spiMaster => Z.lor cfg (Z.shiftl 1 0)
             | spiSlave => Z.lor cfg (Z.shiftl 1 1)
             end in
  let cfg := Z.lor cfg (Z.shiftl (frame_ord (frameSize c)) 2) in
  let cfg := match mode c with
             | spiMode0 => cfg
             | spiMode1 => Z.lor cfg (Z.shiftl 1 5)
             | spiMode2 => Z.lor cfg (Z.shiftl 1 4)
             | spiMode3 => Z.lor (Z.lor cfg (Z.shiftl 1 4)) (Z.shiftl 1 5)
             end in
  if deglitch c then Z.lor (Z.lor cfg (Z.shiftl 1 11)) (Z.shiftl 3 12) else cfg.

Definition SpiIntBitsMask := 0x3F.

Definition clearFifos w : machine := regSet w SPI_FIFO_CONFIG0 (Z.lor (Z.shiftl 1 2) (Z.shiftl 1 3)).

Definition initSpi w (c : SpiConfig) : machine :=
  let w := regClear w SPI_CONFIG_REG enable_bits in
  let w := regWrite w SPI_CONFIG_REG (config_word c) in
  let prd := Z.land (prescaler c) 0xFF in
  let w := regWrite w SPI_PRD0 (Z.lor (Z.shiftl prd 16) prd) in
  let w := regWrite w SPI_PRD1 (Z.lor (Z.shiftl prd 16) prd) in
  let w := clearFifos w in
  regWrite w SPI_INT_STS
    (Z.lor (Z.lor (Z.shiftl SpiIntBitsMask 24) (Z.shiftl SpiIntBitsMask 8)) (Z.shiftl SpiIntBitsMask 16)).

Definition deinitSpi w : machine := clearFifos (regClear w SPI_CONFIG_REG enable_bits).

(** ** Blocking transfers *)

Definition txFifoFree w : Z * machine :=
  let '(v, w) := regRead w SPI_FIFO_CONFIG1 in (Z.land v 0x3F, w).

Definition rxFifoCount w : Z * machine :=
  let '(v, w) := regRead w SPI_FIFO_CONFIG1 in (Z.shiftr (Z.land v (Z.shiftl 0x3F 8)) 8, w).

(** [while count() == 0: timeout.dec; if timeout == 0: return spiTimeout]. *)
Fixpoint wait_nonzero (count : machine → Z * machine) (timeout : nat) w : bool * machine :=
  let '(n, w) := count w in
  if n =? 0 then
    match timeout with
    | S (S _ as timeout) => wait_nonzero count timeout w
    | _ => (false, w)
    end
  else (true, w).

Definition transferByte w (txByte : Z) : Z * SpiError * machine :=
  let timeout := Z.to_nat 100000 in
  let '(ok, w) := wait_nonzero txFifoFree timeout w in
  if negb ok then (0, spiTimeout, w)
  else
    let w := regWrite w SPI_FIFO_WDATA txByte in
    let '(ok, w) := wait_nonzero rxFifoCount timeout w in
    if negb ok then (0, spiTimeout, w)
    else let '(v, w) := regRead w SPI_FIFO_RDATA in (Z.land v 0xFF, spiOk, w).

(** The buffer [rxBuf] with the bytes received so far. *)
Fixpoint transfer w (txBuf rxBuf : list Z) : SpiError * list Z * machine :=
  match txBuf, rxBuf with
  | tx :: txBuf, old :: rxBuf =>
      let '(rx, err, w) := transferByte w tx in
      if bool_decide (err = spiOk) then
        let '(e, bs, w) := transfer w txBuf rxBuf in (e, rx :: bs, w)
      else (err, old :: rxBuf, w)
  | _, _ => (spiOk, rxBuf, w)
  end.

Fixpoint send w (txBuf : list Z) : SpiError * machine :=
  match txBuf with
  | [] => (spiOk, w)
  | tx :: txBuf =>
      let '(_, err, w) := transferByte w tx in
      if bool_decide (err = spiOk) then send w txBuf else (err, w)
  end.

Definition recv w (rxBuf : list Z) : SpiError * list Z * machine :=
  transfer w (replicate (length rxBuf) 0xFF) rxBuf.

(** ** Interrupts *)

Definition interrupt_word (enable mask : Z) : Z := Z.lor (Z.shiftl enable 24) (Z.shiftl mask 8).

Definition enableInterrupt w (intBit : Z) : machine :=
  let bit := Z.shiftl 1 intBit in
  let '(cur, w) := regRead w SPI_INT_STS in
  let enableBits := Z.lor (Z.land (Z.shiftr cur 24) SpiIntBitsMask) bit in
  let maskBits := Z.land (Z.land (Z.shiftr cur 8) SpiIntBitsMask) (not32 bit) in
  regWrite w SPI_INT_STS (interrupt_word enableBits maskBits).

Definition disableInterrupt w (intBit : Z) : machine :=
  let bit := Z.shiftl 1 intBit in
  let '(cur, w) := regRead w SPI_INT_STS in
  let enableBits := Z.land (Z.shiftr cur 24) SpiIntBitsMask in
  let maskBits := Z.lor (Z.land (Z.shiftr cur 8) SpiIntBitsMask) bit in
  regWrite w SPI_INT_STS (interrupt_word enableBits maskBits).

Definition clearInterrupt w (intBit : Z) : machine :=
  let '(cur, w) := regRead w SPI_INT_STS in
  regWrite w SPI_INT_STS
    (Z.lor (Z.land cur (Z.lor (Z.shiftl SpiIntBitsMask 24) (Z.shiftl SpiIntBitsMask 8)))
           (Z.shiftl 1 (intBit + 16))).

Definition enableDmaTx w : machine := regSet w SPI_FIFO_CONFIG0 (Z.shiftl 1 1).
Definition enableDmaRx w : machine := regSet w SPI_FIFO_CONFIG0 (Z.shiftl 1 0).

(** ** Turns of the main loop *)

Lemma unpowered_bh s : powered s = false →
  bl808_spi_transfer_bh s = bl808_spi_update_irq (s <| transfer_scheduled := false |>).
Proof.
  unfold powered, bl808_spi_clock_active, bl808_spi_transfer_bh. intros Hp. cbv zeta.
  change (bl808_spi_enabled (s <| transfer_scheduled := false |>)) with (bl808_spi_enabled s).
  change (clock_enabled (s <| transfer_scheduled := false |>)) with (clock_enabled s).
  change (reset_asserted (s <| transfer_scheduled := false |>)) with (reset_asserted s).
  by destruct (clock_enabled s), (reset_asserted s), (bl808_spi_enabled s).
Qed.

(** What neither a turn of the main loop nor an access to a FIFO changes. *)
Record same s s' : Prop := {
  sm_config : config s' = config s;
  sm_ignr : rxd_ignr s' = rxd_ignr s;
  sm_loopback : loopback s' = loopback s;
  sm_clock : clock_enabled s' = clock_enabled s;
  sm_reset : reset_asserted s' = reset_asserted s;
}.

#[local] Instance same_preorder : PreOrder same.
Proof. split; [by split|]. intros s1 s2 s3 [] []. split; congruence. Qed.

(** An enabled controller for bytes that leaves no answer out. *)
Record set_up s : Prop := {
  su_good : good s;
  su_powered : powered s = true;
  su_frame : frame_size s = 0;
  su_ignore : ignore_count s = 0;
}.

Lemma same_set_up s s' : set_up s → same s s' → good s' → set_up s'.
Proof.
  intros [_ Hp Hf Hi] [Hc Hr _ Hk Hs] Hg. split; [done|..].
  - unfold powered, bl808_spi_clock_active, bl808_spi_enabled in *. by rewrite Hk, Hs, Hc.
  - unfold frame_size in *. by rewrite Hc.
  - unfold ignore_count in *. by rewrite Hc, Hr.
Qed.

Lemma byte_depth s : frame_size s = 0 → bl808_spi_fifo_depth s = 32.
Proof. intros H. unfold bl808_spi_fifo_depth. by rewrite H. Qed.

Lemma spi_byte_mask s : frame_size s = 0 → bl808_spi_frame_mask s = 0xFF.
Proof. intros H. unfold bl808_spi_frame_mask. by rewrite H. Qed.

Lemma run_same s : good s → same s (run_bh s).
Proof.
  intros [[Hb _] _]. unfold run_bh. destruct (transfer_bh s); [|done].
  set (s1 := s <| transfer_bh := false |>). destruct (ba_queues _ Hb) as (q & r & Hq).
  assert (queues s1 q r) as Hq1 by (by destruct Hq; split).
  destruct (powered s1) eqn:Hp.
  - pose proof (bh_exchanges s1 q r Hq1 (ba_ignored _ Hb) Hp) as Hx. destruct (answers s1 (bus s1) q) as [fs b].
    destruct Hx as [_ _ _ _ _ _ (X1 & X2 & X3) (_ & _ & X4 & X5)]. by split.
  - rewrite (unpowered_bh _ Hp). by split.
Qed.

(** A turn at a controller that has [q] to send. *)
Lemma run_set_up s q r :
  set_up s → queues s q r →
  let '(fs, b) := answers s (bus s) q in
  set_up (run_bh s) ∧ same s (run_bh s) ∧ queues (run_bh s) [] (r ++ take (32 - length r) fs) ∧ bus (run_bh s) = b.
Proof.
  intros Hu Hq. pose proof Hu as [Hg Hp Hf Hi]. pose proof Hg as [[Hb Hs] _].
  pose proof (run_same _ Hg) as Hm.
  assert (q ≠ [] → transfer_scheduled s = true) as Hsc.
  { intros Hne. apply (Hs Hp). destruct (spi_tx_range _ _ _ Hq) as [-> _]. destruct q; [done|]. simpl. lia. }
  pose proof (run_powered s q r Hb Hq Hp Hsc) as Hx. destruct (answers s (bus s) q) as [fs b].
  cbv zeta in Hx. rewrite byte_depth, Hi in Hx by done. destruct Hx as (Xq & Xb & _).
  pose proof (ba_ignored _ Hb). replace (Z.to_nat (0 - rx_ignore_remaining s)) with 0%nat in Xq by lia.
  split_and!; [eapply same_set_up; [done..|by apply run_good]|done|exact Xq|done].
Qed.

(** ** Counting frames *)

(** Two counts packed into the low fields of a word. *)
Lemma packed_counts c a b : 0 ≤ a ≤ 32 → 0 ≤ b ≤ 32 →
  let v := Z.lor (Z.lor (clr c (Z.lor 0x3F (Z.shiftl 0x3F 8))) (Z.land a 0x3F)) (Z.shiftl (Z.land b 0x3F) 8) in
  Z.land v 0x3F = a ∧ Z.shiftr (Z.land v (Z.shiftl 0x3F 8)) 8 = b.
Proof.
  intros Ha Hb. cbv zeta. change 0x3F with (Z.ones 6).
  assert (∀ x, 0 ≤ x ≤ 32 → Z.land x (Z.ones 6) = x) as Hl by (intros x Hx; rewrite Z.land_ones, Z.mod_small by lia; done).
  rewrite (Hl a), (Hl b) by done.
  assert (∀ x i, 0 ≤ x ≤ 32 → 6 ≤ i → Z.testbit x i = false) as Hx.
  { intros x i Hx Hi. rewrite <- (Hl x) by done. by rewrite Z.land_spec, Z.ones_spec_high, andb_false_r by lia. }
  split; apply Z.bits_inj'; intros i Hi; unfold clr.
  - rewrite Z.land_spec, !Z.lor_spec, Z.land_spec, Z.lnot_spec, Z.lor_spec by lia.
    destruct (decide (i < 6)).
    + rewrite Z.ones_spec_low, !Z.shiftl_spec_low by lia. cbn. by rewrite andb_false_r, orb_false_r, andb_true_r.
    + rewrite (Z.ones_spec_high 6 i), andb_false_r by lia. by rewrite Hx by lia.
  - rewrite Z.shiftr_spec, Z.land_spec, !Z.lor_spec, Z.land_spec, Z.lnot_spec, Z.lor_spec, !Z.shiftl_spec by lia.
    replace (i + 8 - 8) with i by lia. rewrite (Hx a) by lia. destruct (decide (i < 6)).
    + rewrite (Z.ones_spec_low 6 i) by lia. by rewrite orb_true_r, andb_false_r, andb_true_r.
    + rewrite (Z.ones_spec_high 6 i) by lia. by rewrite andb_false_r, Hx by lia.
Qed.

Lemma config1_counts s q r : set_up s → queues s q r →
  Z.land (bl808_spi_fifo_config1 s) 0x3F = 32 - Z.of_nat (length q) ∧
  Z.shiftr (Z.land (bl808_spi_fifo_config1 s) (Z.shiftl 0x3F 8)) 8 = Z.of_nat (length r).
Proof.
  intros Hu Hq. destruct (spi_tx_range _ _ _ Hq) as [Ht Hb]. destruct (spi_rx_range _ _ _ Hq) as [Hr Hb'].
  unfold bl808_spi_fifo_config1, bl808_spi_tx_free. rewrite byte_depth by apply Hu.
  assert ((if tx_count s <? 32 then u32 (32 - tx_count s) else 0) = 32 - tx_count s) as ->.
  { destruct (Z.ltb_spec (tx_count s) 32); [apply spi_u32_small; lia|lia]. }
  rewrite Z.min_l by lia. rewrite <- Ht, <- Hr. apply packed_counts; lia.
Qed.

(** ** One byte *)

(** The controller at [s] has [q] to send and [r] received. *)
Definition holds s (q r : list Z) : Prop := set_up s ∧ queues s q r.

Lemma idle_loop w r : holds w.1 [] r →
  holds (main_loop w) [] r ∧ same w.1 (main_loop w) ∧ bus (main_loop w) = bus w.1.
Proof.
  intros [Hu Hq]. unfold main_loop. destruct (sched w.2); [|by split_and!].
  destruct (run_set_up _ _ _ Hu Hq) as (H1 & H2 & H3 & H4). rewrite take_nil, app_nil_r in H3. by split_and!.
Qed.

(** A wait for frames that have arrived. *)
Lemma wait_arrived w v n : holds w.1 [] [v] →
  ∃ s k, wait_nonzero rxFifoCount (S n) w = (true, (s, k)) ∧ holds s [] [v] ∧ same w.1 s ∧ bus s = bus w.1.
Proof.
  intros Hh. destruct (idle_loop _ _ Hh) as ((Hu & Hq) & Hm & Hb). exists (main_loop w), (S w.2).
  split; [|by split_and!]. destruct (config1_counts _ _ _ Hu Hq) as [_ Hc]. cbn [wait_nonzero].
  unfold rxFifoCount, regRead. cbn. by rewrite Hc.
Qed.

(** A wait for the answer to [v]; the main loop has a turn in time. *)
Lemma wait_answer w v n j :
  holds w.1 [v] [] → (j < n)%nat → sched (w.2 + j)%nat = true →
  let '(fs, b) := answers w.1 (bus w.1) [v] in
  ∃ s k, wait_nonzero rxFifoCount n w = (true, (s, k)) ∧ holds s [] (take 32 fs) ∧ same w.1 s ∧ bus s = b.
Proof.
  revert w j. induction n as [|n IH]; intros w j [Hu Hq] Hj Hs; [lia|].
  pose proof (run_set_up _ _ _ Hu Hq) as Hr.
  assert (∃ f, (answers w.1 (bus w.1) [v]).1 = [f]) as [f Hf].
  { cbn [answers]. destruct (answer _ v) as [rx b]. by eexists. }
  destruct (answers w.1 (bus w.1) [v]) as [fs b] eqn:Ea. cbn [fst] in Hf. subst fs.
  cbn [length app] in Hr. rewrite Nat.sub_0_r in Hr. destruct Hr as (H1 & H2 & H3 & H4).
  destruct (sched w.2) eqn:Ew.
  - exists (main_loop w), (S w.2). unfold main_loop at 2 3 4. rewrite Ew. split; [|by split_and!].
    assert (holds (main_loop w) [] [f]) as [Hu' Hq'] by (unfold main_loop; rewrite Ew; by split).
    destruct (config1_counts _ _ _ Hu' Hq') as [_ Hc]. cbn [wait_nonzero].
    unfold rxFifoCount, regRead. cbn. by rewrite Hc.
  - destruct j as [|j]; [rewrite Nat.add_0_r in Hs; congruence|].
    destruct n as [|n]; [lia|].
    specialize (IH (w.1, S w.2) j (conj Hu Hq) ltac:(lia)). cbn [fst snd] in IH.
    rewrite Nat.add_succ_r in Hs. specialize (IH Hs). rewrite Ea in IH.
    destruct IH as (s & k & Hw & IH). exists s, k. split; [|exact IH]. rewrite <- Hw.
    destruct (config1_counts _ _ _ Hu Hq) as [_ Hc].
    cbn [wait_nonzero]. unfold rxFifoCount at 1, regRead, main_loop. rewrite Ew. cbn. rewrite Hc. cbn. reflexivity.
Qed.

Lemma wait_room w r n : holds w.1 [] r →
  ∃ s k, wait_nonzero txFifoFree (S n) w = (true, (s, k)) ∧ holds s [] r ∧ same w.1 s ∧ bus s = bus w.1.
Proof.
  intros Hh. destruct (idle_loop _ _ Hh) as ((Hu & Hq) & Hm & Hb). exists (main_loop w), (S w.2).
  split; [|by split_and!]. destruct (config1_counts _ _ _ Hu Hq) as [Hc _]. cbn [wait_nonzero].
  unfold txFifoFree, regRead. cbn. by rewrite Hc.
Qed.

Lemma same_irq s : same s (bl808_spi_update_irq s) ∧ bus (bl808_spi_update_irq s) = bus s.
Proof. by split. Qed.

Lemma spi_schedule_frame s : same s (bl808_spi_schedule_transfer s) ∧ bus (bl808_spi_schedule_transfer s) = bus s ∧
  ∀ q r, queues s q r → queues (bl808_spi_schedule_transfer s) q r.
Proof.
  unfold bl808_spi_schedule_transfer. destruct (_ || _); [done|].
  split_and!; [by split|done|]. intros q r []. by split.
Qed.

Lemma pushed_frame s v : same s (pushed s v) ∧ bus (pushed s v) = bus s.
Proof. unfold pushed. by destruct (tx_count s =? 0). Qed.

Lemma wdata_write s v : bl808_spi_write s SPI_FIFO_WDATA v 4 =
  if reset_asserted s then s else bl808_spi_update_irq (write_fifo_wdata s v).
Proof. reflexivity. Qed.

Lemma rdata_read s : bl808_spi_read s SPI_FIFO_RDATA 4 =
  if rx_count s =? 0 then
    let s := bl808_spi_update_irq (s <| fifo_config0 := Z.lor (fifo_config0 s) SPI_FIFO_RX_UNDERFLOW |>) in
    (bl808_spi_idle_frame s, s)
  else (rx_fifo s !!! Z.to_nat (rx_head s), bl808_spi_update_irq (pop_rx s)).
Proof. reflexivity. Qed.

(** Writing a byte to an empty FIFO, and reading the byte received. *)
Lemma write_byte w v : holds w.1 [] [] → uint 8 v →
  let w' := regWrite w SPI_FIFO_WDATA v in
  holds w'.1 [v] [] ∧ same w.1 w'.1 ∧ bus w'.1 = bus w.1.
Proof.
  intros Hh Hv. destruct (idle_loop _ _ Hh) as ((Hu & Hq) & Hm & Hb). cbv zeta. unfold regWrite. cbn [fst].
  revert Hu Hq Hm Hb. generalize (main_loop w). intros s Hu Hq Hm Hb.
  pose proof (write_good s SPI_FIFO_WDATA v (su_good _ Hu)) as Hg.
  pose proof (su_powered _ Hu) as Hp. unfold powered, bl808_spi_clock_active in Hp.
  rewrite wdata_write in *. destruct (reset_asserted s) eqn:Er; [by destruct (clock_enabled s)|].
  destruct (spi_tx_range _ _ _ Hq) as [Ht _]. cbn [length] in Ht.
  unfold write_fifo_wdata in *. rewrite byte_depth in * by apply Hu.
  rewrite (proj2 (Z.leb_gt 32 (tx_count s))) in * by lia.
  unfold uint in Hv. rewrite spi_u32_small in * by lia.
  pose proof (spi_push_queues s [] [] v Hq ltac:(lia)) as Hx. cbn [app] in Hx.
  rewrite spi_byte_mask in Hx by apply Hu. change 0xFF with (Z.ones 8) in Hx. rewrite Z.land_ones, Z.mod_small in Hx by lia.
  rewrite push_tx_pushed in *. destruct (pushed_frame s v) as [P1 P2].
  revert Hg Hx P1 P2. generalize (pushed s v). intros s1 Hg Hx P1 P2.
  destruct (spi_schedule_frame s1) as (S1 & S2 & S3). apply S3 in Hx.
  revert Hg Hx S1 S2. clear S3. generalize (bl808_spi_schedule_transfer s1). intros s2 Hg Hx S1 S2.
  destruct (same_irq s2) as [I1 I2].
  assert (same s (bl808_spi_update_irq s2)) as Hs by (etrans; [exact P1|by etrans]).
  split_and!; [split; [by eapply same_set_up|by destruct Hx; split]|by etrans|congruence].
Qed.

Lemma read_byte w v : holds w.1 [] [v] →
  let '(x, w') := regRead w SPI_FIFO_RDATA in
  x = v ∧ holds w'.1 [] [] ∧ same w.1 w'.1 ∧ bus w'.1 = bus w.1.
Proof.
  intros Hh. destruct (idle_loop _ _ Hh) as ((Hu & Hq) & Hm & Hb). unfold regRead.
  revert Hu Hq Hm Hb. generalize (main_loop w). intros s Hu Hq Hm Hb.
  pose proof (read_good s SPI_FIFO_RDATA (su_good _ Hu)) as Hg.
  destruct (spi_rx_range _ _ _ Hq) as [Hc _]. cbn in Hc. destruct (spi_pop_queues _ _ _ _ Hq) as [Hx Hp].
  rewrite rdata_read in *. rewrite (proj2 (Z.eqb_neq (rx_count s) 0)) in * by lia.
  cbn [snd] in Hg. destruct (same_irq (pop_rx s)) as [Hs Hsb]. assert (same s (pop_rx s)) as Hs' by (by split).
  assert (same s (bl808_spi_update_irq (pop_rx s))) as Hs2 by (by etrans).
  split_and!; [exact Hx|split; [by eapply same_set_up|by destruct Hp; split]|by etrans|exact Hb].
Qed.

(** ** Transfers *)

(** The main loop has a turn before the timeout of the driver ends. *)
Definition turns_in_time : Prop := ∀ k, ∃ j, (j < Z.to_nat 100000)%nat ∧ sched (k + j)%nat = true.

Lemma answers_bytes s b q : frame_size s = 0 → Forall (uint 8) (answers s b q).1.
Proof.
  intros Hf. revert b. induction q as [|tx q IH]; intros b; [constructor|]. cbn [answers].
  destruct (answer (with_bus s b) tx) as [rx b']. specialize (IH b'). destruct (answers s b' q) as [fs b'']. constructor; [|done].
  rewrite spi_byte_mask by done. apply uint_land_r; [lia|]. by vm_compute.
Qed.

Lemma transferByte_answers w v :
  turns_in_time → holds w.1 [] [] → uint 8 v →
  let '(fs, b) := answers w.1 (bus w.1) [v] in
  let '(x, e, w') := transferByte w v in
  fs = [x] ∧ e = spiOk ∧ holds w'.1 [] [] ∧ same w.1 w'.1 ∧ bus w'.1 = b.
Proof.
  intros Hturn Hh Hv. pose proof (answers_bytes w.1 (bus w.1) [v] (su_frame _ (proj1 Hh))) as Hby.
  unfold transferByte. destruct (Z.to_nat 100000) as [|n] eqn:En; [lia|].
  destruct (wait_room w [] n Hh) as (s1 & k1 & -> & H1 & M1 & B1). cbn [negb].
  destruct (write_byte (s1, k1) v H1 Hv) as (H2 & M2 & B2). cbn [fst] in M2, B2.
  destruct (regWrite (s1, k1) SPI_FIFO_WDATA v) as [s2 k2]. cbn [fst] in *.
  destruct (Hturn k2) as (j & Hj & Hsc). rewrite En in Hj.
  pose proof (wait_answer (s2, k2) v (S n) j H2 Hj Hsc) as H3. cbn [fst] in H3.
  assert (same w.1 s2) as M by (by etrans). rewrite (answers_ext w.1 s2) in H3 by apply M.
  rewrite B2, B1 in H3. destruct (answers w.1 (bus w.1) [v]) as [fs b] eqn:Ea.
  assert (∃ x, fs = [x]) as [x ->].
  { cbn [answers] in Ea. destruct (answer _ v). injection Ea as <- _. by eexists. }
  destruct H3 as (s3 & k3 & -> & H3 & M3 & B3). cbn [negb].
  pose proof (read_byte (s3, k3) x H3) as H4. destruct (regRead (s3, k3) SPI_FIFO_RDATA) as [y w4]. cbn [fst] in H4.
  destruct H4 as (-> & H4 & M4 & B4). cbn [fst] in Hby. apply Forall_cons in Hby as [Hb _].
  split_and!; [|done|exact H4|by do 2 (etrans; [eassumption|])|by rewrite B4].
  f_equal. unfold uint in Hb. change 0xFF with (Z.ones 8). by rewrite Z.land_ones, Z.mod_small by lia.
Qed.

Lemma transfer_answers w txBuf rxBuf :
  turns_in_time → holds w.1 [] [] → Forall (uint 8) txBuf → length rxBuf = length txBuf →
  let '(fs, b) := answers w.1 (bus w.1) txBuf in
  let '(e, bs, w') := transfer w txBuf rxBuf in
  e = spiOk ∧ bs = fs ∧ holds w'.1 [] [] ∧ same w.1 w'.1 ∧ bus w'.1 = b.
Proof.
  intros Hturn. revert w rxBuf. induction txBuf as [|tx txBuf IH]; intros w rxBuf Hh Hv Hl.
  { destruct rxBuf; [|done]. by split_and!. }
  destruct rxBuf as [|old rxBuf]; [done|]. apply Forall_cons in Hv as [Hv Hvs].
  pose proof (transferByte_answers w tx Hturn Hh Hv) as H1. cbn [answers transfer] in *.
  destruct (answer (with_bus w.1 (bus w.1)) tx) as [rx b]. destruct (transferByte w tx) as [[x e] w1].
  destruct H1 as (Hx & -> & H1 & M1 & B1). injection Hx as Hx. rewrite bool_decide_true by done.
  specialize (IH w1 rxBuf H1 Hvs ltac:(simpl in Hl; lia)).
  rewrite (answers_ext w.1 w1.1), B1 in IH by apply M1. destruct (answers w.1 b txBuf) as [fs b'].
  destruct (transfer w1 txBuf rxBuf) as [[e bs] w2]. destruct IH as (-> & -> & H2 & M2 & B2).
  split_and!; [done|by rewrite Hx|exact H2|by etrans|exact B2].
Qed.

(** [send] moves the same bytes and drops the answers. *)
Lemma send_answers w txBuf :
  turns_in_time → holds w.1 [] [] → Forall (uint 8) txBuf →
  let '(e, w') := send w txBuf in
  e = spiOk ∧ holds w'.1 [] [] ∧ bus w'.1 = (answers w.1 (bus w.1) txBuf).2.
Proof.
  intros Hturn. revert w. induction txBuf as [|tx txBuf IH]; intros w Hh Hv; [by split_and!|].
  apply Forall_cons in Hv as [Hv Hvs]. pose proof (transferByte_answers w tx Hturn Hh Hv) as H1.
  cbn [answers send] in *. destruct (answer (with_bus w.1 (bus w.1)) tx) as [rx b].
  destruct (transferByte w tx) as [[x e] w1]. destruct H1 as (_ & -> & H1 & M1 & B1).
  rewrite bool_decide_true by done. specialize (IH w1 H1 Hvs). destruct (send w1 txBuf) as [e w2].
  destruct IH as (-> & H2 & B2). rewrite (answers_ext w.1 w1.1), B1 in B2 by apply M1.
  split_and!; [done|done|]. rewrite B2. by destruct (answers w.1 b txBuf).
Qed.

(** ** Initialization *)

Lemma config_bits c : frameSize c = frame8bit → uint 32 (config_word c) ∧
  tst (config_word c) (Z.lor SPI_MASTER_EN SPI_SLAVE_EN) = true ∧
  Z.shiftr (Z.land (config_word c) SPI_FRAME_SIZE_MASK) SPI_FRAME_SIZE_SHIFT = 0 ∧
  tst (config_word c) SPI_RXD_IGNR_EN = false.
Proof.
  unfold config_word. destruct c as [m f ro p d]. cbn. intros ->. by destruct m, ro, d; vm_compute.
Qed.

(** A clocked controller out of reset. *)
Record on s : Prop := {
  on_good : good s;
  on_clock : clock_enabled s = true;
  on_reset : reset_asserted s = false;
}.

(** Nothing is sent by a controller that has nothing to send. *)
Definition calm s s' : Prop :=
  loopback s' = loopback s ∧ (tx_count s = 0 → tx_count s' = 0 ∧ bus s' = bus s).

#[local] Instance calm_preorder : PreOrder calm.
Proof.
  split; [by split|]. intros s1 s2 s3 [? H1] [? H2]. split; [congruence|]. intros Ht.
  destruct (H1 Ht) as [Ht2 <-]. destruct (H2 Ht2) as [? <-]. done.
Qed.

Lemma run_calm s : good s → calm s (run_bh s).
Proof.
  intros Hg. split; [by apply run_same|]. intros Ht. pose proof Hg as [[Hb _] _].
  destruct (ba_queues _ Hb) as (q & r & Hq). destruct (spi_tx_range _ _ _ Hq) as [Hl _].
  destruct q; [|simpl in Hl; lia]. unfold run_bh. destruct (transfer_bh s); [|done].
  set (s1 := s <| transfer_bh := false |>). assert (queues s1 [] r) as Hq1 by (by destruct Hq; split).
  destruct (powered s1) eqn:Hp.
  - pose proof (bh_exchanges s1 [] r Hq1 (ba_ignored _ Hb) Hp) as Hx. cbn [answers] in Hx.
    destruct Hx as [Xq Xb _ _ _ _ _ _]. split; [|exact Xb]. by destruct (spi_tx_range _ _ _ Xq) as [-> _].
  - rewrite (unpowered_bh _ Hp). done.
Qed.

Lemma on_loop w : on w.1 →
  on (main_loop w) ∧ config (main_loop w) = config w.1 ∧ calm w.1 (main_loop w).
Proof.
  intros [Hg Hk Hr]. unfold main_loop. destruct (sched w.2); [|by split_and!].
  destruct (run_same _ Hg) as [Hc _ _ Hk' Hr']. split_and!; [|exact Hc|by apply run_calm].
  split; [by apply run_good|congruence|congruence].
Qed.

(** The writes of the initialization. *)
Lemma write_config_on s v : on s →
  let s' := bl808_spi_write s SPI_CONFIG_REG v 4 in on s' ∧ config s' = u32 v ∧ calm s s'.
Proof.
  intros [Hg Hk Hr]. pose proof (write_good s SPI_CONFIG_REG v Hg) as Hg'.
  assert (bl808_spi_write s SPI_CONFIG_REG v 4 = bl808_spi_update_irq (write_config s v)) as He
    by (unfold bl808_spi_write; by rewrite Hr).
  cbv zeta. rewrite He in *. clear He.
  assert (clock_enabled (write_config s v) = true ∧ reset_asserted (write_config s v) = false ∧
          config (write_config s v) = u32 v ∧ calm s (write_config s v)) as (H1 & H2 & H3 & H4).
  { unfold write_config, bl808_spi_schedule_transfer. cbv zeta.
    destruct (negb (bl808_spi_enabled _)); [by split_and!|]. destruct (_ || _); by split_and!. }
  revert Hg' H1 H2 H3 H4. generalize (write_config s v). intros s1 Hg' H1 H2 H3 H4.
  split_and!; [by split|done|]. by etrans.
Qed.

Lemma write_prd_on s o v : o = SPI_PRD0 ∨ o = SPI_PRD1 → on s →
  let s' := bl808_spi_write s o v 4 in on s' ∧ config s' = config s ∧ calm s s'.
Proof.
  intros Ho [Hg Hk Hr]. pose proof (write_good s o v Hg) as Hg'. cbv zeta. unfold bl808_spi_write in *.
  rewrite Hr in *. by destruct Ho as [-> | ->]; (split_and!; [split|..]).
Qed.

Lemma write_clear_on s v : on s → tst v SPI_FIFO_TX_CLR = true → tst v SPI_FIFO_RX_CLR = true →
  let s' := bl808_spi_write s SPI_FIFO_CONFIG0 v 4 in
  on s' ∧ config s' = config s ∧ calm s s' ∧ queues s' [] [].
Proof.
  intros [Hg Hk Hr] Ht Hx. pose proof (write_good s SPI_FIFO_CONFIG0 v Hg) as Hg'. cbv zeta.
  destruct (ba_queues _ (proj1 (proj1 Hg))) as (q & r & Hq).
  assert (bl808_spi_write s SPI_FIFO_CONFIG0 v 4 = bl808_spi_update_irq (write_fifo_config0 s v)) as He
    by (unfold bl808_spi_write; by rewrite Hr).
  rewrite He in *. clear He. unfold write_fifo_config0 in *. rewrite Ht, Hx in *.
  pose proof (clear_rx_queues _ _ _ (clear_tx_queues _ _ _ Hq)) as [].
  split_and!; [by split|done|done|by split].
Qed.

Lemma write_ints_on s v : on s →
  let s' := bl808_spi_write s SPI_INT_STS v 4 in
  on s' ∧ config s' = config s ∧ calm s s' ∧ ∀ q r, queues s q r → queues s' q r.
Proof.
  intros [Hg Hk Hr]. pose proof (write_good s SPI_INT_STS v Hg) as Hg'. cbv zeta.
  unfold bl808_spi_write in *. rewrite Hr in *.
  split_and!; [by split|done|done|]. intros q r []. by split.
Qed.

Lemma read_plain w o : o = SPI_CONFIG_REG ∨ o = SPI_FIFO_CONFIG0 → on w.1 →
  let '(v, w') := regRead w o in
  on w'.1 ∧ config w'.1 = config w.1 ∧ calm w.1 w'.1.
Proof. intros Ho Hn. destruct (on_loop _ Hn) as (H1 & H2 & H3). by destruct Ho as [-> | ->]. Qed.

(** The steps of the initialization. *)
Lemma config_step w v : on w.1 →
  let w' := regWrite w SPI_CONFIG_REG v in on w'.1 ∧ config w'.1 = u32 v ∧ calm w.1 w'.1.
Proof.
  intros Hn. destruct (on_loop _ Hn) as (H1 & _ & H3).
  destruct (write_config_on (main_loop w) v H1) as (H4 & H5 & H6). split_and!; [exact H4|exact H5|].
  etrans; [exact H3|exact H6].
Qed.

Lemma disable_step w : on w.1 → let w' := regClear w SPI_CONFIG_REG enable_bits in on w'.1 ∧ calm w.1 w'.1.
Proof.
  intros Hn. pose proof (read_plain w SPI_CONFIG_REG (or_introl eq_refl) Hn) as Hr. unfold regClear.
  destruct (regRead w SPI_CONFIG_REG) as [v w1]. destruct Hr as (H1 & _ & H3).
  destruct (config_step w1 (Z.land v (not32 enable_bits)) H1) as (H4 & _ & H6).
  split; [exact H4|etrans; [exact H3|exact H6]].
Qed.

Lemma prd_step w o v : o = SPI_PRD0 ∨ o = SPI_PRD1 → on w.1 →
  let w' := regWrite w o v in on w'.1 ∧ config w'.1 = config w.1 ∧ calm w.1 w'.1.
Proof.
  intros Ho Hn. destruct (on_loop _ Hn) as (H1 & H2 & H3).
  destruct (write_prd_on (main_loop w) o v Ho H1) as (H4 & H5 & H6).
  split_and!; [exact H4|etrans; [exact H5|exact H2]|etrans; [exact H3|exact H6]].
Qed.

Lemma clearFifos_step w : on w.1 →
  let w' := clearFifos w in on w'.1 ∧ config w'.1 = config w.1 ∧ calm w.1 w'.1 ∧ queues w'.1 [] [].
Proof.
  intros Hn. unfold clearFifos, regSet. pose proof (read_plain w SPI_FIFO_CONFIG0 (or_intror eq_refl) Hn) as Hr.
  destruct (regRead w SPI_FIFO_CONFIG0) as [v w1]. destruct Hr as (H1 & H2 & H3).
  destruct (on_loop _ H1) as (H4 & H5 & H6). set (m := Z.lor v _).
  assert (tst m SPI_FIFO_TX_CLR = true ∧ tst m SPI_FIFO_RX_CLR = true) as [T1 T2].
  { unfold m, SPI_FIFO_TX_CLR, SPI_FIFO_RX_CLR.
    rewrite !tst_BIT, !Z.lor_spec, !(Z.shiftl_spec 1) by lia. split; by destruct (Z.testbit v _). }
  destruct (write_clear_on (main_loop w1) m H4 T1 T2) as (H7 & H8 & H9 & H10).
  split_and!; [exact H7|cbn [regWrite fst]; congruence|etrans; [exact H3|etrans; [exact H6|exact H9]]|exact H10].
Qed.

Lemma set_up_config s c : on s → config s = config_word c → frameSize c = frame8bit → set_up s.
Proof.
  intros [Hg Hk Hr] Hcfg Hc. destruct (config_bits c Hc) as (_ & C2 & C3 & C4). split; [exact Hg|..].
  - unfold powered, bl808_spi_clock_active, bl808_spi_enabled. by rewrite Hk, Hr, Hcfg, C2.
  - unfold frame_size. by rewrite Hcfg.
  - unfold ignore_count. by rewrite Hcfg, C4.
Qed.

Lemma ints_step w v c : on w.1 → config w.1 = config_word c → frameSize c = frame8bit → queues w.1 [] [] →
  let w' := regWrite w SPI_INT_STS v in holds w'.1 [] [] ∧ calm w.1 w'.1.
Proof.
  intros Hn Hcfg Hc Hq. pose proof (set_up_config _ _ Hn Hcfg Hc) as Hu.
  destruct (idle_loop w [] (conj Hu Hq)) as ((Hu' & Hq') & _). destruct (on_loop _ Hn) as (H1 & H2 & H3).
  destruct (write_ints_on (main_loop w) v H1) as (H4 & H5 & H6 & H7).
  split; [split; [|by apply H7]|etrans; [exact H3|exact H6]].
  apply (set_up_config _ c); [exact H4|cbn [regWrite fst]; congruence|done].
Qed.

Lemma initSpi_ready w c : on w.1 → frameSize c = frame8bit →
  let w' := initSpi w c in holds w'.1 [] [] ∧ calm w.1 w'.1.
Proof.
  intros Hn Hc. destruct (config_bits c Hc) as (C1 & _). unfold initSpi.
  destruct (disable_step w Hn) as (N1 & L1). cbv zeta in *. revert N1 L1.
  generalize (regClear w SPI_CONFIG_REG enable_bits). intros w1 N1 L1.
  destruct (config_step w1 (config_word c) N1) as (N2 & G2 & L2). revert N2 G2 L2.
  generalize (regWrite w1 SPI_CONFIG_REG (config_word c)). intros w2 N2 G2 L2.
  rewrite (wrap_small 32) in G2 by exact C1. generalize (Z.lor (Z.land (prescaler c) 0xFF ≪ 16) (Z.land (prescaler c) 0xFF)).
  intros prd. destruct (prd_step w2 SPI_PRD0 prd (or_introl eq_refl) N2) as (N3 & G3 & L3). revert N3 G3 L3.
  generalize (regWrite w2 SPI_PRD0 prd). intros w3 N3 G3 L3.
  destruct (prd_step w3 SPI_PRD1 prd (or_intror eq_refl) N3) as (N4 & G4 & L4). revert N4 G4 L4.
  generalize (regWrite w3 SPI_PRD1 prd). intros w4 N4 G4 L4.
  destruct (clearFifos_step w4 N4) as (N5 & G5 & L5 & Q5). revert N5 G5 L5 Q5.
  generalize (clearFifos w4). intros w5 N5 G5 L5 Q5.
  match goal with |- context [regWrite w5 SPI_INT_STS ?v] => destruct (ints_step w5 v c N5 ltac:(congruence) Hc Q5) as [H L6] end.
  split; [exact H|]. repeat (etrans; [eassumption|]). done.
Qed.

(** A controller in loopback answers what it is sent. *)
Lemma answers_loopback s b q : loopback s = true → frame_size s = 0 → Forall (uint 8) q → answers s b q = (q, b).
Proof.
  intros Hl Hf Hq. induction Hq as [|v q Hv Hq IH]; [done|]. cbn [answers]. unfold answer, with_bus. cbn [set_field loopback bus].
  change (loopback (s <| bus := b |>)) with (loopback s). rewrite Hl. cbn. rewrite IH, spi_byte_mask by done. unfold uint in Hv.
  change 0xFF with (Z.ones 8). by rewrite Z.land_ones, Z.mod_small by lia.
Qed.

(** C30: the SPI driver exchanges its buffer.  After any past, once a clocked
    controller is set up for bytes, [transfer] succeeds whenever the main loop gets
    its turns in time: the receive buffer holds, in order, what the bus answers to
    the bytes of the transmit buffer, all of them went over the bus, and the
    controller is ready for the next transfer.  The setup itself sends nothing if
    nothing was waiting; in loopback the bytes come back as they were sent. *)
Theorem spi_hal_exchanges `{!ColdReset (bl808_spi_reset (B := B))} s0 ops k c txBuf rxBuf :
  turns_in_time → new_device s0 → frameSize c = frame8bit → Forall (uint 8) txBuf → length rxBuf = length txBuf →
  let s := spi_run (bl808_spi_reset (bl808_spi_init s0)) ops in
  bl808_spi_clock_active s = true →
  let w := initSpi (s, k) c in
  let '(fs, b) := answers w.1 (bus w.1) txBuf in
  let '(e, bs, w') := transfer w txBuf rxBuf in
  e = spiOk ∧ bs = fs ∧ bus w'.1 = b ∧ holds w'.1 [] [] ∧
  (tx_count s = 0 → bus w.1 = bus s) ∧ (loopback s = true → bs = txBuf).
Proof.
  intros Hturn Hnew Hf Hb Hl. cbv zeta. pose proof (run_ops_good _ ops (start_good _ Hnew)) as Hg.
  revert Hg. generalize (spi_run (bl808_spi_reset (bl808_spi_init s0)) ops). intros s Hg Hk.
  unfold bl808_spi_clock_active in Hk. apply andb_true_iff in Hk as [Hk Hr]. apply negb_true_iff in Hr.
  destruct (initSpi_ready (s, k) c ltac:(by split) Hf) as [Hh [Hlo Hc]]. cbn [fst] in Hlo, Hc.
  revert Hh Hlo Hc. generalize (initSpi (s, k) c). intros w Hh Hlo Hc.
  pose proof (transfer_answers w txBuf rxBuf Hturn Hh Hb Hl) as Ht.
  assert (loopback s = true → (answers w.1 (bus w.1) txBuf).1 = txBuf) as Hloop.
  { intros He. rewrite answers_loopback; [done|congruence|apply Hh|done]. }
  destruct (answers w.1 (bus w.1) txBuf) as [fs b]. destruct (transfer w txBuf rxBuf) as [[e bs] w'].
  destruct Ht as (-> & -> & H2 & _ & B2). split_and!; try done. intros Ht. by apply Hc.
Qed.

End hal.

(** ** The DMA enables cannot be taken back *)

(** A write of the first FIFO register with the DMA enables clear, as the DMA
    driver does after a transfer ([kernel/asyncdma.nim]), leaves them set. *)
Lemma spi_dma_enable_sticks {B : Type} `{!SSIBus B} (s : BL808SPIState B) (b v : Z) :
  b = SPI_FIFO_DMA_RX_EN ∨ b = SPI_FIFO_DMA_TX_EN →
  tst (fifo_config0 s) b = true → tst (fifo_config0 (bl808_spi_write s SPI_FIFO_CONFIG0 v 4)) b = true.
Proof.
  intros Hb Ht. unfold bl808_spi_write. destruct (reset_asserted s); [done|].
  assert (∃ n, b = BIT n ∧ 0 ≤ n < 2) as (n & -> & Hn) by (destruct Hb as [-> | ->]; [by exists 0|by exists 1]).
  rewrite tst_BIT in * by lia.
  change (Z.testbit (fifo_config0 (write_fifo_config0 s v)) n = true). unfold write_fifo_config0. cbv zeta.
  assert (n = 0 ∨ n = 1) as [-> | ->] by lia;
    destruct (tst v SPI_FIFO_TX_CLR), (tst v SPI_FIFO_RX_CLR);
    cbn [set_field fifo_config0 int_sts bl808_spi_clear_tx_fifo bl808_spi_clear_rx_fifo];
    rewrite ?clr_spec, ?Z.lor_spec, ?clr_spec, Ht by lia; reflexivity.
Qed.

(** ** On a concrete bus *)

Module SpiDemo.

(** A peripheral that answers each frame with the one before it. *)
#[local] Instance delay_bus : SSIBus Z := λ b tx, (b, tx).
#[local] Instance cold_reset : ColdReset (bl808_spi_reset (B := Z)) := direct_reset _.

Definition blank : BL808SPIState Z :=
  mk_spi false true false (Some 0x77) 0 0 0 0 0 0 0 0 0 0 (replicate 32 0) (replicate 32 0)
    0 0 0 0 0 0 0 false false false false false false false.

Lemma blank_new : new_device blank.
Proof. by split. Qed.

(** Three frames, to a controller that was clocked off and on. *)
Definition past : list spi_op :=
  [SWrite SPI_CONFIG_REG 1; SClock false; SWrite SPI_FIFO_WDATA 1; SWrite SPI_FIFO_WDATA 2;
   SWrite SPI_FIFO_WDATA 3; SClock true].

Notation waiting := (spi_run (bl808_spi_reset (bl808_spi_init blank)) past).

Lemma waiting_powered : powered waiting = true.
Proof. by vm_compute. Qed.

Lemma spi_never_stalls_witness :
  new_device blank ∧ irq waiting = line waiting ∧
  ∃ q r, queues waiting q r ∧ bus (run_bh waiting) = (answers waiting (bus waiting) q).2.
Proof.
  split; [exact blank_new|]. destruct (spi_never_stalls blank past blank_new) as [Hi H].
  split; [exact Hi|]. destruct (H waiting_powered) as (q & r & Hq & _ & Hx). exists q, r. split; [exact Hq|].
  destruct (answers waiting (bus waiting) q) as [fs b]. exact (proj1 (proj2 Hx)).
Defined.

(** The main loop has every third turn. *)
Definition thirds (k : nat) : bool := (k mod 3 =? 0)%nat.

Lemma thirds_in_time : turns_in_time thirds.
Proof.
  intros k. destruct (k mod 3)%nat as [|[|n]] eqn:E.
  - exists 0%nat. rewrite Nat.add_0_r. unfold thirds. rewrite E. split; [lia|done].
  - exists 2%nat. unfold thirds. rewrite <- Nat.Div0.add_mod_idemp_l, E. split; [lia|done].
  - exists 1%nat. unfold thirds. rewrite <- Nat.Div0.add_mod_idemp_l, E.
    assert (n = 0%nat) as -> by (pose proof (Nat.mod_upper_bound k 3); lia). split; [lia|done].
Qed.

Lemma waiting_active : bl808_spi_clock_active waiting = true.
Proof. by vm_compute. Qed.

Lemma demo_bytes : Forall (uint 8) [0x10; 0x20; 0x30].
Proof. apply (bool_decide_unpack _). by vm_compute. Qed.

Notation started := (initSpi thirds (waiting, 0%nat) DefaultSpiConfig).

(** The stale frames went out when the controller was enabled, so the first answer
    is the last of them. *)
Lemma started_answers : (answers started.1 (bus started.1) [0x10; 0x20; 0x30]).1 = [3; 0x10; 0x20].
Proof. by vm_compute. Qed.

Lemma spi_hal_exchanges_witness :
  turns_in_time thirds ∧ (transfer thirds started [0x10; 0x20; 0x30] [0; 0; 0]).1 = (spiOk, [3; 0x10; 0x20]).
Proof.
  split; [exact thirds_in_time|].
  pose proof (spi_hal_exchanges thirds blank past 0 DefaultSpiConfig [0x10; 0x20; 0x30] [0; 0; 0]
                thirds_in_time blank_new eq_refl demo_bytes eq_refl waiting_active) as H.
  pose proof started_answers as Ha.
  cbv zeta in H. revert H Ha. generalize (answers started.1 (bus started.1) [0x10; 0x20; 0x30]).
  generalize (transfer thirds started [0x10; 0x20; 0x30] [0; 0; 0]). intros [[e bs] w'] [fs b] H Ha.
  exact (f_equal2 pair (proj1 H) (eq_trans (proj1 (proj2 H)) Ha)).
Defined.

End SpiDemo.
