(* ===== verification/I2c.v ===== *)
(** * The I2C controller ([qemu-machine/hw/i2c/bl808_i2c.c])

    One module [BL808I2C]: the state, the two FIFOs, the course of a transfer, the
    register handlers, the entry points of the DMA controller, the clock and reset
    hooks.  The bus belongs to the emulator and is the interface [I2CBus]. *)

From S2P Require Import Prelude Qemu Fifo.
From stdpp Require Import prelude list.
From Stdlib Require Import ZArith Lia.
Local Open Scope Z_scope.

(** The bus core of the emulator: a start returns a nonzero value and a send a
    negative one when nobody acknowledges. *)
Class I2CBus (B : Type) := {
  i2c_start_send : B → Z → Z * B;
  i2c_start_recv : B → Z → Z * B;
  i2c_send : B → Z → Z * B;
  i2c_recv : B → Z * B;
  i2c_end_transfer : B → B;
  i2c_bus_busy : B → bool;
  at24c_eeprom_init_rom : B → Z → list Z → B;
}.

Module BL808I2C.

Definition BL808_I2C_EEPROM_SIZE := 256.
Definition BL808_I2C_EEPROM_ADDR := 0x50.
Definition BL808_I2C_FIFO_DEPTH := 2.

(** ** State *)

Section state.
Context {B : Type}.

(** [i2c_init_bus] sets the pointer to the bus when the device is made, and
    nothing changes it: it is never null. *)
Record BL808I2CState := mk_i2c {
  irq : bool;               (* level last passed to qemu_set_irq *)
  bus : B;
  config : Z;               (* uint32_t *)
  int_sts : Z;
  sub_addr : Z;
  prd_start : Z;
  prd_stop : Z;
  prd_data : Z;
  fifo_config0 : Z;
  tx_fifo : list Z;         (* uint8_t[BL808_I2C_FIFO_DEPTH] *)
  tx_head : Z;              (* int *)
  tx_count : Z;
  rx_fifo : list Z;
  rx_head : Z;
  rx_count : Z;
  transfer_active : bool;
  xfer_remaining : Z;
  xfer_is_read : bool;
  attach_default_eeprom : bool;
  gate_enabled : bool;
  module_clock_enabled : bool;
  clock_enabled : bool;
  reset_asserted : bool;
}.
End state.
Arguments BL808I2CState : clear implicits.

#[export] Instance eta_i2c {B} : Eta (BL808I2CState B) := λ r,
  mk_i2c (irq r) (bus r) (config r) (int_sts r) (sub_addr r) (prd_start r) (prd_stop r) (prd_data r)
    (fifo_config0 r) (tx_fifo r) (tx_head r) (tx_count r) (rx_fifo r) (rx_head r) (rx_count r)
    (transfer_active r) (xfer_remaining r) (xfer_is_read r) (attach_default_eeprom r) (gate_enabled r)
    (module_clock_enabled r) (clock_enabled r) (reset_asserted r).

Definition REG_CONFIG := 0x00.
Definition REG_INT_STS := 0x04.
Definition REG_SUB_ADDR := 0x08.
Definition REG_BUS_BUSY := 0x0C.
Definition REG_PRD_START := 0x10.
Definition REG_PRD_STOP := 0x14.
Definition REG_PRD_DATA := 0x18.
Definition REG_FIFO_CONFIG0 := 0x80.
Definition REG_FIFO_CONFIG1 := 0x84.
Definition REG_FIFO_WDATA := 0x88.
Definition REG_FIFO_RDATA := 0x8C.

Definition CFG_MASTER_EN := BIT 0.
Definition CFG_PKT_DIR := BIT 1.
Definition CFG_SUB_ADDR_EN := BIT 4.
Definition CFG_SUB_ADDR_BC_SHIFT := 5.
Definition CFG_SUB_ADDR_BC_MASK := Z.shiftl 0x3 CFG_SUB_ADDR_BC_SHIFT.
Definition CFG_10B_ADDR_EN := BIT 7.
Definition CFG_SLV_ADDR_SHIFT := 8.
Definition CFG_SLV_ADDR_MASK := Z.shiftl 0x7F CFG_SLV_ADDR_SHIFT.
Definition CFG_PKT_LEN_SHIFT := 16.
Definition CFG_PKT_LEN_MASK := Z.shiftl 0xFF CFG_PKT_LEN_SHIFT.

Definition INT_END := BIT 0.
Definition INT_TX_FIFO := BIT 1.
Definition INT_RX_FIFO := BIT 2.
Definition INT_NAK := BIT 3.
Definition INT_ARB := BIT 4.
Definition INT_FIFO_ERR := BIT 5.
Definition INT_MASK_SHIFT := 8.
Definition INT_CLEAR_SHIFT := 16.

Definition FIFO_DMA_RX_EN := BIT 0.
Definition FIFO_DMA_TX_EN := BIT 1.
Definition FIFO_TX_CLR := BIT 2.
Definition FIFO_RX_CLR := BIT 3.

(** ** Interrupts and FIFOs *)

Section i2c.
Context {B : Type} `{!I2CBus B}.
Notation state := (BL808I2CState B).
Implicit Types s : state.

Definition bl808_i2c_clock_active s : bool := clock_enabled s && negb (reset_asserted s).

Definition bl808_i2c_recompute_clock s : state :=
  s <| clock_enabled := gate_enabled s && module_clock_enabled s |>.

Definition bl808_i2c_update_irq s : state :=
  let status := Z.land (int_sts s) 0x3F in
  let mask := Z.land (Z.shiftr (int_sts s) INT_MASK_SHIFT) 0x3F in
  s <| irq := bl808_i2c_clock_active s && negb (clr status mask =? 0) |>.

Definition bl808_i2c_set_int s (bits : Z) : state :=
  bl808_i2c_update_irq (s <| int_sts := Z.lor (int_sts s) (Z.land bits 0x3F) |>).

Definition tx_fifo_clear s : state := s <| tx_head := 0 |> <| tx_count := 0 |>.
Definition rx_fifo_clear s : state := s <| rx_head := 0 |> <| rx_count := 0 |>.

Definition bl808_i2c_finish_transfer s : state :=
  let s := if transfer_active s then s <| bus := i2c_end_transfer (bus s) |> else s in
  s <| transfer_active := false |> <| config := clr (config s) CFG_MASTER_EN |>.

Definition bl808_i2c_abort_transfer s (status_bits : Z) : state :=
  let s := bl808_i2c_finish_transfer s in
  if negb (status_bits =? 0) then bl808_i2c_set_int s status_bits else s.

Definition tx_fifo_push s (val : Z) : state :=
  if BL808_I2C_FIFO_DEPTH <=? tx_count s then bl808_i2c_set_int s INT_FIFO_ERR
  else s <| tx_fifo := <[Z.to_nat ((tx_head s + tx_count s) mod BL808_I2C_FIFO_DEPTH) := val]> (tx_fifo s) |>
         <| tx_count := tx_count s + 1 |>.

Definition tx_fifo_pop s : Z * state :=
  if tx_count s =? 0 then (0xFF, bl808_i2c_set_int s INT_FIFO_ERR)
  else (tx_fifo s !!! Z.to_nat (tx_head s),
        s <| tx_head := (tx_head s + 1) mod BL808_I2C_FIFO_DEPTH |> <| tx_count := tx_count s - 1 |>).

Definition rx_fifo_push s (val : Z) : state :=
  if BL808_I2C_FIFO_DEPTH <=? rx_count s then bl808_i2c_set_int s INT_FIFO_ERR
  else s <| rx_fifo := <[Z.to_nat ((rx_head s + rx_count s) mod BL808_I2C_FIFO_DEPTH) := val]> (rx_fifo s) |>
         <| rx_count := rx_count s + 1 |>.

Definition rx_fifo_pop s : Z * state :=
  if rx_count s =? 0 then (0xFF, bl808_i2c_set_int s INT_FIFO_ERR)
  else (rx_fifo s !!! Z.to_nat (rx_head s),
        s <| rx_head := (rx_head s + 1) mod BL808_I2C_FIFO_DEPTH |> <| rx_count := rx_count s - 1 |>).

(** ** A transfer *)

Definition bl808_i2c_slave_addr s : Z := u8 (Z.shiftr (Z.land (config s) CFG_SLV_ADDR_MASK) CFG_SLV_ADDR_SHIFT).

Definition bl808_i2c_subaddr_len s : Z :=
  Z.shiftr (Z.land (config s) CFG_SUB_ADDR_BC_MASK) CFG_SUB_ADDR_BC_SHIFT + 1.

Definition bl808_i2c_start_bus_send s : Z * state :=
  let '(r, b) := i2c_start_send (bus s) (bl808_i2c_slave_addr s) in (r, s <| bus := b |>).

Fixpoint send_subaddr_loop s (len : nat) : Z * state :=
  match len with
  | O => (0, s)
  | S len =>
      let byte := Z.land (Z.shiftr (sub_addr s) (Z.of_nat len * 8)) 0xFF in
      let '(r, b) := i2c_send (bus s) byte in
      let s := s <| bus := b |> in
      if r <? 0 then (-1, s) else send_subaddr_loop s len
  end.

Definition bl808_i2c_send_subaddr s : Z * state :=
  if negb (tst (config s) CFG_SUB_ADDR_EN) then (0, s)
  else send_subaddr_loop s (Z.to_nat (bl808_i2c_subaddr_len s)).

(** Every round fills a place of the FIFO. *)
Fixpoint fill_rx_loop (fuel : nat) s : state :=
  match fuel with
  | O => s
  | S fuel =>
      if (rx_count s <? BL808_I2C_FIFO_DEPTH) && (0 <? xfer_remaining s) then
        let '(v, b) := i2c_recv (bus s) in
        let s := rx_fifo_push (s <| bus := b |>) (u8 v) in
        fill_rx_loop fuel (s <| xfer_remaining := xfer_remaining s - 1 |>)
      else s
  end.

Definition bl808_i2c_fill_rx s : state := fill_rx_loop (Z.to_nat (BL808_I2C_FIFO_DEPTH - rx_count s)) s.

(** Every round takes a byte out of the FIFO. *)
Fixpoint drain_tx_loop (fuel : nat) s : Z * state :=
  match fuel with
  | O => (0, s)
  | S fuel =>
      if (0 <? tx_count s) && (0 <? xfer_remaining s) then
        let '(v, s) := tx_fifo_pop s in
        let '(r, b) := i2c_send (bus s) v in
        let s := s <| bus := b |> in
        if r <? 0 then (-1, s) else drain_tx_loop fuel (s <| xfer_remaining := xfer_remaining s - 1 |>)
      else (0, s)
  end.

Definition bl808_i2c_drain_tx s : Z * state := drain_tx_loop (Z.to_nat (tx_count s)) s.

Definition bl808_i2c_check_complete s : state :=
  if xfer_remaining s =? 0 then bl808_i2c_set_int (bl808_i2c_finish_transfer s) INT_END
  else if xfer_is_read s then
    if 0 <? rx_count s then bl808_i2c_set_int s INT_RX_FIFO else s
  else if tx_count s <? BL808_I2C_FIFO_DEPTH then bl808_i2c_set_int s INT_TX_FIFO else s.

Definition nak s : state := bl808_i2c_abort_transfer s (Z.lor INT_NAK INT_END).

(** The start condition and the sub-address; nonzero when nobody answers. *)
Definition address_slave s : bool * state :=
  let '(r, s) := bl808_i2c_start_bus_send s in
  if negb (r =? 0) then (false, s)
  else let '(r, s) := bl808_i2c_send_subaddr s in (negb (r <? 0), s).

Definition start_read s : state :=
  let '(ok, s) := address_slave s in
  if negb ok then nak s
  else
    let s := s <| bus := i2c_end_transfer (bus s) |> in
    let '(r, b) := i2c_start_recv (bus s) (bl808_i2c_slave_addr s) in
    let s := s <| bus := b |> in
    if negb (r =? 0) then nak s else bl808_i2c_check_complete (bl808_i2c_fill_rx s).

Definition start_write s : state :=
  let '(ok, s) := address_slave s in
  if negb ok then nak s
  else
    let '(r, s) := bl808_i2c_drain_tx s in
    if r <? 0 then nak s else bl808_i2c_check_complete s.

Definition all_ints : Z :=
  Z.lor (Z.lor (Z.lor (Z.lor (Z.lor INT_END INT_TX_FIFO) INT_RX_FIFO) INT_NAK) INT_ARB) INT_FIFO_ERR.

Definition bl808_i2c_start_transfer s : state :=
  let is_read := tst (config s) CFG_PKT_DIR in
  let pkt_len := Z.shiftr (Z.land (config s) CFG_PKT_LEN_MASK) CFG_PKT_LEN_SHIFT + 1 in
  if negb (bl808_i2c_clock_active s) then bl808_i2c_abort_transfer s 0
  else if tst (config s) CFG_10B_ADDR_EN then nak s
  else
    let s := s <| int_sts := clr (int_sts s) all_ints |> <| xfer_is_read := is_read |>
               <| xfer_remaining := pkt_len |> <| transfer_active := true |> in
    if is_read then start_read s else start_write s.

(** ** The DMA port *)

Definition bl808_i2c_dma_can_read s (width_bytes : Z) : bool :=
  if negb (bl808_i2c_clock_active s) || negb (tst (fifo_config0 s) FIFO_DMA_RX_EN) || negb (width_bytes =? 1)
  then false else 0 <? rx_count s.

Definition bl808_i2c_dma_can_write s (width_bytes : Z) : bool :=
  if negb (bl808_i2c_clock_active s) || negb (tst (fifo_config0 s) FIFO_DMA_TX_EN) || negb (width_bytes =? 1)
  then false else tx_count s <? BL808_I2C_FIFO_DEPTH.

(** A byte out of the receive FIFO; the transfer goes on. *)
Definition take_byte s : Z * state :=
  let '(val, s) := rx_fifo_pop s in
  let s := if transfer_active s && xfer_is_read s
           then bl808_i2c_check_complete (bl808_i2c_fill_rx s) else s in
  (val, s).

(** A byte into the transmit FIFO; the transfer goes on. *)
Definition give_byte s (value : Z) : state :=
  let s := tx_fifo_push s (u8 value) in
  if transfer_active s && negb (xfer_is_read s) then
    let '(r, s) := bl808_i2c_drain_tx s in
    if r <? 0 then nak s else bl808_i2c_check_complete s
  else s.

Definition bl808_i2c_dma_read s (width_bytes : Z) : Z * state :=
  if negb (width_bytes =? 1) then (0, s) else take_byte s.

Definition bl808_i2c_dma_write s (value width_bytes : Z) : state :=
  if negb (width_bytes =? 1) then s else give_byte s value.

(** ** Register accesses *)

Definition bl808_i2c_fifo_config1 s : Z :=
  Z.lor (BL808_I2C_FIFO_DEPTH - tx_count s) (Z.shiftl (rx_count s) 8).

Definition bl808_i2c_read s (offset size : Z) : Z * state :=
  if offset =? REG_CONFIG then (config s, s)
  else if offset =? REG_INT_STS then (int_sts s, s)
  else if offset =? REG_SUB_ADDR then (sub_addr s, s)
  else if offset =? REG_BUS_BUSY then (Z.b2z (transfer_active s || i2c_bus_busy (bus s)), s)
  else if offset =? REG_PRD_START then (prd_start s, s)
  else if offset =? REG_PRD_STOP then (prd_stop s, s)
  else if offset =? REG_PRD_DATA then (prd_data s, s)
  else if offset =? REG_FIFO_CONFIG0 then (fifo_config0 s, s)
  else if offset =? REG_FIFO_CONFIG1 then (bl808_i2c_fifo_config1 s, s)
  else if offset =? REG_FIFO_RDATA then take_byte s
  else (0, s).

Definition write_config s (value : Z) : state :=
  let old := config s in
  let s := s <| config := u32 value |> in
  if negb (tst old CFG_MASTER_EN) && tst (config s) CFG_MASTER_EN then bl808_i2c_start_transfer s
  else if tst old CFG_MASTER_EN && negb (tst (config s) CFG_MASTER_EN) then bl808_i2c_abort_transfer s 0
  else s.

Definition write_int_sts s (value : Z) : state :=
  let mask_bits := Z.land (u32 value) (Z.shiftl 0x3F INT_MASK_SHIFT) in
  let clear_bits := Z.land (Z.shiftr (u32 value) INT_CLEAR_SHIFT) 0x3F in
  let s := s <| int_sts := Z.lor (clr (int_sts s) (Z.shiftl 0x3F INT_MASK_SHIFT)) mask_bits |> in
  bl808_i2c_update_irq (s <| int_sts := clr (int_sts s) clear_bits |>).

Definition write_fifo_config0 s (value : Z) : state :=
  let s := s <| fifo_config0 := Z.land (u32 value) (Z.lor FIFO_DMA_RX_EN FIFO_DMA_TX_EN) |> in
  let s := if tst value FIFO_TX_CLR then tx_fifo_clear s else s in
  let s := if tst value FIFO_RX_CLR then rx_fifo_clear s else s in
  bl808_i2c_update_irq s.

Definition bl808_i2c_write s (offset value size : Z) : state :=
  if reset_asserted s then s
  else if offset =? REG_CONFIG then write_config s value
  else if offset =? REG_INT_STS then write_int_sts s value
  else if offset =? REG_SUB_ADDR then s <| sub_addr := u32 value |>
  else if offset =? REG_PRD_START then s <| prd_start := u32 value |>
  else if offset =? REG_PRD_STOP then s <| prd_stop := u32 value |>
  else if offset =? REG_PRD_DATA then s <| prd_data := u32 value |>
  else if offset =? REG_FIFO_CONFIG0 then write_fifo_config0 s value
  else if offset =? REG_FIFO_WDATA then give_byte s value
  else s.

(** ** Reset, clock and power *)

Definition bl808_i2c_reset_hold s : state :=
  let s := if transfer_active s then s <| bus := i2c_end_transfer (bus s) |> else s in
  let s := s <| config := 0 |> <| int_sts := 0x3F00 |> <| sub_addr := 0 |> <| prd_start := 0x0f0f0f0f |>
             <| prd_stop := 0x0f0f0f0f |> <| prd_data := 0x0f0f0f0f |> <| fifo_config0 := 0 |> in
  let s := rx_fifo_clear (tx_fifo_clear s) in
  bl808_i2c_update_irq
    (s <| transfer_active := false |> <| xfer_remaining := 0 |> <| xfer_is_read := false |>).

(** The common body of the two clock hooks. *)
Definition clock_changed s : state :=
  let s := bl808_i2c_recompute_clock s in
  let s := if negb (bl808_i2c_clock_active s) && transfer_active s
           then bl808_i2c_abort_transfer s 0 else s in
  bl808_i2c_update_irq s.

Definition bl808_i2c_set_clock_enabled s (enabled : bool) : state :=
  clock_changed (s <| gate_enabled := enabled |>).

Definition bl808_i2c_set_module_clock_enabled s (enabled : bool) : state :=
  clock_changed (s <| module_clock_enabled := enabled |>).

Definition bl808_i2c_set_reset_asserted s (asserted : bool) : state :=
  let s := s <| reset_asserted := asserted |> in
  if asserted then bl808_i2c_reset_hold s else bl808_i2c_update_irq s.

Definition bl808_i2c_reset s : state := bl808_i2c_reset_hold (bl808_i2c_recompute_clock s).

Definition bl808_i2c_init s : state :=
  bl808_i2c_recompute_clock
    (s <| attach_default_eeprom := true |> <| gate_enabled := true |> <| module_clock_enabled := true |>
       <| reset_asserted := false |>).

Definition bl808_i2c_realize s : state :=
  if attach_default_eeprom s
  then s <| bus := at24c_eeprom_init_rom (bus s) BL808_I2C_EEPROM_ADDR
                     (replicate (Z.to_nat BL808_I2C_EEPROM_SIZE) 0xFF) |>
  else s.

End i2c.
End BL808I2C.
