(* ===== verification/I2cSpec.v ===== *)
(** * Transactions on the I2C bus

    [traced]: a bus that records the calls made to it.  [i2c_bus_protocol]: on
    every run of the controller the calls form complete transactions, each ended
    before the next one starts, and a transaction is open exactly while the
    controller is active. *)

From S2P Require Import Prelude Qemu Fifo I2c.
From stdpp Require Import prelude list.
From Stdlib Require Import ZArith Lia.
Import BL808I2C.
Local Open Scope Z_scope.

(** ** Events *)

Inductive i2c_event :=
  | EStartSend (address : Z) (acked : bool)
  | EStartRecv (address : Z) (acked : bool)
  | ESend (byte : Z) (acked : bool)
  | ERecv (byte : Z)
  | EEnd.

(** Between transactions, sending, receiving, or refused by the slave. *)
Inductive phase := Idle | Sending | Receiving | Refused.

Definition event_step (p : option phase) (e : i2c_event) : option phase :=
  match p, e with
  | Some Idle, EStartSend _ ok => Some (if ok then Sending else Refused)
  | Some Idle, EStartRecv _ ok => Some (if ok then Receiving else Refused)
  | Some Sending, ESend _ ok => Some (if ok then Sending else Refused)
  | Some Receiving, ERecv _ => Some Receiving
  | Some (Sending | Receiving | Refused), EEnd => Some Idle
  | _, _ => None
  end.

(** The phase after a sequence of calls; none if a call came out of turn. *)
Definition phase_of (tr : list i2c_event) : option phase := foldl event_step (Some Idle) tr.

Lemma phase_snoc tr e : phase_of (tr ++ [e]) = event_step (phase_of tr) e.
Proof. unfold phase_of. by rewrite foldl_app. Qed.

#[export] Instance traced {B : Type} `{!I2CBus B} : I2CBus (B * list i2c_event) := {
  i2c_start_send := λ '(b, tr) a,
    let '(r, b) := i2c_start_send b a in (r, (b, tr ++ [EStartSend a (r =? 0)]));
  i2c_start_recv := λ '(b, tr) a,
    let '(r, b) := i2c_start_recv b a in (r, (b, tr ++ [EStartRecv a (r =? 0)]));
  i2c_send := λ '(b, tr) v,
    let '(r, b) := i2c_send b v in (r, (b, tr ++ [ESend v (negb (r <? 0))]));
  i2c_recv := λ '(b, tr), let '(v, b) := i2c_recv b in (v, (b, tr ++ [ERecv v]));
  i2c_end_transfer := λ '(b, tr), (i2c_end_transfer b, tr ++ [EEnd]);
  i2c_bus_busy := λ '(b, _), i2c_bus_busy b;
  at24c_eeprom_init_rom := λ '(b, tr) a rom, (at24c_eeprom_init_rom b a rom, tr);
}.

(** ** FIFOs *)

Section fifos.
Context {B : Type} `{!I2CBus B}.
Notation state := (BL808I2CState B).
Implicit Types s : state.

(** A FIFO of two bytes that keeps a head and a count. *)
Definition fifo (buf : list Z) (head count : Z) (q : list Z) : Prop :=
  ring BL808_I2C_FIFO_DEPTH buf head ((head + count) mod BL808_I2C_FIFO_DEPTH) count q.

Record fifos s (q r : list Z) : Prop := {
  ff_tx : fifo (tx_fifo s) (tx_head s) (tx_count s) q;
  ff_rx : fifo (rx_fifo s) (rx_head s) (rx_count s) r;
}.

Lemma fifo_count buf h n q : fifo buf h n q → n = Z.of_nat (length q) ∧ 0 ≤ n ≤ 2.
Proof. intros H. by destruct (ring_length _ _ _ _ _ _ H) as (? & _ & ?). Qed.

Lemma fifo_push buf h n q v : fifo buf h n q → n < 2 →
  fifo (<[Z.to_nat ((h + n) mod BL808_I2C_FIFO_DEPTH) := v]> buf) h (n + 1) (q ++ [v]).
Proof.
  intros H Hn. unfold fifo. pose proof (ring_push _ _ _ _ _ _ v H Hn) as Hp.
  by rewrite Zplus_mod_idemp_l, <- Z.add_assoc in Hp.
Qed.

Lemma fifo_pop buf h n v q : fifo buf h n (v :: q) →
  buf !!! Z.to_nat h = v ∧ fifo buf ((h + 1) mod BL808_I2C_FIFO_DEPTH) (n - 1) q.
Proof.
  intros H. destruct (ring_pop _ _ _ _ _ _ _ H) as [Hv Hp]. split; [exact Hv|].
  unfold fifo. rewrite Zplus_mod_idemp_l. by replace (h + 1 + (n - 1)) with (h + n) by lia.
Qed.

Lemma fifo_clear buf h n q : fifo buf h n q → fifo buf 0 0 [].
Proof. intros H. unfold fifo. rewrite Z.mod_0_l by done. by apply ring_empty; [apply H|]. Qed.

Lemma fifos_counts s q r : fifos s q r →
  tx_count s = Z.of_nat (length q) ∧ rx_count s = Z.of_nat (length r) ∧ 0 ≤ tx_count s ≤ 2 ∧ 0 ≤ rx_count s ≤ 2.
Proof. intros [H1 H2]. destruct (fifo_count _ _ _ _ H1), (fifo_count _ _ _ _ H2). done. Qed.

(** The level that the registers call for. *)
Definition line s : bool :=
  bl808_i2c_clock_active s &&
  negb (clr (Z.land (int_sts s) 0x3F) (Z.land (Z.shiftr (int_sts s) INT_MASK_SHIFT) 0x3F) =? 0).

(** What the interrupts change. *)
Record but_ints s s' : Prop := {
  bi_bus : bus s' = bus s;
  bi_config : config s' = config s;
  bi_sub : sub_addr s' = sub_addr s;
  bi_fifos q r : fifos s q r → fifos s' q r;
  bi_active : transfer_active s' = transfer_active s;
  bi_left : xfer_remaining s' = xfer_remaining s;
  bi_read : xfer_is_read s' = xfer_is_read s;
  bi_clock : gate_enabled s' = gate_enabled s ∧ module_clock_enabled s' = module_clock_enabled s ∧
             clock_enabled s' = clock_enabled s ∧ reset_asserted s' = reset_asserted s;
}.

Lemma irq_but_ints s : but_ints s (bl808_i2c_update_irq s).
Proof. split; try done. intros q r []. by split. Qed.

Lemma set_int_but s bits : but_ints s (bl808_i2c_set_int s bits).
Proof. split; try done. intros q r []. by split. Qed.

Lemma set_int_line s bits : irq (bl808_i2c_set_int s bits) = line (bl808_i2c_set_int s bits).
Proof. done. Qed.

(** ** Data on the bus *)

(** [n] bytes received, and bytes sent until one is refused. *)
Fixpoint recv_n (n : nat) (b : B) : list Z * B :=
  match n with
  | O => ([], b)
  | S n => let '(v, b) := i2c_recv b in let '(vs, b) := recv_n n b in (u8 v :: vs, b)
  end.

Lemma recv_n_length n b : length (recv_n n b).1 = n.
Proof.
  revert b. induction n as [|n IH]; intros b; [done|]. cbn [recv_n]. destruct (i2c_recv b) as [v b1].
  specialize (IH b1). destruct (recv_n n b1). cbn in *. by rewrite IH.
Qed.

Fixpoint send_list (vs : list Z) (b : B) : bool * B :=
  match vs with
  | [] => (true, b)
  | v :: vs => let '(r, b) := i2c_send b v in if r <? 0 then (false, b) else send_list vs b
  end.

(** A start condition followed by the bytes of the sub-address. *)
Definition address_bus (a : Z) (sub : list Z) (b : B) : bool * B :=
  let '(r, b) := i2c_start_send b a in if negb (r =? 0) then (false, b) else send_list sub b.

Fixpoint sub_list (sub : Z) (n : nat) : list Z :=
  match n with O => [] | S n => Z.land (Z.shiftr sub (Z.of_nat n * 8)) 0xFF :: sub_list sub n end.

Definition sub_bytes s : list Z :=
  if tst (config s) CFG_SUB_ADDR_EN then sub_list (sub_addr s) (Z.to_nat (bl808_i2c_subaddr_len s)) else [].

Definition with_bus s (b : B) : state := s <| bus := b |>.

Lemma subaddr_loop_spec s n :
  send_subaddr_loop s n =
  let '(ok, b) := send_list (sub_list (sub_addr s) n) (bus s) in (if ok : bool then 0 else -1, with_bus s b).
Proof.
  revert s. induction n as [|n IH]; intros s; [by destruct s|]. cbn [send_subaddr_loop sub_list send_list].
  destruct (i2c_send _ _) as [r b]. destruct (r <? 0); [done|]. rewrite IH. cbn [sub_addr set_field bus].
  by destruct (send_list _ b).
Qed.

Lemma address_slave_spec s :
  address_slave s = let '(ok, b) := address_bus (bl808_i2c_slave_addr s) (sub_bytes s) (bus s) in (ok, with_bus s b).
Proof.
  unfold address_slave, address_bus, bl808_i2c_start_bus_send, sub_bytes.
  destruct (i2c_start_send _ _) as [r b]. destruct (negb (r =? 0)); [done|].
  unfold bl808_i2c_send_subaddr. cbn [set_field config]. destruct (tst (config s) CFG_SUB_ADDR_EN); cbn [negb]; [|done].
  rewrite subaddr_loop_spec. cbn [set_field sub_addr bus].
  change (bl808_i2c_subaddr_len (s <| bus := b |>)) with (bl808_i2c_subaddr_len s).
  destruct (send_list _ b) as [[] b']; done.
Qed.

(** What data transfers leave alone. *)
Record still s s' : Prop := {
  sl_config : config s' = config s;
  sl_sub : sub_addr s' = sub_addr s;
  sl_active : transfer_active s' = transfer_active s;
  sl_read : xfer_is_read s' = xfer_is_read s;
  sl_ints : int_sts s' = int_sts s ∧ irq s' = irq s;
  sl_clock : gate_enabled s' = gate_enabled s ∧ module_clock_enabled s' = module_clock_enabled s ∧
             clock_enabled s' = clock_enabled s ∧ reset_asserted s' = reset_asserted s;
}.

#[export] Instance still_preorder : PreOrder still.
Proof. split; [by split|]. intros s1 s2 s3 [] []. split; intuition congruence. Qed.

Lemma still_refl s : still s s.
Proof. by split. Qed.
#[local] Hint Resolve still_refl : core.

(** One byte received. *)
Lemma fill_one s q r v b :
  fifos s q r → rx_count s < 2 →
  let s' := (rx_fifo_push (with_bus s b) v) <| xfer_remaining := xfer_remaining s - 1 |> in
  fifos s' q (r ++ [v]) ∧ bus s' = b ∧ xfer_remaining s' = xfer_remaining s - 1 ∧ still s s'.
Proof.
  intros [Ht Hr] Hc. unfold rx_fifo_push, BL808_I2C_FIFO_DEPTH. cbn [with_bus set_field rx_count].
  rewrite (proj2 (Z.leb_gt _ _)) by (cbn; lia). split_and!; [|done..]. split; [done|]. by apply fifo_push.
Qed.

Lemma fill_loop_spec n s q r :
  fifos s q r → 0 ≤ xfer_remaining s → (2 - length r ≤ n)%nat →
  let m := Nat.min (2 - length r) (Z.to_nat (xfer_remaining s)) in
  let '(vs, b) := recv_n m (bus s) in let s' := fill_rx_loop n s in
  fifos s' q (r ++ vs) ∧ bus s' = b ∧ xfer_remaining s' = xfer_remaining s - Z.of_nat m ∧ still s s'.
Proof.
  revert s r. induction n as [|n IH]; intros s r Hf Hl Hn; cbv zeta.
  { replace (2 - length r)%nat with 0%nat by lia. cbn [Nat.min recv_n fill_rx_loop]. rewrite app_nil_r, Z.sub_0_r. by split_and!. }
  destruct (fifos_counts _ _ _ Hf) as (_ & Hc & _ & Hb). cbn [fill_rx_loop]. unfold BL808_I2C_FIFO_DEPTH.
  destruct (Z.ltb_spec (rx_count s) 2) as [H1|H1]; cbn [andb].
  2: { replace (2 - length r)%nat with 0%nat by lia. cbn [Nat.min recv_n]. rewrite app_nil_r, Z.sub_0_r. by split_and!. }
  destruct (Z.ltb_spec 0 (xfer_remaining s)) as [H2|H2].
  2: { replace (Z.to_nat (xfer_remaining s)) with 0%nat by lia. rewrite Nat.min_0_r. cbn [recv_n].
       rewrite app_nil_r, Z.sub_0_r. by split_and!. }
  destruct (Nat.min (2 - length r) (Z.to_nat (xfer_remaining s))) as [|m] eqn:Em; [lia|]. cbn [recv_n].
  destruct (i2c_recv (bus s)) as [v b].
  destruct (fill_one s q r (u8 v) b Hf H1) as (F1 & F2 & F3 & F4).
  assert (xfer_remaining (rx_fifo_push (with_bus s b) (u8 v)) = xfer_remaining s) as Hx
    by (unfold rx_fifo_push; by destruct (_ <=? _)).
  change (s <| bus := b |>) with (with_bus s b). rewrite Hx.
  revert F1 F2 F3 F4. generalize ((rx_fifo_push (with_bus s b) (u8 v)) <| xfer_remaining := xfer_remaining s - 1 |>).
  intros s1 F1 F2 F3 F4. specialize (IH s1 (r ++ [u8 v]) F1 ltac:(lia)). rewrite length_app in IH. cbn [length] in IH.
  specialize (IH ltac:(lia)). cbv zeta in IH.
  replace (Nat.min (2 - (length r + 1)) (Z.to_nat (xfer_remaining s1))) with m in IH by lia.
  rewrite F2 in IH. destruct (recv_n m b) as [vs b']. destruct IH as (I1 & I2 & I3 & I4).
  rewrite <- (assoc_L (++)) in I1. split_and!; [exact I1|done|lia|by etrans].
Qed.

Lemma fill_rx_spec s q r :
  fifos s q r → 0 ≤ xfer_remaining s →
  let m := Nat.min (2 - length r) (Z.to_nat (xfer_remaining s)) in
  let '(vs, b) := recv_n m (bus s) in let s' := bl808_i2c_fill_rx s in
  fifos s' q (r ++ vs) ∧ bus s' = b ∧ xfer_remaining s' = xfer_remaining s - Z.of_nat m ∧ still s s'.
Proof.
  intros Hf Hl. destruct (fifos_counts _ _ _ Hf) as (_ & Hc & _ & Hb).
  apply (fill_loop_spec _ s q r Hf Hl). unfold BL808_I2C_FIFO_DEPTH. lia.
Qed.

(** One byte out of the transmit FIFO. *)
Lemma pop_tx_spec s v q r : fifos s (v :: q) r →
  let '(x, s') := tx_fifo_pop s in
  x = v ∧ fifos s' q r ∧ bus s' = bus s ∧ xfer_remaining s' = xfer_remaining s ∧ still s s'.
Proof.
  intros Hf. destruct (fifos_counts _ _ _ Hf) as (Hc & _). cbn [length] in Hc. destruct Hf as [Ht Hr].
  unfold tx_fifo_pop. rewrite (proj2 (Z.eqb_neq _ _)) by lia. destruct (fifo_pop _ _ _ _ _ Ht) as [Hv Hp].
  by split_and!.
Qed.

(** What the transmit FIFO sends of [q]: all that the transfer still takes; when a
    byte is refused some of them are left. *)
Lemma drain_loop_spec n s q r :
  fifos s q r → 0 ≤ xfer_remaining s → (length q ≤ n)%nat →
  let m := Nat.min (length q) (Z.to_nat (xfer_remaining s)) in
  let '(ok, b) := send_list (take m q) (bus s) in let '(x, s') := drain_tx_loop n s in
  bus s' = b ∧ still s s' ∧ 0 ≤ xfer_remaining s' ∧ x = (if ok : bool then 0 else -1) ∧
  if ok then fifos s' (drop m q) r ∧ xfer_remaining s' = xfer_remaining s - Z.of_nat m
  else ∃ q', fifos s' q' r.
Proof.
  revert s q. induction n as [|n IH]; intros s q Hf Hl Hn; cbv zeta.
  { destruct q; [|simpl in Hn; lia]. cbn. split_and!; try done; lia. }
  destruct (fifos_counts _ _ _ Hf) as (Hc & _). cbn [drain_tx_loop].
  destruct q as [|v q]; cbn [length] in *.
  { rewrite (proj2 (Z.ltb_ge _ _)) by lia. cbn. split_and!; try done; lia. }
  rewrite (proj2 (Z.ltb_lt 0 (tx_count s))) by lia. cbn [andb].
  destruct (Z.ltb_spec 0 (xfer_remaining s)) as [H2|H2].
  2: { replace (Z.to_nat (xfer_remaining s)) with 0%nat by lia. rewrite Nat.min_0_r. cbn. split_and!; try done; lia. }
  replace (Nat.min (S (length q)) (Z.to_nat (xfer_remaining s))) with
    (S (Nat.min (length q) (Z.to_nat (xfer_remaining s - 1)))) by lia. cbn [take send_list].
  pose proof (pop_tx_spec _ _ _ _ Hf) as Hp. destruct (tx_fifo_pop s) as [x s1].
  destruct Hp as (-> & F1 & F2 & F3 & F4). rewrite F2. destruct (i2c_send (bus s) v) as [rc b].
  destruct (rc <? 0).
  { split_and!; [done|by etrans; [exact F4|split]|cbn; lia|done|]. exists q. destruct F1. by split. }
  set (s2 := _ <| xfer_remaining := _ |>).
  assert (fifos s2 q r) as G1 by (destruct F1; by split).
  assert (bus s2 = b ∧ xfer_remaining s2 = xfer_remaining s - 1 ∧ still s s2) as (G2 & G3 & G4).
  { split_and!; [done|cbn; lia|]. etrans; [exact F4|by split]. }
  clearbody s2. specialize (IH s2 q G1 ltac:(lia) ltac:(lia)). cbv zeta in IH. rewrite G2, G3 in IH.
  destruct (send_list _ b) as [ok b']. destruct (drain_tx_loop n s2) as [x s3].
  destruct IH as (I1 & I2 & I3 & I4 & I5). split_and!; [done|by etrans|done|done|].
  destruct ok; [|done]. destruct I5 as [I5 I6]. split; [exact I5|lia].
Qed.

Lemma drain_tx_spec s q r :
  fifos s q r → 0 ≤ xfer_remaining s →
  let m := Nat.min (length q) (Z.to_nat (xfer_remaining s)) in
  let '(ok, b) := send_list (take m q) (bus s) in let '(x, s') := bl808_i2c_drain_tx s in
  bus s' = b ∧ still s s' ∧ 0 ≤ xfer_remaining s' ∧ x = (if ok : bool then 0 else -1) ∧
  if ok then fifos s' (drop m q) r ∧ xfer_remaining s' = xfer_remaining s - Z.of_nat m
  else ∃ q', fifos s' q' r.
Proof.
  intros Hf Hl. destruct (fifos_counts _ _ _ Hf) as (Hc & _). apply (drain_loop_spec _ s q r Hf Hl). lia.
Qed.

End fifos.

Section protocol.
Context {B : Type} `{!I2CBus B}.
Notation state := (BL808I2CState (B * list i2c_event)).
Implicit Types s : state.

Definition phase_at s : option phase := phase_of (bus s).2.

(** ** The invariant *)

Definition expected s : phase :=
  if transfer_active s then (if xfer_is_read s then Receiving else Sending) else Idle.

(** What holds of FIFOs and clock. *)
Record frame s : Prop := {
  fr_fifos : ∃ q r, fifos s q r;
  fr_gates : clock_enabled s = gate_enabled s && module_clock_enabled s;
}.

Record inv s : Prop := {
  in_frame : frame s;
  in_phase : phase_at s = Some (expected s);
  in_active : transfer_active s = tst (config s) CFG_MASTER_EN;
  in_clock : transfer_active s = true → bl808_i2c_clock_active s = true;
  in_left : transfer_active s = true → 0 < xfer_remaining s;
}.

Definition good s : Prop := inv s ∧ irq s = line s.

Lemma frame_but s s' : but_ints s s' → frame s → frame s'.
Proof.
  intros [_ _ _ Hf _ _ _ (H1 & H2 & H3 & _)] [(q & r & Hq) Hg]. split; [|congruence]. exists q, r. by apply Hf.
Qed.

Lemma inv_but s s' : but_ints s s' → inv s → inv s'.
Proof.
  intros Hb [Hf Hp Ha Hc Hl]. pose proof (frame_but _ _ Hb Hf) as Hf'.
  destruct Hb as [B1 B2 _ _ B4 B5 B6 (_ & _ & B7 & B8)].
  split; [done|..]; unfold phase_at, expected, bl808_i2c_clock_active in *.
  - by rewrite B1, B4, B6.
  - by rewrite B2, B4.
  - by rewrite B4, B7, B8.
  - by rewrite B4, B5.
Qed.

Lemma set_int_good s bits : inv s → good (bl808_i2c_set_int s bits).
Proof. intros H. split; [|apply set_int_line]. eapply inv_but; [apply set_int_but|done]. Qed.

(** ** The end of a transfer *)

(** A transfer may be under way, and refused. *)
Record open_or_idle s : Prop := {
  oi_frame : frame s;
  oi_phase : if transfer_active s then ∃ p, phase_at s = Some p ∧ p ≠ Idle else phase_at s = Some Idle;
}.

Lemma inv_open s : inv s → open_or_idle s.
Proof.
  intros [Hf Hp _ _ _]. split; [done|]. unfold expected in Hp. destruct (transfer_active s); [|done].
  eexists. split; [exact Hp|]. by destruct (xfer_is_read s).
Qed.

Lemma end_phase (b : B * list i2c_event) p : phase_of b.2 = Some p → p ≠ Idle →
  phase_of (i2c_end_transfer b).2 = Some Idle.
Proof.
  destruct b as [b tr]. intros Hp Hn. change (phase_of (tr ++ [EEnd]) = Some Idle). cbn [snd] in Hp.
  rewrite phase_snoc, Hp. by destruct p.
Qed.

Lemma clr_master c : tst (clr c CFG_MASTER_EN) CFG_MASTER_EN = false.
Proof. unfold CFG_MASTER_EN. by rewrite tst_BIT, clr_spec, BIT_spec, andb_false_r by lia. Qed.

Lemma finish_inv s : open_or_idle s →
  inv (bl808_i2c_finish_transfer s) ∧ irq (bl808_i2c_finish_transfer s) = irq s ∧
  line (bl808_i2c_finish_transfer s) = line s.
Proof.
  intros [[(q & r & Hq) Hg] Hp]. unfold bl808_i2c_finish_transfer.
  destruct (transfer_active s) eqn:Ea; (split; [|done]); split; cbn; try done; try (by rewrite clr_master).
  - split; [|done]. exists q, r. destruct Hq. by split.
  - destruct Hp as (p & Hp & Hn). unfold phase_at, expected. cbn. by eapply end_phase.
  - split; [|done]. exists q, r. destruct Hq. by split.
Qed.

Lemma abort_good s bits : open_or_idle s → irq s = line s ∨ bits ≠ 0 → good (bl808_i2c_abort_transfer s bits).
Proof.
  intros Ho Hb. destruct (finish_inv _ Ho) as (Hi & H1 & H2). unfold bl808_i2c_abort_transfer.
  destruct (Z.eqb_spec bits 0) as [|Hz]; cbn [negb]; [|by apply set_int_good].
  split; [done|]. destruct Hb; [congruence|done].
Qed.

Lemma nak_good s : open_or_idle s → good (nak s).
Proof. intros H. apply abort_good; [done|]. right. by vm_compute. Qed.

(** After data has moved the transfer is complete or waits for the other side. *)
Lemma check_good s :
  frame s → phase_at s = Some (expected s) → transfer_active s = true → tst (config s) CFG_MASTER_EN = true →
  bl808_i2c_clock_active s = true → 0 ≤ xfer_remaining s →
  (xfer_remaining s = 0 ∨ (if xfer_is_read s then 0 < rx_count s else tx_count s < 2) ∨ irq s = line s) →
  good (bl808_i2c_check_complete s).
Proof.
  intros Hf Hp Ha He Hc Hl Hd. unfold bl808_i2c_check_complete.
  destruct (Z.eqb_spec (xfer_remaining s) 0) as [Hz|Hz].
  { apply set_int_good. eapply finish_inv. split; [done|]. rewrite Ha. unfold expected in Hp. rewrite Ha in Hp.
    eexists. split; [exact Hp|]. by destruct (xfer_is_read s). }
  assert (inv s) as Hi by (split; try done; [congruence|lia]).
  unfold BL808_I2C_FIFO_DEPTH. destruct (xfer_is_read s).
  - destruct (Z.ltb_spec 0 (rx_count s)); [by apply set_int_good|]. split; [done|]. destruct Hd as [|[]]; [lia..|done].
  - destruct (Z.ltb_spec (tx_count s) 2); [by apply set_int_good|]. split; [done|]. destruct Hd as [|[]]; [lia..|done].
Qed.

(** ** Phases *)

Notation tbus := (B * list i2c_event)%type.

Lemma recv_n_phase n (b : tbus) : phase_of b.2 = Some Receiving → phase_of (recv_n n b).2.2 = Some Receiving.
Proof.
  revert b. induction n as [|n IH]; intros [b tr] Hp; [done|]. cbn [recv_n i2c_recv traced].
  destruct (i2c_recv b) as [v b1]. specialize (IH (b1, tr ++ [ERecv v])). cbn [snd] in IH, Hp.
  rewrite phase_snoc, Hp in IH. specialize (IH eq_refl). by destruct (recv_n n _).
Qed.

Lemma send_list_phase vs (b : tbus) : phase_of b.2 = Some Sending →
  phase_of (send_list vs b).2.2 = Some (if (send_list vs b).1 then Sending else Refused).
Proof.
  revert b. induction vs as [|v vs IH]; intros [b tr] Hp; [done|]. cbn [send_list i2c_send traced].
  destruct (i2c_send b v) as [r b1]. cbn [snd] in Hp. destruct (r <? 0) eqn:E; cbn [negb].
  - cbn [fst snd]. by rewrite phase_snoc, Hp.
  - apply IH. cbn [snd]. by rewrite phase_snoc, Hp.
Qed.

Lemma address_phase a sub (b : tbus) : phase_of b.2 = Some Idle →
  phase_of (address_bus a sub b).2.2 = Some (if (address_bus a sub b).1 then Sending else Refused).
Proof.
  destruct b as [b tr]. intros Hp. unfold address_bus. cbn [i2c_start_send traced].
  destruct (i2c_start_send b a) as [r b1]. cbn [snd] in Hp. destruct (r =? 0) eqn:E; cbn [negb].
  - apply send_list_phase. cbn [snd]. by rewrite phase_snoc, Hp.
  - cbn [fst snd]. by rewrite phase_snoc, Hp.
Qed.

Lemma restart_phase a (b : tbus) : phase_of b.2 = Some Idle →
  phase_of (i2c_start_recv b a).2.2 = Some (if (i2c_start_recv b a).1 =? 0 then Receiving else Refused).
Proof.
  destruct b as [b tr]. intros Hp. cbn [i2c_start_recv traced]. destruct (i2c_start_recv b a) as [r b1].
  cbn [fst snd] in *. rewrite phase_snoc, Hp. done.
Qed.

(** ** Starting *)

(** A transfer has just been accepted. *)
Record started s : Prop := {
  st_frame : frame s;
  st_active : transfer_active s = true;
  st_enabled : tst (config s) CFG_MASTER_EN = true;
  st_clock : bl808_i2c_clock_active s = true;
  st_left : 0 < xfer_remaining s;
}.

Lemma started_bus s b : started s → started (with_bus s b).
Proof. intros [[(q & r & []) Hg] ? ? ? ?]. split; try done. split; [|done]. exists q, r. by split. Qed.

Lemma started_open s p : started s → phase_at s = Some p → p ≠ Idle → open_or_idle s.
Proof. intros [Hf Ha _ _ _] Hp Hn. split; [done|]. rewrite Ha. by exists p. Qed.

Lemma still_frame s s' : still s s' → (∃ q r, fifos s' q r) → frame s → frame s'.
Proof. intros [_ _ _ _ _ (H1 & H2 & H3 & _)] Hf [_ Hg]. split; [done|congruence]. Qed.

Lemma still_clock s s' : still s s' → bl808_i2c_clock_active s' = bl808_i2c_clock_active s.
Proof. intros [_ _ _ _ _ (_ & _ & H3 & H4)]. unfold bl808_i2c_clock_active. congruence. Qed.

(** Filling the receive FIFO of a transfer that reads. *)
Lemma refill_good s : frame s → transfer_active s = true → xfer_is_read s = true →
  tst (config s) CFG_MASTER_EN = true → bl808_i2c_clock_active s = true → 0 < xfer_remaining s →
  phase_at s = Some Receiving → good (bl808_i2c_check_complete (bl808_i2c_fill_rx s)).
Proof.
  intros Hf Ha Hr He Hc Hl Hp. destruct (fr_fifos _ Hf) as (q & r & Hq).
  pose proof (fill_rx_spec s q r Hq ltac:(lia)) as Hs. pose proof (recv_n_phase
    (Nat.min (2 - length r) (Z.to_nat (xfer_remaining s))) (bus s) Hp) as Hph. cbv zeta in Hs.
  destruct (recv_n _ (bus s)) as [vs b] eqn:Ev. destruct Hs as (S1 & S2 & S3 & S4).
  destruct (fifos_counts _ _ _ S1) as (_ & Hn & _). destruct (fifos_counts _ _ _ Hq) as (_ & Hn' & _ & Hb).
  assert (length vs = Nat.min (2 - length r) (Z.to_nat (xfer_remaining s))) as Hlen.
  { rewrite <- (recv_n_length (Nat.min (2 - length r) (Z.to_nat (xfer_remaining s))) (bus s)). by rewrite Ev. }
  apply check_good.
  - eapply still_frame; [exact S4|by do 2 eexists|done].
  - unfold phase_at, expected. rewrite S2, (sl_active _ _ S4), (sl_read _ _ S4), Ha, Hr. exact Hph.
  - by rewrite (sl_active _ _ S4).
  - by rewrite (sl_config _ _ S4).
  - by rewrite (still_clock _ _ S4).
  - lia.
  - right. left. rewrite (sl_read _ _ S4), Hr, Hn, length_app. lia.
Qed.

(** Draining the transmit FIFO of a transfer that writes. *)
Lemma redrain_good s : frame s → transfer_active s = true → xfer_is_read s = false →
  tst (config s) CFG_MASTER_EN = true → bl808_i2c_clock_active s = true → 0 < xfer_remaining s →
  phase_at s = Some Sending →
  good (let '(r, s) := bl808_i2c_drain_tx s in if r <? 0 then nak s else bl808_i2c_check_complete s).
Proof.
  intros Hf Ha Hr He Hc Hl Hp. destruct (fr_fifos _ Hf) as (q & r & Hq).
  pose proof (drain_tx_spec s q r Hq ltac:(lia)) as Hs. cbv zeta in Hs.
  pose proof (send_list_phase (take (Nat.min (length q) (Z.to_nat (xfer_remaining s))) q) (bus s) Hp) as Hph.
  destruct (send_list _ (bus s)) as [ok b]. destruct (bl808_i2c_drain_tx s) as [x s1].
  destruct Hs as (S1 & S2 & S3 & -> & S4). cbn [fst snd] in Hph.
  assert (frame s1) as Hf1.
  { eapply still_frame; [exact S2| |done]. destruct ok; [destruct S4; by do 2 eexists|destruct S4; by do 2 eexists]. }
  destruct ok; cbn [Z.ltb Z.compare].
  - destruct S4 as [F1 F2]. destruct (fifos_counts _ _ _ F1) as (Hn & _). apply check_good.
    + done.
    + unfold phase_at, expected. by rewrite S1, (sl_active _ _ S2), (sl_read _ _ S2), Ha, Hr.
    + by rewrite (sl_active _ _ S2).
    + by rewrite (sl_config _ _ S2).
    + by rewrite (still_clock _ _ S2).
    + done.
    + rewrite (sl_read _ _ S2), Hr, Hn, length_drop. destruct (decide (Z.of_nat (length q) < xfer_remaining s)); [right; left|left]; lia.
  - apply nak_good. split; [done|]. rewrite (sl_active _ _ S2), Ha. exists Refused. split; [|done].
    unfold phase_at. by rewrite S1.
Qed.

Lemma start_transfer_good s : frame s → transfer_active s = false → phase_at s = Some Idle →
  tst (config s) CFG_MASTER_EN = true → irq s = line s → good (bl808_i2c_start_transfer s).
Proof.
  intros Hf Ha Hp He Hi. assert (open_or_idle s) as Ho by (split; [done|by rewrite Ha]).
  unfold bl808_i2c_start_transfer. destruct (bl808_i2c_clock_active s) eqn:Ec; cbn [negb].
  2: { apply abort_good; [done|by left]. }
  destruct (tst (config s) CFG_10B_ADDR_EN); [by apply nak_good|].
  set (len := Z.shiftr _ _). assert (0 ≤ len) as Hlen.
  { apply Z.shiftr_nonneg, Z.land_nonneg. right. by vm_compute. }
  set (s1 := s <| int_sts := _ |> <| xfer_is_read := _ |> <| xfer_remaining := _ |> <| transfer_active := _ |>).
  assert (started s1) as Hs.
  { split; try done; [|cbn; lia]. destruct Hf as [(q & r & []) Hg]. split; [|done]. exists q, r. by split. }
  assert (phase_at s1 = Some Idle ∧ xfer_is_read s1 = tst (config s) CFG_PKT_DIR) as [Hp1 Hr1] by done.
  clearbody s1. unfold start_read, start_write. rewrite address_slave_spec.
  pose proof (address_phase (bl808_i2c_slave_addr s1) (sub_bytes s1) (bus s1) Hp1) as Hph.
  destruct (address_bus _ _ _) as [ok b]. cbn [fst snd] in Hph.
  pose proof (started_bus s1 b Hs) as Hs2. assert (xfer_is_read (with_bus s1 b) = xfer_is_read s1) as Hr2 by done.
  assert (phase_at (with_bus s1 b) = Some (if ok then Sending else Refused)) as Hp2 by exact Hph.
  revert Hs2 Hp2 Hr2. generalize (with_bus s1 b). intros s2 Hs2 Hp2 Hr2.
  destruct ok; cbn [negb].
  2: { destruct (tst (config s) CFG_PKT_DIR); by apply nak_good, (started_open _ Refused). }
  destruct (tst (config s) CFG_PKT_DIR).
  - set (s3 := s2 <| bus := _ |>). assert (started s3) as Hs3 by exact (started_bus s2 _ Hs2).
    assert (phase_at s3 = Some Idle) as Hp3 by (by apply (end_phase _ Sending)).
    assert (xfer_is_read s3 = true) as Hr3 by (change (xfer_is_read s2 = true); congruence). clearbody s3.
    pose proof (restart_phase (bl808_i2c_slave_addr s3) (bus s3) Hp3) as Hp4.
    destruct (i2c_start_recv _ _) as [rc b4]. cbn [fst snd] in Hp4.
    pose proof (started_bus s3 b4 Hs3) as Hs4. change (s3 <| bus := b4 |>) with (with_bus s3 b4).
    assert (phase_at (with_bus s3 b4) = Some (if rc =? 0 then Receiving else Refused)) as Hp5 by exact Hp4.
    assert (xfer_is_read (with_bus s3 b4) = true) as Hr4 by exact Hr3.
    revert Hs4 Hp5 Hr4. generalize (with_bus s3 b4). intros s4 Hs4 Hp5 Hr4.
    destruct (rc =? 0); cbn [negb]; [|by apply nak_good, (started_open _ Refused)].
    destruct Hs4. by apply refill_good.
  - destruct Hs2. apply redrain_good; try done. congruence.
Qed.

(** ** Accesses *)

Lemma pop_rx_good s : good s →
  let s' := (rx_fifo_pop s).2 in
  good s' ∧ transfer_active s' = transfer_active s ∧ xfer_is_read s' = xfer_is_read s.
Proof.
  intros [Hi Hl]. unfold rx_fifo_pop. destruct (Z.eqb_spec (rx_count s) 0) as [Hz|Hz]; cbn [snd].
  { split_and!; [by apply set_int_good|done..]. }
  split_and!; [|done..]. split; [|done]. destruct Hi as [[(q & r & Hq) Hg] Hp Ha Hc Hr]. split; try done.
  split; [|done]. destruct (fifos_counts _ _ _ Hq) as (_ & Hn & _). destruct r as [|v r]; [done|].
  exists q, r. destruct Hq as [Ht Hx]. split; [done|]. by apply (fifo_pop _ _ _ v).
Qed.

Lemma push_tx_good s v : good s →
  let s' := tx_fifo_push s v in
  good s' ∧ transfer_active s' = transfer_active s ∧ xfer_is_read s' = xfer_is_read s.
Proof.
  intros [Hi Hl]. unfold tx_fifo_push. destruct (Z.leb_spec BL808_I2C_FIFO_DEPTH (tx_count s)) as [Hz|Hz].
  { split_and!; [by apply set_int_good|done..]. }
  split_and!; [|done..]. split; [|done]. destruct Hi as [[(q & r & Hq) Hg] Hp Ha Hc Hr]. split; try done.
  split; [|done]. exists (q ++ [v]), r. destruct Hq as [Ht Hx]. split; [|done]. by apply fifo_push.
Qed.

Lemma take_good s : good s → good (take_byte s).2.
Proof.
  intros H. unfold take_byte. pose proof (pop_rx_good s H) as ([Hi Hl] & _).
  destruct (rx_fifo_pop s) as [v s1]. cbn [snd] in *.
  destruct (transfer_active s1) eqn:Ea; cbn [andb]; [|done]. destruct (xfer_is_read s1) eqn:Er; [|done].
  destruct Hi as [Hf Hp Ha Hc Hr]. unfold expected in Hp. rewrite Ea, Er in Hp.
  apply refill_good; try done; [congruence|by apply Hc|by apply Hr].
Qed.

Lemma give_good s v : good s → good (give_byte s v).
Proof.
  intros H. unfold give_byte. pose proof (push_tx_good s (u8 v) H) as (Hg & _).
  revert Hg. generalize (tx_fifo_push s (u8 v)). intros s1 [Hi Hl].
  destruct (transfer_active s1) eqn:Ea; cbn [andb]; [|done]. destruct (xfer_is_read s1) eqn:Er; cbn [negb]; [done|].
  destruct Hi as [Hf Hp Ha Hc Hr]. unfold expected in Hp. rewrite Ea, Er in Hp.
  apply redrain_good; try done; [congruence|by apply Hc|by apply Hr].
Qed.

Lemma frame_only s s' : frame s → (∀ q r, fifos s q r → ∃ q' r', fifos s' q' r') →
  gate_enabled s' = gate_enabled s → module_clock_enabled s' = module_clock_enabled s →
  clock_enabled s' = clock_enabled s → frame s'.
Proof. intros [(q & r & Hq) Hg] Hf ? ? ?. split; [by eapply Hf|congruence]. Qed.

(** A step that leaves the transfer and the clock alone. *)
Lemma i2c_inv_only s s' : inv s → (∀ q r, fifos s q r → ∃ q' r', fifos s' q' r') →
  bus s' = bus s → transfer_active s' = transfer_active s → xfer_is_read s' = xfer_is_read s →
  xfer_remaining s' = xfer_remaining s → tst (config s') CFG_MASTER_EN = tst (config s) CFG_MASTER_EN →
  gate_enabled s' = gate_enabled s → module_clock_enabled s' = module_clock_enabled s →
  clock_enabled s' = clock_enabled s → reset_asserted s' = reset_asserted s → inv s'.
Proof.
  intros [Hf Hp Ha Hc Hr] Hq E1 E2 E3 E4 E5 E6 E7 E8 E9.
  split; [by eapply frame_only|..]; unfold phase_at, expected, bl808_i2c_clock_active in *.
  - by rewrite E1, E2, E3.
  - by rewrite E2, E5.
  - by rewrite E2, E8, E9.
  - by rewrite E2, E4.
Qed.

Ltac unchanged H := eapply i2c_inv_only; [exact H|intros ? ? []; do 2 eexists; by split|done..].

Lemma config_good s v : good s → good (write_config s v).
Proof.
  intros [Hi Hl]. unfold write_config. cbv zeta. set (s1 := s <| config := u32 v |>).
  assert (frame s1) as Hf1 by (eapply frame_only; [apply Hi|intros ? ? []; do 2 eexists; by split|done..]).
  pose proof Hi as [_ Hp Ha Hc Hr].
  destruct (tst (config s) CFG_MASTER_EN) eqn:E1, (tst (config s1) CFG_MASTER_EN) eqn:E2; cbn [negb andb].
  - split; [|done]. eapply i2c_inv_only; [exact Hi|intros ? ? []; do 2 eexists; by split|..]; done || congruence.
  - apply abort_good; [|by left]. split; [done|]. change (transfer_active s1) with (transfer_active s). rewrite Ha.
    exists (expected s). split; [exact Hp|]. unfold expected. rewrite Ha. by destruct (xfer_is_read s).
  - apply start_transfer_good; try done. unfold expected in Hp. by rewrite Ha in Hp.
  - split; [|done]. eapply i2c_inv_only; [exact Hi|intros ? ? []; do 2 eexists; by split|..]; done || congruence.
Qed.

Lemma i2c_write_good s o v : good s → good (bl808_i2c_write s o v 4).
Proof.
  intros H. pose proof H as [Hi Hl]. unfold bl808_i2c_write. destruct (reset_asserted s); [done|].
  repeat (destruct (_ =? _)); try done; try (split; [unchanged Hi|done]).
  - by apply config_good.
  - split; [|done]. unfold write_fifo_config0. eapply inv_but; [apply irq_but_ints|].
    eapply i2c_inv_only; [exact Hi| |by destruct (tst v FIFO_TX_CLR), (tst v FIFO_RX_CLR)..].
    intros q r [Ht Hr]. pose proof (fifo_clear _ _ _ _ Ht). pose proof (fifo_clear _ _ _ _ Hr).
    destruct (tst v FIFO_TX_CLR), (tst v FIFO_RX_CLR); do 2 eexists; by split.
  - by apply give_good.
Qed.

Lemma i2c_read_good s o : good s → good (bl808_i2c_read s o 4).2.
Proof.
  intros H. unfold bl808_i2c_read. do 9 (destruct (_ =? _); [done|]). destruct (_ =? _); [by apply take_good|done].
Qed.

Lemma hold_good s : open_or_idle s → good (bl808_i2c_reset_hold s).
Proof.
  intros [[(q & r & Hq) Hg] Hp]. split; [|done]. unfold bl808_i2c_reset_hold.
  destruct Hq as [Ht Hr]. pose proof (fifo_clear _ _ _ _ Ht). pose proof (fifo_clear _ _ _ _ Hr).
  destruct (transfer_active s) eqn:Ea; (split; [split; [exists [], []; by split|done]|..]; try done).
  destruct Hp as (p & Hp & Hn). unfold phase_at, expected. cbn. by eapply end_phase.
Qed.

Lemma i2c_clock_good s : (∃ q r, fifos s q r) →
  phase_at s = Some (expected s) → transfer_active s = tst (config s) CFG_MASTER_EN →
  (transfer_active s = true → 0 < xfer_remaining s) → good (clock_changed s).
Proof.
  intros (q & r & Hq) Hp Ha Hr. unfold clock_changed. set (s1 := bl808_i2c_recompute_clock s).
  assert (frame s1) as Hf by (split; [exists q, r; by destruct Hq|done]).
  assert (inv s1 ∨ bl808_i2c_clock_active s1 = false ∧ transfer_active s1 = true) as Hc.
  { destruct (bl808_i2c_clock_active s1) eqn:Ec; [by left|].
    destruct (transfer_active s1) eqn:E; [by right|left]. split; try done; intros; congruence. }
  assert (open_or_idle s1) as Ho.
  { split; [done|]. change (transfer_active s1) with (transfer_active s). change (phase_at s1) with (phase_at s).
    unfold expected in Hp. destruct (transfer_active s); [|done]. eexists. split; [exact Hp|]. by destruct (xfer_is_read s). }
  clearbody s1. split; [|done]. eapply inv_but; [apply irq_but_ints|].
  destruct (bl808_i2c_clock_active s1) eqn:Ec; cbn [negb andb]; [by destruct Hc as [|[]]|].
  destruct (transfer_active s1) eqn:E; [|by destruct Hc as [|[]]]. by apply finish_inv.
Qed.

(** ** Runs *)

Inductive i2c_op :=
  | IWrite (offset value : Z)
  | IRead (offset : Z)
  | IDmaRead (width : Z)
  | IDmaWrite (value width : Z)
  | IClock (enabled : bool)
  | IModuleClock (enabled : bool)
  | IReset
  | IResetLine (asserted : bool).

Definition i2c_step s (op : i2c_op) : state :=
  match op with
  | IWrite offset value => bl808_i2c_write s offset value 4
  | IRead offset => (bl808_i2c_read s offset 4).2
  | IDmaRead w => (bl808_i2c_dma_read s w).2
  | IDmaWrite v w => bl808_i2c_dma_write s v w
  | IClock b => bl808_i2c_set_clock_enabled s b
  | IModuleClock b => bl808_i2c_set_module_clock_enabled s b
  | IReset => bl808_i2c_reset s
  | IResetLine b => bl808_i2c_set_reset_asserted s b
  end.

Definition i2c_run s (ops : list i2c_op) : state := foldl i2c_step s ops.

Lemma reset_line_good s b : good s → good (bl808_i2c_set_reset_asserted s b).
Proof.
  intros [Hi Hl]. unfold bl808_i2c_set_reset_asserted. set (s1 := s <| reset_asserted := b |>).
  assert (frame s1) as Hf by (eapply frame_only; [apply Hi|intros ? ? []; do 2 eexists; by split|done..]).
  pose proof (inv_open _ Hi) as [_ Ho]. pose proof Hi as [_ Hp Ha Hc Hr].
  destruct b; [by apply hold_good|]. split; [|done]. eapply inv_but; [apply irq_but_ints|].
  split; try done. intros Ht. specialize (Hc Ht). unfold bl808_i2c_clock_active in *. cbn.
  by destruct (clock_enabled s).
Qed.

Lemma i2c_step_good s op : good s → good (i2c_step s op).
Proof.
  intros H. pose proof H as [Hi Hl]. pose proof Hi as [Hf Hp Ha Hc Hr]. destruct op; cbn [i2c_step].
  - by apply i2c_write_good.
  - by apply i2c_read_good.
  - unfold bl808_i2c_dma_read. destruct (_ =? _); [by apply take_good|done].
  - unfold bl808_i2c_dma_write. destruct (_ =? _); [by apply give_good|done].
  - apply i2c_clock_good; try done. destruct Hf as [(q & r & []) _]. exists q, r. by split.
  - apply i2c_clock_good; try done. destruct Hf as [(q & r & []) _]. exists q, r. by split.
  - apply hold_good. destruct (inv_open _ Hi) as [_ Ho]. split; [|exact Ho].
    destruct Hf as [(q & r & []) _]. split; [|done]. exists q, r. by split.
  - by apply reset_line_good.
Qed.

(** The device as the machine makes it, its memory zeroed, on a bus to which nobody
    has spoken. *)
Definition new_device s : Prop :=
  (tx_fifo s = [0; 0] ∧ tx_head s = 0 ∧ tx_count s = 0) ∧
  (rx_fifo s = [0; 0] ∧ rx_head s = 0 ∧ rx_count s = 0) ∧ transfer_active s = false ∧ (bus s).2 = [].

Definition power_on s : state := bl808_i2c_reset (bl808_i2c_realize (bl808_i2c_init s)).

Lemma power_on_good s : new_device s → good (power_on s).
Proof.
  intros ((Ht & Ht1 & Ht2) & (Hr & Hr1 & Hr2) & Ha & Hb). unfold power_on.
  assert (∃ b, bl808_i2c_realize (bl808_i2c_init s) = with_bus (bl808_i2c_init s) b ∧ b.2 = []) as (b & -> & Hb').
  { unfold bl808_i2c_realize. cbn [attach_default_eeprom bl808_i2c_init bl808_i2c_recompute_clock set_field].
    eexists. split; [reflexivity|]. cbn. by destruct (bus s). }
  apply hold_good. split.
  - split; [|done]. exists [], []. split; unfold fifo; cbn;
      rewrite ?Ht, ?Ht1, ?Ht2, ?Hr, ?Hr1, ?Hr2; by apply ring_empty.
  - change (transfer_active (bl808_i2c_recompute_clock (with_bus (bl808_i2c_init s) b))) with (transfer_active s).
    rewrite Ha. change (phase_of b.2 = Some Idle). by rewrite Hb'.
Qed.

Lemma i2c_run_good s ops : good s → good (i2c_run s ops).
Proof. revert s. induction ops as [|op ops IH]; intros s H; [done|]. by apply IH, i2c_step_good. Qed.

(** C32: the I2C controller keeps to the protocol of the bus.  Whatever the
    software, the DMA controller, the clock tree and the reset lines do, and
    whoever answers on the bus, the calls to the bus come in turn: bytes are sent
    and received only within a transaction of that direction, nothing but its end
    follows a refusal, and every transaction ends before the next one starts.  One
    is open exactly while the controller is active, which is while software has
    it enabled, and only under its clock; and the interrupt line is the one the
    registers call for. *)
Theorem i2c_bus_protocol s0 ops : new_device s0 →
  let s := i2c_run (power_on s0) ops in
  phase_of (bus s).2 = Some (expected s) ∧
  transfer_active s = tst (config s) CFG_MASTER_EN ∧
  (transfer_active s = true → bl808_i2c_clock_active s = true ∧ 0 < xfer_remaining s) ∧
  irq s = line s.
Proof.
  intros Hn. destruct (i2c_run_good _ ops (power_on_good _ Hn)) as [[_ Hp Ha Hc Hr] Hl].
  split_and!; [exact Hp|exact Ha|by split; [apply Hc|apply Hr]|exact Hl].
Qed.

End protocol.
