(* ===== verification/I2cHal.v ===== *)
(** * The I2C driver of the HAL ([src/bl808/i2c.nim]) on the controller

    The driver's transfers, as accesses to the controller of [I2c].
    [i2c_hal_reads]: a read returns the bytes the slave sends and ends the
    transaction, and reports a timeout when nobody answers.  [i2c_hal_write_lost]:
    a write loads its first bytes into the FIFO and then clears the FIFO. *)

From S2P Require Import Prelude Qemu Fifo I2c I2cSpec.
From stdpp Require Import prelude list.
From Stdlib Require Import ZArith Lia.
Import BL808I2C.
Local Open Scope Z_scope.

Inductive I2cSpeed := i2cStandard | i2cFast | i2cFastPlus.
Inductive I2cError := i2cOk | i2cNak | i2cArbLost | i2cTimeout | i2cFifoError.

#[export] Instance I2cError_eq_dec : EqDecision I2cError.
Proof. solve_decision. Defined.

Definition I2cFifoDepth : nat := 2.

Section hal.
Context {B : Type} `{!I2CBus B}.
Notation state := (BL808I2CState B).
Implicit Types s : state.

Definition regRead s (offset : Z) : Z * state := bl808_i2c_read s offset 4.
Definition regWrite s (offset value : Z) : state := bl808_i2c_write s offset value 4.

Definition regSet s (offset mask : Z) : state :=
  let '(v, s) := regRead s offset in regWrite s offset (Z.lor v mask).

Definition regClear s (offset mask : Z) : state :=
  let '(v, s) := regRead s offset in regWrite s offset (Z.land v (not32 mask)).

(** ** Initialization *)

Definition clearFifos s : state := regSet s REG_FIFO_CONFIG0 (Z.lor (Z.shiftl 1 2) (Z.shiftl 1 3)).

Definition initI2c s (speed : I2cSpeed) (i2cClkHz : Z) : state :=
  let s := regClear s REG_CONFIG (Z.shiftl 1 0) in
  let targetFreq := match speed with i2cStandard => 100000 | i2cFast => 400000 | i2cFastPlus => 1000000 end in
  let period := i2cClkHz / targetFreq in
  let halfPeriod := period / 2 in
  let phase := Z.min halfPeriod 255 in
  let prd := Z.lor (Z.lor (Z.lor phase (Z.shiftl phase 8)) (Z.shiftl phase 16)) (Z.shiftl phase 24) in
  let s := regWrite s REG_PRD_START prd in
  let s := regWrite s REG_PRD_STOP prd in
  let s := regWrite s REG_PRD_DATA prd in
  let '(cfg, s) := regRead s REG_CONFIG in
  let cfg := Z.lor cfg (Z.shiftl 1 2) in
  let cfg := Z.lor cfg (Z.shiftl 1 3) in
  let cfg := Z.lor (Z.land cfg (not32 (Z.shiftl 0x0F 28))) (Z.shiftl 2 28) in
  let s := regWrite s REG_CONFIG cfg in
  let s := clearFifos s in
  regSet s REG_INT_STS (Z.shiftl 0x3F 8).

(** ** Transfers *)

(** The bits that clear an interrupt. *)
Definition clear_end : Z := Z.shiftl 1 (0 + 16).
Definition clear_nak : Z := Z.shiftl 1 (3 + 16).
Definition clear_arb : Z := Z.shiftl 1 (4 + 16).
Definition clear_fifo_err : Z := Z.shiftl 1 (5 + 16).

Fixpoint waitComplete s (countdown : nat) : I2cError * state :=
  match countdown with
  | O => (i2cTimeout, s)
  | S countdown =>
      let '(sts, s) := regRead s REG_INT_STS in
      if negb (Z.land sts (Z.shiftl 1 0) =? 0) then
        let s := regSet s REG_INT_STS clear_end in
        if negb (Z.land sts (Z.shiftl 1 3) =? 0) then (i2cNak, regSet s REG_INT_STS clear_nak)
        else if negb (Z.land sts (Z.shiftl 1 4) =? 0) then (i2cArbLost, regSet s REG_INT_STS clear_arb)
        else (i2cOk, s)
      else waitComplete s countdown
  end.

(** The configuration of a transfer. *)
Definition transfer_word (cfg address : Z) (isRead : bool) (length subAddrLen : Z) : Z :=
  let cfg := Z.lor (Z.land cfg (not32 CFG_SLV_ADDR_MASK)) (Z.shiftl (Z.land address 0x7F) 8) in
  let cfg := if isRead then Z.lor cfg (Z.shiftl 1 1) else Z.land cfg (not32 (Z.shiftl 1 1)) in
  let pktLen := if 0 <? length then length - 1 else 0 in
  let cfg := Z.lor (Z.land cfg (not32 CFG_PKT_LEN_MASK)) (Z.shiftl (Z.land pktLen 0xFF) 16) in
  if 0 <? subAddrLen then
    let cfg := Z.lor cfg (Z.shiftl 1 4) in
    Z.lor (Z.land cfg (not32 CFG_SUB_ADDR_BC_MASK)) (Z.shiftl (Z.land (subAddrLen - 1) 0x03) 5)
  else Z.land cfg (not32 (Z.shiftl 1 4)).

Definition startTransfer s (address : Z) (isRead : bool) (length subAddr subAddrLen : Z) : state :=
  let s := clearFifos s in
  let s := regWrite s REG_INT_STS (Z.lor (Z.lor (Z.lor clear_end clear_nak) clear_arb) clear_fifo_err) in
  let '(cfg, s) := regRead s REG_CONFIG in
  let s := if 0 <? subAddrLen then regWrite s REG_SUB_ADDR subAddr else s in
  let s := regWrite s REG_CONFIG (transfer_word cfg address isRead length subAddrLen) in
  regSet s REG_CONFIG (Z.shiftl 1 0).

Definition disable_master s : state := regClear s REG_CONFIG (Z.shiftl 1 0).

(** [while idx < data.len]: the data left at each turn; no result if the loop is
    still running after [fuel] turns. *)
Fixpoint feed_loop (fuel : nat) s (data : list Z) : option state :=
  match data with
  | [] => Some s
  | v :: rest =>
      match fuel with
      | O => None
      | S fuel =>
          let '(c, s) := regRead s REG_FIFO_CONFIG1 in
          if 0 <? Z.land c 0x03 then feed_loop fuel (regWrite s REG_FIFO_WDATA v) rest
          else feed_loop fuel s data
      end
  end.

(** [write] ([subAddrLen] zero) and [writeReg] (one). *)
Definition i2c_write (fuel : nat) s (address : Z) (data : list Z) (subAddr subAddrLen : Z) : option (I2cError * state) :=
  match data with
  | [] => Some (i2cOk, s)
  | _ =>
      let s := foldl (λ s v, regWrite s REG_FIFO_WDATA v) s (take I2cFifoDepth data) in
      let s := startTransfer s address false (Z.of_nat (length data)) subAddr subAddrLen in
      match feed_loop fuel s (drop I2cFifoDepth data) with
      | None => None
      | Some s =>
          let '(result, s) := waitComplete s (Z.to_nat 500000) in
          Some (result, disable_master s)
      end
  end.

(** [while idx < buf.len and timeout > 0]: the bytes read, the rest of the buffer,
    and the turns left.  The outer recursion is on the buffer, the inner one on the
    turns that find no byte. *)
Fixpoint read_loop s (timeout : nat) (buf : list Z) : list Z * nat * state :=
  match buf with
  | [] => ([], timeout, s)
  | old :: rest =>
      (fix poll s (timeout : nat) : list Z * nat * state :=
         match timeout with
         | O => (old :: rest, O, s)
         | S timeout' =>
             let '(c, s) := regRead s REG_FIFO_CONFIG1 in
             if 0 <? Z.shiftr (Z.land c (Z.shiftl 0x03 8)) 8 then
               let '(v, s) := regRead s REG_FIFO_RDATA in
               let '(vs, t, s) := read_loop s timeout rest in (Z.land v 0xFF :: vs, t, s)
             else poll s timeout'
         end) s timeout
  end.

(** [read] ([subAddrLen] zero) and [readReg] (one). *)
Definition i2c_read s (address : Z) (buf : list Z) (subAddr subAddrLen : Z) : I2cError * list Z * state :=
  match buf with
  | [] => (i2cOk, buf, s)
  | _ =>
      let s := startTransfer s address true (Z.of_nat (length buf)) subAddr subAddrLen in
      let '(buf, timeout, s) := read_loop s (Z.to_nat 500000) buf in
      match timeout with
      | O => (i2cTimeout, buf, disable_master s)
      | S _ =>
          let '(result, s) := waitComplete s (Z.to_nat 500000) in
          (result, buf, disable_master s)
      end
  end.

Definition read s address buf := i2c_read s address buf 0 0.
Definition readReg s address regAddr buf := i2c_read s address buf regAddr 1.
Definition write fuel s address data := i2c_write fuel s address data 0 0.
Definition writeReg fuel s address regAddr data := i2c_write fuel s address data regAddr 1.

Definition writeRegByte fuel s address regAddr value := writeReg fuel s address regAddr [value].

Definition readRegByte s address regAddr : Z * I2cError * state :=
  let '(err, buf, s) := readReg s address regAddr [0] in (buf !!! 0%nat, err, s).

Definition busy s : bool := negb (Z.land (regRead s REG_BUS_BUSY).1 1 =? 0).

Definition deinitI2c s : state := clearFifos (disable_master s).

Definition enableDmaTx s : state := regSet s REG_FIFO_CONFIG0 (Z.shiftl 1 1).
Definition enableDmaRx s : state := regSet s REG_FIFO_CONFIG0 (Z.shiftl 1 0).

(** ** The configuration word *)

(** The bits of a word built from masks and fields, at a given index. *)
Lemma not32_testbit x i : 0 ≤ i → Z.testbit (not32 x) i = negb (Z.testbit x i) && (i <? 32).
Proof. intros. unfold not32. rewrite wrap_testbit, Z.lnot_spec by lia. by destruct (Z.testbit x i), (i <? 32). Qed.

Ltac const_bits :=
  repeat match goal with
  | |- context [Z.testbit ?m ?i] => closed_term m; closed_term i;
      let v := eval vm_compute in (Z.testbit m i) in change (Z.testbit m i) with v
  | |- context [?i <? ?w] => closed_term i; closed_term w;
      let v := eval vm_compute in (i <? w) in change (i <? w) with v
  end.

Ltac word_bit :=
  repeat first [rewrite wrap_testbit by lia|rewrite Z.lor_spec|rewrite Z.land_spec|rewrite not32_testbit by lia
               |rewrite Z.shiftl_spec by lia]; const_bits;
  rewrite ?andb_true_l, ?andb_true_r, ?andb_false_l, ?andb_false_r, ?orb_false_l, ?orb_false_r, ?orb_true_r,
    ?orb_true_l; try done.

Lemma field_ext w sh k v : 0 ≤ sh → 0 ≤ k → uint k v →
  (∀ i, 0 ≤ i < k → Z.testbit w (i + sh) = Z.testbit v i) →
  Z.shiftr (Z.land w (Z.shiftl (Z.ones k) sh)) sh = v.
Proof.
  intros Hs Hk Hv Hb. apply Z.bits_inj'. intros i Hi. rewrite Z.shiftr_spec, Z.land_spec, Z.shiftl_spec by lia.
  replace (i + sh - sh) with i by lia. destruct (decide (i < k)).
  - by rewrite Z.ones_spec_low, andb_true_r, Hb by lia.
  - rewrite Z.ones_spec_high, andb_false_r by lia. apply uint_land_ones in Hv; [|done].
    by rewrite <- Hv, Z.land_spec, Z.ones_spec_high, andb_false_r by lia.
Qed.

(** What the controller finds in its configuration when a transfer starts. *)
Lemma word_fields c a rd n k : 0 < n ≤ 256 → (k = 0 ∨ k = 1) →
  let w := u32 (Z.lor (u32 (transfer_word c a rd n k)) (Z.shiftl 1 0)) in
  Z.shiftr (Z.land w CFG_SLV_ADDR_MASK) CFG_SLV_ADDR_SHIFT = Z.land a 0x7F ∧
  Z.shiftr (Z.land w CFG_PKT_LEN_MASK) CFG_PKT_LEN_SHIFT = n - 1 ∧
  tst w CFG_PKT_DIR = rd ∧ tst w CFG_SUB_ADDR_EN = (k =? 1) ∧
  (k = 1 → Z.shiftr (Z.land w CFG_SUB_ADDR_BC_MASK) CFG_SUB_ADDR_BC_SHIFT = 0) ∧
  tst w CFG_10B_ADDR_EN = tst c CFG_10B_ADDR_EN ∧ tst w CFG_MASTER_EN = true.
Proof.
  intros Hn Hk. cbv zeta. unfold transfer_word. rewrite (proj2 (Z.ltb_lt 0 n)) by lia.
  set (m := n - 1). assert (uint 8 m) as Hmu by (unfold uint; lia). assert (Z.land m 0xFF = m) as Hm.
  { by apply (uint_land_ones 8). }
  rewrite Hm. assert (∀ i, 8 ≤ i → Z.testbit m i = false) as Hmb.
  { intros i Hi. by rewrite <- Hm, Z.land_spec, (Z.ones_spec_high 8), andb_false_r by lia. }
  clearbody m. unfold CFG_PKT_DIR, CFG_SUB_ADDR_EN, CFG_10B_ADDR_EN, CFG_MASTER_EN. rewrite !tst_BIT by lia.
  split_and!.
  - apply (field_ext _ 8 7); [lia..|apply uint_land_r; [lia|by vm_compute]|]. intros i Hi.
    assert (i = 0 ∨ i = 1 ∨ i = 2 ∨ i = 3 ∨ i = 4 ∨ i = 5 ∨ i = 6) as Hx by lia.
    destruct Hk as [-> | ->], rd; destruct Hx as [->|[->|[->|[->|[->|[->| ->]]]]]];
      cbn [Z.ltb Z.compare Z.add Pos.add Pos.succ]; word_bit.
  - apply (field_ext _ 16 8); [lia..|done|]. intros i Hi.
    assert (i = 0 ∨ i = 1 ∨ i = 2 ∨ i = 3 ∨ i = 4 ∨ i = 5 ∨ i = 6 ∨ i = 7) as Hx by lia.
    destruct Hk as [-> | ->], rd; destruct Hx as [->|[->|[->|[->|[->|[->|[->| ->]]]]]]];
      cbn [Z.ltb Z.compare Z.add Pos.add Pos.succ]; word_bit.
  - destruct Hk as [-> | ->], rd; cbn [Z.ltb Z.compare]; word_bit.
  - destruct Hk as [-> | ->], rd; cbn [Z.ltb Z.compare]; word_bit.
  - intros ->. apply (field_ext _ 5 2); [lia..|done|]. intros i Hi.
    assert (i = 0 ∨ i = 1) as [-> | ->] by lia; destruct rd; cbn [Z.ltb Z.compare Z.add Pos.add Pos.succ]; word_bit.
  - destruct Hk as [-> | ->], rd; cbn [Z.ltb Z.compare]; word_bit.
  - destruct Hk as [-> | ->], rd; cbn [Z.ltb Z.compare]; word_bit.
Qed.

(** ** Starting a transfer *)

(** A clocked controller with no transfer under way. *)
Record ready s : Prop := {
  rd_fifos : ∃ q r, fifos s q r;
  rd_active : transfer_active s = false;
  rd_enabled : tst (config s) CFG_MASTER_EN = false;
  rd_clock : bl808_i2c_clock_active s = true;
  rd_short : tst (config s) CFG_10B_ADDR_EN = false;
}.

(** What the accesses that set a transfer up leave alone. *)
Record quiet s s' : Prop := {
  qu_bus : bus s' = bus s;
  qu_active : transfer_active s' = transfer_active s;
  qu_clock : clock_enabled s' = clock_enabled s;
  qu_reset : reset_asserted s' = reset_asserted s;
}.

Lemma i2c_quiet_refl s : quiet s s.
Proof. by split. Qed.
#[local] Hint Resolve i2c_quiet_refl : core.

Lemma i2c_quiet_trans s1 s2 s3 : quiet s1 s2 → quiet s2 s3 → quiet s1 s3.
Proof. intros [] []. split; congruence. Qed.

Lemma quiet_clock s s' : quiet s s' → bl808_i2c_clock_active s' = bl808_i2c_clock_active s.
Proof. intros [_ _ H1 H2]. unfold bl808_i2c_clock_active. congruence. Qed.

Lemma clock_reset s : bl808_i2c_clock_active s = true → reset_asserted s = false.
Proof. unfold bl808_i2c_clock_active. by destruct (clock_enabled s), (reset_asserted s). Qed.

Lemma clear_step s : reset_asserted s = false → (∃ q r, fifos s q r) →
  let s' := clearFifos s in fifos s' [] [] ∧ quiet s s' ∧ config s' = config s.
Proof.
  intros Hr (q & r & [Ht Hx]). unfold clearFifos, regSet, regRead, regWrite. cbv zeta.
  change (bl808_i2c_read s REG_FIFO_CONFIG0 4) with (fifo_config0 s, s). cbv iota beta.
  set (m := Z.lor (fifo_config0 s) _).
  assert (tst m FIFO_TX_CLR = true ∧ tst m FIFO_RX_CLR = true) as [T1 T2].
  { unfold m, FIFO_TX_CLR, FIFO_RX_CLR. rewrite !tst_BIT by lia. split; word_bit. }
  assert (bl808_i2c_write s REG_FIFO_CONFIG0 m 4 = write_fifo_config0 s m) as -> by (unfold bl808_i2c_write; by rewrite Hr).
  unfold write_fifo_config0. rewrite T1, T2. pose proof (fifo_clear _ _ _ _ Ht). pose proof (fifo_clear _ _ _ _ Hx).
  split_and!; [by split|by split|done].
Qed.

Lemma i2c_ints_step s v : reset_asserted s = false →
  let s' := regWrite s REG_INT_STS v in
  quiet s s' ∧ config s' = config s ∧ ∀ q r, fifos s q r → fifos s' q r.
Proof.
  intros Hr. unfold regWrite, bl808_i2c_write. rewrite Hr. cbv zeta.
  split_and!; [by split|done|]. intros q r []. by split.
Qed.

Lemma sub_step s v : reset_asserted s = false →
  let s' := regWrite s REG_SUB_ADDR v in
  quiet s s' ∧ config s' = config s ∧ sub_addr s' = u32 v ∧ ∀ q r, fifos s q r → fifos s' q r.
Proof.
  intros Hr. unfold regWrite, bl808_i2c_write. rewrite Hr. cbv zeta.
  split_and!; [by split|done|done|]. intros q r []. by split.
Qed.

(** A configuration written while the controller is off. *)
Lemma i2c_config_step s v : reset_asserted s = false → tst (config s) CFG_MASTER_EN = false → tst (u32 v) CFG_MASTER_EN = false →
  regWrite s REG_CONFIG v = s <| config := u32 v |>.
Proof.
  intros Hr H1 H2. unfold regWrite, bl808_i2c_write, write_config. rewrite Hr. cbn [config set_field].
  change (REG_CONFIG =? REG_CONFIG) with true. cbv iota. rewrite H1.
  change (tst (config (s <| config := u32 v |>)) CFG_MASTER_EN) with (tst (u32 v) CFG_MASTER_EN). by rewrite H2.
Qed.

Lemma word_disabled c a rd n k : (k = 0 ∨ k = 1) → tst c CFG_MASTER_EN = false →
  tst (u32 (transfer_word c a rd n k)) CFG_MASTER_EN = false.
Proof.
  unfold CFG_MASTER_EN. rewrite !tst_BIT by lia. intros Hk Hc. unfold transfer_word. generalize (if 0 <? n then n - 1 else 0).
  intros m. destruct Hk as [-> | ->], rd; cbn [Z.ltb Z.compare]; word_bit.
Qed.

Lemma byte_subaddr v : Z.land (Z.shiftr (u32 v) (Z.of_nat 0 * 8)) 0xFF = Z.land v 0xFF.
Proof.
  change (Z.of_nat 0 * 8) with 0. rewrite Z.shiftr_0_r. apply Z.bits_inj'. intros i Hi.
  rewrite !Z.land_spec, wrap_testbit by lia. destruct (Z.ltb_spec i 32); [by rewrite ?andb_true_r, ?andb_true_l|].
  change 0xFF with (Z.ones 8). by rewrite Z.ones_spec_high, !andb_false_r by lia.
Qed.

(** The state in which the controller starts the transfer. *)
Record posed s a (rd : bool) n sub k s0 : Prop := {
  po_fifos : fifos s0 [] [];
  po_bus : bus s0 = bus s;
  po_active : transfer_active s0 = false;
  po_clock : bl808_i2c_clock_active s0 = true;
  po_short : tst (config s0) CFG_10B_ADDR_EN = false;
  po_on : tst (config s0) CFG_MASTER_EN = true;
  po_dir : tst (config s0) CFG_PKT_DIR = rd;
  po_addr : bl808_i2c_slave_addr s0 = Z.land a 0x7F;
  po_len : Z.shiftr (Z.land (config s0) CFG_PKT_LEN_MASK) CFG_PKT_LEN_SHIFT = n - 1;
  po_sub : sub_bytes s0 = if k =? 1 then [Z.land sub 0xFF] else [];
}.

Lemma startTransfer_poses s a rd n sub k :
  ready s → 0 < n ≤ 256 → (k = 0 ∨ k = 1) →
  ∃ s0, startTransfer s a rd n sub k = bl808_i2c_start_transfer s0 ∧ posed s a rd n sub k s0.
Proof.
  intros [Hf Ha He Hc Hs] Hn Hk. pose proof (clock_reset _ Hc) as Hr. unfold startTransfer.
  destruct (clear_step s Hr Hf) as (F1 & Q1 & G1). revert F1 Q1 G1. generalize (clearFifos s). intros s1 F1 Q1 G1.
  pose proof (qu_reset _ _ Q1) as R1. rewrite Hr in R1.
  destruct (i2c_ints_step s1 (Z.lor (Z.lor (Z.lor clear_end clear_nak) clear_arb) clear_fifo_err) R1) as (Q2 & G2 & F2).
  revert Q2 G2 F2. generalize (regWrite s1 REG_INT_STS (Z.lor (Z.lor (Z.lor clear_end clear_nak) clear_arb) clear_fifo_err)).
  intros s2 Q2 G2 F2. specialize (F2 _ _ F1). pose proof (qu_reset _ _ Q2) as R2. rewrite R1 in R2.
  change (regRead s2 REG_CONFIG) with (config s2, s2). cbv iota beta zeta.
  set (s3 := if 0 <? k then _ else _).
  assert (fifos s3 [] [] ∧ quiet s2 s3 ∧ config s3 = config s2 ∧ (k = 1 → sub_addr s3 = u32 sub)) as (F3 & Q3 & G3 & U3).
  { unfold s3. destruct (sub_step s2 sub R2) as (X1 & X2 & X3 & X4). destruct Hk as [-> | ->]; cbn [Z.ltb Z.compare]; by split_and!; auto. }
  clearbody s3. pose proof (qu_reset _ _ Q3) as R3. rewrite R2 in R3.
  assert (tst (config s3) CFG_MASTER_EN = false) as He3 by congruence.
  rewrite (i2c_config_step s3) by (done || (apply word_disabled; [done|congruence])).
  set (s4 := s3 <| config := _ |>). unfold regSet. change (regRead s4 REG_CONFIG) with (config s4, s4). cbv iota beta.
  set (w := Z.lor (config s4) (Z.shiftl 1 0)).
  assert (config s2 = config s) as Gs by congruence.
  destruct (word_fields (config s) a rd n k Hn Hk) as (W1 & W2 & W3 & W4 & W5 & W6 & W7).
  assert (u32 w = u32 (Z.lor (u32 (transfer_word (config s) a rd n k)) (Z.shiftl 1 0))) as Hw.
  { unfold w, s4. cbn [config set_field]. by rewrite Gs. }
  rewrite <- Hw in *. exists (s4 <| config := u32 w |>). split.
  - unfold regWrite, bl808_i2c_write, write_config. change (reset_asserted s4) with (reset_asserted s3). rewrite R3.
    change (REG_CONFIG =? REG_CONFIG) with true. cbv iota.
    assert (tst (config s4) CFG_MASTER_EN = false) as -> .
    { unfold s4. cbn [config set_field]. apply word_disabled; [done|congruence]. }
    change (tst (config (s4 <| config := u32 w |>)) CFG_MASTER_EN) with (tst (u32 w) CFG_MASTER_EN). by rewrite W7.
  - assert (quiet s s3) as Q by (eapply i2c_quiet_trans; [exact Q1|by eapply i2c_quiet_trans]).
    pose proof (qu_bus _ _ Q) as Qb. pose proof (qu_active _ _ Q) as Qa.
    split; try (by unfold s4; cbn; congruence).
    + unfold s4. destruct F3. by split.
    + change (bl808_i2c_clock_active s3 = true). by rewrite (quiet_clock _ _ Q).
    + unfold bl808_i2c_slave_addr. change (config (s4 <| config := u32 w |>)) with (u32 w). rewrite W1.
      apply wrap_small. unfold uint. change 0x7F with (Z.ones 7). rewrite Z.land_ones by lia.
      pose proof (Z.mod_pos_bound a (2 ^ 7) ltac:(lia)). lia.
    + unfold sub_bytes, bl808_i2c_subaddr_len. change (config (s4 <| config := u32 w |>)) with (u32 w).
      change (sub_addr (s4 <| config := u32 w |>)) with (sub_addr s3). rewrite W4.
      destruct Hk as [-> | ->]; cbn [Z.eqb]; [done|]. rewrite W5 by done. rewrite (U3 eq_refl).
      change (Z.to_nat (0 + 1)) with 1%nat. cbn [sub_list]. by rewrite byte_subaddr.
Qed.

(** ** Reading *)

(** The transaction of a read: the bytes received, or none if nobody answers. *)
Definition read_bus (a : Z) (sub : list Z) (n : nat) (b : B) : option (list Z) * B :=
  let '(ok, b) := address_bus a sub b in
  if negb ok then (None, i2c_end_transfer b)
  else
    let '(r, b) := i2c_start_recv (i2c_end_transfer b) a in
    if negb (r =? 0) then (None, i2c_end_transfer b)
    else let '(vs, b) := recv_n n b in (Some vs, i2c_end_transfer b).

Lemma recv_n_app m k (b : B) :
  recv_n (m + k) b = let '(vs, b) := recv_n m b in let '(ws, b) := recv_n k b in (vs ++ ws, b).
Proof.
  revert b. induction m as [|m IH]; intros b; [by cbn; destruct (recv_n k b)|]. cbn [Nat.add recv_n].
  destruct (i2c_recv b) as [v b1]. rewrite IH. destruct (recv_n m b1) as [vs b2]. by destruct (recv_n k b2).
Qed.

Lemma recv_n_bytes n (b : B) : Forall (uint 8) (recv_n n b).1.
Proof.
  revert b. induction n as [|n IH]; intros b; [constructor|]. cbn [recv_n]. destruct (i2c_recv b) as [v b1].
  specialize (IH b1). destruct (recv_n n b1) as [vs b2]. constructor; [by apply uint_wrap|done].
Qed.

(** Neither a refusal nor a lost arbitration is reported. *)
Definition clean s : Prop := tst (int_sts s) INT_NAK = false ∧ tst (int_sts s) INT_ARB = false.

(** The clock is on, and addresses are short. *)
Definition steady s : Prop := bl808_i2c_clock_active s = true ∧ tst (config s) CFG_10B_ADDR_EN = false.

Lemma clr_short c : tst (clr c CFG_MASTER_EN) CFG_10B_ADDR_EN = tst c CFG_10B_ADDR_EN.
Proof. unfold CFG_MASTER_EN, CFG_10B_ADDR_EN. by rewrite !tst_BIT, clr_spec, BIT_spec, andb_true_r by lia. Qed.

(** Software is going to read [vs], and the transaction leaves the bus as [b]. *)
Definition reading s (vs : list Z) (b : B) : Prop :=
  Forall (uint 8) vs ∧ clean s ∧ steady s ∧ ∃ r, fifos s [] r ∧
    ((transfer_active s = true ∧ xfer_is_read s = true ∧ 0 < xfer_remaining s ∧ r ≠ [] ∧
      let '(ws, b') := recv_n (Z.to_nat (xfer_remaining s)) (bus s) in vs = r ++ ws ∧ b = i2c_end_transfer b') ∨
     (transfer_active s = false ∧ tst (int_sts s) INT_END = true ∧ vs = r ∧ b = bus s ∧
      tst (config s) CFG_MASTER_EN = false)).

Lemma or_clean x n : 0 ≤ n < 3 → tst (Z.lor x (Z.land (BIT n) 0x3F)) INT_NAK = tst x INT_NAK ∧
  tst (Z.lor x (Z.land (BIT n) 0x3F)) INT_ARB = tst x INT_ARB ∧
  tst (Z.lor x (Z.land (BIT n) 0x3F)) (BIT n) = true.
Proof.
  intros Hn. unfold INT_NAK, INT_ARB. rewrite !tst_BIT, !Z.lor_spec by lia.
  assert (n = 0 ∨ n = 1 ∨ n = 2) as [->|[->| ->]] by lia; split_and!; const_bits;
    rewrite ?orb_false_r, ?orb_true_r; done.
Qed.

Lemma set_int_clean s n : 0 ≤ n < 3 → clean s →
  clean (bl808_i2c_set_int s (BIT n)) ∧ tst (int_sts (bl808_i2c_set_int s (BIT n))) (BIT n) = true.
Proof.
  intros Hn [H1 H2]. destruct (or_clean (int_sts s) n Hn) as (O1 & O2 & O3).
  split; [split|exact O3]; [exact (eq_trans O1 H1)|exact (eq_trans O2 H2)].
Qed.

Lemma finish_clean s : clean s → clean (bl808_i2c_finish_transfer s).
Proof. unfold bl808_i2c_finish_transfer. by destruct (transfer_active s). Qed.

(** The FIFO has been filled again: [r] there and [m] bytes to come. *)
Lemma settle s r vs b : fifos s [] r → transfer_active s = true → xfer_is_read s = true →
  clean s → steady s → 0 < xfer_remaining s → Forall (uint 8) r →
  (let '(ws, b') := recv_n (Z.to_nat (xfer_remaining s)) (bus s) in vs = r ++ ws ∧ b = i2c_end_transfer b') →
  reading (bl808_i2c_check_complete (bl808_i2c_fill_rx s)) vs b.
Proof.
  intros Hf Ha Hr [Hn Hb] [Hk Hsh] Hl Hby Hv. pose proof (fill_rx_spec s [] r Hf ltac:(lia)) as Hs. cbv zeta in Hs.
  set (m := Nat.min (2 - length r) (Z.to_nat (xfer_remaining s))) in Hs.
  replace (Z.to_nat (xfer_remaining s)) with (m + (Z.to_nat (xfer_remaining s) - m))%nat in Hv by lia.
  rewrite recv_n_app in Hv. pose proof (recv_n_length m (bus s)) as Hlen. pose proof (recv_n_bytes m (bus s)) as Hbytes.
  destruct (recv_n m (bus s)) as [ws b1]. cbn [fst] in Hlen, Hbytes. destruct Hs as (S1 & S2 & S3 & S4).
  pose proof (recv_n_bytes (Z.to_nat (xfer_remaining s) - m) b1) as Hbytes2.
  revert S1 S2 S3 S4. generalize (bl808_i2c_fill_rx s). intros s1 S1 S2 S3 S4.
  destruct S4 as [T1 _ T2 T3 [T4 T5] (_ & _ & T6 & T7)].
  replace (Z.to_nat (xfer_remaining s) - m)%nat with (Z.to_nat (xfer_remaining s1)) in * by lia.
  destruct (recv_n _ b1) as [us b2] eqn:Eu. cbn [fst] in Hbytes2. destruct Hv as [-> ->].
  destruct (fifos_counts _ _ _ S1) as (_ & C1 & _ & C2). rewrite length_app in C1.
  assert (Forall (uint 8) (r ++ ws ++ us)) as Hall by (by apply Forall_app; split; [|apply Forall_app]).
  assert (clean s1) as Hc1 by (split; congruence).
  assert (steady s1) as [Hk1 Hsh1] by (split; [unfold bl808_i2c_clock_active in *|]; congruence).
  unfold bl808_i2c_check_complete. destruct (Z.eqb_spec (xfer_remaining s1) 0) as [Hz|Hz].
  - rewrite Hz in Eu. injection Eu as <- <-. rewrite app_nil_r in *.
    destruct (set_int_clean _ 0 ltac:(lia) (finish_clean _ Hc1)) as [K1 K2].
    unfold bl808_i2c_finish_transfer in *. rewrite T2, Ha in *. cbv zeta in *.
    split_and!; [done|exact K1|split; [exact Hk1|cbn; by rewrite clr_short]|]. exists (r ++ ws).
    split; [by destruct S1; split|right]. split_and!; [done|exact K2|done|cbn; by rewrite S2|apply clr_master].
  - rewrite T3, Hr. destruct (Z.ltb_spec 0 (rx_count s1)) as [|]; [|lia].
    destruct (set_int_clean s1 2 ltac:(lia) Hc1) as [K1 _].
    split_and!; [done|exact K1|by split|]. exists (r ++ ws).
    split; [by destruct S1; split|left]. split_and!; [by cbn; rewrite T2|by cbn; rewrite T3|cbn; lia| |].
    + intros He. apply (f_equal length) in He. rewrite length_app in He. simpl in He. lia.
    + cbn. rewrite S2, Eu. by rewrite (assoc_L (++)).
Qed.

(** Reading a byte. *)
Lemma take_reading s v vs b : reading s (v :: vs) b →
  let '(x, s') := take_byte s in x = v ∧ reading s' vs b.
Proof.
  intros (Hby & Hc & Hr & r & Hf & H). apply Forall_cons in Hby as [Hv Hby].
  assert (∃ r', r = v :: r' ∧ Forall (uint 8) r') as (r' & -> & Hr').
  { destruct H as [(_ & _ & _ & Hne & H)|(_ & _ & H & _)].
    - destruct (recv_n _ _) as [ws b']. destruct H as [H _]. destruct r as [|x r']; [done|]. injection H as -> ->.
      exists r'. split; [done|]. by apply Forall_app in Hby as [? _].
    - subst r. by exists vs. }
  destruct (fifos_counts _ _ _ Hf) as (_ & Hn & _). cbn [length] in Hn. unfold take_byte, rx_fifo_pop.
  rewrite (proj2 (Z.eqb_neq _ _)) by lia. destruct Hf as [Ht Hx]. destruct (fifo_pop _ _ _ _ _ Hx) as [Hh Hp].
  set (s1 := s <| rx_head := _ |> <| rx_count := _ |>).
  assert (fifos s1 [] r') as Hf1 by (by split).
  destruct H as [(Ha & Hrd & Hl & _ & H)|(Ha & He & H & Hb & Hm)].
  - change (transfer_active s1) with (transfer_active s). change (xfer_is_read s1) with (xfer_is_read s).
    rewrite Ha, Hrd. split; [exact Hh|]. apply (settle s1 r'); try done.
    change (xfer_remaining s1) with (xfer_remaining s). change (bus s1) with (bus s).
    destruct (recv_n _ (bus s)) as [ws b']. destruct H as [H ->]. injection H as H. by subst vs.
  - change (transfer_active s1) with (transfer_active s). rewrite Ha. split; [exact Hh|].
    injection H as <-. split_and!; try done. exists vs. split; [done|]. right. by split_and!.
Qed.

(** There is a byte to read as long as there are bytes to come. *)
Lemma reading_count s v vs b : reading s (v :: vs) b →
  0 < Z.shiftr (Z.land (bl808_i2c_fifo_config1 s) (Z.shiftl 0x03 8)) 8.
Proof.
  intros (_ & _ & _ & r & Hf & H). destruct (fifos_counts _ _ _ Hf) as (Ht & Hn & _ & Hb). cbn [length] in Ht.
  unfold bl808_i2c_fifo_config1, BL808_I2C_FIFO_DEPTH. rewrite Ht.
  assert (rx_count s ≠ 0).
  { destruct H as [(_ & _ & _ & Hne & _)|(_ & _ & <- & _)]; [|simpl in Hn; lia]. destruct r; [done|simpl in Hn; lia]. }
  assert (rx_count s = 1 ∨ rx_count s = 2) as [-> | ->] by lia; by vm_compute.
Qed.

Lemma read_loop_reads s t vs b buf : reading s vs b → length buf = length vs →
  let '(bs, t', s') := read_loop s (S t) buf in bs = vs ∧ t' = S t ∧ reading s' [] b.
Proof.
  revert s vs. induction buf as [|old buf IH]; intros s vs Hs Hl.
  { destruct vs; [|done]. by split_and!. }
  destruct vs as [|v vs]; [done|]. cbn [read_loop].
  change (regRead s REG_FIFO_CONFIG1) with (bl808_i2c_fifo_config1 s, s). cbv iota beta.
  rewrite (proj2 (Z.ltb_lt _ _) (reading_count _ _ _ _ Hs)).
  change (regRead s REG_FIFO_RDATA) with (take_byte s). pose proof (proj1 (Forall_cons _ _ _) (proj1 Hs)) as [Hv _].
  pose proof (take_reading _ _ _ _ Hs) as Ht. destruct (take_byte s) as [x s1]. destruct Ht as [-> Ht].
  specialize (IH s1 vs Ht ltac:(simpl in Hl; lia)). destruct (read_loop s1 (S t) buf) as [[bs t'] s2].
  destruct IH as (-> & -> & IH). split_and!; [|done|done]. f_equal.
  unfold uint in Hv. change 0xFF with (Z.ones 8). by rewrite Z.land_ones, Z.mod_small by lia.
Qed.

(** The transfer was refused. *)
Record refused s (b : B) : Prop := {
  rf_steady : steady s;
  rf_fifos : fifos s [] [];
  rf_bus : bus s = b;
  rf_active : transfer_active s = false;
  rf_enabled : tst (config s) CFG_MASTER_EN = false;
}.

Lemma nak_refused s : steady s → fifos s [] [] → transfer_active s = true → refused (nak s) (i2c_end_transfer (bus s)).
Proof.
  intros [Hk Hs] Hf Ha. unfold nak, bl808_i2c_abort_transfer, bl808_i2c_finish_transfer. rewrite Ha.
  change (negb (Z.lor INT_NAK INT_END =? 0)) with true. cbv iota zeta.
  split; [split; [exact Hk|cbn; by rewrite clr_short]|by destruct Hf; split|done|done|apply clr_master].
Qed.

(** A read has begun. *)
Record begun s n addr : Prop := {
  bg_steady : steady s;
  bg_clean : clean s;
  bg_fifos : fifos s [] [];
  bg_active : transfer_active s = true;
  bg_read : xfer_is_read s = true;
  bg_left : xfer_remaining s = n;
  bg_addr : bl808_i2c_slave_addr s = addr;
}.

Lemma begun_bus s n addr b : begun s n addr → begun (with_bus s b) n addr ∧ bus (with_bus s b) = b.
Proof. intros [? ? [] ? ? ? ?]. split; [|done]. by split. Qed.

Lemma begun_nak s n addr : begun s n addr → refused (nak s) (i2c_end_transfer (bus s)).
Proof. intros []. by apply nak_refused. Qed.

Lemma start_begins s a n sub k s0 : posed s a true n sub k s0 →
  ∃ s1, bl808_i2c_start_transfer s0 = start_read s1 ∧ begun s1 n (Z.land a 0x7F) ∧ bus s1 = bus s ∧
        sub_bytes s1 = if k =? 1 then [Z.land sub 0xFF] else [].
Proof.
  intros [Hf Hb Ha Hk Hs _ Hd Had Hl Hsub]. unfold bl808_i2c_start_transfer. rewrite Hk, Hs, Hd, Hl. cbn [negb].
  eexists. split; [reflexivity|]. split_and!; [|done..]. destruct Hf. split; try done; [|cbn; lia].
  - unfold clean, INT_NAK, INT_ARB. cbn [int_sts set_field]. rewrite !tst_BIT, !clr_spec by lia.
    const_bits. by rewrite !andb_false_r.
Qed.

Lemma start_reads s a n sub k s0 : posed s a true n sub k s0 → 0 < n →
  let s1 := bl808_i2c_start_transfer s0 in
  match read_bus (Z.land a 0x7F) (if k =? 1 then [Z.land sub 0xFF] else []) (Z.to_nat n) (bus s) with
  | (Some vs, b) => reading s1 vs b
  | (None, b) => refused s1 b
  end.
Proof.
  intros Hp Hn. cbv zeta. destruct (start_begins _ _ _ _ _ _ Hp) as (s1 & -> & G1 & B1 & U1).
  unfold start_read. rewrite address_slave_spec, (bg_addr _ _ _ G1), U1, B1. unfold read_bus.
  destruct (address_bus _ _ (bus s)) as [ok b]. destruct (begun_bus s1 _ _ b G1) as [G2 B2].
  revert G2 B2. generalize (with_bus s1 b). intros s2 G2 B2.
  destruct ok; cbn [negb]; [|by rewrite <- B2; eapply begun_nak].
  change (s2 <| bus := i2c_end_transfer (bus s2) |>) with (with_bus s2 (i2c_end_transfer (bus s2))).
  destruct (begun_bus s2 _ _ (i2c_end_transfer (bus s2)) G2) as [G3 B3]. rewrite B2 in *.
  revert G3 B3. generalize (with_bus s2 (i2c_end_transfer b)). intros s3 G3 B3. rewrite (bg_addr _ _ _ G3), B3.
  destruct (i2c_start_recv (i2c_end_transfer b) (Z.land a 0x7F)) as [rc b4].
  change (s3 <| bus := b4 |>) with (with_bus s3 b4). destruct (begun_bus s3 _ _ b4 G3) as [G4 B4].
  revert G4 B4. generalize (with_bus s3 b4). intros s4 G4 B4.
  destruct (rc =? 0); cbn [negb]; [|by rewrite <- B4; eapply begun_nak].
  destruct G4 as [St Cl Fi Ac Rd Le _].
  destruct (recv_n (Z.to_nat n) b4) as [vs b5] eqn:Ev. apply (settle s4 []); try done; [lia|].
  by rewrite Le, B4, Ev.
Qed.

(** A read that nobody answers waits in vain for a byte. *)
Lemma read_loop_refused s b t old buf : refused s b → read_loop s t (old :: buf) = (old :: buf, O, s).
Proof.
  intros H. assert (Z.shiftr (Z.land (bl808_i2c_fifo_config1 s) (Z.shiftl 0x03 8)) 8 = 0) as Hc.
  { destruct (fifos_counts _ _ _ (rf_fifos _ _ H)) as (H1 & H2 & _). unfold bl808_i2c_fifo_config1.
    rewrite H1, H2. by vm_compute. }
  induction t as [|t IH]; [done|]. cbn [read_loop] in *.
  change (regRead s REG_FIFO_CONFIG1) with (bl808_i2c_fifo_config1 s, s). cbv iota beta. rewrite Hc. exact IH.
Qed.

Lemma disable_ready s : steady s → (∃ q r, fifos s q r) → transfer_active s = false → tst (config s) CFG_MASTER_EN = false →
  ready (disable_master s) ∧ bus (disable_master s) = bus s.
Proof.
  intros [Hk Hs] Hf Ha He. unfold disable_master, regClear. change (regRead s REG_CONFIG) with (config s, s). cbv iota beta.
  assert (∀ n, 0 ≤ n < 32 → n ≠ 0 → tst (u32 (Z.land (config s) (not32 (Z.shiftl 1 0)))) (BIT n) = tst (config s) (BIT n)) as Hb.
  { intros n Hn Hz. rewrite !tst_BIT, wrap_testbit, Z.land_spec, not32_testbit, Z.shiftl_spec by lia.
    rewrite (Z.bits_above_log2 1) by (simpl; lia). rewrite (proj2 (Z.ltb_lt n 32)) by lia. by rewrite !andb_true_r. }
  assert (tst (u32 (Z.land (config s) (not32 (Z.shiftl 1 0)))) CFG_MASTER_EN = false) as H0.
  { unfold CFG_MASTER_EN. rewrite !tst_BIT by lia. word_bit. }
  rewrite i2c_config_step by (done || by apply clock_reset). split; [|done].
  destruct Hf as (q & r & []). split; [by exists q, r|done|exact H0|exact Hk|].
  unfold CFG_10B_ADDR_EN in *. rewrite <- Hs. exact (Hb 7 ltac:(lia) ltac:(lia)).
Qed.

Lemma wait_done s b n : reading s [] b → let '(e, s') := waitComplete s (S n) in e = i2cOk ∧
  ready (disable_master s') ∧ bus (disable_master s') = b.
Proof.
  intros (_ & [Hn Hb] & [Hk Hs] & r & Hf & H).
  assert (transfer_active s = false ∧ tst (int_sts s) INT_END = true ∧ b = bus s ∧ tst (config s) CFG_MASTER_EN = false)
    as (Ha & He & -> & Hm).
  { destruct H as [(_ & _ & _ & Hne & H)|(? & ? & ? & ? & ?)]; [|done]. destruct (recv_n _ _) as [ws b'].
    destruct H as [H _]. by destruct r. }
  cbn [waitComplete]. change (regRead s REG_INT_STS) with (int_sts s, s). cbv iota beta.
  unfold tst in Hn, Hb, He. unfold INT_NAK, INT_ARB, INT_END, BIT in *. rewrite He, Hn, Hb. split; [done|].
  unfold regSet. change (regRead s REG_INT_STS) with (int_sts s, s). cbv iota beta.
  destruct (i2c_ints_step s (Z.lor (int_sts s) clear_end) (clock_reset _ Hk)) as (Q & C & F).
  revert Q C F. generalize (regWrite s REG_INT_STS (Z.lor (int_sts s) clear_end)). intros s1 Q C F.
  destruct (disable_ready s1) as [D1 D2].
  - split; [by rewrite (quiet_clock _ _ Q)|by rewrite C].
  - exists [], r. by apply F.
  - by rewrite (qu_active _ _ Q).
  - by rewrite C.
  - split; [exact D1|]. by rewrite D2, (qu_bus _ _ Q).
Qed.

(** C33: the I2C driver reads what the slave sends.  A read of up to 256 bytes, with
    or without a register address, puts on the bus one transaction that writes the
    address and one that reads exactly the bytes asked for; it returns them in
    order, each transaction is ended, and the controller is ready for the next
    transfer.  If nobody acknowledges, the buffer is left as it was and the
    transaction is ended; the driver then reports a timeout. *)
Theorem i2c_hal_reads s a buf sub k :
  ready s → (0 < length buf ≤ 256)%nat → (k = 0 ∨ k = 1) →
  let '(e, bs, s') := i2c_read s a buf sub k in
  ready s' ∧
  match read_bus (Z.land a 0x7F) (if k =? 1 then [Z.land sub 0xFF] else []) (length buf) (bus s) with
  | (Some vs, b) => e = i2cOk ∧ bs = vs ∧ bus s' = b
  | (None, b) => e = i2cTimeout ∧ bs = buf ∧ bus s' = b
  end.
Proof.
  intros Hr Hl Hk. destruct buf as [|old buf]; [simpl in Hl; lia|]. unfold i2c_read.
  destruct (startTransfer_poses s a true (Z.of_nat (length (old :: buf))) sub k Hr ltac:(lia) Hk) as (s0 & -> & Hp).
  pose proof (start_reads _ _ _ _ _ _ Hp ltac:(lia)) as Hs. cbv zeta in Hs. rewrite Nat2Z.id in Hs.
  revert Hs. generalize (bl808_i2c_start_transfer s0). intros s1 Hs.
  destruct (read_bus _ _ (length (old :: buf)) (bus s)) as [[vs|] b] eqn:Eb.
  - assert (length vs = length (old :: buf)) as Hlen.
    { unfold read_bus in Eb. destruct (address_bus _ _ _) as [ok b1]. destruct (negb ok); [done|].
      destruct (i2c_start_recv _ _) as [rc b2]. destruct (negb _); [done|].
      pose proof (recv_n_length (length (old :: buf)) b2) as Hx. destruct (recv_n _ b2) as [ws b3]. by injection Eb as -> _. }
    assert (∃ t, Z.to_nat 500000 = S t) as [t ->] by (exists (Z.to_nat 499999); lia).
    pose proof (read_loop_reads s1 t vs b (old :: buf) Hs ltac:(done)) as Hl2.
    destruct (read_loop s1 (S t) (old :: buf)) as [[bs t'] s2]. destruct Hl2 as (-> & -> & H2).
    pose proof (wait_done s2 b t H2) as Hw. destruct (waitComplete s2 (S t)) as [e s3].
    destruct Hw as (-> & Hw1 & Hw2). by split_and!.
  - rewrite (read_loop_refused s1 b _ old buf Hs).
    destruct (disable_ready s1) as [D1 D2]; [apply Hs|by do 2 eexists; apply Hs|apply Hs|apply Hs|].
    split_and!; [done|done|done|]. rewrite D2. apply Hs.
Qed.

(** ** Writing *)

Lemma load_ready s v : ready s → ready (regWrite s REG_FIFO_WDATA v) ∧ bus (regWrite s REG_FIFO_WDATA v) = bus s.
Proof.
  intros [(q & r & [Ht Hr]) Ha He Hk Hs].
  assert (regWrite s REG_FIFO_WDATA v = tx_fifo_push s (u8 v)) as ->.
  { unfold regWrite, bl808_i2c_write. rewrite (clock_reset _ Hk). change (give_byte s v = tx_fifo_push s (u8 v)).
    unfold give_byte. assert (transfer_active (tx_fifo_push s (u8 v)) = false) as ->; [|done].
    unfold tx_fifo_push. by destruct (_ <=? _). }
  unfold tx_fifo_push. destruct (Z.leb_spec BL808_I2C_FIFO_DEPTH (tx_count s)); (split; [|done]).
  - split; try done. exists q, r. by split.
  - split; try done. exists (q ++ [u8 v]), r. split; [by apply fifo_push|done].
Qed.

Lemma load_all_ready s vs : ready s →
  let s' := foldl (λ s v, regWrite s REG_FIFO_WDATA v) s vs in ready s' ∧ bus s' = bus s.
Proof.
  revert s. induction vs as [|v vs IH]; intros s H; [done|]. cbn [foldl]. destruct (load_ready s v H) as [H1 H2].
  destruct (IH _ H1) as [H3 H4]. split; [exact H3|]. by rewrite H4.
Qed.

(** The transfer waits for bytes that do not come. *)
Record starved s (b : B) : Prop := {
  sv_bus : bus s = b;
  sv_active : transfer_active s = true;
  sv_enabled : tst (config s) CFG_MASTER_EN = true;
  sv_end : Z.land (int_sts s) (Z.shiftl 1 0) = 0;
  sv_reset : reset_asserted s = false;
}.

Lemma wait_starved s b n : starved s b → waitComplete s n = (i2cTimeout, s).
Proof.
  intros H. induction n as [|n IH]; [done|]. cbn [waitComplete].
  change (regRead s REG_INT_STS) with (int_sts s, s). cbv iota beta. by rewrite (sv_end _ _ H).
Qed.

Lemma disable_starved s b : starved s b → bus (disable_master s) = i2c_end_transfer b.
Proof.
  intros [Hb Ha He _ Hr]. unfold disable_master, regClear. change (regRead s REG_CONFIG) with (config s, s). cbv iota beta.
  set (v := Z.land (config s) (not32 (Z.shiftl 1 0))).
  assert (tst (u32 v) CFG_MASTER_EN = false) as H0 by (unfold v, CFG_MASTER_EN; rewrite tst_BIT by lia; word_bit).
  assert (regWrite s REG_CONFIG v = write_config s v) as -> by (unfold regWrite, bl808_i2c_write; by rewrite Hr).
  unfold write_config. rewrite He. change (tst (config (s <| config := u32 v |>)) CFG_MASTER_EN) with (tst (u32 v) CFG_MASTER_EN).
  rewrite H0. cbn [negb andb]. unfold bl808_i2c_abort_transfer, bl808_i2c_finish_transfer. cbn [Z.eqb negb].
  change (transfer_active (s <| config := u32 v |>)) with (transfer_active s). rewrite Ha. cbn. by rewrite Hb.
Qed.

Lemma start_starves s a n sub k s0 b : posed s a false n sub k s0 → 0 < n → tst (config s0) CFG_MASTER_EN = true →
  address_bus (Z.land a 0x7F) (if k =? 1 then [Z.land sub 0xFF] else []) (bus s) = (true, b) →
  starved (bl808_i2c_start_transfer s0) b.
Proof.
  intros [[Ht Hx] Hb Ha Hk Hs _ Hd Had Hl Hsub] Hn He Hadr. unfold bl808_i2c_start_transfer. rewrite Hk, Hs, Hd, Hl. cbn [negb].
  set (s1 := s0 <| int_sts := _ |> <| xfer_is_read := _ |> <| xfer_remaining := _ |> <| transfer_active := _ |>).
  assert (bl808_i2c_slave_addr s1 = Z.land a 0x7F ∧ sub_bytes s1 = (if k =? 1 then [Z.land sub 0xFF] else []) ∧
          bus s1 = bus s ∧ tx_count s1 = 0 ∧ xfer_remaining s1 = n ∧ xfer_is_read s1 = false ∧ transfer_active s1 = true ∧
          tst (config s1) CFG_MASTER_EN = true ∧ Z.land (int_sts s1) (Z.shiftl 1 0) = 0 ∧ reset_asserted s1 = false)
    as (D & U & B1 & C & L & R & A & E & I & Rs).
  { destruct (fifo_count _ _ _ _ Ht) as [Hc _]. split_and!; try done; [cbn; lia| |by apply clock_reset].
    unfold s1. cbn [int_sts set_field]. apply Z.bits_inj'. intros i Hi. rewrite Z.land_spec, clr_spec, Z.bits_0 by lia.
    destruct (decide (i = 0)) as [->|]; [const_bits; by rewrite andb_false_r|].
    rewrite Z.shiftl_spec by lia. rewrite (Z.bits_above_log2 1) by (simpl; lia). by rewrite andb_false_r. }
  clearbody s1. unfold start_write. rewrite address_slave_spec, D, U, B1, Hadr. cbn [negb].
  set (s2 := with_bus s1 b).
  assert (bus s2 = b ∧ tx_count s2 = 0 ∧ xfer_remaining s2 = n ∧ xfer_is_read s2 = false ∧ transfer_active s2 = true ∧
          tst (config s2) CFG_MASTER_EN = true ∧ Z.land (int_sts s2) (Z.shiftl 1 0) = 0 ∧ reset_asserted s2 = false)
    as (B2 & C2 & L2 & R2 & A2 & E2 & I2 & Rs2) by done.
  clearbody s2. unfold bl808_i2c_drain_tx. rewrite C2. change (Z.to_nat 0) with 0%nat. cbn [drain_tx_loop Z.ltb Z.compare].
  unfold bl808_i2c_check_complete. rewrite L2, R2, C2, (proj2 (Z.eqb_neq n 0)) by lia.
  change (0 <? BL808_I2C_FIFO_DEPTH) with true. cbv iota. split; try done.
  change (Z.land (Z.lor (int_sts s2) (Z.land INT_TX_FIFO 0x3F)) (Z.shiftl 1 0) = 0).
  by rewrite Z.land_lor_distr_l, I2.
Qed.

(** The driver loads the first bytes of a write into the FIFO and then, to set the
    transfer up, clears the FIFO: of one or two bytes none is sent, and although
    the slave answered the driver reports a timeout. *)
Lemma i2c_hal_write_lost fuel s a data sub k b :
  ready s → (0 < length data ≤ 2)%nat → (k = 0 ∨ k = 1) →
  address_bus (Z.land a 0x7F) (if k =? 1 then [Z.land sub 0xFF] else []) (bus s) = (true, b) →
  ∃ s', i2c_write fuel s a data sub k = Some (i2cTimeout, s') ∧ bus s' = i2c_end_transfer b.
Proof.
  intros Hr Hl Hk Hadr. unfold i2c_write. destruct data as [|v data]; [simpl in Hl; lia|].
  destruct (load_all_ready s (take I2cFifoDepth (v :: data)) Hr) as [Hr1 Hb1].
  revert Hr1 Hb1. generalize (foldl (λ s v, regWrite s REG_FIFO_WDATA v) s (take I2cFifoDepth (v :: data))). intros s1 Hr1 Hb1.
  destruct (startTransfer_poses s1 a false (Z.of_nat (length (v :: data))) sub k Hr1 ltac:(lia) Hk) as (s0 & -> & Hp).
  rewrite drop_ge by (unfold I2cFifoDepth; lia).
  assert (tst (config s0) CFG_MASTER_EN = true) as He by apply Hp.
  pose proof (start_starves _ _ _ _ _ _ b Hp ltac:(simpl; lia) He ltac:(by rewrite Hb1)) as Hs.
  assert (∀ n s, feed_loop n s [] = Some s) as -> by (by intros [|]).
  rewrite (wait_starved _ b _ Hs). eexists. split; [reflexivity|]. by apply disable_starved.
Qed.

End hal.

(** ** On a concrete bus *)

Module I2cDemo.

(** A memory at address 0x50 that keeps a pointer: a byte sent sets it, a byte
    received moves it on. *)
#[local] Instance memory_bus : I2CBus Z := {
  i2c_start_send := λ p a, (if a =? 0x50 then 0 else 1, p);
  i2c_start_recv := λ p a, (if a =? 0x50 then 0 else 1, p);
  i2c_send := λ _ v, (0, v);
  i2c_recv := λ p, (3 * p, p + 1);
  i2c_end_transfer := λ p, p;
  i2c_bus_busy := λ _, false;
  at24c_eeprom_init_rom := λ p _ _, p;
}.

Definition blank : BL808I2CState (Z * list i2c_event) :=
  mk_i2c false (0, []) 0 0 0 0 0 0 0 [0; 0] 0 0 [0; 0] 0 0 false 0 false false false false false false.

Lemma i2c_blank_new : new_device blank.
Proof. by repeat split. Qed.

(** A read of three bytes, cut off by the clock after the first. *)
Definition past : list i2c_op :=
  [IWrite REG_CONFIG (Z.lor (Z.shiftl 0x50 8) (Z.lor (Z.shiftl 3 16) 3)); IRead REG_FIFO_RDATA; IClock false].

Lemma cut_off : (bus (i2c_run (power_on blank) past)).2 =
  [EStartSend 0x50 true; EEnd; EStartRecv 0x50 true; ERecv 0; ERecv 3; ERecv 6; EEnd].
Proof. by vm_compute. Qed.

Lemma i2c_bus_protocol_witness :
  new_device blank ∧ phase_of [EStartSend 0x50 true; EEnd; EStartRecv 0x50 true; ERecv 0; ERecv 3; ERecv 6; EEnd] =
    Some (expected (i2c_run (power_on blank) past)).
Proof.
  split; [exact i2c_blank_new|]. destruct (i2c_bus_protocol blank past i2c_blank_new) as (H & _).
  exact (eq_trans (f_equal phase_of (eq_sym cut_off)) H).
Defined.

(** The controller on the bare bus, set up by the driver. *)
Notation up := (initI2c (BL808I2C.bl808_i2c_reset (bl808_i2c_init
  (mk_i2c false 7 0 0 0 0 0 0 0 [0; 0] 0 0 [0; 0] 0 0 false 0 false false false false false false))) i2cFast 32000000).

Lemma up_ready : ready up.
Proof.
  split; [|by vm_compute..]. exists [], []. split; (split; [by vm_compute..|]); intros i Hi; simpl in Hi; lia.
Qed.

Lemma demo_bus : read_bus (Z.land 0x50 0x7F) [Z.land 0x10 0xFF] 3 7 = (Some [0x30; 0x33; 0x36], 0x13).
Proof. by vm_compute. Qed.

Lemma up_bus : bus up = 7.
Proof. by vm_compute. Qed.

Lemma i2c_hal_reads_witness :
  ready up ∧ (readReg up 0x50 0x10 [0; 0; 0]).1 = (i2cOk, [0x30; 0x33; 0x36]).
Proof.
  split; [exact up_ready|].
  pose proof (i2c_hal_reads up 0x50 [0; 0; 0] 0x10 1 up_ready ltac:(simpl; lia) ltac:(by right)) as H.
  unfold readReg. revert H. generalize (i2c_read up 0x50 [0; 0; 0] 0x10 1). intros [[e bs] s'].
  rewrite up_bus. change (length [0; 0; 0]) with 3%nat. change (1 =? 1) with true. cbv iota. rewrite demo_bus.
  intros (_ & -> & -> & _). reflexivity.
Defined.

(** The driver masks the interrupts when it sets the controller up; every transfer
    unmasks them all, and its end raises the line. *)
Lemma i2c_transfer_unmasks :
  irq up = false ∧ Z.land (int_sts up) 0x3F00 = 0x3F00 ∧
  let s := startTransfer up 0x50 true 2 0 0 in irq s = true ∧ Z.land (int_sts s) 0x3F00 = 0.
Proof. by vm_compute. Qed.

End I2cDemo.
