(* ===== verification/Pwm.v ===== *)
(** * The PWM controller ([qemu-machine/hw/timer/bl808_pwm.c])

    One module [BL808PWM]: two motor controllers, each with a period timer.  The
    handlers take the virtual time [now]; [period_timer] holds the deadlines. *)

From S2P Require Import Prelude Qemu.
From stdpp Require Import prelude list.
From Stdlib Require Import ZArith Lia.
Local Open Scope Z_scope.

Module BL808PWM.

Definition BL808_PWM_MC_COUNT := 2.

(** ** State *)

Record BL808PWMState := mk_pwm {
  irq : bool;                        (* level last passed to qemu_set_irq *)
  period_timer : list (option Z);    (* deadlines, in ns of virtual time *)
  int_config : Z;                    (* uint32_t *)
  mc_config0 : list Z;               (* uint32_t [2] *)
  mc_config1 : list Z;
  mc_period : list Z;
  mc_dead_time : list Z;
  mc_thre : list (list Z);           (* uint32_t [2][4] *)
  mc_int_sts : list Z;
  mc_int_mask : list Z;
  mc_int_en : list Z;
  repeat_count : list Z;
  clock_enabled : bool;
  reset_asserted : bool;
  repeat_stop_active : list bool;
}.

#[export] Instance eta_pwm : Eta BL808PWMState := λ r,
  mk_pwm (irq r) (period_timer r) (int_config r) (mc_config0 r) (mc_config1 r) (mc_period r)
    (mc_dead_time r) (mc_thre r) (mc_int_sts r) (mc_int_mask r) (mc_int_en r) (repeat_count r)
    (clock_enabled r) (reset_asserted r) (repeat_stop_active r).

Definition PWM_INT_CONFIG := 0x00.
Definition PWM_MC_STRIDE := 0x40.
Definition PWM_MC_BASE (mc : Z) : Z := 0x40 + mc * PWM_MC_STRIDE.

Definition PWM_CLK_DIV_MASK := 0xFFFF.
Definition PWM_STOP_ON_REPT := BIT 19.
Definition PWM_STOP_EN := BIT 27.
Definition PWM_STOP_MODE := BIT 28.
Definition PWM_STS_STOP := BIT 29.
Definition PWM_CLK_SEL_SHIFT := 30.
Definition PWM_CLK_SEL_MASK := Z.shiftl 3 PWM_CLK_SEL_SHIFT.

Definition PWM_INT_CH0L := BIT 0.
Definition PWM_INT_CH0H := BIT 1.
Definition PWM_INT_CH1L := BIT 2.
Definition PWM_INT_CH1H := BIT 3.
Definition PWM_INT_CH2L := BIT 4.
Definition PWM_INT_CH2H := BIT 5.
Definition PWM_INT_CH3L := BIT 6.
Definition PWM_INT_CH3H := BIT 7.
Definition PWM_INT_PRDE := BIT 8.
Definition PWM_INT_BRK := BIT 9.
Definition PWM_INT_REPT := BIT 10.
Definition PWM_INT_ALL := Z.shiftl 1 11 - 1.

Implicit Types s : BL808PWMState.

(** ** Operations *)

Definition bl808_pwm_cfg0_read s (mc : Z) : Z :=
  let value := clr (mc_config0 s !% mc) PWM_STS_STOP in
  if reset_asserted s || repeat_stop_active s !% mc || tst (mc_config0 s !% mc) PWM_STOP_EN
  then Z.lor value PWM_STS_STOP else value.

Definition bl808_pwm_int_config_read s : Z :=
  let value := clr (int_config s) 0x3 in
  let value := if tst (mc_int_sts s !% 0) PWM_INT_ALL then Z.lor value (BIT 0) else value in
  if tst (mc_int_sts s !% 1) PWM_INT_ALL then Z.lor value (BIT 1) else value.

Definition mc_pending s (mc : Z) : Z := clr (Z.land (mc_int_sts s !% mc) (mc_int_en s !% mc)) (mc_int_mask s !% mc).

Definition bl808_pwm_update_irq s : BL808PWMState :=
  let pending := foldl (λ pending mc, Z.lor pending (mc_pending s mc)) 0 (seqZ 0 BL808_PWM_MC_COUNT) in
  s <| irq := clock_enabled s && negb (reset_asserted s) && negb (pending =? 0) |>.

Definition bl808_pwm_running s (mc : Z) : bool :=
  clock_enabled s && negb (reset_asserted s) && negb (repeat_stop_active s !% mc) &&
  negb (tst (mc_config0 s !% mc) PWM_STOP_EN).

Definition bl808_pwm_base_hz s (mc : Z) : Z :=
  let sel := Z.shiftr (Z.land (mc_config0 s !% mc) PWM_CLK_SEL_MASK) PWM_CLK_SEL_SHIFT in
  if sel =? 0 then 40000000 else if sel =? 1 then 32000000 else if sel =? 2 then 32000 else 32000000.

Definition bl808_pwm_period_ns s (mc : Z) : Z :=
  let clk_div := Z.land (mc_config0 s !% mc) PWM_CLK_DIV_MASK + 1 in
  let period := Z.land (mc_period s !% mc) 0xFFFF + 1 in
  let base_hz := bl808_pwm_base_hz s mc in
  let ticks := u64 (clk_div * period) in
  u64 (u64 (u64 (u64 (ticks * 1000000000) + base_hz) - 1) / base_hz).

Definition bl808_pwm_reschedule (now : Z) s (mc : Z) : BL808PWMState :=
  if negb (bl808_pwm_running s mc) then s <| period_timer := aset (period_timer s) mc None |>
  else s <| period_timer := aset (period_timer s) mc (Some (now + Z.max 1 (bl808_pwm_period_ns s mc))) |>.

Definition set_sts s (mc bits : Z) : BL808PWMState :=
  s <| mc_int_sts := aset (mc_int_sts s) mc (Z.lor (mc_int_sts s !% mc) bits) |>.

Definition low_bits : list Z := [PWM_INT_CH0L; PWM_INT_CH1L; PWM_INT_CH2L; PWM_INT_CH3L].
Definition high_bits : list Z := [PWM_INT_CH0H; PWM_INT_CH1H; PWM_INT_CH2H; PWM_INT_CH3H].

Definition raise_threshold s (mc ch : Z) : BL808PWMState :=
  if negb (tst (mc_config1 s !% mc) (BIT (ch * 4))) then s
  else
    let s := if negb (Z.land ((mc_thre s !% mc) !% ch) 0xFFFF =? 0) then set_sts s mc (low_bits !% ch) else s in
    if negb (Z.shiftr ((mc_thre s !% mc) !% ch) 16 =? 0) then set_sts s mc (high_bits !% ch) else s.

Definition bl808_pwm_raise_threshold_irqs s (mc : Z) : BL808PWMState :=
  foldl (λ s ch, raise_threshold s mc ch) s (seqZ 0 4).

(** The repeat counter at the end of a period. *)
Definition count_repeat s (mc : Z) : BL808PWMState :=
  let repeat_target := Z.shiftr (mc_period s !% mc) 16 in
  if repeat_target =? 0 then s
  else
    let s := s <| repeat_count := aset (repeat_count s) mc (u32 (repeat_count s !% mc + 1)) |> in
    if repeat_target <=? repeat_count s !% mc then
      let s := s <| repeat_count := aset (repeat_count s) mc 0 |> in
      let s := set_sts s mc PWM_INT_REPT in
      if tst (mc_config0 s !% mc) PWM_STOP_ON_REPT
      then s <| repeat_stop_active := aset (repeat_stop_active s) mc true |> else s
    else s.

Definition bl808_pwm_period_tick (now : Z) s (mc : Z) : BL808PWMState :=
  if negb (bl808_pwm_running s mc) then s
  else
    let s := set_sts s mc PWM_INT_PRDE in
    let s := bl808_pwm_raise_threshold_irqs s mc in
    let s := count_repeat s mc in
    bl808_pwm_reschedule now (bl808_pwm_update_irq s) mc.

(** The emulator runs the handler of a timer once its deadline is reached, and
    not always at the deadline itself: the handler reads the clock, [now], when
    it runs.  The timer is no longer armed then. *)
Definition bl808_pwm_expire (now : Z) s (mc : Z) : BL808PWMState :=
  match period_timer s !% mc with
  | None => s
  | Some _ => bl808_pwm_period_tick now (s <| period_timer := aset (period_timer s) mc None |>) mc
  end.

Definition bl808_pwm_decode_mc_offset (offset : Z) : option (Z * Z) :=
  if (PWM_MC_BASE 0 <=? offset) && (offset <? PWM_MC_BASE 0 + 0x30) then Some (0, offset - PWM_MC_BASE 0)
  else if (PWM_MC_BASE 1 <=? offset) && (offset <? PWM_MC_BASE 1 + 0x30) then Some (1, offset - PWM_MC_BASE 1)
  else None.

Definition is_thre (rel : Z) : bool := (rel =? 0x10) || (rel =? 0x14) || (rel =? 0x18) || (rel =? 0x1C).

Definition bl808_pwm_read s (offset size : Z) : Z :=
  if offset =? PWM_INT_CONFIG then bl808_pwm_int_config_read s
  else match bl808_pwm_decode_mc_offset offset with
  | None => 0
  | Some (mc, rel) =>
      if rel =? 0x00 then bl808_pwm_cfg0_read s mc
      else if rel =? 0x04 then mc_config1 s !% mc
      else if rel =? 0x08 then mc_period s !% mc
      else if rel =? 0x0C then mc_dead_time s !% mc
      else if is_thre rel then (mc_thre s !% mc) !% ((rel - 0x10) / 4)
      else if rel =? 0x20 then mc_int_sts s !% mc
      else if rel =? 0x24 then mc_int_mask s !% mc
      else if rel =? 0x2C then mc_int_en s !% mc
      else 0
  end.

Definition bl808_pwm_clear_all (now : Z) s (mc : Z) : BL808PWMState :=
  let s := s <| mc_int_sts := aset (mc_int_sts s) mc 0 |> in
  if repeat_stop_active s !% mc then
    bl808_pwm_reschedule now (s <| repeat_stop_active := aset (repeat_stop_active s) mc false |>) mc
  else s.

(** Writes of a register of the controller [mc]; nothing at an undefined one. *)
Definition write_mc (now : Z) s (mc rel value : Z) : option BL808PWMState :=
  if rel =? 0x00 then
    let s := s <| mc_config0 := aset (mc_config0 s) mc (clr (u32 value) PWM_STS_STOP) |>
               <| repeat_count := aset (repeat_count s) mc 0 |> in
    Some (bl808_pwm_reschedule now s mc)
  else if rel =? 0x04 then Some (s <| mc_config1 := aset (mc_config1 s) mc (u32 value) |>)
  else if rel =? 0x08 then
    let s := s <| mc_period := aset (mc_period s) mc (u32 value) |>
               <| repeat_count := aset (repeat_count s) mc 0 |> in
    Some (bl808_pwm_reschedule now s mc)
  else if rel =? 0x0C then Some (s <| mc_dead_time := aset (mc_dead_time s) mc (u32 value) |>)
  else if is_thre rel then
    Some (s <| mc_thre := aset (mc_thre s) mc (aset (mc_thre s !% mc) ((rel - 0x10) / 4) (u32 value)) |>)
  else if rel =? 0x24 then Some (s <| mc_int_mask := aset (mc_int_mask s) mc (Z.land (u32 value) PWM_INT_ALL) |>)
  else if rel =? 0x28 then
    let cleared := Z.land (u32 value) PWM_INT_ALL in
    let s := s <| mc_int_sts := aset (mc_int_sts s) mc (clr (mc_int_sts s !% mc) cleared) |> in
    if tst cleared PWM_INT_REPT && repeat_stop_active s !% mc then
      Some (bl808_pwm_reschedule now (s <| repeat_stop_active := aset (repeat_stop_active s) mc false |>) mc)
    else Some s
  else if rel =? 0x2C then Some (s <| mc_int_en := aset (mc_int_en s) mc (Z.land (u32 value) PWM_INT_ALL) |>)
  else None.

Definition bl808_pwm_write (now : Z) s (offset value size : Z) : BL808PWMState :=
  if reset_asserted s then s
  else if offset =? PWM_INT_CONFIG then
    let s := if tst value (BIT 8) then bl808_pwm_clear_all now s 0 else s in
    let s := if tst value (BIT 9) then bl808_pwm_clear_all now s 1 else s in
    bl808_pwm_update_irq (s <| int_config := 0 |>)
  else match bl808_pwm_decode_mc_offset offset with
  | None => s
  | Some (mc, rel) =>
      match write_mc now s mc rel value with Some s => bl808_pwm_update_irq s | None => s end
  end.

Definition reset_mc s (mc : Z) : BL808PWMState :=
  s <| mc_config0 := aset (mc_config0 s) mc (Z.lor PWM_STOP_MODE (Z.shiftl 0xF 20)) |>
    <| mc_config1 := aset (mc_config1 s) mc 0x00FF8888 |>
    <| mc_period := aset (mc_period s) mc 0 |>
    <| mc_dead_time := aset (mc_dead_time s) mc 0 |>
    <| mc_thre := aset (mc_thre s) mc (replicate 4 0) |>
    <| mc_int_sts := aset (mc_int_sts s) mc 0 |>
    <| mc_int_mask := aset (mc_int_mask s) mc PWM_INT_ALL |>
    <| mc_int_en := aset (mc_int_en s) mc PWM_INT_ALL |>
    <| repeat_count := aset (repeat_count s) mc 0 |>
    <| repeat_stop_active := aset (repeat_stop_active s) mc false |>
    <| period_timer := aset (period_timer s) mc None |>.

Definition bl808_pwm_reset s : BL808PWMState :=
  bl808_pwm_update_irq (foldl reset_mc (s <| int_config := 0 |>) (seqZ 0 BL808_PWM_MC_COUNT)).

Definition reschedule_all (now : Z) s : BL808PWMState :=
  foldl (bl808_pwm_reschedule now) s (seqZ 0 BL808_PWM_MC_COUNT).

Definition bl808_pwm_set_clock_enabled (now : Z) s (enabled : bool) : BL808PWMState :=
  bl808_pwm_update_irq (reschedule_all now (s <| clock_enabled := enabled |>)).

Definition bl808_pwm_set_reset_asserted `{!ColdReset bl808_pwm_reset} (now : Z) s (asserted : bool) : BL808PWMState :=
  let s := s <| reset_asserted := asserted |> in
  bl808_pwm_update_irq (if asserted then device_cold_reset s else reschedule_all now s).

Definition bl808_pwm_init s : BL808PWMState := s <| clock_enabled := true |>.

End BL808PWM.
