(* ===== verification/PwmSpec.v ===== *)
(** * The periods of the PWM controller

    [pwm_periods]: a running controller of [Pwm] ends each period one period after
    the handler of the end before ran, and one that stops on repeat stops after
    the repeat count.
    [period_ns_exact]: the 64-bit arithmetic of the period does not overflow. *)

From S2P Require Import Prelude Qemu Pwm.
From stdpp Require Import prelude list.
From Stdlib Require Import ZArith Lia.
Import BL808PWM.
Local Open Scope Z_scope.

Implicit Types s : BL808PWMState.

(** ** The length of a period *)

(** The number of ticks of the source clock in a period. *)
Definition ticks s (mc : Z) : Z :=
  (mc_config0 s !% mc mod 2 ^ 16 + 1) * (mc_period s !% mc mod 2 ^ 16 + 1).

(** Their time in ns, rounded up. *)
Definition period s (mc : Z) : Z :=
  (ticks s mc * 1000000000 + bl808_pwm_base_hz s mc - 1) / bl808_pwm_base_hz s mc.

Lemma low16 x : Z.land x 0xFFFF = x mod 2 ^ 16.
Proof. change 0xFFFF with (Z.ones 16). by rewrite Z.land_ones by lia. Qed.

Lemma base_hz_range s mc : 32000 ≤ bl808_pwm_base_hz s mc ≤ 40000000.
Proof. unfold bl808_pwm_base_hz. repeat (destruct (_ =? _)); lia. Qed.

Lemma ticks_range s mc : 1 ≤ ticks s mc ≤ 2 ^ 32.
Proof.
  unfold ticks. pose proof (Z.mod_pos_bound (mc_config0 s !% mc) (2 ^ 16) ltac:(lia)).
  pose proof (Z.mod_pos_bound (mc_period s !% mc) (2 ^ 16) ltac:(lia)). nia.
Qed.

Lemma period_range s mc : 25 ≤ period s mc.
Proof.
  unfold period. pose proof (ticks_range s mc). pose proof (base_hz_range s mc).
  apply Z.div_le_lower_bound; nia.
Qed.

(** The 64-bit arithmetic of the code does not overflow. *)
Lemma period_ns_exact s mc : bl808_pwm_period_ns s mc = period s mc.
Proof.
  unfold bl808_pwm_period_ns, period. cbv zeta. rewrite !low16. fold (ticks s mc).
  pose proof (ticks_range s mc) as Ht. pose proof (base_hz_range s mc) as Hb.
  rewrite (wrap_small 64 (ticks s mc)) by (unfold uint; lia).
  rewrite (wrap_small 64 (ticks s mc * 1000000000)) by (unfold uint; lia).
  rewrite (wrap_small 64 (_ + _)) by (unfold uint; lia).
  rewrite (wrap_small 64 (_ - 1)) by (unfold uint; lia). apply wrap_small. unfold uint. split.
  - apply Z.div_pos; lia.
  - apply Z.div_lt_upper_bound; nia.
Qed.

(** ** One period *)

Record sized s : Prop := {
  sz_timer : length (period_timer s) = 2%nat;
  sz_sts : length (mc_int_sts s) = 2%nat;
  sz_count : length (repeat_count s) = 2%nat;
  sz_stop : length (repeat_stop_active s) = 2%nat;
}.

(** What the end of a period leaves alone. *)
Record kept s s' : Prop := {
  ke_config0 : mc_config0 s' = mc_config0 s;
  ke_config1 : mc_config1 s' = mc_config1 s;
  ke_period : mc_period s' = mc_period s;
  ke_thre : mc_thre s' = mc_thre s;
  ke_clock : clock_enabled s' = clock_enabled s ∧ reset_asserted s' = reset_asserted s;
}.

Lemma kept_refl s : kept s s.
Proof. by split. Qed.
#[local] Hint Resolve kept_refl : core.

Lemma pwm_kept_trans s1 s2 s3 : kept s1 s2 → kept s2 s3 → kept s1 s3.
Proof. intros [] []. split; intuition congruence. Qed.

Lemma kept_period s s' mc : kept s s' → period s' mc = period s mc.
Proof. intros [H1 _ H2 _ _]. unfold period, ticks, bl808_pwm_base_hz. by rewrite H1, H2. Qed.

(** A step that only raises interrupts of [mc]. *)
Record raises (mc : Z) s s' : Prop := {
  ra_kept : kept s s';
  ra_count : repeat_count s' = repeat_count s;
  ra_stop : repeat_stop_active s' = repeat_stop_active s;
  ra_timer : period_timer s' = period_timer s;
  ra_len : length (mc_int_sts s') = length (mc_int_sts s);
  ra_sts n : 0 ≤ n → Z.testbit (mc_int_sts s !% mc) n = true → Z.testbit (mc_int_sts s' !% mc) n = true;
}.

Lemma raises_refl mc s : raises mc s s.
Proof. by split. Qed.

Lemma raises_trans mc s1 s2 s3 : raises mc s1 s2 → raises mc s2 s3 → raises mc s1 s3.
Proof. intros [K1 ? ? ? ? H1] [K2 ? ? ? ? H2]. split; [by eapply pwm_kept_trans|congruence..|]. eauto. Qed.

Lemma set_sts_raises mc s bits : 0 ≤ mc < Z.of_nat (length (mc_int_sts s)) → raises mc s (set_sts s mc bits).
Proof.
  intros Hm. split; try done; [apply aset_length|]. intros n Hn Hb.
  unfold set_sts. cbn [mc_int_sts set_field]. by rewrite aget_aset_eq, Z.lor_spec, Hb by lia.
Qed.

Lemma set_sts_bit mc s n : 0 ≤ mc < Z.of_nat (length (mc_int_sts s)) → 0 ≤ n →
  Z.testbit (mc_int_sts (set_sts s mc (BIT n)) !% mc) n = true.
Proof.
  intros Hm Hn. unfold set_sts. cbn [mc_int_sts set_field]. rewrite aget_aset_eq, Z.lor_spec, BIT_spec by lia.
  by rewrite Z.eqb_refl, orb_true_r.
Qed.

Lemma threshold_raises mc s ch : 0 ≤ mc < Z.of_nat (length (mc_int_sts s)) → raises mc s (raise_threshold s mc ch).
Proof.
  intros Hm. unfold raise_threshold. destruct (negb (tst _ _)); [apply raises_refl|].
  set (s1 := if negb (Z.land _ _ =? 0) then _ else s).
  assert (raises mc s s1) as H1 by (unfold s1; destruct (negb _); [by apply set_sts_raises|apply raises_refl]).
  clearbody s1. destruct (negb _); [|done]. eapply raises_trans; [exact H1|]. apply set_sts_raises.
  by rewrite (ra_len _ _ _ H1).
Qed.

Lemma thresholds_raise mc s : 0 ≤ mc < Z.of_nat (length (mc_int_sts s)) → raises mc s (bl808_pwm_raise_threshold_irqs s mc).
Proof.
  unfold bl808_pwm_raise_threshold_irqs. generalize (seqZ 0 4). intros l. revert s.
  induction l as [|ch l IH]; intros s Hm; [apply raises_refl|]. cbn [foldl].
  pose proof (threshold_raises mc s ch Hm) as H1. eapply raises_trans; [exact H1|]. apply IH.
  by rewrite (ra_len _ _ _ H1).
Qed.

Lemma irq_raises mc s : raises mc s (bl808_pwm_update_irq s).
Proof. by split. Qed.

(** The repeat count that stops the controller, if it is to stop. *)
Definition target s (mc : Z) : Z := Z.shiftr (mc_period s !% mc) 16.
Definition stops s (mc : Z) : bool := tst (mc_config0 s !% mc) PWM_STOP_ON_REPT.

(** The repeat counter after another period, and whether it is the last. *)
Definition last_period s (mc : Z) : bool := negb (target s mc =? 0) && (target s mc <=? repeat_count s !% mc + 1).

Record counted (mc : Z) s s' : Prop := {
  cd_kept : kept s s';
  cd_timer : period_timer s' = period_timer s;
  cd_sized : sized s → sized s';
  cd_count : repeat_count s' !% mc = if target s mc =? 0 then repeat_count s !% mc
                                     else if last_period s mc then 0 else repeat_count s !% mc + 1;
  cd_stop : repeat_stop_active s' !% mc = repeat_stop_active s !% mc || (last_period s mc && stops s mc);
  cd_sts n : 0 ≤ n → Z.testbit (mc_int_sts s !% mc) n = true → Z.testbit (mc_int_sts s' !% mc) n = true;
  cd_rept : last_period s mc = true → Z.testbit (mc_int_sts s' !% mc) 10 = true;
}.

Lemma count_spec mc s : sized s → 0 ≤ mc < 2 → 0 ≤ repeat_count s !% mc < 2 ^ 16 → counted mc s (count_repeat s mc).
Proof.
  intros [Z1 Z2 Z3 Z4] Hm Hr. unfold count_repeat. fold (target s mc). unfold last_period.
  destruct (target s mc =? 0) eqn:Et; cbv zeta.
  { split; try done; unfold last_period; rewrite Et; try done. by rewrite orb_false_r. }
  cbn [repeat_count set_field]. rewrite aget_aset_eq by lia.
  rewrite (wrap_small 32) by (unfold uint; lia).
  destruct (target s mc <=? repeat_count s !% mc + 1) eqn:El.
  2: { split; try done; unfold last_period; rewrite ?Et, ?El; cbn [negb andb]; try done.
       - intros []. split; try done. cbn. by rewrite aset_length.
       - cbn. by rewrite aget_aset_eq by lia.
       - by rewrite orb_false_r. }
  set (s1 := s <| repeat_count := _ |> <| repeat_count := _ |>).
  assert (sized s1) as Hs1 by (split; try done; cbn; by rewrite !aset_length).
  assert (kept s s1 ∧ period_timer s1 = period_timer s ∧ repeat_count s1 !% mc = 0 ∧
          repeat_stop_active s1 = repeat_stop_active s ∧ mc_int_sts s1 = mc_int_sts s) as (K1 & T1 & C1 & S1 & I1).
  { split_and!; try done. cbn. rewrite aget_aset_eq; [done|]. rewrite aset_length. lia. }
  clearbody s1. pose proof (set_sts_raises mc s1 PWM_INT_REPT ltac:(rewrite I1; lia)) as [R1 R2 R3 R4 R5 R6].
  pose proof (set_sts_bit mc s1 10 ltac:(rewrite I1; lia) ltac:(lia)) as Hb. fold PWM_INT_REPT in Hb.
  revert R1 R2 R3 R4 R5 R6 Hb. generalize (set_sts s1 mc PWM_INT_REPT). intros s2 R1 R2 R3 R4 R5 R6 Hb.
  assert (sized s2) as Hs2 by (destruct Hs1; split; congruence).
  assert (kept s s2) as K2 by (by eapply pwm_kept_trans).
  assert (tst (mc_config0 s2 !% mc) PWM_STOP_ON_REPT = stops s mc) as ->.
  { unfold stops. by rewrite (ke_config0 _ _ K2). }
  rewrite I1 in R6. destruct (stops s mc) eqn:Ep.
  - split; unfold last_period; rewrite ?Et, ?El, ?Ep; cbn [negb andb]; try done.
    + eapply pwm_kept_trans; [exact K2|by split].
    + cbn. congruence.
    + intros _. destruct Hs2. split; try done. cbn. by rewrite aset_length.
    + cbn. by rewrite R2.
    + cbn. rewrite aget_aset_eq by (rewrite R3, S1; lia). by rewrite orb_true_r.
  - split; unfold last_period; rewrite ?Et, ?El, ?Ep; cbn [negb andb]; try done.
    + congruence.
    + by rewrite R2.
    + by rewrite R3, S1, orb_false_r.
Qed.

Lemma kept_running s s' mc : kept s s' → repeat_stop_active s' !% mc = repeat_stop_active s !% mc →
  bl808_pwm_running s' mc = bl808_pwm_running s mc.
Proof. intros [H1 _ _ _ [H2 H3]] Hs. unfold bl808_pwm_running. by rewrite H1, H2, H3, Hs. Qed.

(** What the end of a period at [now] does. *)
Record ticked (now mc : Z) s s' : Prop := {
  tk_kept : kept s s';
  tk_sized : sized s';
  tk_count : repeat_count s' !% mc = if target s mc =? 0 then repeat_count s !% mc
                                     else if last_period s mc then 0 else repeat_count s !% mc + 1;
  tk_running : bl808_pwm_running s' mc = negb (last_period s mc && stops s mc);
  tk_timer : period_timer s' !% mc = if last_period s mc && stops s mc then None else Some (now + period s mc);
  tk_sts n : 0 ≤ n → Z.testbit (mc_int_sts s !% mc) n = true → Z.testbit (mc_int_sts s' !% mc) n = true;
  tk_prde : Z.testbit (mc_int_sts s' !% mc) 8 = true;
  tk_rept : last_period s mc = true → Z.testbit (mc_int_sts s' !% mc) 10 = true;
}.

Lemma kept_last s s' mc : kept s s' → repeat_count s' = repeat_count s → last_period s' mc = last_period s mc.
Proof. intros [_ _ H _ _] Hc. unfold last_period, target. by rewrite H, Hc. Qed.

Lemma tick_spec now mc s : sized s → 0 ≤ mc < 2 → 0 ≤ repeat_count s !% mc < 2 ^ 16 → bl808_pwm_running s mc = true →
  ticked now mc s (bl808_pwm_period_tick now s mc).
Proof.
  intros Hs Hm Hc Hr. pose proof Hs as [Z1 Z2 Z3 Z4]. unfold bl808_pwm_period_tick. rewrite Hr. cbn [negb].
  pose proof (set_sts_raises mc s PWM_INT_PRDE ltac:(lia)) as R1. pose proof (set_sts_bit mc s 8 ltac:(lia) ltac:(lia)) as P1.
  fold PWM_INT_PRDE in P1. revert R1 P1. generalize (set_sts s mc PWM_INT_PRDE). intros s1 R1 P1.
  pose proof (thresholds_raise mc s1 ltac:(rewrite (ra_len _ _ _ R1); lia)) as R2.
  pose proof (ra_sts _ _ _ R2 8 ltac:(lia) P1) as P2. pose proof (raises_trans _ _ _ _ R1 R2) as R. clear R1 R2 P1.
  revert R P2. generalize (bl808_pwm_raise_threshold_irqs s1 mc). intros s2 [K2 C2 S2 T2 L2 B2] P2.
  assert (sized s2) as Hs2 by (split; congruence).
  pose proof (count_spec mc s2 Hs2 Hm ltac:(by rewrite C2)) as [K3 T3 Z3' C3 S3 B3 R3].
  assert (target s2 mc = target s mc ∧ stops s2 mc = stops s mc) as [Et Ep].
  { unfold target, stops. by rewrite (ke_period _ _ K2), (ke_config0 _ _ K2). }
  rewrite (kept_last s s2), ?Et, ?Ep, ?C2, ?S2 in * by done.
  pose proof (Z3' Hs2) as Hs3. revert Hs3 K3 T3 C3 S3 B3 R3. generalize (count_repeat s2 mc). intros s3 Hs3 K3 T3 C3 S3 B3 R3.
  assert (kept s s3) as K by (by eapply pwm_kept_trans).
  destruct (irq_raises mc s3) as [K4 C4 S4 T4 L4 B4]. assert (mc_int_sts (bl808_pwm_update_irq s3) = mc_int_sts s3) as I4 by done.
  revert K4 C4 S4 T4 L4 B4 I4. generalize (bl808_pwm_update_irq s3). intros s4 K4 C4 S4 T4 _ _ I4.
  assert (kept s s4) as K' by (by eapply pwm_kept_trans).
  assert (sized s4) as Hs4 by (destruct Hs3; split; congruence).
  assert (bl808_pwm_running s4 mc = negb (last_period s mc && stops s mc)) as Hrun.
  { unfold bl808_pwm_running in *. rewrite (ke_config0 _ _ K'), (proj1 (ke_clock _ _ K')), (proj2 (ke_clock _ _ K')), S4, S3.
    destruct (clock_enabled s), (reset_asserted s), (repeat_stop_active s !% mc), (tst _ PWM_STOP_EN),
      (last_period s mc), (stops s mc); done. }
  assert (∀ n, 0 ≤ n → Z.testbit (mc_int_sts s !% mc) n = true → Z.testbit (mc_int_sts s4 !% mc) n = true) as Hb.
  { intros n Hn Hx. rewrite I4. by apply B3, B2. }
  assert (∀ x, ticked now mc s (s4 <| period_timer := aset (period_timer s4) mc x |>) ↔
    x = if last_period s mc && stops s mc then None else Some (now + period s mc)) as Hfin.
  { intros x. split.
    - intros [_ _ _ _ Ht _ _ _]. cbn in Ht. by rewrite aget_aset_eq in Ht by (destruct Hs4; lia).
    - intros ->. split; try done.
      + eapply pwm_kept_trans; [exact K'|by split].
      + destruct Hs4. split; try done. cbn. by rewrite aset_length.
      + cbn. by rewrite C4.
      + cbn. by rewrite aget_aset_eq by (destruct Hs4; lia).
      + cbn. rewrite I4. by apply B3.
      + cbn. by rewrite I4. }
  unfold bl808_pwm_reschedule. rewrite Hrun, negb_involutive, period_ns_exact, (kept_period s s4) by done.
  pose proof (period_range s mc). rewrite Z.max_r by lia.
  destruct (last_period s mc && stops s mc); by apply Hfin.
Qed.

(** ** Time passing *)

(** The next ends of periods, each handled [d] ns after its deadline for the next
    [d] of [late]: the times the handler runs, and the state after them. *)
Fixpoint pwm_ends (late : list Z) s (mc : Z) : list Z * BL808PWMState :=
  match late with
  | [] => ([], s)
  | d :: late =>
      match period_timer s !% mc with
      | Some t => let now := t + d in
                  let '(ts, s) := pwm_ends late (bl808_pwm_expire now s mc) mc in (now :: ts, s)
      | None => ([], s)
      end
  end.

Definition total (l : list Z) : Z := foldr Z.add 0 l.

(** The controller runs and its period ends at [t]. *)
Record armed s (mc t : Z) : Prop := {
  ar_sized : sized s;
  ar_running : bl808_pwm_running s mc = true;
  ar_timer : period_timer s !% mc = Some t;
  ar_period : uint 32 (mc_period s !% mc);
  ar_count : 0 ≤ repeat_count s !% mc < Z.max 1 (target s mc);
}.

(** The periods until the controller stops by itself. *)
Definition left s (mc : Z) : option Z :=
  if negb (target s mc =? 0) && stops s mc then Some (target s mc - repeat_count s !% mc) else None.

Lemma target_range s mc : uint 32 (mc_period s !% mc) → 0 ≤ target s mc < 2 ^ 16.
Proof.
  unfold uint, target. intros H. rewrite Z.shiftr_div_pow2 by lia. split; [apply Z.div_pos; lia|].
  apply Z.div_lt_upper_bound; lia.
Qed.

Lemma expire_ticked now s mc t : armed s mc t → 0 ≤ mc < 2 → ticked now mc s (bl808_pwm_expire now s mc).
Proof.
  intros [Hs Hr Ht Hp Hc] Hm. unfold bl808_pwm_expire. rewrite Ht.
  set (s1 := s <| period_timer := _ |>). pose proof (target_range s mc Hp).
  assert (sized s1) as Hs1 by (destruct Hs; split; try done; cbn; by rewrite aset_length).
  pose proof (tick_spec now mc s1 Hs1 Hm ltac:(change (repeat_count s1) with (repeat_count s); lia) Hr) as [].
  split; try done. by eapply pwm_kept_trans; [|exact tk_kept0]; split.
Qed.

(** One period further, if the controller does not stop. *)
Lemma ticked_armed now s s' mc t : armed s mc t → ticked now mc s s' → last_period s mc && stops s mc = false →
  armed s' mc (now + period s mc) ∧ left s' mc = (λ l, l - 1) <$> left s mc ∧ period s' mc = period s mc.
Proof.
  intros [Hs Hr Ht Hp Hc] [K Z C R T _ _ _] Hl. rewrite Hl in R, T.
  assert (target s' mc = target s mc ∧ stops s' mc = stops s mc) as [Et Ep].
  { unfold target, stops. by rewrite (ke_period _ _ K), (ke_config0 _ _ K). }
  split_and!; [split; try done| |by apply kept_period].
  - by rewrite (ke_period _ _ K).
  - rewrite Et, C. unfold last_period. destruct (Z.eqb_spec (target s mc) 0); cbn [negb andb]; [done|].
    destruct (Z.leb_spec (target s mc) (repeat_count s !% mc + 1)); lia.
  - unfold left. rewrite Et, Ep, C. unfold last_period in *. destruct (target s mc =? 0); cbn [negb andb] in *; [done|].
    destruct (target s mc <=? repeat_count s !% mc + 1), (stops s mc); cbn in *; try done. f_equal. lia.
Qed.

(** The controller has stopped by the time it has ended [n] periods. *)
Definition stopped_by (l : option Z) (n : Z) : bool := match l with Some l => l <=? n | None => false end.
Definition ended_by (l : option Z) (n : Z) : Z := match l with Some l => Z.min n l | None => n end.

Lemma left_last s mc t : armed s mc t →
  match left s mc with
  | Some l => 1 ≤ l ∧ (last_period s mc && stops s mc = (l =? 1))
  | None => last_period s mc && stops s mc = false
  end.
Proof.
  intros [_ _ _ Hp Hc]. pose proof (target_range s mc Hp). unfold left, last_period.
  destruct (Z.eqb_spec (target s mc) 0), (stops s mc); cbn [negb andb]; try done; [|by rewrite andb_false_r].
  split; [lia|]. rewrite andb_true_r. destruct (Z.leb_spec (target s mc) (repeat_count s !% mc + 1));
    destruct (Z.eqb_spec (target s mc - repeat_count s !% mc) 1); done || lia.
Qed.

(** The times of [m] ends, [P] apart but for the lateness of the handlers. *)
Definition end_times (t0 P : Z) (late : list Z) (m : nat) : list Z :=
  (λ i, t0 + Z.of_nat i * P + total (take i late)) <$> seq 1 m.

Lemma end_times_cons t0 P d late m :
  end_times t0 P (d :: late) (S m) = t0 + P + d :: end_times (t0 + P + d) P late m.
Proof.
  unfold end_times. cbn [seq fmap list_fmap]. f_equal; [simpl; lia|].
  rewrite <- (fmap_S_seq 1), <- list_fmap_compose. apply list_fmap_ext. intros i x _. unfold compose, total. cbn [take foldr]. lia.
Qed.

(** The number of ends among [n] that leaves the controller running or stopped. *)
Lemma left_step s mc s1 t t' : armed s mc t → armed s1 mc t' → left s1 mc = (λ l, l - 1) <$> left s mc →
  ∀ n, 0 ≤ n → ended_by (left s mc) (n + 1) = ended_by (left s1 mc) n + 1 ∧
    stopped_by (left s mc) (n + 1) = stopped_by (left s1 mc) n ∧ 0 ≤ ended_by (left s1 mc) n.
Proof.
  intros Ha _ Hl1 n Hn. pose proof (left_last _ _ _ Ha) as Hl. rewrite Hl1. destruct (left s mc) as [l|]; cbn; [|lia].
  split_and!; [lia| |destruct Hl; lia]. destruct (Z.leb_spec l (n + 1)), (Z.leb_spec (l - 1) n); done || lia.
Qed.

(** The ends of the last period: nothing follows. *)
Lemma ends_stopped late s mc : period_timer s !% mc = None → pwm_ends late s mc = ([], s).
Proof. intros Ht. destruct late; cbn [pwm_ends]; [done|]. by rewrite Ht. Qed.

(** The ends of the periods, and the interrupt bits that stay up. *)
Lemma ends_spec late s mc t0 :
  0 ≤ mc < 2 → armed s mc (t0 + period s mc) →
  let P := period s mc in let n := Z.of_nat (length late) in let m := ended_by (left s mc) n in
  let '(ts, s') := pwm_ends late s mc in
  ts = end_times t0 P late (Z.to_nat m) ∧
  bl808_pwm_running s' mc = negb (stopped_by (left s mc) n) ∧
  period_timer s' !% mc =
    (if stopped_by (left s mc) n then None else Some (t0 + (m + 1) * P + total (take (Z.to_nat m) late))) ∧
  (∀ k, 0 ≤ k → Z.testbit (mc_int_sts s !% mc) k = true → Z.testbit (mc_int_sts s' !% mc) k = true) ∧
  (0 < m → Z.testbit (mc_int_sts s' !% mc) 8 = true) ∧
  (target s mc ≠ 0 → target s mc - repeat_count s !% mc ≤ m → Z.testbit (mc_int_sts s' !% mc) 10 = true).
Proof.
  intros Hm. revert s t0. induction late as [|d late IH]; intros s t0 Ha; cbv zeta.
  all: pose proof (period_range s mc) as HP; pose proof (left_last _ _ _ Ha) as Hl;
    pose proof (target_range s mc (ar_period _ _ _ Ha)) as Htr; pose proof (ar_count _ _ _ Ha) as Hcr.
  { cbn [pwm_ends length]. change (Z.of_nat 0) with 0.
    assert (ended_by (left s mc) 0 = 0 ∧ stopped_by (left s mc) 0 = false) as [-> ->].
    { destruct (left s mc); cbn in *; lia. }
    split_and!; [reflexivity|exact (ar_running _ _ _ Ha)| |by intros k _ Hx|intros Hz; clear -Hz; lia|].
    - rewrite (ar_timer _ _ _ Ha). f_equal. rewrite take_nil. cbn [total foldr]. lia.
    - intros Ht1 Ht2. clear -Hcr Htr Ht1 Ht2. lia. }
  cbn [pwm_ends length]. rewrite (ar_timer _ _ _ Ha). set (now := t0 + period s mc + d).
  replace (Z.of_nat (S (length late))) with (Z.of_nat (length late) + 1) by lia.
  set (n := Z.of_nat (length late)) in *. assert (0 ≤ n) as Hn0 by lia.
  pose proof (expire_ticked now _ _ _ Ha Hm) as Hk. revert Hk. generalize (bl808_pwm_expire now s mc). intros s1 Hk.
  destruct (last_period s mc && stops s mc) eqn:Els.
  - (* the last period *)
    assert (left s mc = Some 1) as Hl1.
    { destruct (left s mc) as [l|]; [|done]. destruct Hl as [_ Hl]. symmetry in Hl. apply Z.eqb_eq in Hl. by subst. }
    rewrite Hl1. cbn [ended_by stopped_by]. rewrite Z.min_r, (proj2 (Z.leb_le 1 _)) by lia.
    rewrite ends_stopped by (by rewrite (tk_timer _ _ _ _ Hk), Els).
    split_and!.
    + change (Z.to_nat 1) with 1%nat. by rewrite end_times_cons.
    + by rewrite (tk_running _ _ _ _ Hk), Els.
    + by rewrite (tk_timer _ _ _ _ Hk), Els.
    + apply (tk_sts _ _ _ _ Hk).
    + intros _. apply (tk_prde _ _ _ _ Hk).
    + intros _ _. apply (tk_rept _ _ _ _ Hk). by apply andb_true_iff in Els as [-> _].
  - destruct (ticked_armed _ _ _ _ _ Ha Hk Els) as (Ha1 & Hl1 & Hp1). rewrite <- Hp1 in Ha1.
    destruct (left_step _ _ _ _ _ Ha Ha1 Hl1 n Hn0) as (E1 & E2 & E3).
    specialize (IH s1 now Ha1). rewrite Hp1 in *. cbv zeta in IH. destruct (pwm_ends late s1 mc) as [ts s2].
    destruct IH as (I1 & I2 & I3 & I4 & I5 & I6). rewrite E1, E2.
    replace (Z.to_nat (ended_by (left s1 mc) n + 1)) with (S (Z.to_nat (ended_by (left s1 mc) n))) by lia.
    split_and!.
    + rewrite I1, end_times_cons. done.
    + exact I2.
    + rewrite I3. destruct (stopped_by _ _); [done|]. f_equal. cbn [take total foldr]. unfold now, total. lia.
    + intros k Hk0 Hb. apply I4; [done|]. by apply (tk_sts _ _ _ _ Hk).
    + intros _. apply I4; [lia|]. apply (tk_prde _ _ _ _ Hk).
    + intros Ht Hc. destruct (last_period s mc) eqn:Elp.
      * apply I4; [lia|]. by apply (tk_rept _ _ _ _ Hk).
      * pose proof (tk_count _ _ _ _ Hk) as C. rewrite Elp in C.
        assert (target s1 mc = target s mc) as Et by (unfold target; by rewrite (ke_period _ _ (tk_kept _ _ _ _ Hk))).
        rewrite (proj2 (Z.eqb_neq _ _) Ht) in C. apply I6; rewrite Et; [done|]. rewrite C. lia.
Qed.

(** With handlers that run at their deadlines the ends are the multiples of the
    period. *)
Lemma end_times_punctual t0 P late m :
  Forall (λ d, d = 0) late → end_times t0 P late m = (λ i, t0 + Z.of_nat i * P) <$> seq 1 m.
Proof.
  intros Hl. apply list_fmap_ext. intros _ i _.
  assert (∀ l, Forall (λ d, d = 0) l → total l = 0) as Ht by (induction 1; simpl; lia).
  rewrite Ht; [lia|]. by apply Forall_take.
Qed.

(** C34: the PWM counts its periods.  Take a state in which a controller runs and
    its next period ends at [t0 + P], where [P] is the length of the period in
    nanoseconds, rounded up, and let the emulator run the handlers of the next
    ends, each some [d >= 0] ns after its deadline (the list [late]), with no
    register written meanwhile.  Then the
    handlers run at [t0 + i P] plus the latenesses so far, for [i] = 1, 2 and so
    on: with punctual handlers ([end_times_punctual]) at the multiples of [P],
    and otherwise every lateness delays all later ends too, because the handler
    starts the next period from the time it runs.  A controller that stops on
    repeat handles exactly the ends the repeat count still asks for and is then
    stopped with its timer off; otherwise its timer stands at the next end.  Every
    end raises the period interrupt, and the repeat interrupt is up from the end
    that completes the count. *)
Theorem pwm_periods s mc t0 late :
  0 ≤ mc < 2 → armed s mc (t0 + period s mc) → Forall (λ d, 0 ≤ d) late →
  let P := period s mc in let n := Z.of_nat (length late) in let m := ended_by (left s mc) n in
  let '(ts, s') := pwm_ends late s mc in
  ts = (λ i, t0 + Z.of_nat i * P + total (take i late)) <$> seq 1 (Z.to_nat m) ∧
  bl808_pwm_running s' mc = negb (stopped_by (left s mc) n) ∧
  period_timer s' !% mc =
    (if stopped_by (left s mc) n then None else Some (t0 + (m + 1) * P + total (take (Z.to_nat m) late))) ∧
  (0 < m → Z.testbit (mc_int_sts s' !% mc) 8 = true) ∧
  (target s mc ≠ 0 → target s mc - repeat_count s !% mc ≤ m → Z.testbit (mc_int_sts s' !% mc) 10 = true).
Proof.
  intros Hm Ha _. cbv zeta. pose proof (ends_spec late s mc t0 Hm Ha) as H. cbv zeta in H.
  destruct (pwm_ends late s mc) as [ts s']. destruct H as (H1 & H2 & H3 & _ & H4 & H5). by split_and!.
Qed.

(** ** On concrete states *)

Module PwmDemo.

Definition blank : BL808PWMState :=
  mk_pwm false [None; None] 0 [0; 0] [0; 0] [0; 0] [0; 0] [replicate 4 0; replicate 4 0] [0; 0] [0; 0] [0; 0] [0; 0]
    false false [false; false].

(** After a reset a controller reports that it runs, and its timer is off. *)
Lemma pwm_reset_not_armed :
  let s := bl808_pwm_reset (bl808_pwm_init blank) in
  bl808_pwm_running s 0 = true ∧ tst (bl808_pwm_read s (PWM_MC_BASE 0) 4) PWM_STS_STOP = false ∧
  period_timer s !% 0 = None.
Proof. by vm_compute. Qed.

(** Three periods of 10 ticks of 40 MHz, then a stop; written at 1000 ns. *)
Notation pulse :=
  (bl808_pwm_write 1000 (bl808_pwm_write 900 (bl808_pwm_reset (bl808_pwm_init blank)) 0x48 (Z.lor (Z.shiftl 3 16) 9) 4)
     0x40 PWM_STOP_ON_REPT 4).

Lemma pulse_armed : armed pulse 0 (1000 + period pulse 0).
Proof. split; [split; by vm_compute|by vm_compute|by vm_compute|by vm_compute|by vm_compute]. Qed.

Lemma pulse_period : period pulse 0 = 250.
Proof. by vm_compute. Qed.

Lemma pulse_left : left pulse 0 = Some 3.
Proof. by vm_compute. Qed.

Lemma pwm_periods_witness :
  armed pulse 0 (1000 + period pulse 0) ∧ (pwm_ends [0; 30; 5; 0] pulse 0).1 = [1250; 1530; 1785] ∧
  bl808_pwm_running (pwm_ends [0; 30; 5; 0] pulse 0).2 0 = false.
Proof.
  pose proof (pwm_periods pulse 0 1000 [0; 30; 5; 0] ltac:(lia) pulse_armed ltac:(repeat constructor; lia)) as H.
  rewrite pulse_period, pulse_left in H. cbv zeta in H.
  split; [exact pulse_armed|]. revert H. generalize (pwm_ends [0; 30; 5; 0] pulse 0). intros [ts s'] (-> & Hr & _).
  split; [reflexivity|exact Hr].
Defined.

(** The lateness of handlers adds up: free-running at 250 ns, with every handler
    10 ns late, the fourth end, due at 2000 ns, is handled at 2040 ns, and the
    timer stands at 2290 instead of 2250 ns. *)
Notation free_running :=
  (bl808_pwm_write 1000 (bl808_pwm_write 900 (bl808_pwm_reset (bl808_pwm_init blank)) 0x48 9 4) 0x40 0 4).

Lemma pwm_periods_drift :
  let r := pwm_ends (replicate 4 10) free_running 0 in
  r.1 = [1260; 1520; 1780; 2040] ∧ period_timer r.2 !% 0 = Some 2290.
Proof. by vm_compute. Qed.

End PwmDemo.
