(* ===== verification/Glb.v ===== *)
(** * The global control block ([qemu-machine/hw/misc/bl808_glb.c])

    Module [BL808GLB]: the register window, the pads of the general-purpose
    pins with their interrupts and the retained pads of the always-on domain, and
    the clients that follow clock gates, resets and clock settings.  The callbacks of
    the clients act on a world [W] and do not call back.  Arrays indexed by pin, and
    the 2048 registers, are functions.  Module [BL808Pads]: what the machine
    ([hw/riscv/bl808.c]) does with the pads. *)

From S2P Require Import Prelude Qemu.
From stdpp Require Import prelude list.
From Stdlib Require Import ZArith Lia.
Local Open Scope Z_scope.

Module BL808GLB.

Definition BL808_GLB_GPIO_PINS := 46.
Definition GLB_REG_COUNT := 2048.
Definition GLB_GPIO_CFG_BASE := 0x8C4.
Definition GLB_GPIO_PINS := BL808_GLB_GPIO_PINS.
Definition GLB_MAX_HOOKS : nat := 48.
Definition GLB_INVALID_OFFSET := 2 ^ 64 - 1.
Definition GLB_F32K_HZ := 32768.
Definition GLB_F32K_PERIOD_NS := (1000000000 + GLB_F32K_HZ - 1) / GLB_F32K_HZ.

Definition GPIO_IE := BIT 0.
Definition GPIO_SMT := BIT 1.
Definition GPIO_PU := BIT 4.
Definition GPIO_PD := BIT 5.
Definition GPIO_OE := BIT 6.
Definition GPIO_INT_CLR := BIT 20.
Definition GPIO_INT_STAT := BIT 21.
Definition GPIO_INT_MASK := BIT 22.
Definition GPIO_O := BIT 24.
Definition GPIO_SET := BIT 25.
Definition GPIO_CLR := BIT 26.
Definition GPIO_I := BIT 28.
Definition GPIO_FUNC_SHIFT := 8.
Definition GPIO_FUNC_MASK := 0x1F.
Definition GPIO_INT_MODE_SHIFT := 16.
Definition GPIO_INT_MODE_MASK := 0xF.
Definition GPIO_SWGPIO_FUNC := 11.

Definition GLB_UART_CFG0 := 0x150.
Definition GLB_DMA_CFG0 := 0x130.
Definition GLB_EMI_CFG0 := 0x0E0.
Definition GLB_I2C_CFG0 := 0x180.
Definition GLB_SPI_CFG0 := 0x1B0.
Definition GLB_SYS_CFG0 := 0x090.
Definition GLB_SYS_CFG1 := 0x094.
Definition GLB_DIG_CLK_CFG1 := 0x254.
Definition GLB_WIFI_PLL_CFG0 := 0x810.
Definition GLB_WIFI_PLL_CFG1 := 0x814.
Definition GLB_WIFI_PLL_CFG5 := 0x824.
Definition GLB_WIFI_PLL_CFG6 := 0x828.
Definition GLB_WIFI_PLL_CFG8 := 0x830.
Definition GLB_SWRST_CFG1 := 0x544.
Definition GLB_SWRST_CFG2 := 0x548.
Definition GLB_CGEN_CFG1 := 0x584.
Definition GLB_CGEN_CFG2 := 0x588.

Definition MM_CLK_CTRL_CPU := 0x00.
Definition MM_CLK_CPU := 0x04.
Definition MM_CLK_CTRL_PERI := 0x10.
Definition MM_CLK_CTRL_PERI3 := 0x18.
Definition MM_SW_RESET_PERI := 0x44.

Definition GLB_REG_BCLK_DIV_ACT_PULSE := BIT 0.
Definition GLB_STS_BCLK_PROT_DONE := BIT 2.
Definition GLB_REG_PICO_CLK_DIV_ACT_PULSE := BIT 16.
Definition GLB_STS_PICO_CLK_PROT_DONE := BIT 18.
Definition MM_GLB_REG_BCLK2X_DIV_ACT_PULSE := BIT 18.
Definition MM_GLB_STS_BCLK2X_PROT_DONE := BIT 20.
Definition GLB_SWRST_CFG2_CHIP_RESET := BIT 5.

(** ** State *)

Section state.
Context {W : Type}.

(** A free slot is [None].  The callbacks have their argument [opaque] bound. *)
Record BL808GLBHook := mk_hook {
  gate_offset : Z;                              (* hwaddr *)
  gate_mask : Z;                                (* uint32_t *)
  reset_offset : Z;
  reset_mask : Z;
  config_offset : Z;
  clock_enable : option (bool → W → W);
  reset_assert : option (bool → W → W);
  clock_config_update : option (Z → Z → W → W);
}.

(** A call of [qemu_set_irq] on the level line of a pin, or on the interrupt lines. *)
Inductive line_call :=
  | LevelLine (pin : Z) (level : bool)
  | IrqLines (level : bool).

Record BL808GLBState := mk_glb {
  irq : list bool;                  (* levels last passed to qemu_set_irq *)
  calls : list line_call;           (* such calls, the newest first *)
  gpio_out : Z → bool;
  gpio_level : Z → bool;
  gpio_sample_timer : option Z;     (* deadline, in ns of virtual time *)
  regs : Z → Z;                     (* uint32_t [GLB_REG_COUNT] *)
  hooks : list (option BL808GLBHook);
  gpio_sample_history : Z → Z;      (* uint8_t *)
  gpio_input : Z → bool;
  gpio_input_driven : Z → bool;
  gpio_output : Z → bool;
  aon_hw_ctrl : Z → bool;
  aon_hw_oe : Z → bool;
  aon_hw_pu : Z → bool;
  aon_hw_pd : Z → bool;
  aon_retained_output : Z → bool;
  aon_retained_oe : Z → bool;
  aon_iso_mode : bool;
  aon_hw_pupd_enable : bool;
  mm_domain : bool;
  reset_requested : bool;           (* qemu_system_reset_request was called *)
}.
End state.
Arguments BL808GLBHook : clear implicits.
Arguments BL808GLBState : clear implicits.

#[export] Instance eta_glb {W} : Eta (BL808GLBState W) := λ r,
  mk_glb (irq r) (calls r) (gpio_out r) (gpio_level r) (gpio_sample_timer r) (regs r) (hooks r) (gpio_sample_history r)
    (gpio_input r) (gpio_input_driven r) (gpio_output r) (aon_hw_ctrl r) (aon_hw_oe r) (aon_hw_pu r) (aon_hw_pd r)
    (aon_retained_output r) (aon_retained_oe r) (aon_iso_mode r) (aon_hw_pupd_enable r) (mm_domain r) (reset_requested r).

(** [a[i] = v]. *)
Definition fset {A} (a : Z → A) (i : Z) (v : A) : Z → A := λ j, if j =? i then v else a j.

(** ** Pads *)

Section glb.
Context {W : Type}.
Notation state := (BL808GLBState W).
Implicit Types s : state.

Definition bl808_glb_gpio_is_aon (pin : Z) : bool := (9 <=? pin) && (pin <=? 15) || (pin =? 40) || (pin =? 41).

Definition bl808_glb_gpio_is_swgpio (value : Z) : bool :=
  Z.land (Z.shiftr value GPIO_FUNC_SHIFT) GPIO_FUNC_MASK =? GPIO_SWGPIO_FUNC.

Definition bl808_glb_gpio_is_xtal32k s (pin value : Z) : bool :=
  if negb (pin =? 40) && negb (pin =? 41) then false
  else if aon_iso_mode s && aon_retained_oe s pin then false
  else
    let oe_active := (bl808_glb_gpio_is_aon pin && aon_hw_ctrl s pin && aon_hw_oe s pin) ||
                     (bl808_glb_gpio_is_swgpio value && tst value GPIO_OE) in
    negb (tst value GPIO_IE) && negb oe_active.

(** The configuration register of a pin. *)
Definition cfg_idx (pin : Z) : Z := GLB_GPIO_CFG_BASE / 4 + pin.
Definition cfg s (pin : Z) : Z := regs s (cfg_idx pin).

Definition pins : list Z := seqZ 0 GLB_GPIO_PINS.

Definition bl808_glb_update_irq s : state :=
  let pending := negb (mm_domain s) &&
    existsb (λ pin, tst (cfg s pin) GPIO_INT_STAT && negb (tst (cfg s pin) GPIO_INT_MASK)) pins in
  s <| irq := [pending; pending; pending] |> <| calls := IrqLines pending :: calls s |>.

Definition bl808_glb_gpio_int_mode (value : Z) : Z := Z.land (Z.shiftr value GPIO_INT_MODE_SHIFT) GPIO_INT_MODE_MASK.

Definition bl808_glb_gpio_irq_enabled s (pin value : Z) : bool :=
  negb (mm_domain s) && (pin <? GLB_GPIO_PINS) && bl808_glb_gpio_is_swgpio value && tst value GPIO_IE &&
  negb (tst value GPIO_INT_MASK).

Definition retained s (pin : Z) : bool := bl808_glb_gpio_is_aon pin && aon_iso_mode s && aon_retained_oe s pin.

Definition bl808_glb_gpio_output_level s (pin : Z) : bool :=
  if retained s pin then aon_retained_output s pin else gpio_output s pin.

Definition bl808_glb_gpio_output_enabled s (pin value : Z) : bool :=
  if retained s pin then true
  else if bl808_glb_gpio_is_aon pin && aon_hw_ctrl s pin && aon_hw_oe s pin then true
  else bl808_glb_gpio_is_swgpio value && tst value GPIO_OE.

Definition bl808_glb_gpio_effective_level s (pin value : Z) : bool :=
  if bl808_glb_gpio_output_enabled s pin value then bl808_glb_gpio_output_level s pin
  else if bl808_glb_gpio_is_xtal32k s pin value then false
  else if negb (gpio_input_driven s pin) then
    if bl808_glb_gpio_is_aon pin && aon_hw_ctrl s pin then
      if negb (aon_iso_mode s) && aon_hw_pupd_enable s && xorb (aon_hw_pu s pin) (aon_hw_pd s pin)
      then aon_hw_pu s pin else gpio_input s pin
    else if negb (Z.lxor (Z.land value GPIO_PU) (Z.land value GPIO_PD) =? 0) then tst value GPIO_PU
    else gpio_input s pin
  else gpio_input s pin.

Definition bl808_glb_gpio_drive_level s (pin value : Z) : bool :=
  bl808_glb_gpio_output_enabled s pin value && bl808_glb_gpio_output_level s pin.

Definition bl808_glb_gpio_reset_history s (pin : Z) (level : bool) : state :=
  s <| gpio_sample_history := fset (gpio_sample_history s) pin (if level then 0x7 else 0x0) |>.

Definition bl808_glb_gpio_irq_immediate (mode : Z) (old_level new_level : bool) : bool :=
  if mode =? 5 then old_level && negb new_level
  else if mode =? 6 then negb old_level && new_level
  else false.

Definition bl808_glb_gpio_irq_sampled (mode history : Z) : bool :=
  if mode =? 0 then history =? 0x4
  else if mode =? 1 then history =? 0x3
  else if (mode =? 2) || (mode =? 7) then history =? 0x0
  else if (mode =? 3) || (mode =? 8) then history =? 0x7
  else if mode =? 4 then (history =? 0x4) || (history =? 0x3)
  else false.

Definition set_cfg s (pin value : Z) : state := s <| regs := fset (regs s) (cfg_idx pin) value |>.

(** The sampling of one pin. *)
Definition sample_pin s (pin : Z) : state :=
  let value := cfg s pin in
  let level := bl808_glb_gpio_effective_level s pin value in
  let history := Z.land (u8 (Z.lor (Z.shiftl (gpio_sample_history s pin) 1) (if level then 1 else 0))) 0x7 in
  let s := s <| gpio_sample_history := fset (gpio_sample_history s) pin history |> in
  if bl808_glb_gpio_irq_enabled s pin value && bl808_glb_gpio_irq_sampled (bl808_glb_gpio_int_mode value) history
  then set_cfg s pin (Z.lor (cfg s pin) GPIO_INT_STAT) else s.

Definition bl808_glb_gpio_sample_tick (now : Z) s : state :=
  let s := if negb (mm_domain s) then bl808_glb_update_irq (foldl sample_pin s pins) else s in
  s <| gpio_sample_timer := Some (now + GLB_F32K_PERIOD_NS) |>.

Definition watched_bits : Z :=
  Z.lor (Z.lor (Z.lor GPIO_IE GPIO_INT_MASK) (Z.shiftl GPIO_FUNC_MASK GPIO_FUNC_SHIFT))
        (Z.shiftl GPIO_INT_MODE_MASK GPIO_INT_MODE_SHIFT).

Definition bl808_glb_gpio_commit_with_old_level s (pin old_value new_value : Z) (old_level : bool) : state :=
  let s := s <| gpio_output := fset (gpio_output s) pin (tst new_value GPIO_O) |> in
  let new_level := bl808_glb_gpio_effective_level s pin new_value in
  let new_value :=
    if bl808_glb_gpio_irq_enabled s pin new_value &&
       bl808_glb_gpio_irq_immediate (bl808_glb_gpio_int_mode new_value) old_level new_level
    then Z.lor new_value GPIO_INT_STAT else new_value in
  let s := if tst (Z.lxor old_value new_value) watched_bits then bl808_glb_gpio_reset_history s pin new_level else s in
  let new_value := if new_level then Z.lor new_value GPIO_I else clr new_value GPIO_I in
  let s := set_cfg s pin new_value in
  let s := s <| gpio_out := fset (gpio_out s) pin (bl808_glb_gpio_drive_level s pin new_value) |>
             <| gpio_level := fset (gpio_level s) pin new_level |>
             <| calls := LevelLine pin new_level :: calls s |> in
  bl808_glb_update_irq s.

Definition bl808_glb_gpio_commit s (pin old_value new_value : Z) : state :=
  bl808_glb_gpio_commit_with_old_level s pin old_value new_value (bl808_glb_gpio_effective_level s pin old_value).

Definition bl808_glb_gpio_input_set s (pin level : Z) : state :=
  if (pin <? 0) || (GLB_GPIO_PINS <=? pin) then s
  else
    let old_value := cfg s pin in
    let old_level := bl808_glb_gpio_effective_level s pin old_value in
    let s := s <| gpio_input_driven := fset (gpio_input_driven s) pin true |>
               <| gpio_input := fset (gpio_input s) pin (negb (level =? 0)) |> in
    bl808_glb_gpio_commit_with_old_level s pin old_value old_value old_level.

Definition bl808_glb_is_gpio_cfg (offset : Z) : option Z :=
  if (offset <? GLB_GPIO_CFG_BASE) || (GLB_GPIO_CFG_BASE + GLB_GPIO_PINS * 4 <=? offset) then None
  else Some ((offset - GLB_GPIO_CFG_BASE) / 4).

Definition bl808_glb_gpio_read s (pin : Z) : Z :=
  let value := cfg s pin in
  if bl808_glb_gpio_effective_level s pin value then Z.lor value GPIO_I else clr value GPIO_I.

Definition bl808_glb_gpio_write s (pin value : Z) : state :=
  let old := cfg s pin in
  let next := clr value GPIO_I in
  let next := Z.lor next (Z.land old GPIO_INT_STAT) in
  let next := if tst value GPIO_SET then Z.lor next GPIO_O else next in
  let next := if tst value GPIO_CLR then clr next GPIO_O else next in
  let next := if tst value GPIO_INT_CLR then clr next GPIO_INT_STAT else next in
  let next := clr next (Z.lor (Z.lor GPIO_SET GPIO_CLR) GPIO_INT_CLR) in
  bl808_glb_gpio_commit s pin old next.

(** ** Inputs and the always-on domain *)

Definition bl808_glb_set_gpio_input_state s (pin : Z) (driven level : bool) : state :=
  if GLB_GPIO_PINS <=? pin then s
  else
    let old_value := cfg s pin in
    let old_level := bl808_glb_gpio_effective_level s pin old_value in
    let s := s <| gpio_input_driven := fset (gpio_input_driven s) pin driven |>
               <| gpio_input := fset (gpio_input s) pin level |> in
    bl808_glb_gpio_commit_with_old_level s pin old_value old_value old_level.

Definition bl808_glb_set_aon_pad_ctrl s (pin : Z) (hw_ctrl hw_pupd_enable oe pu pd : bool) : state :=
  if (GLB_GPIO_PINS <=? pin) || negb (bl808_glb_gpio_is_aon pin) then s
  else
    let old_value := cfg s pin in
    let s := s <| aon_hw_ctrl := fset (aon_hw_ctrl s) pin hw_ctrl |>
               <| aon_hw_pupd_enable := hw_pupd_enable |>
               <| aon_hw_oe := fset (aon_hw_oe s) pin oe |>
               <| aon_hw_pu := fset (aon_hw_pu s) pin pu |>
               <| aon_hw_pd := fset (aon_hw_pd s) pin pd |> in
    bl808_glb_gpio_commit s pin old_value old_value.

Definition retain_pin s (pin : Z) : state :=
  if negb (bl808_glb_gpio_is_aon pin) then s
  else
    let value := cfg s pin in
    s <| aon_retained_output := fset (aon_retained_output s) pin (gpio_output s pin) |>
      <| aon_retained_oe := fset (aon_retained_oe s) pin
           ((aon_hw_ctrl s pin && aon_hw_oe s pin) || (bl808_glb_gpio_is_swgpio value && tst value GPIO_OE)) |>.

Definition recommit_aon s (pin : Z) : state :=
  if negb (bl808_glb_gpio_is_aon pin) then s
  else let value := cfg s pin in bl808_glb_gpio_commit s pin value value.

Definition bl808_glb_set_aon_iso_mode s (iso_mode : bool) : state :=
  let s := if negb (aon_iso_mode s) && iso_mode then foldl retain_pin s pins else s in
  let s := s <| aon_iso_mode := iso_mode |> in
  foldl recommit_aon s pins.

(** ** Clients *)

Notation hook := (BL808GLBHook W).

(** The effect of one hook of a write that changed a register from [old_value] to
    [new_value]. *)
Definition notify_hook (offset old_value new_value : Z) (h : hook) (w : W) : W :=
  let w := match clock_enable h with
           | Some f => if (gate_offset h =? offset) && tst (Z.lxor old_value new_value) (gate_mask h)
                       then f (tst new_value (gate_mask h)) w else w
           | None => w
           end in
  let w := match reset_assert h with
           | Some f => if (reset_offset h =? offset) && tst (Z.lxor old_value new_value) (reset_mask h)
                       then f (tst new_value (reset_mask h)) w else w
           | None => w
           end in
  match clock_config_update h with
  | Some f => if config_offset h =? offset then f offset new_value w else w
  | None => w
  end.

Definition bl808_glb_update_clients s (offset old_value new_value : Z) (w : W) : W :=
  foldl (λ w oh, match oh with Some h => notify_hook offset old_value new_value h w | None => w end) w (hooks s).

(** What a client is told when it is registered and when the block is reset. *)
Definition tell_hook (regs : Z → Z) (h : hook) (w : W) : W :=
  let w := match clock_enable h with
           | Some f => if negb (gate_offset h =? GLB_INVALID_OFFSET)
                       then f (tst (regs (gate_offset h / 4)) (gate_mask h)) w else w
           | None => w
           end in
  let w := match reset_assert h with
           | Some f => if negb (reset_offset h =? GLB_INVALID_OFFSET)
                       then f (tst (regs (reset_offset h / 4)) (reset_mask h)) w else w
           | None => w
           end in
  match clock_config_update h with
  | Some f => if negb (config_offset h =? GLB_INVALID_OFFSET)
              then f (config_offset h) (regs (config_offset h / 4)) w else w
  | None => w
  end.

(** The first free slot takes the hook. *)
Fixpoint take_slot (slots : list (option hook)) (h : hook) : option (list (option hook)) :=
  match slots with
  | [] => None
  | None :: slots => Some (Some h :: slots)
  | Some g :: slots => (λ l, Some g :: l) <$> take_slot slots h
  end.

Definition bl808_glb_register_device s (h : hook) (w : W) : state * W :=
  match take_slot (hooks s) h with
  | Some slots => (s <| hooks := slots |>, tell_hook (regs s) h w)
  | None => (s, w)
  end.

(** ** Register accesses *)

Definition bl808_glb_read s (offset size : Z) : Z :=
  match bl808_glb_is_gpio_cfg offset with
  | Some pin => bl808_glb_gpio_read s pin
  | None => let idx := u32 (offset / 4) in if idx <? GLB_REG_COUNT then regs s idx else 0
  end.

(** The divider of a bus clock acknowledges at once. *)
Definition acknowledge s (offset value : Z) : Z :=
  if negb (mm_domain s) && (offset =? GLB_SYS_CFG1) then
    let v := clr value (Z.lor GLB_STS_BCLK_PROT_DONE GLB_STS_PICO_CLK_PROT_DONE) in
    let v := if tst v GLB_REG_BCLK_DIV_ACT_PULSE then Z.lor v GLB_STS_BCLK_PROT_DONE else v in
    if tst v GLB_REG_PICO_CLK_DIV_ACT_PULSE then Z.lor v GLB_STS_PICO_CLK_PROT_DONE else v
  else if mm_domain s && (offset =? MM_CLK_CTRL_CPU) then
    let v := clr value MM_GLB_STS_BCLK2X_PROT_DONE in
    if tst v MM_GLB_REG_BCLK2X_DIV_ACT_PULSE then Z.lor v MM_GLB_STS_BCLK2X_PROT_DONE else v
  else value.

Definition bl808_glb_write s (offset value size : Z) (w : W) : state * W :=
  match bl808_glb_is_gpio_cfg offset with
  | Some pin => (bl808_glb_gpio_write s pin (u32 value), w)
  | None =>
      let idx := u32 (offset / 4) in
      if GLB_REG_COUNT <=? idx then (s, w)
      else
        let old_value := regs s idx in
        let next_value := u32 value in
        let chip_reset_requested := negb (mm_domain s) && (offset =? GLB_SWRST_CFG2) &&
          negb (tst old_value GLB_SWRST_CFG2_CHIP_RESET) && tst next_value GLB_SWRST_CFG2_CHIP_RESET in
        let next_value := acknowledge s offset next_value in
        let s := s <| regs := fset (regs s) idx next_value |> in
        let w := bl808_glb_update_clients s offset old_value next_value w in
        (if chip_reset_requested then s <| reset_requested := true |> else s, w)
  end.

(** ** Reset *)

Definition default_regs (mm : bool) : list (Z * Z) :=
  if mm then
    [(MM_CLK_CTRL_CPU, 0x00004005); (MM_CLK_CPU, 0x00000000); (MM_CLK_CTRL_PERI, 0x00810300);
     (MM_CLK_CTRL_PERI3, 0x00010300); (MM_SW_RESET_PERI, 0x00000000)]
  else
    [(GLB_SYS_CFG0, 0x0003000F); (GLB_DIG_CLK_CFG1, 0x00000000); (GLB_WIFI_PLL_CFG0, 0x00000FFF);
     (GLB_WIFI_PLL_CFG1, 0x00010200); (GLB_WIFI_PLL_CFG5, 0x00001005); (GLB_WIFI_PLL_CFG6, 0x01800000);
     (GLB_WIFI_PLL_CFG8, 0x800000AE); (GLB_UART_CFG0, 0x00000017); (GLB_DMA_CFG0, 0xFF000000);
     (GLB_EMI_CFG0, 0x00000000); (GLB_I2C_CFG0, 0x01FF0000); (GLB_SWRST_CFG1, 0x00000000);
     (GLB_CGEN_CFG1, 0xFFFFFFFF); (GLB_CGEN_CFG2, 0xFFFFFFFF); (GLB_SPI_CFG0, 0x00000103)].

Definition no : Z → bool := λ _, false.

Definition bl808_glb_apply_defaults s : state :=
  let s := s <| regs := λ _, 0 |> <| gpio_sample_history := λ _, 0 |> <| gpio_input := no |>
             <| gpio_input_driven := no |> <| gpio_output := no |> <| aon_hw_ctrl := no |> <| aon_hw_oe := no |>
             <| aon_hw_pu := no |> <| aon_hw_pd := no |> <| aon_hw_pupd_enable := false |> in
  let s := if negb (aon_iso_mode s)
           then s <| aon_retained_output := no |> <| aon_retained_oe := no |> else s in
  s <| regs := foldl (λ r ov, fset r (ov.1 / 4) ov.2) (regs s) (default_regs (mm_domain s)) |>.

Definition reset_pin s (pin : Z) : state :=
  let value := cfg s pin in
  let s := bl808_glb_gpio_commit s pin value value in
  bl808_glb_gpio_reset_history s pin (bl808_glb_gpio_effective_level s pin value).

Definition bl808_glb_reset (now : Z) s (w : W) : state * W :=
  let s := foldl reset_pin (bl808_glb_apply_defaults s) pins in
  let w := foldl (λ w oh, match oh with Some h => tell_hook (regs s) h w | None => w end) w (hooks s) in
  let s := bl808_glb_update_irq s in
  (s <| gpio_sample_timer := if mm_domain s then None else Some (now + GLB_F32K_PERIOD_NS) |>, w).

End glb.
End BL808GLB.

(** ** The machine and the pads *)

Module BL808Pads.
Import BL808GLB.

Definition BL808_BOOT_GPIO39_PIN := 39.
Definition BL808_HBN_AON_PINS := 9.
Definition BL808_HBN_REG_EN_HW_PU_PD := BIT 16.
Definition BL808_HBN_PAD_CTRL_SHIFT := 20.
Definition BL808_HBN_PAD_ISO_MODE := BIT 31.
Definition BL808_HBN_PAD_OE_SHIFT := 0.
Definition BL808_HBN_PAD_PD_SHIFT := 10.
Definition BL808_HBN_PAD_PU_SHIFT := 20.

Definition bl808_hbn_aon_gpio_map : list Z := [9; 10; 11; 12; 13; 14; 15; 40; 41].

Definition bl808_pds_gpio_index_from_pin (pin : Z) : Z :=
  if pin <=? 8 then pin
  else if (16 <=? pin) && (pin <=? 38) then pin - 7
  else -1.

Section pads.
Context {W : Type}.
Notation state := (BL808GLBState W).
Implicit Types glb : state.

Definition bl808_apply_boot_gpio39 (boot_gpio39 : bool) glb : state :=
  bl808_glb_gpio_input_set glb BL808_BOOT_GPIO39_PIN (if boot_gpio39 then 1 else 0).

Definition bl808_apply_pds_gpio_levels (gpio_driven gpio_level : Z → bool) glb : state :=
  foldl (λ glb pin, if bl808_pds_gpio_index_from_pin pin <? 0 then glb
                    else bl808_glb_set_gpio_input_state glb pin (gpio_driven pin) (gpio_level pin))
        glb (seqZ 0 BL808_GLB_GPIO_PINS).

Definition bl808_apply_aon_gpio_levels (aon_gpio_driven aon_gpio_level : Z → bool) glb : state :=
  foldl (λ glb i, bl808_glb_set_gpio_input_state glb (bl808_hbn_aon_gpio_map !% i) (aon_gpio_driven i) (aon_gpio_level i))
        glb (seqZ 0 BL808_HBN_AON_PINS).

(** One turn of the loop over the always-on pins. *)
Definition apply_pad (hw_pupd_enable : bool) (pad_ctrl0 pad_ctrl1 : Z) glb (pin : Z) : state :=
  bl808_glb_set_aon_pad_ctrl glb (bl808_hbn_aon_gpio_map !% pin)
    (negb (extract32 pad_ctrl0 (BL808_HBN_PAD_CTRL_SHIFT + pin) 1 =? 0)) hw_pupd_enable
    (negb (extract32 pad_ctrl1 (BL808_HBN_PAD_OE_SHIFT + pin) 1 =? 0))
    (negb (extract32 pad_ctrl1 (BL808_HBN_PAD_PU_SHIFT + pin) 1 =? 0))
    (negb (extract32 pad_ctrl1 (BL808_HBN_PAD_PD_SHIFT + pin) 1 =? 0)).

(** With the registers [IRQ_MODE], [PAD_CTRL_0] and [PAD_CTRL_1] of the block HBN. *)
Definition bl808_hbn_apply_aon_pad_ctrl (irq_mode pad_ctrl0 pad_ctrl1 : Z) glb : state :=
  foldl (apply_pad (tst irq_mode BL808_HBN_REG_EN_HW_PU_PD) pad_ctrl0 pad_ctrl1)
    (bl808_glb_set_aon_iso_mode glb (tst pad_ctrl0 BL808_HBN_PAD_ISO_MODE)) (seqZ 0 BL808_HBN_AON_PINS).

End pads.
End BL808Pads.
