(* ===== verification/GlbSpec.v ===== *)
(** * The pads and the clients of the global control block

    [glb_pads_follow]: on every run of [Glb] after a reset, the levels last sent to
    the lines of the pins and the input bits of the registers are those that the
    configuration and the inputs give.  [glb_clients_follow]: what a registered
    client was last told is what the registers say. *)

From S2P Require Import Prelude Qemu Glb.
From stdpp Require Import prelude list.
From Stdlib Require Import ZArith Lia.
Import BL808GLB.
Local Open Scope Z_scope.

(** ** The bits of a configuration register that decide a level *)

Definition level_bits : Z :=
  Z.lor (Z.lor (Z.lor GPIO_IE GPIO_PU) (Z.lor GPIO_PD GPIO_OE)) (Z.lor (Z.shiftl GPIO_FUNC_MASK GPIO_FUNC_SHIFT) GPIO_O).

Definition alike (v v' : Z) : Prop := Z.land v level_bits = Z.land v' level_bits.

#[export] Instance alike_equivalence : Equivalence alike.
Proof. split; [by intros v|intros v v'|intros v1 v2 v3]; unfold alike; congruence. Qed.

Lemma alike_land m v v' : Z.land level_bits m = m → alike v v' → Z.land v m = Z.land v' m.
Proof. intros <- H. unfold alike in H. by rewrite !Z.land_assoc, H. Qed.

Lemma alike_tst m v v' : Z.land level_bits m = m → alike v v' → tst v m = tst v' m.
Proof. intros Hm H. unfold tst. by rewrite (alike_land m v v'). Qed.

Lemma alike_swgpio v v' : alike v v' → bl808_glb_gpio_is_swgpio v = bl808_glb_gpio_is_swgpio v'.
Proof.
  intros H. unfold bl808_glb_gpio_is_swgpio.
  assert (∀ x, Z.land (Z.shiftr x GPIO_FUNC_SHIFT) GPIO_FUNC_MASK =
    Z.shiftr (Z.land x (Z.shiftl GPIO_FUNC_MASK GPIO_FUNC_SHIFT)) GPIO_FUNC_SHIFT) as Hx.
  { intros x. by rewrite Z.shiftr_land, Z.shiftr_shiftl_l by done. }
  by rewrite !Hx, (alike_land _ v v').
Qed.

(** Setting or clearing the other bits. *)
Lemma alike_lor v m : Z.land m level_bits = 0 → alike (Z.lor v m) v.
Proof. intros Hm. unfold alike. by rewrite Z.land_lor_distr_l, Hm, Z.lor_0_r. Qed.

Lemma alike_clr v m : Z.land m level_bits = 0 → alike (clr v m) v.
Proof.
  intros Hm. unfold alike, clr. rewrite <- Z.land_assoc. f_equal. apply Z.bits_inj'. intros i Hi.
  rewrite Z.land_spec, Z.lnot_spec by done. apply (f_equal (λ z, Z.testbit z i)) in Hm.
  rewrite Z.land_spec, Z.bits_0 in Hm. by destruct (Z.testbit m i), (Z.testbit level_bits i).
Qed.

Section pads.
Context {W : Type}.
Implicit Types s : BL808GLBState W.

(** Two states that agree on a pad. *)
Record same_pad s s' (pin : Z) : Prop := {
  sp_output : gpio_output s' pin = gpio_output s pin;
  sp_input : gpio_input s' pin = gpio_input s pin;
  sp_driven : gpio_input_driven s' pin = gpio_input_driven s pin;
  sp_ctrl : aon_hw_ctrl s' pin = aon_hw_ctrl s pin;
  sp_oe : aon_hw_oe s' pin = aon_hw_oe s pin;
  sp_pu : aon_hw_pu s' pin = aon_hw_pu s pin;
  sp_pd : aon_hw_pd s' pin = aon_hw_pd s pin;
  sp_rout : aon_retained_output s' pin = aon_retained_output s pin;
  sp_roe : aon_retained_oe s' pin = aon_retained_oe s pin;
  sp_iso : aon_iso_mode s' = aon_iso_mode s;
  sp_pupd : aon_hw_pupd_enable s' = aon_hw_pupd_enable s;
}.

Lemma same_pad_refl s pin : same_pad s s pin.
Proof. by split. Qed.

Lemma same_pad_trans s1 s2 s3 pin : same_pad s1 s2 pin → same_pad s2 s3 pin → same_pad s1 s3 pin.
Proof. intros [] []. split; congruence. Qed.

(** Rewriting with the fields of an agreement. *)
Ltac pad_rewrite H :=
  rewrite ?(sp_output _ _ _ H), ?(sp_input _ _ _ H), ?(sp_driven _ _ _ H), ?(sp_ctrl _ _ _ H), ?(sp_oe _ _ _ H),
    ?(sp_pu _ _ _ H), ?(sp_pd _ _ _ H), ?(sp_rout _ _ _ H), ?(sp_roe _ _ _ H), ?(sp_iso _ _ _ H), ?(sp_pupd _ _ _ H).

Section ext.
Context s s' (pin v v' : Z) (Hs : same_pad s s' pin) (Hv : alike v' v).

Lemma enabled_ext : bl808_glb_gpio_output_enabled s' pin v' = bl808_glb_gpio_output_enabled s pin v.
Proof using Hs Hv.
  unfold bl808_glb_gpio_output_enabled, retained.
  rewrite (alike_swgpio v' v Hv), (alike_tst GPIO_OE v' v) by done. by pad_rewrite Hs.
Qed.

Lemma output_ext : bl808_glb_gpio_output_level s' pin = bl808_glb_gpio_output_level s pin.
Proof using Hs. unfold bl808_glb_gpio_output_level, retained. by pad_rewrite Hs. Qed.

Lemma level_ext : bl808_glb_gpio_effective_level s' pin v' = bl808_glb_gpio_effective_level s pin v.
Proof using Hs Hv.
  unfold bl808_glb_gpio_effective_level, bl808_glb_gpio_is_xtal32k. rewrite enabled_ext, output_ext.
  rewrite (alike_swgpio v' v Hv), (alike_tst GPIO_OE v' v), (alike_tst GPIO_IE v' v), (alike_tst GPIO_PU v' v),
    (alike_land GPIO_PU v' v), (alike_land GPIO_PD v' v) by done. by pad_rewrite Hs.
Qed.

Lemma drive_ext : bl808_glb_gpio_drive_level s' pin v' = bl808_glb_gpio_drive_level s pin v.
Proof using Hs Hv. unfold bl808_glb_gpio_drive_level. by rewrite enabled_ext, output_ext. Qed.
End ext.

(** ** A pin whose lines are up to date *)

Record follows_pin s (pin : Z) : Prop := {
  fp_level : gpio_level s pin = bl808_glb_gpio_effective_level s pin (cfg s pin);
  fp_out : gpio_out s pin = bl808_glb_gpio_drive_level s pin (cfg s pin);
  fp_input : tst (cfg s pin) GPIO_I = gpio_level s pin;
  fp_latch : gpio_output s pin = tst (cfg s pin) GPIO_O;
}.

Definition int_pending s (pin : Z) : bool := tst (cfg s pin) GPIO_INT_STAT && negb (tst (cfg s pin) GPIO_INT_MASK).

Definition irq_level s : bool := negb (mm_domain s) && existsb (int_pending s) pins.

Record follows s : Prop := {
  fo_pins pin : 0 ≤ pin < GLB_GPIO_PINS → follows_pin s pin;
  fo_irq : irq s = replicate 3 (irq_level s);
}.

Lemma elem_of_pins pin : pin ∈ pins ↔ 0 ≤ pin < GLB_GPIO_PINS.
Proof. unfold pins. rewrite elem_of_seqZ. lia. Qed.

(** What does not touch the pad, its register or its lines. *)
Lemma follows_pin_ext s s' pin :
  same_pad s s' pin → alike (cfg s' pin) (cfg s pin) → tst (cfg s' pin) GPIO_I = tst (cfg s pin) GPIO_I →
  gpio_level s' pin = gpio_level s pin → gpio_out s' pin = gpio_out s pin → follows_pin s pin → follows_pin s' pin.
Proof.
  intros Hp Ha Hi Hl Ho [H1 H2 H3 H4]. split.
  - by rewrite Hl, H1, (level_ext s s' pin (cfg s pin) (cfg s' pin)).
  - by rewrite Ho, H2, (drive_ext s s' pin (cfg s pin) (cfg s' pin)).
  - by rewrite Hi, Hl.
  - rewrite (sp_output _ _ _ Hp), H4. by rewrite (alike_tst GPIO_O (cfg s' pin) (cfg s pin)).
Qed.

Lemma fset_eq {A} (a : Z → A) i v : fset a i v i = v.
Proof. unfold fset. by rewrite Z.eqb_refl. Qed.

Lemma fset_ne {A} (a : Z → A) i j v : j ≠ i → fset a i v j = a j.
Proof. intros. unfold fset. by destruct (Z.eqb_spec j i). Qed.

Lemma cfg_fset_ne s (pin pin' v : Z) : pin' ≠ pin → cfg (set_cfg s pin v) pin' = cfg s pin'.
Proof. intros. unfold cfg, set_cfg. cbn. apply fset_ne. unfold cfg_idx. lia. Qed.

Lemma cfg_fset_eq s (pin v : Z) : cfg (set_cfg s pin v) pin = v.
Proof. apply fset_eq. Qed.

(** ** Committing a configuration *)

Section commit.
Context s (pin old new : Z) (ol : bool).
Let s' := bl808_glb_gpio_commit_with_old_level s pin old new ol.

(** The interrupt lines are those of the new registers. *)
Lemma commit_irq : irq s' = replicate 3 (irq_level s') ∧ mm_domain s' = mm_domain s.
Proof using.
  unfold s', bl808_glb_gpio_commit_with_old_level, bl808_glb_gpio_reset_history. cbv zeta.
  destruct (tst (Z.lxor _ _) watched_bits); by split.
Qed.

(** The latch of the pin, and nothing else of the pads. *)
Lemma commit_pad q : same_pad (s <| gpio_output := fset (gpio_output s) pin (tst new GPIO_O) |>) s' q.
Proof using.
  unfold s', bl808_glb_gpio_commit_with_old_level, bl808_glb_gpio_reset_history. cbv zeta.
  destruct (tst (Z.lxor _ _) watched_bits); by split.
Qed.

Lemma commit_cfg_ne q : q ≠ pin → cfg s' q = cfg s q ∧ gpio_level s' q = gpio_level s q ∧ gpio_out s' q = gpio_out s q.
Proof using.
  intros Hq. unfold s', bl808_glb_gpio_commit_with_old_level, bl808_glb_gpio_reset_history. cbv zeta.
  destruct (tst (Z.lxor _ _) watched_bits); unfold cfg, bl808_glb_update_irq, set_cfg; cbn;
    rewrite !fset_ne by (unfold cfg_idx; lia); done.
Qed.

(** The pin itself follows. *)
Lemma commit_pin : follows_pin s' pin ∧ alike (cfg s' pin) new.
Proof using.
  pose proof (commit_pad pin) as Hp.
  set (s1 := s <| gpio_output := fset (gpio_output s) pin (tst new GPIO_O) |>) in *.
  set (lvl := bl808_glb_gpio_effective_level s1 pin new).
  set (n1 := if bl808_glb_gpio_irq_enabled s1 pin new &&
       bl808_glb_gpio_irq_immediate (bl808_glb_gpio_int_mode new) ol lvl then Z.lor new GPIO_INT_STAT else new).
  set (n2 := if lvl then Z.lor n1 GPIO_I else clr n1 GPIO_I).
  assert (alike n2 new) as Ha.
  { transitivity n1; [destruct lvl; unfold n2; [by apply alike_lor|by apply alike_clr]|].
    unfold n1. destruct (_ && _); [by apply alike_lor|done]. }
  assert (tst n2 GPIO_I = lvl) as Hi.
  { unfold n2, GPIO_I. destruct lvl; rewrite tst_BIT by lia;
      [rewrite Z.lor_spec|rewrite clr_spec by lia]; rewrite BIT_spec by lia.
    - apply orb_true_r.
    - apply andb_false_r. }
  assert (cfg s' pin = n2 ∧ gpio_level s' pin = lvl ∧
    ∃ s2, same_pad s1 s2 pin ∧ gpio_out s' pin = bl808_glb_gpio_drive_level s2 pin n2) as (Hc & Hl & s2 & Hs2 & Ho).
  { unfold s', bl808_glb_gpio_commit_with_old_level, bl808_glb_gpio_reset_history. cbv zeta.
    fold s1. fold lvl. fold n1. fold n2.
    split; [|split]; [destruct (tst (Z.lxor _ _) watched_bits); apply cfg_fset_eq|
      destruct (tst (Z.lxor _ _) watched_bits); apply fset_eq|].
    eexists. split; [|apply fset_eq]. destruct (tst (Z.lxor _ _) watched_bits); by split. }
  clearbody s'. split; [|by rewrite Hc]. split; rewrite Hc.
  - rewrite Hl. symmetry. by apply level_ext.
  - rewrite Ho. rewrite (drive_ext s1 s2 pin new n2) by done. symmetry. by apply drive_ext.
  - by rewrite Hl.
  - rewrite (sp_output _ _ _ Hp). unfold s1. cbn. rewrite fset_eq. symmetry. by apply alike_tst.
Qed.
End commit.

Lemma commit_frame s (pin old new : Z) ol q :
  q ≠ pin → follows_pin s q → follows_pin (bl808_glb_gpio_commit_with_old_level s pin old new ol) q.
Proof.
  intros Hq Hf. pose proof (commit_cfg_ne s pin old new ol q Hq) as (Hc & Hl & Ho).
  pose proof (commit_pad s pin old new ol q) as Hp. revert Hc Hl Ho Hp.
  generalize (bl808_glb_gpio_commit_with_old_level s pin old new ol). intros s' Hc Hl Ho Hp.
  apply (follows_pin_ext s s'); rewrite ?Hc; try done.
  eapply same_pad_trans; [|exact Hp]. split; try done. cbn. by apply fset_ne.
Qed.

(** A step that changes one pad and commits its configuration. *)
Lemma commit_follows s s1 (pin old new : Z) ol :
  (∀ q, q ≠ pin → same_pad s s1 q) → regs s1 = regs s → gpio_level s1 = gpio_level s → gpio_out s1 = gpio_out s →
  (∀ q, q ≠ pin → 0 ≤ q < GLB_GPIO_PINS → follows_pin s q) →
  follows (bl808_glb_gpio_commit_with_old_level s1 pin old new ol).
Proof.
  intros Hp Hr Hl Ho Hf. split; [|apply commit_irq]. intros q Hq. destruct (decide (q = pin)) as [->|Hne].
  - apply commit_pin.
  - apply commit_frame; [done|]. apply (follows_pin_ext s); unfold cfg; rewrite ?Hr, ?Hl, ?Ho; by auto.
Qed.

(** ** The operations *)

Section keep.
Context s (Hf : follows s).

Lemma input_set_follows pin level : follows (bl808_glb_gpio_input_set s pin level).
Proof using Hf.
  unfold bl808_glb_gpio_input_set. destruct (_ || _); [done|]. cbv zeta.
  apply (commit_follows s); try done; [|intros; by apply fo_pins].
  intros q Hq. split; try done; cbn; by apply fset_ne.
Qed.

Lemma set_input_state_follows pin driven level : follows (bl808_glb_set_gpio_input_state s pin driven level).
Proof using Hf.
  unfold bl808_glb_set_gpio_input_state. destruct (_ <=? _); [done|]. cbv zeta.
  apply (commit_follows s); try done; [|intros; by apply fo_pins].
  intros q Hq. split; try done; cbn; by apply fset_ne.
Qed.

Lemma gpio_write_follows pin value : follows (bl808_glb_gpio_write s pin value).
Proof using Hf.
  unfold bl808_glb_gpio_write, bl808_glb_gpio_commit. cbv zeta.
  apply (commit_follows s); try done. intros. by apply fo_pins.
Qed.
End keep.

(** A loop over the pins that makes each pin good, or keeps it good. *)
Lemma foldl_good {A : Type} (f : A → Z → A) (good : A → Prop) (T : Prop) l x q :
  (∀ x p, p ≠ q → good x → good (f x p)) → (∀ x, T ∨ good x → good (f x q)) →
  (q ∈ l ∧ T) ∨ good x → good (foldl f x l).
Proof.
  intros Hk He. revert x. induction l as [|p l IH]; intros x Hx; simpl.
  { destruct Hx as [[Hx _]|]; [by apply not_elem_of_nil in Hx|done]. }
  apply IH. destruct (decide (p = q)) as [->|Hp]; [right; apply He; tauto|].
  destruct Hx as [[Hx HT]|Hx]; [|right; by apply Hk]. left. apply elem_of_cons in Hx as [->|]; done.
Qed.

Lemma foldl_keep {A : Type} (f : A → Z → A) (good : A → Prop) l x :
  (∀ x p, good x → good (f x p)) → good x → good (foldl f x l).
Proof. intros Hk. revert x. induction l as [|p l IH]; intros x Hx; simpl; [done|]. by apply IH, Hk. Qed.

Definition irq_follows s : Prop := irq s = replicate 3 (irq_level s).

Lemma commit_makes s (pin old new : Z) : follows_pin (bl808_glb_gpio_commit s pin old new) pin.
Proof. exact (proj1 (commit_pin s pin old new _)). Qed.

Lemma recommit_frame s p q : p ≠ q → follows_pin s q → follows_pin (recommit_aon s p) q.
Proof. intros Hp Hf. unfold recommit_aon. destruct (negb _); [done|]. apply commit_frame; done. Qed.

Lemma recommit_irq s p : irq_follows s → irq_follows (recommit_aon s p).
Proof. intros Hi. unfold recommit_aon. destruct (negb _); [done|]. apply commit_irq. Qed.

(** The pads that the always-on domain does not retain. *)
Lemma same_pad_iso s s' q :
  bl808_glb_gpio_is_aon q = false → gpio_output s' q = gpio_output s q → gpio_input s' q = gpio_input s q →
  gpio_input_driven s' q = gpio_input_driven s q → regs s' = regs s →
  gpio_level s' = gpio_level s → gpio_out s' = gpio_out s → follows_pin s q → follows_pin s' q.
Proof.
  intros Hq Ho Hi Hd Hr Hl Hx [H1 H2 H3 H4].
  assert (∀ s v, bl808_glb_gpio_output_enabled s q v = bl808_glb_gpio_is_swgpio v && tst v GPIO_OE) as He.
  { intros. unfold bl808_glb_gpio_output_enabled, retained. by rewrite Hq. }
  assert (∀ s, bl808_glb_gpio_output_level s q = gpio_output s q) as Hv.
  { intros. unfold bl808_glb_gpio_output_level, retained. by rewrite Hq. }
  assert (∀ s v, bl808_glb_gpio_is_xtal32k s q v = false) as Hz.
  { intros. unfold bl808_glb_gpio_is_xtal32k. revert Hq. unfold bl808_glb_gpio_is_aon.
    destruct (q =? 40), (q =? 41); rewrite ?orb_true_r; done. }
  split; unfold cfg; rewrite ?Hr.
  - rewrite Hl, H1. unfold bl808_glb_gpio_effective_level, cfg. by rewrite !He, !Hv, !Hz, Ho, Hi, Hd, Hq.
  - rewrite Hx, H2. unfold bl808_glb_gpio_drive_level, cfg. by rewrite !He, !Hv, Ho.
  - by rewrite Hl.
  - by rewrite Ho.
Qed.

(** What retaining the pads changes. *)
Record retained_only s s' : Prop := {
  ro_out : gpio_output s' = gpio_output s; ro_in : gpio_input s' = gpio_input s;
  ro_driven : gpio_input_driven s' = gpio_input_driven s; ro_regs : regs s' = regs s;
  ro_level : gpio_level s' = gpio_level s; ro_line : gpio_out s' = gpio_out s;
  ro_irq : irq s' = irq s ∧ mm_domain s' = mm_domain s;
}.

Lemma retain_only s : retained_only s (foldl retain_pin s pins).
Proof.
  apply (foldl_keep retain_pin (retained_only s)); [|by split].
  intros s' p [? ? ? ? ? ? []]. unfold retain_pin. destruct (negb _); by split.
Qed.

Lemma irq_level_ext s s' : regs s' = regs s → mm_domain s' = mm_domain s → irq_level s' = irq_level s.
Proof. intros Hr Hm. unfold irq_level, int_pending, cfg. by rewrite Hr, Hm. Qed.

Lemma set_aon_iso_mode_follows s iso : follows s → follows (bl808_glb_set_aon_iso_mode s iso).
Proof.
  intros [Hp Hi]. unfold bl808_glb_set_aon_iso_mode. cbv zeta.
  set (s1 := (if negb (aon_iso_mode s) && iso then foldl retain_pin s pins else s) <| aon_iso_mode := iso |>).
  assert (retained_only s s1) as Hr.
  { unfold s1. destruct (_ && _); [|by split].
    pose proof (retain_only s) as H. revert H. generalize (foldl retain_pin s pins). intros s2 [? ? ? ? ? ? []]. by split. }
  clearbody s1. destruct Hr as [Ho Hn Hd Hr Hl Hx [Hq Hm]]. split.
  - intros q Hb. apply (foldl_good _ (λ s, follows_pin s q) (bl808_glb_gpio_is_aon q = true) pins s1 q).
    + intros s' p Hpq. by apply recommit_frame.
    + intros s' H'. unfold recommit_aon. destruct (bl808_glb_gpio_is_aon q) eqn:Ha; [apply commit_makes|].
      by destruct H'.
    + destruct (bl808_glb_gpio_is_aon q) eqn:Ha; [left|right].
      * split; [by apply elem_of_pins|done].
      * apply (same_pad_iso s); [done|by rewrite Ho|by rewrite Hn|by rewrite Hd|done|done|done|by apply Hp].
  - apply (foldl_keep recommit_aon irq_follows); [intros s' p; apply recommit_irq|].
    unfold irq_follows. rewrite Hq, Hi. by rewrite (irq_level_ext s s1).
Qed.

(** ** The controls of the always-on pads *)

(** The enable of the pulls is shared: while the pads are written one after the
    other, a pad whose turn has not come may be stale. *)
Definition settled (enable : bool) (q : Z) s : Prop :=
  follows_pin s q ∧ (bl808_glb_gpio_is_aon q = true → aon_hw_pupd_enable s = enable).

Lemma aon_below q : bl808_glb_gpio_is_aon q = true → 9 ≤ q < GLB_GPIO_PINS.
Proof. unfold bl808_glb_gpio_is_aon, GLB_GPIO_PINS, BL808_GLB_GPIO_PINS. lia. Qed.

Lemma set_pad_settles s pin ctrl enable oe pu pd q :
  (q = pin ∧ bl808_glb_gpio_is_aon q = true) ∨ settled enable q s →
  settled enable q (bl808_glb_set_aon_pad_ctrl s pin ctrl enable oe pu pd).
Proof.
  intros H. unfold bl808_glb_set_aon_pad_ctrl. destruct (bl808_glb_gpio_is_aon pin) eqn:Hp.
  2: { rewrite orb_true_r. destruct H as [[-> H]|H]; congruence. }
  rewrite orb_false_r. pose proof (aon_below pin Hp). destruct (Z.leb_spec GLB_GPIO_PINS pin); [lia|]. cbv zeta.
  set (s1 := s <| aon_hw_ctrl := _ |> <| aon_hw_pupd_enable := enable |> <| aon_hw_oe := _ |> <| aon_hw_pu := _ |> <| aon_hw_pd := _ |>).
  split.
  - destruct (decide (q = pin)) as [->|Hq]; [apply commit_makes|]. destruct H as [[]|[Hf He]]; [done|].
    apply commit_frame; [done|]. destruct (bl808_glb_gpio_is_aon q) eqn:Ha.
    + apply (follows_pin_ext s); try done. split; try done; try (cbn; by apply fset_ne). cbn. symmetry. auto.
    + by apply (same_pad_iso s).
  - intros _. unfold bl808_glb_gpio_commit.
    by rewrite (sp_pupd _ _ _ (commit_pad s1 pin (cfg s pin) (cfg s pin) (bl808_glb_gpio_effective_level s1 pin (cfg s pin)) q)).
Qed.

Lemma set_pad_irq s pin ctrl enable oe pu pd :
  irq_follows s → irq_follows (bl808_glb_set_aon_pad_ctrl s pin ctrl enable oe pu pd).
Proof.
  intros Hi. unfold bl808_glb_set_aon_pad_ctrl. destruct (_ || _); [done|]. cbv zeta.
  unfold bl808_glb_gpio_commit. apply commit_irq.
Qed.

Lemma apply_aon_pad_ctrl_follows s irq_mode pad_ctrl0 pad_ctrl1 :
  follows s → follows (BL808Pads.bl808_hbn_apply_aon_pad_ctrl irq_mode pad_ctrl0 pad_ctrl1 s).
Proof.
  intros Hf. unfold BL808Pads.bl808_hbn_apply_aon_pad_ctrl.
  apply (set_aon_iso_mode_follows s (tst pad_ctrl0 BL808Pads.BL808_HBN_PAD_ISO_MODE)) in Hf. revert Hf.
  generalize (bl808_glb_set_aon_iso_mode s (tst pad_ctrl0 BL808Pads.BL808_HBN_PAD_ISO_MODE)).
  generalize (tst irq_mode BL808Pads.BL808_HBN_REG_EN_HW_PU_PD). intros e s1 [Hp Hi]. split.
  - intros q Hq. set (f := BL808Pads.apply_pad e pad_ctrl0 pad_ctrl1).
    assert (∀ i x, settled e q x → settled e q (f x i)) as Hk by (intros; apply set_pad_settles; auto).
    destruct (bl808_glb_gpio_is_aon q) eqn:Ha.
    + assert (∃ i, 0 ≤ i < 9 ∧ BL808Pads.bl808_hbn_aon_gpio_map !% i = q) as (i & Hr & <-).
      { revert Ha. unfold bl808_glb_gpio_is_aon. intros Ha.
        assert (q = 9 ∨ q = 10 ∨ q = 11 ∨ q = 12 ∨ q = 13 ∨ q = 14 ∨ q = 15 ∨ q = 40 ∨ q = 41) as H by lia.
        destruct_or! H; subst; [by exists 0|by exists 1|by exists 2|by exists 3|by exists 4|by exists 5|by exists 6|by exists 7|by exists 8]. }
      apply (foldl_good f (settled e (BL808Pads.bl808_hbn_aon_gpio_map !% i)) True _ _ i); auto.
      * intros x _. apply set_pad_settles. auto.
      * left. split; [|done]. apply elem_of_seqZ. unfold BL808Pads.BL808_HBN_AON_PINS. lia.
    + apply (foldl_keep f (settled e q)); [auto|]. split; [auto|]. by rewrite Ha.
  - apply (foldl_keep _ irq_follows); [intros; by apply set_pad_irq|done].
Qed.

(** ** Sampling, registers and reset *)

Lemma tst_lor_other v n m : 0 ≤ n → 0 ≤ m → n ≠ m → tst (Z.lor v (BIT n)) (BIT m) = tst v (BIT m).
Proof.
  intros. rewrite !tst_BIT by done. rewrite Z.lor_spec, BIT_spec by done.
  destruct (Z.eqb_spec n m); [done|]. apply orb_false_r.
Qed.

(** What sampling leaves alone. *)
Lemma sample_pin_keeps q s p : follows_pin s q → follows_pin (sample_pin s p) q.
Proof.
  intros Hf. unfold sample_pin. cbv zeta.
  set (s1 := s <| gpio_sample_history := _ |>).
  assert (follows_pin s1 q) as H1 by (by apply (follows_pin_ext s)).
  destruct (_ && _); [|done]. clearbody s1. destruct (decide (q = p)) as [->|Hq].
  - apply (follows_pin_ext s1); rewrite ?cfg_fset_eq; try done.
    + by apply alike_lor.
    + by apply tst_lor_other.
  - apply (follows_pin_ext s1); rewrite ?cfg_fset_ne by done; done.
Qed.

Lemma sample_tick_follows now s : follows s → follows (bl808_glb_gpio_sample_tick now s).
Proof.
  intros [Hp Hi]. unfold bl808_glb_gpio_sample_tick. cbv zeta. destruct (mm_domain s); cbn [negb].
  - split; [|done]. intros q Hq. by apply (follows_pin_ext s), Hp.
  - assert (∀ q, 0 ≤ q < GLB_GPIO_PINS → follows_pin (foldl sample_pin s pins) q) as H.
    { intros q Hq. apply (foldl_keep sample_pin (λ s, follows_pin s q)); [|by apply Hp].
      intros. by apply sample_pin_keeps. }
    revert H. generalize (foldl sample_pin s pins). intros s1 H. split; [|done].
    intros q Hq. by apply (follows_pin_ext s1), H.
Qed.

Lemma existsb_agree {A} (f g : A → bool) l : (∀ x, x ∈ l → f x = g x) → existsb f l = existsb g l.
Proof.
  induction l as [|x l IH]; intros H; simpl; [done|].
  rewrite (H x), IH; [done| |by left]. intros y Hy. apply H. by right.
Qed.

(** A register that is not the configuration of a pin. *)
Lemma other_register offset pin :
  0 ≤ offset < 4 * GLB_REG_COUNT → bl808_glb_is_gpio_cfg offset = None → 0 ≤ pin < GLB_GPIO_PINS →
  u32 (offset / 4) ≠ cfg_idx pin.
Proof.
  unfold bl808_glb_is_gpio_cfg, cfg_idx, GLB_GPIO_CFG_BASE, GLB_GPIO_PINS, BL808_GLB_GPIO_PINS, GLB_REG_COUNT.
  intros Ho. destruct (_ || _) eqn:H; [|done]. intros _ Hp.
  assert (0 ≤ offset / 4 < 2048) by (split; [apply Z.div_pos|apply Z.div_lt_upper_bound]; lia).
  rewrite wrap_small by (unfold uint; lia). pose proof (Z.div_mod offset 4 ltac:(lia)).
  pose proof (Z.mod_pos_bound offset 4 ltac:(lia)).
  change (0x8C4 / 4) with 561. lia.
Qed.

Lemma write_follows s offset value size w :
  0 ≤ offset < 4 * GLB_REG_COUNT → follows s → follows (bl808_glb_write s offset value size w).1.
Proof.
  intros Ho Hf. unfold bl808_glb_write. destruct (bl808_glb_is_gpio_cfg offset) as [pin|] eqn:Hg.
  { by apply gpio_write_follows. }
  destruct (_ <=? _); [done|]. cbv zeta. cbn [fst].
  generalize (acknowledge s offset (u32 value)). intros v.
  set (s1 := s <| regs := fset (regs s) (u32 (offset / 4)) v |>).
  assert (∀ pin, 0 ≤ pin < GLB_GPIO_PINS → cfg s1 pin = cfg s pin) as Hc.
  { intros pin Hp. unfold cfg, s1. cbn [regs]. apply (fset_ne (regs s) _ (cfg_idx pin)). intros E. by apply (other_register offset pin). }
  assert (follows s1) as H1.
  { destruct Hf as [Hp Hi]. split.
    - intros pin Hq. specialize (Hp pin Hq). apply (follows_pin_ext s); rewrite ?Hc by done; done.
    - change (irq s1) with (irq s). rewrite Hi. f_equal. unfold irq_level. f_equal.
      apply existsb_agree. intros pin Hin%elem_of_pins. unfold int_pending. by rewrite (Hc pin Hin). }
  clearbody s1. destruct (_ && _ : bool); [|done]. destruct H1 as [Hp Hi]. split; [|done].
  intros pin Hq. by apply (follows_pin_ext s1), Hp.
Qed.

Lemma reset_pin_keeps s p q : follows_pin s q → follows_pin (reset_pin s p) q.
Proof.
  intros Hf. unfold reset_pin. cbv zeta.
  assert (follows_pin (bl808_glb_gpio_commit s p (cfg s p) (cfg s p)) q) as H.
  { destruct (decide (q = p)) as [->|]; [apply commit_makes|by apply commit_frame]. }
  revert H. generalize (bl808_glb_gpio_commit s p (cfg s p) (cfg s p)). intros s1 H. by apply (follows_pin_ext s1).
Qed.

Lemma reset_pin_makes s p : follows_pin (reset_pin s p) p.
Proof.
  unfold reset_pin. cbv zeta. pose proof (commit_makes s p (cfg s p) (cfg s p)) as H. revert H.
  generalize (bl808_glb_gpio_commit s p (cfg s p) (cfg s p)). intros s1 H. by apply (follows_pin_ext s1).
Qed.

(** A reset needs nothing of the state. *)
Lemma reset_follows now s w : follows (bl808_glb_reset now s w).1.
Proof.
  unfold bl808_glb_reset. cbv zeta. cbn [fst].
  assert (∀ q, 0 ≤ q < GLB_GPIO_PINS → follows_pin (foldl reset_pin (bl808_glb_apply_defaults s) pins) q) as Hp.
  { intros q Hq. apply (foldl_good reset_pin (λ s, follows_pin s q) True _ _ q).
    - intros. by apply reset_pin_keeps.
    - intros. apply reset_pin_makes.
    - left. by rewrite elem_of_pins. }
  revert Hp. generalize (foldl reset_pin (bl808_glb_apply_defaults s) pins). intros s1 Hp.
  split; [|done]. intros q Hq. by apply (follows_pin_ext s1), Hp.
Qed.

(** ** Runs *)

Inductive glb_event :=
  | EReset (now : Z)
  | ETick (now : Z)
  | ELine (pin level : Z)
  | EInput (pin : Z) (driven level : bool)
  | EPads (irq_mode pad_ctrl0 pad_ctrl1 : Z)
  | EWrite (offset value size : Z)
  | EClient (h : BL808GLBHook W).

Definition glb_step (sw : BL808GLBState W * W) (e : glb_event) : BL808GLBState W * W :=
  let '(s, w) := sw in
  match e with
  | EReset now => bl808_glb_reset now s w
  | ETick now => (bl808_glb_gpio_sample_tick now s, w)
  | ELine pin level => (bl808_glb_gpio_input_set s pin level, w)
  | EInput pin driven level => (bl808_glb_set_gpio_input_state s pin driven level, w)
  | EPads irq_mode pad_ctrl0 pad_ctrl1 =>
      (BL808Pads.bl808_hbn_apply_aon_pad_ctrl irq_mode pad_ctrl0 pad_ctrl1 s, w)
  | EWrite offset value size => bl808_glb_write s offset value size w
  | EClient h => bl808_glb_register_device s h w
  end.

(** Accesses reach the block in its window. *)
Definition in_window (e : glb_event) : Prop :=
  match e with EWrite offset _ _ => 0 ≤ offset < 4 * GLB_REG_COUNT | _ => True end.

Lemma step_follows sw e : in_window e → follows sw.1 → follows (glb_step sw e).1.
Proof.
  destruct sw as [s w]. cbn [fst]. intros Ho Hf. destruct e; cbn [glb_step fst].
  - apply reset_follows.
  - by apply sample_tick_follows.
  - by apply input_set_follows.
  - by apply set_input_state_follows.
  - by apply apply_aon_pad_ctrl_follows.
  - by apply write_follows.
  - unfold bl808_glb_register_device. destruct (take_slot (hooks s) h); [|done].
    destruct Hf as [Hp Hi]. split; [|done]. intros q Hq. by apply (follows_pin_ext s), Hp.
Qed.

Lemma run_follows es sw : Forall in_window es → follows sw.1 → follows (foldl glb_step sw es).1.
Proof.
  intros H. revert sw. induction H as [|e es He _ IH]; intros sw Hf; simpl; [done|]. by apply IH, step_follows.
Qed.

(** The address of the configuration register of a pin. *)
Definition cfg_offset (pin : Z) : Z := GLB_GPIO_CFG_BASE + 4 * pin.

Lemma cfg_offset_decodes pin : 0 ≤ pin < GLB_GPIO_PINS → bl808_glb_is_gpio_cfg (cfg_offset pin) = Some pin.
Proof.
  unfold bl808_glb_is_gpio_cfg, cfg_offset, GLB_GPIO_CFG_BASE, GLB_GPIO_PINS, BL808_GLB_GPIO_PINS. intros H.
  destruct (_ || _) eqn:E; [lia|]. f_equal. rewrite Z.add_simpl_l, Z.mul_comm. by apply Z.div_mul.
Qed.

Lemma read_cfg s pin size :
  0 ≤ pin < GLB_GPIO_PINS → follows_pin s pin → bl808_glb_read s (cfg_offset pin) size = cfg s pin.
Proof.
  intros Hp Hf. unfold bl808_glb_read. rewrite (cfg_offset_decodes pin Hp). unfold bl808_glb_gpio_read. cbv zeta.
  rewrite <- (fp_level _ _ Hf), <- (fp_input _ _ Hf). unfold GPIO_I. rewrite tst_BIT by lia.
  apply Z.bits_inj'. intros i Hi. destruct (Z.testbit (cfg s pin) 28) eqn:Hb.
  - rewrite Z.lor_spec, BIT_spec by lia. destruct (Z.eqb_spec 28 i) as [<-|]; [by rewrite Hb|apply orb_false_r].
  - rewrite clr_spec, BIT_spec by lia. destruct (Z.eqb_spec 28 i) as [<-|]; [by rewrite Hb|apply andb_true_r].
Qed.
End pads.
Arguments glb_event : clear implicits.

Section property.
Context {W : Type}.

(** C35: After a reset of the global control block, on every run of sampling ticks,
    changes of its inputs and of the controls of the always-on pads, register
    accesses and registrations of clients: the level line of every pin is the level
    that its configuration, its latch and its inputs give; its output line is the
    level that it drives; the register of the pin reads as the stored value, whose
    input bit is that level and whose output bit is the latch; and the three
    interrupt lines are high exactly when the block is not that of the multimedia
    domain and some pin has an unmasked interrupt status. *)
Theorem glb_pads_follow now (s0 : BL808GLBState W) w0 es pin size :
  Forall in_window es → 0 ≤ pin < GLB_GPIO_PINS →
  let s := (foldl glb_step (bl808_glb_reset now s0 w0) es).1 in
  gpio_level s pin = bl808_glb_gpio_effective_level s pin (cfg s pin) ∧
  gpio_out s pin = bl808_glb_gpio_drive_level s pin (cfg s pin) ∧
  bl808_glb_read s (cfg_offset pin) size = cfg s pin ∧
  tst (cfg s pin) GPIO_I = gpio_level s pin ∧
  tst (cfg s pin) GPIO_O = gpio_output s pin ∧
  irq s = replicate 3 (negb (mm_domain s) &&
    existsb (λ p, tst (cfg s p) GPIO_INT_STAT && negb (tst (cfg s p) GPIO_INT_MASK)) pins).
Proof.
  intros Hw Hp. pose proof (run_follows es _ Hw (reset_follows now s0 w0)) as Hf. cbv zeta.
  revert Hf. generalize (foldl glb_step (bl808_glb_reset now s0 w0) es).1. intros s [Hf Hi].
  pose proof (Hf pin Hp) as Hq. pose proof (read_cfg s pin size Hp Hq). destruct Hq. auto 8.
Qed.
End property.

(** ** Clients *)

Section clients.
Context {W B : Type}.
(** What a client keeps of its notifications: the state of its gate, of its reset
    and its setting, which is [conf] of the configuration register. *)
Context (gate rst : W → bool) (setting : W → B) (conf : Z → B).
Notation hook := (BL808GLBHook W).
Implicit Types s : BL808GLBState W.
Implicit Types h g : hook.

Definition sees (w w' : W) : Prop := gate w' = gate w ∧ rst w' = rst w ∧ setting w' = setting w.

Record obeys h : Prop := {
  ob_gate f b w : clock_enable h = Some f → gate (f b w) = b ∧ rst (f b w) = rst w ∧ setting (f b w) = setting w;
  ob_rst f b w : reset_assert h = Some f → rst (f b w) = b ∧ gate (f b w) = gate w ∧ setting (f b w) = setting w;
  ob_conf f o v w : clock_config_update h = Some f →
    setting (f o v w) = conf v ∧ gate (f o v w) = gate w ∧ rst (f o v w) = rst w;
}.

(** The callbacks of another device. *)
Record stranger g : Prop := {
  st_gate f b w : clock_enable g = Some f → sees w (f b w);
  st_rst f b w : reset_assert g = Some f → sees w (f b w);
  st_conf f o v w : clock_config_update g = Some f → sees w (f o v w);
}.

(** The registers that a client names: aligned, in the window, not of a pin. *)
Definition names (offset : Z) : Prop :=
  0 ≤ offset < 4 * GLB_REG_COUNT ∧ offset mod 4 = 0 ∧ bl808_glb_is_gpio_cfg offset = None.

Definition valid_hook h : Prop :=
  (clock_enable h ≠ None → names (gate_offset h)) ∧ (reset_assert h ≠ None → names (reset_offset h)) ∧
  (clock_config_update h ≠ None → names (config_offset h)).

(** What the client was last told is what the registers say. *)
Definition told (r : Z → Z) h (w : W) : Prop :=
  (clock_enable h ≠ None → gate w = tst (r (gate_offset h / 4)) (gate_mask h)) ∧
  (reset_assert h ≠ None → rst w = tst (r (reset_offset h / 4)) (reset_mask h)) ∧
  (clock_config_update h ≠ None → setting w = conf (r (config_offset h / 4))).

Lemma sees_refl w : sees w w.
Proof. done. Qed.

Lemma sees_trans w1 w2 w3 : sees w1 w2 → sees w2 w3 → sees w1 w3.
Proof. unfold sees. intuition congruence. Qed.

Lemma told_sees r h w w' : sees w w' → told r h w → told r h w'.
Proof. unfold sees, told. intuition congruence. Qed.

Lemma notify_stranger offset v v' g w : stranger g → sees w (notify_hook offset v v' g w).
Proof.
  intros [H1 H2 H3]. unfold notify_hook. cbv zeta.
  repeat match goal with |- context [match ?x with Some _ => _ | None => _ end] => destruct x eqn:?; cbv beta iota end;
    split_ifs; repeat first [apply sees_refl | eapply sees_trans; [|by eauto]].
Qed.

Lemma tell_stranger r g w : stranger g → sees w (tell_hook r g w).
Proof.
  intros [H1 H2 H3]. unfold tell_hook. cbv zeta.
  repeat match goal with |- context [match ?x with Some _ => _ | None => _ end] => destruct x eqn:?; cbv beta iota end;
    split_ifs; repeat first [apply sees_refl | eapply sees_trans; [|by eauto]].
Qed.

Lemma valid_offset offset : names offset → negb (offset =? GLB_INVALID_OFFSET) = true.
Proof.
  intros [H _]. destruct (Z.eqb_spec offset GLB_INVALID_OFFSET) as [->|]; [|done].
  unfold GLB_INVALID_OFFSET, GLB_REG_COUNT in H. lia.
Qed.

Lemma tell_told r h w : valid_hook h → obeys h → told r h (tell_hook r h w).
Proof.
  intros (V1 & V2 & V3) [H1 H2 H3]. unfold tell_hook. cbv zeta.
  set (w1 := match clock_enable h with Some _ => _ | None => w end).
  assert ((clock_enable h ≠ None → gate w1 = tst (r (gate_offset h / 4)) (gate_mask h)) ∧ rst w1 = rst w ∧ setting w1 = setting w) as S1.
  { unfold w1. destruct (clock_enable h) as [f|]; [|done]. rewrite valid_offset by auto. by destruct (H1 f (tst (r (gate_offset h / 4)) (gate_mask h)) w eq_refl). }
  clearbody w1. set (w2 := match reset_assert h with Some _ => _ | None => w1 end).
  assert ((reset_assert h ≠ None → rst w2 = tst (r (reset_offset h / 4)) (reset_mask h)) ∧ gate w2 = gate w1 ∧ setting w2 = setting w1) as S2.
  { unfold w2. destruct (reset_assert h) as [f|]; [|done]. rewrite valid_offset by auto. by destruct (H2 f (tst (r (reset_offset h / 4)) (reset_mask h)) w1 eq_refl). }
  clearbody w2. destruct S1 as (Sa & Sb & Sc), S2 as (Ta & Tb & Tc). rewrite <- Tb in Sa. unfold told.
  destruct (clock_config_update h) as [f|]; [|by auto].
  rewrite valid_offset by auto. destruct (H3 f (config_offset h) (r (config_offset h / 4)) w2 eq_refl) as (-> & -> & ->). auto.
Qed.

Lemma unchanged_bits v v' m : tst (Z.lxor v v') m = false → tst v' m = tst v m.
Proof.
  rewrite tst_false. intros H. unfold tst. do 2 f_equal. apply Z.bits_inj'. intros i Hi.
  apply (f_equal (λ z, Z.testbit z i)) in H. rewrite Z.land_spec, Z.lxor_spec, Z.bits_0 in H. rewrite !Z.land_spec.
  destruct (Z.testbit v i), (Z.testbit v' i), (Z.testbit m i); done.
Qed.

(** The register of an aligned offset. *)
Lemma reg_update r o offset (v : Z) :
  o mod 4 = 0 → offset mod 4 = 0 → fset r (offset / 4) v (o / 4) = if o =? offset then v else r (o / 4).
Proof.
  intros Ho Hf. unfold fset. pose proof (Z.div_mod o 4 ltac:(lia)). pose proof (Z.div_mod offset 4 ltac:(lia)).
  destruct (Z.eqb_spec o offset), (Z.eqb_spec (o / 4) (offset / 4)); done || lia || congruence.
Qed.

Lemma notify_told r offset v' h w :
  offset mod 4 = 0 → valid_hook h → obeys h → told r h w →
  told (fset r (offset / 4) v') h (notify_hook offset (r (offset / 4)) v' h w).
Proof.
  intros Ho (V1 & V2 & V3) [H1 H2 H3] (T1 & T2 & T3). unfold notify_hook. cbv zeta. set (v := r (offset / 4)) in *.
  set (w1 := match clock_enable h with Some _ => _ | None => w end).
  assert ((clock_enable h ≠ None → gate w1 = tst (fset r (offset / 4) v' (gate_offset h / 4)) (gate_mask h)) ∧
          rst w1 = rst w ∧ setting w1 = setting w) as S1.
  { unfold w1. destruct (clock_enable h) as [f|]; [|done]. destruct V1 as (? & ? & ?); [done|].
    rewrite reg_update by done. destruct (Z.eqb_spec (gate_offset h) offset) as [E|]; cbn [andb]; [|by auto].
    rewrite E in T1. destruct (tst (Z.lxor v v') _) eqn:Eb; [by destruct (H1 f (tst v' (gate_mask h)) w eq_refl)|].
    split; [|done]. intros _. rewrite T1 by done. symmetry. by apply unchanged_bits. }
  clearbody w1. set (w2 := match reset_assert h with Some _ => _ | None => w1 end).
  assert ((reset_assert h ≠ None → rst w2 = tst (fset r (offset / 4) v' (reset_offset h / 4)) (reset_mask h)) ∧
          gate w2 = gate w1 ∧ setting w2 = setting w1) as S2.
  { unfold w2. destruct (reset_assert h) as [f|]; [|done]. destruct V2 as (? & ? & ?); [done|]. destruct S1 as (_ & Hr & _).
    rewrite reg_update by done. rewrite <- Hr in T2.
    destruct (Z.eqb_spec (reset_offset h) offset) as [E|]; cbn [andb]; [|by auto].
    rewrite E in T2. destruct (tst (Z.lxor v v') _) eqn:Eb; [by destruct (H2 f (tst v' (reset_mask h)) w1 eq_refl)|].
    split; [|done]. intros _. rewrite T2 by done. symmetry. by apply unchanged_bits. }
  clearbody w2. destruct S1 as (Sa & Sb & Sc), S2 as (Ta & Tb & Tc). rewrite <- Tb in Sa. unfold told.
  destruct (clock_config_update h) as [f|]; [|by auto].
  destruct V3 as (? & ? & ?); [done|]. rewrite (reg_update r (config_offset h)) by done.
  destruct (Z.eqb_spec (config_offset h) offset).
  - destruct (H3 f offset v' w2 eq_refl) as (-> & -> & ->). auto.
  - split_and!; [auto|auto|]. intros _. rewrite Tc, Sc. auto.
Qed.

(** ** The slots *)

(** The hook [h] sits in a slot and the other hooks are strangers. *)
Definition placed (slots : list (option hook)) h : Prop :=
  ∃ l1 l2, slots = l1 ++ Some h :: l2 ∧ ∀ g, Some g ∈ l1 ++ l2 → stranger g.

Definition call (f : hook → W → W) (w : W) (oh : option hook) : W := match oh with Some h => f h w | None => w end.

Lemma foldl_strangers f l w :
  (∀ g w, stranger g → sees w (f g w)) → (∀ g, Some g ∈ l → stranger g) → sees w (foldl (call f) w l).
Proof.
  intros Hf. revert w. induction l as [|[g|] l IH]; intros w Hs; simpl; [done|..].
  - eapply sees_trans; [apply Hf, Hs; by left|]. apply IH. intros g' Hg. apply Hs. by right.
  - apply IH. intros g' Hg. apply Hs. by right.
Qed.

(** A round of calls to the slots. *)
Lemma foldl_placed f slots h w (P : W → Prop) :
  placed slots h → (∀ g w, stranger g → sees w (f g w)) → (∀ w w', sees w w' → P w → P w') →
  (∀ w', sees w w' → P (f h w')) → P (foldl (call f) w slots).
Proof.
  intros (l1 & l2 & -> & Hs) Hf HP Hh. rewrite foldl_app. simpl.
  eapply HP; [apply foldl_strangers; [exact Hf|]; intros g Hg; apply Hs, elem_of_app; auto|].
  apply Hh, foldl_strangers; [exact Hf|]. intros g Hg. apply Hs, elem_of_app. auto.
Qed.

Lemma take_slot_spec slots g slots' :
  take_slot slots g = Some slots' → ∃ l1 l2, slots = l1 ++ None :: l2 ∧ slots' = l1 ++ Some g :: l2.
Proof.
  revert slots'. induction slots as [|[g'|] slots IH]; intros slots'; simpl; [done|..].
  - intros (l & Hl & ->)%fmap_Some. destruct (IH l Hl) as (l1 & l2 & -> & ->). by exists (Some g' :: l1), l2.
  - intros [= <-]. by exists [], slots.
Qed.

Lemma take_slot_placed slots h g slots' :
  placed slots h → stranger g → take_slot slots g = Some slots' → placed slots' h.
Proof.
  intros (l1 & l2 & -> & Hs) Hg (k1 & k2 & He & ->)%take_slot_spec.
  assert (∃ m1 m2, k1 ++ Some g :: k2 = m1 ++ Some h :: m2 ∧
    ∀ g', Some g' ∈ m1 ++ m2 → g' = g ∨ Some g' ∈ l1 ++ l2) as (m1 & m2 & -> & Hm).
  { symmetry in He. apply app_eq_app in He as [k [[-> He]|[-> He]]].
    - destruct k as [|x k]; simplify_eq/=. exists l1, (k ++ Some g :: k2). split; [by rewrite <- app_assoc|].
      intros g'. rewrite !elem_of_app, !elem_of_cons. intros Hx. destruct_or! Hx; simplify_eq; auto.
    - destruct k as [|x k]; simplify_eq/=. exists (k1 ++ Some g :: k), l2. split; [by rewrite <- app_assoc|].
      intros g'. rewrite !elem_of_app, !elem_of_cons. intros Hx. destruct_or! Hx; simplify_eq; auto. }
  exists m1, m2. split; [done|]. intros g' Hg'. destruct (Hm g' Hg') as [->|?]; auto.
Qed.

(** ** What does not concern the clients *)

Definition apart (i : Z) : Prop := ∀ pin, 0 ≤ pin < GLB_GPIO_PINS → i ≠ cfg_idx pin.

Record quiet s s' : Prop := {
  qu_regs i : apart i → regs s' i = regs s i;
  qu_hooks : hooks s' = hooks s;
}.

Lemma glb_quiet_refl s : quiet s s.
Proof. by split. Qed.

Lemma glb_quiet_trans s1 s2 s3 : quiet s1 s2 → quiet s2 s3 → quiet s1 s3.
Proof. intros [H1 H2] [H3 H4]. split; [|congruence]. intros i Hi. by rewrite H3, H1. Qed.

Lemma foldl_quiet (f : BL808GLBState W → Z → BL808GLBState W) l s :
  (∀ s p, p ∈ l → quiet s (f s p)) → quiet s (foldl f s l).
Proof.
  revert s. induction l as [|p l IH]; intros s Hf; simpl; [apply glb_quiet_refl|].
  eapply glb_quiet_trans; [apply Hf; by left|]. apply IH. intros s' q Hq. apply Hf. by right.
Qed.

Lemma set_cfg_quiet s s' pin v : 0 ≤ pin < GLB_GPIO_PINS → quiet s s' → quiet s (set_cfg s' pin v).
Proof.
  intros Hp [H1 H2]. split; [|done]. intros i Hi. unfold set_cfg. cbn [regs set_field].
  rewrite fset_ne; [by apply H1|]. by apply Hi.
Qed.

Lemma commit_quiet s s' pin old new ol :
  0 ≤ pin < GLB_GPIO_PINS → quiet s s' → quiet s (bl808_glb_gpio_commit_with_old_level s' pin old new ol).
Proof.
  intros Hp Hq. unfold bl808_glb_gpio_commit_with_old_level, bl808_glb_gpio_reset_history. cbv zeta.
  destruct (tst (Z.lxor _ _) watched_bits); (eapply glb_quiet_trans; [apply (set_cfg_quiet s s' pin); [done|exact Hq]|by split]).
Qed.

Lemma sample_pin_quiet s p : 0 ≤ p < GLB_GPIO_PINS → quiet s (sample_pin s p).
Proof.
  intros Hp. unfold sample_pin. cbv zeta. destruct (_ && _); [|by split]. apply set_cfg_quiet; [done|by split].
Qed.

Lemma sample_tick_quiet now s : quiet s (bl808_glb_gpio_sample_tick now s).
Proof.
  unfold bl808_glb_gpio_sample_tick. cbv zeta. destruct (mm_domain s); cbn [negb]; [by split|].
  assert (quiet s (foldl sample_pin s pins)) as H.
  { apply foldl_quiet. intros s' p Hp%elem_of_pins. by apply sample_pin_quiet. }
  revert H. generalize (foldl sample_pin s pins). intros s1 [H1 H2]. by split.
Qed.

Lemma set_pad_quiet s pin ctrl enable oe pu pd : quiet s (bl808_glb_set_aon_pad_ctrl s pin ctrl enable oe pu pd).
Proof.
  unfold bl808_glb_set_aon_pad_ctrl. destruct (bl808_glb_gpio_is_aon pin) eqn:Ha.
  2: { rewrite orb_true_r. apply glb_quiet_refl. }
  apply aon_below in Ha. destruct (_ || _); [apply glb_quiet_refl|]. cbv zeta.
  apply commit_quiet; [lia|by split].
Qed.

Lemma set_aon_iso_mode_quiet s iso : quiet s (bl808_glb_set_aon_iso_mode s iso).
Proof.
  unfold bl808_glb_set_aon_iso_mode. cbv zeta.
  set (s1 := if negb (aon_iso_mode s) && iso then foldl retain_pin s pins else s).
  assert (quiet s s1) as H1.
  { unfold s1. destruct (_ && _); [|apply glb_quiet_refl]. apply foldl_quiet. intros s' p _.
    unfold retain_pin. by destruct (negb _). }
  clearbody s1. eapply (glb_quiet_trans _ (s1 <| aon_iso_mode := iso |>)).
  - destruct H1. by split.
  - apply foldl_quiet. intros s' p Hp%elem_of_pins. unfold recommit_aon. destruct (negb _); [apply glb_quiet_refl|].
    apply commit_quiet; [done|apply glb_quiet_refl].
Qed.

Lemma input_quiet s pin driven level :
  0 ≤ pin → quiet s (bl808_glb_set_gpio_input_state s pin driven level).
Proof.
  intros Hp. unfold bl808_glb_set_gpio_input_state. destruct (Z.leb_spec GLB_GPIO_PINS pin); [apply glb_quiet_refl|]. cbv zeta.
  apply commit_quiet; [lia|by split].
Qed.

Lemma line_quiet s pin level : quiet s (bl808_glb_gpio_input_set s pin level).
Proof.
  unfold bl808_glb_gpio_input_set. destruct (Z.ltb_spec pin 0), (Z.leb_spec GLB_GPIO_PINS pin); try apply glb_quiet_refl.
  apply commit_quiet; [lia|by split].
Qed.

(** The events of a device that is driven by the machine: accesses aligned and in
    the window, pin numbers unsigned, the other clients strangers. *)
Definition client_event (e : glb_event W) : Prop :=
  match e with
  | EWrite offset _ _ => 0 ≤ offset < 4 * GLB_REG_COUNT ∧ offset mod 4 = 0
  | EInput pin _ _ => 0 ≤ pin
  | EClient g => stranger g
  | _ => True
  end.

Definition client_inv h (sw : BL808GLBState W * W) : Prop :=
  placed (hooks sw.1) h ∧ told (regs sw.1) h sw.2.

Lemma window_idx offset : 0 ≤ offset < 4 * GLB_REG_COUNT → u32 (offset / 4) = offset / 4 ∧ offset / 4 < GLB_REG_COUNT.
Proof.
  unfold GLB_REG_COUNT. intros H. assert (0 ≤ offset / 4 < 2048) by (split; [apply Z.div_pos|apply Z.div_lt_upper_bound]; lia).
  split; [|lia]. apply wrap_small. unfold uint. lia.
Qed.

Lemma names_apart offset : names offset → apart (offset / 4).
Proof.
  intros (Hw & _ & Hc) pin Hp. pose proof (other_register offset pin Hw Hc Hp) as H.
  by rewrite (proj1 (window_idx offset Hw)) in H.
Qed.

Lemma told_quiet s s' h w : valid_hook h → quiet s s' → told (regs s) h w → told (regs s') h w.
Proof.
  intros (V1 & V2 & V3) [Hr _] (T1 & T2 & T3).
  split_and!; intros Hn; rewrite Hr by (apply names_apart; auto); auto.
Qed.

Lemma quiet_inv s s' h w : valid_hook h → quiet s s' → client_inv h (s, w) → client_inv h (s', w).
Proof.
  intros Hv Hq [Hp Ht]. split; cbn [fst snd] in *; [by rewrite (qu_hooks _ _ Hq)|by apply (told_quiet s)].
Qed.

Lemma apply_aon_pad_ctrl_quiet s irq_mode pad_ctrl0 pad_ctrl1 :
  quiet s (BL808Pads.bl808_hbn_apply_aon_pad_ctrl irq_mode pad_ctrl0 pad_ctrl1 s).
Proof.
  unfold BL808Pads.bl808_hbn_apply_aon_pad_ctrl. eapply glb_quiet_trans; [apply set_aon_iso_mode_quiet|].
  apply foldl_quiet. intros s' p _. unfold BL808Pads.apply_pad. apply set_pad_quiet.
Qed.

Lemma write_told s offset value size w h :
  0 ≤ offset < 4 * GLB_REG_COUNT → offset mod 4 = 0 → valid_hook h → obeys h →
  client_inv h (s, w) → client_inv h (bl808_glb_write s offset value size w).
Proof.
  intros Ho Ha Hv Hob [Hp Ht]. cbn [fst snd] in *. unfold bl808_glb_write.
  destruct (bl808_glb_is_gpio_cfg offset) as [pin|] eqn:Hg.
  { apply (quiet_inv s); [done| |by split]. unfold bl808_glb_gpio_write, bl808_glb_gpio_commit. cbv zeta.
    apply commit_quiet; [|apply glb_quiet_refl]. revert Hg. unfold bl808_glb_is_gpio_cfg.
    unfold GLB_GPIO_CFG_BASE, GLB_GPIO_PINS, BL808_GLB_GPIO_PINS. destruct (_ || _) eqn:E; [done|]. intros [= <-].
    split; [apply Z.div_pos; lia|apply Z.div_lt_upper_bound; lia]. }
  destruct (window_idx offset Ho) as [-> Hi]. destruct (Z.leb_spec GLB_REG_COUNT (offset / 4)); [lia|]. cbv zeta.
  generalize (acknowledge s offset (u32 value)). intros v.
  generalize (negb (mm_domain s) && (offset =? GLB_SWRST_CFG2) && negb (tst (regs s (offset / 4)) GLB_SWRST_CFG2_CHIP_RESET) && tst (u32 value) GLB_SWRST_CFG2_CHIP_RESET).
  intros b. set (s1 := if b then _ else _).
  assert (hooks s1 = hooks s ∧ regs s1 = fset (regs s) (offset / 4) v) as [Hh Hr] by (unfold s1; by destruct b).
  clearbody s1. split; cbn [fst snd]; [by rewrite Hh|]. rewrite Hr. unfold bl808_glb_update_clients. cbn [hooks set_field].
  apply (foldl_placed (notify_hook offset (regs s (offset / 4)) v) (hooks s) h w
    (told (fset (regs s) (offset / 4) v) h)); [done| | |].
  - intros g w' Hg'. by apply notify_stranger.
  - intros w' w''. apply told_sees.
  - intros w' Hs. apply notify_told; [done..|]. by eapply told_sees.
Qed.

Lemma reset_told now s w h :
  valid_hook h → obeys h → placed (hooks s) h → client_inv h (bl808_glb_reset now s w).
Proof.
  intros Hv Hob Hp. unfold bl808_glb_reset. cbv zeta.
  assert (quiet (bl808_glb_apply_defaults s) (foldl reset_pin (bl808_glb_apply_defaults s) pins)) as [_ Hh].
  { apply foldl_quiet. intros s' p Hin%elem_of_pins. unfold reset_pin, bl808_glb_gpio_reset_history. cbv zeta.
    eapply glb_quiet_trans; [apply commit_quiet; [exact Hin|apply glb_quiet_refl]|by split]. }
  assert (hooks (bl808_glb_apply_defaults s) = hooks s) as Hd.
  { unfold bl808_glb_apply_defaults. cbv zeta. by destruct (negb _). }
  rewrite Hd in Hh. revert Hh. generalize (foldl reset_pin (bl808_glb_apply_defaults s) pins). intros s1 Hh.
  split; cbn [fst snd]; [change (placed (hooks s1) h); by rewrite Hh|].
  change (told (regs s1) h (foldl (call (tell_hook (regs s1))) w (hooks s1))). rewrite Hh.
  apply (foldl_placed _ _ h w (told (regs s1) h)); [done| | |].
  - intros g w' Hg. by apply tell_stranger.
  - intros w' w''. apply told_sees.
  - intros w' _. by apply tell_told.
Qed.

Lemma client_step h sw e :
  valid_hook h → obeys h → client_event e → client_inv h sw → client_inv h (glb_step sw e).
Proof.
  destruct sw as [s w]. intros Hv Hob He Hi. destruct e as [now|now|pin level|pin driven level|irq_mode c0 c1|offset value size|g];
    cbn [glb_step client_event] in *.
  - apply reset_told; [done..|]. apply Hi.
  - by apply (quiet_inv s), Hi; [|apply sample_tick_quiet].
  - by apply (quiet_inv s), Hi; [|apply line_quiet].
  - by apply (quiet_inv s), Hi; [|apply input_quiet].
  - by apply (quiet_inv s), Hi; [|apply apply_aon_pad_ctrl_quiet].
  - destruct He. by apply write_told.
  - destruct Hi as [Hp Ht]. cbn [fst snd] in *. unfold bl808_glb_register_device.
    destruct (take_slot (hooks s) g) as [slots|] eqn:Hs; [|by split]. split; cbn [fst snd].
    + by apply (take_slot_placed (hooks s) h g).
    + change (told (regs s) h (tell_hook (regs s) g w)). eapply told_sees; [|exact Ht]. by apply tell_stranger.
Qed.

Lemma client_run h es sw :
  valid_hook h → obeys h → Forall client_event es → client_inv h sw → client_inv h (foldl glb_step sw es).
Proof.
  intros Hv Hob He. revert sw. induction He as [|e es Hwf _ IH]; intros sw Hi; simpl; [done|]. by apply IH, client_step.
Qed.

Lemma register_inv h s w slots :
  (∀ g, Some g ∈ hooks s → stranger g) → take_slot (hooks s) h = Some slots → valid_hook h → obeys h →
  client_inv h (bl808_glb_register_device s h w).
Proof.
  intros Hst Hs Hv Hob. unfold bl808_glb_register_device. rewrite Hs. split; cbn [fst snd]; [|by apply tell_told].
  apply take_slot_spec in Hs as (l1 & l2 & Hl & ->). exists l1, l2. split; [done|]. intros g Hg. apply Hst. rewrite Hl.
  rewrite elem_of_app, elem_of_cons. apply elem_of_app in Hg as [?|?]; auto.
Qed.

(** A device that is registered with the global control block knows its clock
    gate, its reset and its setting: when the other devices are strangers to what it
    keeps, then after its registration and on every later run of resets, register
    accesses, pad and input changes, sampling ticks and further registrations, what
    it was last told about the gate and the reset is whether the bits of its masks
    are set in the registers, and its setting is that of its configuration register. *)
Theorem glb_clients_follow h s w slots es :
  (∀ g, Some g ∈ hooks s → stranger g) → take_slot (hooks s) h = Some slots →
  valid_hook h → obeys h → Forall client_event es →
  let '(s', w') := foldl glb_step (bl808_glb_register_device s h w) es in
  (clock_enable h ≠ None → gate w' = tst (regs s' (gate_offset h / 4)) (gate_mask h)) ∧
  (reset_assert h ≠ None → rst w' = tst (regs s' (reset_offset h / 4)) (reset_mask h)) ∧
  (clock_config_update h ≠ None → setting w' = conf (regs s' (config_offset h / 4))).
Proof.
  intros Hst Hs Hv Hob He. pose proof (client_run h es _ Hv Hob He (register_inv h s w slots Hst Hs Hv Hob)) as [_ H].
  revert H. generalize (foldl glb_step (bl808_glb_register_device s h w) es). by intros [s' w'].
Qed.
End clients.

(** ** A run *)

Module GlbDemo.

Definition glb0 : BL808GLBState unit :=
  mk_glb [] [] no no None (λ _, 0) (replicate GLB_MAX_HOOKS None) (λ _, 0) no no no no no no no no no false false false false.

(** Pin 5 drives high, pin 40 is pulled up by the always-on domain, pin 7 is an
    input with a masked level interrupt that is then enabled. *)
Definition demo : list (glb_event unit) :=
  [EWrite (cfg_offset 5) 0x01000B40 4; EPads 0x10000 0x08000000 0x08000000; EWrite (cfg_offset 40) 0x1 4;
   EWrite (cfg_offset 7) 0x00030B01 4; EInput 7 true true; ETick 100; ETick 200; ETick 300].

Lemma glb_pads_follow_witness :
  let s := (foldl glb_step (bl808_glb_reset 0 glb0 tt) demo).1 in
  Forall in_window demo ∧ gpio_level s 5 = true ∧ gpio_out s 5 = true ∧ tst (bl808_glb_read s (cfg_offset 5) 4) GPIO_I = true ∧
  gpio_level s 40 = true ∧ irq s = [true; true; true].
Proof.
  assert (Forall in_window demo) as Hw by (repeat constructor; vm_compute; congruence).
  pose proof (glb_pads_follow 0 glb0 tt demo 5 4 Hw ltac:(vm_compute; split; congruence)) as H5.
  pose proof (glb_pads_follow 0 glb0 tt demo 40 4 Hw ltac:(vm_compute; split; congruence)) as H40.
  cbv zeta in *. destruct H5 as (L & O & R & I & _ & Q), H40 as (L' & _).
  split; [exact Hw|]. rewrite R, I, L, O, L', Q. vm_compute. auto 6.
Defined.
End GlbDemo.
