(* ===== verification/Sleep.v ===== *)
(** * The sleep controllers of the machine ([qemu-machine/hw/riscv/bl808.c])

    Module [BL808Sleep]: the power-down block PDS (sleep and wake-up, the sensing of
    the general-purpose pins), the hibernation block HBN (real-time clock and
    alarm, wake-up by the pins of the always-on domain with delay, comparators and
    sensors, analogue converter, retained registers), the infrared receiver, and
    the reset of the machine.  The state holds the part of [BL808MachineState] that
    these blocks keep and the rest of the machine as [env], whose operations are the
    interface [SleepEnv]. *)

From S2P Require Import Prelude Qemu Glb.
From stdpp Require Import prelude list.
From Stdlib Require Import ZArith Lia.
Import BL808GLB BL808Pads.
Local Open Scope Z_scope.

(** What the sleep controllers ask of the rest of the machine.  The registers of the
    two blocks are arguments where the code reads them there.  [apply_pads] and
    [apply_inputs] also return the calls that the pads make on their lines, the first
    one first; [boot_image] also returns whether the image that boots powers the
    multimedia domain, and the reset address of the low-power core if one is set. *)
Class SleepEnv (R : Type) := {
  apply_pads : Z → Z → Z → R → R * list line_call;     (* bl808_hbn_apply_aon_pad_ctrl *)
  refresh_timer0 : (Z → Z) → (Z → Z) → R → R;          (* bl808_soc_refresh_timer0_clocks *)
  refresh_timer1 : (Z → Z) → (Z → Z) → R → R;          (* bl808_soc_refresh_timer1_clocks *)
  update_mm_domain : bool → bool → R → R;              (* bl808_update_mm_domain_state *)
  update_lp : (Z → Z) → bool → R → R;                  (* bl808_update_lp_state *)
  hold_stopped_lp : (Z → Z) → R → R;                   (* bl808_hold_lp of a stopped core *)
  resume_cpu : Z → R → R;                              (* bl808_set_cpu_running at its pc *)
  adc_fifo_clear : R → R;                              (* bl808_gpip_adc_fifo_clear *)
  push_adc_sample : Z → R → R;                         (* bl808_gpip_push_adc_sample *)
  (* of bl808_machine_reset: *)
  reset_clock_regs : R → R;                            (* boot ROM, clock registers *)
  boot_image : R → R * (bool * option Z);              (* choice of the image *)
  reset_others : R → R;                                (* cores' entries, other blocks *)
  apply_inputs : R → R * list line_call;               (* bl808_apply_..._levels *)
  finish_reset : (Z → Z) → (Z → Z) → R → R;            (* UART and I2C clocks, core M0 *)
}.

Module BL808Sleep.

(** ** Constants *)

Definition BL808_PDS_CTL_OFFSET := 0x00.
Definition BL808_PDS_TIME1_OFFSET := 0x04.
Definition BL808_PDS_INT_OFFSET := 0x0C.
Definition BL808_PDS_CTL2_OFFSET := 0x10.
Definition BL808_PDS_STAT_OFFSET := 0x1C.
Definition BL808_PDS_GPIO_I_SET_OFFSET := 0x30.
Definition BL808_PDS_GPIO_PD_SET_OFFSET := 0x34.
Definition BL808_PDS_GPIO_INT_OFFSET := 0x40.
Definition BL808_PDS_GPIO_STAT_OFFSET := 0x44.
Definition BL808_PDS_CPU_CORE_CFG0_OFFSET := 0x110.
Definition BL808_PDS_CPU_CORE_CFG1_OFFSET := 0x114.
Definition BL808_PDS_CPU_CORE_CFG13_OFFSET := 0x144.
Definition BL808_PDS_REG_PICO_CLK_EN := BIT 28.
Definition BL808_PDS_REG_PLL_SEL_SHIFT := 4.
Definition BL808_PDS_CTL_START_PS := BIT 0.
Definition BL808_PDS_CTL_SLEEP_FOREVER := BIT 1.
Definition BL808_PDS_INT_WAKEUP := BIT 0.
Definition BL808_PDS_INT_STATUS_MASK := 0x0000000F.
Definition BL808_PDS_INT_MASK_BITS := 0x000000F0.
Definition BL808_PDS_INT_CLEAR := BIT 8.
Definition BL808_PDS_WAKEUP_SRC_EN_MASK := Z.shiftl 0x7FF 10.
Definition BL808_PDS_WAKEUP_EVENT_MASK := Z.shiftl 0x7FF 21.
Definition BL808_PDS_WAKEUP_SRC_TIMER := BIT 10.
Definition BL808_PDS_WAKEUP_SRC_HBN_IRQ := BIT 11.
Definition BL808_PDS_WAKEUP_SRC_GLB_GPIO := BIT 12.
Definition BL808_PDS_WAKEUP_SRC_PDS_GPIO := BIT 13.
Definition BL808_PDS_WAKEUP_SRC_IRRX := BIT 14.
Definition BL808_PDS_WAKEUP_SRC_WIFI_WKP := BIT 15.
Definition BL808_PDS_WAKEUP_SRC_DM_SLP := BIT 16.
Definition BL808_PDS_WAKEUP_SRC_WIFI_TBTT := BIT 19.
Definition BL808_PDS_STATUS_WIFI_TBTT_SLEEP := BIT 2.
Definition BL808_PDS_STATUS_WIFI_TBTT_WAKEUP := BIT 3.
Definition BL808_PDS_GPIO_IE_GROUP_MASK := 0x7.
Definition BL808_PDS_GPIO_PD_GROUP_MASK := Z.shiftl 0x7 3.
Definition BL808_PDS_GPIO_PU_GROUP_MASK := Z.shiftl 0x7 6.
Definition BL808_PDS_GPIO_INT_MASK_BITS := 0xFFFFFFFF.
Definition BL808_PDS_GPIO_SET1_CLR := BIT 2.
Definition BL808_PDS_GPIO_SET1_MODE_SHIFT := 4.
Definition BL808_PDS_GPIO_SET2_CLR := BIT 10.
Definition BL808_PDS_GPIO_SET2_MODE_SHIFT := 12.
Definition BL808_PDS_GPIO_SET3_CLR := BIT 18.
Definition BL808_PDS_GPIO_SET3_MODE_SHIFT := 20.
Definition BL808_PDS_GPIO_SET4_CLR := BIT 26.
Definition BL808_PDS_GPIO_SET4_MODE_SHIFT := 28.
Definition BL808_PDS_GPIO_SET_MODE_MASK := 0xF.
Definition BL808_PDS_STAT_BUSY := BIT 0.
Definition BL808_PDS_MM_PWR_OFF := BIT 1.
Definition BL808_PDS_MM_ISO_EN := BIT 5.
Definition BL808_PDS_MM_PDS_RST := BIT 9.
Definition BL808_PDS_MM_MEM_STBY := BIT 13.
Definition BL808_PDS_MM_GATE_CLK := BIT 17.
Definition BL808_PDS_MM_FORCE_MASK :=
  Z.lor (Z.lor (Z.lor (Z.lor BL808_PDS_MM_PWR_OFF BL808_PDS_MM_ISO_EN) BL808_PDS_MM_PDS_RST) BL808_PDS_MM_MEM_STBY)
        BL808_PDS_MM_GATE_CLK.

Definition BL808_HBN_CTL_OFFSET := 0x00.
Definition BL808_HBN_TIML_OFFSET := 0x04.
Definition BL808_HBN_TIMH_OFFSET := 0x08.
Definition BL808_HBN_RTC_TIML_OFFSET := 0x0C.
Definition BL808_HBN_RTC_TIMH_OFFSET := 0x10.
Definition BL808_HBN_IRQ_MODE_OFFSET := 0x14.
Definition BL808_HBN_IRQ_STAT_OFFSET := 0x18.
Definition BL808_HBN_IRQ_CLR_OFFSET := 0x1C.
Definition BL808_HBN_PIR_CFG_OFFSET := 0x20.
Definition BL808_HBN_GLB_OFFSET := 0x30.
Definition BL808_HBN_PAD_CTRL_0_OFFSET := 0x38.
Definition BL808_HBN_PAD_CTRL_1_OFFSET := 0x3C.
Definition BL808_HBN_RSV0_OFFSET := 0x100.
Definition BL808_HBN_RSV3_OFFSET := 0x10C.
Definition BL808_HBN_RSV_COUNT := 4.
Definition BL808_HBN_CTL_MODE := BIT 7.
Definition BL808_HBN_RTC_LATCH := BIT 31.
Definition BL808_HBN_IRQ_RTC_STAT := BIT 16.
Definition BL808_HBN_IRQ_PIR_STAT := BIT 17.
Definition BL808_HBN_IRQ_BOD_STAT := BIT 18.
Definition BL808_HBN_IRQ_BOD_EN := BIT 18.
Definition BL808_HBN_IRQ_ACOMP0_STAT := BIT 20.
Definition BL808_HBN_IRQ_ACOMP0_EN_SHIFT := 20.
Definition BL808_HBN_IRQ_ACOMP1_STAT := BIT 22.
Definition BL808_HBN_IRQ_ACOMP1_EN_SHIFT := 22.
Definition BL808_HBN_PIN_WAKEUP_MODE_SHIFT := 0.
Definition BL808_HBN_PIN_WAKEUP_MASK_SHIFT := 4.
Definition BL808_HBN_PIN_WAKEUP_SEL_SHIFT := 24.
Definition BL808_HBN_PIN_WAKEUP_SEL_LEN := 3.
Definition BL808_HBN_PIN_WAKEUP_EN := BIT 27.
Definition BL808_HBN_PIR_DIS_SHIFT := 4.
Definition BL808_HBN_PIR_DIS_MASK := Z.shiftl 0x3 BL808_HBN_PIR_DIS_SHIFT.
Definition BL808_HBN_PIR_EN := BIT 7.
Definition BL808_HBN_GPADC_CMD_OFFSET := 0x90c.
Definition BL808_HBN_GPADC_CFG1_OFFSET := 0x910.
Definition BL808_HBN_GPADC_SCAN_POS1 := 0x918.
Definition BL808_HBN_GPADC_SCAN_POS2 := 0x91c.
Definition BL808_HBN_GPADC_STATUS := 0x928.
Definition BL808_HBN_GPADC_RESULT := 0x930.
Definition BL808_HBN_GPADC_RAW_RESULT := 0x934.
Definition BL808_HBN_GPADC_GLOBAL_EN := BIT 0.
Definition BL808_HBN_GPADC_CONV_START := BIT 1.
Definition BL808_HBN_GPADC_POS_SEL_SHIFT := 8.
Definition BL808_HBN_GPADC_SCAN_EN := BIT 25.
Definition BL808_HBN_GPADC_SCAN_LEN_SHIFT := 21.
Definition BL808_HBN_OUT0_STATUS_MASK := Z.lor 0x000001FF BL808_HBN_IRQ_RTC_STAT.
Definition BL808_HBN_OUT1_STATUS_MASK := Z.lor (Z.lor (Z.lor (BIT 17) (BIT 18)) (BIT 20)) (BIT 22).
Definition BL808_HBN_F32K_HZ := 32768.
Definition BL808_HBN_F32K_PERIOD_NS := (1000000000 + BL808_HBN_F32K_HZ - 1) / BL808_HBN_F32K_HZ.

Definition BL808_IR_SIZE := 0x100.
Definition BL808_IR_RX_CFG_OFFSET := 0x40.
Definition BL808_IR_RX_INT_STS_OFFSET := 0x44.
Definition BL808_IR_RX_DATA_COUNT_OFFSET := 0x50.
Definition BL808_IR_RX_DATA_WORD0_OFFSET := 0x54.
Definition BL808_IR_RX_DATA_WORD1_OFFSET := 0x58.
Definition BL808_IR_RX_CFG_EN := BIT 0.
Definition BL808_IR_RX_END_INT := BIT 0.
Definition BL808_IR_RX_END_MASK := BIT 8.
Definition BL808_IR_RX_END_CLR := BIT 16.
Definition BL808_IR_RX_END_EN := BIT 24.
Definition BL808_IR_RX_INT_STATUS_MASK := 0x00000007.
Definition BL808_IR_RX_INT_CTRL_MASK := 0x07000700.
Definition BL808_IR_RX_DATA_COUNT_MASK := 0x0000007F.

(** ** State *)

Record BL808MachineState {R : Type} := mk_machine {
  virtual_ns : Z;                        (* qemu_clock_get_ns(QEMU_CLOCK_VIRTUAL) *)
  virtual_rt_ns : Z;                     (* qemu_clock_get_ns(QEMU_CLOCK_VIRTUAL_RT) *)
  env : R;                               (* the rest of the machine *)
  pds_wake_timer : option Z;             (* deadlines *)
  pds_gpio_sample_timer : option Z;
  hbn_alarm_timer : option Z;
  hbn_alarm_rt_timer : option Z;
  hbn_gpio_sample_timer : option Z;
  hbn_gpio_delay_timer : option Z;
  pds_regs : Z → Z;                      (* uint32_t [0x1000 / 4] *)
  hbn_regs : Z → Z;
  hbn_rtc_latch : Z;                     (* uint64_t *)
  mm_powered_on : bool;
  pds_sleep_pending : bool;
  glb_gpio_irq_pending : bool;
  hbn_rtc_latched : bool;
  hbn_wake_pending : bool;
  hbn_aon_level : Z → bool;
  hbn_pir_level : bool;
  hbn_bod_level : bool;
  hbn_acomp0_level : bool;
  hbn_acomp1_level : bool;
  hbn_aon_history : Z → Z;               (* uint8_t *)
  hbn_aon_delay_deadline_ns : Z → Z;     (* int64_t, negative if not armed *)
  pds_wakeup_irq : bool;                 (* levels of m0_pds_wakeup_irq and d0_pds_irq *)
  m0_hbn_out0_irq : bool;
  m0_hbn_out1_irq : bool;
  pds_sleep_cpu : option Z;              (* the hart that sleeps *)
  pds_gpio_level : Z → bool;
  pds_gpio_history : Z → Z;              (* uint8_t *)
  system_reset_called : bool;            (* qemu_system_reset *)
  ir_regs : Z → Z;                       (* uint32_t [0x100 / 4] *)
  irrx_irq : bool;                       (* level of m0_irrx_irq and lp_irrx_irq *)
  irrx_inject_data : Z;                  (* uint32_t *)
  irrx_inject_data1 : Z;
  irrx_inject_bits : Z;
}.
Arguments BL808MachineState : clear implicits.

#[export] Instance eta_sleep {R} : Eta (BL808MachineState R) := λ r,
  mk_machine R (virtual_ns r) (virtual_rt_ns r) (env r) (pds_wake_timer r) (pds_gpio_sample_timer r) (hbn_alarm_timer r)
    (hbn_alarm_rt_timer r) (hbn_gpio_sample_timer r) (hbn_gpio_delay_timer r) (pds_regs r) (hbn_regs r)
    (hbn_rtc_latch r) (mm_powered_on r) (pds_sleep_pending r) (glb_gpio_irq_pending r) (hbn_rtc_latched r)
    (hbn_wake_pending r) (hbn_aon_level r) (hbn_pir_level r) (hbn_bod_level r) (hbn_acomp0_level r)
    (hbn_acomp1_level r) (hbn_aon_history r) (hbn_aon_delay_deadline_ns r) (pds_wakeup_irq r) (m0_hbn_out0_irq r)
    (m0_hbn_out1_irq r) (pds_sleep_cpu r) (pds_gpio_level r) (pds_gpio_history r) (system_reset_called r)
    (ir_regs r) (irrx_irq r) (irrx_inject_data r) (irrx_inject_data1 r) (irrx_inject_bits r).

(** ** Modes of the wake-up pins *)

Definition bl808_hbn_gpio_irq_immediate (mode : Z) (old_level new_level : bool) : bool :=
  if mode =? 0x8 then old_level && negb new_level
  else if mode =? 0x9 then negb old_level && new_level
  else false.

Definition bl808_hbn_gpio_irq_sampled (mode history : Z) : bool :=
  if mode =? 0x0 then history =? 0x4
  else if mode =? 0x1 then history =? 0x3
  else if (mode =? 0x2) || (mode =? 0xA) then history =? 0x0
  else if (mode =? 0x3) || (mode =? 0xB) then history =? 0x7
  else if mode =? 0x4 then (history =? 0x4) || (history =? 0x3)
  else false.

Definition bl808_hbn_gpio_mode_is_edge (mode : Z) : bool :=
  (mode =? 0x0) || (mode =? 0x1) || (mode =? 0x4) || (mode =? 0x8) || (mode =? 0x9).

Definition bl808_hbn_gpio_mode_is_level (mode : Z) : bool :=
  (mode =? 0x2) || (mode =? 0x3) || (mode =? 0xA) || (mode =? 0xB).

Definition bl808_hbn_gpio_level_active (mode : Z) (level : bool) : bool :=
  if (mode =? 0xA) || (mode =? 0xB) then bl808_hbn_gpio_irq_sampled mode (if level then 0x7 else 0x0)
  else false.

Definition bl808_pds_gpio_sampling_mode (mode : Z) : bool := mode <=? 0x4.
Definition bl808_hbn_gpio_sampling_mode (mode : Z) : bool := mode <=? 0x4.

(** A sample enters a history of three. *)
Definition shift_history (history : Z) (level : bool) : Z :=
  Z.land (u8 (Z.lor (Z.shiftl history 1) (if level then 1 else 0))) 0x7.

Definition full_history (level : bool) : Z := if level then 0x7 else 0x0.

Definition bl808_pds_gpio_pad_group (idx : Z) : Z := if idx <=? 8 then 0 else if idx <=? 16 then 1 else 2.

Definition bl808_pds_gpio_int_set (idx : Z) : Z :=
  if idx <=? 7 then 0 else if idx <=? 15 then 1 else if idx <=? 23 then 2 else 3.

Definition bl808_pds_gpio_set_mask (set : Z) : Z :=
  if set =? 0 then 0x000000FF
  else if set =? 1 then 0x0000FF00
  else if set =? 2 then 0x00FF0000
  else 0xFF000000.

Definition bl808_pds_wakeup_event_bit (source_bit : Z) : Z := u32 (Z.shiftl source_bit 11).

Definition bl808_pds_mm_powered_on (ctl2 : Z) : bool := negb (tst ctl2 BL808_PDS_MM_FORCE_MASK).

Definition bl808_pds_status_unmasked (reg bit : Z) : bool := tst reg (BIT bit) && negb (tst reg (BIT (bit + 4))).

(** [bl808_pds_owner_cpu], of the hart that makes an access. *)
Definition bl808_pds_owner_cpu (current_cpu : option Z) : option Z :=
  match current_cpu with
  | Some hart => if (hart =? 0) || (hart =? 2) then Some hart else None
  | None => None
  end.

Definition bl808_hbn_adc_sample (channel : Z) : Z :=
  if channel =? 14 then 0x0580
  else if channel =? 15 then 0x0900
  else 0x0400 + Z.shiftl (Z.land channel 0xf) 6.

Section sleep.
Context {R : Type} `{!SleepEnv R}.
Notation state := (BL808MachineState R).
Implicit Types s : state.

(** The registers by their offsets. *)
Definition pds s (offset : Z) : Z := pds_regs s (offset / 4).
Definition hbn s (offset : Z) : Z := hbn_regs s (offset / 4).
Definition set_pds s (offset v : Z) : state := s <| pds_regs := fset (pds_regs s) (offset / 4) v |>.
Definition set_hbn s (offset v : Z) : state := s <| hbn_regs := fset (hbn_regs s) (offset / 4) v |>.

(** ** PDS: interrupts and wake-up *)

Definition bl808_pds_update_irq s : state :=
  let reg := pds s BL808_PDS_INT_OFFSET in
  s <| pds_wakeup_irq := bl808_pds_status_unmasked reg 0 || bl808_pds_status_unmasked reg 1 ||
                         bl808_pds_status_unmasked reg 2 || bl808_pds_status_unmasked reg 3 |>.

Definition bl808_pds_clear_int s : state :=
  bl808_pds_update_irq
    (set_pds s BL808_PDS_INT_OFFSET
       (clr (pds s BL808_PDS_INT_OFFSET) (Z.lor BL808_PDS_INT_STATUS_MASK BL808_PDS_WAKEUP_EVENT_MASK))).

Definition bl808_pds_complete_sleep s : state :=
  let cpu := pds_sleep_cpu s in
  let s := s <| pds_wake_timer := None |> <| pds_sleep_pending := false |> <| pds_sleep_cpu := None |> in
  let s := set_pds s BL808_PDS_CTL_OFFSET (clr (pds s BL808_PDS_CTL_OFFSET) BL808_PDS_CTL_START_PS) in
  let s := set_pds s BL808_PDS_STAT_OFFSET (clr (pds s BL808_PDS_STAT_OFFSET) BL808_PDS_STAT_BUSY) in
  let s := bl808_pds_update_irq s in
  match cpu with Some hart => s <| env := resume_cpu hart (env s) |> | None => s end.

Definition bl808_pds_wakeup_source_enabled s (source_bit : Z) : bool := tst (pds s BL808_PDS_INT_OFFSET) source_bit.

Definition bl808_pds_trigger_wakeup s (source_bit : Z) : state :=
  if negb (bl808_pds_wakeup_source_enabled s source_bit) then s
  else
    let s := set_pds s BL808_PDS_INT_OFFSET
               (Z.lor (pds s BL808_PDS_INT_OFFSET) (Z.lor BL808_PDS_INT_WAKEUP (bl808_pds_wakeup_event_bit source_bit))) in
    let s := bl808_pds_update_irq s in
    if pds_sleep_pending s then bl808_pds_complete_sleep s else s.

Definition bl808_pds_raise_status s (status_bit : Z) : state :=
  bl808_pds_update_irq (set_pds s BL808_PDS_INT_OFFSET (Z.lor (pds s BL808_PDS_INT_OFFSET) status_bit)).

Definition bl808_pds_trigger_wifi_tbtt s (status_bit : Z) : state :=
  bl808_pds_trigger_wakeup (bl808_pds_raise_status s status_bit) BL808_PDS_WAKEUP_SRC_WIFI_TBTT.

Definition bl808_set_wifi_wakeup_event s (value : bool) : state :=
  if negb value then s else bl808_pds_trigger_wakeup s BL808_PDS_WAKEUP_SRC_WIFI_WKP.

Definition bl808_set_dm_sleep_irq s (value : bool) : state :=
  if negb value then s else bl808_pds_trigger_wakeup s BL808_PDS_WAKEUP_SRC_DM_SLP.

Definition bl808_set_wifi_tbtt_sleep s (value : bool) : state :=
  if negb value then s else bl808_pds_trigger_wifi_tbtt s BL808_PDS_STATUS_WIFI_TBTT_SLEEP.

Definition bl808_set_wifi_tbtt_wakeup s (value : bool) : state :=
  if negb value then s else bl808_pds_trigger_wifi_tbtt s BL808_PDS_STATUS_WIFI_TBTT_WAKEUP.

Definition bl808_glb_pds_wakeup_set s (level : bool) : state :=
  let s := s <| glb_gpio_irq_pending := level |> in
  if level then bl808_pds_trigger_wakeup s BL808_PDS_WAKEUP_SRC_GLB_GPIO else s.

(** ** PDS: pins *)

Definition bl808_pds_gpio_int_mode s (idx : Z) : Z :=
  let reg := pds s BL808_PDS_GPIO_INT_OFFSET in
  let set := bl808_pds_gpio_int_set idx in
  if set =? 0 then extract32 reg BL808_PDS_GPIO_SET1_MODE_SHIFT 4
  else if set =? 1 then extract32 reg BL808_PDS_GPIO_SET2_MODE_SHIFT 4
  else if set =? 2 then extract32 reg BL808_PDS_GPIO_SET3_MODE_SHIFT 4
  else extract32 reg BL808_PDS_GPIO_SET4_MODE_SHIFT 4.

Definition bl808_pds_gpio_ie_enabled s (idx : Z) : bool :=
  negb (extract32 (pds s BL808_PDS_GPIO_I_SET_OFFSET) (bl808_pds_gpio_pad_group idx) 1 =? 0).

Definition bl808_pds_gpio_unmasked s (idx : Z) : bool := negb (tst (pds s BL808_PDS_GPIO_PD_SET_OFFSET) (BIT idx)).

Definition bl808_pds_gpio_event_enabled s (idx : Z) : bool :=
  bl808_pds_gpio_ie_enabled s idx && bl808_pds_gpio_unmasked s idx.

Definition pds_pins : list Z := seqZ 0 32.

Definition bl808_pds_gpio_sample_needed s : bool :=
  existsb (λ idx, bl808_pds_gpio_event_enabled s idx && bl808_pds_gpio_sampling_mode (bl808_pds_gpio_int_mode s idx))
    pds_pins.

Definition bl808_pds_gpio_sample_reschedule s : state :=
  if negb (bl808_pds_gpio_sample_needed s) then s <| pds_gpio_sample_timer := None |>
  else s <| pds_gpio_sample_timer := Some (virtual_ns s + BL808_HBN_F32K_PERIOD_NS) |>.

Definition bl808_pds_gpio_reset_history s (idx : Z) : state :=
  s <| pds_gpio_history := fset (pds_gpio_history s) idx (full_history (pds_gpio_level s idx)) |>.

Definition bl808_pds_gpio_update_wakeup s : state :=
  if negb (pds s BL808_PDS_GPIO_STAT_OFFSET =? 0) then bl808_pds_trigger_wakeup s BL808_PDS_WAKEUP_SRC_PDS_GPIO else s.

Definition raise_pin s (idx : Z) : state :=
  set_pds s BL808_PDS_GPIO_STAT_OFFSET (Z.lor (pds s BL808_PDS_GPIO_STAT_OFFSET) (BIT idx)).

Definition refresh_pin s (idx : Z) : state :=
  if negb (bl808_pds_gpio_event_enabled s idx) then s
  else
    let mode := bl808_pds_gpio_int_mode s idx in
    if (mode =? 0xA) || (mode =? 0xB) then
      if bl808_hbn_gpio_level_active mode (pds_gpio_level s idx) then raise_pin s idx else s
    else s.

Definition bl808_pds_gpio_refresh_live_sources s : state := bl808_pds_gpio_update_wakeup (foldl refresh_pin s pds_pins).

Definition bl808_pds_gpio_clear_set s (set : Z) : state :=
  bl808_pds_gpio_refresh_live_sources
    (set_pds s BL808_PDS_GPIO_STAT_OFFSET (clr (pds s BL808_PDS_GPIO_STAT_OFFSET) (bl808_pds_gpio_set_mask set))).

Definition bl808_pds_gpio_level_set s (n : Z) (level : bool) : state :=
  let idx := bl808_pds_gpio_index_from_pin n in
  if idx <? 0 then s
  else
    let old_level := pds_gpio_level s idx in
    let new_level := level in
    let s := s <| pds_gpio_level := fset (pds_gpio_level s) idx new_level |> in
    if negb (bl808_pds_gpio_event_enabled s idx) then s
    else
      let mode := bl808_pds_gpio_int_mode s idx in
      if bl808_hbn_gpio_irq_immediate mode old_level new_level || bl808_hbn_gpio_level_active mode new_level
      then bl808_pds_gpio_update_wakeup (raise_pin s idx) else s.

Definition sample_pds_pin s (idx : Z) : state :=
  let mode := bl808_pds_gpio_int_mode s idx in
  let s := s <| pds_gpio_history := fset (pds_gpio_history s) idx
                                      (shift_history (pds_gpio_history s idx) (pds_gpio_level s idx)) |> in
  if negb (bl808_pds_gpio_event_enabled s idx) then s
  else if bl808_hbn_gpio_irq_sampled mode (pds_gpio_history s idx) then raise_pin s idx
  else s.

Definition bl808_pds_gpio_sample_cb s : state :=
  bl808_pds_gpio_sample_reschedule (bl808_pds_gpio_update_wakeup (foldl sample_pds_pin s pds_pins)).

(** ** HBN: wake-up pins *)

Definition bl808_hbn_update_irqs s : state :=
  let stat := hbn s BL808_HBN_IRQ_STAT_OFFSET in
  let out0_asserted := tst stat BL808_HBN_OUT0_STATUS_MASK in
  let out1_asserted := tst stat BL808_HBN_OUT1_STATUS_MASK in
  let s := s <| m0_hbn_out0_irq := out0_asserted |> <| m0_hbn_out1_irq := out1_asserted |> in
  if out0_asserted || out1_asserted then bl808_pds_trigger_wakeup s BL808_PDS_WAKEUP_SRC_HBN_IRQ else s.

Definition bl808_hbn_gpio_mode s : Z := extract32 (hbn s BL808_HBN_IRQ_MODE_OFFSET) BL808_HBN_PIN_WAKEUP_MODE_SHIFT 4.

Definition bl808_hbn_gpio_mask s : Z :=
  extract32 (hbn s BL808_HBN_IRQ_MODE_OFFSET) BL808_HBN_PIN_WAKEUP_MASK_SHIFT BL808_HBN_AON_PINS.

Definition bl808_hbn_gpio_delay_enabled s : bool := tst (hbn s BL808_HBN_IRQ_MODE_OFFSET) BL808_HBN_PIN_WAKEUP_EN.

Definition bl808_hbn_gpio_delay_ns s : Z :=
  let seconds := extract32 (hbn s BL808_HBN_IRQ_MODE_OFFSET) BL808_HBN_PIN_WAKEUP_SEL_SHIFT BL808_HBN_PIN_WAKEUP_SEL_LEN in
  let seconds := if seconds =? 0 then 1 else seconds in
  u64 (seconds * NANOSECONDS_PER_SECOND).

Definition bl808_hbn_gpio_sample_needed s : bool :=
  negb (bl808_hbn_gpio_mask s =? 0) && bl808_hbn_gpio_sampling_mode (bl808_hbn_gpio_mode s).

Definition bl808_hbn_gpio_sample_reschedule s : state :=
  if negb (bl808_hbn_gpio_sample_needed s) then s <| hbn_gpio_sample_timer := None |>
  else s <| hbn_gpio_sample_timer := Some (virtual_ns s + BL808_HBN_F32K_PERIOD_NS) |>.

Definition bl808_hbn_reset_aon_history s (pin : Z) : state :=
  s <| hbn_aon_history := fset (hbn_aon_history s) pin (full_history (hbn_aon_level s pin)) |>.

Definition bl808_hbn_gpio_sample_level_active s (pin mode : Z) : bool :=
  if (mode =? 0x2) || (mode =? 0x3) then bl808_hbn_gpio_irq_sampled mode (hbn_aon_history s pin) else false.

Definition aon_pins : list Z := seqZ 0 BL808_HBN_AON_PINS.

(** The earliest deadline of a pin, negative if no pin has one. *)
Definition earliest (deadlines : Z → Z) : Z :=
  foldl (λ deadline_ns pin,
           let pin_deadline := deadlines pin in
           if pin_deadline <? 0 then deadline_ns
           else if (deadline_ns <? 0) || (pin_deadline <? deadline_ns) then pin_deadline
           else deadline_ns) (-1) aon_pins.

Definition bl808_hbn_gpio_delay_reschedule s : state :=
  let deadline_ns := earliest (hbn_aon_delay_deadline_ns s) in
  if deadline_ns <? 0 then s <| hbn_gpio_delay_timer := None |>
  else s <| hbn_gpio_delay_timer := Some deadline_ns |>.

Definition bl808_hbn_gpio_delay_cancel_pin s (pin : Z) : state :=
  s <| hbn_aon_delay_deadline_ns := fset (hbn_aon_delay_deadline_ns s) pin (-1) |>.

Definition bl808_hbn_gpio_delay_cancel_all s : state :=
  bl808_hbn_gpio_delay_reschedule (foldl bl808_hbn_gpio_delay_cancel_pin s aon_pins).

Definition bl808_hbn_gpio_delay_arm_pin s (pin : Z) : state :=
  let stat := hbn s BL808_HBN_IRQ_STAT_OFFSET in
  let mask := bl808_hbn_gpio_mask s in
  if negb (bl808_hbn_gpio_delay_enabled s) || negb (tst mask (BIT pin)) || tst stat (BIT pin) ||
     (0 <=? hbn_aon_delay_deadline_ns s pin)
  then s
  else
    let now_ns := virtual_ns s in
    bl808_hbn_gpio_delay_reschedule
      (s <| hbn_aon_delay_deadline_ns := fset (hbn_aon_delay_deadline_ns s) pin (now_ns + bl808_hbn_gpio_delay_ns s) |>).

Definition bl808_hbn_gpio_delay_qualifies s (pin : Z) : bool :=
  let mode := bl808_hbn_gpio_mode s in
  if bl808_hbn_gpio_mode_is_edge mode then true
  else if bl808_hbn_gpio_sample_level_active s pin mode then true
  else bl808_hbn_gpio_level_active mode (hbn_aon_level s pin).

Definition latch_pin s (pin : Z) : state :=
  set_hbn s BL808_HBN_IRQ_STAT_OFFSET (Z.lor (hbn s BL808_HBN_IRQ_STAT_OFFSET) (BIT pin)).

Definition expire_pin (now_ns : Z) s (pin : Z) : state :=
  let deadline_ns := hbn_aon_delay_deadline_ns s pin in
  if (deadline_ns <? 0) || (now_ns <? deadline_ns) then s
  else
    let s := bl808_hbn_gpio_delay_cancel_pin s pin in
    if bl808_hbn_gpio_delay_qualifies s pin then latch_pin s pin else s.

Definition bl808_hbn_gpio_delay_cb s : state :=
  bl808_hbn_gpio_delay_reschedule (bl808_hbn_update_irqs (foldl (expire_pin (virtual_ns s)) s aon_pins)).

Definition bl808_hbn_gpio_sync_delayed_level s (pin : Z) : state :=
  let mode := bl808_hbn_gpio_mode s in
  let stat := hbn s BL808_HBN_IRQ_STAT_OFFSET in
  if negb (bl808_hbn_gpio_delay_enabled s) || negb (bl808_hbn_gpio_mode_is_level mode) || tst stat (BIT pin) then s
  else
    let active := bl808_hbn_gpio_sample_level_active s pin mode ||
                  bl808_hbn_gpio_level_active mode (hbn_aon_level s pin) in
    if active then bl808_hbn_gpio_delay_arm_pin s pin else bl808_hbn_gpio_delay_cancel_pin s pin.

Definition refresh_aon_pin (mode mask : Z) s (pin : Z) : state :=
  if negb (tst mask (BIT pin)) then bl808_hbn_gpio_delay_cancel_pin s pin
  else
    let active := bl808_hbn_gpio_level_active mode (hbn_aon_level s pin) in
    if bl808_hbn_gpio_delay_enabled s then
      if active then bl808_hbn_gpio_delay_arm_pin s pin else bl808_hbn_gpio_delay_cancel_pin s pin
    else if active then latch_pin s pin
    else s.

Definition bl808_hbn_refresh_gpio_live_sources s : state :=
  let mode := bl808_hbn_gpio_mode s in
  let mask := bl808_hbn_gpio_mask s in
  if negb (mode =? 0xA) && negb (mode =? 0xB) then bl808_hbn_update_irqs s
  else bl808_hbn_gpio_delay_reschedule (bl808_hbn_update_irqs (foldl (refresh_aon_pin mode mask) s aon_pins)).

Definition bl808_hbn_gpio_level_set s (n : Z) (level : bool) : state :=
  let mode := bl808_hbn_gpio_mode s in
  let mask := bl808_hbn_gpio_mask s in
  if (n <? 0) || (BL808_HBN_AON_PINS <=? n) then s
  else
    let old_level := hbn_aon_level s n in
    let new_level := level in
    let s := s <| hbn_aon_level := fset (hbn_aon_level s) n new_level |> in
    if negb (tst mask (BIT n)) then bl808_hbn_gpio_delay_reschedule (bl808_hbn_gpio_delay_cancel_pin s n)
    else if bl808_hbn_gpio_delay_enabled s then
      let s := if bl808_hbn_gpio_irq_immediate mode old_level new_level then bl808_hbn_gpio_delay_arm_pin s n
               else if (mode =? 0xA) || (mode =? 0xB) then
                 if bl808_hbn_gpio_level_active mode new_level then bl808_hbn_gpio_delay_arm_pin s n
                 else bl808_hbn_gpio_delay_cancel_pin s n
               else s in
      bl808_hbn_gpio_delay_reschedule s
    else if bl808_hbn_gpio_irq_immediate mode old_level new_level then bl808_hbn_update_irqs (latch_pin s n)
    else if (mode =? 0xA) || (mode =? 0xB) then bl808_hbn_refresh_gpio_live_sources s
    else s.

Definition sample_aon_pin (mode mask : Z) s (pin : Z) : state :=
  let s := s <| hbn_aon_history := fset (hbn_aon_history s) pin
                                     (shift_history (hbn_aon_history s pin) (hbn_aon_level s pin)) |> in
  if negb (tst mask (BIT pin)) then bl808_hbn_gpio_delay_cancel_pin s pin
  else if bl808_hbn_gpio_delay_enabled s then
    if bl808_hbn_gpio_mode_is_edge mode && bl808_hbn_gpio_irq_sampled mode (hbn_aon_history s pin)
    then bl808_hbn_gpio_delay_arm_pin s pin
    else if (mode =? 0x2) || (mode =? 0x3) then bl808_hbn_gpio_sync_delayed_level s pin
    else s
  else if bl808_hbn_gpio_irq_sampled mode (hbn_aon_history s pin) then latch_pin s pin
  else s.

Definition bl808_hbn_gpio_sample_cb s : state :=
  let mode := bl808_hbn_gpio_mode s in
  let mask := bl808_hbn_gpio_mask s in
  let s := foldl (sample_aon_pin mode mask) s aon_pins in
  bl808_hbn_gpio_sample_reschedule (bl808_hbn_gpio_delay_reschedule (bl808_hbn_update_irqs s)).

(** ** The lines of the pads *)

(** The position of a pin among those of the always-on domain. *)
Definition aon_index (pin : Z) : option nat := fst <$> list_find (pin =.) bl808_hbn_aon_gpio_map.

(** A pin of the always-on domain is connected to HBN, every other one to PDS. *)
Definition line_call_set s (c : line_call) : state :=
  match c with
  | LevelLine pin level =>
      match aon_index pin with
      | Some i => bl808_hbn_gpio_level_set s (Z.of_nat i) level
      | None => bl808_pds_gpio_level_set s pin level
      end
  | IrqLines level => bl808_glb_pds_wakeup_set s level
  end.

(** The handlers of the lines change nothing of the pads: they run after the
    operation on the pads instead of within it. *)
Definition bl808_hbn_apply_aon_pad_ctrl s : state :=
  let '(r, calls) := apply_pads (hbn s BL808_HBN_IRQ_MODE_OFFSET) (hbn s BL808_HBN_PAD_CTRL_0_OFFSET)
                       (hbn s BL808_HBN_PAD_CTRL_1_OFFSET) (env s) in
  foldl line_call_set (s <| env := r |>) calls.

(** ** HBN: sensors and comparators *)

Definition bl808_hbn_pir_active s : bool :=
  let cfg := hbn s BL808_HBN_PIR_CFG_OFFSET in
  let dis := Z.shiftr (Z.land cfg BL808_HBN_PIR_DIS_MASK) BL808_HBN_PIR_DIS_SHIFT in
  if negb (tst cfg BL808_HBN_PIR_EN) then false
  else if hbn_pir_level s then negb (tst dis (BIT 0))
  else negb (tst dis (BIT 1)).

Definition set_stat s (b : bool) (bit : Z) : state :=
  set_hbn s BL808_HBN_IRQ_STAT_OFFSET
    (if b then Z.lor (hbn s BL808_HBN_IRQ_STAT_OFFSET) bit else clr (hbn s BL808_HBN_IRQ_STAT_OFFSET) bit).

Definition bl808_hbn_refresh_live_sources s : state :=
  let irq_mode := hbn s BL808_HBN_IRQ_MODE_OFFSET in
  let s := set_stat s (bl808_hbn_pir_active s) BL808_HBN_IRQ_PIR_STAT in
  let s := set_stat s (hbn_bod_level s && tst irq_mode BL808_HBN_IRQ_BOD_EN) BL808_HBN_IRQ_BOD_STAT in
  bl808_hbn_update_irqs s.

Definition bl808_hbn_acomp_edge_enabled s (shift : Z) (rising : bool) : bool :=
  tst (extract32 (hbn s BL808_HBN_IRQ_MODE_OFFSET) shift 2) (BIT (if rising then 0 else 1)).

Definition bl808_hbn_note_acomp_transition s (stat_bit shift : Z) (old_level new_level : bool) : state :=
  let rising := negb old_level && new_level in
  let falling := old_level && negb new_level in
  if (rising && bl808_hbn_acomp_edge_enabled s shift true) || (falling && bl808_hbn_acomp_edge_enabled s shift false)
  then bl808_hbn_update_irqs (set_stat s true stat_bit)
  else s.

Definition bl808_set_hbn_pir_level s (value : bool) : state :=
  bl808_hbn_refresh_live_sources (s <| hbn_pir_level := value |>).

Definition bl808_set_hbn_bod_level s (value : bool) : state :=
  bl808_hbn_refresh_live_sources (s <| hbn_bod_level := value |>).

Definition bl808_set_hbn_acomp0_level s (value : bool) : state :=
  let old := hbn_acomp0_level s in
  bl808_hbn_note_acomp_transition (s <| hbn_acomp0_level := value |>)
    BL808_HBN_IRQ_ACOMP0_STAT BL808_HBN_IRQ_ACOMP0_EN_SHIFT old value.

Definition bl808_set_hbn_acomp1_level s (value : bool) : state :=
  let old := hbn_acomp1_level s in
  bl808_hbn_note_acomp_transition (s <| hbn_acomp1_level := value |>)
    BL808_HBN_IRQ_ACOMP1_STAT BL808_HBN_IRQ_ACOMP1_EN_SHIFT old value.

(** ** PDS: sleep *)

Definition bl808_pds_wake_cb s : state := bl808_pds_trigger_wakeup s BL808_PDS_WAKEUP_SRC_TIMER.

(** A source that is active when the sleep begins ends it: true if so. *)
Definition try_wake (active : bool) (source_bit : Z) s : bool * state :=
  if active then
    let s := bl808_pds_trigger_wakeup s source_bit in (negb (pds_sleep_pending s), s)
  else (false, s).

Definition arm_wake_timer (ctl ticks now_ns : Z) s : state :=
  if tst ctl BL808_PDS_CTL_SLEEP_FOREVER || negb (bl808_pds_wakeup_source_enabled s BL808_PDS_WAKEUP_SRC_TIMER) then s
  else if ticks =? 0 then s
  else
    let delay_ns := u64 ((ticks * 1000000000 + BL808_HBN_F32K_HZ - 1) / BL808_HBN_F32K_HZ) in
    let delay_ns := Z.max delay_ns 1 in
    s <| pds_wake_timer := Some (now_ns + delay_ns) |>.

Definition bl808_pds_schedule_sleep s (cpu : option Z) : state :=
  let ctl := pds s BL808_PDS_CTL_OFFSET in
  let hbn_stat := hbn s BL808_HBN_IRQ_STAT_OFFSET in
  let now_ns := virtual_ns s in
  let ticks := pds s BL808_PDS_TIME1_OFFSET in
  let s := s <| pds_wake_timer := None |> <| pds_sleep_cpu := cpu |> <| pds_sleep_pending := true |> in
  let s := set_pds s BL808_PDS_INT_OFFSET
             (clr (pds s BL808_PDS_INT_OFFSET) (Z.lor BL808_PDS_INT_STATUS_MASK BL808_PDS_WAKEUP_EVENT_MASK)) in
  let s := set_pds s BL808_PDS_STAT_OFFSET (Z.lor (pds s BL808_PDS_STAT_OFFSET) BL808_PDS_STAT_BUSY) in
  let s := bl808_pds_update_irq s in
  let '(woken, s) := try_wake (tst hbn_stat (Z.lor BL808_HBN_OUT0_STATUS_MASK BL808_HBN_OUT1_STATUS_MASK))
                       BL808_PDS_WAKEUP_SRC_HBN_IRQ s in
  if woken then s
  else
    let '(woken, s) := try_wake (glb_gpio_irq_pending s) BL808_PDS_WAKEUP_SRC_GLB_GPIO s in
    if woken then s
    else
      let '(woken, s) := try_wake (negb (pds s BL808_PDS_GPIO_STAT_OFFSET =? 0)) BL808_PDS_WAKEUP_SRC_PDS_GPIO s in
      if woken then s else arm_wake_timer ctl ticks now_ns s.

(** ** PDS: registers *)

Definition PDS_REGS := 0x1000 / 4.

Definition bl808_pds_read s (offset size : Z) : Z :=
  let idx := u32 (offset / 4) in if PDS_REGS <=? idx then 0 else pds_regs s idx.

Definition clear_on_rise (old_value next_value bit set : Z) s : state :=
  if negb (tst old_value bit) && tst next_value bit then bl808_pds_gpio_clear_set s set else s.

Definition gpio_mode_bits : Z :=
  Z.lor (Z.lor (Z.lor (Z.shiftl BL808_PDS_GPIO_SET_MODE_MASK BL808_PDS_GPIO_SET1_MODE_SHIFT)
                      (Z.shiftl BL808_PDS_GPIO_SET_MODE_MASK BL808_PDS_GPIO_SET2_MODE_SHIFT))
               (Z.shiftl BL808_PDS_GPIO_SET_MODE_MASK BL808_PDS_GPIO_SET3_MODE_SHIFT))
        (Z.shiftl BL808_PDS_GPIO_SET_MODE_MASK BL808_PDS_GPIO_SET4_MODE_SHIFT).

Definition refresh_and_sample s : state := bl808_pds_gpio_sample_reschedule (bl808_pds_gpio_refresh_live_sources s).

Definition write_pds_int s (old_value next_value : Z) : state :=
  let s := set_pds s BL808_PDS_INT_OFFSET
             (Z.lor (Z.land old_value (Z.lor BL808_PDS_INT_STATUS_MASK BL808_PDS_WAKEUP_EVENT_MASK))
                    (Z.land next_value (Z.lor BL808_PDS_INT_MASK_BITS BL808_PDS_WAKEUP_SRC_EN_MASK))) in
  if tst next_value BL808_PDS_INT_CLEAR then bl808_pds_clear_int s else bl808_pds_update_irq s.

Definition write_gpio_int s (old_value next_value : Z) : state :=
  let s := set_pds s BL808_PDS_GPIO_INT_OFFSET (Z.land next_value BL808_PDS_GPIO_INT_MASK_BITS) in
  let s := clear_on_rise old_value next_value BL808_PDS_GPIO_SET1_CLR 0 s in
  let s := clear_on_rise old_value next_value BL808_PDS_GPIO_SET2_CLR 1 s in
  let s := clear_on_rise old_value next_value BL808_PDS_GPIO_SET3_CLR 2 s in
  let s := clear_on_rise old_value next_value BL808_PDS_GPIO_SET4_CLR 3 s in
  let s := if tst (Z.lxor old_value next_value) gpio_mode_bits
           then foldl bl808_pds_gpio_reset_history s pds_pins else s in
  refresh_and_sample s.

(** The first [switch] of [bl808_pds_write]. *)
Definition write_pds_reg s (idx offset old_value next_value : Z) : state :=
  if offset =? BL808_PDS_INT_OFFSET then write_pds_int s old_value next_value
  else if offset =? BL808_PDS_GPIO_I_SET_OFFSET then
    refresh_and_sample
      (s <| pds_regs := fset (pds_regs s) idx
              (Z.land next_value (Z.lor (Z.lor BL808_PDS_GPIO_IE_GROUP_MASK BL808_PDS_GPIO_PD_GROUP_MASK)
                                        BL808_PDS_GPIO_PU_GROUP_MASK)) |>)
  else if offset =? BL808_PDS_GPIO_PD_SET_OFFSET then
    refresh_and_sample (s <| pds_regs := fset (pds_regs s) idx next_value |>)
  else if offset =? BL808_PDS_GPIO_INT_OFFSET then write_gpio_int s old_value next_value
  else if offset =? BL808_PDS_GPIO_STAT_OFFSET then s
  else s <| pds_regs := fset (pds_regs s) idx next_value |>.

(** [current_cpu] is the hart that writes, [None] outside a guest. *)
Definition bl808_pds_write (current_cpu : option Z) s (offset value size : Z) : state :=
  let idx := u32 (offset / 4) in
  if PDS_REGS <=? idx then s
  else
    let old_value := pds_regs s idx in
    let next_value := u32 value in
    let s := write_pds_reg s idx offset old_value next_value in
    if (offset =? BL808_PDS_CTL_OFFSET) && tst next_value BL808_PDS_CTL_START_PS then
      let cpu := bl808_pds_owner_cpu current_cpu in
      if bool_decide (is_Some cpu) || bool_decide (current_cpu = None) then bl808_pds_schedule_sleep s cpu else s
    else if offset =? BL808_PDS_CTL2_OFFSET then
      let old_mm_powered := bl808_pds_mm_powered_on old_value in
      let new_mm_powered := bl808_pds_mm_powered_on next_value in
      if xorb old_mm_powered new_mm_powered
      then s <| env := update_mm_domain new_mm_powered true (env s) |> <| mm_powered_on := new_mm_powered |>
      else s
    else if offset =? BL808_PDS_CPU_CORE_CFG0_OFFSET then
      let old_clock_enabled := tst old_value BL808_PDS_REG_PICO_CLK_EN in
      let new_clock_enabled := tst next_value BL808_PDS_REG_PICO_CLK_EN in
      if xorb old_clock_enabled new_clock_enabled then s <| env := update_lp (pds_regs s) false (env s) |> else s
    else if offset =? BL808_PDS_CPU_CORE_CFG1_OFFSET then
      s <| env := refresh_timer0 (pds_regs s) (hbn_regs s) (env s) |>
    else if offset =? BL808_PDS_CPU_CORE_CFG13_OFFSET then
      s <| env := hold_stopped_lp (pds_regs s) (env s) |>
    else s.

Definition bl808_pds_reset s : state :=
  let s := s <| pds_wake_timer := None |> <| pds_gpio_sample_timer := None |> <| pds_regs := λ _, 0 |> in
  let s := set_pds s BL808_PDS_INT_OFFSET BL808_PDS_WAKEUP_SRC_EN_MASK in
  let s := set_pds s BL808_PDS_CTL2_OFFSET BL808_PDS_MM_FORCE_MASK in
  let s := s <| mm_powered_on := false |> <| pds_sleep_pending := false |> <| glb_gpio_irq_pending := false |>
             <| pds_sleep_cpu := None |> in
  let s := foldl bl808_pds_gpio_reset_history s pds_pins in
  bl808_pds_gpio_sample_reschedule (bl808_pds_update_irq s).

(** ** HBN: clock and alarm *)

Definition bl808_hbn_rtc_ticks s : Z := u64 (u64 (virtual_ns s) * BL808_HBN_F32K_HZ / 1000000000).

Definition bl808_hbn_rtc_value s : Z := if hbn_rtc_latched s then hbn_rtc_latch s else bl808_hbn_rtc_ticks s.

Definition bl808_hbn_alarm_ticks s : Z :=
  let lo := hbn s BL808_HBN_TIML_OFFSET in
  let hi := Z.land (hbn s BL808_HBN_TIMH_OFFSET) 0xFF in
  Z.lor (Z.shiftl hi 32) lo.

(** [qemu_system_reset] is recorded: it is the last thing that the handler does. *)
Definition bl808_hbn_request_reset s : state :=
  let s := s <| hbn_alarm_timer := None |> <| hbn_alarm_rt_timer := None |> in
  let s := set_hbn s BL808_HBN_IRQ_STAT_OFFSET (Z.lor (hbn s BL808_HBN_IRQ_STAT_OFFSET) BL808_HBN_IRQ_RTC_STAT) in
  let s := bl808_hbn_update_irqs (s <| hbn_wake_pending := true |>) in
  s <| system_reset_called := true |>.

Definition bl808_hbn_alarm_cb s : state := bl808_hbn_request_reset s.

Definition bl808_hbn_schedule_alarm s : state :=
  let ctl := hbn s BL808_HBN_CTL_OFFSET in
  let now_ns := virtual_ns s in
  let now_rt_ns := virtual_rt_ns s in
  let alarm_ticks := bl808_hbn_alarm_ticks s in
  let now_ticks := bl808_hbn_rtc_ticks s in
  let s := s <| hbn_alarm_timer := None |> <| hbn_alarm_rt_timer := None |> in
  if negb (tst ctl BL808_HBN_CTL_MODE) then s
  else
    let delta_ns :=
      if (alarm_ticks =? 0) || (alarm_ticks <=? now_ticks) then 1
      else u64 (((alarm_ticks - now_ticks) * 1000000000 + BL808_HBN_F32K_HZ - 1) / BL808_HBN_F32K_HZ) in
    s <| hbn_alarm_timer := Some (now_ns + delta_ns) |> <| hbn_alarm_rt_timer := Some (now_rt_ns + delta_ns) |>.

(** ** HBN: analogue converter *)

Definition bl808_hbn_adc_scan_channel s (idx : Z) : Z :=
  let reg := if idx <? 6 then hbn s BL808_HBN_GPADC_SCAN_POS1 else hbn s BL808_HBN_GPADC_SCAN_POS2 in
  extract32 reg ((idx mod 6) * 5) 5.

Definition set_result s (sample : Z) : state :=
  set_hbn (set_hbn s BL808_HBN_GPADC_RESULT sample) BL808_HBN_GPADC_RAW_RESULT (Z.land sample 0x0fff).

Definition scan_step s (i : Z) : state :=
  let scan_sample := bl808_hbn_adc_sample (bl808_hbn_adc_scan_channel s i) in
  let s := s <| env := push_adc_sample scan_sample (env s) |> in
  if i =? 0 then set_result s scan_sample else s.

Definition bl808_hbn_adc_trigger s : state :=
  let cmd := hbn s BL808_HBN_GPADC_CMD_OFFSET in
  let cfg1 := hbn s BL808_HBN_GPADC_CFG1_OFFSET in
  let scan := tst cfg1 BL808_HBN_GPADC_SCAN_EN in
  let s := set_hbn s BL808_HBN_GPADC_STATUS 0 in
  let s :=
    if scan then
      let count := extract32 cfg1 BL808_HBN_GPADC_SCAN_LEN_SHIFT 4 + 1 in
      let s := s <| env := adc_fifo_clear (env s) |> in
      foldl scan_step s (seqZ 0 (Z.min count 12))
    else set_result s (bl808_hbn_adc_sample (extract32 cmd BL808_HBN_GPADC_POS_SEL_SHIFT 5)) in
  set_hbn s BL808_HBN_GPADC_STATUS 1.

(** ** HBN: registers *)

Definition HBN_REGS := 0x1000 / 4.

Definition bl808_hbn_read s (offset size : Z) : Z :=
  let idx := u32 (offset / 4) in
  if HBN_REGS <=? idx then 0
  else if offset =? BL808_HBN_RTC_TIML_OFFSET then u32 (bl808_hbn_rtc_value s)
  else if offset =? BL808_HBN_RTC_TIMH_OFFSET then
    Z.lor (u32 (Z.land (Z.shiftr (bl808_hbn_rtc_value s) 32) 0xFF)) (if hbn_rtc_latched s then BL808_HBN_RTC_LATCH else 0)
  else if offset =? BL808_HBN_IRQ_CLR_OFFSET then 0
  else hbn_regs s idx.

(** Writes of the interrupt mode and of the clear register. *)
Definition write_irq_mode s (value : Z) : state :=
  let s := bl808_hbn_gpio_delay_cancel_all s in
  let s := set_hbn s BL808_HBN_IRQ_MODE_OFFSET (u32 value) in
  let s := bl808_hbn_apply_aon_pad_ctrl s in
  let s := foldl bl808_hbn_reset_aon_history s aon_pins in
  let s := bl808_hbn_refresh_live_sources s in
  let s := bl808_hbn_refresh_gpio_live_sources s in
  bl808_hbn_gpio_sample_reschedule s.

Definition write_irq_clr s (value : Z) : state :=
  let s := set_hbn s BL808_HBN_IRQ_STAT_OFFSET (clr (hbn s BL808_HBN_IRQ_STAT_OFFSET) (u32 value)) in
  let s := foldl (λ s pin, if tst value (BIT pin) then bl808_hbn_gpio_delay_cancel_pin s pin else s) s aon_pins in
  let s := bl808_hbn_refresh_live_sources s in
  let s := bl808_hbn_refresh_gpio_live_sources s in
  bl808_hbn_gpio_sample_reschedule s.

Definition bl808_hbn_write s (offset value size : Z) : state :=
  let idx := u32 (offset / 4) in
  let store v := s <| hbn_regs := fset (hbn_regs s) idx v |> in
  if HBN_REGS <=? idx then s
  else if (offset =? BL808_HBN_CTL_OFFSET) || (offset =? BL808_HBN_TIML_OFFSET) then
    bl808_hbn_schedule_alarm (store (u32 value))
  else if offset =? BL808_HBN_TIMH_OFFSET then bl808_hbn_schedule_alarm (store (Z.land (u32 value) 0xFF))
  else if offset =? BL808_HBN_RTC_TIMH_OFFSET then
    let s := store 0 in
    if tst value BL808_HBN_RTC_LATCH
    then s <| hbn_rtc_latch := bl808_hbn_rtc_ticks s |> <| hbn_rtc_latched := true |>
    else s <| hbn_rtc_latched := false |>
  else if offset =? BL808_HBN_IRQ_MODE_OFFSET then write_irq_mode s value
  else if (offset =? BL808_HBN_PAD_CTRL_0_OFFSET) || (offset =? BL808_HBN_PAD_CTRL_1_OFFSET) then
    bl808_hbn_apply_aon_pad_ctrl (store (u32 value))
  else if offset =? BL808_HBN_IRQ_CLR_OFFSET then write_irq_clr s value
  else if offset =? BL808_HBN_PIR_CFG_OFFSET then bl808_hbn_refresh_live_sources (store (u32 value))
  else if offset =? BL808_HBN_GLB_OFFSET then
    let s := store (u32 value) in s <| env := refresh_timer0 (pds_regs s) (hbn_regs s) (env s) |>
  else if offset =? BL808_HBN_GPADC_CMD_OFFSET then
    let s := store (u32 value) in
    let start := Z.lor BL808_HBN_GPADC_GLOBAL_EN BL808_HBN_GPADC_CONV_START in
    if Z.land (u32 value) start =? start then bl808_hbn_adc_trigger s
    else set_hbn s BL808_HBN_GPADC_STATUS 0
  else if offset =? BL808_HBN_RSV3_OFFSET then
    let s := store (u32 value) in
    let s := s <| env := refresh_timer0 (pds_regs s) (hbn_regs s) (env s) |> in
    s <| env := refresh_timer1 (pds_regs s) (hbn_regs s) (env s) |>
  else store (u32 value).

(** ** HBN: reset *)

Definition settle_hbn s : state :=
  let s := bl808_hbn_gpio_delay_cancel_all s in
  let s := bl808_hbn_apply_aon_pad_ctrl s in
  let s := foldl bl808_hbn_reset_aon_history s aon_pins in
  let s := bl808_hbn_refresh_live_sources s in
  bl808_hbn_refresh_gpio_live_sources s.

Definition bl808_hbn_seed s : state :=
  settle_hbn (s <| hbn_regs := λ _, 0 |> <| hbn_rtc_latch := 0 |> <| hbn_rtc_latched := false |> <| hbn_wake_pending := false |>).

(** The registers that a reset keeps. *)
Definition kept_hbn_regs s : Z → Z :=
  let pad_ctrl0 := hbn s BL808_HBN_PAD_CTRL_0_OFFSET in
  let pad_ctrl1 := hbn s BL808_HBN_PAD_CTRL_1_OFFSET in
  let retain_pad_ctrl := hbn_wake_pending s || tst pad_ctrl0 BL808_HBN_PAD_ISO_MODE in
  let regs := foldl (λ r i, fset r (BL808_HBN_RSV0_OFFSET / 4 + i) (hbn_regs s (BL808_HBN_RSV0_OFFSET / 4 + i)))
                (λ _, 0) (seqZ 0 BL808_HBN_RSV_COUNT) in
  if retain_pad_ctrl
  then fset (fset regs (BL808_HBN_PAD_CTRL_0_OFFSET / 4) pad_ctrl0) (BL808_HBN_PAD_CTRL_1_OFFSET / 4) pad_ctrl1
  else regs.

Definition bl808_hbn_reset s : state :=
  let s := s <| hbn_regs := kept_hbn_regs s |> in
  let s := s <| hbn_alarm_timer := None |> <| hbn_alarm_rt_timer := None |> <| hbn_gpio_sample_timer := None |>
             <| hbn_gpio_delay_timer := None |> <| hbn_rtc_latched := false |> <| hbn_rtc_latch := 0 |> in
  let s := if hbn_wake_pending s then set_hbn s BL808_HBN_IRQ_STAT_OFFSET BL808_HBN_IRQ_RTC_STAT else s in
  bl808_hbn_gpio_sample_reschedule (settle_hbn (s <| hbn_wake_pending := false |>)).

(** ** The infrared receiver *)

Definition ir s (offset : Z) : Z := ir_regs s (offset / 4).
Definition set_ir s (offset v : Z) : state := s <| ir_regs := fset (ir_regs s) (offset / 4) v |>.

Definition bl808_irrx_enabled s : bool := tst (ir s BL808_IR_RX_CFG_OFFSET) BL808_IR_RX_CFG_EN.

Definition bl808_irrx_irq_asserted s : bool :=
  let int_sts := ir s BL808_IR_RX_INT_STS_OFFSET in
  bl808_irrx_enabled s && tst int_sts BL808_IR_RX_END_INT && tst int_sts BL808_IR_RX_END_EN &&
  negb (tst int_sts BL808_IR_RX_END_MASK).

Definition bl808_ir_update_irq s : state := s <| irrx_irq := bl808_irrx_irq_asserted s |>.

Definition bl808_ir_reset s : state := bl808_ir_update_irq (s <| ir_regs := λ _, 0 |>).

Definition bl808_ir_inject_frame s : state :=
  let bits := if negb (irrx_inject_bits s =? 0) then irrx_inject_bits s else 32 in
  if negb (bl808_irrx_enabled s) then s
  else
    let s := set_ir s BL808_IR_RX_DATA_COUNT_OFFSET (Z.land bits BL808_IR_RX_DATA_COUNT_MASK) in
    let s := set_ir s BL808_IR_RX_DATA_WORD0_OFFSET (irrx_inject_data s) in
    let s := set_ir s BL808_IR_RX_DATA_WORD1_OFFSET (irrx_inject_data1 s) in
    let s := set_ir s BL808_IR_RX_INT_STS_OFFSET (Z.lor (ir s BL808_IR_RX_INT_STS_OFFSET) BL808_IR_RX_END_INT) in
    bl808_pds_trigger_wakeup (bl808_ir_update_irq s) BL808_PDS_WAKEUP_SRC_IRRX.

Definition IR_REGS := BL808_IR_SIZE / 4.

Definition bl808_ir_read s (offset size : Z) : Z :=
  let idx := u32 (offset / 4) in if IR_REGS <=? idx then 0 else ir_regs s idx.

Definition bl808_ir_write s (offset value size : Z) : state :=
  let idx := u32 (offset / 4) in
  let store v s := s <| ir_regs := fset (ir_regs s) idx v |> in
  if IR_REGS <=? idx then s
  else
    let old_value := ir_regs s idx in
    let next_value := u32 value in
    if offset =? BL808_IR_RX_INT_STS_OFFSET then
      let s := store (Z.lor (Z.land old_value BL808_IR_RX_INT_STATUS_MASK) (Z.land next_value BL808_IR_RX_INT_CTRL_MASK)) s in
      let s := if tst next_value BL808_IR_RX_END_CLR then store (clr (ir_regs s idx) BL808_IR_RX_END_INT) s else s in
      bl808_ir_update_irq s
    else if (offset =? BL808_IR_RX_DATA_COUNT_OFFSET) || (offset =? BL808_IR_RX_DATA_WORD0_OFFSET) ||
            (offset =? BL808_IR_RX_DATA_WORD1_OFFSET) then s
    else
      let s := store next_value s in
      if offset =? BL808_IR_RX_CFG_OFFSET then bl808_ir_update_irq s else s.

(** The frame that a test injects. *)
Definition bl808_set_irrx_data s (value : Z) : state := s <| irrx_inject_data := value |>.
Definition bl808_set_irrx_data1 s (value : Z) : state := s <| irrx_inject_data1 := value |>.
Definition bl808_set_irrx_bitcount s (value : Z) : state :=
  if 64 <? value then s else s <| irrx_inject_bits := value |>.
Definition bl808_set_irrx_inject s (value : bool) : state := if negb value then s else bl808_ir_inject_frame s.

(** ** Reset of the machine *)

(** The levels that drive the pads are applied again; the handlers of the lines run
    after that, as in [bl808_hbn_apply_aon_pad_ctrl]. *)
Definition bl808_apply_inputs s : state :=
  let '(r, calls) := apply_inputs (env s) in foldl line_call_set (s <| env := r |>) calls.

(** What the image that boots sets in the power-down block. *)
Definition set_image (image : bool * option Z) s : state :=
  let s := if image.1 then set_pds s BL808_PDS_CTL2_OFFSET 0 else s in
  match image.2 with Some address => set_pds s BL808_PDS_CPU_CORE_CFG13_OFFSET (u32 address) | None => s end.

Definition reset_boot s : state :=
  let s := set_pds s BL808_PDS_CPU_CORE_CFG1_OFFSET (Z.shiftl 3 BL808_PDS_REG_PLL_SEL_SHIFT) in
  let '(r, image) := boot_image (env s) in
  set_hbn (set_image image (s <| env := r |>)) BL808_HBN_GLB_OFFSET 0x2.

Definition reset_clocks s : state :=
  let s := s <| env := refresh_timer0 (pds_regs s) (hbn_regs s) (env s) |> in
  let s := s <| env := refresh_timer1 (pds_regs s) (hbn_regs s) (env s) |> in
  let s := s <| env := finish_reset (pds_regs s) (hbn_regs s) (env s) |> in
  let powered_on := bl808_pds_mm_powered_on (pds s BL808_PDS_CTL2_OFFSET) in
  let s := s <| env := update_mm_domain powered_on true (env s) |> <| mm_powered_on := powered_on |> in
  s <| env := update_lp (pds_regs s) true (env s) |>.

(** The resets of the other blocks do not concern the infrared receiver, which is
    reset among them. *)
Definition reset_rest s : state :=
  let s := bl808_ir_reset (s <| env := reset_others (env s) |>) in
  reset_clocks (bl808_hbn_apply_aon_pad_ctrl (bl808_apply_inputs s)).

Definition bl808_machine_reset s : state :=
  let s := s <| env := reset_clock_regs (env s) |> in
  reset_rest (reset_boot (bl808_hbn_reset (bl808_pds_reset s))).

End sleep.
End BL808Sleep.
