(* ===== verification/SleepSpec.v ===== *)
(** * Sleep and wake-up

    [pds_never_oversleeps]: on every run of [Sleep] after a reset, the lines of the
    three blocks follow their registers, the machine does not sleep while an enabled
    wake-up source that has a level is active, and every event of the other sources
    ends the sleep if its source is enabled. *)

From S2P Require Import Prelude Qemu Glb GlbSpec Sleep.
From stdpp Require Import prelude list.
From Stdlib Require Import ZArith Lia.
Import BL808GLB BL808Pads BL808Sleep.
Local Open Scope Z_scope.

(** The bits of the wake-up sources. *)
Definition source (b : Z) : Prop := ∃ n, 10 ≤ n ≤ 20 ∧ b = BIT n.

(** The level of the wake-up lines for a value of the interrupt register. *)
Definition unmasked (reg : Z) : bool :=
  bl808_pds_status_unmasked reg 0 || bl808_pds_status_unmasked reg 1 ||
  bl808_pds_status_unmasked reg 2 || bl808_pds_status_unmasked reg 3.

Definition hbn_outs : Z := Z.lor BL808_HBN_OUT0_STATUS_MASK BL808_HBN_OUT1_STATUS_MASK.

Lemma tst_lor_l x y m : tst (Z.lor x y) m = tst x m || tst y m.
Proof.
  unfold tst. rewrite Z.land_lor_distr_l. destruct (Z.eqb_spec (Z.land x m) 0) as [H|H], (Z.eqb_spec (Z.land y m) 0) as [H'|H'];
    simpl; rewrite ?H, ?H'; try done; apply negb_true_iff, Z.eqb_neq; rewrite Z.lor_eq_0_iff; tauto.
Qed.

Lemma tst_lor_r x m m' : tst x (Z.lor m m') = tst x m || tst x m'.
Proof. unfold tst. rewrite !(Z.land_comm x). apply tst_lor_l. Qed.

Lemma tst_clr x m m' : Z.land m' (Z.lnot m) = m' → tst (clr x m) m' = tst x m'.
Proof. intros H. unfold tst, clr. rewrite <- Z.land_assoc, (Z.land_comm (Z.lnot m)), H. done. Qed.

Lemma tst_clr_0 x m m' : Z.land m' (Z.lnot m) = 0 → tst (clr x m) m' = false.
Proof. intros H. unfold tst, clr. rewrite <- Z.land_assoc, (Z.land_comm (Z.lnot m)), H, Z.land_0_r. done. Qed.

Section sleep.
Context {R : Type} `{!SleepEnv R}.
Notation state := (BL808MachineState R).
Implicit Types s : state.

Lemma fset_lookup {A} (a : Z → A) i v j : fset a i v j = if decide (j = i) then v else a j.
Proof. unfold fset. destruct (Z.eqb_spec j i); [by rewrite decide_True|by rewrite decide_False]. Qed.

Lemma pds_set s (o v : Z) o' : pds (set_pds s o v) o' = if decide (o' / 4 = o / 4) then v else pds s o'.
Proof. apply (fset_lookup (pds_regs s)). Qed.

Lemma pds_set_eq s (o v : Z) : pds (set_pds s o v) o = v.
Proof. rewrite pds_set. by apply decide_True. Qed.

Lemma pds_set_ne s (o v : Z) o' : o' / 4 ≠ o / 4 → pds (set_pds s o v) o' = pds s o'.
Proof. intros H. rewrite pds_set. by apply decide_False. Qed.

Lemma hbn_set s (o v : Z) o' : hbn (set_hbn s o v) o' = if decide (o' / 4 = o / 4) then v else hbn s o'.
Proof. apply (fset_lookup (hbn_regs s)). Qed.

Lemma hbn_set_eq s (o v : Z) : hbn (set_hbn s o v) o = v.
Proof. rewrite hbn_set. by apply decide_True. Qed.

Lemma hbn_set_ne s (o v : Z) o' : o' / 4 ≠ o / 4 → hbn (set_hbn s o v) o' = hbn s o'.
Proof. intros H. rewrite hbn_set. by apply decide_False. Qed.

(** ** The invariant of the power-down block *)

Notation asleep := pds_sleep_pending.
Notation enabled := bl808_pds_wakeup_source_enabled.

(** What the invariant depends on: of the power-down block but for the status of the
    pins, of the infrared receiver, and of the hibernation block. *)
Definition ir_part s := (ir_regs s, irrx_irq s).

Definition sleep_view s :=
  (pds s BL808_PDS_INT_OFFSET, pds s BL808_PDS_STAT_OFFSET, pds_wakeup_irq s, asleep s, pds_sleep_cpu s, pds_wake_timer s).

Definition pds_view s := (sleep_view s, ir_part s).

Definition hbn_view s := (hbn s BL808_HBN_IRQ_STAT_OFFSET, m0_hbn_out0_irq s, m0_hbn_out1_irq s).

(** What may be known of the infrared receiver: that its line follows its
    registers, or, during a reset, nothing. *)
Class Base (B : state → Prop) := base_ext s s' : ir_part s' = ir_part s → B s → B s'.

Definition ir_follows s : Prop := irrx_irq s = bl808_irrx_irq_asserted s.

#[export] Instance ir_base : Base ir_follows.
Proof.
  intros s s'. unfold ir_part, ir_follows, bl808_irrx_irq_asserted, bl808_irrx_enabled, ir. by intros [= -> ->].
Qed.

#[export] Instance no_base : Base (λ _, True).
Proof. done. Qed.

Section invariant.
Context (B : state → Prop) `{!Base B}.

(** The registers and the state of the sleep agree. *)
Record core s : Prop := {
  c_base : B s;
  c_irq : pds_wakeup_irq s = unmasked (pds s BL808_PDS_INT_OFFSET);
  c_busy : tst (pds s BL808_PDS_STAT_OFFSET) BL808_PDS_STAT_BUSY = asleep s;
  c_awake : asleep s = false → pds_sleep_cpu s = None ∧ pds_wake_timer s = None;
}.

(** The machine does not sleep over a source that is enabled and active. *)
Definition quiet (b : Z) (active : state → bool) s : Prop := asleep s = true → enabled s b = true → active s = false.

Definition pins_active s : bool := negb (pds s BL808_PDS_GPIO_STAT_OFFSET =? 0).
Definition hbn_active s : bool := tst (hbn s BL808_HBN_IRQ_STAT_OFFSET) hbn_outs.

Notation quiet_pins := (quiet BL808_PDS_WAKEUP_SRC_PDS_GPIO pins_active).
Notation quiet_glb := (quiet BL808_PDS_WAKEUP_SRC_GLB_GPIO glb_gpio_irq_pending).
Notation quiet_hbn := (quiet BL808_PDS_WAKEUP_SRC_HBN_IRQ hbn_active).

Definition lines_follow s : Prop :=
  m0_hbn_out0_irq s = tst (hbn s BL808_HBN_IRQ_STAT_OFFSET) BL808_HBN_OUT0_STATUS_MASK ∧
  m0_hbn_out1_irq s = tst (hbn s BL808_HBN_IRQ_STAT_OFFSET) BL808_HBN_OUT1_STATUS_MASK.

Definition hbn_sound s : Prop := lines_follow s ∧ quiet_hbn s.

(** What may hold besides, of the hibernation block: that it is sound, or nothing. *)
Class Rider (K : state → Prop) := {
  rider_trigger s b : K s → K (bl808_pds_trigger_wakeup s b);
  rider_ext s s' : pds_view s' = pds_view s → hbn_view s' = hbn_view s → K s → K s';
  rider_weak s : hbn_sound s → K s;
}.

(** What holds but for the pins, and with them. *)
Definition free (K : state → Prop) s : Prop := core s ∧ quiet_glb s ∧ K s.
Definition sound (K : state → Prop) s : Prop := free K s ∧ quiet_pins s.

Lemma core_ext s s' : pds_view s' = pds_view s → core s → core s'.
Proof.
  unfold pds_view. intros [= H1 H2 H3 H4 H5 H6 Hr Hi] [BB I Bs A].
  split; [by apply (base_ext s); [unfold ir_part; by rewrite Hr, Hi|]|..]; rewrite ?H1, ?H2, ?H3, ?H4, ?H5, ?H6; assumption.
Qed.

Lemma quiet_ext b active s s' : pds_view s' = pds_view s → active s' = active s → quiet b active s → quiet b active s'.
Proof.
  unfold pds_view, quiet, bl808_pds_wakeup_source_enabled. intros [= H1 H2 H3 H4 H5 H6 _ _] Ha. by rewrite H1, H4, Ha.
Qed.

Lemma free_ext K `{!Rider K} s s' :
  pds_view s' = pds_view s → hbn_view s' = hbn_view s → glb_gpio_irq_pending s' = glb_gpio_irq_pending s → free K s → free K s'.
Proof.
  intros Hp Hh Hg (C & G & HK). split_and!; [by apply (core_ext s)| |by apply (rider_ext s)].
  by apply (quiet_ext _ _ s).
Qed.

(** The power-down block as a whole. *)
Definition pds_part s :=
  (pds_regs s, pds_wakeup_irq s, asleep s, pds_sleep_cpu s, pds_wake_timer s, glb_gpio_irq_pending s, ir_part s).

Lemma part_pds s s' o : pds_part s' = pds_part s → pds s' o = pds s o.
Proof. unfold pds_part, pds. by intros [= -> _ _ _ _ _ _]. Qed.

Lemma part_view s s' : pds_part s' = pds_part s → pds_view s' = pds_view s.
Proof.
  intros H. unfold pds_view, sleep_view, ir_part. rewrite !(part_pds _ _ _ H). unfold pds_part in H.
  injection H as _ H2 H3 H4 H5 _ H6 H7. by rewrite H2, H3, H4, H5, H6, H7.
Qed.

Lemma part_fields s s' :
  pds_part s' = pds_part s →
  asleep s' = asleep s ∧ pds_sleep_cpu s' = pds_sleep_cpu s ∧ pds_wake_timer s' = pds_wake_timer s.
Proof. unfold pds_part. by intros [= _ _ H1 H2 H3 _ _ _]. Qed.

(** A step that does not concern the power-down block, nor the lines of the other. *)
Lemma part_sound K `{!Rider K} s s' : pds_part s' = pds_part s → hbn_view s' = hbn_view s → sound K s → sound K s'.
Proof.
  intros Hp Hh [F P]. pose proof (part_view _ _ Hp) as Hv. split.
  - apply (free_ext K s); [done|done| |done]. unfold pds_part in Hp. by injection Hp as _ _ _ _ _ Hg _ _.
  - apply (quiet_ext _ _ s); [done| |done]. unfold pins_active. by rewrite (part_pds _ _ _ Hp).
Qed.

(** ** Waking up *)

(** A wake-up changes three registers of the block, its line, the state of the sleep
    and the core that sleeps: what else the theorems are about stays. *)
Record wakes s s' : Prop := {
  w_ns : virtual_ns s' = virtual_ns s;
  w_hbn : hbn_regs s' = hbn_regs s;
  w_out0 : m0_hbn_out0_irq s' = m0_hbn_out0_irq s;
  w_out1 : m0_hbn_out1_irq s' = m0_hbn_out1_irq s;
  w_glb : glb_gpio_irq_pending s' = glb_gpio_irq_pending s;
  w_level : hbn_aon_level s' = hbn_aon_level s;
  w_history : hbn_aon_history s' = hbn_aon_history s;
  w_deadline : hbn_aon_delay_deadline_ns s' = hbn_aon_delay_deadline_ns s;
  w_timer : hbn_gpio_delay_timer s' = hbn_gpio_delay_timer s;
  w_pins : pds_gpio_level s' = pds_gpio_level s;
  w_ir : ir_part s' = ir_part s;
  w_pds o : o / 4 ≠ BL808_PDS_INT_OFFSET / 4 → o / 4 ≠ BL808_PDS_CTL_OFFSET / 4 →
            o / 4 ≠ BL808_PDS_STAT_OFFSET / 4 → pds s' o = pds s o;
}.

Lemma wakes_refl s : wakes s s.
Proof. by split. Qed.

Lemma wakes_trans s1 s2 s3 : wakes s1 s2 → wakes s2 s3 → wakes s1 s3.
Proof.
  intros [] []. split; try congruence. intros o H1 H2 H3.
  match goal with Ha : ∀ o, _ → _ → _ → pds s3 o = _ |- _ => rewrite Ha by done end. auto.
Qed.

Definition noted s (b : Z) : state :=
  bl808_pds_update_irq (set_pds s BL808_PDS_INT_OFFSET
    (Z.lor (pds s BL808_PDS_INT_OFFSET) (Z.lor BL808_PDS_INT_WAKEUP (bl808_pds_wakeup_event_bit b)))).

Lemma trigger_eq s b :
  bl808_pds_trigger_wakeup s b =
  if enabled s b then if asleep s then bl808_pds_complete_sleep (noted s b) else noted s b else s.
Proof. unfold bl808_pds_trigger_wakeup. by destruct (enabled s b). Qed.

(** The end of a sleep but for the core that resumes. *)
Definition ended s : state :=
  let s := s <| pds_wake_timer := None |> <| pds_sleep_pending := false |> <| pds_sleep_cpu := None |> in
  let s := set_pds s BL808_PDS_CTL_OFFSET (clr (pds s BL808_PDS_CTL_OFFSET) BL808_PDS_CTL_START_PS) in
  let s := set_pds s BL808_PDS_STAT_OFFSET (clr (pds s BL808_PDS_STAT_OFFSET) BL808_PDS_STAT_BUSY) in
  bl808_pds_update_irq s.

Lemma complete_eq s :
  bl808_pds_complete_sleep s =
  match pds_sleep_cpu s with Some hart => ended s <| env := resume_cpu hart (env (ended s)) |> | None => ended s end.
Proof. unfold bl808_pds_complete_sleep. by destruct (pds_sleep_cpu s). Qed.

Lemma ended_regs s :
  pds (ended s) BL808_PDS_INT_OFFSET = pds s BL808_PDS_INT_OFFSET ∧
  pds (ended s) BL808_PDS_STAT_OFFSET = clr (pds s BL808_PDS_STAT_OFFSET) BL808_PDS_STAT_BUSY ∧
  pds (ended s) BL808_PDS_CTL_OFFSET = clr (pds s BL808_PDS_CTL_OFFSET) BL808_PDS_CTL_START_PS.
Proof.
  unfold ended. cbv zeta. set (s1 := s <| pds_wake_timer := None |> <| pds_sleep_pending := false |> <| pds_sleep_cpu := None |>).
  set (s2 := set_pds s1 _ _). set (s3 := set_pds s2 _ _). change (pds (bl808_pds_update_irq s3)) with (pds s3).
  unfold s3. rewrite pds_set_eq, !pds_set_ne by done. unfold s2. by rewrite pds_set_eq, !pds_set_ne by done.
Qed.

Lemma ended_wakes s : wakes s (ended s).
Proof.
  split; try done. intros o H1 H2 H3. unfold ended. cbv zeta. unfold bl808_pds_update_irq.
  set (s1 := s <| pds_wake_timer := None |> <| pds_sleep_pending := false |> <| pds_sleep_cpu := None |>).
  set (s2 := set_pds s1 _ _). set (s3 := set_pds s2 _ _). transitivity (pds s3 o); [done|]. unfold s3.
  rewrite pds_set_ne by done. unfold s2. by rewrite pds_set_ne.
Qed.

Lemma noted_wakes s b : wakes s (noted s b).
Proof.
  split; try done. intros o H1 H2 H3. unfold noted, bl808_pds_update_irq. set (s1 := set_pds _ _ _).
  transitivity (pds s1 o); [done|]. unfold s1. by rewrite pds_set_ne.
Qed.

Lemma complete_wakes s : wakes s (bl808_pds_complete_sleep s).
Proof.
  rewrite complete_eq. destruct (pds_sleep_cpu s) as [hart|]; [|apply ended_wakes].
  destruct (ended_wakes s). by split.
Qed.

Lemma trigger_wakes s b : wakes s (bl808_pds_trigger_wakeup s b).
Proof.
  rewrite trigger_eq. destruct (enabled s b); [|apply wakes_refl]. destruct (asleep s); [|apply noted_wakes].
  eapply wakes_trans; [apply noted_wakes|apply complete_wakes].
Qed.

Lemma complete_asleep s : asleep (bl808_pds_complete_sleep s) = false.
Proof. rewrite complete_eq. by destruct (pds_sleep_cpu s). Qed.

Lemma trigger_asleep s b : asleep (bl808_pds_trigger_wakeup s b) = asleep s && negb (enabled s b).
Proof.
  rewrite trigger_eq. destruct (enabled s b); [|by rewrite andb_true_r]. rewrite andb_false_r.
  destruct (asleep s) eqn:E; [apply complete_asleep|done].
Qed.

Lemma trigger_id s b : asleep (bl808_pds_trigger_wakeup s b) = true → bl808_pds_trigger_wakeup s b = s.
Proof. rewrite trigger_asleep, trigger_eq. by destruct (enabled s b), (asleep s). Qed.

Lemma complete_core s : B s → core (bl808_pds_complete_sleep s).
Proof.
  intros HB. assert (core (ended s)) as H.
  { destruct (ended_regs s) as (I & Bs & _). split; try done; [by apply (base_ext s)|]. rewrite Bs. by apply tst_clr_0. }
  rewrite complete_eq. destruct (pds_sleep_cpu s) as [hart|]; [|done]. destruct H. split; try done. by apply (base_ext (ended s)).
Qed.

Lemma noted_core s b : asleep s = false → core s → core (noted s b).
Proof.
  intros Ha C. destruct (c_awake s C Ha) as [H1 H2]. split; try done; [by apply (base_ext s); [|apply C]|].
  transitivity (tst (pds s BL808_PDS_STAT_OFFSET) BL808_PDS_STAT_BUSY); [|apply (c_busy s C)].
  unfold noted, bl808_pds_update_irq. set (s1 := set_pds _ _ _).
  transitivity (tst (pds s1 BL808_PDS_STAT_OFFSET) BL808_PDS_STAT_BUSY); [done|]. unfold s1. by rewrite pds_set_ne.
Qed.

Lemma trigger_core s b : core s → core (bl808_pds_trigger_wakeup s b).
Proof.
  intros C. rewrite trigger_eq. destruct (enabled s b); [|done].
  destruct (asleep s) eqn:E; [apply complete_core|by apply noted_core].
  by apply (base_ext s); [|apply C].
Qed.

Lemma trigger_quiet b active b' s : quiet b active s → quiet b active (bl808_pds_trigger_wakeup s b').
Proof. intros Q Ha. pose proof (trigger_id s b' Ha) as E. rewrite E in *. by apply Q. Qed.

(** Triggering an active source makes it quiet. *)
Lemma quiet_made b active s : quiet b active (if active s then bl808_pds_trigger_wakeup s b else s).
Proof.
  destruct (active s) eqn:E; intros Ha He; [|exact E]. rewrite (trigger_id s b Ha) in He.
  rewrite trigger_asleep, He, andb_false_r in Ha. done.
Qed.

Lemma wakes_hbn s s' o : wakes s s' → hbn s' o = hbn s o.
Proof. intros W. unfold hbn. by rewrite (w_hbn _ _ W). Qed.

Lemma trigger_lines s b : lines_follow s → lines_follow (bl808_pds_trigger_wakeup s b).
Proof.
  unfold lines_follow. rewrite (wakes_hbn _ _ _ (trigger_wakes s b)), (w_out0 _ _ (trigger_wakes s b)), (w_out1 _ _ (trigger_wakes s b)).
  done.
Qed.

#[export] Instance hbn_rider : Rider hbn_sound.
Proof.
  split.
  - intros s b [L Q]. split; [by apply trigger_lines|by apply trigger_quiet].
  - intros s s' Hp Hh [L Q]. unfold hbn_view in Hh. injection Hh as H1 H2 H3. split.
    + unfold lines_follow. by rewrite H1, H2, H3.
    + apply (quiet_ext _ _ s); [done| |done]. unfold hbn_active. by rewrite H1.
  - done.
Qed.

#[export] Instance no_rider : Rider (λ _, True).
Proof. by split. Qed.

Notation sound_pds := (sound (λ _, True)).

Lemma sound_weak K s : sound K s → sound_pds s.
Proof. by intros [(C & G & _) P]. Qed.

Lemma part_sound_pds s s' : pds_part s' = pds_part s → sound_pds s → sound_pds s'.
Proof.
  intros Hp [(C & G & _) P]. pose proof (part_view _ _ Hp) as Hv. split; [split_and!|]; [by apply (core_ext s)| |done|].
  - apply (quiet_ext _ _ s); [done| |done]. unfold pds_part in Hp. by injection Hp as _ _ _ _ _ Hg _ _.
  - apply (quiet_ext _ _ s); [done| |done]. unfold pins_active. by rewrite (part_pds _ _ _ Hp).
Qed.

Lemma trigger_free K `{!Rider K} s b : free K s → free K (bl808_pds_trigger_wakeup s b).
Proof. intros (C & G & HK). split_and!; [by apply trigger_core|by apply trigger_quiet|by apply rider_trigger]. Qed.

Lemma trigger_sound K `{!Rider K} s b : sound K s → sound K (bl808_pds_trigger_wakeup s b).
Proof. intros [F P]. split; [by apply trigger_free|by apply trigger_quiet]. Qed.

(** ** The sources *)

(** Re-evaluating the pins makes them sound. *)
Lemma update_wakeup_sound K `{!Rider K} s : free K s → sound K (bl808_pds_gpio_update_wakeup s).
Proof.
  intros F. split; [|apply (quiet_made _ pins_active)].
  unfold bl808_pds_gpio_update_wakeup. destruct (negb _); [by apply trigger_free|done].
Qed.

Lemma outs_split v : tst v hbn_outs = tst v BL808_HBN_OUT0_STATUS_MASK || tst v BL808_HBN_OUT1_STATUS_MASK.
Proof. apply tst_lor_r. Qed.

(** Re-evaluating its lines makes the hibernation block sound. *)
Lemma update_irqs_sound K `{!Rider K} s : sound_pds s → sound K (bl808_hbn_update_irqs s).
Proof.
  intros H. unfold bl808_hbn_update_irqs. cbv zeta. rewrite <- outs_split.
  set (s1 := s <| m0_hbn_out0_irq := _ |> <| m0_hbn_out1_irq := _ |>).
  assert (sound_pds s1) as H1 by by apply (part_sound_pds s).
  assert (lines_follow s1) as L by done.
  change (tst (hbn s BL808_HBN_IRQ_STAT_OFFSET) hbn_outs) with (hbn_active s1). clearbody s1.
  assert (sound_pds (if hbn_active s1 then bl808_pds_trigger_wakeup s1 BL808_PDS_WAKEUP_SRC_HBN_IRQ else s1)) as [(C' & G' & _) P'].
  { destruct (hbn_active s1); [by apply (trigger_sound _)|done]. }
  split; [split_and!|]; [done|done| |done]. apply rider_weak. split; [|apply (quiet_made _ hbn_active)].
  destruct (hbn_active s1); [by apply trigger_lines|done].
Qed.

Lemma glb_wakeup_sound K `{!Rider K} s level : sound K s → sound K (bl808_glb_pds_wakeup_set s level).
Proof.
  intros [(C & G & HK) P]. unfold bl808_glb_pds_wakeup_set. cbv zeta. set (s1 := s <| glb_gpio_irq_pending := level |>).
  assert (core s1 ∧ K s1 ∧ quiet_pins s1) as (C1 & K1 & P1)
    by (split_and!; [by apply (core_ext s)|by apply (rider_ext s)|exact P]).
  assert (quiet_glb (if glb_gpio_irq_pending s1 then bl808_pds_trigger_wakeup s1 BL808_PDS_WAKEUP_SRC_GLB_GPIO else s1))
    as G1 by apply (quiet_made _ glb_gpio_irq_pending).
  change (glb_gpio_irq_pending s1) with level in G1. clearbody s1.
  destruct level; [|by split; [split_and!|]].
  split; [split_and!|]; [by apply trigger_core|done|by apply rider_trigger|by apply trigger_quiet].
Qed.

(** ** The pins of the power-down block *)

Lemma raise_pin_free K `{!Rider K} s idx : free K s → free K (raise_pin s idx).
Proof. by apply (free_ext K s). Qed.

Lemma foldl_free (f : state → Z → state) (P : state → Prop) l s : (∀ s x, P s → P (f s x)) → P s → P (foldl f s l).
Proof. intros Hf. revert s. induction l as [|x l IH]; intros s H; [done|]. simpl. auto. Qed.

Lemma refresh_pin_free K `{!Rider K} s idx : free K s → free K (refresh_pin s idx).
Proof.
  intros H. unfold refresh_pin. destruct (negb _); [done|]. cbv zeta. destruct (_ || _); [|done].
  destruct (bl808_hbn_gpio_level_active _ _); [by apply raise_pin_free|done].
Qed.

Lemma refresh_live_sound K `{!Rider K} s : free K s → sound K (bl808_pds_gpio_refresh_live_sources s).
Proof. intros H. apply update_wakeup_sound; [done|]. apply foldl_free; [|done]. intros s' x. by apply refresh_pin_free. Qed.

Lemma clear_set_sound K `{!Rider K} s set : free K s → sound K (bl808_pds_gpio_clear_set s set).
Proof. intros H. apply refresh_live_sound; [done|]. by apply (free_ext K s). Qed.

Lemma pds_level_sound K `{!Rider K} s n level : sound K s → sound K (bl808_pds_gpio_level_set s n level).
Proof.
  intros H. unfold bl808_pds_gpio_level_set. cbv zeta. destruct (_ <? 0); [done|].
  set (s1 := s <| pds_gpio_level := _ |>). assert (sound K s1) as H1 by by apply (part_sound K s).
  clearbody s1. destruct (negb _); [done|]. destruct (_ || _); [|done].
  apply update_wakeup_sound, raise_pin_free; [done..|]. apply H1.
Qed.

Lemma sample_pds_pin_free K `{!Rider K} s idx : free K s → free K (sample_pds_pin s idx).
Proof.
  intros H. unfold sample_pds_pin. cbv zeta. set (s1 := s <| pds_gpio_history := _ |>).
  assert (free K s1) as H1 by by apply (free_ext K s).
  clearbody s1. destruct (negb _); [done|]. destruct (bl808_hbn_gpio_irq_sampled _ _); [by apply raise_pin_free|done].
Qed.

Lemma pds_reschedule_sound K `{!Rider K} s : sound K s → sound K (bl808_pds_gpio_sample_reschedule s).
Proof. intros H. unfold bl808_pds_gpio_sample_reschedule. by destruct (negb _); apply (part_sound K s). Qed.

Lemma pds_sample_sound K `{!Rider K} s : sound K s → sound K (bl808_pds_gpio_sample_cb s).
Proof.
  intros [H _]. apply pds_reschedule_sound, update_wakeup_sound; [done..|].
  apply foldl_free; [|done]. intros s' x. by apply sample_pds_pin_free.
Qed.

(** ** The hibernation block *)

(** Steps that touch neither the power-down block nor the status and the lines. *)
Definition aside s s' : Prop := pds_part s' = pds_part s ∧ hbn_view s' = hbn_view s.

Lemma aside_refl s : aside s s.
Proof. done. Qed.

Lemma aside_trans s1 s2 s3 : aside s1 s2 → aside s2 s3 → aside s1 s3.
Proof. intros [] []. split; etrans; eauto. Qed.

Lemma aside_foldl (f : state → Z → state) l s : (∀ s x, aside s (f s x)) → aside s (foldl f s l).
Proof.
  intros Hf. revert s. induction l as [|x l IH]; intros s; [done|]. simpl. eapply aside_trans; [apply Hf|apply IH].
Qed.

Lemma part_foldl (f : state → Z → state) l s :
  (∀ s x, pds_part (f s x) = pds_part s) → pds_part (foldl f s l) = pds_part s.
Proof. intros Hf. revert s. induction l as [|x l IH]; intros s; [done|]. simpl. by rewrite IH, Hf. Qed.

Lemma aside_sound K `{!Rider K} s s' : aside s s' → sound K s → sound K s'.
Proof. intros [H1 H2]. by apply part_sound. Qed.

Lemma delay_reschedule_aside s : aside s (bl808_hbn_gpio_delay_reschedule s).
Proof. unfold bl808_hbn_gpio_delay_reschedule. cbv zeta. by destruct (_ <? 0). Qed.

Lemma arm_pin_aside s pin : aside s (bl808_hbn_gpio_delay_arm_pin s pin).
Proof.
  unfold bl808_hbn_gpio_delay_arm_pin. cbv zeta. destruct (_ || _); [done|].
  set (s1 := s <| hbn_aon_delay_deadline_ns := _ |>). apply (aside_trans _ s1); [done|apply delay_reschedule_aside].
Qed.

Lemma cancel_pin_aside s pin : aside s (bl808_hbn_gpio_delay_cancel_pin s pin).
Proof. done. Qed.

Lemma cancel_all_aside s : aside s (bl808_hbn_gpio_delay_cancel_all s).
Proof.
  unfold bl808_hbn_gpio_delay_cancel_all. eapply aside_trans; [|apply delay_reschedule_aside].
  by apply aside_foldl.
Qed.

Lemma hbn_reschedule_aside s : aside s (bl808_hbn_gpio_sample_reschedule s).
Proof. unfold bl808_hbn_gpio_sample_reschedule. by destruct (negb _). Qed.

Lemma sync_aside s pin : aside s (bl808_hbn_gpio_sync_delayed_level s pin).
Proof.
  unfold bl808_hbn_gpio_sync_delayed_level. cbv zeta. destruct (_ || _); [done|].
  destruct (_ || _); [apply arm_pin_aside|done].
Qed.

Lemma refresh_aon_pin_part mode mask s pin : pds_part (refresh_aon_pin mode mask s pin) = pds_part s.
Proof.
  unfold refresh_aon_pin. cbv zeta. destruct (negb _); [done|]. destruct (bl808_hbn_gpio_delay_enabled s).
  - destruct (bl808_hbn_gpio_level_active _ _); [apply arm_pin_aside|done].
  - by destruct (bl808_hbn_gpio_level_active _ _).
Qed.

Lemma refresh_gpio_sound K `{!Rider K} s : sound_pds s → sound K (bl808_hbn_refresh_gpio_live_sources s).
Proof.
  intros H. unfold bl808_hbn_refresh_gpio_live_sources. cbv zeta. destruct (_ && _); [by apply update_irqs_sound|].
  eapply aside_sound; [done|apply delay_reschedule_aside|]. apply update_irqs_sound; [done|].
  eapply part_sound_pds; [|exact H]. apply part_foldl. intros s' x. apply refresh_aon_pin_part.
Qed.

Lemma latch_irqs_sound K `{!Rider K} s pin : sound K s → sound K (bl808_hbn_update_irqs (latch_pin s pin)).
Proof. intros H. apply update_irqs_sound; [done|]. by apply (part_sound_pds s); [|eapply sound_weak]. Qed.

Lemma aon_level_sound K `{!Rider K} s n level : sound K s → sound K (bl808_hbn_gpio_level_set s n level).
Proof.
  intros H. unfold bl808_hbn_gpio_level_set. cbv zeta. destruct (_ || _); [done|].
  set (s1 := s <| hbn_aon_level := _ |>). assert (sound K s1) as H1 by by apply (part_sound K s).
  generalize (bl808_hbn_gpio_mode s), (bl808_hbn_gpio_mask s), (hbn_aon_level s n). intros mode mask old.
  clearbody s1. clear H s. destruct (negb _).
  { eapply aside_sound; [done|apply delay_reschedule_aside|]. by apply (part_sound K s1). }
  destruct (bl808_hbn_gpio_delay_enabled s1).
  - eapply aside_sound; [done|apply delay_reschedule_aside|].
    destruct (bl808_hbn_gpio_irq_immediate _ _ _); [eapply aside_sound; [done|apply arm_pin_aside|done]|].
    destruct (_ || _); [|done]. destruct (bl808_hbn_gpio_level_active _ _); [|by apply (part_sound K s1)].
    eapply aside_sound; [done|apply arm_pin_aside|done].
  - destruct (bl808_hbn_gpio_irq_immediate _ _ _); [by apply latch_irqs_sound|].
    destruct (_ || _); [|done]. apply refresh_gpio_sound; [done|]. by eapply sound_weak.
Qed.

Lemma sample_aon_part mode mask s pin : pds_part (sample_aon_pin mode mask s pin) = pds_part s.
Proof.
  unfold sample_aon_pin. cbv zeta. set (s1 := s <| hbn_aon_history := _ |>).
  transitivity (pds_part s1); [|done]. clearbody s1. destruct (negb _); [done|].
  destruct (bl808_hbn_gpio_delay_enabled _).
  - destruct (_ && _); [apply arm_pin_aside|]. destruct (_ || _); [apply sync_aside|done].
  - by destruct (bl808_hbn_gpio_irq_sampled _ _).
Qed.

Lemma hbn_sample_sound K `{!Rider K} s : sound_pds s → sound K (bl808_hbn_gpio_sample_cb s).
Proof.
  intros H. unfold bl808_hbn_gpio_sample_cb. cbv zeta. eapply aside_sound; [done|apply hbn_reschedule_aside|].
  eapply aside_sound; [done|apply delay_reschedule_aside|]. apply update_irqs_sound; [done|].
  eapply part_sound_pds; [|exact H]. apply part_foldl. intros s' x. apply sample_aon_part.
Qed.

Lemma expire_part now s pin : pds_part (expire_pin now s pin) = pds_part s.
Proof.
  unfold expire_pin. cbv zeta. destruct (_ || _); [done|]. by destruct (bl808_hbn_gpio_delay_qualifies _ _).
Qed.

Lemma delay_sound K `{!Rider K} s : sound_pds s → sound K (bl808_hbn_gpio_delay_cb s).
Proof.
  intros H. unfold bl808_hbn_gpio_delay_cb. eapply aside_sound; [done|apply delay_reschedule_aside|].
  apply update_irqs_sound; [done|]. eapply part_sound_pds; [|exact H]. apply part_foldl. intros s' x. apply expire_part.
Qed.

(** ** Lines, pads and sensors *)

Lemma line_sound K `{!Rider K} s c : sound K s → sound K (line_call_set s c).
Proof.
  intros H. destruct c as [pin level|level]; cbn [line_call_set]; [|by apply glb_wakeup_sound].
  destruct (aon_index pin); [by apply aon_level_sound|by apply pds_level_sound].
Qed.

Lemma lines_sound K `{!Rider K} l s : sound K s → sound K (foldl line_call_set s l).
Proof. revert s. induction l as [|c l IH]; intros s H; [done|]. simpl. apply IH. by apply line_sound. Qed.

Lemma apply_pads_sound K `{!Rider K} s : sound K s → sound K (bl808_hbn_apply_aon_pad_ctrl s).
Proof.
  intros H. unfold bl808_hbn_apply_aon_pad_ctrl. destruct (apply_pads _ _ _ _) as [r calls].
  apply lines_sound; [done|]. by apply (part_sound K s).
Qed.

Lemma refresh_sources_sound K `{!Rider K} s : sound_pds s → sound K (bl808_hbn_refresh_live_sources s).
Proof. intros H. apply update_irqs_sound; [done|]. by apply (part_sound_pds s). Qed.

Lemma acomp_sound K `{!Rider K} s bit shift old new : sound K s → sound K (bl808_hbn_note_acomp_transition s bit shift old new).
Proof.
  intros H. unfold bl808_hbn_note_acomp_transition. cbv zeta. destruct (_ || _); [|done].
  apply update_irqs_sound; [done|]. by apply (part_sound_pds s); [|eapply sound_weak].
Qed.

Lemma request_reset_sound K `{!Rider K} s : sound_pds s → sound K (bl808_hbn_request_reset s).
Proof.
  intros H. unfold bl808_hbn_request_reset. cbv zeta.
  set (s1 := (set_hbn _ _ _) <| hbn_wake_pending := true |>).
  apply (part_sound K (bl808_hbn_update_irqs s1)); [done..|]. apply update_irqs_sound; [done|]. by apply (part_sound_pds s).
Qed.

Lemma settle_sound K `{!Rider K} s : sound_pds s → sound K (settle_hbn s).
Proof.
  intros H. unfold settle_hbn. cbv zeta. apply refresh_gpio_sound; [done|]. apply (refresh_sources_sound (λ _, True)).
  eapply aside_sound; [apply _|by apply aside_foldl|]. apply (apply_pads_sound _).
  eapply aside_sound; [apply _|apply cancel_all_aside|]. done.
Qed.

(** ** Going to sleep *)

Definition triggered (active : bool) (b : Z) s : state := if active then bl808_pds_trigger_wakeup s b else s.

Lemma try_wake_eq active b s :
  asleep s = true → try_wake active b s = (negb (asleep (triggered active b s)), triggered active b s).
Proof. intros H. destruct active; [done|]. unfold try_wake, triggered. by rewrite H. Qed.

(** A core sound but for its sources. *)
Definition entering s : Prop := core s ∧ lines_follow s.

Lemma awake_sound s : core s → lines_follow s → asleep s = false → sound hbn_sound s.
Proof. intros C L H. split; [split_and!; [done| |split; [done|]]|]; unfold quiet; by rewrite H. Qed.

Lemma triggered_entering active b s : entering s → entering (triggered active b s).
Proof. intros [C L]. destruct active; [|done]. split; [by apply trigger_core|by apply trigger_lines]. Qed.

Lemma triggered_quiet b active s : quiet b active (triggered (active s) b s).
Proof. apply quiet_made. Qed.

Lemma triggered_keeps b active a b' s : quiet b active s → quiet b active (triggered a b' s).
Proof. intros H. destruct a; [by apply trigger_quiet|done]. Qed.

Lemma arm_timer_sound ctl ticks now s : asleep s = true → sound hbn_sound s → sound hbn_sound (arm_wake_timer ctl ticks now s).
Proof.
  intros Ha H. unfold arm_wake_timer. cbv zeta. destruct (_ || _); [done|]. destruct (ticks =? 0); [done|].
  set (s1 := s <| pds_wake_timer := _ |>). destruct H as [(C & G & L & Q) P].
  split; [split_and!; [|exact G|split; [exact L|exact Q]]|exact P].
  destruct C as [BB I Bs A]. split; [by apply (base_ext s)|exact I|exact Bs|]. change (asleep s1) with (asleep s). by rewrite Ha.
Qed.

(** The state in which the sources are asked. *)
Definition lying s (cpu : option Z) : state :=
  let s := s <| pds_wake_timer := None |> <| pds_sleep_cpu := cpu |> <| pds_sleep_pending := true |> in
  let s := set_pds s BL808_PDS_INT_OFFSET
             (clr (pds s BL808_PDS_INT_OFFSET) (Z.lor BL808_PDS_INT_STATUS_MASK BL808_PDS_WAKEUP_EVENT_MASK)) in
  bl808_pds_update_irq (set_pds s BL808_PDS_STAT_OFFSET (Z.lor (pds s BL808_PDS_STAT_OFFSET) BL808_PDS_STAT_BUSY)).

Lemma lying_entering s cpu : B s → lines_follow s → entering (lying s cpu).
Proof.
  intros HB L. split; [|exact L]. split; try done; [by apply (base_ext s)|].
  unfold lying, bl808_pds_update_irq. cbv zeta. set (s1 := set_pds _ BL808_PDS_INT_OFFSET _). set (s2 := set_pds s1 _ _).
  transitivity (tst (pds s2 BL808_PDS_STAT_OFFSET) BL808_PDS_STAT_BUSY); [done|]. unfold s2. rewrite pds_set_eq, tst_lor_l.
  by apply orb_true_r.
Qed.

(** Asking the three sources in turn, then the timer. *)
Lemma schedule_eq s cpu :
  let s0 := lying s cpu in
  let s1 := triggered (hbn_active s) BL808_PDS_WAKEUP_SRC_HBN_IRQ s0 in
  let s2 := triggered (glb_gpio_irq_pending s1) BL808_PDS_WAKEUP_SRC_GLB_GPIO s1 in
  let s3 := triggered (pins_active s2) BL808_PDS_WAKEUP_SRC_PDS_GPIO s2 in
  bl808_pds_schedule_sleep s cpu =
  if negb (asleep s1) then s1 else if negb (asleep s2) then s2 else if negb (asleep s3) then s3
  else arm_wake_timer (pds s BL808_PDS_CTL_OFFSET) (pds s BL808_PDS_TIME1_OFFSET) (virtual_ns s) s3.
Proof.
  cbv zeta. unfold bl808_pds_schedule_sleep. cbv zeta. change (bl808_pds_update_irq _) with (lying s cpu).
  rewrite (try_wake_eq _ BL808_PDS_WAKEUP_SRC_HBN_IRQ) by done.
  change (tst (hbn s BL808_HBN_IRQ_STAT_OFFSET) _) with (hbn_active s).
  set (s1 := triggered (hbn_active s) _ _). destruct (asleep s1) eqn:E1; [|done]. cbn [negb].
  rewrite (try_wake_eq _ BL808_PDS_WAKEUP_SRC_GLB_GPIO) by done.
  set (s2 := triggered (glb_gpio_irq_pending s1) _ _). destruct (asleep s2) eqn:E2; [|done]. cbn [negb].
  rewrite (try_wake_eq _ BL808_PDS_WAKEUP_SRC_PDS_GPIO) by done.
  change (negb (pds s2 BL808_PDS_GPIO_STAT_OFFSET =? 0)) with (pins_active s2).
  by destruct (asleep (triggered (pins_active s2) _ _)).
Qed.

Lemma schedule_sound s cpu : B s → lines_follow s → sound hbn_sound (bl808_pds_schedule_sleep s cpu).
Proof.
  intros HB L. rewrite (schedule_eq s cpu). pose proof (lying_entering s cpu HB L) as H0.
  change (hbn_active s) with (hbn_active (lying s cpu)).
  revert H0. generalize (lying s cpu). intros s0 H0.
  pose proof (triggered_quiet BL808_PDS_WAKEUP_SRC_HBN_IRQ hbn_active s0) as Q1.
  pose proof (triggered_entering (hbn_active s0) BL808_PDS_WAKEUP_SRC_HBN_IRQ s0 H0) as H1.
  revert H1 Q1. generalize (triggered (hbn_active s0) BL808_PDS_WAKEUP_SRC_HBN_IRQ s0). intros s1 H1 Q1.
  destruct (asleep s1) eqn:E1; cbn [negb]; [|by apply awake_sound; [apply H1..|]].
  pose proof (triggered_keeps _ _ (glb_gpio_irq_pending s1) BL808_PDS_WAKEUP_SRC_GLB_GPIO s1 Q1) as Q2.
  pose proof (triggered_quiet BL808_PDS_WAKEUP_SRC_GLB_GPIO glb_gpio_irq_pending s1) as G2.
  pose proof (triggered_entering (glb_gpio_irq_pending s1) BL808_PDS_WAKEUP_SRC_GLB_GPIO s1 H1) as H2.
  revert H2 Q2 G2. generalize (triggered (glb_gpio_irq_pending s1) BL808_PDS_WAKEUP_SRC_GLB_GPIO s1). intros s2 H2 Q2 G2.
  destruct (asleep s2) eqn:E2; cbn [negb]; [|by apply awake_sound; [apply H2..|]].
  pose proof (triggered_keeps _ _ (pins_active s2) BL808_PDS_WAKEUP_SRC_PDS_GPIO s2 Q2) as Q3.
  pose proof (triggered_keeps _ _ (pins_active s2) BL808_PDS_WAKEUP_SRC_PDS_GPIO s2 G2) as G3.
  pose proof (triggered_quiet BL808_PDS_WAKEUP_SRC_PDS_GPIO pins_active s2) as P3.
  pose proof (triggered_entering (pins_active s2) BL808_PDS_WAKEUP_SRC_PDS_GPIO s2 H2) as H3.
  revert H3 Q3 G3 P3. generalize (triggered (pins_active s2) BL808_PDS_WAKEUP_SRC_PDS_GPIO s2). intros s3 [C3 L3] Q3 G3 P3.
  destruct (asleep s3) eqn:E3; cbn [negb]; [|by apply awake_sound].
  apply arm_timer_sound; [done|]. by split; [split_and!; [| |split]|].
Qed.

(** ** Registers *)

Lemma aligned_idx o : 0 ≤ o < 0x1000 → o mod 4 = 0 → u32 (o / 4) = o / 4 ∧ 4 * (o / 4) = o.
Proof.
  intros H Hm. pose proof (Z.div_mod o 4 ltac:(lia)). split; [|lia]. apply wrap_small. unfold uint. lia.
Qed.

(** The sources that the interrupt register [v] enables are among those of [v']. *)
Definition enables_within (v v' : Z) : Prop := ∀ n, 10 ≤ n ≤ 20 → Z.testbit v n = true → Z.testbit v' n = true.

(** A new interrupt register that enables no more while the machine sleeps. *)
Lemma int_sound s s' :
  (∀ o, o / 4 ≠ BL808_PDS_INT_OFFSET / 4 → pds s' o = pds s o) → pds_wakeup_irq s' = unmasked (pds s' BL808_PDS_INT_OFFSET) →
  asleep s' = asleep s → pds_sleep_cpu s' = pds_sleep_cpu s → pds_wake_timer s' = pds_wake_timer s →
  glb_gpio_irq_pending s' = glb_gpio_irq_pending s → hbn_view s' = hbn_view s → ir_part s' = ir_part s →
  (asleep s = true → enables_within (pds s' BL808_PDS_INT_OFFSET) (pds s BL808_PDS_INT_OFFSET)) →
  sound hbn_sound s → sound hbn_sound s'.
Proof.
  intros Ho Hi Ha Hc Ht Hg Hh Hir He [(C & G & L & Q) P].
  assert (∀ n active, 10 ≤ n ≤ 20 → active s' = active s → quiet (BIT n) active s → quiet (BIT n) active s') as Hq.
  { intros n active Hn Hact HQ Ha' Hen. rewrite Hact. rewrite Ha in Ha'. apply HQ; [done|].
    unfold bl808_pds_wakeup_source_enabled in *. rewrite tst_BIT in * by lia. by apply He. }
  unfold hbn_view in Hh. injection Hh as H1 H2 H3.
  split; [split_and!|].
  - destruct C as [BB I Bs A]. split; [by apply (base_ext s)|done| |by rewrite Ha, Hc, Ht]. by rewrite Ha, Ho.
  - apply (Hq 12); [lia|done|exact G].
  - split; [unfold lines_follow; by rewrite H1, H2, H3|]. apply (Hq 11); [lia| |exact Q]. unfold hbn_active. by rewrite H1.
  - apply (Hq 13); [lia| |exact P]. unfold pins_active. by rewrite Ho.
Qed.

Lemma write_int_sound s old next :
  old = pds s BL808_PDS_INT_OFFSET → (asleep s = true → enables_within next old) →
  sound hbn_sound s → sound hbn_sound (write_pds_int s old next).
Proof.
  intros -> He H. unfold write_pds_int. cbv zeta.
  set (v := Z.lor _ _). assert (∀ n, 10 ≤ n ≤ 20 → Z.testbit v n = Z.testbit next n) as Hv.
  { intros n Hn. unfold v. rewrite Z.lor_spec, !Z.land_spec.
    assert (n ∈ [10; 11; 12; 13; 14; 15; 16; 17; 18; 19; 20]) as Hin by (rewrite !elem_of_cons; lia).
    assert (Z.testbit (Z.lor BL808_PDS_INT_STATUS_MASK BL808_PDS_WAKEUP_EVENT_MASK) n = false ∧
      Z.testbit (Z.lor BL808_PDS_INT_MASK_BITS BL808_PDS_WAKEUP_SRC_EN_MASK) n = true) as [-> ->].
    { rewrite !elem_of_cons in Hin. destruct_or! Hin; try (subst n; by vm_compute). by apply elem_of_nil in Hin. }
    by rewrite andb_false_r, andb_true_r. }
  clearbody v. set (s1 := set_pds s BL808_PDS_INT_OFFSET v).
  destruct (tst next BL808_PDS_INT_CLEAR); [unfold bl808_pds_clear_int; set (s2 := set_pds s1 _ _)|].
  - apply (int_sound s); try done.
    + intros o Hoo. transitivity (pds s2 o); [done|]. unfold s2. rewrite pds_set_ne by done. unfold s1. by rewrite pds_set_ne.
    + intros Ha n Hn. change (pds (bl808_pds_update_irq s2)) with (pds s2). unfold s2, s1. rewrite !pds_set_eq, clr_spec by lia.
      intros [Hb _]%andb_true_iff. rewrite Hv in Hb by done. by apply He.
  - apply (int_sound s); try done.
    + intros o Hoo. transitivity (pds s1 o); [done|]. unfold s1. by rewrite pds_set_ne.
    + intros Ha n Hn. change (pds (bl808_pds_update_irq s1)) with (pds s1). unfold s1. rewrite !pds_set_eq, Hv by done. by apply He.
Qed.

Definition stored s (o v : Z) : state := s <| pds_regs := fset (pds_regs s) (o / 4) v |>.

Lemma stored_pds s (o v : Z) o' : o' / 4 ≠ o / 4 → pds (stored s o v) o' = pds s o'.
Proof. apply pds_set_ne. Qed.

Lemma stored_free K `{!Rider K} s o v :
  o / 4 ≠ BL808_PDS_INT_OFFSET / 4 → o / 4 ≠ BL808_PDS_STAT_OFFSET / 4 → free K s → free K (stored s o v).
Proof. intros H1 H2. apply (free_ext K s); [|done..]. unfold pds_view, sleep_view. by rewrite !stored_pds by done. Qed.

Lemma stored_sound K `{!Rider K} s o v :
  o / 4 ≠ BL808_PDS_INT_OFFSET / 4 → o / 4 ≠ BL808_PDS_STAT_OFFSET / 4 → o / 4 ≠ BL808_PDS_GPIO_STAT_OFFSET / 4 →
  sound K s → sound K (stored s o v).
Proof.
  intros H1 H2 H3 [F P]. split; [by apply stored_free|]. apply (quiet_ext _ _ s); [| |done].
  - unfold pds_view, sleep_view. by rewrite !stored_pds by done.
  - unfold pins_active. by rewrite stored_pds.
Qed.

Lemma refresh_and_sample_sound K `{!Rider K} s : free K s → sound K (refresh_and_sample s).
Proof. intros H. by apply pds_reschedule_sound, refresh_live_sound. Qed.

Lemma clear_on_rise_free K `{!Rider K} old next bit set s : free K s → free K (clear_on_rise old next bit set s).
Proof. intros H. unfold clear_on_rise. destruct (_ && _); [by apply clear_set_sound|done]. Qed.

Lemma write_gpio_int_sound K `{!Rider K} s old next : free K s → sound K (write_gpio_int s old next).
Proof.
  intros H. unfold write_gpio_int. cbv zeta. apply refresh_and_sample_sound; [done|].
  assert (free K (stored s BL808_PDS_GPIO_INT_OFFSET (Z.land next BL808_PDS_GPIO_INT_MASK_BITS))) as H1 by by apply stored_free.
  revert H1. unfold stored, set_pds. generalize (s <| pds_regs := fset (pds_regs s) (BL808_PDS_GPIO_INT_OFFSET / 4) (Z.land next BL808_PDS_GPIO_INT_MASK_BITS) |>).
  intros s1 H1. match goal with |- free K (if _ then _ else ?s2) => assert (free K s2) as H2 by (repeat (apply clear_on_rise_free; [done|]); done) end.
  revert H2. generalize (clear_on_rise old next BL808_PDS_GPIO_SET4_CLR 3 (clear_on_rise old next BL808_PDS_GPIO_SET3_CLR 2
    (clear_on_rise old next BL808_PDS_GPIO_SET2_CLR 1 (clear_on_rise old next BL808_PDS_GPIO_SET1_CLR 0 s1)))). intros s2 H2.
  destruct (tst _ _); [|done]. apply foldl_free; [|done]. intros s' x Hx. by apply (free_ext K s').
Qed.

(** What the theorems allow a guest to write: aligned offsets; not the status
    register, which holds the state of the sleep; and no source newly enabled in the
    interrupt register during a sleep. *)
Definition allowed_pds s (o v : Z) : Prop :=
  0 ≤ o < 0x1000 ∧ o mod 4 = 0 ∧ o ≠ BL808_PDS_STAT_OFFSET ∧
  (o = BL808_PDS_INT_OFFSET → asleep s = true → enables_within v (pds s BL808_PDS_INT_OFFSET)).

Lemma enables_u32 v v' : enables_within v v' → enables_within (u32 v) v'.
Proof.
  intros H n Hn. rewrite wrap_testbit by lia. intros [Hb _]%andb_true_iff. by apply H.
Qed.

Lemma write_reg_sound s o v :
  allowed_pds s o v → sound hbn_sound s → sound hbn_sound (write_pds_reg s (o / 4) o (pds_regs s (o / 4)) (u32 v)).
Proof.
  intros (Ho & Hm & H7 & He) H. destruct (aligned_idx o Ho Hm) as [_ E].
  assert (∀ o', o' mod 4 = 0 → o ≠ o' → o / 4 ≠ o' / 4) as Hne.
  { intros o' Hm' Hn Hq. apply Hn. rewrite <- E, Hq. pose proof (Z.div_mod o' 4 ltac:(lia)). lia. }
  pose proof (Hne BL808_PDS_STAT_OFFSET eq_refl H7) as N7. unfold write_pds_reg.
  destruct (Z.eqb_spec o BL808_PDS_INT_OFFSET) as [->|N1].
  { apply write_int_sound; [done| |done]. intros Ha. apply enables_u32, He; done. }
  pose proof (Hne BL808_PDS_INT_OFFSET eq_refl N1) as N1'. destruct H as [F P].
  assert (∀ x, free hbn_sound (s <| pds_regs := fset (pds_regs s) (o / 4) x |>)) as Hs by (intros x; by apply (stored_free _ s o x)).
  destruct (_ =? _); [apply refresh_and_sample_sound; [apply _|apply Hs]|].
  destruct (_ =? _); [apply refresh_and_sample_sound; [apply _|apply Hs]|].
  destruct (_ =? _); [apply write_gpio_int_sound; [apply _|done]|].
  destruct (Z.eqb_spec o BL808_PDS_GPIO_STAT_OFFSET) as [->|N2]; [by split|].
  apply (stored_sound _ s); [done|done|by apply Hne|by split].
Qed.

Lemma pds_write_sound cpu s o v size : allowed_pds s o v → sound hbn_sound s → sound hbn_sound (bl808_pds_write cpu s o v size).
Proof.
  intros Hal H. unfold bl808_pds_write. cbv zeta. destruct (aligned_idx o (proj1 Hal) (proj1 (proj2 Hal))) as [-> _].
  destruct (_ <=? _); [done|]. pose proof (write_reg_sound s o v Hal H) as H1. revert H1.
  generalize (write_pds_reg s (o / 4) o (pds_regs s (o / 4)) (u32 v)). intros s1 H1.
  repeat match goal with |- sound _ (if ?b then _ else _) => destruct b end; try done;
    first [apply schedule_sound; [by destruct H1 as [([HB] & _) _]|by destruct H1 as [(_ & _ & L & _) _]]|apply (part_sound hbn_sound s1); [done|done|exact H1]].
Qed.

(** The status of the hibernation block is written through its clear register. *)
Definition allowed_hbn (o : Z) : Prop := 0 ≤ o < 0x1000 ∧ o mod 4 = 0 ∧ o ≠ BL808_HBN_IRQ_STAT_OFFSET.

Definition kept_in s (o v : Z) : state := s <| hbn_regs := fset (hbn_regs s) (o / 4) v |>.

Lemma kept_in_aside s o v : o / 4 ≠ BL808_HBN_IRQ_STAT_OFFSET / 4 → aside s (kept_in s o v).
Proof. intros H. split; [done|]. unfold hbn_view. f_equal. f_equal. apply (hbn_set_ne s o v). done. Qed.

Lemma schedule_alarm_aside s : aside s (bl808_hbn_schedule_alarm s).
Proof. unfold bl808_hbn_schedule_alarm. cbv zeta. by destruct (negb _). Qed.

Lemma set_hbn_aside s o v : o / 4 ≠ BL808_HBN_IRQ_STAT_OFFSET / 4 → aside s (set_hbn s o v).
Proof. apply kept_in_aside. Qed.

Lemma set_result_aside s sample : aside s (set_result s sample).
Proof. unfold set_result. eapply aside_trans; by apply set_hbn_aside. Qed.

Lemma adc_aside s : aside s (bl808_hbn_adc_trigger s).
Proof.
  unfold bl808_hbn_adc_trigger. cbv zeta. eapply aside_trans; [|by apply set_hbn_aside].
  eapply aside_trans; [by apply (set_hbn_aside s BL808_HBN_GPADC_STATUS 0)|].
  destruct (tst _ _); [|apply set_result_aside].
  eapply aside_trans; [|apply aside_foldl]; [done|]. intros s' i. unfold scan_step. cbv zeta.
  destruct (i =? 0); [|done]. eapply aside_trans; [|apply set_result_aside]. done.
Qed.

Lemma irq_mode_sound s v : sound hbn_sound s → sound hbn_sound (write_irq_mode s v).
Proof.
  intros H. unfold write_irq_mode. cbv zeta. eapply aside_sound; [apply _|apply hbn_reschedule_aside|].
  apply refresh_gpio_sound; [apply _|]. apply (refresh_sources_sound (λ _, True)).
  eapply aside_sound; [apply _|by apply aside_foldl|]. apply (apply_pads_sound _).
  eapply aside_sound; [apply _|by apply set_hbn_aside|]. eapply aside_sound; [apply _|apply cancel_all_aside|].
  by eapply sound_weak.
Qed.

Lemma irq_clr_sound s v : sound hbn_sound s → sound hbn_sound (write_irq_clr s v).
Proof.
  intros H. unfold write_irq_clr. cbv zeta. eapply aside_sound; [apply _|apply hbn_reschedule_aside|].
  apply refresh_gpio_sound; [apply _|]. apply (refresh_sources_sound (λ _, True)).
  eapply aside_sound; [apply _|apply aside_foldl|]; [intros s' x; by destruct (tst _ _)|].
  apply (part_sound_pds s); [done|]. by eapply sound_weak.
Qed.

Lemma hbn_write_sound s o v size : allowed_hbn o → sound hbn_sound s → sound hbn_sound (bl808_hbn_write s o v size).
Proof.
  intros (Ho & Hm & H6) H. destruct (aligned_idx o Ho Hm) as [Ei E]. unfold bl808_hbn_write. cbv zeta. rewrite Ei.
  assert (o / 4 ≠ BL808_HBN_IRQ_STAT_OFFSET / 4) as N.
  { intros Hq. apply H6. rewrite <- E, Hq. done. }
  assert (∀ x, aside s (kept_in s o x)) as Hs by (intros x; by apply kept_in_aside).
  destruct (_ <=? _); [done|].
  assert (∀ x s', aside (kept_in s o x) s' → sound hbn_sound s') as Ha.
  { intros x s' Ha. eapply aside_sound; [apply _|exact Ha|]. eapply aside_sound; [apply _|apply Hs|exact H]. }
  assert (∀ x, sound hbn_sound (kept_in s o x)) as Hk by (intros x; by apply (Ha x)).
  change (s <| hbn_regs := fset (hbn_regs s) (o / 4) (u32 v) |>) with (kept_in s o (u32 v)).
  destruct (_ || _); [apply (Ha (u32 v)), schedule_alarm_aside|].
  destruct (_ =? _); [apply (Ha (Z.land (u32 v) 0xFF)), schedule_alarm_aside|].
  destruct (_ =? _); [by destruct (tst _ _); apply (Ha 0)|].
  destruct (_ =? _); [by apply irq_mode_sound|].
  destruct (_ || _); [apply apply_pads_sound; [apply _|apply Hk]|].
  destruct (_ =? _); [by apply irq_clr_sound|].
  destruct (_ =? _); [apply refresh_sources_sound; [apply _|eapply sound_weak, Hk]|].
  destruct (_ =? _); [by apply (Ha (u32 v))|].
  destruct (_ =? _); [|destruct (_ =? _); by apply (Ha (u32 v))].
  destruct (_ =? _); apply (Ha (u32 v)); [apply adc_aside|by apply set_hbn_aside].
Qed.

(** ** Resets *)

Lemma pds_reset_sound s : B s → sound_pds (bl808_pds_reset s).
Proof.
  intros HB. unfold bl808_pds_reset. cbv zeta.
  set (s1 := (set_pds _ BL808_PDS_CTL2_OFFSET _) <| mm_powered_on := _ |> <| pds_sleep_pending := _ |>
               <| glb_gpio_irq_pending := _ |> <| pds_sleep_cpu := _ |>).
  pose proof (aside_foldl bl808_pds_gpio_reset_history pds_pins s1 ltac:(done)) as [H _].
  assert (pds s1 BL808_PDS_STAT_OFFSET = 0 ∧ asleep s1 = false ∧ pds_sleep_cpu s1 = None ∧ pds_wake_timer s1 = None ∧
    ir_part s1 = ir_part s) as (Bs & A & C & T & Hir) by done.
  rewrite <- (part_pds _ _ BL808_PDS_STAT_OFFSET H) in Bs. destruct (part_fields _ _ H) as (HA & HC & HT).
  rewrite <- HA in A. rewrite <- HC in C. rewrite <- HT in T.
  assert (ir_part (foldl bl808_pds_gpio_reset_history s1 pds_pins) = ir_part s1) as Hir1
    by exact (f_equal snd H).
  rewrite Hir in Hir1. clear H HA HC HT Hir. revert Bs A C T Hir1.
  generalize (foldl bl808_pds_gpio_reset_history s1 pds_pins). intros s2 Bs A C T Hir.
  apply pds_reschedule_sound; [apply _|]. set (s3 := bl808_pds_update_irq s2).
  assert (asleep s3 = false) as A3 by done.
  split; [split_and!; [|unfold quiet; by rewrite A3|done]|unfold quiet; by rewrite A3].
  split; [by apply (base_ext s)|done| |done]. change (pds s3 BL808_PDS_STAT_OFFSET) with (pds s2 BL808_PDS_STAT_OFFSET). by rewrite Bs, A3.
Qed.

Lemma hbn_reset_sound s : sound_pds s → sound hbn_sound (bl808_hbn_reset s).
Proof.
  intros H. unfold bl808_hbn_reset. cbv zeta. eapply aside_sound; [apply _|apply hbn_reschedule_aside|].
  apply settle_sound; [apply _|]. apply (part_sound_pds s); [|done]. by destruct (hbn_wake_pending _).
Qed.

Lemma apply_inputs_sound s : sound hbn_sound s → sound hbn_sound (bl808_apply_inputs s).
Proof.
  intros H. unfold bl808_apply_inputs. destruct (apply_inputs _) as [r calls].
  apply lines_sound; [apply _|]. by apply (part_sound hbn_sound s).
Qed.

Lemma set_image_sound s image : sound hbn_sound s → sound hbn_sound (set_image image s).
Proof.
  intros H. unfold set_image. cbv zeta.
  assert (sound hbn_sound (if image.1 then set_pds s BL808_PDS_CTL2_OFFSET 0 else s)) as H1
    by (destruct image.1; [by apply (stored_sound hbn_sound s)|done]).
  destruct image.2; [by apply (stored_sound hbn_sound)|done].
Qed.

End invariant.

(** The machine as the theorems see it. *)
Notation machine_sound := (sound ir_follows hbn_sound).

(** A step of the infrared receiver alone. *)
Lemma rebase (B B' : state → Prop) `{!Base B} s s' :
  sleep_view s' = sleep_view s → pds_regs s' = pds_regs s → hbn_view s' = hbn_view s →
  glb_gpio_irq_pending s' = glb_gpio_irq_pending s → B' s' → sound B hbn_sound s → sound B' hbn_sound s'.
Proof.
  intros Hv Hp Hh Hg HB [([_ I Bs A] & G & L & Q) P].
  unfold sleep_view in Hv. injection Hv as H1 H2 H3 H4 H5 H6. unfold hbn_view in Hh. injection Hh as K1 K2 K3.
  unfold quiet, bl808_pds_wakeup_source_enabled, hbn_active, pins_active, lines_follow, pds in *.
  rewrite <- ?Hp, <- ?H3, <- ?H4, <- ?H5, <- ?H6, <- ?Hg, <- ?K1, <- ?K2, <- ?K3 in *.
  split; [split_and!; [split| |split]|]; assumption.
Qed.

(** ** Runs *)

Inductive sleep_event :=
  | PdsWrite (current_cpu : option Z) (offset value size : Z)
  | HbnWrite (offset value size : Z)
  | LineCall (c : line_call)           (* from the pads *)
  | PdsSample | HbnSample              (* timers *)
  | DelayEnds | TimerWakes | AlarmRings
  | SetPir (level : bool) | SetBod (level : bool) | SetAcomp0 (level : bool) | SetAcomp1 (level : bool)
  | WifiWakeup | DmSleep | TbttSleep | TbttWakeup
  | IrWrite (offset value size : Z)
  | SetIrData (value : Z) | SetIrData1 (value : Z) | SetIrBits (value : Z)
  | IrInject                           (* a frame arrives *)
  | Elapse (ns : Z)
  | Others (r : R)                     (* the rest of the machine *)
  | MachineReset.

Definition sleep_step s (e : sleep_event) : state :=
  match e with
  | PdsWrite cpu o v size => bl808_pds_write cpu s o v size
  | HbnWrite o v size => bl808_hbn_write s o v size
  | LineCall c => line_call_set s c
  | PdsSample => bl808_pds_gpio_sample_cb s
  | HbnSample => bl808_hbn_gpio_sample_cb s
  | DelayEnds => bl808_hbn_gpio_delay_cb (s <| hbn_gpio_delay_timer := None |>)
  | TimerWakes => bl808_pds_wake_cb (s <| pds_wake_timer := None |>)
  | AlarmRings => bl808_hbn_alarm_cb s
  | SetPir b => bl808_set_hbn_pir_level s b
  | SetBod b => bl808_set_hbn_bod_level s b
  | SetAcomp0 b => bl808_set_hbn_acomp0_level s b
  | SetAcomp1 b => bl808_set_hbn_acomp1_level s b
  | WifiWakeup => bl808_set_wifi_wakeup_event s true
  | DmSleep => bl808_set_dm_sleep_irq s true
  | TbttSleep => bl808_set_wifi_tbtt_sleep s true
  | TbttWakeup => bl808_set_wifi_tbtt_wakeup s true
  | IrWrite o v size => bl808_ir_write s o v size
  | SetIrData v => bl808_set_irrx_data s v
  | SetIrData1 v => bl808_set_irrx_data1 s v
  | SetIrBits v => bl808_set_irrx_bitcount s v
  | IrInject => bl808_set_irrx_inject s true
  | Elapse ns => s <| virtual_ns := virtual_ns s + ns |> <| virtual_rt_ns := virtual_rt_ns s + ns |>
  | Others r => s <| env := r |>
  | MachineReset => bl808_machine_reset s
  end.

Definition due s (timer : option Z) : Prop := ∃ t, timer = Some t ∧ t ≤ virtual_ns s.

Definition allowed s (e : sleep_event) : Prop :=
  match e with
  | IrWrite o _ _ => 0 ≤ o < BL808_IR_SIZE ∧ o mod 4 = 0
  | PdsWrite _ o v _ => allowed_pds s o v
  | HbnWrite o _ _ => allowed_hbn o
  | PdsSample => due s (pds_gpio_sample_timer s)
  | HbnSample => due s (hbn_gpio_sample_timer s)
  | DelayEnds => due s (hbn_gpio_delay_timer s)
  | TimerWakes => due s (pds_wake_timer s)
  | AlarmRings => due s (hbn_alarm_timer s)
  | Elapse ns => 0 ≤ ns
  | _ => True
  end.

(** The states after a reset of the machine. *)
Inductive reachable : state → Prop :=
  | reach_reset s : reachable (sleep_step s MachineReset)
  | reach_step s e : reachable s → allowed s e → reachable (sleep_step s e).

(** ** The infrared receiver *)

Lemma ir_sound (B : state → Prop) `{!Base B} s s' :
  sleep_view s' = sleep_view s → pds_regs s' = pds_regs s → hbn_view s' = hbn_view s →
  glb_gpio_irq_pending s' = glb_gpio_irq_pending s → sound B hbn_sound s → machine_sound (bl808_ir_update_irq s').
Proof. intros Hv Hp Hh Hg. by apply rebase. Qed.

Lemma ir_set s (o v : Z) o' : ir (set_ir s o v) o' = if decide (o' / 4 = o / 4) then v else ir s o'.
Proof. apply (fset_lookup (ir_regs s)). Qed.

(** A register that the line does not depend on. *)
Lemma ir_set_other s (o v : Z) :
  o / 4 ≠ BL808_IR_RX_CFG_OFFSET / 4 → o / 4 ≠ BL808_IR_RX_INT_STS_OFFSET / 4 → machine_sound s → machine_sound (set_ir s o v).
Proof.
  intros H1 H2 H. apply (rebase ir_follows _ s); try done. destruct H as [([F] & _) _]. unfold ir_follows in *.
  etrans; [exact F|]. unfold bl808_irrx_irq_asserted, bl808_irrx_enabled. by rewrite !ir_set, !decide_False by done.
Qed.

Lemma ir_inject_sound s : machine_sound s → machine_sound (bl808_ir_inject_frame s).
Proof.
  intros H. unfold bl808_ir_inject_frame. cbv zeta. destruct (negb (bl808_irrx_enabled s)); [done|].
  apply trigger_sound; [apply _..|]. by apply (ir_sound ir_follows s).
Qed.

Lemma ir_write_sound s o v size :
  0 ≤ o < BL808_IR_SIZE ∧ o mod 4 = 0 → machine_sound s → machine_sound (bl808_ir_write s o v size).
Proof.
  intros [Ho Hm] H. unfold BL808_IR_SIZE in Ho. unfold bl808_ir_write. cbv zeta.
  destruct (aligned_idx o ltac:(lia) Hm) as [-> E].
  destruct (_ <=? _); [done|]. destruct (Z.eqb_spec o BL808_IR_RX_INT_STS_OFFSET) as [->|H1].
  { destruct (tst _ _); by apply (ir_sound ir_follows s). }
  destruct (_ || _); [done|]. destruct (Z.eqb_spec o BL808_IR_RX_CFG_OFFSET) as [->|H2]; [by apply (ir_sound ir_follows s)|].
  apply (ir_set_other s o); [| |done].
  - intros Hq. apply H2. rewrite <- E, Hq. done.
  - intros Hq. apply H1. rewrite <- E, Hq. done.
Qed.

(** ** The reset *)

Lemma reset_boot_sound (B : state → Prop) `{!Base B} s : sound B hbn_sound s → sound B hbn_sound (reset_boot s).
Proof.
  intros H. unfold reset_boot. cbv zeta.
  assert (sound B hbn_sound (set_pds s BL808_PDS_CPU_CORE_CFG1_OFFSET (Z.shiftl 3 BL808_PDS_REG_PLL_SEL_SHIFT))) as H1
    by by apply (stored_sound B hbn_sound s).
  revert H1. generalize (set_pds s BL808_PDS_CPU_CORE_CFG1_OFFSET (Z.shiftl 3 BL808_PDS_REG_PLL_SEL_SHIFT)). clear s H. intros s H.
  destruct (boot_image (env s)) as [r image]. eapply aside_sound; [apply _..|by apply set_hbn_aside|].
  apply set_image_sound; [apply _|]. by apply (part_sound B hbn_sound s).
Qed.

Lemma reset_rest_sound (B : state → Prop) `{!Base B} s : sound B hbn_sound s → machine_sound (reset_rest s).
Proof.
  intros H. unfold reset_rest. cbv zeta.
  assert (machine_sound (bl808_ir_reset (s <| env := reset_others (env s) |>))) as H1 by by apply (ir_sound B s).
  revert H1. generalize (bl808_ir_reset (s <| env := reset_others (env s) |>)). clear s H. intros s H.
  assert (machine_sound (bl808_hbn_apply_aon_pad_ctrl (bl808_apply_inputs s))) as H1
    by (apply apply_pads_sound; [apply _..|]; by apply apply_inputs_sound; [apply _|]).
  revert H1. generalize (bl808_hbn_apply_aon_pad_ctrl (bl808_apply_inputs s)). clear s H. intros s H.
  by apply (part_sound ir_follows hbn_sound s).
Qed.

Lemma reset_sound s : machine_sound (bl808_machine_reset s).
Proof.
  apply (reset_rest_sound (λ _, True)). apply (reset_boot_sound _).
  apply hbn_reset_sound, pds_reset_sound; [apply _..|done].
Qed.

Lemma wake_cb_sound s : machine_sound s → machine_sound (bl808_pds_wake_cb (s <| pds_wake_timer := None |>)).
Proof.
  intros [(C & G & L & Q) P]. apply trigger_sound; [apply _..|].
  split; [split_and!; [|exact G|split; [exact L|exact Q]]|exact P].
  destruct C as [BB I Bs A]. split; [by apply (base_ext s)|exact I|exact Bs|]. intros Ha. split; [by apply A|done].
Qed.

Lemma tbtt_sound s b :
  b = BL808_PDS_STATUS_WIFI_TBTT_SLEEP ∨ b = BL808_PDS_STATUS_WIFI_TBTT_WAKEUP →
  machine_sound s → machine_sound (bl808_pds_trigger_wifi_tbtt s b).
Proof.
  intros Hb H. apply trigger_sound; [apply _..|]. unfold bl808_pds_raise_status. set (s1 := set_pds _ _ _).
  apply (int_sound ir_follows s); try done.
  - intros o Ho. transitivity (pds s1 o); [done|]. by apply pds_set_ne.
  - intros Ha n Hn. change (pds (bl808_pds_update_irq s1)) with (pds s1). unfold s1. rewrite pds_set_eq, Z.lor_spec.
    destruct Hb as [-> | ->]; unfold BL808_PDS_STATUS_WIFI_TBTT_SLEEP, BL808_PDS_STATUS_WIFI_TBTT_WAKEUP; rewrite BIT_spec by lia.
    + destruct (Z.eqb_spec 2 n); [lia|by rewrite orb_false_r].
    + destruct (Z.eqb_spec 3 n); [lia|by rewrite orb_false_r].
Qed.

Lemma step_sound s e : allowed s e → machine_sound s → machine_sound (sleep_step s e).
Proof.
  intros Hal H. pose proof (sound_weak _ _ _ H) as Hw. destruct e; cbn [sleep_step allowed] in *.
  - by apply (pds_write_sound ir_follows).
  - by apply (hbn_write_sound ir_follows).
  - by apply line_sound; [apply _..|].
  - by apply pds_sample_sound; [apply _..|].
  - by apply hbn_sample_sound; [apply _..|].
  - apply delay_sound; [apply _..|]. by apply (part_sound_pds ir_follows s).
  - by apply wake_cb_sound.
  - by apply request_reset_sound; [apply _..|].
  - apply refresh_sources_sound; [apply _..|]. by apply (part_sound_pds ir_follows s).
  - apply refresh_sources_sound; [apply _..|]. by apply (part_sound_pds ir_follows s).
  - apply acomp_sound; [apply _..|]. by apply (part_sound ir_follows hbn_sound s).
  - apply acomp_sound; [apply _..|]. by apply (part_sound ir_follows hbn_sound s).
  - by apply trigger_sound; [apply _..|].
  - by apply trigger_sound; [apply _..|].
  - apply tbtt_sound; auto.
  - apply tbtt_sound; auto.
  - by apply ir_write_sound.
  - by apply (part_sound ir_follows hbn_sound s).
  - by apply (part_sound ir_follows hbn_sound s).
  - unfold bl808_set_irrx_bitcount. destruct (_ <? _); [done|]. by apply (part_sound ir_follows hbn_sound s).
  - by apply ir_inject_sound.
  - by apply (part_sound ir_follows hbn_sound s).
  - by apply (part_sound ir_follows hbn_sound s).
  - apply reset_sound.
Qed.

Lemma reachable_sound s : reachable s → machine_sound s.
Proof. induction 1; [apply reset_sound|by apply step_sound]. Qed.

(** ** Events that wake up by themselves *)

(** The sources that have no level, and the events that report them. *)
Definition rousing : list (sleep_event * Z) :=
  [(TimerWakes, BL808_PDS_WAKEUP_SRC_TIMER); (WifiWakeup, BL808_PDS_WAKEUP_SRC_WIFI_WKP);
   (DmSleep, BL808_PDS_WAKEUP_SRC_DM_SLP); (TbttSleep, BL808_PDS_WAKEUP_SRC_WIFI_TBTT);
   (TbttWakeup, BL808_PDS_WAKEUP_SRC_WIFI_TBTT); (IrInject, BL808_PDS_WAKEUP_SRC_IRRX)].

Lemma raise_status_enabled s bit b : enabled s b = true → enabled (bl808_pds_raise_status s bit) b = true.
Proof.
  unfold bl808_pds_wakeup_source_enabled, bl808_pds_raise_status. change (pds (bl808_pds_update_irq ?x)) with (pds x).
  intros H. by rewrite pds_set_eq, tst_lor_l, H.
Qed.

Lemma trigger_rouses s b : enabled s b = true → asleep (bl808_pds_trigger_wakeup s b) = false.
Proof. intros H. by rewrite trigger_asleep, H, andb_false_r. Qed.

Lemma rousing_wakes s e b :
  (e, b) ∈ rousing → (e = IrInject → bl808_irrx_enabled s = true) → enabled s b = true → asleep (sleep_step s e) = false.
Proof.
  unfold rousing. rewrite !elem_of_cons, elem_of_nil. intros H Hir Hb.
  destruct_or! H; try done; injection H as -> ->; cbn [sleep_step].
  - by apply (trigger_rouses (s <| pds_wake_timer := None |>)).
  - by apply trigger_rouses.
  - by apply trigger_rouses.
  - by apply trigger_rouses, raise_status_enabled.
  - by apply trigger_rouses, raise_status_enabled.
  - specialize (Hir eq_refl). unfold bl808_set_irrx_inject, bl808_ir_inject_frame. cbn [negb]. cbv zeta. rewrite Hir. cbn [negb].
    by apply trigger_rouses.
Qed.

(** ** A sleep with a timer *)

Lemma event_bit b n : 10 ≤ n ≤ 20 → b = BIT n → bl808_pds_wakeup_event_bit b = BIT (n + 11).
Proof.
  intros Hn ->. unfold bl808_pds_wakeup_event_bit, BIT. rewrite Z.shiftl_shiftl by lia. apply wrap_small.
  unfold uint. rewrite Z.shiftl_1_l. split; [apply Z.pow_nonneg; lia|]. apply Z.pow_lt_mono_r; lia.
Qed.

(** An enabled source ends the sleep, and the core resumes. *)
Lemma trigger_ends s n :
  10 ≤ n ≤ 20 → enabled s (BIT n) = true → asleep s = true →
  let s' := bl808_pds_trigger_wakeup s (BIT n) in
  asleep s' = false ∧ Z.testbit (pds s' BL808_PDS_INT_OFFSET) 0 = true ∧ Z.testbit (pds s' BL808_PDS_INT_OFFSET) (n + 11) = true ∧
  tst (pds s' BL808_PDS_CTL_OFFSET) BL808_PDS_CTL_START_PS = false ∧
  tst (pds s' BL808_PDS_STAT_OFFSET) BL808_PDS_STAT_BUSY = false ∧
  env s' = match pds_sleep_cpu s with Some hart => resume_cpu hart (env s) | None => env s end.
Proof.
  intros Hn He Ha. cbv zeta. split; [by rewrite trigger_asleep, He, andb_false_r|]. rewrite trigger_eq, He, Ha.
  assert (pds (noted s (BIT n)) BL808_PDS_INT_OFFSET =
    Z.lor (pds s BL808_PDS_INT_OFFSET) (Z.lor (BIT 0) (BIT (n + 11)))) as HI.
  { unfold noted. change (pds (bl808_pds_update_irq ?x)) with (pds x). rewrite pds_set_eq. by rewrite (event_bit _ n). }
  assert (pds_sleep_cpu (noted s (BIT n)) = pds_sleep_cpu s ∧ env (noted s (BIT n)) = env s) as [Hc Hv] by done.
  revert HI Hc Hv. generalize (noted s (BIT n)). intros s1 HI Hc Hv.
  destruct (ended_regs s1) as (I & B & C). rewrite complete_eq, <- Hc, <- Hv.
  assert (pds (match pds_sleep_cpu s1 with Some hart => ended s1 <| env := resume_cpu hart (env (ended s1)) |> | None => ended s1 end)
    = pds (ended s1)) as -> by by destruct (pds_sleep_cpu s1).
  rewrite I, B, C, HI, !Z.lor_spec, !BIT_spec by lia. rewrite !Z.eqb_refl, !orb_true_l, !orb_true_r.
  split_and!; [done..|by apply tst_clr_0|by apply tst_clr_0|by destruct (pds_sleep_cpu s1)].
Qed.

Lemma triggered_asleep active b s : asleep (triggered active b s) = true → triggered active b s = s.
Proof. destruct active; [apply trigger_id|done]. Qed.

Lemma lying_int s cpu n :
  10 ≤ n ≤ 20 → Z.testbit (pds (lying s cpu) BL808_PDS_INT_OFFSET) n = Z.testbit (pds s BL808_PDS_INT_OFFSET) n.
Proof.
  intros Hn. unfold lying. cbv zeta. set (s1 := s <| pds_wake_timer := None |> <| pds_sleep_cpu := cpu |> <| pds_sleep_pending := true |>).
  set (s2 := set_pds s1 _ _). set (s3 := set_pds s2 _ _).
  transitivity (Z.testbit (pds s3 BL808_PDS_INT_OFFSET) n); [done|]. unfold s3. rewrite pds_set_ne by done. unfold s2.
  rewrite pds_set_eq, clr_spec by lia. change (pds s1) with (pds s).
  assert (Z.testbit (Z.lor BL808_PDS_INT_STATUS_MASK BL808_PDS_WAKEUP_EVENT_MASK) n = false) as ->; [|by rewrite andb_true_r].
  assert (n ∈ [10; 11; 12; 13; 14; 15; 16; 17; 18; 19; 20]) as Hin by (rewrite !elem_of_cons; lia).
  rewrite !elem_of_cons in Hin. destruct_or! Hin; try (subst n; by vm_compute). by apply elem_of_nil in Hin.
Qed.

(** The time that a sleep is given. *)
Lemma schedule_arms s cpu :
  let ticks := pds s BL808_PDS_TIME1_OFFSET in
  uint 32 ticks → ticks ≠ 0 → tst (pds s BL808_PDS_CTL_OFFSET) BL808_PDS_CTL_SLEEP_FOREVER = false →
  enabled s BL808_PDS_WAKEUP_SRC_TIMER = true → asleep (bl808_pds_schedule_sleep s cpu) = true →
  ∃ d, pds_wake_timer (bl808_pds_schedule_sleep s cpu) = Some (virtual_ns s + d) ∧
       (d - 1) * 32768 < ticks * 1000000000 ≤ d * 32768.
Proof.
  cbv zeta. rewrite (schedule_eq s cpu). set (ticks := pds s BL808_PDS_TIME1_OFFSET). intros Ht Hn Hf He.
  assert (enabled (lying s cpu) BL808_PDS_WAKEUP_SRC_TIMER = true) as He0.
  { unfold bl808_pds_wakeup_source_enabled, BL808_PDS_WAKEUP_SRC_TIMER in *. rewrite tst_BIT in * by lia. by rewrite lying_int. }
  clear He. revert He0. generalize (lying s cpu). intros s0 He0.
  set (s1 := triggered (hbn_active s) _ s0). set (s2 := triggered (glb_gpio_irq_pending s1) _ s1).
  set (s3 := triggered (pins_active s2) _ s2).
  destruct (asleep s1) eqn:E1; cbn [negb]; [|by rewrite E1]. destruct (asleep s2) eqn:E2; cbn [negb]; [|by rewrite E2].
  destruct (asleep s3) eqn:E3; cbn [negb]; [|by rewrite E3]. intros _.
  assert (s3 = s0) as Hs.
  { pose proof (triggered_asleep _ _ _ E3) as H3. pose proof (triggered_asleep _ _ _ E2) as H2. pose proof (triggered_asleep _ _ _ E1) as H1.
    transitivity s2; [exact H3|]. by transitivity s1. }
  clearbody s3. subst s3.
  unfold arm_wake_timer. cbv zeta. rewrite Hf, He0. cbn [negb orb]. destruct (Z.eqb_spec ticks 0); [lia|].
  exists (Z.max (u64 ((ticks * 1000000000 + BL808_HBN_F32K_HZ - 1) / BL808_HBN_F32K_HZ)) 1). split; [done|].
  unfold BL808_HBN_F32K_HZ. unfold uint in Ht. set (x := ticks * 1000000000 + 32768 - 1).
  pose proof (Z.div_mod x 32768 ltac:(lia)). pose proof (Z.mod_pos_bound x 32768 ltac:(lia)).
  rewrite wrap_small by (unfold uint; lia). lia.
Qed.

End sleep.

Section properties.
Context {R : Type} `{!SleepEnv R}.
Notation state := (BL808MachineState R).
Implicit Types s : state.

(** C36: After a reset of the machine, on every run of accesses to the registers of
    the three blocks, levels of the pads, sensors, wireless events, infrared frames,
    timers and passing time, in which the guest writes neither status register
    directly and enables no further wake-up source during a sleep: the wake-up line
    is high exactly when a status bit of the interrupt register is unmasked, the two
    lines of the hibernation block when their status bits are set, and the line of
    the infrared receiver when it is enabled and its interrupt is set, enabled and
    not masked; the busy bit is whether the machine sleeps; awake, no core is
    recorded as asleep and no wake-up timer is armed.  Asleep, none of the three
    wake-up sources that have a level (the hibernation block, the pins of the global
    block and those of the power-down block) is both enabled and active.  Every
    event of the other sources (the wake-up timer, the three wireless ones, and a
    frame that the enabled infrared receiver takes) ends the sleep when its source
    is enabled; these are events, not levels: an interrupt of the receiver that is
    already up when the sleep begins does not end it ([ir_status_slept_over]). *)
Theorem pds_never_oversleeps s :
  reachable s →
  let reg := pds s BL808_PDS_INT_OFFSET in let stat := hbn s BL808_HBN_IRQ_STAT_OFFSET in
  let ir_int := ir s BL808_IR_RX_INT_STS_OFFSET in
  pds_wakeup_irq s = existsb (λ b, tst reg (BIT b) && negb (tst reg (BIT (b + 4)))) [0; 1; 2; 3] ∧
  m0_hbn_out0_irq s = tst stat BL808_HBN_OUT0_STATUS_MASK ∧ m0_hbn_out1_irq s = tst stat BL808_HBN_OUT1_STATUS_MASK ∧
  irrx_irq s = tst (ir s BL808_IR_RX_CFG_OFFSET) BL808_IR_RX_CFG_EN && tst ir_int BL808_IR_RX_END_INT &&
               tst ir_int BL808_IR_RX_END_EN && negb (tst ir_int BL808_IR_RX_END_MASK) ∧
  tst (pds s BL808_PDS_STAT_OFFSET) BL808_PDS_STAT_BUSY = pds_sleep_pending s ∧
  (pds_sleep_pending s = false → pds_sleep_cpu s = None ∧ pds_wake_timer s = None) ∧
  (pds_sleep_pending s = true →
    (tst reg BL808_PDS_WAKEUP_SRC_HBN_IRQ = true → m0_hbn_out0_irq s = false ∧ m0_hbn_out1_irq s = false) ∧
    (tst reg BL808_PDS_WAKEUP_SRC_GLB_GPIO = true → glb_gpio_irq_pending s = false) ∧
    (tst reg BL808_PDS_WAKEUP_SRC_PDS_GPIO = true → pds s BL808_PDS_GPIO_STAT_OFFSET = 0)) ∧
  ∀ e b,
    (e, b) ∈ [(TimerWakes, BL808_PDS_WAKEUP_SRC_TIMER); (WifiWakeup, BL808_PDS_WAKEUP_SRC_WIFI_WKP);
              (DmSleep, BL808_PDS_WAKEUP_SRC_DM_SLP); (TbttSleep, BL808_PDS_WAKEUP_SRC_WIFI_TBTT);
              (TbttWakeup, BL808_PDS_WAKEUP_SRC_WIFI_TBTT); (IrInject, BL808_PDS_WAKEUP_SRC_IRRX)] →
    (e = IrInject → tst (ir s BL808_IR_RX_CFG_OFFSET) BL808_IR_RX_CFG_EN = true) →
    tst reg b = true → pds_sleep_pending (sleep_step s e) = false.
Proof.
  intros [([F I Bs A] & G & [O0 O1] & Q) P]%reachable_sound. cbv zeta.
  split; [|split_and!; [exact O0|exact O1|exact F|exact Bs|exact A| |apply rousing_wakes]].
  - rewrite I. unfold unmasked, bl808_pds_status_unmasked. cbn [existsb]. by rewrite orb_false_r, !orb_assoc.
  - intros Ha. split_and!.
    + intros He. pose proof (Q Ha He) as Hq. unfold hbn_active in Hq. rewrite outs_split in Hq.
      apply orb_false_iff in Hq. by rewrite O0, O1.
    + intros He. by apply G.
    + intros He. pose proof (P Ha He) as Hq. unfold pins_active in Hq. by apply negb_false_iff, Z.eqb_eq in Hq.
Qed.

(** C37: A sleep that is entered with a time, the timer source enabled and without the
    bit of an unlimited sleep arms the wake-up timer: at the first
    nanosecond at which [TIME1] periods of the 32768 Hz clock have passed, at least
    one.  When the timer comes while the machine sleeps and the source is enabled,
    the sleep has ended: the start and busy bits are clear, the wake-up and timer
    bits are set, and the core that slept resumes. *)
Theorem pds_timer_ends_sleep s cpu s' hart :
  let ticks := pds s BL808_PDS_TIME1_OFFSET in
  uint 32 ticks → ticks ≠ 0 → tst (pds s BL808_PDS_CTL_OFFSET) BL808_PDS_CTL_SLEEP_FOREVER = false →
  bl808_pds_wakeup_source_enabled s BL808_PDS_WAKEUP_SRC_TIMER = true → pds_sleep_pending (bl808_pds_schedule_sleep s cpu) = true →
  pds_sleep_pending s' = true → pds_sleep_cpu s' = Some hart → bl808_pds_wakeup_source_enabled s' BL808_PDS_WAKEUP_SRC_TIMER = true →
  (∃ d, pds_wake_timer (bl808_pds_schedule_sleep s cpu) = Some (virtual_ns s + d) ∧
        (d - 1) * 32768 < ticks * 1000000000 ≤ d * 32768) ∧
  let s2 := bl808_pds_wake_cb s' in
  pds_sleep_pending s2 = false ∧ tst (pds s2 BL808_PDS_CTL_OFFSET) BL808_PDS_CTL_START_PS = false ∧
  tst (pds s2 BL808_PDS_STAT_OFFSET) BL808_PDS_STAT_BUSY = false ∧
  Z.testbit (pds s2 BL808_PDS_INT_OFFSET) 0 = true ∧ Z.testbit (pds s2 BL808_PDS_INT_OFFSET) 21 = true ∧
  env s2 = resume_cpu hart (env s').
Proof.
  cbv zeta. intros Ht Hn Hf He Ha Ha' Hc He'. split; [by apply schedule_arms|].
  destruct (trigger_ends s' 10 ltac:(lia) He' Ha') as (E1 & E2 & E3 & E4 & E5 & E6). rewrite Hc in E6.
  unfold bl808_pds_wake_cb. split_and!; [exact E1|exact E4|exact E5|exact E2|exact E3|exact E6].
Qed.

End properties.
