(* ===== verification/HbnSpec.v ===== *)
(** * The alarm and the wake-up pins of the hibernation block

    [hbn_alarm_exact]: when the alarm rings.  [hbn_wake_retains]: what a reset by the
    alarm keeps.  [hbn_delay_qualified]: a delayed wake-up by a level needs the level to
    be held for the whole delay. *)

From S2P Require Import Prelude Qemu Glb GlbSpec Sleep SleepSpec.
From stdpp Require Import prelude list.
From Stdlib Require Import ZArith Lia.
Import BL808GLB BL808Pads BL808Sleep.
Local Open Scope Z_scope.

Section hbn.
Context {R : Type} `{!SleepEnv R}.
Notation state := (BL808MachineState R).
Notation deadline := hbn_aon_delay_deadline_ns.
Notation enabled := bl808_hbn_gpio_delay_enabled.
Notation mode := bl808_hbn_gpio_mode.
Implicit Types s : state.

Definition aon_pin (pin : Z) : Prop := 0 ≤ pin < BL808_HBN_AON_PINS.

Definition irq_mode s : Z := hbn s BL808_HBN_IRQ_MODE_OFFSET.
Definition status s (pin : Z) : bool := Z.testbit (hbn s BL808_HBN_IRQ_STAT_OFFSET) pin.

(** The modes in which a level wakes up at once. *)
Definition level_mode s : Prop := mode s = 0xA ∨ mode s = 0xB.

(** The level of a pin is the one that wakes up. *)
Definition held s (pin : Z) : bool := bl808_hbn_gpio_level_active (mode s) (hbn_aon_level s pin).

(** A deadline that is set has its timer. *)
Definition covered s : Prop := ∀ pin, aon_pin pin → 0 ≤ deadline s pin → ∃ t, hbn_gpio_delay_timer s = Some t ∧ t ≤ deadline s pin.

(** A deadline is only set over a level that wakes up. *)
Definition good s : Prop :=
  level_mode s → ∀ pin, aon_pin pin → 0 ≤ deadline s pin → held s pin = true ∧ enabled s = true.

(** What an operation may do with the delays: arm them from now, but not latch. *)
Record delays s s' : Prop := {
  d_mode : irq_mode s' = irq_mode s;
  d_ns : virtual_ns s' = virtual_ns s;
  d_covered : covered s → covered s';
  d_good : good s → good s';
  d_moves : good s → level_mode s → ∀ pin, aon_pin pin → 0 ≤ deadline s' pin →
    deadline s' pin = deadline s pin ∧ hbn_aon_level s' pin = hbn_aon_level s pin ∨
    deadline s' pin = virtual_ns s + bl808_hbn_gpio_delay_ns s;
  d_status : enabled s = true → level_mode s → ∀ pin, aon_pin pin → status s' pin = true → status s pin = true;
}.

Lemma mode_eq s s' : irq_mode s' = irq_mode s →
  mode s' = mode s ∧ enabled s' = enabled s ∧ bl808_hbn_gpio_mask s' = bl808_hbn_gpio_mask s ∧
  bl808_hbn_gpio_delay_ns s' = bl808_hbn_gpio_delay_ns s.
Proof.
  unfold irq_mode, bl808_hbn_gpio_mode, bl808_hbn_gpio_delay_enabled, bl808_hbn_gpio_mask, bl808_hbn_gpio_delay_ns. by intros ->.
Qed.

Lemma delays_refl s : delays s s.
Proof. split; auto. Qed.

Lemma delays_trans s1 s2 s3 : delays s1 s2 → delays s2 s3 → delays s1 s3.
Proof.
  intros H1 H2. destruct (mode_eq _ _ (d_mode _ _ H1)) as (Em & Ee & _ & Ed).
  split; [by rewrite (d_mode _ _ H2), (d_mode _ _ H1)|by rewrite (d_ns _ _ H2), (d_ns _ _ H1)| | | |].
  - intros H. by apply H2, H1.
  - intros H. by apply H2, H1.
  - intros Hg Hm pin Hp Hd. assert (level_mode s2) as Hm2 by (unfold level_mode; by rewrite Em).
    destruct (d_moves _ _ H2 (d_good _ _ H1 Hg) Hm2 pin Hp Hd) as [[E1 E2]|E]; [|right; by rewrite E, (d_ns _ _ H1), Ed].
    rewrite E1 in *. destruct (d_moves _ _ H1 Hg Hm pin Hp Hd) as [[E3 E4]|E]; [left|by right]. by rewrite E2.
  - intros He Hm pin Hp Hs. apply (d_status _ _ H1 He Hm pin Hp). apply (d_status _ _ H2); [by rewrite Ee| |done|done].
    unfold level_mode. by rewrite Em.
Qed.

Lemma delays_foldl (f : state → Z → state) l s : (∀ s x, x ∈ l → delays s (f s x)) → delays s (foldl f s l).
Proof.
  revert s. induction l as [|x l IH]; intros s Hf; [apply delays_refl|]. simpl.
  eapply delays_trans; [apply Hf; by left|]. apply IH. intros s' y Hy. apply Hf. by right.
Qed.

(** An operation that leaves the pins alone, and only clears status bits of theirs. *)
Lemma delays_same s s' :
  irq_mode s' = irq_mode s → virtual_ns s' = virtual_ns s → deadline s' = deadline s → hbn_aon_level s' = hbn_aon_level s →
  hbn_gpio_delay_timer s' = hbn_gpio_delay_timer s → (∀ pin, aon_pin pin → status s' pin = true → status s pin = true) → delays s s'.
Proof.
  intros H1 H2 H3 H4 H5 H6. destruct (mode_eq _ _ H1) as (Em & Ee & _ & Ed). split; try done.
  - unfold covered. by rewrite H3, H5.
  - unfold good, level_mode, held. by rewrite H3, Em, Ee, H4.
  - intros _ _ pin _ _. left. by rewrite H3, H4.
Qed.

Lemma wakes_delays s s' : wakes s s' → delays s s'.
Proof.
  intros W. apply delays_same; try apply W; [apply (wakes_hbn _ _ _ W)|].
  intros pin _. unfold status. by rewrite (wakes_hbn _ _ _ W).
Qed.

Lemma update_irqs_delays s : delays s (bl808_hbn_update_irqs s).
Proof.
  unfold bl808_hbn_update_irqs. cbv zeta. set (s1 := s <| m0_hbn_out0_irq := _ |> <| m0_hbn_out1_irq := _ |>).
  eapply (delays_trans _ s1); [by apply delays_same|]. destruct (_ || _); [|apply delays_refl].
  apply wakes_delays, trigger_wakes.
Qed.

Lemma update_irqs_status s pin : status (bl808_hbn_update_irqs s) pin = status s pin.
Proof.
  unfold bl808_hbn_update_irqs. cbv zeta. set (s1 := s <| m0_hbn_out0_irq := _ |> <| m0_hbn_out1_irq := _ |>).
  transitivity (status s1 pin); [|done]. clearbody s1. destruct (_ || _); [|done].
  unfold status. by rewrite (wakes_hbn _ _ _ (trigger_wakes s1 _)).
Qed.

(** ** The delays of the pins *)

Lemma pins_elem pin : pin ∈ aon_pins ↔ aon_pin pin.
Proof. unfold aon_pins, aon_pin, BL808_HBN_AON_PINS. rewrite elem_of_seqZ. lia. Qed.

(** The timer is set to the earliest deadline. *)
Lemma earliest_from (deadlines : Z → Z) l d0 :
  let d := foldl (λ d pin, let pd := deadlines pin in
           if pd <? 0 then d else if (d <? 0) || (pd <? d) then pd else d) d0 l in
  (0 ≤ d0 → 0 ≤ d ≤ d0) ∧ (∀ pin, pin ∈ l → 0 ≤ deadlines pin → 0 ≤ d ≤ deadlines pin).
Proof.
  cbv zeta. revert d0. induction l as [|x l IH]; intros d0.
  { split; [simpl; lia|]. intros pin Hp%elem_of_nil. done. }
  simpl. set (d1 := if deadlines x <? 0 then d0 else _). destruct (IH d1) as [H1 H2].
  assert ((0 ≤ d0 → 0 ≤ d1 ≤ d0) ∧ (0 ≤ deadlines x → 0 ≤ d1 ≤ deadlines x)) as [H3 H4].
  { unfold d1. destruct (Z.ltb_spec (deadlines x) 0); [lia|]. destruct (Z.ltb_spec d0 0); cbn [orb]; [lia|].
    destruct (Z.ltb_spec (deadlines x) d0); lia. }
  split; [lia|]. intros pin [->|Hp]%elem_of_cons Hd; [lia|by apply H2].
Qed.

Lemma reschedule_covered s : covered (bl808_hbn_gpio_delay_reschedule s).
Proof.
  unfold covered. intros pin Hp. assert (deadline (bl808_hbn_gpio_delay_reschedule s) = deadline s) as ->.
  { unfold bl808_hbn_gpio_delay_reschedule. cbv zeta. by destruct (_ <? 0). }
  intros Hd. destruct (earliest_from (deadline s) aon_pins (-1)) as [_ H].
  specialize (H pin ltac:(by apply pins_elem) Hd). unfold bl808_hbn_gpio_delay_reschedule. cbv zeta.
  change (foldl _ _ _) with (earliest (deadline s)) in H. destruct (Z.ltb_spec (earliest (deadline s)) 0); [lia|].
  exists (earliest (deadline s)). split; [done|]. apply H.
Qed.

Lemma reschedule_delays s : delays s (bl808_hbn_gpio_delay_reschedule s).
Proof.
  assert (∀ t, let s' := s <| hbn_gpio_delay_timer := t |> in irq_mode s' = irq_mode s ∧ virtual_ns s' = virtual_ns s ∧
    deadline s' = deadline s ∧ hbn_aon_level s' = hbn_aon_level s ∧ (∀ pin, status s' pin = status s pin)) as Hs by done.
  pose proof (reschedule_covered s) as Hc. revert Hc. unfold bl808_hbn_gpio_delay_reschedule. cbv zeta.
  assert (∀ t, covered (s <| hbn_gpio_delay_timer := t |>) → delays s (s <| hbn_gpio_delay_timer := t |>)) as H.
  { intros t Hc. split; try done. intros _ _ pin _ _. by left. }
  by destruct (_ <? 0); apply H.
Qed.

Lemma cancel_delays s pin : delays s (bl808_hbn_gpio_delay_cancel_pin s pin).
Proof.
  assert (∀ q, 0 ≤ deadline (bl808_hbn_gpio_delay_cancel_pin s pin) q → deadline (bl808_hbn_gpio_delay_cancel_pin s pin) q = deadline s q) as H.
  { intros q. change (deadline (bl808_hbn_gpio_delay_cancel_pin s pin)) with (fset (deadline s) pin (-1)).
    rewrite fset_lookup. destruct (decide (q = pin)); [lia|done]. }
  split; try done.
  - intros Hc q Hq Hd. pose proof (H q Hd) as E. rewrite E in *. by apply Hc.
  - intros Hg Hm q Hq Hd. rewrite (H q Hd) in Hd. by apply Hg.
  - intros _ _ q _ Hd. left. by rewrite (H q Hd).
Qed.

Lemma arm_delays s pin :
  (level_mode s → held s pin = true) → delays s (bl808_hbn_gpio_delay_arm_pin s pin).
Proof.
  intros Hh. unfold bl808_hbn_gpio_delay_arm_pin. cbv zeta. destruct (_ || _) eqn:Eb; [apply delays_refl|].
  rewrite !orb_false_iff, !negb_false_iff in Eb. destruct Eb as [[[He _] _] _].
  set (s1 := s <| hbn_aon_delay_deadline_ns := _ |>).
  assert (∀ q, deadline s1 q = if decide (q = pin) then virtual_ns s + bl808_hbn_gpio_delay_ns s else deadline s q) as Hd.
  { intros q. apply fset_lookup. }
  pose proof (reschedule_delays s1) as H1. pose proof (reschedule_covered s1) as Hc.
  split; try apply H1; [done| |].
  - intros Hg. apply H1. intros Hm q Hq Hdq. rewrite Hd in Hdq. change (held s1 q) with (held s q).
    destruct (decide (q = pin)) as [->|]; [split; [by apply Hh|done]|by apply Hg].
  - intros Hg Hm q Hq Hdq.
    assert (deadline (bl808_hbn_gpio_delay_reschedule s1) = deadline s1 ∧ hbn_aon_level (bl808_hbn_gpio_delay_reschedule s1) = hbn_aon_level s) as [E1 E2].
    { unfold bl808_hbn_gpio_delay_reschedule. cbv zeta. by destruct (_ <? 0). }
    rewrite E1, E2, Hd in *. destruct (decide (q = pin)); [by right|by left].
Qed.

(** ** The operations *)

Lemma not_edge s : level_mode s → bl808_hbn_gpio_mode_is_edge (mode s) = false ∧ (mode s =? 0x2) || (mode s =? 0x3) = false ∧
  (mode s =? 0xA) || (mode s =? 0xB) = true ∧ (∀ o n, bl808_hbn_gpio_irq_immediate (mode s) o n = false).
Proof. unfold level_mode. intros [-> | ->]; by split_and!. Qed.

Lemma latch_delays s pin : (enabled s = true → level_mode s → False) → delays s (latch_pin s pin).
Proof.
  intros H. assert (irq_mode (latch_pin s pin) = irq_mode s) as Hi by (apply hbn_set_ne; done).
  destruct (mode_eq _ _ Hi) as (Em & Ee & _ & _). split; try done.
  - intros _ _ q _ _. by left.
  - intros He Hm. by destruct (H He Hm).
Qed.

Lemma refresh_aon_delays s pin :
  delays s (refresh_aon_pin (mode s) (bl808_hbn_gpio_mask s) s pin).
Proof.
  unfold refresh_aon_pin. cbv zeta. destruct (negb _); [apply cancel_delays|].
  destruct (enabled s) eqn:He.
  - destruct (bl808_hbn_gpio_level_active _ _) eqn:Ea; [by apply arm_delays|apply cancel_delays].
  - destruct (bl808_hbn_gpio_level_active _ _); [|apply delays_refl]. apply latch_delays. by rewrite He.
Qed.

Lemma foldl_refresh_delays s l :
  delays s (foldl (refresh_aon_pin (mode s) (bl808_hbn_gpio_mask s)) s l).
Proof.
  assert (∀ m k, mode s = m → bl808_hbn_gpio_mask s = k → delays s (foldl (refresh_aon_pin m k) s l)) as H; [|by apply H].
  intros m k. revert s. induction l as [|x l IH]; intros s Hm Hk; [apply delays_refl|]. simpl.
  assert (delays s (refresh_aon_pin m k s x)) as H1 by (subst m k; apply refresh_aon_delays).
  eapply delays_trans; [exact H1|]. destruct (mode_eq _ _ (d_mode _ _ H1)) as (Em & _ & Ek & _).
  apply IH; congruence.
Qed.

Lemma refresh_gpio_delays s : delays s (bl808_hbn_refresh_gpio_live_sources s).
Proof.
  unfold bl808_hbn_refresh_gpio_live_sources. cbv zeta. destruct (_ && _); [apply update_irqs_delays|].
  eapply delays_trans; [apply foldl_refresh_delays|]. eapply delays_trans; [apply update_irqs_delays|].
  apply reschedule_delays.
Qed.

Lemma sample_aon_delays s pin :
  delays s (sample_aon_pin (mode s) (bl808_hbn_gpio_mask s) s pin).
Proof.
  unfold sample_aon_pin. cbv zeta. set (s1 := s <| hbn_aon_history := _ |>).
  assert (delays s s1) as H1 by by apply delays_same.
  eapply delays_trans; [exact H1|]. assert (mode s = mode s1) as Em by done. rewrite Em. clearbody s1. clear H1 Em.
  destruct (negb _); [apply cancel_delays|]. destruct (enabled s1) eqn:He.
  - destruct (_ && _) eqn:Eb.
    + apply arm_delays. intros Hm. destruct (not_edge _ Hm) as [E _]. by rewrite E in Eb.
    + destruct ((mode s1 =? 0x2) || (mode s1 =? 0x3)) eqn:E2; [|apply delays_refl]. unfold bl808_hbn_gpio_sync_delayed_level. cbv zeta.
      case_match; [apply delays_refl|]. case_match; [|apply cancel_delays]. apply arm_delays.
      intros Hm. destruct (not_edge _ Hm) as (_ & E & _). clear - E E2. congruence.
  - destruct (bl808_hbn_gpio_irq_sampled _ _); [|apply delays_refl]. apply latch_delays. by rewrite He.
Qed.

Lemma foldl_sample_delays s l :
  delays s (foldl (sample_aon_pin (mode s) (bl808_hbn_gpio_mask s)) s l).
Proof.
  assert (∀ m k, mode s = m → bl808_hbn_gpio_mask s = k → delays s (foldl (sample_aon_pin m k) s l)) as H; [|by apply H].
  intros m k. revert s. induction l as [|x l IH]; intros s Hm Hk; [apply delays_refl|]. simpl.
  assert (delays s (sample_aon_pin m k s x)) as H1 by (subst m k; apply sample_aon_delays).
  eapply delays_trans; [exact H1|]. destruct (mode_eq _ _ (d_mode _ _ H1)) as (Em & _ & Ek & _).
  apply IH; congruence.
Qed.

Lemma sample_reschedule_delays s : delays s (bl808_hbn_gpio_sample_reschedule s).
Proof. unfold bl808_hbn_gpio_sample_reschedule. by destruct (negb _); apply delays_same. Qed.

Lemma hbn_sample_delays s : delays s (bl808_hbn_gpio_sample_cb s).
Proof.
  unfold bl808_hbn_gpio_sample_cb. cbv zeta. eapply delays_trans; [apply foldl_sample_delays|].
  eapply delays_trans; [apply update_irqs_delays|]. eapply delays_trans; [apply reschedule_delays|].
  apply sample_reschedule_delays.
Qed.

(** A new level of a pin that has no deadline, or that wakes up as before. *)
Definition at_level s (n : Z) (level : bool) : state := s <| hbn_aon_level := fset (hbn_aon_level s) n level |>.

Lemma at_level_other s n level q : q ≠ n → hbn_aon_level (at_level s n level) q = hbn_aon_level s q.
Proof.
  intros H. transitivity (fset (hbn_aon_level s) n level q); [done|]. rewrite fset_lookup. by rewrite decide_False.
Qed.

Lemma at_level_delays s n level :
  (enabled s = true → level_mode s → bl808_hbn_gpio_level_active (mode s) level = true) → delays s (at_level s n level).
Proof.
  intros Ha. split; try done.
  - intros Hg Hm q Hq Hd. destruct (Hg Hm q Hq Hd) as [Hh He]. split; [|done]. unfold held.
    change (mode (at_level s n level)) with (mode s). destruct (decide (q = n)) as [->|Hn].
    + transitivity (bl808_hbn_gpio_level_active (mode s) level); [|by apply Ha].
      f_equal. transitivity (fset (hbn_aon_level s) n level n); [done|]. rewrite fset_lookup. by rewrite decide_True.
    + by rewrite at_level_other.
  - intros Hg Hm q Hq Hd. left. split; [done|]. destruct (Hg Hm q Hq Hd) as [Hh He].
    destruct (decide (q = n)) as [->|Hn]; [|by apply at_level_other].
    transitivity (fset (hbn_aon_level s) n level n); [done|]. rewrite fset_lookup, decide_True by done.
    specialize (Ha He Hm). unfold held in Hh. destruct Hm as [E|E]; rewrite E in *; by destruct level, (hbn_aon_level s n).
Qed.

Lemma at_level_cancel s n level : delays s (bl808_hbn_gpio_delay_cancel_pin (at_level s n level) n).
Proof.
  set (s' := bl808_hbn_gpio_delay_cancel_pin _ _).
  assert (∀ q, 0 ≤ deadline s' q → deadline s' q = deadline s q ∧ hbn_aon_level s' q = hbn_aon_level s q) as H.
  { intros q. change (deadline s') with (fset (deadline s) n (-1)). rewrite fset_lookup.
    destruct (decide (q = n)); [lia|]. intros _. split; [done|]. by apply (at_level_other s n level). }
  split; try done.
  - intros Hc q Hq Hd. destruct (H q Hd) as [E _]. rewrite E in *. by apply Hc.
  - intros Hg Hm q Hq Hd. destruct (H q Hd) as [E1 E2]. rewrite E1 in Hd. unfold held.
    change (mode s') with (mode s). rewrite E2. by apply Hg.
  - intros _ _ q _ Hd. left. by apply H.
Qed.

Lemma level_set_delays s n level : delays s (bl808_hbn_gpio_level_set s n level).
Proof.
  unfold bl808_hbn_gpio_level_set. cbv zeta. destruct (_ || _); [apply delays_refl|].
  change (s <| hbn_aon_level := fset (hbn_aon_level s) n level |>) with (at_level s n level).
  assert (bl808_hbn_gpio_delay_enabled (at_level s n level) = enabled s) as Ee by done.
  destruct (negb _); [eapply delays_trans; [apply at_level_cancel|apply reschedule_delays]|].
  rewrite Ee. destruct (enabled s) eqn:He.
  - eapply delays_trans; [|apply reschedule_delays].
    destruct (bl808_hbn_gpio_irq_immediate _ _ _) eqn:Ei.
    { assert (level_mode s → False) as Hm by (intros Hm; destruct (not_edge _ Hm) as (_ & _ & _ & E); by rewrite E in Ei).
      eapply delays_trans; [apply at_level_delays; intros _ H; by destruct (Hm H)|]. apply arm_delays. intros H. by destruct (Hm H). }
    destruct (_ || _) eqn:Em.
    + destruct (bl808_hbn_gpio_level_active _ _) eqn:Ea; [|apply at_level_cancel].
      eapply delays_trans; [by apply at_level_delays|]. apply arm_delays. intros _.
      unfold held. change (mode (at_level s n level)) with (mode s). rewrite <- Ea. f_equal.
      transitivity (fset (hbn_aon_level s) n level n); [done|]. rewrite fset_lookup. by rewrite decide_True.
    + apply at_level_delays. intros _ Hm. destruct (not_edge _ Hm) as (_ & _ & E & _). by rewrite E in Em.
  - assert (delays s (at_level s n level)) as H1 by (apply at_level_delays; by rewrite He).
    destruct (bl808_hbn_gpio_irq_immediate _ _ _).
    + eapply delays_trans; [exact H1|]. eapply delays_trans; [|apply update_irqs_delays]. apply latch_delays. by rewrite Ee.
    + destruct (_ || _); [|exact H1]. eapply delays_trans; [exact H1|apply refresh_gpio_delays].
Qed.

Lemma line_delays s c : delays s (line_call_set s c).
Proof.
  destruct c as [pin level|level]; cbn [line_call_set].
  - destruct (aon_index pin); [apply level_set_delays|].
    unfold bl808_pds_gpio_level_set. cbv zeta. destruct (_ <? 0); [apply delays_refl|].
    set (s1 := s <| pds_gpio_level := _ |>). eapply (delays_trans _ s1); [by apply delays_same|].
    destruct (negb _); [apply delays_refl|]. destruct (_ || _); [|apply delays_refl].
    unfold bl808_pds_gpio_update_wakeup. destruct (negb _); [|by apply delays_same].
    eapply delays_trans; [by apply (delays_same s1 (raise_pin s1 (bl808_pds_gpio_index_from_pin pin)))|].
    apply wakes_delays, trigger_wakes.
  - unfold bl808_glb_pds_wakeup_set. cbv zeta. set (s1 := s <| glb_gpio_irq_pending := level |>).
    eapply (delays_trans _ s1); [by apply delays_same|]. destruct level; [apply wakes_delays, trigger_wakes|apply delays_refl].
Qed.

Lemma lines_delays l s : delays s (foldl line_call_set s l).
Proof.
  revert s. induction l as [|c l IH]; intros s; [apply delays_refl|]. simpl. eapply delays_trans; [apply line_delays|apply IH].
Qed.

Lemma apply_pads_delays s : delays s (bl808_hbn_apply_aon_pad_ctrl s).
Proof.
  unfold bl808_hbn_apply_aon_pad_ctrl. destruct (apply_pads _ _ _ _) as [r calls].
  eapply (delays_trans _ (s <| env := r |>)); [by apply delays_same|apply lines_delays].
Qed.

Lemma apply_inputs_delays s : delays s (bl808_apply_inputs s).
Proof.
  unfold bl808_apply_inputs. destruct (apply_inputs _) as [r calls].
  eapply (delays_trans _ (s <| env := r |>)); [by apply delays_same|apply lines_delays].
Qed.

(** ** Operations of the power-down block *)

Definition hpart s := (hbn_regs s, hbn_aon_level s, deadline s, hbn_gpio_delay_timer s, virtual_ns s).

Lemma hpart_delays s s' : hpart s' = hpart s → delays s s'.
Proof.
  unfold hpart. intros [= H1 H2 H3 H4 H5]. apply delays_same; try done; unfold irq_mode, status, hbn; by rewrite H1.
Qed.

Lemma hpart_foldl (f : state → Z → state) l s : (∀ s x, hpart (f s x) = hpart s) → hpart (foldl f s l) = hpart s.
Proof. intros Hf. revert s. induction l as [|x l IH]; intros s; [done|]. simpl. by rewrite IH, Hf. Qed.

Lemma trigger_hpart s b : hpart (bl808_pds_trigger_wakeup s b) = hpart s.
Proof. destruct (trigger_wakes s b). unfold hpart. congruence. Qed.

Lemma update_wakeup_hpart s : hpart (bl808_pds_gpio_update_wakeup s) = hpart s.
Proof. unfold bl808_pds_gpio_update_wakeup. destruct (negb _); [apply trigger_hpart|done]. Qed.

Lemma refresh_live_hpart s : hpart (bl808_pds_gpio_refresh_live_sources s) = hpart s.
Proof.
  unfold bl808_pds_gpio_refresh_live_sources. rewrite update_wakeup_hpart. apply hpart_foldl. intros s' x.
  unfold refresh_pin. cbv zeta. by repeat case_match.
Qed.

Lemma clear_on_rise_hpart old next bit set s : hpart (clear_on_rise old next bit set s) = hpart s.
Proof. unfold clear_on_rise. destruct (_ && _); [|done]. unfold bl808_pds_gpio_clear_set. by rewrite refresh_live_hpart. Qed.

Lemma pds_reschedule_hpart s : hpart (bl808_pds_gpio_sample_reschedule s) = hpart s.
Proof. unfold bl808_pds_gpio_sample_reschedule. by destruct (negb _). Qed.

Lemma refresh_and_sample_hpart s : hpart (refresh_and_sample s) = hpart s.
Proof. unfold refresh_and_sample. by rewrite pds_reschedule_hpart, refresh_live_hpart. Qed.

Lemma write_gpio_int_hpart s old next : hpart (write_gpio_int s old next) = hpart s.
Proof.
  unfold write_gpio_int. cbv zeta. rewrite refresh_and_sample_hpart.
  transitivity (hpart (clear_on_rise old next BL808_PDS_GPIO_SET4_CLR 3 (clear_on_rise old next BL808_PDS_GPIO_SET3_CLR 2
    (clear_on_rise old next BL808_PDS_GPIO_SET2_CLR 1 (clear_on_rise old next BL808_PDS_GPIO_SET1_CLR 0
      (set_pds s BL808_PDS_GPIO_INT_OFFSET (Z.land next BL808_PDS_GPIO_INT_MASK_BITS))))))); [|by rewrite !clear_on_rise_hpart].
  generalize (clear_on_rise old next BL808_PDS_GPIO_SET4_CLR 3 (clear_on_rise old next BL808_PDS_GPIO_SET3_CLR 2
    (clear_on_rise old next BL808_PDS_GPIO_SET2_CLR 1 (clear_on_rise old next BL808_PDS_GPIO_SET1_CLR 0
      (set_pds s BL808_PDS_GPIO_INT_OFFSET (Z.land next BL808_PDS_GPIO_INT_MASK_BITS)))))). intros s1.
  destruct (tst _ _); [|done]. by apply hpart_foldl.
Qed.

Lemma write_reg_hpart s idx o old next : hpart (write_pds_reg s idx o old next) = hpart s.
Proof.
  unfold write_pds_reg. destruct (_ =? _); [unfold write_pds_int; cbv zeta; by destruct (tst _ _)|].
  destruct (_ =? _); [by rewrite refresh_and_sample_hpart|]. destruct (_ =? _); [by rewrite refresh_and_sample_hpart|].
  destruct (_ =? _); [apply write_gpio_int_hpart|]. by destruct (_ =? _).
Qed.

Lemma triggered_hpart active b s : hpart (triggered active b s) = hpart s.
Proof. destruct active; [apply trigger_hpart|done]. Qed.

Lemma schedule_hpart s cpu : hpart (bl808_pds_schedule_sleep s cpu) = hpart s.
Proof.
  rewrite (schedule_eq s cpu).
  assert (∀ s1 a, hpart s1 = hpart s → hpart (triggered a BL808_PDS_WAKEUP_SRC_PDS_GPIO s1) = hpart s ∧
    hpart (triggered a BL808_PDS_WAKEUP_SRC_GLB_GPIO s1) = hpart s ∧ hpart (triggered a BL808_PDS_WAKEUP_SRC_HBN_IRQ s1) = hpart s) as H.
  { intros s1 a H1. by rewrite !triggered_hpart. }
  set (s1 := triggered (hbn_active s) _ _). assert (hpart s1 = hpart s) as H1 by by apply H.
  clearbody s1. set (s2 := triggered _ _ s1). assert (hpart s2 = hpart s) as H2 by by apply H.
  clearbody s2. set (s3 := triggered _ _ s2). assert (hpart s3 = hpart s) as H3 by by apply H.
  clearbody s3. repeat (case_match; [done|]). unfold arm_wake_timer. cbv zeta. by repeat case_match.
Qed.

Lemma pds_write_hpart cpu s o v size : hpart (bl808_pds_write cpu s o v size) = hpart s.
Proof.
  unfold bl808_pds_write. cbv zeta. destruct (_ <=? _); [done|].
  generalize (write_reg_hpart s (u32 (o / 4)) o (pds_regs s (u32 (o / 4))) (u32 v)).
  generalize (write_pds_reg s (u32 (o / 4)) o (pds_regs s (u32 (o / 4))) (u32 v)). intros s1 H1.
  repeat case_match; try done; by rewrite schedule_hpart.
Qed.

Lemma pds_sample_hpart s : hpart (bl808_pds_gpio_sample_cb s) = hpart s.
Proof.
  unfold bl808_pds_gpio_sample_cb. rewrite pds_reschedule_hpart, update_wakeup_hpart. apply hpart_foldl. intros s' x.
  unfold sample_pds_pin. cbv zeta. by repeat case_match.
Qed.

Lemma pds_reset_hpart s : hpart (bl808_pds_reset s) = hpart s.
Proof.
  unfold bl808_pds_reset. cbv zeta. rewrite pds_reschedule_hpart.
  set (s1 := (set_pds _ BL808_PDS_CTL2_OFFSET _) <| mm_powered_on := _ |> <| pds_sleep_pending := _ |>
               <| glb_gpio_irq_pending := _ |> <| pds_sleep_cpu := _ |>).
  assert (hpart s1 = hpart s) as H1 by done. clearbody s1.
  pose proof (hpart_foldl bl808_pds_gpio_reset_history pds_pins s1 ltac:(done)) as H. revert H.
  generalize (foldl bl808_pds_gpio_reset_history s1 pds_pins). intros s2 H. transitivity (hpart s2); [done|]. by rewrite H.
Qed.

(** ** Sensors, registers *)

Lemma set_stat_delays s b n : 9 ≤ n → delays s (set_stat s b (BIT n)).
Proof.
  intros Hn. apply delays_same; try done.
  intros pin Hp. unfold aon_pin, BL808_HBN_AON_PINS in Hp. unfold status, set_stat. rewrite hbn_set_eq.
  destruct b; [rewrite Z.lor_spec|rewrite clr_spec by lia]; rewrite BIT_spec by lia; destruct (Z.eqb_spec n pin); try lia;
    [by rewrite orb_false_r|by rewrite andb_true_r].
Qed.

Lemma refresh_sources_delays s : delays s (bl808_hbn_refresh_live_sources s).
Proof.
  unfold bl808_hbn_refresh_live_sources. cbv zeta. eapply delays_trans; [|apply update_irqs_delays].
  eapply delays_trans; [apply (set_stat_delays s (bl808_hbn_pir_active s) 17); lia|]. apply set_stat_delays. lia.
Qed.

Lemma acomp_delays s n shift old new : 9 ≤ n → delays s (bl808_hbn_note_acomp_transition s (BIT n) shift old new).
Proof.
  intros Hn. unfold bl808_hbn_note_acomp_transition. cbv zeta. case_match; [|apply delays_refl].
  eapply delays_trans; [by apply (set_stat_delays s true n)|apply update_irqs_delays].
Qed.

Lemma set_hbn_delays s o v :
  o / 4 ≠ BL808_HBN_IRQ_STAT_OFFSET / 4 → o / 4 ≠ BL808_HBN_IRQ_MODE_OFFSET / 4 → delays s (set_hbn s o v).
Proof.
  intros H1 H2. apply delays_same; try done; [by apply hbn_set_ne|]. intros pin _. unfold status. by rewrite hbn_set_ne.
Qed.

Lemma schedule_alarm_hpart s : hpart (bl808_hbn_schedule_alarm s) = hpart s.
Proof. unfold bl808_hbn_schedule_alarm. cbv zeta. by destruct (negb _). Qed.

Lemma set_result_delays s sample : delays s (set_result s sample).
Proof. unfold set_result. eapply delays_trans; by apply set_hbn_delays. Qed.

Lemma adc_delays s : delays s (bl808_hbn_adc_trigger s).
Proof.
  unfold bl808_hbn_adc_trigger. cbv zeta. eapply delays_trans; [|by apply set_hbn_delays].
  eapply delays_trans; [by apply (set_hbn_delays s BL808_HBN_GPADC_STATUS 0)|].
  destruct (tst _ _); [|apply set_result_delays].
  eapply delays_trans; [|apply delays_foldl]; [by apply hpart_delays|]. intros s' i _. unfold scan_step. cbv zeta.
  destruct (i =? 0); [|by apply hpart_delays]. eapply delays_trans; [|apply set_result_delays]. by apply hpart_delays.
Qed.

Lemma irq_clr_delays s v : delays s (write_irq_clr s v).
Proof.
  unfold write_irq_clr. cbv zeta. eapply delays_trans; [|apply sample_reschedule_delays].
  eapply delays_trans; [|apply refresh_gpio_delays]. eapply delays_trans; [|apply refresh_sources_delays].
  set (s1 := set_hbn _ _ _). eapply (delays_trans _ s1).
  - apply delays_same; try done. intros pin Hp. unfold status, s1. rewrite hbn_set_eq.
    unfold aon_pin in Hp. rewrite clr_spec by lia. by intros [H _]%andb_true_iff.
  - apply delays_foldl. intros s' x _. destruct (tst _ _); [apply cancel_delays|apply delays_refl].
Qed.

(** ** Expiry *)

(** What the expiry of delays does: some are spent, and a pin whose delay is spent is
    latched if its level is still there. *)
Record expires (now : Z) s s' : Prop := {
  e_mode : irq_mode s' = irq_mode s;
  e_ns : virtual_ns s' = virtual_ns s;
  e_level : hbn_aon_level s' = hbn_aon_level s;
  e_history : hbn_aon_history s' = hbn_aon_history s;
  e_deadline pin : 0 ≤ deadline s' pin → deadline s' pin = deadline s pin;
  e_status : level_mode s → ∀ pin, aon_pin pin → status s' pin = true → status s pin = false →
    0 ≤ deadline s pin ≤ now ∧ held s pin = true;
}.

Lemma expires_refl now s : expires now s s.
Proof. split; try done. intros _ pin _ H1 H2. by rewrite H1 in H2. Qed.

Lemma expire_pin_expires now s pin : aon_pin pin → expires now s (expire_pin now s pin).
Proof.
  intros Hp. unfold expire_pin. cbv zeta. destruct (_ || _) eqn:Eb; [apply expires_refl|].
  apply orb_false_iff in Eb as [E1 E2]. apply Z.ltb_ge in E1, E2.
  set (s1 := bl808_hbn_gpio_delay_cancel_pin s pin).
  assert (∀ q, 0 ≤ deadline s1 q → deadline s1 q = deadline s q) as Hd.
  { intros q. change (deadline s1) with (fset (deadline s) pin (-1)). rewrite fset_lookup. by destruct (decide (q = pin)); [lia|]. }
  assert (∀ q, status s1 q = status s q) as Hs by done.
  destruct (bl808_hbn_gpio_delay_qualifies s1 pin) eqn:Eq.
  - split; try done. intros Hm q Hq. unfold status, latch_pin. rewrite hbn_set_eq, Z.lor_spec. unfold aon_pin in Hp.
    rewrite BIT_spec by lia. change (hbn s1 BL808_HBN_IRQ_STAT_OFFSET) with (hbn s BL808_HBN_IRQ_STAT_OFFSET).
    intros Ht Hf. rewrite Hf in Ht. apply Z.eqb_eq in Ht as <-. split; [done|].
    unfold bl808_hbn_gpio_delay_qualifies in Eq. cbv zeta in Eq. change (mode s1) with (mode s) in Eq.
    destruct (not_edge _ Hm) as (Ee & E3 & _). rewrite Ee in Eq. unfold bl808_hbn_gpio_sample_level_active in Eq.
    rewrite E3 in Eq. exact Eq.
  - split; try done. intros Hm q Hq Ht Hf. rewrite Hs in Ht. by rewrite Ht in Hf.
Qed.

Lemma foldl_expires now s l :
  (∀ pin, pin ∈ l → aon_pin pin) → NoDup l → expires now s (foldl (expire_pin now) s l).
Proof.
  revert s. induction l as [|x l IH]; intros s Hl Hnd; [apply expires_refl|]. simpl. apply NoDup_cons in Hnd as [Hx Hnd].
  pose proof (expire_pin_expires now s x ltac:(apply Hl; by left)) as H1.
  pose proof (IH (expire_pin now s x) ltac:(intros q Hq; apply Hl; by right) Hnd) as H2. revert H1 H2.
  generalize (expire_pin now s x). intros s1 H1 H2. generalize (foldl (expire_pin now) s1 l) H2. clear H2. intros s2 H2.
  destruct (mode_eq _ _ (e_mode _ _ _ H1)) as (Em & _).
  split; [by rewrite (e_mode _ _ _ H2), (e_mode _ _ _ H1)|by rewrite (e_ns _ _ _ H2), (e_ns _ _ _ H1)|
          by rewrite (e_level _ _ _ H2), (e_level _ _ _ H1)|by rewrite (e_history _ _ _ H2), (e_history _ _ _ H1)| |].
  - intros q Hq. pose proof (e_deadline _ _ _ H2 q Hq) as E. rewrite E in *. by apply (e_deadline _ _ _ H1).
  - intros Hm q Hq Ht Hf. destruct (status s1 q) eqn:E1; [by apply (e_status _ _ _ H1)|].
    destruct (e_status _ _ _ H2) with q as [Hd Hh]; [unfold level_mode; by rewrite Em|done..|].
    rewrite (e_deadline _ _ _ H1 q) in Hd by lia. split; [done|]. unfold held in *. by rewrite Em, (e_level _ _ _ H1) in Hh.
Qed.

(** ** Runs, with the time since when every pin has its level *)

Definition noting s s' (since : Z → Z) : Z → Z :=
  λ pin, if eqb (hbn_aon_level s pin) (hbn_aon_level s' pin) then since pin else virtual_ns s'.

Inductive traced : state → (Z → Z) → Prop :=
  | traced_reset s : traced (sleep_step s MachineReset) (λ _, virtual_ns s)
  | traced_step s since e : traced s since → allowed s e → traced (sleep_step s e) (noting s (sleep_step s e) since).

Record tracked s (since : Z → Z) : Prop := {
  t_covered : covered s;
  t_good : good s;
  t_since pin : since pin ≤ virtual_ns s;
  t_delay : level_mode s → ∀ pin, aon_pin pin → 0 ≤ deadline s pin → since pin + bl808_hbn_gpio_delay_ns s ≤ deadline s pin;
}.

Lemma noting_le s s' since pin : (∀ q, since q ≤ virtual_ns s) → virtual_ns s ≤ virtual_ns s' → noting s s' since pin ≤ virtual_ns s'.
Proof. intros H Hle. unfold noting. destruct (eqb _ _); [specialize (H pin); lia|lia]. Qed.

Lemma delays_tracked s s' since : delays s s' → tracked s since → tracked s' (noting s s' since).
Proof.
  intros H [C G S D]. destruct (mode_eq _ _ (d_mode _ _ H)) as (Em & _ & _ & Ed). pose proof (d_ns _ _ H) as En.
  split; [by apply H|by apply H| |].
  - intros pin. apply noting_le; [done|lia].
  - intros Hm pin Hp Hd. assert (level_mode s) as Hm' by (unfold level_mode in *; by rewrite Em in Hm). rewrite Ed.
    destruct (d_moves _ _ H G Hm' pin Hp Hd) as [[E1 E2]|E].
    + unfold noting. rewrite E2, eqb_reflx, E1. rewrite E1 in Hd. by apply D.
    + rewrite E. pose proof (noting_le s s' since pin S ltac:(lia)). lia.
Qed.

(** ** Steps that start over *)

(** All deadlines are cancelled. *)
Record fresh s s1 : Prop := {
  f_level : hbn_aon_level s1 = hbn_aon_level s;
  f_ns : virtual_ns s1 = virtual_ns s;
  f_none pin : aon_pin pin → deadline s1 pin < 0;
}.

Lemma fresh_tracked s s1 s' since :
  fresh s s1 → delays s1 s' → (∀ pin, since pin ≤ virtual_ns s) → tracked s' (noting s s' since).
Proof.
  intros [Hl Hn Hd] H Hs. assert (noting s s' since = noting s1 s' since) as ->.
  { unfold noting. by rewrite Hl. }
  apply delays_tracked; [done|]. split.
  - intros pin Hp H0. specialize (Hd pin Hp). lia.
  - intros _ pin Hp H0. specialize (Hd pin Hp). lia.
  - intros pin. rewrite Hn. apply Hs.
  - intros _ pin Hp H0. specialize (Hd pin Hp). lia.
Qed.

Lemma foldl_cancel l s pin :
  deadline (foldl bl808_hbn_gpio_delay_cancel_pin s l) pin = (if bool_decide (pin ∈ l) then -1 else deadline s pin) ∧
  hbn_aon_level (foldl bl808_hbn_gpio_delay_cancel_pin s l) = hbn_aon_level s ∧
  hbn_regs (foldl bl808_hbn_gpio_delay_cancel_pin s l) = hbn_regs s ∧
  virtual_ns (foldl bl808_hbn_gpio_delay_cancel_pin s l) = virtual_ns s.
Proof.
  revert s. induction l as [|x l IH]; intros s; [done|]. simpl.
  destruct (IH (bl808_hbn_gpio_delay_cancel_pin s x)) as (H1 & H2 & H3 & H4). rewrite H1, H2, H3, H4. split_and!; try done.
  change (deadline (bl808_hbn_gpio_delay_cancel_pin s x) pin) with (fset (deadline s) x (-1) pin). rewrite fset_lookup.
  destruct (decide (pin = x)) as [->|Hx].
  - rewrite (bool_decide_eq_true_2 (x ∈ x :: l)) by (by left). by destruct (bool_decide _).
  - rewrite (bool_decide_ext (pin ∈ x :: l) (pin ∈ l)); [done|]. rewrite elem_of_cons. tauto.
Qed.

Lemma cancel_all_fresh s :
  fresh s (bl808_hbn_gpio_delay_cancel_all s) ∧ hbn_regs (bl808_hbn_gpio_delay_cancel_all s) = hbn_regs s.
Proof.
  unfold bl808_hbn_gpio_delay_cancel_all. pose proof (λ pin, foldl_cancel aon_pins s pin) as H. revert H.
  generalize (foldl bl808_hbn_gpio_delay_cancel_pin s aon_pins). intros s1 H. destruct (H 0) as (_ & H2 & H3 & H4).
  assert (∀ s2, let r := bl808_hbn_gpio_delay_reschedule s2 in deadline r = deadline s2 ∧ hbn_aon_level r = hbn_aon_level s2 ∧
    hbn_regs r = hbn_regs s2 ∧ virtual_ns r = virtual_ns s2) as Hr.
  { intros s2. cbv zeta. unfold bl808_hbn_gpio_delay_reschedule. cbv zeta. by destruct (_ <? 0). }
  destruct (Hr s1) as (E1 & E2 & E3 & E4). split; [|congruence]. split; [congruence|congruence|].
  intros pin Hp. destruct (H pin) as (Hd & _). rewrite E1, Hd, bool_decide_eq_true_2 by by apply pins_elem. lia.
Qed.

Lemma history_delays s pin : delays s (bl808_hbn_reset_aon_history s pin).
Proof. by apply delays_same. Qed.

Lemma irq_mode_fresh s v :
  ∃ s1, fresh s s1 ∧ (∀ pin, status s1 pin = status s pin) ∧ delays s1 (write_irq_mode s v).
Proof.
  destruct (cancel_all_fresh s) as [[Hl Hn Hd] Hr]. unfold write_irq_mode. cbv zeta.
  revert Hl Hn Hd Hr. generalize (bl808_hbn_gpio_delay_cancel_all s). intros s0 Hl Hn Hd Hr.
  exists (set_hbn s0 BL808_HBN_IRQ_MODE_OFFSET (u32 v)). split_and!; [by split| |].
  - intros pin. unfold status. rewrite hbn_set_ne by done. unfold hbn. by rewrite Hr.
  - eapply delays_trans; [|apply sample_reschedule_delays]. eapply delays_trans; [|apply refresh_gpio_delays].
    eapply delays_trans; [|apply refresh_sources_delays]. eapply delays_trans; [apply apply_pads_delays|].
    apply delays_foldl. intros. apply history_delays.
Qed.

Lemma settle_fresh s : ∃ s1, fresh s s1 ∧ irq_mode s1 = irq_mode s ∧ delays s1 (settle_hbn s).
Proof.
  destruct (cancel_all_fresh s) as [Hf Hr]. unfold settle_hbn. cbv zeta.
  revert Hf Hr. generalize (bl808_hbn_gpio_delay_cancel_all s). intros s0 Hf Hr. exists s0. split_and!; [done| |].
  - unfold irq_mode, hbn. by rewrite Hr.
  - eapply delays_trans; [|apply refresh_gpio_delays]. eapply delays_trans; [|apply refresh_sources_delays].
    eapply delays_trans; [apply apply_pads_delays|]. apply delays_foldl. intros. apply history_delays.
Qed.

Lemma kept_mode s : kept_hbn_regs s (BL808_HBN_IRQ_MODE_OFFSET / 4) = 0.
Proof. unfold kept_hbn_regs. cbv zeta. by case_match. Qed.

Lemma blocks_fresh s :
  ∃ s1, fresh s s1 ∧ irq_mode s1 = 0 ∧ delays s1 (bl808_hbn_reset (bl808_pds_reset s)).
Proof.
  pose proof (pds_reset_hpart s) as Hp. revert Hp. generalize (bl808_pds_reset s). intros s0 Hp.
  unfold bl808_hbn_reset. cbv zeta. pose proof (kept_mode s0) as Hk. revert Hk. generalize (kept_hbn_regs s0). intros regs Hk.
  match goal with |- context [settle_hbn ?x] => set (s2 := x) end.
  assert (hbn_aon_level s2 = hbn_aon_level s ∧ virtual_ns s2 = virtual_ns s ∧ irq_mode s2 = 0) as (Hl & Hn & Hi).
  { unfold hpart in Hp. injection Hp as _ Hl _ _ Hn. unfold s2. cbv zeta. by case_match. }
  clearbody s2. destruct (settle_fresh s2) as (s1 & [F1 F2 F3] & Hi1 & Hd). exists s1. split_and!.
  - split; congruence || done.
  - congruence.
  - eapply delays_trans; [exact Hd|apply sample_reschedule_delays].
Qed.

Lemma set_image_hpart s image : hpart (set_image image s) = hpart s.
Proof. unfold set_image. cbv zeta. by destruct image.1, image.2. Qed.

Lemma reset_boot_delays s : delays s (reset_boot s).
Proof.
  unfold reset_boot. cbv zeta. destruct (boot_image _) as [r image].
  eapply delays_trans; [|by apply set_hbn_delays]. apply hpart_delays. by rewrite set_image_hpart.
Qed.

Lemma reset_rest_delays s : delays s (reset_rest s).
Proof.
  unfold reset_rest. cbv zeta. set (s1 := bl808_ir_reset _). eapply (delays_trans _ s1); [by apply hpart_delays|]. clearbody s1.
  eapply delays_trans; [apply apply_inputs_delays|]. eapply delays_trans; [apply apply_pads_delays|]. by apply hpart_delays.
Qed.

Lemma reset_fresh s :
  ∃ s1, fresh s s1 ∧ irq_mode s1 = 0 ∧ delays s1 (sleep_step s MachineReset).
Proof.
  destruct (blocks_fresh (s <| env := reset_clock_regs (env s) |>)) as (s1 & [F1 F2 F3] & Hi & Hd).
  exists s1. split_and!; [by split|done|]. cbn [sleep_step]. unfold bl808_machine_reset. cbv zeta.
  eapply delays_trans; [exact Hd|]. eapply delays_trans; [apply reset_boot_delays|apply reset_rest_delays].
Qed.

Lemma delay_ends s since :
  tracked s since → due s (hbn_gpio_delay_timer s) →
  let s' := sleep_step s DelayEnds in
  tracked s' (noting s s' since) ∧ irq_mode s' = irq_mode s ∧
  (level_mode s → ∀ pin, aon_pin pin → status s' pin = true → status s pin = false →
    0 ≤ deadline s pin ≤ virtual_ns s ∧ held s pin = true).
Proof.
  intros [C G S D] _. cbv zeta. cbn [sleep_step]. unfold bl808_hbn_gpio_delay_cb.
  set (s0 := s <| hbn_gpio_delay_timer := None |>).
  assert (expires (virtual_ns s) s s0) as H0.
  { split; try done. intros _ pin _ H1 H2. change (status s0 pin) with (status s pin) in H1. by rewrite H1 in H2. }
  pose proof (foldl_expires (virtual_ns s0) s0 aon_pins ltac:(intros; by apply pins_elem) ltac:(apply NoDup_seqZ)) as H1.
  revert H1. generalize (foldl (expire_pin (virtual_ns s0)) s0 aon_pins). intros s1 H1.
  assert (expires (virtual_ns s) s s1) as [Em En El Eh Ed Es] by (destruct H1; by split). clear H0 H1. clearbody s0.
  destruct (mode_eq _ _ Em) as (Emm & Ee & _ & Edl).
  pose proof (delays_trans _ _ _ (update_irqs_delays s1) (reschedule_delays _)) as Hd.
  pose proof (reschedule_covered (bl808_hbn_update_irqs s1)) as Hc.
  assert (∀ pin, status (bl808_hbn_gpio_delay_reschedule (bl808_hbn_update_irqs s1)) pin = status s1 pin) as Hst.
  { intros pin. rewrite <- (update_irqs_status s1 pin). generalize (bl808_hbn_update_irqs s1). intros s2.
    unfold bl808_hbn_gpio_delay_reschedule. cbv zeta. by destruct (_ <? 0). }
  revert Hd Hc Hst.
  generalize (bl808_hbn_gpio_delay_reschedule (bl808_hbn_update_irqs s1)). intros s' Hd Hc Hst.
  pose proof (λ pin, noting_le s s' since pin S ltac:(rewrite (d_ns _ _ Hd), En; lia)) as Hle.
  assert (good s1) as G1.
  { intros Hm pin Hp H0. unfold level_mode in Hm. rewrite Emm in Hm. pose proof (Ed pin H0) as E. rewrite E in H0.
    unfold held. rewrite Emm, El, Ee. by apply (G Hm pin). }
  destruct (mode_eq _ _ (d_mode _ _ Hd)) as (Em2 & Ee2 & _ & Edl2).
  split_and!; [split; [done|by apply Hd| |]|by rewrite (d_mode _ _ Hd)|].
  - exact Hle.
  - intros Hm pin Hp H0. assert (level_mode s) as Hms by (unfold level_mode in *; by rewrite Em2, Emm in Hm).
    assert (level_mode s1) as Hm1 by (unfold level_mode in *; by rewrite Emm). rewrite Edl2, Edl.
    destruct (d_moves _ _ Hd G1 Hm1 pin Hp H0) as [[E1 E2]|E].
    + unfold noting. rewrite E2, El, eqb_reflx, E1. rewrite E1 in H0. pose proof (Ed pin H0) as E3. rewrite E3 in *. by apply D.
    + specialize (Hle pin). rewrite (d_ns _ _ Hd) in Hle. rewrite E, Edl. lia.
  - intros Hm pin Hp Ht Hf. rewrite Hst in Ht. by apply Es.
Qed.

(** ** The steps *)

Lemma hbn_write_delays s o v size :
  allowed_hbn o → o ≠ BL808_HBN_IRQ_MODE_OFFSET → delays s (bl808_hbn_write s o v size).
Proof.
  intros (Ho & Hm & H6) H5. destruct (aligned_idx o Ho Hm) as [Ei E]. unfold bl808_hbn_write. cbv zeta. rewrite Ei.
  assert (∀ x, delays s (s <| hbn_regs := fset (hbn_regs s) (o / 4) x |>)) as Hk.
  { intros x. apply (set_hbn_delays s o x); intros Hq; [apply H6|apply H5]; by rewrite <- E, Hq. }
  pose proof (λ x, delays_trans _ _ _ (Hk x) (hpart_delays _ _ (schedule_alarm_hpart _))) as Ha.
  destruct (_ <=? _); [apply delays_refl|]. destruct (_ || _); [apply Ha|]. destruct (_ =? _); [apply Ha|].
  destruct (_ =? _).
  { destruct (tst _ _); (eapply delays_trans; [apply (Hk 0)|by apply hpart_delays]). }
  destruct (Z.eqb_spec o BL808_HBN_IRQ_MODE_OFFSET); [done|].
  destruct (_ || _); [eapply delays_trans; [apply Hk|apply apply_pads_delays]|].
  destruct (_ =? _); [apply irq_clr_delays|].
  destruct (_ =? _); [eapply delays_trans; [apply Hk|apply refresh_sources_delays]|].
  destruct (_ =? _); [eapply delays_trans; [apply (Hk (u32 v))|by apply hpart_delays]|].
  destruct (_ =? _).
  - destruct (_ =? _); (eapply delays_trans; [apply (Hk (u32 v))|]); [apply adc_delays|by apply set_hbn_delays].
  - destruct (_ =? _); [eapply delays_trans; [apply (Hk (u32 v))|by apply hpart_delays]|apply Hk].
Qed.

(** The steps that neither start over nor pass time nor let a delay expire. *)
Definition plain (e : sleep_event (R := R)) : Prop :=
  match e with
  | HbnWrite o _ _ => o ≠ BL808_HBN_IRQ_MODE_OFFSET
  | DelayEnds | Elapse _ | MachineReset => False
  | _ => True
  end.

Lemma step_delays s (e : sleep_event) : allowed s e → plain e → delays s (sleep_step s e).
Proof.
  intros Ha Hp. destruct e; cbn [sleep_step allowed plain] in *; try done.
  - apply hpart_delays, pds_write_hpart.
  - by apply hbn_write_delays.
  - apply line_delays.
  - apply hpart_delays, pds_sample_hpart.
  - apply hbn_sample_delays.
  - apply hpart_delays. unfold bl808_pds_wake_cb. by rewrite trigger_hpart.
  - unfold bl808_hbn_alarm_cb, bl808_hbn_request_reset. cbv zeta.
    set (s1 := (set_hbn _ _ _) <| hbn_wake_pending := true |>). apply (delays_trans _ s1).
    + eapply (delays_trans _ (set_stat s true (BIT 16))); [by apply set_stat_delays|by apply hpart_delays].
    + eapply delays_trans; [apply update_irqs_delays|by apply hpart_delays].
  - unfold bl808_set_hbn_pir_level. eapply delays_trans; [|apply refresh_sources_delays]. by apply hpart_delays.
  - unfold bl808_set_hbn_bod_level. eapply delays_trans; [|apply refresh_sources_delays]. by apply hpart_delays.
  - unfold bl808_set_hbn_acomp0_level. cbv zeta. eapply delays_trans; [|by apply acomp_delays]. by apply hpart_delays.
  - unfold bl808_set_hbn_acomp1_level. cbv zeta. eapply delays_trans; [|by apply acomp_delays]. by apply hpart_delays.
  - apply hpart_delays, trigger_hpart.
  - apply hpart_delays, trigger_hpart.
  - apply hpart_delays. etrans; [apply trigger_hpart|done].
  - apply hpart_delays. etrans; [apply trigger_hpart|done].
  - apply hpart_delays. unfold bl808_ir_write. cbv zeta. by repeat case_match.
  - by apply hpart_delays.
  - by apply hpart_delays.
  - apply hpart_delays. unfold bl808_set_irrx_bitcount. by case_match.
  - apply hpart_delays. unfold bl808_set_irrx_inject, bl808_ir_inject_frame. cbn [negb]. cbv zeta. case_match; [done|].
    etrans; [apply trigger_hpart|done].
  - by apply hpart_delays.
Qed.

Lemma irq_mode_write s v size : sleep_step s (HbnWrite BL808_HBN_IRQ_MODE_OFFSET v size) = write_irq_mode s v.
Proof. done. Qed.

Lemma elapse_tracked s since ns : 0 ≤ ns → tracked s since → tracked (sleep_step s (Elapse ns)) (noting s (sleep_step s (Elapse ns)) since).
Proof.
  intros Hn [C G S D]. cbn [sleep_step]. set (s' := s <| virtual_ns := virtual_ns s + ns |> <| virtual_rt_ns := _ |>).
  assert (∀ pin, noting s s' since pin = since pin) as En.
  { intros pin. unfold noting. change (hbn_aon_level s') with (hbn_aon_level s). by rewrite eqb_reflx. }
  split; [exact C|exact G| |].
  - intros pin. rewrite En. specialize (S pin). change (virtual_ns s') with (virtual_ns s + ns). lia.
  - intros Hm pin Hp Hd. rewrite En. by apply D.
Qed.

Lemma special_cases (e : sleep_event (R := R)) :
  plain e ∨ e = DelayEnds ∨ (∃ ns, e = Elapse ns) ∨ e = MachineReset ∨ ∃ v size, e = HbnWrite BL808_HBN_IRQ_MODE_OFFSET v size.
Proof.
  destruct e; simpl; eauto 6. destruct (decide (offset = BL808_HBN_IRQ_MODE_OFFSET)) as [->|]; eauto 8.
Qed.

Lemma step_tracked s since e : tracked s since → allowed s e → tracked (sleep_step s e) (noting s (sleep_step s e) since).
Proof.
  intros H Ha. destruct (special_cases e) as [Hp|[->|[[ns ->]|[->|(v & size & ->)]]]].
  - apply delays_tracked; [by apply step_delays|done].
  - by apply delay_ends.
  - by apply elapse_tracked.
  - destruct (reset_fresh s) as (s1 & Hf & _ & Hd). eapply fresh_tracked; [done|done|apply H].
  - rewrite irq_mode_write. destruct (irq_mode_fresh s v) as (s1 & Hf & _ & Hd). eapply fresh_tracked; [done|done|apply H].
Qed.

Lemma traced_tracked s since : traced s since → tracked s since.
Proof.
  induction 1 as [s|s since e H IH Ha]; [|by apply step_tracked].
  destruct (reset_fresh s) as (s1 & Hf & _ & Hd).
  pose proof (fresh_tracked s s1 _ (λ _, virtual_ns s) Hf Hd ltac:(done)) as [C G S D].
  assert (virtual_ns (sleep_step s MachineReset) = virtual_ns s) as En by (by rewrite (d_ns _ _ Hd), (f_ns _ _ Hf)).
  split; [done|done|by rewrite En|]. intros Hm pin Hp H0. specialize (D Hm pin Hp H0). unfold noting in D. rewrite En in D.
  by destruct (eqb _ _).
Qed.

(** The status of a pin is set in a level mode with delay only by the end of a delay. *)
Lemma step_status s (e : sleep_event) pin :
  allowed s e → e ≠ DelayEnds → aon_pin pin →
  let s' := sleep_step s e in enabled s' = true → level_mode s' → status s' pin = true → status s pin = true.
Proof.
  intros Ha He Hp. cbv zeta. intros Hen Hm Ht.
  destruct (special_cases e) as [Hpl|[->|[[ns ->]|[->|(v & size & ->)]]]]; [|done|done| |].
  - pose proof (step_delays s e Ha Hpl) as Hd. destruct (mode_eq _ _ (d_mode _ _ Hd)) as (Em & Ee & _).
    apply (d_status _ _ Hd); [by rewrite <- Ee|unfold level_mode in *; by rewrite Em in Hm|done|done].
  - destruct (reset_fresh s) as (s1 & _ & Hi & Hd). destruct (mode_eq _ _ (d_mode _ _ Hd)) as (Em & _).
    unfold level_mode in Hm. rewrite Em in Hm. unfold bl808_hbn_gpio_mode in Hm. fold (irq_mode s1) in Hm. rewrite Hi in Hm.
    by destruct Hm.
  - rewrite irq_mode_write in *. destruct (irq_mode_fresh s v) as (s1 & _ & Hs & Hd).
    destruct (mode_eq _ _ (d_mode _ _ Hd)) as (Em & Ee & _). rewrite <- Hs.
    apply (d_status _ _ Hd); [by rewrite <- Ee|unfold level_mode in *; by rewrite Em in Hm|done|done].
Qed.

(** ** The clock *)

Lemma alarm_ticks_bound s : uint 32 (hbn s BL808_HBN_TIML_OFFSET) → uint 40 (bl808_hbn_alarm_ticks s).
Proof.
  intros H. unfold bl808_hbn_alarm_ticks. cbv zeta. apply uint_lor; [lia| |by apply (uint_weaken 32); [|lia]].
  assert (uint 8 (Z.land (hbn s BL808_HBN_TIMH_OFFSET) 0xFF)) as H8 by (apply uint_land_r; [lia|unfold uint; lia]).
  revert H8. generalize (Z.land (hbn s BL808_HBN_TIMH_OFFSET) 0xFF). intros x Hx. unfold uint in *. rewrite Z.shiftl_mul_pow2 by lia. lia.
Qed.

(** The clock of a time that the emulator reaches. *)
Lemma rtc_ticks_at s : 0 ≤ virtual_ns s < 2 ^ 64 → bl808_hbn_rtc_ticks s = virtual_ns s * 32768 / 1000000000.
Proof.
  intros H. unfold bl808_hbn_rtc_ticks, BL808_HBN_F32K_HZ. rewrite (wrap_small 64 (virtual_ns s)) by done.
  apply wrap_small. unfold uint. split; [apply Z.div_pos; lia|]. apply Z.div_lt_upper_bound; lia.
Qed.

Lemma alarm_delta now now_ticks alarm delta :
  now_ticks = now * 32768 / 1000000000 → now_ticks < alarm →
  delta = ((alarm - now_ticks) * 1000000000 + 32768 - 1) / 32768 →
  0 < delta ∧ alarm ≤ (now + delta) * 32768 / 1000000000 ≤ alarm + 1.
Proof.
  intros -> Ha ->. set (t := now * 32768 / 1000000000) in *. set (d := (_ / 32768)).
  pose proof (Z.div_mod (now * 32768) 1000000000 ltac:(lia)) as E1. fold t in E1.
  pose proof (Z.mod_pos_bound (now * 32768) 1000000000 ltac:(lia)) as B1.
  pose proof (Z.div_mod ((alarm - t) * 1000000000 + 32768 - 1) 32768 ltac:(lia)) as E2. fold d in E2.
  pose proof (Z.mod_pos_bound ((alarm - t) * 1000000000 + 32768 - 1) 32768 ltac:(lia)) as B2.
  split; [lia|]. split; [apply Z.div_le_lower_bound; lia|].
  apply Z.lt_succ_r, Z.div_lt_upper_bound; lia.
Qed.

(** ** What a reset keeps *)

Lemma level_set_regs s n level : irq_mode s = 0 → hbn_regs (bl808_hbn_gpio_level_set s n level) = hbn_regs s.
Proof.
  intros Hi. unfold bl808_hbn_gpio_level_set. cbv zeta. case_match; [done|].
  assert (bl808_hbn_gpio_mask s = 0) as Hk by (unfold bl808_hbn_gpio_mask; fold (irq_mode s); rewrite Hi; reflexivity).
  assert (∀ x, negb (tst 0 x) = true) as Ht by done. rewrite Hk, Ht. unfold bl808_hbn_gpio_delay_reschedule. cbv zeta. by repeat case_match.
Qed.

Lemma hpart_regs s s' : hpart s' = hpart s → hbn_regs s' = hbn_regs s.
Proof. unfold hpart. by intros [= H _ _ _ _]. Qed.

Lemma line_regs s c : irq_mode s = 0 → hbn_regs (line_call_set s c) = hbn_regs s.
Proof.
  intros Hi. destruct c as [pin level|level]; cbn [line_call_set].
  - destruct (aon_index pin); [by apply level_set_regs|].
    unfold bl808_pds_gpio_level_set. cbv zeta. repeat (case_match; [done|]). case_match; [|done].
    apply hpart_regs. by rewrite update_wakeup_hpart.
  - unfold bl808_glb_pds_wakeup_set. cbv zeta. destruct level; [|done]. apply hpart_regs. by rewrite trigger_hpart.
Qed.

Lemma lines_regs l s : irq_mode s = 0 → hbn_regs (foldl line_call_set s l) = hbn_regs s.
Proof.
  revert s. induction l as [|c l IH]; intros s Hs; [done|]. simpl.
  pose proof (line_regs s c Hs) as E. rewrite IH; [done|]. unfold irq_mode, hbn. rewrite E. exact Hs.
Qed.

Lemma apply_pads_regs s : irq_mode s = 0 → hbn_regs (bl808_hbn_apply_aon_pad_ctrl s) = hbn_regs s.
Proof.
  intros Hi. unfold bl808_hbn_apply_aon_pad_ctrl. destruct (apply_pads _ _ _ _) as [r calls]. by rewrite lines_regs.
Qed.

Lemma apply_inputs_regs s : irq_mode s = 0 → hbn_regs (bl808_apply_inputs s) = hbn_regs s.
Proof.
  intros Hi. unfold bl808_apply_inputs. destruct (apply_inputs _) as [r calls]. by rewrite lines_regs.
Qed.

Lemma reset_rest_regs s : irq_mode s = 0 → hbn_regs (reset_rest s) = hbn_regs s.
Proof.
  intros Hi. unfold reset_rest. cbv zeta. set (s1 := bl808_ir_reset _).
  assert (irq_mode s1 = 0) as H1 by exact Hi. assert (hbn_regs s1 = hbn_regs s) as <- by done. clearbody s1.
  pose proof (apply_inputs_regs s1 H1) as E. rewrite <- E.
  assert (irq_mode (bl808_apply_inputs s1) = 0) as H2 by (unfold irq_mode, hbn; rewrite E; exact H1).
  exact (apply_pads_regs _ H2).
Qed.

Lemma reset_boot_regs s o :
  hbn (reset_boot s) o = if decide (o / 4 = BL808_HBN_GLB_OFFSET / 4) then 2 else hbn s o.
Proof.
  unfold reset_boot. cbv zeta. destruct (boot_image _) as [r image]. rewrite hbn_set. destruct (decide _); [done|].
  unfold hbn. by rewrite (hpart_regs _ _ (set_image_hpart _ _)).
Qed.

Lemma update_irqs_regs s : hbn_regs (bl808_hbn_update_irqs s) = hbn_regs s.
Proof.
  unfold bl808_hbn_update_irqs. cbv zeta. set (s1 := s <| m0_hbn_out0_irq := _ |> <| m0_hbn_out1_irq := _ |>).
  transitivity (hbn_regs s1); [|done]. clearbody s1. destruct (_ || _); [|done]. apply (w_hbn _ _ (trigger_wakes s1 _)).
Qed.

Lemma update_irqs_lines s : lines_follow (bl808_hbn_update_irqs s).
Proof.
  unfold bl808_hbn_update_irqs. cbv zeta. set (s1 := s <| m0_hbn_out0_irq := _ |> <| m0_hbn_out1_irq := _ |>).
  assert (lines_follow s1) as L by done. clearbody s1. destruct (_ || _); [by apply trigger_lines|done].
Qed.

Lemma refresh_gpio_plain s : irq_mode s = 0 → bl808_hbn_refresh_gpio_live_sources s = bl808_hbn_update_irqs s.
Proof.
  intros Hi. unfold bl808_hbn_refresh_gpio_live_sources. cbv zeta.
  assert (mode s = 0) as -> by (unfold bl808_hbn_gpio_mode; fold (irq_mode s); rewrite Hi; reflexivity). done.
Qed.

Definition live_bits : Z := Z.lor BL808_HBN_IRQ_PIR_STAT BL808_HBN_IRQ_BOD_STAT.

Lemma clr_clr x m m' : clr (clr x m) m' = clr x (Z.lor m m').
Proof.
  apply Z.bits_inj'. intros i Hi. rewrite !clr_spec, Z.lor_spec by done.
  by destruct (Z.testbit x i), (Z.testbit m i), (Z.testbit m' i).
Qed.

(** With the interrupt mode and the sensor off, settling keeps the registers. *)
Lemma settle_regs s :
  irq_mode s = 0 → hbn s BL808_HBN_PIR_CFG_OFFSET = 0 →
  lines_follow (settle_hbn s) ∧
  ∀ o, hbn (settle_hbn s) o = if decide (o / 4 = BL808_HBN_IRQ_STAT_OFFSET / 4)
                              then clr (hbn s BL808_HBN_IRQ_STAT_OFFSET) live_bits else hbn s o.
Proof.
  intros Hi Hp. unfold settle_hbn. cbv zeta.
  destruct (cancel_all_fresh s) as [_ Hr]. revert Hr. generalize (bl808_hbn_gpio_delay_cancel_all s). intros s0 Hr.
  assert (irq_mode s0 = 0) as Hi0 by (unfold irq_mode, hbn; rewrite Hr; exact Hi).
  pose proof (apply_pads_regs s0 Hi0) as Ha. revert Ha. generalize (bl808_hbn_apply_aon_pad_ctrl s0). intros s1 Ha.
  assert (hbn_regs (foldl bl808_hbn_reset_aon_history s1 aon_pins) = hbn_regs s1) as Hh.
  { generalize aon_pins. intros l. revert s1 Ha. induction l as [|x l IH]; intros s1 Ha; [done|]. simpl. by rewrite IH. }
  revert Hh. generalize (foldl bl808_hbn_reset_aon_history s1 aon_pins). intros s2 Hh.
  assert (hbn_regs s2 = hbn_regs s) as E by congruence. clear Hr Ha Hh s0 Hi0 s1.
  unfold bl808_hbn_refresh_live_sources. cbv zeta.
  assert (bl808_hbn_pir_active s2 = false) as ->.
  { unfold bl808_hbn_pir_active, hbn. rewrite E. fold (hbn s BL808_HBN_PIR_CFG_OFFSET). by rewrite Hp. }
  assert (hbn s2 BL808_HBN_IRQ_MODE_OFFSET = 0) as -> by (unfold hbn; rewrite E; exact Hi). rewrite andb_false_r.
  set (s3 := set_stat s2 false BL808_HBN_IRQ_PIR_STAT). set (s4 := set_stat s3 false BL808_HBN_IRQ_BOD_STAT).
  assert (∀ o, hbn s4 o = if decide (o / 4 = BL808_HBN_IRQ_STAT_OFFSET / 4)
                          then clr (hbn s BL808_HBN_IRQ_STAT_OFFSET) live_bits else hbn s o) as H4.
  { intros o. unfold s4, set_stat. rewrite hbn_set. unfold s3, set_stat.
    destruct (decide _) as [Ho|Ho]; [|rewrite hbn_set, decide_False by done; unfold hbn; by rewrite E].
    rewrite hbn_set_eq, clr_clr. f_equal. unfold hbn. by rewrite E. }
  assert (hbn_regs (bl808_hbn_update_irqs s4) = hbn_regs s4) as E5 by apply update_irqs_regs.
  revert E5. generalize (bl808_hbn_update_irqs s4). intros s5 E5.
  assert (irq_mode s5 = 0) as Hi5.
  { unfold irq_mode, hbn. rewrite E5. transitivity (hbn s4 BL808_HBN_IRQ_MODE_OFFSET); [done|]. by rewrite H4, decide_False. }
  rewrite (refresh_gpio_plain s5 Hi5).
  split; [apply update_irqs_lines|]. intros o. unfold hbn. rewrite update_irqs_regs, E5. apply H4.
Qed.

Definition retained_words : list Z := [0x100; 0x104; 0x108; 0x10C; BL808_HBN_PAD_CTRL_0_OFFSET; BL808_HBN_PAD_CTRL_1_OFFSET].

Lemma kept_lookup s i :
  hbn_wake_pending s = true →
  kept_hbn_regs s i = (if bool_decide (4 * i ∈ retained_words) then hbn s (4 * i) else 0).
Proof.
  intros W. unfold kept_hbn_regs. cbv zeta. rewrite W. cbn [orb]. change (seqZ 0 BL808_HBN_RSV_COUNT) with [0; 1; 2; 3].
  cbn [foldl]. rewrite !fset_lookup.
  assert (∀ c v v', (4 * c ∈ retained_words → hbn s (4 * c) = v) → 4 * c ∈ retained_words →
    (i ≠ c → v' = (if bool_decide (4 * i ∈ retained_words) then hbn s (4 * i) else 0)) →
    (if decide (i = c) then v else v') = (if bool_decide (4 * i ∈ retained_words) then hbn s (4 * i) else 0)) as H.
  { intros c v v' Hv Hc Hn. destruct (decide (i = c)) as [->|]; [|by apply Hn]. rewrite bool_decide_eq_true_2 by done. by rewrite Hv. }
  repeat (apply H; [done|unfold retained_words; rewrite !elem_of_cons; vm_compute; tauto|intros ?]).
  rewrite bool_decide_eq_false_2; [done|]. unfold retained_words. rewrite !elem_of_cons, elem_of_nil.
  unfold BL808_HBN_PAD_CTRL_0_OFFSET, BL808_HBN_PAD_CTRL_1_OFFSET in *.
  change (BL808_HBN_RSV0_OFFSET / 4) with 64 in *. change (0x38 / 4) with 14 in *. change (0x3C / 4) with 15 in *. lia.
Qed.

(** The alarm is not touched by the pins. *)
Definition alarm_part s := (hbn_wake_pending s, hbn_alarm_timer s, hbn_alarm_rt_timer s, hbn_rtc_latched s).

Lemma alarm_foldl {A} (f : state → A → state) l s : (∀ s x, alarm_part (f s x) = alarm_part s) → alarm_part (foldl f s l) = alarm_part s.
Proof. intros Hf. revert s. induction l as [|x l IH]; intros s; [done|]. simpl. by rewrite IH, Hf. Qed.

Lemma trigger_alarm s b : alarm_part (bl808_pds_trigger_wakeup s b) = alarm_part s.
Proof. rewrite trigger_eq. destruct (bl808_pds_wakeup_source_enabled s b), (pds_sleep_pending s); try done. rewrite complete_eq. by case_match. Qed.

Lemma update_irqs_alarm s : alarm_part (bl808_hbn_update_irqs s) = alarm_part s.
Proof. unfold bl808_hbn_update_irqs. cbv zeta. case_match; [by rewrite trigger_alarm|done]. Qed.

Lemma delay_reschedule_alarm s : alarm_part (bl808_hbn_gpio_delay_reschedule s) = alarm_part s.
Proof. unfold bl808_hbn_gpio_delay_reschedule. cbv zeta. by case_match. Qed.

Lemma arm_alarm s pin : alarm_part (bl808_hbn_gpio_delay_arm_pin s pin) = alarm_part s.
Proof. unfold bl808_hbn_gpio_delay_arm_pin. cbv zeta. case_match; [done|]. by rewrite delay_reschedule_alarm. Qed.

Lemma refresh_gpio_alarm s : alarm_part (bl808_hbn_refresh_gpio_live_sources s) = alarm_part s.
Proof.
  unfold bl808_hbn_refresh_gpio_live_sources. cbv zeta. case_match; [apply update_irqs_alarm|].
  rewrite delay_reschedule_alarm, update_irqs_alarm. apply alarm_foldl. intros s' x. unfold refresh_aon_pin. cbv zeta.
  repeat case_match; try done; apply arm_alarm.
Qed.

Lemma level_set_alarm s n level : alarm_part (bl808_hbn_gpio_level_set s n level) = alarm_part s.
Proof.
  unfold bl808_hbn_gpio_level_set. cbv zeta. case_match; [done|]. set (s1 := s <| hbn_aon_level := _ |>).
  assert (alarm_part s1 = alarm_part s) as <- by done. clearbody s1.
  repeat (rewrite ?delay_reschedule_alarm, ?arm_alarm, ?update_irqs_alarm, ?refresh_gpio_alarm; (done || case_match)).
Qed.

Lemma line_alarm s c : alarm_part (line_call_set s c) = alarm_part s.
Proof.
  destruct c as [pin level|level]; cbn [line_call_set].
  - destruct (aon_index pin); [apply level_set_alarm|].
    unfold bl808_pds_gpio_level_set, bl808_pds_gpio_update_wakeup. cbv zeta. repeat case_match; try done; by rewrite trigger_alarm.
  - unfold bl808_glb_pds_wakeup_set. cbv zeta. destruct level; [|done]. by rewrite trigger_alarm.
Qed.

Lemma apply_pads_alarm s : alarm_part (bl808_hbn_apply_aon_pad_ctrl s) = alarm_part s.
Proof.
  unfold bl808_hbn_apply_aon_pad_ctrl. destruct (apply_pads _ _ _ _) as [r calls].
  rewrite alarm_foldl; [done|]. intros. apply line_alarm.
Qed.

Lemma reset_rest_alarm s : alarm_part (reset_rest s) = alarm_part s.
Proof.
  unfold reset_rest. cbv zeta. set (s1 := bl808_ir_reset _). assert (alarm_part s1 = alarm_part s) as <- by done. clearbody s1.
  transitivity (alarm_part (bl808_hbn_apply_aon_pad_ctrl (bl808_apply_inputs s1))); [done|]. rewrite apply_pads_alarm.
  unfold bl808_apply_inputs. destruct (apply_inputs _) as [r calls]. rewrite alarm_foldl; [done|]. intros. apply line_alarm.
Qed.

Lemma reset_boot_alarm s : alarm_part (reset_boot s) = alarm_part s.
Proof.
  unfold reset_boot. cbv zeta. destruct (boot_image _) as [r image]. unfold set_image. cbv zeta. by destruct image.1, image.2.
Qed.

Lemma refresh_sources_alarm s : alarm_part (bl808_hbn_refresh_live_sources s) = alarm_part s.
Proof. unfold bl808_hbn_refresh_live_sources. cbv zeta. by rewrite update_irqs_alarm. Qed.

Lemma cancel_all_alarm s : alarm_part (bl808_hbn_gpio_delay_cancel_all s) = alarm_part s.
Proof. unfold bl808_hbn_gpio_delay_cancel_all. rewrite delay_reschedule_alarm. by apply alarm_foldl. Qed.

Lemma settle_alarm s : alarm_part (settle_hbn s) = alarm_part s.
Proof.
  unfold settle_hbn. cbv zeta. rewrite refresh_gpio_alarm, refresh_sources_alarm, alarm_foldl by done.
  by rewrite apply_pads_alarm, cancel_all_alarm.
Qed.

Lemma pds_reset_alarm s : alarm_part (bl808_pds_reset s) = alarm_part s.
Proof.
  unfold bl808_pds_reset, bl808_pds_gpio_sample_reschedule. cbv zeta.
  set (s1 := (set_pds _ BL808_PDS_CTL2_OFFSET _) <| mm_powered_on := _ |> <| pds_sleep_pending := _ |>
               <| glb_gpio_irq_pending := _ |> <| pds_sleep_cpu := _ |>).
  assert (alarm_part s1 = alarm_part s) as H1 by done. clearbody s1.
  pose proof (alarm_foldl bl808_pds_gpio_reset_history pds_pins s1 ltac:(done)) as H. revert H.
  generalize (foldl bl808_pds_gpio_reset_history s1 pds_pins). intros s2 H. transitivity (alarm_part s2); [|by rewrite H].
  by case_match.
Qed.

End hbn.

Section properties.
Context {R : Type} `{!SleepEnv R}.
Notation state := (BL808MachineState R).
Implicit Types s : state.

(** C38: On every run of the machine after a reset, [since] being the time of the last
    step that changed the level of each pin: a pin of the always-on domain with a
    delayed wake-up has the delay timer set for it or earlier; and when delays
    are enabled in one of the two level modes, the status bit of a pin is
    only ever set by the end of a delay, over a pin that has the level that wakes
    up and has had it for at least the whole delay of one to seven seconds. *)
Theorem hbn_delay_qualified s since (e : sleep_event) pin :
  traced s since → allowed s e → 0 ≤ pin < BL808_HBN_AON_PINS →
  let s' := sleep_step s e in let m := bl808_hbn_gpio_mode s' in
  (0 ≤ hbn_aon_delay_deadline_ns s' pin → ∃ t, hbn_gpio_delay_timer s' = Some t ∧ t ≤ hbn_aon_delay_deadline_ns s' pin) ∧
  (bl808_hbn_gpio_delay_enabled s' = true → m = 0xA ∨ m = 0xB →
   Z.testbit (hbn s BL808_HBN_IRQ_STAT_OFFSET) pin = false → Z.testbit (hbn s' BL808_HBN_IRQ_STAT_OFFSET) pin = true →
   e = DelayEnds ∧ hbn_aon_level s pin = (m =? 0xB) ∧ since pin + bl808_hbn_gpio_delay_ns s ≤ virtual_ns s).
Proof.
  intros Ht%traced_tracked Ha Hp. cbv zeta. split; [apply (step_tracked s since e Ht Ha); done|].
  intros Hen Hm Hf Hs. assert (e = DelayEnds) as ->.
  { destruct (special_cases e) as [Hpl|[->|[[ns ->]|[->|(v & size & ->)]]]]; [|done|..];
      exfalso; pose proof (step_status s _ pin Ha ltac:(by destruct e || done) Hp Hen Hm Hs) as H; unfold status in H; by rewrite H in Hf. }
  split; [done|]. destruct (delay_ends s since Ht Ha) as (_ & Hi & Hq). destruct (mode_eq _ _ Hi) as (Em & _).
  rewrite Em in *. destruct (Hq Hm pin Hp Hs Hf) as [Hd Hh]. pose proof (t_delay _ _ Ht Hm pin Hp ltac:(lia)). split; [|lia].
  unfold held in Hh. destruct Hm as [E|E]; rewrite E in *; by destruct (hbn_aon_level s pin).
Qed.

(** C39: Writing the alarm or the mode sets two timers, of the virtual clock and of its
    real-time twin, to the same delay; without the mode bit there is none.  The
    40-bit alarm is compared with the whole count of the 32768 Hz clock, which has
    64 bits: an alarm of zero, or at most that count, rings in the next nanosecond;
    any other one is set for a time at which the count is the alarm or one more.
    This is the 40-bit clock that the registers show only for the first 2^40 ticks
    (388 days): after that every alarm rings at once, also one that is still ahead
    on the clock of the registers ([hbn_alarm_wraps]). *)
Theorem hbn_alarm_exact s :
  let s1 := bl808_hbn_schedule_alarm s in let alarm := bl808_hbn_alarm_ticks s in
  0 ≤ virtual_ns s < 2 ^ 63 → uint 32 (hbn s BL808_HBN_TIML_OFFSET) →
  (tst (hbn s BL808_HBN_CTL_OFFSET) BL808_HBN_CTL_MODE = false → hbn_alarm_timer s1 = None ∧ hbn_alarm_rt_timer s1 = None) ∧
  (tst (hbn s BL808_HBN_CTL_OFFSET) BL808_HBN_CTL_MODE = true → ∃ d, 0 < d ∧
    hbn_alarm_timer s1 = Some (virtual_ns s + d) ∧ hbn_alarm_rt_timer s1 = Some (virtual_rt_ns s + d) ∧
    (alarm = 0 ∨ alarm ≤ bl808_hbn_rtc_ticks s → d = 1) ∧
    (bl808_hbn_rtc_ticks s < alarm → alarm ≠ 0 →
     ∀ s2, virtual_ns s2 = virtual_ns s + d → alarm ≤ bl808_hbn_rtc_ticks s2 ≤ alarm + 1)).
Proof.
  cbv zeta. intros Hn Hl. pose proof (alarm_ticks_bound s Hl) as Hb. pose proof (rtc_ticks_at s ltac:(lia)) as Hr.
  assert (0 ≤ bl808_hbn_rtc_ticks s) as H0 by (rewrite Hr; apply Z.div_pos; lia).
  unfold bl808_hbn_schedule_alarm. cbv zeta. split; intros Hm; rewrite Hm; [done|]. cbn [negb].
  destruct ((bl808_hbn_alarm_ticks s =? 0) || (bl808_hbn_alarm_ticks s <=? bl808_hbn_rtc_ticks s)) eqn:Eb.
  - exists 1. split_and!; [lia|done|done|done|]. apply orb_true_iff in Eb as [Eb|Eb]; lia.
  - apply orb_false_iff in Eb as [E1 E2]. apply Z.eqb_neq in E1. apply Z.leb_gt in E2. unfold BL808_HBN_F32K_HZ.
    set (delta := (_ / 32768)).
    destruct (alarm_delta (virtual_ns s) (bl808_hbn_rtc_ticks s) (bl808_hbn_alarm_ticks s) delta Hr E2 eq_refl) as [Hd Ht].
    assert (delta < 2 ^ 60) as Hlt.
    { unfold uint in Hb. apply Z.div_lt_upper_bound; [lia|]. lia. }
    rewrite (wrap_small 64 delta) by (unfold uint; lia). exists delta. split_and!; [lia|done|done|lia|].
    intros _ _ s2 Hs. rewrite rtc_ticks_at by lia. by rewrite Hs.
Qed.

(** The registers and the alarm after a reset of the two blocks in a machine that
    the alarm woke. *)
Lemma blocks_retain s :
  hbn_wake_pending s = true →
  let s' := bl808_hbn_reset (bl808_pds_reset s) in
  alarm_part s' = (false, None, None, false) ∧
  ∀ o, hbn s' o = if decide (o / 4 = BL808_HBN_IRQ_STAT_OFFSET / 4) then BL808_HBN_IRQ_RTC_STAT
                  else if bool_decide (4 * (o / 4) ∈ retained_words) then hbn s (4 * (o / 4)) else 0.
Proof.
  intros W. cbv zeta. pose proof (pds_reset_hpart s) as Hp. apply hpart_regs in Hp. pose proof (pds_reset_alarm s) as Ha.
  revert Hp Ha. generalize (bl808_pds_reset s). intros s2 Hp Ha.
  assert (hbn_wake_pending s2 = true) as W2 by (rewrite <- W; by injection Ha). clear Ha W.
  unfold bl808_hbn_reset. cbv zeta. pose proof (λ i, kept_lookup s2 i W2) as Hk. revert Hk.
  generalize (kept_hbn_regs s2). intros regs Hk.
  match goal with |- context [settle_hbn ?x] => set (s3 := x) end.
  assert (alarm_part s3 = (false, None, None, false) ∧
    hbn_regs s3 = fset regs (BL808_HBN_IRQ_STAT_OFFSET / 4) BL808_HBN_IRQ_RTC_STAT) as [A3 R3].
  { unfold s3. match goal with |- context [if hbn_wake_pending ?y then _ else _] => change (hbn_wake_pending y) with (hbn_wake_pending s2) end.
    rewrite W2. done. }
  clearbody s3.
  assert (∀ o, hbn s3 o = if decide (o / 4 = BL808_HBN_IRQ_STAT_OFFSET / 4) then BL808_HBN_IRQ_RTC_STAT else regs (o / 4)) as H3.
  { intros o. unfold hbn. rewrite R3. apply fset_lookup. }
  assert (∀ o, 4 * (o / 4) ∉ retained_words → regs (o / 4) = 0) as Hz.
  { intros o Ho. rewrite Hk. by rewrite bool_decide_eq_false_2. }
  destruct (settle_regs s3) as [_ R4].
  { unfold irq_mode. rewrite H3. rewrite decide_False by done. apply Hz. by apply (bool_decide_unpack _). }
  { rewrite H3. rewrite decide_False by done. apply Hz. by apply (bool_decide_unpack _). }
  pose proof (settle_alarm s3) as A4. rewrite A3 in A4. revert R4 A4. generalize (settle_hbn s3). intros s4 R4 A4.
  assert (alarm_part (bl808_hbn_gpio_sample_reschedule s4) = alarm_part s4 ∧
          hbn (bl808_hbn_gpio_sample_reschedule s4) = hbn s4) as [-> ->]
    by (unfold bl808_hbn_gpio_sample_reschedule; by case_match).
  split; [exact A4|]. intros o. rewrite R4, !H3. destruct (decide _) as [|Hn]; [by rewrite decide_True|].
  rewrite Hk. unfold hbn. by rewrite Hp.
Qed.

(** The whole reset of such a machine. *)
Lemma reset_retains s :
  hbn_wake_pending s = true →
  let s' := bl808_machine_reset s in
  lines_follow s' ∧ alarm_part s' = (false, None, None, false) ∧
  ∀ o, hbn s' o = if decide (o / 4 = BL808_HBN_GLB_OFFSET / 4) then 2
                  else if decide (o / 4 = BL808_HBN_IRQ_STAT_OFFSET / 4) then BL808_HBN_IRQ_RTC_STAT
                  else if bool_decide (4 * (o / 4) ∈ retained_words) then hbn s (4 * (o / 4)) else 0.
Proof.
  intros W. cbv zeta. split; [by destruct (reset_sound s) as [(_ & _ & L & _) _]|].
  unfold bl808_machine_reset. cbv zeta.
  assert (hbn_wake_pending (s <| env := reset_clock_regs (env s) |>) = true ∧
    hbn (s <| env := reset_clock_regs (env s) |>) = hbn s) as [W0 <-] by done.
  revert W0. generalize (s <| env := reset_clock_regs (env s) |>). clear s W. intros s W.
  destruct (blocks_retain s W) as [A0 R0]. revert A0 R0. generalize (bl808_hbn_reset (bl808_pds_reset s)). intros s2 A0 R0.
  rewrite reset_rest_alarm, reset_boot_alarm. split; [exact A0|]. intros o.
  assert (irq_mode (reset_boot s2) = 0) as Hi.
  { unfold irq_mode. rewrite reset_boot_regs, R0, !decide_False by done. by rewrite bool_decide_eq_false_2 by by apply (bool_decide_unpack _). }
  transitivity (hbn (reset_boot s2) o); [unfold hbn; by rewrite (reset_rest_regs _ Hi)|]. by rewrite reset_boot_regs, R0.
Qed.

(** C40: When the alarm rings the block reports it on its line and asks for a reset of
    the machine.  After that reset ([bl808_machine_reset] to its end) the status says
    that the alarm woke the machine and the line is still high, the four retained
    words and the settings of the always-on pads are those before, the clock
    selection [HBN_GLB] is 2, every other register is zero, and no alarm is set. *)
Theorem hbn_wake_retains s :
  let s1 := sleep_step s AlarmRings in let s2 := sleep_step s1 MachineReset in
  system_reset_called s1 = true ∧ m0_hbn_out0_irq s1 = true ∧
  m0_hbn_out0_irq s2 = true ∧ m0_hbn_out1_irq s2 = false ∧ hbn_wake_pending s2 = false ∧
  hbn_alarm_timer s2 = None ∧ hbn_alarm_rt_timer s2 = None ∧ hbn_rtc_latched s2 = false ∧
  ∀ i, 0 ≤ i < 0x400 →
    hbn s2 (4 * i) = (if bool_decide (4 * i ∈ [0x100; 0x104; 0x108; 0x10C; BL808_HBN_PAD_CTRL_0_OFFSET; BL808_HBN_PAD_CTRL_1_OFFSET])
                      then hbn s (4 * i)
                      else if 4 * i =? BL808_HBN_IRQ_STAT_OFFSET then BL808_HBN_IRQ_RTC_STAT
                      else if 4 * i =? BL808_HBN_GLB_OFFSET then 2 else 0).
Proof.
  cbv zeta. set (s1 := sleep_step s AlarmRings).
  assert (system_reset_called s1 = true ∧ lines_follow s1 ∧ hbn_wake_pending s1 = true ∧
    ∀ o, hbn s1 o = hbn (set_hbn s BL808_HBN_IRQ_STAT_OFFSET (Z.lor (hbn s BL808_HBN_IRQ_STAT_OFFSET) BL808_HBN_IRQ_RTC_STAT)) o) as (H1 & L1 & W1 & R1).
  { unfold s1. cbn [sleep_step]. unfold bl808_hbn_alarm_cb, bl808_hbn_request_reset. cbv zeta.
    set (s0 := (set_hbn _ _ _) <| hbn_wake_pending := true |>). pose proof (update_irqs_lines s0) as L. pose proof (update_irqs_alarm s0) as A.
    pose proof (update_irqs_regs s0) as E. revert L A E. generalize (bl808_hbn_update_irqs s0). intros s3 L A E.
    split_and!; [done|exact L|by injection A|]. intros o. transitivity (hbn s3 o); [done|]. unfold hbn. by rewrite E. }
  split; [done|]. split.
  { destruct L1 as [-> _]. rewrite R1, hbn_set_eq, tst_lor_l. by apply orb_true_r. }
  clearbody s1. cbn [sleep_step]. destruct (reset_retains s1 W1) as (L & A & Er). revert L A Er.
  generalize (bl808_machine_reset s1). intros s2 L A Er.
  unfold alarm_part in A. injection A as A1 A2 A3 A4. destruct L as [L0 L1'].
  rewrite Er, decide_False, decide_True in L0, L1' by done.
  split_and!; [by rewrite L0|by rewrite L1'|done..|]. intros i Hi. rewrite Er.
  replace (4 * i / 4) with i by (rewrite Z.mul_comm, Z.div_mul; lia).
  change (BL808_HBN_IRQ_STAT_OFFSET / 4) with 6. change (BL808_HBN_GLB_OFFSET / 4) with 12.
  destruct (decide (i = 12)) as [->|N12]; [done|]. destruct (decide (i = 6)) as [->|N6]; [done|].
  unfold BL808_HBN_IRQ_STAT_OFFSET, BL808_HBN_GLB_OFFSET.
  destruct (Z.eqb_spec (4 * i) 0x18); [lia|]. destruct (Z.eqb_spec (4 * i) 0x30); [lia|].
  fold retained_words. case_bool_decide as Hin; [|done]. rewrite R1, hbn_set_ne; [done|].
  replace (4 * i / 4) with i by (rewrite Z.mul_comm, Z.div_mul; lia). by change (BL808_HBN_IRQ_STAT_OFFSET / 4) with 6.
Qed.

End properties.
