(* ===== verification/SleepGlb.v ===== *)
(** * The sleep controllers on the pads of the global control block

    The interface [SleepEnv] with the pads of [Glb], and runs of the machine on them. *)

From S2P Require Import Prelude Qemu Glb GlbSpec Sleep SleepSpec HbnSpec.
From stdpp Require Import prelude list.
From Stdlib Require Import ZArith Lia.
Import BL808GLB BL808Sleep.
Local Open Scope Z_scope.

(** The calls of an operation on the pads, the first one first. *)
Definition new_calls {W} (g g' : BL808GLBState W) : list line_call :=
  rev (take (length (calls g') - length (calls g)) (calls g')).

(** The levels that drive the pads from outside, which the machine keeps. *)
Record inputs := mk_inputs {
  boot_gpio39 : bool;
  gpio_driven : Z → bool;
  gpio_level : Z → bool;
  aon_gpio_driven : Z → bool;
  aon_gpio_level : Z → bool;
}.
Class Inputs (W : Type) := board_inputs : W → inputs.

(** The pads, and a world [W] with the rest, which is also that of the clients. *)
#[export] Instance board_env {W} `{!SleepEnv W, !Inputs W} : SleepEnv (BL808GLBState W * W) := {
  apply_pads irq_mode pad_ctrl0 pad_ctrl1 r :=
    let g := BL808Pads.bl808_hbn_apply_aon_pad_ctrl irq_mode pad_ctrl0 pad_ctrl1 r.1 in ((g, r.2), new_calls r.1 g);
  refresh_timer0 pds_regs hbn_regs r := (r.1, refresh_timer0 pds_regs hbn_regs r.2);
  refresh_timer1 pds_regs hbn_regs r := (r.1, refresh_timer1 pds_regs hbn_regs r.2);
  update_mm_domain powered_on reset_d0 r := (r.1, update_mm_domain powered_on reset_d0 r.2);
  update_lp pds_regs reset_lp r := (r.1, update_lp pds_regs reset_lp r.2);
  hold_stopped_lp pds_regs r := (r.1, hold_stopped_lp pds_regs r.2);
  resume_cpu hart r := (r.1, resume_cpu hart r.2);
  adc_fifo_clear r := (r.1, adc_fifo_clear r.2);
  push_adc_sample sample r := (r.1, push_adc_sample sample r.2);
  reset_clock_regs r := (r.1, reset_clock_regs r.2);
  boot_image r := let '(w, image) := boot_image r.2 in ((r.1, w), image);
  reset_others r := (r.1, reset_others r.2);
  apply_inputs r :=
    let i := board_inputs r.2 in
    let g := BL808Pads.bl808_apply_boot_gpio39 (boot_gpio39 i) r.1 in
    let g := BL808Pads.bl808_apply_pds_gpio_levels (gpio_driven i) (gpio_level i) g in
    let g := BL808Pads.bl808_apply_aon_gpio_levels (aon_gpio_driven i) (aon_gpio_level i) g in
    ((g, r.2), new_calls r.1 g);
  finish_reset pds_regs hbn_regs r := (r.1, finish_reset pds_regs hbn_regs r.2);
}.

Module SleepDemo.

(** The rest of the machine as the record of what was asked of the cores. *)
Inductive core_call := Resumed (hart : Z) | LpUpdated (clock_enabled : bool).

#[local] Instance cores_env : SleepEnv (list core_call) := {
  apply_pads _ _ _ r := (r, []);
  refresh_timer0 _ _ r := r;
  refresh_timer1 _ _ r := r;
  update_mm_domain _ _ r := r;
  update_lp pds_regs _ r := r ++ [LpUpdated (tst (pds_regs (BL808_PDS_CPU_CORE_CFG0_OFFSET / 4)) BL808_PDS_REG_PICO_CLK_EN)];
  hold_stopped_lp _ r := r;
  resume_cpu hart r := r ++ [Resumed hart];
  adc_fifo_clear r := r;
  push_adc_sample _ r := r;
  reset_clock_regs r := r;
  boot_image r := (r, (false, Some 0x58020000));
  reset_others r := r;
  apply_inputs r := (r, []);
  finish_reset _ _ r := r;
}.

(** A board whose pin 9 is driven high. *)
#[local] Instance high_nine : Inputs (list core_call) := λ _,
  mk_inputs false no no (λ i, i =? 0) (λ i, i =? 0).

Definition pads0 : BL808GLBState (list core_call) :=
  mk_glb [] [] no no None (λ _, 0) (replicate GLB_MAX_HOOKS None) (λ _, 0) no no no no no no no no no false false false false.

Definition machine0 : BL808MachineState (BL808GLBState (list core_call) * list core_call) :=
  mk_machine _ 0 0 (pads0, []) None None None None None None (λ _, 0) (λ _, 0) 0 false false false false false no
    false false false false (λ _, 0) (λ _, -1) false false false None no (λ _, 0) false (λ _, 0) false 0 0 32.

Notation run := (foldl sleep_step).
Notation event := (sleep_event (R := BL808GLBState (list core_call) * list core_call)).

(** An event of a concrete run is allowed. *)
Ltac allowed_event :=
  cbn [allowed]; unfold allowed_pds, allowed_hbn, due;
  lazymatch goal with
  | |- True => exact I
  | |- ∃ t, _ => eexists; split; [vm_compute; reflexivity|vm_compute; congruence]
  | |- _ ∧ _ ∧ _ ∧ _ =>
      split_and!; [vm_compute; congruence|vm_compute; congruence|done|done|
                   intros Ho Ha; vm_compute in Ho, Ha; congruence]
  | |- _ ∧ _ ∧ _ => split_and!; [vm_compute; congruence|vm_compute; congruence|done|done]
  | |- _ => vm_compute; congruence
  end.

Ltac concrete_run :=
  cbn [foldl app];
  repeat lazymatch goal with
  | |- reachable (sleep_step _ MachineReset) => apply reach_reset
  | |- reachable (sleep_step _ _) => apply reach_step; [|allowed_event]
  | |- traced (sleep_step _ MachineReset) _ => apply traced_reset
  | |- traced (sleep_step _ _) _ => apply traced_step; [|allowed_event]
  end.

(** Core 0 sleeps for three ticks of the slow clock, is asked by a pin of the always-on
    domain whose source is disabled, and then by one of the others. *)
Definition started : list event :=
  [MachineReset; PdsWrite (Some 0) BL808_PDS_INT_OFFSET 0x2400 4; HbnWrite BL808_HBN_IRQ_MODE_OFFSET 0x1B 4;
   PdsWrite (Some 0) BL808_PDS_GPIO_I_SET_OFFSET 0x7 4; PdsWrite (Some 0) BL808_PDS_GPIO_INT_OFFSET 0xB0B0B0B0 4;
   PdsWrite (Some 0) BL808_PDS_TIME1_OFFSET 3 4].


Definition asleep : list event := started ++ [PdsWrite (Some 0) BL808_PDS_CTL_OFFSET 1 4; LineCall (LevelLine 9 true); Elapse 91553].

Lemma asleep_reachable : reachable (run machine0 asleep).
Proof. unfold asleep, started. concrete_run. Qed.

Lemma pds_never_oversleeps_witness :
  let s := run machine0 asleep in
  reachable s ∧ pds_sleep_pending s = true ∧ tst (pds s BL808_PDS_STAT_OFFSET) BL808_PDS_STAT_BUSY = true ∧
  pds_wakeup_irq s = false ∧ m0_hbn_out0_irq s = true ∧ pds s BL808_PDS_GPIO_STAT_OFFSET = 0 ∧
  pds_sleep_pending (sleep_step s TimerWakes) = false.
Proof.
  pose proof (pds_never_oversleeps (run machine0 asleep) asleep_reachable) as H. cbv zeta in *.
  destruct H as (W & O & _ & _ & B & _ & Q & E).
  assert (pds_sleep_pending (run machine0 asleep) = true) as Ha by (vm_compute; reflexivity).
  destruct (Q Ha) as (_ & _ & P). rewrite B, W, O, Ha. split; [apply asleep_reachable|].
  split_and!; [done|done|vm_compute; reflexivity|vm_compute; reflexivity|apply P; vm_compute; reflexivity|].
  exact (E TimerWakes BL808_PDS_WAKEUP_SRC_TIMER (list_elem_of_here _ _) ltac:(discriminate) ltac:(vm_compute; reflexivity)).
Defined.

(** Before the sleep, and at the end of its time. *)
Definition before := run machine0 started.
Definition after := (run machine0 asleep) <| pds_wake_timer := None |>.

Lemma pds_timer_ends_sleep_witness :
  (∃ d, pds_wake_timer (bl808_pds_schedule_sleep before (Some 0)) = Some (virtual_ns before + d) ∧
        (d - 1) * 32768 < 3 * 1000000000 ≤ d * 32768) ∧
  pds_sleep_pending (bl808_pds_wake_cb after) = false ∧
  Z.testbit (pds (bl808_pds_wake_cb after) BL808_PDS_INT_OFFSET) 21 = true ∧ (env (bl808_pds_wake_cb after)).2 = [LpUpdated false; Resumed 0].
Proof.
  pose proof (pds_timer_ends_sleep before (Some 0) after 0) as H. cbv zeta in H.
  assert (pds before BL808_PDS_TIME1_OFFSET = 3) as E by (vm_compute; reflexivity). rewrite E in H.
  destruct H as (Hd & A & _ & _ & _ & B & C);
    [unfold uint; lia|lia|vm_compute; reflexivity|vm_compute; reflexivity|vm_compute; reflexivity|
     vm_compute; reflexivity|vm_compute; reflexivity|vm_compute; reflexivity|].
  rewrite A, B, C. split_and!; [exact Hd|done|done|vm_compute; reflexivity].
Defined.

(** The pin with number 9 wakes up by its high level after one second. *)
Definition held_events : list event :=
  [MachineReset; HbnWrite BL808_HBN_IRQ_MODE_OFFSET 0x0900001B 4; LineCall (LevelLine 9 true); Elapse 1000000000].

Definition held_state := run machine0 held_events.

Lemma held_traced : ∃ since, traced held_state since ∧ since 0 = 0.
Proof.
  eexists. split.
  - unfold held_state, held_events. concrete_run.
  - vm_compute. reflexivity.
Qed.

Lemma hbn_delay_qualified_witness :
  allowed held_state DelayEnds ∧ Z.testbit (hbn (sleep_step held_state DelayEnds) BL808_HBN_IRQ_STAT_OFFSET) 0 = true ∧
  hbn_aon_level held_state 0 = true ∧ bl808_hbn_gpio_delay_ns held_state ≤ virtual_ns held_state.
Proof.
  destruct held_traced as (since & Ht & H0).
  assert (allowed held_state DelayEnds) as Ha by (eexists; split; [vm_compute; reflexivity|vm_compute; congruence]).
  assert (Z.testbit (hbn (sleep_step held_state DelayEnds) BL808_HBN_IRQ_STAT_OFFSET) 0 = true) as Hs by (vm_compute; reflexivity).
  pose proof (hbn_delay_qualified held_state since DelayEnds 0 Ht Ha ltac:(vm_compute; split; congruence)) as H. cbv zeta in H.
  destruct H as [_ H]. destruct H as (_ & Hl & Hd); [vm_compute; reflexivity|right; vm_compute; reflexivity|vm_compute; reflexivity|exact Hs|].
  rewrite H0 in Hd. split_and!; [exact Ha|exact Hs|rewrite Hl; vm_compute; reflexivity|exact Hd].
Defined.

(** The alarm of a machine that hibernates with a word retained. *)
Definition alarm_state := run machine0 [MachineReset; Elapse 1000000; HbnWrite 0x100 0xCAFE 4; HbnWrite BL808_HBN_TIML_OFFSET 100 4;
  HbnWrite BL808_HBN_CTL_OFFSET 0x80 4].

Lemma hbn_alarm_exact_witness :
  ∃ d, 0 < d ∧ hbn_alarm_timer (bl808_hbn_schedule_alarm alarm_state) = Some (1000000 + d) ∧
  100 ≤ bl808_hbn_rtc_ticks (sleep_step alarm_state (Elapse d)) ≤ 101.
Proof.
  pose proof (hbn_alarm_exact alarm_state ltac:(vm_compute; split; congruence) ltac:(vm_compute; split; congruence)) as [_ H].
  destruct H as (d & Hd & Ht & _ & _ & Hr); [vm_compute; reflexivity|].
  assert (virtual_ns alarm_state = 1000000 ∧ bl808_hbn_alarm_ticks alarm_state = 100 ∧ bl808_hbn_rtc_ticks alarm_state = 32) as (En & Ea & Er)
    by (vm_compute; auto).
  rewrite En in Ht, Hr. rewrite Ea, Er in Hr. exists d. split; [exact Hd|]. split; [exact Ht|]. apply Hr; [lia|lia|].
  transitivity (virtual_ns alarm_state + d); [reflexivity|by rewrite En].
Defined.

(** ** Where the code does something else *)

(** A source that is active and is enabled during the sleep does not end it. *)
Lemma pds_enable_misses :
  let s := run machine0 (asleep ++ [PdsWrite (Some 2) BL808_PDS_INT_OFFSET 0x2C00 4]) in
  pds_sleep_pending s = true ∧ bl808_pds_wakeup_source_enabled s BL808_PDS_WAKEUP_SRC_HBN_IRQ = true ∧ m0_hbn_out0_irq s = true.
Proof. vm_compute. auto. Qed.

(** An interrupt of the infrared receiver that is up when the sleep begins does not end
    it, although its source is enabled. *)
Lemma ir_status_slept_over :
  let s := run machine0 [MachineReset; PdsWrite (Some 0) BL808_PDS_INT_OFFSET 0x4000 4;
    IrWrite BL808_IR_RX_CFG_OFFSET 1 4; IrWrite BL808_IR_RX_INT_STS_OFFSET 0x01000000 4; IrInject;
    PdsWrite (Some 0) BL808_PDS_CTL_OFFSET 1 4] in
  pds_sleep_pending s = true ∧ bl808_pds_wakeup_source_enabled s BL808_PDS_WAKEUP_SRC_IRRX = true ∧ irrx_irq s = true.
Proof. vm_compute. auto. Qed.

(** After 2^40 ticks of the clock an alarm that is ahead on the clock of the registers,
    which reads 6, rings in the next nanosecond. *)
Lemma hbn_alarm_wraps :
  let now := 33554432000183106 in
  let s := run machine0 [MachineReset; Elapse now; HbnWrite BL808_HBN_RTC_TIMH_OFFSET 0x80000000 4;
    HbnWrite BL808_HBN_TIML_OFFSET 100 4; HbnWrite BL808_HBN_CTL_OFFSET 0x80 4] in
  bl808_hbn_read s BL808_HBN_RTC_TIML_OFFSET 4 = 6 ∧ bl808_hbn_read s BL808_HBN_RTC_TIMH_OFFSET 4 = BL808_HBN_RTC_LATCH ∧
  bl808_hbn_rtc_ticks s = 2 ^ 40 + 6 ∧ bl808_hbn_alarm_ticks s = 100 ∧ hbn_alarm_timer s = Some (now + 1).
Proof. vm_compute. auto. Qed.

(** A status bit that is written directly leaves the line low. *)
Lemma hbn_status_stale_irq :
  let s := run machine0 [MachineReset; HbnWrite BL808_HBN_IRQ_STAT_OFFSET 1 4] in
  tst (hbn s BL808_HBN_IRQ_STAT_OFFSET) BL808_HBN_OUT0_STATUS_MASK = true ∧ m0_hbn_out0_irq s = false.
Proof. vm_compute. auto. Qed.

(** The low-power core sleeps, loses its clock and runs again at the wake-up. *)
Lemma pds_resumes_stopped_core :
  (env (run machine0 [MachineReset; PdsWrite (Some 2) BL808_PDS_CPU_CORE_CFG0_OFFSET 0x10000000 4;
          PdsWrite (Some 2) BL808_PDS_CTL_OFFSET 1 4; PdsWrite (Some 0) BL808_PDS_CPU_CORE_CFG0_OFFSET 0 4; WifiWakeup])).2 =
  [LpUpdated false; LpUpdated true; LpUpdated false; Resumed 2].
Proof. vm_compute. reflexivity. Qed.

End SleepDemo.
